(* ===== verification/_CoqProject ===== *)
-Q . S2P
Prelude.v
SizeClass.v
Bump.v
Page.v
Layout.v
Arch.v
Fork.v
SlabTiny.v
SlabSmall.v
Dll.v
BuddyTree.v
Buddy.v
BuddyInv.v
BuddySpec.v
RemoteFree.v
CoreCache.v
CoreCacheConc.v
HugeSlab.v
RegionMap.v
RegionSeq.v
Config.v
Debug.v
Refill.v
Numa.v
NumaInit.v
Os.v
Anchor.v
PageHeap.v
PageHeapSpec.v
PageSource.v
NumaPool.v
SlabPage.v
SlabPool.v
SlabPoolSpec.v
BuddyPool.v
BuddyPoolSpec.v
Large.v
LargeSpec.v
ThreadCache.v
ThreadRegistry.v
Lifetime.v
ThreadRegistrySpec.v
ThreadCacheSpec.v
Dispatch.v
DispatchInv.v
DispatchCache.v
DispatchStep.v
DispatchAlloc.v
DispatchFree.v
DispatchSpec.v
DispatchKeep.v
Pprof.v
BgPurge.v
Api.v
ApiInv.v
ApiAlloc.v
ApiServe.v
ApiFree.v
ApiData.v
ApiRing.v
ApiControl.v
ApiHeap.v
ApiBoot.v
ApiProgram.v
ApiSpec.v
Interpose.v
ApiCases.v
