(* ===== verification/Prelude.v ===== *)
(** * v8malloc, verified

    A model of the memory allocator v8malloc in Rocq, and the theorems that make its
    parts correct.  Sources are named relative to [src/src/] unless a path is given.

    ** The program

    A request is mapped to a size class.  Small requests are served by slab pages of
    64 KiB, medium ones by buddy arenas of 256 KiB, the rest by regions of their own;
    every page, arena and region comes from the page heap, which maps memory from
    the operating system and can go through a per-node pool of huge pages.  In front
    of the slab pool stand a cache per thread and a cache per CPU.  The routing layer
    picks the part that serves a request; the public functions wrap it with start-up,
    the soft limit, double-free detection and reports.

    ** The files

    - [Prelude]: machine integers ([u64], [u32], ... written out as wrap-around on
      [Z]), bit operations, word memory [mem] with [rd]/[wr], linked chains in
      memory, lists indexed by [Z].
    - [SizeClass] (v8m_size_class.h, .c): the class formula and the class table.
    - [Bump] (v8m_bump.c, v8m_bootstrap.c, v8m_signal_safe.c): the bump allocators.
    - [Page] (v8m_page.h): page headers and the pointer-to-header mask; [Layout]
      (v8m_page.c, v8m_large.c): the headers as bytes, and the casts between them.
    - [Arch] (v8m_arch.c, v8m_version.c): the architecture probes.
    - [Fork] (the [pthread_atfork] handlers of v8m_api.c and of every module): locks
      and [fork], interleaved.
    - [SlabTiny], [SlabSmall] (v8m_slab_tiny.c, v8m_slab_small.c): the two kinds of
      slab page, a bitmap and a free list; [SlabPage] states what both promise (class
      [Slab] with [SlabLaws]).
    - [Dll], [BuddyTree], [Buddy], [BuddyInv], [BuddySpec] (v8m_buddy.c): one buddy
      arena.  [BuddyTree] is the abstract tree of blocks, [BuddyInv] relates the
      bitmaps and free lists to it, [BuddySpec] has the theorems.
    - [RemoteFree] (v8m_remote_free.h) and [CoreCache], [CoreCacheConc]
      (v8m_core_cache.c): the lock-free queue and stacks, as functions and as
      interleaved steps of a transition relation.
    - [HugeSlab] (v8m_huge_slab.c): a huge page carved into slab pages.
    - [Config], [Refill], [Numa], [NumaInit] (v8m_config.c, v8m_refill_controller.c
      and v8m_thp.c, v8m_numa.c): options, the two adaptive controllers, topology and
      how it is read from sysfs.  [Debug] (v8m_debug.c): the use-after-free detector.
    - [Os]: the operating system's calls as a class with laws; [Anchor]
      (v8m_anchor_reservation.c), [RegionMap], [PageHeap], [PageHeapSpec]
      (v8m_page_heap.c): the page heap over it.  [RegionSeq] has the lock-free
      ownership test against concurrent writers, word by word.
    - [PageSource]: what the pools ask of the page heap, a class with laws that
      [heap_source] discharges with [PageHeapSpec].
    - [NumaPool] (v8m_numa_pool.c), [SlabPool] and [SlabPoolSpec]
      (v8m_slab_pool.c), [BuddyPool] and [BuddyPoolSpec] (v8m_buddy_pool.c),
      [Large] and [LargeSpec] (v8m_large.c): the pools, over [PageSource].
    - [ThreadCache] and [ThreadCacheSpec], [ThreadRegistry] and
      [ThreadRegistrySpec], [Lifetime] (v8m_thread_cache.c, and the counters of
      v8m_dispatch.c): the thread cache, the registry of caches with the statistics,
      and the lifetime sampler.
    - [Dispatch], [DispatchInv], [DispatchCache], [DispatchStep], [DispatchAlloc],
      [DispatchFree], [DispatchSpec] (v8m_dispatch.c): the routing layer over all of
      the above.  [Dispatch.dispatch] is its state, with the pools, the caches and
      the memory they share; [DispatchInv.front] says which objects the caches hold
      and [dispatch_ok B] that the state hands out exactly the blocks [B];
      [DispatchSpec.runs] is a program that allocates, stores and releases.
      [DispatchKeep] has the housekeeping (sweeps, purging, the purge thread's tick).
    - [Pprof] (v8m_pprof.c): the profile writer, with a reader of its format.
    - [BgPurge] (v8m_bg_purge.c): the purge thread, as interleaved steps.
    - [Api] (v8m_api.c): the public functions that hand out, resize and take back
      blocks, over the record [Api.api]; [ApiControl] (v8m_api.c, v8m_api_diag.c,
      v8m_api_libc_compat.c): options, threads, purging and reports; [ApiBoot]:
      start-up and shutdown.  [ApiInv] has the invariant [api_ok B L] (the blocks [B]
      of the routing layer and the blocks [L] of the static buffers), [ApiAlloc],
      [ApiServe], [ApiFree], [ApiData], [ApiRing] and [ApiHeap] the lemmas about
      them, [ApiProgram] whole programs, [ApiSpec] the theorems, [ApiCases] runs that
      part from the comments of the code.
    - [Interpose] (v8m_api_libc_compat.c, v8m_api_cxx.c, v8m_libc_fallback.c): the
      names of the C library and of C++.

    ** How code becomes definitions

    A C struct is a record, an array a list, a pointer a 64-bit [Z]; a function
    becomes a definition with the state it changes as arguments and results.  Memory
    that the code reads through pointers (free-list links, page headers) is an
    explicit finite map.  A mutex makes an operation one step; the lock-free
    structures are modelled step by step.  System calls, clocks, the current CPU and
    results of the pthread calls are arguments or operations of a class with laws.
    NULL, wrap-around and every early return are kept.

    A loop that is not structural takes fuel and returns [None] when it runs out;
    the theorems give the fuel that is enough: the number of pages of a pool for a
    walk over its lists, 7 levels for the buddy loops, 16 rounds for draining a bin
    (16-bit counters, every round halves the bin), the length of the registry for a
    walk over it.

    ** What is proved

    - Every allocator keeps its invariant and the bytes of the objects in use, hands
      out only objects that were not in use, inside memory it owns and disjoint from
      all others, and says when it fails; every release removes exactly the object
      (tiny and small slabs, slab pool, buddy arena and pool, large objects, huge
      pages, page heap regions, bump allocators).
    - The deferred form of buddy coalescing reaches the state of the immediate one;
      the cached ownership test agrees with the region map; the class formula agrees
      with the smallest class that fits.
    - The lock-free queue and stacks are linearizable: every interleaving is the
      history of a sequential stack.
    - Large objects: byte accounting is exact, and the red zone is found overwritten
      exactly when it was.
    - Thread caches: bins are stacks of free objects, draining ends and returns every
      object, capacities stay in their bounds, and statistics survive thread exit.
    - The routing layer: allocation, aligned allocation and release keep the
      invariant of all pools and caches together, blocks of the program never overlap
      and keep their contents, and this holds for every sequence of legal calls.
    - Profiles: what is written parses back to the histogram, gzip framing and
      checksum included.  Purge thread: no lost wake-up, and a shutdown ends.
    - The public functions: every one of the malloc family on every branch ([errno]
      and return codes included), for every legal sequence of calls since start-up;
      the double-free detector reports exactly the releases it should; start-up
      establishes the invariant.  A requested alignment is kept, but for 16 in the
      classes of 8, 24, 40 and 56 bytes ([ApiCases] has the run).  The soft limit
      turns a request away only after everything parked went back to the page heap;
      the sum it compares is taken modulo [2^64].  The out-of-memory handler may
      release blocks of the program; a theorem that needs one of them kept says which
      it spares ([ApiAlloc.handler_spares]).
    - [fork]: no schedule of operations and forks deadlocks, and a child starts with
      every lock free.  The lock-free ownership test answers for a map of its time
      in every interleaving with registrations and removals.
    - Thread exit is two steps, unlinking under the registry lock and folding the
      counters after it; the statistics are conserved once both are done.
    - Page headers: the struct types read the same bytes the same way, in both byte
      orders.  Option parsing, sysfs parsing, refill batches, NUMA fallback order,
      the stamps of the use-after-free detector.

    Claims are numbered [C<n>] in the comments before their theorems; a lemma named
    [..._witness] applies the claim to a concrete state.

    ** Not modelled

    Printed lines (statistics dumps, verbose and error messages) beyond the numbers in
    them; the hooks and threads the constructor installs, which appear as the parts
    they run; the profile written at exit; benchmarks and tests.  System calls and
    C-library functions are arguments or classes with laws.  The pools are modelled
    with the use-after-free detector latched off.  Orders weaker than sequential
    consistency are outside the models of the lock-free parts.  The routing layer is
    modelled over the baseline class table.  The routing layer and
    the public functions are seen by one thread: objects that other threads keep in
    their caches count as blocks of the program.  The hypotheses of their theorems
    say that a program does not forge the header of a large object in front of one of
    its blocks; a red zone it overwrites is found and aborts. *)

From Stdlib Require Export ZArith Lia.
From stdpp Require Export base numbers gmap list.

#[global] Open Scope Z_scope.

(** ** Machine integers

    A [w]-bit unsigned C integer is a [Z] in [0 .. 2^w - 1]; the wrap-around of
    the C operators is written out with [u64], [u32], [u16] and [u8]. *)

Declare Scope v8m_scope.
Delimit Scope v8m_scope with v8m.

Definition u64 (x : Z) : Z := x mod 2 ^ 64.
Definition u32 (x : Z) : Z := x mod 2 ^ 32.
Definition u16 (x : Z) : Z := x mod 2 ^ 16.
Definition u8 (x : Z) : Z := x mod 2 ^ 8.

Definition SIZE_MAX : Z := 2 ^ 64 - 1.
Definition UINT64_MAX : Z := 2 ^ 64 - 1.
Definition UINT32_MAX : Z := 2 ^ 32 - 1.
Definition UINT16_MAX : Z := 2 ^ 16 - 1.

Definition is_u64 (x : Z) : Prop := 0 <= x < 2 ^ 64.
Definition is_u32 (x : Z) : Prop := 0 <= x < 2 ^ 32.

(** The null pointer; addresses are plain 64-bit integers. *)
Definition NULL : Z := 0.

Notation "a ⊞ b" := (u64 (a + b)) (at level 50, left associativity) : v8m_scope.
Notation "a ⊟ b" := (u64 (a - b)) (at level 50, left associativity) : v8m_scope.

Lemma u64_small x : is_u64 x -> u64 x = x.
Proof. intros H. apply Z.mod_small, H. Qed.

Lemma u64_range x : is_u64 (u64 x).
Proof. apply Z.mod_pos_bound. lia. Qed.

Lemma u32_small x : 0 <= x < 2 ^ 32 -> u32 x = x.
Proof. apply Z.mod_small. Qed.

Lemma u32_range x : 0 <= u32 x < 2 ^ 32.
Proof. apply Z.mod_pos_bound. lia. Qed.

Lemma u16_small x : 0 <= x < 2 ^ 16 -> u16 x = x.
Proof. apply Z.mod_small. Qed.

Lemma u16_range x : 0 <= u16 x < 2 ^ 16.
Proof. apply Z.mod_pos_bound. lia. Qed.

Lemma u8_small x : 0 <= x < 2 ^ 8 -> u8 x = x.
Proof. apply Z.mod_small. Qed.

(** ** Bit operations on 64-bit words *)

(** [__builtin_clzl(x)] for [x <> 0]: the number of leading zero bits. *)
Definition clz64 (x : Z) : Z := 63 - Z.log2 x.

(** [w & (1 << i)] as a truth value, [w |= 1 << i] and [w &= ~(1 << i)]. *)
Definition bit_test (w i : Z) : bool := negb (Z.land w (Z.shiftl 1 i) =? 0).
Definition bit_set (w i : Z) : Z := Z.lor w (Z.shiftl 1 i).
Definition bit_clear (w i : Z) : Z := Z.land w (u64 (Z.lnot (Z.shiftl 1 i))).

(** [__builtin_ctzll(x)]: the index of the least significant set bit, found by
    scanning upwards; [0] for [x = 0], where the C builtin is undefined. *)
Fixpoint ctz_pos (p : positive) : Z :=
  match p with
  | xO q => 1 + ctz_pos q
  | _ => 0
  end.
Definition ctz (x : Z) : Z := match x with Zpos p => ctz_pos p | _ => 0 end.

Create HintDb v8m discriminated.
Create HintDb v8m_bits discriminated.

Lemma testbit_shiftl1 i j : 0 <= i -> 0 <= j -> Z.testbit (Z.shiftl 1 i) j = (j =? i).
Proof.
  intros Hi Hj. rewrite Z.shiftl_spec by lia.
  destruct (Z.eqb_spec j i) as [->|Hne].
  - rewrite Z.sub_diag. reflexivity.
  - destruct (Z.lt_ge_cases j i).
    + apply Z.testbit_neg_r. lia.
    + replace (Z.testbit 1 (j - i)) with (Z.testbit (2 ^ 0) (j - i)) by reflexivity.
      apply Z.pow2_bits_false. lia.
Qed.

Lemma testbit_u64 x j : 0 <= j -> Z.testbit (u64 x) j = (j <? 64) && Z.testbit x j.
Proof.
  intros Hj. unfold u64. destruct (Z.ltb_spec j 64).
  - by rewrite Z.mod_pow2_bits_low by lia.
  - by rewrite Z.mod_pow2_bits_high by lia.
Qed.

Lemma testbit_high w k j : 0 <= k <= j -> 0 <= w < 2 ^ k -> Z.testbit w j = false.
Proof.
  intros Hk Hw. rewrite <- (Z.mod_small w (2 ^ k)) by lia.
  apply Z.mod_pow2_bits_high. lia.
Qed.

Lemma bit_test_testbit w i : 0 <= i -> bit_test w i = Z.testbit w i.
Proof.
  intros Hi. unfold bit_test.
  destruct (Z.testbit w i) eqn:E.
  - apply negb_true_iff, Z.eqb_neq. intros H0.
    apply (f_equal (fun x => Z.testbit x i)) in H0.
    rewrite Z.land_spec, E, testbit_shiftl1, Z.eqb_refl, Z.bits_0 in H0 by lia. done.
  - apply negb_false_iff, Z.eqb_eq, Z.bits_inj'. intros j Hj.
    rewrite Z.land_spec, testbit_shiftl1, Z.bits_0 by lia.
    destruct (Z.eqb_spec j i) as [->|]; [by rewrite E | apply andb_false_r].
Qed.

Lemma testbit_bit_set w i j :
  0 <= i -> 0 <= j -> Z.testbit (bit_set w i) j = (j =? i) || Z.testbit w j.
Proof.
  intros Hi Hj. unfold bit_set. rewrite Z.lor_spec, testbit_shiftl1 by lia.
  apply orb_comm.
Qed.

Lemma testbit_bit_clear w i j :
  is_u64 w -> 0 <= i -> 0 <= j ->
  Z.testbit (bit_clear w i) j = negb (j =? i) && Z.testbit w j.
Proof.
  intros Hw Hi Hj. unfold bit_clear. rewrite Z.land_spec, testbit_u64 by lia.
  rewrite Z.lnot_spec, testbit_shiftl1 by lia.
  destruct (Z.ltb_spec j 64).
  - rewrite andb_true_l. apply andb_comm.
  - rewrite (testbit_high w 64 j) by (unfold is_u64 in Hw; lia).
    by destruct (j =? i).
Qed.

Lemma land_range a b k : 0 <= k -> 0 <= a < 2 ^ k -> 0 <= b -> 0 <= Z.land a b < 2 ^ k.
Proof.
  intros Hk Ha Hb. split; [apply Z.land_nonneg; lia|].
  destruct (Z.eq_dec (Z.land a b) 0) as [->|Hn]; [lia|].
  apply Z.log2_lt_pow2. { pose proof (Z.land_nonneg a b). lia. }
  destruct (Z.eq_dec a 0) as [->|]; [by rewrite Z.land_0_l in Hn|].
  eapply Z.le_lt_trans; [apply Z.log2_land; lia|].
  assert (Z.log2 a < k) by (apply Z.log2_lt_pow2; lia). lia.
Qed.

Lemma lor_range a b k : 0 <= k -> 0 <= a < 2 ^ k -> 0 <= b < 2 ^ k -> 0 <= Z.lor a b < 2 ^ k.
Proof.
  intros Hk Ha Hb. split; [apply Z.lor_nonneg; lia|].
  destruct (Z.eq_dec (Z.lor a b) 0) as [->|Hn]; [lia|].
  assert (0 < Z.lor a b) by (pose proof (Z.lor_nonneg a b); lia).
  apply Z.log2_lt_pow2; [lia|]. rewrite Z.log2_lor by lia.
  assert (Hlog : forall x, 0 <= x < 2 ^ k -> x <> 0 -> Z.log2 x < k).
  { intros x Hx Hx0. apply Z.log2_lt_pow2; lia. }
  destruct (Z.eq_dec a 0) as [->|Ha0], (Z.eq_dec b 0) as [->|Hb0].
  - done.
  - rewrite Z.max_r by (cbn; apply Z.log2_nonneg). auto.
  - rewrite Z.max_l by (cbn; apply Z.log2_nonneg). auto.
  - apply Z.max_lub_lt; auto.
Qed.

Lemma bit_set_range w i : is_u64 w -> 0 <= i < 64 -> is_u64 (bit_set w i).
Proof.
  intros Hw Hi. apply lor_range; [lia|exact Hw|].
  rewrite Z.shiftl_1_l. split; [lia|]. apply Z.pow_lt_mono_r; lia.
Qed.

Lemma bit_clear_range w i : is_u64 w -> is_u64 (bit_clear w i).
Proof.
  intros Hw. apply land_range; [lia|exact Hw|]. apply u64_range.
Qed.

#[export] Hint Resolve u64_range bit_set_range bit_clear_range : v8m.

Lemma ctz_pos_nonneg p : 0 <= ctz_pos p.
Proof. induction p; cbn [ctz_pos]; lia. Qed.

Lemma ctz_nonneg x : 0 <= ctz x.
Proof. destruct x; cbn; try lia. apply ctz_pos_nonneg. Qed.

Lemma ctz_testbit x : 0 < x -> Z.testbit x (ctz x) = true.
Proof.
  destruct x as [|p|p]; try lia. intros _. cbn [ctz].
  induction p as [p IH|p IH|]; cbn [ctz_pos]; try done.
  pose proof (ctz_pos_nonneg p).
  rewrite Pos2Z.inj_xO.
  replace (1 + ctz_pos p) with (Z.succ (ctz_pos p)) by lia.
  rewrite Z.testbit_even_succ by lia. exact IH.
Qed.

Lemma ctz_below x i : 0 <= i < ctz x -> Z.testbit x i = false.
Proof.
  destruct x as [|p|p]; cbn [ctz]; try lia.
  revert i. induction p as [p IH|p IH|]; cbn [ctz_pos]; intros i Hi; try lia.
  rewrite Pos2Z.inj_xO. destruct (Z.eq_dec i 0) as [->|].
  - apply Z.testbit_even_0.
  - replace i with (Z.succ (i - 1)) by lia.
    rewrite Z.testbit_even_succ by lia. apply IH. lia.
Qed.

Lemma ctz_lt x k : 0 <= k -> 0 < x < 2 ^ k -> ctz x < k.
Proof.
  intros Hk Hx. destruct (Z.lt_ge_cases (ctz x) k); [done|].
  pose proof (ctz_testbit x ltac:(lia)) as Ht.
  rewrite (testbit_high x k) in Ht by lia. done.
Qed.

(** Rounding up to a power of two, as the C idiom
    [(value + (a - 1)) & ~(a - 1)] computes it on [size_t]. *)
Definition round_up_mask (value a : Z) : Z :=
  Z.land (u64 (value + (a - 1))) (u64 (Z.lnot (a - 1))).

(** Masking the low [k] bits away, [x & ~(2^k - 1)], on a 64-bit word. *)
Lemma land_mask_clear x k :
  0 <= k <= 64 -> is_u64 x -> Z.land x (u64 (Z.lnot (2 ^ k - 1))) = x - x mod 2 ^ k.
Proof.
  intros Hk Hx.
  replace (2 ^ k - 1) with (Z.ones k) by (rewrite Z.ones_equiv; lia).
  assert (Heq : x - x mod 2 ^ k = Z.shiftl (Z.shiftr x k) k).
  { rewrite Z.shiftl_mul_pow2, Z.shiftr_div_pow2 by lia.
    pose proof (Z.div_mod x (2 ^ k)). lia. }
  rewrite Heq. apply Z.bits_inj'. intros j Hj.
  rewrite Z.land_spec, testbit_u64, Z.lnot_spec, Z.shiftl_spec by lia.
  destruct (Z.lt_ge_cases j k).
  - rewrite (Z.testbit_neg_r _ (j - k)), Z.ones_spec_low by lia.
    destruct (j <? 64); by rewrite ?andb_false_r.
  - rewrite Z.shiftr_spec, Z.ones_spec_high by lia. replace (j - k + k) with j by lia.
    destruct (Z.ltb_spec j 64).
    + cbn. by rewrite andb_true_r.
    + by rewrite (testbit_high x 64) by (unfold is_u64 in Hx; lia).
Qed.

Lemma land_mask_low x k : 0 <= k -> Z.land x (2 ^ k - 1) = x mod 2 ^ k.
Proof.
  intros Hk. replace (2 ^ k - 1) with (Z.ones k) by (rewrite Z.ones_equiv; lia).
  by apply Z.land_ones.
Qed.

Lemma round_up_mask_spec value k :
  0 <= k <= 64 -> 0 <= value -> value + (2 ^ k - 1) < 2 ^ 64 ->
  round_up_mask value (2 ^ k) = 2 ^ k * ((value + (2 ^ k - 1)) / 2 ^ k).
Proof.
  intros Hk Hv Ho. assert (0 < 2 ^ k) by (apply Z.pow_pos_nonneg; lia).
  unfold round_up_mask. rewrite u64_small by (unfold is_u64; lia).
  rewrite land_mask_clear by (unfold is_u64; lia).
  pose proof (Z.div_mod (value + (2 ^ k - 1)) (2 ^ k)). lia.
Qed.

(** [round_up_mask] is the least multiple of [2^k] that is at least [value]. *)
Lemma round_up_mask_bounds value k :
  0 <= k <= 64 -> 0 <= value -> value + (2 ^ k - 1) < 2 ^ 64 ->
  (2 ^ k | round_up_mask value (2 ^ k)) /\
  value <= round_up_mask value (2 ^ k) < value + 2 ^ k.
Proof.
  intros Hk Hv Ho. assert (0 < 2 ^ k) by (apply Z.pow_pos_nonneg; lia).
  rewrite round_up_mask_spec by done. split; [apply Z.divide_factor_l|].
  pose proof (Z.mod_pos_bound (value + (2 ^ k - 1)) (2 ^ k)).
  pose proof (Z.div_mod (value + (2 ^ k - 1)) (2 ^ k)). lia.
Qed.

(** ** Arrays of words

    A C array of integers is a list; an index is the [Z] the code computes.
    Every access of the models is in range, where [znth] is the element. *)

Definition znth (l : list Z) (i : Z) : Z := default 0 (l !! Z.to_nat i).
Definition zupd (l : list Z) (i v : Z) : list Z := <[Z.to_nat i := v]> l.

Lemma length_zupd l i v : length (zupd l i v) = length l.
Proof. apply length_insert. Qed.

Lemma znth_zupd l i j v :
  0 <= i < Z.of_nat (length l) -> 0 <= j ->
  znth (zupd l i v) j = if j =? i then v else znth l j.
Proof.
  intros Hi Hj. unfold znth, zupd. destruct (Z.eqb_spec j i) as [->|Hne].
  - by rewrite list_lookup_insert_eq by lia.
  - by rewrite list_lookup_insert_ne by lia.
Qed.

Lemma znth_Forall (P : Z -> Prop) l i : P 0 -> Forall P l -> P (znth l i).
Proof.
  intros H0 H. unfold znth. destruct (l !! Z.to_nat i) as [v|] eqn:E; [|done].
  by eapply Forall_lookup_1.
Qed.

Lemma znth_replicate n v i : 0 <= i < Z.of_nat n -> znth (replicate n v) i = v.
Proof. intros H. unfold znth. by rewrite lookup_replicate_2 by lia. Qed.

(** ** Memory words and intrusive lists

    The allocator threads its free lists through the first word of the free
    objects.  Memory is a finite map from addresses to 64-bit words; a word
    that was never written reads as [0], as fresh [mmap] memory does. *)

Abbreviation mem := (gmap Z Z).

Definition rd (m : mem) (a : Z) : Z := default 0 (m !! a).
Definition wr (m : mem) (a v : Z) : mem := <[a := v]> m.

Lemma rd_wr_eq m a v : rd (wr m a v) a = v.
Proof. unfold rd, wr. by rewrite lookup_insert_eq. Qed.

Lemma rd_wr_ne m a b v : a <> b -> rd (wr m a v) b = rd m b.
Proof. intros. unfold rd, wr. by rewrite lookup_insert_ne. Qed.

(** [chain m h l]: starting at [h] and following the word stored at each node,
    memory holds exactly the nodes [l], terminated by [NULL]. *)
Fixpoint chain (m : mem) (h : Z) (l : list Z) : Prop :=
  match l with
  | [] => h = NULL
  | a :: l' => h = a /\ a <> NULL /\ chain m (rd m a) l'
  end.

Lemma chain_nil m h : chain m h [] <-> h = NULL.
Proof. done. Qed.

Lemma chain_null m l : chain m NULL l -> l = [].
Proof. destruct l as [|a l]; cbn; [done|]. intros (<- & ? & _). done. Qed.

Lemma chain_not_null m h l : 
  chain m h l -> h <> NULL -> exists l', l = h :: l' /\ chain m (rd m h) l'.
Proof.
  destruct l as [|a l]; cbn; [done|]. intros (-> & _ & Hc) _. by exists l.
Qed.

Lemma chain_det m h l1 l2 : chain m h l1 -> chain m h l2 -> l1 = l2.
Proof.
  revert h l2. induction l1 as [|a l1 IH]; cbn; intros h l2.
  - intros -> H2. by apply chain_null in H2.
  - intros (-> & Ha & H1) H2. destruct l2 as [|b l2]; cbn in H2; [done|].
    destruct H2 as (-> & _ & H2). f_equal. by eapply IH.
Qed.

Lemma chain_frame m a v h l : a ∉ l -> chain m h l -> chain (wr m a v) h l.
Proof.
  revert h. induction l as [|b l IH]; cbn; intros h Ha; [done|].
  apply not_elem_of_cons in Ha as [Hne Ha].
  intros (-> & Hb & Hc). rewrite rd_wr_ne by done. auto.
Qed.

Lemma chain_suffix m h l1 l2 : chain m h (l1 ++ l2) -> exists h', chain m h' l2.
Proof.
  revert h. induction l1 as [|a l1 IH]; cbn; intros h; [by exists h|].
  intros (_ & _ & Hc). by eapply IH.
Qed.

(** A finite chain cannot visit a node twice. *)
Lemma chain_NoDup m h l : chain m h l -> NoDup l.
Proof.
  revert h. induction l as [|a l IH]; intros h; [constructor|].
  cbn. intros (-> & Ha & Hc). constructor; [|by eapply IH].
  intros Hin. apply list_elem_of_split in Hin as (l1 & l2 & ->).
  apply chain_suffix in Hc as Hs. destruct Hs as (h' & Hs).
  cbn in Hs. destruct Hs as (-> & _ & Hs).
  pose proof (chain_det _ _ _ _ Hc Hs) as He.
  apply (f_equal length) in He. rewrite length_app in He. cbn in He. lia.
Qed.

Lemma chain_push m h l a :
  a <> NULL -> a ∉ l -> chain m h l -> chain (wr m a h) a (a :: l).
Proof.
  intros Ha Hn Hc. cbn. rewrite rd_wr_eq. split_and!; [done|done|].
  by apply chain_frame.
Qed.

Lemma chain_pop m a l h : 
  chain m h (a :: l) -> h = a /\ a <> NULL /\ (a ∉ l) /\ chain m (rd m a) l.
Proof.
  intros Hc. pose proof (chain_NoDup _ _ _ Hc) as Hnd.
  apply NoDup_cons in Hnd as [Hn _]. cbn in Hc. naive_solver.
Qed.

(** Overwriting the tail's link splices another chain behind it. *)
Lemma chain_splice m h l1 t h2 l2 :
  chain m h (l1 ++ [t]) -> chain m h2 l2 ->
  (forall x, x ∈ l1 ++ [t] -> x ∉ l2) ->
  chain (wr m t h2) h (l1 ++ t :: l2).
Proof.
  intros Hc Hc2 Hd. pose proof (chain_NoDup _ _ _ Hc) as Hnd.
  revert h Hc Hd Hnd. induction l1 as [|a l1 IH]; intros h; cbn.
  - intros (-> & Ht & _) Hd _. rewrite rd_wr_eq. split_and!; [done|done|].
    apply chain_frame; [|done]. apply Hd. set_solver.
  - intros (-> & Ha & Hc) Hd Hnd. apply NoDup_cons in Hnd as [Hni Hnd].
    rewrite rd_wr_ne by set_solver. split_and!; [done|done|].
    apply IH; [done|set_solver|done].
Qed.

(** ** Counting *)

(** The number of [i] in [0 .. n - 1] for which [f i] holds. *)
Fixpoint count_below (f : Z -> bool) (n : nat) : Z :=
  match n with
  | O => 0
  | S n' => count_below f n' + (if f (Z.of_nat n') then 1 else 0)
  end.

Lemma count_below_ext f g n :
  (forall i, 0 <= i < Z.of_nat n -> f i = g i) -> count_below f n = count_below g n.
Proof.
  induction n as [|n IH]; intros H; cbn [count_below]; [done|].
  rewrite IH by (intros; apply H; lia). by rewrite H by lia.
Qed.

Lemma count_below_bounds f n : 0 <= count_below f n <= Z.of_nat n.
Proof. induction n as [|n IH]; cbn [count_below]; [lia|]. destruct (f _); lia. Qed.

Lemma count_below_none f n :
  (forall i, 0 <= i < Z.of_nat n -> f i = false) -> count_below f n = 0.
Proof.
  induction n as [|n IH]; intros H; cbn [count_below]; [done|].
  rewrite IH by (intros; apply H; lia). by rewrite H by lia.
Qed.

Lemma count_below_full f n :
  count_below f n = Z.of_nat n -> forall i, 0 <= i < Z.of_nat n -> f i = true.
Proof.
  induction n as [|n IH]; cbn [count_below]; intros H i Hi; [lia|].
  pose proof (count_below_bounds f n).
  destruct (f (Z.of_nat n)) eqn:E; [|lia].
  destruct (Z.eq_dec i (Z.of_nat n)) as [->|]; [done|]. apply IH; lia.
Qed.

Lemma count_below_zero f n :
  count_below f n = 0 -> forall i, 0 <= i < Z.of_nat n -> f i = false.
Proof.
  induction n as [|n IH]; cbn [count_below]; intros H i Hi; [lia|].
  pose proof (count_below_bounds f n).
  destruct (f (Z.of_nat n)) eqn:E; [lia|].
  destruct (Z.eq_dec i (Z.of_nat n)) as [->|]; [done|]. apply IH; lia.
Qed.

(** Changing [f] at one index below [n] changes the count by that index. *)
Lemma count_below_update f g n i :
  0 <= i < Z.of_nat n -> (forall j, 0 <= j < Z.of_nat n -> j <> i -> g j = f j) ->
  count_below g n = count_below f n + (if g i then 1 else 0) - (if f i then 1 else 0).
Proof.
  induction n as [|n IH]; intros Hi H; cbn [count_below]; [lia|].
  destruct (Z.eq_dec i (Z.of_nat n)) as [->|Hne].
  - rewrite (count_below_ext g f) by (intros; apply H; lia). lia.
  - rewrite IH by (lia || (intros; apply H; lia)). rewrite (H (Z.of_nat n)) by lia. lia.
Qed.

(** ** Replacing one element of a list *)

Lemma insert_perm {A} (l : list A) i x y : l !! i = Some x -> exists l', l ≡ₚ x :: l' /\ <[i := y]> l ≡ₚ y :: l'.
Proof.
  intros Hi. exists (take i l ++ drop (S i) l). split.
  - rewrite <- (take_drop_middle l i x Hi) at 1. by rewrite Permutation_middle.
  - rewrite insert_take_drop by (by eapply lookup_lt_Some). by rewrite Permutation_middle.
Qed.
