(* ===== verification/SizeClass.v ===== *)
(** Size classes: [src/v8m_size_class.h] and [src/v8m_size_class.c].

    [v8m_size_class] maps a request size to one of 41 classes (or to
    [V8M_CLASS_HUGE]), [v8m_class_to_size] is the table of class sizes, and
    [v8m_size_class_install_table] swaps the active table at run time.  The
    theorems show that the branchless formula picks the smallest class that
    serves the request, for every request, and that it inverts the table. *)

From S2P Require Import Prelude.

Module SizeClass.

Definition V8M_TINY_MAX_SIZE : Z := 64.
Definition V8M_TINY_ROUND_UP_MASK : Z := 7.
Definition V8M_TINY_SHIFT : Z := 3.
Definition V8M_SMALL_MAX_SIZE : Z := 4096.
Definition V8M_SMALL_FIRST_CLASS : Z := 8.
Definition V8M_SMALL_MSB_BASE : Z := 6.
Definition V8M_SMALL_SUBCLASS_BITS : Z := 2.
Definition V8M_SMALL_SUBCLASS_MASK : Z := Z.shiftl 1 V8M_SMALL_SUBCLASS_BITS - 1.
Definition V8M_MEDIUM_FIRST_CLASS : Z := 32.
Definition V8M_MEDIUM_MSB_BASE : Z := 12.
Definition V8M_LARGE_LAST_CLASS : Z := 40.
Definition V8M_LARGE_MAX_SIZE : Z := 2 * 1024 * 1024.
Definition V8M_NUM_SIZE_CLASSES : Z := 41.
Definition V8M_CLASS_HUGE : Z := UINT32_MAX.

Definition v8m_class_to_size : list Z :=
  [8; 16; 24; 32; 40; 48; 56; 64;
   80; 96; 112; 128;
   160; 192; 224; 256;
   320; 384; 448; 512;
   640; 768; 896; 1024;
   1280; 1536; 1792; 2048;
   2560; 3072; 3584; 4096;
   8192; 16384; 32768; 65536; 131072; 262144;
   524288; 1048576; 2097152].

(** [v8m_size_class_size(cls)]: index the table the active pointer names. *)
Definition v8m_size_class_size (active : list Z) (cls : Z) : Z :=
  znth active cls.

(** [v8m_size_class_install_table]: the atomic exchange of the active table;
    [None] is the C caller's [NULL].  Returns the new active table and the
    previous one. *)
Definition v8m_size_class_install_table (active : list Z) (new_table : option (list Z))
  : list Z * list Z :=
  let new_table := default v8m_class_to_size new_table in
  (new_table, active).

Definition v8m_size_class (req_size : Z) : Z :=
  if req_size <=? V8M_TINY_MAX_SIZE then
    let coerced := u64 (req_size + (if req_size =? 0 then 1 else 0)) in
    u32 (u64 (Z.shiftr (u64 (coerced + V8M_TINY_ROUND_UP_MASK)) V8M_TINY_SHIFT - 1))
  else if V8M_SMALL_MAX_SIZE <? req_size then
    let adjusted := u64 (req_size - 1) in
    let msb := u32 (63 - clz64 adjusted) in
    let cls := u32 (V8M_MEDIUM_FIRST_CLASS + u32 (msb - V8M_MEDIUM_MSB_BASE)) in
    if V8M_LARGE_LAST_CLASS <? cls then V8M_CLASS_HUGE else cls
  else
    let adjusted := u64 (req_size - 1) in
    let msb := u32 (63 - clz64 adjusted) in
    let group := u32 (msb - V8M_SMALL_MSB_BASE) in
    let sub := u32 (Z.land (Z.shiftr adjusted (u32 (msb - V8M_SMALL_SUBCLASS_BITS)))
                           V8M_SMALL_SUBCLASS_MASK) in
    u32 (u32 (V8M_SMALL_FIRST_CLASS + u32 (Z.shiftl group V8M_SMALL_SUBCLASS_BITS)) + sub).

(** The baseline size of a class. *)
Definition class_size (c : Z) : Z := v8m_size_class_size v8m_class_to_size c.

(** ** Correctness *)

(** The specification of [v8m_size_class] at one request. *)
Definition smallest_class (req c : Z) : Prop :=
  0 <= c <= V8M_LARGE_LAST_CLASS /\ req <= class_size c /\
  (forall c', 0 <= c' < c -> class_size c' < req).

Definition smallest_classb (req c : Z) : bool :=
  (0 <=? c) && (c <=? V8M_LARGE_LAST_CLASS) && (req <=? class_size c) &&
  ((c =? 0) || (class_size (c - 1) <? req)).

Lemma class_size_mono c c' : 0 <= c < c' -> c' <= 40 -> class_size c < class_size c'.
Proof.
  intros H H'.
  assert (Hall : forallb (fun a => forallb (fun b =>
      negb (a <? b)%nat || (class_size (Z.of_nat a) <? class_size (Z.of_nat b)))
        (seq 0 41)) (seq 0 41) = true) by (vm_compute; reflexivity).
  rewrite forallb_forall in Hall. specialize (Hall (Z.to_nat c)).
  rewrite in_seq in Hall. specialize (Hall ltac:(lia)).
  rewrite forallb_forall in Hall. specialize (Hall (Z.to_nat c')).
  rewrite in_seq in Hall. specialize (Hall ltac:(lia)).
  rewrite !Z2Nat.id in Hall by lia.
  apply orb_true_iff in Hall as [Hn|Hlt].
  - apply negb_true_iff, Nat.ltb_ge in Hn. lia.
  - by apply Z.ltb_lt.
Qed.
Lemma class_size_pos c : 0 <= c < V8M_MEDIUM_FIRST_CLASS -> 0 < class_size c.
Proof.
  unfold V8M_MEDIUM_FIRST_CLASS. intros Hc. destruct (decide (c = 0)) as [->|]; [done|]. pose proof (class_size_mono 0 c ltac:(lia) ltac:(lia)) as Hm.
  change (class_size 0) with 8 in Hm. lia.
Qed.

Lemma smallest_classb_sound req c : smallest_classb req c = true -> smallest_class req c.
Proof.
  unfold smallest_classb, smallest_class. rewrite !andb_true_iff, orb_true_iff.
  rewrite !Z.leb_le, Z.eqb_eq, Z.ltb_lt. intros (((H0 & H1) & H2) & H3).
  split_and!; [lia|lia|done|]. intros c' Hc'.
  destruct H3 as [->|H3]; [lia|].
  destruct (Z.eq_dec c' (c - 1)) as [->|]; [done|].
  unfold V8M_LARGE_LAST_CLASS in H1.
  pose proof (class_size_mono c' (c - 1)). lia.
Qed.

Lemma smallest_class_unique req c1 c2 :
  smallest_class req c1 -> smallest_class req c2 -> c1 = c2.
Proof.
  intros (H1 & L1 & S1) (H2 & L2 & S2).
  destruct (Z.lt_trichotomy c1 c2) as [H|[H|H]]; [|done|].
  - specialize (S2 c1 ltac:(lia)). lia.
  - specialize (S1 c2 ltac:(lia)). lia.
Qed.

Lemma smallest_class_small req :
  0 < req <= V8M_SMALL_MAX_SIZE -> smallest_class req (v8m_size_class req).
Proof.
  intros H. apply smallest_classb_sound.
  assert (Hall : forallb (fun n => smallest_classb (Z.of_nat n) (v8m_size_class (Z.of_nat n)))
                   (seq 1 4096) = true) by (vm_compute; reflexivity).
  rewrite forallb_forall in Hall. unfold V8M_SMALL_MAX_SIZE in H.
  specialize (Hall (Z.to_nat req)). rewrite in_seq in Hall.
  specialize (Hall ltac:(lia)). by rewrite Z2Nat.id in Hall by lia.
Qed.

(** Above the Small range the class is determined by the top bit of [req - 1]. *)
Lemma size_class_medium_eq req k :
  12 <= k < 64 -> 2 ^ k < req <= 2 ^ (k + 1) -> req < 2 ^ 64 ->
  v8m_size_class req = if 20 <? k then V8M_CLASS_HUGE else k + 20.
Proof.
  intros Hk Hr Hmax.
  assert (2 ^ 12 <= 2 ^ k) by (apply Z.pow_le_mono_r; lia).
  change (2 ^ 12) with 4096 in *.
  assert (Hlog : Z.log2 (req - 1) = k).
  { apply Z.log2_unique; [lia|]. replace (Z.succ k) with (k + 1) by lia. lia. }
  unfold v8m_size_class, V8M_TINY_MAX_SIZE, V8M_SMALL_MAX_SIZE, V8M_LARGE_LAST_CLASS.
  destruct (Z.leb_spec req 64); [lia|]. destruct (Z.ltb_spec 4096 req); [|lia].
  rewrite (u64_small (req - 1)) by (unfold is_u64; lia).
  unfold clz64. rewrite Hlog. unfold V8M_MEDIUM_FIRST_CLASS, V8M_MEDIUM_MSB_BASE.
  rewrite (u32_small (63 - (63 - k))) by lia.
  rewrite (u32_small (63 - (63 - k) - 12)) by lia. rewrite u32_small by lia.
  destruct (Z.ltb_spec 40 (32 + (63 - (63 - k) - 12))), (Z.ltb_spec 20 k); try lia.
Qed.

Lemma log2_bracket req :
  4096 < req -> exists k, 12 <= k /\ 2 ^ k < req <= 2 ^ (k + 1).
Proof.
  intros H. exists (Z.log2 (req - 1)).
  pose proof (Z.log2_spec (req - 1) ltac:(lia)) as Hs.
  assert (12 <= Z.log2 (req - 1)) by (apply Z.log2_le_pow2; lia).
  replace (Z.succ (Z.log2 (req - 1))) with (Z.log2 (req - 1) + 1) in Hs by lia. lia.
Qed.

(** Medium and Large classes are the powers of two. *)
Lemma class_size_pow2 k : 11 <= k <= 20 -> class_size (k + 20) = 2 ^ (k + 1).
Proof.
  intros H.
  assert (Hk : k ∈ [11; 12; 13; 14; 15; 16; 17; 18; 19; 20]) by (rewrite !elem_of_cons; lia).
  repeat (apply elem_of_cons in Hk as [->|Hk]; [reflexivity|]).
  by apply not_elem_of_nil in Hk.
Qed.

Lemma smallest_class_medium req :
  V8M_SMALL_MAX_SIZE < req <= V8M_LARGE_MAX_SIZE -> smallest_class req (v8m_size_class req).
Proof.
  unfold V8M_SMALL_MAX_SIZE, V8M_LARGE_MAX_SIZE. intros H.
  destruct (log2_bracket req ltac:(lia)) as (k & Hk & Hb).
  assert (k <= 20).
  { destruct (Z.le_gt_cases k 20); [done|].
    assert (2 ^ 21 <= 2 ^ k) by (apply Z.pow_le_mono_r; lia). lia. }
  rewrite (size_class_medium_eq req k) by lia.
  destruct (Z.ltb_spec 20 k); [lia|]. apply smallest_classb_sound.
  unfold smallest_classb, V8M_LARGE_LAST_CLASS.
  rewrite !andb_true_iff, orb_true_iff, !Z.leb_le, Z.ltb_lt.
  rewrite (class_size_pow2 k) by lia. replace (k + 20 - 1) with (k - 1 + 20) by lia.
  rewrite class_size_pow2 by lia. replace (k - 1 + 1) with k by lia.
  split_and!; lia.
Qed.

Lemma smallest_class_all req :
  0 <= req <= V8M_LARGE_MAX_SIZE ->
  smallest_class (if req =? 0 then 1 else req) (v8m_size_class req).
Proof.
  intros H. destruct (Z.eqb_spec req 0) as [->|Hn].
  { apply (smallest_class_small 1). unfold V8M_SMALL_MAX_SIZE. lia. }
  destruct (Z.le_gt_cases req V8M_SMALL_MAX_SIZE).
  - apply smallest_class_small. lia.
  - apply smallest_class_medium. lia.
Qed.

(** C21: for every request that the table can serve (zero included, which is
    served as one byte) [v8m_size_class] returns the least class whose size is
    at least the request. *)
Theorem v8m_size_class_smallest req :
  0 <= req <= V8M_LARGE_MAX_SIZE ->
  smallest_class (if req =? 0 then 1 else req) (v8m_size_class req).
Proof. apply smallest_class_all. Qed.

Lemma v8m_size_class_smallest_witness :
  (0 <= 1025 <= V8M_LARGE_MAX_SIZE) /\ smallest_class 1025 (v8m_size_class 1025).
Proof.
  assert (H : 0 <= 1025 <= V8M_LARGE_MAX_SIZE) by (vm_compute; split; discriminate).
  split; [exact H|]. exact (v8m_size_class_smallest 1025 H).
Defined.

Lemma size_class_above req :
  V8M_LARGE_MAX_SIZE < req <= SIZE_MAX -> v8m_size_class req = V8M_CLASS_HUGE.
Proof.
  unfold V8M_LARGE_MAX_SIZE, SIZE_MAX. intros H.
  destruct (log2_bracket req ltac:(lia)) as (k & Hk & Hb).
  assert (k < 64).
  { destruct (Z.lt_ge_cases k 64); [done|].
    assert (2 ^ 64 <= 2 ^ k) by (apply Z.pow_le_mono_r; lia). lia. }
  rewrite (size_class_medium_eq req k) by lia.
  destruct (Z.ltb_spec 20 k) as [|Hle]; [done|].
  assert (2 ^ (k + 1) <= 2 ^ 21) by (apply Z.pow_le_mono_r; lia). lia.
Qed.

(** The slab classes serve the sizes up to 4 KiB, and no others. *)
Lemma size_class_slab req : 0 < req <= V8M_SMALL_MAX_SIZE ->
  0 <= v8m_size_class req < V8M_MEDIUM_FIRST_CLASS /\ req <= class_size (v8m_size_class req).
Proof.
  unfold V8M_SMALL_MAX_SIZE, V8M_MEDIUM_FIRST_CLASS. intros H. pose proof (smallest_class_all req ltac:(unfold V8M_LARGE_MAX_SIZE; lia)) as Hc.
  destruct (Z.eqb_spec req 0); [lia|]. destruct Hc as (Hc & Hle & Hm). split; [|done]. split; [lia|].
  destruct (Z.lt_ge_cases (v8m_size_class req) 32); [done|]. specialize (Hm 31 ltac:(lia)). change (class_size 31) with 4096 in Hm. lia.
Qed.
Lemma size_class_not_slab req : V8M_SMALL_MAX_SIZE < req <= SIZE_MAX -> V8M_MEDIUM_FIRST_CLASS <= v8m_size_class req <= UINT32_MAX.
Proof.
  unfold V8M_SMALL_MAX_SIZE, V8M_MEDIUM_FIRST_CLASS. intros H. destruct (Z.le_gt_cases req V8M_LARGE_MAX_SIZE) as [Hl|Hl]; [|rewrite size_class_above by lia; by vm_compute].
  pose proof (smallest_class_all req ltac:(lia)) as Hc. destruct (Z.eqb_spec req 0); [lia|]. destruct Hc as (Hc & Hle & _).
  unfold V8M_LARGE_LAST_CLASS, UINT32_MAX in *. split; [|lia]. destruct (Z.lt_ge_cases (v8m_size_class req) 32); [|done].
  destruct (decide (v8m_size_class req = 31)) as [E|]; [rewrite E in Hle; change (class_size 31) with 4096 in Hle; lia|].
  pose proof (class_size_mono (v8m_size_class req) 31 ltac:(lia) ltac:(lia)) as Hm. change (class_size 31) with 4096 in Hm. lia.
Qed.

(** A request above 2 MiB is routed to the Huge path, whatever its size. *)
Theorem v8m_size_class_huge req :
  V8M_LARGE_MAX_SIZE < req <= SIZE_MAX -> v8m_size_class req = V8M_CLASS_HUGE.
Proof. apply size_class_above. Qed.

Lemma v8m_size_class_huge_witness :
  (V8M_LARGE_MAX_SIZE < SIZE_MAX <= SIZE_MAX) /\ v8m_size_class SIZE_MAX = V8M_CLASS_HUGE.
Proof.
  assert (H : V8M_LARGE_MAX_SIZE < SIZE_MAX <= SIZE_MAX)
    by (vm_compute; split; [reflexivity|discriminate]).
  split; [exact H|]. exact (v8m_size_class_huge SIZE_MAX H).
Defined.

(** The formula inverts the table. *)
Lemma v8m_size_class_class_size c :
  0 <= c <= V8M_LARGE_LAST_CLASS -> v8m_size_class (class_size c) = c.
Proof.
  intros H.
  assert (Hall : forallb (fun n => v8m_size_class (class_size (Z.of_nat n)) =? Z.of_nat n)
                   (seq 0 41) = true) by (vm_compute; reflexivity).
  rewrite forallb_forall in Hall. unfold V8M_LARGE_LAST_CLASS in H.
  specialize (Hall (Z.to_nat c)). rewrite in_seq in Hall.
  specialize (Hall ltac:(lia)). rewrite Z2Nat.id in Hall by lia. by apply Z.eqb_eq.
Qed.

(** Requests in a larger class are larger: the map is monotone. *)
Lemma v8m_size_class_mono r1 r2 :
  0 <= r1 <= r2 -> r2 <= V8M_LARGE_MAX_SIZE -> v8m_size_class r1 <= v8m_size_class r2.
Proof.
  intros H H2.
  destruct (smallest_class_all r1 ltac:(lia)) as (_ & _ & S1).
  destruct (smallest_class_all r2 ltac:(lia)) as (B2 & L2 & _).
  destruct (Z.le_gt_cases (v8m_size_class r1) (v8m_size_class r2)); [done|].
  specialize (S1 (v8m_size_class r2) ltac:(lia)).
  destruct (Z.eqb_spec r1 0), (Z.eqb_spec r2 0); lia.
Qed.

End SizeClass.
