(* ===== verification/Bump.v ===== *)
(** The atomic bump-pointer primitive ([src/v8m_bump.c]) and its two users, the
    bootstrap allocator ([src/v8m_bootstrap.c]) and the async-signal-safe
    emergency allocator ([src/v8m_signal_safe.c]).

    The theorems show that the blocks of any sequence of allocations are
    aligned, lie in the buffer and never overlap, that a failed bump makes every
    later one fail, and that both promises end when the 64-bit offset wraps. *)

From S2P Require Import Prelude.

Module Bump.

(** [struct v8m_bump]; [offset] is the atomic fetch-and-add cell. *)
Record v8m_bump := MkBump { buffer : Z; size : Z; align : Z; offset : Z }.

Definition set_offset (b : v8m_bump) (o : Z) : v8m_bump :=
  MkBump b.(buffer) b.(size) b.(align) o.

(** [v8m_bump_alloc]; [None] is a [NULL] descriptor. *)
Definition v8m_bump_alloc (bump : option v8m_bump) (request : Z) : option v8m_bump * Z :=
  match bump with
  | None => (None, NULL)
  | Some b =>
      if (b.(buffer) =? NULL) || (b.(align) =? 0) then (Some b, NULL)
      else if b.(size) <? request then (Some b, NULL)
      else
        let aligned := round_up_mask request b.(align) in
        let aligned := if aligned =? 0 then b.(align) else aligned in
        let off := b.(offset) in
        let b' := set_offset b (u64 (off + aligned)) in
        if (b.(size) <? off) || (u64 (b.(size) - off) <? aligned) then (Some b', NULL)
        else (Some b', u64 (b.(buffer) + off))
  end.

Definition v8m_bump_owns (bump : option v8m_bump) (ptr : Z) : bool :=
  match bump with
  | None => false
  | Some b =>
      if b.(buffer) =? NULL then false
      else (b.(buffer) <=? ptr) && (ptr <? u64 (b.(buffer) + b.(size)))
  end.

Definition v8m_bump_remaining (bump : option v8m_bump) (ptr : Z) : Z :=
  if negb (v8m_bump_owns bump ptr) then 0
  else match bump with
       | None => 0
       | Some b => u64 (u64 (b.(buffer) + b.(size)) - ptr)
       end.

(** ** The two allocators built on it *)

Definition V8M_BOOTSTRAP_ALIGN : Z := 16.
Definition V8M_SIGNAL_SAFE_ALIGN : Z := 16.
Definition V8M_BOOTSTRAP_SIZE : Z := 65536 * 4.
Definition V8M_SIGNAL_SAFE_SIZE : Z := 65536.

Definition v8m_bootstrap_bump (buf : Z) : v8m_bump :=
  MkBump buf V8M_BOOTSTRAP_SIZE V8M_BOOTSTRAP_ALIGN 0.
Definition v8m_signal_safe_bump (buf : Z) : v8m_bump :=
  MkBump buf V8M_SIGNAL_SAFE_SIZE V8M_SIGNAL_SAFE_ALIGN 0.

(** A call either returns or ends the process. *)
Inductive outcome (A : Type) : Type :=
  | Returned (a : A)
  | Aborted.
Arguments Returned {A} a.
Arguments Aborted {A}.

(** [v8m_bootstrap_alloc] aborts when the budget is spent. *)
Definition v8m_bootstrap_alloc (b : v8m_bump) (sz : Z) : option v8m_bump * outcome Z :=
  let '(b', ptr) := v8m_bump_alloc (Some b) sz in
  if ptr =? NULL then (b', Aborted) else (b', Returned ptr).

Definition v8m_ptr_is_bootstrap (b : v8m_bump) (ptr : Z) : bool := v8m_bump_owns (Some b) ptr.
Definition v8m_bootstrap_remaining (b : v8m_bump) (ptr : Z) : Z := v8m_bump_remaining (Some b) ptr.

(** [v8m_signal_safe_alloc] returns [NULL] when the budget is spent. *)
Definition v8m_signal_safe_alloc (b : v8m_bump) (sz : Z) : option v8m_bump * Z :=
  v8m_bump_alloc (Some b) sz.
Definition v8m_ptr_is_signal_safe (b : v8m_bump) (ptr : Z) : bool := v8m_bump_owns (Some b) ptr.
Definition v8m_signal_safe_remaining (b : v8m_bump) (ptr : Z) : Z := v8m_bump_remaining (Some b) ptr.

(** A history: the requests are served in order (the fetch-and-add gives every
    interleaving of threads such an order); each result is kept with its request. *)
Fixpoint bump_run (b : v8m_bump) (reqs : list Z) : v8m_bump * list (Z * Z) :=
  match reqs with
  | [] => (b, [])
  | r :: rest =>
      match v8m_bump_alloc (Some b) r with
      | (Some b', p) => let '(b'', out) := bump_run b' rest in (b'', (r, p) :: out)
      | (None, p) => (b, [(r, p)])
      end
  end.

(** ** Well-formed descriptors *)

(** A buffer at a non-null address that does not wrap, with a power-of-two
    alignment [2^k], [k <= 16], that the buffer's address honours. *)
Record wf (b : v8m_bump) (k : Z) : Prop := {
  wf_k : 0 <= k <= 16;
  wf_align : b.(align) = 2 ^ k;
  wf_buffer : 0 < b.(buffer);
  wf_size : 0 < b.(size) < 2 ^ 32;
  wf_end : b.(buffer) + b.(size) < 2 ^ 64;
  wf_buf_aligned : (2 ^ k | b.(buffer));
  wf_offset : 0 <= b.(offset);
  wf_off_aligned : (2 ^ k | b.(offset))
}.

(** [aligned] of the code for an admissible request. *)
Definition slot_size (b : v8m_bump) (r : Z) : Z :=
  let a := round_up_mask r b.(align) in if a =? 0 then b.(align) else a.

Lemma slot_size_bounds b k r :
  wf b k -> 0 <= r <= b.(size) ->
  (2 ^ k | slot_size b r) /\ 0 < slot_size b r /\ r <= slot_size b r <= b.(size) + 2 ^ k.
Proof.
  intros W Hr. destruct W as [Wk Wa _ Ws _ _ _ _].
  assert (0 < 2 ^ k) by (apply Z.pow_pos_nonneg; lia).
  assert (2 ^ k <= 2 ^ 16) by (apply Z.pow_le_mono_r; lia).
  unfold slot_size. rewrite Wa.
  destruct (round_up_mask_bounds r k) as [Hd Hb]; [lia..|].
  destruct (Z.eqb_spec (round_up_mask r (2 ^ k)) 0).
  - split_and!; [apply Z.divide_refl|lia|lia|lia].
  - split_and!; [done|lia|lia|lia].
Qed.

(** What one call does, on every branch, while the offset is below the wrap. *)
Lemma bump_alloc_cases b k r :
  wf b k -> 0 <= r -> b.(offset) < 2 ^ 63 ->
  (b.(size) < r /\ v8m_bump_alloc (Some b) r = (Some b, NULL)) \/
  (r <= b.(size) /\ b.(size) < b.(offset) + slot_size b r /\
   v8m_bump_alloc (Some b) r = (Some (set_offset b (b.(offset) + slot_size b r)), NULL)) \/
  (r <= b.(size) /\ b.(offset) + slot_size b r <= b.(size) /\
   v8m_bump_alloc (Some b) r =
     (Some (set_offset b (b.(offset) + slot_size b r)), b.(buffer) + b.(offset))).
Proof.
  intros W Hr Ho. pose proof W as [Wk Wa Wb Ws We _ W0 _].
  assert (0 < 2 ^ k <= 2 ^ 16).
  { split; [apply Z.pow_pos_nonneg; lia|apply Z.pow_le_mono_r; lia]. }
  unfold v8m_bump_alloc, NULL.
  destruct (Z.eqb_spec (buffer b) 0); [lia|]. destruct (Z.eqb_spec (align b) 0); [lia|].
  cbn [orb]. destruct (Z.ltb_spec (size b) r); [by left|right].
  fold (slot_size b r). pose proof (slot_size_bounds b k r W ltac:(lia)) as (_ & Hp & Hs).
  rewrite (u64_small (offset b + slot_size b r)) by (unfold is_u64; lia).
  destruct (Z.ltb_spec (size b) (offset b)); cbn [orb].
  { left. split_and!; [lia|lia|done]. }
  rewrite (u64_small (size b - offset b)) by (unfold is_u64; lia).
  destruct (Z.ltb_spec (size b - offset b) (slot_size b r)).
  - left. split_and!; [lia|lia|done].
  - right. rewrite u64_small by (unfold is_u64; lia). split_and!; [lia|lia|done].
Qed.

Lemma wf_advance b k r :
  wf b k -> 0 <= r <= b.(size) -> wf (set_offset b (b.(offset) + slot_size b r)) k.
Proof.
  intros W Hr. destruct (slot_size_bounds b k r W Hr) as (Hd & Hp & _).
  destruct W as [? ? ? ? ? ? ? ?].
  constructor; cbn; try done; [lia|by apply Z.divide_add_r].
Qed.

(** ** Properties *)

(** A block handed out: non-null, of [r] bytes, aligned and inside the buffer. *)
Definition good_block (b : v8m_bump) (k r p : Z) : Prop :=
  p <> NULL /\ (2 ^ k | p) /\ b.(buffer) <= p <= p + r /\ p + r <= b.(buffer) + b.(size).

(** Every result of a history is [NULL], or a block that starts at or past the
    offset the history started with, so past all earlier blocks. *)
Definition blocks_from (b : v8m_bump) (k : Z) (out : list (Z * Z)) : Prop :=
  Forall (fun '(r, p) => p = NULL \/ good_block b k r p /\ b.(buffer) + b.(offset) <= p) out.

(** Later blocks start past the end of earlier ones. *)
Definition separated (out : list (Z * Z)) : Prop :=
  forall i j ri pi rj pj, (i < j)%nat ->
    out !! i = Some (ri, pi) -> out !! j = Some (rj, pj) ->
    pi <> NULL -> pj <> NULL -> pi + ri <= pj.

(** [b'] is [b] after serving one request, with [p] the result. *)
Definition advances (b b' : v8m_bump) (k r p : Z) : Prop :=
  wf b' k /\ b'.(buffer) = b.(buffer) /\ b'.(size) = b.(size) /\
  b.(offset) <= b'.(offset) <= b.(offset) + (b.(size) + 2 ^ k) /\
  (p = NULL \/ good_block b k r p /\ b.(buffer) + b.(offset) <= p /\
                p + r <= b.(buffer) + b'.(offset)).

Lemma bump_alloc_advances b k r :
  wf b k -> 0 <= r -> b.(offset) < 2 ^ 63 ->
  exists b' p, v8m_bump_alloc (Some b) r = (Some b', p) /\ advances b b' k r p.
Proof.
  intros W Hr Ho. assert (0 < 2 ^ k) by (apply Z.pow_pos_nonneg; destruct W; lia).
  pose proof W as [_ _ Wb Ws _ Wba W0 Woa].
  destruct (bump_alloc_cases b k r W Hr Ho) as [(H1 & He)|[(H1 & H2 & He)|(H1 & H2 & He)]];
    rewrite He; do 2 eexists; (split; [reflexivity|]).
  { split_and!; try done; [lia..|by left]. }
  all: pose proof (slot_size_bounds b k r W ltac:(lia)) as (_ & Hp & Hs).
  all: pose proof (wf_advance b k r W ltac:(lia)).
  - split_and!; cbn; try done; [lia..|by left].
  - split_and!; cbn; try done; [lia..|].
    right. unfold good_block, NULL. split_and!; try lia. by apply Z.divide_add_r.
Qed.

Lemma blocks_from_mono b b' k r p out :
  advances b b' k r p -> blocks_from b' k out -> blocks_from b k out.
Proof.
  intros (_ & Eb & Es & Ho & _) H. eapply Forall_impl; [exact H|]. intros [r' p'].
  unfold good_block. rewrite Eb, Es. intros [->|[? ?]]; [by left|right]. split; [done|lia].
Qed.

Lemma separated_cons b b' k r p out :
  advances b b' k r p -> blocks_from b' k out -> separated out -> separated ((r, p) :: out).
Proof.
  intros (_ & Eb & _ & _ & Hp) Hf Hs i j ri pi rj pj Hij Hi Hj Hpi Hpj.
  destruct j as [|j]; [lia|]. cbn in Hj.
  destruct i as [|i]; [|cbn in Hi; eapply (Hs i j); eauto; lia].
  cbn in Hi. simplify_eq. unfold blocks_from in Hf. rewrite Forall_lookup in Hf.
  specialize (Hf _ _ Hj). cbn in Hf. rewrite Eb in Hf.
  destruct Hp as [|(_ & _ & ?)]; [done|]. destruct Hf as [|[_ ?]]; [done|lia].
Qed.

Lemma bump_run_spec reqs : forall b k,
  wf b k -> Forall (fun r => 0 <= r) reqs ->
  b.(offset) + Z.of_nat (length reqs) * (b.(size) + 2 ^ k) < 2 ^ 63 ->
  blocks_from b k (bump_run b reqs).2 /\ separated (bump_run b reqs).2.
Proof.
  induction reqs as [|r reqs IH]; intros b k W Hnn Hb.
  { cbn. split; [constructor|]. intros ?. intros. by rewrite lookup_nil in *. }
  apply Forall_cons in Hnn as [Hr Hnn]. cbn [length] in Hb.
  assert (0 < 2 ^ k) by (apply Z.pow_pos_nonneg; destruct W; lia).
  pose proof (wf_size b k W).
  destruct (bump_alloc_advances b k r W Hr ltac:(nia)) as (b' & p & He & Hadv).
  pose proof Hadv as (W' & Eb & Es & Ho & Hp). cbn [bump_run]. rewrite He.
  destruct (IH b' k W' Hnn ltac:(rewrite Es; nia)) as [IH1 IH2].
  destruct (bump_run b' reqs) as [b'' out]. cbn [snd] in *. split.
  - apply Forall_cons. split; [naive_solver|]. by eapply blocks_from_mono.
  - by eapply separated_cons.
Qed.

(** C31: over any history of [n] requests with [offset + n * (size + 2^k) < 2^63],
    which the 64-bit offset cannot pass, every non-null result is aligned, non-null, inside the buffer, and
    no two results overlap. *)
Theorem v8m_bump_blocks_disjoint b k reqs :
  wf b k -> Forall (fun r => 0 <= r) reqs ->
  b.(offset) + Z.of_nat (length reqs) * (b.(size) + 2 ^ k) < 2 ^ 63 ->
  Forall (fun '(r, p) => p = NULL \/ good_block b k r p) (bump_run b reqs).2 /\
  separated (bump_run b reqs).2.
Proof.
  intros W Hnn Hb. destruct (bump_run_spec reqs b k W Hnn Hb) as [H1 H2].
  split; [|done]. eapply Forall_impl; [exact H1|]. intros [r p]. naive_solver.
Qed.

Lemma wf_bootstrap buf :
  0 < buf -> buf < 2 ^ 63 -> (16 | buf) -> wf (v8m_bootstrap_bump buf) 4.
Proof.
  intros. constructor; cbn; unfold V8M_BOOTSTRAP_SIZE, V8M_BOOTSTRAP_ALIGN;
    try lia; done || apply Z.divide_0_r.
Qed.

Lemma v8m_bump_blocks_disjoint_witness :
  let b := v8m_bootstrap_bump 65536 in
  (bump_run b [24; 1; 300000; 8]).2 = [(24, 65536); (1, 65568); (300000, 0); (8, 65584)] /\
  separated (bump_run b [24; 1; 300000; 8]).2.
Proof.
  split; [vm_compute; reflexivity|].
  apply (v8m_bump_blocks_disjoint (v8m_bootstrap_bump 65536) 4 [24; 1; 300000; 8]).
  - apply wf_bootstrap; [lia|lia|exists 4096; lia].
  - repeat constructor; lia.
  - vm_compute. reflexivity.
Defined.

(** The budget never comes back below the wrap: once an admissible request
    (one not larger than the buffer) has been refused, every request that
    follows is refused. *)
Theorem v8m_bump_exhausted_sticky b k r reqs b' :
  wf b k -> 0 <= r <= b.(size) -> v8m_bump_alloc (Some b) r = (Some b', NULL) ->
  Forall (fun r => 0 <= r) reqs ->
  b.(offset) + (1 + Z.of_nat (length reqs)) * (b.(size) + 2 ^ k) < 2 ^ 63 ->
  Forall (fun '(_, p) => p = NULL) (bump_run b' reqs).2.
Proof.
  intros W Hr He Hnn Hb.
  assert (0 < 2 ^ k) by (apply Z.pow_pos_nonneg; destruct W; lia).
  pose proof W as [_ _ Wb Ws _ _ W0 _].
  destruct (bump_alloc_cases b k r W ltac:(lia) ltac:(nia)) as [[? _]|[(_ & H2 & He')|(_ & _ & He')]];
    [lia| |rewrite He in He'; injection He' as _ Hbad; unfold NULL in Hbad; lia].
  rewrite He in He'. injection He' as ->.
  pose proof (slot_size_bounds b k r W Hr) as (_ & _ & Hs).
  destruct (bump_run_spec reqs (set_offset b (offset b + slot_size b r)) k) as [H1 _];
    [by apply wf_advance|done|cbn; nia|].
  eapply Forall_impl; [exact H1|]. intros [r' p'] [|[(Hn & _ & Hge' & Hin) Hge]]; [done|].
  cbn in Hin, Hge. lia.
Qed.

Lemma v8m_bump_exhausted_sticky_witness :
  let b := v8m_signal_safe_bump 65536 in
  exists b', v8m_bump_alloc (Some (set_offset b 65520)) 32 = (Some b', NULL) /\
             Forall (fun '(_, p) => p = NULL) (bump_run b' [1; 16]).2.
Proof.
  cbn zeta. eexists. split; [reflexivity|].
  apply (v8m_bump_exhausted_sticky (set_offset (v8m_signal_safe_bump 65536) 65520) 4 32).
  - constructor; cbn; unfold V8M_SIGNAL_SAFE_SIZE, V8M_SIGNAL_SAFE_ALIGN;
      try lia; [exists 4096; lia|exists 4095; lia].
  - cbn. unfold V8M_SIGNAL_SAFE_SIZE. lia.
  - vm_compute. reflexivity.
  - repeat constructor; lia.
  - vm_compute. reflexivity.
Defined.

(** The promise ends at the wrap of the offset cell: refused requests keep
    advancing it, and after [2^64] bytes of them the buffer's first block is
    handed out a second time. *)
Lemma v8m_bump_offset_wraps :
  let b := set_offset (v8m_signal_safe_bump 65536) (2 ^ 64 - 16) in
  exists b', v8m_bump_alloc (Some b) 16 = (Some b', NULL) /\
             (v8m_bump_alloc (Some b') 16).2 = 65536.
Proof. exists (v8m_signal_safe_bump 65536). split; vm_compute; reflexivity. Qed.

(** [v8m_bump_remaining] of a block is positive, covers the whole request, and
    stops at the end of the buffer. *)
Lemma v8m_bump_remaining_good b k r p :
  wf b k -> good_block b k r p -> 0 < r ->
  v8m_bump_owns (Some b) p = true /\ v8m_bump_remaining (Some b) p = b.(buffer) + b.(size) - p /\
  r <= v8m_bump_remaining (Some b) p.
Proof.
  intros [_ _ Wb Ws We _ _ _] (Hn & _ & Hlo & Hhi) Hr.
  unfold v8m_bump_remaining.
  assert (Ho : v8m_bump_owns (Some b) p = true).
  { unfold v8m_bump_owns, NULL. destruct (Z.eqb_spec (buffer b) 0); [lia|].
    rewrite u64_small by (unfold is_u64; lia).
    apply andb_true_iff. rewrite Z.leb_le, Z.ltb_lt. lia. }
  rewrite Ho. cbn [negb]. rewrite (u64_small (buffer b + size b)) by (unfold is_u64; lia).
  rewrite u64_small by (unfold is_u64; lia). split_and!; [done|done|lia].
Qed.

End Bump.
