(* ===== verification/Page.v ===== *)
(** Page metadata: [src/v8m_internal.h], [src/v8m_page.h] and [src/v8m_page.c].

    Every 64 KiB slab page starts with a [page_meta]; the Tiny slabs use the
    two trailing fields as well ([v8m_tiny_page_meta] extends
    [v8m_page_meta]).  [v8m_ptr_to_meta] recovers the page base from any
    pointer into the page. *)

From S2P Require Import Prelude.

Module Page.

Definition V8M_PAGE_SHIFT : Z := 16.
Definition V8M_PAGE_SIZE : Z := Z.shiftl 1 V8M_PAGE_SHIFT.
Definition V8M_PAGE_MASK : Z := u64 (Z.lnot (V8M_PAGE_SIZE - 1)).
Definition V8M_SLAB_HEADER_SIZE : Z := 2048.
Definition V8M_MAGIC : Z := 0x76386D616C6C6F63.

(** [struct v8m_page_meta] with the Tiny tail ([search_hint], [bitmap]). *)
Record page_meta := MkMeta {
  magic : Z;
  size_class : Z;
  object_size : Z;
  capacity : Z;
  used_count : Z;
  owner_thread : Z;
  free_list_head : Z;
  next : Z;
  arena_id : Z;
  owner_cpu : Z;
  search_hint : Z;
  bitmap : list Z
}.

#[export] Instance page_meta_eq_dec : EqDecision page_meta.
Proof. solve_decision. Defined.

(** Memory that was never formatted reads as zero. *)
Definition zero_meta : page_meta := MkMeta 0 0 0 0 0 0 0 0 0 0 0 [].

#[export] Instance page_meta_inhabited : Inhabited page_meta := populate zero_meta.

Definition set_used_count (m : page_meta) (v : Z) : page_meta :=
  MkMeta m.(magic) m.(size_class) m.(object_size) m.(capacity) v m.(owner_thread)
    m.(free_list_head) m.(next) m.(arena_id) m.(owner_cpu) m.(search_hint) m.(bitmap).
Definition set_free_list_head (m : page_meta) (v : Z) : page_meta :=
  MkMeta m.(magic) m.(size_class) m.(object_size) m.(capacity) m.(used_count) m.(owner_thread)
    v m.(next) m.(arena_id) m.(owner_cpu) m.(search_hint) m.(bitmap).
Definition set_next (m : page_meta) (v : Z) : page_meta :=
  MkMeta m.(magic) m.(size_class) m.(object_size) m.(capacity) m.(used_count) m.(owner_thread)
    m.(free_list_head) v m.(arena_id) m.(owner_cpu) m.(search_hint) m.(bitmap).
Definition set_arena_id (m : page_meta) (v : Z) : page_meta :=
  MkMeta m.(magic) m.(size_class) m.(object_size) m.(capacity) m.(used_count) m.(owner_thread)
    m.(free_list_head) m.(next) v m.(owner_cpu) m.(search_hint) m.(bitmap).
Definition set_search_hint (m : page_meta) (v : Z) : page_meta :=
  MkMeta m.(magic) m.(size_class) m.(object_size) m.(capacity) m.(used_count) m.(owner_thread)
    m.(free_list_head) m.(next) m.(arena_id) m.(owner_cpu) v m.(bitmap).
Definition set_bitmap (m : page_meta) (v : list Z) : page_meta :=
  MkMeta m.(magic) m.(size_class) m.(object_size) m.(capacity) m.(used_count) m.(owner_thread)
    m.(free_list_head) m.(next) m.(arena_id) m.(owner_cpu) m.(search_hint) v.

(** [v8m_ptr_to_meta]: the address of the page that contains [ptr]. *)
Definition v8m_ptr_to_meta (ptr : Z) : Z := Z.land ptr V8M_PAGE_MASK.

(** [v8m_page_meta_valid] on a page address and the metadata found there. *)
Definition v8m_page_meta_valid (base : Z) (m : page_meta) : bool :=
  negb (base =? NULL) && (m.(magic) =? V8M_MAGIC).

(** Page bases: 64 KiB aligned addresses of a page that does not wrap. *)
Definition page_base (base : Z) : Prop :=
  0 < base /\ base + V8M_PAGE_SIZE <= 2 ^ 64 /\ (V8M_PAGE_SIZE | base).

Lemma page_size_eq : V8M_PAGE_SIZE = 65536.
Proof. reflexivity. Qed.

Lemma v8m_ptr_to_meta_eq ptr : is_u64 ptr -> v8m_ptr_to_meta ptr = ptr - ptr mod V8M_PAGE_SIZE.
Proof. intros H. apply (land_mask_clear ptr 16); [lia|done]. Qed.

Lemma ptr_to_meta_inside base ptr :
  page_base base -> base <= ptr < base + V8M_PAGE_SIZE -> v8m_ptr_to_meta ptr = base.
Proof.
  intros (H0 & Hw & [q Hq]) Hp. rewrite v8m_ptr_to_meta_eq by (unfold is_u64; lia).
  assert (ptr mod V8M_PAGE_SIZE = ptr - base); [|lia].
  symmetry. apply Z.mod_unique with (q := q); rewrite page_size_eq in *; lia.
Qed.

End Page.
