(* ===== verification/Layout.v ===== *)
(** The page headers as bytes: the C layouts of [struct v8m_page_meta] and
    [struct v8m_tiny_page_meta] of [src/v8m_page.h] and [struct v8m_large_page_meta]
    of [src/v8m_large.h], and the assertions on them in [src/v8m_page.c],
    [src/v8m_large.c], [src/v8m_slab_tiny.c] and [src/v8m_slab_small.c].

    All 64-bit targets of the allocator lay out these structs alike (natural
    alignment, 8-byte pointers and [size_t]); their byte order differs (s390x is
    big-endian) and is a parameter.  The other files keep a header as one record
    ([Page.page_meta]) that every module reads; this file shows that the casts
    between the struct types allow it.  Memory here is a map from addresses to
    bytes. *)

From stdpp Require Import strings.
From S2P Require Import Prelude Page.
Import Page.

Module Layout.

(** ** Types and layouts *)

(** A scalar of [n] bytes, aligned to its size, or an array of such scalars. *)
Inductive ctype := Scalar (n : Z) | Array (n : Z) (count : Z).
#[export] Instance ctype_eq_dec : EqDecision ctype.
Proof. solve_decision. Defined.
Definition uint8_t : ctype := Scalar 1.
Definition uint16_t : ctype := Scalar 2.
Definition uint32_t : ctype := Scalar 4.
Definition uint64_t : ctype := Scalar 8.
Definition pointer : ctype := Scalar 8.
Definition size_t : ctype := Scalar 8.

Definition sizeof (t : ctype) : Z := match t with Scalar n => n | Array n count => n * count end.
Definition alignof (t : ctype) : Z := match t with Scalar n | Array n _ => n end.

(** The next multiple of [a]. *)
Definition align_up (x a : Z) : Z := (x + (a - 1)) / a * a.

Definition struct := list (string * ctype).

(** The fields with their offsets, from offset [at_] on. *)
Fixpoint layout (at_ : Z) (s : struct) : list (string * (ctype * Z)) :=
  match s with
  | [] => []
  | (f, t) :: s => let o := align_up at_ (alignof t) in (f, (t, o)) :: layout (o + sizeof t) s
  end.
Definition struct_end (s : struct) : Z := foldl (fun x f => align_up x (alignof f.2) + sizeof f.2) 0 s.
Definition struct_align (s : struct) : Z := foldr (fun f a => Z.max (alignof f.2) a) 1 s.
Definition sizeof_struct (s : struct) : Z := align_up (struct_end s) (struct_align s).

Fixpoint field (l : list (string * (ctype * Z))) (f : string) : option (ctype * Z) :=
  match l with
  | [] => None
  | (g, x) :: l => if String.eqb g f then Some x else field l f
  end.
Definition offsetof (s : struct) (f : string) : option Z := snd <$> field (layout 0 s) f.

(** ** The three headers *)

(** [struct_page_meta] is the C type [struct v8m_page_meta], and so on. *)

Definition common_fields : struct :=
  [("magic", uint64_t); ("size_class", uint16_t); ("object_size", uint16_t); ("capacity", uint32_t); ("used_count", uint32_t);
   ("owner_thread", uint64_t); ("free_list_head", pointer); ("next", pointer)]%string.
Definition struct_page_meta : struct := common_fields ++ [("arena_id", uint8_t); ("owner_cpu", uint32_t)]%string.
Definition struct_tiny_page_meta : struct :=
  common_fields ++ [("arena_id", uint8_t); ("owner_cpu", uint32_t); ("search_hint", uint64_t); ("bitmap", Array 8 128)]%string.
Definition struct_large_page_meta : struct :=
  common_fields ++ [("mmap_size", size_t); ("guard_bytes", size_t); ("requested_size", size_t)]%string.

(** ** Bytes *)

(** The [n] bytes of [v], lowest first. *)
Fixpoint low_first (n : nat) (v : Z) : list Z :=
  match n with O => [] | S n => v mod 256 :: low_first n (v / 256) end.
Definition to_bytes (big_endian : bool) (n v : Z) : list Z :=
  let bs := low_first (Z.to_nat n) v in if big_endian then reverse bs else bs.
Definition from_low_first (bs : list Z) : Z := foldr (fun b v => b + 256 * v) 0 bs.
Definition from_bytes (big_endian : bool) (bs : list Z) : Z := from_low_first (if big_endian then reverse bs else bs).

Definition store_bytes (m : mem) (p : Z) (bs : list Z) : mem := foldl (fun m ib => wr m (p + Z.of_nat ib.1) ib.2) m (imap pair bs).
Definition load_bytes (m : mem) (p n : Z) : list Z := (fun i => rd m (p + i)) <$> seqZ 0 n.

(** A store to and a load from element [i] of a field of the struct at [base]; a
    scalar has the element 0 only. *)
Definition elements (t : ctype) : Z := match t with Scalar _ => 1 | Array _ count => count end.
Definition store_field (big_endian : bool) (s : struct) (m : mem) (base : Z) (f : string) (i v : Z) : mem :=
  match field (layout 0 s) f with
  | Some (t, o) => store_bytes m (base + o + i * alignof t) (to_bytes big_endian (alignof t) v)
  | None => m
  end.
Definition load_field (big_endian : bool) (s : struct) (m : mem) (base : Z) (f : string) (i : Z) : option Z :=
  match field (layout 0 s) f with
  | Some (t, o) => Some (from_bytes big_endian (load_bytes m (base + o + i * alignof t) (alignof t)))
  | None => None
  end.

(** The assertions of the sources, computed. *)
Definition same_offsets (s1 s2 : struct) (fs : list string) : bool := forallb (fun f => bool_decide (offsetof s1 f = offsetof s2 f)) fs.
Definition layout_asserts : bool :=
  same_offsets struct_tiny_page_meta struct_page_meta (fst <$> struct_page_meta) && same_offsets struct_large_page_meta struct_page_meta (fst <$> common_fields) &&
  (sizeof_struct struct_page_meta <=? V8M_SLAB_HEADER_SIZE) && (sizeof_struct struct_tiny_page_meta <=? V8M_SLAB_HEADER_SIZE) && (sizeof_struct struct_large_page_meta <=? V8M_SLAB_HEADER_SIZE) &&
  (V8M_SLAB_HEADER_SIZE mod 64 =? 0) && (Z.land V8M_PAGE_SIZE (V8M_PAGE_SIZE - 1) =? 0).

(** ** Encoding *)

Lemma low_first_length n v : length (low_first n v) = n.
Proof. revert v. induction n as [|n IH]; intros v; cbn; [done|by rewrite IH]. Qed.

Lemma low_first_value n v : from_low_first (low_first n v) = v mod 256 ^ Z.of_nat n.
Proof.
  revert v. induction n as [|n IH]; intros v; cbn [low_first from_low_first foldr]; [by rewrite Z.mod_1_r|]. change (foldr _ 0 (low_first n (v / 256))) with (from_low_first (low_first n (v / 256))). rewrite IH.
  replace (Z.of_nat (S n)) with (1 + Z.of_nat n) by lia. rewrite Z.pow_add_r, Z.pow_1_r by lia. rewrite Z.rem_mul_r by lia. lia.
Qed.

Lemma bytes_length big_endian n v : 0 <= n -> Z.of_nat (length (to_bytes big_endian n v)) = n.
Proof. intros Hn. unfold to_bytes. destruct big_endian; [rewrite length_reverse|]; rewrite low_first_length; lia. Qed.

Lemma bytes_value big_endian n v : 0 <= n -> from_bytes big_endian (to_bytes big_endian n v) = v mod 256 ^ n.
Proof. intros Hn. unfold from_bytes, to_bytes. destruct big_endian; [rewrite reverse_involutive|]; rewrite low_first_value, Z2Nat.id by lia; done. Qed.

Lemma store_bytes_read m p bs a : rd (store_bytes m p bs) a = if decide (p <= a < p + Z.of_nat (length bs)) then default 0 (bs !! Z.to_nat (a - p)) else rd m a.
Proof.
  unfold store_bytes. induction bs as [|b bs IH] using rev_ind; [cbn; by rewrite decide_False by lia|].
  rewrite imap_app, foldl_app, length_app. cbn [imap foldl length compose Nat.add fst snd]. rewrite Nat.add_0_r. destruct (decide (a = p + Z.of_nat (length bs))) as [->|Hne].
  - rewrite rd_wr_eq, decide_True by lia. replace (Z.to_nat (p + Z.of_nat (length bs) - p)) with (length bs) by lia. by rewrite list_lookup_middle.
  - rewrite rd_wr_ne by done. rewrite IH. destruct (decide (p <= a < p + Z.of_nat (length bs))).
    + rewrite decide_True by lia. by rewrite lookup_app_l by lia.
    + by rewrite decide_False by lia.
Qed.

Lemma load_same m m' p n : (forall a, p <= a < p + n -> rd m a = rd m' a) -> load_bytes m p n = load_bytes m' p n.
Proof. intros H. unfold load_bytes. apply list_fmap_ext. intros k i Hk. apply lookup_seqZ in Hk as [-> Hk]. apply H. lia. Qed.

Lemma load_stored m p bs : load_bytes (store_bytes m p bs) p (Z.of_nat (length bs)) = bs.
Proof.
  apply list_eq. intros i. unfold load_bytes. rewrite list_lookup_fmap. destruct (decide (i < length bs)%nat) as [Hi|Hi].
  - rewrite (proj2 (lookup_seqZ 0 (Z.of_nat (length bs)) i (Z.of_nat i))) by lia. cbn. rewrite store_bytes_read, decide_True by lia. replace (Z.to_nat (p + Z.of_nat i - p)) with i by lia.
    destruct (lookup_lt_is_Some_2 bs i Hi) as [b Hb]. by rewrite Hb.
  - rewrite lookup_ge_None_2 by (rewrite length_seqZ; lia). by rewrite lookup_ge_None_2 by lia.
Qed.

(** ** Views *)

(** The common fields of a header: all of [struct v8m_page_meta] in a slab page,
    those before [arena_id] in a large one. *)
Definition views : list (struct * list string) :=
  [(struct_page_meta, fst <$> struct_page_meta); (struct_tiny_page_meta, fst <$> struct_page_meta); (struct_large_page_meta, fst <$> common_fields)].

(** Fields of one layout keep apart and inside the header. *)
Definition apart (x y : ctype * Z) : bool := (x.2 + sizeof x.1 <=? y.2) || (y.2 + sizeof y.1 <=? x.2).
Definition inside (x : ctype * Z) : bool := (0 <=? x.2) && (x.2 + sizeof x.1 <=? V8M_SLAB_HEADER_SIZE) && (0 <? alignof x.1) && (sizeof x.1 =? elements x.1 * alignof x.1).
Definition fields_apart (s : struct) : bool :=
  forallb (fun f => forallb (fun g => String.eqb f.1 g.1 || match field (layout 0 s) f.1, field (layout 0 s) g.1 with Some x, Some y => apart x y | _, _ => false end) s &&
    match field (layout 0 s) f.1 with Some x => inside x | None => false end) s.
Definition same_fields (s : struct) (fs : list string) : bool :=
  forallb (fun f => match field (layout 0 s) f with Some _ => bool_decide (field (layout 0 s) f = field (layout 0 struct_page_meta) f) | None => false end) fs.

Lemma views_computed : forallb (fun v => fields_apart v.1 && same_fields v.1 v.2) views = true.
Proof. vm_compute. reflexivity. Qed.

Lemma forallb_at {A} (p : A -> bool) l x : forallb p l = true -> x ∈ l -> p x = true.
Proof. intros H Hx. by apply (proj1 (forallb_forall p l) H), list_elem_of_In. Qed.

Lemma field_member s f x at_ : field (layout at_ s) f = Some x -> exists t, (f, t) ∈ s.
Proof.
  revert at_. induction s as [|[g t] s IH]; intros at_ H; cbn in H; [done|]. destruct (String.eqb_spec g f) as [->|]; [exists t; by left|]. apply IH in H as [t' ?]. exists t'. by right.
Qed.

Lemma fields_spec s f g x y : fields_apart s = true -> field (layout 0 s) f = Some x -> field (layout 0 s) g = Some y -> inside x = true /\ (f = g \/ apart x y = true).
Proof.
  intros Hs Hx Hy. destruct (field_member _ _ _ _ Hx) as [t Ht]. destruct (field_member _ _ _ _ Hy) as [u Hu]. apply (forallb_at _ _ _ Hs) in Ht. cbn [fst] in Ht. apply andb_true_iff in Ht as [H1 H2]. rewrite Hx in *. split; [done|].
  apply (forallb_at _ _ _ H1) in Hu. cbn [fst] in Hu. rewrite Hy in Hu. apply orb_true_iff in Hu as [H%String.eqb_eq|H]; auto.
Qed.

Lemma in_element x i : inside x = true -> 0 <= i < elements x.1 -> 0 <= x.2 /\ x.2 <= x.2 + i * alignof x.1 /\ x.2 + i * alignof x.1 + alignof x.1 <= x.2 + sizeof x.1 /\ x.2 + sizeof x.1 <= V8M_SLAB_HEADER_SIZE /\ 0 < alignof x.1.
Proof.
  unfold inside. rewrite !andb_true_iff, Z.eqb_eq, Z.ltb_lt, !Z.leb_le. intros (((H1 & H2) & H3) & H4) Hi. rewrite H4 in *. split; [done|]. split; [nia|]. split; [nia|]. split; [done|done].
Qed.

(** C27: The views of a page header agree.  A value stored to a field through the
    header's own struct type (common, Tiny or large; either byte order) is read back
    through it cut to the field's width, and read through [struct v8m_page_meta]
    where that field is one of the shared ones; every other field, each element of
    the bitmap included, keeps its bytes in both views; and no store leaves the
    header's reservation at the base of the page. *)
Theorem meta_views_agree big_endian s shared m base f t o i v :
  (s, shared) ∈ views -> field (layout 0 s) f = Some (t, o) -> 0 <= i < elements t ->
  let m' := store_field big_endian s m base f i v in
  load_field big_endian s m' base f i = Some (v mod 256 ^ alignof t) /\
  (f ∈ shared -> load_field big_endian struct_page_meta m' base f i = Some (v mod 256 ^ alignof t)) /\
  (forall g u p j, field (layout 0 s) g = Some (u, p) -> 0 <= j < elements u -> g <> f \/ j <> i ->
     load_field big_endian s m' base g j = load_field big_endian s m base g j /\
     (g ∈ shared -> load_field big_endian struct_page_meta m' base g j = load_field big_endian s m base g j)) /\
  (forall a, a < base \/ base + V8M_SLAB_HEADER_SIZE <= a -> rd m' a = rd m a).
Proof.
  intros Hview Hf Hi m'. pose proof (forallb_at _ _ _ views_computed Hview) as Hv. cbn [fst snd] in Hv. apply andb_true_iff in Hv as [Hs Hsame].
  assert (Hshared : forall g, g ∈ shared -> field (layout 0 struct_page_meta) g = field (layout 0 s) g).
  { intros g Hg. apply (forallb_at _ _ _ Hsame) in Hg. cbn beta in Hg. destruct (field (layout 0 s) g); [|done]. by apply bool_decide_eq_true in Hg. }
  assert (Hat : forall g n, g ∈ shared -> load_field big_endian struct_page_meta n base g = load_field big_endian s n base g) by (intros g n Hg; unfold load_field; by rewrite Hshared).
  destruct (fields_spec s f f _ _ Hs Hf Hf) as [Hin _]. pose proof (in_element _ i Hin Hi) as (I1 & I2 & I3 & I4 & I5). cbn [fst snd] in *.
  assert (Hm : m' = store_bytes m (base + o + i * alignof t) (to_bytes big_endian (alignof t) v)) by (unfold m', store_field; by rewrite Hf).
  assert (Hlen : Z.of_nat (length (to_bytes big_endian (alignof t) v)) = alignof t) by (apply bytes_length; lia).
  assert (Hout : forall a, a < base + o + i * alignof t \/ base + o + i * alignof t + alignof t <= a -> rd m' a = rd m a).
  { intros a Ha. rewrite Hm, store_bytes_read, Hlen. by rewrite decide_False by lia. }
  assert (Hown : load_field big_endian s m' base f i = Some (v mod 256 ^ alignof t)).
  { unfold load_field. rewrite Hf, Hm. f_equal. pose proof (load_stored m (base + o + i * alignof t) (to_bytes big_endian (alignof t) v)) as Hl. rewrite Hlen in Hl. rewrite Hl. apply bytes_value. lia. }
  assert (Hother : forall g u p j, field (layout 0 s) g = Some (u, p) -> 0 <= j < elements u -> g <> f \/ j <> i -> load_field big_endian s m' base g j = load_field big_endian s m base g j).
  { intros g u p j Hg Hj Hne. unfold load_field. rewrite Hg. f_equal. f_equal. apply load_same. intros a Ha. apply Hout.
    destruct (fields_spec s g f _ _ Hs Hg Hf) as [Hin' Hap]. pose proof (in_element _ j Hin' Hj) as (J1 & J2 & J3 & J4 & J5). cbn [fst snd] in *.
    destruct Hap as [->|Hap].
    - rewrite Hf in Hg. injection Hg as -> ->. destruct Hne as [|Hne]; [done|]. destruct (Z.lt_trichotomy i j) as [Hlt|[->|Hlt]]; [right; nia|done|left; nia].
    - unfold apart in Hap. cbn [fst snd] in Hap. apply orb_true_iff in Hap as [Hap%Z.leb_le|Hap%Z.leb_le]; [left|right]; lia. }
  split; [done|]. split; [intros Hsh; by rewrite Hat|]. split; [|intros a Ha; apply Hout; lia].
  intros g u p j Hg Hj Hne. split; [by eapply Hother|]. intros Hsh. rewrite Hat by done. by eapply Hother.
Qed.

Lemma meta_views_agree_witness :
  layout_asserts = true /\ sizeof_struct struct_tiny_page_meta = 1088 /\
  load_field true struct_page_meta (store_field true struct_tiny_page_meta ∅ 65536 "capacity" 0 7936) 65536 "capacity" 0 = Some 7936.
Proof.
  split; [vm_compute; reflexivity|]. split; [vm_compute; reflexivity|].
  refine (proj1 (proj2 (meta_views_agree true struct_tiny_page_meta (fst <$> struct_page_meta) ∅ 65536 "capacity" uint32_t 12 0 7936 _ _ _)) _); [right; left|vm_compute; reflexivity|cbn; lia|].
  change ("capacity" ∈ fst <$> struct_page_meta)%string. vm_compute. do 3 right. left.
Defined.

End Layout.
