(* ===== verification/Arch.v ===== *)
(** The architecture probes of [src/v8m_arch.c] with [v8m_get_arch_info] of
    [src/v8m_api_diag.c] and the version numbers of [src/v8m_version.c].

    The conditional compilation is a case on [arch].  What the machine answers (the
    auxiliary vector, [riscv_hwprobe], [CTR_EL0], the clocks) is an argument; the two
    lazily filled statics are a state.  [snprintf] is its text, cut to the buffer. *)

From stdpp Require Import strings pretty.
From S2P Require Import Prelude.

Module Arch.

Inductive arch := X86_64 | AArch64 | RiscV64 | Ppc64le | S390x | LoongArch64.

Definition V8M_CACHE_LINE_SIZE (a : arch) : Z := match a with Ppc64le => 128 | S390x => 256 | _ => 64 end.
Definition V8M_HUGE_PAGE_SIZE (a : arch) : Z := match a with S390x => 1 * 1024 * 1024 | _ => 2 * 1024 * 1024 end.

Definition arch_name (a : arch) : string :=
  match a with
  | X86_64 => "x86_64" | AArch64 => "aarch64" | RiscV64 => "riscv64" | Ppc64le => "ppc64le" | S390x => "s390x" | LoongArch64 => "loongarch64"
  end.

(** ** Probes *)

Definition HWCAP_ATOMICS : Z := Z.shiftl 1 8.
Definition v8m_arch_has_lse (a : arch) (at_hwcap : Z) : bool := match a with AArch64 => negb (Z.land at_hwcap HWCAP_ATOMICS =? 0) | _ => false end.

Definition V8M_RISCV_HWPROBE_EXT_ZBB : Z := Z.shiftl 1 4.
Definition V8M_RISCV_HWPROBE_EXT_ZACAS : Z := Z.shiftl 1 34.

(** The static [cached] of [riscv_ima_ext_0] and of [v8m_arch_tsc_frequency_mhz]. *)
Record statics := MkStatics { ima_cached : Z; tsc_cached : Z }.
Definition statics0 : statics := MkStatics 0 0.

(** [hwprobe] is the bit mask the kernel gives, [None] when the call fails. *)
Definition riscv_ima_ext_0 (st : statics) (hwprobe : option Z) : statics * Z :=
  let value := st.(ima_cached) in
  if negb (value =? 0) then (st, if value =? UINT64_MAX then 0 else value)
  else
    match hwprobe with
    | None => (MkStatics UINT64_MAX st.(tsc_cached), 0)
    | Some result => (MkStatics (if result =? 0 then UINT64_MAX else result) st.(tsc_cached), result)
    end.

Definition has_extension (a : arch) (bit : Z) (st : statics) (hwprobe : option Z) : statics * bool :=
  match a with
  | RiscV64 => let '(st, mask) := riscv_ima_ext_0 st hwprobe in (st, negb (Z.land mask bit =? 0))
  | _ => (st, false)
  end.
Definition v8m_arch_has_zbb (a : arch) := has_extension a V8M_RISCV_HWPROBE_EXT_ZBB.
Definition v8m_arch_has_zacas (a : arch) := has_extension a V8M_RISCV_HWPROBE_EXT_ZACAS.

Definition v8m_arch_runtime_cache_line_size (a : arch) (ctr_el0 : Z) : Z :=
  match a with
  | AArch64 => let d_min_line := Z.land (Z.shiftr ctr_el0 16) 0xF in u32 (Z.shiftl 4 d_min_line)
  | _ => V8M_CACHE_LINE_SIZE a
  end.

(** ** Clocks *)

Definition monotonic_ns (tv_sec tv_nsec : Z) : Z := u64 (u64 (tv_sec * 1000000000) + tv_nsec).
Definition v8m_arch_rdtsc (a : arch) (tsc now : Z) : Z := match a with X86_64 => tsc | _ => now end.

(** The readings of one calibration, in the order they are taken. *)
Record calibration := MkCalibration { t0_ns : Z; t0_tsc : Z; t1_tsc : Z; t1_ns : Z }.

Definition v8m_arch_tsc_frequency_mhz (a : arch) (st : statics) (c : calibration) : statics * Z :=
  match a with
  | X86_64 =>
      let value := st.(tsc_cached) in
      if negb (value =? 0) then (st, value)
      else
        let tsc_delta := if c.(t0_tsc) <? c.(t1_tsc) then c.(t1_tsc) - c.(t0_tsc) else 0 in
        let ns_delta := if c.(t0_ns) <? c.(t1_ns) then c.(t1_ns) - c.(t0_ns) else 0 in
        let mhz := if ns_delta =? 0 then 0 else u64 (tsc_delta * 1000) / ns_delta in
        let mhz := if (mhz <? 100) || (10000 <? mhz) then 3000 else mhz in
        (MkStatics st.(ima_cached) (u32 mhz), u32 mhz)
  | _ => (st, 1000)
  end.

(** ** Reports *)

(** [snprintf(buf, cap, text)]: what the buffer holds before its terminator, and the
    length of the whole text. *)
Definition snprintf (cap : Z) (text : string) : string * Z := (String.substring 0 (Z.to_nat (cap - 1)) text, Z.of_nat (String.length text)).

Definition yes_no (b : bool) : string := if b then "yes" else "no".
Definition decimal (z : Z) : string := pretty (Z.to_N z).

(** What the machine answers. *)
Record machine := MkMachine { at_hwcap : Z; hwprobe : option Z; ctr_el0 : Z; clocks : calibration }.

(** [buf] is not NULL; [None] leaves it alone. *)
Definition v8m_arch_format_isa_summary (a : arch) (m : machine) (st : statics) (cap : Z) : statics * option string * Z :=
  if cap =? 0 then (st, None, 0)
  else
    let lse := v8m_arch_has_lse a m.(at_hwcap) in
    let '(st, zbb) := v8m_arch_has_zbb a st m.(hwprobe) in
    let '(st, zacas) := v8m_arch_has_zacas a st m.(hwprobe) in
    let cline := v8m_arch_runtime_cache_line_size a m.(ctr_el0) in
    let '(st, mhz) := v8m_arch_tsc_frequency_mhz a st m.(clocks) in
    let '(buf, written) := snprintf cap ("v8malloc isa: arch=" ++ arch_name a ++ " cache_line=" ++ decimal cline ++ " lse=" ++ yes_no lse ++ " zbb=" ++ yes_no zbb ++
      " zacas=" ++ yes_no zacas ++ " tsc_mhz=" ++ decimal mhz ++ " build_cache_line=" ++ decimal (V8M_CACHE_LINE_SIZE a))%string in
    (st, Some buf, if cap <=? written then cap - 1 else written).

(** [arch_name] holds 15 bytes and the terminator. *)
Record v8m_arch_info := MkInfo { i_arch_name : string; cache_line_bytes : Z; build_cache_line_bytes : Z; tsc_mhz : Z; has_lse : Z; has_zbb : Z; has_zacas : Z; reserved : Z }.

Definition v8m_get_arch_info (a : arch) (m : machine) (st : statics) : statics * v8m_arch_info :=
  let name := arch_name a in
  let name_len := if (16 <=? String.length name)%nat then 15%nat else String.length name in
  let '(st, mhz) := v8m_arch_tsc_frequency_mhz a st m.(clocks) in
  let lse := if v8m_arch_has_lse a m.(at_hwcap) then 1 else 0 in
  let '(st, zbb) := v8m_arch_has_zbb a st m.(hwprobe) in
  let '(st, zacas) := v8m_arch_has_zacas a st m.(hwprobe) in
  (st, MkInfo (String.substring 0 name_len name) (u32 (v8m_arch_runtime_cache_line_size a m.(ctr_el0))) (V8M_CACHE_LINE_SIZE a) mhz lse (if zbb : bool then 1 else 0) (if zacas : bool then 1 else 0) 0).

Definition V8M_VERSION_MAJOR : Z := 0.
Definition V8M_VERSION_MINOR : Z := 1.
Definition V8M_VERSION_PATCH : Z := 0.
Definition V8M_VERSION_STRING : string := "0.1.0".
Definition v8m_version : string := V8M_VERSION_STRING.
Definition v8m_version_major : Z := V8M_VERSION_MAJOR.
Definition v8m_version_minor : Z := V8M_VERSION_MINOR.
Definition v8m_version_patch : Z := V8M_VERSION_PATCH.

(** ** Theorems *)

(** The frequency is between 100 and 10000 MHz whatever the clocks do (a clock that
    goes backwards included), is the measured one when that is plausible, and never
    changes after the first call. *)
Theorem tsc_frequency_spec a st c : st.(tsc_cached) = 0 \/ 100 <= st.(tsc_cached) <= 10000 ->
  let '(st', mhz) := v8m_arch_tsc_frequency_mhz a st c in
  100 <= mhz <= 10000 /\ (forall c', v8m_arch_tsc_frequency_mhz a st' c' = (st', mhz)) /\
  (a = X86_64 -> st.(tsc_cached) = 0 -> 0 <= c.(t0_tsc) < c.(t1_tsc) -> 0 <= c.(t0_ns) < c.(t1_ns) -> (c.(t1_tsc) - c.(t0_tsc)) * 1000 < 2 ^ 64 ->
   100 <= (c.(t1_tsc) - c.(t0_tsc)) * 1000 / (c.(t1_ns) - c.(t0_ns)) <= 10000 -> mhz = (c.(t1_tsc) - c.(t0_tsc)) * 1000 / (c.(t1_ns) - c.(t0_ns))).
Proof.
  intros Hc. destruct a; try (cbn; split; [lia|split; [done|done]]). unfold v8m_arch_tsc_frequency_mhz. destruct (Z.eqb_spec (tsc_cached st) 0) as [Hz|Hz]; cbn [negb].
  - set (mhz := if _ =? 0 then 0 else _ / _). set (m2 := if _ || _ then 3000 else mhz).
    assert (Hr : 100 <= m2 <= 10000) by (unfold m2; destruct (Z.ltb_spec mhz 100), (Z.ltb_spec 10000 mhz); cbn; lia).
    assert (Hu : u32 m2 = m2) by (unfold u32; rewrite Z.mod_small; lia). rewrite Hu. split; [done|]. split; [intros c'; cbn [tsc_cached]; by rewrite (proj2 (Z.eqb_neq m2 0)) by lia|].
    intros _ _ Ht Hn Hb Hp. assert (mhz = (t1_tsc c - t0_tsc c) * 1000 / (t1_ns c - t0_ns c)) as Hm.
    { unfold mhz. rewrite (proj2 (Z.ltb_lt (t0_tsc c) _)), (proj2 (Z.ltb_lt (t0_ns c) _)), (proj2 (Z.eqb_neq _ _)) by lia. by rewrite u64_small by (unfold is_u64; lia). }
    unfold m2. rewrite Hm, (proj2 (Z.ltb_ge _ 100)), (proj2 (Z.ltb_ge 10000 _)) by lia. done.
  - split; [lia|]. split; [intros c'; by rewrite (proj2 (Z.eqb_neq _ _) Hz)|intros; lia].
Qed.

(** The kernel is asked once: later answers, failures included, change nothing. *)
Theorem extensions_stable a bit bit' st probe probe' : (forall m, probe = Some m -> 0 <= m < UINT64_MAX) ->
  let '(st', b) := has_extension a bit st probe in
  has_extension a bit st' probe' = (st', b) /\ (st.(ima_cached) = 0 -> a = RiscV64 -> (has_extension a bit' st' probe').2 = negb (Z.land (default 0 probe) bit' =? 0)).
Proof.
  intros Hp. destruct a; try (cbn; done). unfold has_extension, riscv_ima_ext_0. destruct (Z.eqb_spec (ima_cached st) 0) as [Hz|Hz]; cbn [negb].
  - destruct probe as [m|]; cbn [ima_cached default].
    + specialize (Hp m eq_refl). destruct (Z.eqb_spec m 0) as [->|Hm]; [done|]. rewrite (proj2 (Z.eqb_neq m 0) Hm), (proj2 (Z.eqb_neq m _)) by lia. done.
    + done.
  - rewrite (proj2 (Z.eqb_neq _ _) Hz). cbn. done.
Qed.

Lemma substring_length n m s : (n + m <= String.length s)%nat -> String.length (String.substring n m s) = m.
Proof.
  revert n m. induction s as [|c s IH]; intros n m H; destruct n as [|n], m as [|m]; cbn in *; try lia.
  - by rewrite (IH 0%nat m) by lia.
  - apply IH. lia.
  - apply (IH n (S m)). lia.
Qed.
Lemma substring_all m s : (String.length s <= m)%nat -> String.substring 0 m s = s.
Proof. revert m. induction s as [|c s IH]; intros m H; destruct m as [|m]; cbn in *; try done; [lia|]. by rewrite IH by lia. Qed.

(** The summary returns the length of what it left in the buffer, which always fits
    with its terminator. *)
Theorem format_isa_summary_length a m st cap : 0 < cap ->
  match v8m_arch_format_isa_summary a m st cap with
  | (_, Some buf, r) => r = Z.of_nat (String.length buf) /\ r < cap
  | (_, None, _) => False
  end.
Proof.
  intros Hc. unfold v8m_arch_format_isa_summary. rewrite (proj2 (Z.eqb_neq cap 0)) by lia. destruct (v8m_arch_has_zbb a st _) as [st1 zbb], (v8m_arch_has_zacas a st1 _) as [st2 zacas], (v8m_arch_tsc_frequency_mhz a st2 _) as [st3 mhz].
  unfold snprintf. set (text := (_ ++ _)%string). destruct (Z.leb_spec cap (Z.of_nat (String.length text))).
  - rewrite substring_length by lia. lia.
  - rewrite substring_all by lia. lia.
Qed.

(** Every name fits its field, and the cache line of any machine is a power of two. *)
Theorem arch_info_fits a m st : let i := (v8m_get_arch_info a m st).2 in i.(i_arch_name) = arch_name a /\ exists k, 2 <= k <= 17 /\ i.(cache_line_bytes) = 2 ^ k.
Proof.
  unfold v8m_get_arch_info. destruct (v8m_arch_tsc_frequency_mhz a st _) as [st1 mhz], (v8m_arch_has_zbb a st1 _) as [st2 zbb], (v8m_arch_has_zacas a st2 _) as [st3 zacas]. cbn [snd i_arch_name cache_line_bytes].
  split; [by destruct a|]. destruct a; cbn [v8m_arch_runtime_cache_line_size]; try (exists 6; split; [lia|reflexivity]); [|exists 7; split; [lia|reflexivity]|exists 8; split; [lia|reflexivity]].
  set (d := Z.land _ 15). assert (Hd : 0 <= d <= 15) by (assert (E : d = Z.shiftr (ctr_el0 m) 16 mod 16) by exact (land_mask_low _ 4 ltac:(lia)); pose proof (Z.mod_pos_bound (Z.shiftr (ctr_el0 m) 16) 16 ltac:(lia)); lia).
  exists (2 + d). split; [lia|]. assert (E : Z.shiftl 4 d = 2 ^ (2 + d)) by (rewrite Z.shiftl_mul_pow2, Z.pow_add_r by lia; lia).
  assert (Hb : 0 < 2 ^ (2 + d) <= 2 ^ 17) by (split; [apply Z.pow_pos_nonneg; lia|apply Z.pow_le_mono_r; lia]). rewrite E. clearbody d. clear E. generalize dependent (2 ^ (2 + d)). intros p Hb. assert (Hu : u32 p = p) by (unfold u32; apply Z.mod_small; lia). by rewrite !Hu.
Qed.

Lemma example_summary :
  (v8m_arch_format_isa_summary X86_64 (MkMachine 0 None 0 (MkCalibration 0 0 15000000 5000000)) statics0 256).1.2 =
  Some "v8malloc isa: arch=x86_64 cache_line=64 lse=no zbb=no zacas=no tsc_mhz=3000 build_cache_line=64"%string.
Proof. vm_compute. reflexivity. Qed.

End Arch.
