(* ===== verification/Fork.v ===== *)
(** Locks and [fork]: the [pthread_atfork] handlers of [src/v8m_api.c] with the
    handlers of the modules they call ([v8m_dispatch.c], [v8m_page_heap.c],
    [v8m_large.c], [v8m_thread_cache.c], [v8m_bg_purge.c]), as sequences of lock
    actions, interleaved with threads that run the allocator.

    [operation_locks] gives the lock actions of the allocator's operations; the
    data they work on is in the other files.  [ready] stands for [g_init_state]
    being [V8M_INIT_READY] and [anchor] for [g_anchor_initialized]; both handlers
    of one [fork] read the same values here.  The mutexes are the default ones: a
    thread waits for a lock that anybody holds, itself included, and an unlock by
    a thread that does not hold the lock has no step. *)

From S2P Require Import Prelude.

Module Fork.

(** ** Locks *)

(** [slab.lock], [slab_lifetime[i].lock] and [buddy.lock] of [g_dispatch], the node
    locks of the NUMA pool, [g_region_lock], [g_anchor.lock], [g_large_cache_lock],
    [g_registry_lock], [g_lock] of the background purge and
    [g_double_free_ring_lock]. *)
Inductive lock := SlabLock | LifetimeLock (i : nat) | BuddyLock | NodeLock (node : nat) | RegionLock | AnchorLock | LargeCacheLock | RegistryLock | PurgeLock | RingLock.

Definition lock_code (l : lock) : nat * nat :=
  match l with
  | SlabLock => (0, 0) | LifetimeLock i => (1, i) | BuddyLock => (2, 0) | NodeLock n => (3, n) | RegionLock => (4, 0)
  | AnchorLock => (5, 0) | LargeCacheLock => (6, 0) | RegistryLock => (7, 0) | PurgeLock => (8, 0) | RingLock => (9, 0)
  end%nat.
Definition lock_decode (c : nat * nat) : lock :=
  match c with
  | (0, _) => SlabLock | (1, i) => LifetimeLock i | (2, _) => BuddyLock | (3, n) => NodeLock n | (4, _) => RegionLock
  | (5, _) => AnchorLock | (6, _) => LargeCacheLock | (7, _) => RegistryLock | (8, _) => PurgeLock | _ => RingLock
  end%nat.
Lemma lock_decode_code l : lock_decode (lock_code l) = l.
Proof. by destruct l. Qed.
#[export] Instance lock_eq_dec : EqDecision lock.
Proof. solve_decision. Defined.
#[export] Instance lock_countable : Countable lock := inj_countable' lock_code lock_decode lock_decode_code.

Inductive action := Lock (l : lock) | Unlock (l : lock).
#[export] Instance action_eq_dec : EqDecision action.
Proof. solve_decision. Defined.

(** ** The handlers *)

(** [V8M_ARENA_COUNT - 1]. *)
Definition lifetime_arenas : nat := 3.

Definition v8m_page_heap_prefork (anchor : bool) : list action := Lock RegionLock :: if anchor then [Lock AnchorLock] else [].
Definition v8m_page_heap_postfork_parent (anchor : bool) : list action := (if anchor then [Unlock AnchorLock] else []) ++ [Unlock RegionLock].
Definition v8m_page_heap_postfork_child (anchor : bool) : list action := (if anchor then [Unlock AnchorLock] else []) ++ [Unlock RegionLock].

Definition v8m_dispatch_prefork (anchor : bool) : list action :=
  Lock SlabLock :: ((fun i => Lock (LifetimeLock i)) <$> seq 0 lifetime_arenas) ++ [Lock BuddyLock] ++ v8m_page_heap_prefork anchor.
Definition v8m_dispatch_postfork_parent (anchor : bool) : list action :=
  v8m_page_heap_postfork_parent anchor ++ [Unlock BuddyLock] ++ ((fun i => Unlock (LifetimeLock (i - 1))) <$> reverse (seq 1 lifetime_arenas)) ++ [Unlock SlabLock].
Definition v8m_dispatch_postfork_child (anchor : bool) : list action :=
  v8m_page_heap_postfork_child anchor ++ [Unlock BuddyLock] ++ ((fun i => Unlock (LifetimeLock (i - 1))) <$> reverse (seq 1 lifetime_arenas)) ++ [Unlock SlabLock].

Definition v8m_large_prefork : list action := [Lock LargeCacheLock].
Definition v8m_large_postfork_parent : list action := [Unlock LargeCacheLock].
Definition v8m_large_postfork_child : list action := [Unlock LargeCacheLock].
Definition v8m_thread_cache_prefork : list action := [Lock RegistryLock].
Definition v8m_thread_cache_postfork_parent : list action := [Unlock RegistryLock].
Definition v8m_thread_cache_postfork_child : list action := [Unlock RegistryLock].
Definition v8m_bg_purge_prefork : list action := [Lock PurgeLock].
Definition v8m_bg_purge_postfork_parent : list action := [Unlock PurgeLock].
(** The store to [g_running] is in [BgPurge]. *)
Definition v8m_bg_purge_postfork_child : list action := [Unlock PurgeLock].

Definition v8m_atfork_prepare (ready anchor : bool) : list action :=
  (if ready then v8m_dispatch_prefork anchor ++ v8m_large_prefork ++ v8m_thread_cache_prefork ++ v8m_bg_purge_prefork else []) ++ [Lock RingLock].
Definition v8m_atfork_parent (ready anchor : bool) : list action :=
  Unlock RingLock :: if ready then v8m_bg_purge_postfork_parent ++ v8m_thread_cache_postfork_parent ++ v8m_large_postfork_parent ++ v8m_dispatch_postfork_parent anchor else [].
Definition v8m_atfork_child (ready anchor : bool) : list action :=
  Unlock RingLock :: if ready then v8m_bg_purge_postfork_child ++ v8m_thread_cache_postfork_child ++ v8m_large_postfork_child ++ v8m_dispatch_postfork_child anchor else [].

(** ** The operations *)

Definition section (l : lock) (body : list action) : list action := Lock l :: body ++ [Unlock l].

(** A call into the page heap: any sequence of its critical sections over the
    region map ([false]) and the anchor reservation ([true]); no two are nested. *)
Definition page_heap_locks (call : list bool) : list action :=
  call ≫= fun on_anchor : bool => section (if on_anchor then AnchorLock else RegionLock) [].

(** What a slab pool does under its lock: calls into the page heap, and carving from
    or releasing to one node of the NUMA pool, whose critical section may call the
    page heap in turn. *)
Inductive slab_call := FromPageHeap (call : list bool) | FromNode (node : nat) (call : list bool).
Definition slab_call_locks (c : slab_call) : list action :=
  match c with
  | FromPageHeap call => page_heap_locks call
  | FromNode node call => section (NodeLock node) (page_heap_locks call)
  end.

(** [SlabOp None] works on the default slab pool, [SlabOp (Some i)] on a lifetime
    arena; [PageHeapOp] is a call outside every pool (large objects, thread caches,
    housekeeping); the last four take one lock around memory of their own. *)
Inductive operation :=
| SlabOp (arena : option nat) (calls : list slab_call)
| BuddyOp (call : list bool)
| PageHeapOp (call : list bool)
| LargeCacheOp | RegistryOp | PurgeOp | RingOp.

Definition slab_lock (arena : option nat) : lock := match arena with None => SlabLock | Some i => LifetimeLock i end.
Definition operation_locks (op : operation) : list action :=
  match op with
  | SlabOp arena calls => section (slab_lock arena) (calls ≫= slab_call_locks)
  | BuddyOp call => section BuddyLock (page_heap_locks call)
  | PageHeapOp call => page_heap_locks call
  | LargeCacheOp => section LargeCacheLock []
  | RegistryOp => section RegistryLock []
  | PurgeOp => section PurgeLock []
  | RingOp => section RingLock []
  end.

(** The operations there are in a mode: none but the ring's before the allocator is
    ready, and no section of an anchor that does not exist. *)
Definition call_enabled (anchor : bool) (call : list bool) : bool := anchor || negb (existsb id call).
Definition slab_call_enabled (anchor : bool) (c : slab_call) : bool := match c with FromPageHeap call | FromNode _ call => call_enabled anchor call end.
Definition enabled (ready anchor : bool) (op : operation) : bool :=
  match op with
  | SlabOp arena calls => ready && match arena with Some i => (i <? lifetime_arenas)%nat | None => true end && forallb (slab_call_enabled anchor) calls
  | BuddyOp call | PageHeapOp call => ready && call_enabled anchor call
  | RingOp => true
  | _ => ready
  end.

(** A thread runs operations and forks. *)
Inductive item := Does (op : operation) | Forks.
Definition item_locks (ready anchor : bool) (i : item) : list action :=
  match i with
  | Does op => operation_locks op
  | Forks => v8m_atfork_prepare ready anchor ++ v8m_atfork_parent ready anchor
  end.
Definition item_enabled (ready anchor : bool) (i : item) : bool := match i with Does op => enabled ready anchor op | Forks => true end.
Definition thread_locks (ready anchor : bool) (items : list item) : list action := items ≫= item_locks ready anchor.

(** ** Interleaving *)

(** The holders of the locks and what each thread still has to do. *)
Record sys := MkSys { owner : gmap lock nat; todo : list (list action) }.

Definition act (owners : gmap lock nat) (t : nat) (a : action) : option (gmap lock nat) :=
  match a with
  | Lock l => match owners !! l with None => Some (<[l := t]> owners) | Some _ => None end
  | Unlock l => if decide (owners !! l = Some t) then Some (delete l owners) else None
  end.

Inductive step : sys -> sys -> Prop :=
| step_act s t a rest owners' :
    s.(todo) !! t = Some (a :: rest) -> act s.(owner) t a = Some owners' ->
    step s (MkSys owners' (<[t := rest]> s.(todo))).

Definition start (programs : list (list action)) : sys := MkSys ∅ programs.

(** One thread alone, as in the child of a [fork]. *)
Fixpoint run_alone (owners : gmap lock nat) (t : nat) (program : list action) : option (gmap lock nat) :=
  match program with
  | [] => Some owners
  | a :: rest => match act owners t a with Some owners' => run_alone owners' t rest | None => None end
  end.

Definition remaining (s : sys) : nat := sum_list (length <$> s.(todo)).

Lemma forallb_elem {A} (f : A -> bool) xs x : forallb f xs = true -> x ∈ xs -> f x = true.
Proof. intros H Hx. by apply (proj1 (forallb_forall f xs) H), list_elem_of_In. Qed.

(** ** The discipline *)

Definition rank (l : lock) : nat :=
  match l with
  | SlabLock => 0 | LifetimeLock i => 1 + i | BuddyLock => 1 + lifetime_arenas | NodeLock _ => 2 + lifetime_arenas | RegionLock => 3 + lifetime_arenas
  | AnchorLock => 4 + lifetime_arenas | LargeCacheLock => 5 + lifetime_arenas | RegistryLock => 6 + lifetime_arenas | PurgeLock => 7 + lifetime_arenas | RingLock => 8 + lifetime_arenas
  end%nat.

Definition is_slab (l : lock) : bool := match l with SlabLock | LifetimeLock _ => true | _ => false end.
Definition is_node (l : lock) : bool := match l with NodeLock _ => true | _ => false end.

(** The locks the handlers take. *)
Definition fork_locks (ready anchor : bool) : list lock := omap (fun a => match a with Lock l => Some l | Unlock _ => None end) (v8m_atfork_prepare ready anchor).

(** Locks are taken in ascending rank, and every lock is one of the handlers' or a
    node lock under a slab pool's. *)
Definition allowed (ready anchor : bool) (held : list lock) (l : lock) : bool :=
  forallb (fun h => rank h <? rank l)%nat held &&
  (bool_decide (l ∈ fork_locks ready anchor) || (is_node l && existsb is_slab held)).

(** Locks are given back last in, first out; the result is the stack of held locks. *)
Fixpoint check (ready anchor : bool) (held : list lock) (program : list action) : option (list lock) :=
  match program with
  | [] => Some held
  | Lock l :: rest => if allowed ready anchor held l then check ready anchor (l :: held) rest else None
  | Unlock l :: rest =>
      match held with
      | h :: held' => if decide (h = l) then check ready anchor held' rest else None
      | [] => None
      end
  end.

Section discipline.
Context (ready anchor : bool).
Implicit Types (held : list lock) (l : lock).

Lemma check_app held a b : check ready anchor held (a ++ b) = (held' ← check ready anchor held a; check ready anchor held' b).
Proof.
  revert held. induction a as [|[l|l] a IH]; intros held; cbn [check app].
  - done.
  - destruct (allowed _ _ _ _); [apply IH|done].
  - destruct held as [|h held]; [done|]. destruct (decide (h = l)); [apply IH|done].
Qed.

Lemma check_section held l body : allowed ready anchor held l = true -> check ready anchor (l :: held) body = Some (l :: held) -> check ready anchor held (section l body) = Some held.
Proof. intros Ha Hb. unfold section. cbn [check]. rewrite Ha, check_app, Hb. cbn. by rewrite decide_True. Qed.

Lemma check_bind {A} (f : A -> list action) held xs : (forall x, x ∈ xs -> check ready anchor held (f x) = Some held) -> check ready anchor held (xs ≫= f) = Some held.
Proof.
  induction xs as [|x xs IH]; intros H; [done|]. cbn. rewrite check_app, H by left. cbn. apply IH. intros y Hy. apply H. by right.
Qed.

Lemma allowed_fork held l : l ∈ fork_locks ready anchor -> (forall h, h ∈ held -> (rank h < rank l)%nat) -> allowed ready anchor held l = true.
Proof.
  intros Hl Hh. unfold allowed. rewrite bool_decide_true by done. rewrite orb_true_l, andb_true_r. apply forallb_forall. intros h Hi. apply Nat.ltb_lt, Hh. by apply list_elem_of_In.
Qed.

Lemma ready_locks l : ready = true -> is_node l = false -> (forall i, l = LifetimeLock i -> (i < lifetime_arenas)%nat) -> (l = AnchorLock -> anchor = true) -> l ∈ fork_locks ready anchor.
Proof.
  intros -> Hn Hl Ha. destruct l as [|i| | | | | | | |]; try done; try (destruct anchor; vm_compute; set_solver).
  specialize (Hl i eq_refl). unfold lifetime_arenas in Hl. destruct i as [|[|[|i]]]; [| | |lia]; destruct anchor; vm_compute; set_solver.
Qed.

Lemma ring_lock : RingLock ∈ fork_locks ready anchor.
Proof. destruct ready, anchor; vm_compute; set_solver. Qed.

Lemma check_page_heap held call : ready = true -> call_enabled anchor call = true -> (forall h, h ∈ held -> (rank h < rank RegionLock)%nat) -> check ready anchor held (page_heap_locks call) = Some held.
Proof.
  intros Hr Hc Hh. apply check_bind. intros b Hb. apply check_section; [|done].
  assert (Ha : b = true -> anchor = true).
  { intros ->. unfold call_enabled in Hc. destruct anchor; [done|]. cbn in Hc. apply negb_true_iff in Hc. assert (existsb id call = true) as E; [|congruence]. apply existsb_exists. exists true. split; [by apply list_elem_of_In|done]. }
  apply allowed_fork; [apply ready_locks; [done|by destruct b|intros i; by destruct b|]|].
  - destruct b; [intros _; by apply Ha|done].
  - intros h Hi. specialize (Hh h Hi). destruct b; cbn in *; lia.
Qed.

Lemma check_operation op : enabled ready anchor op = true -> check ready anchor [] (operation_locks op) = Some [].
Proof.
  assert (Hnil : forall l h, h ∈ (@nil lock) -> (rank h < rank l)%nat) by (intros l h Hh; by apply not_elem_of_nil in Hh).
  destruct op as [arena calls|call|call| | | |]; cbn [enabled operation_locks]; intros He; repeat (apply andb_true_iff in He as [He ?]).
  - assert (Hk : (forall i, slab_lock arena = LifetimeLock i -> (i < lifetime_arenas)%nat) /\ is_node (slab_lock arena) = false /\ is_slab (slab_lock arena) = true /\ slab_lock arena <> AnchorLock /\ (rank (slab_lock arena) < rank (NodeLock 0))%nat).
    { destruct arena as [i|]; cbn; [|split_and!; try done; lia]. match goal with X : (i <? _)%nat = true |- _ => apply Nat.ltb_lt in X; rename X into Hi end. split_and!; try done; [by intros j [= ->]|cbn in Hi; lia]. }
    destruct Hk as (K1 & K2 & K3 & K4 & K5). apply check_section; [apply allowed_fork; [apply ready_locks; done|apply Hnil]|].
    apply check_bind. intros c Hc. assert (Hcall : slab_call_enabled anchor c = true) by (by eapply forallb_elem).
    assert (Hone : forall h, h ∈ [slab_lock arena] -> (rank h < rank (NodeLock 0))%nat) by (intros h ->%list_elem_of_singleton; done).
    destruct c as [call|node call]; cbn [slab_call_locks].
    + apply check_page_heap; [done|done|]. intros h Hh. specialize (Hone h Hh). cbn in *. lia.
    + apply check_section.
      * unfold allowed. cbn [forallb existsb]. rewrite K3. cbn. rewrite !orb_true_r, !andb_true_r. apply Nat.ltb_lt in K5. exact K5.
      * apply check_page_heap; [done|done|]. intros h [->|Hh]%elem_of_cons; [cbn; lia|]. specialize (Hone h Hh). cbn in *. lia.
  - apply check_section; [apply allowed_fork; [by apply ready_locks|apply Hnil]|]. apply check_page_heap; [done|done|]. intros h ->%list_elem_of_singleton. cbn. lia.
  - apply check_page_heap; [done|done|]. intros h Hh. by apply not_elem_of_nil in Hh.
  - apply check_section; [apply allowed_fork; [by apply ready_locks|apply Hnil]|done].
  - apply check_section; [apply allowed_fork; [by apply ready_locks|apply Hnil]|done].
  - apply check_section; [apply allowed_fork; [by apply ready_locks|apply Hnil]|done].
  - apply check_section; [apply allowed_fork; [apply ring_lock|apply Hnil]|done].
Qed.

Lemma check_prepare : check ready anchor [] (v8m_atfork_prepare ready anchor) = Some (reverse (fork_locks ready anchor)).
Proof. destruct ready, anchor; vm_compute; done. Qed.
Lemma check_parent : check ready anchor (reverse (fork_locks ready anchor)) (v8m_atfork_parent ready anchor) = Some [].
Proof. destruct ready, anchor; vm_compute; done. Qed.
Lemma check_child : check ready anchor (reverse (fork_locks ready anchor)) (v8m_atfork_child ready anchor) = Some [].
Proof. destruct ready, anchor; vm_compute; done. Qed.

Lemma check_thread items : forallb (item_enabled ready anchor) items = true -> check ready anchor [] (thread_locks ready anchor items) = Some [].
Proof.
  intros H. apply check_bind. intros i Hi. assert (He : item_enabled ready anchor i = true) by (by eapply forallb_elem).
  destruct i as [op|]; cbn [item_locks]; [by apply check_operation|]. rewrite check_app, check_prepare. cbn. apply check_parent.
Qed.

(** The stack holds no lock twice, and every lock on it is one of the handlers' or
    sits above a slab pool's. *)
Definition stack_ok (held : list lock) : Prop := NoDup held /\ forall l, l ∈ held -> l ∈ fork_locks ready anchor \/ exists k, k ∈ held /\ k ∈ fork_locks ready anchor.

Fixpoint stacked (held : list lock) : Prop :=
  match held with
  | [] => True
  | l :: rest => allowed ready anchor rest l = true /\ stacked rest
  end.
Lemma check_stacked held program held' : stacked held -> check ready anchor held program = Some held' -> stacked held'.
Proof.
  revert held. induction program as [|[l|l] program IH]; intros held Hs Hc; cbn [check] in Hc.
  - by injection Hc as <-.
  - destruct (allowed _ _ _ _) eqn:Ha; [|done]. by apply (IH (l :: held)).
  - destruct held as [|h held]; [done|]. destruct (decide (h = l)); [|done]. apply (IH held); [apply Hs|done].
Qed.
Lemma allowed_spec held l : allowed ready anchor held l = true -> (forall h, h ∈ held -> (rank h < rank l)%nat) /\ (l ∈ fork_locks ready anchor \/ is_node l = true /\ exists k, k ∈ held /\ is_slab k = true).
Proof.
  unfold allowed. intros [H1 H2]%andb_true_iff. split.
  - intros h Hh. apply Nat.ltb_lt. by apply (forallb_elem _ _ h H1).
  - apply orb_true_iff in H2 as [H2|[H2 H3]%andb_true_iff]; [left; by apply bool_decide_eq_true in H2|right]. split; [done|]. apply existsb_exists in H3 as (k & Hk & ?). exists k. split; [by apply list_elem_of_In|done].
Qed.
Lemma stacked_ok held : stacked held -> stack_ok held.
Proof.
  induction held as [|l held IH]; intros Hs; [split; [constructor|intros l Hl; by apply not_elem_of_nil in Hl]|]. destruct Hs as [Ha Hs]. destruct (IH Hs) as [IH1 IH2]. apply allowed_spec in Ha as [Hr Hc]. split.
  - constructor; [|done]. intros Hl. specialize (Hr l Hl). lia.
  - intros k [->|Hk]%elem_of_cons.
    + destruct Hc as [Hc|(Hn & s & Hs1 & Hs2)]; [by left|]. right. destruct (IH2 s Hs1) as [?|(k & ? & ?)]; [exists s; split; [by right|done]|exists k; split; [by right|done]].
    + destruct (IH2 k Hk) as [?|(j & ? & ?)]; [by left|right; exists j; split; [by right|done]].
Qed.

Lemma stacked_rank l held : stacked (l :: held) -> forall h, h ∈ held -> (rank h < rank l)%nat.
Proof. intros [Ha _]. by apply allowed_spec in Ha as [? _]. Qed.

(** ** The invariant *)

(** Thread [t] holds exactly [held]. *)
Definition holds (owners : gmap lock nat) (t : nat) (held : list lock) : Prop := forall l, owners !! l = Some t <-> l ∈ held.

Lemma act_holds owners t held a rest held' owners' : stacked held -> holds owners t held -> check ready anchor held (a :: rest) = Some held' -> act owners t a = Some owners' ->
  exists now, stacked now /\ holds owners' t now /\ check ready anchor held [a] = Some now /\ check ready anchor now rest = Some held' /\
    (forall u, u <> t -> forall h, holds owners u h -> holds owners' u h).
Proof.
  intros Hs Hh Hc Ha. destruct a as [l|l]; cbn [check act] in *.
  - destruct (allowed ready anchor held l) eqn:E; [|done]. destruct (owners !! l) eqn:Eo; [done|]. injection Ha as <-. exists (l :: held). split; [done|]. split; [|split; [done|split; [done|]]].
    + intros k. rewrite elem_of_cons, lookup_insert. destruct (decide (l = k)) as [->|Hne]; [split; [by left|done]|]. rewrite (Hh k). split; [by right|by intros [->|?]].
    + intros u Hu h Hk k. rewrite lookup_insert. destruct (decide (l = k)) as [->|Hne]; [|apply Hk]. split; [by intros [= ->]|]. intros Hin. apply Hk in Hin. congruence.
  - destruct held as [|h held]; [done|]. destruct (decide (h = l)) as [->|]; [|done]. destruct (decide (owners !! l = Some t)) as [Eo|]; [|done]. injection Ha as <-.
    pose proof (proj1 (stacked_ok (l :: held) Hs)) as [Hnot _]%NoDup_cons. exists held. split; [apply Hs|]. split; [|split; [done|split; [done|]]].
    + intros k. rewrite lookup_delete. destruct (decide (l = k)) as [->|Hne]; [done|]. rewrite (Hh k), elem_of_cons. split; [by intros [->|?]|by right].
    + intros u Hu h Hk k. rewrite lookup_delete. destruct (decide (l = k)) as [->|Hne]; [|apply Hk]. split; [done|]. intros Hin. apply Hk in Hin. congruence.
Qed.

Record inv (programs : list (list action)) (s : sys) : Prop := {
  inv_threads : forall t p, programs !! t = Some p -> exists past rest held,
    s.(todo) !! t = Some rest /\ p = past ++ rest /\ check ready anchor [] past = Some held /\ check ready anchor held rest = Some [] /\ holds s.(owner) t held;
  inv_length : length s.(todo) = length programs;
  inv_owner : forall l t, s.(owner) !! l = Some t -> (t < length programs)%nat
}.

Lemma forks_start programs : (forall p, p ∈ programs -> check ready anchor [] p = Some []) -> inv programs (start programs).
Proof.
  intros H. constructor; [|done|intros l t E; cbn in E; by rewrite lookup_empty in E].
  intros t p Hp. exists [], p, []. split; [done|]. split; [done|]. split; [done|]. split; [apply H; by eapply list_elem_of_lookup_2|].
  intros l. cbn. rewrite lookup_empty. split; [done|]. intros Hl. by apply not_elem_of_nil in Hl.
Qed.

Lemma forks_step programs s s' : inv programs s -> step s s' -> inv programs s'.
Proof.
  intros [H1 H2 H3] Hst. destruct Hst as [s t a rest owners' Ht Ha].
  assert (Hlt : (t < length programs)%nat) by (rewrite <- H2; by eapply lookup_lt_Some). destruct (lookup_lt_is_Some_2 programs t Hlt) as [p Hp].
  destruct (H1 t p Hp) as (past & r & held & E1 & E2 & E3 & E4 & E5). rewrite Ht in E1. injection E1 as <-.
  destruct (act_holds _ _ _ _ _ _ _ (check_stacked [] past held I E3) E5 E4 Ha) as (now & N1 & N2 & N3 & N4 & N5). constructor; cbn [owner todo].
  - intros u q Hq. destruct (decide (t = u)) as [<-|Hne].
    + assert (q = p) as -> by congruence. exists (past ++ [a]), rest, now. rewrite list_lookup_insert_eq by (by eapply lookup_lt_Some). split; [done|]. split; [by rewrite <- app_assoc|]. split; [by rewrite check_app, E3|done].
    + destruct (H1 u q Hq) as (past' & r' & held' & F1 & F2 & F3 & F4 & F5). exists past', r', held'. rewrite list_lookup_insert_ne by done. split_and!; try done. by apply N5.
  - by rewrite length_insert.
  - intros l u Hl. destruct a as [k|k]; cbn [act] in Ha.
    + destruct (s.(owner) !! k); [done|]. injection Ha as <-. rewrite lookup_insert in Hl. destruct (decide (k = l)); [by injection Hl as <-|by apply (H3 l)].
    + destruct (decide _); [|done]. injection Ha as <-. rewrite lookup_delete in Hl. destruct (decide (k = l)); [done|by apply (H3 l)].
Qed.

Lemma forks_reachable programs s : (forall p, p ∈ programs -> check ready anchor [] p = Some []) -> rtc step (start programs) s -> inv programs s.
Proof.
  intros H Hr. refine (rtc_ind_r (R := step) (inv programs) (start programs) _ _ s Hr); [by apply forks_start|intros x y _ Hxy Hx; by apply (forks_step _ x)].
Qed.

Lemma programs_ok threads p : forallb (forallb (item_enabled ready anchor)) threads = true -> p ∈ thread_locks ready anchor <$> threads -> check ready anchor [] p = Some [].
Proof. intros H (items & -> & Hi)%list_elem_of_fmap. apply check_thread. by eapply forallb_elem. Qed.

(** ** Progress *)

Lemma remaining_insert (ts : list (list action)) t a rest : ts !! t = Some (a :: rest) -> (sum_list (length <$> (<[t := rest]> ts)) < sum_list (length <$> ts))%nat.
Proof.
  revert t. induction ts as [|x ts IH]; intros t Ht; [done|]. destruct t as [|t]; cbn in *; [injection Ht as ->; cbn; lia|]. specialize (IH t Ht). cbn in IH |- *. apply (Nat.add_lt_mono_l _ _ (length x)) in IH. exact IH.
Qed.
Lemma step_remaining s s' : step s s' -> (remaining s' < remaining s)%nat.
Proof. intros [s0 t a rest owners' Ht _]. by apply (remaining_insert _ _ a). Qed.

Lemma allowed_rank held l : allowed ready anchor held l = true -> (rank l <= 11)%nat.
Proof.
  intros [_ [H|[H _]]]%allowed_spec; [|destruct l; try done; unfold rank, lifetime_arenas; lia].
  assert (Hb : forallb (fun k => rank k <=? 11)%nat (fork_locks ready anchor) = true) by (destruct ready, anchor; vm_compute; done).
  apply Nat.leb_le. by apply (forallb_elem _ _ l Hb).
Qed.

(** In a state without a step every thread that is not done waits for a held lock,
    whose holder waits for one of a higher rank. *)
Lemma stuck_head programs s t a rest : inv programs s -> (forall s', ~ step s s') -> s.(todo) !! t = Some (a :: rest) -> exists l u, a = Lock l /\ (rank l <= 11)%nat /\ s.(owner) !! l = Some u /\ forall k, s.(owner) !! k = Some t -> (rank k < rank l)%nat.
Proof.
  intros [H1 H2 _] Hstuck Ht. assert (Hlt : (t < length programs)%nat) by (rewrite <- H2; by eapply lookup_lt_Some). destruct (lookup_lt_is_Some_2 programs t Hlt) as [p Hp].
  destruct (H1 t p Hp) as (past & r & held & E1 & _ & _ & E4 & E5). rewrite Ht in E1. injection E1 as <-.
  assert (Hno : act s.(owner) t a = None) by (destruct (act s.(owner) t a) eqn:E; [by destruct (Hstuck _ (step_act _ _ _ _ _ Ht E))|done]).
  destruct a as [l|l]; cbn [act check] in *.
  - destruct (allowed ready anchor held l) eqn:Ha; [|done]. destruct (s.(owner) !! l) as [u|] eqn:Eo; [|done]. exists l, u. split; [done|]. split; [by eapply allowed_rank|]. split; [done|].
    intros k Hk. apply allowed_spec in Ha as [Hr _]. apply Hr. by apply E5.
  - destruct held as [|h held]; [done|]. destruct (decide (h = l)) as [->|]; [|done]. destruct (decide _) as [|Hn]; [done|]. destruct Hn. apply E5. by left.
Qed.

Lemma holder_waits programs s l u : inv programs s -> s.(owner) !! l = Some u -> exists a rest, s.(todo) !! u = Some (a :: rest).
Proof.
  intros [H1 _ H3] Ho. destruct (lookup_lt_is_Some_2 programs u (H3 l u Ho)) as [p Hp]. destruct (H1 u p Hp) as (past & rest & held & E1 & _ & _ & E4 & E5).
  destruct rest as [|a rest]; [|eauto]. cbn in E4. injection E4 as ->. apply E5 in Ho. by apply not_elem_of_nil in Ho.
Qed.

Lemma no_waiter programs s : inv programs s -> (forall s', ~ step s s') -> forall n t a rest, s.(todo) !! t = Some (a :: rest) -> (forall l, a = Lock l -> (12 - rank l <= n)%nat) -> False.
Proof.
  intros Hi Hstuck n. induction n as [|n IH]; intros t a rest Ht Hn; destruct (stuck_head _ _ _ _ _ Hi Hstuck Ht) as (l & u & -> & Hr & Ho & _); specialize (Hn l eq_refl); [lia|].
  destruct (holder_waits _ _ _ _ Hi Ho) as (b & rest' & Hu). destruct (stuck_head _ _ _ _ _ Hi Hstuck Hu) as (k & v & -> & Hk & _ & Hlow).
  apply (IH u (Lock k) rest' Hu). intros k' [= <-]. specialize (Hlow l Ho). lia.
Qed.

(** ** The child *)

Lemma run_alone_holds owners t held program held' : stacked held -> holds owners t held -> (forall l u, owners !! l = Some u -> u = t) -> check ready anchor held program = Some held' ->
  exists owners', run_alone owners t program = Some owners' /\ holds owners' t held' /\ forall l u, owners' !! l = Some u -> u = t.
Proof.
  revert owners held. induction program as [|a program IH]; intros owners held Hs Hh Hall Hc; [injection Hc as <-; by exists owners|].
  assert (Ha : exists owners', act owners t a = Some owners' /\ forall l u, owners' !! l = Some u -> u = t).
  { destruct a as [l|l]; cbn [check act] in *.
    - destruct (allowed ready anchor held l) eqn:E; [|done]. apply allowed_spec in E as [E _]. destruct (owners !! l) as [u|] eqn:Eo.
      { assert (u = t) as -> by by apply (Hall l). apply Hh in Eo. specialize (E l Eo). lia. }
      eexists. split; [done|]. intros k u. rewrite lookup_insert. destruct (decide (l = k)); [by intros [= <-]|apply Hall].
    - destruct held as [|h held]; [done|]. destruct (decide (h = l)) as [->|]; [|done]. rewrite decide_True by (apply Hh; by left).
      eexists. split; [done|]. intros k u. rewrite lookup_delete. destruct (decide (l = k)); [done|apply Hall]. }
  destruct Ha as (owners' & Ha & Hall'). cbn [run_alone]. rewrite Ha. destruct (act_holds _ _ _ _ _ _ _ Hs Hh Hc Ha) as (now & N1 & N2 & _ & N4 & _). by apply (IH owners' now).
Qed.

End discipline.

(** C24: What a [fork] leaves to its child: however the threads of the parent are
    interleaved, once a thread has run the prepare handler it holds every lock the
    handler takes (once the allocator is ready, all but the node locks) and no other
    thread holds any lock, node locks included; and the child's handler, run by that
    thread alone, gives every one of them back. *)
Theorem fork_child_unlocked ready anchor threads t before after s :
  forallb (forallb (item_enabled ready anchor)) threads = true ->
  threads !! t = Some (before ++ Forks :: after) ->
  rtc step (start (thread_locks ready anchor <$> threads)) s ->
  s.(todo) !! t = Some (v8m_atfork_parent ready anchor ++ thread_locks ready anchor after) ->
  (forall l u, s.(owner) !! l = Some u <-> u = t /\ l ∈ fork_locks ready anchor) /\
  run_alone s.(owner) t (v8m_atfork_child ready anchor) = Some ∅.
Proof.
  intros Hen Ht Hr Hs. pose proof (forks_reachable ready anchor _ _ (fun p => programs_ok _ _ _ p Hen) Hr) as [H1 _ H3].
  assert (Hf : (thread_locks ready anchor <$> threads) !! t = Some (thread_locks ready anchor (before ++ Forks :: after))) by by rewrite list_lookup_fmap, Ht.
  destruct (H1 t _ Hf) as (past & rest & held & E1 & E2 & E3 & E4 & E5). rewrite Hs in E1. injection E1 as <-.
  assert (Hb : forallb (item_enabled ready anchor) before = true).
  { assert (Hi : forallb (item_enabled ready anchor) (before ++ Forks :: after) = true) by (eapply forallb_elem; [exact Hen|by eapply list_elem_of_lookup_2]). rewrite forallb_app in Hi. by apply andb_true_iff in Hi as [? _]. }
  assert (past = thread_locks ready anchor before ++ v8m_atfork_prepare ready anchor) as ->.
  { unfold thread_locks in E2. rewrite bind_app, bind_cons in E2. cbn [item_locks] in E2. rewrite !app_assoc, <- (app_assoc _ (v8m_atfork_parent _ _)) in E2. by apply app_inv_tail in E2. }
  rewrite check_app, (check_thread _ _ _ Hb) in E3. cbn [mbind option_bind] in E3. rewrite check_prepare in E3. injection E3 as <-.
  assert (Hall : forall l u, s.(owner) !! l = Some u -> u = t /\ l ∈ fork_locks ready anchor).
  { intros l u Ho. destruct (decide (u = t)) as [->|Hne]; [split; [done|apply elem_of_reverse, E5, Ho]|]. exfalso.
    destruct (lookup_lt_is_Some_2 _ u (H3 l u Ho)) as [p Hp]. destruct (H1 u p Hp) as (past & rest & held & _ & _ & F3 & _ & F5).
    destruct (stacked_ok _ _ held (check_stacked _ _ [] past held I F3)) as [_ Hcov]. assert (Hc : forall k, k ∈ held -> k ∉ fork_locks ready anchor).
    { intros k Hk Hin. apply F5 in Hk. apply elem_of_reverse, E5 in Hin. congruence. }
    apply F5 in Ho as Hl. destruct (Hcov l Hl) as [Hin|(k & Hk & Hin)]; [by apply (Hc l)|by apply (Hc k)]. }
  split; [intros l u; split; [apply Hall|intros [-> Hl]; by apply E5, elem_of_reverse]|].
  assert (Hst : stacked ready anchor (reverse (fork_locks ready anchor))) by apply (check_stacked _ _ [] _ _ I (check_prepare ready anchor)).
  destruct (run_alone_holds ready anchor _ t _ _ _ Hst E5 (fun l u Ho => proj1 (Hall l u Ho)) (check_child ready anchor)) as (owners' & -> & Hh & Hu). f_equal.
  apply map_eq. intros l. rewrite lookup_empty. destruct (owners' !! l) as [u|] eqn:E; [|done]. pose proof (Hu l u E) as ->. apply Hh in E. by apply not_elem_of_nil in E.
Qed.

(** C25: The operations and any number of forks never deadlock: every step of every
    schedule takes the threads closer to their end, and a state without a step is
    one where all threads are done and no lock is held.  In particular no thread
    ever gives back a lock it does not hold. *)
Theorem fork_never_deadlocks ready anchor threads s :
  forallb (forallb (item_enabled ready anchor)) threads = true ->
  rtc step (start (thread_locks ready anchor <$> threads)) s ->
  (forall s', step s s' -> (remaining s' < remaining s)%nat) /\
  ((forall s', ~ step s s') -> s.(owner) = ∅ /\ Forall (fun rest => rest = []) s.(todo)).
Proof.
  intros Hen Hr. pose proof (forks_reachable ready anchor _ _ (fun p => programs_ok _ _ _ p Hen) Hr) as Hi. split; [apply step_remaining|]. intros Hstuck.
  assert (Hnone : forall t a rest, s.(todo) !! t <> Some (a :: rest)) by (intros t a rest Ht; apply (no_waiter _ _ _ _ Hi Hstuck 12 t a rest Ht); lia). split.
  - apply map_eq. intros l. rewrite lookup_empty. destruct (s.(owner) !! l) as [u|] eqn:E; [|done]. destruct (holder_waits _ _ _ _ _ _ Hi E) as (a & rest & Hu). by destruct (Hnone u a rest).
  - apply Forall_forall. intros rest (t & Ht)%list_elem_of_lookup_1. destruct rest as [|a rest]; [done|]. by destruct (Hnone t a rest).
Qed.

(** ** Examples *)

(** Run the threads in a given order. *)
Fixpoint schedule (ts : list nat) (s : sys) : option sys :=
  match ts with
  | [] => Some s
  | t :: ts =>
      match s.(todo) !! t with
      | Some (a :: rest) => match act s.(owner) t a with Some owners' => schedule ts (MkSys owners' (<[t := rest]> s.(todo))) | None => None end
      | _ => None
      end
  end.
Lemma schedule_steps ts s s' : schedule ts s = Some s' -> rtc step s s'.
Proof.
  revert s. induction ts as [|t ts IH]; intros s H; cbn in H; [by injection H as ->|].
  destruct (s.(todo) !! t) as [[|a rest]|] eqn:Ht; [done| |done]. destruct (act _ _ _) eqn:Ha; [|done]. eapply rtc_l; [by eapply step_act|by apply IH].
Qed.

(** A thread that carves a slab and forks, and one that is inside a buddy
    allocation, has to finish it first and meets the ring's lock. *)
Definition ex_threads : list (list item) :=
  [[Does (SlabOp None [FromNode 1 [false]]); Forks; Does RingOp]; [Does (BuddyOp [false; true]); Does RingOp]].
Definition ex_schedule : list nat := (replicate 7 0 ++ replicate 3 1 ++ replicate 3 0 ++ replicate 3 1 ++ replicate 7 0)%nat.
Definition ex_forked : sys := default (start []) (schedule ex_schedule (start (thread_locks true true <$> ex_threads))).

Lemma ex_forked_reached : rtc step (start (thread_locks true true <$> ex_threads)) ex_forked.
Proof. apply (schedule_steps ex_schedule). vm_compute. done. Qed.

Lemma fork_child_unlocked_witness : length (fork_locks true true) = 11%nat /\ run_alone ex_forked.(owner) 0 (v8m_atfork_child true true) = Some ∅.
Proof.
  split; [vm_compute; reflexivity|]. refine (proj2 (fork_child_unlocked true true ex_threads 0 [Does (SlabOp None [FromNode 1 [false]])] [Does RingOp] ex_forked _ _ ex_forked_reached _)); vm_compute; reflexivity.
Defined.

Lemma fork_never_deadlocks_witness : (0 < remaining ex_forked)%nat /\ ((forall s', ~ step ex_forked s') -> ex_forked.(owner) = ∅ /\ Forall (fun rest => rest = []) ex_forked.(todo)).
Proof. split; [vm_compute; lia|]. refine (proj2 (fork_never_deadlocks true true ex_threads ex_forked _ ex_forked_reached)). vm_compute. reflexivity. Defined.

(** The handlers read [g_anchor_initialized] each for themselves.  When another thread
    makes the anchor in between ([anchor_lazy_init] takes no lock), the later handler
    unlocks a mutex its thread does not hold. *)
Lemma anchor_made_between_handlers :
  run_alone ∅ 0 (v8m_atfork_prepare true false ++ v8m_atfork_parent true true) = None /\
  run_alone ∅ 0 (v8m_atfork_prepare true false ++ v8m_atfork_child true true) = None.
Proof. vm_compute. done. Qed.

End Fork.
