(* ===== verification/SlabTiny.v ===== *)
(** Tiny slab pages: [src/v8m_slab_tiny.c].

    A Tiny slab tracks its slots in an in-page bitmap of 128 words; bits past
    the capacity are pre-set.  [inv] is the page invariant; [alloc] finds a
    clear bit exactly when the page is not full, and [free] clears the bit of
    the object it is given.  The UAF-poison calls are modelled with the
    detector latched off (release configuration), where they return at once. *)

From S2P Require Import Prelude SizeClass Page.
Import SizeClass Page.

Module SlabTiny.

Definition BITS_PER_WORD : Z := 64.
Definition BITMAP_WORDS : Z := 128.
Definition BITMAP_CAPACITY_BITS : Z := BITMAP_WORDS * BITS_PER_WORD.

Definition slab_data (base : Z) : Z := u64 (base + V8M_SLAB_HEADER_SIZE).

Definition v8m_slab_tiny_capacity_for (object_size : Z) : Z :=
  if object_size =? 0 then 0
  else
    let data_area := V8M_PAGE_SIZE - V8M_SLAB_HEADER_SIZE in
    let capacity := data_area / object_size in
    if BITMAP_CAPACITY_BITS <? capacity then BITMAP_CAPACITY_BITS else capacity.

(** [bitmap[slot / 64] |= 1 << (slot % 64)]. *)
Definition mark_slot (bm : list Z) (slot : Z) : list Z :=
  zupd bm (slot / BITS_PER_WORD)
    (bit_set (znth bm (slot / BITS_PER_WORD)) (slot mod BITS_PER_WORD)).

(** The init loop over [slot = capacity .. BITMAP_CAPACITY_BITS - 1]. *)
Definition premark (bm : list Z) (capacity : Z) : list Z :=
  foldl mark_slot bm (seqZ capacity (BITMAP_CAPACITY_BITS - capacity)).

(** [v8m_slab_tiny_init]; [cpu] is what [v8m_numa_current_cpu] returns. *)
Definition v8m_slab_tiny_init (active : list Z) (cpu size_class owner_thread : Z) : page_meta :=
  let object_size := u16 (v8m_size_class_size active size_class) in
  let capacity := v8m_slab_tiny_capacity_for object_size in
  {| magic := V8M_MAGIC;
     Page.size_class := u16 size_class;
     Page.object_size := object_size;
     Page.capacity := capacity;
     used_count := 0;
     Page.owner_thread := owner_thread;
     free_list_head := NULL;
     next := NULL;
     arena_id := 0;
     owner_cpu := cpu;
     search_hint := 0;
     bitmap := premark (replicate 128 0) capacity |}.

Definition slot_addr (base : Z) (m : page_meta) (slot : Z) : Z :=
  u64 (slab_data base + u64 (slot * m.(object_size))).

Definition claim_slot (base : Z) (m : page_meta) (word bit : Z) : page_meta * Z :=
  let m := set_bitmap m (zupd m.(bitmap) word (bit_set (znth m.(bitmap) word) bit)) in
  let m := set_search_hint m word in
  let m := set_used_count m (u32 (m.(used_count) + 1)) in
  let slot := u32 (u32 (word * BITS_PER_WORD) + bit) in
  (m, slot_addr base m slot).

(** The scan of one of the two loops: the first word that is not full. *)
Definition scan (bm : list Z) (words : list Z) : option Z :=
  head (filter (fun w => znth bm w <> UINT64_MAX) words).

Definition claim_first (base : Z) (m : page_meta) (word : Z) : page_meta * Z :=
  let value := znth m.(bitmap) word in
  claim_slot base m word (ctz (u64 (Z.lnot value))).

Definition v8m_slab_tiny_alloc (base : Z) (m : page_meta) : page_meta * Z :=
  let start := u32 m.(search_hint) in
  match scan m.(bitmap) (seqZ start (BITMAP_WORDS - start)) with
  | Some word => claim_first base m word
  | None =>
      match scan m.(bitmap) (seqZ 0 start) with
      | Some word => claim_first base m word
      | None => (m, NULL)
      end
  end.

(** [v8m_slab_tiny_free]; the result is whether the slab became empty. *)
Definition v8m_slab_tiny_free (base : Z) (m : page_meta) (obj : Z) : page_meta * bool :=
  let offset := u64 (obj - slab_data base) in
  let slot := u32 (offset / m.(object_size)) in
  let word := slot / BITS_PER_WORD in
  let bit := slot mod BITS_PER_WORD in
  let m := set_bitmap m (zupd m.(bitmap) word (bit_clear (znth m.(bitmap) word) bit)) in
  let m := if word <? m.(search_hint) then set_search_hint m word else m in
  let previous := m.(used_count) in
  let m := set_used_count m (u32 (previous - 1)) in
  (m, previous =? 1).

Definition v8m_slab_tiny_is_full (m : page_meta) : bool := m.(used_count) =? m.(capacity).
Definition v8m_slab_tiny_is_empty (m : page_meta) : bool := m.(used_count) =? 0.

(** ** The page invariant *)

(** Slot [i]'s bit in the bitmap; the slot is handed out when it is set. *)
Definition slot_bit (bm : list Z) (i : Z) : bool :=
  Z.testbit (znth bm (i / BITS_PER_WORD)) (i mod BITS_PER_WORD).
Definition live (m : page_meta) (i : Z) : bool := slot_bit m.(bitmap) i.

Record inv (m : page_meta) : Prop := {
  inv_object_size : 8 <= m.(object_size) <= 64;
  inv_capacity : m.(capacity) = v8m_slab_tiny_capacity_for m.(object_size);
  inv_length : length m.(bitmap) = 128%nat;
  inv_words : Forall is_u64 m.(bitmap);
  inv_tail : forall i, m.(capacity) <= i < BITMAP_CAPACITY_BITS -> live m i = true;
  inv_used : m.(used_count) = count_below (live m) (Z.to_nat m.(capacity));
  inv_hint : 0 <= m.(search_hint) < BITMAP_WORDS
}.

Lemma capacity_bounds sz :
  8 <= sz <= 64 ->
  v8m_slab_tiny_capacity_for sz = 63488 / sz /\
  0 < v8m_slab_tiny_capacity_for sz < BITMAP_CAPACITY_BITS /\
  v8m_slab_tiny_capacity_for sz * sz <= 63488.
Proof.
  intros H. unfold v8m_slab_tiny_capacity_for, BITMAP_CAPACITY_BITS, BITMAP_WORDS, BITS_PER_WORD,
    V8M_SLAB_HEADER_SIZE. rewrite page_size_eq.
  replace (65536 - 2048) with 63488 by lia. replace (128 * 64) with 8192 by lia.
  destruct (Z.eqb_spec sz 0); [lia|].
  assert (63488 / sz <= 63488 / 8) by (apply Z.div_le_compat_l; lia).
  replace (63488 / 8) with 7936 in * by reflexivity.
  assert (63488 / 64 <= 63488 / sz) by (apply Z.div_le_compat_l; lia).
  replace (63488 / 64) with 992 in * by reflexivity.
  pose proof (Z.mul_div_le 63488 sz ltac:(lia)).
  destruct (Z.ltb_spec 8192 (63488 / sz)); split_and!; lia.
Qed.

Lemma get_word_range bm w : Forall is_u64 bm -> is_u64 (znth bm w).
Proof. apply (znth_Forall is_u64). unfold is_u64. lia. Qed.

Lemma set_word_range bm w v : Forall is_u64 bm -> is_u64 v -> Forall is_u64 (zupd bm w v).
Proof. intros. by apply Forall_insert. Qed.

(** Slots and their (word, bit) coordinates. *)
Lemma slot_coords i j :
  0 <= i -> 0 <= j ->
  (i / BITS_PER_WORD = j / BITS_PER_WORD /\ i mod BITS_PER_WORD = j mod BITS_PER_WORD) <-> i = j.
Proof.
  unfold BITS_PER_WORD. intros Hi Hj. split; [|by intros ->].
  intros [Hd Hm]. pose proof (Z.div_mod i 64). pose proof (Z.div_mod j 64). lia.
Qed.

Lemma word_of_slot i : 0 <= i < BITMAP_CAPACITY_BITS ->
  0 <= i / BITS_PER_WORD < 128 /\ 0 <= i mod BITS_PER_WORD < 64.
Proof.
  unfold BITMAP_CAPACITY_BITS, BITMAP_WORDS, BITS_PER_WORD. intros H. split.
  - split; [apply Z.div_pos; lia|apply Z.div_lt_upper_bound; lia].
  - apply Z.mod_pos_bound. lia.
Qed.

(** Replacing the word of slot [s] by one that differs only in [s]'s bit. *)
Lemma slot_bit_zupd bm s v i :
  length bm = 128%nat -> 0 <= s < BITMAP_CAPACITY_BITS -> 0 <= i ->
  (forall j, 0 <= j < 64 -> j <> s mod BITS_PER_WORD ->
     Z.testbit v j = Z.testbit (znth bm (s / BITS_PER_WORD)) j) ->
  slot_bit (zupd bm (s / BITS_PER_WORD) v) i =
  if i =? s then Z.testbit v (s mod BITS_PER_WORD) else slot_bit bm i.
Proof.
  intros Hl Hs Hi Hv. pose proof (word_of_slot s Hs). unfold slot_bit.
  rewrite znth_zupd by (rewrite ?Hl; try apply Z.div_pos; unfold BITS_PER_WORD in *; lia).
  destruct (Z.eqb_spec i s) as [->|Hne]; [by rewrite Z.eqb_refl|].
  destruct (Z.eqb_spec (i / BITS_PER_WORD) (s / BITS_PER_WORD)) as [Hd|Hd]; [|done].
  rewrite Hd. apply Hv; [apply Z.mod_pos_bound; unfold BITS_PER_WORD; lia|].
  intros Hm. apply Hne, slot_coords; lia || done.
Qed.

(** A bitmap of the right shape. *)
Definition shape (bm : list Z) : Prop := length bm = 128%nat /\ Forall is_u64 bm.

Lemma mark_slot_spec bm s :
  shape bm -> 0 <= s < BITMAP_CAPACITY_BITS ->
  shape (mark_slot bm s) /\
  forall i, 0 <= i -> slot_bit (mark_slot bm s) i = (i =? s) || slot_bit bm i.
Proof.
  intros [Hl Hw] Hs. pose proof (word_of_slot s Hs).
  pose proof (get_word_range bm (s / BITS_PER_WORD) Hw).
  unfold mark_slot. split.
  - split; [by rewrite length_zupd|].
    apply set_word_range; [done|]. apply bit_set_range; [done|lia].
  - intros i Hi. rewrite slot_bit_zupd; [|done|done|done|].
    + rewrite testbit_bit_set by lia. rewrite Z.eqb_refl. by destruct (i =? s).
    + intros j Hj Hne. rewrite testbit_bit_set by lia.
      by destruct (Z.eqb_spec j (s mod BITS_PER_WORD)).
Qed.

Definition unmark_slot (bm : list Z) (slot : Z) : list Z :=
  zupd bm (slot / BITS_PER_WORD)
    (bit_clear (znth bm (slot / BITS_PER_WORD)) (slot mod BITS_PER_WORD)).

Lemma unmark_slot_spec bm s :
  shape bm -> 0 <= s < BITMAP_CAPACITY_BITS ->
  shape (unmark_slot bm s) /\
  forall i, 0 <= i -> slot_bit (unmark_slot bm s) i = negb (i =? s) && slot_bit bm i.
Proof.
  intros [Hl Hw] Hs. pose proof (word_of_slot s Hs).
  pose proof (get_word_range bm (s / BITS_PER_WORD) Hw).
  unfold unmark_slot. split.
  - split; [by rewrite length_zupd|].
    apply set_word_range; [done|]. by apply bit_clear_range.
  - intros i Hi. rewrite slot_bit_zupd; [|done|done|done|].
    + rewrite testbit_bit_clear by (done || lia). rewrite Z.eqb_refl. by destruct (i =? s).
    + intros j Hj Hne. rewrite testbit_bit_clear by (done || lia).
      by destruct (Z.eqb_spec j (s mod BITS_PER_WORD)).
Qed.

Lemma premark_fold l : forall bm,
  shape bm -> Forall (fun s => 0 <= s < BITMAP_CAPACITY_BITS) l ->
  shape (foldl mark_slot bm l) /\
  forall i, 0 <= i -> slot_bit (foldl mark_slot bm l) i = bool_decide (i ∈ l) || slot_bit bm i.
Proof.
  induction l as [|s l IH]; intros bm Hs Hl; cbn [foldl].
  { split; [done|]. intros i Hi. by rewrite bool_decide_eq_false_2 by apply not_elem_of_nil. }
  apply Forall_cons in Hl as [Hs0 Hl].
  destruct (mark_slot_spec bm s Hs Hs0) as [Hs1 Hb1].
  destruct (IH _ Hs1 Hl) as [Hs2 Hb2]. split; [done|]. intros i Hi.
  rewrite Hb2, Hb1 by done. destruct (Z.eqb_spec i s) as [->|Hne].
  - rewrite (bool_decide_eq_true_2 (s ∈ s :: l)) by left. by rewrite orb_true_r.
  - rewrite (bool_decide_ext (i ∈ s :: l) (i ∈ l)); [done|]. rewrite elem_of_cons. naive_solver.
Qed.

Lemma slot_bit_zero i : slot_bit (replicate 128 0) i = false.
Proof.
  unfold slot_bit. rewrite (znth_Forall (fun w => w = 0) (replicate 128 0)); [apply Z.bits_0|done|].
  by apply Forall_replicate.
Qed.

(** Exactly the bits past the capacity are pre-set. *)
Lemma premark_spec cap :
  0 <= cap <= BITMAP_CAPACITY_BITS ->
  shape (premark (replicate 128 0) cap) /\
  forall i, 0 <= i -> slot_bit (premark (replicate 128 0) cap) i =
    (cap <=? i) && (i <? BITMAP_CAPACITY_BITS).
Proof.
  intros Hc. destruct (premark_fold (seqZ cap (BITMAP_CAPACITY_BITS - cap)) (replicate 128 0))
    as [H1 H2].
  - split; [by rewrite length_replicate|]. apply Forall_replicate. unfold is_u64. lia.
  - apply Forall_forall. intros x Hx. apply elem_of_seqZ in Hx. lia.
  - split; [done|]. intros i Hi. unfold premark. rewrite H2 by done.
    rewrite slot_bit_zero, orb_false_r.
    destruct (Z.leb_spec cap i), (Z.ltb_spec i BITMAP_CAPACITY_BITS); cbn [andb];
      (apply bool_decide_eq_true_2 || apply bool_decide_eq_false_2); rewrite elem_of_seqZ; lia.
Qed.

Lemma tiny_class_size c :
  0 <= c < V8M_SMALL_FIRST_CLASS -> v8m_size_class_size v8m_class_to_size c = 8 * (c + 1).
Proof.
  unfold V8M_SMALL_FIRST_CLASS. intros H.
  assert (Hc : c ∈ [0; 1; 2; 3; 4; 5; 6; 7]) by (rewrite !elem_of_cons; lia).
  repeat (apply elem_of_cons in Hc as [->|Hc]; [reflexivity|]). by apply not_elem_of_nil in Hc.
Qed.

(** Formatting a page for a Tiny class gives an empty page in the invariant. *)
Lemma init_inv cpu c owner :
  0 <= c < V8M_SMALL_FIRST_CLASS ->
  let m := v8m_slab_tiny_init v8m_class_to_size cpu c owner in
  inv m /\ (forall i, 0 <= i < m.(capacity) -> live m i = false) /\ m.(used_count) = 0 /\
  m.(object_size) = class_size c.
Proof.
  intros Hc. unfold v8m_slab_tiny_init, class_size. rewrite tiny_class_size by done.
  unfold V8M_SMALL_FIRST_CLASS in Hc. rewrite (u16_small (8 * (c + 1))) by lia.
  destruct (capacity_bounds (8 * (c + 1)) ltac:(lia)) as (_ & Hb & _).
  destruct (premark_spec (v8m_slab_tiny_capacity_for (8 * (c + 1))) ltac:(lia)) as [[Hl Hw] Hs].
  cbn zeta. assert (Hempty : forall i, 0 <= i < v8m_slab_tiny_capacity_for (8 * (c + 1)) ->
    slot_bit (premark (replicate 128 0) (v8m_slab_tiny_capacity_for (8 * (c + 1)))) i = false).
  { intros i Hi. rewrite Hs by lia. destruct (Z.leb_spec (v8m_slab_tiny_capacity_for (8 * (c + 1))) i);
      [lia|done]. }
  split_and!; [|exact Hempty|done|done].
  constructor; cbn; [lia|done|done|done| | |unfold BITMAP_WORDS; lia].
  - intros i Hi. unfold live. cbn. rewrite Hs by lia. apply andb_true_iff.
    rewrite Z.leb_le, Z.ltb_lt. lia.
  - symmetry. apply count_below_none. intros i Hi. unfold live. cbn. apply Hempty. lia.
Qed.

(** ** Allocation *)

Lemma scan_Some bm ws w : scan bm ws = Some w -> w ∈ ws /\ znth bm w <> UINT64_MAX.
Proof.
  unfold scan. intros H. apply head_Some_elem_of in H.
  apply list_elem_of_filter in H. naive_solver.
Qed.

Lemma scan_None bm ws : scan bm ws = None -> forall w, w ∈ ws -> znth bm w = UINT64_MAX.
Proof.
  unfold scan. intros H w Hw. apply head_None in H.
  destruct (decide (znth bm w = UINT64_MAX)) as [|Hn]; [done|].
  assert (Hf : w ∈ filter (fun w => znth bm w <> UINT64_MAX) ws) by (by apply list_elem_of_filter).
  rewrite H in Hf. by apply not_elem_of_nil in Hf.
Qed.

Lemma full_word_bits j : 0 <= j < 64 -> Z.testbit UINT64_MAX j = true.
Proof.
  intros H. unfold UINT64_MAX. replace (2 ^ 64 - 1) with (Z.ones 64) by reflexivity.
  apply Z.ones_spec_low. lia.
Qed.

(** The lowest clear bit of a word that is not full. *)
Lemma ctz_clear_bit v :
  is_u64 v -> v <> UINT64_MAX ->
  0 <= ctz (u64 (Z.lnot v)) < 64 /\ Z.testbit v (ctz (u64 (Z.lnot v))) = false.
Proof.
  intros Hv Hn. set (x := u64 (Z.lnot v)).
  assert (Hx : x = UINT64_MAX - v).
  { unfold x, u64, UINT64_MAX. unfold is_u64 in Hv.
    assert (Z.lnot v = - v - 1) as -> by (pose proof (Z.add_lnot_diag v); lia).
    symmetry. apply Z.mod_unique with (q := -1); lia. }
  unfold is_u64, UINT64_MAX in *.
  assert (Hr : 0 < x < 2 ^ 64) by lia.
  pose proof (ctz_nonneg x). pose proof (ctz_lt x 64 ltac:(lia) Hr).
  split; [lia|]. pose proof (ctz_testbit x ltac:(lia)) as Ht.
  unfold x in Ht at 1. rewrite testbit_u64, Z.lnot_spec in Ht by lia.
  destruct (Z.testbit v (ctz x)); [|done]. by destruct (ctz x <? 64).
Qed.

(** The address of a slot, with no wrap on a page that does not wrap. *)
Lemma slot_addr_eq base m i :
  page_base base -> inv m -> 0 <= i < m.(capacity) ->
  slot_addr base m i = base + V8M_SLAB_HEADER_SIZE + i * m.(object_size) /\
  i * m.(object_size) + m.(object_size) <= V8M_PAGE_SIZE - V8M_SLAB_HEADER_SIZE.
Proof.
  intros (Hb0 & Hb & _) [Io Ic _ _ _ _ _] Hi. rewrite Ic in Hi.
  destruct (capacity_bounds _ Io) as (_ & Hc & Hm).
  unfold slot_addr, slab_data. unfold V8M_SLAB_HEADER_SIZE in *. rewrite page_size_eq in *.
  rewrite (u64_small (base + 2048)) by (unfold is_u64; lia).
  rewrite (u64_small (i * object_size m)) by (unfold is_u64; nia).
  rewrite u64_small by (unfold is_u64; nia). split; [lia|nia].
Qed.

(** Marking a clear slot below the capacity keeps the invariant. *)
Lemma mark_inv m s w :
  inv m -> 0 <= s < m.(capacity) -> live m s = false -> 0 <= w < BITMAP_WORDS ->
  let m' := set_used_count (set_search_hint (set_bitmap m (mark_slot m.(bitmap) s)) w)
              (u32 (m.(used_count) + 1)) in
  inv m' /\ (forall i, 0 <= i -> live m' i = (i =? s) || live m i) /\
  m'.(used_count) = m.(used_count) + 1.
Proof.
  intros [Io Ic Il Iw It Iu Ih] Hs Hl Hw. cbn zeta.
  destruct (capacity_bounds _ Io) as (_ & Hc & _). rewrite <- Ic in Hc.
  destruct (mark_slot_spec m.(bitmap) s (conj Il Iw) ltac:(lia)) as [[Hl' Hw'] Hb].
  pose proof (count_below_bounds (live m) (Z.to_nat (capacity m))) as Hcb.
  pose proof (count_below_update (live m)
    (fun i => (i =? s) || live m i) (Z.to_nat m.(capacity)) s ltac:(lia)) as Hup.
  cbn beta in Hup. rewrite Z.eqb_refl, Hl in Hup. cbn [orb] in Hup.
  specialize (Hup ltac:(intros j _ Hj; by destruct (Z.eqb_spec j s))).
  pose proof (count_below_bounds (fun i => (i =? s) || live m i) (Z.to_nat (capacity m))).
  unfold BITMAP_CAPACITY_BITS, BITMAP_WORDS, BITS_PER_WORD in *.
  rewrite (u32_small (used_count m + 1)) by lia.
  split_and!; [|done|done]. constructor; cbn; try done.
  - intros i Hi. unfold live. cbn. rewrite Hb by lia. fold (live m i). rewrite (It i Hi).
    apply orb_true_r.
  - transitivity (count_below (fun i => (i =? s) || live m i) (Z.to_nat (capacity m))); [lia|].
    apply count_below_ext. intros i Hi. unfold live. cbn. by rewrite Hb by lia.
Qed.

Lemma claim_first_spec base m w :
  page_base base -> inv m -> 0 <= w < BITMAP_WORDS -> znth m.(bitmap) w <> UINT64_MAX ->
  exists s m', 0 <= s < m.(capacity) /\ live m s = false /\
    claim_first base m w = (m', base + V8M_SLAB_HEADER_SIZE + s * m.(object_size)) /\
    inv m' /\ (forall i, 0 <= i -> live m' i = (i =? s) || live m i) /\
    m'.(used_count) = m.(used_count) + 1 /\ m'.(object_size) = m.(object_size) /\
    m'.(capacity) = m.(capacity).
Proof.
  intros Hb I Hw Hn. pose proof I as [Io Ic Il Iw It _ _].
  pose proof (ctz_clear_bit _ (get_word_range _ w Iw) Hn) as [Hbit Hclr].
  set (b := ctz (u64 (Z.lnot (znth m.(bitmap) w)))) in *.
  unfold BITMAP_WORDS in Hw. set (s := w * 64 + b).
  assert (Hd : s / 64 = w) by (symmetry; apply Z.div_unique with (r := b); unfold s; lia).
  assert (Hm : s mod 64 = b) by (symmetry; apply Z.mod_unique with (q := w); unfold s; lia).
  assert (Hlive : live m s = false) by (unfold live, slot_bit, BITS_PER_WORD; by rewrite Hd, Hm).
  assert (Hs : 0 <= s < capacity m).
  { split; [unfold s; lia|]. destruct (Z.lt_ge_cases s (capacity m)); [done|].
    rewrite It in Hlive; [done|].
    unfold BITMAP_CAPACITY_BITS, BITMAP_WORDS, BITS_PER_WORD, s in *. lia. }
  destruct (mark_inv m s w I Hs Hlive Hw) as (I' & Hl' & Hu').
  pose proof (slot_addr_eq base m s Hb I Hs) as [Ha _].
  exists s, (set_used_count (set_search_hint (set_bitmap m (mark_slot m.(bitmap) s)) w)
               (u32 (m.(used_count) + 1))).
  split; [exact Hs|]. split; [done|]. split; [|split_and!; done].
  - unfold claim_first, claim_slot. fold b. cbn zeta. unfold mark_slot.
    unfold BITS_PER_WORD. rewrite Hd, Hm. f_equal. rewrite <- Ha.
    unfold slot_addr. cbn. rewrite (u32_small (w * 64)), u32_small by lia. done.
Qed.

(** What [v8m_slab_tiny_alloc] promises on a page. *)
Definition alloc_ok (base : Z) (m : page_meta) (r : page_meta * Z) : Prop :=
  exists s m', 0 <= s < m.(capacity) /\ live m s = false /\
    r = (m', base + V8M_SLAB_HEADER_SIZE + s * m.(object_size)) /\
    inv m' /\ (forall i, 0 <= i -> live m' i = (i =? s) || live m i) /\
    m'.(used_count) = m.(used_count) + 1 /\ m'.(object_size) = m.(object_size) /\
    m'.(capacity) = m.(capacity).

(** A page with a word that is not full is not full. *)
Lemma used_full m : inv m -> v8m_slab_tiny_is_full m = true -> forall i, 0 <= i < m.(capacity) -> live m i = true.
Proof.
  intros [Io Ic _ _ _ Iu _] Hf i Hi. apply Z.eqb_eq in Hf.
  apply (count_below_full (live m) (Z.to_nat (capacity m))); lia.
Qed.

Lemma alloc_cases base m :
  page_base base -> inv m ->
  (v8m_slab_tiny_is_full m = true /\ v8m_slab_tiny_alloc base m = (m, NULL)) \/
  (v8m_slab_tiny_is_full m = false /\ alloc_ok base m (v8m_slab_tiny_alloc base m)).
Proof.
  intros Hb I. pose proof I as [Io Ic Il Iw It Iu Ih].
  destruct (capacity_bounds _ Io) as (_ & Hc & _). rewrite <- Ic in Hc.
  assert (Hclaim : forall w, 0 <= w < BITMAP_WORDS -> znth m.(bitmap) w <> UINT64_MAX ->
     v8m_slab_tiny_is_full m = false /\ alloc_ok base m (claim_first base m w)).
  { intros w Hw Hn. pose proof (claim_first_spec base m w Hb I Hw Hn) as Hok.
    split; [|done]. destruct Hok as (s & m' & Hs & Hl & _).
    destruct (v8m_slab_tiny_is_full m) eqn:E; [|done].
    by rewrite (used_full m I E s Hs) in Hl. }
  unfold v8m_slab_tiny_alloc. unfold BITMAP_WORDS in *. rewrite u32_small by lia.
  destruct (scan m.(bitmap) (seqZ (search_hint m) (128 - search_hint m))) as [w|] eqn:E1.
  { right. apply scan_Some in E1 as [Hin Hn]. apply elem_of_seqZ in Hin. apply Hclaim; [lia|done]. }
  destruct (scan m.(bitmap) (seqZ 0 (search_hint m))) as [w|] eqn:E2.
  { right. apply scan_Some in E2 as [Hin Hn]. apply elem_of_seqZ in Hin. apply Hclaim; [lia|done]. }
  left. split; [|done]. apply Z.eqb_eq. rewrite Iu.
  assert (Hall : forall i, 0 <= i < capacity m -> live m i = true).
  { intros i Hi. unfold live, slot_bit, BITS_PER_WORD.
    assert (0 <= i / 64 < 128) by (unfold BITMAP_CAPACITY_BITS, BITMAP_WORDS, BITS_PER_WORD in Hc;
      split; [apply Z.div_pos; lia|apply Z.div_lt_upper_bound; lia]).
    assert (znth m.(bitmap) (i / 64) = UINT64_MAX) as ->.
    { destruct (Z.lt_ge_cases (i / 64) (search_hint m));
        [apply (scan_None _ _ E2)|apply (scan_None _ _ E1)]; apply elem_of_seqZ; lia. }
    apply full_word_bits, Z.mod_pos_bound. lia. }
  rewrite (count_below_ext (live m) (fun _ => true)) by (intros; apply Hall; lia).
  clear -Hc. assert (Hn : forall n, count_below (fun _ => true) n = Z.of_nat n).
  { induction n as [|n IH]; cbn [count_below]; lia. }
  rewrite Hn. lia.
Qed.

(** on a page in the invariant, [v8m_slab_tiny_alloc] fails exactly when
    the page is full and then changes nothing; otherwise it returns a slot that
    was not handed out, at its own address inside the page, marks that slot and
    no other, bumps [used_count], and keeps the invariant. *)
Theorem v8m_slab_tiny_alloc_spec base m :
  page_base base -> inv m ->
  if v8m_slab_tiny_is_full m then v8m_slab_tiny_alloc base m = (m, NULL)
  else alloc_ok base m (v8m_slab_tiny_alloc base m).
Proof.
  intros Hb I. destruct (alloc_cases base m Hb I) as [[-> H]|[-> H]]; exact H.
Qed.

Lemma v8m_slab_tiny_alloc_spec_witness :
  let m := v8m_slab_tiny_init v8m_class_to_size 0 2 7 in
  v8m_slab_tiny_is_full m = false /\ alloc_ok 131072 m (v8m_slab_tiny_alloc 131072 m).
Proof.
  set (m := v8m_slab_tiny_init v8m_class_to_size 0 2 7).
  assert (I : inv m) by (apply init_inv; vm_compute; split; [discriminate|reflexivity]).
  assert (Hb : page_base 131072) by (split_and!; [lia|vm_compute; discriminate|exists 2; reflexivity]).
  assert (Hf : v8m_slab_tiny_is_full m = false) by (vm_compute; reflexivity).
  split; [exact Hf|]. pose proof (v8m_slab_tiny_alloc_spec 131072 m Hb I) as H.
  rewrite Hf in H. exact H.
Defined.

(** ** Free *)

Lemma slot_of_addr base m i :
  page_base base -> inv m -> 0 <= i < m.(capacity) ->
  u32 (u64 (base + V8M_SLAB_HEADER_SIZE + i * m.(object_size) - slab_data base) / m.(object_size)) = i.
Proof.
  intros Hb I Hi. pose proof (slot_addr_eq base m i Hb I Hi) as [_ Hfit].
  pose proof I as [Io Ic _ _ _ _ _]. destruct (capacity_bounds _ Io) as (_ & Hc & _).
  rewrite <- Ic in Hc. destruct Hb as (Hb0 & Hb & _).
  unfold slab_data, V8M_SLAB_HEADER_SIZE in *. rewrite page_size_eq in *.
  rewrite (u64_small (base + 2048)) by (unfold is_u64; lia).
  replace (base + 2048 + i * object_size m - (base + 2048)) with (i * object_size m) by lia.
  rewrite u64_small by (unfold is_u64; nia). rewrite Z.div_mul by lia.
  apply u32_small. unfold BITMAP_CAPACITY_BITS, BITMAP_WORDS, BITS_PER_WORD in Hc. lia.
Qed.

(** Clearing a set slot below the capacity keeps the invariant. *)
Lemma unmark_inv m s h :
  inv m -> 0 <= s < m.(capacity) -> live m s = true -> 0 <= h < BITMAP_WORDS ->
  let m' := set_used_count (set_search_hint (set_bitmap m (unmark_slot m.(bitmap) s)) h)
              (u32 (m.(used_count) - 1)) in
  inv m' /\ (forall i, 0 <= i -> live m' i = negb (i =? s) && live m i) /\
  m'.(used_count) = m.(used_count) - 1.
Proof.
  intros [Io Ic Il Iw It Iu Ih] Hs Hl Hh. cbn zeta.
  destruct (capacity_bounds _ Io) as (_ & Hc & _). rewrite <- Ic in Hc.
  destruct (unmark_slot_spec m.(bitmap) s (conj Il Iw) ltac:(lia)) as [[Hl' Hw'] Hb].
  pose proof (count_below_bounds (live m) (Z.to_nat (capacity m))) as Hcb.
  pose proof (count_below_update (live m)
    (fun i => negb (i =? s) && live m i) (Z.to_nat m.(capacity)) s ltac:(lia)) as Hup.
  cbn beta in Hup. rewrite Z.eqb_refl, Hl in Hup. cbn [negb andb] in Hup.
  specialize (Hup ltac:(intros j _ Hj; by destruct (Z.eqb_spec j s))).
  pose proof (count_below_bounds (fun i => negb (i =? s) && live m i) (Z.to_nat (capacity m))).
  unfold BITMAP_CAPACITY_BITS, BITMAP_WORDS, BITS_PER_WORD in *.
  rewrite (u32_small (used_count m - 1)) by lia.
  split_and!; [|done|done]. constructor; cbn; try done.
  - intros i Hi. unfold live. cbn. rewrite Hb by lia. fold (live m i). rewrite (It i Hi).
    destruct (Z.eqb_spec i s); [lia|done].
  - transitivity (count_below (fun i => negb (i =? s) && live m i) (Z.to_nat (capacity m))); [lia|].
    apply count_below_ext. intros i Hi. unfold live. cbn. by rewrite Hb by lia.
Qed.

(** What [v8m_slab_tiny_free] promises for the object of slot [s]. *)
Definition free_ok (m : page_meta) (s : Z) (r : page_meta * bool) : Prop :=
  exists m', r = (m', m.(used_count) =? 1) /\
    inv m' /\ (forall i, 0 <= i -> live m' i = negb (i =? s) && live m i) /\
    m'.(used_count) = m.(used_count) - 1 /\ m'.(object_size) = m.(object_size) /\
    m'.(capacity) = m.(capacity).

Lemma free_cases base m s :
  page_base base -> inv m -> 0 <= s < m.(capacity) -> live m s = true ->
  free_ok m s (v8m_slab_tiny_free base m (base + V8M_SLAB_HEADER_SIZE + s * m.(object_size))).
Proof.
  intros Hb I Hs Hl. pose proof I as [Io Ic Il Iw It Iu Ih].
  destruct (capacity_bounds _ Io) as (_ & Hc & _). rewrite <- Ic in Hc.
  unfold v8m_slab_tiny_free. rewrite (slot_of_addr base m s Hb I Hs).
  fold (unmark_slot m.(bitmap) s). pose proof (word_of_slot s ltac:(lia)) as [Hword _].
  cbn [search_hint set_bitmap].
  destruct (s / BITS_PER_WORD <? search_hint m).
  - destruct (unmark_inv m s (s / BITS_PER_WORD) I Hs Hl Hword) as (I' & Hl' & Hu').
    eexists. split; [reflexivity|]. split_and!; done.
  - destruct (unmark_inv m s (search_hint m) I Hs Hl Ih) as (I' & Hl' & Hu').
    eexists. split; [reflexivity|]. split_and!; done.
Qed.

(** freeing a live slot's object clears that slot and no other, drops
    [used_count] by one, keeps the invariant, and reports "now empty" exactly
    when it was the last live slot. *)
Theorem v8m_slab_tiny_free_spec base m s :
  page_base base -> inv m -> 0 <= s < m.(capacity) -> live m s = true ->
  free_ok m s (v8m_slab_tiny_free base m (base + V8M_SLAB_HEADER_SIZE + s * m.(object_size))).
Proof. apply free_cases. Qed.

Lemma v8m_slab_tiny_free_spec_witness :
  let m := (v8m_slab_tiny_alloc 131072 (v8m_slab_tiny_init v8m_class_to_size 0 2 7)).1 in
  live m 0 = true /\ free_ok m 0 (v8m_slab_tiny_free 131072 m (131072 + 2048)).
Proof.
  set (m0 := v8m_slab_tiny_init v8m_class_to_size 0 2 7). cbn zeta.
  assert (I0 : inv m0) by (apply init_inv; vm_compute; split; [discriminate|reflexivity]).
  assert (Hb : page_base 131072) by (split_and!; [lia|vm_compute; discriminate|exists 2; reflexivity]).
  assert (I : inv (v8m_slab_tiny_alloc 131072 m0).1).
  { destruct (alloc_cases 131072 m0 Hb I0) as [[Hf _]|[_ Hok]]; [vm_compute in Hf; discriminate|].
    destruct Hok as (s & m' & _ & _ & -> & I' & _). exact I'. }
  assert (Hl : live (v8m_slab_tiny_alloc 131072 m0).1 0 = true) by (vm_compute; reflexivity).
  split; [exact Hl|].
  exact (v8m_slab_tiny_free_spec 131072 _ 0 Hb I ltac:(vm_compute; split; [discriminate|reflexivity]) Hl).
Defined.

(** Two slots of a page never share a byte, and every slot's pointer leads
    back to the page. *)
Lemma slots_disjoint base m i j :
  page_base base -> inv m -> 0 <= i < m.(capacity) -> 0 <= j < m.(capacity) -> i < j ->
  slot_addr base m i + m.(object_size) <= slot_addr base m j.
Proof.
  intros Hb I Hi Hj Hij. destruct (slot_addr_eq base m i Hb I Hi) as [-> _].
  destruct (slot_addr_eq base m j Hb I Hj) as [-> _]. pose proof (inv_object_size m I). nia.
Qed.

Lemma slot_to_meta base m i :
  page_base base -> inv m -> 0 <= i < m.(capacity) -> v8m_ptr_to_meta (slot_addr base m i) = base.
Proof.
  intros Hb I Hi. destruct (slot_addr_eq base m i Hb I Hi) as [-> Hfit].
  pose proof (inv_object_size m I). apply ptr_to_meta_inside; [done|].
  unfold V8M_SLAB_HEADER_SIZE in *. rewrite page_size_eq in *. nia.
Qed.

End SlabTiny.
