(* ===== verification/SlabSmall.v ===== *)
(** Small slab pages: [src/v8m_slab_small.c].

    Free slots form a singly-linked list through the first word of each free
    object.  [rep base mem m l] relates a page's metadata and memory to the list
    [l] of free objects; alloc pops its head, free pushes.  The UAF-poison calls
    are modelled with the detector latched off, where they return at once. *)

From S2P Require Import Prelude SizeClass Page.
Import SizeClass Page.

Module SlabSmall.

Definition v8m_slab_small_data_offset (object_size : Z) : Z :=
  if V8M_SLAB_HEADER_SIZE <? object_size then object_size else V8M_SLAB_HEADER_SIZE.

Definition v8m_slab_small_capacity_for (object_size : Z) : Z :=
  if object_size <? 8 then 0
  else
    let offset := v8m_slab_small_data_offset object_size in
    if V8M_PAGE_SIZE <=? offset then 0
    else u32 ((V8M_PAGE_SIZE - offset) / object_size).

Definition slab_data (base object_size : Z) : Z :=
  u64 (base + v8m_slab_small_data_offset object_size).

Definition slot_addr (base object_size slot : Z) : Z :=
  u64 (slab_data base object_size + u64 (slot * object_size)).

(** The init loop, from the last slot down to slot 0: each object's first word
    receives the previous head. *)
Fixpoint link_slots (base object_size : Z) (n : nat) (mm : mem) (head : Z) : mem * Z :=
  match n with
  | O => (mm, head)
  | S slot =>
      let obj := slot_addr base object_size (Z.of_nat slot) in
      link_slots base object_size slot (wr mm obj head) obj
  end.

(** [v8m_slab_small_init]; [cpu] is what [v8m_numa_current_cpu] returns. *)
Definition v8m_slab_small_init (active : list Z) (cpu : Z) (mm : mem)
    (base size_class owner_thread : Z) : mem * page_meta :=
  let object_size := u16 (v8m_size_class_size active size_class) in
  let capacity := v8m_slab_small_capacity_for object_size in
  let '(mm, head) := link_slots base object_size (Z.to_nat capacity) mm NULL in
  (mm,
   {| magic := V8M_MAGIC;
      Page.size_class := u16 size_class;
      Page.object_size := object_size;
      Page.capacity := capacity;
      used_count := 0;
      Page.owner_thread := owner_thread;
      free_list_head := head;
      next := NULL;
      arena_id := 0;
      owner_cpu := cpu;
      search_hint := 0;
      bitmap := [] |}).

Definition v8m_slab_small_alloc (mm : mem) (m : page_meta) : page_meta * Z :=
  let head := m.(free_list_head) in
  if head =? NULL then (m, NULL)
  else
    let m := set_free_list_head m (rd mm head) in
    let m := set_used_count m (u32 (m.(used_count) + 1)) in
    (m, head).

Definition v8m_slab_small_free (mm : mem) (m : page_meta) (obj : Z) : mem * page_meta * bool :=
  let mm := wr mm obj m.(free_list_head) in
  let m := set_free_list_head m obj in
  let previous := m.(used_count) in
  let m := set_used_count m (u32 (previous - 1)) in
  (mm, m, previous =? 1).

Definition v8m_slab_small_is_full (m : page_meta) : bool := m.(used_count) =? m.(capacity).
Definition v8m_slab_small_is_empty (m : page_meta) : bool := m.(used_count) =? 0.

(** ** Representation *)

(** Object sizes the Small classes use. *)
Definition small_size (sz : Z) : Prop := 80 <= sz <= 4096 /\ (16 | sz).

(** [a] is the address of a slot of the page. *)
Definition is_slot (base : Z) (m : page_meta) (a : Z) : Prop :=
  exists i, 0 <= i < m.(capacity) /\
    a = base + v8m_slab_small_data_offset m.(object_size) + i * m.(object_size).

Record rep (base : Z) (mm : mem) (m : page_meta) (l : list Z) : Prop := {
  rep_size : small_size m.(object_size);
  rep_capacity : m.(capacity) = v8m_slab_small_capacity_for m.(object_size);
  rep_chain : chain mm m.(free_list_head) l;
  rep_slots : Forall (is_slot base m) l;
  rep_used : m.(used_count) = m.(capacity) - Z.of_nat (length l)
}.

Lemma data_offset_bounds sz :
  small_size sz ->
  2048 <= v8m_slab_small_data_offset sz <= 4096 /\ (16 | v8m_slab_small_data_offset sz).
Proof.
  intros [H Hd]. unfold v8m_slab_small_data_offset, V8M_SLAB_HEADER_SIZE.
  destruct (Z.ltb_spec 2048 sz); split; [lia|done|lia|by exists 128].
Qed.

Lemma small_capacity_bounds sz :
  small_size sz ->
  v8m_slab_small_capacity_for sz = (V8M_PAGE_SIZE - v8m_slab_small_data_offset sz) / sz /\
  15 <= v8m_slab_small_capacity_for sz <= 793 /\
  v8m_slab_small_data_offset sz + v8m_slab_small_capacity_for sz * sz <= V8M_PAGE_SIZE.
Proof.
  intros H. pose proof (data_offset_bounds sz H) as [Ho _]. destruct H as [H _].
  unfold v8m_slab_small_capacity_for. rewrite page_size_eq.
  set (off := v8m_slab_small_data_offset sz) in *.
  destruct (Z.ltb_spec sz 8); [lia|]. destruct (Z.leb_spec 65536 off); [lia|].
  pose proof (Z.mul_div_le (65536 - off) sz ltac:(lia)).
  assert ((65536 - off) / sz < 794) by (apply Z.div_lt_upper_bound; lia).
  assert (15 <= (65536 - off) / sz) by (apply Z.div_le_lower_bound; lia).
  rewrite u32_small by lia. split_and!; lia.
Qed.

Lemma small_slot_addr_eq base sz i :
  page_base base -> small_size sz -> 0 <= i < v8m_slab_small_capacity_for sz ->
  slot_addr base sz i = base + v8m_slab_small_data_offset sz + i * sz /\
  v8m_slab_small_data_offset sz + i * sz + sz <= V8M_PAGE_SIZE.
Proof.
  intros (Hb0 & Hb & _) Hs Hi. pose proof (data_offset_bounds sz Hs) as [Ho _].
  destruct (small_capacity_bounds sz Hs) as (_ & Hc & Hf). destruct Hs as [Hs _].
  unfold slot_addr, slab_data. rewrite page_size_eq in *.
  rewrite (u64_small (base + _)) by (unfold is_u64; lia).
  rewrite (u64_small (i * sz)) by (unfold is_u64; nia).
  rewrite u64_small by (unfold is_u64; nia). split; [lia|nia].
Qed.

Lemma is_slot_inside base m a :
  page_base base -> small_size m.(object_size) ->
  m.(capacity) = v8m_slab_small_capacity_for m.(object_size) -> is_slot base m a ->
  base + V8M_SLAB_HEADER_SIZE <= a /\ a + m.(object_size) <= base + V8M_PAGE_SIZE /\
  v8m_ptr_to_meta a = base /\ (16 | a).
Proof.
  intros Hb Hs Hc (i & Hi & ->). rewrite Hc in Hi.
  destruct (small_slot_addr_eq base _ i Hb Hs Hi) as [_ Hf].
  pose proof (data_offset_bounds _ Hs) as [Ho Hod]. destruct Hs as [Hs Hsd].
  unfold V8M_SLAB_HEADER_SIZE. split_and!; [nia|nia| |].
  - apply ptr_to_meta_inside; [done|]. rewrite page_size_eq in *. nia.
  - destruct Hb as (_ & _ & Hbd). apply Z.divide_add_r; [apply Z.divide_add_r; [|done]|].
    + etrans; [|exact Hbd]. exists 4096. reflexivity.
    + by apply Z.divide_mul_r.
Qed.

(** ** Initialisation *)

Lemma link_slots_spec base sz n mm h l :
  page_base base -> small_size sz -> Z.of_nat n <= v8m_slab_small_capacity_for sz ->
  chain mm h l -> Forall (fun a => exists i, Z.of_nat n <= i /\
     a = base + v8m_slab_small_data_offset sz + i * sz) l ->
  let '(mm', h') := link_slots base sz n mm h in
  chain mm' h' (map (fun i => base + v8m_slab_small_data_offset sz + Z.of_nat i * sz) (seq 0 n) ++ l).
Proof.
  intros Hb Hs. revert mm h l. induction n as [|n IH]; intros mm h l Hn Hc Hl; [done|].
  cbn [link_slots].
  destruct (small_slot_addr_eq base sz (Z.of_nat n) Hb Hs ltac:(lia)) as [-> _].
  pose proof (data_offset_bounds sz Hs) as [Ho _]. pose proof Hs as [Hsz _].
  set (a := base + v8m_slab_small_data_offset sz + Z.of_nat n * sz).
  specialize (IH (wr mm a h) a (a :: l) ltac:(lia)).
  destruct (link_slots base sz n (wr mm a h) a) as [mm' h'].
  rewrite seq_S, map_app, <- app_assoc. cbn. apply IH.
  - apply chain_push; [|  |done].
    + unfold a, NULL. destruct Hb. nia.
    + intros Hin. rewrite Forall_forall in Hl. destruct (Hl _ Hin) as (i & Hi & He).
      unfold a in He. nia.
  - apply Forall_cons. split; [exists (Z.of_nat n); split; [lia|done]|].
    eapply Forall_impl; [exact Hl|]. intros x (i & Hi & He). exists i. split; [lia|done].
Qed.

Lemma small_class_size c :
  V8M_SMALL_FIRST_CLASS <= c < V8M_MEDIUM_FIRST_CLASS -> small_size (class_size c).
Proof.
  intros H.
  assert (Hall : forallb (fun n => (80 <=? class_size (Z.of_nat n)) && (class_size (Z.of_nat n) <=? 4096)
                   && (class_size (Z.of_nat n) mod 16 =? 0)) (seq 8 24) = true)
    by (vm_compute; reflexivity).
  rewrite forallb_forall in Hall. unfold V8M_SMALL_FIRST_CLASS, V8M_MEDIUM_FIRST_CLASS in H.
  specialize (Hall (Z.to_nat c)). rewrite in_seq in Hall. specialize (Hall ltac:(lia)).
  rewrite Z2Nat.id, !andb_true_iff, !Z.leb_le, Z.eqb_eq in Hall by lia.
  split; [lia|]. apply Z.mod_divide; lia.
Qed.

(** The addresses of the slots of a page, in order. *)
Definition slots (base sz : Z) : list Z :=
  map (fun i => base + v8m_slab_small_data_offset sz + Z.of_nat i * sz)
    (seq 0 (Z.to_nat (v8m_slab_small_capacity_for sz))).

Lemma init_rep cpu mm base c owner :
  page_base base -> V8M_SMALL_FIRST_CLASS <= c < V8M_MEDIUM_FIRST_CLASS ->
  let '(mm', m) := v8m_slab_small_init v8m_class_to_size cpu mm base c owner in
  rep base mm' m (slots base (class_size c)) /\ m.(object_size) = class_size c /\
  m.(size_class) = c /\ m.(used_count) = 0 /\ v8m_page_meta_valid base m = true.
Proof.
  intros Hb Hc. pose proof (small_class_size c Hc) as Hs. pose proof Hs as [Hs1 _].
  destruct (small_capacity_bounds _ Hs) as (_ & Hcap & _).
  unfold V8M_SMALL_FIRST_CLASS, V8M_MEDIUM_FIRST_CLASS in Hc.
  unfold v8m_slab_small_init. fold (class_size c). rewrite (u16_small (class_size c)) by lia.
  pose proof (link_slots_spec base (class_size c)
    (Z.to_nat (v8m_slab_small_capacity_for (class_size c))) mm NULL [] Hb Hs ltac:(lia) eq_refl
    ltac:(constructor)) as Hlink.
  destruct (link_slots _ _ _ _ _) as [mm' h']. rewrite app_nil_r in Hlink.
  split_and!; cbn; [|done|by apply u16_small; lia|done|].
  - constructor; cbn; [done|done|exact Hlink| |].
    + apply Forall_forall. intros a Ha. unfold slots in Ha.
      apply list_elem_of_In, in_map_iff in Ha as (i & <- & Hi). apply in_seq in Hi.
      exists (Z.of_nat i). cbn. split; [lia|done].
    + unfold slots. rewrite length_map, length_seq. lia.
  - unfold v8m_page_meta_valid. cbn. destruct Hb as (? & _).
    destruct (Z.eqb_spec base NULL); [unfold NULL in *; lia|done].
Qed.

(** Formatting a page for a Small class links every slot, in address
    order, into the free list and reports no slot in use. *)
Theorem v8m_slab_small_init_spec cpu mm base c owner :
  page_base base -> V8M_SMALL_FIRST_CLASS <= c < V8M_MEDIUM_FIRST_CLASS ->
  let '(mm', m) := v8m_slab_small_init v8m_class_to_size cpu mm base c owner in
  rep base mm' m (slots base (class_size c)) /\ m.(object_size) = class_size c /\
  m.(size_class) = c /\ m.(used_count) = 0 /\ v8m_page_meta_valid base m = true.
Proof. apply init_rep. Qed.

Lemma page_base_1 : page_base 65536.
Proof. split_and!; [lia|vm_compute; discriminate|exists 1; reflexivity]. Qed.

Lemma class_31_small : V8M_SMALL_FIRST_CLASS <= 31 < V8M_MEDIUM_FIRST_CLASS.
Proof. vm_compute. split; [discriminate|reflexivity]. Qed.

Lemma v8m_slab_small_init_spec_witness :
  let '(mm', m) := v8m_slab_small_init v8m_class_to_size 3 ∅ 65536 31 0 in
  rep 65536 mm' m (slots 65536 (class_size 31)) /\ m.(object_size) = class_size 31 /\
  m.(size_class) = 31 /\ m.(used_count) = 0 /\ v8m_page_meta_valid 65536 m = true.
Proof. exact (v8m_slab_small_init_spec 3 ∅ 65536 31 0 page_base_1 class_31_small). Defined.

(** ** Alloc and free *)

(** Distinct slots of a page: at most [capacity] of them. *)
Lemma slots_count base m l :
  Forall (is_slot base m) l -> NoDup l -> 0 <= m.(capacity) -> Z.of_nat (length l) <= m.(capacity).
Proof.
  intros Hs Hnd Hc.
  set (all := map (fun i => base + v8m_slab_small_data_offset m.(object_size) + Z.of_nat i * m.(object_size))
                (seq 0 (Z.to_nat m.(capacity)))).
  assert (Hlen : (length l <= length all)%nat).
  { apply submseteq_length, NoDup_submseteq; [done|]. intros x Hx.
    rewrite Forall_forall in Hs. destruct (Hs x Hx) as (i & Hi & ->).
    apply list_elem_of_In, in_map_iff. exists (Z.to_nat i). rewrite in_seq, Z2Nat.id by lia. lia. }
  unfold all in Hlen. rewrite length_map, length_seq in Hlen. lia.
Qed.

Lemma rep_length base mm m l : rep base mm m l -> 0 <= m.(used_count).
Proof.
  intros [Rs Rc Rch Rsl Ru]. destruct (small_capacity_bounds _ Rs) as (_ & Hcap & _).
  pose proof (slots_count base m l Rsl (chain_NoDup _ _ _ Rch)). lia.
Qed.

Lemma full_iff_nil base mm m l : rep base mm m l -> v8m_slab_small_is_full m = true <-> l = [].
Proof.
  intros [_ _ _ _ Ru]. unfold v8m_slab_small_is_full. rewrite Z.eqb_eq. split.
  - intros. destruct l; [done|cbn in *; lia].
  - intros ->. cbn in Ru. lia.
Qed.

(** A write outside the free objects, as a program makes to the objects it
    owns, does not disturb the page. *)
Lemma rep_frame base mm m l a v : rep base mm m l -> a ∉ l -> rep base (wr mm a v) m l.
Proof. intros [? ? ? ? ?] Ha. constructor; try done. by apply chain_frame. Qed.

Lemma small_alloc_cases base mm m l :
  rep base mm m l ->
  match l with
  | [] => v8m_slab_small_is_full m = true /\ v8m_slab_small_alloc mm m = (m, NULL)
  | a :: l' => v8m_slab_small_is_full m = false /\ a <> NULL /\ (a ∉ l') /\ is_slot base m a /\
      exists m', v8m_slab_small_alloc mm m = (m', a) /\ rep base mm m' l' /\
        m'.(used_count) = m.(used_count) + 1
  end.
Proof.
  intros R. pose proof (full_iff_nil _ _ _ _ R) as Hfull. pose proof (rep_length _ _ _ _ R).
  destruct R as [Rs Rc Rch Rsl Ru]. unfold v8m_slab_small_alloc. destruct l as [|a l'].
  - cbn in Rch. rewrite Rch. cbn. naive_solver.
  - apply chain_pop in Rch as (Hh & Ha & Hn & Hc). rewrite Hh.
    apply Forall_cons in Rsl as [Hsl Rsl].
    destruct (Z.eqb_spec a NULL) as [|_]; [done|].
    destruct (small_capacity_bounds _ Rs) as (_ & Hcap & _).
    split; [by destruct (v8m_slab_small_is_full m); [destruct Hfull as [Hf _]; specialize (Hf eq_refl)|]|].
    split_and!; [done|done|done|]. eexists. split; [reflexivity|].
    cbn. cbn [length] in Ru. rewrite u32_small by lia. split; [|lia].
    constructor; cbn; try done. lia.
Qed.

(** alloc pops the head of the free list, and fails exactly on a full
    page, changing nothing. *)
Theorem v8m_slab_small_alloc_spec base mm m l :
  rep base mm m l ->
  match l with
  | [] => v8m_slab_small_is_full m = true /\ v8m_slab_small_alloc mm m = (m, NULL)
  | a :: l' => v8m_slab_small_is_full m = false /\ a <> NULL /\ (a ∉ l') /\ is_slot base m a /\
      exists m', v8m_slab_small_alloc mm m = (m', a) /\ rep base mm m' l' /\
        m'.(used_count) = m.(used_count) + 1
  end.
Proof. apply small_alloc_cases. Qed.

Lemma v8m_slab_small_alloc_spec_witness :
  let '(mm, m) := v8m_slab_small_init v8m_class_to_size 3 ∅ 65536 31 0 in
  rep 65536 mm m (slots 65536 (class_size 31)) /\
  exists m', v8m_slab_small_alloc mm m = (m', 65536 + 4096) /\
             rep 65536 mm m' (tail (slots 65536 (class_size 31))).
Proof.
  pose proof (init_rep 3 ∅ 65536 31 0 page_base_1 class_31_small) as Hw.
  destruct (v8m_slab_small_init v8m_class_to_size 3 ∅ 65536 31 0) as [mm m].
  destruct Hw as (R & _). split; [exact R|].
  pose proof (v8m_slab_small_alloc_spec 65536 mm m (slots 65536 (class_size 31)) R) as H.
  cbn in H. destruct H as (_ & _ & _ & _ & m' & He & R' & _). exists m'. split; [exact He|exact R'].
Defined.

(** An object that is not free accounts for at least one in [used_count]. *)
Lemma used_positive base mm m l a :
  rep base mm m l -> is_slot base m a -> a ∉ l -> 0 < m.(used_count) <= m.(capacity).
Proof.
  intros [Rs Rc Rch Rsl Ru] Ha Hn. destruct (small_capacity_bounds _ Rs) as (_ & Hcap & _).
  assert (Z.of_nat (length (a :: l)) <= capacity m).
  { apply (slots_count base); [by constructor|constructor; [done|by eapply chain_NoDup]|lia]. }
  cbn [length] in *. lia.
Qed.

Lemma small_free_cases base mm m l a :
  page_base base -> rep base mm m l -> is_slot base m a -> a ∉ l ->
  let '(mm', m', emptied) := v8m_slab_small_free mm m a in
  rep base mm' m' (a :: l) /\ emptied = (m.(used_count) =? 1) /\
  m'.(used_count) = m.(used_count) - 1 /\
  exists m'', v8m_slab_small_alloc mm' m' = (m'', a) /\ rep base mm' m'' l.
Proof.
  intros Hb R Ha Hn. pose proof (used_positive _ _ _ _ _ R Ha Hn) as Hu.
  pose proof R as [Rs Rc Rch Rsl Ru]. destruct (small_capacity_bounds _ Rs) as (_ & Hcap & _).
  pose proof (is_slot_inside base m a Hb Rs Rc Ha) as (Hlo & _).
  assert (Hnull : a <> NULL) by (unfold NULL, V8M_SLAB_HEADER_SIZE in *; destruct Hb; lia).
  unfold v8m_slab_small_free. cbn [used_count set_free_list_head].
  rewrite (u32_small (used_count m - 1)) by lia.
  assert (R' : rep base (wr mm a (free_list_head m)) (set_used_count (set_free_list_head m a)
                 (used_count m - 1)) (a :: l)).
  { constructor; cbn [object_size capacity used_count free_list_head set_used_count
                      set_free_list_head length]; try done.
    - by apply chain_push.
    - by constructor.
    - lia. }
  split_and!; [done|done|done|].
  eexists. split.
  { unfold v8m_slab_small_alloc. cbn [free_list_head set_used_count set_free_list_head].
    destruct (Z.eqb_spec a NULL); [done|reflexivity]. }
  rewrite rd_wr_eq. cbn. rewrite u32_small by lia. constructor; cbn; try done; [|lia].
  by apply chain_frame.
Qed.

(** freeing an object of the page that is not on the free list pushes it,
    reports "now empty" exactly when it was the last object in use, and a
    following alloc returns the same object. *)
Theorem v8m_slab_small_free_spec base mm m l a :
  page_base base -> rep base mm m l -> is_slot base m a -> a ∉ l ->
  let '(mm', m', emptied) := v8m_slab_small_free mm m a in
  rep base mm' m' (a :: l) /\ emptied = (m.(used_count) =? 1) /\
  m'.(used_count) = m.(used_count) - 1 /\
  exists m'', v8m_slab_small_alloc mm' m' = (m'', a) /\ rep base mm' m'' l.
Proof. apply small_free_cases. Qed.

Lemma v8m_slab_small_free_spec_witness :
  let '(mm, m0) := v8m_slab_small_init v8m_class_to_size 3 ∅ 65536 31 0 in
  let '(m, a) := v8m_slab_small_alloc mm m0 in
  let '(mm', m', emptied) := v8m_slab_small_free mm m a in
  a = 65536 + 4096 /\ emptied = true /\ rep 65536 mm' m' (slots 65536 (class_size 31)).
Proof.
  pose proof page_base_1 as Hb. pose proof (init_rep 3 ∅ 65536 31 0 page_base_1 class_31_small) as Hw.
  destruct (v8m_slab_small_init v8m_class_to_size 3 ∅ 65536 31 0) as [mm m0].
  destruct Hw as (R & Hsz & _ & Hu0 & _). pose proof R as [_ _ Rch Rsl Ru].
  change (slots 65536 (class_size 31)) with (69632 :: tail (slots 65536 (class_size 31))) in *.
  assert (Hh : free_list_head m0 = 69632) by (cbn in Rch; apply Rch).
  pose proof (chain_pop _ _ _ _ Rch) as (_ & _ & Hni & Hc).
  unfold v8m_slab_small_alloc. rewrite Hh. cbn [Z.eqb].
  set (m := set_used_count _ _).
  assert (Hm : rep 65536 mm m (tail (slots 65536 (class_size 31)))).
  { apply Forall_cons in Rsl as [_ Rsl]. unfold m. constructor; cbn; try done;
      [apply R|apply R|]. rewrite Hu0 in *. cbn in Ru. vm_compute (u32 _). lia. }
  assert (Ha : is_slot 65536 m 69632) by (apply Forall_cons in Rsl; apply Rsl).
  pose proof (v8m_slab_small_free_spec 65536 mm m _ 69632 Hb Hm Ha Hni) as H.
  unfold v8m_slab_small_free in H |- *. destruct H as (R' & _).
  split_and!; [reflexivity| |exact R'].
  unfold m. cbn. by rewrite Hu0.
Defined.

(** The page's objects are pairwise disjoint, naturally aligned when the class
    size is a multiple of the alignment, and lead back to the page: the data
    area of classes 28..31 starts at the object size, past the 2 KiB header. *)
Lemma slot_alignment base m a al :
  page_base base -> small_size m.(object_size) -> is_slot base m a ->
  0 < al -> (al | m.(object_size)) -> (al | V8M_SLAB_HEADER_SIZE) -> (al | V8M_PAGE_SIZE) -> (al | a).
Proof.
  intros (_ & _ & Hbd) Hs (i & Hi & ->) Hal Hd Hh Hp.
  apply Z.divide_add_r; [apply Z.divide_add_r|].
  - by etrans.
  - unfold v8m_slab_small_data_offset. by destruct (_ <? _).
  - by apply Z.divide_mul_r.
Qed.

(** Only class 31's data area is documented as moved past the header; classes
    28, 29 and 30 are moved as well. *)
Lemma data_offset_moved c :
  0 <= c < V8M_MEDIUM_FIRST_CLASS ->
  (v8m_slab_small_data_offset (class_size c) <> V8M_SLAB_HEADER_SIZE <-> 28 <= c).
Proof.
  unfold V8M_MEDIUM_FIRST_CLASS. intros H.
  assert (Hall : forallb (fun n => Bool.eqb (v8m_slab_small_data_offset (class_size (Z.of_nat n))
     =? V8M_SLAB_HEADER_SIZE) (Z.of_nat n <? 28)) (seq 0 32) = true) by (vm_compute; reflexivity).
  rewrite forallb_forall in Hall. specialize (Hall (Z.to_nat c)).
  rewrite in_seq in Hall. specialize (Hall ltac:(lia)). rewrite Z2Nat.id in Hall by lia.
  apply Bool.eqb_prop in Hall.
  destruct (Z.eqb_spec (v8m_slab_small_data_offset (class_size c)) V8M_SLAB_HEADER_SIZE);
    symmetry in Hall; [apply Z.ltb_lt in Hall|apply Z.ltb_ge in Hall]; split; intros; try lia; done.
Qed.

End SlabSmall.
