(* ===== verification/Dll.v ===== *)
(** The intrusive doubly-linked free lists of [src/v8m_buddy.c]
    ([struct v8m_buddy_node], [list_push], [list_pop], [list_remove]).

    A node's [next] is the word at its address and its [prev] the word 8 bytes
    further.  [dll mm p h l] says that memory holds the list [l] of node
    addresses, entered at [h], whose first node's [prev] is [p]; the three
    operations implement cons, tail and removal on [l]. *)

From S2P Require Import Prelude.

Module Dll.

Definition node_next (mm : mem) (node : Z) : Z := rd mm node.
Definition node_prev (mm : mem) (node : Z) : Z := rd mm (node + 8).
Definition set_next (mm : mem) (node v : Z) : mem := wr mm node v.
Definition set_prev (mm : mem) (node v : Z) : mem := wr mm (node + 8) v.

(** [list_push(head, node)]: the new memory and the new [*head]. *)
Definition list_push (mm : mem) (head node : Z) : mem * Z :=
  let mm := set_prev mm node NULL in
  let mm := set_next mm node head in
  let mm := if head =? NULL then mm else set_prev mm head node in
  (mm, node).

(** [list_pop(head)]: the new memory, the new [*head] and the popped node. *)
Definition list_pop (mm : mem) (head : Z) : mem * Z * Z :=
  let node := head in
  if node =? NULL then (mm, head, node)
  else
    let head := node_next mm node in
    let mm := if head =? NULL then mm else set_prev mm head NULL in
    (mm, head, node).

(** [list_remove(head, node)]: the new memory and the new [*head]. *)
Definition list_remove (mm : mem) (head node : Z) : mem * Z :=
  let '(mm, head) :=
    if node_prev mm node =? NULL then (mm, node_next mm node)
    else (set_next mm (node_prev mm node) (node_next mm node), head) in
  let mm := if node_next mm node =? NULL then mm
            else set_prev mm (node_next mm node) (node_prev mm node) in
  (mm, head).

(** ** Representation *)

Fixpoint dll (mm : mem) (p h : Z) (l : list Z) : Prop :=
  match l with
  | [] => h = NULL
  | a :: l' => h = a /\ a <> NULL /\ node_prev mm a = p /\ dll mm a (node_next mm a) l'
  end.

(** Node addresses are 16-byte aligned, so the cells of two nodes never mix. *)
Definition aligned (l : list Z) : Prop := Forall (fun a => (16 | a)) l.

Lemma aligned_apart a b : (16 | a) -> (16 | b) -> a + 8 <> b.
Proof. intros [x ->] [y ->]. lia. Qed.

Lemma aligned_apart_plus a b : (16 | a) -> (16 | b) -> a <> b -> a + 8 <> b + 8.
Proof. lia. Qed.

(** Writes away from the nodes of [l] preserve it. *)
Lemma dll_frame mm p h l a v :
  (forall x, x ∈ l -> a <> x /\ a <> x + 8) -> dll mm p h l -> dll (wr mm a v) p h l.
Proof.
  revert p h. induction l as [|b l IH]; cbn; intros p h Ha; [done|].
  intros (-> & Hb & Hp & Hd). destruct (Ha b ltac:(left)) as [H1 H2].
  unfold node_prev, node_next in *. rewrite !rd_wr_ne by done.
  split_and!; [done|done|done|]. apply IH; [|done]. intros x Hx. apply Ha. by right.
Qed.

Lemma node_frame_next a l : (16 | a) -> aligned l -> a ∉ l -> forall x, x ∈ l -> a <> x /\ a <> x + 8.
Proof.
  intros Ha Hl Hn x Hx. unfold aligned in Hl. rewrite Forall_forall in Hl.
  split; [by intros ->|]. pose proof (aligned_apart x a (Hl x Hx) Ha). lia.
Qed.

Lemma node_frame_prev a l : (16 | a) -> aligned l -> a ∉ l -> forall x, x ∈ l -> a + 8 <> x /\ a + 8 <> x + 8.
Proof.
  intros Ha Hl Hn x Hx. unfold aligned in Hl. rewrite Forall_forall in Hl.
  split; [by apply aligned_apart, Hl|]. intros He. assert (a = x) as -> by lia. done.
Qed.

Lemma dll_agree mm mm' p h l :
  dll mm p h l -> (forall a, a ∈ l -> rd mm' a = rd mm a /\ rd mm' (a + 8) = rd mm (a + 8)) -> dll mm' p h l.
Proof.
  revert p h. induction l as [|a l IH]; intros p h; cbn; [done|]. intros (-> & Hn & Hp & Hd) Ha.
  destruct (Ha a ltac:(left)) as [H1 H2]. unfold node_prev, node_next in *. rewrite H1, H2. split_and!; [done|done|done|].
  apply IH; [done|]. intros x Hx. apply Ha. by right.
Qed.

(** An operation changes only cells of the nodes in [ns]. *)
Definition only_nodes (mm mm' : mem) (ns : list Z) : Prop :=
  forall a, (forall x, x ∈ ns -> a <> x /\ a <> x + 8) -> rd mm' a = rd mm a.

Lemma only_nodes_refl mm ns : only_nodes mm mm ns.
Proof. by intros a _. Qed.

Lemma only_nodes_trans mm1 mm2 mm3 ns1 ns2 ns :
  only_nodes mm1 mm2 ns1 -> only_nodes mm2 mm3 ns2 ->
  (forall x, x ∈ ns1 -> x ∈ ns) -> (forall x, x ∈ ns2 -> x ∈ ns) -> only_nodes mm1 mm3 ns.
Proof.
  intros H1 H2 Hs1 Hs2 a Ha. rewrite H2 by (intros; apply Ha; auto).
  apply H1. intros; apply Ha; auto.
Qed.

Lemma only_nodes_wr_next mm a v ns : a ∈ ns -> only_nodes mm (set_next mm a v) ns.
Proof. intros Hin b Hb. unfold set_next. rewrite rd_wr_ne; [done|]. apply not_eq_sym, Hb, Hin. Qed.

Lemma only_nodes_wr_prev mm a v ns : a ∈ ns -> only_nodes mm (set_prev mm a v) ns.
Proof. intros Hin b Hb. unfold set_prev. rewrite rd_wr_ne; [done|]. apply not_eq_sym, Hb, Hin. Qed.

(** Lists that share no node with the changed ones survive. *)
Lemma dll_only_nodes mm mm' ns p h l :
  only_nodes mm mm' ns -> aligned ns -> aligned l -> (forall x, x ∈ l -> x ∉ ns) ->
  dll mm p h l -> dll mm' p h l.
Proof.
  intros Ho Hns. revert p h. induction l as [|b l IH]; cbn; intros p h Hl Hd; [done|].
  apply Forall_cons in Hl as [Hb Hl]. intros (-> & Hn & Hp & Hc).
  assert (Hbn : b ∉ ns) by (apply Hd; left).
  unfold node_prev, node_next in *.
  rewrite (Ho b (node_frame_next b ns Hb Hns Hbn)), (Ho (b + 8) (node_frame_prev b ns Hb Hns Hbn)).
  split_and!; [done|done|done|]. apply IH; [done|set_solver|done].
Qed.

Lemma dll_suffix mm p h l1 l2 : dll mm p h (l1 ++ l2) -> exists p' h', dll mm p' h' l2.
Proof.
  revert p h. induction l1 as [|a l1 IH]; cbn; intros p h; [by exists p, h|].
  intros (_ & _ & _ & Hd). by eapply IH.
Qed.

Lemma dll_not_null mm p h l : dll mm p h l -> NULL ∉ l.
Proof.
  revert p h. induction l as [|a l IH]; cbn; intros p h; [intros; apply not_elem_of_nil|].
  intros (-> & Hn & _ & Hd). apply not_elem_of_cons. split; [done|by eapply IH].
Qed.

Lemma dll_head mm p h l : dll mm p h l -> h <> NULL <-> l <> [].
Proof. destruct l; cbn; [by intros ->|]. intros (-> & ? & _). done. Qed.

Lemma dll_chain mm p h l : dll mm p h l -> chain mm h l.
Proof.
  revert p h. induction l as [|a l IH]; cbn; intros p h; [done|].
  intros (-> & Ha & _ & Hd). split_and!; [done|done|]. by eapply IH.
Qed.

Lemma dll_null mm p l : dll mm p NULL l -> l = [].
Proof. destruct l as [|a l]; cbn; [done|]. intros (<- & ? & _). done. Qed.

Lemma dll_NoDup mm p h l : dll mm p h l -> NoDup l.
Proof. intros H. by eapply chain_NoDup, dll_chain. Qed.

(** Re-pointing the first node's [prev]. *)
Lemma dll_set_head_prev mm p h l p' :
  dll mm p h l -> aligned l -> h <> NULL -> dll (set_prev mm h p') p' h l.
Proof.
  intros Hd Hal Hh. destruct l as [|a l]; cbn in Hd; [done|].
  pose proof (dll_NoDup _ _ _ (a :: l) Hd) as Hnd. apply NoDup_cons in Hnd as [Hn _].
  destruct Hd as (-> & Ha & _ & Hd). apply Forall_cons in Hal as [Haa Hal].
  cbn. unfold set_prev, node_prev, node_next in *. rewrite rd_wr_eq, rd_wr_ne by lia.
  split_and!; [done|done|done|]. apply dll_frame; [by apply node_frame_prev|done].
Qed.

(** ** The operations *)

Lemma list_push_spec mm h l a :
  dll mm NULL h l -> aligned (a :: l) -> a ∉ l -> a <> NULL ->
  exists mm', list_push mm h a = (mm', a) /\ dll mm' NULL a (a :: l) /\ only_nodes mm mm' (a :: l).
Proof.
  intros Hd Hal Hn Ha. apply Forall_cons in Hal as [Haa Hal]. unfold list_push.
  set (mm1 := set_prev mm a NULL). set (mm2 := set_next mm1 a h).
  assert (Ho : only_nodes mm mm2 (a :: l)).
  { eapply only_nodes_trans; [apply (only_nodes_wr_prev mm a NULL (a :: l)); left
      |apply (only_nodes_wr_next _ a h (a :: l)); left|done|done]. }
  assert (Hd2 : dll mm2 NULL h l).
  { apply dll_frame; [by apply node_frame_next|]. apply dll_frame; [by apply node_frame_prev|done]. }
  assert (Hp2 : node_prev mm2 a = NULL).
  { unfold node_prev, mm2, mm1, set_next, set_prev. rewrite rd_wr_ne by lia. apply rd_wr_eq. }
  assert (Hn2 : node_next mm2 a = h) by apply rd_wr_eq.
  destruct (Z.eqb_spec h NULL) as [->|Hh].
  { eexists. split; [reflexivity|]. split; [|done].
    pose proof (dll_null _ _ _ Hd) as ->. cbn. rewrite Hn2. done. }
  assert (Hhl : h ∈ l) by (destruct l; cbn in Hd2; [done|]; destruct Hd2 as (-> & _); left).
  assert (Hha : h <> a) by (by intros ->).
  eexists. split; [reflexivity|]. split.
  - cbn. unfold set_prev. unfold node_prev, node_next in *.
    rewrite !rd_wr_ne by (lia || (intros He; apply (aligned_apart h a); [|done|lia];
      unfold aligned in Hal; rewrite Forall_forall in Hal; by apply Hal)).
    rewrite Hn2. split_and!; [done|done|done|]. by apply dll_set_head_prev with (p := NULL).
  - eapply only_nodes_trans; [exact Ho|apply (only_nodes_wr_prev _ h a (a :: l)); by right|done|done].
Qed.

Lemma list_pop_spec mm h a l :
  dll mm NULL h (a :: l) -> aligned (a :: l) ->
  exists mm' h', list_pop mm h = (mm', h', a) /\ dll mm' NULL h' l /\ only_nodes mm mm' (a :: l).
Proof.
  intros Hd Hal. pose proof Hd as Hd0. cbn in Hd. destruct Hd as (-> & Ha & _ & Hd).
  apply Forall_cons in Hal as [Haa Hal].
  unfold list_pop. destruct (Z.eqb_spec a NULL); [done|].
  destruct (Z.eqb_spec (node_next mm a) NULL) as [He|Hne]; do 2 eexists; (split; [reflexivity|]).
  - rewrite He in *. destruct l as [|b l]; cbn in Hd; [|destruct Hd as (<- & ? & _); done].
    split; [done|apply only_nodes_refl].
  - split; [by apply dll_set_head_prev with (p := a)|]. apply only_nodes_wr_prev.
    right. destruct l as [|b l]; cbn in Hd; [done|]. destruct Hd as (-> & _). left.
Qed.

(** A segment: as [dll], but the last node is [q] and its [next] is [e]. *)
Fixpoint seg (mm : mem) (p h : Z) (l : list Z) (e q : Z) : Prop :=
  match l with
  | [] => h = e /\ q = p
  | a :: l' => h = a /\ a <> NULL /\ node_prev mm a = p /\ seg mm a (node_next mm a) l' e q
  end.

Lemma dll_app mm p h l1 l2 :
  dll mm p h (l1 ++ l2) <-> exists e q, seg mm p h l1 e q /\ dll mm q e l2.
Proof.
  revert p h. induction l1 as [|a l1 IH]; cbn; intros p h.
  - split; [by exists h, p|]. by intros (e & q & (-> & ->) & H).
  - split.
    + intros (-> & Ha & Hp & Hd). apply IH in Hd as (e & q & Hs & Hd). by exists e, q.
    + intros (e & q & (-> & Ha & Hp & Hs) & Hd). split_and!; try done. apply IH. by exists e, q.
Qed.

Lemma seg_frame mm p h l e q a v :
  (forall x, x ∈ l -> a <> x /\ a <> x + 8) -> seg mm p h l e q -> seg (wr mm a v) p h l e q.
Proof.
  revert p h. induction l as [|b l IH]; cbn; intros p h Ha; [done|].
  intros (-> & Hb & Hp & Hd). destruct (Ha b ltac:(left)) as [H1 H2].
  unfold node_prev, node_next in *. rewrite !rd_wr_ne by done.
  split_and!; [done|done|done|]. apply IH; [|done]. intros x Hx. apply Ha. by right.
Qed.

Lemma seg_last mm p h l e q : seg mm p h l e q -> q = default p (last l).
Proof.
  revert p h. induction l as [|a l IH]; cbn [seg]; intros p h; [by intros [_ ->]|].
  intros (-> & _ & _ & Hs). apply IH in Hs. destruct l as [|b l]; [done|].
  change (last (a :: b :: l)) with (last (b :: l)).
  destruct (last (b :: l)) eqn:E; [done|]. by apply last_None in E.
Qed.

(** Re-pointing the last node's [next]. *)
Lemma seg_set_last_next mm p h l e q e' :
  seg mm p h l e q -> NoDup l -> aligned l -> l <> [] -> seg (set_next mm q e') p h l e' q.
Proof.
  revert p h. induction l as [|a l IH]; cbn; intros p h Hs Hnd Hal Hl; [done|].
  destruct Hs as (-> & Ha & Hp & Hs). apply NoDup_cons in Hnd as [Hn Hnd].
  apply Forall_cons in Hal as [Haa Hal]. unfold set_next, node_prev, node_next in *.
  destruct l as [|b l].
  - cbn in Hs. destruct Hs as [_ ->]. rewrite rd_wr_ne, rd_wr_eq by lia. done.
  - pose proof (seg_last _ _ _ _ _ _ Hs) as Hq.
    assert (Hqin : q ∈ b :: l).
    { rewrite Hq. destruct (last (b :: l)) eqn:E; [by apply last_Some_elem_of|].
      by apply last_None in E. }
    assert (Hqa : q <> a) by (by intros ->).
    assert (Hqal : (16 | q)) by (unfold aligned in Hal; rewrite Forall_forall in Hal; by apply Hal).
    pose proof (aligned_apart a q Haa Hqal).
    rewrite !rd_wr_ne by lia. split_and!; [done|done|done|]. by apply IH.
Qed.

Lemma list_remove_spec mm h l1 a l2 :
  dll mm NULL h (l1 ++ a :: l2) -> aligned (l1 ++ a :: l2) ->
  exists mm' h', list_remove mm h a = (mm', h') /\ dll mm' NULL h' (l1 ++ l2) /\
    only_nodes mm mm' (l1 ++ l2).
Proof.
  intros Hd Hal. pose proof (dll_NoDup _ _ _ _ Hd) as Hnd. pose proof (dll_not_null _ _ _ _ Hd) as Hnn.
  apply dll_app in Hd as (e & q & Hs & Hd). cbn in Hd. destruct Hd as (-> & Ha & Hp & Hd2).
  apply Forall_app in Hal as [Hal1 Hal2]. apply Forall_cons in Hal2 as [Haa Hal2].
  apply NoDup_app in Hnd as (Hnd1 & Hdis & Hnd2). apply NoDup_cons in Hnd2 as [Hn2 Hnd2].
  set (nx := node_next mm a) in *.
  assert (Hnx : nx <> NULL -> nx ∈ l2).
  { intros Hne. destruct l2; cbn in Hd2; [done|]. destruct Hd2 as (-> & _). left. }
  pose proof (seg_last _ _ _ _ _ _ Hs) as Hq.
  assert (Hq0 : l1 <> [] -> q ∈ l1).
  { intros Hl1. destruct (last l1) eqn:E; [|by apply last_None in E].
    cbn in Hq. rewrite Hq. by apply last_Some_elem_of. }
  (* the first write: the predecessor's next, or the head *)
  assert (H1 : exists mm1 h1, (if node_prev mm a =? NULL then (mm, node_next mm a)
      else (set_next mm (node_prev mm a) (node_next mm a), h)) = (mm1, h1) /\
      seg mm1 NULL h1 l1 nx q /\ dll mm1 a nx l2 /\ only_nodes mm mm1 (l1 ++ l2) /\
      node_next mm1 a = nx /\ node_prev mm1 a = q).
  { rewrite Hp. fold nx. destruct l1 as [|b l1].
    - cbn in Hs. destruct Hs as [-> ->]. rewrite Z.eqb_refl. do 2 eexists. split; [reflexivity|].
      by split_and!.
    - specialize (Hq0 ltac:(done)). destruct (Z.eqb_spec q NULL) as [->|Hqn]; [set_solver|].
      assert (Hqa : (16 | q)) by (unfold aligned in Hal1; rewrite Forall_forall in Hal1; by apply Hal1).
      assert (q <> a) by (intros ->; apply (Hdis a Hq0); left).
      pose proof (aligned_apart a q Haa Hqa).
      do 2 eexists. split; [reflexivity|]. split_and!.
      + by apply seg_set_last_next with (e := a).
      + apply dll_frame; [|done]. apply node_frame_next; [done|done|].
        intros Hin. apply (Hdis q Hq0). by right.
      + apply only_nodes_wr_next. apply elem_of_app. by left.
      + unfold node_next, set_next. by rewrite rd_wr_ne by lia.
      + unfold node_prev, set_next. rewrite rd_wr_ne by lia. exact Hp. }
  destruct H1 as (mm1 & h1 & He & Hs1 & Hd1 & Ho1 & Hn1 & Hp1).
  unfold list_remove. rewrite He, Hn1, Hp1. destruct (Z.eqb_spec nx NULL) as [Hnull|Hnn2].
  - do 2 eexists. split; [reflexivity|]. split; [|done]. apply dll_app. exists nx, q. split; [done|].
    rewrite Hnull in *. destruct l2 as [|c l2]; cbn in Hd1; [done|]. destruct Hd1 as (<- & ? & _). done.
  - specialize (Hnx Hnn2). do 2 eexists. split; [reflexivity|]. split.
    + apply dll_app. exists nx, q. split; [|by apply dll_set_head_prev with (p := a)].
      apply seg_frame; [|done]. apply node_frame_prev; [|done|].
      * unfold aligned in Hal2. rewrite Forall_forall in Hal2. by apply Hal2.
      * intros Hin. apply (Hdis nx Hin). by right.
    + eapply only_nodes_trans; [exact Ho1|apply (only_nodes_wr_prev _ nx q (l1 ++ l2))|done|done].
      apply elem_of_app. by right.
Qed.

End Dll.
