(* ===== verification/BuddyTree.v ===== *)
(** The abstract state of a buddy arena ([src/v8m_buddy.h], "a block on the free
    list has both bits clear").

    A block is a pair (level, index) with [2^(6 - level)] indices per level.
    [F], [A] and [S] count how often a block is on its free list, marked
    allocated and marked split.  [tree F A S hole] is the arena invariant: every
    block that exists (the root, or a child of a split block) is in exactly one
    of these states, every other block is in none.  [hole] is the one block an
    operation currently holds in its hands. *)

From S2P Require Import Prelude.

Module BuddyTree.

(** The top level of the tree: level 6 is the whole 256 KiB arena. *)
Definition TOP : Z := 6.

Definition valid (l i : Z) : Prop := 0 <= l <= TOP /\ 0 <= i < 2 ^ (TOP - l).

Definition hole_at (hole : option (Z * Z)) (l i : Z) : Z :=
  match hole with
  | Some (l', i') => if (l =? l') && (i =? i') then 1 else 0
  | None => 0
  end.

(** A block exists when it is the root or its parent is split. *)
Definition exists_at (S : Z -> Z -> Z) (l i : Z) : Z := if l =? TOP then 1 else S (l + 1) (i / 2).

Record tree (F A S : Z -> Z -> Z) (hole : option (Z * Z)) : Prop := {
  t_sum : forall l i, valid l i -> F l i + A l i + S l i + hole_at hole l i = exists_at S l i;
  t_F : forall l i, 0 <= F l i;
  t_A : forall l i, 0 <= A l i <= 1;
  t_S : forall l i, 0 <= S l i <= 1;
  t_leaf : forall i, S 0 i = 0;
  t_hole : forall l i, hole = Some (l, i) -> valid l i
}.

Definition upd (f : Z -> Z -> Z) (l i v : Z) : Z -> Z -> Z :=
  fun l' i' => if (l' =? l) && (i' =? i) then v else f l' i'.

Lemma upd_eq f l i v : upd f l i v l i = v.
Proof. unfold upd. by rewrite !Z.eqb_refl. Qed.

Lemma upd_ne f l i v l' i' : l' <> l \/ i' <> i -> upd f l i v l' i' = f l' i'.
Proof.
  unfold upd. intros H. destruct (Z.eqb_spec l' l), (Z.eqb_spec i' i); cbn; naive_solver.
Qed.

Lemma hole_eq l i : hole_at (Some (l, i)) l i = 1.
Proof. unfold hole_at. by rewrite !Z.eqb_refl. Qed.

Lemma hole_ne l i l' i' : l' <> l \/ i' <> i -> hole_at (Some (l, i)) l' i' = 0.
Proof.
  unfold hole_at. intros H. destruct (Z.eqb_spec l' l), (Z.eqb_spec i' i); cbn; naive_solver.
Qed.

Lemma exists_at_top S i : exists_at S TOP i = 1.
Proof. done. Qed.

Lemma exists_at_below S l i : l <> TOP -> exists_at S l i = S (l + 1) (i / 2).
Proof. intros H. unfold exists_at. by destruct (Z.eqb_spec l TOP). Qed.

(** Only blocks of the arena matter. *)
Lemma tree_ext F A S F' A' S' hole :
  tree F A S hole ->
  (forall l i, valid l i -> F' l i = F l i) -> (forall l i, valid l i -> A' l i = A l i) ->
  (forall l i, valid l i -> S' l i = S l i) ->
  (forall l i, 0 <= F' l i) -> (forall l i, 0 <= A' l i <= 1) -> (forall l i, 0 <= S' l i <= 1) ->
  (forall i, S' 0 i = 0) -> tree F' A' S' hole.
Proof.
  intros [T1 T2 T3 T4 T5 T6] HF HA HS HF0 HA0 HS0 HL. constructor; try done.
  intros l i Hv. rewrite HF, HA, HS by done. rewrite T1 by done.
  unfold exists_at. destruct (Z.eqb_spec l TOP); [done|]. rewrite HS; [done|].
  destruct Hv as [Hl Hi]. split; [lia|]. replace (TOP - l) with (TOP - (l + 1) + 1) in Hi by lia.
  rewrite Z.pow_add_r in Hi by lia. split; [apply Z.div_pos; lia|]. apply Z.div_lt_upper_bound; lia.
Qed.

Lemma valid_parent l i : valid l i -> l < TOP -> valid (l + 1) (i / 2).
Proof.
  intros [Hl Hi] Ht. split; [lia|]. replace (TOP - l) with (TOP - (l + 1) + 1) in Hi by lia.
  rewrite Z.pow_add_r in Hi by lia. split; [apply Z.div_pos; lia|]. apply Z.div_lt_upper_bound; lia.
Qed.

Lemma valid_child l i c : valid l i -> 0 < l -> 0 <= c <= 1 -> valid (l - 1) (2 * i + c).
Proof.
  intros [Hl Hi] Ht Hc. split; [lia|]. replace (TOP - (l - 1)) with (TOP - l + 1) by lia.
  rewrite Z.pow_add_r by lia. lia.
Qed.

(** The sibling, [idx ^ 1]. *)
Lemma sibling_spec i :
  0 <= i -> (Z.even i = true /\ Z.lxor i 1 = i + 1) \/ (Z.even i = false /\ Z.lxor i 1 = i - 1).
Proof.
  intros Hi. destruct i as [|p|p]; [by left| |lia].
  destruct p as [p|p|]; [right|left|right]; (split; reflexivity).
Qed.

Lemma sibling_parent i : 0 <= i -> Z.lxor i 1 / 2 = i / 2 /\ 0 <= Z.lxor i 1 /\ Z.lxor i 1 <> i /\
  Z.lxor (Z.lxor i 1) 1 = i.
Proof.
  intros Hi. pose proof (Zdiv2_odd_eqn i) as Ho.
  assert (Hinv : Z.lxor (Z.lxor i 1) 1 = i).
  { by rewrite Z.lxor_assoc, Z.lxor_nilpotent, Z.lxor_0_r. }
  split_and!; [| |intros He; destruct (sibling_spec i Hi) as [[_ H]|[_ H]]; lia|done].
  - destruct (sibling_spec i Hi) as [[He ->]|[He ->]].
    + apply Z.even_spec in He as [k ->].
      rewrite (Z.mul_comm 2 k), Z.div_add_l, Z.div_mul by lia. change (1 / 2) with 0. lia.
    + rewrite <- Z.negb_odd in He. apply negb_false_iff, Z.odd_spec in He as [k ->].
      replace (2 * k + 1 - 1) with (k * 2) by lia. rewrite Z.div_mul by lia.
      replace (2 * k + 1) with (k * 2 + 1) by lia. rewrite Z.div_add_l by lia. change (1 / 2) with 0. lia.
  - apply Z.lxor_nonneg. lia.
Qed.

Lemma valid_sibling l i : valid l i -> l < TOP -> valid l (Z.lxor i 1).
Proof.
  intros Hv Ht. pose proof (valid_parent l i Hv Ht) as [_ Hp]. destruct Hv as [Hl Hi].
  destruct (sibling_parent i ltac:(lia)) as (Hd & H0 & _). split; [done|].
  rewrite <- Hd in Hp. pose proof (Z.div_mod (Z.lxor i 1) 2 ltac:(lia)).
  pose proof (Z.mod_pos_bound (Z.lxor i 1) 2 ltac:(lia)).
  replace (TOP - l) with (TOP - (l + 1) + 1) by lia. rewrite Z.pow_add_r by lia. lia.
Qed.

(** Decide every index comparison in sight and let [lia] finish. *)
Ltac tree_lia :=
  unfold upd, hole_at, exists_at;
  repeat match goal with
  | |- context [?a =? ?b] => destruct (Z.eqb_spec a b)
  end; cbn [andb]; intros; subst; try lia; try (exfalso; lia).

Section Steps.
Context (F A S : Z -> Z -> Z).

(** A block in hand is neither free, allocated nor split, and it exists. *)
Lemma tree_in_hand l i :
  tree F A S (Some (l, i)) ->
  valid l i /\ F l i = 0 /\ A l i = 0 /\ S l i = 0 /\ exists_at S l i = 1.
Proof.
  intros [T1 T2 T3 T4 T5 T6]. pose proof (T6 l i eq_refl) as Hvl. specialize (T1 l i Hvl).
  pose proof (T2 l i). pose proof (T3 l i). pose proof (T4 l i). pose proof (T4 (l + 1) (i / 2)).
  revert T1. unfold hole_at. rewrite !Z.eqb_refl. cbn [andb]. unfold exists_at.
  destruct (l =? TOP); intros; split_and!; try lia; done.
Qed.

(** The block in hand goes onto its free list. *)
Lemma tree_push l i : tree F A S (Some (l, i)) -> tree (upd F l i (F l i + 1)) A S None.
Proof.
  intros [T1 T2 T3 T4 T5 T6]. constructor; try done.
  - intros l' i' Hv. specialize (T1 l' i' Hv). revert T1. tree_lia.
  - intros l' i'. pose proof (T2 l' i'). pose proof (T2 l i). tree_lia.
Qed.

(** A free block is taken in hand. *)
Lemma tree_take l i :
  tree F A S None -> valid l i -> F l i = 1 -> tree (upd F l i 0) A S (Some (l, i)).
Proof.
  intros [T1 T2 T3 T4 T5 T6] Hvl HF. constructor; try done; [| |by intros ? ? [= <- <-]].
  - intros l' i' Hv. specialize (T1 l' i' Hv). revert T1. tree_lia.
  - intros l' i'. pose proof (T2 l' i'). tree_lia.
Qed.

(** The block in hand is marked allocated, or an allocated one is taken in hand. *)
Lemma tree_allocate l i : tree F A S (Some (l, i)) -> tree F (upd A l i 1) S None.
Proof.
  intros T. pose proof (tree_in_hand l i T) as (Hvl & HF & HA & HS & HE).
  destruct T as [T1 T2 T3 T4 T5 T6]. constructor; try done.
  - intros l' i' Hv. specialize (T1 l' i' Hv). revert T1. tree_lia.
  - intros l' i'. pose proof (T3 l' i'). tree_lia.
Qed.

Lemma tree_deallocate l i :
  tree F A S None -> valid l i -> A l i = 1 -> tree F (upd A l i 0) S (Some (l, i)).
Proof.
  intros [T1 T2 T3 T4 T5 T6] Hvl HA. constructor; try done; [| |by intros ? ? [= <- <-]].
  - intros l' i' Hv. specialize (T1 l' i' Hv). revert T1. tree_lia.
  - intros l' i'. pose proof (T3 l' i'). tree_lia.
Qed.

(** Evaluate the updates at indices that [lia] can compare. *)
Ltac upd_simp :=
  rewrite ?upd_eq, ?hole_eq; repeat rewrite upd_ne by lia; repeat rewrite hole_ne by lia.

(** Splitting the block in hand: the right child [c1] becomes free, the left
    child [c0] is in hand. *)
Lemma tree_split_children k i c0 c1 :
  c0 / 2 = i -> c1 / 2 = i -> c0 <> c1 -> (forall x, x / 2 = i -> x = c0 \/ x = c1) ->
  valid k c0 -> valid k c1 -> tree F A S (Some (k + 1, i)) ->
  tree (upd F k c1 (F k c1 + 1)) A (upd S (k + 1) i 1) (Some (k, c0)).
Proof.
  intros H0 H1 Hne Hch V0 V1 T.
  pose proof (tree_in_hand (k + 1) i T) as (Hvl & HF & HA & HS & HE).
  destruct T as [T1 T2 T3 T4 T5 T6].
  assert (Hk : k <> TOP) by (destruct Hvl as [? _]; lia).
  assert (Hc : forall c, valid k c -> c / 2 = i -> F k c = 0 /\ A k c = 0 /\ S k c = 0).
  { intros c Hv Hd. specialize (T1 k c Hv). rewrite hole_ne, exists_at_below, Hd, HS in T1 by lia.
    pose proof (T2 k c). pose proof (T3 k c). pose proof (T4 k c). lia. }
  destruct (Hc c0 V0 H0) as (F0 & A0 & S0). destruct (Hc c1 V1 H1) as (F1 & A1 & S1).
  constructor; try done.
  - intros l' i' Hv. specialize (T1 l' i' Hv). destruct (Z.eq_dec l' k) as [->|Hlk].
    + rewrite exists_at_below in * by done. rewrite hole_ne in T1 by lia.
      rewrite (upd_ne S) by lia. destruct (Z.eq_dec (i' / 2) i) as [Hd|Hd].
      * rewrite Hd. rewrite upd_eq. destruct (Hch i' Hd) as [-> | ->]; upd_simp; lia.
      * assert (i' <> c0) by congruence. assert (i' <> c1) by congruence. upd_simp. lia.
    + rewrite (upd_ne F), (hole_ne k) by lia.
      assert (Hex : exists_at (upd S (k + 1) i 1) l' i' = exists_at S l' i').
      { unfold exists_at. by rewrite upd_ne by lia. }
      rewrite Hex. destruct (Z.eq_dec l' (k + 1)) as [->|]; [|upd_simp; rewrite hole_ne in T1; lia].
      destruct (Z.eq_dec i' i) as [->|]; [rewrite hole_eq in T1|rewrite hole_ne in T1 by lia];
        upd_simp; lia.
  - intros l' i'. pose proof (T2 l' i'). pose proof (T2 k c1). tree_lia.
  - intros l' i'. pose proof (T4 l' i'). tree_lia.
  - intros i'. specialize (T5 i'). destruct V0 as [? _]. tree_lia.
  - by intros ? ? [= <- <-].
Qed.

Lemma children_spec i x : x / 2 = i -> x = 2 * i \/ x = 2 * i + 1.
Proof.
  intros H. pose proof (Z.div_mod x 2 ltac:(lia)). pose proof (Z.mod_pos_bound x 2 ltac:(lia)). lia.
Qed.

Lemma child_parent i c : 0 <= c <= 1 -> (2 * i + c) / 2 = i.
Proof. intros H. symmetry. apply Z.div_unique with (r := c); lia. Qed.

Lemma tree_split l i :
  tree F A S (Some (l, i)) -> 0 < l ->
  tree (upd F (l - 1) (2 * i + 1) (F (l - 1) (2 * i + 1) + 1)) A (upd S l i 1)
       (Some (l - 1, 2 * i)).
Proof.
  intros T Hl. pose proof (t_hole _ _ _ _ T l i eq_refl) as Hv.
  replace l with (l - 1 + 1) in T |- * at 3 by lia.
  pose proof (valid_child l i 0 Hv Hl ltac:(lia)) as V0. rewrite Z.add_0_r in V0.
  apply tree_split_children; [|by apply child_parent| |apply children_spec|done| |done].
  - pose proof (child_parent i 0 ltac:(lia)) as Hp. by rewrite Z.add_0_r in Hp.
  - lia.
  - by apply valid_child.
Qed.

(** Merging the block in hand with its sibling, when that one is neither
    allocated nor split: the sibling is then free, and the parent is in hand. *)
Lemma tree_sibling_free l i :
  tree F A S (Some (l, i)) -> l < TOP ->
  A l (Z.lxor i 1) = 0 -> S l (Z.lxor i 1) = 0 -> F l (Z.lxor i 1) = 1.
Proof.
  intros T Hl HA' HS'. pose proof (tree_in_hand l i T) as (Hvl & HF & HA & HS & HE).
  destruct T as [T1 T2 T3 T4 T5 T6]. pose proof (valid_sibling l i Hvl Hl) as Hvs.
  destruct (sibling_parent i ltac:(destruct Hvl; lia)) as (Hd & H0 & Hne & _).
  specialize (T1 _ _ Hvs). revert T1 HE. unfold exists_at. rewrite Hd.
  unfold hole_at. rewrite Z.eqb_refl. destruct (Z.eqb_spec (Z.lxor i 1) i); [done|].
  destruct (Z.eqb_spec l TOP); [lia|]. cbn [andb]. lia.
Qed.

Lemma tree_merge l i :
  tree F A S (Some (l, i)) -> l < TOP ->
  A l (Z.lxor i 1) = 0 -> S l (Z.lxor i 1) = 0 ->
  tree (upd F l (Z.lxor i 1) 0) A (upd S (l + 1) (i / 2) 0) (Some (l + 1, i / 2)).
Proof.
  intros T Hl HA' HS'. pose proof (tree_in_hand l i T) as (Hvl & HF & HA & HS & HE).
  pose proof (tree_sibling_free l i T Hl HA' HS') as HF'.
  destruct T as [T1 T2 T3 T4 T5 T6].
  destruct (sibling_parent i ltac:(destruct Hvl; lia)) as (Hd & H0 & Hne & _).
  set (j := Z.lxor i 1) in *. pose proof (valid_parent l i Hvl Hl) as Hvp.
  rewrite exists_at_below in HE by lia.
  assert (Hch : forall x, x / 2 = i / 2 -> x = i \/ x = j).
  { intros x Hx. apply children_spec in Hx. pose proof (children_spec (i / 2) i eq_refl).
    pose proof (children_spec (i / 2) j Hd). lia. }
  constructor; try done.
  - intros l' i' Hv. specialize (T1 l' i' Hv). destruct (Z.eq_dec l' l) as [->|Hlk].
    + rewrite exists_at_below in * by lia. rewrite (hole_ne (l + 1)), (upd_ne S (l + 1)) by lia.
      destruct (Z.eq_dec (i' / 2) (i / 2)) as [Hdi|Hdi].
      * rewrite Hdi, upd_eq. destruct (Hch i' Hdi) as [-> | ->]; upd_simp; lia.
      * assert (i' <> i) by congruence. assert (i' <> j) by congruence.
        rewrite hole_ne in T1 by lia. upd_simp. lia.
    + rewrite (upd_ne F), hole_ne in * by lia.
      assert (Hex : exists_at (upd S (l + 1) (i / 2) 0) l' i' = exists_at S l' i').
      { unfold exists_at. by rewrite upd_ne by lia. }
      rewrite Hex. destruct (Z.eq_dec l' (l + 1)) as [->|]; [|upd_simp; lia].
      destruct (Z.eq_dec i' (i / 2)) as [->|]; upd_simp; lia.
  - intros l' i'. pose proof (T2 l' i'). tree_lia.
  - intros l' i'. pose proof (T4 l' i'). tree_lia.
  - intros i'. specialize (T5 i'). tree_lia.
  - by intros ? ? [= <- <-].
Qed.

(** ** Consequences *)

(** Every proper ancestor of a block that exists is split. *)
Lemma ancestors_split hole l i (n : nat) :
  tree F A S hole -> valid l i -> exists_at S l i = 1 -> l + Z.of_nat n < TOP ->
  S (l + Z.of_nat n + 1) (i / 2 ^ (Z.of_nat n + 1)) = 1.
Proof.
  intros T Hv He. induction n as [|n IH]; intros Hl.
  - rewrite exists_at_below in He by lia. cbn. rewrite Z.add_0_r. exact He.
  - specialize (IH ltac:(lia)). set (p := i / 2 ^ (Z.of_nat n + 1)) in *.
    assert (Hp : i / 2 ^ (Z.of_nat (Datatypes.S n) + 1) = p / 2).
    { unfold p. rewrite Z.div_div by lia. f_equal.
      replace (Z.of_nat (Datatypes.S n) + 1) with (Z.of_nat n + 1 + 1) by lia.
      by rewrite Z.pow_add_r by lia. }
    assert (Hvp : valid (l + Z.of_nat n + 1) p).
    { destruct Hv as [Hl0 Hi]. split; [lia|]. unfold p.
      split; [apply Z.div_pos; lia|]. apply Z.div_lt_upper_bound; [lia|].
      rewrite <- Z.pow_add_r by lia.
      replace (Z.of_nat n + 1 + (TOP - (l + Z.of_nat n + 1))) with (TOP - l) by lia. lia. }
    rewrite Hp. destruct T as [T1 T2 T3 T4 _ _]. specialize (T1 _ _ Hvp).
    rewrite exists_at_below in T1 by lia.
    replace (l + Z.of_nat (Datatypes.S n) + 1) with (l + Z.of_nat n + 1 + 1) by lia.
    pose proof (T2 (l + Z.of_nat n + 1) p). pose proof (T3 (l + Z.of_nat n + 1) p).
    pose proof (T4 (l + Z.of_nat n + 1 + 1) (p / 2)).
    assert (0 <= hole_at hole (l + Z.of_nat n + 1) p).
    { unfold hole_at. destruct hole as [[? ?]|]; [|lia]. destruct (_ && _); lia. }
    lia.
Qed.

(** A block that is free, allocated or in hand. *)
Definition occupied (hole : option (Z * Z)) (l i : Z) : Prop :=
  valid l i /\ 0 < F l i + A l i + hole_at hole l i.

Lemma occupied_spec hole l i :
  tree F A S hole -> occupied hole l i ->
  valid l i /\ exists_at S l i = 1 /\ S l i = 0 /\ F l i + A l i + hole_at hole l i = 1.
Proof.
  intros [T1 T2 T3 T4 T5 T6] [Hv Ho]. specialize (T1 l i Hv).
  pose proof (T4 l i). pose proof (T4 (l + 1) (i / 2)). unfold exists_at in *.
  destruct (l =? TOP); split_and!; try done; lia.
Qed.

(** No occupied block lies inside another. *)
Lemma occupied_not_nested hole l i l' i' :
  tree F A S hole -> occupied hole l i -> occupied hole l' i' -> l < l' -> i / 2 ^ (l' - l) <> i'.
Proof.
  intros T O1 O2 Hl <-. destruct (occupied_spec _ _ _ T O1) as (Hv & He & _).
  destruct (occupied_spec _ _ _ T O2) as ([Hl' _] & _ & HS & _).
  pose proof (ancestors_split hole l i (Z.to_nat (l' - l - 1)) T Hv He ltac:(lia)) as Hsp.
  replace (l + Z.of_nat (Z.to_nat (l' - l - 1)) + 1) with l' in Hsp by lia.
  replace (Z.of_nat (Z.to_nat (l' - l - 1)) + 1) with (l' - l) in Hsp by lia. lia.
Qed.

(** Occupied blocks are disjoint ranges of the arena, in units of [2^g] bytes. *)
Lemma occupied_disjoint_lt hole g l i l' i' :
  0 <= g -> tree F A S hole -> occupied hole l i -> occupied hole l' i' -> l <= l' -> (l, i) <> (l', i') ->
  i * 2 ^ (g + l) + 2 ^ (g + l) <= i' * 2 ^ (g + l') \/
  i' * 2 ^ (g + l') + 2 ^ (g + l') <= i * 2 ^ (g + l).
Proof.
  intros Hg T O1 O2 Hl Hne. pose proof O1 as [[Hv1 Hi] _]. pose proof O2 as [[Hv2 Hi'] _].
  assert (Hd : i / 2 ^ (l' - l) <> i').
  { destruct (Z.eq_dec l l') as [->|Hll].
    - rewrite Z.sub_diag, Z.pow_0_r, Z.div_1_r. congruence.
    - apply (occupied_not_nested hole l i l' i'); done || lia. }
  replace (g + l') with (l' - l + (g + l)) by lia. rewrite !(Z.pow_add_r 2 (l' - l)) by lia.
  set (q := 2 ^ (l' - l)) in *. assert (0 < q) by (apply Z.pow_pos_nonneg; lia).
  assert (0 < 2 ^ (g + l)) by (apply Z.pow_pos_nonneg; lia).
  pose proof (Z.div_mod i q ltac:(lia)). pose proof (Z.mod_pos_bound i q ltac:(lia)).
  assert (i + 1 <= i' * q \/ i' * q + q <= i) by nia. nia.
Qed.

Lemma occupied_disjoint hole g l i l' i' :
  0 <= g -> tree F A S hole -> occupied hole l i -> occupied hole l' i' -> (l, i) <> (l', i') ->
  i * 2 ^ (g + l) + 2 ^ (g + l) <= i' * 2 ^ (g + l') \/
  i' * 2 ^ (g + l') + 2 ^ (g + l') <= i * 2 ^ (g + l).
Proof.
  intros Hg T O1 O2 Hne. destruct (Z.le_gt_cases l l').
  - by apply (occupied_disjoint_lt hole).
  - destruct (occupied_disjoint_lt hole g l' i' l i Hg T O2 O1); [lia|congruence|by right|by left].
Qed.

(** The merged form: no block is free together with its sibling. *)
Definition coalesced_from (from : Z) : Prop :=
  forall l i, valid l i -> from <= l < TOP -> F l i = 0 \/ F l (Z.lxor i 1) = 0.

(** An arena in merged form with nothing allocated is one whole free block. *)
Lemma coalesced_empty_whole :
  tree F A S None -> coalesced_from 0 -> (forall l i, valid l i -> A l i = 0) ->
  (forall l i, valid l i -> S l i = 0) /\ F TOP 0 = 1 /\
  (forall l i, valid l i -> l < TOP -> F l i = 0).
Proof.
  intros [T1 T2 T3 T4 T5 T6] Hco HA.
  assert (HS : forall n : nat, forall i, valid (Z.of_nat n) i -> S (Z.of_nat n) i = 0).
  { induction n as [|n IH]; intros i Hv; [apply T5|].
    destruct (Z.eq_dec (S (Z.of_nat (Datatypes.S n)) i) 0) as [|Hn1]; [done|exfalso].
    pose proof (T4 (Z.of_nat (Datatypes.S n)) i).
    assert (Hch : forall c, 0 <= c <= 1 -> F (Z.of_nat n) (2 * i + c) = 1).
    { intros c Hc. pose proof (valid_child _ _ c Hv ltac:(lia) Hc) as Hvc.
      replace (Z.of_nat (Datatypes.S n) - 1) with (Z.of_nat n) in Hvc by lia.
      specialize (T1 _ _ Hvc). rewrite (HA _ _ Hvc), (IH _ Hvc) in T1. cbn [hole_at] in T1.
      destruct Hv as [Hl _]. rewrite exists_at_below, child_parent in T1 by lia.
      replace (Z.of_nat n + 1) with (Z.of_nat (Datatypes.S n)) in T1 by lia. lia. }
    pose proof (valid_child _ _ 0 Hv ltac:(lia) ltac:(lia)) as Hv0.
    replace (Z.of_nat (Datatypes.S n) - 1) with (Z.of_nat n) in Hv0 by lia.
    destruct Hv as [Hl Hi]. destruct (Hco _ _ Hv0 ltac:(lia)) as [H0|H1].
    - rewrite Hch in H0 by lia. lia.
    - destruct (sibling_spec (2 * i + 0)) as [[_ Hx]|[He _]]; [destruct Hv0; lia| |].
      + rewrite Hx, Z.add_0_r, Hch in H1 by lia. lia.
      + rewrite Z.add_0_r, Z.even_mul in He. done. }
  assert (HS' : forall l i, valid l i -> S l i = 0).
  { intros l i Hv. replace l with (Z.of_nat (Z.to_nat l)) in * by (destruct Hv; lia). by apply HS. }
  split_and!; [done| |].
  - assert (Hv : valid TOP 0) by (unfold valid; split; [unfold TOP; lia|cbn; lia]).
    specialize (T1 _ _ Hv). rewrite (HA _ _ Hv), (HS' _ _ Hv), exists_at_top in T1.
    cbn [hole_at] in T1. lia.
  - intros l i Hv Hl. pose proof (T1 _ _ Hv) as T. rewrite (HA _ _ Hv), (HS' _ _ Hv) in T.
    rewrite exists_at_below, (HS' _ _ (valid_parent _ _ Hv Hl)) in T by lia. cbn [hole_at] in T. lia.
Qed.

(** In merged form a block is split exactly when something strictly inside it is
    allocated. *)
Lemma coalesced_split_iff l i :
  tree F A S None -> coalesced_from 0 -> valid l i ->
  S l i = 1 <-> exists l' j, l' < l /\ valid l' j /\ A l' j = 1 /\ j / 2 ^ (l - l') = i.
Proof.
  intros T Hco Hv. split.
  - replace l with (Z.of_nat (Z.to_nat l)) in * by (destruct Hv; lia). revert i Hv.
    induction (Z.to_nat l) as [|n IH]; intros i Hv HS.
    { change (Z.of_nat 0) with 0 in HS. rewrite (t_leaf _ _ _ _ T) in HS. done. }
    assert (Hl : Z.of_nat (Datatypes.S n) - 1 = Z.of_nat n) by lia.
    assert (Hc : exists c, 0 <= c <= 1 /\ F (Z.of_nat n) (2 * i + c) = 0).
    { pose proof (valid_child _ _ 0 Hv ltac:(lia) ltac:(lia)) as Hv0. rewrite Hl in Hv0.
      pose proof Hv as [Hlt Hi].
      destruct (Hco _ _ Hv0 ltac:(lia)) as [H0|H1]; [by exists 0; split; [lia|]|].
      exists 1. split; [lia|]. destruct (sibling_spec (2 * i + 0)) as [[_ Hx]|[He _]]; [lia| |].
      - by rewrite Hx, Z.add_0_r in H1.
      - by rewrite Z.add_0_r, Z.even_mul in He. }
    destruct Hc as (c & Hc & HF).
    pose proof (valid_child _ _ c Hv ltac:(lia) Hc) as Hvc. rewrite Hl in Hvc.
    pose proof (t_sum _ _ _ _ T _ _ Hvc) as Hs. destruct Hv as [Hlt _]. cbn [hole_at] in Hs.
    rewrite exists_at_below, child_parent in Hs by lia.
    replace (Z.of_nat n + 1) with (Z.of_nat (Datatypes.S n)) in Hs by lia.
    pose proof (t_A _ _ _ _ T (Z.of_nat n) (2 * i + c)) as HA.
    destruct (Z.eq_dec (A (Z.of_nat n) (2 * i + c)) 1) as [HA1|HA1].
    + exists (Z.of_nat n), (2 * i + c). split_and!; [lia|done|done|].
      replace (Z.of_nat (Datatypes.S n) - Z.of_nat n) with 1 by lia. by apply child_parent.
    + destruct (IH _ Hvc ltac:(lia)) as (l' & j & Hl' & Hvj & HAj & Hd).
      exists l', j. split_and!; [lia|done|done|]. destruct Hvj as [Hl0 _].
      replace (Z.of_nat (Datatypes.S n) - l') with (Z.of_nat n - l' + 1) by lia.
      rewrite Z.pow_add_r by lia. rewrite <- Z.div_div by lia. rewrite Hd. by apply child_parent.
  - intros (l' & j & Hl' & Hvj & HAj & <-). destruct Hv as [Hlt _].
    pose proof (t_sum _ _ _ _ T _ _ Hvj) as Hs. pose proof (t_F _ _ _ _ T l' j).
    pose proof (t_S _ _ _ _ T l' j). pose proof (t_S _ _ _ _ T (l' + 1) (j / 2)).
    assert (He : exists_at S l' j = 1).
    { unfold exists_at, hole_at in *. destruct (l' =? TOP); lia. }
    pose proof (ancestors_split None l' j (Z.to_nat (l - l' - 1)) T Hvj He ltac:(lia)) as Hsp.
    replace (l' + Z.of_nat (Z.to_nat (l - l' - 1)) + 1) with l in Hsp by lia.
    by replace (Z.of_nat (Z.to_nat (l - l' - 1)) + 1) with (l - l') in Hsp by lia.
Qed.

End Steps.

(** So the merged form is canonical: the allocated blocks determine the split
    ones and the free ones. *)
Lemma coalesced_unique F A S F' S' :
  tree F A S None -> coalesced_from F 0 -> tree F' A S' None -> coalesced_from F' 0 ->
  (forall l i, valid l i -> S' l i = S l i) /\ (forall l i, valid l i -> F' l i = F l i).
Proof.
  intros T Hc T' Hc'.
  assert (HS : forall l i, valid l i -> S' l i = S l i).
  { intros l i Hv. pose proof (coalesced_split_iff F A S l i T Hc Hv) as H1.
    pose proof (coalesced_split_iff F' A S' l i T' Hc' Hv) as H2.
    pose proof (t_S _ _ _ _ T l i). pose proof (t_S _ _ _ _ T' l i).
    destruct (Z.eq_dec (S l i) 1) as [He|], (Z.eq_dec (S' l i) 1) as [He'|]; try lia; exfalso.
    - apply H1, H2 in He. lia.
    - apply H2, H1 in He'. lia. }
  split; [done|]. intros l i Hv. pose proof (t_sum _ _ _ _ T l i Hv) as E1.
  pose proof (t_sum _ _ _ _ T' l i Hv) as E2. rewrite HS in E2 by done. unfold exists_at in *.
  destruct (Z.eqb_spec l TOP); [lia|].
  rewrite HS in E2 by (apply valid_parent; [done|destruct Hv; lia]). lia.
Qed.

End BuddyTree.
