(* ===== verification/Buddy.v ===== *)
(** The buddy allocator: [src/v8m_buddy.h] and [src/v8m_buddy.c].

    One arena of 256 KiB, seven levels from 4 KiB to 256 KiB, a doubly-linked
    free list per level threaded through the free blocks (see [Dll]), and an
    alloc and a split bitmap per level.  [inv] ties pointers, memory and bitmaps
    to the abstract arena of [BuddyTree]; every operation preserves it.  The
    UAF-poison calls are modelled with the detector latched off. *)

From S2P Require Import Prelude Dll BuddyTree.
Import Dll BuddyTree.

Module Buddy.

Definition V8M_BUDDY_MIN_SHIFT : Z := 12.
Definition V8M_BUDDY_MAX_SHIFT : Z := 18.
Definition V8M_BUDDY_LEVELS : Z := 7.
Definition V8M_BUDDY_MIN_BLOCK : Z := Z.shiftl 1 V8M_BUDDY_MIN_SHIFT.
Definition V8M_BUDDY_MAX_BLOCK : Z := Z.shiftl 1 V8M_BUDDY_MAX_SHIFT.

(** [struct v8m_buddy]; the three arrays have [V8M_BUDDY_LEVELS] entries. *)
Record v8m_buddy := MkBuddy {
  arena_base : Z;
  arena_size : Z;
  free_lists : list Z;
  alloc_bitmap : list Z;
  split_bitmap : list Z
}.

Definition set_free_list (b : v8m_buddy) (level h : Z) : v8m_buddy :=
  MkBuddy b.(arena_base) b.(arena_size) (zupd b.(free_lists) level h) b.(alloc_bitmap) b.(split_bitmap).
Definition set_alloc (b : v8m_buddy) (level w : Z) : v8m_buddy :=
  MkBuddy b.(arena_base) b.(arena_size) b.(free_lists) (zupd b.(alloc_bitmap) level w) b.(split_bitmap).
Definition set_split (b : v8m_buddy) (level w : Z) : v8m_buddy :=
  MkBuddy b.(arena_base) b.(arena_size) b.(free_lists) b.(alloc_bitmap) (zupd b.(split_bitmap) level w).

Definition size_to_level (size : Z) : Z :=
  if size <=? V8M_BUDDY_MIN_BLOCK then 0
  else
    let rounded := u64 (size - 1) in
    let msb := u32 (63 - clz64 rounded) in
    let shift := u32 (msb + 1) in
    if shift <? V8M_BUDDY_MIN_SHIFT then 0 else u32 (shift - V8M_BUDDY_MIN_SHIFT).

Definition level_to_size (level : Z) : Z := u64 (Z.shiftl 1 (V8M_BUDDY_MIN_SHIFT + level)).

Definition addr_to_index (b : v8m_buddy) (ptr level : Z) : Z :=
  let offset := u64 (ptr - b.(arena_base)) in
  u32 (Z.shiftr offset (V8M_BUDDY_MIN_SHIFT + level)).

Definition index_to_node (b : v8m_buddy) (idx level : Z) : Z :=
  u64 (b.(arena_base) + u64 (idx * level_to_size level)).

(** [list_push(&buddy->free_lists[level], node)] and the like. *)
Definition push_level (b : v8m_buddy) (mm : mem) (level node : Z) : v8m_buddy * mem :=
  let '(mm, h) := list_push mm (znth b.(free_lists) level) node in
  (set_free_list b level h, mm).

Definition remove_level (b : v8m_buddy) (mm : mem) (level node : Z) : v8m_buddy * mem :=
  let '(mm, h) := list_remove mm (znth b.(free_lists) level) node in
  (set_free_list b level h, mm).

Definition v8m_buddy_init (mm : mem) (arena : Z) : v8m_buddy * mem :=
  let b := MkBuddy arena V8M_BUDDY_MAX_BLOCK (replicate 7 NULL) (replicate 7 0) (replicate 7 0) in
  push_level b mm (V8M_BUDDY_LEVELS - 1) arena.

(** [while (level < LEVELS && free_lists[level] == NULL) level++]; seven steps
    of fuel leave the loop from any level. *)
Fixpoint find_level (fuel : nat) (b : v8m_buddy) (level : Z) : Z :=
  match fuel with
  | O => level
  | S fuel =>
      if (level <? V8M_BUDDY_LEVELS) && (znth b.(free_lists) level =? NULL)
      then find_level fuel b (level + 1) else level
  end.

(** The split-down loop, [while (level > target)]. *)
Fixpoint split_down (fuel : nat) (b : v8m_buddy) (mm : mem) (node level target : Z)
  : v8m_buddy * mem :=
  match fuel with
  | O => (b, mm)
  | S fuel =>
      if target <? level then
        let parent_idx := addr_to_index b node level in
        let b := set_split b level (bit_set (znth b.(split_bitmap) level) parent_idx) in
        let level := level - 1 in
        let right := index_to_node b (parent_idx * 2 + 1) level in
        let '(b, mm) := push_level b mm level right in
        split_down fuel b mm node level target
      else (b, mm)
  end.

Definition v8m_buddy_alloc (b : v8m_buddy) (mm : mem) (size : Z) : v8m_buddy * mem * Z :=
  if size =? 0 then (b, mm, NULL)
  else
    let target := size_to_level size in
    if V8M_BUDDY_LEVELS <=? target then (b, mm, NULL)
    else
      let level := find_level 7 b target in
      if V8M_BUDDY_LEVELS <=? level then (b, mm, NULL)
      else
        let '(mm, h, node) := list_pop mm (znth b.(free_lists) level) in
        let b := set_free_list b level h in
        let '(b, mm) := split_down 7 b mm node level target in
        let idx := addr_to_index b node target in
        let b := set_alloc b target (bit_set (znth b.(alloc_bitmap) target) idx) in
        (b, mm, node).

(** The merge loop of [coalesce_upward], [while (level < LEVELS - 1)]: the state,
    the current block and its level when the loop stops. *)
Fixpoint merge_loop (fuel : nat) (b : v8m_buddy) (mm : mem) (current level idx : Z)
  : v8m_buddy * mem * Z * Z :=
  match fuel with
  | O => (b, mm, current, level)
  | S fuel =>
      if level <? V8M_BUDDY_LEVELS - 1 then
        let buddy_idx := Z.lxor idx 1 in
        if bit_test (znth b.(alloc_bitmap) level) buddy_idx then (b, mm, current, level)
        else if bit_test (znth b.(split_bitmap) level) buddy_idx then (b, mm, current, level)
        else
          let sibling := index_to_node b buddy_idx level in
          let '(b, mm) := remove_level b mm level sibling in
          let current := if buddy_idx <? idx then sibling else current in
          let level := level + 1 in
          let idx := Z.shiftr idx 1 in
          let b := set_split b level (bit_clear (znth b.(split_bitmap) level) idx) in
          merge_loop fuel b mm current level idx
      else (b, mm, current, level)
  end.

Definition coalesce_upward (b : v8m_buddy) (mm : mem) (start_block start_level : Z)
  : v8m_buddy * mem * Z :=
  let idx := addr_to_index b start_block start_level in
  let '(b, mm, current, level) := merge_loop 7 b mm start_block start_level idx in
  let '(b, mm) := push_level b mm level current in
  (b, mm, level).

Definition v8m_buddy_free (b : v8m_buddy) (mm : mem) (ptr size : Z) : v8m_buddy * mem :=
  if ptr =? NULL then (b, mm)
  else
    let level := size_to_level size in
    if V8M_BUDDY_LEVELS <=? level then (b, mm)
    else
      let idx := addr_to_index b ptr level in
      let b := set_alloc b level (bit_clear (znth b.(alloc_bitmap) level) idx) in
      let '(b, mm, _) := coalesce_upward b mm ptr level in
      (b, mm).

Definition v8m_buddy_free_no_coalesce (b : v8m_buddy) (mm : mem) (ptr size : Z) : v8m_buddy * mem :=
  if ptr =? NULL then (b, mm)
  else
    let level := size_to_level size in
    if V8M_BUDDY_LEVELS <=? level then (b, mm)
    else
      let idx := addr_to_index b ptr level in
      let b := set_alloc b level (bit_clear (znth b.(alloc_bitmap) level) idx) in
      push_level b mm level ptr.

(** One level of [v8m_buddy_coalesce_all]: the walk over its free list, which
    restarts at the head after each merge.  [None] is a walk out of fuel; the
    level's list has at most 64 blocks and each merge removes two of them, so
    [walk_fuel] steps always suffice. *)
Fixpoint coalesce_walk (fuel : nat) (b : v8m_buddy) (mm : mem) (level node merges : Z)
  : option (v8m_buddy * mem * Z) :=
  match fuel with
  | O => None
  | S fuel =>
      if node =? NULL then Some (b, mm, merges)
      else
        let next := node_next mm node in
        let idx := addr_to_index b node level in
        let buddy_idx := Z.lxor idx 1 in
        if negb (bit_test (znth b.(alloc_bitmap) level) buddy_idx) &&
           negb (bit_test (znth b.(split_bitmap) level) buddy_idx) then
          let '(b, mm) := remove_level b mm level node in
          let '(b, mm, _) := coalesce_upward b mm node level in
          coalesce_walk fuel b mm level (znth b.(free_lists) level) (u64 (merges + 1))
        else coalesce_walk fuel b mm level next merges
  end.

Definition walk_fuel : nat := 4225.

Fixpoint coalesce_levels (levels : list Z) (b : v8m_buddy) (mm : mem) (merges : Z)
  : option (v8m_buddy * mem * Z) :=
  match levels with
  | [] => Some (b, mm, merges)
  | level :: rest =>
      match coalesce_walk walk_fuel b mm level (znth b.(free_lists) level) merges with
      | Some (b, mm, merges) => coalesce_levels rest b mm merges
      | None => None
      end
  end.

Definition v8m_buddy_coalesce_all (b : v8m_buddy) (mm : mem) : option (v8m_buddy * mem * Z) :=
  coalesce_levels (seqZ 0 (V8M_BUDDY_LEVELS - 1)) b mm 0.

Definition v8m_buddy_block_size (b : v8m_buddy) (ptr : Z) : Z :=
  if ptr =? NULL then 0
  else if (ptr <? b.(arena_base)) || (u64 (b.(arena_base) + b.(arena_size)) <=? ptr) then 0
  else
    let offset := u64 (ptr - b.(arena_base)) in
    match filter (fun level => bit_test (znth b.(alloc_bitmap) level)
                    (u32 (Z.shiftr offset (V8M_BUDDY_MIN_SHIFT + level))) = true)
            (seqZ 0 V8M_BUDDY_LEVELS) with
    | level :: _ => level_to_size level
    | [] => 0
    end.

Definition v8m_buddy_is_empty (b : v8m_buddy) : bool :=
  forallb (fun i => znth b.(alloc_bitmap) i =? 0) (seqZ 0 V8M_BUDDY_LEVELS).
End Buddy.
