(* ===== verification/BuddyInv.v ===== *)
(** Correctness of the buddy allocator of [Buddy] ([src/v8m_buddy.c]).

    [rep b mm fl] relates the C state to the indices [fl l] on the free list of
    each level; [inv b mm] adds the arena invariant of [BuddyTree].  The theorems
    give every operation's effect on the set of allocated blocks, that these
    blocks never overlap, and that immediate and on-demand coalescing lead to the
    same canonical state. *)

From S2P Require Import Prelude Dll BuddyTree Buddy.
Import Dll BuddyTree Buddy.

Module BuddyInv.

(** ** Addresses and indices *)

Definition addr (b : v8m_buddy) (l i : Z) : Z := b.(arena_base) + i * 2 ^ (12 + l).

Definition geometry (b : v8m_buddy) : Prop :=
  0 < b.(arena_base) /\ (2 ^ 18 | b.(arena_base)) /\ b.(arena_base) + 2 ^ 18 < 2 ^ 64 /\
  b.(arena_size) = 2 ^ 18.

(** [2^(12+l)] bytes per block, [2^(6-l)] blocks: [2^18] bytes. *)
Lemma level_capacity l : 0 <= l <= TOP -> 2 ^ (TOP - l) * 2 ^ (12 + l) = 2 ^ 18.
Proof. intros H. rewrite <- Z.pow_add_r by (unfold TOP in *; lia). f_equal. unfold TOP. lia. Qed.

Lemma pow_level_bounds l : 0 <= l <= TOP -> 2 ^ 12 <= 2 ^ (12 + l) <= 2 ^ 18.
Proof. unfold TOP. intros H. split; apply Z.pow_le_mono_r; lia. Qed.

Lemma valid_index l i : valid l i -> 0 <= i < 64.
Proof.
  intros [Hl Hi]. assert (2 ^ (TOP - l) <= 2 ^ 6) by (apply Z.pow_le_mono_r; unfold TOP in *; lia). lia.
Qed.

Lemma addr_bounds b l i :
  valid l i -> b.(arena_base) <= addr b l i /\ addr b l i + 2 ^ (12 + l) <= b.(arena_base) + 2 ^ 18.
Proof.
  intros [Hl Hi]. pose proof (level_capacity l Hl). pose proof (pow_level_bounds l Hl).
  unfold addr. nia.
Qed.

Lemma addr_not_null b l i : geometry b -> valid l i -> addr b l i <> NULL.
Proof. intros (? & _) Hv. pose proof (addr_bounds b l i Hv). unfold NULL. lia. Qed.

Lemma addr_divide b l i : geometry b -> 0 <= l <= TOP -> (2 ^ (12 + l) | addr b l i).
Proof.
  intros (_ & Hd & _) Hl. unfold addr. apply Z.divide_add_r; [|apply Z.divide_factor_r].
  etrans; [|exact Hd]. rewrite <- (level_capacity l Hl). apply Z.divide_factor_r.
Qed.

Lemma addr_aligned b l i : geometry b -> 0 <= l <= TOP -> (16 | addr b l i).
Proof.
  intros Hg Hl. etrans; [|by apply addr_divide]. rewrite Z.pow_add_r by lia.
  apply Z.divide_mul_l. by exists 256.
Qed.

Lemma addr_inj b l i j : 0 <= l -> addr b l i = addr b l j -> i = j.
Proof.
  unfold addr. intros Hl He. assert (0 < 2 ^ (12 + l)) by (apply Z.pow_pos_nonneg; lia). nia.
Qed.

Lemma addr_left_child b l i : 0 < l -> addr b (l - 1) (2 * i) = addr b l i.
Proof.
  intros Hl. unfold addr. replace (12 + l) with (1 + (12 + (l - 1))) by lia.
  rewrite (Z.pow_add_r 2 1) by lia. lia.
Qed.

Lemma level_to_size_eq l : 0 <= l <= TOP -> level_to_size l = 2 ^ (12 + l).
Proof.
  intros Hl. unfold level_to_size, V8M_BUDDY_MIN_SHIFT. rewrite Z.shiftl_1_l.
  pose proof (pow_level_bounds l Hl). apply u64_small. unfold is_u64. lia.
Qed.

Lemma index_to_node_eq b l i : geometry b -> valid l i -> index_to_node b i l = addr b l i.
Proof.
  intros (? & _ & ? & _) Hv. pose proof (addr_bounds b l i Hv) as Hb. destruct Hv as [Hl Hi].
  unfold index_to_node. rewrite level_to_size_eq by done. unfold addr in *.
  pose proof (pow_level_bounds l Hl).
  rewrite (u64_small (i * _)) by (unfold is_u64; nia). apply u64_small. unfold is_u64. lia.
Qed.

(** The index of the level-[l] block that contains an address of the arena. *)
Lemma addr_to_index_within b l i p :
  geometry b -> valid l i -> addr b l i <= p < addr b l i + 2 ^ (12 + l) -> addr_to_index b p l = i.
Proof.
  intros (? & _ & ? & _) Hv Hp. pose proof (addr_bounds b l i Hv) as Hb. pose proof (valid_index l i Hv).
  destruct Hv as [Hl Hi].
  unfold addr_to_index, V8M_BUDDY_MIN_SHIFT. rewrite u64_small by (unfold is_u64; lia).
  rewrite Z.shiftr_div_pow2 by lia. unfold addr in *.
  rewrite <- (Z.div_unique _ _ i (p - b.(arena_base) - i * 2 ^ (12 + l))) by lia.
  apply u32_small. lia.
Qed.

Lemma addr_to_index_addr b l i : geometry b -> valid l i -> addr_to_index b (addr b l i) l = i.
Proof.
  intros Hg Hv. apply addr_to_index_within; [done|done|]. destruct Hv as [Hl _].
  pose proof (pow_level_bounds l Hl). lia.
Qed.

(** [size_to_level] is the least level whose blocks hold [size] bytes. *)
Lemma size_to_level_spec size :
  0 < size < 2 ^ 64 ->
  0 <= size_to_level size <= 52 /\ size <= 2 ^ (12 + size_to_level size) /\
  (size_to_level size = 0 \/ 2 ^ (11 + size_to_level size) < size).
Proof.
  intros Hs. unfold size_to_level, V8M_BUDDY_MIN_BLOCK, V8M_BUDDY_MIN_SHIFT.
  change (Z.shiftl 1 12) with 4096.
  destruct (Z.leb_spec size 4096); [cbn; lia|].
  rewrite u64_small by (unfold is_u64; lia). unfold clz64.
  replace (63 - (63 - Z.log2 (size - 1))) with (Z.log2 (size - 1)) by lia.
  assert (12 <= Z.log2 (size - 1)) by (apply Z.log2_le_pow2; lia).
  assert (Z.log2 (size - 1) < 64) by (apply Z.log2_lt_pow2; lia).
  pose proof (Z.log2_spec (size - 1) ltac:(lia)) as Hlog.
  rewrite (u32_small (Z.log2 _)), (u32_small (_ + 1)) by lia.
  destruct (Z.ltb_spec (Z.log2 (size - 1) + 1) 12); [lia|].
  rewrite u32_small by lia. set (k := Z.log2 (size - 1)) in *.
  split; [lia|]. split.
  - replace (12 + (k + 1 - 12)) with (Z.succ k) by lia. lia.
  - right. replace (11 + (k + 1 - 12)) with k by lia. lia.
Qed.

Lemma size_to_level_large size :
  0 < size < 2 ^ 64 -> V8M_BUDDY_LEVELS <= size_to_level size <-> V8M_BUDDY_MAX_BLOCK < size.
Proof.
  intros Hs. destruct (size_to_level_spec size Hs) as (Hr & Hle & Hgt).
  change V8M_BUDDY_LEVELS with 7. change V8M_BUDDY_MAX_BLOCK with (2 ^ 18). split; intros H.
  - destruct Hgt as [?|Hgt]; [lia|]. eapply Z.le_lt_trans; [|exact Hgt].
    apply Z.pow_le_mono_r; lia.
  - destruct (Z.lt_ge_cases (size_to_level size) 7) as [Hlt|]; [|done].
    assert (2 ^ (12 + size_to_level size) <= 2 ^ 18) by (apply Z.pow_le_mono_r; lia). lia.
Qed.

(** The size of a block leads back to its level. *)
Lemma size_to_level_size l : 0 <= l <= TOP -> size_to_level (2 ^ (12 + l)) = l.
Proof.
  intros Hl. assert (l = 0 \/ l = 1 \/ l = 2 \/ l = 3 \/ l = 4 \/ l = 5 \/ l = 6) as H
    by (unfold TOP in *; lia).
  destruct H as [->|[->|[->|[->|[->|[->| ->]]]]]]; reflexivity.
Qed.

(** Every size whose least level is [l] leads there. *)
Lemma size_to_level_unique size l :
  0 < size <= 2 ^ (12 + l) -> 0 <= l <= TOP -> (l = 0 \/ 2 ^ (11 + l) < size) -> size_to_level size = l.
Proof.
  intros Hs Hl Hm. pose proof (pow_level_bounds l Hl).
  destruct (size_to_level_spec size ltac:(lia)) as (Hr & Hle & Hgt).
  destruct (Z.lt_trichotomy (size_to_level size) l) as [Hlt|[He|Hlt]]; [|done|].
  - assert (2 ^ (12 + size_to_level size) <= 2 ^ (11 + l)) by (apply Z.pow_le_mono_r; lia). lia.
  - assert (2 ^ (12 + l) <= 2 ^ (11 + size_to_level size)) by (apply Z.pow_le_mono_r; lia). lia.
Qed.

(** ** Representation *)

Definition fset (fl : Z -> list Z) (l : Z) (v : list Z) : Z -> list Z :=
  fun l' => if l' =? l then v else fl l'.

Lemma fset_eq fl l v : fset fl l v l = v.
Proof. unfold fset. by rewrite Z.eqb_refl. Qed.

Lemma fset_ne fl l v l' : l' <> l -> fset fl l v l' = fl l'.
Proof. intros H. unfold fset. by destruct (Z.eqb_spec l' l). Qed.

Definition level_ok (l : Z) : Prop := 0 <= l <= TOP.

Record rep (b : v8m_buddy) (mm : mem) (fl : Z -> list Z) : Prop := {
  r_geometry : geometry b;
  r_lists : length b.(free_lists) = 7%nat;
  r_allocs : length b.(alloc_bitmap) = 7%nat;
  r_splits : length b.(split_bitmap) = 7%nat;
  r_alloc : forall l, level_ok l -> 0 <= znth b.(alloc_bitmap) l < 2 ^ 2 ^ (TOP - l);
  r_split : forall l, level_ok l -> 0 <= znth b.(split_bitmap) l < 2 ^ 2 ^ (TOP - l);
  r_dll : forall l, level_ok l -> dll mm NULL (znth b.(free_lists) l) (addr b l <$> fl l);
  r_valid : forall l i, level_ok l -> i ∈ fl l -> valid l i;
  r_sep : forall l i l' i', level_ok l -> level_ok l' -> l <> l' -> i ∈ fl l -> i' ∈ fl l' ->
            addr b l i <> addr b l' i'
}.

Lemma word_u64 l w : level_ok l -> 0 <= w < 2 ^ 2 ^ (TOP - l) -> is_u64 w.
Proof.
  intros Hl Hw. unfold is_u64. split; [lia|]. eapply Z.lt_le_trans; [apply Hw|].
  apply Z.pow_le_mono_r; [lia|]. change 64 with (2 ^ 6).
  apply Z.pow_le_mono_r; unfold level_ok, TOP in *; lia.
Qed.

Lemma addrs_aligned b l (L : list Z) : geometry b -> level_ok l -> aligned (addr b l <$> L).
Proof.
  intros Hg Hl. unfold aligned. rewrite Forall_fmap. apply Forall_true. intros i. by apply addr_aligned.
Qed.

Lemma addr_notin b l i (L : list Z) : 0 <= l -> i ∉ L -> addr b l i ∉ addr b l <$> L.
Proof.
  intros Hl Hn Hin. apply list_elem_of_fmap in Hin as (j & He & Hj).
  apply addr_inj in He; [|done]. by subst.
Qed.

(** Replacing one free list, when only nodes of that level were touched. *)
Lemma rep_relist b mm fl l h' mm' L' ns :
  rep b mm fl -> level_ok l -> dll mm' NULL h' (addr b l <$> L') ->
  only_nodes mm mm' (addr b l <$> ns) -> (forall x, x ∈ L' -> x ∈ ns) ->
  (forall x, x ∈ ns -> valid l x /\
     forall l' i', level_ok l' -> l' <> l -> i' ∈ fl l' -> addr b l' i' <> addr b l x) ->
  rep (set_free_list b l h') mm' (fset fl l L').
Proof.
  intros [] Hl Hd Ho Hsub Hns. assert (Hlen : 0 <= l < Z.of_nat 7) by (unfold level_ok, TOP in *; lia).
  constructor; cbn; try done.
  - by rewrite length_zupd.
  - intros k Hk. rewrite znth_zupd by (rewrite ?r_lists0; unfold level_ok in *; lia).
    destruct (Z.eqb_spec k l) as [->|Hne]; [by rewrite fset_eq|]. rewrite fset_ne by done.
    eapply (dll_only_nodes _ _ _ _ _ _ Ho); [by apply addrs_aligned|by apply addrs_aligned| |by apply r_dll0].
    intros a (i' & -> & Hi')%list_elem_of_fmap (x & He & Hx)%list_elem_of_fmap.
    destruct (Hns x Hx) as [_ Hf]. by apply (Hf k i').
  - intros k i Hk. destruct (Z.eq_dec k l) as [->|Hne].
    + rewrite fset_eq. intros Hi. by apply Hns, Hsub.
    + rewrite fset_ne by done. by apply r_valid0.
  - intros k i k' i' Hk Hk' Hkk. destruct (Z.eq_dec k l) as [->|Hne].
    + rewrite fset_eq, fset_ne by done. intros Hi Hi' He. destruct (Hns i (Hsub i Hi)) as [_ Hf].
      by apply (Hf k' i' Hk' ltac:(done) Hi').
    + rewrite (fset_ne _ _ _ k) by done. intros Hi. destruct (Z.eq_dec k' l) as [->|Hne'].
      * rewrite fset_eq. intros Hi'. destruct (Hns i' (Hsub i' Hi')) as [_ Hf]. by apply Hf.
      * rewrite fset_ne by done. by apply r_sep0.
Qed.

(** Nodes of one level's list are apart from every other level's nodes. *)
Lemma rep_apart b mm fl l : rep b mm fl -> level_ok l ->
  forall x, x ∈ fl l -> valid l x /\
    forall l' i', level_ok l' -> l' <> l -> i' ∈ fl l' -> addr b l' i' <> addr b l x.
Proof.
  intros [] Hl x Hx. split; [by apply r_valid0|]. intros l' i' Hl' Hne Hi'. by apply r_sep0.
Qed.

Lemma rep_NoDup b mm fl l : rep b mm fl -> level_ok l -> NoDup (fl l).
Proof. intros [] Hl. eapply NoDup_fmap_1, dll_NoDup, r_dll0, Hl. Qed.

(** A block that is on no free list, at no other free block's address. *)
Definition fresh (b : v8m_buddy) (fl : Z -> list Z) (l i : Z) : Prop :=
  i ∉ fl l /\ forall l' i', level_ok l' -> l' <> l -> i' ∈ fl l' -> addr b l' i' <> addr b l i.

Lemma push_level_rep b mm fl l i :
  rep b mm fl -> valid l i -> fresh b fl l i ->
  exists mm', push_level b mm l (addr b l i) = (set_free_list b l (addr b l i), mm') /\
    rep (set_free_list b l (addr b l i)) mm' (fset fl l (i :: fl l)) /\
    only_nodes mm mm' (addr b l <$> (i :: fl l)).
Proof.
  intros R Hv [Hn Hf]. pose proof Hv as [Hl _]. pose proof (r_geometry _ _ _ R) as Hg.
  destruct (list_push_spec mm (znth b.(free_lists) l) (addr b l <$> fl l) (addr b l i))
    as (mm' & He & Hd & Ho).
  - by apply (r_dll _ _ _ R).
  - change (aligned (addr b l <$> (i :: fl l))). by apply addrs_aligned.
  - apply addr_notin; [lia|done].
  - by apply addr_not_null.
  - exists mm'. unfold push_level. rewrite He. split; [done|]. split; [|done].
    apply (rep_relist b mm fl l _ mm' (i :: fl l) (i :: fl l)); try done.
    intros x [->|Hx]%elem_of_cons; [done|by eapply rep_apart].
Qed.

Lemma remove_level_rep b mm fl l i :
  rep b mm fl -> level_ok l -> i ∈ fl l ->
  exists mm' h' l1 l2, fl l = l1 ++ i :: l2 /\
    remove_level b mm l (addr b l i) = (set_free_list b l h', mm') /\
    rep (set_free_list b l h') mm' (fset fl l (l1 ++ l2)) /\
    only_nodes mm mm' (addr b l <$> fl l).
Proof.
  intros R Hl Hi. pose proof (r_geometry _ _ _ R) as Hg.
  pose proof Hi as (l1 & l2 & Hsplit)%list_elem_of_split.
  pose proof (r_dll _ _ _ R l Hl) as Hd. rewrite Hsplit, fmap_app, fmap_cons in Hd.
  destruct (list_remove_spec mm _ _ _ _ Hd) as (mm' & h' & He & Hd' & Ho).
  { rewrite <- fmap_cons, <- fmap_app. by apply addrs_aligned. }
  exists mm', h', l1, l2. split; [done|]. unfold remove_level. rewrite He. split; [done|].
  rewrite <- fmap_app in *. split.
  2: { eapply only_nodes_trans; [exact Ho|apply (only_nodes_refl _ [])| |set_solver].
       rewrite Hsplit. intros x. rewrite !list_elem_of_fmap. set_solver. }
  apply (rep_relist b mm fl l _ mm' (l1 ++ l2) (l1 ++ l2)); try done.
  intros x Hx. eapply rep_apart; [done|done|]. rewrite Hsplit. set_solver.
Qed.

Lemma pop_level_rep b mm fl l :
  rep b mm fl -> level_ok l -> znth b.(free_lists) l <> NULL ->
  exists mm' h' i L', fl l = i :: L' /\
    list_pop mm (znth b.(free_lists) l) = (mm', h', addr b l i) /\
    rep (set_free_list b l h') mm' (fset fl l L') /\ only_nodes mm mm' (addr b l <$> fl l).
Proof.
  intros R Hl Hh. pose proof (r_geometry _ _ _ R) as Hg. pose proof (r_dll _ _ _ R l Hl) as Hd.
  destruct (fl l) as [|i L'] eqn:Hfl; [done|]. rewrite fmap_cons in Hd.
  destruct (list_pop_spec mm _ _ _ Hd) as (mm' & h' & He & Hd' & Ho).
  { rewrite <- fmap_cons. by apply addrs_aligned. }
  exists mm', h', i, L'. split; [done|]. split; [done|]. split; [|done].
  apply (rep_relist b mm fl l _ mm' L' (i :: L')); try done; [set_solver|].
  intros x Hx. eapply rep_apart; [done|done|]. by rewrite Hfl.
Qed.

(** ** The arena invariant on the C state *)

Definition Fl (fl : Z -> list Z) (l i : Z) : Z := if bool_decide (i ∈ fl l) then 1 else 0.
Definition Al (b : v8m_buddy) (l i : Z) : Z := Z.b2z (Z.testbit (znth b.(alloc_bitmap) l) i).
Definition Sl (b : v8m_buddy) (l i : Z) : Z := Z.b2z (Z.testbit (znth b.(split_bitmap) l) i).

(** The state with one block possibly in hand. *)
Definition state (b : v8m_buddy) (mm : mem) (fl : Z -> list Z) (hole : option (Z * Z)) : Prop :=
  rep b mm fl /\ tree (Fl fl) (Al b) (Sl b) hole.

Definition inv (b : v8m_buddy) (mm : mem) : Prop := exists fl, state b mm fl None.

Lemma b2z_range (x : bool) : 0 <= Z.b2z x <= 1.
Proof. destruct x; cbn; lia. Qed.

Lemma Fl_in fl l i : Fl fl l i = 1 <-> i ∈ fl l.
Proof. unfold Fl. by destruct (bool_decide_reflect (i ∈ fl l)). Qed.

Lemma Fl_notin fl l i : Fl fl l i = 0 <-> i ∉ fl l.
Proof. unfold Fl. by destruct (bool_decide_reflect (i ∈ fl l)). Qed.

Lemma Fl_range fl l i : 0 <= Fl fl l i <= 1.
Proof. unfold Fl. destruct (bool_decide _); lia. Qed.

Lemma Fl_iff (L L' : list Z) (i i' : Z) :
  (i ∈ L <-> i' ∈ L') ->
  (if bool_decide (i ∈ L) then 1 else 0) = (if bool_decide (i' ∈ L') then 1 else 0) :> Z.
Proof. intros H. by rewrite (bool_decide_ext _ _ H). Qed.

(** A tree over abstract counts carries over to a state that shows them. *)
Lemma tree_view b mm fl F A S hole :
  rep b mm fl -> tree F A S hole ->
  (forall l i, valid l i -> Fl fl l i = F l i) -> (forall l i, valid l i -> Al b l i = A l i) ->
  (forall l i, valid l i -> Sl b l i = S l i) -> tree (Fl fl) (Al b) (Sl b) hole.
Proof.
  intros R T HF HA HS. apply (tree_ext F A S); try done.
  - intros. apply Fl_range.
  - intros. apply b2z_range.
  - intros. apply b2z_range.
  - intros i. destruct (decide (0 <= i < 2 ^ TOP)) as [Hi|Hi].
    + rewrite HS by (split; [unfold TOP; lia|by rewrite Z.sub_0_r]). apply (t_leaf _ _ _ _ T).
    + unfold Sl. destruct (Z.lt_ge_cases i 0); [by rewrite Z.testbit_neg_r by lia|].
      rewrite (testbit_high _ (2 ^ (TOP - 0)) i); [done|rewrite Z.sub_0_r; unfold TOP in *; lia|].
      apply (r_split _ _ _ R). unfold level_ok, TOP. lia.
Qed.

Lemma Fl_fset_push fl l i l' i' :
  i ∉ fl l -> Fl (fset fl l (i :: fl l)) l' i' = upd (Fl fl) l i (Fl fl l i + 1) l' i'.
Proof.
  intros Hn. apply Fl_notin in Hn. destruct (Z.eq_dec l' l) as [->|Hl].
  - unfold Fl at 1. rewrite fset_eq. destruct (Z.eq_dec i' i) as [->|Hi].
    + rewrite upd_eq, Hn. rewrite bool_decide_eq_true_2; [done|left].
    + rewrite upd_ne by lia. apply Fl_iff. set_solver.
  - rewrite upd_ne by lia. unfold Fl. by rewrite fset_ne.
Qed.

Lemma Fl_fset_remove fl l i l1 l2 l' i' :
  fl l = l1 ++ i :: l2 -> NoDup (fl l) -> Fl (fset fl l (l1 ++ l2)) l' i' = upd (Fl fl) l i 0 l' i'.
Proof.
  intros He Hnd. destruct (Z.eq_dec l' l) as [->|Hl].
  - unfold Fl at 1. rewrite fset_eq. rewrite He in Hnd.
    apply NoDup_app in Hnd as (_ & Hd & Hnd). apply NoDup_cons in Hnd as [Hn _].
    destruct (Z.eq_dec i' i) as [->|Hi].
    + rewrite upd_eq, bool_decide_eq_false_2; [done|]. set_solver.
    + rewrite upd_ne by lia. unfold Fl. rewrite He. apply Fl_iff. set_solver.
  - rewrite upd_ne by lia. unfold Fl. by rewrite fset_ne.
Qed.

(** Setting or clearing one bit of a per-level bitmap. *)
Lemma bitmap_set arr l i l' i' :
  length arr = 7%nat -> valid l i -> valid l' i' ->
  Z.b2z (Z.testbit (znth (zupd arr l (bit_set (znth arr l) i)) l') i') =
  upd (fun l i => Z.b2z (Z.testbit (znth arr l) i)) l i 1 l' i'.
Proof.
  intros Hlen [Hl Hi] [Hl' Hi']. rewrite znth_zupd by (unfold TOP in *; lia). unfold upd.
  destruct (Z.eqb_spec l' l) as [->|]; [|done]. rewrite testbit_bit_set by lia.
  by destruct (i' =? i).
Qed.

Lemma bitmap_clear arr l i l' i' :
  length arr = 7%nat -> is_u64 (znth arr l) -> valid l i -> valid l' i' ->
  Z.b2z (Z.testbit (znth (zupd arr l (bit_clear (znth arr l) i)) l') i') =
  upd (fun l i => Z.b2z (Z.testbit (znth arr l) i)) l i 0 l' i'.
Proof.
  intros Hlen Hw [Hl Hi] [Hl' Hi']. rewrite znth_zupd by (unfold TOP in *; lia). unfold upd.
  destruct (Z.eqb_spec l' l) as [->|]; [|done]. rewrite testbit_bit_clear by (done || lia).
  by destruct (i' =? i).
Qed.

Lemma word_bit_set l i w : valid l i -> 0 <= w < 2 ^ 2 ^ (TOP - l) -> 0 <= bit_set w i < 2 ^ 2 ^ (TOP - l).
Proof.
  intros [Hl Hi] Hw. apply lor_range; [lia|done|]. rewrite Z.shiftl_1_l.
  split; [apply Z.pow_nonneg; lia|]. apply Z.pow_lt_mono_r; lia.
Qed.

Lemma word_bit_clear l i w : 0 <= w < 2 ^ 2 ^ (TOP - l) -> 0 <= bit_clear w i < 2 ^ 2 ^ (TOP - l).
Proof. intros Hw. apply land_range; [apply Z.pow_nonneg; lia|done|apply u64_range]. Qed.

(** Rewriting one word of a bitmap keeps the representation. *)
Lemma set_alloc_rep b mm fl l w :
  rep b mm fl -> level_ok l -> 0 <= w < 2 ^ 2 ^ (TOP - l) -> rep (set_alloc b l w) mm fl.
Proof.
  intros [] Hl Hw. constructor; try done; cbn; [by rewrite length_zupd|].
  intros k Hk. rewrite znth_zupd by (unfold level_ok, TOP in *; lia).
  destruct (Z.eqb_spec k l) as [->|]; [done|by apply r_alloc0].
Qed.

Lemma set_split_rep b mm fl l w :
  rep b mm fl -> level_ok l -> 0 <= w < 2 ^ 2 ^ (TOP - l) -> rep (set_split b l w) mm fl.
Proof.
  intros [] Hl Hw. constructor; try done; cbn; [by rewrite length_zupd|].
  intros k Hk. rewrite znth_zupd by (unfold level_ok, TOP in *; lia).
  destruct (Z.eqb_spec k l) as [->|]; [done|by apply r_split0].
Qed.

(** An occupied block that is on no free list is fresh. *)
Lemma occupied_fresh b mm fl A S hole l i :
  rep b mm fl -> tree (Fl fl) A S hole -> occupied (Fl fl) A hole l i -> i ∉ fl l -> fresh b fl l i.
Proof.
  intros R T O Hn. split; [done|]. intros l' i' Hl' Hne Hi' He.
  assert (O' : occupied (Fl fl) A hole l' i').
  { split; [by apply (r_valid _ _ _ R)|]. apply Fl_in in Hi'. rewrite Hi'.
    pose proof (t_A _ _ _ _ T l' i'). unfold hole_at. destruct hole as [[? ?]|]; [|lia].
    destruct (_ && _); lia. }
  pose proof O as [[Hl _] _].
  destruct (occupied_disjoint _ _ _ hole 12 l' i' l i ltac:(lia) T O' O); [congruence| |];
    unfold addr in He; pose proof (pow_level_bounds l Hl); pose proof (pow_level_bounds l' Hl'); lia.
Qed.

(** ** User data

    Free blocks and the block in hand are apart from the allocated ones, so no
    operation writes into an allocated block or outside the arena. *)

Definition in_arena (b : v8m_buddy) (a : Z) : Prop := b.(arena_base) <= a < b.(arena_base) + 2 ^ 18.
Definition off_limits (b : v8m_buddy) (a : Z) : Prop :=
  ~ in_arena b a \/ exists l i, valid l i /\ Al b l i = 1 /\ addr b l i <= a < addr b l i + 2 ^ (12 + l).
Definition quiet (b : v8m_buddy) (mm mm' : mem) : Prop := forall a, off_limits b a -> rd mm' a = rd mm a.

Lemma quiet_refl b mm : quiet b mm mm.
Proof. by intros a _. Qed.

Lemma quiet_trans b b' mm1 mm2 mm3 :
  b'.(alloc_bitmap) = b.(alloc_bitmap) -> b'.(arena_base) = b.(arena_base) ->
  quiet b mm1 mm2 -> quiet b' mm2 mm3 -> quiet b mm1 mm3.
Proof.
  intros Ha Hb H1 H2 a Ho. rewrite (H2 a), (H1 a); [done|done|].
  unfold off_limits, in_arena, Al, addr in *. by rewrite Ha, Hb.
Qed.

Lemma only_nodes_quiet b mm mm' F S hole l ns :
  tree F (Al b) S hole -> (forall x, x ∈ ns -> occupied F (Al b) hole l x /\ Al b l x = 0) ->
  only_nodes mm mm' (addr b l <$> ns) -> quiet b mm mm'.
Proof.
  intros T Hns Ho a Hoff. apply Ho. intros c (x & -> & Hx)%list_elem_of_fmap.
  destruct (Hns x Hx) as [O HA0]. pose proof O as [[Hl Hx2] _]. destruct Hoff as [Hout|(l' & i' & Hv' & HA & Hr)].
  { pose proof (level_capacity l Hl). pose proof (pow_level_bounds l Hl). unfold in_arena, addr in *. nia. }
  assert (O' : occupied F (Al b) hole l' i').
  { split; [done|]. pose proof (t_F _ _ _ _ T l' i'). unfold hole_at. destruct hole as [[? ?]|]; [|lia].
    destruct (_ && _); lia. }
  assert ((l', i') <> (l, x)) by (intros [= -> ->]; lia).
  destruct (occupied_disjoint _ _ _ hole 12 l' i' l x ltac:(lia) T O' O); [done|..];
    unfold addr in *; pose proof (pow_level_bounds l Hl); lia.
Qed.

(** Agreement on the arena is all the invariant needs. *)
Lemma state_frame b mm mm' fl hole :
  state b mm fl hole -> (forall a, in_arena b a -> rd mm' a = rd mm a) -> state b mm' fl hole.
Proof.
  intros [[] T] Ha. split; [|done]. constructor; try done. intros l Hl. apply (dll_agree mm); [by apply r_dll0|].
  intros a (i & -> & Hi)%list_elem_of_fmap. destruct (r_valid0 l i Hl Hi) as [_ Hi2].
  pose proof (level_capacity l Hl). pose proof (pow_level_bounds l Hl). unfold in_arena, addr in *. split; apply Ha; nia.
Qed.

(** The nodes of a free list are occupied and not allocated. *)
Lemma free_nodes b fl S hole l x :
  tree (Fl fl) (Al b) S hole -> valid l x -> x ∈ fl l -> occupied (Fl fl) (Al b) hole l x /\ Al b l x = 0.
Proof.
  intros T Hv Hx. apply Fl_in in Hx.
  assert (O : occupied (Fl fl) (Al b) hole l x).
  { split; [done|]. pose proof (t_A _ _ _ _ T l x). unfold hole_at. destruct hole as [[? ?]|]; [|lia].
    destruct (_ && _); lia. }
  split; [done|]. destruct (occupied_spec _ _ _ _ _ _ T O) as (_ & _ & _ & Hs).
  pose proof (t_A _ _ _ _ T l x). unfold hole_at in Hs. destruct hole as [[? ?]|]; [|lia].
  destruct (_ && _); lia.
Qed.

(** The program's stores into its blocks do not matter either. *)
Lemma node_in_reach b F S hole l x a :
  tree F (Al b) S hole -> occupied F (Al b) hole l x -> Al b l x = 0 -> addr b l x <= a < addr b l x + 2 ^ (12 + l) -> ~ off_limits b a.
Proof.
  intros T O HA0 Hx [Hout|(l' & i' & Hv' & HA & Hr)]; pose proof O as [[Hl Hx2] _].
  { pose proof (level_capacity l Hl). pose proof (pow_level_bounds l Hl). unfold in_arena, addr in *. nia. }
  assert (O' : occupied F (Al b) hole l' i').
  { split; [done|]. pose proof (t_F _ _ _ _ T l' i'). unfold hole_at. destruct hole as [[? ?]|]; [|lia].
    destruct (_ && _); lia. }
  assert ((l', i') <> (l, x)) by (intros [= -> ->]; lia).
  destruct (occupied_disjoint _ _ _ hole 12 l' i' l x ltac:(lia) T O' O); [done|..];
    unfold addr in *; pose proof (pow_level_bounds l Hl); lia.
Qed.

Lemma state_write b mm mm' fl hole :
  state b mm fl hole -> (forall a, ~ off_limits b a -> rd mm' a = rd mm a) -> state b mm' fl hole.
Proof.
  intros [R T] Ha. split; [|done]. pose proof R as []. constructor; try done. intros l Hl. apply (dll_agree mm); [by apply r_dll0|].
  intros a (i & -> & Hi)%list_elem_of_fmap. destruct (free_nodes b fl _ hole l i T (r_valid0 l i Hl Hi) Hi) as [O HA].
  pose proof (pow_level_bounds l Hl). split; apply Ha; eapply node_in_reach; try done; lia.
Qed.

Lemma list_quiet b mm mm' fl hole l :
  state b mm fl hole -> level_ok l -> only_nodes mm mm' (addr b l <$> fl l) -> quiet b mm mm'.
Proof.
  intros [R T] Hl Ho. eapply only_nodes_quiet; [exact T| |exact Ho].
  intros x Hx. eapply free_nodes; [done|by apply (r_valid _ _ _ R)|done].
Qed.

Lemma list_quiet_push b mm mm' fl l i :
  forall S hole, valid l i -> (forall x, x ∈ fl l -> valid l x) ->
  tree (Fl (fset fl l (i :: fl l))) (Al b) S hole ->
  only_nodes mm mm' (addr b l <$> (i :: fl l)) -> quiet b mm mm'.
Proof.
  intros S hole Hv Hvs T Ho. eapply only_nodes_quiet; [exact T| |exact Ho].
  intros x Hx. eapply free_nodes; [done| |by rewrite fset_eq].
  apply elem_of_cons in Hx as [->|Hx]; auto.
Qed.

(** ** Steps of the operations *)

Lemma state_in_hand b mm fl l i :
  state b mm fl (Some (l, i)) ->
  valid l i /\ (i ∉ fl l) /\ Al b l i = 0 /\ Sl b l i = 0 /\ exists_at (Sl b) l i = 1.
Proof. intros [R T]. apply tree_in_hand in T as (? & ?%Fl_notin & ?). done. Qed.

Lemma state_push b mm fl l i :
  state b mm fl (Some (l, i)) ->
  exists mm', push_level b mm l (addr b l i) = (set_free_list b l (addr b l i), mm') /\
    state (set_free_list b l (addr b l i)) mm' (fset fl l (i :: fl l)) None /\ quiet b mm mm'.
Proof.
  intros HS. pose proof (state_in_hand _ _ _ _ _ HS) as (Hv & Hn & _). destruct HS as [R T].
  destruct (push_level_rep b mm fl l i R Hv) as (mm' & He & R' & Ho).
  { eapply occupied_fresh; [done|exact T| |done]. split; [done|]. rewrite hole_eq.
    pose proof (t_F _ _ _ _ T l i). pose proof (t_A _ _ _ _ T l i). lia. }
  assert (T' : tree (Fl (fset fl l (i :: fl l))) (Al b) (Sl b) None).
  { eapply (tree_view (set_free_list b l (addr b l i)));
      [exact R'|exact (tree_push _ _ _ _ _ T)|..]; try done.
    intros l' i' _. by apply Fl_fset_push. }
  exists mm'. split; [done|]. split; [by split|].
  eapply (list_quiet_push b mm mm' fl l i); [done| |exact T'|done].
  intros x. apply (r_valid _ _ _ R). by destruct Hv.
Qed.

Lemma state_split b mm fl l i b1 :
  state b mm fl (Some (l, i)) -> 0 < l ->
  b1 = set_split b l (bit_set (znth b.(split_bitmap) l) i) ->
  exists mm', push_level b1 mm (l - 1) (addr b (l - 1) (2 * i + 1))
              = (set_free_list b1 (l - 1) (addr b (l - 1) (2 * i + 1)), mm') /\
    state (set_free_list b1 (l - 1) (addr b (l - 1) (2 * i + 1))) mm'
          (fset fl (l - 1) ((2 * i + 1) :: fl (l - 1))) (Some (l - 1, 2 * i)) /\ quiet b mm mm'.
Proof.
  intros HS Hl0 ->. pose proof (state_in_hand _ _ _ _ _ HS) as (Hv & _). destruct HS as [R T].
  pose proof Hv as [Hl _]. set (b1 := set_split _ _ _).
  assert (R1 : rep b1 mm fl) by (apply set_split_rep; [done|done|apply word_bit_set; [done|by apply (r_split _ _ _ R)]]).
  pose proof (tree_split _ _ _ _ _ T Hl0) as T'. pose proof (valid_child l i 1 Hv Hl0 ltac:(lia)) as Hvc.
  assert (HF0 : Fl fl (l - 1) (2 * i + 1) = 0).
  { pose proof (t_sum _ _ _ _ T _ _ Hvc) as Hs. rewrite hole_ne in Hs by lia.
    rewrite exists_at_below, child_parent in Hs by lia. replace (l - 1 + 1) with l in Hs by lia.
    pose proof (tree_in_hand _ _ _ _ _ T) as (_ & _ & _ & HS0 & _).
    pose proof (Fl_range fl (l - 1) (2 * i + 1)). pose proof (t_A _ _ _ _ T (l - 1) (2 * i + 1)).
    pose proof (t_S _ _ _ _ T (l - 1) (2 * i + 1)). lia. }
  pose proof HF0 as Hn%Fl_notin.
  assert (Hf : fresh b1 fl (l - 1) (2 * i + 1)).
  { split; [done|]. intros l' i' Hl' Hne Hi' He.
    destruct (occupied_disjoint _ _ _ _ 12 l' i' (l - 1) (2 * i + 1) ltac:(lia) T') as [H|H].
    - split; [by apply (r_valid _ _ _ R)|]. rewrite upd_ne by lia. apply Fl_in in Hi'. rewrite Hi', hole_ne by lia.
      pose proof (t_A _ _ _ _ T l' i'). lia.
    - split; [done|]. rewrite upd_eq, HF0. pose proof (t_A _ _ _ _ T (l - 1) (2 * i + 1)).
      rewrite hole_ne by lia. lia.
    - congruence.
    - unfold addr in He; pose proof (pow_level_bounds l' Hl'). cbn in He. lia.
    - unfold addr in He; pose proof (pow_level_bounds (l - 1) ltac:(lia)). cbn in He. lia. }
  destruct (push_level_rep b1 mm fl _ _ R1 Hvc Hf) as (mm' & He & R' & Ho).
  set (b2 := set_free_list b1 _ _) in *.
  assert (T'' : tree (Fl (fset fl (l - 1) ((2 * i + 1) :: fl (l - 1)))) (Al b2) (Sl b2) (Some (l - 1, 2 * i))).
  { eapply tree_view; [exact R'|exact T'|..]; try done.
    - intros l' i' _. by apply Fl_fset_push.
    - intros l' i' Hv'. apply bitmap_set; [by apply (r_splits _ _ _ R)|done|done]. }
  exists mm'. split; [exact He|]. split; [by split|].
  eapply (list_quiet_push b mm mm'); [done| |exact T''|exact Ho].
  intros x. apply (r_valid _ _ _ R). by destruct Hvc.
Qed.

Lemma state_take b mm fl l :
  state b mm fl None -> level_ok l -> znth b.(free_lists) l <> NULL ->
  exists mm' h' i L', fl l = i :: L' /\ list_pop mm (znth b.(free_lists) l) = (mm', h', addr b l i) /\
    state (set_free_list b l h') mm' (fset fl l L') (Some (l, i)) /\ quiet b mm mm'.
Proof.
  intros [R T] Hl Hh. pose proof (rep_NoDup _ _ _ _ R Hl) as Hnd.
  destruct (pop_level_rep b mm fl l R Hl Hh) as (mm' & h' & i & L' & Hfl & He & R' & Ho).
  exists mm', h', i, L'. split_and!; [done|done| |eapply (list_quiet b mm mm' fl None); [by split|done|done]].
  split; [done|].
  assert (Hi : i ∈ fl l) by (rewrite Hfl; left).
  eapply tree_view; [exact R'|apply (tree_take _ _ _ l i T)|..]; try done.
  - by apply (r_valid _ _ _ R).
  - by apply Fl_in.
  - intros l' i' _. by apply (Fl_fset_remove fl l i [] L').
Qed.

Lemma state_allocate b mm fl l i :
  state b mm fl (Some (l, i)) ->
  state (set_alloc b l (bit_set (znth b.(alloc_bitmap) l) i)) mm fl None.
Proof.
  intros HS. pose proof (state_in_hand _ _ _ _ _ HS) as (Hv & _). destruct HS as [R T]. pose proof Hv as [Hl _].
  assert (R' : rep (set_alloc b l (bit_set (znth b.(alloc_bitmap) l) i)) mm fl)
    by (apply set_alloc_rep; [done|done|apply word_bit_set; [done|by apply (r_alloc _ _ _ R)]]).
  split; [done|]. eapply tree_view; [exact R'|exact (tree_allocate _ _ _ _ _ T)|..]; try done.
  intros l' i' Hv'. apply bitmap_set; [by apply (r_allocs _ _ _ R)|done|done].
Qed.

Lemma state_deallocate b mm fl l i :
  state b mm fl None -> valid l i -> Al b l i = 1 ->
  state (set_alloc b l (bit_clear (znth b.(alloc_bitmap) l) i)) mm fl (Some (l, i)).
Proof.
  intros [R T] Hv HA. pose proof Hv as [Hl _].
  assert (R' : rep (set_alloc b l (bit_clear (znth b.(alloc_bitmap) l) i)) mm fl)
    by (apply set_alloc_rep; [done|done|apply word_bit_clear; by apply (r_alloc _ _ _ R)]).
  split; [done|]. eapply tree_view; [exact R'|exact (tree_deallocate _ _ _ _ _ T Hv HA)|..]; try done.
  intros l' i' Hv'. apply bitmap_clear; [by apply (r_allocs _ _ _ R)| |done|done].
  eapply word_u64; [exact Hl|]. by apply (r_alloc _ _ _ R).
Qed.

(** A free block goes in hand from anywhere in its list. *)
Lemma state_remove b mm fl l i :
  state b mm fl None -> level_ok l -> i ∈ fl l ->
  exists mm' h' l1 l2, fl l = l1 ++ i :: l2 /\
    remove_level b mm l (addr b l i) = (set_free_list b l h', mm') /\
    state (set_free_list b l h') mm' (fset fl l (l1 ++ l2)) (Some (l, i)) /\ quiet b mm mm'.
Proof.
  intros [R T] Hl Hi. pose proof (rep_NoDup _ _ _ _ R Hl) as Hnd.
  destruct (remove_level_rep b mm fl l i R Hl Hi) as (mm' & h' & l1 & l2 & Hfl & He & R' & Ho).
  exists mm', h', l1, l2.
  split_and!; [done|done| |eapply (list_quiet b mm mm' fl None); [by split|done|done]]. split; [done|].
  eapply tree_view; [exact R'|apply (tree_take _ _ _ l i T)|..]; try done.
  - by apply (r_valid _ _ _ R).
  - by apply Fl_in.
  - intros l' i' _. by apply Fl_fset_remove.
Qed.

(** Merging the block in hand with its sibling. *)
Lemma state_merge b mm fl l i :
  state b mm fl (Some (l, i)) -> l < TOP -> Al b l (Z.lxor i 1) = 0 -> Sl b l (Z.lxor i 1) = 0 ->
  exists mm' h' l1 l2, fl l = l1 ++ Z.lxor i 1 :: l2 /\
    remove_level b mm l (addr b l (Z.lxor i 1)) = (set_free_list b l h', mm') /\
    state (set_split (set_free_list b l h') (l + 1)
             (bit_clear (znth b.(split_bitmap) (l + 1)) (i / 2))) mm'
          (fset fl l (l1 ++ l2)) (Some (l + 1, i / 2)) /\ quiet b mm mm'.
Proof.
  intros HS Hlt HA0 HS0. pose proof (state_in_hand _ _ _ _ _ HS) as (Hv & _). destruct HS as [R T].
  pose proof Hv as [Hl _]. pose proof (valid_parent l i Hv Hlt) as Hvp. pose proof Hvp as [Hlp _].
  pose proof (rep_NoDup _ _ _ _ R Hl) as Hnd.
  pose proof (tree_sibling_free _ _ _ l i T Hlt HA0 HS0) as Hi%Fl_in.
  destruct (remove_level_rep b mm fl l _ R Hl Hi) as (mm' & h' & l1 & l2 & Hfl & He & R' & Ho).
  exists mm', h', l1, l2.
  split_and!; [done|done| |apply (list_quiet b mm mm' fl (Some (l, i)) l); [by split|done|done]].
  assert (R'' : rep (set_split (set_free_list b l h') (l + 1)
             (bit_clear (znth b.(split_bitmap) (l + 1)) (i / 2))) mm' (fset fl l (l1 ++ l2))).
  { apply set_split_rep; [done|done|]. apply word_bit_clear. by apply (r_split _ _ _ R). }
  split; [done|].
  eapply tree_view; [exact R''|exact (tree_merge _ _ _ l i T Hlt HA0 HS0)|..]; try done.
  - intros l' i' _. by apply Fl_fset_remove.
  - intros l' i' Hv'. apply bitmap_clear; [by apply (r_splits _ _ _ R)| |done|done].
    eapply word_u64; [exact Hlp|]. by apply (r_split _ _ _ R).
Qed.

(** ** Merged form *)

Definition coalesced (fl : Z -> list Z) : Prop :=
  forall l i, valid l i -> l < TOP -> i ∈ fl l -> Z.lxor i 1 ∉ fl l.

Lemma coalesced_sub fl fl' :
  (forall l i, level_ok l -> i ∈ fl' l -> i ∈ fl l) -> coalesced fl -> coalesced fl'.
Proof. intros Hs Hc l i Hv Hl Hi Hn. pose proof Hv as [Hk _]. apply (Hc l i); auto. Qed.

Lemma coalesced_push fl l i :
  valid l i -> (l < TOP -> Z.lxor i 1 ∉ fl l) -> coalesced fl -> coalesced (fset fl l (i :: fl l)).
Proof.
  intros Hv Hs Hc l' i' Hv' Hl'. destruct (Z.eq_dec l' l) as [->|]; [|rewrite fset_ne by done; by apply Hc].
  rewrite fset_eq. specialize (Hs Hl'). pose proof Hv as [_ Hi]. pose proof Hv' as [_ Hi'].
  destruct (sibling_parent i) as (_ & _ & Hne & Hinv); [lia|].
  destruct (sibling_parent i') as (_ & _ & Hne' & Hinv'); [lia|].
  intros [->|Hin]%elem_of_cons Hin2; apply elem_of_cons in Hin2 as [He|Hin2].
  - done.
  - done.
  - apply Hs. by rewrite <- He, Hinv'.
  - by apply (Hc l i').
Qed.

(** ** Loops *)

Lemma find_level_spec b fuel level :
  0 <= level <= 7 -> 7 - level <= Z.of_nat fuel ->
  level <= find_level fuel b level <= 7 /\
  (forall k, level <= k < find_level fuel b level -> znth b.(free_lists) k = NULL) /\
  (find_level fuel b level < 7 -> znth b.(free_lists) (find_level fuel b level) <> NULL).
Proof.
  revert level. induction fuel as [|fuel IH]; intros level Hl Hf; cbn [find_level].
  { split_and!; [lia|lia| |lia]. intros k Hk. lia. }
  change V8M_BUDDY_LEVELS with 7. destruct (Z.ltb_spec level 7); cbn [andb].
  - destruct (Z.eqb_spec (znth b.(free_lists) level) NULL) as [He|Hne].
    + destruct (IH (level + 1)) as (H1 & H2 & H3); [lia|lia|]. split_and!; [lia|lia| |done].
      intros k Hk. destruct (Z.eq_dec k level) as [->|]; [done|apply H2; lia].
    + split_and!; [lia|lia| |done]. intros k Hk. lia.
  - split_and!; [lia|lia| |lia]. intros k Hk. lia.
Qed.

(** Splitting down keeps the block's start and everything allocated. *)
Lemma split_down_spec fuel b mm fl l i target :
  state b mm fl (Some (l, i)) -> 0 <= target <= l -> l - target < Z.of_nat fuel ->
  exists b' mm' fl' i', split_down fuel b mm (addr b l i) l target = (b', mm') /\
    state b' mm' fl' (Some (target, i')) /\ addr b target i' = addr b l i /\
    b'.(alloc_bitmap) = b.(alloc_bitmap) /\ b'.(arena_base) = b.(arena_base) /\
    quiet b mm mm' /\ (coalesced fl -> coalesced fl').
Proof.
  revert b mm fl l i. induction fuel as [|fuel IH]; intros b mm fl l i HS Ht Hf; [lia|].
  cbn [split_down]. pose proof (state_in_hand _ _ _ _ _ HS) as (Hv & _). pose proof Hv as [Hl _].
  destruct (Z.ltb_spec target l) as [Hlt|Hge].
  - pose proof (r_geometry _ _ _ (proj1 HS)) as Hg. rewrite addr_to_index_addr by done.
    set (b1 := set_split b l _).
    destruct (state_split b mm fl l i b1 HS ltac:(lia) eq_refl) as (mm' & He & HS' & Hq).
    pose proof (valid_child l i 1 Hv ltac:(lia) ltac:(lia)) as Hvc.
    replace (i * 2 + 1) with (2 * i + 1) by lia.
    rewrite index_to_node_eq by done. change (addr b1) with (addr b). rewrite He.
    set (b2 := set_free_list b1 _ _) in *. rewrite <- (addr_left_child b l i) by lia.
    change (addr b (l - 1) (2 * i)) with (addr b2 (l - 1) (2 * i)).
    destruct (IH b2 mm' _ _ _ HS' ltac:(lia) ltac:(lia)) as (b' & mm'' & fl' & i' & He' & HS'' & Ha & Hal & Hb & Hq' & Hc).
    exists b', mm'', fl', i'. split_and!; [done|done|done|done|done| |].
    { by apply (quiet_trans b b2 mm mm' mm''). }
    intros Hco. apply Hc, coalesced_push; [done| |done]. intros _.
    pose proof (state_in_hand _ _ _ _ _ HS') as (_ & Hnf & _). rewrite fset_eq in Hnf.
    pose proof Hv as [_ Hi].
    destruct (sibling_spec (2 * i + 1)) as [[Hev _]|[_ ->]]; [lia| |].
    { by rewrite Z.even_add, Z.even_mul in Hev. }
    replace (2 * i + 1 - 1) with (2 * i) by lia. set_solver.
  - assert (target = l) as -> by lia. exists b, mm, fl, i. split_and!; done || apply quiet_refl.
Qed.

Lemma bit_state b mm fl l i : rep b mm fl -> valid l i ->
  bit_test (znth b.(alloc_bitmap) l) i = (Al b l i =? 1) /\
  bit_test (znth b.(split_bitmap) l) i = (Sl b l i =? 1).
Proof.
  intros R [Hl Hi]. unfold Al, Sl. rewrite !bit_test_testbit by lia.
  by destruct (Z.testbit (znth (alloc_bitmap b) l) i), (Z.testbit (znth (split_bitmap b) l) i).
Qed.

Lemma addr_merge b l i :
  0 <= l -> 0 <= i -> (if Z.lxor i 1 <? i then addr b l (Z.lxor i 1) else addr b l i) = addr b (l + 1) (i / 2).
Proof.
  intros Hl Hi. rewrite <- (addr_left_child b (l + 1)) by lia. replace (l + 1 - 1) with l by lia.
  pose proof (children_spec (i / 2) i eq_refl) as Hc.
  destruct (sibling_spec i Hi) as [[He ->]|[He ->]].
  - destruct (Z.ltb_spec (i + 1) i); [lia|]. f_equal.
    apply Z.even_spec in He as [k ->]. rewrite (Z.mul_comm 2), Z.div_mul by lia. lia.
  - destruct (Z.ltb_spec (i - 1) i); [|lia]. f_equal.
    destruct Hc as [Hc|Hc]; [|lia]. by rewrite Hc, Z.even_mul in He.
Qed.

(** The merge loop climbs to a block whose sibling is in use, or to the root.
    It leaves the free lists outside the climbed levels alone. *)
Lemma merge_loop_spec fuel b mm fl l i :
  state b mm fl (Some (l, i)) -> TOP - l < Z.of_nat fuel ->
  exists b' mm' fl' l' i', merge_loop fuel b mm (addr b l i) l i = (b', mm', addr b l' i', l') /\
    state b' mm' fl' (Some (l', i')) /\ l <= l' /\ quiet b mm mm' /\
    b'.(alloc_bitmap) = b.(alloc_bitmap) /\ b'.(arena_base) = b.(arena_base) /\
    (forall k x, x ∈ fl' k -> x ∈ fl k) /\
    (forall k, k < l \/ l' <= k -> fl' k = fl k) /\
    (l' < TOP -> Al b' l' (Z.lxor i' 1) = 1 \/ Sl b' l' (Z.lxor i' 1) = 1) /\
    (l < l' -> exists l1 l2, fl l = l1 ++ Z.lxor i 1 :: l2 /\ fl' l = l1 ++ l2) /\
    (l < TOP -> Al b l (Z.lxor i 1) = 0 -> Sl b l (Z.lxor i 1) = 0 -> l < l').
Proof.
  revert b mm fl l i. induction fuel as [|fuel IH]; intros b mm fl l i HS Hf;
    pose proof (state_in_hand _ _ _ _ _ HS) as (Hv & Hn & _); pose proof Hv as [Hl Hi]; [lia|].
  cbn [merge_loop]. change (V8M_BUDDY_LEVELS - 1) with TOP. destruct (Z.ltb_spec l TOP) as [Hlt|Hge].
  2: { exists b, mm, fl, l, i. split_and!; try done; lia || apply quiet_refl. }
  pose proof (valid_sibling l i Hv Hlt) as Hvs.
  destruct (bit_state b mm fl l _ (proj1 HS) Hvs) as [-> ->].
  pose proof (b2z_range (Z.testbit (znth (alloc_bitmap b) l) (Z.lxor i 1))) as HA01.
  pose proof (b2z_range (Z.testbit (znth (split_bitmap b) l) (Z.lxor i 1))) as HS01.
  fold (Al b l (Z.lxor i 1)) in HA01. fold (Sl b l (Z.lxor i 1)) in HS01.
  destruct (Z.eqb_spec (Al b l (Z.lxor i 1)) 1) as [HA|HA].
  { exists b, mm, fl, l, i. split_and!; try done; lia || apply quiet_refl. }
  destruct (Z.eqb_spec (Sl b l (Z.lxor i 1)) 1) as [HSp|HSp].
  { exists b, mm, fl, l, i. split_and!; try done; lia || apply quiet_refl. }
  destruct (state_merge b mm fl l i HS Hlt ltac:(lia) ltac:(lia)) as (mm' & h' & l1 & l2 & Hfl & He & HS' & Hq).
  rewrite index_to_node_eq by (done || apply (r_geometry _ _ _ (proj1 HS))). rewrite He.
  rewrite addr_merge by lia. rewrite Z.shiftr_div_pow2 by lia. change (2 ^ 1) with 2.
  change (znth (split_bitmap (set_free_list b l h')) (l + 1)) with (znth (split_bitmap b) (l + 1)).
  set (b2 := set_split _ _ _) in *.
  destruct (IH b2 mm' _ _ _ HS' ltac:(lia)) as
    (b' & mm'' & fl' & l' & i' & He' & HS'' & Hll & Hq' & Hal & Hb & Hsub & Heq & Hstop & _ & _).
  exists b', mm'', fl', l', i'. split_and!; try done; try lia.
  - by apply (quiet_trans b b2 mm mm' mm'').
  - intros k x Hx%Hsub. destruct (Z.eq_dec k l) as [->|]; [|by rewrite fset_ne in Hx].
    rewrite fset_eq in Hx. rewrite Hfl. set_solver.
  - intros k Hk. rewrite Heq by lia. rewrite fset_ne by lia. done.
  - intros _. exists l1, l2. split; [done|]. rewrite Heq by lia. apply fset_eq.
Qed.

End BuddyInv.
