(* ===== verification/BuddySpec.v ===== *)
(** What the buddy allocator promises ([src/v8m_buddy.h]): the effect of every
    operation on the set of allocated blocks, on user data and on the shape of
    the arena, proved from the steps of [BuddyInv]. *)

From S2P Require Import Prelude Dll BuddyTree Buddy BuddyInv.
Import Dll BuddyTree Buddy BuddyInv.

Module BuddySpec.

(** The block at level [l] with index [i] is allocated. *)
Definition allocated (b : v8m_buddy) (l i : Z) : Prop := valid l i /\ Al b l i = 1.

(** The arena invariant together with the merged form: no two free siblings. *)
Definition merged (b : v8m_buddy) (mm : mem) : Prop := exists fl, state b mm fl None /\ coalesced fl.

Lemma merged_inv b mm : merged b mm -> inv b mm.
Proof. intros (fl & H & _). by exists fl. Qed.

Lemma Al_bit_set b mm fl l i l' i' :
  rep b mm fl -> valid l i -> valid l' i' ->
  Al (set_alloc b l (bit_set (znth b.(alloc_bitmap) l) i)) l' i' = upd (Al b) l i 1 l' i'.
Proof. intros R Hv Hv'. apply bitmap_set; [by apply (r_allocs _ _ _ R)|done|done]. Qed.

Lemma Al_bit_clear b mm fl l i l' i' :
  rep b mm fl -> valid l i -> valid l' i' ->
  Al (set_alloc b l (bit_clear (znth b.(alloc_bitmap) l) i)) l' i' = upd (Al b) l i 0 l' i'.
Proof.
  intros R Hv Hv'. apply bitmap_clear; [by apply (r_allocs _ _ _ R)| |done|done].
  pose proof Hv as [Hl _]. eapply word_u64; [exact Hl|]. by apply (r_alloc _ _ _ R).
Qed.

(** ** Initialisation *)

Lemma valid_root i : valid TOP i <-> i = 0.
Proof. unfold valid, TOP. cbn. lia. Qed.

Lemma v8m_buddy_init_merged mm arena :
  0 < arena -> (V8M_BUDDY_MAX_BLOCK | arena) -> arena + V8M_BUDDY_MAX_BLOCK < 2 ^ 64 ->
  let '(b, mm') := v8m_buddy_init mm arena in
  merged b mm' /\ b.(arena_base) = arena /\ (forall l i, ~ allocated b l i) /\ quiet b mm mm'.
Proof.
  intros H0 Hd Hb. unfold v8m_buddy_init. set (b := MkBuddy _ _ _ _ _).
  assert (Hz : forall l, znth (replicate 7 0) l = 0).
  { intros l. apply (znth_Forall (fun x => x = 0)); [done|by repeat constructor]. }
  assert (R : rep b mm (fun _ => [])).
  { constructor; try done; cbn [alloc_bitmap split_bitmap free_lists b].
    - intros l _. rewrite Hz. lia.
    - intros l _. rewrite Hz. lia.
    - intros l _. unfold NULL. rewrite Hz. done.
    - set_solver.
    - set_solver. }
  assert (HA : forall l i, Al b l i = 0).
  { intros l i. unfold Al. cbn [alloc_bitmap b]. rewrite Hz. by rewrite Z.bits_0. }
  assert (HS : forall l i, Sl b l i = 0).
  { intros l i. unfold Sl. cbn [split_bitmap b]. rewrite Hz. by rewrite Z.bits_0. }
  assert (Hst : state b mm (fun _ => []) (Some (TOP, 0))).
  { split; [done|]. constructor.
    - intros l i Hv. rewrite HA, HS. unfold Fl. rewrite bool_decide_eq_false_2 by set_solver.
      unfold exists_at, hole_at. destruct (Z.eqb_spec l TOP) as [->|]; cbn [andb]; [|by rewrite HS].
      apply valid_root in Hv as ->. done.
    - intros l i. apply Fl_range.
    - intros l i. apply b2z_range.
    - intros l i. apply b2z_range.
    - intros i. apply HS.
    - intros l i [= <- <-]. by apply valid_root. }
  destruct (state_push _ _ _ _ _ Hst) as (mm' & He & Hst' & Hq).
  assert (Ha : addr b TOP 0 = arena) by (unfold addr; cbn; lia). rewrite Ha in *.
  change (V8M_BUDDY_LEVELS - 1) with TOP. rewrite He. split_and!; [|done| |exact Hq].
  - eexists. split; [exact Hst'|]. apply coalesced_push; [by apply valid_root|unfold TOP; lia|].
    intros l i _ _ Hin. set_solver.
  - intros l i [_ Hal]. change (Al (set_free_list b TOP arena) l i) with (Al b l i) in Hal.
    rewrite HA in Hal. done.
Qed.

(** ** Allocation *)

Lemma v8m_buddy_alloc_state b mm fl size :
  state b mm fl None -> 0 < size <= V8M_BUDDY_MAX_BLOCK ->
  let t := size_to_level size in
  level_ok t /\
  ((forall l, t <= l <= TOP -> znth b.(free_lists) l = NULL) /\ v8m_buddy_alloc b mm size = (b, mm, NULL) \/
   exists b' mm' fl' i, (exists l, t <= l <= TOP /\ znth b.(free_lists) l <> NULL) /\
     v8m_buddy_alloc b mm size = (b', mm', addr b t i) /\ state b' mm' fl' None /\
     valid t i /\ b'.(arena_base) = b.(arena_base) /\ Al b t i = 0 /\
     (forall l' i', valid l' i' -> Al b' l' i' = upd (Al b) t i 1 l' i') /\
     quiet b mm mm' /\ (coalesced fl -> coalesced fl')).
Proof.
  intros HS Hsz t. change V8M_BUDDY_MAX_BLOCK with (2 ^ 18) in Hsz.
  destruct (size_to_level_spec size ltac:(lia)) as (Hr & _).
  assert (Hlt : t < 7).
  { destruct (Z.lt_ge_cases t 7) as [|Hge]; [done|].
    apply (proj1 (size_to_level_large size ltac:(lia))) in Hge. change V8M_BUDDY_MAX_BLOCK with (2 ^ 18) in Hge. lia. }
  assert (Ht : level_ok t) by (unfold level_ok, TOP, t in *; lia). split; [done|].
  unfold v8m_buddy_alloc. fold t. destruct (Z.eqb_spec size 0); [lia|].
  change V8M_BUDDY_LEVELS with 7. destruct (Z.leb_spec 7 t); [lia|].
  destruct (find_level_spec b 7 t ltac:(lia) ltac:(lia)) as (Hb1 & Hnull & Hnn).
  set (level := find_level 7 b t) in *. destruct (Z.leb_spec 7 level) as [Hge|Hl7].
  { left. split; [|done]. intros l Hl. apply Hnull. unfold TOP in *. lia. }
  right. specialize (Hnn Hl7).
  assert (Hlv : level_ok level) by (unfold level_ok, TOP, t in *; lia).
  destruct (state_take b mm fl level HS Hlv Hnn) as (mm1 & h1 & i1 & L1 & Hfl & He & HS1 & Hq1).
  rewrite He. set (b1 := set_free_list b level h1) in *.
  change (addr b level i1) with (addr b1 level i1).
  destruct (split_down_spec 7 b1 mm1 _ level i1 t HS1) as (b2 & mm2 & fl2 & i2 & He2 & HS2 & Ha & Hal & Hbs & Hq2 & Hc);
    [lia|unfold level_ok, TOP in *; lia|].
  rewrite He2. pose proof (state_in_hand _ _ _ _ _ HS2) as (Hv2 & _ & HA2 & _).
  rewrite <- Ha. replace (addr b1 t i2) with (addr b2 t i2) by (unfold addr; by rewrite Hbs).
  rewrite addr_to_index_addr by (done || apply (r_geometry _ _ _ (proj1 HS2))).
  pose proof (state_allocate _ _ _ _ _ HS2) as HS3.
  assert (HAl : forall l' i', Al b2 l' i' = Al b l' i') by (intros; unfold Al; by rewrite Hal).
  eexists _, _, fl2, i2. split_and!; [by exists level; unfold TOP; split; [lia|]| |exact HS3|done| |by rewrite <- HAl| | |].
  - unfold addr. by rewrite Hbs.
  - exact Hbs.
  - intros l' i' Hv'. rewrite (Al_bit_set b2 mm2 fl2) by (done || apply HS2).
    unfold upd. destruct (_ && _); [done|apply HAl].
  - by apply (quiet_trans b b1 mm mm1 mm2).
  - intros Hco. apply Hc. eapply coalesced_sub; [|exact Hco]. intros k x _ Hx. unfold fset in Hx.
    destruct (Z.eqb_spec k level) as [->|]; [|done]. rewrite Hfl. by right.
Qed.

(** ** Freeing *)

(** A block marked allocated or split is on no free list. *)
Lemma in_use_not_free b mm fl hole l i :
  state b mm fl hole -> valid l i -> Al b l i = 1 \/ Sl b l i = 1 -> i ∉ fl l.
Proof.
  intros [R T] Hv Hu. apply Fl_notin. pose proof (t_sum _ _ _ _ T l i Hv) as Hs.
  pose proof (Fl_range fl l i). pose proof (t_A _ _ _ _ T l i). pose proof (t_S _ _ _ _ T l i).
  pose proof (t_S _ _ _ _ T (l + 1) (i / 2)).
  assert (0 <= hole_at hole l i) by (unfold hole_at; destruct hole as [[? ?]|]; [destruct (_ && _)|]; lia).
  unfold exists_at in Hs. destruct (l =? TOP); lia.
Qed.

Lemma coalesce_upward_state b mm fl l i :
  state b mm fl (Some (l, i)) ->
  exists b' mm' fl' l', coalesce_upward b mm (addr b l i) l = (b', mm', l') /\
    state b' mm' fl' None /\ l <= l' <= TOP /\
    b'.(alloc_bitmap) = b.(alloc_bitmap) /\ b'.(arena_base) = b.(arena_base) /\ quiet b mm mm' /\
    (coalesced fl -> coalesced fl') /\ (forall k, k < l -> fl' k = fl k) /\
    (l < TOP -> Al b l (Z.lxor i 1) = 0 -> Sl b l (Z.lxor i 1) = 0 ->
     exists l1 l2, fl l = l1 ++ Z.lxor i 1 :: l2 /\ fl' l = l1 ++ l2).
Proof.
  intros HS. pose proof (state_in_hand _ _ _ _ _ HS) as (Hv & _). pose proof Hv as [Hl _].
  unfold coalesce_upward. rewrite addr_to_index_addr by (done || apply (r_geometry _ _ _ (proj1 HS))).
  destruct (merge_loop_spec 7 b mm fl l i HS ltac:(unfold TOP in *; lia)) as
    (b1 & mm1 & fl1 & l1 & i1 & He & HS1 & Hll & Hq & Hal & Hb & Hsub & Heq & Hstop & Hrem & Hgo).
  rewrite He. pose proof (state_in_hand _ _ _ _ _ HS1) as (Hv1 & _). pose proof Hv1 as [Hl1 _].
  destruct (state_push _ _ _ _ _ HS1) as (mm2 & He2 & HS2 & Hq2).
  replace (addr b l1 i1) with (addr b1 l1 i1) by (unfold addr; by rewrite Hb). rewrite He2.
  eexists _, mm2, _, l1. split_and!; [reflexivity|exact HS2|lia|lia|done|done|by apply (quiet_trans b b1 mm mm1 mm2)|..].
  - intros Hco. apply coalesced_push; [done| |by apply (coalesced_sub fl); auto].
    intros Hlt. eapply in_use_not_free; [exact HS1|by apply valid_sibling|auto].
  - intros k Hk. rewrite fset_ne by lia. apply Heq. lia.
  - intros Hlt HA0 HS0. specialize (Hgo Hlt HA0 HS0). destruct (Hrem Hgo) as (x1 & x2 & E1 & E2).
    exists x1, x2. split; [done|]. by rewrite fset_ne by lia.
Qed.

(** [v8m_buddy_free] of an allocated block. *)
Lemma v8m_buddy_free_state b mm fl l i size :
  state b mm fl None -> allocated b l i -> size_to_level size = l ->
  exists b' mm' fl', v8m_buddy_free b mm (addr b l i) size = (b', mm') /\ state b' mm' fl' None /\
    b'.(arena_base) = b.(arena_base) /\
    (forall l' i', valid l' i' -> Al b' l' i' = upd (Al b) l i 0 l' i') /\
    quiet b' mm mm' /\ (coalesced fl -> coalesced fl').
Proof.
  intros HS [Hv HA] Hsz. pose proof Hv as [Hl _]. pose proof (r_geometry _ _ _ (proj1 HS)) as Hg.
  unfold v8m_buddy_free. destruct (Z.eqb_spec (addr b l i) NULL) as [E|_]; [by destruct (addr_not_null b l i Hg Hv)|].
  rewrite Hsz. change V8M_BUDDY_LEVELS with 7. destruct (Z.leb_spec 7 l); [unfold TOP in *; lia|].
  rewrite addr_to_index_addr by done.
  pose proof (state_deallocate _ _ _ _ _ HS Hv HA) as HS1. set (b1 := set_alloc b l _) in *.
  change (addr b l i) with (addr b1 l i).
  destruct (coalesce_upward_state _ _ _ _ _ HS1) as (b2 & mm2 & fl2 & l2 & He & HS2 & _ & Hal & Hb & Hq & Hc & _).
  rewrite He. assert (HAl : forall l' i', Al b2 l' i' = Al b1 l' i') by (intros; unfold Al; by rewrite Hal).
  exists b2, mm2, fl2. split_and!; [done|done|done| | |done].
  - intros l' i' Hv'. rewrite HAl. apply (Al_bit_clear b mm fl); [apply HS|done|done].
  - intros a Ha. apply Hq. unfold off_limits, in_arena, addr, Al in *. by rewrite <- Hal, <- Hb.
Qed.

Lemma v8m_buddy_free_no_coalesce_state b mm fl l i size :
  state b mm fl None -> allocated b l i -> size_to_level size = l ->
  exists b' mm' fl', v8m_buddy_free_no_coalesce b mm (addr b l i) size = (b', mm') /\
    state b' mm' fl' None /\ b'.(arena_base) = b.(arena_base) /\
    (forall l' i', valid l' i' -> Al b' l' i' = upd (Al b) l i 0 l' i') /\
    quiet b' mm mm' /\ b'.(split_bitmap) = b.(split_bitmap).
Proof.
  intros HS [Hv HA] Hsz. pose proof Hv as [Hl _]. pose proof (r_geometry _ _ _ (proj1 HS)) as Hg.
  unfold v8m_buddy_free_no_coalesce.
  destruct (Z.eqb_spec (addr b l i) NULL) as [E|_]; [by destruct (addr_not_null b l i Hg Hv)|].
  rewrite Hsz. change V8M_BUDDY_LEVELS with 7. destruct (Z.leb_spec 7 l); [unfold TOP in *; lia|].
  rewrite addr_to_index_addr by done.
  pose proof (state_deallocate _ _ _ _ _ HS Hv HA) as HS1. set (b1 := set_alloc b l _) in *.
  change (addr b l i) with (addr b1 l i).
  destruct (state_push _ _ _ _ _ HS1) as (mm2 & He & HS2 & Hq). rewrite He.
  eexists _, mm2, _. split_and!; [reflexivity|exact HS2|done| |exact Hq|done].
  intros l' i' Hv'. apply (Al_bit_clear b mm fl); [apply HS|done|done].
Qed.

(** ** On-demand coalescing *)

Definition coalesced_at (fl : Z -> list Z) (l : Z) : Prop :=
  forall i, i ∈ fl l -> Z.lxor i 1 ∉ fl l.

Definition first (l : list Z) : Z := match l with [] => NULL | a :: _ => a end.

(** The [next] of a node is the head of the rest of the list. *)
Lemma dll_next mm p h l1 a l2 : dll mm p h (l1 ++ a :: l2) -> node_next mm a = first l2.
Proof.
  intros (e & q & _ & H)%dll_app. cbn in H. destruct H as (-> & _ & _ & H).
  destruct l2; cbn in *; [done|]. by destruct H as (-> & _).
Qed.

Lemma dll_head_eq mm p h l : dll mm p h l -> h = first l.
Proof. destruct l; cbn; [done|]. by intros (-> & _). Qed.

Lemma free_list_length b mm fl l : rep b mm fl -> level_ok l -> (length (fl l) <= 64)%nat.
Proof.
  intros R Hl. change 64%nat with (length (seqZ 0 64)). apply submseteq_length, NoDup_submseteq.
  - by eapply rep_NoDup.
  - intros x Hx. apply elem_of_seqZ. pose proof (r_valid _ _ _ R l x Hl Hx) as Hv%valid_index. lia.
Qed.

(** What one level's walk and the whole sweep establish. *)
Record swept (level : Z) (b : v8m_buddy) (mm : mem) (fl : Z -> list Z)
    (b' : v8m_buddy) (mm' : mem) (fl' : Z -> list Z) : Prop := {
  s_state : state b' mm' fl' None;
  s_alloc : b'.(alloc_bitmap) = b.(alloc_bitmap);
  s_base : b'.(arena_base) = b.(arena_base);
  s_quiet : quiet b mm mm';
  s_below : forall k, k < level -> fl' k = fl k
}.

Lemma swept_trans l1 l2 b1 mm1 fl1 b2 mm2 fl2 b3 mm3 fl3 :
  l1 <= l2 -> swept l1 b1 mm1 fl1 b2 mm2 fl2 -> swept l2 b2 mm2 fl2 b3 mm3 fl3 ->
  swept l1 b1 mm1 fl1 b3 mm3 fl3.
Proof.
  intros Hl [] []. constructor; [done|congruence|congruence|by apply (quiet_trans b1 b2 mm1 mm2 mm3)|].
  intros k Hk. rewrite s_below1 by lia. by apply s_below0.
Qed.

Lemma swept_refl level b mm fl : state b mm fl None -> swept level b mm fl b mm fl.
Proof. intros H. constructor; done || apply quiet_refl. Qed.

(** One merge of the walk: the node and its sibling leave the level. *)
Lemma walk_merge b mm fl level i :
  state b mm fl None -> 0 <= level < TOP -> i ∈ fl level ->
  Al b level (Z.lxor i 1) = 0 -> Sl b level (Z.lxor i 1) = 0 ->
  exists b1 mm1 b2 mm2 fl2 l', remove_level b mm level (addr b level i) = (b1, mm1) /\
    coalesce_upward b1 mm1 (addr b level i) level = (b2, mm2, l') /\
    swept level b mm fl b2 mm2 fl2 /\ length (fl level) = (2 + length (fl2 level))%nat /\ (Z.lxor i 1) ∈ fl level.
Proof.
  intros HS Hl Hi HA0 HS0. assert (Hlv : level_ok level) by (unfold level_ok; lia).
  destruct (state_remove b mm fl level i HS Hlv Hi) as (mm1 & h1 & x1 & x2 & Hfl & He & HS1 & Hq1).
  destruct (coalesce_upward_state _ _ _ _ _ HS1) as
    (b2 & mm2 & fl2 & l2 & He2 & HS2 & _ & Hal & Hb & Hq & _ & Hbelow & Hrem).
  destruct (Hrem ltac:(lia) HA0 HS0) as (y1 & y2 & E1 & E2). rewrite fset_eq in E1.
  eexists _, mm1, b2, mm2, fl2, l2. split_and!; [exact He|exact He2| | |].
  - constructor; [done|done|done| |].
    + by apply (quiet_trans b (set_free_list b level h1) mm mm1 mm2).
    + intros k Hk. rewrite Hbelow by done. rewrite fset_ne by lia. done.
  - apply (f_equal length) in E1. rewrite E2, Hfl. rewrite !length_app in *. cbn [length] in *. lia.
  - rewrite Hfl. assert (Z.lxor i 1 ∈ x1 ++ x2) by (rewrite E1; set_solver). set_solver.
Qed.

Lemma coalesce_walk_spec fuel b mm fl level vis rest merges :
  state b mm fl None -> 0 <= level < TOP -> fl level = vis ++ rest ->
  (forall x, x ∈ vis -> Z.lxor x 1 ∉ fl level) ->
  (length (fl level) * 65 + length rest < fuel)%nat ->
  exists b' mm' fl' merges', coalesce_walk fuel b mm level (first (addr b level <$> rest)) merges
      = Some (b', mm', merges') /\
    swept level b mm fl b' mm' fl' /\ coalesced_at fl' level /\
    (coalesced_at fl level -> b' = b /\ mm' = mm /\ merges' = merges).
Proof.
  revert b mm fl vis rest merges. induction fuel as [|fuel IH]; intros b mm fl vis rest merges HS Hl Hfl Hvis Hf; [lia|].
  assert (Hlv : level_ok level) by (unfold level_ok; lia). pose proof (r_geometry _ _ _ (proj1 HS)) as Hg.
  destruct rest as [|i rest]; cbn [coalesce_walk].
  { rewrite app_nil_r in Hfl. cbn [fmap list_fmap first]. rewrite Z.eqb_refl.
    exists b, mm, fl, merges. split_and!; [done|by apply swept_refl| |done]. intros x Hx. apply Hvis. by rewrite <- Hfl. }
  assert (Hi : i ∈ fl level) by (rewrite Hfl; set_solver).
  pose proof (r_valid _ _ _ (proj1 HS) level i Hlv Hi) as Hv. pose proof (valid_sibling level i Hv ltac:(lia)) as Hvs.
  cbn [fmap list_fmap first].
  destruct (Z.eqb_spec (addr b level i) NULL) as [E|_]; [by destruct (addr_not_null b level i Hg Hv)|].
  rewrite addr_to_index_addr by done. destruct (bit_state b mm fl level _ (proj1 HS) Hvs) as [-> ->].
  pose proof (t_A _ _ _ _ (proj2 HS) level (Z.lxor i 1)). pose proof (t_S _ _ _ _ (proj2 HS) level (Z.lxor i 1)).
  destruct (decide (Al b level (Z.lxor i 1) = 1 \/ Sl b level (Z.lxor i 1) = 1)) as [Hu|Hu].
  - assert (negb (Al b level (Z.lxor i 1) =? 1) && negb (Sl b level (Z.lxor i 1) =? 1) = false) as ->.
    { destruct Hu as [-> | ->]; [done|apply andb_false_r]. }
    pose proof (r_dll _ _ _ (proj1 HS) level Hlv) as Hd. rewrite Hfl, fmap_app, fmap_cons in Hd.
    rewrite (dll_next _ _ _ _ _ _ Hd).
    apply (IH b mm fl (vis ++ [i]) rest); try done.
    + by rewrite <- app_assoc.
    + intros x Hx. apply elem_of_app in Hx as [Hx|Hx]; [by apply Hvis|]. apply list_elem_of_singleton in Hx as ->.
      by eapply in_use_not_free.
    + cbn [length] in Hf. lia.
  - assert (negb (Al b level (Z.lxor i 1) =? 1) && negb (Sl b level (Z.lxor i 1) =? 1) = true) as ->.
    { destruct (Z.eqb_spec (Al b level (Z.lxor i 1)) 1), (Z.eqb_spec (Sl b level (Z.lxor i 1)) 1); tauto. }
    destruct (walk_merge b mm fl level i HS Hl Hi ltac:(lia) ltac:(lia)) as
      (b1 & mm1 & b2 & mm2 & fl2 & l' & He1 & He2 & Hsw & Hlen & Hsib).
    rewrite He1, He2. pose proof (s_state _ _ _ _ _ _ _ Hsw) as HS2.
    rewrite (dll_head_eq _ _ _ _ (r_dll _ _ _ (proj1 HS2) level Hlv)).
    pose proof (free_list_length b2 mm2 fl2 level (proj1 HS2) Hlv).
    destruct (IH b2 mm2 fl2 [] (fl2 level) (u64 (merges + 1))) as (b' & mm' & fl' & m' & He & Hsw' & Hco & _);
      [done|done|done|set_solver|lia|].
    exists b', mm', fl', m'. split_and!; [done|by eapply (swept_trans level level)|done|].
    intros Hcat. by destruct (Hcat i Hi).
Qed.

Lemma coalesce_levels_spec n level b mm fl merges :
  state b mm fl None -> 0 <= level -> level + Z.of_nat n = TOP ->
  (forall k, 0 <= k < level -> coalesced_at fl k) ->
  exists b' mm' fl' merges', coalesce_levels (seqZ level (Z.of_nat n)) b mm merges = Some (b', mm', merges') /\
    swept level b mm fl b' mm' fl' /\ (forall k, 0 <= k < TOP -> coalesced_at fl' k) /\
    ((forall k, 0 <= k < TOP -> coalesced_at fl k) -> b' = b /\ mm' = mm /\ merges' = merges).
Proof.
  revert level b mm fl merges. induction n as [|n IH]; intros level b mm fl merges HS Hl Hn Hlow.
  { exists b, mm, fl, merges. split_and!; [done|by apply swept_refl| |done]. intros k Hk. apply Hlow. lia. }
  assert (Hlv : level_ok level) by (unfold level_ok; lia).
  rewrite seqZ_cons by lia. replace (Z.pred (Z.of_nat (S n))) with (Z.of_nat n) by lia. cbn [coalesce_levels].
  pose proof (free_list_length b mm fl level (proj1 HS) Hlv).
  rewrite (dll_head_eq _ _ _ _ (r_dll _ _ _ (proj1 HS) level Hlv)).
  destruct (coalesce_walk_spec walk_fuel b mm fl level [] (fl level) merges HS) as
    (b1 & mm1 & fl1 & m1 & He & Hsw & Hco & Hid); [lia|done|set_solver|unfold walk_fuel; lia|].
  rewrite He. destruct (IH (Z.succ level) b1 mm1 fl1 m1) as (b2 & mm2 & fl2 & m2 & He2 & Hsw2 & Hco2 & Hid2).
  - apply (s_state _ _ _ _ _ _ _ Hsw).
  - lia.
  - lia.
  - intros k Hk. destruct (Z.eq_dec k level) as [->|]; [done|]. unfold coalesced_at.
    rewrite (s_below _ _ _ _ _ _ _ Hsw) by lia. apply Hlow. lia.
  - exists b2, mm2, fl2, m2. split_and!; [done|by apply (swept_trans level (Z.succ level) b mm fl b1 mm1 fl1); [lia|..]|done|].
    intros Hall. destruct (Hid (Hall level ltac:(lia))) as (-> & -> & ->).
    destruct (Hid2) as (-> & -> & ->); [|done].
    intros k Hk x Hx. pose proof (chain_det _ _ _ _ (dll_chain _ _ _ _ (r_dll _ _ _ (proj1 HS) k ltac:(unfold level_ok; lia)))
      (dll_chain _ _ _ _ (r_dll _ _ _ (proj1 (s_state _ _ _ _ _ _ _ Hsw)) k ltac:(unfold level_ok; lia)))) as Hfeq.
    apply list_fmap_eq_inj in Hfeq; [|intros ? ?; apply addr_inj; lia]. rewrite <- Hfeq in *. by apply Hall.
Qed.

(** ** Canonicity *)

(** The block is a node of its level's free list, as memory shows it. *)
Definition on_free_list (b : v8m_buddy) (mm : mem) (l i : Z) : Prop :=
  exists L, dll mm NULL (znth b.(free_lists) l) L /\ addr b l i ∈ L.

Lemma on_free_list_iff b mm fl hole l i :
  state b mm fl hole -> level_ok l -> on_free_list b mm l i <-> i ∈ fl l.
Proof.
  intros [R _] Hl. pose proof (r_dll _ _ _ R l Hl) as Hd. split.
  - intros (L & HL & Hin). apply dll_chain in HL, Hd. rewrite (chain_det _ _ _ _ HL Hd) in Hin.
    apply list_elem_of_fmap in Hin as (j & He & Hj). apply addr_inj in He; [by subst|]. unfold level_ok in Hl. lia.
  - intros Hi. exists (addr b l <$> fl l). split; [done|]. apply list_elem_of_fmap. by exists i.
Qed.

Lemma bitmap_ext (w1 w2 : list Z) :
  length w1 = 7%nat -> length w2 = 7%nat ->
  (forall l, level_ok l -> 0 <= znth w1 l < 2 ^ 2 ^ (TOP - l)) ->
  (forall l, level_ok l -> 0 <= znth w2 l < 2 ^ 2 ^ (TOP - l)) ->
  (forall l i, valid l i -> Z.testbit (znth w1 l) i = Z.testbit (znth w2 l) i) -> w1 = w2.
Proof.
  intros L1 L2 R1 R2 Hb. apply list_eq. intros n. destruct (decide (n < 7)%nat) as [Hn|Hn].
  2: { rewrite !lookup_ge_None_2 by lia. done. }
  destruct (lookup_lt_is_Some_2 w1 n ltac:(lia)) as [x Hx], (lookup_lt_is_Some_2 w2 n ltac:(lia)) as [y Hy].
  rewrite Hx, Hy. f_equal. set (l := Z.of_nat n).
  assert (Hl : level_ok l) by (unfold level_ok, TOP; lia). specialize (R1 l Hl). specialize (R2 l Hl).
  assert (znth w1 l = x) as E1 by (unfold znth, l; by rewrite Nat2Z.id, Hx).
  assert (znth w2 l = y) as E2 by (unfold znth, l; by rewrite Nat2Z.id, Hy).
  rewrite <- E1, <- E2. apply Z.bits_inj'. intros j Hj.
  destruct (Z.lt_ge_cases j (2 ^ (TOP - l))); [apply Hb; split; [done|lia]|].
  rewrite !(testbit_high _ (2 ^ (TOP - l))); done || (split; [apply Z.pow_nonneg|]; lia).
Qed.

Lemma coalesced_Fl fl : coalesced fl -> coalesced_from (Fl fl) 0.
Proof.
  intros Hc l i Hv Hl. destruct (decide (i ∈ fl l)) as [Hi|Hi]; [right|left]; apply Fl_notin; [|done].
  apply Hc; [done|lia|done].
Qed.

(** Two merged arenas with the same allocated blocks have the same bitmaps and
    the same free blocks. *)
Lemma merged_canonical b1 mm1 b2 mm2 :
  merged b1 mm1 -> merged b2 mm2 -> (forall l i, valid l i -> Al b2 l i = Al b1 l i) ->
  b2.(alloc_bitmap) = b1.(alloc_bitmap) /\ b2.(split_bitmap) = b1.(split_bitmap) /\
  (forall l i, valid l i -> on_free_list b2 mm2 l i <-> on_free_list b1 mm1 l i).
Proof.
  intros (fl1 & S1 & C1) (fl2 & S2 & C2) HA.
  assert (Ha : b2.(alloc_bitmap) = b1.(alloc_bitmap)).
  { destruct S1 as [R1 _], S2 as [R2 _].
    apply bitmap_ext; [apply R2|apply R1|apply R2|apply R1|]. intros l i Hv. specialize (HA l i Hv).
    unfold Al in HA. by apply Z.b2z_inj in HA. }
  assert (T2 : tree (Fl fl2) (Al b1) (Sl b2) None).
  { destruct S2 as [_ T2]. unfold Al in *. by rewrite Ha in T2. }
  destruct (coalesced_unique _ _ _ _ _ (proj2 S1) (coalesced_Fl _ C1) T2 (coalesced_Fl _ C2)) as [HSl HFl].
  split_and!; [done| |].
  - destruct S1 as [R1 _], S2 as [R2 _].
    apply bitmap_ext; [apply R2|apply R1|apply R2|apply R1|]. intros l i Hv. specialize (HSl l i Hv).
    by apply Z.b2z_inj in HSl.
  - intros l i Hv. pose proof Hv as [Hl _]. rewrite !(on_free_list_iff _ _ _ None l i) by done.
    rewrite <- !Fl_in, HFl by done. done.
Qed.

(** ** Queries *)

Lemma allocated_bit b mm l i : inv b mm -> valid l i ->
  bit_test (znth b.(alloc_bitmap) l) i = true <-> allocated b l i.
Proof.
  intros (fl & HS) Hv. destruct (bit_state b mm fl l i (proj1 HS) Hv) as [-> _].
  rewrite Z.eqb_eq. unfold allocated. tauto.
Qed.

Lemma is_empty_spec b mm : inv b mm -> v8m_buddy_is_empty b = true <-> (forall l i, ~ allocated b l i).
Proof.
  intros (fl & HS). unfold v8m_buddy_is_empty. rewrite forallb_forall. split.
  - intros H l i [Hv HA]. pose proof Hv as [Hl _]. specialize (H l). rewrite <- list_elem_of_In in H.
    rewrite elem_of_seqZ, Z.eqb_eq in H. unfold Al in HA. rewrite H, Z.bits_0 in HA; [done|].
    change V8M_BUDDY_LEVELS with 7. unfold TOP in *. lia.
  - intros H l Hl. rewrite <- list_elem_of_In, elem_of_seqZ in Hl. change V8M_BUDDY_LEVELS with 7 in Hl.
    apply Z.eqb_eq, Z.bits_inj'. intros j Hj. rewrite Z.bits_0.
    pose proof (r_alloc _ _ _ (proj1 HS) l ltac:(unfold level_ok, TOP; lia)) as Hw.
    destruct (Z.lt_ge_cases j (2 ^ (TOP - l))) as [Hlt|Hge].
    + destruct (Z.testbit (znth (alloc_bitmap b) l) j) eqn:E; [|done]. destruct (H l j).
      split; [split; unfold TOP in *; lia|]. unfold Al. by rewrite E.
    + apply (testbit_high _ (2 ^ (TOP - l))); [|done]. split; [apply Z.pow_nonneg|]; lia.
Qed.

(** Different allocated blocks are disjoint. *)
Lemma allocated_disjoint b mm l i l' i' :
  inv b mm -> allocated b l i -> allocated b l' i' -> (l, i) <> (l', i') ->
  addr b l i + 2 ^ (12 + l) <= addr b l' i' \/ addr b l' i' + 2 ^ (12 + l') <= addr b l i.
Proof.
  intros (fl & R & T) [Hv HA] [Hv' HA'] Hne.
  destruct (occupied_disjoint _ _ _ None 12 l i l' i' ltac:(lia) T) as [H|H]; [| |done| |].
  - split; [done|]. rewrite HA. pose proof (Fl_range fl l i). cbn. lia.
  - split; [done|]. rewrite HA'. pose proof (Fl_range fl l' i'). cbn. lia.
  - left. unfold addr. lia.
  - right. unfold addr. lia.
Qed.

(** The level-[l] block around an address of the arena. *)
Lemma index_around b l p :
  geometry b -> level_ok l -> b.(arena_base) <= p < b.(arena_base) + 2 ^ 18 ->
  valid l (addr_to_index b p l) /\
  addr b l (addr_to_index b p l) <= p < addr b l (addr_to_index b p l) + 2 ^ (12 + l).
Proof.
  intros Hg Hl Hp. set (i := (p - b.(arena_base)) / 2 ^ (12 + l)).
  pose proof (pow_level_bounds l Hl). pose proof (level_capacity l Hl).
  pose proof (Z.div_mod (p - b.(arena_base)) (2 ^ (12 + l)) ltac:(lia)) as Hdm.
  pose proof (Z.mod_pos_bound (p - b.(arena_base)) (2 ^ (12 + l)) ltac:(lia)). fold i in Hdm.
  assert (Hv : valid l i).
  { split; [done|]. split; [apply Z.div_pos; lia|]. apply Z.div_lt_upper_bound; lia. }
  assert (Hw : addr b l i <= p < addr b l i + 2 ^ (12 + l)) by (unfold addr; lia).
  by rewrite (addr_to_index_within b l i p Hg Hv Hw).
Qed.

Lemma block_size_cases b mm p :
  inv b mm -> 0 <= p ->
  (exists l i, allocated b l i /\ addr b l i <= p < addr b l i + 2 ^ (12 + l) /\
     v8m_buddy_block_size b p = 2 ^ (12 + l)) \/
  ((forall l i, allocated b l i -> ~ addr b l i <= p < addr b l i + 2 ^ (12 + l)) /\
     v8m_buddy_block_size b p = 0).
Proof.
  intros Hinv Hp. pose proof Hinv as (fl & HS). pose proof (r_geometry _ _ _ (proj1 HS)) as Hg.
  pose proof Hg as (Hb0 & _ & Hb1 & Has). unfold v8m_buddy_block_size.
  assert (Hout : p < b.(arena_base) \/ b.(arena_base) + 2 ^ 18 <= p ->
    forall l i, allocated b l i -> ~ addr b l i <= p < addr b l i + 2 ^ (12 + l)).
  { intros Ho l i [Hv _]. pose proof (addr_bounds b l i Hv). lia. }
  destruct (Z.eqb_spec p NULL) as [->|]; [right; split; [apply Hout; unfold NULL; lia|done]|].
  rewrite Has, u64_small by (unfold is_u64; lia).
  destruct (Z.ltb_spec p b.(arena_base)); cbn [orb]; [right; split; [apply Hout; lia|done]|].
  destruct (Z.leb_spec (b.(arena_base) + 2 ^ 18) p); [right; split; [apply Hout; lia|done]|].
  destruct (filter _ _) as [|l rest] eqn:Hfi.
  - right. split; [|done]. intros l i Hal Hw. pose proof Hal as [Hv HA]. pose proof Hv as [Hl _].
    assert (Hin : l ∈ []); [|set_solver]. rewrite <- Hfi. apply list_elem_of_filter. split.
    + change (u32 _) with (addr_to_index b p l). rewrite (addr_to_index_within b l i p Hg Hv Hw).
      by apply (allocated_bit b mm).
    + apply elem_of_seqZ. change V8M_BUDDY_LEVELS with 7. unfold TOP in *. lia.
  - left. assert (Hin : l ∈ l :: rest) by left. rewrite <- Hfi in Hin.
    apply list_elem_of_filter in Hin as [Hbit Hin]. apply elem_of_seqZ in Hin.
    change V8M_BUDDY_LEVELS with 7 in Hin. assert (Hl : level_ok l) by (unfold level_ok, TOP; lia).
    change (u32 _) with (addr_to_index b p l) in Hbit.
    destruct (index_around b l p Hg Hl ltac:(lia)) as [Hv Hw].
    exists l, (addr_to_index b p l). split_and!; [by apply (allocated_bit b mm)|apply Hw|apply Hw|by apply level_to_size_eq].
Qed.

(** The allocated set after clearing one bit. *)
Lemma allocated_upd0 b b' l i :
  (forall l' i', valid l' i' -> Al b' l' i' = upd (Al b) l i 0 l' i') ->
  forall l' i', allocated b' l' i' <-> allocated b l' i' /\ (l', i') <> (l, i).
Proof.
  intros HAl l' i'. unfold allocated. split.
  - intros [Hv HA]. rewrite HAl in HA by done. unfold upd in HA.
    destruct (Z.eqb_spec l' l) as [->|], (Z.eqb_spec i' i) as [->|]; cbn in HA; naive_solver.
  - intros [[Hv HA] Hne]. split; [done|]. rewrite HAl by done. unfold upd.
    destruct (Z.eqb_spec l' l) as [->|], (Z.eqb_spec i' i) as [->|]; cbn; naive_solver.
Qed.

(** ** The properties *)

(** [v8m_buddy_init] on a 256 KiB-aligned arena establishes the arena
    invariant in merged form, with nothing allocated. *)
Theorem v8m_buddy_init_spec mm arena :
  0 < arena -> (V8M_BUDDY_MAX_BLOCK | arena) -> arena + V8M_BUDDY_MAX_BLOCK < 2 ^ 64 ->
  let '(b, mm') := v8m_buddy_init mm arena in
  merged b mm' /\ v8m_buddy_is_empty b = true /\ b.(arena_base) = arena.
Proof.
  intros H0 Hd Hb. pose proof (v8m_buddy_init_merged mm arena H0 Hd Hb) as H.
  destruct (v8m_buddy_init mm arena) as [b mm']. destruct H as (Hm & Ha & He & _).
  split_and!; [done| |done]. apply (is_empty_spec b mm'); [by apply merged_inv|done].
Qed.

(** C15: [v8m_buddy_alloc] keeps the invariant and the merged form.  It returns
    [NULL], with nothing changed, exactly when the size is 0, exceeds 256 KiB, or
    no level that fits has a free block.  Otherwise it returns a block of the
    smallest fitting size, aligned to that size and inside the arena, which was
    not allocated before and is the only change to the allocated blocks; no word
    of an allocated block changes. *)
Theorem v8m_buddy_alloc_spec b mm size :
  inv b mm -> 0 <= size < 2 ^ 64 ->
  let t := size_to_level size in
  let '(b', mm', p) := v8m_buddy_alloc b mm size in
  inv b' mm' /\ (merged b mm -> merged b' mm') /\ quiet b mm mm' /\
  (p = NULL <-> size = 0 \/ V8M_BUDDY_MAX_BLOCK < size \/
                forall l, t <= l <= TOP -> znth b.(free_lists) l = NULL) /\
  (p = NULL -> b' = b /\ mm' = mm) /\
  (p <> NULL ->
    size <= level_to_size t /\ (t = 0 \/ level_to_size (t - 1) < size) /\ (level_to_size t | p) /\
    b.(arena_base) <= p /\ p + level_to_size t <= b.(arena_base) + b.(arena_size) /\
    exists i, p = addr b t i /\ ~ allocated b t i /\ b'.(arena_base) = b.(arena_base) /\
      forall l' i', allocated b' l' i' <-> allocated b l' i' \/ (l', i') = (t, i)).
Proof.
  intros Hinv Hsz t. pose proof Hinv as (fl0 & HS0).
  assert (Hbad : size = 0 \/ V8M_BUDDY_MAX_BLOCK < size -> v8m_buddy_alloc b mm size = (b, mm, NULL)).
  { intros Hc. unfold v8m_buddy_alloc. destruct (Z.eqb_spec size 0) as [->|Hn]; [done|].
    destruct Hc as [?|Hc]; [done|]. apply (size_to_level_large size ltac:(lia)) in Hc.
    destruct (Z.leb_spec V8M_BUDDY_LEVELS (size_to_level size)); [done|lia]. }
  destruct (decide (size = 0 \/ V8M_BUDDY_MAX_BLOCK < size)) as [Hc|Hc].
  { rewrite Hbad by done. split_and!; try done; tauto. }
  pose proof (fun fl HS => v8m_buddy_alloc_state b mm fl size HS ltac:(lia)) as Hcases. cbn zeta in Hcases. fold t in Hcases.
  destruct (Hcases fl0 HS0) as (Ht & [[Hnull He]|(b' & mm' & fl' & i & Hl & He & HS' & Hv & Hb & HA & HAl & Hq & _)]); rewrite He.
  { split_and!; try done; tauto. }
  pose proof (r_geometry _ _ _ (proj1 HS0)) as Hg. pose proof (addr_not_null b t i Hg Hv) as Hnn.
  pose proof Hg as (_ & _ & _ & Has). pose proof (addr_bounds b t i Hv).
  destruct (size_to_level_spec size ltac:(lia)) as (_ & Hle & Hgt). fold t in Hle, Hgt.
  split_and!; [by exists fl'| |done| |done|].
  - intros (fl & HS & Hco).
    destruct (Hcases fl HS) as (_ & [[_ He']|(b2 & mm2 & fl2 & i2 & _ & He' & HS2 & _ & _ & _ & _ & _ & Hc2)]);
      rewrite He in He'; injection He' as -> -> Hp; [done|]. exists fl2. auto.
  - split; [done|]. intros [?|[?|Hno]]; [tauto|tauto|]. destruct Hl as (l & Hl & Hnl). by destruct (Hnl (Hno l Hl)).
  - intros _. rewrite Has, level_to_size_eq by done. split_and!; [done| |by apply addr_divide|lia|lia|].
    + destruct Hgt as [->|Hgt]; [by left|]. destruct (Z.eq_dec t 0) as [|Hn]; [by left|right].
      rewrite level_to_size_eq by (unfold level_ok in Ht; lia). by replace (12 + (t - 1)) with (11 + t) by lia.
    + exists i. split_and!; [done|intros [_ HA1]; lia|done|]. intros l' i'. unfold allocated. split.
      * intros [Hv' HA']. rewrite HAl in HA' by done. unfold upd in HA'.
        destruct (Z.eqb_spec l' t) as [->|], (Z.eqb_spec i' i) as [->|]; cbn in HA'; auto.
      * intros [[Hv' HA']|[= -> ->]]; (split; [done|]); rewrite HAl by done; [|by rewrite upd_eq].
        unfold upd. by destruct (_ && _).
Qed.

(** C16: [v8m_buddy_free] of an allocated block, with any size of its class,
    keeps the invariant and the merged form, removes exactly that block from the
    allocated ones, and changes no word of a block that stays allocated. *)
Theorem v8m_buddy_free_spec b mm l i size :
  inv b mm -> allocated b l i -> size_to_level size = l ->
  let '(b', mm') := v8m_buddy_free b mm (addr b l i) size in
  inv b' mm' /\ (merged b mm -> merged b' mm') /\ quiet b' mm mm' /\ b'.(arena_base) = b.(arena_base) /\
  (forall l' i', allocated b' l' i' <-> allocated b l' i' /\ (l', i') <> (l, i)).
Proof.
  intros (fl & HS) Hal Hsz.
  destruct (v8m_buddy_free_state b mm fl l i size HS Hal Hsz) as (b' & mm' & fl' & He & HS' & Hb & HAl & Hq & _).
  rewrite He. split_and!; [by exists fl'| |done|done|by apply allocated_upd0].
  intros (fl1 & HS1 & Hco). destruct (v8m_buddy_free_state b mm fl1 l i size HS1 Hal Hsz) as (b2 & mm2 & fl2 & He2 & HS2 & _ & _ & _ & Hc).
  rewrite He in He2. injection He2 as -> ->. exists fl2. auto.
Qed.

(** Two different allocated blocks never overlap. *)
Theorem v8m_buddy_blocks_disjoint b mm l i l' i' :
  inv b mm -> allocated b l i -> allocated b l' i' -> (l, i) <> (l', i') ->
  addr b l i + level_to_size l <= addr b l' i' \/ addr b l' i' + level_to_size l' <= addr b l i.
Proof.
  intros Hinv H1 H2 Hne. pose proof H1 as [[Hl _] _]. pose proof H2 as [[Hl' _] _].
  rewrite !level_to_size_eq by done. by apply (allocated_disjoint b mm).
Qed.

Lemma coalesce_all_swept b mm fl :
  state b mm fl None ->
  exists b' mm' fl' merges, v8m_buddy_coalesce_all b mm = Some (b', mm', merges) /\
    swept 0 b mm fl b' mm' fl' /\ coalesced fl' /\ (coalesced fl -> b' = b /\ mm' = mm /\ merges = 0).
Proof.
  intros HS. destruct (coalesce_levels_spec 6 0 b mm fl 0 HS) as (b' & mm' & fl' & m & He & Hsw & Hco & Hid);
    [lia|done|lia|]. exists b', mm', fl', m. split_and!; [exact He|done| |].
  - intros l i Hv Hl. apply Hco. destruct Hv. lia.
  - intros Hc. apply Hid. intros k Hk i Hi. apply Hc; [|lia|done].
    apply (r_valid _ _ _ (proj1 HS)); [unfold level_ok; lia|done].
Qed.

(** [v8m_buddy_coalesce_all] terminates, leaves the allocated blocks and
    their contents alone and brings the arena into merged form; on an arena
    already in merged form it does nothing and reports 0 merges. *)
Theorem v8m_buddy_coalesce_all_spec b mm :
  inv b mm ->
  exists b' mm' merges, v8m_buddy_coalesce_all b mm = Some (b', mm', merges) /\
    merged b' mm' /\ b'.(alloc_bitmap) = b.(alloc_bitmap) /\ b'.(arena_base) = b.(arena_base) /\
    quiet b mm mm' /\ (merged b mm -> b' = b /\ mm' = mm /\ merges = 0).
Proof.
  intros (fl & HS). destruct (coalesce_all_swept b mm fl HS) as (b' & mm' & fl' & m & He & [] & Hco & _).
  exists b', mm', m. split_and!; try done; [by exists fl'|]. intros (fl1 & HS1 & Hc1).
  destruct (coalesce_all_swept b mm fl1 HS1) as (b2 & mm2 & fl2 & m2 & He2 & _ & _ & Hid).
  rewrite He in He2. injection He2 as -> -> ->. by apply Hid.
Qed.

(** C30: the deferred mode agrees with the immediate one: on a merged arena,
    [v8m_buddy_free_no_coalesce] followed by [v8m_buddy_coalesce_all] ends with
    the same bitmaps and the same free blocks as [v8m_buddy_free]. *)
Theorem v8m_buddy_deferred_free_equiv b mm l i size :
  merged b mm -> allocated b l i -> size_to_level size = l ->
  let '(b1, mm1) := v8m_buddy_free b mm (addr b l i) size in
  let '(b2, mm2) := v8m_buddy_free_no_coalesce b mm (addr b l i) size in
  exists b3 mm3 merges, v8m_buddy_coalesce_all b2 mm2 = Some (b3, mm3, merges) /\
    b3.(alloc_bitmap) = b1.(alloc_bitmap) /\ b3.(split_bitmap) = b1.(split_bitmap) /\
    (forall l' i', valid l' i' -> on_free_list b3 mm3 l' i' <-> on_free_list b1 mm1 l' i').
Proof.
  intros (fl & HS & Hco) Hal Hsz.
  destruct (v8m_buddy_free_state b mm fl l i size HS Hal Hsz) as (b1 & mm1 & fl1 & He1 & HS1 & _ & HA1 & _ & Hc1).
  destruct (v8m_buddy_free_no_coalesce_state b mm fl l i size HS Hal Hsz) as (b2 & mm2 & fl2 & He2 & HS2 & _ & HA2 & _).
  rewrite He1, He2. destruct (coalesce_all_swept b2 mm2 fl2 HS2) as (b3 & mm3 & fl3 & m & He3 & [] & Hco3 & _).
  exists b3, mm3, m. split; [done|]. apply merged_canonical; [exists fl1; auto|by exists fl3|].
  intros l' i' Hv'. rewrite HA1 by done. rewrite <- HA2 by done. unfold Al. by rewrite s_alloc0.
Qed.

(** allocating a block from a merged arena and freeing it at once restores
    the bitmaps and the free blocks. *)
Theorem v8m_buddy_alloc_free_roundtrip b mm size :
  merged b mm -> 0 < size <= V8M_BUDDY_MAX_BLOCK ->
  let '(b1, mm1, p) := v8m_buddy_alloc b mm size in
  let '(b2, mm2) := v8m_buddy_free b1 mm1 p size in
  b2.(alloc_bitmap) = b.(alloc_bitmap) /\ b2.(split_bitmap) = b.(split_bitmap) /\
  (forall l i, valid l i -> on_free_list b2 mm2 l i <-> on_free_list b mm l i).
Proof.
  intros Hm Hsz. pose proof Hm as (fl & HS & Hco).
  destruct (v8m_buddy_alloc_state b mm fl size HS Hsz) as (Ht &
    [[_ He]|(b1 & mm1 & fl1 & i & _ & He & HS1 & Hv & Hb & HA & HAl & _ & Hc1)]); rewrite He; [done|].
  set (t := size_to_level size) in *.
  replace (addr b t i) with (addr b1 t i) by (unfold addr; by rewrite Hb).
  destruct (v8m_buddy_free_state b1 mm1 fl1 t i size HS1) as (b2 & mm2 & fl2 & He2 & HS2 & _ & HA2 & _ & Hc2).
  { split; [done|]. by rewrite HAl, upd_eq by done. }
  { done. }
  rewrite He2. apply merged_canonical; [done|exists fl2; auto|]. intros l' i' Hv'. rewrite HA2 by done.
  unfold upd. destruct (Z.eqb_spec l' t) as [->|Hl], (Z.eqb_spec i' i) as [->|Hi]; cbn [andb];
    [done|rewrite HAl, upd_ne by (done || lia); done..].
Qed.

Lemma empty_arena_whole b mm size :
  merged b mm -> v8m_buddy_is_empty b = true -> 0 < size <= V8M_BUDDY_MAX_BLOCK ->
  (forall l i, valid l i -> on_free_list b mm l i <-> l = TOP) /\
  (exists b' mm' i, v8m_buddy_alloc b mm size = (b', mm', addr b (size_to_level size) i) /\ valid (size_to_level size) i).
Proof.
  intros Hm Hem Hsz. pose proof (proj1 (is_empty_spec b mm (merged_inv b mm Hm)) Hem) as Hno.
  destruct Hm as (fl & HS & Hco).
  destruct (coalesced_empty_whole _ _ _ (proj2 HS) (coalesced_Fl _ Hco)) as (HS0 & Htop & Hlow).
  { intros l i Hv. pose proof (t_A _ _ _ _ (proj2 HS) l i). destruct (Z.eq_dec (Al b l i) 1); [|lia].
    by destruct (Hno l i). }
  assert (Hin : 0 ∈ fl TOP) by (by apply Fl_in). split.
  - intros l i Hv. pose proof Hv as [Hl _]. rewrite (on_free_list_iff _ _ _ None l i) by done. split.
    + intros Hi%Fl_in. destruct (Z.eq_dec l TOP); [done|]. rewrite Hlow in Hi by (done || lia). done.
    + intros ->. by apply valid_root in Hv as ->.
  - destruct (v8m_buddy_alloc_state b mm fl size HS Hsz) as (Ht & [[Hnull He]|(b1 & mm1 & fl1 & i & _ & He & _ & Hvi & _)]).
    + exfalso. unfold level_ok in Ht. specialize (Hnull TOP ltac:(lia)).
      pose proof (r_dll _ _ _ (proj1 HS) TOP ltac:(unfold level_ok, TOP; lia)) as Hd. rewrite Hnull in Hd.
      apply dll_null in Hd. apply fmap_nil_inv in Hd. rewrite Hd in Hin. set_solver.
    + by exists b1, mm1, i.
Qed.

(** a merged arena with nothing allocated is one free block of 256 KiB, so
    every size up to 256 KiB can be allocated from it. *)
Theorem v8m_buddy_empty_whole b mm size :
  merged b mm -> v8m_buddy_is_empty b = true -> 0 < size <= V8M_BUDDY_MAX_BLOCK ->
  (forall l i, valid l i -> on_free_list b mm l i <-> l = TOP) /\
  (exists b' mm' i, v8m_buddy_alloc b mm size = (b', mm', addr b (size_to_level size) i) /\ valid (size_to_level size) i).
Proof. apply empty_arena_whole. Qed.

(** [v8m_buddy_block_size] is the size of the allocated block that contains
    the address, also when it points inside the block, and 0 when none does. *)
Theorem v8m_buddy_block_size_spec b mm p :
  inv b mm -> 0 <= p ->
  (forall l i, allocated b l i -> addr b l i <= p < addr b l i + level_to_size l ->
     v8m_buddy_block_size b p = level_to_size l) /\
  ((forall l i, allocated b l i -> ~ addr b l i <= p < addr b l i + level_to_size l) ->
     v8m_buddy_block_size b p = 0).
Proof.
  intros Hinv Hp. destruct (block_size_cases b mm p Hinv Hp) as [(l & i & Hal & Hw & ->)|(Hno & ->)].
  - pose proof Hal as [[Hl _] _]. split.
    + intros l' i' Hal' Hw'. pose proof Hal' as [[Hl' _] _]. rewrite level_to_size_eq in * by done.
      destruct (decide ((l, i) = (l', i'))) as [[= -> ->]|Hne]; [done|].
      destruct (allocated_disjoint b mm l i l' i' Hinv Hal Hal' Hne); lia.
    + intros Hno. destruct (Hno l i Hal). by rewrite level_to_size_eq.
  - split; [|done]. intros l i Hal Hw. pose proof Hal as [[Hl _] _]. rewrite level_to_size_eq in Hw by done.
    by destruct (Hno l i Hal).
Qed.

(** ** Witnesses: an arena at 256 KiB, two blocks allocated from it *)

Definition ex0 : v8m_buddy * mem := v8m_buddy_init ∅ 262144.
Definition ex1 : v8m_buddy * mem * Z := v8m_buddy_alloc (fst ex0) (snd ex0) 5000.
Definition ex2 : v8m_buddy * mem * Z := v8m_buddy_alloc (fst (fst ex1)) (snd (fst ex1)) 4096.

Lemma alloc_keeps_merged b mm size :
  merged b mm -> 0 < size <= V8M_BUDDY_MAX_BLOCK ->
  merged (fst (fst (v8m_buddy_alloc b mm size))) (snd (fst (v8m_buddy_alloc b mm size))).
Proof.
  intros (fl & HS & Hco) Hsz.
  destruct (v8m_buddy_alloc_state b mm fl size HS Hsz) as (_ & [[_ He]|(b1 & mm1 & fl1 & i & _ & He & HS1 & _ & _ & _ & _ & _ & Hc1)]);
    rewrite He; [by exists fl|exists fl1; auto].
Qed.

Lemma ex0_merged : merged (fst ex0) (snd ex0).
Proof.
  pose proof (v8m_buddy_init_merged ∅ 262144 ltac:(lia) ltac:(by exists 1) ltac:(vm_compute; done)) as H.
  unfold ex0. destruct (v8m_buddy_init ∅ 262144). apply H.
Qed.

Lemma ex1_merged : merged (fst (fst ex1)) (snd (fst ex1)).
Proof. apply alloc_keeps_merged; [apply ex0_merged|]. vm_compute. done. Qed.

Lemma ex2_merged : merged (fst (fst ex2)) (snd (fst ex2)).
Proof. apply alloc_keeps_merged; [apply ex1_merged|]. vm_compute. done. Qed.

Lemma ex1_allocated : allocated (fst (fst ex1)) 1 0.
Proof. split; [split; vm_compute; done|vm_compute; reflexivity]. Qed.

Lemma ex2_allocated : allocated (fst (fst ex2)) 1 0 /\ allocated (fst (fst ex2)) 0 2.
Proof. split; (split; [split; vm_compute; done|vm_compute; reflexivity]). Qed.

Lemma v8m_buddy_init_spec_witness :
  let '(b, mm') := v8m_buddy_init ∅ 262144 in
  merged b mm' /\ v8m_buddy_is_empty b = true /\ b.(arena_base) = 262144.
Proof.
  apply (v8m_buddy_init_spec ∅ 262144); [lia|by exists 1|vm_compute; done].
Defined.

Lemma v8m_buddy_alloc_spec_witness :
  let '(b', mm', p) := v8m_buddy_alloc (fst (fst ex1)) (snd (fst ex1)) 4096 in
  inv b' mm' /\ quiet (fst (fst ex1)) (snd (fst ex1)) mm'.
Proof.
  pose proof (v8m_buddy_alloc_spec (fst (fst ex1)) (snd (fst ex1)) 4096 (merged_inv _ _ ex1_merged) ltac:(lia)) as H.
  cbn zeta in H. destruct (v8m_buddy_alloc _ _ 4096) as [[b' mm'] p]. split; apply H.
Defined.

Lemma v8m_buddy_free_spec_witness :
  inv (fst (v8m_buddy_free (fst (fst ex2)) (snd (fst ex2)) 262144 5000))
      (snd (v8m_buddy_free (fst (fst ex2)) (snd (fst ex2)) 262144 5000)) /\
  allocated (fst (v8m_buddy_free (fst (fst ex2)) (snd (fst ex2)) 262144 5000)) 0 2 /\
  ~ allocated (fst (v8m_buddy_free (fst (fst ex2)) (snd (fst ex2)) 262144 5000)) 1 0.
Proof.
  pose proof (v8m_buddy_free_spec (fst (fst ex2)) (snd (fst ex2)) 1 0 5000 (merged_inv _ _ ex2_merged)
    (proj1 ex2_allocated) ltac:(vm_compute; reflexivity)) as H.
  replace (addr (fst (fst ex2)) 1 0) with 262144 in H by (vm_compute; reflexivity).
  destruct (v8m_buddy_free _ _ _ _) as [b' mm']. destruct H as (Hi & _ & _ & _ & Hal).
  split; [exact Hi|]. split; [apply Hal; split; [apply ex2_allocated|done]|].
  intros Hin. apply Hal in Hin as [_ Hne]. done.
Defined.

Lemma v8m_buddy_blocks_disjoint_witness :
  262144 + 8192 <= 262144 + 8192 \/ 262144 + 8192 + 4096 <= 262144.
Proof.
  exact (v8m_buddy_blocks_disjoint (fst (fst ex2)) (snd (fst ex2)) 1 0 0 2 (merged_inv _ _ ex2_merged)
    (proj1 ex2_allocated) (proj2 ex2_allocated) ltac:(done)).
Defined.

Lemma v8m_buddy_coalesce_all_spec_witness :
  exists b' mm' merges, v8m_buddy_coalesce_all (fst (fst ex2)) (snd (fst ex2)) = Some (b', mm', merges) /\
    merged b' mm' /\ merges = 0.
Proof.
  destruct (v8m_buddy_coalesce_all_spec (fst (fst ex2)) (snd (fst ex2)) (merged_inv _ _ ex2_merged))
    as (b' & mm' & m & He & Hm & _ & _ & _ & Hid).
  exists b', mm', m. split; [exact He|]. split; [exact Hm|]. apply (Hid ex2_merged).
Defined.

Lemma v8m_buddy_deferred_free_equiv_witness :
  let '(b1, mm1) := v8m_buddy_free (fst (fst ex2)) (snd (fst ex2)) (262144 + 8192) 4096 in
  let '(b2, mm2) := v8m_buddy_free_no_coalesce (fst (fst ex2)) (snd (fst ex2)) (262144 + 8192) 4096 in
  exists b3 mm3 merges, v8m_buddy_coalesce_all b2 mm2 = Some (b3, mm3, merges) /\
    b3.(alloc_bitmap) = b1.(alloc_bitmap) /\ b3.(split_bitmap) = b1.(split_bitmap) /\
    (forall l' i', valid l' i' -> on_free_list b3 mm3 l' i' <-> on_free_list b1 mm1 l' i').
Proof.
  exact (v8m_buddy_deferred_free_equiv (fst (fst ex2)) (snd (fst ex2)) 0 2 4096 ex2_merged
    (proj2 ex2_allocated) ltac:(vm_compute; reflexivity)).
Defined.

Lemma v8m_buddy_alloc_free_roundtrip_witness :
  let '(b1, mm1, p) := ex2 in
  let '(b2, mm2) := v8m_buddy_free b1 mm1 p 4096 in
  b2.(alloc_bitmap) = (fst (fst ex1)).(alloc_bitmap) /\ b2.(split_bitmap) = (fst (fst ex1)).(split_bitmap) /\
  (forall l i, valid l i -> on_free_list b2 mm2 l i <-> on_free_list (fst (fst ex1)) (snd (fst ex1)) l i).
Proof.
  exact (v8m_buddy_alloc_free_roundtrip (fst (fst ex1)) (snd (fst ex1)) 4096 ex1_merged ltac:(vm_compute; done)).
Defined.

Lemma v8m_buddy_empty_whole_witness :
  on_free_list (fst ex0) (snd ex0) TOP 0 /\
  exists b' mm' i, v8m_buddy_alloc (fst ex0) (snd ex0) 5000 = (b', mm', addr (fst ex0) 1 i) /\ valid 1 i.
Proof.
  destruct (v8m_buddy_empty_whole (fst ex0) (snd ex0) 5000 ex0_merged ltac:(vm_compute; reflexivity)
    ltac:(vm_compute; done)) as [Hf Ha].
  split; [apply (Hf TOP 0); [by apply valid_root|done]|exact Ha].
Defined.

Lemma v8m_buddy_block_size_spec_witness :
  v8m_buddy_block_size (fst (fst ex1)) (262144 + 4097) = 8192.
Proof.
  apply (proj1 (v8m_buddy_block_size_spec (fst (fst ex1)) (snd (fst ex1)) (262144 + 4097)
    (merged_inv _ _ ex1_merged) ltac:(lia)) 1 0 ex1_allocated).
  vm_compute. done.
Defined.

End BuddySpec.
