(* ===== verification/RemoteFree.v ===== *)
(** The lock-free MPSC queue of remote frees: [src/v8m_remote_free.h].

    Producers run the compare-and-swap loop of [v8m_mpsc_push]; the owner takes
    the whole chain with [v8m_mpsc_drain].  [v8m_mpsc_push] and [v8m_mpsc_drain]
    are the operations without interference; [run] is every interleaving of the
    loop's atomic steps by any number of threads, spurious failures of the weak
    compare-and-swap and unrelated writes to memory included.  The theorem is
    linearizability: the queue holds exactly the nodes whose compare-and-swap
    succeeded since the last drain, the latest first. *)

From S2P Require Import Prelude.

Module RemoteFree.

(** [struct v8m_mpsc_queue]: the head; a node's [next] is the word at its address. *)
Definition v8m_mpsc_init : Z := NULL.

(** The three atomic steps of the push loop: load the head, store it as the
    node's link, compare-and-swap the head. *)
Definition push_load (head : Z) : Z := head.
Definition push_store (mm : mem) (node old_head : Z) : mem := wr mm node old_head.
Definition push_cas (head old_head node : Z) : option Z :=
  if head =? old_head then Some node else None.

(** One pass of the loop, which succeeds when no other thread interferes. *)
Definition v8m_mpsc_push (mm : mem) (head node : Z) : mem * Z :=
  let old_head := push_load head in
  let mm := push_store mm node old_head in
  (mm, default head (push_cas head old_head node)).

(** The exchange with [NULL]: the new head and the drained chain. *)
Definition v8m_mpsc_drain (head : Z) : Z * Z := (NULL, head).

(** ** Interleavings *)

(** Where a producer is inside the loop: it has loaded the head, or it has also
    linked its node. *)
Inductive pc :=
| Loaded (node old_head : Z)
| Linked (node old_head : Z).

Definition pc_node (p : pc) : Z := match p with Loaded n _ | Linked n _ => n end.

Record sys := MkSys { q_head : Z; q_mem : mem; q_pcs : gmap nat pc }.

Definition in_flight (s : sys) (a : Z) : Prop := exists t p, s.(q_pcs) !! t = Some p /\ pc_node p = a.

Inductive event := EvPush (node : Z) | EvDrain (chain_head : Z).

(** The abstract queue: pushes cons, a drain takes everything. *)
Definition replay1 (l : list Z) (e : event) : list Z :=
  match e with EvPush n => n :: l | EvDrain _ => [] end.
Definition replay (evs : list event) : list Z := foldl replay1 [] evs.

Inductive run : list event -> sys -> Prop :=
| run_init mm : run [] (MkSys v8m_mpsc_init mm ∅)
| run_load evs h mm pcs t node :
    run evs (MkSys h mm pcs) -> pcs !! t = None -> node <> NULL -> node ∉ replay evs ->
    ~ in_flight (MkSys h mm pcs) node ->
    run evs (MkSys h mm (<[t := Loaded node (push_load h)]> pcs))
| run_store evs h mm pcs t node old :
    run evs (MkSys h mm pcs) -> pcs !! t = Some (Loaded node old) ->
    run evs (MkSys h (push_store mm node old) (<[t := Linked node old]> pcs))
| run_cas evs h mm pcs t node old h' :
    run evs (MkSys h mm pcs) -> pcs !! t = Some (Linked node old) -> push_cas h old node = Some h' ->
    run (evs ++ [EvPush node]) (MkSys h' mm (delete t pcs))
| run_retry evs h mm pcs t node old :
    run evs (MkSys h mm pcs) -> pcs !! t = Some (Linked node old) ->
    run evs (MkSys h mm (<[t := Loaded node (push_load h)]> pcs))
| run_drain evs h mm pcs h' c :
    run evs (MkSys h mm pcs) -> v8m_mpsc_drain h = (h', c) ->
    run (evs ++ [EvDrain c]) (MkSys h' mm pcs)
| run_client evs h mm pcs a v :
    run evs (MkSys h mm pcs) -> a ∉ replay evs -> ~ in_flight (MkSys h mm pcs) a ->
    run evs (MkSys h (wr mm a v) pcs).

(** ** Correctness *)

Lemma replay_snoc evs e : replay (evs ++ [e]) = replay1 (replay evs) e.
Proof. unfold replay. by rewrite foldl_app. Qed.

Record good (l : list Z) (s : sys) : Prop := {
  g_chain : chain s.(q_mem) s.(q_head) l;
  g_nonnull : forall t p, s.(q_pcs) !! t = Some p -> pc_node p <> NULL;
  g_apart : forall t p, s.(q_pcs) !! t = Some p -> pc_node p ∉ l;
  g_distinct : forall t t' p p', s.(q_pcs) !! t = Some p -> s.(q_pcs) !! t' = Some p' ->
                 pc_node p = pc_node p' -> t = t';
  g_linked : forall t node old, s.(q_pcs) !! t = Some (Linked node old) -> rd s.(q_mem) node = old
}.

(** Moving one thread to another point of the loop on the same node. *)
Lemma good_same_node l h mm mm' pcs t p p' :
  good l (MkSys h mm pcs) -> pcs !! t = Some p -> pc_node p' = pc_node p ->
  chain mm' h l ->
  (forall t' node old, <[t := p']> pcs !! t' = Some (Linked node old) -> rd mm' node = old) ->
  good l (MkSys h mm' (<[t := p']> pcs)).
Proof.
  intros [Gc Gn Ga Gd Gl] Ht Hp Hc Hl. cbn in *.
  assert (Hback : forall t' q, <[t := p']> pcs !! t' = Some q -> exists q', pcs !! t' = Some q' /\ pc_node q' = pc_node q).
  { intros t' q. destruct (decide (t = t')) as [<-|Hne].
    - rewrite lookup_insert_eq. intros [= <-]. by exists p.
    - rewrite lookup_insert_ne by done. intros Hq. by exists q. }
  constructor; cbn; [done| | | |done].
  - intros t' q (q' & Hq & <-)%Hback. by eapply Gn.
  - intros t' q (q' & Hq & <-)%Hback. by eapply Ga.
  - intros t1 t2 q1 q2 (q1' & H1 & <-)%Hback (q2' & H2 & <-)%Hback. by eapply Gd.
Qed.

Lemma good_load l h mm pcs t node old :
  good l (MkSys h mm pcs) -> pcs !! t = None -> node <> NULL -> node ∉ l ->
  ~ in_flight (MkSys h mm pcs) node -> good l (MkSys h mm (<[t := Loaded node old]> pcs)).
Proof.
  intros [Gc Gn Ga Gd Gl] Ht Hn Hl Hf. cbn in *.
  assert (Hfr : forall t' q, pcs !! t' = Some q -> pc_node q <> node) by (intros t' q Hq He; apply Hf; by exists t', q).
  constructor; cbn; [done|..].
  - intros t' q. rewrite lookup_insert_Some. intros [[_ <-]|[_ Hq]]; [done|by eapply Gn].
  - intros t' q. rewrite lookup_insert_Some. intros [[_ <-]|[_ Hq]]; [done|by eapply Ga].
  - intros t1 t2 q1 q2. rewrite !lookup_insert_Some. intros [[<- <-]|[_ H1]] [[<- <-]|[_ H2]] He; cbn in *.
    + done.
    + by destruct (Hfr _ _ H2).
    + by destruct (Hfr _ _ H1).
    + by eapply Gd.
  - intros t' n o. rewrite lookup_insert_Some. intros [[_ H]|[_ Hq]]; [done|by eapply Gl].
Qed.

Lemma good_drop l l' h h' mm pcs t p :
  good l (MkSys h mm pcs) -> pcs !! t = Some p -> chain mm h' l' ->
  (forall x, x ∈ l' -> x ∈ l \/ x = pc_node p) -> good l' (MkSys h' mm (delete t pcs)).
Proof.
  intros [Gc Gn Ga Gd Gl] Ht Hc Hsub. cbn in *. constructor; cbn; [done|..].
  - intros t' q [_ Hq]%lookup_delete_Some. by eapply Gn.
  - intros t' q [Hne Hq]%lookup_delete_Some [Hin|He]%Hsub; [by eapply Ga|]. apply Hne. by eapply Gd.
  - intros t1 t2 q1 q2 [_ H1]%lookup_delete_Some [_ H2]%lookup_delete_Some. by eapply Gd.
  - intros t' n o [_ Hq]%lookup_delete_Some. by eapply Gl.
Qed.

Lemma run_good evs s : run evs s -> good (replay evs) s.
Proof.
  induction 1 as [mm|evs h mm pcs t node _ IH Ht Hn Hl Hf|evs h mm pcs t node old _ IH Ht
    |evs h mm pcs t node old h' _ IH Ht Hcas|evs h mm pcs t node old _ IH Ht
    |evs h mm pcs h' c _ IH Hd|evs h mm pcs a v _ IH Ha Hf].
  - constructor; cbn; try done; intros; by rewrite lookup_empty in *.
  - by apply good_load.
  - pose proof IH as [Gc Gn Ga Gd Gl]. cbn in *. pose proof (Ga _ _ Ht) as Hnl. cbn in Hnl.
    eapply good_same_node; [done|done|done|by apply chain_frame|].
    intros t' n o. unfold push_store. rewrite lookup_insert_Some. intros [[_ [= -> ->]]|[Hne Hq]]; [apply rd_wr_eq|].
    rewrite rd_wr_ne; [by eapply Gl|]. intros ->. apply Hne. by eapply Gd.
  - pose proof IH as [Gc Gn Ga Gd Gl]. cbn in *. unfold push_cas in Hcas.
    destruct (Z.eqb_spec h old) as [<-|]; [|done]. injection Hcas as <-.
    rewrite replay_snoc. cbn. eapply good_drop; [done|done| |set_solver].
    cbn. rewrite (Gl _ _ _ Ht). split_and!; [done|by apply (Gn _ _ Ht)|done].
  - eapply good_same_node; [done|done|done|apply (g_chain _ _ IH)|].
    intros t' n o. rewrite lookup_insert_Some. intros [[_ H]|[_ Hq]]; [done|by eapply (g_linked _ _ IH)].
  - injection Hd as <- <-. rewrite replay_snoc. cbn. destruct IH as [Gc Gn Ga Gd Gl].
    constructor; cbn; [done|done|set_solver|done|done].
  - destruct IH as [Gc Gn Ga Gd Gl]. constructor; cbn in *; [by apply chain_frame|done|done|done|].
    intros t n o Ht. rewrite rd_wr_ne; [by eapply Gl|]. intros ->. apply Hf. by exists t, (Linked n o).
Qed.

(** C29: in every interleaving of producers, drains and unrelated writes, the
    queue is a [NULL]-terminated chain of exactly the nodes pushed since the last
    drain, the latest first, each once; a drain at any moment returns that chain
    and leaves the queue empty. *)
Theorem v8m_mpsc_linearizable evs s :
  run evs s ->
  chain s.(q_mem) s.(q_head) (replay evs) /\ NoDup (replay evs) /\
  let '(h', c) := v8m_mpsc_drain s.(q_head) in
  chain s.(q_mem) c (replay evs) /\ chain s.(q_mem) h' [].
Proof.
  intros [Gc _ _ _ _]%run_good. split; [done|]. split; [by eapply chain_NoDup|]. by split.
Qed.

(** Two producers race: the second one's first compare-and-swap meets the first
    one's node and is retried. *)
Lemma v8m_mpsc_linearizable_witness :
  exists s, run [EvPush 64; EvPush 128] s /\ chain s.(q_mem) s.(q_head) [128; 64].
Proof.
  eexists. assert (H : run [EvPush 64; EvPush 128] (MkSys 128 (push_store (push_store (push_store ∅ 128 0) 64 0) 128 64) ∅)).
  { change [EvPush 64; EvPush 128] with ([EvPush 64] ++ [EvPush 128]).
    replace (∅ : gmap nat pc) with (delete 1%nat (<[1%nat := Linked 128 64]> (delete 0%nat (<[0%nat := Linked 64 0]> (∅ : gmap nat pc)))))
      by (vm_compute; reflexivity).
    apply run_cas with (h := 64) (old := 64) (t := 1%nat); [|vm_compute; reflexivity|vm_compute; reflexivity].
    replace (<[1%nat := Linked 128 64]> (delete 0%nat (<[0%nat := Linked 64 0]> (∅ : gmap nat pc))))
      with (<[1%nat := Linked 128 64]> (<[1%nat := Loaded 128 64]> (delete 0%nat (<[0%nat := Linked 64 0]> (<[1%nat := Linked 128 0]> (∅ : gmap nat pc))))))
      by (vm_compute; reflexivity).
    apply run_store; [|vm_compute; reflexivity].
    apply run_retry with (old := 0); [|vm_compute; reflexivity].
    change [EvPush 64] with ([] ++ [EvPush 64]).
    apply run_cas with (h := 0) (old := 0) (t := 0%nat); [|vm_compute; reflexivity|vm_compute; reflexivity].
    replace (<[0%nat := Linked 64 0]> (<[1%nat := Linked 128 0]> (∅ : gmap nat pc)))
      with (<[0%nat := Linked 64 0]> (<[1%nat := Linked 128 0]> (<[1%nat := Loaded 128 (push_load 0)]> (<[0%nat := Loaded 64 (push_load 0)]> (∅ : gmap nat pc)))))
      by (vm_compute; reflexivity).
    apply run_store; [|vm_compute; reflexivity].
    apply run_store; [|vm_compute; reflexivity].
    apply run_load; [|vm_compute; reflexivity|done|set_solver|].
    - apply run_load; [apply run_init|vm_compute; reflexivity|done|set_solver|].
      intros (t & p & Hp & _). cbn in Hp. by rewrite lookup_empty in Hp.
    - intros (t & p & Hp & Hn). cbn in Hp. apply lookup_insert_Some in Hp as [[_ <-]|[_ Hp]]; [done|].
      by rewrite lookup_empty in Hp. }
  split; [exact H|]. apply (v8m_mpsc_linearizable _ _ H).
Defined.

End RemoteFree.
