(* ===== verification/CoreCache.v ===== *)
(** The per-CPU L2 cache: [src/v8m_core_cache.h] and [src/v8m_core_cache.c].

    Per CPU and size class, a Treiber stack whose head is a 64-bit word: a 48-bit
    pointer and a 16-bit tag that every successful compare-and-swap increments.
    A cache pointer is the CPU id ([None] is [NULL]); the outputs [*out_head] and
    [*out_tail] are returned.  The operations are given without interference, as
    the last pass of their retry loops; [CoreCacheConc] runs the same passes
    interleaved.  [v8m_numa_current_cpu] is the parameter [cur_cpu]. *)

From S2P Require Import Prelude SizeClass.
Import SizeClass.

Module CoreCache.

Definition V8M_NUMA_MAX_CPUS : Z := 4096.

Definition V8M_TAGPTR_PTR_BITS : Z := 48.
Definition V8M_TAGPTR_PTR_MASK : Z := Z.shiftl 1 V8M_TAGPTR_PTR_BITS - 1.

Definition v8m_tagptr_make (ptr tag : Z) : Z :=
  Z.lor (Z.land ptr V8M_TAGPTR_PTR_MASK) (u64 (Z.shiftl tag V8M_TAGPTR_PTR_BITS)).
Definition v8m_tagptr_ptr (tagged : Z) : Z := Z.land tagged V8M_TAGPTR_PTR_MASK.
Definition v8m_tagptr_tag (tagged : Z) : Z := u16 (Z.shiftr tagged V8M_TAGPTR_PTR_BITS).

Definition V8M_STEAL_NO_DONOR : Z := UINT32_MAX.

(** [g_caches] (zero-initialised, so an absent entry is 0), [g_last_push_cpu] and
    the calling thread's [t_push_sample_count]. *)
Record core_caches := MkCores {
  g_caches : gmap (Z * Z) Z;
  g_last_push_cpu : list Z;
  t_push_sample_count : Z
}.

Definition stack_word (g : core_caches) (cpu cls : Z) : Z := default 0 (g.(g_caches) !! (cpu, cls)).
Definition set_stack (g : core_caches) (cpu cls w : Z) : core_caches :=
  MkCores (<[(cpu, cls) := w]> g.(g_caches)) g.(g_last_push_cpu) g.(t_push_sample_count).
Definition set_last_push_cpu (g : core_caches) (cls cpu : Z) : core_caches :=
  MkCores g.(g_caches) (zupd g.(g_last_push_cpu) cls cpu) g.(t_push_sample_count).
Definition set_sample (g : core_caches) (v : Z) : core_caches :=
  MkCores g.(g_caches) g.(g_last_push_cpu) v.

Definition init_steal_hints : core_caches := MkCores ∅ (replicate 41 V8M_STEAL_NO_DONOR) 0.

Definition v8m_core_cache_for_cpu (cpu_id : Z) : option Z :=
  if V8M_NUMA_MAX_CPUS <=? cpu_id then None else Some cpu_id.

Definition v8m_core_cache_for_current_cpu (cur_cpu : Z) : option Z := v8m_core_cache_for_cpu cur_cpu.

(** One pass of the push loops up to the compare-and-swap: link the chain's tail
    to the old top and build the new head word. *)
Definition push_pass (mm : mem) (old_head head tail : Z) : mem * Z :=
  let old_ptr := v8m_tagptr_ptr old_head in
  let mm := wr mm tail old_ptr in
  let new_tag := u16 (v8m_tagptr_tag old_head + 1) in
  (mm, v8m_tagptr_make head new_tag).

(** One pass of the pop loop: [None] on an empty stack, else the node and the new
    head word. *)
Definition pop_pass (mm : mem) (old_head : Z) : option (Z * Z) :=
  let node := v8m_tagptr_ptr old_head in
  if node =? NULL then None
  else
    let next := rd mm node in
    let new_tag := u16 (v8m_tagptr_tag old_head + 1) in
    Some (node, v8m_tagptr_make next new_tag).

Definition v8m_core_cache_push (g : core_caches) (mm : mem) (cache : option Z) (cls node : Z)
  : core_caches * mem * bool :=
  match cache with
  | None => (g, mm, false)
  | Some cpu =>
      if (node =? NULL) || (V8M_NUM_SIZE_CLASSES <=? cls) then (g, mm, false)
      else
        let '(mm, new_head) := push_pass mm (stack_word g cpu cls) node node in
        (set_stack g cpu cls new_head, mm, true)
  end.

Definition v8m_core_cache_pop (g : core_caches) (mm : mem) (cache : option Z) (cls : Z)
  : core_caches * Z :=
  match cache with
  | None => (g, NULL)
  | Some cpu =>
      if V8M_NUM_SIZE_CLASSES <=? cls then (g, NULL)
      else
        match pop_pass mm (stack_word g cpu cls) with
        | None => (g, NULL)
        | Some (node, new_head) => (set_stack g cpu cls new_head, node)
        end
  end.

Definition v8m_core_cache_push_batch (g : core_caches) (mm : mem) (cur_cpu : Z)
    (cache : option Z) (cls head tail : Z) : core_caches * mem * bool :=
  match cache with
  | None => (g, mm, false)
  | Some cpu =>
      if (head =? NULL) || (tail =? NULL) || (V8M_NUM_SIZE_CLASSES <=? cls) then (g, mm, false)
      else
        let '(mm, new_head) := push_pass mm (stack_word g cpu cls) head tail in
        let g := set_stack g cpu cls new_head in
        let sampled := Z.land g.(t_push_sample_count) 63 =? 0 in
        let g := set_sample g (u32 (g.(t_push_sample_count) + 1)) in
        let g := if sampled && (cur_cpu <? V8M_NUMA_MAX_CPUS) then set_last_push_cpu g cls cur_cpu else g in
        (g, mm, true)
  end.

(** The loop of [v8m_core_cache_pop_batch], [while (count < max)]; [n] is the
    number of iterations left, [max - count]. *)
Fixpoint pop_batch_loop (n : nat) (g : core_caches) (mm : mem) (cache : option Z)
    (cls chain_head chain_tail count : Z) : core_caches * mem * Z * Z * Z :=
  match n with
  | O => (g, mm, chain_head, chain_tail, count)
  | S n =>
      let '(g, node) := v8m_core_cache_pop g mm cache cls in
      if node =? NULL then (g, mm, chain_head, chain_tail, count)
      else if chain_head =? NULL then pop_batch_loop n g mm cache cls node node (count + 1)
      else pop_batch_loop n g (wr mm chain_tail node) cache cls chain_head node (count + 1)
  end.

(** The new state, the count, [*out_head] and [*out_tail]. *)
Definition v8m_core_cache_pop_batch (g : core_caches) (mm : mem) (cache : option Z) (cls max : Z)
  : core_caches * mem * Z * Z * Z :=
  match cache with
  | None => (g, mm, 0, NULL, NULL)
  | Some _ =>
      if (V8M_NUM_SIZE_CLASSES <=? cls) || (max =? 0) then (g, mm, 0, NULL, NULL)
      else
        let '(g, mm, chain_head, chain_tail, count) :=
          pop_batch_loop (Z.to_nat max) g mm cache cls NULL NULL 0 in
        let mm := if 0 <? count then wr mm chain_tail NULL else mm in
        (g, mm, count, chain_head, chain_tail)
  end.

Definition v8m_core_cache_steal_batch (g : core_caches) (mm : mem) (cls exclude_cpu max : Z)
  : core_caches * mem * Z * Z * Z :=
  if (V8M_NUM_SIZE_CLASSES <=? cls) || (max =? 0) then (g, mm, 0, NULL, NULL)
  else
    let donor := znth g.(g_last_push_cpu) cls in
    if (donor =? V8M_STEAL_NO_DONOR) || (donor =? exclude_cpu) || (V8M_NUMA_MAX_CPUS <=? donor)
    then (g, mm, 0, NULL, NULL)
    else v8m_core_cache_pop_batch g mm (Some donor) cls max.

(** ** Tagged pointers *)

Definition is_ptr (p : Z) : Prop := 0 <= p < 2 ^ 48.

Lemma tagptr_ptr_mod w : v8m_tagptr_ptr w = w mod 2 ^ 48.
Proof. unfold v8m_tagptr_ptr. change V8M_TAGPTR_PTR_MASK with (2 ^ 48 - 1). by apply land_mask_low. Qed.

Lemma tagptr_make_eq p t : is_ptr p -> 0 <= t < 2 ^ 16 -> v8m_tagptr_make p t = p + t * 2 ^ 48.
Proof.
  intros Hp Ht. unfold is_ptr in Hp. unfold v8m_tagptr_make. change V8M_TAGPTR_PTR_MASK with (2 ^ 48 - 1).
  rewrite land_mask_low, Z.mod_small by lia. unfold V8M_TAGPTR_PTR_BITS.
  rewrite Z.shiftl_mul_pow2 by lia. rewrite u64_small by (unfold is_u64; lia).
  rewrite <- Z.lxor_lor, <- Z.add_nocarry_lxor; [done|..].
  all: apply Z.bits_inj'; intros j Hj; rewrite Z.land_spec, Z.bits_0;
    destruct (Z.lt_ge_cases j 48);
    [rewrite (Z.mul_pow2_bits_low t) by lia; apply andb_false_r
    |rewrite (testbit_high p 48) by lia; done].
Qed.

Lemma tagptr_make_ptr p t : is_ptr p -> 0 <= t < 2 ^ 16 -> v8m_tagptr_ptr (v8m_tagptr_make p t) = p.
Proof.
  intros Hp Ht. rewrite tagptr_ptr_mod, tagptr_make_eq by done. unfold is_ptr in Hp.
  rewrite Z.mod_add by lia. apply Z.mod_small. lia.
Qed.

Lemma tagptr_make_tag p t : is_ptr p -> 0 <= t < 2 ^ 16 -> v8m_tagptr_tag (v8m_tagptr_make p t) = t.
Proof.
  intros Hp Ht. unfold v8m_tagptr_tag, V8M_TAGPTR_PTR_BITS. rewrite tagptr_make_eq by done.
  unfold is_ptr in Hp. rewrite Z.shiftr_div_pow2 by lia. rewrite Z.div_add by lia.
  rewrite Z.div_small by lia. apply Z.mod_small. lia.
Qed.

Lemma tagptr_ptr_range w : is_ptr (v8m_tagptr_ptr w).
Proof. rewrite tagptr_ptr_mod. apply Z.mod_pos_bound. lia. Qed.

(** The two parts determine the word. *)
Lemma tagptr_eta w : is_u64 w -> v8m_tagptr_make (v8m_tagptr_ptr w) (v8m_tagptr_tag w) = w.
Proof.
  intros Hw. unfold is_u64 in Hw. assert (Ht : v8m_tagptr_tag w = w / 2 ^ 48).
  { unfold v8m_tagptr_tag, V8M_TAGPTR_PTR_BITS. rewrite Z.shiftr_div_pow2 by lia. apply u16_small.
    split; [apply Z.div_pos; lia|apply Z.div_lt_upper_bound; lia]. }
  rewrite tagptr_make_eq; [|apply tagptr_ptr_range|apply u16_range].
  rewrite tagptr_ptr_mod, Ht. pose proof (Z.div_mod w (2 ^ 48)). lia.
Qed.

(** ** One pass on a stack *)

Lemma wr_wr mm a v v' : wr (wr mm a v) a v' = wr mm a v'.
Proof. apply insert_insert_eq. Qed.

(** A chain with an overwritten tail link, pushed on a stack. *)
Lemma push_pass_chain mm w l head l1 tail :
  chain (wr mm tail NULL) head (l1 ++ [tail]) -> chain mm (v8m_tagptr_ptr w) l ->
  (forall x, x ∈ l1 ++ [tail] -> x ∉ l) -> is_ptr head ->
  let '(mm', w') := push_pass mm w head tail in
  chain mm' (v8m_tagptr_ptr w') (l1 ++ tail :: l) /\ v8m_tagptr_tag w' = u16 (v8m_tagptr_tag w + 1) /\
  mm' = wr mm tail (v8m_tagptr_ptr w).
Proof.
  intros Hc Hl Hd Hp. unfold push_pass.
  rewrite tagptr_make_ptr by (done || apply u16_range). split; [|split; [|done]].
  - rewrite <- (wr_wr mm tail NULL). apply chain_splice; [done| |done].
    apply chain_frame; [|done]. apply Hd. set_solver.
  - apply tagptr_make_tag; [done|apply u16_range].
Qed.

Lemma pop_pass_nil mm w : chain mm (v8m_tagptr_ptr w) [] -> pop_pass mm w = None.
Proof. intros H. unfold pop_pass. cbn in H. by rewrite H. Qed.

Lemma chain_head_ptr mm h l : chain mm h l -> Forall is_ptr l -> is_ptr h.
Proof.
  destruct l as [|a l]; cbn; [intros ->; unfold is_ptr, NULL; lia|].
  intros (-> & _) [Ha _]%Forall_cons. done.
Qed.

Lemma pop_pass_cons mm w a l :
  chain mm (v8m_tagptr_ptr w) (a :: l) -> Forall is_ptr (a :: l) ->
  exists w', pop_pass mm w = Some (a, w') /\ chain mm (v8m_tagptr_ptr w') l /\
    v8m_tagptr_ptr w' = rd mm a /\ v8m_tagptr_tag w' = u16 (v8m_tagptr_tag w + 1).
Proof.
  intros Hc Hp. cbn in Hc. destruct Hc as (He & Ha & Hc). apply Forall_cons in Hp as [_ Hp].
  pose proof (chain_head_ptr _ _ _ Hc Hp) as Hn. unfold pop_pass. rewrite He.
  destruct (Z.eqb_spec a NULL); [done|]. eexists. split; [reflexivity|].
  rewrite tagptr_make_ptr, tagptr_make_tag by (done || apply u16_range). done.
Qed.

(** ** The operations on one stack *)

(** The stack of CPU [cpu] and class [cls] holds the nodes [l], top first. *)
Definition holds (g : core_caches) (mm : mem) (cpu cls : Z) (l : list Z) : Prop :=
  chain mm (v8m_tagptr_ptr (stack_word g cpu cls)) l /\ Forall is_ptr l.

Lemma stack_word_set g cpu cls w cpu' cls' :
  stack_word (set_stack g cpu cls w) cpu' cls' =
  if (cpu' =? cpu) && (cls' =? cls) then w else stack_word g cpu' cls'.
Proof.
  unfold stack_word, set_stack. cbn.
  destruct (Z.eqb_spec cpu' cpu) as [->|], (Z.eqb_spec cls' cls) as [->|]; cbn;
    [by rewrite lookup_insert_eq|rewrite lookup_insert_ne; [done|congruence]..].
Qed.

Lemma stack_word_same g cpu cls w : stack_word (set_stack g cpu cls w) cpu cls = w.
Proof. rewrite stack_word_set. by rewrite !Z.eqb_refl. Qed.

Lemma pop_holds g mm cpu cls l :
  holds g mm cpu cls l -> cls < V8M_NUM_SIZE_CLASSES ->
  match l with
  | [] => v8m_core_cache_pop g mm (Some cpu) cls = (g, NULL)
  | a :: l' => exists w, v8m_core_cache_pop g mm (Some cpu) cls = (set_stack g cpu cls w, a) /\
                 a <> NULL /\ holds (set_stack g cpu cls w) mm cpu cls l'
  end.
Proof.
  intros [Hc Hp] Hcls. unfold v8m_core_cache_pop. destruct (Z.leb_spec V8M_NUM_SIZE_CLASSES cls); [lia|].
  destruct l as [|a l]; [by rewrite pop_pass_nil|].
  destruct (pop_pass_cons _ _ _ _ Hc Hp) as (w & He & Hc' & _). rewrite He. exists w.
  cbn in Hc. split_and!; [done|naive_solver|]. split; [by rewrite stack_word_same|by apply Forall_cons in Hp as [_ ?]].
Qed.

(** The nodes collected so far: linked from [h] to [t], whatever [t] links to. *)
Definition collected (mm : mem) (h t : Z) (acc : list Z) : Prop :=
  match acc with
  | [] => h = NULL /\ t = NULL
  | _ => exists acc', acc = acc' ++ [t] /\ chain (wr mm t NULL) h acc
  end.

Lemma chain_ext mm mm' h l : (forall a, a ∈ l -> rd mm' a = rd mm a) -> chain mm h l -> chain mm' h l.
Proof.
  revert h. induction l as [|b l IH]; cbn; intros h He; [done|].
  intros (-> & Hb & Hc). rewrite He by left. split_and!; [done|done|]. apply IH; [|done].
  intros a Ha. apply He. by right.
Qed.

(** Appending a popped node to the collected chain. *)
Lemma collected_snoc mm h t acc node :
  collected mm h t acc -> node <> NULL -> node ∉ acc ->
  if h =? NULL then acc = [] /\ collected mm node node [node]
  else collected (wr mm t node) h node (acc ++ [node]).
Proof.
  intros Hc Hn Hni. destruct acc as [|a acc]; cbn [collected] in Hc.
  - destruct Hc as [-> ->]. rewrite Z.eqb_refl. split; [done|]. exists []. split; [done|].
    cbn. by rewrite rd_wr_eq.
  - destruct Hc as (acc' & Hacc & Hc). destruct (Z.eqb_spec h NULL) as [->|_].
    { apply chain_null in Hc. done. }
    assert (Htn : t <> node). { intros ->. apply Hni. rewrite Hacc. set_solver. }
    rewrite Hacc in *. unfold collected.
    assert (Hgoal : exists acc0, (acc' ++ [t]) ++ [node] = acc0 ++ [node] /\
      chain (wr (wr mm t node) node NULL) h ((acc' ++ [t]) ++ [node])).
    { exists (acc' ++ [t]). split; [done|]. rewrite <- app_assoc. cbn [app].
      apply (chain_ext (wr (wr (wr mm t NULL) node NULL) t node)).
      - intros x _. destruct (decide (x = t)) as [->|]; [by rewrite rd_wr_ne, !rd_wr_eq by done|].
        destruct (decide (x = node)) as [->|]; [by rewrite rd_wr_eq, rd_wr_ne, rd_wr_eq by done|].
        by rewrite !rd_wr_ne by done.
      - apply chain_splice; [by apply chain_frame| |set_solver].
        cbn. by rewrite rd_wr_eq. }
    by destruct ((acc' ++ [t]) ++ [node]) eqn:E; [destruct acc'; discriminate|].
Qed.

Lemma pop_batch_loop_spec n g mm cpu cls l h t acc count :
  cls < V8M_NUM_SIZE_CLASSES -> holds g mm cpu cls l -> collected mm h t acc ->
  (forall x, x ∈ acc -> x ∉ l) ->
  exists g' mm' h' t', pop_batch_loop n g mm (Some cpu) cls h t count =
      (g', mm', h', t', count + Z.of_nat (length (take n l))) /\
    holds g' mm' cpu cls (drop n l) /\ collected mm' h' t' (acc ++ take n l) /\
    (forall a, a ∉ acc ++ take n l -> rd mm' a = rd mm a) /\
    (forall cpu' cls', (cpu', cls') <> (cpu, cls) -> stack_word g' cpu' cls' = stack_word g cpu' cls').
Proof.
  intros Hcls. revert g mm l h t acc count.
  induction n as [|n IH]; intros g mm l h t acc count Hh Hc Hd; cbn [pop_batch_loop].
  { exists g, mm, h, t. rewrite take_0, drop_0, app_nil_r. cbn. rewrite Z.add_0_r. by split_and!. }
  pose proof (pop_holds g mm cpu cls l Hh Hcls) as Hpop. destruct l as [|a l].
  { rewrite Hpop, Z.eqb_refl. exists g, mm, h, t. cbn [take drop length]. rewrite app_nil_r, Z.add_0_r.
    by split_and!. }
  destruct Hpop as (w & -> & Ha & Hh'). destruct (Z.eqb_spec a NULL); [done|].
  pose proof (chain_NoDup _ _ _ (proj1 Hh)) as Hnd. apply NoDup_cons in Hnd as [Hal _].
  assert (Haa : a ∉ acc) by (intros Hin; apply (Hd a Hin); left).
  assert (Hother : forall cpu' cls', (cpu', cls') <> (cpu, cls) ->
    stack_word (set_stack g cpu cls w) cpu' cls' = stack_word g cpu' cls').
  { intros cpu' cls' Hne. rewrite stack_word_set.
    destruct (Z.eqb_spec cpu' cpu) as [->|], (Z.eqb_spec cls' cls) as [->|]; done. }
  cbn [take drop length].
  replace (count + Z.of_nat (S (length (take n l)))) with (count + 1 + Z.of_nat (length (take n l))) by lia.
  pose proof (collected_snoc mm h t acc a Hc Ha Haa) as Hsn. revert Hsn.
  destruct (Z.eqb_spec h NULL) as [Hh0|Hh0]; intros Hsn.
  - destruct Hsn as [-> Hsn].
    destruct (IH _ mm l a a [a] (count + 1) Hh' Hsn) as (g' & mm' & h' & t' & He & H1 & H2 & H3 & H4);
      [set_solver|]. exists g', mm', h', t'. split_and!; [done|done|done|done|].
    intros cpu' cls' Hne. rewrite H4 by done. by apply Hother.
  - assert (Ht : t ∈ acc).
    { destruct acc as [|x acc]; cbn in Hc; [by destruct Hc as [-> _]|].
      destruct Hc as (acc' & -> & _). set_solver. }
    destruct (IH (set_stack g cpu cls w) (wr mm t a) l h a (acc ++ [a]) (count + 1)) as (g' & mm' & h' & t' & He & H1 & H2 & H3 & H4).
    + destruct Hh' as [Hc' Hp']. split; [|done]. apply chain_frame; [|done]. set_solver.
    + done.
    + set_solver.
    + exists g', mm', h', t'. rewrite <- app_assoc in *. cbn in *. split_and!; [done|done|done| |].
      * intros x Hx. rewrite H3 by done. rewrite rd_wr_ne; [done|]. set_solver.
      * intros cpu' cls' Hne. rewrite H4 by done. by apply Hother.
Qed.

Lemma push_batch_holds g mm cur_cpu cpu cls l head l1 tail :
  holds g mm cpu cls l -> cls < V8M_NUM_SIZE_CLASSES ->
  chain (wr mm tail NULL) head (l1 ++ [tail]) -> Forall is_ptr (l1 ++ [tail]) ->
  (forall x, x ∈ l1 ++ [tail] -> x ∉ l) ->
  exists g' mm', v8m_core_cache_push_batch g mm cur_cpu (Some cpu) cls head tail = (g', mm', true) /\
    holds g' mm' cpu cls (l1 ++ tail :: l) /\ (forall a, a <> tail -> rd mm' a = rd mm a) /\
    (forall cpu' cls', (cpu', cls') <> (cpu, cls) -> stack_word g' cpu' cls' = stack_word g cpu' cls').
Proof.
  intros [Hl Hpl] Hcls Hc Hp Hd. pose proof (chain_head_ptr _ _ _ Hc Hp) as Hhp.
  assert (Hh : head <> NULL).
  { intros ->. apply chain_null in Hc. by destruct l1. }
  assert (Ht : tail <> NULL).
  { apply chain_suffix in Hc as (h' & Hs). cbn in Hs. naive_solver. }
  unfold v8m_core_cache_push_batch.
  destruct (Z.eqb_spec head NULL); [done|]. destruct (Z.eqb_spec tail NULL); [done|].
  destruct (Z.leb_spec V8M_NUM_SIZE_CLASSES cls); [lia|]. cbn [orb].
  pose proof (push_pass_chain mm _ l head l1 tail Hc Hl Hd Hhp) as Hpass.
  destruct (push_pass mm (stack_word g cpu cls) head tail) as [mm1 w]. destruct Hpass as (Hch & _ & ->).
  eexists _, _. split; [reflexivity|].
  assert (Hst : forall cpu' cls' (c : bool) v, stack_word (if c then set_last_push_cpu (set_sample (set_stack g cpu cls w) v) cls cur_cpu
      else set_sample (set_stack g cpu cls w) v) cpu' cls' = stack_word (set_stack g cpu cls w) cpu' cls') by (by intros ? ? []).
  split; [split; [by rewrite Hst, stack_word_same|]|split].
  - rewrite Forall_app in Hp. rewrite Forall_app, Forall_cons. rewrite Forall_singleton in Hp. tauto.
  - intros a Ha. by rewrite rd_wr_ne.
  - intros cpu' cls' Hne. rewrite Hst, stack_word_set.
    destruct (Z.eqb_spec cpu' cpu) as [->|], (Z.eqb_spec cls' cls) as [->|]; done.
Qed.

(** Pushing a chain (whatever its tail links to) puts its nodes, in order,
    above the stack's; no other word of memory and no other stack changes. *)
Theorem v8m_core_cache_push_batch_spec g mm cur_cpu cpu cls l head l1 tail :
  holds g mm cpu cls l -> cls < V8M_NUM_SIZE_CLASSES ->
  chain (wr mm tail NULL) head (l1 ++ [tail]) -> Forall is_ptr (l1 ++ [tail]) ->
  (forall x, x ∈ l1 ++ [tail] -> x ∉ l) ->
  exists g' mm', v8m_core_cache_push_batch g mm cur_cpu (Some cpu) cls head tail = (g', mm', true) /\
    holds g' mm' cpu cls (l1 ++ tail :: l) /\ (forall a, a <> tail -> rd mm' a = rd mm a) /\
    (forall cpu' cls', (cpu', cls') <> (cpu, cls) -> stack_word g' cpu' cls' = stack_word g cpu' cls').
Proof. apply push_batch_holds. Qed.

Lemma holds_empty g mm cpu cls : stack_word g cpu cls = 0 -> holds g mm cpu cls [].
Proof. intros H. split; [cbn; by rewrite H|constructor]. Qed.

Lemma v8m_core_cache_push_batch_spec_witness :
  exists g' mm', v8m_core_cache_push_batch init_steal_hints (wr ∅ 64 128) 5 (Some 3) 9 64 128 = (g', mm', true) /\
    holds g' mm' 3 9 [64; 128].
Proof.
  destruct (v8m_core_cache_push_batch_spec init_steal_hints (wr ∅ 64 128) 5 3 9 [] 64 [64] 128) as (g' & mm' & H1 & H2 & _).
  - apply holds_empty. reflexivity.
  - reflexivity.
  - cbn. split_and!; done.
  - repeat constructor; vm_compute; done.
  - intros x _ Hx. by apply elem_of_nil in Hx.
  - exists g', mm'. split; [exact H1|exact H2].
Defined.

Lemma pop_batch_holds g mm cpu cls l max :
  holds g mm cpu cls l -> cls < V8M_NUM_SIZE_CLASSES -> 0 <= max ->
  let taken := take (Z.to_nat max) l in
  exists g' mm' h t, v8m_core_cache_pop_batch g mm (Some cpu) cls max =
      (g', mm', Z.of_nat (length taken), h, t) /\
    holds g' mm' cpu cls (drop (Z.to_nat max) l) /\ chain mm' h taken /\ t = default NULL (last taken) /\
    (forall a, a ∉ taken -> rd mm' a = rd mm a) /\
    (forall cpu' cls', (cpu', cls') <> (cpu, cls) -> stack_word g' cpu' cls' = stack_word g cpu' cls').
Proof.
  intros Hh Hcls Hmax taken. unfold v8m_core_cache_pop_batch.
  destruct (Z.leb_spec V8M_NUM_SIZE_CLASSES cls); [lia|]. cbn [orb].
  destruct (Z.eqb_spec max 0) as [->|Hm0].
  { exists g, mm, NULL, NULL. unfold taken. rewrite Z2Nat.inj_0, take_0, drop_0. by split_and!. }
  destruct (pop_batch_loop_spec (Z.to_nat max) g mm cpu cls l NULL NULL [] 0) as
    (g' & mm' & h & t & -> & H1 & H2 & H3 & H4); [done|done|done|set_solver|].
  rewrite app_nil_l, Z.add_0_l in *. fold taken in H2, H3 |- *.
  pose proof (chain_NoDup _ _ _ (proj1 Hh)) as Hnd. rewrite <- (take_drop (Z.to_nat max) l) in Hnd.
  apply NoDup_app in Hnd as (_ & Hdis & _). fold taken in Hdis.
  destruct taken as [|x rest] eqn:Htk; cbn [collected] in H2.
  - destruct H2 as [-> ->]. eexists _, _, _, _. split; [reflexivity|]. by split_and!.
  - destruct H2 as (acc' & Hacc & Hch).
    assert (0 <? Z.of_nat (length (x :: rest)) = true) as -> by (apply Z.ltb_lt; cbn [length]; lia).
    assert (Htin : t ∈ x :: rest) by (rewrite Hacc; set_solver).
    eexists _, _, _, _. split; [reflexivity|]. split_and!; [|done| | |done].
    + destruct H1 as [Hc Hp]. split; [|done]. apply chain_frame; [|done]. by apply Hdis.
    + by rewrite Hacc, last_snoc.
    + intros a Ha. rewrite rd_wr_ne; [by apply H3|]. by intros ->.
Qed.

(** A batch pop takes the top [min max n] nodes of a stack of [n], returns
    them as a [NULL]-terminated chain in stack order with its tail, and leaves the
    rest; only the returned nodes' words and this stack change. *)
Theorem v8m_core_cache_pop_batch_spec g mm cpu cls l max :
  holds g mm cpu cls l -> cls < V8M_NUM_SIZE_CLASSES -> 0 <= max ->
  let taken := take (Z.to_nat max) l in
  exists g' mm' h t, v8m_core_cache_pop_batch g mm (Some cpu) cls max =
      (g', mm', Z.of_nat (length taken), h, t) /\
    holds g' mm' cpu cls (drop (Z.to_nat max) l) /\ chain mm' h taken /\ t = default NULL (last taken) /\
    (forall a, a ∉ taken -> rd mm' a = rd mm a) /\
    (forall cpu' cls', (cpu', cls') <> (cpu, cls) -> stack_word g' cpu' cls' = stack_word g cpu' cls').
Proof. apply pop_batch_holds. Qed.

Lemma v8m_core_cache_pop_batch_spec_witness :
  let '(g, mm, _) := v8m_core_cache_push_batch init_steal_hints (wr ∅ 64 128) 5 (Some 3) 9 64 128 in
  exists g' mm' h t, v8m_core_cache_pop_batch g mm (Some 3) 9 1 = (g', mm', 1, h, t) /\
    holds g' mm' 3 9 [128] /\ chain mm' h [64].
Proof.
  destruct (push_batch_holds init_steal_hints (wr ∅ 64 128) 5 3 9 [] 64 [64] 128) as (g & mm & -> & Hh & _).
  - apply holds_empty. reflexivity.
  - reflexivity.
  - cbn. split_and!; done.
  - repeat constructor; vm_compute; done.
  - intros x _ Hx. by apply elem_of_nil in Hx.
  - destruct (v8m_core_cache_pop_batch_spec g mm 3 9 [64; 128] 1 Hh ltac:(reflexivity) ltac:(lia))
      as (g' & mm' & h & t & H1 & H2 & H3 & _).
    exists g', mm', h, t. split; [exact H1|]. split; [exact H2|exact H3].
Defined.

(** A steal takes only from the hinted donor, never from the caller's own CPU. *)
Lemma v8m_core_cache_steal_batch_spec g mm cls exclude max :
  0 <= max ->
  let donor := znth g.(g_last_push_cpu) cls in
  (donor = exclude \/ V8M_NUMA_MAX_CPUS <= donor -> v8m_core_cache_steal_batch g mm cls exclude max = (g, mm, 0, NULL, NULL)) /\
  (donor <> exclude -> donor < V8M_NUMA_MAX_CPUS ->
   v8m_core_cache_steal_batch g mm cls exclude max = v8m_core_cache_pop_batch g mm (Some donor) cls max).
Proof.
  intros Hm donor. unfold v8m_core_cache_steal_batch, v8m_core_cache_pop_batch. fold donor.
  change V8M_NUMA_MAX_CPUS with 4096. change V8M_STEAL_NO_DONOR with (2 ^ 32 - 1).
  destruct ((V8M_NUM_SIZE_CLASSES <=? cls) || (max =? 0)); [done|].
  split.
  - intros H. destruct (Z.eqb_spec donor (2 ^ 32 - 1)), (Z.eqb_spec donor exclude), (Z.leb_spec 4096 donor);
      cbn [orb]; try done; lia.
  - intros H1 H2. destruct (Z.eqb_spec donor (2 ^ 32 - 1)), (Z.eqb_spec donor exclude), (Z.leb_spec 4096 donor);
      cbn [orb]; try done; lia.
Qed.

End CoreCache.
