(* ===== verification/CoreCacheConc.v ===== *)
(** The L2 stacks under concurrency: the retry loops of [v8m_core_cache_push],
    [v8m_core_cache_push_batch] and [v8m_core_cache_pop] of
    [src/v8m_core_cache.c], interleaved.

    One stack, any number of threads.  A push is a chain (a single node included)
    that the thread owns; a pop reads the link of a node that another thread may
    meanwhile have popped, handed out and overwritten.  The 16-bit tag makes the
    final compare-and-swap fail in that case, as long as fewer than [2^16] other
    operations completed since the thread loaded the head; that bound is the
    premise of [run_pop_cas].  The theorem is linearizability against a
    sequential stack. *)

From S2P Require Import Prelude CoreCache.
Import CoreCache.

Module CoreCacheConc.

(** Where a thread is inside its loop.  [stamp] is the number of operations that
    had completed when it loaded [old]. *)
Inductive pc :=
| PushLoaded (nodes : list Z) (old stamp : Z)
| PushLinked (nodes : list Z) (old new : Z)
| PopLoaded (old stamp : Z)
| PopRead (old node new stamp : Z).

(** The nodes a thread in the loop owns. *)
Definition pc_nodes (p : pc) : list Z :=
  match p with PushLoaded ns _ _ | PushLinked ns _ _ => ns | _ => [] end.

(** The stack's word, memory, the threads, and the count of completed operations. *)
Record sys := MkSys { c_head : Z; c_mem : mem; c_pcs : gmap nat pc; c_ops : Z }.

Inductive event := EvPush (nodes : list Z) | EvPop (node : Z) | EvEmpty.

(** The sequential stack; [None] is an illegal history. *)
Definition replay1 (st : option (list Z)) (e : event) : option (list Z) :=
  l ← st;
  match e with
  | EvPush ns => Some (ns ++ l)
  | EvPop n => match l with x :: l => if x =? n then Some l else None | [] => None end
  | EvEmpty => match l with [] => Some [] | _ => None end
  end.
Definition replay (evs : list event) : option (list Z) := foldl replay1 (Some []) evs.

Definition cas (head old new : Z) : option Z := if head =? old then Some new else None.

(** A thread outside the loops, or one whose pop attempt failed. *)
Definition at_pop_load (pcs : gmap nat pc) (t : nat) : Prop :=
  pcs !! t = None \/ exists old node new stamp, pcs !! t = Some (PopRead old node new stamp).

(** The chain a push brings: valid nodes linked up to the last one, owned by
    nobody else and not on the stack. *)
Record pushable (evs : list event) (mm : mem) (pcs : gmap nat pc) (ns : list Z) : Prop := {
  p_ptrs : Forall is_ptr ns;
  p_chain : exists l1 t, ns = l1 ++ [t] /\ chain (wr mm t NULL) (default NULL (head ns)) ns;
  p_stack : forall l x, replay evs = Some l -> x ∈ ns -> x ∉ l;
  p_flight : forall t p x, pcs !! t = Some p -> x ∈ ns -> x ∉ pc_nodes p
}.

Inductive run : list event -> sys -> Prop :=
| run_init mm : run [] (MkSys 0 mm ∅ 0)
| run_push_load evs h mm pcs ops t ns :
    run evs (MkSys h mm pcs ops) -> pcs !! t = None -> pushable evs mm pcs ns ->
    run evs (MkSys h mm (<[t := PushLoaded ns h ops]> pcs) ops)
| run_push_link evs h mm pcs ops t ns old stamp mm' new :
    run evs (MkSys h mm pcs ops) -> pcs !! t = Some (PushLoaded ns old stamp) ->
    push_pass mm old (default NULL (head ns)) (default NULL (last ns)) = (mm', new) ->
    run evs (MkSys h mm' (<[t := PushLinked ns old new]> pcs) ops)
| run_push_cas evs h mm pcs ops t ns old new h' :
    run evs (MkSys h mm pcs ops) -> pcs !! t = Some (PushLinked ns old new) -> cas h old new = Some h' ->
    run (evs ++ [EvPush ns]) (MkSys h' mm (delete t pcs) (ops + 1))
| run_push_retry evs h mm pcs ops t ns old new :
    run evs (MkSys h mm pcs ops) -> pcs !! t = Some (PushLinked ns old new) ->
    run evs (MkSys h mm (<[t := PushLoaded ns h ops]> pcs) ops)
| run_pop_empty evs h mm pcs ops t :
    run evs (MkSys h mm pcs ops) -> at_pop_load pcs t -> v8m_tagptr_ptr h = NULL ->
    run (evs ++ [EvEmpty]) (MkSys h mm (delete t pcs) ops)
| run_pop_load evs h mm pcs ops t :
    run evs (MkSys h mm pcs ops) -> at_pop_load pcs t -> v8m_tagptr_ptr h <> NULL ->
    run evs (MkSys h mm (<[t := PopLoaded h ops]> pcs) ops)
| run_pop_read evs h mm pcs ops t old stamp node new :
    run evs (MkSys h mm pcs ops) -> pcs !! t = Some (PopLoaded old stamp) ->
    pop_pass mm old = Some (node, new) ->
    run evs (MkSys h mm (<[t := PopRead old node new stamp]> pcs) ops)
| run_pop_cas evs h mm pcs ops t old node new stamp h' :
    run evs (MkSys h mm pcs ops) -> pcs !! t = Some (PopRead old node new stamp) ->
    ops - stamp < 2 ^ 16 -> cas h old new = Some h' ->
    run (evs ++ [EvPop node]) (MkSys h' mm (delete t pcs) (ops + 1))
| run_client evs h mm pcs ops a v :
    run evs (MkSys h mm pcs ops) -> (forall l, replay evs = Some l -> a ∉ l) ->
    (forall t p, pcs !! t = Some p -> a ∉ pc_nodes p) ->
    run evs (MkSys h (wr mm a v) pcs ops).

(** ** The invariant *)

(** What a thread inside a loop can rely on. *)
Definition pc_ok (h : Z) (mm : mem) (ops : Z) (p : pc) : Prop :=
  match p with
  | PushLoaded ns old _ =>
      exists l1 t, ns = l1 ++ [t] /\ chain (wr mm t NULL) (default NULL (head ns)) ns /\ Forall is_ptr ns
  | PushLinked ns old new =>
      (exists l1 t, ns = l1 ++ [t] /\ chain (wr mm t NULL) (default NULL (head ns)) ns /\ Forall is_ptr ns /\
         rd mm t = v8m_tagptr_ptr old) /\
      new = v8m_tagptr_make (default NULL (head ns)) (u16 (v8m_tagptr_tag old + 1))
  | PopLoaded old stamp =>
      v8m_tagptr_tag old = u16 stamp /\ v8m_tagptr_ptr old <> NULL /\ 0 <= stamp <= ops /\ (stamp = ops -> old = h)
  | PopRead old node new stamp =>
      v8m_tagptr_tag old = u16 stamp /\ 0 <= stamp <= ops /\
      (stamp = ops -> old = h /\ pop_pass mm old = Some (node, new))
  end.

Record good (l : list Z) (s : sys) : Prop := {
  g_chain : chain s.(c_mem) (v8m_tagptr_ptr s.(c_head)) l;
  g_ptrs : Forall is_ptr l;
  g_ops : 0 <= s.(c_ops);
  g_tag : v8m_tagptr_tag s.(c_head) = u16 s.(c_ops);
  g_pcs : forall t p, s.(c_pcs) !! t = Some p -> pc_ok s.(c_head) s.(c_mem) s.(c_ops) p;
  g_apart : forall t p x, s.(c_pcs) !! t = Some p -> x ∈ pc_nodes p -> x ∉ l;
  g_distinct : forall t t' p p' x, s.(c_pcs) !! t = Some p -> s.(c_pcs) !! t' = Some p' ->
                 x ∈ pc_nodes p -> x ∈ pc_nodes p' -> t = t'
}.

(** A write away from the stack and from a thread's nodes keeps its part. *)
Lemma pc_ok_frame h mm ops p a v l :
  pc_ok h mm ops p -> chain mm (v8m_tagptr_ptr h) l -> Forall is_ptr l -> a ∉ l -> a ∉ pc_nodes p ->
  pc_ok h (wr mm a v) ops p.
Proof.
  intros Hp Hc Hps Hl Hn. destruct p as [ns old st|ns old new|old st|old node new st]; cbn in *.
  - destruct Hp as (l1 & t & -> & Hch & Hf). exists l1, t. split_and!; [done| |done].
    eapply chain_ext; [|exact Hch]. intros x Hx. destruct (decide (x = t)) as [->|]; [by rewrite !rd_wr_eq|].
    rewrite !rd_wr_ne; [done|done|by intros ->|done].
  - destruct Hp as ((l1 & t & -> & Hch & Hf & Hr) & Hnew). split; [|done]. exists l1, t. split_and!; [done| |done|].
    + eapply chain_ext; [|exact Hch]. intros x Hx. destruct (decide (x = t)) as [->|]; [by rewrite !rd_wr_eq|].
      rewrite !rd_wr_ne; [done|done|by intros ->|done].
    + rewrite rd_wr_ne; [done|]. intros ->. apply Hn. set_solver.
  - done.
  - destruct Hp as (Ht & Hs & Hcur). split_and!; [done|lia|lia|]. intros He. destruct (Hcur He) as [-> Hpop].
    split; [done|]. unfold pop_pass in *. destruct (Z.eqb_spec (v8m_tagptr_ptr h) NULL) as [|Hne]; [done|].
    destruct (chain_not_null _ _ _ Hc Hne) as (l' & -> & _). rewrite rd_wr_ne; [done|].
    intros ->. apply Hl. left.
Qed.

(** A completed operation outdates every other pop in progress. *)
Lemma pc_ok_tick h h' mm ops p : pc_ok h mm ops p -> pc_ok h' mm (ops + 1) p.
Proof. destruct p; cbn; [done|done|intuition lia|intuition lia]. Qed.

(** A pop that survives the tag check is current. *)
Lemma tag_current ops stamp : 0 <= stamp <= ops -> ops - stamp < 2 ^ 16 -> u16 ops = u16 stamp -> stamp = ops.
Proof.
  intros H1 H2 He. unfold u16 in He. assert (Hm : (ops - stamp) mod 2 ^ 16 = 0).
  { rewrite Zminus_mod, He, Z.sub_diag. done. }
  rewrite Z.mod_small in Hm by lia. lia.
Qed.

(** ** Preservation *)

Lemma good_delete l h mm pcs ops t : good l (MkSys h mm pcs ops) -> good l (MkSys h mm (delete t pcs) ops).
Proof.
  intros [Gc Gp Go Gt Gk Ga Gd]. constructor; cbn in *; try done.
  - intros t' p [_ H]%lookup_delete_Some. by eapply Gk.
  - intros t' p x [_ H]%lookup_delete_Some. by eapply Ga.
  - intros t1 t2 p1 p2 x [_ H1]%lookup_delete_Some [_ H2]%lookup_delete_Some. by eapply Gd.
Qed.

Lemma good_insert l h mm pcs ops t p :
  good l (MkSys h mm (delete t pcs) ops) -> pc_ok h mm ops p ->
  (forall x, x ∈ pc_nodes p -> x ∉ l) ->
  (forall t' p' x, t' <> t -> pcs !! t' = Some p' -> x ∈ pc_nodes p -> x ∉ pc_nodes p') ->
  good l (MkSys h mm (<[t := p]> pcs) ops).
Proof.
  intros [Gc Gp Go Gt Gk Ga Gd] Hok Hl Hne. cbn in *.
  assert (Hdel : forall t' q, t' <> t -> pcs !! t' = Some q -> delete t pcs !! t' = Some q).
  { intros t' q Ht Hq. by rewrite lookup_delete_ne by congruence. }
  constructor; cbn; try done.
  - intros t' q [[<- <-]|[Ht Hq]]%lookup_insert_Some; [done|]. eapply Gk, Hdel; [|exact Hq]. congruence.
  - intros t' q x [[<- <-]|[Ht Hq]]%lookup_insert_Some; [by apply Hl|]. eapply Ga, Hdel; [|exact Hq]. congruence.
  - intros t1 t2 q1 q2 x [[<- <-]|[Ht1 Hq1]]%lookup_insert_Some [[<- <-]|[Ht2 Hq2]]%lookup_insert_Some Hx1 Hx2.
    + done.
    + exfalso. by apply (Hne t2 q2 x).
    + exfalso. by apply (Hne t1 q1 x).
    + eapply Gd; [apply Hdel; [|exact Hq1]|apply Hdel; [|exact Hq2]|done|done]; congruence.
Qed.

Lemma good_write l h mm pcs ops a v :
  good l (MkSys h mm pcs ops) -> a ∉ l -> (forall t p, pcs !! t = Some p -> a ∉ pc_nodes p) ->
  good l (MkSys h (wr mm a v) pcs ops).
Proof.
  intros [Gc Gp Go Gt Gk Ga Gd] Hl Hn. constructor; cbn in *; try done; [by apply chain_frame|].
  intros t p Hp. by apply (pc_ok_frame h mm ops p a v l); [eapply Gk|..|by eapply Hn].
Qed.

Lemma good_complete l l' h h' mm pcs ops t :
  good l (MkSys h mm pcs ops) -> chain mm (v8m_tagptr_ptr h') l' -> Forall is_ptr l' ->
  v8m_tagptr_tag h' = u16 (ops + 1) ->
  (forall t' p x, t' <> t -> pcs !! t' = Some p -> x ∈ pc_nodes p -> x ∉ l') ->
  good l' (MkSys h' mm (delete t pcs) (ops + 1)).
Proof.
  intros [Gc Gp Go Gt Gk Ga Gd] Hc Hp Ht Hn. constructor; cbn in *; try done; [lia|..].
  - intros t' p [_ H]%lookup_delete_Some. by eapply pc_ok_tick, Gk.
  - intros t' p x [Hne H]%lookup_delete_Some. by eapply Hn.
  - intros t1 t2 p1 p2 x [_ H1]%lookup_delete_Some [_ H2]%lookup_delete_Some. by eapply Gd.
Qed.

Lemma u16_succ x : u16 (u16 x + 1) = u16 (x + 1).
Proof. unfold u16. by rewrite Zplus_mod_idemp_l. Qed.

(** The last store before a push's compare-and-swap. *)
Lemma good_link l h mm pcs ops t ns old stamp mm' new :
  good l (MkSys h mm pcs ops) -> pcs !! t = Some (PushLoaded ns old stamp) ->
  push_pass mm old (default NULL (head ns)) (default NULL (last ns)) = (mm', new) ->
  good l (MkSys h mm' (<[t := PushLinked ns old new]> pcs) ops).
Proof.
  intros G Ht He. pose proof (g_pcs _ _ G _ _ Ht) as (l1 & tl & Hns & Hch & Hf).
  pose proof (g_apart _ _ G _ _ tl Ht) as Ha. pose proof (fun t' p x => g_distinct _ _ G t t' _ p x Ht) as Hd.
  cbn in Ha, Hd. assert (Htl : tl ∈ ns) by (rewrite Hns; set_solver).
  assert (Hlast : default NULL (last ns) = tl) by (by rewrite Hns, last_snoc).
  rewrite Hlast in He. unfold push_pass in He. injection He as <- <-.
  apply good_insert.
  - apply good_write; [by apply good_delete|auto|]. intros t' p [Hne Hp]%lookup_delete_Some Hin.
    apply Hne. by eapply (Hd t' p tl).
  - cbn. split; [|done]. exists l1, tl. split_and!; [done|by rewrite wr_wr|done|apply rd_wr_eq].
  - intros x. by apply (g_apart _ _ G _ _ x Ht).
  - intros t' p x Hne Hp Hx Hx'. apply Hne. symmetry. by eapply (Hd t' p x).
Qed.

Lemma good_push l h mm pcs ops t ns old new h' :
  good l (MkSys h mm pcs ops) -> pcs !! t = Some (PushLinked ns old new) -> cas h old new = Some h' ->
  good (ns ++ l) (MkSys h' mm (delete t pcs) (ops + 1)).
Proof.
  intros G Ht Hcas. unfold cas in Hcas. destruct (Z.eqb_spec h old) as [<-|]; [|done]. injection Hcas as <-.
  pose proof (g_pcs _ _ G _ _ Ht) as ((l1 & tl & Hns & Hch & Hf & Hr) & ->). cbn in Hch, Hr.
  pose proof (chain_head_ptr _ _ _ Hch Hf) as Hhp.
  pose proof (fun x => g_apart _ _ G _ _ x Ht) as Ha. cbn in Ha.
  eapply good_complete; [exact G| | | |].
  - rewrite tagptr_make_ptr by (done || apply u16_range). rewrite Hns, <- app_assoc. cbn [app].
    rewrite Hns in Hch, Ha.
    apply (chain_ext (wr (wr mm tl NULL) tl (v8m_tagptr_ptr h))).
    + intros x _. rewrite wr_wr. destruct (decide (x = tl)) as [->|]; [by rewrite rd_wr_eq|by rewrite rd_wr_ne].
    + apply chain_splice; [done| |done]. apply chain_frame; [apply Ha; set_solver|apply (g_chain _ _ G)].
  - apply Forall_app. split; [done|apply (g_ptrs _ _ G)].
  - rewrite tagptr_make_tag by (done || apply u16_range). pose proof (g_tag _ _ G) as Hgt. cbn in Hgt. rewrite Hgt. apply u16_succ.
  - intros t' p x Hne Hp Hx. apply not_elem_of_app. split; [|by apply (g_apart _ _ G _ _ x Hp)].
    intros Hx'. apply Hne. by apply (g_distinct _ _ G t' t p _ x Hp Ht Hx).
Qed.

Lemma good_pop l h mm pcs ops t old node new stamp h' :
  good l (MkSys h mm pcs ops) -> pcs !! t = Some (PopRead old node new stamp) ->
  ops - stamp < 2 ^ 16 -> cas h old new = Some h' ->
  exists l', l = node :: l' /\ good l' (MkSys h' mm (delete t pcs) (ops + 1)).
Proof.
  intros G Ht Hw Hcas. unfold cas in Hcas. destruct (Z.eqb_spec h old) as [<-|]; [|done]. injection Hcas as <-.
  pose proof (g_pcs _ _ G _ _ Ht) as (Htag & Hst & Hcur). cbn in Hcur.
  pose proof (g_tag _ _ G) as Hht. cbn in Hht. rewrite Htag in Hht.
  destruct (Hcur (tag_current _ _ Hst Hw (eq_sym Hht))) as [_ Hpop].
  pose proof (g_chain _ _ G) as Hc. pose proof (g_ptrs _ _ G) as Hp. cbn in Hc.
  destruct l as [|a l]; [by rewrite (pop_pass_nil _ _ Hc) in Hpop|].
  destruct (pop_pass_cons _ _ _ _ Hc Hp) as (w & He & Hc' & _ & Htw). rewrite Hpop in He. injection He as -> ->.
  exists l. split; [done|]. apply Forall_cons in Hp as [_ Hp].
  eapply good_complete; [exact G|done|done| |].
  - pose proof (g_tag _ _ G) as Hgt. cbn in Hgt. rewrite Htw, Hgt. apply u16_succ.
  - intros t' p x Hne Hpt Hx Hin. apply (g_apart _ _ G _ _ x Hpt Hx). by right.
Qed.

Lemma replay_snoc_some evs l e : replay evs = Some l -> replay (evs ++ [e]) = replay1 (Some l) e.
Proof. intros H. unfold replay in *. by rewrite foldl_app, H. Qed.

Lemma core_run_good evs s : run evs s -> exists l, replay evs = Some l /\ good l s.
Proof.
  induction 1 as [mm|evs h mm pcs ops t ns _ (l & Hr & G) Ht Hp|evs h mm pcs ops t ns old stamp mm' new _ (l & Hr & G) Ht He
    |evs h mm pcs ops t ns old new h' _ (l & Hr & G) Ht Hcas|evs h mm pcs ops t ns old new _ (l & Hr & G) Ht
    |evs h mm pcs ops t _ (l & Hr & G) Ht Hn|evs h mm pcs ops t _ (l & Hr & G) Ht Hn
    |evs h mm pcs ops t old stamp node new _ (l & Hr & G) Ht Hpop
    |evs h mm pcs ops t old node new stamp h' _ (l & Hr & G) Ht Hw Hcas|evs h mm pcs ops a v _ (l & Hr & G) Ha Hf].
  - exists []. split; [done|]. constructor; cbn; try done; try constructor; intros; by rewrite lookup_empty in *.
  - exists l. split; [done|]. destruct Hp as [P1 (l1 & tl & P2 & P3) P4 P5].
    apply good_insert; [by apply good_delete|by exists l1, tl|by intros x; apply P4|].
    intros t' p x _ Hq Hx. by eapply P5.
  - exists l. split; [done|]. by eapply good_link.
  - exists (ns ++ l). split; [by rewrite (replay_snoc_some _ _ _ Hr)|]. by eapply good_push.
  - exists l. split; [done|]. pose proof (g_pcs _ _ G _ _ Ht) as ((l1 & tl & H1 & H2 & H3 & _) & _).
    apply good_insert; [by apply good_delete|by exists l1, tl|by intros x; apply (g_apart _ _ G _ _ x Ht)|].
    intros t' p x Hne Hp Hx Hx'. apply Hne. by apply (g_distinct _ _ G t' t p _ x Hp Ht Hx').
  - exists []. pose proof (g_chain _ _ G) as Hc. cbn in Hc. rewrite Hn in Hc. apply chain_null in Hc as ->.
    split; [by rewrite (replay_snoc_some _ _ _ Hr)|]. by apply good_delete.
  - exists l. split; [done|]. apply good_insert; [by apply good_delete| |intros x; set_solver|intros; set_solver].
    cbn. pose proof (g_tag _ _ G). pose proof (g_ops _ _ G). cbn in *. split_and!; [done|done|lia|lia|done].
  - exists l. split; [done|]. pose proof (g_pcs _ _ G _ _ Ht) as (H1 & H2 & H3 & H4). cbn in H3, H4.
    apply good_insert; [by apply good_delete| |intros x; set_solver|intros; set_solver].
    cbn. split_and!; [done|lia|lia|]. intros Hc. split; [by apply H4|done].
  - destruct (good_pop _ _ _ _ _ _ _ _ _ _ _ G Ht Hw Hcas) as (l' & -> & G'). exists l'. split; [|done].
    rewrite (replay_snoc_some _ _ _ Hr). cbn. by rewrite Z.eqb_refl.
  - exists l. split; [done|]. apply good_write; auto.
Qed.

(** C28: every interleaving of pushes, batch pushes, pops and writes to memory the
    stack does not own, in which no pop outlives [2^16] other operations between
    its load and its compare-and-swap, is a legal history of a sequential stack,
    and the stack's chain holds exactly that history's content, each node once. *)
Theorem v8m_core_cache_linearizable evs s :
  run evs s ->
  exists l, replay evs = Some l /\ chain s.(c_mem) (v8m_tagptr_ptr s.(c_head)) l /\ NoDup l.
Proof.
  intros (l & Hr & G)%core_run_good. exists l. pose proof (g_chain _ _ G) as Hc.
  split; [done|]. split; [done|]. by eapply chain_NoDup.
Qed.


Lemma ex_pushable evs mm pcs :
  replay evs = Some [] -> (forall t p, pcs !! t = Some p -> pc_nodes p = []) -> pushable evs mm pcs [64].
Proof.
  intros Hr Hp. constructor.
  - repeat constructor; vm_compute; done.
  - exists [], 64. split; [done|]. cbn. by rewrite rd_wr_eq.
  - intros l x Hl _. rewrite Hr in Hl. injection Hl as <-. apply not_elem_of_nil.
  - intros t p x Ht _. rewrite (Hp t p Ht). apply not_elem_of_nil.
Qed.

Lemma ex_run_push evs h mm pcs ops (t : nat) :
  run evs (MkSys h mm pcs ops) -> replay evs = Some [] -> pcs !! t = None ->
  (forall t p, pcs !! t = Some p -> pc_nodes p = []) ->
  run (evs ++ [EvPush [64]])
      (MkSys (v8m_tagptr_make 64 (u16 (v8m_tagptr_tag h + 1))) (wr mm 64 (v8m_tagptr_ptr h)) pcs (ops + 1)).
Proof.
  intros R Hr Ht Hn. rewrite <- (delete_id pcs t) by done.
  rewrite <- (delete_insert_eq pcs t (PushLinked [64] h (v8m_tagptr_make 64 (u16 (v8m_tagptr_tag h + 1))))).
  rewrite <- (insert_insert_eq pcs t (PushLinked [64] h (v8m_tagptr_make 64 (u16 (v8m_tagptr_tag h + 1)))) (PushLoaded [64] h ops)).
  eapply run_push_cas; [|apply lookup_insert_eq|unfold cas; by rewrite Z.eqb_refl].
  eapply run_push_link; [|apply lookup_insert_eq|reflexivity].
  apply run_push_load; [done|done|by apply ex_pushable].
Qed.

Lemma v8m_core_cache_linearizable_witness :
  exists s, run ([] ++ [EvPush [64]] ++ [EvPop 64]) s /\
    exists l, replay ([] ++ [EvPush [64]] ++ [EvPop 64]) = Some l /\
      chain s.(c_mem) (v8m_tagptr_ptr s.(c_head)) l /\ NoDup l.
Proof.
  pose proof (ex_run_push [] 0 ∅ ∅ 0 0%nat (run_init ∅) eq_refl eq_refl
    ltac:(intros t p Hp; by rewrite lookup_empty in Hp)) as R1.
  set (h1 := v8m_tagptr_make 64 (u16 (v8m_tagptr_tag 0 + 1))) in R1.
  set (m1 := wr ∅ 64 (v8m_tagptr_ptr 0)) in R1.
  pose proof (run_pop_load _ _ _ _ _ 1%nat R1 (or_introl eq_refl) ltac:(vm_compute; done)) as R2.
  pose proof (run_pop_read _ _ _ _ _ 1%nat h1 (0 + 1) 64 (v8m_tagptr_make 0 2) R2
    (lookup_insert_eq _ _ _) ltac:(vm_compute; reflexivity)) as R3.
  pose proof (run_pop_cas _ _ _ _ _ 1%nat h1 64 (v8m_tagptr_make 0 2) (0 + 1) (v8m_tagptr_make 0 2) R3
    (lookup_insert_eq _ _ _) ltac:(lia) ltac:(vm_compute; reflexivity)) as R4.
  rewrite <- app_assoc in R4. assert (R : exists s, run ([] ++ [EvPush [64]] ++ [EvPop 64]) s) by (eexists; exact R4).
  destruct R as [s R]. exists s. split; [exact R|]. exact (v8m_core_cache_linearizable _ s R).
Defined.

End CoreCacheConc.
