(* ===== verification/HugeSlab.v ===== *)
(** Huge-page slabs: [src/v8m_huge_slab.h] and [src/v8m_huge_slab.c].

    A 2 MiB huge page carved into at most 32 slab pages of 64 KiB, with a 32-bit
    bitmap of the carved ones.  The operations take the descriptor itself, so the
    source's tests for a [NULL] descriptor have no counterpart; those for a [NULL]
    base and a [NULL] slot do.  [V8M_HUGE_PAGE_SIZE] is the 2 MiB of every
    architecture but the one with 1 MiB pages. *)

From S2P Require Import Prelude Page.
Import Page.

Module HugeSlab.

Definition V8M_HUGE_PAGE_SIZE : Z := Z.shiftl 1 21.
Definition V8M_HUGE_SLABS_PER_HUGE : Z := u8 (V8M_HUGE_PAGE_SIZE / V8M_PAGE_SIZE).

(** [struct v8m_huge_slab]; the list link is kept by [NumaPool]. *)
Record v8m_huge_slab := MkHuge {
  base : Z;
  hbitmap : Z;
  numa_node : Z;
  slabs_per_huge : Z
}.

#[export] Instance v8m_huge_slab_eq_dec : EqDecision v8m_huge_slab.
Proof. solve_decision. Defined.

Definition set_hbitmap (s : v8m_huge_slab) (v : Z) : v8m_huge_slab :=
  MkHuge s.(base) v s.(numa_node) s.(slabs_per_huge).

Definition valid_mask (s : v8m_huge_slab) : Z :=
  let count := s.(slabs_per_huge) in
  if count =? 0 then 0
  else if 32 <=? count then UINT32_MAX
  else u32 (u32 (Z.shiftl 1 count) - 1).

Definition v8m_huge_slab_init (base numa_node slabs_per_huge : Z) : v8m_huge_slab :=
  let slabs_per_huge := if slabs_per_huge =? 0 then V8M_HUGE_SLABS_PER_HUGE else slabs_per_huge in
  let slabs_per_huge := if V8M_HUGE_SLABS_PER_HUGE <? slabs_per_huge then V8M_HUGE_SLABS_PER_HUGE else slabs_per_huge in
  MkHuge base 0 numa_node slabs_per_huge.

Definition v8m_huge_slab_alloc (s : v8m_huge_slab) : v8m_huge_slab * Z :=
  if s.(base) =? NULL then (s, NULL)
  else
    let full := valid_mask s in
    if Z.land s.(hbitmap) full =? full then (s, NULL)
    else
      let free_mask := Z.land (u32 (Z.lnot s.(hbitmap))) full in
      let idx := ctz free_mask in
      (set_hbitmap s (Z.lor s.(hbitmap) (u32 (Z.shiftl 1 idx))),
       u64 (s.(base) + u64 (idx * V8M_PAGE_SIZE))).

Definition v8m_huge_slab_free (s : v8m_huge_slab) (slot : Z) : v8m_huge_slab * bool :=
  if (s.(base) =? NULL) || (slot =? NULL) then (s, false)
  else if slot <? s.(base) then (s, false)
  else
    let offset := u64 (slot - s.(base)) in
    if negb (Z.land offset (V8M_PAGE_SIZE - 1) =? 0) then (s, false)
    else
      let idx := offset / V8M_PAGE_SIZE in
      if s.(slabs_per_huge) <=? idx then (s, false)
      else
        let mask := u32 (Z.shiftl 1 idx) in
        if Z.land s.(hbitmap) mask =? 0 then (s, false)
        else (set_hbitmap s (Z.land s.(hbitmap) (u32 (Z.lnot mask))), true).

Definition v8m_huge_slab_is_full (s : v8m_huge_slab) : bool :=
  let full := valid_mask s in
  negb (full =? 0) && (Z.land s.(hbitmap) full =? full).

Definition v8m_huge_slab_is_empty (s : v8m_huge_slab) : bool := Z.land s.(hbitmap) (valid_mask s) =? 0.

(** [__builtin_popcount] of a 32-bit word. *)
Definition popcount (w : Z) : Z := count_below (Z.testbit w) 32.

Definition v8m_huge_slab_live_count (s : v8m_huge_slab) : Z := popcount (Z.land s.(hbitmap) (valid_mask s)).

(** ** The invariant *)

(** Slab page [i] is carved out. *)
Definition carved (s : v8m_huge_slab) (i : Z) : bool := Z.testbit s.(hbitmap) i.

Record inv (s : v8m_huge_slab) : Prop := {
  i_base : 0 < s.(base) /\ (V8M_HUGE_PAGE_SIZE | s.(base)) /\ s.(base) + V8M_HUGE_PAGE_SIZE <= 2 ^ 64;
  i_count : 1 <= s.(slabs_per_huge) <= 32;
  i_bitmap : 0 <= s.(hbitmap) < 2 ^ s.(slabs_per_huge)
}.

Definition slot_at (s : v8m_huge_slab) (i : Z) : Z := s.(base) + i * V8M_PAGE_SIZE.

Lemma valid_mask_eq s : 1 <= s.(slabs_per_huge) <= 32 -> valid_mask s = 2 ^ s.(slabs_per_huge) - 1.
Proof.
  intros H. unfold valid_mask. destruct (Z.eqb_spec s.(slabs_per_huge) 0); [lia|].
  destruct (Z.leb_spec 32 s.(slabs_per_huge)).
  - assert (s.(slabs_per_huge) = 32) as -> by lia. reflexivity.
  - rewrite Z.shiftl_1_l.
    assert (2 ^ 1 <= 2 ^ s.(slabs_per_huge)) by (apply Z.pow_le_mono_r; lia).
    assert (2 ^ s.(slabs_per_huge) < 2 ^ 32) by (apply Z.pow_lt_mono_r; lia).
    rewrite (u32_small (2 ^ _)) by lia. apply u32_small. lia.
Qed.

Lemma bitmap_masked s : inv s -> Z.land s.(hbitmap) (valid_mask s) = s.(hbitmap).
Proof.
  intros [_ Hc Hb]. rewrite valid_mask_eq, land_mask_low by lia. apply Z.mod_small. done.
Qed.

Lemma pow_count s : inv s -> 2 <= 2 ^ s.(slabs_per_huge) <= 2 ^ 32.
Proof.
  intros [_ Hc _]. change 2 with (2 ^ 1) at 1. split; apply Z.pow_le_mono_r; lia.
Qed.

(** The word is full exactly when every slab page is carved. *)
Lemma full_iff s : inv s ->
  s.(hbitmap) = 2 ^ s.(slabs_per_huge) - 1 <-> (forall i, 0 <= i < s.(slabs_per_huge) -> carved s i = true).
Proof.
  intros I. pose proof I as [_ Hc Hb]. unfold carved. split.
  - intros -> i Hi. replace (2 ^ s.(slabs_per_huge) - 1) with (Z.ones s.(slabs_per_huge)) by (rewrite Z.ones_equiv; lia).
    apply Z.ones_spec_low. lia.
  - intros H. replace (2 ^ s.(slabs_per_huge) - 1) with (Z.ones s.(slabs_per_huge)) by (rewrite Z.ones_equiv; lia).
    apply Z.bits_inj'. intros j Hj. destruct (Z.lt_ge_cases j s.(slabs_per_huge)).
    + rewrite Z.ones_spec_low by lia. apply H. lia.
    + rewrite Z.ones_spec_high by lia. apply (testbit_high _ s.(slabs_per_huge)); [lia|done].
Qed.

Lemma is_full_iff s : inv s ->
  v8m_huge_slab_is_full s = true <-> (forall i, 0 <= i < s.(slabs_per_huge) -> carved s i = true).
Proof.
  intros I. rewrite <- full_iff by done. unfold v8m_huge_slab_is_full.
  rewrite bitmap_masked, valid_mask_eq by (done || apply I). pose proof (pow_count s I).
  destruct (Z.eqb_spec (2 ^ s.(slabs_per_huge) - 1) 0); [lia|]. cbn. by rewrite Z.eqb_eq.
Qed.

Lemma is_empty_iff s : inv s ->
  v8m_huge_slab_is_empty s = true <-> (forall i, 0 <= i < s.(slabs_per_huge) -> carved s i = false).
Proof.
  intros I. unfold v8m_huge_slab_is_empty. rewrite bitmap_masked by done. rewrite Z.eqb_eq. unfold carved. split.
  - intros -> i _. apply Z.bits_0.
  - intros H. apply Z.bits_inj'. intros j Hj. rewrite Z.bits_0.
    destruct (Z.lt_ge_cases j s.(slabs_per_huge)); [apply H; lia|].
    apply (testbit_high _ s.(slabs_per_huge)); [|apply I]. destruct I. lia.
Qed.

Lemma live_count_eq s : inv s ->
  v8m_huge_slab_live_count s = count_below (carved s) (Z.to_nat s.(slabs_per_huge)).
Proof.
  intros I. unfold v8m_huge_slab_live_count, popcount. rewrite bitmap_masked by done. pose proof I as [_ Hc Hb].
  assert (Hg : forall n : nat, (Z.to_nat s.(slabs_per_huge) <= n)%nat ->
    count_below (Z.testbit s.(hbitmap)) n = count_below (carved s) (Z.to_nat s.(slabs_per_huge))).
  { induction n as [|n IH]; intros Hn; [lia|]. destruct (decide (Z.to_nat s.(slabs_per_huge) = S n)) as [->|Hne]; [done|].
    cbn [count_below]. rewrite IH by lia. rewrite (testbit_high _ s.(slabs_per_huge)) by lia. lia. }
  apply Hg. lia.
Qed.

Lemma huge_init_inv b node n :
  0 < b -> (V8M_HUGE_PAGE_SIZE | b) -> b + V8M_HUGE_PAGE_SIZE <= 2 ^ 64 -> 0 <= n < 2 ^ 8 ->
  inv (v8m_huge_slab_init b node n) /\ v8m_huge_slab_is_empty (v8m_huge_slab_init b node n) = true.
Proof.
  intros H0 Hd He Hn. unfold v8m_huge_slab_init. change V8M_HUGE_SLABS_PER_HUGE with 32. split; [|done].
  constructor; cbn; [done|..]; destruct (Z.eqb_spec n 0) as [->|]; [cbn; lia| |cbn; lia|];
    destruct (Z.ltb_spec 32 n); try lia; split; try lia; apply Z.pow_pos_nonneg; lia.
Qed.

(** ** Carving and releasing *)

Lemma free_mask_bits s j : inv s -> 0 <= j ->
  Z.testbit (Z.land (u32 (Z.lnot s.(hbitmap))) (valid_mask s)) j = (j <? s.(slabs_per_huge)) && negb (carved s j).
Proof.
  intros I Hj. pose proof I as [_ Hc _]. rewrite Z.land_spec, valid_mask_eq by done.
  replace (2 ^ s.(slabs_per_huge) - 1) with (Z.ones s.(slabs_per_huge)) by (rewrite Z.ones_equiv; lia).
  unfold u32. destruct (Z.ltb_spec j s.(slabs_per_huge)).
  - rewrite Z.ones_spec_low, Z.mod_pow2_bits_low, Z.lnot_spec by lia. by rewrite andb_true_r.
  - rewrite Z.ones_spec_high by lia. apply andb_false_r.
Qed.

Lemma shift_one_u32 i : 0 <= i < 32 -> u32 (Z.shiftl 1 i) = 2 ^ i.
Proof.
  intros H. rewrite Z.shiftl_1_l. apply u32_small. split; [apply Z.pow_nonneg; lia|apply Z.pow_lt_mono_r; lia].
Qed.

Lemma slot_at_bounds s i : inv s -> 0 <= i < s.(slabs_per_huge) ->
  s.(base) <= slot_at s i /\ slot_at s i + V8M_PAGE_SIZE <= s.(base) + V8M_HUGE_PAGE_SIZE /\ (V8M_PAGE_SIZE | slot_at s i).
Proof.
  intros [(_ & Hd & _) Hc _] Hi. unfold slot_at. rewrite page_size_eq.
  change V8M_HUGE_PAGE_SIZE with (32 * 65536) in *. split_and!; [lia|lia|].
  apply Z.divide_add_r; [|apply Z.divide_factor_r]. etrans; [|exact Hd]. apply Z.divide_factor_r.
Qed.

Lemma huge_alloc_cases s : inv s ->
  (v8m_huge_slab_is_full s = true /\ v8m_huge_slab_alloc s = (s, NULL)) \/
  (v8m_huge_slab_is_full s = false /\ exists i s', v8m_huge_slab_alloc s = (s', slot_at s i) /\ inv s' /\
     s'.(base) = s.(base) /\ s'.(slabs_per_huge) = s.(slabs_per_huge) /\ s'.(numa_node) = s.(numa_node) /\
     0 <= i < s.(slabs_per_huge) /\ carved s i = false /\ (forall j, 0 <= j < i -> carved s j = true) /\
     (forall j, 0 <= j -> carved s' j = (j =? i) || carved s j)).
Proof.
  intros I. pose proof I as [(Hb0 & Hbd & Hb1) Hc Hb]. unfold v8m_huge_slab_alloc, v8m_huge_slab_is_full.
  destruct (Z.eqb_spec s.(base) NULL); [unfold NULL in *; lia|].
  pose proof (pow_count s I). rewrite bitmap_masked by done.
  assert (Hvm : valid_mask s = 2 ^ s.(slabs_per_huge) - 1) by (by apply valid_mask_eq).
  destruct (Z.eqb_spec (valid_mask s) 0); [lia|]. cbn [negb andb].
  destruct (Z.eqb_spec s.(hbitmap) (valid_mask s)) as [Hf|Hnf]; [by left|right]. split; [done|].
  set (fm := Z.land (u32 (Z.lnot s.(hbitmap))) (valid_mask s)).
  assert (Hfr : 0 <= fm < 2 ^ 32) by (apply land_range; [lia|apply Z.mod_pos_bound; lia|lia]).
  assert (Hf0 : fm <> 0).
  { intros E. apply Hnf. rewrite Hvm. apply full_iff; [done|]. intros i Hi.
    pose proof (free_mask_bits s i I ltac:(lia)) as Hbit. fold fm in Hbit. rewrite E, Z.bits_0 in Hbit.
    destruct (Z.ltb_spec i s.(slabs_per_huge)); [|lia]. by destruct (carved s i). }
  pose proof (ctz_nonneg fm) as Hi0. pose proof (ctz_testbit fm ltac:(lia)) as Hit.
  set (i := ctz fm) in *. unfold fm in Hit. rewrite free_mask_bits in Hit by done.
  apply andb_true_iff in Hit as [Hlt%Z.ltb_lt Hnc%negb_true_iff].
  assert (Hi : 0 <= i < s.(slabs_per_huge)) by lia.
  exists i. eexists. split.
  { f_equal. destruct (slot_at_bounds s i I Hi) as (H1 & H2 & _). unfold slot_at in *.
    rewrite page_size_eq in *. change V8M_HUGE_PAGE_SIZE with (32 * 65536) in *.
    rewrite (u64_small (i * _)) by (unfold is_u64; lia). apply u64_small. unfold is_u64. lia. }
  rewrite shift_one_u32 by lia. split_and!; try done; try lia.
  - constructor; cbn; [done|done|]. apply lor_range; [lia|done|].
    split; [apply Z.pow_nonneg; lia|apply Z.pow_lt_mono_r; lia].
  - intros j Hj. pose proof (ctz_below fm j) as Hbel. fold i in Hbel. specialize (Hbel Hj).
    unfold fm in Hbel. rewrite free_mask_bits in Hbel by (done || lia).
    destruct (Z.ltb_spec j s.(slabs_per_huge)); [|lia]. by destruct (carved s j).
  - intros j Hj. unfold carved. cbn. rewrite Z.lor_spec, <- Z.shiftl_1_l, testbit_shiftl1 by lia. apply orb_comm.
Qed.

Lemma free_index s slot :
  inv s -> slot < 2 ^ 64 -> s.(base) <= slot -> (V8M_PAGE_SIZE | slot - s.(base)) ->
  (slot - s.(base)) / V8M_PAGE_SIZE < s.(slabs_per_huge) ->
  exists i, 0 <= i < s.(slabs_per_huge) /\ slot = slot_at s i.
Proof.
  intros I H0 H1 [k Hk] Hi. exists k. rewrite Hk in Hi. unfold slot_at. rewrite page_size_eq in *.
  rewrite Z.div_mul in Hi by lia. lia.
Qed.

(** Releasing: exactly the carved slots of this huge page are accepted. *)
Lemma huge_free_cases s slot : inv s -> 0 <= slot < 2 ^ 64 ->
  (exists i s', v8m_huge_slab_free s slot = (s', true) /\ slot = slot_at s i /\ 0 <= i < s.(slabs_per_huge) /\
     carved s i = true /\ inv s' /\ s'.(base) = s.(base) /\ s'.(slabs_per_huge) = s.(slabs_per_huge) /\
     s'.(numa_node) = s.(numa_node) /\
     (forall j, 0 <= j -> carved s' j = negb (j =? i) && carved s j)) \/
  (v8m_huge_slab_free s slot = (s, false) /\
     forall i, 0 <= i < s.(slabs_per_huge) -> slot = slot_at s i -> carved s i = false).
Proof.
  intros I Hs. pose proof I as [(Hb0 & Hbd & Hb1) Hc Hb]. unfold v8m_huge_slab_free.
  destruct (Z.eqb_spec s.(base) NULL); [unfold NULL in *; lia|].
  assert (Hpos : forall i, 0 <= i < s.(slabs_per_huge) -> s.(base) <= slot_at s i).
  { intros i Hi. by apply slot_at_bounds. }
  destruct (Z.eqb_spec slot NULL) as [->|]; cbn [orb].
  { right. split; [done|]. intros i Hi E. specialize (Hpos i Hi). unfold NULL in *. lia. }
  destruct (Z.ltb_spec slot s.(base)).
  { right. split; [done|]. intros i Hi E. specialize (Hpos i Hi). lia. }
  rewrite u64_small by (unfold is_u64; lia). rewrite page_size_eq. change (65536 - 1) with (2 ^ 16 - 1).
  rewrite land_mask_low by lia. change 65536 with (2 ^ 16).
  destruct (Z.eqb_spec ((slot - s.(base)) mod 2 ^ 16) 0) as [Hm|Hm]; cbn [negb].
  2: { right. split; [done|]. intros i Hi ->. destruct Hm. unfold slot_at. rewrite page_size_eq.
       replace (s.(base) + i * 65536 - s.(base)) with (i * 2 ^ 16) by lia. apply Z.mod_mul. lia. }
  destruct (Z.leb_spec s.(slabs_per_huge) ((slot - s.(base)) / 2 ^ 16)) as [Hge|Hlt].
  { right. split; [done|]. intros i Hi ->. unfold slot_at in Hge. rewrite page_size_eq in Hge.
    replace (s.(base) + i * 65536 - s.(base)) with (i * 2 ^ 16) in Hge by lia. rewrite Z.div_mul in Hge by lia. lia. }
  destruct (free_index s slot I) as (i & Hi & Hslot); [lia|lia| |by rewrite page_size_eq|].
  { rewrite page_size_eq. apply Z.mod_divide; [lia|done]. }
  assert (Hidx : (slot - s.(base)) / 2 ^ 16 = i).
  { rewrite Hslot. unfold slot_at. rewrite page_size_eq.
    replace (s.(base) + i * 65536 - s.(base)) with (i * 2 ^ 16) by lia. apply Z.div_mul. lia. }
  rewrite Hidx, shift_one_u32 by lia. pose proof (bit_test_testbit s.(hbitmap) i ltac:(lia)) as Hbt.
  unfold bit_test in Hbt. rewrite Z.shiftl_1_l in Hbt. fold (carved s i) in Hbt.
  destruct (Z.eqb_spec (Z.land s.(hbitmap) (2 ^ i)) 0); cbn in Hbt.
  { right. split; [done|]. intros j Hj E. assert (j = i) as ->; [|done]. rewrite Hslot in E. unfold slot_at in E.
    rewrite page_size_eq in E. lia. }
  left. exists i. eexists. split; [reflexivity|]. split_and!; try done; try lia.
  - constructor; cbn; [done|done|]. apply land_range; [lia|done|apply Z.mod_pos_bound; lia].
  - intros j Hj. unfold carved. cbn. rewrite Z.land_spec. unfold u32. destruct (Z.lt_ge_cases j 32).
    + rewrite Z.mod_pow2_bits_low, Z.lnot_spec, <- Z.shiftl_1_l, testbit_shiftl1 by lia. apply andb_comm.
    + rewrite (testbit_high s.(hbitmap) s.(slabs_per_huge)) by lia. by rewrite andb_false_r.
Qed.

End HugeSlab.
