(* ===== verification/RegionMap.v ===== *)
(** The region map of the page heap: the sorted array [g_regions] of
    [src/v8m_page_heap.c] with its binary searches, insertion, removal, the
    ownership tests and the consistency check.

    [g_regions] up to [g_region_count] is a list.  Everything runs under
    [g_region_lock], so the operations are sequential; [v8m_page_heap_owns_fast]
    reads without the lock and is given here for a reader no writer interrupts
    (its retry loop then returns in its first pass), with the calling thread's
    cached verdict; [RegionSeq] interleaves it with writers. *)

From stdpp Require Import sorting.
From S2P Require Import Prelude Page.
Import Page.

Module RegionMap.

Definition V8M_REGION_MAP_CAPACITY : Z := 4096.
Definition V8M_REGION_NODE_UNBOUND : Z := UINT16_MAX.

Record region_entry := MkRegion {
  r_start : Z;
  r_end : Z;
  r_node : Z;
  r_is_anchor : bool;
  r_promoted_at_tsc : Z
}.

#[export] Instance region_entry_eq_dec : EqDecision region_entry.
Proof. solve_decision. Defined.

Definition no_region : region_entry := MkRegion 0 0 0 false 0.

(** [g_regions[0 .. g_region_count - 1]] and [g_region_seq]. *)
Record region_map := MkMap { g_regions : list region_entry; g_region_seq : Z }.

Definition g_region_count (rm : region_map) : Z := Z.of_nat (length rm.(g_regions)).
Definition region_at (rm : region_map) (i : Z) : region_entry :=
  default no_region (rm.(g_regions) !! Z.to_nat i).

Definition set_node (e : region_entry) (v : Z) : region_entry :=
  MkRegion e.(r_start) e.(r_end) v e.(r_is_anchor) e.(r_promoted_at_tsc).
Definition set_promoted (e : region_entry) (v : Z) : region_entry :=
  MkRegion e.(r_start) e.(r_end) e.(r_node) e.(r_is_anchor) v.
Definition update_region (rm : region_map) (i : Z) (f : region_entry -> region_entry) : region_map :=
  MkMap (alter f (Z.to_nat i) rm.(g_regions)) rm.(g_region_seq).

(** The binary search [while (low < high)], shared by the three places that spell
    it out: [below mid] is the test that moves [low].  The map has at most
    [2^12] entries, so 13 rounds suffice. *)
Fixpoint bsearch (fuel : nat) (below : Z -> bool) (low high : Z) : Z :=
  match fuel with
  | O => low
  | S fuel =>
      if low <? high then
        let mid := u64 (low + Z.shiftr (u64 (high - low)) 1) in
        if below mid then bsearch fuel below (mid + 1) high else bsearch fuel below low mid
      else low
  end.

Definition search_fuel : nat := 13.

Definition region_lower_bound (rm : region_map) (start : Z) : Z :=
  bsearch search_fuel (fun mid => (region_at rm mid).(r_start) <? start) 0 (g_region_count rm).

Definition region_find_by_start (rm : region_map) (start : Z) : Z :=
  let idx := region_lower_bound rm start in
  if (idx <? g_region_count rm) && ((region_at rm idx).(r_start) =? start) then idx else SIZE_MAX.

(** [region_register_with_flags]: [None] is the C [-1] of a full map.  The
    [memmove] opens a gap at [idx]. *)
Definition region_register_with_flags (rm : region_map) (ptr bytes : Z) (is_anchor : bool) : option region_map :=
  if V8M_REGION_MAP_CAPACITY <=? g_region_count rm then None
  else
    let seq := u64 (rm.(g_region_seq) + 1) in
    let idx := region_lower_bound rm ptr in
    let e := MkRegion ptr (u64 (ptr + bytes)) V8M_REGION_NODE_UNBOUND is_anchor 0 in
    let rs := take (Z.to_nat idx) rm.(g_regions) ++ e :: drop (Z.to_nat idx) rm.(g_regions) in
    Some (MkMap rs (u64 (seq + 1))).

Definition region_register (rm : region_map) (ptr bytes : Z) : option region_map :=
  region_register_with_flags rm ptr bytes false.

Definition region_record_promote (rm : region_map) (ptr tsc : Z) : region_map :=
  let idx := region_find_by_start rm ptr in
  if idx =? SIZE_MAX then rm else update_region rm idx (fun e => set_promoted e tsc).

Definition region_record_node (rm : region_map) (ptr node : Z) : region_map :=
  let idx := region_find_by_start rm ptr in
  if idx =? SIZE_MAX then rm else update_region rm idx (fun e => set_node e node).

(** [region_unregister_with_flags]: the new map, the region's node and
    [*out_is_anchor]. *)
Definition region_unregister_with_flags (rm : region_map) (ptr : Z) : region_map * Z * bool :=
  let idx := region_find_by_start rm ptr in
  if idx =? SIZE_MAX then (rm, V8M_REGION_NODE_UNBOUND, false)
  else
    let seq := u64 (rm.(g_region_seq) + 1) in
    let e := region_at rm idx in
    let rs := take (Z.to_nat idx) rm.(g_regions) ++ drop (Z.to_nat (idx + 1)) rm.(g_regions) in
    (MkMap rs (u64 (seq + 1)), e.(r_node), e.(r_is_anchor)).

(** The search both ownership tests run: the last region that starts at or below
    [addr] is the one before this index. *)
Definition region_upper_bound (rm : region_map) (addr : Z) : Z :=
  bsearch search_fuel (fun mid => (region_at rm mid).(r_start) <=? addr) 0 (g_region_count rm).

Definition v8m_page_heap_owns (rm : region_map) (ptr : Z) : bool :=
  if ptr =? NULL then false
  else
    let low := region_upper_bound rm ptr in
    if 0 <? low then ptr <? (region_at rm (low - 1)).(r_end) else false.

(** The thread-local verdict of [v8m_page_heap_owns_fast]. *)
Record owns_cache := MkCache { oc_page_base : Z; oc_seq : Z; oc_result : Z }.
Definition owns_cache0 : owns_cache := MkCache 0 0 0.

(** One uninterrupted pass: 1, 0, or -1 when the sequence number is odd. *)
Definition v8m_page_heap_owns_fast (rm : region_map) (c : owns_cache) (ptr : Z) : owns_cache * Z :=
  if ptr =? NULL then (c, 0)
  else
    let page_base := Z.land ptr V8M_PAGE_MASK in
    let seq := rm.(g_region_seq) in
    if (page_base =? c.(oc_page_base)) && ((seq =? c.(oc_seq)) && (Z.land seq 1 =? 0)) then (c, c.(oc_result))
    else if negb (Z.land seq 1 =? 0) then (c, -1)
    else
      let count := g_region_count rm in
      let low := region_upper_bound rm ptr in
      let owned := if (0 <? low) && (low <=? count)
                   then ((region_at rm (low - 1)).(r_start) <=? ptr) && (ptr <? (region_at rm (low - 1)).(r_end))
                   else false in
      let result := if owned then 1 else 0 in
      (MkCache page_base seq result, result).

Definition v8m_page_heap_live_region_count (rm : region_map) : Z := g_region_count rm.

(** [v8m_page_heap_validate]: the number of reported issues over consecutive
    pairs. *)
Fixpoint validate_from (prev : region_entry) (rs : list region_entry) : Z :=
  match rs with
  | [] => 0
  | cur :: rs =>
      (if cur.(r_start) <? prev.(r_start) then 1 else 0) +
      (if cur.(r_start) <? prev.(r_end) then 1 else 0) +
      (if cur.(r_end) <=? cur.(r_start) then 1 else 0) + validate_from cur rs
  end.
Definition v8m_page_heap_validate (rm : region_map) : Z :=
  match rm.(g_regions) with
  | [] => 0
  | first :: rs => validate_from first rs
  end.

(** ** Binary search *)

(** [below] holds on a prefix of the indices. *)
Definition monotone (below : Z -> bool) (n : Z) : Prop :=
  forall i j, 0 <= i <= j -> j < n -> below j = true -> below i = true.

Lemma bsearch_spec fuel below n low high :
  monotone below n -> n < 2 ^ 63 -> 0 <= low <= high -> high <= n -> high - low < 2 ^ Z.of_nat fuel ->
  (forall i, 0 <= i < low -> below i = true) -> (forall i, high <= i < n -> below i = false) ->
  let r := bsearch fuel below low high in
  low <= r <= high /\ (forall i, 0 <= i < r -> below i = true) /\ (forall i, r <= i < n -> below i = false).
Proof.
  intros Hmono Hn. revert low high. induction fuel as [|fuel IH]; intros low high Hl Hh Hf Hlo Hhi; cbn [bsearch].
  { assert (low = high) as -> by (cbn in Hf; lia). split_and!; [lia|lia|done|done]. }
  destruct (Z.ltb_spec low high) as [Hlt|Hge].
  2: { assert (low = high) as -> by lia. split_and!; [lia|lia|done|done]. }
  rewrite (u64_small (high - low)) by (unfold is_u64; lia). rewrite Z.shiftr_div_pow2 by lia. change (2 ^ 1) with 2.
  pose proof (Z.div_mod (high - low) 2 ltac:(lia)). pose proof (Z.mod_pos_bound (high - low) 2 ltac:(lia)).
  rewrite u64_small by (unfold is_u64; lia). set (mid := low + (high - low) / 2) in *.
  replace (Z.of_nat (S fuel)) with (Z.of_nat fuel + 1) in Hf by lia. rewrite Z.pow_add_r in Hf by lia.
  destruct (below mid) eqn:E; cbn zeta.
  - destruct (IH (mid + 1) high) as (H1 & H2 & H3); [lia|lia|lia| |done|].
    { intros i Hi. apply (Hmono i mid); [lia|lia|done]. }
    split_and!; [lia|lia|done|done].
  - destruct (IH low mid) as (H1 & H2 & H3); [lia|lia|lia|done| |].
    { intros i Hi. destruct (below i) eqn:Ei; [|done]. rewrite (Hmono mid i) in E by (done || lia). done. }
    split_and!; [lia|lia|done|done].
Qed.

(* the search is used through its specification only *)
Opaque bsearch.

(** ** The invariant *)

Definition before (a b : region_entry) : Prop := a.(r_end) <= b.(r_start).
Definition sound_region (e : region_entry) : Prop := 0 < e.(r_start) < e.(r_end) /\ e.(r_end) < 2 ^ 64.

(** Regions are non-empty ranges in address order without overlap. *)
Record wf (rm : region_map) : Prop := {
  wf_sorted : StronglySorted before rm.(g_regions);
  wf_sound : Forall sound_region rm.(g_regions);
  wf_count : g_region_count rm <= V8M_REGION_MAP_CAPACITY;
  wf_seq : is_u64 rm.(g_region_seq) /\ Z.even rm.(g_region_seq) = true
}.

Definition in_region (e : region_entry) (p : Z) : Prop := e.(r_start) <= p < e.(r_end).
Definition owned (rm : region_map) (p : Z) : Prop := exists e, e ∈ rm.(g_regions) /\ in_region e p.

Lemma region_at_lookup rm i : 0 <= i < g_region_count rm -> rm.(g_regions) !! Z.to_nat i = Some (region_at rm i).
Proof.
  intros H. unfold region_at, g_region_count in *.
  destruct (lookup_lt_is_Some_2 rm.(g_regions) (Z.to_nat i) ltac:(lia)) as [e He]. by rewrite He.
Qed.

Lemma region_at_elem rm i : 0 <= i < g_region_count rm -> region_at rm i ∈ rm.(g_regions).
Proof. intros H. eapply list_elem_of_lookup_2, region_at_lookup, H. Qed.

Lemma region_at_index rm e : e ∈ rm.(g_regions) -> exists i, 0 <= i < g_region_count rm /\ region_at rm i = e.
Proof.
  intros [n Hn]%list_elem_of_lookup_1. exists (Z.of_nat n). unfold g_region_count, region_at.
  rewrite Nat2Z.id, Hn. apply lookup_lt_Some in Hn. split; [lia|done].
Qed.

Lemma wf_before rm i j : wf rm -> 0 <= i < j -> j < g_region_count rm -> before (region_at rm i) (region_at rm j).
Proof.
  intros [Hs _ _ _] Hi Hj. pose proof (region_at_lookup rm i ltac:(lia)) as Li.
  pose proof (region_at_lookup rm j ltac:(lia)) as Lj. revert Li Lj.
  rewrite <- (take_drop (Z.to_nat j) rm.(g_regions)) in Hs. apply StronglySorted_app in Hs as (Hx & _ & _).
  intros Li Lj. apply Hx.
  - apply list_elem_of_lookup. exists (Z.to_nat i). rewrite lookup_take_lt by lia. done.
  - apply list_elem_of_lookup. exists 0%nat. rewrite lookup_drop, Nat.add_0_r. done.
Qed.

Lemma wf_sound_at rm i : wf rm -> 0 <= i < g_region_count rm -> sound_region (region_at rm i).
Proof.
  intros W Hi. pose proof (wf_sound rm W) as Hf. rewrite Forall_forall in Hf. by apply Hf, region_at_elem.
Qed.

Lemma wf_start_lt rm i j : wf rm -> 0 <= i < j -> j < g_region_count rm ->
  (region_at rm i).(r_start) < (region_at rm j).(r_start).
Proof.
  intros W Hi Hj. pose proof (wf_before rm i j W Hi Hj). pose proof (wf_sound_at rm i W ltac:(lia)).
  unfold before, sound_region in *. lia.
Qed.

(** Starts below a bound form a prefix. *)
Lemma starts_monotone rm (f : Z -> bool) :
  wf rm -> (forall x y, x <= y -> f y = true -> f x = true) ->
  monotone (fun mid => f (region_at rm mid).(r_start)) (g_region_count rm).
Proof.
  intros W Hf i j Hij Hj. destruct (Z.eq_dec i j) as [->|]; [done|]. apply Hf.
  pose proof (wf_start_lt rm i j W ltac:(lia) Hj). lia.
Qed.

Lemma search_starts rm (f : Z -> bool) :
  wf rm -> (forall x y, x <= y -> f y = true -> f x = true) ->
  let r := bsearch search_fuel (fun mid => f (region_at rm mid).(r_start)) 0 (g_region_count rm) in
  0 <= r <= g_region_count rm /\
  (forall i, 0 <= i < r -> f (region_at rm i).(r_start) = true) /\
  (forall i, r <= i < g_region_count rm -> f (region_at rm i).(r_start) = false).
Proof.
  intros W Hf. pose proof (wf_count rm W). unfold V8M_REGION_MAP_CAPACITY in *.
  assert (0 <= g_region_count rm) by (unfold g_region_count; lia).
  apply bsearch_spec; [by apply starts_monotone|lia|lia|lia| |lia|lia].
  unfold search_fuel. change (2 ^ Z.of_nat 13) with 8192. lia.
Qed.

Lemma lower_bound_spec rm k : wf rm ->
  let r := region_lower_bound rm k in
  0 <= r <= g_region_count rm /\
  (forall i, 0 <= i < r -> (region_at rm i).(r_start) < k) /\
  (forall i, r <= i < g_region_count rm -> k <= (region_at rm i).(r_start)).
Proof.
  intros W. assert (Hm : forall x y, x <= y -> (y <? k) = true -> (x <? k) = true).
  { intros x y Hxy. rewrite !Z.ltb_lt. lia. }
  pose proof (search_starts rm (fun x => x <? k) W Hm) as H. cbv beta zeta in H.
  unfold region_lower_bound. destruct H as (H1 & H2 & H3). split; [exact H1|]. split; intros i Hi.
  - apply Z.ltb_lt. exact (H2 i Hi).
  - apply Z.ltb_ge. exact (H3 i Hi).
Qed.

Lemma upper_bound_spec rm k : wf rm ->
  let r := region_upper_bound rm k in
  0 <= r <= g_region_count rm /\
  (forall i, 0 <= i < r -> (region_at rm i).(r_start) <= k) /\
  (forall i, r <= i < g_region_count rm -> k < (region_at rm i).(r_start)).
Proof.
  intros W. assert (Hm : forall x y, x <= y -> (y <=? k) = true -> (x <=? k) = true).
  { intros x y Hxy. rewrite !Z.leb_le. lia. }
  pose proof (search_starts rm (fun x => x <=? k) W Hm) as H. cbv beta zeta in H.
  unfold region_upper_bound. destruct H as (H1 & H2 & H3). split; [exact H1|]. split; intros i Hi.
  - apply Z.leb_le. exact (H2 i Hi).
  - apply Z.leb_gt. exact (H3 i Hi).
Qed.

(** The search finds the only candidate region. *)
Lemma owned_candidate rm p : wf rm ->
  let low := region_upper_bound rm p in
  owned rm p <-> 0 < low /\ p < (region_at rm (low - 1)).(r_end).
Proof.
  intros W. destruct (upper_bound_spec rm p W) as (Hr & Hlo & Hhi). cbn zeta. split.
  - intros (e & He & Hp). apply region_at_index in He as (i & Hi & <-). unfold in_region in Hp.
    assert (Hil : i < region_upper_bound rm p).
    { destruct (Z.lt_ge_cases i (region_upper_bound rm p)); [done|]. specialize (Hhi i ltac:(lia)). lia. }
    split; [lia|]. destruct (Z.eq_dec i (region_upper_bound rm p - 1)) as [<-|]; [lia|].
    pose proof (wf_before rm i (region_upper_bound rm p - 1) W ltac:(lia) ltac:(lia)) as Hb. unfold before in Hb.
    specialize (Hlo (region_upper_bound rm p - 1) ltac:(lia)). lia.
  - intros [H0 Hp]. exists (region_at rm (region_upper_bound rm p - 1)). split; [apply region_at_elem; lia|].
    split; [apply Hlo; lia|done].
Qed.

Lemma owns_spec rm p : wf rm -> 0 <= p -> v8m_page_heap_owns rm p = true <-> owned rm p.
Proof.
  intros W Hp. unfold v8m_page_heap_owns. destruct (Z.eqb_spec p NULL) as [->|].
  { split; [done|]. intros (e & He & Hin). pose proof (wf_sound rm W) as Hs. rewrite Forall_forall in Hs.
    specialize (Hs e He). unfold sound_region, in_region, NULL in *. lia. }
  rewrite owned_candidate by done. destruct (Z.ltb_spec 0 (region_upper_bound rm p)).
  - rewrite Z.ltb_lt. tauto.
  - split; [done|]. lia.
Qed.

(** ** Insertion and removal *)

Lemma take_starts rm n e : e ∈ take n rm.(g_regions) -> exists i, 0 <= i < Z.of_nat n /\ i < g_region_count rm /\ region_at rm i = e.
Proof.
  intros [k Hk]%list_elem_of_lookup_1. exists (Z.of_nat k). apply lookup_take_Some in Hk as [Hk Hlt].
  unfold region_at, g_region_count. rewrite Nat2Z.id, Hk. apply lookup_lt_Some in Hk. split_and!; [lia|lia|lia|done].
Qed.

Lemma drop_starts rm n e : e ∈ drop n rm.(g_regions) -> exists i, Z.of_nat n <= i < g_region_count rm /\ region_at rm i = e.
Proof.
  intros [k Hk]%list_elem_of_lookup_1. exists (Z.of_nat (n + k)). rewrite lookup_drop in Hk.
  unfold region_at, g_region_count. rewrite Nat2Z.id, Hk. apply lookup_lt_Some in Hk. split; [lia|done].
Qed.

(** A range that meets no registered region. *)
Definition range_free (rm : region_map) (p n : Z) : Prop :=
  forall e, e ∈ rm.(g_regions) -> p + n <= e.(r_start) \/ e.(r_end) <= p.

Lemma even_plus2 s : is_u64 s -> Z.even s = true -> is_u64 (u64 (u64 (s + 1) + 1)) /\ Z.even (u64 (u64 (s + 1) + 1)) = true.
Proof.
  intros _ He. split; [apply u64_range|]. unfold u64. rewrite Zplus_mod_idemp_l.
  rewrite <- Z.negb_odd, <- Z.bit0_odd, Z.mod_pow2_bits_low by lia. rewrite Z.bit0_odd, Z.negb_odd.
  replace (s + 1 + 1) with (s + 2) by lia. by rewrite Z.even_add, He.
Qed.

Lemma register_spec rm p n is_anchor :
  wf rm -> 0 < p -> 0 < n -> p + n < 2 ^ 64 -> range_free rm p n ->
  match region_register_with_flags rm p n is_anchor with
  | None => g_region_count rm = V8M_REGION_MAP_CAPACITY
  | Some rm' => wf rm' /\ g_region_count rm' = g_region_count rm + 1 /\
      rm'.(g_region_seq) = u64 (u64 (rm.(g_region_seq) + 1) + 1) /\
      exists e, e.(r_start) = p /\ e.(r_end) = p + n /\ e.(r_node) = V8M_REGION_NODE_UNBOUND /\
        e.(r_is_anchor) = is_anchor /\ rm'.(g_regions) ≡ₚ e :: rm.(g_regions)
  end.
Proof.
  intros W Hp Hn Hb Hfree. unfold region_register_with_flags. pose proof (wf_count rm W) as Hc.
  destruct (Z.leb_spec V8M_REGION_MAP_CAPACITY (g_region_count rm)); [lia|].
  destruct (lower_bound_spec rm p W) as (Hr & Hlo & Hhi). set (idx := region_lower_bound rm p) in *.
  rewrite (u64_small (p + n)) by (unfold is_u64; lia).
  set (e := MkRegion p (p + n) V8M_REGION_NODE_UNBOUND is_anchor 0).
  assert (Hperm : take (Z.to_nat idx) rm.(g_regions) ++ e :: drop (Z.to_nat idx) rm.(g_regions) ≡ₚ e :: rm.(g_regions)).
  { rewrite <- Permutation_middle. by rewrite take_drop. }
  assert (Hcnt : forall seq, g_region_count (MkMap (take (Z.to_nat idx) rm.(g_regions) ++ e :: drop (Z.to_nat idx) rm.(g_regions)) seq) = g_region_count rm + 1).
  { intros seq. unfold g_region_count. cbn [g_regions]. rewrite (Permutation_length Hperm). cbn [length]. lia. }
  split; [|split; [apply Hcnt|split; [done|by exists e]]].
  pose proof W as [Ws Wf _ [Wq We]]. constructor; cbn [g_regions g_region_seq].
  - rewrite <- (take_drop (Z.to_nat idx) rm.(g_regions)) in Ws. apply StronglySorted_app in Ws as (Wx & W1 & W2).
    apply StronglySorted_app. split_and!; [|done|constructor; [done|]].
    + intros a b Ha [->|Hbb]%elem_of_cons; [|by apply Wx].
      apply take_starts in Ha as (i & Hi & Hi' & <-). specialize (Hlo i ltac:(lia)).
      destruct (Hfree (region_at rm i) (region_at_elem rm i ltac:(lia))); unfold before; cbn; [lia|done].
    + apply Forall_forall. intros b Hb'. apply drop_starts in Hb' as (i & Hi & <-). specialize (Hhi i ltac:(lia)).
      pose proof (wf_sound_at rm i W ltac:(lia)) as Hs. unfold sound_region in Hs.
      destruct (Hfree (region_at rm i) (region_at_elem rm i ltac:(lia))); unfold before; cbn; [done|lia].
  - rewrite Hperm. apply Forall_cons. split; [|done]. unfold sound_region. cbn. lia.
  - rewrite Hcnt. lia.
  - by apply even_plus2.
Qed.

Lemma same_start rm e e' :
  wf rm -> e ∈ rm.(g_regions) -> e' ∈ rm.(g_regions) -> e.(r_start) = e'.(r_start) -> e = e'.
Proof.
  intros W He He' Hs. apply region_at_index in He as (i & Hi & <-). apply region_at_index in He' as (j & Hj & <-).
  destruct (Z.lt_trichotomy i j) as [Hl|[->|Hl]]; [|done|].
  - pose proof (wf_start_lt rm i j W ltac:(lia) ltac:(lia)). lia.
  - pose proof (wf_start_lt rm j i W ltac:(lia) ltac:(lia)). lia.
Qed.

Lemma find_by_start_some rm e :
  wf rm -> e ∈ rm.(g_regions) ->
  let idx := region_find_by_start rm e.(r_start) in
  idx <> SIZE_MAX /\ 0 <= idx < g_region_count rm /\ region_at rm idx = e.
Proof.
  intros W He. unfold region_find_by_start. destruct (lower_bound_spec rm e.(r_start) W) as (Hr & Hlo & Hhi).
  set (idx := region_lower_bound rm e.(r_start)) in *.
  pose proof He as (i & Hi & Hie)%region_at_index.
  assert (Hge : idx <= i). { destruct (Z.lt_ge_cases i idx); [|done]. specialize (Hlo i ltac:(lia)). rewrite Hie in Hlo. lia. }
  assert (Heq : region_at rm idx = e).
  { destruct (Z.eq_dec i idx) as [->|]; [done|]. specialize (Hhi idx ltac:(lia)).
    pose proof (wf_start_lt rm idx i W ltac:(lia) ltac:(lia)). rewrite Hie in *. lia. }
  rewrite Heq, Z.eqb_refl. destruct (Z.ltb_spec idx (g_region_count rm)); [|lia]. cbn.
  pose proof (wf_count rm W). unfold V8M_REGION_MAP_CAPACITY, SIZE_MAX in *. split_and!; [lia|lia|lia|done].
Qed.

Lemma find_by_start_none rm p :
  wf rm -> (forall e, e ∈ rm.(g_regions) -> e.(r_start) <> p) -> region_find_by_start rm p = SIZE_MAX.
Proof.
  intros W Hn. unfold region_find_by_start. destruct (lower_bound_spec rm p W) as (Hr & _ & _).
  destruct (Z.ltb_spec (region_lower_bound rm p) (g_region_count rm)); [|done]. cbn.
  destruct (Z.eqb_spec (region_at rm (region_lower_bound rm p)).(r_start) p) as [E|]; [|done].
  destruct (Hn _ (region_at_elem rm (region_lower_bound rm p) ltac:(lia)) E).
Qed.

Lemma unregister_spec rm e :
  wf rm -> e ∈ rm.(g_regions) ->
  exists rm', region_unregister_with_flags rm e.(r_start) = (rm', e.(r_node), e.(r_is_anchor)) /\ wf rm' /\
    rm'.(g_region_seq) = u64 (u64 (rm.(g_region_seq) + 1) + 1) /\ e :: rm'.(g_regions) ≡ₚ rm.(g_regions).
Proof.
  intros W He. destruct (find_by_start_some rm e W He) as (Hne & Hi & Heq). unfold region_unregister_with_flags.
  set (idx := region_find_by_start rm e.(r_start)) in *. destruct (Z.eqb_spec idx SIZE_MAX); [done|].
  rewrite Heq. eexists. split; [reflexivity|]. cbn [g_region_seq g_regions].
  assert (Hd : drop (Z.to_nat idx) rm.(g_regions) = e :: drop (Z.to_nat (idx + 1)) rm.(g_regions)).
  { rewrite <- Heq. replace (Z.to_nat (idx + 1)) with (S (Z.to_nat idx)) by lia.
    apply drop_S, region_at_lookup, Hi. }
  assert (Hperm : e :: take (Z.to_nat idx) rm.(g_regions) ++ drop (Z.to_nat (idx + 1)) rm.(g_regions) ≡ₚ rm.(g_regions)).
  { rewrite Permutation_middle, <- Hd. by rewrite take_drop. }
  split_and!; [|done|done]. pose proof W as [Ws Wf Wc [Wq We]]. constructor; cbn [g_regions g_region_seq].
  - rewrite <- (take_drop (Z.to_nat idx) rm.(g_regions)), Hd in Ws. apply StronglySorted_app in Ws as (Wx & W1 & W2).
    apply StronglySorted_app. split_and!; [|done|by apply StronglySorted_inv in W2 as [W2 _]].
    intros a b Ha Hb. apply Wx; [done|by right].
  - rewrite <- Hperm in Wf. by apply Forall_cons in Wf as [_ Wf].
  - unfold g_region_count in *. cbn [g_regions]. apply Permutation_length in Hperm. cbn [length] in Hperm. lia.
  - by apply even_plus2.
Qed.

Lemma unregister_none rm p :
  wf rm -> (forall e, e ∈ rm.(g_regions) -> e.(r_start) <> p) ->
  region_unregister_with_flags rm p = (rm, V8M_REGION_NODE_UNBOUND, false).
Proof. intros W Hn. unfold region_unregister_with_flags. by rewrite find_by_start_none, Z.eqb_refl. Qed.

(** Updating the bookkeeping fields keeps every range. *)
Definition same_range (a b : region_entry) : Prop :=
  a.(r_start) = b.(r_start) /\ a.(r_end) = b.(r_end) /\ a.(r_is_anchor) = b.(r_is_anchor).

Lemma sorted_same_range l l' :
  Forall2 same_range l l' -> StronglySorted before l -> StronglySorted before l'.
Proof.
  induction 1 as [|a b l l' (Hs & He & _) Hf IH]; [done|]. intros [Hl Ha]%StronglySorted_inv. constructor; [auto|].
  rewrite Forall_forall in *. intros x Hx. apply list_elem_of_lookup_1 in Hx as [n Hn].
  destruct (Forall2_lookup_r _ _ _ _ _ Hf Hn) as (y & Hy & Hyx & _). apply list_elem_of_lookup_2 in Hy.
  specialize (Ha y Hy). unfold before in *. lia.
Qed.

Lemma update_same_range rm i f :
  (forall e, same_range e (f e)) -> Forall2 same_range rm.(g_regions) (update_region rm i f).(g_regions).
Proof.
  intros Hf. unfold update_region. cbn. apply Forall2_same_length_lookup_2; [by rewrite length_alter|].
  intros n x y Hx Hy. destruct (decide (n = Z.to_nat i)) as [->|Hne].
  - rewrite list_lookup_alter_eq, Hx in Hy. injection Hy as <-. apply Hf.
  - rewrite list_lookup_alter_ne in Hy by done. rewrite Hx in Hy. injection Hy as <-. done.
Qed.

Lemma update_wf rm i f : (forall e, same_range e (f e)) -> wf rm -> wf (update_region rm i f).
Proof.
  intros Hf W. pose proof (update_same_range rm i f Hf) as H2. pose proof W as [Ws Wf Wc Wq]. constructor; cbn.
  - by eapply sorted_same_range.
  - rewrite Forall_forall in Wf |- *. intros x Hx. apply list_elem_of_lookup_1 in Hx as [n Hn].
    destruct (Forall2_lookup_r _ _ _ _ _ H2 Hn) as (y & Hy & Hs & He & _). apply list_elem_of_lookup_2 in Hy.
    specialize (Wf y Hy). unfold sound_region in *. lia.
  - unfold g_region_count, update_region. cbn. rewrite length_alter. exact Wc.
  - done.
Qed.

Lemma update_owned rm i f p : (forall e, same_range e (f e)) -> owned (update_region rm i f) p <-> owned rm p.
Proof.
  intros Hf. pose proof (update_same_range rm i f Hf) as H2. unfold owned. split.
  - intros (e & [n Hn]%list_elem_of_lookup_1 & Hin). destruct (Forall2_lookup_r _ _ _ _ _ H2 Hn) as (y & Hy & Hs & He & _).
    exists y. split; [by eapply list_elem_of_lookup_2|]. unfold in_region in *. lia.
  - intros (e & [n Hn]%list_elem_of_lookup_1 & Hin). destruct (Forall2_lookup_l _ _ _ _ _ H2 Hn) as (y & Hy & Hs & He & _).
    exists y. split; [by eapply list_elem_of_lookup_2|]. unfold in_region in *. lia.
Qed.

(** No entry occurs twice. *)
Lemma StronglySorted_NoDup_regions rm : wf rm -> NoDup rm.(g_regions).
Proof.
  intros W. apply NoDup_alt. intros i j x Hi Hj. pose proof (lookup_lt_Some _ _ _ Hi). pose proof (lookup_lt_Some _ _ _ Hj).
  assert (Hat : forall n, rm.(g_regions) !! n = Some x -> region_at rm (Z.of_nat n) = x).
  { intros n Hn. unfold region_at. by rewrite Nat2Z.id, Hn. }
  destruct (Nat.lt_trichotomy i j) as [Hl|[->|Hl]]; [|done|].
  - pose proof (wf_start_lt rm (Z.of_nat i) (Z.of_nat j) W ltac:(lia) ltac:(unfold g_region_count; lia)) as Hs.
    rewrite !Hat in Hs by done. lia.
  - pose proof (wf_start_lt rm (Z.of_nat j) (Z.of_nat i) W ltac:(lia) ltac:(unfold g_region_count; lia)) as Hs.
    rewrite !Hat in Hs by done. lia.
Qed.

(** ** The consistency check *)

Definition nonempty (e : region_entry) : Prop := e.(r_start) < e.(r_end).

Lemma validate_from_nonneg prev rs : 0 <= validate_from prev rs.
Proof.
  revert prev. induction rs as [|cur rs IH]; intros prev; cbn [validate_from]; [lia|].
  specialize (IH cur). destruct (_ <? _), (_ <? _), (_ <=? _); lia.
Qed.

(** Without issues exactly when the regions are in order, without overlap, and
    none after the first is empty. *)
Lemma validate_from_spec prev rs :
  nonempty prev ->
  validate_from prev rs = 0 <-> StronglySorted before (prev :: rs) /\ Forall nonempty rs.
Proof.
  revert prev. induction rs as [|cur rs IH]; intros prev Hp; cbn [validate_from].
  { split; [|done]. intros _. split; repeat constructor. }
  pose proof (validate_from_nonneg cur rs) as H0. unfold nonempty in Hp. split.
  - intros Hv. destruct (Z.ltb_spec cur.(r_start) prev.(r_start)), (Z.ltb_spec cur.(r_start) prev.(r_end)),
      (Z.leb_spec cur.(r_end) cur.(r_start)) as [|Hc]; try lia.
    destruct (proj1 (IH cur Hc) ltac:(lia)) as [Hs Hf]. split; [|by constructor].
    constructor; [done|]. constructor; [done|]. apply StronglySorted_inv in Hs as [_ Hb].
    eapply Forall_impl; [exact Hb|]. unfold before. lia.
  - intros [Hs [Hc Hf]%Forall_cons]. apply StronglySorted_inv in Hs as [Hs [Hb _]%Forall_cons].
    rewrite (proj2 (IH cur Hc)) by done. unfold before, nonempty in *.
    destruct (Z.ltb_spec cur.(r_start) prev.(r_start)), (Z.ltb_spec cur.(r_start) prev.(r_end)),
      (Z.leb_spec cur.(r_end) cur.(r_start)); lia.
Qed.

(** ** The cached ownership test *)

(** Every region is a whole number of 64 KiB pages, as all callers of the page
    heap request them. *)
Definition granular (rm : region_map) : Prop :=
  Forall (fun e => (V8M_PAGE_SIZE | e.(r_start)) /\ (V8M_PAGE_SIZE | e.(r_end))) rm.(g_regions).

Definition verdict (rm : region_map) (p : Z) : Z := if v8m_page_heap_owns rm p then 1 else 0.

(** The cached verdict, if it is of the current sequence number, is right for
    its whole page. *)
Definition cache_ok (rm : region_map) (c : owns_cache) : Prop :=
  c.(oc_seq) <= rm.(g_region_seq) /\
  (c.(oc_seq) = rm.(g_region_seq) ->
   forall p, 0 < p < 2 ^ 64 -> Z.land p V8M_PAGE_MASK = c.(oc_page_base) -> c.(oc_result) = verdict rm p).

Lemma page_of p : 0 <= p < 2 ^ 64 -> Z.land p V8M_PAGE_MASK = p - p mod 65536.
Proof.
  intros Hp. unfold V8M_PAGE_MASK. rewrite page_size_eq. change 65536 with (2 ^ 16).
  apply land_mask_clear; [lia|done].
Qed.

(** Addresses of one page are owned together. *)
Lemma granular_page rm p q :
  wf rm -> granular rm -> 0 < p < 2 ^ 64 -> 0 < q < 2 ^ 64 ->
  Z.land p V8M_PAGE_MASK = Z.land q V8M_PAGE_MASK -> verdict rm p = verdict rm q.
Proof.
  intros W G Hp Hq He. rewrite !page_of in He by lia. unfold verdict.
  assert (Hiff : v8m_page_heap_owns rm p = true <-> v8m_page_heap_owns rm q = true).
  { rewrite !owns_spec by (done || lia). unfold owned, in_region. unfold granular in G. rewrite Forall_forall in G.
    pose proof (Z.mod_pos_bound p 65536 ltac:(lia)). pose proof (Z.mod_pos_bound q 65536 ltac:(lia)).
    pose proof (Z.div_mod p 65536 ltac:(lia)). pose proof (Z.div_mod q 65536 ltac:(lia)).
    split; intros (e & Hin & Hr); exists e; (split; [done|]); destruct (G e Hin) as [[a Ha] [b Hb]];
      rewrite page_size_eq in *; lia. }
  destruct (v8m_page_heap_owns rm p), (v8m_page_heap_owns rm q); naive_solver.
Qed.

(** What the lock-free search computes is the verdict. *)
Lemma search_verdict rm p : wf rm -> p <> NULL ->
  (if if (0 <? region_upper_bound rm p) && (region_upper_bound rm p <=? g_region_count rm)
      then (r_start (region_at rm (region_upper_bound rm p - 1)) <=? p) &&
           (p <? r_end (region_at rm (region_upper_bound rm p - 1)))
      else false then 1 else 0) = verdict rm p.
Proof.
  intros W Hn. unfold verdict, v8m_page_heap_owns. destruct (Z.eqb_spec p NULL); [done|].
  destruct (upper_bound_spec rm p W) as (Hr & Hlo & _).
  destruct (Z.leb_spec (region_upper_bound rm p) (g_region_count rm)); [|lia].
  destruct (Z.ltb_spec 0 (region_upper_bound rm p)); [|done]. cbn [andb].
  specialize (Hlo (region_upper_bound rm p - 1) ltac:(lia)).
  by destruct (Z.leb_spec (r_start (region_at rm (region_upper_bound rm p - 1))) p); [|lia].
Qed.

Lemma owns_fast_spec rm c p :
  wf rm -> granular rm -> cache_ok rm c -> 0 <= p < 2 ^ 64 ->
  exists c', v8m_page_heap_owns_fast rm c p = (c', verdict rm p) /\ cache_ok rm c'.
Proof.
  intros W G [Hseq Hc] Hp. unfold v8m_page_heap_owns_fast. destruct (Z.eqb_spec p NULL) as [->|Hn].
  { exists c. split; [done|by split]. }
  destruct (wf_seq rm W) as [_ Hev].
  assert (He0 : Z.land rm.(g_region_seq) 1 = 0).
  { change 1 with (2 ^ 1 - 1). rewrite land_mask_low by lia. rewrite Zeven_mod in Hev. by apply Z.eqb_eq in Hev. }
  rewrite He0, Z.eqb_refl. cbn [negb]. rewrite search_verdict by done. unfold NULL in Hn.
  destruct (Z.eqb_spec (Z.land p V8M_PAGE_MASK) c.(oc_page_base)) as [Hpb|Hpb],
    (Z.eqb_spec rm.(g_region_seq) c.(oc_seq)) as [Hs|Hs]; cbn [andb].
  { exists c. split; [|by split]. f_equal. apply Hc; [done|lia|done]. }
  all: eexists; split; [reflexivity|split; [done|]]; intros _ q Hq Hqp; cbn in *; apply granular_page; [done|done|lia|done|done].
Qed.

(** Any registration or removal outdates the cache. *)
Lemma cache_ok_bump rm rm' c :
  cache_ok rm c -> is_u64 rm.(g_region_seq) -> rm.(g_region_seq) + 2 < 2 ^ 64 ->
  rm'.(g_region_seq) = u64 (u64 (rm.(g_region_seq) + 1) + 1) -> cache_ok rm' c.
Proof.
  intros [Hs _] Hu Hb He. unfold is_u64 in Hu.
  rewrite (u64_small (rm.(g_region_seq) + 1)) in He by (unfold is_u64; lia). rewrite u64_small in He by (unfold is_u64; lia).
  split; [lia|]. intros. lia.
Qed.

(** the ownership test is exact, and the lock-free test with its per-thread
    cache gives the same answer for every address, whatever was cached before,
    on a map of whole pages; the cache stays valid, also across any later
    registration or removal. *)
Theorem v8m_page_heap_owns_fast_agrees rm c p :
  wf rm -> granular rm -> cache_ok rm c -> 0 <= p < 2 ^ 64 ->
  (v8m_page_heap_owns rm p = true <-> owned rm p) /\
  (exists c', v8m_page_heap_owns_fast rm c p = (c', if v8m_page_heap_owns rm p then 1 else 0) /\ cache_ok rm c' /\
     forall rm', rm.(g_region_seq) + 2 < 2 ^ 64 ->
       rm'.(g_region_seq) = u64 (u64 (rm.(g_region_seq) + 1) + 1) -> cache_ok rm' c').
Proof.
  intros W G Hc Hp. split; [apply owns_spec; [done|lia]|].
  destruct (owns_fast_spec rm c p W G Hc Hp) as (c' & He & Hc'). exists c'. split_and!; [done|done|].
  intros rm' Hb Hs. eapply cache_ok_bump; [done|apply (wf_seq rm W)|done|done].
Qed.

(** On a map whose first region is not empty, the validator reports nothing
    exactly when the regions are in address order, do not overlap and none is
    empty; on every map the operations build it reports nothing. *)
Theorem v8m_page_heap_validate_spec rm e rs :
  rm.(g_regions) = e :: rs -> nonempty e ->
  (v8m_page_heap_validate rm = 0 <-> StronglySorted before (e :: rs) /\ Forall nonempty (e :: rs)) /\
  (wf rm -> v8m_page_heap_validate rm = 0).
Proof.
  intros Hrs He. unfold v8m_page_heap_validate. rewrite Hrs.
  assert (Hiff : validate_from e rs = 0 <-> StronglySorted before (e :: rs) /\ Forall nonempty (e :: rs)).
  { rewrite validate_from_spec by done. rewrite Forall_cons. tauto. }
  split; [done|]. intros [Ws Wf _ _]. rewrite Hrs in *. apply Hiff. split; [done|].
  eapply Forall_impl; [exact Wf|]. unfold sound_region, nonempty. lia.
Qed.

(** An empty first region goes unnoticed. *)
Lemma validate_first_unchecked :
  v8m_page_heap_validate (MkMap [MkRegion 65536 65536 0 false 0] 0) = 0.
Proof. reflexivity. Qed.

Definition ex_map : region_map := MkMap [MkRegion 65536 131072 0 false 0; MkRegion 262144 393216 0 false 0] 4.

Lemma ex_map_wf : wf ex_map /\ granular ex_map.
Proof.
  split; [constructor|].
  - repeat constructor; unfold before; cbn; lia.
  - repeat constructor; cbn; lia.
  - vm_compute. done.
  - repeat split; vm_compute; done.
  - repeat constructor; rewrite page_size_eq; cbn; [by exists 1|by exists 2|by exists 4|by exists 6].
Qed.

Lemma v8m_page_heap_owns_fast_agrees_witness :
  (v8m_page_heap_owns ex_map 300000 = true <-> owned ex_map 300000) /\
  (exists c', v8m_page_heap_owns_fast ex_map owns_cache0 300000 = (c', 1) /\ cache_ok ex_map c').
Proof.
  assert (Hc : cache_ok ex_map owns_cache0) by (split; [vm_compute; done|intros H; cbn in H; discriminate H]).
  destruct (v8m_page_heap_owns_fast_agrees ex_map owns_cache0 300000 (proj1 ex_map_wf) (proj2 ex_map_wf) Hc ltac:(lia))
    as [H1 (c' & H2 & H3 & _)].
  split; [exact H1|]. exists c'. split; [exact H2|exact H3].
Defined.

Lemma v8m_page_heap_validate_spec_witness :
  v8m_page_heap_validate ex_map = 0.
Proof.
  apply (v8m_page_heap_validate_spec ex_map (MkRegion 65536 131072 0 false 0) [MkRegion 262144 393216 0 false 0]).
  - reflexivity.
  - vm_compute. done.
  - apply ex_map_wf.
Defined.

End RegionMap.
