(* ===== verification/RegionSeq.v ===== *)
(** The lock-free ownership test under concurrency: [v8m_page_heap_owns_fast] of
    [src/v8m_page_heap.c] against registrations and removals, interleaved word by
    word.

    The writers ([region_register_with_flags], [region_unregister_with_flags]) are
    serialised by [g_region_lock]; between their two bumps of [g_region_seq] the
    stores to the array and to [g_region_count] happen one at a time in any order.
    The reader loads one word per step.  Steps of both are interleaved in one order
    (sequential consistency); the other fields of an entry are not read by the test.
    The sequential operations and their specifications are those of [RegionMap]. *)

From S2P Require Import Prelude Page RegionMap.
Import Page RegionMap.

Module RegionSeq.

(** ** Memory *)

(** [g_regions[i].start], [g_regions[i].end] and [g_region_count]. *)
Inductive cell := CStart (i : Z) | CEnd (i : Z) | CCount.
#[export] Instance cell_eq_dec : EqDecision cell.
Proof. solve_decision. Defined.

Definition cells := cell -> Z.
Definition put (m : cells) (w : cell * Z) : cells := fun c => if decide (c = w.1) then w.2 else m c.
Definition puts (m : cells) (ws : list (cell * Z)) : cells := foldl put m ws.

(** The array holds the map. *)
Definition represents (rm : region_map) (m : cells) : Prop :=
  m CCount = g_region_count rm /\
  forall i, 0 <= i < g_region_count rm -> m (CStart i) = (region_at rm i).(r_start) /\ m (CEnd i) = (region_at rm i).(r_end).

(** ** The writers *)

Definition move (m : cells) (from to : Z) : list (cell * Z) := [(CStart to, m (CStart from)); (CEnd to, m (CEnd from))].

(** The stores of a registration: the [memmove] that opens the gap, the new entry and
    the count. *)
Definition register_stores (m : cells) (rm : region_map) (ptr bytes : Z) : list (cell * Z) :=
  let idx := region_lower_bound rm ptr in
  (seqZ idx (m CCount - idx) ≫= fun i => move m i (i + 1)) ++ [(CStart idx, ptr); (CEnd idx, u64 (ptr + bytes)); (CCount, m CCount + 1)].

(** The stores of a removal: the [memmove] that closes the gap, and the count. *)
Definition unregister_stores (m : cells) (idx : Z) : list (cell * Z) :=
  (seqZ (idx + 1) (m CCount - idx - 1) ≫= fun i => move m i (i - 1)) ++ [(CCount, m CCount - 1)].

(** A call that changes the map, with what the page heap passes: a new mapping of
    whole pages, or the start of a registered region. *)
Inductive writes (m : cells) (rm : region_map) : list (cell * Z) -> region_map -> Prop :=
| writes_register ptr bytes is_anchor rm' :
    0 < ptr -> 0 < bytes -> ptr + bytes < 2 ^ 64 -> range_free rm ptr bytes -> (V8M_PAGE_SIZE | ptr) -> (V8M_PAGE_SIZE | bytes) ->
    region_register_with_flags rm ptr bytes is_anchor = Some rm' -> writes m rm (register_stores m rm ptr bytes) rm'
| writes_unregister e :
    e ∈ rm.(g_regions) -> writes m rm (unregister_stores m (region_find_by_start rm e.(r_start))) (region_unregister_with_flags rm e.(r_start)).1.1.

(** ** The reader *)

(** Where a call is.  [retry] counts the passes begun before, [seq1] is the first
    snapshot of the pass. *)
Inductive pc :=
| Idle
| CheckCache (ptr : Z)
| LoadSeq (ptr retry : Z)
| LoadCount (ptr retry seq1 : Z)
| Search (ptr retry seq1 count low high : Z)
| LoadStart (ptr retry seq1 low : Z)
| LoadEnd (ptr retry seq1 low : Z)
| LoadSeq2 (ptr retry seq1 : Z) (owned : bool)
| Returned (ptr result : Z).

Definition enter (c : owns_cache) (ptr : Z) : pc :=
  if ptr =? NULL then Returned ptr 0
  else if Z.land ptr V8M_PAGE_MASK =? c.(oc_page_base) then CheckCache ptr
  else LoadSeq ptr 0.

(** One load and what follows it. *)
Definition read_step (m : cells) (seq : Z) (c : owns_cache) (p : pc) : option (owns_cache * pc) :=
  match p with
  | Idle | Returned _ _ => None
  | CheckCache ptr =>
      if (seq =? c.(oc_seq)) && (Z.land seq 1 =? 0) then Some (c, Returned ptr c.(oc_result)) else Some (c, LoadSeq ptr 0)
  | LoadSeq ptr retry =>
      if 4 <=? retry then Some (c, Returned ptr (-1))
      else if negb (Z.land seq 1 =? 0) then Some (c, LoadSeq ptr (retry + 1))
      else Some (c, LoadCount ptr retry seq)
  | LoadCount ptr retry seq1 => Some (c, Search ptr retry seq1 (m CCount) 0 (m CCount))
  | Search ptr retry seq1 count low high =>
      if low <? high then
        let mid := u64 (low + Z.shiftr (u64 (high - low)) 1) in
        if m (CStart mid) <=? ptr then Some (c, Search ptr retry seq1 count (mid + 1) high)
        else Some (c, Search ptr retry seq1 count low mid)
      else if (0 <? low) && (low <=? count) then Some (c, LoadStart ptr retry seq1 low)
      else Some (c, LoadSeq2 ptr retry seq1 false)
  | LoadStart ptr retry seq1 low =>
      if m (CStart (low - 1)) <=? ptr then Some (c, LoadEnd ptr retry seq1 low) else Some (c, LoadSeq2 ptr retry seq1 false)
  | LoadEnd ptr retry seq1 low => Some (c, LoadSeq2 ptr retry seq1 (ptr <? m (CEnd (low - 1))))
  | LoadSeq2 ptr retry seq1 owned =>
      if seq1 =? seq then
        let result := if owned then 1 else 0 in
        Some (MkCache (Z.land ptr V8M_PAGE_MASK) seq result, Returned ptr result)
      else Some (c, LoadSeq ptr (retry + 1))
  end.

(** The slot of the array a reader is about to load. *)
Definition slot (p : pc) : option Z :=
  match p with
  | Search _ _ _ _ low high => if low <? high then Some (u64 (low + Z.shiftr (u64 (high - low)) 1)) else None
  | LoadStart _ _ _ low | LoadEnd _ _ _ low => Some (low - 1)
  | _ => None
  end.

(** ** The system *)

(** The array, [g_region_seq], the writer between its bumps (the stores it has left
    and the map it makes), the reader's thread-local cache and its place.  For the
    statements: the current map ([s_map], replaced at the second bump), the number
    of finished calls that changed it, the maps that were current at some time since
    the reader's call began, and whether a writer ran since then. *)
Record sys := MkSys {
  s_cells : cells;
  s_seq : Z;
  s_writer : option (list (cell * Z) * region_map);
  s_cache : owns_cache;
  s_pc : pc;
  s_map : region_map;
  s_writes : Z;
  s_seen : list region_map;
  s_busy : bool
}.

Inductive step : sys -> sys -> Prop :=
| step_begin m seq c p rm n seen busy stores order rm' :
    writes m rm stores rm' -> order ≡ₚ stores ->
    step (MkSys m seq None c p rm n seen busy) (MkSys m (u64 (seq + 1)) (Some (order, rm')) c p rm n seen true)
| step_store m seq w ws rm' c p rm n seen busy :
    step (MkSys m seq (Some (w :: ws, rm')) c p rm n seen busy) (MkSys (put m w) seq (Some (ws, rm')) c p rm n seen busy)
| step_finish m seq rm' c p rm n seen busy :
    step (MkSys m seq (Some ([], rm')) c p rm n seen busy) (MkSys m (u64 (seq + 1)) None c p rm' (n + 1) (seen ++ [rm']) busy)
| step_call m seq w c p rm n seen busy ptr :
    match p with Idle | Returned _ _ => True | _ => False end -> 0 <= ptr < 2 ^ 64 ->
    step (MkSys m seq w c p rm n seen busy) (MkSys m seq w c (enter c ptr) rm n [rm] (match w with Some _ => true | None => false end))
| step_read m seq w c p rm n seen busy c' p' :
    read_step m seq c p = Some (c', p') ->
    step (MkSys m seq w c p rm n seen busy) (MkSys m seq w c' p' rm n seen busy).

(** The static state. *)
Definition start : sys := MkSys (fun _ => 0) 0 None owns_cache0 Idle (MkMap [] 0) 0 [] false.

(** How many loads a call still takes at most. *)
Definition loads_left (p : pc) : Z :=
  match p with
  | Idle | Returned _ _ => 0
  | CheckCache _ => 5 * 5000
  | LoadSeq _ retry => (4 - retry) * 5000 + 4999
  | LoadCount _ retry _ => (4 - retry) * 5000 + 4998
  | Search _ retry _ _ low high => (4 - retry) * 5000 + 100 + (high - low)
  | LoadStart _ retry _ _ => (4 - retry) * 5000 + 3
  | LoadEnd _ retry _ _ => (4 - retry) * 5000 + 2
  | LoadSeq2 _ retry _ _ => (4 - retry) * 5000 + 1
  end.

(** ** The stores of a writer *)

Lemma puts_out ws m c : (forall v, (c, v) ∉ ws) -> puts m ws c = m c.
Proof.
  revert m. induction ws as [|[c' v'] ws IH]; intros m Hn; [done|]. unfold puts in *. cbn [foldl]. rewrite IH by (intros v Hv; apply (Hn v); by right).
  unfold put. cbn. destruct (decide (c = c')) as [->|]; [destruct (Hn v'); by left|done].
Qed.
Lemma puts_in ws m c v : (c, v) ∈ ws -> (forall v', (c, v') ∈ ws -> v' = v) -> puts m ws c = v.
Proof.
  revert m. induction ws as [|[c' v'] ws IH]; intros m Hin Hu; [by apply not_elem_of_nil in Hin|]. unfold puts in *. cbn [foldl].
  destruct (decide ((c, v) ∈ ws)) as [Hi|Hi]; [apply IH; [done|intros; apply Hu; by right]|].
  apply elem_of_cons in Hin as [[= <- <-]|Hin]; [|done]. change (puts (put m (c, v)) ws c = v). rewrite puts_out.
  - unfold put. cbn. by rewrite decide_True.
  - intros w Hw. assert (w = v) as -> by (apply Hu; by right). done.
Qed.

(** In any order, the stores leave the same words. *)
Lemma puts_order ws order m c v : order ≡ₚ ws -> (c, v) ∈ ws -> (forall v', (c, v') ∈ ws -> v' = v) -> puts m order c = v.
Proof. intros Hp Hin Hu. apply puts_in; [by rewrite Hp|]. intros v' Hv. apply Hu. by rewrite <- Hp. Qed.
Lemma puts_order_out ws order m c : order ≡ₚ ws -> (forall v, (c, v) ∉ ws) -> puts m order c = m c.
Proof. intros Hp Hn. apply puts_out. intros v. rewrite Hp. apply Hn. Qed.

Lemma moves_elem m a n d c v : (c, v) ∈ (seqZ a n ≫= fun i => move m i (i + d)) <->
  exists i, a <= i < a + n /\ ((c = CStart (i + d) /\ v = m (CStart i)) \/ (c = CEnd (i + d) /\ v = m (CEnd i))).
Proof.
  rewrite list_elem_of_bind. split.
  - intros (i & Hm & Hi). apply elem_of_seqZ in Hi. exists i. split; [done|]. unfold move in Hm. apply elem_of_cons in Hm as [[= -> ->]|Hm]; [by left|]. apply list_elem_of_singleton in Hm as [= -> ->]. by right.
  - intros (i & Hi & Hm). exists i. split; [|by apply elem_of_seqZ]. unfold move. destruct Hm as [[-> ->]|[-> ->]]; set_solver.
Qed.

Lemma count_nonneg rm : 0 <= g_region_count rm.
Proof. unfold g_region_count. lia. Qed.

(** The words of a map after the stores, from what each slot receives. *)
Lemma represents_after rm m order stores rm' :
  represents rm m -> order ≡ₚ stores ->
  (forall v, (CCount, v) ∈ stores <-> v = g_region_count rm') ->
  (forall i, 0 <= i < g_region_count rm' ->
     ((forall v, (CStart i, v) ∉ stores) /\ (forall v, (CEnd i, v) ∉ stores) /\ i < g_region_count rm /\ region_at rm' i = region_at rm i) \/
     (forall v, ((CStart i, v) ∈ stores <-> v = (region_at rm' i).(r_start)) /\ ((CEnd i, v) ∈ stores <-> v = (region_at rm' i).(r_end)))) ->
  represents rm' (puts m order).
Proof.
  intros [Hc Hm] Hp Hcount Hslots. split.
  - eapply puts_order; [done|by apply Hcount|]. intros v Hv. by apply Hcount.
  - intros i Hi. destruct (Hslots i Hi) as [(H1 & H2 & H3 & ->)|H].
    + rewrite !(puts_order_out stores) by done. apply Hm. lia.
    + split; (eapply puts_order; [done|by apply H|]); intros v Hv; by apply H.
Qed.

Lemma region_at_app l1 l2 seq i : 0 <= i ->
  region_at (MkMap (l1 ++ l2) seq) i = if decide (i < Z.of_nat (length l1)) then region_at (MkMap l1 seq) i else region_at (MkMap l2 seq) (i - Z.of_nat (length l1)).
Proof.
  intros Hi. unfold region_at. cbn. destruct (decide _).
  - by rewrite lookup_app_l by lia.
  - rewrite lookup_app_r by lia. repeat f_equal. lia.
Qed.

Lemma insert_at (rs : list region_entry) idx e seq i : 0 <= idx <= Z.of_nat (length rs) -> 0 <= i ->
  region_at (MkMap (take (Z.to_nat idx) rs ++ e :: drop (Z.to_nat idx) rs) seq) i =
    if decide (i < idx) then region_at (MkMap rs seq) i else if decide (i = idx) then e else region_at (MkMap rs seq) (i - 1).
Proof.
  intros Hr Hi. assert (Hl : length (take (Z.to_nat idx) rs) = Z.to_nat idx) by (rewrite length_take; lia).
  rewrite region_at_app by done. rewrite Hl, Z2Nat.id by lia. unfold region_at. cbn [g_regions]. destruct (decide (i < idx)).
  - by rewrite lookup_take_lt by lia.
  - destruct (decide (i = idx)) as [->|Hne]; [by rewrite Z.sub_diag|]. rewrite lookup_cons_ne_0, lookup_drop by lia. repeat f_equal. lia.
Qed.

Lemma insert_count (rs : list region_entry) idx e seq : 0 <= idx <= Z.of_nat (length rs) ->
  g_region_count (MkMap (take (Z.to_nat idx) rs ++ e :: drop (Z.to_nat idx) rs) seq) = Z.of_nat (length rs) + 1.
Proof. intros Hr. unfold g_region_count. cbn [g_regions]. rewrite length_app. cbn [length]. rewrite length_drop, length_take. lia. Qed.

Lemma register_at rm ptr bytes is_anchor rm' : wf rm -> region_register_with_flags rm ptr bytes is_anchor = Some rm' ->
  g_region_count rm' = g_region_count rm + 1 /\
  forall i, 0 <= i -> region_at rm' i =
    if decide (i < region_lower_bound rm ptr) then region_at rm i else if decide (i = region_lower_bound rm ptr) then MkRegion ptr (u64 (ptr + bytes)) V8M_REGION_NODE_UNBOUND is_anchor 0 else region_at rm (i - 1).
Proof.
  intros W. destruct (lower_bound_spec rm ptr W) as (Hr & _ & _). revert Hr. unfold region_register_with_flags. generalize (region_lower_bound rm ptr). intros idx Hr.
  destruct (V8M_REGION_MAP_CAPACITY <=? g_region_count rm); [discriminate|]. intros H. injection H as <-. split; [by apply insert_count|]. intros i Hi. by apply insert_at.
Qed.

Lemma register_represents rm m ptr bytes is_anchor rm' order : wf rm -> represents rm m ->
  region_register_with_flags rm ptr bytes is_anchor = Some rm' -> order ≡ₚ register_stores m rm ptr bytes -> represents rm' (puts m order).
Proof.
  intros W Hrep Hreg Hp. destruct (register_at _ _ _ _ _ W Hreg) as [Hc Hat]. destruct (lower_bound_spec rm ptr W) as (Hr & _ & _).
  set (idx := region_lower_bound rm ptr) in *. pose proof Hrep as [Hmc Hm].
  assert (Helem : forall c v, (c, v) ∈ register_stores m rm ptr bytes <->
    (exists i, idx <= i < g_region_count rm /\ ((c = CStart (i + 1) /\ v = (region_at rm i).(r_start)) \/ (c = CEnd (i + 1) /\ v = (region_at rm i).(r_end)))) \/
    (c = CStart idx /\ v = ptr) \/ (c = CEnd idx /\ v = u64 (ptr + bytes)) \/ (c = CCount /\ v = g_region_count rm + 1)).
  { intros c v. unfold register_stores. fold idx. rewrite elem_of_app, moves_elem, Hmc. replace (idx + (g_region_count rm - idx)) with (g_region_count rm) by lia.
    assert (Hmove : forall i, idx <= i < g_region_count rm -> m (CStart i) = r_start (region_at rm i) /\ m (CEnd i) = r_end (region_at rm i)) by (intros i Hi; apply Hm; lia).
    rewrite !elem_of_cons, elem_of_nil. split.
    - intros [(i & Hi & Hv)|Hv]; [left; exists i; destruct (Hmove i Hi) as [<- <-]; done|right]. destruct Hv as [[= -> ->]|[[= -> ->]|[[= -> ->]|[]]]]; auto.
    - intros [(i & Hi & Hv)|Hv]; [left; exists i; destruct (Hmove i Hi) as [-> ->]; done|right]. destruct Hv as [[-> ->]|[[-> ->]|[-> ->]]]; auto. }
  eapply represents_after; [exact Hrep|exact Hp| |].
  - intros v. rewrite Helem, Hc. split; [|by auto]. intros [(i & _ & [[? _]|[? _]])|[[? _]|[[? _]|[_ ?]]]]; done.
  - intros i Hi. rewrite Hat by lia. destruct (decide (i < idx)) as [Hlt|Hge]; [left|right].
    + assert (Hnone : forall c v, (c, v) ∈ register_stores m rm ptr bytes -> c <> CStart i /\ c <> CEnd i).
      { intros c v Hv. apply Helem in Hv as [(j & Hj & [[-> _]|[-> _]])|[[-> _]|[[-> _]|[-> _]]]]; split; try done; injection 1 as E; lia. }
      split; [intros v Hv; by destruct (Hnone _ _ Hv)|]. split; [intros v Hv; by destruct (Hnone _ _ Hv)|]. split; [lia|done].
    + intros v. rewrite !Helem. destruct (decide (i = idx)) as [->|Hne]; cbn [r_start r_end].
      * split; (split; [|by auto]); intros [(j & Hj & [[E _]|[E _]])|[[E ->]|[[E ->]|[E _]]]]; try done; injection E as E; lia.
      * split; (split; [intros [(j & Hj & [[E ->]|[E ->]])|[[E _]|[[E _]|[E _]]]]; try done; injection E as E; [by replace (i - 1) with j by lia|lia]|]); intros ->; left; exists (i - 1); replace (i - 1 + 1) with i by lia; (split; [lia|auto]).
Qed.

Lemma remove_at (rs : list region_entry) idx seq i : 0 <= idx < Z.of_nat (length rs) -> 0 <= i ->
  region_at (MkMap (take (Z.to_nat idx) rs ++ drop (Z.to_nat (idx + 1)) rs) seq) i = if decide (i < idx) then region_at (MkMap rs seq) i else region_at (MkMap rs seq) (i + 1).
Proof.
  intros Hr Hi. assert (Hl : length (take (Z.to_nat idx) rs) = Z.to_nat idx) by (rewrite length_take; lia).
  rewrite region_at_app by done. rewrite Hl, Z2Nat.id by lia. unfold region_at. cbn [g_regions]. destruct (decide (i < idx)).
  - by rewrite lookup_take_lt by lia.
  - rewrite lookup_drop. repeat f_equal. lia.
Qed.

Lemma unregister_at rm e : wf rm -> e ∈ rm.(g_regions) ->
  let idx := region_find_by_start rm e.(r_start) in let rm' := (region_unregister_with_flags rm e.(r_start)).1.1 in
  0 <= idx < g_region_count rm /\ g_region_count rm' = g_region_count rm - 1 /\
  forall i, 0 <= i -> region_at rm' i = if decide (i < idx) then region_at rm i else region_at rm (i + 1).
Proof.
  intros W He. destruct (find_by_start_some rm e W He) as (Hne & Hi & _). revert Hne Hi. unfold region_unregister_with_flags. generalize (region_find_by_start rm (r_start e)). intros idx Hne Hi.
  rewrite (proj2 (Z.eqb_neq _ _) Hne). cbn [fst]. split; [done|]. split; [|intros i Hi0; by apply remove_at].
  unfold g_region_count in *. cbn [g_regions]. rewrite length_app, length_drop, length_take. lia.
Qed.

Lemma unregister_represents rm m e order : wf rm -> represents rm m -> e ∈ rm.(g_regions) ->
  order ≡ₚ unregister_stores m (region_find_by_start rm e.(r_start)) -> represents (region_unregister_with_flags rm e.(r_start)).1.1 (puts m order).
Proof.
  intros W Hrep He Hp. destruct (unregister_at rm e W He) as (Hi & Hc & Hat). revert Hi Hc Hat Hp. generalize (region_find_by_start rm (r_start e)) as idx, (region_unregister_with_flags rm (r_start e)).1.1 as rm'.
  intros idx rm' Hr Hc Hat Hp. pose proof Hrep as [Hmc Hm].
  assert (Helem : forall c v, (c, v) ∈ unregister_stores m idx <->
    (exists i, idx < i < g_region_count rm /\ ((c = CStart (i - 1) /\ v = (region_at rm i).(r_start)) \/ (c = CEnd (i - 1) /\ v = (region_at rm i).(r_end)))) \/
    (c = CCount /\ v = g_region_count rm - 1)).
  { intros c v. unfold unregister_stores. rewrite elem_of_app, list_elem_of_singleton, Hmc. change (fun i : Z => move m i (i - 1)) with (fun i : Z => move m i (i + -1)). rewrite moves_elem.
    split.
    - intros [(i & Hi & Hv)|[= -> ->]]; [left; exists i; split; [lia|]; destruct (Hm i ltac:(lia)) as [<- <-]; exact Hv|by right].
    - intros [(i & Hi & Hv)|[-> ->]]; [left; exists i; split; [lia|]; destruct (Hm i ltac:(lia)) as [-> ->]; exact Hv|by right]. }
  eapply represents_after; [exact Hrep|exact Hp| |].
  - intros v. rewrite Helem, Hc. split; [|by auto]. intros [(i & _ & [[? _]|[? _]])|[_ ?]]; done.
  - intros i Hi. rewrite Hat by lia. destruct (decide (i < idx)) as [Hlt|Hge]; [left|right].
    + assert (Hnone : forall c v, (c, v) ∈ unregister_stores m idx -> c <> CStart i /\ c <> CEnd i).
      { intros c v Hv. apply Helem in Hv as [(j & Hj & [[-> _]|[-> _]])|[-> _]]; split; try done; injection 1 as E; lia. }
      split; [intros v Hv; by destruct (Hnone _ _ Hv)|]. split; [intros v Hv; by destruct (Hnone _ _ Hv)|]. split; [lia|done].
    + intros v. rewrite !Helem. split; (split; [intros [(j & Hj & [[E ->]|[E ->]])|[E _]]; try done; injection E as E; by replace (i + 1) with j by lia|]); intros ->; left; exists (i + 1); replace (i + 1 - 1) with i by lia; (split; [lia|auto]).
Qed.

(** What a writer leaves. *)
Lemma writes_spec m rm stores order rm' : wf rm -> granular rm -> represents rm m -> writes m rm stores rm' -> order ≡ₚ stores ->
  wf rm' /\ granular rm' /\ represents rm' (puts m order) /\ rm'.(g_region_seq) = u64 (u64 (rm.(g_region_seq) + 1) + 1) /\ (forall v, (CCount, v) ∈ order -> v = g_region_count rm').
Proof.
  intros W G Hrep Hw Hp. destruct Hw as [ptr bytes is_anchor rm' H1 H2 H3 H4 H5 H6 Hreg|e He].
  - pose proof (register_spec rm ptr bytes is_anchor W H1 H2 H3 H4) as Hspec. rewrite Hreg in Hspec. destruct Hspec as (W' & Hc & Hs & e & E1 & E2 & _ & _ & Hperm).
    split; [done|]. split; [|split; [by apply (register_represents rm m ptr bytes is_anchor)|split; [done|]]].
    + unfold granular in *. rewrite Hperm. constructor; [|done]. rewrite E1, E2. split; [done|by apply Z.divide_add_r].
    + intros v Hv. rewrite Hp in Hv. unfold register_stores in Hv. rewrite (proj1 Hrep) in Hv. apply elem_of_app in Hv as [(i & _ & [[? _]|[? _]])%moves_elem|Hv]; [done|done|]. set_solver.
  - destruct (unregister_spec rm e W He) as (rm' & E & W' & Hs & Hperm). pose proof (unregister_at rm e W He) as (_ & Hc & _). pose proof (unregister_represents rm m e order W Hrep He Hp) as Hrep'.
    rewrite E in *. cbn [fst] in *. split; [done|]. split; [|split; [done|split; [done|]]].
    + unfold granular in *. rewrite <- Hperm in G. by apply Forall_cons in G as [_ G].
    + intros v Hv. rewrite Hp in Hv. unfold unregister_stores in Hv. rewrite (proj1 Hrep) in Hv. change (fun i : Z => move m i (i - 1)) with (fun i : Z => move m i (i + -1)) in Hv.
      apply elem_of_app in Hv as [(i & _ & [[? _]|[? _]])%moves_elem|Hv]; [done|done|]. set_solver.
Qed.

(** ** The invariant *)

Definition calling (p : pc) : bool := match p with Idle => false | _ => true end.

(** [seq1] is the first snapshot of a pass: while it is the sequence number, what the
    pass has read is the current map. *)
Definition seq1_ok (s : sys) (seq1 : Z) : Prop := seq1 <= s.(s_seq) /\ Z.even seq1 = true /\ (s.(s_busy) = false -> seq1 = s.(s_seq)).
Definition retry_ok (s : sys) (retry limit : Z) : Prop := 0 <= retry <= limit /\ (s.(s_busy) = false -> retry = 0).

Definition pc_ok (s : sys) (p : pc) : Prop :=
  let rm := s.(s_map) in
  match p with
  | Idle => True
  | CheckCache ptr => 0 < ptr < 2 ^ 64 /\ Z.land ptr V8M_PAGE_MASK = s.(s_cache).(oc_page_base)
  | LoadSeq ptr retry => 0 < ptr < 2 ^ 64 /\ retry_ok s retry 4
  | LoadCount ptr retry seq1 => 0 < ptr < 2 ^ 64 /\ retry_ok s retry 3 /\ seq1_ok s seq1
  | Search ptr retry seq1 count low high =>
      0 < ptr < 2 ^ 64 /\ retry_ok s retry 3 /\ seq1_ok s seq1 /\ 0 <= low <= high /\ high <= count <= V8M_REGION_MAP_CAPACITY /\
      (seq1 = s.(s_seq) -> count = g_region_count rm /\ (forall i, 0 <= i < low -> (region_at rm i).(r_start) <= ptr) /\ (forall i, high <= i < count -> ptr < (region_at rm i).(r_start)))
  | LoadStart ptr retry seq1 low =>
      0 < ptr < 2 ^ 64 /\ retry_ok s retry 3 /\ seq1_ok s seq1 /\ 1 <= low <= V8M_REGION_MAP_CAPACITY /\ (seq1 = s.(s_seq) -> low = region_upper_bound rm ptr)
  | LoadEnd ptr retry seq1 low =>
      0 < ptr < 2 ^ 64 /\ retry_ok s retry 3 /\ seq1_ok s seq1 /\ 1 <= low <= V8M_REGION_MAP_CAPACITY /\ (seq1 = s.(s_seq) -> low = region_upper_bound rm ptr)
  | LoadSeq2 ptr retry seq1 owned =>
      0 < ptr < 2 ^ 64 /\ retry_ok s retry 3 /\ seq1_ok s seq1 /\ (seq1 = s.(s_seq) -> (if owned then 1 else 0) = verdict rm ptr)
  | Returned ptr r => (r = -1 -> s.(s_busy) = true) /\ (r = -1 \/ exists rm, rm ∈ s.(s_seen) /\ r = verdict rm ptr)
  end.

(** The writer's part, with [n] finished calls. *)
Definition writer_ok (s : sys) : Prop :=
  match s.(s_writer) with
  | None => s.(s_seq) = 2 * s.(s_writes) /\ represents s.(s_map) s.(s_cells)
  | Some (ws, rm') =>
      s.(s_seq) = 2 * s.(s_writes) + 1 /\ wf rm' /\ granular rm' /\ rm'.(g_region_seq) = 2 * s.(s_writes) + 2 /\
      represents rm' (puts s.(s_cells) ws) /\ (forall v, (CCount, v) ∈ ws -> v = g_region_count rm')
  end.

Record inv (s : sys) : Prop := {
  inv_wf : wf s.(s_map);
  inv_granular : granular s.(s_map);
  inv_seq : s.(s_map).(g_region_seq) = 2 * s.(s_writes) /\ 0 <= s.(s_writes);
  inv_writer : writer_ok s;
  inv_count : 0 <= s.(s_cells) CCount <= V8M_REGION_MAP_CAPACITY;
  inv_cache : cache_ok s.(s_map) s.(s_cache);
  inv_pc : pc_ok s s.(s_pc);
  inv_call : calling s.(s_pc) = true -> s.(s_map) ∈ s.(s_seen) /\ (is_Some s.(s_writer) -> s.(s_busy) = true)
}.

(** The sequence number does not come round. *)
Definition bounded (s : sys) : Prop := 2 * s.(s_writes) + 2 < 2 ^ 64.

Lemma inv_start : inv start.
Proof.
  assert (W : wf (MkMap [] 0)) by (constructor; [constructor|constructor|vm_compute; done|vm_compute; done]). constructor; cbn.
  - done.
  - constructor.
  - done.
  - split; [done|]. split; [done|]. intros i Hi. unfold g_region_count in Hi. cbn in Hi. lia.
  - done.
  - split; [done|]. intros _ p Hp Hz. cbn. unfold verdict. destruct (v8m_page_heap_owns (MkMap [] 0) p) eqn:E; [|done].
    apply owns_spec in E as (e & He & _); [by apply not_elem_of_nil in He|done|lia].
  - done.
  - done.
Qed.

(** A writer's bump leaves a pass behind. *)
Lemma pc_ok_outdated s s' p :
  s_seq s < s_seq s' -> s'.(s_cache) = s.(s_cache) -> s'.(s_busy) = true -> (forall rm, rm ∈ s.(s_seen) -> rm ∈ s'.(s_seen)) -> pc_ok s p -> pc_ok s' p.
Proof.
  intros Hs Hc Hb Hseen. assert (Hr : forall retry limit, retry_ok s retry limit -> retry_ok s' retry limit) by (intros retry limit [? _]; split; [done|by rewrite Hb]).
  assert (Hq : forall seq1, seq1_ok s seq1 -> seq1_ok s' seq1 /\ seq1 <> s_seq s') by (intros seq1 (? & ? & _); split; [split; [lia|split; [done|by rewrite Hb]]|lia]).
  destruct p; cbn [pc_ok].
  - done.
  - by rewrite Hc.
  - intros [? ?]. auto.
  - intros (? & ? & H). destruct (Hq _ H). auto.
  - intros (? & ? & H & ? & ? & _). destruct (Hq _ H). do 5 (split; [by auto|]). by intros ?.
  - intros (? & ? & H & ? & _). destruct (Hq _ H). do 4 (split; [by auto|]). by intros ?.
  - intros (? & ? & H & ? & _). destruct (Hq _ H). do 4 (split; [by auto|]). by intros ?.
  - intros (? & ? & H & _). destruct (Hq _ H). do 3 (split; [by auto|]). by intros ?.
  - intros [_ [->|(rm & ? & ->)]]; (split; [done|]); [by left|right; eauto].
Qed.

Lemma even_land z : (Z.land z 1 =? 0) = Z.even z.
Proof. change 1 with (2 ^ 1 - 1) at 1. rewrite land_mask_low by lia. change (2 ^ 1) with 2. rewrite Zeven_mod. by destruct (z mod 2). Qed.

(** While the snapshot is current no writer runs, and the array is the map. *)
Lemma quiet s seq1 : inv s -> seq1_ok s seq1 -> seq1 = s.(s_seq) -> represents s.(s_map) s.(s_cells).
Proof.
  intros [_ _ _ Hw _ _ _ _] (_ & He & _) ->. unfold writer_ok in Hw. destruct (s_writer s) as [[ws rm']|]; [|apply Hw]. destruct Hw as (Hs & _). rewrite Hs, Z.add_comm, Z.even_add_mul_2 in He. done.
Qed.

Lemma upper_unique rm ptr low : wf rm -> 0 <= low <= g_region_count rm -> (forall i, 0 <= i < low -> (region_at rm i).(r_start) <= ptr) -> (forall i, low <= i < g_region_count rm -> ptr < (region_at rm i).(r_start)) -> low = region_upper_bound rm ptr.
Proof.
  intros W Hl H1 H2. destruct (upper_bound_spec rm ptr W) as (Hr & H3 & H4). destruct (Z.lt_trichotomy low (region_upper_bound rm ptr)) as [Hlt|[->|Hgt]]; [|done|].
  - specialize (H2 low ltac:(lia)). specialize (H3 low ltac:(lia)). lia.
  - specialize (H1 (region_upper_bound rm ptr) ltac:(lia)). specialize (H4 (region_upper_bound rm ptr) ltac:(lia)). lia.
Qed.

Lemma mid_range low high : 0 <= low < high -> high <= V8M_REGION_MAP_CAPACITY -> low <= u64 (low + Z.shiftr (u64 (high - low)) 1) < high.
Proof.
  unfold V8M_REGION_MAP_CAPACITY. intros Hl Hh. rewrite (u64_small (high - low)) by (unfold is_u64; lia). rewrite Z.shiftr_div_pow2 by lia. change (2 ^ 1) with 2.
  pose proof (Z.div_mod (high - low) 2 ltac:(lia)). pose proof (Z.mod_pos_bound (high - low) 2 ltac:(lia)). rewrite u64_small by (unfold is_u64; lia). lia.
Qed.

Lemma starts_sorted rm i j : wf rm -> 0 <= i <= j -> j < g_region_count rm -> (region_at rm i).(r_start) <= (region_at rm j).(r_start).
Proof. intros W Hi Hj. destruct (Z.eq_dec i j) as [->|]; [lia|]. pose proof (wf_start_lt rm i j W ltac:(lia) Hj). lia. Qed.

Lemma even_quiet s : inv s -> Z.even s.(s_seq) = true -> s.(s_writer) = None /\ s.(s_seq) = s.(s_map).(g_region_seq).
Proof.
  intros [_ _ [Hq _] Hw _ _ _ _] He. unfold writer_ok in Hw. destruct (s_writer s) as [[ws rm']|]; [|split; [done|lia]]. destruct Hw as (Hs & _). rewrite Hs, Z.add_comm, Z.even_add_mul_2 in He. done.
Qed.

Lemma verdict_bit rm p : 0 <= verdict rm p <= 1.
Proof. unfold verdict. destruct (v8m_page_heap_owns rm p); lia. Qed.

(** A load of the reader. *)
Lemma inv_read s c' p' : inv s -> read_step s.(s_cells) s.(s_seq) s.(s_cache) s.(s_pc) = Some (c', p') ->
  inv (MkSys s.(s_cells) s.(s_seq) s.(s_writer) c' p' s.(s_map) s.(s_writes) s.(s_seen) s.(s_busy)).
Proof.
  intros Hi Hstep. pose proof Hi as [W G Hsq Hw Hcount Hc Hp Hcall].
  assert (Hnew : cache_ok s.(s_map) c' /\ pc_ok s p' /\ (forall ptr, p' <> CheckCache ptr) /\ calling s.(s_pc) = true).
  2: { destruct Hnew as (H1 & H2 & H3 & H4). constructor; try done; cbn [s_map s_cells s_writer s_seq s_cache s_pc s_seen s_busy s_writes].
       - destruct p'; try exact H2. by destruct (H3 ptr).
       - intros _. by apply Hcall. }
  destruct (s_pc s) as [|ptr|ptr retry|ptr retry seq1|ptr retry seq1 count low high|ptr retry seq1 low|ptr retry seq1 low|ptr retry seq1 owned|ptr r]; cbn [read_step pc_ok] in *; [done| | | | | | | |done];
    destruct (Hcall eq_refl) as [Hseen Hbusy]; clear Hcall.
  - destruct Hp as [Hptr Hpage]. rewrite even_land in Hstep. destruct (Z.eqb_spec (s_seq s) (oc_seq (s_cache s))) as [Heq|]; [destruct (Z.even (s_seq s)) eqn:He|]; cbn [andb] in Hstep; injection Hstep as <- <-; (split; [done|split; [|done]]).
    + destruct (even_quiet s Hi He) as [_ Hm]. assert (Hr : oc_result (s_cache s) = verdict (s_map s) ptr) by (apply Hc; [by rewrite <- Hm|done|done]).
      cbn [pc_ok]. rewrite Hr. pose proof (verdict_bit (s_map s) ptr). split; [lia|]. right. eauto.
    + split; [done|]. split; [lia|done].
    + split; [done|]. split; [lia|done].
  - destruct Hp as [Hptr Hretry]. rewrite even_land in Hstep. destruct (Z.leb_spec 4 retry) as [H4|H4]; [|destruct (Z.even (s_seq s)) eqn:He]; cbn [negb] in Hstep; injection Hstep as <- <-; (split; [done|split; [|done]]); cbn [pc_ok].
    + split; [intros _|by left]. destruct (s_busy s) eqn:Eb; [done|]. destruct Hretry as [_ H]. specialize (H Eb). lia.
    + split; [done|]. split; [destruct Hretry; split; [lia|done]|]. split; [lia|done].
    + split; [done|]. destruct Hretry as [Hr _]. split; [lia|]. intros Hb. exfalso. unfold writer_ok in Hw. destruct (s_writer s) as [w|]; [by rewrite Hbusy in Hb by done|]. destruct Hw as [Hs _]. rewrite Hs, Z.even_mul in He. done.
  - destruct Hp as (Hptr & Hretry & Hs1). injection Hstep as <- <-. split; [done|]. split; [|done]. cbn [pc_ok]. do 3 (split; [done|]). split; [lia|]. split; [lia|].
    intros Heq. destruct (quiet s seq1 Hi Hs1 Heq) as [-> _]. split; [done|]. split; intros; lia.
  - destruct Hp as (Hptr & Hretry & Hs1 & Hlh & Hhc & Hq). destruct (Z.ltb_spec low high) as [Hlt|Hge].
    + pose proof (mid_range low high ltac:(lia) ltac:(lia)) as Hmid. set (mid := u64 (low + Z.shiftr (u64 (high - low)) 1)) in *. clearbody mid.
      assert (Hm : seq1 = s_seq s -> s_cells s (CStart mid) = r_start (region_at (s_map s) mid)).
      { intros Heq. destruct (Hq Heq) as (-> & _ & _). apply (quiet s seq1 Hi Hs1 Heq). lia. }
      destruct (Z.leb_spec (s_cells s (CStart mid)) ptr) as [Hle|Hgt]; injection Hstep as <- <-; (split; [done|split; [|done]]); cbn [pc_ok]; (do 3 (split; [done|])); (split; [lia|]); (split; [lia|]);
        intros Heq; destruct (Hq Heq) as (Hcnt & Hlo & Hhi); specialize (Hm Heq); (split; [done|]); split; [|done|done|].
      * intros i Hib. pose proof (starts_sorted (s_map s) i mid W ltac:(lia) ltac:(lia)). lia.
      * intros i Hib. pose proof (starts_sorted (s_map s) mid i W ltac:(lia) ltac:(lia)). lia.
    + assert (Hu : seq1 = s_seq s -> low = region_upper_bound (s_map s) ptr).
      { intros Heq. destruct (Hq Heq) as (Hcnt & Hlo & Hhi). apply upper_unique; [done|lia|done|]. intros i Hib. apply Hhi. lia. }
      destruct (Z.ltb_spec 0 low) as [H0|H0]; [rewrite (proj2 (Z.leb_le low count)) in Hstep by lia|]; cbn [andb] in Hstep; injection Hstep as <- <-; (split; [done|split; [|done]]); cbn [pc_ok]; (do 3 (split; [done|])).
      * split; [lia|done].
      * intros Heq. rewrite <- (search_verdict (s_map s) ptr W) by (unfold NULL; lia). rewrite <- (Hu Heq). by rewrite (proj2 (Z.ltb_ge 0 low)) by lia.
  - destruct Hp as (Hptr & Hretry & Hs1 & Hl & Hq). destruct (Z.leb_spec (s_cells s (CStart (low - 1))) ptr) as [Hle|Hgt]; injection Hstep as <- <-; (split; [done|split; [|done]]); cbn [pc_ok]; (do 3 (split; [done|])); [split; [lia|done]|].
    intros Heq. pose proof (Hq Heq) as Hlow. destruct (upper_bound_spec (s_map s) ptr W) as (Hr & Hlo & _). rewrite <- Hlow in *. specialize (Hlo (low - 1) ltac:(lia)).
    destruct (quiet s seq1 Hi Hs1 Heq) as [_ Hm]. destruct (Hm (low - 1) ltac:(lia)) as [E _]. lia.
  - destruct Hp as (Hptr & Hretry & Hs1 & Hl & Hq). injection Hstep as <- <-. split; [done|]. split; [|done]. cbn [pc_ok]. do 3 (split; [done|]).
    intros Heq. pose proof (Hq Heq) as Hlow. destruct (upper_bound_spec (s_map s) ptr W) as (Hr & Hlo & _). rewrite <- Hlow in *. specialize (Hlo (low - 1) ltac:(lia)).
    destruct (quiet s seq1 Hi Hs1 Heq) as [_ Hm]. destruct (Hm (low - 1) ltac:(lia)) as [_ E]. rewrite <- (search_verdict (s_map s) ptr W) by (unfold NULL; lia). rewrite <- Hlow.
    rewrite (proj2 (Z.ltb_lt 0 low)), (proj2 (Z.leb_le low _)), (proj2 (Z.leb_le _ ptr)) by lia. cbn [andb]. by rewrite E.
  - destruct Hp as (Hptr & Hretry & Hs1 & Hq). destruct (Z.eqb_spec seq1 (s_seq s)) as [Heq|Hne]; injection Hstep as <- <-.
    + specialize (Hq Heq). destruct Hs1 as (_ & He & _). rewrite Heq in He. destruct (even_quiet s Hi He) as [_ Hm]. rewrite Hq. pose proof (verdict_bit (s_map s) ptr). split; [|split; [|done]].
      * split; [cbn; lia|]. intros _ q Hqr Hpage. cbn in Hpage |- *. by apply granular_page.
      * cbn [pc_ok]. split; [lia|]. right. eauto.
    + split; [done|]. split; [|done]. cbn [pc_ok]. split; [done|]. destruct Hretry as [Hr Hb]. split; [lia|]. intros Hbz. destruct Hs1 as (_ & _ & Hs1). destruct Hne. by apply Hs1.
Qed.

Lemma inv_step s s' : bounded s' -> inv s -> step s s' -> inv s'.
Proof.
  intros Hb Hi Hst. destruct Hst as [m seq c p rm n seen busy stores order rm' Hw Hp|m seq w ws rm' c p rm n seen busy|m seq rm' c p rm n seen busy|m seq w c p rm n seen busy ptr Hidle Hptr|m seq w c p rm n seen busy c' p' Hr].
  - pose proof Hi as [W G [Hsq Hn] [Hs Hrep] Hcount Hc Hpc Hcall]. cbn [s_map s_cells s_writer s_seq s_cache s_pc s_seen s_busy s_writes] in *. unfold bounded in Hb. cbn in Hb.
    destruct (writes_spec m rm stores order rm' W G Hrep Hw Hp) as (W' & G' & Hrep' & Hs' & Hv).
    assert (E : u64 (seq + 1) = 2 * n + 1) by (rewrite u64_small by (unfold is_u64; lia); lia). constructor; cbn [s_map s_cells s_writer s_seq s_cache s_pc s_seen s_busy s_writes]; try done.
    + cbn. split; [done|]. split; [done|]. split; [done|]. split; [|done]. rewrite Hs', Hsq, (u64_small (2 * n + 1)) by (unfold is_u64; lia). rewrite u64_small by (unfold is_u64; lia). lia.
    + eapply pc_ok_outdated; [| | | |exact Hpc]; cbn; [lia|done|done|done].
    + intros Hcl. split; [by apply Hcall|done].
  - pose proof Hi as [W G Hsq (Hs & W' & G' & Hs' & Hrep & Hv) Hcount Hc Hpc Hcall]. cbn [s_map s_cells s_writer s_seq s_cache s_pc s_seen s_busy s_writes] in *. constructor; try done; cbn [s_map s_cells s_writer s_seq s_cache s_pc s_seen s_busy s_writes].
    + do 4 (split; [done|]). split; [done|]. intros v Hin. apply Hv. by right.
    + destruct w as [k v]. unfold put. cbn [fst snd]. destruct (decide (CCount = k)) as [<-|]; [|done]. rewrite (Hv v) by left. split; [apply count_nonneg|apply (wf_count rm' W')].
    + intros Hcl. destruct (Hcall Hcl) as [H1 H2]. split; [done|]. intros _. by apply H2.
  - pose proof Hi as [W G [Hsq Hn] (Hs & W' & G' & Hs' & Hrep & Hv) Hcount Hc Hpc Hcall]. cbn [s_map s_cells s_writer s_seq s_cache s_pc s_seen s_busy s_writes] in *. unfold bounded in Hb. cbn in Hb.
    assert (E : u64 (seq + 1) = 2 * (n + 1)) by (rewrite u64_small by (unfold is_u64; lia); lia). constructor; cbn [s_map s_cells s_writer s_seq s_cache s_pc s_seen s_busy s_writes]; try done.
    + split; lia.
    + destruct Hc as [Hc _]. split; [lia|]. intros Hz. lia.
    + destruct (calling p) eqn:Ecl; [|by destruct p]. destruct (Hcall eq_refl) as [_ Hbusy]. eapply pc_ok_outdated; [| | | |exact Hpc]; cbn; [lia|done|by apply Hbusy|]. intros r Hr. apply elem_of_app. by left.
    + intros Hcl. split; [apply elem_of_app; right; by apply list_elem_of_singleton|]. intros [? [=]].
  - pose proof Hi as [W G Hsq Hw Hcount Hc Hpc Hcall]. cbn [s_map s_cells s_writer s_seq s_cache s_pc s_seen s_busy s_writes] in *. constructor; try done; cbn [s_map s_cells s_writer s_seq s_cache s_pc s_seen s_busy s_writes].
    + unfold enter. destruct (Z.eqb_spec ptr NULL) as [->|Hne]; cbn [pc_ok s_seen]. { split; [done|]. right. exists rm. split; [by apply list_elem_of_singleton|]. done. }
      unfold NULL in Hne. destruct (Z.eqb_spec (Z.land ptr V8M_PAGE_MASK) (oc_page_base c)); cbn [pc_ok s_cache]; (split; [lia|]); [done|split; [lia|done]].
    + intros _. split; [by apply list_elem_of_singleton|]. by intros [? ->].
  - by apply (inv_read (MkSys m seq w c p rm n seen busy) c' p' Hi).
Qed.

Lemma step_writes s s' : step s s' -> s.(s_writes) <= s'.(s_writes).
Proof. destruct 1; cbn; lia. Qed.

Lemma inv_reachable s : rtc step start s -> bounded s -> inv s.
Proof.
  intros Hr. refine (rtc_ind_r (R := step) (fun s => bounded s -> inv s) start _ _ s Hr); [intros _; apply inv_start|].
  intros x y _ Hxy IH Hb. apply (inv_step x); [done| |done]. apply IH. pose proof (step_writes x y Hxy). unfold bounded in *. lia.
Qed.

(** ** The theorem *)

Lemma slot_range s i : inv s -> slot s.(s_pc) = Some i -> 0 <= i < V8M_REGION_MAP_CAPACITY.
Proof.
  intros [_ _ _ _ _ _ Hp _]. destruct (s_pc s) as [|ptr|ptr retry|ptr retry seq1|ptr retry seq1 count low high|ptr retry seq1 low|ptr retry seq1 low|ptr retry seq1 owned|ptr r]; cbn [slot pc_ok] in *; try done.
  - destruct Hp as (_ & _ & _ & H1 & H2 & _). destruct (Z.ltb_spec low high); [|done]. intros [= <-]. pose proof (mid_range low high ltac:(lia) ltac:(lia)). lia.
  - destruct Hp as (_ & _ & _ & H1 & _). intros [= <-]. lia.
  - destruct Hp as (_ & _ & _ & H1 & _). intros [= <-]. lia.
Qed.

Lemma loads_decrease s : inv s ->
  match s.(s_pc) with
  | Idle | Returned _ _ => True
  | p => exists c' p', read_step s.(s_cells) s.(s_seq) s.(s_cache) p = Some (c', p') /\ 0 <= loads_left p' < loads_left p /\ loads_left p <= 25000
  end.
Proof.
  intros [_ _ _ _ Hcount _ Hp _]. unfold V8M_REGION_MAP_CAPACITY in *.
  destruct (s_pc s) as [|ptr|ptr retry|ptr retry seq1|ptr retry seq1 count low high|ptr retry seq1 low|ptr retry seq1 low|ptr retry seq1 owned|ptr r]; cbn [read_step pc_ok] in *; try done; unfold retry_ok, V8M_REGION_MAP_CAPACITY in *.
  - destruct (_ && _); eexists _, _; (split; [reflexivity|]); cbn; lia.
  - destruct (Z.leb_spec 4 retry); [|destruct (negb _)]; eexists _, _; (split; [reflexivity|]); cbn [loads_left]; lia.
  - eexists _, _. split; [reflexivity|]. cbn [loads_left]. lia.
  - destruct (Z.ltb_spec low high); [|destruct (_ && _); eexists _, _; (split; [reflexivity|]); cbn [loads_left]; lia].
    pose proof (mid_range low high ltac:(lia) ltac:(unfold V8M_REGION_MAP_CAPACITY; lia)) as Hm. set (mid := u64 _) in *. clearbody mid. destruct (_ <=? ptr); eexists _, _; (split; [reflexivity|]); cbn [loads_left]; lia.
  - destruct (_ <=? ptr); eexists _, _; (split; [reflexivity|]); cbn [loads_left]; lia.
  - eexists _, _. split; [reflexivity|]. cbn [loads_left]. lia.
  - destruct (seq1 =? s_seq s); eexists _, _; (split; [reflexivity|]); cbn [loads_left]; lia.
Qed.

(** C26: The lock-free ownership test is linearizable: in every interleaving of its
    loads with the stores of registrations and removals, a call that answers gives
    the verdict of [v8m_page_heap_owns] on a map that was current at some time
    during the call, whether it comes from the search or from the thread's cached
    verdict, and it gives up (-1) only if a writer ran during the call.  Its loads
    stay inside the array, torn counts and entries included, and it takes at most
    25000 of them whatever the writers do. *)
Theorem v8m_page_heap_owns_fast_linearizable s : rtc step start s -> bounded s ->
  (forall ptr r, s.(s_pc) = Returned ptr r -> (r = -1 /\ s.(s_busy) = true) \/ exists rm, rm ∈ s.(s_seen) /\ r = if v8m_page_heap_owns rm ptr then 1 else 0) /\
  (forall i, slot s.(s_pc) = Some i -> 0 <= i < V8M_REGION_MAP_CAPACITY) /\
  match s.(s_pc) with
  | Idle | Returned _ _ => True
  | p => exists c' p', read_step s.(s_cells) s.(s_seq) s.(s_cache) p = Some (c', p') /\ 0 <= loads_left p' < loads_left p /\ loads_left p <= 25000
  end.
Proof.
  intros Hr Hb. pose proof (inv_reachable s Hr Hb) as Hi. split; [|split; [by intros i; apply slot_range|by apply loads_decrease]].
  intros ptr r Hp. pose proof (inv_pc s Hi) as Hpc. rewrite Hp in Hpc. destruct Hpc as [Hbusy [->|Hv]]; [left; auto|by right].
Qed.

(** ** An example *)

(** A number of loads of the reader. *)
Fixpoint reads (n : nat) (s : sys) : sys :=
  match n with
  | O => s
  | S n =>
      match read_step s.(s_cells) s.(s_seq) s.(s_cache) s.(s_pc) with
      | Some (c', p') => reads n (MkSys s.(s_cells) s.(s_seq) s.(s_writer) c' p' s.(s_map) s.(s_writes) s.(s_seen) s.(s_busy))
      | None => s
      end
  end.
Lemma reads_steps n s : rtc step s (reads n s).
Proof.
  revert s. induction n as [|n IH]; intros [m seq w c p rm k seen busy]; cbn; [done|]. destruct (read_step m seq c p) as [[c' p']|] eqn:E; [|done].
  eapply rtc_l; [by apply step_read|apply IH].
Qed.

(** The rest of a writer's call. *)
Fixpoint stores (m : cells) (ws : list (cell * Z)) (s : sys) : sys :=
  match ws with
  | [] => MkSys m s.(s_seq) (match s.(s_writer) with Some (_, rm') => Some ([], rm') | None => None end) s.(s_cache) s.(s_pc) s.(s_map) s.(s_writes) s.(s_seen) s.(s_busy)
  | w :: ws => stores (put m w) ws s
  end.
Lemma stores_steps ws m seq ws0 rm' c p rm n seen busy :
  rtc step (MkSys m seq (Some (ws, rm')) c p rm n seen busy) (stores m ws (MkSys m seq (Some (ws0, rm')) c p rm n seen busy)).
Proof.
  enough (forall m0, rtc step (MkSys m seq (Some (ws, rm')) c p rm n seen busy) (stores m ws (MkSys m0 seq (Some (ws0, rm')) c p rm n seen busy))) by done.
  revert m. induction ws as [|w ws IH]; intros m m0; cbn [stores]; [done|]. eapply rtc_l; [apply step_store|apply IH].
Qed.

(** A page is registered between the first two loads of a call about an address in
    it; the pass fails its second snapshot, and the next one finds the page. *)
Definition ex_entry : region_map := MkMap [MkRegion 65536 131072 V8M_REGION_NODE_UNBOUND false 0] 2.
Definition ex_called : sys := MkSys (fun _ => 0) 0 None owns_cache0 (LoadCount 70000 0 0) (MkMap [] 0) 0 [MkMap [] 0] false.
Definition ex_stores : list (cell * Z) := [(CCount, 1); (CEnd 0, 131072); (CStart 0, 65536)].
Definition ex_written : sys := stores (fun _ => 0) ex_stores (MkSys (fun _ => 0) 1 (Some (ex_stores, ex_entry)) owns_cache0 (LoadCount 70000 0 0) (MkMap [] 0) 0 [MkMap [] 0] true).
Definition ex_returned : sys :=
  reads 20 (MkSys ex_written.(s_cells) 2 None owns_cache0 (LoadCount 70000 0 0) ex_entry 1 [MkMap [] 0; ex_entry] true).

Lemma ex_returned_reached : rtc step start ex_returned.
Proof.
  eapply rtc_l; [apply (step_call _ _ _ _ _ _ _ _ _ 70000); [done|lia]|]. eapply rtc_l; [apply step_read; vm_compute; reflexivity|]. eapply rtc_l.
  { apply (step_begin _ _ _ _ _ _ _ _ (register_stores (fun _ => 0) (MkMap [] 0) 65536 65536) ex_stores ex_entry).
    - apply (writes_register _ _ 65536 65536 false); [lia|lia|lia|by intros e He; apply not_elem_of_nil in He|by exists 1|by exists 1|vm_compute; reflexivity].
    - vm_compute. apply (Permutation_rev [_; _; _]). }
  etransitivity; [apply (stores_steps _ _ _ ex_stores)|]. eapply rtc_l; [apply step_finish|]. apply reads_steps.
Qed.

Lemma v8m_page_heap_owns_fast_linearizable_witness :
  (match ex_returned.(s_pc) with Returned ptr r => (ptr =? 70000) && (r =? 1) | _ => false end) = true /\
  (forall ptr r, ex_returned.(s_pc) = Returned ptr r -> (r = -1 /\ ex_returned.(s_busy) = true) \/ exists rm, rm ∈ ex_returned.(s_seen) /\ r = if v8m_page_heap_owns rm ptr then 1 else 0).
Proof.
  split; [vm_compute; reflexivity|]. refine (proj1 (v8m_page_heap_owns_fast_linearizable ex_returned ex_returned_reached _)). vm_compute. reflexivity.
Defined.

End RegionSeq.
