(* ===== verification/Config.v ===== *)
(** Run-time options: [src/v8m_config.h] and [src/v8m_config.c].

    The option table, its environment overrides and the flag that the allocation
    fast paths test.  A C string is the list of its character codes; [getenv] is a
    parameter.  [strtoll] is the C library's base-10 conversion. *)

From Stdlib Require Import String.
From S2P Require Import Prelude.

Module Config.

Definition INT64_MIN : Z := - 2 ^ 63.
Definition INT64_MAX : Z := 2 ^ 63 - 1.

(** [enum v8m_option]; an option is its number, so that out-of-range values can be
    passed as in C. *)
Definition V8M_OPT_VERBOSE : Z := 0.
Definition V8M_OPT_PURGE_INTERVAL : Z := 1.
Definition V8M_OPT_THREAD_CACHE_MAX : Z := 2.
Definition V8M_OPT_HUGE_PAGES : Z := 3.
Definition V8M_OPT_NUMA_AWARE : Z := 4.
Definition V8M_OPT_DEBUG : Z := 5.
Definition V8M_OPT_PROFILE : Z := 6.
Definition V8M_OPT_COMPACT_THRESHOLD : Z := 7.
Definition V8M_OPT_VMA_WARN_THRESHOLD : Z := 8.
Definition V8M_OPT_NUMA_AGGRESSIVE_MIGRATION : Z := 9.
Definition V8M_OPT_DEFERRED_COALESCE : Z := 10.
Definition V8M_OPT_LIFETIME_TRACKING : Z := 11.
Definition V8M_OPT_COUNT : Z := 12.

Definition v8m_config_defaults : list Z := [0; 10; 256; 1; 1; 0; 0; 25; 1024; 0; 0; 0].

Definition v8m_config_env_names : list string :=
  ["V8M_VERBOSE"; "V8M_PURGE_INTERVAL"; "V8M_THREAD_CACHE_MAX"; "V8M_HUGE_PAGES"; "V8M_NUMA_AWARE";
   "V8M_DEBUG"; "V8M_PROFILE"; "V8M_COMPACT_THRESHOLD"; "V8M_VMA_WARN_THRESHOLD";
   "V8M_NUMA_AGGRESSIVE_MIGRATION"; "V8M_DEFERRED_COALESCE"; "V8M_LIFETIME_TRACKING"]%string.

(** [v8m_config_values] and [v8m_config_fast_path_disabled]. *)
Record config := MkConfig { values : list Z; fast_path_disabled : Z }.

Definition recompute_fast_path_flag (c : config) : config :=
  let disabled := negb (znth c.(values) V8M_OPT_DEBUG =? 0) ||
                  negb (znth c.(values) V8M_OPT_LIFETIME_TRACKING =? 0) in
  MkConfig c.(values) (if disabled then 1 else 0).

(** ** Parsing *)

Definition isspace (c : Z) : bool := (c =? 32) || ((9 <=? c) && (c <=? 13)).
Definition isdigit (c : Z) : bool := (48 <=? c) && (c <=? 57).

Fixpoint span (f : Z -> bool) (l : list Z) : list Z * list Z :=
  match l with
  | [] => ([], [])
  | c :: l' => if f c then let '(a, b) := span f l' in (c :: a, b) else ([], l)
  end.

(** The value of a digit string. *)
Definition horner (ds : list Z) : Z := foldl (fun acc c => acc * 10 + (c - 48)) 0 ds.

(** [strtoll(text, &end, 10)]: the value, the unread rest and whether [errno] is
    [ERANGE]. *)
Definition strtoll (text : list Z) : Z * list Z * bool :=
  let rest := snd (span isspace text) in
  let '(neg, rest) := match rest with
                      | c :: r => if c =? 45 then (true, r) else if c =? 43 then (false, r) else (false, rest)
                      | [] => (false, [])
                      end in
  let '(ds, tail) := span isdigit rest in
  match ds with
  | [] => (0, text, false)
  | _ =>
      let v := if neg : bool then - horner ds else horner ds in
      if v <? INT64_MIN then (INT64_MIN, tail, true)
      else if INT64_MAX <? v then (INT64_MAX, tail, true)
      else (v, tail, false)
  end.

Definition parse_int64 (text : list Z) : option Z :=
  match text with
  | [] => None
  | _ =>
      let '(parsed, rest, erange) := strtoll text in
      if bool_decide (rest = text) || negb (bool_decide (rest = [])) then None
      else if erange then None
      else if (parsed <? INT64_MIN) || (INT64_MAX <? parsed) then None
      else Some parsed
  end.

(** ** The operations *)

(** [v8m_config_init]: every option from its environment variable, or its
    default when that is unset or does not parse. *)
Definition init_value (getenv : string -> option (list Z)) (default_value : Z) (name : string) : Z :=
  match getenv name with
  | Some env => match parse_int64 env with Some parsed => parsed | None => default_value end
  | None => default_value
  end.
Definition v8m_config_init (getenv : string -> option (list Z)) : config :=
  recompute_fast_path_flag
    (MkConfig (zip_with (init_value getenv) v8m_config_defaults v8m_config_env_names) 0).

Definition v8m_config_set (c : config) (opt value : Z) : config * Z :=
  if V8M_OPT_COUNT <=? u32 opt then (c, -1)
  else
    let c := MkConfig (zupd c.(values) opt value) c.(fast_path_disabled) in
    let c := if (opt =? V8M_OPT_DEBUG) || (opt =? V8M_OPT_LIFETIME_TRACKING)
             then recompute_fast_path_flag c else c in
    (c, 0).

Definition v8m_config_get (c : config) (opt : Z) : Z :=
  if V8M_OPT_COUNT <=? u32 opt then 0 else znth c.(values) opt.

Definition v8m_config_fast_path_ok (c : config) : bool := c.(fast_path_disabled) =? 0.

(** ** The parser *)

Lemma span_spec f l : let '(a, b) := span f l in
  l = a ++ b /\ Forall (fun c => f c = true) a /\ (match b with [] => True | c :: _ => f c = false end).
Proof.
  induction l as [|c l IH]; cbn; [by repeat constructor|].
  destruct (f c) eqn:E; [|by repeat constructor]. destruct (span f l) as [a b]. destruct IH as (-> & Ha & Hb).
  split_and!; [done|by constructor|done].
Qed.

Lemma span_app f a b :
  Forall (fun c => f c = true) a -> (match b with [] => True | c :: _ => f c = false end) -> span f (a ++ b) = (a, b).
Proof.
  intros Ha Hb. induction Ha as [|c a Hc _ IH]; cbn.
  - destruct b as [|c b]; cbn; [done|]. by rewrite Hb.
  - by rewrite Hc, IH.
Qed.

(** The signs [strtoll] accepts. *)
Inductive sign : list Z -> Z -> Prop :=
| sign_none : sign [] 1
| sign_plus : sign [43] 1
| sign_minus : sign [45] (-1).

(** What an accepted text looks like: blanks, a sign, digits, nothing else. *)
Definition decimal (text : list Z) (v : Z) : Prop :=
  exists sp sg ds k, text = sp ++ sg ++ ds /\ Forall (fun c => isspace c = true) sp /\ sign sg k /\
    ds <> [] /\ Forall (fun c => isdigit c = true) ds /\ v = k * horner ds.

Lemma digit_not_space c : isdigit c = true -> isspace c = false /\ c <> 43 /\ c <> 45.
Proof.
  unfold isdigit, isspace. rewrite andb_true_iff, !Z.leb_le. intros H. split; [|lia].
  destruct (Z.eqb_spec c 32); [lia|]. destruct (Z.leb_spec 9 c), (Z.leb_spec c 13); cbn; lia || done.
Qed.

Lemma horner_nonneg ds : Forall (fun c => isdigit c = true) ds -> 0 <= horner ds.
Proof.
  unfold horner. assert (H : forall acc, 0 <= acc -> Forall (fun c => isdigit c = true) ds ->
    0 <= foldl (fun acc c => acc * 10 + (c - 48)) acc ds); [|by apply H].
  induction ds as [|c ds IH]; cbn; intros acc Ha; [done|]. intros [Hc Hd]%Forall_cons. apply IH; [|done].
  unfold isdigit in Hc. rewrite andb_true_iff, !Z.leb_le in Hc. lia.
Qed.

Lemma strtoll_sign sg k ds :
  sign sg k -> ds <> [] -> Forall (fun c => isdigit c = true) ds ->
  match sg ++ ds with
  | c :: r => if c =? 45 then (true, r) else if c =? 43 then (false, r) else (false, sg ++ ds)
  | [] => (false, [])
  end = (k =? -1, ds).
Proof.
  intros Hs Hne Hd. destruct Hs; cbn; [|done|done]. destruct ds as [|c ds]; [done|]. cbn.
  apply Forall_cons in Hd as [Hc _]. destruct (digit_not_space c Hc) as (_ & H43 & H45).
  by destruct (Z.eqb_spec c 45), (Z.eqb_spec c 43).
Qed.

Lemma strtoll_decimal sp sg ds k :
  Forall (fun c => isspace c = true) sp -> sign sg k -> ds <> [] -> Forall (fun c => isdigit c = true) ds ->
  let v := k * horner ds in
  strtoll (sp ++ sg ++ ds) =
  if v <? INT64_MIN then (INT64_MIN, [], true) else if INT64_MAX <? v then (INT64_MAX, [], true) else (v, [], false).
Proof.
  intros Hsp Hsg Hne Hd v. unfold strtoll. rewrite span_app; [|done|].
  2: { destruct Hsg; cbn; [|done|done]. destruct ds as [|c ds]; [done|]. apply Forall_cons in Hd as [Hc _]. by apply digit_not_space. }
  cbn [snd]. rewrite (strtoll_sign sg k ds) by done.
  rewrite <- (app_nil_r ds) at 1. rewrite (span_app isdigit ds []) by done.
  destruct ds as [|c ds]; [done|]. unfold v.
  replace (if k =? -1 then - horner (c :: ds) else horner (c :: ds)) with (k * horner (c :: ds)); [done|].
  destruct Hsg; cbn [Z.eqb Pos.eqb]; lia.
Qed.

Lemma parse_decimal text v : decimal text v -> INT64_MIN <= v <= INT64_MAX -> parse_int64 text = Some v.
Proof.
  intros (sp & sg & ds & k & -> & Hsp & Hsg & Hne & Hd & ->) Hr. unfold parse_int64.
  destruct (sp ++ sg ++ ds) as [|c0 l0] eqn:E. { destruct ds; [done|]. by destruct sp, sg. }
  rewrite <- E, (strtoll_decimal sp sg ds k) by done.
  destruct (Z.ltb_spec (k * horner ds) INT64_MIN), (Z.ltb_spec INT64_MAX (k * horner ds)); try lia.
  rewrite E. rewrite bool_decide_eq_false_2, bool_decide_eq_true_2 by done. cbn.
  destruct (Z.ltb_spec (k * horner ds) INT64_MIN), (Z.ltb_spec INT64_MAX (k * horner ds)); lia || done.
Qed.

Lemma parse_only_decimal text v : parse_int64 text = Some v -> decimal text v /\ INT64_MIN <= v <= INT64_MAX.
Proof.
  unfold parse_int64. destruct text as [|c0 l0] eqn:Et; [done|]. rewrite <- Et. clear Et c0 l0.
  unfold strtoll. pose proof (span_spec isspace text) as H1. destruct (span isspace text) as [sp rest].
  destruct H1 as (-> & Hsp & _). cbn [snd].
  assert (Hs : exists sg k rest', rest = sg ++ rest' /\ sign sg k /\
    match rest with c :: r => if c =? 45 then (true, r) else if c =? 43 then (false, r) else (false, rest)
    | [] => (false, []) end = (k =? -1, rest')).
  { destruct rest as [|c r]; [exists [], 1, []; split_and!; constructor|].
    destruct (Z.eqb_spec c 45) as [->|]; [exists [45], (-1), r; split_and!; constructor|].
    destruct (Z.eqb_spec c 43) as [->|]; [exists [43], 1, r; split_and!; constructor|].
    exists [], 1, (c :: r). split_and!; constructor. }
  destruct Hs as (sg & k & rest' & -> & Hsg & ->).
  pose proof (span_spec isdigit rest') as H2. destruct (span isdigit rest') as [ds tail]. destruct H2 as (-> & Hds & _).
  destruct ds as [|d ds]; [by rewrite bool_decide_eq_true_2|].
  assert (Hv : (if k =? -1 then - horner (d :: ds) else horner (d :: ds)) = k * horner (d :: ds)).
  { destruct Hsg; cbn [Z.eqb Pos.eqb]; lia. }
  rewrite Hv. destruct (Z.ltb_spec (k * horner (d :: ds)) INT64_MIN); [by destruct (_ || _)|].
  destruct (Z.ltb_spec INT64_MAX (k * horner (d :: ds))); [by destruct (_ || _)|].
  destruct (bool_decide_reflect (tail = [])) as [->|]; [|by rewrite orb_true_r].
  rewrite orb_false_r. destruct (bool_decide _); [done|].
  destruct (_ || _); [done|]. intros [= <-]. rewrite app_nil_r. split; [|lia].
  exists sp, sg, (d :: ds), k. split_and!; done.
Qed.

(** an environment override is accepted exactly when it is blanks, an
    optional sign and decimal digits with nothing after them, of a value that fits
    64 bits; the accepted value is that number. *)
Theorem parse_int64_spec text v :
  parse_int64 text = Some v <-> decimal text v /\ INT64_MIN <= v <= INT64_MAX.
Proof. split; [apply parse_only_decimal|]. intros [Hd Hr]. by apply parse_decimal. Qed.

(** ** The option table *)

(** The flag of the fast paths agrees with the two options it summarises. *)
Record coherent (c : config) : Prop := {
  co_len : length c.(values) = 12%nat;
  co_flag : v8m_config_fast_path_ok c = true <->
            v8m_config_get c V8M_OPT_DEBUG = 0 /\ v8m_config_get c V8M_OPT_LIFETIME_TRACKING = 0
}.

Lemma recompute_coherent c : length c.(values) = 12%nat -> coherent (recompute_fast_path_flag c).
Proof.
  intros H. constructor; [done|]. unfold v8m_config_fast_path_ok, v8m_config_get. cbn.
  destruct (Z.eqb_spec (znth c.(values) V8M_OPT_DEBUG) 0), (Z.eqb_spec (znth c.(values) V8M_OPT_LIFETIME_TRACKING) 0); cbn; naive_solver.
Qed.

Lemma init_coherent getenv : coherent (v8m_config_init getenv).
Proof. by apply recompute_coherent. Qed.

Lemma get_in_range c opt : 0 <= opt < V8M_OPT_COUNT -> v8m_config_get c opt = znth c.(values) opt.
Proof.
  unfold V8M_OPT_COUNT. intros H. unfold v8m_config_get, V8M_OPT_COUNT. rewrite u32_small by lia.
  destruct (Z.leb_spec 12 opt); [lia|done].
Qed.

Lemma set_coherent c opt value : coherent c -> 0 <= opt < 2 ^ 32 ->
  let '(c', rc) := v8m_config_set c opt value in
  coherent c' /\
  (opt < V8M_OPT_COUNT -> rc = 0 /\
     forall o, 0 <= o < V8M_OPT_COUNT -> v8m_config_get c' o = if o =? opt then value else v8m_config_get c o) /\
  (V8M_OPT_COUNT <= opt -> rc = -1 /\ c' = c /\ v8m_config_get c opt = 0).
Proof.
  intros [Hl Hf] Ho. unfold v8m_config_set. rewrite u32_small by lia. unfold V8M_OPT_COUNT in *.
  destruct (Z.leb_spec 12 opt).
  { split; [done|]. split; [lia|]. intros _. split_and!; [done|done|]. unfold v8m_config_get, V8M_OPT_COUNT.
    rewrite u32_small by lia. by destruct (Z.leb_spec 12 opt); [|lia]. }
  assert (Hg : forall o, 0 <= o < 12 -> znth (zupd c.(values) opt value) o = if o =? opt then value else v8m_config_get c o).
  { intros o Hoo. rewrite znth_zupd by (rewrite ?Hl; lia). by rewrite get_in_range. }
  destruct ((opt =? V8M_OPT_DEBUG) || (opt =? V8M_OPT_LIFETIME_TRACKING)) eqn:E.
  - split; [apply recompute_coherent; cbn; by rewrite length_zupd|]. split; [|lia]. intros _. split; [done|].
    intros o Hoo. rewrite get_in_range by done. by apply Hg.
  - apply orb_false_iff in E as [E1%Z.eqb_neq E2%Z.eqb_neq]. split; [|split; [|lia]].
    + constructor; cbn; [by rewrite length_zupd|]. rewrite !get_in_range by (vm_compute; done). cbn [values].
      rewrite !Hg by (vm_compute; done). destruct (Z.eqb_spec V8M_OPT_DEBUG opt); [congruence|].
      destruct (Z.eqb_spec V8M_OPT_LIFETIME_TRACKING opt); [congruence|]. exact Hf.
    + intros _. split; [done|]. intros o Hoo. rewrite get_in_range by done. by apply Hg.
Qed.

(** initialisation and every later update keep the fast-path flag in step
    with the options it summarises; a valid option reads back the value stored
    last and the others keep theirs; an option out of range is refused and reads
    as 0. *)
Theorem v8m_config_set_spec c opt value :
  (forall getenv, coherent (v8m_config_init getenv)) /\
  (coherent c -> 0 <= opt < 2 ^ 32 ->
  let '(c', rc) := v8m_config_set c opt value in
  coherent c' /\
  (opt < V8M_OPT_COUNT -> rc = 0 /\
     forall o, 0 <= o < V8M_OPT_COUNT -> v8m_config_get c' o = if o =? opt then value else v8m_config_get c o) /\
  (V8M_OPT_COUNT <= opt -> rc = -1 /\ c' = c /\ v8m_config_get c opt = 0)).
Proof. split; [apply init_coherent|apply set_coherent]. Qed.

Lemma parse_int64_spec_witness : parse_int64 [32; 45; 52; 50] = Some (-42).
Proof.
  apply (parse_int64_spec [32; 45; 52; 50] (-42)). split; [|vm_compute; split; discriminate].
  exists [32], [45], [52; 50], (-1). split_and!; [reflexivity|by repeat constructor|constructor|done|by repeat constructor|reflexivity].
Defined.

Lemma v8m_config_set_spec_witness :
  v8m_config_get (fst (v8m_config_set (v8m_config_init (fun _ => None)) V8M_OPT_DEBUG 1)) V8M_OPT_DEBUG = 1 /\
  coherent (fst (v8m_config_set (v8m_config_init (fun _ => None)) V8M_OPT_DEBUG 1)).
Proof.
  pose proof (proj2 (v8m_config_set_spec (v8m_config_init (fun _ => None)) V8M_OPT_DEBUG 1) (init_coherent _)
    ltac:(vm_compute; split; [discriminate|reflexivity])) as H.
  destruct (v8m_config_set (v8m_config_init (fun _ => None)) V8M_OPT_DEBUG 1) as [c' rc].
  destruct H as (Hc & Hg & _). split; [|exact Hc].
  exact (proj2 (Hg ltac:(vm_compute; reflexivity)) V8M_OPT_DEBUG ltac:(vm_compute; split; [discriminate|reflexivity])).
Defined.

End Config.
