(* ===== verification/Debug.v ===== *)
(** The use-after-free detector of [src/v8m_debug.c].

    [g_uaf_active] is latched by the first call that finds bytes to stamp or to
    check: 0 not latched, 1 off, 2 on.  The calls return the latch; a check that
    finds a foreign byte prints its offset and aborts.  The pools ([SlabTiny],
    [SlabSmall], [Buddy]) are modelled with the detector latched off. *)

From S2P Require Import Prelude Config.
Import Config.

Module Debug.

Definition V8M_DEBUG_POISON_BYTE : Z := 0xDF.

(** What a call of [v8m_debug_uaf_verify] does: it returns, or prints offset and
    byte and aborts. *)
Inductive verdict := Intact | Corrupted (offset byte : Z).
#[export] Instance verdict_eq_dec : EqDecision verdict.
Proof. solve_decision. Defined.

Definition uaf_active (cfg : config) (latch : Z) : Z * bool :=
  if negb (latch =? 0) then (latch, latch =? 2)
  else
    let initial := if negb (v8m_config_get cfg V8M_OPT_DEBUG =? 0) then 2 else 1 in
    (initial, initial =? 2).

Definition memset (m : mem) (p v n : Z) : mem := foldl (fun m i => wr m (p + i) v) m (seqZ 0 n).

Definition v8m_debug_uaf_poison (cfg : config) (latch : Z) (m : mem) (p bytes : Z) : Z * mem :=
  if bytes =? 0 then (latch, m)
  else
    let '(latch, active) := uaf_active cfg latch in
    (latch, if active : bool then memset m p V8M_DEBUG_POISON_BYTE bytes else m).

(** The scan, from the lowest offset. *)
Fixpoint scan (m : mem) (p : Z) (offsets : list Z) : verdict :=
  match offsets with
  | [] => Intact
  | i :: offsets => if rd m (p + i) =? V8M_DEBUG_POISON_BYTE then scan m p offsets else Corrupted i (rd m (p + i))
  end.
Definition v8m_debug_uaf_verify (cfg : config) (latch : Z) (m : mem) (p bytes : Z) : Z * verdict :=
  if bytes =? 0 then (latch, Intact)
  else
    let '(latch, active) := uaf_active cfg latch in
    (latch, if active : bool then scan m p (seqZ 0 bytes) else Intact).

Definition v8m_debug_uaf_poison_data_area (cfg : config) (latch : Z) (m : mem) (data_base object_size capacity link_bytes : Z) : Z * mem :=
  if (capacity =? 0) || (object_size =? 0) then (latch, m)
  else
    let '(latch, active) := uaf_active cfg latch in
    (latch,
     if negb active then m
     else if object_size <=? link_bytes then m
     else foldl (fun m i => memset m (data_base + i * object_size + link_bytes) V8M_DEBUG_POISON_BYTE (object_size - link_bytes)) m (seqZ 0 capacity)).

(** ** Stamps *)

Lemma memset_from m p v n from b : rd (foldl (fun m i => wr m (p + i) v) m (seqZ from n)) b = if decide (p + from <= b < p + from + Z.max n 0) then v else rd m b.
Proof.
  destruct (Z.le_gt_cases n 0) as [Hn|Hn]; [rewrite seqZ_nil by done; cbn; by rewrite decide_False by lia|].
  rewrite <- (Z2Nat.id n) by lia. set (k := Z.to_nat n). clearbody k. clear Hn n. revert from m. induction k as [|k IH]; intros from m; [rewrite seqZ_nil by done; cbn; by rewrite decide_False by lia|].
  rewrite seqZ_cons by lia. cbn [foldl]. replace (Z.pred (Z.of_nat (S k))) with (Z.of_nat k) by lia. rewrite IH.
  destruct (decide (p + Z.succ from <= b < p + Z.succ from + Z.max (Z.of_nat k) 0)); [by rewrite decide_True by lia|].
  destruct (decide (b = p + from)) as [->|Hne]; [rewrite rd_wr_eq; by rewrite decide_True by lia|]. rewrite rd_wr_ne by done. by rewrite decide_False by lia.
Qed.
Lemma memset_read m p v n b : 0 <= n -> rd (memset m p v n) b = if decide (p <= b < p + n) then v else rd m b.
Proof. intros Hn. unfold memset. rewrite memset_from. rewrite Z.max_l, Z.add_0_r by done. done. Qed.

(** The scan reports the lowest offset that differs. *)
Lemma scan_verdict m p from n : 0 <= n ->
  match scan m p (seqZ from n) with
  | Intact => forall i, from <= i < from + n -> rd m (p + i) = V8M_DEBUG_POISON_BYTE
  | Corrupted i v => from <= i < from + n /\ v = rd m (p + i) /\ v <> V8M_DEBUG_POISON_BYTE /\ forall j, from <= j < i -> rd m (p + j) = V8M_DEBUG_POISON_BYTE
  end.
Proof.
  intros Hn. rewrite <- (Z2Nat.id n) by done. set (k := Z.to_nat n). clearbody k. clear Hn n. revert from. induction k as [|k IH]; intros from.
  { rewrite seqZ_nil by done. cbn. lia. }
  rewrite seqZ_cons by lia. cbn [scan]. replace (Z.pred (Z.of_nat (S k))) with (Z.of_nat k) by lia.
  destruct (Z.eqb_spec (rd m (p + from)) V8M_DEBUG_POISON_BYTE) as [He|He].
  - specialize (IH (Z.succ from)). destruct (scan m p _) as [|i v].
    + intros i Hi. destruct (decide (i = from)) as [->|]; [done|]. apply IH. lia.
    + destruct IH as (H1 & H2 & H3 & H4). split; [lia|]. split; [done|]. split; [done|]. intros j Hj. destruct (decide (j = from)) as [->|]; [done|]. apply H4. lia.
  - split; [lia|]. split; [done|]. split; [done|lia].
Qed.

Lemma latched cfg latch : 0 <= latch <= 2 -> let '(l, a) := uaf_active cfg latch in 1 <= l <= 2 /\ (a = true <-> l = 2) /\ (latch <> 0 -> l = latch).
Proof.
  intros Hl. unfold uaf_active. destruct (Z.eqb_spec latch 0) as [->|Hn]; cbn [negb].
  - by destruct (negb _).
  - split; [lia|]. split; [|done]. by destruct (Z.eqb_spec latch 2).
Qed.

(** The stamps of a fresh page. *)
Lemma area_from base size link k from m : 0 <= link < size -> 0 <= from ->
  let m' := foldl (fun m i => memset m (base + i * size + link) V8M_DEBUG_POISON_BYTE (size - link)) m (seqZ from (Z.of_nat k)) in
  (forall i j, from <= i < from + Z.of_nat k -> link <= j < size -> rd m' (base + i * size + j) = V8M_DEBUG_POISON_BYTE) /\
  (forall i j, 0 <= i -> 0 <= j < link -> rd m' (base + i * size + j) = rd m (base + i * size + j)) /\
  (forall b, b < base + from * size \/ base + (from + Z.of_nat k) * size <= b -> rd m' b = rd m b).
Proof.
  intros Hl. revert from m. induction k as [|k IH]; intros from m Hf; cbn zeta.
  { rewrite seqZ_nil by done. cbn. split; [lia|done]. }
  rewrite seqZ_cons by lia. cbn [foldl]. replace (Z.pred (Z.of_nat (S k))) with (Z.of_nat k) by lia. set (m1 := memset _ _ _ _).
  assert (H1 : forall b, rd m1 b = if decide (base + from * size + link <= b < base + from * size + size) then V8M_DEBUG_POISON_BYTE else rd m b).
  { intros b. unfold m1. rewrite memset_read by lia. destruct (decide (_ <= b < _)); [by rewrite decide_True by lia|by rewrite decide_False by lia]. }
  clearbody m1. destruct (IH (Z.succ from) m1 ltac:(lia)) as (I1 & I2 & I3). split; [|split].
  - intros i j Hi Hj. destruct (decide (i = from)) as [->|]; [|apply I1; lia]. rewrite I3 by nia. rewrite H1. by rewrite decide_True by lia.
  - intros i j Hi Hj. rewrite I2, H1 by done. rewrite decide_False; [done|]. intros Hc. assert (i = from \/ i < from \/ from < i) as [->|[Hlt|Hgt]] by lia; nia.
  - intros b Hb. rewrite I3 by nia. rewrite H1. rewrite decide_False; [done|]. nia.
Qed.

(** C38: The use-after-free detector, latched on: a stamp covers its window and
    nothing else, and the next check passes exactly when every byte of the window
    still holds the stamp; it reports the lowest one that does not.  The stamp of a
    fresh page makes the first check of each of its slots pass and leaves the link
    word of each slot alone.  The latch never changes once it is set, whatever the
    options become, and off it makes every call do nothing. *)
Theorem uaf_detector_exact cfg m p n : 0 < n ->
  let m1 := (v8m_debug_uaf_poison cfg 2 m p n).2 in
  (forall b, rd m1 b = if decide (p <= b < p + n) then V8M_DEBUG_POISON_BYTE else rd m b) /\
  (forall cfg' m', match (v8m_debug_uaf_verify cfg' 2 m' p n).2 with
     | Intact => forall i, 0 <= i < n -> rd m' (p + i) = V8M_DEBUG_POISON_BYTE
     | Corrupted i v => 0 <= i < n /\ v = rd m' (p + i) /\ v <> V8M_DEBUG_POISON_BYTE /\ forall j, 0 <= j < i -> rd m' (p + j) = V8M_DEBUG_POISON_BYTE
     end) /\
  (forall cfg' base size capacity link, 0 <= link < size -> 0 < capacity ->
     let m' := (v8m_debug_uaf_poison_data_area cfg' 2 m base size capacity link).2 in
     (forall i, 0 <= i < capacity -> (v8m_debug_uaf_verify cfg' 2 m' (base + i * size + link) (size - link)).2 = Intact) /\
     (forall i j, 0 <= i -> 0 <= j < link -> rd m' (base + i * size + j) = rd m (base + i * size + j))) /\
  (forall cfg' latch, 1 <= latch <= 2 -> (v8m_debug_uaf_poison cfg' latch m p n).1 = latch /\ (v8m_debug_uaf_verify cfg' latch m p n).1 = latch) /\
  (forall cfg', v8m_debug_uaf_poison cfg' 1 m p n = (1, m) /\ v8m_debug_uaf_verify cfg' 1 m p n = (1, Intact)).
Proof.
  intros Hn. assert (Hz : forall k, 0 < k -> (k =? 0) = false) by (intros; apply Z.eqb_neq; lia). unfold v8m_debug_uaf_poison, v8m_debug_uaf_verify. rewrite Hz by done. cbn. split; [|split; [|split; [|split]]].
  - intros b. by rewrite memset_read by lia.
  - intros cfg' m'. exact (scan_verdict m' p 0 n ltac:(lia)).
  - intros cfg' base size capacity link Hl Hc. unfold v8m_debug_uaf_poison_data_area. rewrite !Hz by lia. cbn. rewrite (proj2 (Z.leb_gt _ _)) by lia.
    destruct (area_from base size link (Z.to_nat capacity) 0 m Hl ltac:(lia)) as (H1 & H2 & _). rewrite Z2Nat.id in H1, H2 by lia. split; [|done]. intros i Hi.
    set (m' := foldl _ _ _) in *. clearbody m'. pose proof (scan_verdict m' (base + i * size + link) 0 (size - link) ltac:(lia)) as Hs. destruct (scan _ _ _) as [|o v]; [done|]. destruct Hs as (H3 & -> & H4 & _).
    destruct H4. rewrite <- Z.add_assoc. apply H1; lia.
  - intros cfg' latch Hl. pose proof (latched cfg' latch ltac:(lia)) as H. destruct (uaf_active cfg' latch) as [l a]. destruct H as (_ & _ & H). cbn. split; apply H; lia.
  - done.
Qed.

Lemma uaf_detector_exact_witness :
  let m1 := (v8m_debug_uaf_poison (v8m_config_init (fun _ => None)) 2 ∅ 4096 16).2 in
  v8m_debug_uaf_verify (v8m_config_init (fun _ => None)) 2 (wr m1 4100 7) 4096 16 = (2, Corrupted 4 7) /\
  (forall b, rd m1 b = if decide (4096 <= b < 4096 + 16) then V8M_DEBUG_POISON_BYTE else rd ∅ b).
Proof. split; [vm_compute; reflexivity|]. apply (uaf_detector_exact (v8m_config_init (fun _ => None)) ∅ 4096 16). lia. Defined.

(** The option is not read again: with it off (the default), a detector latched on
    stamps and reports. *)
Lemma stamps_with_option_off :
  let cfg := v8m_config_init (fun _ => None) in
  v8m_config_get cfg V8M_OPT_DEBUG = 0 /\ rd (v8m_debug_uaf_poison cfg 2 ∅ 4096 1).2 4096 = V8M_DEBUG_POISON_BYTE /\
  (v8m_debug_uaf_verify cfg 2 ∅ 4096 1).2 = Corrupted 0 0.
Proof. vm_compute. done. Qed.

End Debug.
