(* ===== verification/Refill.v ===== *)
(** The adaptive refill controller ([src/v8m_refill_controller.h] and [.c]) and
    the transparent-huge-page policy ([src/v8m_thp.h] and [.c]): two exponential
    moving averages over time-stamp-counter readings.

    [v8m_arch_rdtsc] and [v8m_arch_tsc_frequency_mhz] are the arguments [now] and
    [mhz]. *)

From S2P Require Import Prelude SizeClass.
Import SizeClass.

Module Refill.

Definition V8M_REFILL_BATCH_MIN : Z := 8.
Definition V8M_REFILL_BATCH_MAX : Z := 64.
Definition V8M_REFILL_TARGET_HOLD_MICROS : Z := 100.

Record class_state := MkClass { ema_demand : Z; batch_size : Z; last_refill_tsc : Z }.
Definition class0 : class_state := MkClass 0 V8M_REFILL_BATCH_MIN 0.

(** [per_class] and the cached ticks per microsecond. *)
Record v8m_refill_controller := MkCtrl { per_class : list class_state; ticks_cached : Z }.

Definition class_at (ctrl : v8m_refill_controller) (cls : Z) : class_state :=
  default class0 (ctrl.(per_class) !! Z.to_nat cls).
Definition set_class (ctrl : v8m_refill_controller) (cls : Z) (s : class_state) : v8m_refill_controller :=
  MkCtrl (<[Z.to_nat cls := s]> ctrl.(per_class)) ctrl.(ticks_cached).

Definition v8m_refill_controller_init (cached : Z) : v8m_refill_controller :=
  MkCtrl (replicate 41 class0) cached.

Definition v8m_refill_controller_set_last_refill_tsc (ctrl : v8m_refill_controller) (cls tsc : Z)
  : v8m_refill_controller :=
  if V8M_NUM_SIZE_CLASSES <=? cls then ctrl
  else let s := class_at ctrl cls in
       set_class ctrl cls (MkClass s.(ema_demand) s.(batch_size) tsc).

Definition ticks_per_micro (ctrl : v8m_refill_controller) (mhz : Z) : v8m_refill_controller * Z :=
  if negb (ctrl.(ticks_cached) =? 0) then (ctrl, ctrl.(ticks_cached))
  else let v := if mhz =? 0 then 1000 else mhz in
       (MkCtrl ctrl.(per_class) v, v).

Definition v8m_refill_controller_compute_batch (ctrl : v8m_refill_controller) (now mhz cls actual_demand : Z)
  : v8m_refill_controller * Z :=
  if V8M_NUM_SIZE_CLASSES <=? cls then (ctrl, V8M_REFILL_BATCH_MIN)
  else
    let state := class_at ctrl cls in
    let last := state.(last_refill_tsc) in
    let elapsed := if (last =? 0) || (now <=? last) then 0 else u64 (now - last) in
    let ema := u32 (Z.shiftr (u64 (u64 (3 * state.(ema_demand)) + actual_demand)) 2) in
    let '(ctrl, batch) :=
      if 0 <? elapsed then
        let '(ctrl, ticks) := ticks_per_micro ctrl mhz in
        let target_ticks := u64 (V8M_REFILL_TARGET_HOLD_MICROS * ticks) in
        let numerator := u64 (ema * target_ticks) in
        let computed := numerator / elapsed in
        let computed := if V8M_REFILL_BATCH_MAX <? computed then V8M_REFILL_BATCH_MAX else computed in
        (ctrl, u32 computed)
      else (ctrl, state.(batch_size)) in
    let batch := if batch <? V8M_REFILL_BATCH_MIN then V8M_REFILL_BATCH_MIN else batch in
    let batch := if V8M_REFILL_BATCH_MAX <? batch then V8M_REFILL_BATCH_MAX else batch in
    (set_class ctrl cls (MkClass ema batch now), batch).

(** ** The huge-page policy *)

Inductive v8m_thp_advice := V8M_THP_PROMOTE | V8M_THP_DEMOTE.

Record thp := MkThp {
  thp_last_alloc_tsc : Z;
  thp_ema : Z;
  thp_cold_threshold : Z;
  thp_promotes : Z;
  thp_demotes : Z;
  thp_age_demotes : Z
}.
Definition thp0 : thp := MkThp 0 0 0 0 0 0.

Definition v8m_thp_cold_threshold_ticks (t : thp) (mhz : Z) : thp * Z :=
  if negb (t.(thp_cold_threshold) =? 0) then (t, t.(thp_cold_threshold))
  else
    let mhz := if mhz =? 0 then 1000 else mhz in
    let ticks := u64 (mhz * 1000 * 1000) in
    (MkThp t.(thp_last_alloc_tsc) t.(thp_ema) ticks t.(thp_promotes) t.(thp_demotes) t.(thp_age_demotes), ticks).

Definition v8m_thp_decide_and_record (t : thp) (now mhz : Z) : thp * v8m_thp_advice :=
  let last := t.(thp_last_alloc_tsc) in
  let t := MkThp now t.(thp_ema) t.(thp_cold_threshold) t.(thp_promotes) t.(thp_demotes) t.(thp_age_demotes) in
  if (last =? 0) || (now <=? last) then (t, V8M_THP_PROMOTE)
  else
    let delta := u64 (now - last) in
    let prev_ema := t.(thp_ema) in
    let new_ema := if prev_ema =? 0 then delta else u64 (u64 (prev_ema * 3) + delta) / 4 in
    let t := MkThp now new_ema t.(thp_cold_threshold) t.(thp_promotes) t.(thp_demotes) t.(thp_age_demotes) in
    let '(t, threshold) := v8m_thp_cold_threshold_ticks t mhz in
    (t, if threshold <? new_ema then V8M_THP_DEMOTE else V8M_THP_PROMOTE).

Definition v8m_thp_record_promote (t : thp) : thp :=
  MkThp t.(thp_last_alloc_tsc) t.(thp_ema) t.(thp_cold_threshold) (u64 (t.(thp_promotes) + 1)) t.(thp_demotes) t.(thp_age_demotes).
Definition v8m_thp_record_demote (t : thp) : thp :=
  MkThp t.(thp_last_alloc_tsc) t.(thp_ema) t.(thp_cold_threshold) t.(thp_promotes) (u64 (t.(thp_demotes) + 1)) t.(thp_age_demotes).
Definition v8m_thp_record_age_demote (t : thp) : thp :=
  MkThp t.(thp_last_alloc_tsc) t.(thp_ema) t.(thp_cold_threshold) t.(thp_promotes) t.(thp_demotes) (u64 (t.(thp_age_demotes) + 1)).

(** ** Properties *)

(** A weighted average with weights 3 and 1 stays between its arguments. *)
Lemma ema_between a b : 0 <= a -> 0 <= b -> Z.min a b <= (3 * a + b) / 4 <= Z.max a b.
Proof.
  intros Ha Hb. split.
  - apply Z.div_le_lower_bound; lia.
  - assert ((3 * a + b) / 4 < Z.max a b + 1); [|lia]. apply Z.div_lt_upper_bound; lia.
Qed.

Definition state_ok (s : class_state) : Prop :=
  0 <= s.(ema_demand) < 2 ^ 32 /\ V8M_REFILL_BATCH_MIN <= s.(batch_size) <= V8M_REFILL_BATCH_MAX /\ 0 <= s.(last_refill_tsc) < 2 ^ 64.
Definition ctrl_ok (ctrl : v8m_refill_controller) : Prop :=
  length ctrl.(per_class) = 41%nat /\ Forall state_ok ctrl.(per_class).

Lemma init_ok cached : ctrl_ok (v8m_refill_controller_init cached).
Proof. split; [done|]. apply Forall_replicate. vm_compute. intuition discriminate. Qed.

Lemma class_at_ok ctrl cls : ctrl_ok ctrl -> state_ok (class_at ctrl cls).
Proof.
  intros [_ Hf]. unfold class_at. destruct (ctrl.(per_class) !! Z.to_nat cls) as [s|] eqn:E; [by eapply Forall_lookup_1|].
  vm_compute. intuition discriminate.
Qed.

Lemma set_class_ok ctrl cls s : ctrl_ok ctrl -> state_ok s -> ctrl_ok (set_class ctrl cls s).
Proof. intros [Hl Hf] Hs. split; cbn; [by rewrite length_insert|]. by apply Forall_insert. Qed.

Lemma ticks_per_micro_class ctrl mhz : per_class (fst (ticks_per_micro ctrl mhz)) = ctrl.(per_class).
Proof. unfold ticks_per_micro. by destruct (negb _). Qed.

(** the computed batch is always between 8 and 64 whatever the demand, the
    clock and its frequency; the demand average stays between its previous value
    and the new demand; and the clock reading is recorded. *)
Theorem v8m_refill_controller_batch_bounds ctrl now mhz cls demand :
  ctrl_ok ctrl -> 0 <= now < 2 ^ 64 -> 0 <= demand < 2 ^ 32 -> 0 <= cls ->
  let '(ctrl', batch) := v8m_refill_controller_compute_batch ctrl now mhz cls demand in
  ctrl_ok ctrl' /\ V8M_REFILL_BATCH_MIN <= batch <= V8M_REFILL_BATCH_MAX /\
  (cls < V8M_NUM_SIZE_CLASSES ->
   batch = (class_at ctrl' cls).(batch_size) /\ now = (class_at ctrl' cls).(last_refill_tsc) /\
   Z.min (class_at ctrl cls).(ema_demand) demand <= (class_at ctrl' cls).(ema_demand)
     <= Z.max (class_at ctrl cls).(ema_demand) demand).
Proof.
  intros Hok Hnow Hdem Hcls. unfold v8m_refill_controller_compute_batch.
  destruct (Z.leb_spec V8M_NUM_SIZE_CLASSES cls).
  { split; [done|]. split; [vm_compute; intuition discriminate|lia]. }
  pose proof (class_at_ok ctrl cls Hok) as ((He0 & He1) & (Hb0 & Hb1) & Ht). set (st := class_at ctrl cls) in *.
  pose proof (ema_between st.(ema_demand) demand ltac:(lia) ltac:(lia)) as Hem.
  assert (Hema : u32 (Z.shiftr (u64 (u64 (3 * st.(ema_demand)) + demand)) 2) = (3 * st.(ema_demand) + demand) / 4).
  { rewrite (u64_small (3 * _)) by (unfold is_u64; lia). rewrite u64_small by (unfold is_u64; lia).
    rewrite Z.shiftr_div_pow2 by lia. apply u32_small. change (2 ^ 2) with 4. lia. }
  rewrite Hema. set (ema := (3 * st.(ema_demand) + demand) / 4) in *.
  match goal with |- let '(_, _) := (let '(_, _) := ?x in _) in _ => set (X := x) end.
  assert (HX : per_class (fst X) = ctrl.(per_class)).
  { unfold X. destruct (0 <? _); [|done]. pose proof (ticks_per_micro_class ctrl mhz) as Hp.
    by destruct (ticks_per_micro ctrl mhz). }
  destruct X as [ctrl1 b1]. cbn in HX.
  set (b2 := if b1 <? V8M_REFILL_BATCH_MIN then V8M_REFILL_BATCH_MIN else b1).
  assert (Hb2 : V8M_REFILL_BATCH_MIN <= b2) by (unfold b2; destruct (Z.ltb_spec b1 V8M_REFILL_BATCH_MIN); lia).
  assert (Hb3 : V8M_REFILL_BATCH_MIN <= (if V8M_REFILL_BATCH_MAX <? b2 then V8M_REFILL_BATCH_MAX else b2) <= V8M_REFILL_BATCH_MAX).
  { destruct (Z.ltb_spec V8M_REFILL_BATCH_MAX b2); unfold V8M_REFILL_BATCH_MIN, V8M_REFILL_BATCH_MAX in *; lia. }
  assert (Hok1 : ctrl_ok ctrl1) by (destruct Hok; split; by rewrite HX).
  split; [|split; [done|]].
  - apply set_class_ok; [done|]. split_and!; cbn; lia.
  - intros _. unfold class_at, set_class. cbn. destruct Hok1 as [Hl1 _]. unfold V8M_NUM_SIZE_CLASSES in *.
    rewrite list_lookup_insert_eq by lia. cbn. split_and!; [done|done|lia|lia].
Qed.

Lemma v8m_refill_controller_batch_bounds_witness :
  let '(ctrl', batch) := v8m_refill_controller_compute_batch (v8m_refill_controller_init 0) 1000000 3000 9 500 in
  ctrl_ok ctrl' /\ V8M_REFILL_BATCH_MIN <= batch <= V8M_REFILL_BATCH_MAX.
Proof.
  pose proof (v8m_refill_controller_batch_bounds (v8m_refill_controller_init 0) 1000000 3000 9 500
    (init_ok 0) ltac:(lia) ltac:(lia) ltac:(lia)) as H.
  destruct (v8m_refill_controller_compute_batch (v8m_refill_controller_init 0) 1000000 3000 9 500) as [c b].
  split; apply H.
Defined.

(** As long as the interval average stays below [2^62] ticks, the policy's new
    average lies between the old one and the last interval, and the advice is to
    demote exactly when it exceeds one second of ticks; the first observation and
    a clock that did not advance always promote. *)
Theorem v8m_thp_decide_spec t now mhz :
  0 <= t.(thp_ema) < 2 ^ 62 -> 0 <= t.(thp_last_alloc_tsc) -> 0 <= now < 2 ^ 62 -> 0 < mhz < 2 ^ 32 ->
  t.(thp_cold_threshold) = 0 ->
  let '(t', advice) := v8m_thp_decide_and_record t now mhz in
  t'.(thp_last_alloc_tsc) = now /\
  (t.(thp_last_alloc_tsc) = 0 \/ now <= t.(thp_last_alloc_tsc) -> advice = V8M_THP_PROMOTE /\ t'.(thp_ema) = t.(thp_ema)) /\
  (0 < t.(thp_last_alloc_tsc) < now ->
   let delta := now - t.(thp_last_alloc_tsc) in
   (t.(thp_ema) = 0 -> t'.(thp_ema) = delta) /\
   (0 < t.(thp_ema) -> Z.min t.(thp_ema) delta <= t'.(thp_ema) <= Z.max t.(thp_ema) delta) /\
   (advice = V8M_THP_DEMOTE <-> mhz * 1000000 < t'.(thp_ema))).
Proof.
  intros He Hl Hn Hm Hc. unfold v8m_thp_decide_and_record.
  destruct (Z.eqb_spec t.(thp_last_alloc_tsc) 0), (Z.leb_spec now t.(thp_last_alloc_tsc)); cbn [orb].
  1-3: split; [done|split; [done|lia]].
  unfold v8m_thp_cold_threshold_ticks. cbn [thp_cold_threshold]. rewrite Hc, Z.eqb_refl. cbn [negb].
  destruct (Z.eqb_spec mhz 0); [lia|]. rewrite (u64_small (mhz * 1000 * 1000)) by (unfold is_u64; lia).
  rewrite (u64_small (now - _)) by (unfold is_u64; lia). cbn [thp_ema thp_last_alloc_tsc].
  split; [done|split; [lia|]]. intros _. cbn zeta. set (delta := now - t.(thp_last_alloc_tsc)) in *.
  replace (mhz * 1000 * 1000) with (mhz * 1000000) by lia.
  assert (Hd : 0 <= delta < 2 ^ 62) by lia.
  pose proof (ema_between t.(thp_ema) delta ltac:(lia) ltac:(lia)) as Hb.
  rewrite (u64_small (t.(thp_ema) * 3)) by (unfold is_u64; lia). rewrite u64_small by (unfold is_u64; lia).
  replace (t.(thp_ema) * 3 + delta) with (3 * t.(thp_ema) + delta) by lia.
  split_and!.
  - intros ->. done.
  - intros Hp. destruct (Z.eqb_spec t.(thp_ema) 0); lia.
  - destruct (Z.ltb_spec (mhz * 1000000) (if t.(thp_ema) =? 0 then delta else (3 * t.(thp_ema) + delta) / 4)); split; intros; (done || lia).
Qed.

Lemma v8m_thp_decide_spec_witness :
  snd (v8m_thp_decide_and_record (MkThp 5 0 0 0 0 0) 4000000000 1000) = V8M_THP_DEMOTE.
Proof.
  pose proof (v8m_thp_decide_spec (MkThp 5 0 0 0 0 0) 4000000000 1000) as H. cbn zeta in H.
  destruct (v8m_thp_decide_and_record (MkThp 5 0 0 0 0 0) 4000000000 1000) as [t' a] eqn:E.
  destruct H as (_ & _ & Hd); [cbn; lia|cbn; lia|lia|lia|done|].
  destruct (Hd ltac:(cbn; lia)) as (He & _ & Hi). apply Hi. rewrite He by done. vm_compute. reflexivity.
Defined.

End Refill.
