(* ===== verification/Numa.v ===== *)
(** NUMA topology tables: the part of [src/v8m_numa.c] after the sysfs files have
    been read ([g_node_count], [g_cpu_to_node], [g_distance] given).

    [build_fallback_order] sorts, per node, all nodes by distance with the
    insertion sort of the source; the queries index the tables.  [sched_getcpu]
    is the argument [cpu] ([-1] on failure). *)

From stdpp Require Import sorting.
From S2P Require Import Prelude.

Module Numa.

Definition V8M_NUMA_MAX_NODES : Z := 64.
Definition V8M_NUMA_MAX_CPUS : Z := 4096.
Definition V8M_NUMA_REFRESH_INTERVAL : Z := 1024.

(** The tables, and the calling thread's cached node and call count. *)
Record numa := MkNuma {
  g_node_count : Z;
  g_cpu_to_node : list Z;
  g_distance : list (list Z);
  g_fallback : list (list Z);
  t_cached_node : Z;
  t_call_count : Z
}.

Definition row (rows : list (list Z)) (i : Z) : list Z := default [] (rows !! Z.to_nat i).
Definition distance (n : numa) (from to : Z) : Z := znth (row n.(g_distance) from) to.

(** The inner loop: move the entry at [hold] left while it is nearer than its
    left neighbour. *)
Fixpoint sift (dist : Z -> Z) (hold : nat) (fb : list Z) : list Z :=
  match hold with
  | O => fb
  | S hold' =>
      let left := znth fb (Z.of_nat hold') in
      let right := znth fb (Z.of_nat hold) in
      if dist left <=? dist right then fb
      else sift dist hold' (zupd (zupd fb (Z.of_nat hold') right) (Z.of_nat hold) left)
  end.

(** One row: the identity order, then an insertion for [i = 1 .. count - 1]. *)
Definition fallback_row (dist : Z -> Z) (count : nat) : list Z :=
  foldl (fun fb i => sift dist i fb) (Z.of_nat <$> seq 0 count) (seq 1 (count - 1)).

Definition build_fallback_order (n : numa) : numa :=
  MkNuma n.(g_node_count) n.(g_cpu_to_node) n.(g_distance)
    ((fun from => fallback_row (distance n (Z.of_nat from)) (Z.to_nat n.(g_node_count))) <$> seq 0 (Z.to_nat n.(g_node_count)))
    n.(t_cached_node) n.(t_call_count).

Definition v8m_numa_node_count (n : numa) : Z := n.(g_node_count).

Definition v8m_numa_node_for_cpu (n : numa) (cpu : Z) : Z :=
  if V8M_NUMA_MAX_CPUS <=? cpu then 0 else znth n.(g_cpu_to_node) cpu.

Definition v8m_numa_node_distance (n : numa) (from to : Z) : Z :=
  if (V8M_NUMA_MAX_NODES <=? from) || (V8M_NUMA_MAX_NODES <=? to) then 0 else distance n from to.

Definition v8m_numa_fallback_node (n : numa) (from rank : Z) : Z :=
  if n.(g_node_count) <=? from then from
  else if n.(g_node_count) <=? rank then from
  else znth (row n.(g_fallback) from) rank.

(** The cached node is refreshed on every 1024th call. *)
Definition v8m_numa_current_node (n : numa) (cpu : Z) : numa * Z :=
  let count := n.(t_call_count) in
  let node := if Z.land count (V8M_NUMA_REFRESH_INTERVAL - 1) =? 0
              then (if cpu <? 0 then 0 else v8m_numa_node_for_cpu n (u32 cpu))
              else n.(t_cached_node) in
  (MkNuma n.(g_node_count) n.(g_cpu_to_node) n.(g_distance) n.(g_fallback) node (u32 (count + 1)), node).

Definition v8m_numa_current_cpu (cpu : Z) : Z :=
  if (cpu <? 0) || (V8M_NUMA_MAX_CPUS <=? cpu) then 0 else cpu.

(** ** The insertion sort *)

Section Sort.
Context (dist : Z -> Z).

Definition nearer (a b : Z) : Prop := dist a <= dist b.

Lemma znth_app_right (p q : list Z) i x : i = Z.of_nat (length p) -> znth (p ++ x :: q) i = x.
Proof. intros ->. unfold znth. by rewrite Nat2Z.id, list_lookup_middle. Qed.

Lemma swap_adjacent (p q : list Z) x y n :
  n = length p -> zupd (zupd (p ++ x :: y :: q) (Z.of_nat n) y) (Z.of_nat (S n)) x = p ++ y :: x :: q.
Proof.
  intros ->. unfold zupd. rewrite !Nat2Z.id. rewrite <- (Nat.add_0_r (length p)) at 2. rewrite insert_app_r. cbn.
  replace (S (length p)) with (length p + 1)%nat by lia. by rewrite insert_app_r.
Qed.

(** Sifting inserts the element at [hold] into the sorted prefix before it. *)
Lemma sift_spec p x q :
  StronglySorted nearer p ->
  exists s, sift dist (length p) (p ++ x :: q) = s ++ q /\ s ≡ₚ x :: p /\ StronglySorted nearer s.
Proof.
  revert x q. induction p as [|y p IH] using rev_ind; intros x q Hs.
  { exists [x]. split_and!; [done|done|repeat constructor]. }
  rewrite length_app, Nat.add_comm. cbn [length sift Nat.add].
  rewrite <- app_assoc. cbn [app]. rewrite (znth_app_right p) by done.
  replace (znth (p ++ y :: x :: q) (Z.of_nat (S (length p)))) with x.
  2: { change (p ++ y :: x :: q) with (p ++ [y] ++ x :: q). rewrite app_assoc.
       rewrite znth_app_right; [done|]. rewrite length_app. cbn. lia. }
  destruct (Z.leb_spec (dist y) (dist x)) as [Hle|Hgt].
  - exists (p ++ [y; x]). split_and!; [by rewrite <- app_assoc| |].
    + rewrite (Permutation_app_comm p [y; x]). cbn. rewrite Permutation_swap. apply perm_skip.
      by rewrite <- Permutation_cons_append.
    + apply StronglySorted_app in Hs as (Hx & H1 & _). apply StronglySorted_app. split_and!; [|done|].
      * intros a b Ha Hb. apply elem_of_cons in Hb as [->|Hb]; [by apply Hx; [|left]|].
        apply list_elem_of_singleton in Hb as ->. specialize (Hx a y Ha ltac:(left)). unfold nearer in *. lia.
      * repeat constructor. done.
  - rewrite swap_adjacent by done. pose proof Hs as (Hx & H1 & _)%StronglySorted_app.
    destruct (IH x (y :: q) H1) as (s & -> & Hp & Hss). exists (s ++ [y]).
    split_and!; [by rewrite <- app_assoc| |].
    + rewrite <- Permutation_cons_append, Hp, Permutation_swap. apply perm_skip. by rewrite <- Permutation_cons_append.
    + apply StronglySorted_app. split_and!; [|done|repeat constructor].
      intros a b Ha Hb. apply list_elem_of_singleton in Hb as ->. rewrite Hp in Ha.
      apply elem_of_cons in Ha as [->|Ha]; [unfold nearer; lia|]. by apply Hx; [|left].
Qed.

Lemma sort_prefix (l : list Z) (k : nat) :
  (k < length l)%nat ->
  exists s, foldl (fun fb i => sift dist i fb) l (seq 1 k) = s ++ drop (S k) l /\
    s ≡ₚ take (S k) l /\ StronglySorted nearer s.
Proof.
  induction k as [|k IH]; intros Hk.
  { destruct l as [|x l]; [cbn in Hk; lia|]. exists [x]. cbn. split_and!; [done|done|repeat constructor]. }
  destruct (IH ltac:(lia)) as (s & He & Hp & Hs). rewrite seq_S, foldl_app, He. cbn [foldl Nat.add].
  destruct (lookup_lt_is_Some_2 l (S k) ltac:(lia)) as [x Hx].
  assert (Hlen : length s = S k) by (rewrite (Permutation_length Hp), length_take; lia).
  rewrite (drop_S _ _ _ Hx), <- Hlen. destruct (sift_spec s x (drop (S (length s)) l) Hs) as (s' & -> & Hp' & Hs').
  exists s'. rewrite Hlen. split_and!; [done| |done]. rewrite Hp', Hp, (take_S_r _ _ _ Hx).
  apply Permutation_cons_append.
Qed.

Lemma fallback_row_spec count :
  (0 < count)%nat -> fallback_row dist count ≡ₚ Z.of_nat <$> seq 0 count /\ StronglySorted nearer (fallback_row dist count).
Proof.
  intros Hc. unfold fallback_row. destruct (sort_prefix (Z.of_nat <$> seq 0 count) (count - 1)) as (s & He & Hp & Hs).
  { rewrite length_fmap, length_seq. lia. }
  replace (S (count - 1)) with count in * by lia.
  rewrite He, drop_ge, app_nil_r by (rewrite length_fmap, length_seq; lia).
  rewrite take_ge in Hp by (rewrite length_fmap, length_seq; lia). done.
Qed.

End Sort.

(** after the tables are built, a node's fallback order lists every node
    exactly once, the nearer ones first; ranks and nodes out of range fall back to
    the node itself. *)
Theorem v8m_numa_fallback_order n from :
  0 < n.(g_node_count) <= V8M_NUMA_MAX_NODES -> 0 <= from ->
  let n' := build_fallback_order n in
  let order := v8m_numa_fallback_node n' from <$> (Z.of_nat <$> seq 0 (Z.to_nat n.(g_node_count))) in
  (from < n.(g_node_count) ->
     order ≡ₚ Z.of_nat <$> seq 0 (Z.to_nat n.(g_node_count)) /\
     StronglySorted (fun a b => v8m_numa_node_distance n' from a <= v8m_numa_node_distance n' from b) order) /\
  (forall rank, n.(g_node_count) <= from \/ n.(g_node_count) <= rank -> v8m_numa_fallback_node n' from rank = from).
Proof.
  intros Hc Hf. cbn zeta. split.
  - intros Hlt. set (cnt := Z.to_nat n.(g_node_count)). unfold V8M_NUMA_MAX_NODES in Hc.
    destruct (fallback_row_spec (distance n from) cnt ltac:(lia)) as [Hp Hs].
    assert (Hrow : row (g_fallback (build_fallback_order n)) from = fallback_row (distance n from) cnt).
    { unfold row, build_fallback_order. cbn. rewrite list_lookup_fmap, lookup_seq_lt by lia. cbn. f_equal. f_equal. lia. }
    assert (Hord : v8m_numa_fallback_node (build_fallback_order n) from <$> (Z.of_nat <$> seq 0 cnt) = fallback_row (distance n from) cnt).
    { apply list_eq. intros i. rewrite !list_lookup_fmap. destruct (decide (i < cnt)%nat) as [Hi|Hi].
      - rewrite lookup_seq_lt by lia. cbn. unfold v8m_numa_fallback_node. cbn [g_node_count build_fallback_order].
        destruct (Z.leb_spec n.(g_node_count) from); [lia|]. destruct (Z.leb_spec n.(g_node_count) (Z.of_nat i)); [lia|].
        rewrite Hrow. unfold znth. rewrite Nat2Z.id.
        destruct (lookup_lt_is_Some_2 (fallback_row (distance n from) cnt) i) as [x Hx]; [|by rewrite Hx].
        rewrite (Permutation_length Hp), length_fmap, length_seq. lia.
      - rewrite lookup_seq_ge by lia. cbn. symmetry. apply lookup_ge_None_2.
        rewrite (Permutation_length Hp), length_fmap, length_seq. lia. }
    rewrite Hord. split; [done|].
    assert (Hin : forall x, x ∈ fallback_row (distance n from) cnt -> 0 <= x < 64).
    { intros x Hx. rewrite Hp in Hx. apply list_elem_of_fmap in Hx as (k & -> & Hk). apply elem_of_seq in Hk. lia. }
    revert Hs Hin. generalize (fallback_row (distance n from) cnt). intros l Hs Hin.
    induction Hs as [|a l Hs IH Ha]; constructor.
    + apply IH. intros x Hx. apply Hin. by right.
    + rewrite Forall_forall in *. intros b Hb. specialize (Ha b Hb).
      pose proof (Hin a ltac:(left)). pose proof (Hin b ltac:(by right)).
      unfold v8m_numa_node_distance, V8M_NUMA_MAX_NODES.
      destruct (Z.leb_spec 64 from), (Z.leb_spec 64 a), (Z.leb_spec 64 b); try lia. exact Ha.
  - intros rank Hr. unfold v8m_numa_fallback_node. cbn.
    destruct (Z.leb_spec n.(g_node_count) from); [done|]. by destruct (Z.leb_spec n.(g_node_count) rank); [|lia].
Qed.

Definition ex_numa : numa := MkNuma 4 [] [[10; 31; 21; 31]] [] 0 0.

Lemma v8m_numa_fallback_order_witness :
  (v8m_numa_fallback_node (build_fallback_order ex_numa) 0 <$> [0; 1; 2; 3]) = [0; 2; 1; 3] /\
  (v8m_numa_fallback_node (build_fallback_order ex_numa) 0 <$> [0; 1; 2; 3]) ≡ₚ [0; 1; 2; 3].
Proof.
  split; [vm_compute; reflexivity|].
  exact (proj1 (proj1 (v8m_numa_fallback_order ex_numa 0 ltac:(vm_compute; split; [reflexivity|discriminate]) ltac:(lia)) ltac:(vm_compute; reflexivity))).
Defined.

End Numa.
