(* ===== verification/NumaInit.v ===== *)
(** Reading the NUMA topology at start-up: the parsers of [src/v8m_numa.c] and
    [v8m_numa_init].

    Text is a list of bytes.  The directory and its files are what [readdir] and
    [read_file] deliver: an [entry] is a name with the contents of the node's
    [cpulist] and [distance] files, [None] when a file cannot be read. *)

From stdpp Require Import sorting.
From S2P Require Import Prelude Config Numa.
Import Config Numa.

Module NumaInit.

Definition ULONG_MAX : Z := 2 ^ 64 - 1.

(** [strtoul(text, &end, 10)]: the value and the unread rest; [None] when no digit
    was found and [end] stays at the start. *)
Definition strtoul (text : list Z) : option (Z * list Z) :=
  let rest := (span isspace text).2 in
  let '(neg, rest) := match rest with
                      | c :: r => if c =? 45 then (true, r) else if c =? 43 then (false, r) else (false, rest)
                      | [] => (false, [])
                      end in
  let '(ds, tail) := span isdigit rest in
  match ds with
  | [] => None
  | _ => Some (if ULONG_MAX <? horner ds then ULONG_MAX else if neg : bool then u64 (- horner ds) else horner ds, tail)
  end.

(** [read_file]: at most [max - 1] bytes, read as a C string. *)
Definition read_file (contents : option (list Z)) (max : nat) : option (list Z) :=
  match contents with Some bytes => Some (span (fun c => negb (c =? 0)) (take (max - 1) bytes)).1 | None => None end.

(** ** CPU lists *)

Definition set_cpus (table : list Z) (start stop node_id : Z) : list Z :=
  foldl (fun t cpu => zupd t cpu node_id) table (seqZ start (Z.min (stop + 1) V8M_NUMA_MAX_CPUS - start)).

(** Each pass consumes at least one byte; [fuel] above the length is enough. *)
Fixpoint cpulist_loop (fuel : nat) (cursor : list Z) (node_id : Z) (table : list Z) : list Z :=
  match fuel with
  | O => table
  | S fuel =>
      let cursor := (span (fun c => isspace c || (c =? 44)) cursor).2 in
      match cursor with
      | [] => table
      | _ =>
          match strtoul cursor with
          | None => table
          | Some (start, cursor) =>
              match cursor with
              | c :: after =>
                  if c =? 45 then
                    match strtoul after with
                    | None => table
                    | Some (stop, cursor) => cpulist_loop fuel cursor node_id (set_cpus table start stop node_id)
                    end
                  else cpulist_loop fuel cursor node_id (set_cpus table start start node_id)
              | [] => set_cpus table start start node_id
              end
          end
      end
  end.
Definition apply_cpulist (list : list Z) (node_id : Z) (table : Datatypes.list Z) : Datatypes.list Z := cpulist_loop (S (length list)) list node_id table.

(** ** Distance rows *)

Fixpoint distance_loop (fuel : nat) (cursor : list Z) (to_node : Z) (r : list Z) : list Z :=
  match fuel with
  | O => r
  | S fuel =>
      if (match cursor with [] => true | _ => false end) || (V8M_NUMA_MAX_NODES <=? to_node) then r
      else
        let cursor := (span isspace cursor).2 in
        match cursor with
        | [] => r
        | _ =>
            match strtoul cursor with
            | None => r
            | Some (value, cursor) => distance_loop fuel cursor (to_node + 1) (zupd r to_node (if 255 <? value then 255 else value))
            end
        end
  end.
Definition apply_distance (text : list Z) (from_node : Z) (rows : list (list Z)) : list (list Z) :=
  alter (distance_loop (S (length text)) text 0) (Z.to_nat from_node) rows.

(** ** [v8m_numa_init] *)

Record entry := MkEntry { d_name : list Z; cpulist : option (list Z); distance_file : option (list Z) }.

(** The node number of a directory entry called [nodeN]. *)
Definition entry_node (name : list Z) : option Z :=
  if negb (bool_decide (take 4 name = [110; 111; 100; 101])) then None
  else
    match drop 4 name with
    | c :: _ =>
        if negb (isdigit c) then None
        else
          match strtoul (drop 4 name) with
          | Some (node_id, []) => if V8M_NUMA_MAX_NODES <=? node_id then None else Some node_id
          | _ => None
          end
    | [] => None
    end.

(** The tables with [max_node_seen] and [any_node]. *)
Definition scan_entry (acc : list Z * list (list Z) * Z * bool) (e : entry) : list Z * list (list Z) * Z * bool :=
  let '(cpus, rows, max_node_seen, any_node) := acc in
  match entry_node e.(d_name) with
  | None => acc
  | Some node_id =>
      match read_file e.(cpulist) 1024 with
      | None => acc
      | Some text =>
          let cpus := apply_cpulist text node_id cpus in
          let rows := match read_file e.(distance_file) 1024 with Some row => apply_distance row node_id rows | None => rows end in
          (cpus, rows, if max_node_seen <? node_id + 1 then node_id + 1 else max_node_seen, true)
      end
  end.

(** The scan of the directory.  [dir] is [None] when it cannot be opened. *)
Definition read_nodes (dir : option (list entry)) (n : numa) : numa :=
  let cpus := replicate (Z.to_nat V8M_NUMA_MAX_CPUS) 0 in
  match dir with
  | None => MkNuma 1 cpus n.(g_distance) n.(g_fallback) n.(t_cached_node) n.(t_call_count)
  | Some entries =>
      let '(cpus, rows, max_node_seen, any_node) := foldl scan_entry (cpus, n.(g_distance), 0, false) entries in
      build_fallback_order (MkNuma (if any_node then max_node_seen else 1) cpus rows n.(g_fallback) n.(t_cached_node) n.(t_call_count))
  end.
(** [g_initialized] and the tables: only the first call scans. *)
Definition v8m_numa_init (dir : option (list entry)) (g_initialized : bool) (n : numa) : bool * numa :=
  if g_initialized then (g_initialized, n) else (true, read_nodes dir n).
(** The static tables. *)
Definition numa0 : numa := MkNuma 1 (replicate 4096 0) (replicate 64 (replicate 64 0)) (replicate 64 (replicate 64 0)) 0 0.

(** ** The parsers *)

Definition digits (ds : list Z) : Prop := ds <> [] /\ Forall (fun c => isdigit c = true) ds.
Definition ends_number (rest : list Z) : Prop := match rest with [] => True | c :: _ => isdigit c = false end.

Lemma strtoul_digits ds rest : digits ds -> ends_number rest -> strtoul (ds ++ rest) = Some (Z.min (horner ds) ULONG_MAX, rest).
Proof.
  intros [Hne Hd] Hr. unfold strtoul. destruct ds as [|c ds]; [done|]. pose proof Hd as [Hc _]%Forall_cons. destruct (digit_not_space c Hc) as (Hs & H43 & H45).
  cbn [app span]. rewrite Hs. cbn [snd]. rewrite (proj2 (Z.eqb_neq c 45)), (proj2 (Z.eqb_neq c 43)) by done. cbn zeta.
  change (c :: ds ++ rest) with ((c :: ds) ++ rest). rewrite (span_app isdigit (c :: ds) rest) by done. f_equal. f_equal. destruct (Z.ltb_spec ULONG_MAX (horner (c :: ds))); lia.
Qed.

Lemma strtoul_rest text v rest : strtoul text = Some (v, rest) -> (length rest < length text)%nat /\ 0 <= v <= ULONG_MAX.
Proof.
  unfold strtoul. pose proof (span_spec isspace text) as H1. destruct (span isspace text) as [sp r]. destruct H1 as (-> & _ & _). cbn [snd].
  assert (Hs : exists r', (length r' <= length r)%nat /\ exists b, match r with c :: r0 => if c =? 45 then (true, r0) else if c =? 43 then (false, r0) else (false, r) | [] => (false, []) end = (b, r')).
  { destruct r as [|c r]; [by exists []; split; [|exists false]|]. destruct (c =? 45); [exists r; split; [cbn; lia|by exists true]|]. destruct (c =? 43); [exists r; split; [cbn; lia|by exists false]|]. by exists (c :: r); split; [|exists false]. }
  destruct Hs as (r' & Hl & b & ->). pose proof (span_spec isdigit r') as H2. destruct (span isdigit r') as [ds tail]. destruct H2 as (-> & Hd & _).
  destruct ds as [|c ds]; [done|]. intros [= <- <-]. rewrite !length_app in *. cbn [length] in *. split; [lia|]. pose proof (horner_nonneg _ Hd). unfold ULONG_MAX in *.
  destruct (Z.ltb_spec (2 ^ 64 - 1) (horner (c :: ds))); [lia|]. destruct b; [|lia]. pose proof (u64_range (- horner (c :: ds))) as Hu. unfold is_u64 in Hu. lia.
Qed.

Lemma set_cpus_spec table start stop node cpu : length table = Z.to_nat V8M_NUMA_MAX_CPUS -> 0 <= start -> 0 <= cpu < V8M_NUMA_MAX_CPUS ->
  length (set_cpus table start stop node) = length table /\
  znth (set_cpus table start stop node) cpu = if decide (start <= cpu <= stop) then node else znth table cpu.
Proof.
  intros Hl Hs Hc. unfold set_cpus. set (k := Z.min (stop + 1) V8M_NUMA_MAX_CPUS - start).
  assert (Hgen : forall j from t, length t = length table -> start <= from -> from + Z.of_nat j <= V8M_NUMA_MAX_CPUS ->
    length (foldl (fun t cpu => zupd t cpu node) t (seqZ from (Z.of_nat j))) = length table /\
    znth (foldl (fun t cpu => zupd t cpu node) t (seqZ from (Z.of_nat j))) cpu = if decide (from <= cpu < from + Z.of_nat j) then node else znth t cpu).
  { intros j. induction j as [|j IH]; intros from t Ht Hf Hj; [rewrite seqZ_nil by lia; cbn; by rewrite decide_False by lia|].
    rewrite seqZ_cons by lia. cbn [foldl]. replace (Z.pred (Z.of_nat (S j))) with (Z.of_nat j) by lia. destruct (IH (Z.succ from) (zupd t from node)) as [H1 H2]; [by rewrite length_zupd|lia|lia|].
    split; [done|]. rewrite H2, znth_zupd by (unfold V8M_NUMA_MAX_CPUS in *; lia). destruct (Z.eqb_spec cpu from) as [->|]; [rewrite decide_False, decide_True by lia; done|].
    destruct (decide (Z.succ from <= cpu < _)); [by rewrite decide_True by lia|by rewrite decide_False by lia]. }
  destruct (Z.le_gt_cases k 0) as [Hk|Hk].
  - rewrite seqZ_nil by done. cbn. split; [done|]. rewrite decide_False; [done|]. unfold k in Hk. lia.
  - destruct (Hgen (Z.to_nat k) start table eq_refl ltac:(lia) ltac:(lia)) as [H1 H2]. rewrite Z2Nat.id in H1, H2 by lia. split; [done|]. rewrite H2. unfold k.
    destruct (decide (start <= cpu < start + _)); [by rewrite decide_True by lia|by rewrite decide_False by lia].
Qed.

(** A table keeps its length, and its entries are old ones or [node]. *)
Definition kept_or (node : Z) (t t' : list Z) : Prop := length t' = length t /\ forall cpu, 0 <= cpu < V8M_NUMA_MAX_CPUS -> znth t' cpu = node \/ znth t' cpu = znth t cpu.
Lemma set_cpus_kept table start stop node : length table = Z.to_nat V8M_NUMA_MAX_CPUS -> 0 <= start -> kept_or node table (set_cpus table start stop node).
Proof.
  intros Hl Hs. split; [by apply (set_cpus_spec table start stop node 0)|]. intros cpu Hc. destruct (set_cpus_spec table start stop node cpu Hl Hs Hc) as [_ ->].
  destruct (decide _); [by left|by right].
Qed.
Lemma kept_or_trans node t1 t2 t3 : kept_or node t1 t2 -> kept_or node t2 t3 -> kept_or node t1 t3.
Proof. intros [A1 A2] [B1 B2]. split; [congruence|]. intros cpu Hc. destruct (B2 cpu Hc) as [->| ->]; [by left|]. by apply A2. Qed.

Lemma cpulist_kept fuel cursor node table : length table = Z.to_nat V8M_NUMA_MAX_CPUS -> kept_or node table (cpulist_loop fuel cursor node table).
Proof.
  revert cursor table. induction fuel as [|fuel IH]; intros cursor table Hl; [by split; [|right]|]. cbn [cpulist_loop].
  destruct (span _ cursor).2 as [|c0 cur] eqn:E; [by split; [|right]|]. rewrite <- E. destruct (strtoul _) as [[start rest]|] eqn:Es; [|by split; [|right]].
  apply strtoul_rest in Es as [_ [Hs _]]. destruct rest as [|c after]; [by apply set_cpus_kept|].
  assert (Hgo : forall stop rest, kept_or node table (cpulist_loop fuel rest node (set_cpus table start stop node))).
  { intros stop rest. pose proof (set_cpus_kept table start stop node Hl Hs) as Hk. eapply kept_or_trans; [exact Hk|]. apply IH. rewrite (proj1 Hk). done. }
  destruct (c =? 45); [|apply Hgo]. destruct (strtoul after) as [[stop rest]|]; [apply Hgo|by split; [|right]].
Qed.

(** ** What a CPU list says *)

(** A range as the kernel prints it: a number, or two joined by a dash. *)
Record cpu_range := MkRange { first_cpu : list Z; last_cpu : option (list Z) }.
Definition range_ok (r : cpu_range) : Prop :=
  digits r.(first_cpu) /\ horner r.(first_cpu) <= ULONG_MAX /\ match r.(last_cpu) with Some b => digits b /\ horner b <= ULONG_MAX | None => True end.
Definition print_range (r : cpu_range) : list Z := r.(first_cpu) ++ match r.(last_cpu) with Some b => 45 :: b | None => [] end.
Definition covers (r : cpu_range) (cpu : Z) : Prop := horner r.(first_cpu) <= cpu <= horner (default r.(first_cpu) r.(last_cpu)).
#[export] Instance covers_dec r cpu : Decision (covers r cpu).
Proof. unfold covers. apply _. Defined.
(** Ranges with commas between them, and the blanks at the end. *)
Fixpoint print_ranges (rs : list cpu_range) (blanks : list Z) : list Z :=
  match rs with
  | [] => blanks
  | [r] => print_range r ++ blanks
  | r :: rs => print_range r ++ 44 :: print_ranges rs blanks
  end.

Lemma digit_facts c : isdigit c = true -> isspace c = false /\ (c =? 44) = false /\ (c =? 45) = false.
Proof. intros Hc. destruct (digit_not_space c Hc) as (H1 & _ & H3). unfold isdigit in Hc. rewrite andb_true_iff, !Z.leb_le in Hc. split; [done|]. split; apply Z.eqb_neq; lia. Qed.
Lemma space_facts c : isspace c = true -> isdigit c = false /\ (c =? 45) = false.
Proof. unfold isspace, isdigit. rewrite orb_true_iff, andb_true_iff, Z.eqb_eq, !Z.leb_le. intros Hc. destruct (Z.leb_spec 48 c); [lia|]. split; [done|]. apply Z.eqb_neq. lia. Qed.

(** What may follow a range: nothing, a comma or a blank. *)
Definition after_range (rest : list Z) : Prop := match rest with [] => True | c :: _ => isdigit c = false /\ (c =? 45) = false end.

Lemma range_step fuel r rest node table : range_ok r -> after_range rest ->
  cpulist_loop (S fuel) (print_range r ++ rest) node table =
  match r.(last_cpu), rest with
  | None, [] => set_cpus table (horner r.(first_cpu)) (horner r.(first_cpu)) node
  | _, _ => cpulist_loop fuel rest node (set_cpus table (horner r.(first_cpu)) (horner (default r.(first_cpu) r.(last_cpu))) node)
  end.
Proof.
  intros (Hd & Hm & Hl) Hr. unfold print_range. destruct r as [a b]. cbn [first_cpu last_cpu] in *. pose proof Hd as [Hne Hda]. destruct a as [|c a]; [done|].
  pose proof Hda as [Hc _]%Forall_cons. destruct (digit_facts c Hc) as (Hs & H44 & _). rewrite <- app_assoc. cbn [cpulist_loop app span]. rewrite Hs, H44. cbn [orb snd].
  change (c :: a ++ ?x) with ((c :: a) ++ x). assert (Hend : ends_number (match b with Some b0 => 45 :: b0 | None => [] end ++ rest)) by (destruct b; [done|]; destruct rest; [done|by destruct Hr]).
  rewrite (strtoul_digits _ _ Hd Hend), Z.min_l by done. destruct b as [b|]; cbn [app default].
  - change (45 =? 45) with true. cbv iota. destruct Hl as [Hdb Hmb]. rewrite strtoul_digits, Z.min_l; [done|done|done|]. destruct rest; [done|by destruct Hr].
  - destruct rest as [|x rest]; [done|]. destruct Hr as [_ Hx]. by rewrite Hx.
Qed.

Lemma blanks_end blanks : Forall (fun c => isspace c = true) blanks -> after_range blanks.
Proof. destruct blanks as [|c l]; [done|]. intros [Hc _]%Forall_cons. by apply space_facts. Qed.

Lemma loop_blanks fuel blanks node table : Forall (fun c => isspace c = true) blanks -> cpulist_loop fuel blanks node table = table.
Proof.
  intros Hb. destruct fuel; [done|]. cbn [cpulist_loop]. rewrite <- (app_nil_r blanks), (span_app _ blanks []); [done| |done]. eapply Forall_impl; [exact Hb|]. intros c Hc. cbn in *. by rewrite Hc.
Qed.
Lemma loop_comma fuel rest node table : cpulist_loop fuel (44 :: rest) node table = cpulist_loop fuel rest node table.
Proof. destruct fuel; [done|]. cbn [cpulist_loop span]. change (isspace 44 || (44 =? 44)) with true. cbv iota. by destruct (span _ rest). Qed.

Definition set_range (node : Z) (t : list Z) (r : cpu_range) : list Z := set_cpus t (horner r.(first_cpu)) (horner (default r.(first_cpu) r.(last_cpu))) node.

Lemma ranges_loop rs blanks fuel node table : Forall range_ok rs -> Forall (fun c => isspace c = true) blanks -> (length rs <= fuel)%nat ->
  cpulist_loop fuel (print_ranges rs blanks) node table = foldl (set_range node) table rs.
Proof.
  intros Hr Hb. revert fuel table. induction Hr as [|r rs Hr Hrs IH]; intros fuel table Hf; [by apply loop_blanks|].
  destruct fuel as [|fuel]; [cbn in Hf; lia|]. cbn in Hf. destruct rs as [|r2 rs].
  - cbn [print_ranges]. rewrite range_step; [|done|by apply blanks_end]. cbn [foldl]. unfold set_range at 1. destruct r as [a [b|]]; cbn [last_cpu first_cpu default]; [by apply loop_blanks|].
    destruct blanks; [done|]. by apply loop_blanks.
  - change (print_ranges (r :: r2 :: rs) blanks) with (print_range r ++ 44 :: print_ranges (r2 :: rs) blanks). rewrite range_step by done. cbn [foldl]. unfold set_range at 1.
    destruct r as [a [b|]]; cbn [last_cpu first_cpu default]; rewrite loop_comma; apply IH; cbn in *; lia.
Qed.

Lemma print_length rs blanks : Forall range_ok rs -> (length rs <= length (print_ranges rs blanks))%nat.
Proof.
  induction 1 as [|r rs Hr _ IH]; [cbn; lia|]. assert (H1 : (0 < length (print_range r))%nat).
  { destruct Hr as [[Hne _] _]. unfold print_range. rewrite length_app. destruct (first_cpu r); [done|cbn; lia]. }
  destruct rs as [|r2 rs]; [cbn; rewrite length_app; lia|]. change (print_ranges (r :: r2 :: rs) blanks) with (print_range r ++ 44 :: print_ranges (r2 :: rs) blanks).
  rewrite length_app. cbn [length] in *. lia.
Qed.

Lemma fold_ranges rs node table cpu : Forall range_ok rs -> length table = Z.to_nat V8M_NUMA_MAX_CPUS -> 0 <= cpu < V8M_NUMA_MAX_CPUS ->
  length (foldl (set_range node) table rs) = length table /\
  ((exists r, r ∈ rs /\ covers r cpu) -> znth (foldl (set_range node) table rs) cpu = node) /\
  ((forall r, r ∈ rs -> ~ covers r cpu) -> znth (foldl (set_range node) table rs) cpu = znth table cpu).
Proof.
  intros Hr Hl Hc. induction rs as [|r rs IH] using rev_ind; [split; [done|]; split; [by intros (r & ?%not_elem_of_nil & _)|done]|].
  apply Forall_app in Hr as [Hrs [Hr _]%Forall_cons]. destruct (IH Hrs) as (I1 & I2 & I3). rewrite foldl_app. cbn [foldl]. set (t := foldl _ table rs) in *.
  destruct Hr as (Hd & _ & _). destruct (set_cpus_spec t (horner r.(first_cpu)) (horner (default r.(first_cpu) r.(last_cpu))) node cpu ltac:(congruence) ltac:(apply horner_nonneg, Hd) Hc) as [S1 S2].
  unfold set_range. rewrite S1, S2. split; [done|]. split.
  - intros (x & Hx & Hcov). destruct (decide _) as [|Hn]; [done|]. apply elem_of_app in Hx as [Hx| ->%list_elem_of_singleton]; [|done]. apply I2. by exists x.
  - intros Hn. rewrite decide_False; [|apply (Hn r); apply elem_of_app; right; by left]. apply I3. intros x Hx. apply Hn. apply elem_of_app. by left.
Qed.

(** C37: [apply_cpulist] reads back the kernel's CPU lists: on the text of any list
    of CPU numbers and ranges (numerals of any length within 64 bits, blanks at
    the end), exactly the CPUs the list covers are put on the node, and the others
    keep theirs. *)
Theorem cpulist_roundtrip rs blanks node table cpu : Forall range_ok rs -> Forall (fun c => isspace c = true) blanks -> length table = Z.to_nat V8M_NUMA_MAX_CPUS -> 0 <= cpu < V8M_NUMA_MAX_CPUS ->
  let table' := apply_cpulist (print_ranges rs blanks) node table in
  length table' = length table /\ ((exists r, r ∈ rs /\ covers r cpu) -> znth table' cpu = node) /\ ((forall r, r ∈ rs -> ~ covers r cpu) -> znth table' cpu = znth table cpu).
Proof.
  intros Hr Hb Hl Hc. unfold apply_cpulist. rewrite ranges_loop; [by apply fold_ranges|done|done|]. pose proof (print_length rs blanks Hr). lia.
Qed.

(** "0-3,8\n" *)
Definition ex_ranges : list cpu_range := [MkRange [48] (Some [51]); MkRange [56] None].
Lemma cpulist_roundtrip_witness :
  print_ranges ex_ranges [10] = [48; 45; 51; 44; 56; 10] /\
  znth (apply_cpulist (print_ranges ex_ranges [10]) 5 (replicate 4096 0)) 3 = 5.
Proof.
  split; [reflexivity|]. refine (proj1 (proj2 (cpulist_roundtrip ex_ranges [10] 5 (replicate 4096 0) 3 _ _ _ _)) _); [| |reflexivity|done|].
  - repeat constructor; vm_compute; done.
  - by repeat constructor.
  - exists (MkRange [48] (Some [51])). split; [left|]. vm_compute. by split.
Defined.

(** ** The tables after start-up *)

Definition byte_row (r : list Z) : Prop := length r = 64%nat /\ Forall (fun x => 0 <= x <= 255) r.

Lemma distance_byte fuel cursor to r : byte_row r -> byte_row (distance_loop fuel cursor to r).
Proof.
  revert cursor to r. induction fuel as [|fuel IH]; intros cursor to r Hr; [done|]. cbn [distance_loop]. destruct (_ || _); [done|]. destruct (span isspace cursor).2; [done|].
  destruct (strtoul _) as [[v rest]|] eqn:Es; [|done]. apply strtoul_rest in Es as [_ Hv]. apply IH. destruct Hr as [H1 H2]. split; [by rewrite length_zupd|]. unfold zupd. apply Forall_insert; [done|].
  destruct (Z.ltb_spec 255 v); lia.
Qed.
Lemma apply_distance_rows text id rows : Forall byte_row rows -> length (apply_distance text id rows) = length rows /\ Forall byte_row (apply_distance text id rows).
Proof.
  intros Hr. unfold apply_distance. split; [by rewrite length_alter|]. apply Forall_alter; [done|]. intros r Hx Hb. by apply distance_byte.
Qed.

Lemma entry_node_range name id : entry_node name = Some id -> 0 <= id < V8M_NUMA_MAX_NODES.
Proof.
  unfold entry_node. destruct (negb _); [done|]. destruct (drop 4 name) as [|c l] eqn:E; [done|]. rewrite <- E. destruct (negb _); [done|]. destruct (strtoul _) as [[v [|]]|] eqn:Es; [|done|done].
  apply strtoul_rest in Es as [_ Hv]. destruct (Z.leb_spec V8M_NUMA_MAX_NODES v); [done|]. intros [= <-]. lia.
Qed.

Lemma foldl_inv {A B} (P : A -> Prop) (f : A -> B -> A) l a : P a -> (forall a b, P a -> P (f a b)) -> P (foldl f a l).
Proof. intros Ha Hf. revert a Ha. induction l as [|b l IH]; intros a Ha; [done|]. cbn. by apply IH, Hf. Qed.

(** What the scan of the directory keeps. *)
Definition scanned (acc : list Z * list (list Z) * Z * bool) : Prop :=
  let '(cpus, rows, seen, any) := acc in
  length cpus = Z.to_nat V8M_NUMA_MAX_CPUS /\ (forall cpu, 0 <= cpu < V8M_NUMA_MAX_CPUS -> 0 <= znth cpus cpu < Z.max seen 1) /\ length rows = 64%nat /\ Forall byte_row rows /\
  0 <= seen <= V8M_NUMA_MAX_NODES /\ (any = true <-> 0 < seen).

Lemma scan_entry_ok acc e : scanned acc -> scanned (scan_entry acc e).
Proof.
  destruct acc as [[[cpus rows] seen] any]. intros Hs. pose proof Hs as (H1 & H2 & H3 & H4 & H5 & H6). unfold scan_entry. destruct (entry_node _) as [id|] eqn:En; [|exact Hs]. apply entry_node_range in En.
  destruct (read_file _ _) as [text|]; [|exact Hs]. destruct (cpulist_kept (S (length text)) text id cpus H1) as [K1 K2].
  assert (Hrows : length (match read_file (distance_file e) 1024 with Some row => apply_distance row id rows | None => rows end) = 64%nat /\ Forall byte_row (match read_file (distance_file e) 1024 with Some row => apply_distance row id rows | None => rows end)).
  { destruct (read_file (distance_file e) 1024) as [row|]; [|done]. destruct (apply_distance_rows row id rows H4) as [-> ?]. done. }
  destruct Hrows as [R1 R2]. assert (Hm : (if seen <? id + 1 then id + 1 else seen) = Z.max seen (id + 1)) by (destruct (Z.ltb_spec seen (id + 1)); lia). rewrite Hm. unfold scanned.
  split; [unfold apply_cpulist; congruence|]. split; [|split; [done|split; [done|split; [lia|split; [lia|done]]]]].
  intros cpu Hc. unfold apply_cpulist. destruct (K2 cpu Hc) as [->| ->]; [lia|]. specialize (H2 cpu Hc). lia.
Qed.

Record tables_ok (n : numa) : Prop := {
  to_count : 1 <= v8m_numa_node_count n <= V8M_NUMA_MAX_NODES;
  to_cpu : forall cpu, 0 <= cpu -> 0 <= v8m_numa_node_for_cpu n cpu < v8m_numa_node_count n;
  to_distance : forall a b, 0 <= a -> 0 <= b -> 0 <= v8m_numa_node_distance n a b <= 255;
  to_fallback : forall from, 0 <= from < v8m_numa_node_count n ->
    let order := v8m_numa_fallback_node n from <$> (Z.of_nat <$> seq 0 (Z.to_nat (v8m_numa_node_count n))) in
    order ≡ₚ Z.of_nat <$> seq 0 (Z.to_nat (v8m_numa_node_count n)) /\ StronglySorted (fun a b => v8m_numa_node_distance n from a <= v8m_numa_node_distance n from b) order
}.

Lemma rows_distance n a b : length n.(g_distance) = 64%nat -> Forall byte_row n.(g_distance) -> 0 <= a -> 0 <= b -> 0 <= v8m_numa_node_distance n a b <= 255.
Proof.
  intros Hl Hr Ha Hb. unfold v8m_numa_node_distance. destruct (_ || _); [lia|]. unfold distance, row. destruct (g_distance n !! Z.to_nat a) as [r|] eqn:E; cbn.
  - rewrite Forall_forall in Hr. destruct (Hr r) as [_ Hf]; [by eapply list_elem_of_lookup_2|]. apply (znth_Forall (fun x => 0 <= x <= 255)); [lia|done].
  - apply (znth_Forall (fun x => 0 <= x <= 255)); [lia|constructor].
Qed.

Lemma read_nodes_ok dir n : length n.(g_distance) = 64%nat -> Forall byte_row n.(g_distance) -> (forall i j, znth (row n.(g_fallback) i) j = 0) -> tables_ok (read_nodes dir n).
Proof.
  intros Hl Hr Hfb. destruct dir as [entries|].
  - unfold read_nodes. assert (Hs : scanned (foldl scan_entry (replicate (Z.to_nat V8M_NUMA_MAX_CPUS) 0, n.(g_distance), 0, false) entries)).
    { apply (foldl_inv scanned); [|by intros; apply scan_entry_ok]. split; [by rewrite length_replicate|]. split; [|split; [done|split; [done|done]]].
      intros cpu Hc. rewrite znth_replicate; lia. }
    destruct (foldl _ _ _) as [[[cpus rows] seen] any]. destruct Hs as (H1 & H2 & H3 & H4 & H5 & H6). set (n0 := MkNuma _ cpus rows _ _ _).
    assert (Hc : 1 <= n0.(g_node_count) <= V8M_NUMA_MAX_NODES /\ n0.(g_node_count) = Z.max seen 1) by (unfold n0, V8M_NUMA_MAX_NODES in *; cbn; destruct any; [pose proof (proj1 H6 eq_refl); lia|destruct (Z.le_gt_cases seen 0) as [|Hg]; [lia|discriminate (proj2 H6 Hg)]]).
    destruct Hc as [Hc Hm]. constructor.
    + exact Hc.
    + intros cpu Hcpu. unfold v8m_numa_node_for_cpu, v8m_numa_node_count. change (g_node_count (build_fallback_order n0)) with n0.(g_node_count). change (g_cpu_to_node (build_fallback_order n0)) with cpus.
      destruct (Z.leb_spec V8M_NUMA_MAX_CPUS cpu); [lia|]. rewrite Hm. by apply H2.
    + intros a b Ha Hb. by apply rows_distance.
    + intros from Hf. apply (v8m_numa_fallback_order n0 from); [lia|lia|]. apply Hf.
  - constructor; [done| |by intros; apply rows_distance|].
    + intros cpu Hcpu. unfold v8m_numa_node_for_cpu. cbn. destruct (Z.leb_spec V8M_NUMA_MAX_CPUS cpu); [lia|]. rewrite znth_replicate; lia.
    + intros from Hf. cbn in Hf. assert (from = 0) as -> by lia. assert (E : v8m_numa_fallback_node (read_nodes None n) 0 0 = 0) by exact (Hfb 0 0).
      change (let order := [v8m_numa_fallback_node (read_nodes None n) 0 0] in order ≡ₚ [0] /\ StronglySorted (fun a b => v8m_numa_node_distance (read_nodes None n) 0 a <= v8m_numa_node_distance (read_nodes None n) 0 b) order).
      cbn zeta. rewrite E. split; [done|]. repeat constructor.
Qed.

(** C36: Whatever the directory and its files hold, start-up leaves well-formed NUMA
    tables: 1 to 64 nodes, every CPU on one of them, distances of one byte, and for
    each node a fallback order that lists every node once, nearest first.  A later
    call changes nothing, whatever the directory then holds. *)
Theorem v8m_numa_init_ok dir n : length n.(g_distance) = 64%nat -> Forall byte_row n.(g_distance) -> (forall i j, znth (row n.(g_fallback) i) j = 0) ->
  let '(ready, n') := v8m_numa_init dir false n in tables_ok n' /\ forall dir', v8m_numa_init dir' ready n' = (ready, n').
Proof. intros Hl Hr Hfb. cbn. split; [by apply read_nodes_ok|done]. Qed.

(** Two nodes of two CPUs. *)
Definition ex_entries : list entry :=
  [MkEntry [46] None None;
   MkEntry [110; 111; 100; 101; 49] (Some [50; 45; 51; 10]) (Some [50; 48; 32; 49; 48; 10]);
   MkEntry [110; 111; 100; 101; 48] (Some [48; 45; 49; 10]) (Some [49; 48; 32; 50; 48; 10])].
Lemma static_rows : Forall byte_row numa0.(g_distance).
Proof. apply Forall_replicate. split; [done|]. apply Forall_replicate. lia. Qed.
Lemma v8m_numa_init_ok_witness :
  v8m_numa_node_count (read_nodes (Some ex_entries) numa0) = 2 /\ v8m_numa_node_for_cpu (read_nodes (Some ex_entries) numa0) 3 = 1 /\
  v8m_numa_fallback_node (read_nodes (Some ex_entries) numa0) 1 1 = 0 /\
  let '(ready, n') := v8m_numa_init (Some ex_entries) false numa0 in tables_ok n' /\ forall dir', v8m_numa_init dir' ready n' = (ready, n').
Proof.
  split; [vm_compute; reflexivity|]. split; [vm_compute; reflexivity|]. split; [vm_compute; reflexivity|]. apply (v8m_numa_init_ok (Some ex_entries) numa0 eq_refl static_rows).
  intros i j. unfold row. destruct (numa0.(g_fallback) !! Z.to_nat i) as [r|] eqn:E; [|unfold znth; cbn; by rewrite lookup_nil]. apply lookup_replicate in E as [-> _]. cbn [default]. apply (znth_Forall (fun x => x = 0)); [done|by apply Forall_replicate].
Defined.

(** Without distance files every distance is 0 and the orders are the identity:
    rank 0 of node 1 is node 0, and rank 1 is node 1 itself. *)
Definition no_distances : numa :=
  read_nodes (Some [MkEntry [110; 111; 100; 101; 48] (Some [48; 10]) None; MkEntry [110; 111; 100; 101; 49] (Some [49; 10]) None]) numa0.
Lemma fallback_not_self_first : v8m_numa_node_count no_distances = 2 /\ v8m_numa_fallback_node no_distances 1 0 = 0 /\ v8m_numa_fallback_node no_distances 1 1 = 1.
Proof. vm_compute. done. Qed.

End NumaInit.
