(* ===== verification/Os.v ===== *)
(** The operating system's memory calls, as the page heap uses them.

    [OS] names the calls and the set of mapped addresses; [OSLaws] states what
    their manual pages promise and the code relies on.  [log_os] is a concrete
    system that satisfies the laws. *)

From S2P Require Import Prelude.

Module Os.

(** The flag combinations of the source's [mmap] calls: plain anonymous memory, the
    [PROT_NONE] reservation, and the two huge-page sizes. *)
Inductive map_kind := MapAnon | MapReserve | MapHuge2M | MapHuge1G.
Inductive prot := ProtNone | ProtRW.
Inductive advice := AdvDontNeed | AdvHugePage | AdvNoHugePage.

#[export] Instance map_kind_eq_dec : EqDecision map_kind.
Proof. solve_decision. Defined.

Class OS := {
  os : Type;
  sysconf_pagesize : Z;
  mmap : os -> Z -> map_kind -> os * option Z;
  munmap : os -> Z -> Z -> os;
  mprotect : os -> Z -> Z -> prot -> os * bool;
  madvise : os -> Z -> Z -> advice -> os;
  mbind : os -> Z -> Z -> Z -> os * bool;
  mapped : os -> Z -> Prop
}.

(** [sysconf(_SC_PAGESIZE)] or 4096 when it fails. *)
Definition os_page_size `{OS} : Z := if 0 <? sysconf_pagesize then sysconf_pagesize else 4096.

Definition in_range (p n a : Z) : Prop := p <= a < p + n.

(** A length rounded up to whole system pages. *)
Definition page_up `{OS} (n : Z) : Z := os_page_size * ((n + (os_page_size - 1)) / os_page_size).

(** User addresses have 47 bits.  A mapping covers whole pages; [munmap] removes every page that contains a part
    of the range. *)
Class OSLaws `{OS} := {
  page_size_law : exists k, 12 <= k <= 16 /\ os_page_size = 2 ^ k;
  mmap_law : forall o n k o' p, mmap o n k = (o', Some p) -> 0 < n ->
    0 < p /\ p + page_up n < 2 ^ 64 /\ (os_page_size | p) /\
    (k = MapHuge2M -> (2 ^ 21 | p)) /\ (k = MapHuge1G -> (2 ^ 30 | p)) /\
    (forall a, in_range p (page_up n) a -> ~ mapped o a) /\
    (forall a, mapped o' a <-> mapped o a \/ in_range p (page_up n) a);
  mmap_none : forall o n k o' a, mmap o n k = (o', None) -> mapped o' a <-> mapped o a;
  munmap_pages : forall o p n a, (os_page_size | p) -> mapped (munmap o p n) a <-> mapped o a /\ ~ in_range p (page_up n) a;
  mprotect_law : forall o p n r a, mapped (fst (mprotect o p n r)) a <-> mapped o a;
  madvise_law : forall o p n r a, mapped (madvise o p n r) a <-> mapped o a;
  mbind_law : forall o p n r a, mapped (fst (mbind o p n r)) a <-> mapped o a;
  mapped_low : forall o a, mapped o a -> a < 2 ^ 47
}.

Section Laws.
Context `{OSL : OSLaws}.

Lemma page_size_pos : 0 < os_page_size.
Proof. destruct page_size_law as (k & Hk & ->). apply Z.pow_pos_nonneg; lia. Qed.

Lemma page_up_multiple n : (os_page_size | n) -> page_up n = n.
Proof.
  intros [q ->]. pose proof page_size_pos. unfold page_up.
  rewrite (Z.add_comm (q * _)), Z.div_add by lia. rewrite (Z.div_small (os_page_size - 1) os_page_size) by lia. lia.
Qed.

Lemma page_up_pos n : 0 < n -> n <= page_up n.
Proof.
  intros Hn. pose proof page_size_pos as Hp. unfold page_up. set (P := os_page_size) in *.
  pose proof (Z.div_mod (n + (P - 1)) P ltac:(lia)). pose proof (Z.mod_pos_bound (n + (P - 1)) P ltac:(lia)). lia.
Qed.

(** The laws for whole pages. *)
Lemma mmap_some o n k o' p : mmap o n k = (o', Some p) -> 0 < n -> (os_page_size | n) ->
  0 < p /\ p + n < 2 ^ 64 /\ (os_page_size | p) /\
  (k = MapHuge2M -> (2 ^ 21 | p)) /\ (k = MapHuge1G -> (2 ^ 30 | p)) /\
  (forall a, in_range p n a -> ~ mapped o a) /\
  (forall a, mapped o' a <-> mapped o a \/ in_range p n a).
Proof. intros Hm Hn Hd. pose proof (mmap_law o n k o' p Hm Hn) as Hl. by rewrite (page_up_multiple n Hd) in Hl. Qed.

Lemma munmap_law o p n a : (os_page_size | p) -> (os_page_size | n) ->
  mapped (munmap o p n) a <-> mapped o a /\ ~ in_range p n a.
Proof. intros Hp Hn. by rewrite munmap_pages, (page_up_multiple n Hn). Qed.

End Laws.

(** ** A system that satisfies the laws

    The log of map and unmap calls, the latest first; the latest call that covers
    an address decides.  New mappings go above everything mapped so far, below
    [2^47], on a 1 GiB boundary, or 2 MiB behind one for 2 MiB huge pages. *)

Definition os_log : Type := list (bool * Z * Z).

Fixpoint log_mapped (o : os_log) (a : Z) : Prop :=
  match o with
  | [] => False
  | (m, p, n) :: o => if decide (in_range p n a) then m = true else log_mapped o a
  end.

Fixpoint log_top (o : os_log) : Z :=
  match o with
  | [] => 0
  | (_, p, n) :: o => Z.max (p + n) (log_top o)
  end.

Definition log_up (n : Z) : Z := 4096 * ((n + 4095) / 4096).

Definition log_mmap (o : os_log) (n : Z) (k : map_kind) : os_log * option Z :=
  let p := (Z.max 0 (log_top o) / 2 ^ 30 + 1) * 2 ^ 30 + (if decide (k = MapHuge2M) then 2 ^ 21 else 0) in
  if p + log_up n <? 2 ^ 47 then ((true, p, log_up n) :: o, Some p) else (o, None).

#[export] Instance in_range_dec p n a : Decision (in_range p n a).
Proof. unfold in_range. apply _. Defined.

Lemma log_mapped_top o a : log_mapped o a -> a < log_top o.
Proof.
  induction o as [|[[m p] n] o IH]; cbn; [done|]. destruct (decide (in_range p n a)) as [Hr|_]; unfold in_range in *; [lia|].
  intros H%IH. lia.
Qed.

#[export] Instance log_os : OS := {|
  os := os_log;
  sysconf_pagesize := 4096;
  mmap := log_mmap;
  munmap o p n := (false, p, log_up n) :: o;
  mprotect o _ _ _ := (o, true);
  madvise o _ _ _ := o;
  mbind o _ _ _ := (o, true);
  mapped o a := log_mapped o a /\ a < 2 ^ 47
|}.

#[export] Instance log_os_laws : @OSLaws log_os.
Proof.
  constructor; cbn.
  - exists 12. split; [lia|reflexivity].
  - intros o n k o' p. change (page_up n) with (log_up n). unfold log_mmap. set (b := (Z.max 0 (log_top o) / 2 ^ 30 + 1)). set (n' := log_up n).
    set (off := if decide (k = MapHuge2M) then 2 ^ 21 else 0).
    assert (Hoff : off = 2 ^ 21 /\ k = MapHuge2M \/ off = 0) by (unfold off; destruct (decide (k = MapHuge2M)); auto).
    destruct (Z.ltb_spec (b * 2 ^ 30 + off + n') (2 ^ 47)) as [Hlt|]; [|done]. intros [= <- <-] Hn.
    assert (Hb : Z.max 0 (log_top o) < b * 2 ^ 30).
    { unfold b. pose proof (Z.div_mod (Z.max 0 (log_top o)) (2 ^ 30) ltac:(lia)).
      pose proof (Z.mod_pos_bound (Z.max 0 (log_top o)) (2 ^ 30) ltac:(lia)). lia. }
    split_and!; [lia|lia| | | | |].
    + unfold os_page_size, sysconf_pagesize. cbn. destruct Hoff as [[-> _]| ->]; [exists (b * 2 ^ 18 + 2 ^ 9)|exists (b * 2 ^ 18)]; lia.
    + intros _. destruct Hoff as [[-> _]| ->]; [exists (b * 2 ^ 9 + 1)|exists (b * 2 ^ 9)]; lia.
    + intros ->. destruct Hoff as [[_ ?]| ->]; [done|]. exists b. lia.
    + intros a Ha [Hm _]. apply log_mapped_top in Hm. unfold in_range in Ha. lia.
    + intros a. cbn. destruct (decide (in_range (b * 2 ^ 30 + off) n' a)) as [Hr|]; [|naive_solver]. unfold in_range in *. split; [tauto|]. intros _. split; [done|lia].
  - intros o n k o' a. unfold log_mmap. destruct (_ <? _); [done|]. by intros [= <-].
  - intros o p n a _. change (page_up n) with (log_up n). destruct (decide (in_range p (log_up n) a)); naive_solver.
  - done.
  - done.
  - done.
  - by intros o a [_ ?].
Qed.

End Os.
