(* ===== verification/Anchor.v ===== *)
(** The anchor reservation: [src/v8m_anchor_reservation.h] and [.c].

    One [PROT_NONE] mapping, carved front to back by committing ranges with
    [mprotect].  The lock makes each operation atomic; [pthread_mutex_init]'s
    result is the argument [mutex_rc].  Sizes and addresses are 64-bit words with
    the source's overflow tests. *)

From S2P Require Import Prelude Os.
Import Os.

Module Anchor.

Definition V8M_ANCHOR_DEFAULT_CAP_BYTES : Z := 256 * 1024 * 1024.
Definition EINVAL : Z := 22.
Definition ENOMEM : Z := 12.

Record v8m_anchor_reservation := MkAnchor {
  a_base : Z;
  a_cap : Z;
  a_bump_offset : Z;
  a_carve_calls : Z;
  a_carve_failures : Z;
  a_release_calls : Z
}.
Definition anchor0 : v8m_anchor_reservation := MkAnchor 0 0 0 0 0 0.

Definition round_up_pow2 (value alignment : Z) : Z :=
  if alignment <=? 1 then value else round_up_mask value alignment.

Section Ops.
Context `{OS}.

(** The descriptor, the system and the return code. *)
Definition v8m_anchor_reservation_init (o : os) (mutex_rc cap : Z) : os * v8m_anchor_reservation * Z :=
  let cap := if cap =? 0 then V8M_ANCHOR_DEFAULT_CAP_BYTES else cap in
  let cap := round_up_pow2 cap os_page_size in
  match mmap o cap MapReserve with
  | (o, None) => (o, anchor0, - ENOMEM)
  | (o, Some base) =>
      if negb (mutex_rc =? 0) then (munmap o base cap, anchor0, - mutex_rc)
      else (o, MkAnchor base cap 0 0 0 0, 0)
  end.

Definition v8m_anchor_reservation_destroy (o : os) (res : v8m_anchor_reservation) : os * v8m_anchor_reservation :=
  if res.(a_base) =? NULL then (o, res)
  else (munmap o res.(a_base) res.(a_cap), anchor0).

Definition fail_carve (res : v8m_anchor_reservation) : v8m_anchor_reservation :=
  MkAnchor res.(a_base) res.(a_cap) res.(a_bump_offset) res.(a_carve_calls)
    (u64 (res.(a_carve_failures) + 1)) res.(a_release_calls).

Definition v8m_anchor_reservation_carve (o : os) (res : v8m_anchor_reservation) (bytes alignment : Z)
  : os * v8m_anchor_reservation * Z :=
  if (res.(a_base) =? NULL) || (bytes =? 0) then (o, res, NULL)
  else
    let alignment := if alignment =? 0 then 1 else alignment in
    if negb (Z.land alignment (alignment - 1) =? 0) then (o, res, NULL)
    else
      let target := u64 (res.(a_base) + res.(a_bump_offset)) in
      let aligned_target := Z.land (u64 (target + (alignment - 1))) (u64 (Z.lnot (alignment - 1))) in
      if aligned_target <? target then (o, fail_carve res, NULL)
      else
        let aligned_offset := u64 (aligned_target - res.(a_base)) in
        if (res.(a_cap) <? aligned_offset) || (u64 (res.(a_cap) - aligned_offset) <? bytes)
        then (o, fail_carve res, NULL)
        else
          match mprotect o aligned_target bytes ProtRW with
          | (o, false) => (o, fail_carve res, NULL)
          | (o, true) =>
              (o, MkAnchor res.(a_base) res.(a_cap) (u64 (aligned_offset + bytes))
                    (u64 (res.(a_carve_calls) + 1)) res.(a_carve_failures) res.(a_release_calls),
               aligned_target)
          end.

Definition v8m_anchor_reservation_release (o : os) (res : v8m_anchor_reservation) (ptr bytes : Z)
  : os * v8m_anchor_reservation * bool :=
  if (res.(a_base) =? NULL) || (ptr =? NULL) || (bytes =? 0) then (o, res, false)
  else if (ptr <? res.(a_base)) || (res.(a_cap) <=? u64 (ptr - res.(a_base))) ||
          (u64 (res.(a_cap) - u64 (ptr - res.(a_base))) <? bytes) then (o, res, false)
  else
    let o := madvise o ptr bytes AdvDontNeed in
    let '(o, _) := mprotect o ptr bytes ProtNone in
    (o, MkAnchor res.(a_base) res.(a_cap) res.(a_bump_offset) res.(a_carve_calls)
          res.(a_carve_failures) (u64 (res.(a_release_calls) + 1)), true).

Definition v8m_anchor_reservation_owns (res : v8m_anchor_reservation) (ptr : Z) : bool :=
  if (res.(a_base) =? NULL) || (ptr =? NULL) then false
  else (res.(a_base) <=? ptr) && (u64 (ptr - res.(a_base)) <? res.(a_cap)).

Definition v8m_anchor_reservation_remaining (res : v8m_anchor_reservation) : Z :=
  if res.(a_base) =? NULL then 0
  else if res.(a_cap) <=? res.(a_bump_offset) then 0
  else u64 (res.(a_cap) - res.(a_bump_offset)).

(** ** The invariant *)

Record inv (res : v8m_anchor_reservation) : Prop := {
  i_base : 0 < res.(a_base);
  i_cap : 0 < res.(a_cap) /\ res.(a_base) + res.(a_cap) < 2 ^ 64;
  i_bump : 0 <= res.(a_bump_offset) <= res.(a_cap)
}.

Lemma fail_carve_inv res : inv res -> inv (fail_carve res).
Proof. by intros [? ? ?]. Qed.

(** [x & (x - 1) == 0] on a positive word. *)
Lemma pow2_test x : 0 < x -> Z.land x (x - 1) = 0 -> exists k, 0 <= k /\ x = 2 ^ k.
Proof.
  intros Hx He. exists (Z.log2 x). split; [apply Z.log2_nonneg|].
  pose proof (Z.log2_spec x Hx) as [Hl Hu]. set (k := Z.log2 x) in *. assert (0 <= k) by apply Z.log2_nonneg.
  destruct (Z.eq_dec x (2 ^ k)) as [|Hne]; [done|exfalso].
  assert (Hlog : Z.log2 (x - 1) = k).
  { apply Z.log2_unique; [done|]. rewrite Z.pow_succ_r in * by lia. lia. }
  assert (Hbit : Z.testbit (Z.land x (x - 1)) k = true).
  { rewrite Z.land_spec. unfold k at 1. rewrite Z.bit_log2 by done. rewrite <- Hlog. rewrite Z.bit_log2; [done|].
    assert (0 < 2 ^ k) by (apply Z.pow_pos_nonneg; lia). lia. }
  rewrite He, Z.bits_0 in Hbit. done.
Qed.

Lemma carve_aligned target k :
  0 <= target < 2 ^ 64 -> 0 <= k < 64 ->
  let al := Z.land (u64 (target + (2 ^ k - 1))) (u64 (Z.lnot (2 ^ k - 1))) in
  al < target \/ (target <= al < target + 2 ^ k /\ (2 ^ k | al) /\ al < 2 ^ 64).
Proof.
  intros Ht Hk al. assert (0 < 2 ^ k) by (apply Z.pow_pos_nonneg; lia).
  assert (2 ^ k < 2 ^ 64) by (apply Z.pow_lt_mono_r; lia). unfold al.
  pose proof (u64_range (target + (2 ^ k - 1))) as Hr. rewrite land_mask_clear by (done || lia).
  set (v := u64 (target + (2 ^ k - 1))) in *. pose proof (Z.mod_pos_bound v (2 ^ k) ltac:(lia)).
  unfold is_u64 in Hr. destruct (Z.lt_ge_cases (target + (2 ^ k - 1)) (2 ^ 64)) as [Hs|Hs].
  - right. assert (Hv : v = target + (2 ^ k - 1)) by (apply u64_small; unfold is_u64; lia).
    split_and!; [|lia| |lia].
    + pose proof (Z.mod_le v (2 ^ k) ltac:(lia) ltac:(lia)). lia.
    + apply Z.mod_divide; [lia|]. rewrite Zminus_mod_idemp_r, Z.sub_diag. done.
  - left. assert (Hv : v = target + (2 ^ k - 1) - 2 ^ 64); [|lia].
    unfold v, u64. rewrite <- (Z.mod_add _ (-1)) by lia. apply Z.mod_small. lia.
Qed.

(** A carve is an aligned range above everything carved before, inside the
    reservation; or it changes nothing but the failure count. *)
Lemma carve_spec o res bytes alignment :
  inv res -> 0 <= bytes < 2 ^ 64 -> 0 <= alignment < 2 ^ 64 ->
  let '(o', res', p) := v8m_anchor_reservation_carve o res bytes alignment in
  inv res' /\ res'.(a_base) = res.(a_base) /\ res'.(a_cap) = res.(a_cap) /\
  (p = NULL /\ res'.(a_bump_offset) = res.(a_bump_offset) /\
     (o' = o \/ exists q, o' = fst (mprotect o q bytes ProtRW)) \/
   p <> NULL /\ 0 < bytes /\ (0 < alignment -> (alignment | p)) /\
     res.(a_base) + res.(a_bump_offset) <= p /\ p + bytes <= res.(a_base) + res.(a_cap) /\
     res'.(a_bump_offset) = p + bytes - res.(a_base) /\ o' = fst (mprotect o p bytes ProtRW)).
Proof.
  intros [Hb [Hc0 Hc1] Hbu] Hby Hal. unfold v8m_anchor_reservation_carve.
  destruct (Z.eqb_spec res.(a_base) NULL); [unfold NULL in *; lia|].
  destruct (Z.eqb_spec bytes 0); cbn [orb]; [split; [by constructor|]; split; [done|]; split; [done|]; left; auto|].
  set (al := if alignment =? 0 then 1 else alignment).
  assert (Hal0 : 0 < al < 2 ^ 64 /\ (0 < alignment -> al = alignment)) by (unfold al; destruct (Z.eqb_spec alignment 0); lia).
  destruct (Z.eqb_spec (Z.land al (al - 1)) 0) as [Hp2|]; cbn [negb]; [|split; [by constructor|]; split; [done|]; split; [done|]; left; auto].
  destruct (pow2_test al ltac:(lia) Hp2) as (k & Hk & Hak).
  assert (k < 64). { destruct (Z.lt_ge_cases k 64); [done|]. assert (2 ^ 64 <= 2 ^ k) by (apply Z.pow_le_mono_r; lia). lia. }
  rewrite (u64_small (res.(a_base) + _)) by (unfold is_u64; lia). rewrite Hak.
  set (target := res.(a_base) + res.(a_bump_offset)).
  destruct (carve_aligned target k ltac:(unfold target; lia) ltac:(lia)) as [Hlt|(Hge & Hd & Hmax)];
    set (at_ := Z.land (u64 (target + (2 ^ k - 1))) (u64 (Z.lnot (2 ^ k - 1)))) in *.
  { destruct (Z.ltb_spec at_ target); [|lia]. split; [by apply fail_carve_inv; constructor|]. split; [done|]. split; [done|]. left. auto. }
  destruct (Z.ltb_spec at_ target); [lia|]. rewrite (u64_small (at_ - _)) by (unfold is_u64, target in *; lia).
  destruct (Z.ltb_spec res.(a_cap) (at_ - res.(a_base))); cbn [orb].
  { split; [by apply fail_carve_inv; constructor|]. split; [done|]. split; [done|]. left. auto. }
  rewrite (u64_small (res.(a_cap) - _)) by (unfold is_u64, target in *; lia).
  destruct (Z.ltb_spec (res.(a_cap) - (at_ - res.(a_base))) bytes).
  { split; [by apply fail_carve_inv; constructor|]. split; [done|]. split; [done|]. left. auto. }
  destruct (mprotect o at_ bytes ProtRW) as [o' ok] eqn:Hmp. destruct ok.
  - rewrite u64_small by (unfold is_u64, target in *; lia).
    split_and!; [constructor; cbn; unfold target in *; lia|done|done|]. right. cbn. unfold NULL, target in *.
    split_and!; [lia|lia| |lia|lia|lia|by rewrite Hmp]. intros Hpos. destruct Hal0 as [_ Hal0]. rewrite <- (Hal0 Hpos), Hak. done.
  - split; [by apply fail_carve_inv; constructor|]. split; [done|]. split; [done|]. left. split_and!; [done|done|]. right. exists at_. by rewrite Hmp.
Qed.

Lemma release_spec o res ptr bytes :
  inv res -> res.(a_base) <= ptr -> 0 < bytes -> ptr + bytes <= res.(a_base) + res.(a_cap) ->
  exists o' res', v8m_anchor_reservation_release o res ptr bytes = (o', res', true) /\ inv res' /\
    res'.(a_base) = res.(a_base) /\ res'.(a_cap) = res.(a_cap) /\ res'.(a_bump_offset) = res.(a_bump_offset) /\
    o' = fst (mprotect (madvise o ptr bytes AdvDontNeed) ptr bytes ProtNone).
Proof.
  intros I Hp Hby Hb. pose proof I as [Hb0 [Hc0 Hc1] Hbu]. unfold v8m_anchor_reservation_release, NULL.
  destruct (Z.eqb_spec res.(a_base) 0); [lia|]. destruct (Z.eqb_spec ptr 0); [lia|]. destruct (Z.eqb_spec bytes 0); [lia|].
  destruct (Z.ltb_spec ptr res.(a_base)); [lia|]. cbn [orb]. rewrite (u64_small (ptr - _)) by (unfold is_u64; lia).
  destruct (Z.leb_spec res.(a_cap) (ptr - res.(a_base))); [lia|]. cbn [orb]. rewrite u64_small by (unfold is_u64; lia).
  destruct (Z.ltb_spec (res.(a_cap) - (ptr - res.(a_base))) bytes); [lia|].
  destruct (mprotect (madvise o ptr bytes AdvDontNeed) ptr bytes ProtNone) as [o' ok].
  eexists _, _. split; [reflexivity|]. by split_and!.
Qed.

Lemma init_spec `{!OSLaws} o mutex_rc cap :
  0 <= cap -> cap + 2 ^ 16 < 2 ^ 64 ->
  let '(o', res, rc) := v8m_anchor_reservation_init o mutex_rc cap in
  (rc = 0 -> mutex_rc = 0 /\ inv res /\ (os_page_size | res.(a_base)) /\ (os_page_size | res.(a_cap)) /\ res.(a_bump_offset) = 0 /\ cap <= res.(a_cap) /\
     (forall a, in_range res.(a_base) res.(a_cap) a -> ~ mapped o a) /\
     (forall a, mapped o' a <-> mapped o a \/ in_range res.(a_base) res.(a_cap) a)) /\
  (rc <> 0 -> res = anchor0 /\ (forall a, mapped o' a <-> mapped o a)).
Proof.
  intros Hcap Hb. unfold v8m_anchor_reservation_init. destruct page_size_law as (k & Hk & Hpg). rewrite Hpg.
  set (c1 := if cap =? 0 then V8M_ANCHOR_DEFAULT_CAP_BYTES else cap).
  assert (Hc1 : 0 < c1 /\ cap <= c1 /\ c1 + 2 ^ 16 < 2 ^ 64).
  { unfold c1, V8M_ANCHOR_DEFAULT_CAP_BYTES. destruct (Z.eqb_spec cap 0); lia. }
  assert (2 ^ 12 <= 2 ^ k <= 2 ^ 16) by (split; apply Z.pow_le_mono_r; lia).
  unfold round_up_pow2. destruct (Z.leb_spec (2 ^ k) 1); [lia|].
  destruct (round_up_mask_bounds c1 k ltac:(lia) ltac:(lia) ltac:(lia)) as [Hdiv Hru].
  set (c2 := round_up_mask c1 (2 ^ k)) in *. assert (Hpc : (os_page_size | c2)) by (rewrite Hpg; exact Hdiv).
  destruct (mmap o c2 MapReserve) as [o1 [p|]] eqn:Hm.
  - destruct (mmap_some _ _ _ _ _ Hm ltac:(lia) Hpc) as (Hp & Hpn & Hpd & _ & _ & Hfree & Hmap).
    destruct (Z.eqb_spec mutex_rc 0) as [->|Hrc]; cbn [negb].
    + split; [|done]. intros _. split; [done|]. split; [constructor; cbn; lia|]. cbn [a_base a_cap a_bump_offset].
      split; [by rewrite <- Hpg|]. split; [exact Hdiv|]. split; [done|]. split; [lia|]. by split.
    + split; [lia|]. intros _. split; [done|]. intros a. rewrite munmap_law, Hmap by done. specialize (Hfree a). tauto.
  - split; [unfold ENOMEM; lia|]. intros _. split; [done|]. intros a. by eapply mmap_none.
Qed.

End Ops.
End Anchor.
