(* ===== verification/PageHeap.v ===== *)
(** The page heap: [src/v8m_page_heap.c].

    The state gathers the file's globals: the region map ([RegionMap]), the anchor
    reservation ([Anchor]), the NUMA accounting and suppression tables, the
    huge-page policy ([Refill]) and the statistics counters.  The operating system
    is the parameter [OS]; each call receives an environment with the options and
    the clock and CPU readings it makes.  The region lock and the relaxed atomics
    make each operation a single step. *)

From S2P Require Import Prelude Page Os Anchor RegionMap Numa Refill Config HugeSlab.
Import Page Os Anchor RegionMap Numa Refill Config HugeSlab.

Module PageHeap.

Definition V8M_GIGANTIC_BYTES : Z := 1024 * 1024 * 1024.

(** The 64-bit statistics counters. *)
Inductive counter :=
| v8m_mmap_calls | v8m_munmap_calls | v8m_advise_calls | v8m_bytes_mapped | v8m_bytes_unmapped
| v8m_peak_live_bytes | v8m_hugepage_advise_calls | v8m_hugetlb_alloc_calls | v8m_hugetlb_alloc_failures
| v8m_mbind_calls | v8m_mbind_failures | v8m_gigantic_alloc_calls | v8m_gigantic_alloc_failures
| v8m_anchor_carve_calls | v8m_anchor_carve_failures | v8m_numa_rebalance_diversions | v8m_numa_migration_calls.

#[export] Instance counter_eq_dec : EqDecision counter.
Proof. solve_decision. Defined.

Definition stats : Type := counter -> Z.
Definition put (s : stats) (c : counter) (v : Z) : stats := fun c' => if decide (c' = c) then v else s c'.
Definition add (s : stats) (c : counter) (v : Z) : stats := put s c (u64 (s c + v)).

(** The readings one call makes: options, two time stamps, the tick frequency,
    the CPU and the anchor mutex's initialisation result. *)
Record env := MkEnv { e_cfg : config; e_now : Z; e_now2 : Z; e_mhz : Z; e_cpu : Z; e_mutex_rc : Z }.

(** [struct v8m_page_heap_stats], the snapshot of the counters. *)
Record v8m_page_heap_stats := MkHeapStats {
  ps_mmap_calls : Z;
  ps_munmap_calls : Z;
  ps_advise_calls : Z;
  ps_bytes_mapped : Z;
  ps_bytes_unmapped : Z;
  ps_peak_live_bytes : Z;
  ps_hugepage_advise_calls : Z;
  ps_hugetlb_alloc_calls : Z;
  ps_hugetlb_alloc_failures : Z;
  ps_mbind_calls : Z;
  ps_mbind_failures : Z;
  ps_gigantic_alloc_calls : Z;
  ps_gigantic_alloc_failures : Z;
  ps_thp_promote_calls : Z;
  ps_thp_demote_calls : Z;
  ps_thp_ema_ticks : Z;
  ps_thp_cold_threshold_ticks : Z;
  ps_anchor_carve_calls : Z;
  ps_anchor_carve_failures : Z
}.

Section Heap.
Context `{OS}.

Record heap := MkHeap {
  h_os : os;
  h_map : region_map;
  h_anchor : option v8m_anchor_reservation;
  h_anchor_once : bool;
  h_stats : stats;
  h_thp : thp;
  h_numa : numa;
  h_node_bytes : list Z;
  h_suppressed : list bool
}.

Definition set_os (h : heap) (v : os) : heap :=
  MkHeap v h.(h_map) h.(h_anchor) h.(h_anchor_once) h.(h_stats) h.(h_thp) h.(h_numa) h.(h_node_bytes) h.(h_suppressed).
Definition set_map (h : heap) (v : region_map) : heap :=
  MkHeap h.(h_os) v h.(h_anchor) h.(h_anchor_once) h.(h_stats) h.(h_thp) h.(h_numa) h.(h_node_bytes) h.(h_suppressed).
Definition set_anchor (h : heap) (v : option v8m_anchor_reservation) : heap :=
  MkHeap h.(h_os) h.(h_map) v true h.(h_stats) h.(h_thp) h.(h_numa) h.(h_node_bytes) h.(h_suppressed).
Definition set_stats (h : heap) (v : stats) : heap :=
  MkHeap h.(h_os) h.(h_map) h.(h_anchor) h.(h_anchor_once) v h.(h_thp) h.(h_numa) h.(h_node_bytes) h.(h_suppressed).
Definition set_thp (h : heap) (v : thp) : heap :=
  MkHeap h.(h_os) h.(h_map) h.(h_anchor) h.(h_anchor_once) h.(h_stats) v h.(h_numa) h.(h_node_bytes) h.(h_suppressed).
Definition set_numa (h : heap) (v : numa) : heap :=
  MkHeap h.(h_os) h.(h_map) h.(h_anchor) h.(h_anchor_once) h.(h_stats) h.(h_thp) v h.(h_node_bytes) h.(h_suppressed).
Definition set_node_bytes (h : heap) (v : list Z) : heap :=
  MkHeap h.(h_os) h.(h_map) h.(h_anchor) h.(h_anchor_once) h.(h_stats) h.(h_thp) h.(h_numa) v h.(h_suppressed).
Definition set_suppressed (h : heap) (v : list bool) : heap :=
  MkHeap h.(h_os) h.(h_map) h.(h_anchor) h.(h_anchor_once) h.(h_stats) h.(h_thp) h.(h_numa) h.(h_node_bytes) v.
Definition count (h : heap) (c : counter) : heap := set_stats h (add h.(h_stats) c 1).

(** [anchor_get]: the [pthread_once] initialisation, then the reservation if it
    succeeded. *)
Definition anchor_get (h : heap) (e : env) : heap :=
  if h.(h_anchor_once) then h
  else
    let '(o, res, rc) := v8m_anchor_reservation_init h.(h_os) e.(e_mutex_rc) 0 in
    set_anchor (set_os h o) (if rc =? 0 then Some res else None).

Definition is_power_of_two (value : Z) : bool := negb (value =? 0) && (Z.land value (value - 1) =? 0).

Definition record_mmap (h : heap) (bytes : Z) : heap :=
  let s := add h.(h_stats) v8m_mmap_calls 1 in
  let s := add s v8m_bytes_mapped bytes in
  let mapped := s v8m_bytes_mapped in
  let unmapped := s v8m_bytes_unmapped in
  let live := if unmapped <? mapped then u64 (mapped - unmapped) else 0 in
  let s := if s v8m_peak_live_bytes <? live then put s v8m_peak_live_bytes live else s in
  set_stats h s.

Definition record_munmap (h : heap) (bytes : Z) : heap :=
  set_stats h (add (add h.(h_stats) v8m_munmap_calls 1) v8m_bytes_unmapped bytes).

Definition do_munmap (h : heap) (p n : Z) : heap := record_munmap (set_os h (munmap h.(h_os) p n)) n.

(** [reserve_aligned]: over-allocate by the alignment and trim both ends. *)
Definition reserve_aligned (h : heap) (bytes alignment : Z) : heap * Z :=
  if alignment <=? os_page_size then
    match mmap h.(h_os) bytes MapAnon with
    | (o, None) => (set_os h o, NULL)
    | (o, Some direct) => (record_mmap (set_os h o) bytes, direct)
    end
  else if u64 (SIZE_MAX - alignment) <? bytes then (h, NULL)
  else
    let request := u64 (bytes + alignment) in
    match mmap h.(h_os) request MapAnon with
    | (o, None) => (set_os h o, NULL)
    | (o, Some raw) =>
        let h := record_mmap (set_os h o) request in
        let aligned := Z.land (u64 (u64 (raw + alignment) - 1)) (u64 (Z.lnot (alignment - 1))) in
        let pre := u64 (aligned - raw) in
        let post := u64 (u64 (request - pre) - bytes) in
        let h := if 0 <? pre then do_munmap h raw pre else h in
        let h := if 0 <? post then do_munmap h (u64 (aligned + bytes)) post else h in
        (h, aligned)
    end.

(** The search for a non-suppressed neighbour in [bind_to_local_node]: ranks
    [rank .. node_count - 1]. *)
Fixpoint divert (ranks : list Z) (h : heap) (node node_count : Z) : option Z :=
  match ranks with
  | [] => None
  | rank :: ranks =>
      let alt := v8m_numa_fallback_node h.(h_numa) node rank in
      if (node_count <=? alt) || (alt =? node) then divert ranks h node node_count
      else if default false (h.(h_suppressed) !! Z.to_nat alt) then divert ranks h node node_count
      else Some alt
  end.

(** [bind_to_local_node]: [None] is the C [-1]. *)
Definition bind_to_local_node (h : heap) (e : env) (addr bytes : Z) : heap * option Z :=
  if v8m_config_get e.(e_cfg) V8M_OPT_NUMA_AWARE =? 0 then (h, None)
  else
    let node_count := v8m_numa_node_count h.(h_numa) in
    if node_count <=? 1 then (h, None)
    else
      let '(nu, node) := v8m_numa_current_node h.(h_numa) e.(e_cpu) in
      let h := set_numa h nu in
      if node_count <=? node then (h, None)
      else
        let '(h, node) :=
          if default false (h.(h_suppressed) !! Z.to_nat node) then
            match divert (seqZ 0 node_count) h node node_count with
            | Some alt => (count h v8m_numa_rebalance_diversions, alt)
            | None => (h, node)
            end
          else (h, node) in
        let h := count h v8m_mbind_calls in
        let '(o, ok) := mbind h.(h_os) addr bytes node in
        let h := set_os h o in
        if ok then (h, Some node) else (count h v8m_mbind_failures, None).

Definition bind_and_account (h : heap) (e : env) (addr bytes : Z) : heap :=
  match bind_to_local_node h e addr bytes with
  | (h, None) => h
  | (h, Some chosen) =>
      let h := set_map h (region_record_node h.(h_map) addr (u16 chosen)) in
      set_node_bytes h (zupd h.(h_node_bytes) chosen (u64 (znth h.(h_node_bytes) chosen + bytes)))
  end.

(** The pointer and [*used_anchor]. *)
Definition anchor_or_mmap (h : heap) (e : env) (bytes alignment : Z) : heap * Z * bool :=
  let try_mmap (h : heap) := let '(h, p) := reserve_aligned h bytes alignment in (h, p, false) in
  if V8M_HUGE_PAGE_SIZE <=? bytes then
    let h := anchor_get h e in
    match h.(h_anchor) with
    | None => try_mmap h
    | Some res =>
        let '(o, res, carved) := v8m_anchor_reservation_carve h.(h_os) res bytes alignment in
        let h := set_anchor (set_os h o) (Some res) in
        if negb (carved =? NULL) then (count h v8m_anchor_carve_calls, carved, true)
        else try_mmap (count h v8m_anchor_carve_failures)
    end
  else try_mmap h.

Definition try_gigantic (h : heap) (e : env) (bytes alignment : Z) : heap * Z :=
  if (bytes <? V8M_GIGANTIC_BYTES) || negb (Z.land bytes (V8M_GIGANTIC_BYTES - 1) =? 0) ||
     (alignment <? V8M_GIGANTIC_BYTES) || (v8m_config_get e.(e_cfg) V8M_OPT_HUGE_PAGES =? 0) then (h, NULL)
  else
    let h := count h v8m_gigantic_alloc_calls in
    match mmap h.(h_os) bytes MapHuge1G with
    | (o, Some gigantic) => (set_os h o, gigantic)
    | (o, None) => (count (set_os h o) v8m_gigantic_alloc_failures, NULL)
    end.

Definition try_hugetlb (h : heap) (e : env) (bytes alignment : Z) : heap * Z :=
  if (bytes <? V8M_HUGE_PAGE_SIZE) || negb (Z.land bytes (V8M_HUGE_PAGE_SIZE - 1) =? 0) ||
     (alignment <? V8M_HUGE_PAGE_SIZE) || (v8m_config_get e.(e_cfg) V8M_OPT_HUGE_PAGES =? 0) then (h, NULL)
  else
    let h := count h v8m_hugetlb_alloc_calls in
    match mmap h.(h_os) bytes MapHuge2M with
    | (o, Some huge) => (set_os h o, huge)
    | (o, None) => (count (set_os h o) v8m_hugetlb_alloc_failures, NULL)
    end.

Definition register_and_bind_mmap (h : heap) (e : env) (ptr bytes : Z) : heap * Z :=
  let h := record_mmap h bytes in
  match region_register h.(h_map) ptr bytes with
  | None => (do_munmap h ptr bytes, NULL)
  | Some rm => (bind_and_account (set_map h rm) e ptr bytes, ptr)
  end.

(** The huge-page hint of a freshly registered region. *)
Definition advise_thp (h : heap) (e : env) (result bytes : Z) (used_anchor : bool) : heap :=
  if (V8M_HUGE_PAGE_SIZE <=? bytes) && negb (v8m_config_get e.(e_cfg) V8M_OPT_HUGE_PAGES =? 0) then
    let '(t, advice) := v8m_thp_decide_and_record h.(h_thp) e.(e_now) e.(e_mhz) in
    let h := set_thp h t in
    match advice with
    | V8M_THP_DEMOTE =>
        let h := set_os h (madvise h.(h_os) result bytes AdvNoHugePage) in
        set_thp h (v8m_thp_record_demote h.(h_thp))
    | V8M_THP_PROMOTE =>
        let h := count (set_os h (madvise h.(h_os) result bytes AdvHugePage)) v8m_hugepage_advise_calls in
        let h := set_thp h (v8m_thp_record_promote h.(h_thp)) in
        if used_anchor then h else set_map h (region_record_promote h.(h_map) result e.(e_now2))
    end
  else h.

Definition v8m_page_heap_alloc (h : heap) (e : env) (bytes alignment : Z) : heap * Z :=
  if (bytes =? 0) || (alignment <? V8M_PAGE_SIZE) || negb (is_power_of_two alignment) then (h, NULL)
  else
    let '(h, gigantic) := try_gigantic h e bytes alignment in
    if negb (gigantic =? NULL) then register_and_bind_mmap h e gigantic bytes
    else
      let '(h, huge) := try_hugetlb h e bytes alignment in
      if negb (huge =? NULL) then register_and_bind_mmap h e huge bytes
      else
        let '(h, result, used_anchor) := anchor_or_mmap h e bytes alignment in
        if result =? NULL then (h, NULL)
        else
          match region_register_with_flags h.(h_map) result bytes used_anchor with
          | None =>
              if used_anchor then
                match h.(h_anchor) with
                | Some res =>
                    let '(o, res, _) := v8m_anchor_reservation_release h.(h_os) res result bytes in
                    (set_anchor (set_os h o) (Some res), NULL)
                | None => (h, NULL)
                end
              else (do_munmap h result bytes, NULL)
          | Some rm =>
              let h := advise_thp (set_map h rm) e result bytes used_anchor in
              (bind_and_account h e result bytes, result)
          end.

Definition v8m_page_heap_free (h : heap) (ptr bytes : Z) : heap :=
  if (ptr =? NULL) || (bytes =? 0) then h
  else
    let '(rm, node, is_anchor) := region_unregister_with_flags h.(h_map) ptr in
    let h := set_map h rm in
    let h := if negb (node =? V8M_REGION_NODE_UNBOUND) && (node <? V8M_NUMA_MAX_NODES)
             then set_node_bytes h (zupd h.(h_node_bytes) node (u64 (znth h.(h_node_bytes) node - bytes)))
             else h in
    if is_anchor then
      match h.(h_anchor) with
      | Some res =>
          let '(o, res, _) := v8m_anchor_reservation_release h.(h_os) res ptr bytes in
          set_anchor (set_os h o) (Some res)
      | None => h
      end
    else do_munmap h ptr bytes.

Definition v8m_page_heap_advise_dont_need (h : heap) (ptr bytes : Z) : heap :=
  if (ptr =? NULL) || (bytes =? 0) then h
  else count (set_os h (madvise h.(h_os) ptr bytes AdvDontNeed)) v8m_advise_calls.

Definition v8m_page_heap_reset_peak (h : heap) : heap :=
  let mapped := h.(h_stats) v8m_bytes_mapped in
  let unmapped := h.(h_stats) v8m_bytes_unmapped in
  let live := if unmapped <? mapped then u64 (mapped - unmapped) else 0 in
  set_stats h (put h.(h_stats) v8m_peak_live_bytes live).

(** [v8m_page_heap_thp_age_sweep]: the loop over the map; the number demoted. *)
Fixpoint age_sweep (idx : list Z) (h : heap) (threshold now demoted : Z) : heap * Z :=
  match idx with
  | [] => (h, demoted)
  | i :: idx =>
      let region := region_at h.(h_map) i in
      let promoted_at := region.(r_promoted_at_tsc) in
      if (promoted_at =? 0) || (now <=? promoted_at) || (u64 (now - promoted_at) <? threshold)
      then age_sweep idx h threshold now demoted
      else
        let bytes := u64 (region.(r_end) - region.(r_start)) in
        let h := set_map h (update_region h.(h_map) i (fun r => set_promoted r 0)) in
        let h := set_os h (madvise h.(h_os) region.(r_start) bytes AdvNoHugePage) in
        let h := set_thp h (v8m_thp_record_age_demote h.(h_thp)) in
        age_sweep idx h threshold now (demoted + 1)
  end.
Definition v8m_page_heap_thp_age_sweep (h : heap) (e : env) : heap * Z :=
  let '(t, threshold) := v8m_thp_cold_threshold_ticks h.(h_thp) e.(e_mhz) in
  age_sweep (seqZ 0 (g_region_count h.(h_map))) (set_thp h t) threshold e.(e_now) 0.

(** [struct v8m_numa_balance_stats]. *)
Record numa_balance := MkBalance {
  node_count : Z;
  per_node_bytes : list Z;
  total_bytes : Z;
  most_loaded_node : Z;
  most_loaded_bytes : Z;
  average_bytes_per_node : Z;
  imbalanced : bool
}.

(** The accumulation loop over the nodes: total, most, most_node. *)
Fixpoint balance_loop (nodes : list Z) (bytes : list Z) (total most most_node : Z) : Z * Z * Z :=
  match nodes with
  | [] => (total, most, most_node)
  | node :: nodes =>
      let b := znth bytes node in
      let total := u64 (total + b) in
      if most <? b then balance_loop nodes bytes total b node else balance_loop nodes bytes total most most_node
  end.

Definition v8m_page_heap_get_numa_balance (h : heap) : numa_balance :=
  let node_count := v8m_numa_node_count h.(h_numa) in
  let node_count := if V8M_NUMA_MAX_NODES <? node_count then V8M_NUMA_MAX_NODES else node_count in
  let '(total, most, most_node) := balance_loop (seqZ 0 node_count) h.(h_node_bytes) 0 0 0 in
  let average := if 0 <? node_count then total / node_count else 0 in
  let imbalanced := (2 <=? node_count) && (u64 (average * 3) <? u64 (most * 2)) in
  MkBalance node_count (znth h.(h_node_bytes) <$> seqZ 0 node_count) total most_node most average imbalanced.

(** [migrate_one_region]: the first region of [from_node] is re-stamped; the
    [move_pages] call itself does not change what the heap knows. *)
Definition migrate_one_region (h : heap) (from_node to_node : Z) : heap * bool :=
  match list_find (fun r => r.(r_node) = from_node) h.(h_map).(g_regions) with
  | None => (h, false)
  | Some (i, r) =>
      let h := set_map h (update_region h.(h_map) (Z.of_nat i) (fun r => set_node r (u16 to_node))) in
      if (r.(r_start) =? 0) || (u64 (r.(r_end) - r.(r_start)) =? 0) then (h, false)
      else (count h v8m_numa_migration_calls, true)
  end.

(** The suppression flags for nodes [0 .. cap - 1]; the number that flipped. *)
Fixpoint suppress_loop (nodes : list Z) (over_node : option Z) (flags : list bool) (flipped : Z) : list bool * Z :=
  match nodes with
  | [] => (flags, flipped)
  | node :: nodes =>
      let over := bool_decide (over_node = Some node) in
      let was := default false (flags !! Z.to_nat node) in
      suppress_loop nodes over_node (<[Z.to_nat node := over]> flags) (if Bool.eqb was over then flipped else flipped + 1)
  end.

Definition v8m_page_heap_numa_rebalance (h : heap) : heap * Z :=
  let snap := v8m_page_heap_get_numa_balance h in
  if snap.(node_count) <=? 1 then (h, 0)
  else
    let cap := if V8M_NUMA_MAX_NODES <? snap.(node_count) then V8M_NUMA_MAX_NODES else snap.(node_count) in
    let over := if snap.(imbalanced) then Some snap.(most_loaded_node) else None in
    let '(flags, flipped) := suppress_loop (seqZ 0 cap) over h.(h_suppressed) 0 in
    let h := set_suppressed h flags in
    let h := if snap.(imbalanced) then
               let fallback := v8m_numa_fallback_node h.(h_numa) snap.(most_loaded_node) 1 in
               if (fallback <? V8M_NUMA_MAX_NODES) && negb (fallback =? snap.(most_loaded_node))
               then fst (migrate_one_region h (u16 snap.(most_loaded_node)) fallback) else h
             else h in
    (h, flipped).

Definition v8m_page_heap_node_is_suppressed (h : heap) (node : Z) : bool :=
  if V8M_NUMA_MAX_NODES <=? node then false else default false (h.(h_suppressed) !! Z.to_nat node).

(** The threshold is read without computing it. *)
Definition v8m_page_heap_get_stats (h : heap) : v8m_page_heap_stats :=
  let s := h.(h_stats) in let t := h.(h_thp) in
  MkHeapStats (s v8m_mmap_calls) (s v8m_munmap_calls) (s v8m_advise_calls) (s v8m_bytes_mapped) (s v8m_bytes_unmapped)
    (s v8m_peak_live_bytes) (s v8m_hugepage_advise_calls) (s v8m_hugetlb_alloc_calls) (s v8m_hugetlb_alloc_failures)
    (s v8m_mbind_calls) (s v8m_mbind_failures) (s v8m_gigantic_alloc_calls) (s v8m_gigantic_alloc_failures)
    t.(thp_promotes) t.(thp_demotes) t.(thp_ema) t.(thp_cold_threshold) (s v8m_anchor_carve_calls) (s v8m_anchor_carve_failures).
Definition v8m_page_heap_numa_rebalance_diversions (h : heap) : Z := h.(h_stats) v8m_numa_rebalance_diversions.
Definition v8m_page_heap_numa_migration_calls (h : heap) : Z := h.(h_stats) v8m_numa_migration_calls.
Definition v8m_page_heap_thp_age_demote_calls (h : heap) : Z := h.(h_thp).(thp_age_demotes).

End Heap.

End PageHeap.
