(* ===== verification/PageHeapSpec.v ===== *)
(** What the page heap promises ([PageHeap]): the heap invariant, the effect of
    [v8m_page_heap_alloc] and [v8m_page_heap_free] on the set of regions and on the
    mapped addresses, the per-node accounting and the NUMA rebalance. *)

From S2P Require Import Prelude Page Os Anchor RegionMap Numa Refill Config HugeSlab PageHeap.
Import Page Os Anchor RegionMap Numa Refill Config HugeSlab PageHeap.

Module PageHeapSpec.

Section Spec.
Context `{OSL : OSLaws}.

(** ** The invariant *)

Definition reserved (anc : option v8m_anchor_reservation) (a : Z) : Prop :=
  match anc with Some res => in_range res.(a_base) res.(a_cap) a | None => False end.

(** Anchor regions were carved from the reservation, the others lie outside it;
    all are whole system pages. *)
Definition region_ok (anc : option v8m_anchor_reservation) (e : region_entry) : Prop :=
  (os_page_size | e.(r_start)) /\ (os_page_size | e.(r_end)) /\
  if e.(r_is_anchor) then exists res, anc = Some res /\ res.(a_base) <= e.(r_start) /\ e.(r_end) <= res.(a_base) + res.(a_bump_offset)
  else forall a, in_region e a -> ~ reserved anc a.

Record rinv (rm : region_map) (o : os) (anc : option v8m_anchor_reservation) (once : bool) : Prop := {
  i_wf : wf rm;
  i_region : Forall (region_ok anc) rm.(g_regions);
  i_mapped : forall a, owned rm a \/ reserved anc a -> mapped o a;
  i_anchor : match anc with Some res => Anchor.inv res /\ once = true | None => True end
}.

Definition hinv (h : heap) : Prop := rinv h.(h_map) h.(h_os) h.(h_anchor) h.(h_anchor_once).

(** Mapped memory the heap knows nothing of. *)
Definition foreign (h : heap) (a : Z) : Prop :=
  mapped h.(h_os) a /\ ~ owned h.(h_map) a /\ ~ reserved h.(h_anchor) a.

(** The registered ranges. *)
Definition range_of (e : region_entry) : Z * Z := (e.(r_start), e.(r_end)).
Definition ranges (h : heap) : list (Z * Z) := range_of <$> h.(h_map).(g_regions).

(** ** Steps that keep regions, reservation and mapped addresses *)

Record framed (h h' : heap) : Prop := {
  f_wf : wf h.(h_map) -> wf h'.(h_map);
  f_same : Forall2 same_range h.(h_map).(g_regions) h'.(h_map).(g_regions);
  f_mapped : forall a, mapped h'.(h_os) a <-> mapped h.(h_os) a;
  f_anchor : h'.(h_anchor) = h.(h_anchor);
  f_once : h'.(h_anchor_once) = h.(h_anchor_once)
}.

Lemma same_range_refl (l : list region_entry) : Forall2 same_range l l.
Proof. induction l; constructor; [done|done]. Qed.

#[local] Instance same_range_pre : PreOrder same_range.
Proof. split; [done|]. intros x y z (?&?&?) (?&?&?). unfold same_range. split_and!; congruence. Qed.

#[local] Instance framed_pre : PreOrder framed.
Proof.
  split.
  - intros h. constructor; [done|apply same_range_refl|done|done|done].
  - intros h1 h2 h3 [A1 A2 A3 A4 A5] [B1 B2 B3 B4 B5]. constructor.
    + auto.
    + by etransitivity.
    + intros a. rewrite B3. apply A3.
    + congruence.
    + congruence.
Qed.

Lemma framed_ranges h h' : framed h h' -> ranges h' = ranges h.
Proof.
  intros F. unfold ranges. destruct F as [_ F2 _ _ _]. induction F2 as [|x y l l' (Hs & He & _) _ IH]; [done|].
  cbn. rewrite IH. unfold range_of. by rewrite Hs, He.
Qed.

Lemma same_owned rm rm' p : Forall2 same_range rm.(g_regions) rm'.(g_regions) -> owned rm' p <-> owned rm p.
Proof.
  intros H2. unfold owned. split.
  - intros (e & [n Hn]%list_elem_of_lookup_1 & Hin). destruct (Forall2_lookup_r _ _ _ _ _ H2 Hn) as (y & Hy & Hs & He & _).
    exists y. split; [by eapply list_elem_of_lookup_2|]. unfold in_region in *. lia.
  - intros (e & [n Hn]%list_elem_of_lookup_1 & Hin). destruct (Forall2_lookup_l _ _ _ _ _ H2 Hn) as (y & Hy & Hs & He & _).
    exists y. split; [by eapply list_elem_of_lookup_2|]. unfold in_region in *. lia.
Qed.

Lemma framed_hinv h h' : framed h h' -> hinv h -> hinv h'.
Proof.
  intros F [W R M A]. pose proof F as [F1 F2 F3 F4 F5]. unfold hinv. rewrite F4, F5. constructor; [auto| | |done].
  - clear -R F2. induction F2 as [|x y l l' (Hs & He & Ha) _ IH]; [done|]. apply Forall_cons in R as [Rx R].
    constructor; [|auto]. unfold region_ok, in_region in *. by rewrite <- Hs, <- He, <- Ha.
  - intros a Ha. apply F3, M. rewrite (same_owned _ _ a F2) in Ha. done.
Qed.

Lemma framed_foreign h h' a : framed h h' -> foreign h' a <-> foreign h a.
Proof. intros [F1 F2 F3 F4 F5]. unfold foreign. by rewrite F3, F4, (same_owned _ _ a F2). Qed.

Lemma framed_intro h h' :
  h'.(h_map) = h.(h_map) -> (forall a, mapped h'.(h_os) a <-> mapped h.(h_os) a) ->
  h'.(h_anchor) = h.(h_anchor) -> h'.(h_anchor_once) = h.(h_anchor_once) -> framed h h'.
Proof. intros E Hm Ha Ho. constructor; rewrite ?E; auto using same_range_refl. Qed.

Lemma framed_stats h s : framed h (set_stats h s).
Proof. by apply framed_intro. Qed.
Lemma framed_count h c : framed h (count h c).
Proof. by apply framed_intro. Qed.
Lemma framed_thp h t : framed h (set_thp h t).
Proof. by apply framed_intro. Qed.
Lemma framed_numa h t : framed h (set_numa h t).
Proof. by apply framed_intro. Qed.
Lemma framed_node_bytes h t : framed h (set_node_bytes h t).
Proof. by apply framed_intro. Qed.
Lemma framed_record_mmap h n : framed h (record_mmap h n).
Proof. by apply framed_intro. Qed.
Lemma framed_record_munmap h n : framed h (record_munmap h n).
Proof. by apply framed_intro. Qed.
Lemma framed_os h o : (forall a, mapped o a <-> mapped h.(h_os) a) -> framed h (set_os h o).
Proof. intros Ho. by apply framed_intro. Qed.
Lemma framed_update h i f : (forall e, same_range e (f e)) -> framed h (set_map h (update_region h.(h_map) i f)).
Proof. intros Hf. constructor; [by apply update_wf|by apply update_same_range|done|done|done]. Qed.
Lemma framed_record_node h p n : framed h (set_map h (region_record_node h.(h_map) p n)).
Proof. unfold region_record_node. destruct (_ =? _); [by destruct h|by apply framed_update]. Qed.
Lemma framed_record_promote h p n : framed h (set_map h (region_record_promote h.(h_map) p n)).
Proof. unfold region_record_promote. destruct (_ =? _); [by destruct h|by apply framed_update]. Qed.

#[local] Hint Resolve framed_stats framed_count framed_thp framed_numa framed_node_bytes framed_record_mmap
  framed_record_munmap framed_update framed_record_node framed_record_promote : v8m.

Ltac chain_framed := repeat (etransitivity; [|solve [auto with v8m]]); try reflexivity.

Lemma framed_bind h e addr bytes : framed h (bind_and_account h e addr bytes).
Proof.
  unfold bind_and_account, bind_to_local_node. destruct (_ =? 0); [done|]. destruct (_ <=? 1); [done|].
  destruct (v8m_numa_current_node _ _) as [nu node]. destruct (_ <=? _); [auto with v8m|].
  assert (Hd : framed h (fst (if default false (h_suppressed (set_numa h nu) !! Z.to_nat node) then
            match divert (seqZ 0 (v8m_numa_node_count h.(h_numa))) (set_numa h nu) node (v8m_numa_node_count h.(h_numa)) with
            | Some alt => (count (set_numa h nu) v8m_numa_rebalance_diversions, alt)
            | None => (set_numa h nu, node)
            end else (set_numa h nu, node)))).
  { destruct (default _ _); [destruct (divert _ _ _ _)|]; cbn [fst]; chain_framed. }
  revert Hd. match goal with |- framed _ (fst ?x) -> _ => destruct x as [h1 node1] end. cbn [fst]. intros Hd.
  destruct (mbind _ _ _ _) as [o ok] eqn:Hmb.
  assert (Ho : framed (count h1 v8m_mbind_calls) (set_os (count h1 v8m_mbind_calls) o)).
  { apply framed_os. intros a. pose proof (mbind_law h1.(h_os) addr bytes node1 a) as Hl. cbn in Hmb |- *. by rewrite Hmb in Hl. }
  destruct ok; (etransitivity; [exact Hd|]); (etransitivity; [apply framed_count|]).
  - etransitivity; [exact Ho|]. etransitivity; [apply framed_record_node|apply framed_node_bytes].
  - etransitivity; [exact Ho|apply framed_count].
Qed.

Lemma framed_advise_thp h e result bytes used : framed h (advise_thp h e result bytes used).
Proof.
  unfold advise_thp. destruct (_ && _); [|done]. destruct (v8m_thp_decide_and_record _ _ _) as [t adv].
  assert (Ho : forall h1 adv, framed h1 (set_os h1 (madvise h1.(h_os) result bytes adv))).
  { intros h1 ad. apply framed_os. intros a. apply madvise_law. }
  destruct adv.
  - assert (Hp : forall t' h1, framed h h1 -> framed h (set_thp (count h1 v8m_hugepage_advise_calls) t')).
    { intros t' h1 H1. etransitivity; [exact H1|]. by etransitivity; [apply framed_count|apply framed_thp]. }
    destruct used; [|etransitivity; [|apply framed_record_promote]]; apply Hp; (etransitivity; [apply framed_thp|apply Ho]).
  - etransitivity; [apply framed_thp|]. etransitivity; [apply Ho|apply framed_thp].
Qed.

(** ** Obtaining memory *)

(** A fresh mapping: nothing of the range was mapped, and it is all that is added. *)
Definition fresh_mapping (o o' : os) (p n : Z) : Prop :=
  0 < p /\ p + n < 2 ^ 64 /\ (os_page_size | p) /\ (forall a, in_range p n a -> ~ mapped o a) /\
  (forall a, mapped o' a <-> mapped o a \/ in_range p n a).

Lemma page_size_divides n : (V8M_PAGE_SIZE | n) -> (os_page_size | n).
Proof.
  destruct page_size_law as (k & Hk & ->). intros Hn. eapply Z.divide_trans; [|exact Hn].
  change V8M_PAGE_SIZE with (2 ^ 16). exists (2 ^ (16 - k)). rewrite <- Z.pow_add_r by lia. f_equal. lia.
Qed.

Lemma page_size_divides_pow2 k : 16 <= k -> (os_page_size | 2 ^ k).
Proof.
  intros Hk. apply page_size_divides. change V8M_PAGE_SIZE with (2 ^ 16). exists (2 ^ (k - 16)).
  rewrite <- Z.pow_add_r by lia. f_equal. lia.
Qed.

Lemma page_size_bounds : 4096 <= os_page_size <= 65536.
Proof.
  destruct page_size_law as (k & Hk & ->). split; [apply (Z.pow_le_mono_r 2 12 k)|apply (Z.pow_le_mono_r 2 k 16)]; lia.
Qed.

Lemma is_power_of_two_spec x : 0 < x < 2 ^ 64 -> is_power_of_two x = true -> exists k, 0 <= k < 64 /\ x = 2 ^ k.
Proof.
  intros Hx. unfold is_power_of_two. rewrite andb_true_iff, negb_true_iff, Z.eqb_eq. intros [_ Hl].
  destruct (pow2_test x ltac:(lia) Hl) as (k & Hk & ->). exists k. split; [|done]. split; [done|].
  destruct (Z.lt_ge_cases k 64); [done|]. assert (2 ^ 64 <= 2 ^ k) by (apply Z.pow_le_mono_r; lia). lia.
Qed.

(** The aligned address inside an over-sized mapping. *)
Lemma align_up_spec raw k :
  0 <= k < 64 -> 0 < raw -> raw + 2 ^ k < 2 ^ 64 ->
  let al := Z.land (u64 (u64 (raw + 2 ^ k) - 1)) (u64 (Z.lnot (2 ^ k - 1))) in
  raw <= al < raw + 2 ^ k /\ (2 ^ k | al).
Proof.
  intros Hk Hr Hb. assert (0 < 2 ^ k) by (apply Z.pow_pos_nonneg; lia). cbn zeta.
  rewrite (u64_small (raw + _)) by (unfold is_u64; lia). rewrite u64_small by (unfold is_u64; lia).
  rewrite land_mask_clear by (unfold is_u64; lia). replace (raw + 2 ^ k - 1) with (raw + (2 ^ k - 1)) by lia.
  pose proof (Z.mod_pos_bound (raw + (2 ^ k - 1)) (2 ^ k) ltac:(lia)). split; [lia|].
  apply Z.mod_divide; [lia|]. rewrite Zminus_mod_idemp_r, Z.sub_diag. done.
Qed.

Lemma do_munmap_mapped h p n a : (os_page_size | p) -> (os_page_size | n) ->
  mapped (do_munmap h p n).(h_os) a <-> mapped h.(h_os) a /\ ~ in_range p n a.
Proof. intros. cbn. by apply munmap_law. Qed.

(** Only the operating system's state and the statistics change. *)
Definition os_step (h h' : heap) : Prop :=
  h'.(h_map) = h.(h_map) /\ h'.(h_anchor) = h.(h_anchor) /\ h'.(h_anchor_once) = h.(h_anchor_once).

Lemma reserve_aligned_spec h bytes k :
  0 < bytes < 2 ^ 64 -> (V8M_PAGE_SIZE | bytes) -> 16 <= k < 64 ->
  let '(h', p) := reserve_aligned h bytes (2 ^ k) in
  os_step h h' /\
  (p = NULL /\ (forall a, mapped h'.(h_os) a <-> mapped h.(h_os) a) \/
   fresh_mapping h.(h_os) h'.(h_os) p bytes /\ (2 ^ k | p)).
Proof.
  intros Hb Hd Hk. pose proof (page_size_divides _ Hd) as Hpb. pose proof page_size_bounds as Hps.
  assert (Hk16 : 2 ^ 16 <= 2 ^ k) by (apply Z.pow_le_mono_r; lia).
  assert (Hk64 : 2 ^ k < 2 ^ 64) by (apply Z.pow_lt_mono_r; lia).
  pose proof (page_size_divides_pow2 k ltac:(lia)) as Hpk. unfold reserve_aligned.
  destruct (Z.leb_spec (2 ^ k) os_page_size) as [Hle|Hgt].
  { assert (Heq : 2 ^ k = os_page_size) by lia.
    destruct (mmap h.(h_os) bytes MapAnon) as [o [p|]] eqn:Hm.
    - destruct (mmap_some _ _ _ _ _ Hm ltac:(lia) Hpb) as (Hp & Hpn & Hpd & _ & _ & Hfree & Hmap).
      split; [done|]. right. split; [done|]. by rewrite Heq.
    - split; [done|]. left. split; [done|]. intros a. by eapply mmap_none. }
  unfold SIZE_MAX. rewrite (u64_small (2 ^ 64 - 1 - 2 ^ k)) by (unfold is_u64; lia).
  destruct (Z.ltb_spec (2 ^ 64 - 1 - 2 ^ k) bytes); [split; [done|]; by left|].
  rewrite (u64_small (bytes + 2 ^ k)) by (unfold is_u64; lia).
  destruct (mmap h.(h_os) (bytes + 2 ^ k) MapAnon) as [o [raw|]] eqn:Hm.
  2: { split; [done|]. left. split; [done|]. intros a. by eapply mmap_none. }
  destruct (mmap_some _ _ _ _ _ Hm ltac:(lia) ltac:(by apply Z.divide_add_r)) as (Hp & Hpn & Hpd & _ & _ & Hfree & Hmap).
  destruct (align_up_spec raw k ltac:(lia) Hp ltac:(lia)) as [Har Had].
  set (al := Z.land (u64 (u64 (raw + 2 ^ k) - 1)) (u64 (Z.lnot (2 ^ k - 1)))) in *.
  rewrite (u64_small (al - raw)) by (unfold is_u64; lia).
  rewrite (u64_small (bytes + 2 ^ k - (al - raw))) by (unfold is_u64; lia).
  rewrite (u64_small (bytes + 2 ^ k - (al - raw) - bytes)) by (unfold is_u64; lia).
  rewrite (u64_small (al + bytes)) by (unfold is_u64; lia).
  set (h1 := record_mmap (set_os h o) (bytes + 2 ^ k)).
  assert (Hpa : (os_page_size | al)) by (exact (Z.divide_trans _ _ _ Hpk Had)).
  set (h2 := if 0 <? al - raw then do_munmap h1 raw (al - raw) else h1).
  assert (H2 : os_step h h2 /\ forall a, mapped h2.(h_os) a <-> mapped h1.(h_os) a /\ ~ in_range raw (al - raw) a).
  { unfold h2. destruct (Z.ltb_spec 0 (al - raw)).
    - split; [done|]. intros a. apply do_munmap_mapped; [done|by apply Z.divide_sub_r].
    - split; [done|]. intros a. unfold in_range. assert (~ raw <= a < raw + (al - raw)) by lia. tauto. }
  destruct (Z.ltb_spec 0 (bytes + 2 ^ k - (al - raw) - bytes)); [|lia]. destruct H2 as [Hs2 H2]. split; [exact Hs2|].
  right. split; [|done]. unfold fresh_mapping. split_and!; [lia|lia|done| |].
  - intros a Ha. apply Hfree. unfold in_range in *. lia.
  - intros a. rewrite do_munmap_mapped.
    + rewrite H2. change (mapped (h_os h1) a) with (mapped o a). rewrite Hmap.
      assert (Hfa : in_range al bytes a -> ~ mapped (h_os h) a) by (intros Ha; apply Hfree; unfold in_range in *; lia).
      pose proof (Hfree a) as Hfr. unfold in_range in *. split.
      * intros [[[Hma|Hr] Hn1] Hn2]; [by left|right; lia].
      * intros [Hma|Hr].
        { assert (~ raw <= a < raw + (bytes + 2 ^ k)) by tauto. split; [split; [by left|lia]|lia]. }
        split; [split; [right; lia|lia]|lia].
    + by apply Z.divide_add_r.
    + replace (bytes + 2 ^ k - (al - raw) - bytes) with (2 ^ k - (al - raw)) by lia.
      apply Z.divide_sub_r; [done|by apply Z.divide_sub_r].
Qed.

(** ** Registering memory *)

Lemma overlap_point p n s t : 0 < n -> s < t -> (p + n <= s \/ t <= p) \/ exists a, in_range p n a /\ s <= a < t.
Proof.
  intros Hn Hst. destruct (Z.le_gt_cases (p + n) s); [by left; left|]. destruct (Z.le_gt_cases t p); [by left; right|].
  right. exists (Z.max p s). unfold in_range. lia.
Qed.

Lemma range_free_owned rm p n :
  wf rm -> 0 < n -> (forall a, in_range p n a -> ~ owned rm a) -> range_free rm p n.
Proof.
  intros W Hn Ho e He. pose proof (wf_sound rm W) as Hs. rewrite Forall_forall in Hs. specialize (Hs e He).
  destruct (overlap_point p n e.(r_start) e.(r_end) Hn ltac:(unfold sound_region in Hs; lia)) as [|(a & Ha & Hin)]; [done|].
  destruct (Ho a Ha). by exists e.
Qed.

Lemma register_inv rm o anc once p n fl :
  rinv rm o anc once -> 0 < p -> 0 < n -> p + n < 2 ^ 64 ->
  (forall a, in_range p n a -> ~ owned rm a /\ mapped o a) ->
  region_ok anc (MkRegion p (p + n) V8M_REGION_NODE_UNBOUND fl 0) ->
  match region_register_with_flags rm p n fl with
  | None => True
  | Some rm' => rinv rm' o anc once /\ range_of <$> rm'.(g_regions) ≡ₚ (p, p + n) :: (range_of <$> rm.(g_regions)) /\
      (forall a, owned rm' a <-> owned rm a \/ in_range p n a)
  end.
Proof.
  intros [W R M A] Hp Hn Hb Hfree Hok.
  pose proof (register_spec rm p n fl W Hp Hn Hb (range_free_owned _ _ _ W Hn ltac:(intros a Ha; by apply Hfree))) as Hr.
  destruct (region_register_with_flags rm p n fl) as [rm'|]; [|done].
  destruct Hr as (W' & _ & _ & e & Hs & He & Hnode & Hfl & Hperm).
  assert (Ho : forall a, owned rm' a <-> owned rm a \/ in_range p n a).
  { intros a. unfold owned, in_region, in_range. setoid_rewrite Hperm. setoid_rewrite elem_of_cons. split.
    - intros (x & [->|Hx] & Hin); [right; lia|left; by exists x].
    - intros [(x & Hx & Hin)|Hin]; [exists x; auto|exists e; split; [by left|lia]]. }
  split_and!; [|by rewrite Hperm; cbn; unfold range_of at 1; rewrite Hs, He|done].
  constructor; [done| | |done].
  - rewrite Hperm. constructor; [|done]. unfold region_ok, in_region in *. cbn in Hok. by rewrite Hs, He, Hfl.
  - intros a [Ha|Ha]; [|by apply M; right]. apply Ho in Ha as [Ha|Ha]; [by apply M; left|by apply Hfree].
Qed.

(** What a call of the allocator leaves behind. *)
Definition outcome (h h' : heap) (p bytes : Z) : Prop :=
  hinv h' /\ (forall a, foreign h' a <-> foreign h a) /\
  (p = NULL /\ ranges h' = ranges h \/
   p <> NULL /\ p + bytes < 2 ^ 64 /\ ranges h' ≡ₚ (p, p + bytes) :: ranges h /\ (forall a, in_range p bytes a -> ~ owned h.(h_map) a)).

Lemma outcome_framed h0 h h' h1 p bytes :
  framed h0 h -> outcome h h' p bytes -> framed h' h1 -> outcome h0 h1 p bytes.
Proof.
  intros F0 (I & Hf & Hc) F1. unfold outcome.
  rewrite (framed_ranges _ _ F0), (framed_ranges _ _ F1) in *. split; [by eapply framed_hinv|]. split.
  { intros a. rewrite (framed_foreign _ _ a F1), Hf. by apply framed_foreign. }
  destruct Hc as [?|(?&?&?&Hfree)]; [by left|right]. split_and!; [done|done|done|].
  intros a Ha Ho. destruct (Hfree a Ha). by apply (same_owned _ _ a (f_same _ _ F0)).
Qed.

(** A fresh mapping is registered, or returned to the system when the map is full. *)
Lemma register_fresh h h1 p bytes :
  hinv h -> os_step h h1 -> 0 < bytes -> (V8M_PAGE_SIZE | bytes) -> fresh_mapping h.(h_os) h1.(h_os) p bytes ->
  match region_register_with_flags h1.(h_map) p bytes false with
  | None => framed h (do_munmap h1 p bytes)
  | Some rm => outcome h (set_map h1 rm) p bytes
  end.
Proof.
  intros [W R M A] (Em & Ea & Eo) Hb Hd (Hp & Hpb & Hpd & Hfree & Hmap). pose proof (page_size_divides _ Hd) as Hbd.
  assert (Hno : forall a, in_range p bytes a -> ~ owned h.(h_map) a /\ ~ reserved h.(h_anchor) a).
  { intros a Ha. specialize (Hfree a Ha). split; intros Hx; apply Hfree, M; auto. }
  assert (I1 : rinv h.(h_map) h1.(h_os) h.(h_anchor) h.(h_anchor_once)).
  { constructor; [done|done| |done]. intros a Ha. apply Hmap. left. by apply M. }
  assert (Hr : forall a, in_range p bytes a -> ~ owned h.(h_map) a /\ mapped h1.(h_os) a).
  { intros a Ha. split; [by apply Hno|]. apply Hmap. by right. }
  assert (Hok : region_ok h.(h_anchor) (MkRegion p (p + bytes) V8M_REGION_NODE_UNBOUND false 0)).
  { split; [done|]. split; [by apply Z.divide_add_r|]. intros a Ha. apply Hno. unfold in_region, in_range in *. cbn in Ha. lia. }
  pose proof (register_inv _ _ _ _ p bytes false I1 Hp Hb Hpb Hr Hok) as Hreg. rewrite Em.
  destruct (region_register_with_flags h.(h_map) p bytes false) as [rm|].
  - destruct Hreg as (I' & Hperm & Hown). split; [unfold hinv; cbn; by rewrite Ea, Eo|]. split.
    + intros a. unfold foreign. cbn. rewrite Ea, Hown, Hmap. pose proof (Hno a). specialize (Hfree a). tauto.
    + right. split_and!; [unfold NULL; lia|done|exact Hperm|]. intros a Ha. by apply Hno.
  - apply framed_intro; [done| |done|done]. intros a. rewrite do_munmap_mapped by done. rewrite Hmap. specialize (Hfree a). tauto.
Qed.

(** Either nothing was mapped, or a fresh range was. *)
Definition obtained (h h1 : heap) (p bytes align : Z) : Prop :=
  os_step h h1 /\
  (p = NULL /\ (forall a, mapped h1.(h_os) a <-> mapped h.(h_os) a) \/
   fresh_mapping h.(h_os) h1.(h_os) p bytes /\ (align | p)).

Lemma try_gigantic_obtained h e bytes alignment :
  0 < bytes -> (V8M_PAGE_SIZE | bytes) ->
  let '(h1, p) := try_gigantic h e bytes alignment in
  obtained h h1 p bytes (2 ^ 30) /\ (p <> NULL -> 2 ^ 30 <= alignment /\ v8m_config_get e.(e_cfg) V8M_OPT_HUGE_PAGES <> 0).
Proof.
  intros Hb Hd%page_size_divides. unfold try_gigantic, V8M_GIGANTIC_BYTES.
  match goal with |- context [if ?c then _ else _] => destruct c eqn:Hc end.
  { split; [|done]. split; [done|]. by left. }
  rewrite !orb_false_iff, Z.ltb_ge, Z.eqb_neq in Hc. destruct Hc as [[_ Hal] Hcfg]. apply Z.ltb_ge in Hal.
  destruct (mmap _ bytes MapHuge1G) as [o [p|]] eqn:Hm.
  - destruct (mmap_some _ _ _ _ _ Hm Hb Hd) as (Hp & Hpn & Hpd & _ & Hg & Hfree & Hmap).
    split; [|by split; [lia|]]. split; [done|]. right. split; [done|]. by apply Hg.
  - split; [|done]. split; [done|]. left. split; [done|]. intros a. cbn in Hm |- *. by eapply mmap_none.
Qed.

Lemma try_hugetlb_obtained h e bytes alignment :
  0 < bytes -> (V8M_PAGE_SIZE | bytes) ->
  let '(h1, p) := try_hugetlb h e bytes alignment in
  obtained h h1 p bytes (2 ^ 21) /\ (p <> NULL -> 2 ^ 21 <= alignment /\ v8m_config_get e.(e_cfg) V8M_OPT_HUGE_PAGES <> 0).
Proof.
  intros Hb Hd%page_size_divides. unfold try_hugetlb. change V8M_HUGE_PAGE_SIZE with (2 ^ 21).
  match goal with |- context [if ?c then _ else _] => destruct c eqn:Hc end.
  { split; [|done]. split; [done|]. by left. }
  rewrite !orb_false_iff, Z.ltb_ge, Z.eqb_neq in Hc. destruct Hc as [[_ Hal] Hcfg]. apply Z.ltb_ge in Hal.
  destruct (mmap _ bytes MapHuge2M) as [o [p|]] eqn:Hm.
  - destruct (mmap_some _ _ _ _ _ Hm Hb Hd) as (Hp & Hpn & Hpd & Hg & _ & Hfree & Hmap).
    split; [|by split; [lia|]]. split; [done|]. right. split; [done|]. by apply Hg.
  - split; [|done]. split; [done|]. left. split; [done|]. intros a. cbn in Hm |- *. by eapply mmap_none.
Qed.

Lemma obtained_framed h h1 bytes align : obtained h h1 NULL bytes align -> framed h h1.
Proof.
  intros [(Em & Ea & Eo) [[_ Hm]|[(Hp & _) _]]]; [|unfold NULL in *; lia]. by apply framed_intro.
Qed.

Lemma obtained_fresh h h1 p bytes align : p <> NULL -> obtained h h1 p bytes align ->
  os_step h h1 /\ fresh_mapping h.(h_os) h1.(h_os) p bytes /\ (align | p).
Proof. intros Hp [Hs [[? _]|[Hf Ha]]]; done. Qed.

Lemma register_and_bind_spec h h1 e p bytes :
  hinv h -> os_step h h1 -> 0 < bytes -> (V8M_PAGE_SIZE | bytes) -> fresh_mapping h.(h_os) h1.(h_os) p bytes ->
  let '(h', q) := register_and_bind_mmap h1 e p bytes in outcome h h' q bytes /\ (q = NULL \/ q = p).
Proof.
  intros I Hs Hb Hd Hf. unfold register_and_bind_mmap, region_register.
  pose proof (register_fresh h (record_mmap h1 bytes) p bytes I Hs Hb Hd Hf) as Hr.
  destruct (region_register_with_flags _ p bytes false) as [rm|].
  - split; [|by right]. eapply outcome_framed; [reflexivity|exact Hr|apply framed_bind].
  - split; [|by left]. split; [by eapply framed_hinv|]. split; [intros a; by apply framed_foreign|].
    left. split; [done|by apply framed_ranges].
Qed.

(** ** The anchor reservation *)

Lemma anchor_get_framed h e :
  hinv h -> hinv (anchor_get h e) /\ (forall a, foreign (anchor_get h e) a <-> foreign h a) /\
  (anchor_get h e).(h_map) = h.(h_map).
Proof.
  intros I. unfold anchor_get. destruct h.(h_anchor_once) eqn:Ho; [done|].
  pose proof (Anchor.init_spec h.(h_os) e.(e_mutex_rc) 0 ltac:(lia) ltac:(lia)) as Hs.
  destruct (v8m_anchor_reservation_init _ _ _) as [[o res] rc]. destruct Hs as [Hok Hbad].
  pose proof I as [W R M A]. assert (Hanc : h.(h_anchor) = None).
  { destruct h.(h_anchor); [|done]. rewrite Ho in A. by destruct A. }
  rewrite Hanc in R, M. destruct (Z.eqb_spec rc 0) as [Hrc|Hrc].
  - destruct (Hok Hrc) as (_ & Ia & Hpb & Hpc & Hb0 & _ & Hfree & Hmap). split_and!; [|intros a|done].
    + constructor; cbn; [done| | |done].
      * rewrite Forall_forall in R |- *. intros x Hx. destruct (R x Hx) as (P1 & P2 & P3). split; [done|]. split; [done|].
        destruct (r_is_anchor x); [by destruct P3 as (? & ? & _)|]. intros a Hin Hr. apply (Hfree a Hr), M. left. by exists x.
      * intros a Ha. apply Hmap. destruct Ha; [left; apply M; by left|by right].
    + unfold foreign. cbn. rewrite Hanc, Hmap. cbn. specialize (Hfree a). specialize (M a). tauto.
  - destruct (Hbad Hrc) as [_ Hmap]. split_and!; [|intros a|done].
    + constructor; cbn; [done|done| |done]. intros a Ha. apply Hmap, M. done.
    + unfold foreign. cbn. by rewrite Hmap, Hanc.
Qed.

Lemma bump_keeps_region_ok res res' e :
  res'.(a_base) = res.(a_base) -> res'.(a_cap) = res.(a_cap) -> res.(a_bump_offset) <= res'.(a_bump_offset) ->
  region_ok (Some res) e -> region_ok (Some res') e.
Proof.
  intros Hb Hc Hu (P1 & P2 & P3). split; [done|]. split; [done|]. destruct (r_is_anchor e).
  - destruct P3 as (r & [= <-] & Hlo & Hhi). exists res'. split; [done|]. lia.
  - intros a Ha. cbn. rewrite Hb, Hc. by apply P3.
Qed.

(** A reservation whose bump offset only moved forward. *)
Lemma set_anchor_inv h o res res' :
  hinv h -> h.(h_anchor) = Some res -> Anchor.inv res' -> (forall a, mapped o a <-> mapped h.(h_os) a) ->
  res'.(a_base) = res.(a_base) -> res'.(a_cap) = res.(a_cap) -> res.(a_bump_offset) <= res'.(a_bump_offset) ->
  let h' := set_anchor (set_os h o) (Some res') in hinv h' /\ (forall a, foreign h' a <-> foreign h a).
Proof.
  intros [W R M A] Ea Ia Hm Hb Hc Hu. rewrite Ea in R, M, A. cbn zeta. split.
  - constructor; cbn; [done| | |done].
    + eapply Forall_impl; [exact R|]. intros x. by apply bump_keeps_region_ok.
    + intros a Ha. apply Hm, M. cbn. rewrite <- Hb, <- Hc. exact Ha.
  - intros a. unfold foreign. cbn. rewrite Hm, Ea. cbn. by rewrite Hb, Hc.
Qed.

(** The carved range is free, mapped and inside the reservation. *)
Lemma carve_region h bytes k :
  hinv h -> 0 < bytes < 2 ^ 64 -> (V8M_PAGE_SIZE | bytes) -> 16 <= k < 64 -> forall res, h.(h_anchor) = Some res ->
  let '(o, res', p) := v8m_anchor_reservation_carve h.(h_os) res bytes (2 ^ k) in
  let h' := set_anchor (set_os h o) (Some res') in
  hinv h' /\ (forall a, foreign h' a <-> foreign h a) /\
  (p <> NULL -> 0 < p /\ p + bytes < 2 ^ 64 /\ (2 ^ k | p) /\
     (forall a, in_range p bytes a -> ~ owned h.(h_map) a /\ mapped o a /\ reserved (Some res') a) /\
     region_ok (Some res') (MkRegion p (p + bytes) V8M_REGION_NODE_UNBOUND true 0)).
Proof.
  intros I Hb Hd Hk res Ea. pose proof I as [W R M A]. rewrite Ea in R, M, A. destruct A as [Ia _].
  assert (Hpow : 0 < 2 ^ k < 2 ^ 64) by (split; [apply Z.pow_pos_nonneg|apply Z.pow_lt_mono_r]; lia).
  pose proof (carve_spec h.(h_os) res bytes (2 ^ k) Ia ltac:(lia) ltac:(lia)) as Hc.
  destruct (v8m_anchor_reservation_carve h.(h_os) res bytes (2 ^ k)) as [[o res'] p].
  destruct Hc as (Ia' & Eb & Ec & Hcase). cbn zeta.
  assert (Hmo : forall a, mapped o a <-> mapped h.(h_os) a).
  { destruct Hcase as [(_ & _ & [->|[q ->]])|(_ & _ & _ & _ & _ & _ & ->)]; intros a; [done| |]; apply mprotect_law. }
  assert (Hbu : res.(a_bump_offset) <= res'.(a_bump_offset)).
  { destruct Hcase as [(_ & -> & _)|(_ & _ & _ & Hlo & _ & -> & _)]; lia. }
  destruct (set_anchor_inv h o res res' I Ea Ia' Hmo Eb Ec Hbu) as [I' Hf]. split; [exact I'|]. split; [exact Hf|].
  intros Hp. destruct Hcase as [(? & _)|(_ & _ & Hal & Hlo & Hhi & Hbu' & _)]; [done|].
  pose proof Ia as [Hb0 [Hc0 Hc1] Hbb]. specialize (Hal ltac:(lia)).
  assert (Hpk : (os_page_size | p)).
  { eapply Z.divide_trans; [|exact Hal]. apply page_size_divides_pow2. lia. }
  split_and!; [lia|lia|done| |].
  - intros a Ha. assert (Hres : reserved (Some res) a) by (cbn; unfold in_range in *; lia). split_and!.
    + intros (x & Hx & Hin). rewrite Forall_forall in R. destruct (R x Hx) as (_ & _ & P3).
      unfold in_region, in_range in *. destruct (r_is_anchor x).
      * destruct P3 as (r & [= <-] & _ & Hh). lia.
      * by apply (P3 a).
    + apply Hmo, M. by right.
    + cbn. by rewrite Eb, Ec.
  - split; [done|]. split; [apply Z.divide_add_r; [done|by apply page_size_divides]|]. exists res'. split; [done|]. cbn. lia.
Qed.

(** Anchor setup and failed carves: what the heap owns is untouched. *)
Definition quiet_step (h h' : heap) : Prop :=
  hinv h' /\ (forall a, foreign h' a <-> foreign h a) /\ h'.(h_map) = h.(h_map).

(** The two sources of memory behind [anchor_or_mmap]. *)
Definition sourced (h h1 : heap) (p : Z) (used : bool) (bytes k : Z) : Prop :=
  if used then
    quiet_step h h1 /\ 0 < p /\ p + bytes < 2 ^ 64 /\ (2 ^ k | p) /\
    (exists res, h1.(h_anchor) = Some res /\ region_ok (Some res) (MkRegion p (p + bytes) V8M_REGION_NODE_UNBOUND true 0)) /\
    (forall a, in_range p bytes a -> ~ owned h1.(h_map) a /\ mapped h1.(h_os) a /\ reserved h1.(h_anchor) a)
  else exists h0, quiet_step h h0 /\ obtained h0 h1 p bytes (2 ^ k).

Lemma anchor_or_mmap_spec h e bytes k :
  hinv h -> 0 < bytes < 2 ^ 64 -> (V8M_PAGE_SIZE | bytes) -> 16 <= k < 64 ->
  let '(h1, p, used) := anchor_or_mmap h e bytes (2 ^ k) in sourced h h1 p used bytes k.
Proof.
  intros I Hb Hd Hk. unfold anchor_or_mmap.
  assert (Hmm : forall h0, quiet_step h h0 ->
    let '(h1, p, used) := (let '(h1, p) := reserve_aligned h0 bytes (2 ^ k) in (h1, p, false)) in sourced h h1 p used bytes k).
  { intros h0 Hq. pose proof (reserve_aligned_spec h0 bytes k Hb Hd Hk) as Hr.
    destruct (reserve_aligned h0 bytes (2 ^ k)) as [h1 p]. exists h0. by split. }
  destruct (_ <=? bytes); [|by apply Hmm].
  destruct (anchor_get_framed h e I) as (I1 & F1 & E1). set (h1 := anchor_get h e) in *.
  destruct h1.(h_anchor) as [res|] eqn:Ea; [|by apply Hmm].
  pose proof (carve_region h1 bytes k I1 Hb Hd Hk res Ea) as Hc.
  destruct (v8m_anchor_reservation_carve h1.(h_os) res bytes (2 ^ k)) as [[o res'] p].
  destruct Hc as (I2 & F2 & Hp). set (h2 := set_anchor (set_os h1 o) (Some res')) in *.
  assert (Hq : forall c, quiet_step h (count h2 c)).
  { intros c. split; [exact (framed_hinv _ _ (framed_count h2 c) I2)|]. split; [|exact E1].
    intros a. rewrite (framed_foreign _ _ a (framed_count h2 c)), F2. apply F1. }
  destruct (Z.eqb_spec p NULL) as [->|Hne]; cbn [negb]; [by apply Hmm|].
  destruct (Hp Hne) as (Hp0 & Hpb & Hpk & Hr & Hok). split_and!; [apply Hq|done|done|done| |].
  - by exists res'.
  - exact Hr.
Qed.

Lemma alloc_tail_spec h e bytes k :
  hinv h -> 0 < bytes < 2 ^ 64 -> (V8M_PAGE_SIZE | bytes) -> 16 <= k < 64 ->
  let '(h', p) :=
    (let '(h, result, used_anchor) := anchor_or_mmap h e bytes (2 ^ k) in
     if result =? NULL then (h, NULL)
     else match region_register_with_flags h.(h_map) result bytes used_anchor with
          | None =>
              if used_anchor then
                match h.(h_anchor) with
                | Some res =>
                    let '(o, res, _) := v8m_anchor_reservation_release h.(h_os) res result bytes in
                    (set_anchor (set_os h o) (Some res), NULL)
                | None => (h, NULL)
                end
              else (do_munmap h result bytes, NULL)
          | Some rm =>
              let h := advise_thp (set_map h rm) e result bytes used_anchor in
              (bind_and_account h e result bytes, result)
          end) in
  outcome h h' p bytes /\ (2 ^ k | p).
Proof.
  intros I Hb Hd Hk. pose proof (anchor_or_mmap_spec h e bytes k I Hb Hd Hk) as Ha.
  destruct (anchor_or_mmap h e bytes (2 ^ k)) as [[h1 p] used]. destruct used.
  - destruct Ha as ((I1 & F1 & E1) & Hp & Hpb & Hpk & (res & Ea & Hok) & Hr).
    destruct (Z.eqb_spec p NULL); [unfold NULL in *; lia|].
    assert (Hro : forall a, in_range p bytes a -> ~ owned h1.(h_map) a /\ mapped h1.(h_os) a) by (intros a Hx; destruct (Hr a Hx) as (? & ? & _); done).
    pose proof (register_inv _ _ _ _ p bytes true I1 Hp ltac:(lia) Hpb Hro ltac:(by rewrite Ea)) as Hreg.
    destruct (region_register_with_flags _ _ _ _) as [rm|].
    + destruct Hreg as (I2 & Hperm & Hown). split; [|done].
      apply (outcome_framed h h (set_map h1 rm)); [done| |etransitivity; [apply framed_advise_thp|apply framed_bind]].
      split; [exact I2|]. split.
      * intros a. rewrite <- F1. unfold foreign. cbn. rewrite Hown. pose proof (Hr a). tauto.
      * right. split_and!; [unfold NULL; lia|done| |].
        { unfold ranges. cbn. rewrite Hperm. by rewrite E1. }
        intros a Hx. rewrite <- E1. by apply Hro.
    + rewrite Ea. pose proof I1 as [_ _ _ A1]. rewrite Ea in A1. destruct A1 as [Ia _]. destruct Hok as (_ & _ & res0 & [= <-] & Hlo & Hhi).
      cbn in Hlo, Hhi. destruct (release_spec h1.(h_os) res p bytes Ia Hlo ltac:(lia)) as (o' & res' & -> & Ia' & Eb & Ec & Eu & ->).
      { pose proof (i_bump res Ia). lia. }
      split; [|by apply Z.divide_0_r].
      destruct (set_anchor_inv h1 (fst (mprotect (madvise h1.(h_os) p bytes AdvDontNeed) p bytes ProtNone)) res res' I1 Ea Ia') as [I2 F2]; [|done|done|lia|].
      { intros a. by rewrite mprotect_law, madvise_law. }
      split; [exact I2|]. split; [intros a; by rewrite F2, F1|]. left. split; [done|]. unfold ranges. cbn. by rewrite E1.
  - destruct Ha as (h0 & (I0 & F0 & E0) & Ho). assert (Hr0 : ranges h0 = ranges h) by (unfold ranges; by rewrite E0).
    destruct (Z.eqb_spec p NULL) as [->|Hne].
    { pose proof (obtained_framed _ _ _ _ Ho) as F. split; [|by apply Z.divide_0_r].
      split; [by eapply framed_hinv|]. split; [intros a; by rewrite (framed_foreign _ _ a F), F0|].
      left. split; [done|]. by rewrite (framed_ranges _ _ F). }
    destruct (obtained_fresh _ _ _ _ _ Hne Ho) as (Hs & Hf & Hpk).
    pose proof (register_fresh h0 h1 p bytes I0 Hs ltac:(lia) Hd Hf) as Hr.
    destruct (region_register_with_flags _ _ _ _) as [rm|].
    + split; [|done]. apply (outcome_framed h h (set_map h1 rm)); [done| |etransitivity; [apply framed_advise_thp|apply framed_bind]].
      destruct Hr as (I2 & F2 & Hc). split; [done|]. split; [intros a; by rewrite F2|]. by rewrite <- Hr0, <- E0.
    + split; [|by apply Z.divide_0_r]. split; [by eapply framed_hinv|].
      split; [intros a; by rewrite (framed_foreign _ _ a Hr), F0|]. left. split; [done|]. by rewrite (framed_ranges _ _ Hr).
Qed.

(** ** Allocation and release *)

Lemma alloc_ok h e bytes alignment :
  hinv h -> 0 <= bytes < 2 ^ 64 -> (V8M_PAGE_SIZE | bytes) -> 0 <= alignment < 2 ^ 64 ->
  let '(h', p) := v8m_page_heap_alloc h e bytes alignment in
  outcome h h' p bytes /\ (Z.min alignment (2 ^ 21) | p) /\
  (v8m_config_get e.(e_cfg) V8M_OPT_HUGE_PAGES = 0 -> (alignment | p)).
Proof.
  intros I Hb Hd Hal. unfold v8m_page_heap_alloc.
  match goal with |- context [if ?c then _ else _] => destruct c eqn:Hc end.
  { split; [|split; [by apply Z.divide_0_r|intros _; by apply Z.divide_0_r]]. by split; [|split; [|left]]. }
  rewrite !orb_false_iff, Z.eqb_neq, Z.ltb_ge, negb_false_iff in Hc. destruct Hc as [[Hb0 Hps] Hp2].
  change V8M_PAGE_SIZE with (2 ^ 16) in Hps. destruct (is_power_of_two_spec alignment ltac:(lia) Hp2) as (k & Hk & ->).
  assert (16 <= k). { destruct (Z.le_gt_cases 16 k); [done|]. assert (2 ^ k < 2 ^ 16) by (apply Z.pow_lt_mono_r; lia). lia. }
  assert (H21 : forall j, 21 <= j -> forall q, (2 ^ j | q) -> (2 ^ 21 | q)).
  { intros j Hj q Hq. eapply Z.divide_trans; [|exact Hq]. exists (2 ^ (j - 21)). rewrite <- Z.pow_add_r by lia. f_equal. lia. }
  pose proof (try_gigantic_obtained h e bytes (2 ^ k) ltac:(lia) Hd) as Hg.
  destruct (try_gigantic h e bytes (2 ^ k)) as [h1 gig]. destruct Hg as [Hg Hgc].
  destruct (Z.eqb_spec gig NULL) as [->|Hne]; cbn [negb].
  2: { destruct (obtained_fresh _ _ _ _ _ Hne Hg) as (Hs & Hf & Hpd). destruct (Hgc Hne) as [Hal2 Hcfg].
       pose proof (register_and_bind_spec h h1 e gig bytes I Hs ltac:(lia) Hd Hf) as Hr.
       destruct (register_and_bind_mmap h1 e gig bytes) as [h2 q]. destruct Hr as [Ho Hq]. split; [exact Ho|].
       split; [|done]. rewrite Z.min_r by lia. destruct Hq as [->| ->]; [by apply Z.divide_0_r|]. by apply (H21 30). }
  pose proof (obtained_framed _ _ _ _ Hg) as F1. pose proof (framed_hinv _ _ F1 I) as I1.
  pose proof (try_hugetlb_obtained h1 e bytes (2 ^ k) ltac:(lia) Hd) as Hh.
  destruct (try_hugetlb h1 e bytes (2 ^ k)) as [h2 hug]. destruct Hh as [Hh Hhc].
  destruct (Z.eqb_spec hug NULL) as [->|Hne]; cbn [negb].
  2: { destruct (obtained_fresh _ _ _ _ _ Hne Hh) as (Hs & Hf & Hpd). destruct (Hhc Hne) as [Hal2 Hcfg].
       pose proof (register_and_bind_spec h1 h2 e hug bytes I1 Hs ltac:(lia) Hd Hf) as Hr.
       destruct (register_and_bind_mmap h2 e hug bytes) as [h3 q]. destruct Hr as [Ho Hq].
       split; [by eapply outcome_framed|]. split; [|done]. rewrite Z.min_r by lia. by destruct Hq as [->| ->]; [apply Z.divide_0_r|]. }
  pose proof (obtained_framed _ _ _ _ Hh) as F2. pose proof (framed_hinv _ _ F2 I1) as I2.
  pose proof (alloc_tail_spec h2 e bytes k I2 ltac:(lia) Hd ltac:(lia)) as Ht.
  match type of Ht with (let '(_, _) := ?t in _) => destruct t as [h3 p] end. destruct Ht as [Ho Hpd].
  split; [eapply outcome_framed; [etransitivity; [exact F1|exact F2]|exact Ho|done]|]. split; [|done].
  destruct (Z.le_gt_cases 21 k).
  - rewrite Z.min_r; [by apply (H21 k)|]. apply Z.pow_le_mono_r; lia.
  - rewrite Z.min_l; [done|]. apply Z.pow_le_mono_r; lia.
Qed.

(** Why an allocation fails: a bad request, a full region map, or an operating
    system that refuses the final mapping. *)
Definition refused (h : heap) (bytes alignment : Z) : Prop :=
  2 ^ 64 <= bytes + alignment \/ exists n, (n = bytes \/ n = bytes + alignment) /\ (mmap h.(h_os) n MapAnon).2 = None.
Definition alloc_fails (h : heap) (bytes alignment : Z) : Prop :=
  bytes = 0 \/ alignment < V8M_PAGE_SIZE \/ is_power_of_two alignment = false \/
  g_region_count h.(h_map) = V8M_REGION_MAP_CAPACITY \/
  exists h1, h1.(h_map) = h.(h_map) /\ refused h1 bytes alignment.

Lemma reserve_refused h bytes k :
  0 < bytes < 2 ^ 64 -> (V8M_PAGE_SIZE | bytes) -> 16 <= k < 64 ->
  (reserve_aligned h bytes (2 ^ k)).2 = NULL -> refused h bytes (2 ^ k).
Proof.
  intros Hb Hd Hk Hn. pose proof (reserve_aligned_spec h bytes k Hb Hd Hk) as Hr. unfold reserve_aligned in *.
  assert (Hk64 : 0 < 2 ^ k < 2 ^ 64) by (split; [apply Z.pow_pos_nonneg; lia|apply Z.pow_lt_mono_r; lia]).
  assert (Hbad : forall o o' n, fresh_mapping o o' NULL n -> False) by (intros o o' n Hf; destruct Hf as [? _]; unfold NULL in *; lia).
  destruct (Z.leb_spec (2 ^ k) os_page_size) as [Hle|Hgt].
  { destruct (mmap h.(h_os) bytes MapAnon) as [o [p|]] eqn:Hm.
    - cbn in Hn. subst p. destruct (mmap_some _ _ _ _ _ Hm ltac:(lia) (page_size_divides _ Hd)) as [? _]. unfold NULL in *. lia.
    - right. exists bytes. rewrite Hm. by split; [left|]. }
  unfold SIZE_MAX in *. rewrite (u64_small (2 ^ 64 - 1 - 2 ^ k)) in * by (unfold is_u64; lia).
  destruct (Z.ltb_spec (2 ^ 64 - 1 - 2 ^ k) bytes); [left; lia|].
  rewrite (u64_small (bytes + 2 ^ k)) in * by (unfold is_u64; lia).
  destruct (mmap h.(h_os) (bytes + 2 ^ k) MapAnon) as [o [raw|]] eqn:Hm.
  2: { right. exists (bytes + 2 ^ k). rewrite Hm. by split; [right|]. }
  pose proof (page_size_divides_pow2 k ltac:(lia)) as Hpk.
  destruct (mmap_some _ _ _ _ _ Hm ltac:(lia) ltac:(apply Z.divide_add_r; [by apply page_size_divides|done])) as (Hp & Hpn & _).
  destruct (align_up_spec raw k ltac:(lia) Hp ltac:(lia)) as [Har _].
  match type of Hn with context [Z.land ?a ?b] => set (al := Z.land a b) in * end. cbn [snd] in Hn. unfold NULL in Hn. rewrite Hn in Har. lia.
Qed.

Lemma register_full rm p n b : RegionMap.wf rm -> region_register_with_flags rm p n b = None -> g_region_count rm = V8M_REGION_MAP_CAPACITY.
Proof.
  intros W. unfold region_register_with_flags. destruct (Z.leb_spec V8M_REGION_MAP_CAPACITY (g_region_count rm)); [|done]. intros _.
  pose proof (wf_count _ W). lia.
Qed.

Lemma try_gigantic_map h e bytes alignment : (try_gigantic h e bytes alignment).1.(h_map) = h.(h_map).
Proof. unfold try_gigantic. destruct (_ || _); [done|]. by destruct (mmap _ _ _) as [o [p|]]. Qed.
Lemma try_hugetlb_map h e bytes alignment : (try_hugetlb h e bytes alignment).1.(h_map) = h.(h_map).
Proof. unfold try_hugetlb. destruct (_ || _); [done|]. by destruct (mmap _ _ _) as [o [p|]]. Qed.
Lemma reserve_map h bytes alignment : (reserve_aligned h bytes alignment).1.(h_map) = h.(h_map).
Proof.
  unfold reserve_aligned. destruct (_ <=? _); [by destruct (mmap _ _ _) as [o [p|]]|]. destruct (_ <? _); [done|].
  destruct (mmap _ _ _) as [o [p|]]; [|done]. cbn. by destruct (0 <? _), (0 <? _).
Qed.

Lemma anchor_or_mmap_null h e bytes k :
  0 < bytes < 2 ^ 64 -> (V8M_PAGE_SIZE | bytes) -> 16 <= k < 64 ->
  let r := anchor_or_mmap h e bytes (2 ^ k) in
  r.1.1.(h_map) = h.(h_map) /\ (r.1.2 = NULL -> exists h0, h0.(h_map) = h.(h_map) /\ refused h0 bytes (2 ^ k)).
Proof.
  intros Hb Hd Hk. cbn zeta. unfold anchor_or_mmap.
  assert (Hmm : forall h0, h0.(h_map) = h.(h_map) ->
    let r := (let '(h1, p) := reserve_aligned h0 bytes (2 ^ k) in (h1, p, false)) in
    r.1.1.(h_map) = h.(h_map) /\ (r.1.2 = NULL -> exists h0, h0.(h_map) = h.(h_map) /\ refused h0 bytes (2 ^ k))).
  { intros h0 Hm. pose proof (reserve_map h0 bytes (2 ^ k)) as Hr. pose proof (reserve_refused h0 bytes k Hb Hd Hk) as Hf.
    destruct (reserve_aligned h0 bytes (2 ^ k)) as [h1 p]. cbn in *. split; [congruence|]. intros Hp. exists h0. auto. }
  destruct (_ <=? bytes); [|by apply Hmm].
  assert (Hg : (anchor_get h e).(h_map) = h.(h_map)).
  { unfold anchor_get. destruct h.(h_anchor_once); [done|]. by destruct (v8m_anchor_reservation_init _ _ _) as [[o res] rc]. }
  destruct (h_anchor (anchor_get h e)) as [res|]; [|by apply Hmm].
  destruct (v8m_anchor_reservation_carve _ _ _ _) as [[o res'] p]. destruct (Z.eqb_spec p NULL) as [->|Hp]; cbn [negb]; [by apply Hmm|done].
Qed.

Lemma alloc_null h e bytes alignment :
  hinv h -> 0 <= bytes < 2 ^ 64 -> (V8M_PAGE_SIZE | bytes) -> 0 <= alignment < 2 ^ 64 ->
  (v8m_page_heap_alloc h e bytes alignment).2 = NULL -> alloc_fails h bytes alignment.
Proof.
  intros I Hb Hd Hal. unfold v8m_page_heap_alloc. pose proof I as [W _ _ _].
  destruct (Z.eqb_spec bytes 0) as [->|Hb0]; [by left|]. destruct (Z.ltb_spec alignment V8M_PAGE_SIZE); [by right; left|].
  destruct (is_power_of_two alignment) eqn:Hp2; [|by right; right; left]. cbn [orb negb].
  destruct (is_power_of_two_spec alignment ltac:(change V8M_PAGE_SIZE with 65536 in *; lia) Hp2) as (k & Hk & ->).
  assert (16 <= k).
  { destruct (Z.le_gt_cases 16 k); [done|]. assert (2 ^ k < 2 ^ 16) by (apply Z.pow_lt_mono_r; lia). change V8M_PAGE_SIZE with (2 ^ 16) in *. lia. }
  assert (Hfull : forall rm p b, rm = h.(h_map) -> region_register_with_flags rm p bytes b = None -> alloc_fails h bytes (2 ^ k)).
  { intros rm p b -> Hr. do 3 right. left. by eapply register_full. }
  assert (Hrb : forall h1 p, h1.(h_map) = h.(h_map) -> p <> NULL -> (register_and_bind_mmap h1 e p bytes).2 = NULL -> alloc_fails h bytes (2 ^ k)).
  { intros h1 p Hm Hp. unfold register_and_bind_mmap, region_register. change (h_map (record_mmap h1 bytes)) with (h_map h1).
    destruct (region_register_with_flags (h_map h1) p bytes false) eqn:Hr; [done|]. intros _. by eapply Hfull. }
  pose proof (try_gigantic_map h e bytes (2 ^ k)) as Hm1. destruct (try_gigantic h e bytes (2 ^ k)) as [h1 gig]. cbn in Hm1.
  destruct (Z.eqb_spec gig NULL); cbn [negb]; [|by apply Hrb].
  pose proof (try_hugetlb_map h1 e bytes (2 ^ k)) as Hm2. destruct (try_hugetlb h1 e bytes (2 ^ k)) as [h2 hug]. cbn in Hm2.
  destruct (Z.eqb_spec hug NULL); cbn [negb]; [|apply Hrb; congruence].
  pose proof (anchor_or_mmap_null h2 e bytes k ltac:(lia) Hd ltac:(lia)) as Ha.
  destruct (anchor_or_mmap h2 e bytes (2 ^ k)) as [[h3 p] used]. cbn in Ha. destruct Ha as [Hm3 Hr].
  destruct (Z.eqb_spec p NULL) as [->|Hp].
  { intros _. do 4 right. destruct (Hr eq_refl) as (h0 & Hm0 & Href). exists h0. split; [congruence|done]. }
  destruct (region_register_with_flags (h_map h3) p bytes used) eqn:Hreg; [done|]. intros _. eapply Hfull; [|exact Hreg]. congruence.
Qed.

Lemma free_ok h ptr bytes :
  hinv h -> (ptr, ptr + bytes) ∈ ranges h ->
  let h' := v8m_page_heap_free h ptr bytes in
  hinv h' /\ (forall a, foreign h' a <-> foreign h a) /\ (ptr, ptr + bytes) :: ranges h' ≡ₚ ranges h /\
  (forall a, in_range ptr bytes a -> mapped h'.(h_os) a -> reserved h'.(h_anchor) a).
Proof.
  intros [W R M A] Hin. unfold ranges in Hin. apply list_elem_of_fmap in Hin as (x & Hx & Hxin).
  unfold range_of in Hx. injection Hx as Hs He. pose proof (wf_sound _ W) as Hsd. rewrite Forall_forall in Hsd, R.
  pose proof (Hsd x Hxin) as [Hs1 Hs2]. destruct (R x Hxin) as (Hp1 & Hp2 & Hanc).
  cbn zeta. remember (v8m_page_heap_free h ptr bytes) as h' eqn:Hh'. revert Hh'.
  unfold v8m_page_heap_free, NULL. destruct (Z.eqb_spec ptr 0); [lia|]. destruct (Z.eqb_spec bytes 0); [lia|]. cbn [orb].
  destruct (unregister_spec _ x W Hxin) as (rm & Hu & W' & _ & Hperm). rewrite <- Hs in Hu. rewrite Hu.
  match goal with |- context [if negb ?b && ?c then ?t else ?f] => set (h1 := if negb b && c then t else f) end.
  assert (E1 : h1.(h_map) = rm /\ h1.(h_os) = h.(h_os) /\ h1.(h_anchor) = h.(h_anchor) /\ h1.(h_anchor_once) = h.(h_anchor_once)).
  { unfold h1. by destruct (_ && _). }
  destruct E1 as (Em & Eo & Ea & En). clearbody h1.
  assert (Hown : forall a, owned h.(h_map) a <-> owned rm a \/ in_range ptr bytes a).
  { intros a. unfold owned, in_region, in_range. setoid_rewrite <- Hperm. setoid_rewrite elem_of_cons. split.
    - intros (y & [->|Hy] & Hr); [right; lia|left; by exists y].
    - intros [(y & Hy & Hr)|Hr]; [exists y; auto|exists x; split; [by left|lia]]. }
  assert (Hsep : forall a, in_range ptr bytes a -> ~ owned rm a).
  { intros a Ha (y & Hy & Hya). pose proof (wf_sorted _ W) as Hsr. unfold in_region, in_range in *.
    assert (Hyin : y ∈ h.(h_map).(g_regions)) by (rewrite <- Hperm; by right).
    apply region_at_index in Hyin as (j & Hj & Hjy). pose proof Hxin as (i & Hi & Hix)%region_at_index.
    destruct (Z.lt_trichotomy i j) as [Hl|[->|Hl]].
    - pose proof (wf_before _ i j W ltac:(lia) ltac:(lia)) as Hb. rewrite Hix, Hjy in Hb. unfold before in Hb. lia.
    - rewrite Hix in Hjy. subst y. pose proof (StronglySorted_NoDup_regions _ W) as Hnd. rewrite <- Hperm in Hnd.
      apply NoDup_cons in Hnd as [Hnd _]. done.
    - pose proof (wf_before _ j i W ltac:(lia) ltac:(lia)) as Hb. rewrite Hix, Hjy in Hb. unfold before in Hb. lia. }
  assert (R' : Forall (region_ok h.(h_anchor)) rm.(g_regions)).
  { rewrite Forall_forall. intros y Hy. apply R. rewrite <- Hperm. by right. }
  assert (Hrange : (ptr, ptr + bytes) :: (range_of <$> rm.(g_regions)) ≡ₚ ranges h).
  { unfold ranges. rewrite <- Hperm. cbn. unfold range_of at 2. by rewrite <- Hs, <- He. }
  destruct (r_is_anchor x).
  - destruct Hanc as (res & Eres & Hlo & Hhi). rewrite Ea, Eres. rewrite Eres in A, M, R'. destruct A as [Ia Hon].
    destruct (release_spec h1.(h_os) res ptr bytes Ia ltac:(lia) ltac:(lia)) as (o' & res' & -> & Ia' & Eb & Ec & Eu & ->).
    { pose proof (i_bump res Ia). lia. }
    intros ->. assert (I1 : hinv h1).
    { unfold hinv. rewrite Em, Eo, Ea, En, Eres. constructor; [done|done| |done]. intros a Ha. apply M.
      rewrite Hown. tauto. }
    destruct (set_anchor_inv h1 (fst (mprotect (madvise h1.(h_os) ptr bytes AdvDontNeed) ptr bytes ProtNone)) res res' I1) as [I2 F2];
      [by rewrite Ea|done|intros a; by rewrite mprotect_law, madvise_law|done|done|lia|].
    assert (Hin : forall a, in_range ptr bytes a -> reserved (Some res) a).
    { intros a Ha. pose proof (i_bump res Ia). unfold reserved, in_range in *. lia. }
    split; [exact I2|]. split; [|split; [by unfold ranges; cbn; rewrite Em|]].
    + intros a. rewrite F2. unfold foreign. rewrite Em, Eo, Ea, Eres, Hown. specialize (Hin a). tauto.
    + intros a Ha _. cbn. rewrite Eb, Ec. by apply Hin.
  - intros ->. assert (Hbd : (os_page_size | bytes)).
    { replace bytes with (r_end x - r_start x) by lia. by apply Z.divide_sub_r. }
    rewrite <- Hs in Hp1.
    assert (Hmm : forall a, mapped (do_munmap h1 ptr bytes).(h_os) a <-> mapped h.(h_os) a /\ ~ in_range ptr bytes a).
    { intros a. by rewrite do_munmap_mapped, Eo. }
    assert (Hnr : forall a, in_range ptr bytes a -> ~ reserved h.(h_anchor) a).
    { intros a Ha. apply Hanc. unfold in_region, in_range in *. lia. }
    split; [|split; [|split; [by unfold ranges; cbn; rewrite Em|]]].
    + unfold hinv. constructor; [by cbn; rewrite Em|by cbn; rewrite Ea, Em| |by cbn; rewrite Ea, En].
      intros a Ha. apply Hmm. cbn in Ha. rewrite Em, Ea in Ha. split.
      * apply M. rewrite Hown. tauto.
      * intros Hx. destruct Ha as [Ha|Ha]; [by eapply Hsep|by eapply Hnr].
    + intros a. unfold foreign. rewrite Hmm. cbn. rewrite Em, Ea, Hown. tauto.
    + intros a Ha Hma. apply Hmm in Hma. tauto.
Qed.

(** ** NUMA balance *)

Lemma filter_ext_elem {A} (P Q : A -> Prop) `{!forall x, Decision (P x), !forall x, Decision (Q x)} (l : list A) :
  (forall x, x ∈ l -> (P x <-> Q x)) -> filter P l = filter Q l.
Proof.
  induction l as [|x l IH]; intros Hpq; [done|]. rewrite !filter_cons. rewrite IH by (intros y Hy; apply Hpq; by right).
  specialize (Hpq x ltac:(left)). by destruct (decide (P x)), (decide (Q x)); try tauto.
Qed.

Lemma balance_loop_spec nodes bytes total most most_node :
  0 <= most -> is_u64 total ->
  let '(total', most', node') := balance_loop nodes bytes total most most_node in
  total' = u64 (total + foldr Z.add 0 (znth bytes <$> nodes)) /\ most <= most' /\
  (forall n, n ∈ nodes -> znth bytes n <= most') /\
  (most' = most /\ node' = most_node \/ node' ∈ nodes /\ most' = znth bytes node').
Proof.
  revert total most most_node. induction nodes as [|n nodes IH]; intros total most most_node Hm Ht; cbn [balance_loop fmap list_fmap foldr].
  { rewrite Z.add_0_r, u64_small by done. split_and!; [done|lia|by intros ? ?%not_elem_of_nil|by left]. }
  assert (Hsum : forall s, u64 (u64 (total + znth bytes n) + s) = u64 (total + (znth bytes n + s))).
  { intros s. unfold u64. rewrite Zplus_mod_idemp_l. f_equal. lia. }
  destruct (Z.ltb_spec most (znth bytes n)) as [Hlt|Hge].
  - pose proof (IH (u64 (total + znth bytes n)) (znth bytes n) n ltac:(lia) (u64_range _)) as Hi.
    destruct (balance_loop nodes bytes _ _ _) as [[t' m'] n']. destruct Hi as (-> & Hle & Hall & Hc).
    split_and!; [apply Hsum|lia| |].
    + intros x [->|Hx]%elem_of_cons; [lia|auto].
    + right. destruct Hc as [[-> ->]|[Hin ->]]; split; [by left|done|by right|done].
  - pose proof (IH (u64 (total + znth bytes n)) most most_node Hm (u64_range _)) as Hi.
    destruct (balance_loop nodes bytes _ _ _) as [[t' m'] n']. destruct Hi as (-> & Hle & Hall & Hc).
    split_and!; [apply Hsum|lia| |].
    + intros x [->|Hx]%elem_of_cons; [lia|auto].
    + destruct Hc as [?|[Hin ->]]; [by left|right]. split; [by right|done].
Qed.

Lemma suppress_loop_spec (ks : list nat) over flags flipped :
  NoDup ks -> (forall k, k ∈ ks -> (k < length flags)%nat) ->
  let '(flags', flipped') := suppress_loop (Z.of_nat <$> ks) over flags flipped in
  length flags' = length flags /\
  (forall k : nat, k ∈ ks -> default false (flags' !! k) = bool_decide (over = Some (Z.of_nat k))) /\
  (forall k : nat, k ∉ ks -> flags' !! k = flags !! k) /\
  flipped' = flipped + Z.of_nat (length (filter (fun k : nat => default false (flags !! k) <> default false (flags' !! k)) ks)).
Proof.
  revert flags flipped. induction ks as [|k ks IH]; intros flags flipped Hnd Hlen; cbn [fmap list_fmap suppress_loop].
  { split_and!; [done|by intros ? ?%not_elem_of_nil|done|cbn; lia]. }
  apply NoDup_cons in Hnd as [Hk Hnd]. rewrite Nat2Z.id. set (over' := bool_decide (over = Some (Z.of_nat k))).
  specialize (IH (<[k := over']> flags) (if Bool.eqb (default false (flags !! k)) over' then flipped else flipped + 1) Hnd).
  destruct (suppress_loop _ _ _ _) as [flags' flipped']. destruct IH as (HL & Hin & Hout & Hf).
  { intros j Hj. rewrite length_insert. apply Hlen. by right. }
  rewrite length_insert in HL. assert (Hkl : (k < length flags)%nat) by (apply Hlen; left).
  assert (Hkk : flags' !! k = Some over') by (rewrite (Hout k Hk); by rewrite list_lookup_insert_eq by done).
  split_and!; [done| | |].
  - intros j [->|Hj]%elem_of_cons; [by rewrite Hkk|auto].
  - intros j Hj. rewrite not_elem_of_cons in Hj. destruct Hj as [Hne Hj]. rewrite (Hout j Hj). by rewrite list_lookup_insert_ne by done.
  - rewrite Hf, filter_cons, Hkk. change (default false (Some over')) with over'.
    replace (filter (fun j : nat => default false (<[k:=over']> flags !! j) <> default false (flags' !! j)) ks)
      with (filter (fun j : nat => default false (flags !! j) <> default false (flags' !! j)) ks).
    2: { apply filter_ext_elem. intros j Hj. rewrite list_lookup_insert_ne; [done|]. by intros ->. }
    destruct (Bool.eqb_spec (default false (flags !! k)) over') as [He|Hne].
    + rewrite decide_False; [lia|]. intros Hx. by apply Hx.
    + rewrite decide_True by done. cbn [length]. lia.
Qed.

(** The bytes the accounting attributes to the nodes in use. *)
Definition node_total (h : heap) : Z := foldr Z.add 0 (znth h.(h_node_bytes) <$> seqZ 0 h.(h_numa).(g_node_count)).

Lemma sum_nonneg (l : list Z) : Forall (fun x => 0 <= x) l -> 0 <= foldr Z.add 0 l.
Proof. induction 1; cbn; lia. Qed.

Lemma sum_elem (l : list Z) x : Forall (fun x => 0 <= x) l -> x ∈ l -> x <= foldr Z.add 0 l.
Proof.
  induction 1 as [|y l Hy Hl IH]; [by intros ?%not_elem_of_nil|]. pose proof (sum_nonneg l Hl).
  intros [->|Hx]%elem_of_cons; cbn; [lia|]. specialize (IH Hx). lia.
Qed.

(** Below [2^62] accounted bytes the threshold test is exact. *)
Lemma balance_spec h :
  0 < h.(h_numa).(g_node_count) <= 64 -> Forall (fun x => 0 <= x) h.(h_node_bytes) -> node_total h < 2 ^ 62 ->
  let b := v8m_page_heap_get_numa_balance h in
  b.(node_count) = h.(h_numa).(g_node_count) /\ b.(total_bytes) = node_total h /\
  0 <= b.(most_loaded_node) < b.(node_count) /\ b.(most_loaded_bytes) = znth h.(h_node_bytes) b.(most_loaded_node) /\
  (forall n, 0 <= n < b.(node_count) -> znth h.(h_node_bytes) n <= b.(most_loaded_bytes)) /\
  (b.(imbalanced) = true <-> 2 <= b.(node_count) /\ 3 * (node_total h / b.(node_count)) < 2 * b.(most_loaded_bytes)).
Proof.
  intros Hc Hnn Htot. set (N := h.(h_numa).(g_node_count)) in *.
  assert (Hge : forall n, 0 <= znth h.(h_node_bytes) n) by (intros n; apply (znth_Forall (fun x => 0 <= x)); [lia|done]).
  assert (Hl : Forall (fun x => 0 <= x) (znth h.(h_node_bytes) <$> seqZ 0 N)).
  { apply Forall_forall. intros x (n & -> & _)%list_elem_of_fmap. apply Hge. }
  pose proof (sum_nonneg _ Hl) as Ht0. unfold node_total in *. fold N in Htot |- *.
  cbn zeta. unfold v8m_page_heap_get_numa_balance, v8m_numa_node_count, V8M_NUMA_MAX_NODES. fold N.
  destruct (Z.ltb_spec 64 N); [lia|].
  pose proof (balance_loop_spec (seqZ 0 N) h.(h_node_bytes) 0 0 0 ltac:(lia) ltac:(unfold is_u64; lia)) as Hb.
  destruct (balance_loop _ _ _ _ _) as [[total most] mn]. destruct Hb as (-> & Hm0 & Hall & Hcase). rewrite Z.add_0_l.
  rewrite u64_small by (unfold is_u64; lia). destruct (Z.ltb_spec 0 N); [|lia].
  cbn [node_count total_bytes most_loaded_node most_loaded_bytes imbalanced].
  assert (Hmn : 0 <= mn < N /\ most = znth h.(h_node_bytes) mn).
  { destruct Hcase as [[-> ->]|[Hin ->]].
    - split; [lia|]. specialize (Hall 0 ltac:(apply elem_of_seqZ; lia)). specialize (Hge 0). lia.
    - apply elem_of_seqZ in Hin. split; [lia|done]. }
  destruct Hmn as [Hmn Hmost].
  assert (Hle : most <= foldr Z.add 0 (znth h.(h_node_bytes) <$> seqZ 0 N)).
  { apply sum_elem; [done|]. rewrite Hmost. apply list_elem_of_fmap_2, elem_of_seqZ. lia. }
  set (T := foldr Z.add 0 _) in *. assert (Hav : 0 <= T / N <= T).
  { split; [apply Z.div_pos; lia|]. apply Z.div_le_upper_bound; [lia|]. nia. }
  split_and!; [done|done|lia|lia|done| |].
  - intros n Hn. apply Hall, elem_of_seqZ. lia.
  - rewrite andb_true_iff, Z.leb_le, Z.ltb_lt, !u64_small by (unfold is_u64; lia). split; intros [? ?]; (split; [done|lia]).
Qed.

Lemma migrate_framed h from to : framed h (fst (migrate_one_region h from to)) /\
  (fst (migrate_one_region h from to)).(h_suppressed) = h.(h_suppressed).
Proof.
  unfold migrate_one_region. destruct (list_find _ _) as [[i r]|]; [|done].
  destruct (_ || _); cbn [fst]; (split; [|done]); [by apply framed_update|].
  etransitivity; [apply (framed_update h (Z.of_nat i) (fun r => set_node r (u16 to))); done|apply framed_count].
Qed.

(** C17: [v8m_page_heap_alloc] on whole 64 KiB pages keeps the heap invariant and
    never touches memory the heap does not own.  It either fails and leaves the
    set of regions as it was, or adds exactly one region, disjoint from all others
    and aligned to the request up to 2 MiB (fully aligned without huge pages).  It
    fails only on a malformed request, a full region map or a refused mapping. *)
Theorem v8m_page_heap_alloc_spec h e bytes alignment :
  hinv h -> 0 <= bytes < 2 ^ 64 -> (V8M_PAGE_SIZE | bytes) -> 0 <= alignment < 2 ^ 64 ->
  let '(h', p) := v8m_page_heap_alloc h e bytes alignment in
  outcome h h' p bytes /\ (Z.min alignment (2 ^ 21) | p) /\
  (v8m_config_get e.(e_cfg) V8M_OPT_HUGE_PAGES = 0 -> (alignment | p)) /\ (p = NULL -> alloc_fails h bytes alignment).
Proof.
  intros I Hb Hd Hal. pose proof (alloc_ok h e bytes alignment I Hb Hd Hal) as Ho. pose proof (alloc_null h e bytes alignment I Hb Hd Hal) as Hn.
  destruct (v8m_page_heap_alloc h e bytes alignment) as [h' p]. cbn in Hn. by destruct Ho as (? & ? & ?).
Qed.

(** C18: Freeing a registered region removes exactly it, keeps the invariant and
    all foreign memory, and leaves its addresses unmapped unless they belong to the
    anchor reservation. *)
Theorem v8m_page_heap_free_spec h ptr bytes :
  hinv h -> (ptr, ptr + bytes) ∈ ranges h ->
  let h' := v8m_page_heap_free h ptr bytes in
  hinv h' /\ (forall a, foreign h' a <-> foreign h a) /\ (ptr, ptr + bytes) :: ranges h' ≡ₚ ranges h /\
  (forall a, in_range ptr bytes a -> mapped h'.(h_os) a -> reserved h'.(h_anchor) a).
Proof. apply free_ok. Qed.

(** One rebalance tick suppresses the most loaded node exactly when its bytes
    exceed 150 % of the average, clears every other node's flag, reports the number
    of flags that flipped, and moves no region. *)
Theorem v8m_page_heap_numa_rebalance_spec h :
  2 <= h.(h_numa).(g_node_count) <= 64 -> length h.(h_suppressed) = 64%nat ->
  Forall (fun x => 0 <= x) h.(h_node_bytes) -> node_total h < 2 ^ 62 ->
  let N := h.(h_numa).(g_node_count) in
  let '(h', flipped) := v8m_page_heap_numa_rebalance h in
  exists most, 0 <= most < N /\ (forall n, 0 <= n < N -> znth h.(h_node_bytes) n <= znth h.(h_node_bytes) most) /\
    (forall n, 0 <= n < N -> v8m_page_heap_node_is_suppressed h' n = true <->
       n = most /\ 3 * (node_total h / N) < 2 * znth h.(h_node_bytes) most) /\
    flipped = Z.of_nat (length (filter (fun k : nat => v8m_page_heap_node_is_suppressed h (Z.of_nat k) <>
                                                        v8m_page_heap_node_is_suppressed h' (Z.of_nat k)) (seq 0 (Z.to_nat N)))) /\
    ranges h' = ranges h.
Proof.
  intros HN Hlen Hnn Htot. cbn zeta. destruct (balance_spec h ltac:(lia) Hnn Htot) as (Hnc & Ht & Hml & Hmb & Hmax & Him).
  unfold v8m_page_heap_numa_rebalance. set (b := v8m_page_heap_get_numa_balance h) in *. rewrite Hnc in *.
  set (N := h.(h_numa).(g_node_count)) in *. destruct (Z.leb_spec N 1); [lia|].
  unfold V8M_NUMA_MAX_NODES. destruct (Z.ltb_spec 64 N); [lia|].
  set (over := if b.(imbalanced) then Some b.(most_loaded_node) else None).
  replace (seqZ 0 N) with (Z.of_nat <$> seq 0 (Z.to_nat N)).
  2: { unfold seqZ. apply list_fmap_ext. intros i x _. lia. }
  pose proof (suppress_loop_spec (seq 0 (Z.to_nat N)) over h.(h_suppressed) 0 (NoDup_seq 0 _)) as Hs.
  destruct (suppress_loop _ _ _ _) as [flags flipped].
  destruct Hs as (HL & Hin & _ & Hfl). { intros k Hk%elem_of_seq. lia. }
  match goal with |- context [if b.(imbalanced) then ?t else ?f] => set (h2 := if b.(imbalanced) then t else f) end.
  assert (F : framed (set_suppressed h flags) h2 /\ h2.(h_suppressed) = flags).
  { unfold h2. destruct (imbalanced b); [|done]. destruct (_ && _); [|done].
    destruct (migrate_framed (set_suppressed h flags) (u16 b.(most_loaded_node)) (v8m_numa_fallback_node (set_suppressed h flags).(h_numa) b.(most_loaded_node) 1)) as [F1 F2].
    by rewrite F2. }
  destruct F as [F Hsup]. assert (Hflag : forall n, 0 <= n < N -> v8m_page_heap_node_is_suppressed h2 n = bool_decide (over = Some n)).
  { intros n Hn. unfold v8m_page_heap_node_is_suppressed, V8M_NUMA_MAX_NODES. destruct (Z.leb_spec 64 n); [lia|].
    rewrite Hsup, Hin by (apply elem_of_seq; lia). rewrite Z2Nat.id by lia. done. }
  exists b.(most_loaded_node). rewrite <- Hmb. split; [lia|]. split; [done|]. split; [|split].
  - intros n Hn. rewrite Hflag by done. rewrite bool_decide_eq_true. unfold over. destruct (imbalanced b).
    + assert (3 * (node_total h / N) < 2 * b.(most_loaded_bytes)) by tauto. split; [intros [= ->]; done|intros [-> _]; done].
    + split; [done|]. intros [_ Hx]. assert (false = true) by tauto. done.
  - rewrite Hfl, Z.add_0_l. f_equal. f_equal. apply filter_ext_elem. intros k Hk%elem_of_seq.
    rewrite Hflag by lia. rewrite (Hin k) by (apply elem_of_seq; lia). unfold v8m_page_heap_node_is_suppressed, V8M_NUMA_MAX_NODES.
    destruct (Z.leb_spec 64 (Z.of_nat k)); [lia|]. by rewrite Nat2Z.id.
  - apply (framed_ranges _ _ F).
Qed.

End Spec.

(** ** A two-node machine on the logging system *)

Definition ex_cfg : config := MkConfig v8m_config_defaults 0.
Definition ex_numa : numa := MkNuma 2 [0; 1] [[10; 20]; [20; 10]] [[0; 1]; [1; 0]] 0 0.
Definition ex_env : env := MkEnv ex_cfg 0 0 1000 0 0.
Definition ex_heap : heap :=
  MkHeap ([] : @os log_os) (MkMap [] 0) None false (fun _ => 0) thp0 ex_numa (replicate 64 0) (replicate 64 false).
(** One 64 KiB region, bound to node 0. *)
Definition ex_heap1 : heap := fst (v8m_page_heap_alloc ex_heap ex_env 65536 65536).

Lemma ex_heap_hinv : hinv ex_heap.
Proof.
  constructor; cbn; [|done| |done].
  - constructor; cbn; [constructor|constructor|unfold g_region_count, V8M_REGION_MAP_CAPACITY; cbn; lia|split; [unfold is_u64; lia|done]].
  - intros a [(x & Hx%not_elem_of_nil & _)|[]]. done.
Qed.

Lemma ex_heap1_hinv : hinv ex_heap1.
Proof.
  pose proof (alloc_ok ex_heap ex_env 65536 65536 ex_heap_hinv ltac:(lia) ltac:(by exists 1) ltac:(lia)) as Ha.
  unfold ex_heap1. destruct (v8m_page_heap_alloc ex_heap ex_env 65536 65536) as [h' p]. by destruct Ha as [[? _] _].
Qed.

Lemma v8m_page_heap_alloc_spec_witness :
  snd (v8m_page_heap_alloc ex_heap ex_env 65536 65536) = 2 ^ 30 /\
  let '(h', p) := v8m_page_heap_alloc ex_heap ex_env 65536 65536 in
  outcome ex_heap h' p 65536 /\ (Z.min 65536 (2 ^ 21) | p) /\ (v8m_config_get ex_cfg V8M_OPT_HUGE_PAGES = 0 -> (65536 | p)) /\
  (p = NULL -> alloc_fails ex_heap 65536 65536).
Proof.
  split; [vm_compute; reflexivity|].
  apply (v8m_page_heap_alloc_spec ex_heap ex_env 65536 65536 ex_heap_hinv); [lia|by exists 1|lia].
Defined.

Lemma v8m_page_heap_free_spec_witness :
  let h' := v8m_page_heap_free ex_heap1 (2 ^ 30) 65536 in
  hinv h' /\ (forall a, foreign h' a <-> foreign ex_heap1 a) /\ (2 ^ 30, 2 ^ 30 + 65536) :: ranges h' ≡ₚ ranges ex_heap1 /\
  (forall a, in_range (2 ^ 30) 65536 a -> mapped h'.(h_os) a -> reserved h'.(h_anchor) a).
Proof.
  apply (v8m_page_heap_free_spec ex_heap1 (2 ^ 30) 65536 ex_heap1_hinv).
  replace (ranges ex_heap1) with [(2 ^ 30, 2 ^ 30 + 65536)] by (vm_compute; reflexivity). left.
Defined.

Lemma v8m_page_heap_numa_rebalance_spec_witness :
  let '(h', flipped) := v8m_page_heap_numa_rebalance ex_heap1 in
  flipped = 1 /\ exists most, 0 <= most < 2 /\
    (forall n, 0 <= n < 2 -> znth ex_heap1.(h_node_bytes) n <= znth ex_heap1.(h_node_bytes) most) /\
    (forall n, 0 <= n < 2 -> v8m_page_heap_node_is_suppressed h' n = true <->
       n = most /\ 3 * (node_total ex_heap1 / 2) < 2 * znth ex_heap1.(h_node_bytes) most) /\
    flipped = Z.of_nat (length (filter (fun k : nat => v8m_page_heap_node_is_suppressed ex_heap1 (Z.of_nat k) <>
                                                        v8m_page_heap_node_is_suppressed h' (Z.of_nat k)) (seq 0 2))) /\
    ranges h' = ranges ex_heap1.
Proof.
  assert (Hf : snd (v8m_page_heap_numa_rebalance ex_heap1) = 1) by (vm_compute; reflexivity).
  assert (Hn : ex_heap1.(h_numa).(g_node_count) = 2) by (vm_compute; reflexivity).
  assert (Hnn : Forall (fun x => 0 <= x) ex_heap1.(h_node_bytes)).
  { replace (h_node_bytes ex_heap1) with (65536 :: replicate 63 0) by (vm_compute; reflexivity).
    constructor; [lia|]. apply Forall_replicate. lia. }
  assert (Ht : node_total ex_heap1 = 65536) by (vm_compute; reflexivity).
  assert (Hl : length ex_heap1.(h_suppressed) = 64%nat) by (vm_compute; reflexivity).
  pose proof (v8m_page_heap_numa_rebalance_spec ex_heap1 ltac:(rewrite Hn; lia) Hl Hnn ltac:(rewrite Ht; lia)) as Hr.
  rewrite Hn in Hr. destruct (v8m_page_heap_numa_rebalance ex_heap1) as [h' flipped]. split; [exact Hf|exact Hr].
Defined.

(** A 1 GiB-aligned request of 2 MiB is served from 2 MiB huge pages at an address
    that is only 2 MiB aligned. *)
Lemma hugetlb_underaligned :
  snd (v8m_page_heap_alloc ex_heap ex_env (2 ^ 21) (2 ^ 30)) = 2 ^ 30 + 2 ^ 21.
Proof. vm_compute. reflexivity. Qed.

(** A migration re-stamps the region but moves no bytes between the nodes' totals:
    after the free, the source keeps the bytes and the target's counter wraps. *)
Lemma migrated_region_miscounts :
  let h := v8m_page_heap_free (fst (v8m_page_heap_numa_rebalance ex_heap1)) (2 ^ 30) 65536 in
  ranges h = [] /\ znth h.(h_node_bytes) 0 = 65536 /\ znth h.(h_node_bytes) 1 = 2 ^ 64 - 65536.
Proof. vm_compute. repeat split. Qed.

End PageHeapSpec.
