(* ===== verification/PageSource.v ===== *)
(** What the page heap promises to the pools built on it.

    [PageSource] names the calls a pool makes: the page-heap calls, the private
    [mmap] of descriptors, the current NUMA node and the ownership test.  [PageSourceLaws] states their
    contract on the regions handed out.  [heap_source] discharges it with the page
    heap itself ([PageHeap], [PageHeapSpec]). *)

From S2P Require Import Prelude Page Os Anchor RegionMap Numa Refill Config PageHeap PageHeapSpec.
Import Page Os Anchor RegionMap Numa Refill Config PageHeap PageHeapSpec.

Module PageSource.

Class PageSource := {
  src : Type;
  ps_alloc : src -> Z -> Z -> src * Z;
  ps_free : src -> Z -> Z -> src;
  ps_dont_need : src -> Z -> Z -> src;
  ps_mmap : src -> Z -> src * option Z;
  ps_munmap : src -> Z -> Z -> src;
  ps_node : src -> src * Z;
  ps_owns : src -> Z -> bool
}.

(** The kernel drops the contents of a range: its words read as zero. *)
Definition clear_range (mm : mem) (lo n : Z) : mem := filter (fun x : Z * Z => ~ (lo <= x.1 < lo + n)) mm.

Lemma rd_clear_out mm lo n a : ~ (lo <= a < lo + n) -> rd (clear_range mm lo n) a = rd mm a.
Proof.
  intros Ha. unfold rd, clear_range. f_equal. destruct (mm !! a) as [v|] eqn:E.
  - apply map_lookup_filter_Some. by split.
  - apply map_lookup_filter_None. by left.
Qed.
Lemma rd_clear_in mm lo n a : lo <= a < lo + n -> rd (clear_range mm lo n) a = 0.
Proof.
  intros Ha. unfold rd, clear_range. replace (filter _ mm !! a) with (@None Z); [done|]. symmetry.
  apply map_lookup_filter_None. right. intros v _ Hn. by apply Hn.
Qed.

(** Ranges [(lo, hi)] that do not meet. *)
Definition apart (r1 r2 : Z * Z) : Prop := r1.2 <= r2.1 \/ r2.2 <= r1.1.
Definition all_apart (rs : list (Z * Z)) : Prop :=
  NoDup rs /\ (forall r1 r2, r1 ∈ rs -> r2 ∈ rs -> r1 <> r2 -> apart r1 r2) /\ (forall r, r ∈ rs -> 0 < r.1 < r.2 /\ r.2 < 2 ^ 64).

(** Regions are the ranges allocated and not yet freed; descriptors are the address
    and length of the private mappings. *)
Class PageSourceLaws `{PageSource} := {
  ps_inv : src -> Prop;
  ps_regions : src -> list (Z * Z);
  ps_descs : src -> list (Z * Z);
  ps_apart : forall s, ps_inv s -> all_apart (ps_regions s);
  ps_alloc_law : forall s bytes k, ps_inv s -> 0 < bytes < 2 ^ 64 -> (V8M_PAGE_SIZE | bytes) -> 16 <= k < 64 ->
    let '(s', p) := ps_alloc s bytes (2 ^ k) in
    ps_inv s' /\ ps_descs s' = ps_descs s /\
    (p = NULL /\ ps_regions s' = ps_regions s \/
     0 < p /\ p + bytes < 2 ^ 64 /\ (2 ^ Z.min k 21 | p) /\ ps_regions s' ≡ₚ (p, p + bytes) :: ps_regions s);
  ps_free_law : forall s p bytes, ps_inv s -> (p, p + bytes) ∈ ps_regions s ->
    let s' := ps_free s p bytes in
    ps_inv s' /\ ps_descs s' = ps_descs s /\ (p, p + bytes) :: ps_regions s' ≡ₚ ps_regions s;
  ps_dont_need_law : forall s p bytes, ps_inv s ->
    let s' := ps_dont_need s p bytes in ps_inv s' /\ ps_descs s' = ps_descs s /\ ps_regions s' = ps_regions s;
  ps_mmap_law : forall s n, ps_inv s -> 0 < n ->
    let '(s', r) := ps_mmap s n in
    ps_inv s' /\ ps_regions s' = ps_regions s /\
    match r with
    | None => ps_descs s' = ps_descs s
    | Some d => 0 < d /\ ps_descs s' = (d, n) :: ps_descs s /\ d ∉ (ps_descs s).*1
    end;
  ps_munmap_law : forall s d n, ps_inv s -> (d, n) ∈ ps_descs s ->
    let s' := ps_munmap s d n in
    ps_inv s' /\ ps_regions s' = ps_regions s /\ (d, n) :: ps_descs s' ≡ₚ ps_descs s;
  ps_node_law : forall s, ps_inv s ->
    let '(s', _) := ps_node s in ps_inv s' /\ ps_descs s' = ps_descs s /\ ps_regions s' = ps_regions s;
  ps_owns_law : forall s a, ps_inv s -> 0 <= a -> ps_owns s a = true <-> exists r, r ∈ ps_regions s /\ r.1 <= a < r.2;
  ps_low : forall s r, ps_inv s -> r ∈ ps_regions s -> r.2 <= 2 ^ 47;
  ps_desc_apart : forall s x r, ps_inv s -> x ∈ ps_descs s -> r ∈ ps_regions s -> x.1 + x.2 <= r.1 \/ r.2 <= x.1
}.

(** The invariant, with the private mappings fixed: the pools that map none. *)
Definition src_with `{PageSourceLaws} (od : list (Z * Z)) (s : src) : Prop := ps_inv s /\ ps_descs s = od.

Lemma all_apart_perm l l' : l ≡ₚ l' -> all_apart l -> all_apart l'.
Proof.
  intros Hp (N & A & R). split_and!.
  - by rewrite <- Hp.
  - intros r1 r2 H1 H2. apply A; by rewrite Hp.
  - intros r Hr. apply R. by rewrite Hp.
Qed.

Lemma all_apart_cons r l : all_apart (r :: l) -> r ∉ l /\ (forall x, x ∈ l -> apart r x) /\ all_apart l.
Proof.
  intros (N & A & R). apply NoDup_cons in N as [Hn N]. split_and!; [done| |].
  - intros x Hx. apply A; [by left|by right|]. by intros ->.
  - split_and!; [done| |].
    + intros r1 r2 H1 H2. apply A; by right.
    + intros x Hx. apply R. by right.
Qed.

(** ** The page heap as a source

    Each call reads its environment from a tape; [hs_descs] records the private
    mappings. *)

Section Heap.
Context `{OSL : OSLaws}.

Record heap_src := MkSrc { hs_heap : heap; hs_tape : nat -> env; hs_tick : nat; hs_descs : list (Z * Z) }.

Definition hs_env (s : heap_src) : env := s.(hs_tape) s.(hs_tick).
Definition hs_next (s : heap_src) (h : heap) : heap_src := MkSrc h s.(hs_tape) (S s.(hs_tick)) s.(hs_descs).

#[export] Instance heap_source : PageSource := {|
  src := heap_src;
  ps_alloc s bytes alignment :=
    let '(h, p) := v8m_page_heap_alloc s.(hs_heap) (hs_env s) bytes alignment in (hs_next s h, p);
  ps_free s p bytes := hs_next s (v8m_page_heap_free s.(hs_heap) p bytes);
  ps_dont_need s p bytes := hs_next s (v8m_page_heap_advise_dont_need s.(hs_heap) p bytes);
  ps_mmap s n :=
    match mmap s.(hs_heap).(h_os) n MapAnon with
    | (o, None) => (hs_next s (set_os s.(hs_heap) o), None)
    | (o, Some d) => (MkSrc (set_os s.(hs_heap) o) s.(hs_tape) (S s.(hs_tick)) ((d, n) :: s.(hs_descs)), Some d)
    end;
  ps_munmap s d n :=
    MkSrc (set_os s.(hs_heap) (munmap s.(hs_heap).(h_os) d n)) s.(hs_tape) (S s.(hs_tick))
      (filter (fun x => x <> (d, n)) s.(hs_descs));
  ps_node s :=
    let '(nu, node) := v8m_numa_current_node s.(hs_heap).(h_numa) (hs_env s).(e_cpu) in
    (hs_next s (set_numa s.(hs_heap) nu), node);
  ps_owns s a := v8m_page_heap_owns s.(hs_heap).(h_map) a
|}.

Definition desc_pages (x : Z * Z) : Z * Z := (x.1, x.1 + page_up x.2).

Record sinv (s : heap_src) : Prop := {
  si_heap : hinv s.(hs_heap);
  si_nodup : NoDup (s.(hs_descs).*1);
  si_foreign : forall x a, x ∈ s.(hs_descs) -> in_range x.1 (page_up x.2) a -> foreign s.(hs_heap) a;
  si_pages : forall x, x ∈ s.(hs_descs) -> 0 < x.2 /\ (os_page_size | x.1);
  si_apart : forall x y a, x ∈ s.(hs_descs) -> y ∈ s.(hs_descs) -> in_range x.1 (page_up x.2) a -> in_range y.1 (page_up y.2) a -> x = y
}.

Lemma ranges_apart h : hinv h -> all_apart (ranges h).
Proof.
  intros [W _ _ _]. unfold ranges, range_of. pose proof (wf_sound _ W) as Hs. rewrite Forall_forall in Hs.
  assert (Hap : forall x y, x ∈ h.(h_map).(g_regions) -> y ∈ h.(h_map).(g_regions) -> x = y \/ apart (r_start x, r_end x) (r_start y, r_end y)).
  { intros x y Hx Hy. apply region_at_index in Hx as (i & Hi & <-). apply region_at_index in Hy as (j & Hj & <-).
    destruct (Z.lt_trichotomy i j) as [Hl|[->|Hl]]; [|by left|]; right; unfold apart; cbn.
    - left. exact (wf_before _ i j W ltac:(lia) ltac:(lia)).
    - right. exact (wf_before _ j i W ltac:(lia) ltac:(lia)). }
  split_and!.
  - apply NoDup_fmap_2_strong; [|by apply StronglySorted_NoDup_regions].
    intros x y Hx Hy [= H1 _]. by eapply same_start.
  - intros r1 r2 (x & -> & Hx)%list_elem_of_fmap (y & -> & Hy)%list_elem_of_fmap Hne.
    destruct (Hap x y Hx Hy) as [->|]; done.
  - intros r (x & -> & Hx)%list_elem_of_fmap. destruct (Hs x Hx). cbn. lia.
Qed.

Lemma ranges_owned h a : (exists r, r ∈ ranges h /\ r.1 <= a < r.2) <-> owned h.(h_map) a.
Proof.
  unfold ranges, range_of, owned, in_region. split.
  - intros (r & (x & -> & Hx)%list_elem_of_fmap & Hr). by exists x.
  - intros (x & Hx & Hr). exists (r_start x, r_end x). split; [by apply (list_elem_of_fmap_2 (fun r => (r_start r, r_end r)))|done].
Qed.

Lemma hs_next_inv s h :
  sinv s -> hinv h -> (forall a, foreign h a <-> foreign s.(hs_heap) a) -> sinv (hs_next s h).
Proof. intros [I N F P A] Ih Hf. constructor; cbn; [done|done| |done|done]. intros x a Hx Ha. by apply Hf, (F x). Qed.

Lemma hs_mmap_law s n : sinv s -> 0 < n ->
  let '(s', r) := @ps_mmap heap_source s n in
  sinv s' /\ ranges s'.(hs_heap) = ranges s.(hs_heap) /\
  match r with
  | None => s'.(hs_descs) = s.(hs_descs)
  | Some d => 0 < d /\ s'.(hs_descs) = (d, n) :: s.(hs_descs) /\ d ∉ s.(hs_descs).*1
  end.
Proof.
  intros I Hn. pose proof I as [Ih N F P A]. cbn. destruct (mmap s.(hs_heap).(h_os) n MapAnon) as [o [d|]] eqn:Hm.
  - destruct (mmap_law _ _ _ _ _ Hm Hn) as (Hd & Hdn & Hdp & _ & _ & Hfree & Hmap). pose proof (page_up_pos n Hn).
    assert (Hsep : forall x a, x ∈ s.(hs_descs) -> in_range x.1 (page_up x.2) a -> ~ in_range d (page_up n) a).
    { intros x a Hx Ha Hda. apply (Hfree a Hda). by destruct (F x a Hx Ha). }
    assert (Hnew : d ∉ s.(hs_descs).*1).
    { intros (x & Hx & Hxin)%list_elem_of_fmap. destruct (P x Hxin) as [Hx2 _]. pose proof (page_up_pos _ Hx2).
      apply (Hsep x d Hxin); unfold in_range; lia. }
    pose proof Ih as [W R M An].
    assert (Ih' : hinv (set_os s.(hs_heap) o)).
    { constructor; cbn; [done|done| |done]. intros a Ha. apply Hmap. left. by apply M. }
    assert (Hf : forall a, foreign (set_os s.(hs_heap) o) a <-> foreign s.(hs_heap) a \/ in_range d (page_up n) a).
    { intros a. unfold foreign. cbn. rewrite Hmap. specialize (Hfree a). specialize (M a). tauto. }
    split; [|done]. constructor; cbn.
    + done.
    + constructor; [exact Hnew|done].
    + intros x a [->|Hx]%elem_of_cons Ha; apply Hf; [by right|left; by apply (F x)].
    + intros x [->|Hx]%elem_of_cons; [done|by apply P].
    + intros x y a [->|Hx]%elem_of_cons [->|Hy]%elem_of_cons Hax Hay; [done| | |by eapply A].
      * by destruct (Hsep y a Hy Hay).
      * by destruct (Hsep x a Hx Hax).
  - split; [|done]. apply hs_next_inv; [done| |]; pose proof Ih as [W R M An].
    + constructor; cbn; [done|done| |done]. intros a Ha. rewrite (mmap_none _ _ _ _ a Hm). by apply M.
    + intros a. unfold foreign. cbn. by rewrite (mmap_none _ _ _ _ a Hm).
Qed.

Lemma hs_munmap_law s d n : sinv s -> (d, n) ∈ s.(hs_descs) ->
  let s' := @ps_munmap heap_source s d n in
  sinv s' /\ ranges s'.(hs_heap) = ranges s.(hs_heap) /\ (d, n) :: s'.(hs_descs) ≡ₚ s.(hs_descs).
Proof.
  intros I Hd. pose proof I as [Ih N F P A]. destruct (P _ Hd) as [Hn Hdp]. cbn in Hn, Hdp. cbn zeta. cbn [ps_munmap heap_source hs_descs hs_heap].
  assert (Hmap : forall a, mapped (munmap s.(hs_heap).(h_os) d n) a <-> mapped s.(hs_heap).(h_os) a /\ ~ in_range d (page_up n) a).
  { intros a. by apply munmap_pages. }
  pose proof Ih as [W R M An].
  assert (Hout : forall a, owned s.(hs_heap).(h_map) a \/ reserved s.(hs_heap).(h_anchor) a -> ~ in_range d (page_up n) a).
  { intros a Ha Hr. destruct (F _ a Hd Hr) as (_ & H1 & H2). tauto. }
  assert (Hperm : (d, n) :: filter (fun x => x <> (d, n)) s.(hs_descs) ≡ₚ s.(hs_descs)).
  { apply NoDup_Permutation.
    - constructor; [by rewrite list_elem_of_filter; intros [? _]|]. apply NoDup_filter. by eapply NoDup_fmap_1.
    - by eapply NoDup_fmap_1.
    - intros x. rewrite elem_of_cons, list_elem_of_filter. destruct (decide (x = (d, n))) as [->|]; naive_solver. }
  split_and!; [|done|exact Hperm]. constructor; cbn.
  - constructor; cbn; [done|done| |done]. intros a Ha. apply Hmap. split; [by apply M|by apply Hout].
  - rewrite <- Hperm in N. cbn in N. by apply NoDup_cons in N as [_ N].
  - intros x a [Hne Hx]%list_elem_of_filter Ha. destruct (F x a Hx Ha) as (H1 & H2 & H3). split_and!; [|done|done].
    apply Hmap. split; [done|]. intros Hr. apply Hne. by apply (A x (d, n) a).
  - intros x [_ Hx]%list_elem_of_filter. by apply P.
  - intros x y a [_ Hx]%list_elem_of_filter [_ Hy]%list_elem_of_filter. by apply A.
Qed.

#[export] Instance heap_source_laws : PageSourceLaws.
Proof.
  refine {| ps_inv := sinv; ps_regions := fun s => ranges s.(hs_heap); ps_descs := hs_descs |}.
  - intros s I. apply ranges_apart, I.
  - intros s bytes k I Hb Hd Hk. cbn. assert (Hp : 2 ^ k < 2 ^ 64) by (apply Z.pow_lt_mono_r; lia).
    assert (0 < 2 ^ k) by (apply Z.pow_pos_nonneg; lia).
    assert (Hmin : Z.min (2 ^ k) (2 ^ 21) = 2 ^ Z.min k 21).
    { destruct (Z.le_gt_cases k 21); [rewrite !Z.min_l|rewrite !Z.min_r]; try done; try lia; apply Z.pow_le_mono_r; lia. }
    pose proof (alloc_ok s.(hs_heap) (hs_env s) bytes (2 ^ k) (si_heap s I) ltac:(lia) Hd ltac:(lia)) as Ha.
    destruct (v8m_page_heap_alloc _ _ _ _) as [h p]. destruct Ha as ((Ih & Hf & Hc) & Hal & _). rewrite Hmin in Hal.
    split; [by apply hs_next_inv|]. split; [done|]. destruct Hc as [?|(Hp0 & Hpb & Hperm & _)]; [by left|right].
    cbn. split_and!; [|done|done|done].
    destruct (all_apart_perm _ _ Hperm (ranges_apart _ Ih)) as (_ & _ & Hr). specialize (Hr _ ltac:(left)). cbn in Hr. lia.
  - intros s p bytes I Hin. cbn. destruct (free_ok s.(hs_heap) p bytes (si_heap s I) Hin) as (Ih & Hf & Hperm & _).
    split; [by apply hs_next_inv|]. by split.
  - intros s p bytes I. cbn. unfold v8m_page_heap_advise_dont_need. destruct (_ || _).
    + split; [|done]. by apply hs_next_inv; [|apply I|].
    + set (h := count _ _). assert (Fr : framed s.(hs_heap) h).
      { apply framed_intro; [done| |done|done]. intros a. cbn. apply madvise_law. }
      split; [|split; [done|by apply (framed_ranges _ _ Fr)]]. apply hs_next_inv; [done|eapply framed_hinv; [exact Fr|apply I]|].
      intros a. by apply framed_foreign.
  - intros s n I Hn. by apply hs_mmap_law.
  - intros s d n I Hin. by apply hs_munmap_law.
  - intros s I. unfold ps_node, heap_source.
    destruct (v8m_numa_current_node s.(hs_heap).(h_numa) (e_cpu (hs_env s))) as [nu node]. split; [|done].
    pose proof (framed_numa s.(hs_heap) nu) as Fr. apply hs_next_inv; [done|eapply framed_hinv; [exact Fr|apply I]|].
    intros a. by apply framed_foreign.
  - intros s a I Ha. cbn. rewrite owns_spec by (done || apply (si_heap s I)). symmetry. apply ranges_owned.
  - intros s r I Hr. pose proof (ranges_apart _ (si_heap s I)) as (_ & _ & Hs). specialize (Hs r Hr).
    assert (Ho : owned s.(hs_heap).(h_map) (r.2 - 1)) by (apply ranges_owned; exists r; split; [done|lia]).
    pose proof (mapped_low _ _ (i_mapped _ _ _ _ (si_heap s I) _ (or_introl Ho))). lia.
  - intros s x r I Hx Hr. destruct (si_pages s I x Hx) as [Hx2 _]. pose proof (page_up_pos x.2 Hx2).
    destruct (Z.le_gt_cases (x.1 + x.2) r.1) as [|H1]; [by left|]. destruct (Z.le_gt_cases r.2 x.1) as [|H2]; [by right|]. exfalso.
    pose proof (ranges_apart _ (si_heap s I)) as (_ & _ & Hs). specialize (Hs r Hr).
    assert (Ho : owned s.(hs_heap).(h_map) (Z.max x.1 r.1)) by (apply ranges_owned; exists r; split; [done|lia]).
    destruct (si_foreign s I x (Z.max x.1 r.1) Hx) as (_ & Hf & _); [unfold in_range; lia|done].
Defined.

End Heap.
End PageSource.
