(* ===== verification/NumaPool.v ===== *)
(** The per-node pools of huge pages: [src/v8m_numa_pool.h] and [.c].

    Each node keeps two lists of huge-page descriptors, those with room and the
    full ones; a descriptor is its address and its contents, so a list is the
    chain of [next] links.  The node lock makes each operation a single step.  The
    page heap and the descriptor mappings come from [PageSource]. *)

From S2P Require Import Prelude Page HugeSlab Numa Os PageHeapSpec PageSource.
Import Page HugeSlab Numa PageSource.

Module NumaPool.

(** [sizeof(struct v8m_huge_slab)]. *)
Definition DESC_BYTES : Z := 32.
Definition EINVAL : Z := 22.

Definition desc : Type := Z * v8m_huge_slab.

Record v8m_numa_pool_node := MkNode {
  n_partials : list desc;
  n_fulls : list desc;
  n_numa_node : Z;
  huge_pages_alive : Z;
  huge_pages_allocated : Z;
  huge_pages_released : Z;
  slab_carve_calls : Z;
  slab_release_calls : Z
}.
Definition node0 : v8m_numa_pool_node := MkNode [] [] 0 0 0 0 0 0.

Notation v8m_numa_pool := (list v8m_numa_pool_node).
Definition node_at (pool : v8m_numa_pool) (i : Z) : v8m_numa_pool_node := default node0 (pool !! Z.to_nat i).
Definition set_node_at (pool : v8m_numa_pool) (i : Z) (nd : v8m_numa_pool_node) : v8m_numa_pool := <[Z.to_nat i := nd]> pool.

Definition set_lists (nd : v8m_numa_pool_node) (ps fs : list desc) : v8m_numa_pool_node :=
  MkNode ps fs nd.(n_numa_node) nd.(huge_pages_alive) nd.(huge_pages_allocated) nd.(huge_pages_released)
    nd.(slab_carve_calls) nd.(slab_release_calls).

(** Writing a descriptor in place, wherever it is linked. *)
Definition write_desc (d : Z) (s : v8m_huge_slab) (l : list desc) : list desc :=
  (fun x => if x.1 =? d then (d, s) else x) <$> l.

(** [list_unlink]: drop the first entry with this address. *)
Fixpoint list_unlink (l : list desc) (d : Z) : list desc :=
  match l with
  | [] => []
  | x :: l => if x.1 =? d then l else x :: list_unlink l d
  end.

Section Pool.
Context `{PageSource}.

Definition desc_alloc (s : src) : src * option Z := ps_mmap s DESC_BYTES.
Definition desc_free (s : src) (d : Z) : src := ps_munmap s d DESC_BYTES.

Definition add_huge_page (s : src) (nd : v8m_numa_pool_node) : src * v8m_numa_pool_node * option desc :=
  let '(s, base) := ps_alloc s V8M_HUGE_PAGE_SIZE V8M_HUGE_PAGE_SIZE in
  if base =? NULL then (s, nd, None)
  else
    match desc_alloc s with
    | (s, None) => (ps_free s base V8M_HUGE_PAGE_SIZE, nd, None)
    | (s, Some d) =>
        let slab := (d, v8m_huge_slab_init base nd.(n_numa_node) V8M_HUGE_SLABS_PER_HUGE) in
        (s, MkNode (slab :: nd.(n_partials)) nd.(n_fulls) nd.(n_numa_node) (u64 (nd.(huge_pages_alive) + 1))
              (u64 (nd.(huge_pages_allocated) + 1)) nd.(huge_pages_released) nd.(slab_carve_calls) nd.(slab_release_calls),
         Some slab)
    end.

(** [mutex_rc i] is what [pthread_mutex_init] returns for node [i]. *)
Fixpoint init_nodes (mutex_rc : Z -> Z) (idx : list Z) (pool : v8m_numa_pool) : v8m_numa_pool * Z :=
  match idx with
  | [] => (pool, 0)
  | i :: idx =>
      if negb (mutex_rc i =? 0) then (pool, - mutex_rc i)
      else
        let nd := node_at pool i in
        init_nodes mutex_rc idx
          (set_node_at pool i (MkNode nd.(n_partials) nd.(n_fulls) i nd.(huge_pages_alive) nd.(huge_pages_allocated)
                                 nd.(huge_pages_released) nd.(slab_carve_calls) nd.(slab_release_calls)))
  end.
Definition v8m_numa_pool_init (mutex_rc : Z -> Z) : v8m_numa_pool * Z :=
  init_nodes mutex_rc (seqZ 0 V8M_NUMA_MAX_NODES) (replicate (Z.to_nat V8M_NUMA_MAX_NODES) node0).

Fixpoint destroy_list (s : src) (l : list desc) : src :=
  match l with
  | [] => s
  | (d, slab) :: l =>
      let s := if negb (slab.(base) =? NULL) then ps_free s slab.(base) V8M_HUGE_PAGE_SIZE else s in
      destroy_list (desc_free s d) l
  end.

Definition v8m_numa_pool_destroy (s : src) (pool : v8m_numa_pool) : src * v8m_numa_pool :=
  (foldl (fun s nd => destroy_list (destroy_list s nd.(n_partials)) nd.(n_fulls)) s pool,
   replicate (Z.to_nat V8M_NUMA_MAX_NODES) node0).

(** The descriptor the carve uses, with the node after a possible new huge page. *)
Definition carve_from (s : src) (nd : v8m_numa_pool_node) : src * v8m_numa_pool_node * option desc :=
  match nd.(n_partials) with
  | x :: _ => (s, nd, Some x)
  | [] => add_huge_page s nd
  end.

Definition v8m_numa_pool_carve_slab (s : src) (pool : v8m_numa_pool) (numa_node : Z) : src * v8m_numa_pool * Z :=
  if V8M_NUMA_MAX_NODES <=? numa_node then (s, pool, NULL)
  else
    match carve_from s (node_at pool numa_node) with
    | (s, nd, None) => (s, set_node_at pool numa_node nd, NULL)
    | (s, nd, Some (d, slab)) =>
        let '(slab, carved) := v8m_huge_slab_alloc slab in
        let nd := set_lists nd (write_desc d slab nd.(n_partials)) (write_desc d slab nd.(n_fulls)) in
        if carved =? NULL then (s, set_node_at pool numa_node nd, NULL)
        else
          let nd := MkNode nd.(n_partials) nd.(n_fulls) nd.(n_numa_node) nd.(huge_pages_alive) nd.(huge_pages_allocated)
                      nd.(huge_pages_released) (u64 (nd.(slab_carve_calls) + 1)) nd.(slab_release_calls) in
          let nd := if v8m_huge_slab_is_full slab
                    then set_lists nd (list_unlink nd.(n_partials) d) ((d, slab) :: nd.(n_fulls)) else nd in
          (s, set_node_at pool numa_node nd, carved)
    end.

(** [find_owning]: the descriptor whose huge page contains [slab]. *)
Definition find_owning (nd : v8m_numa_pool_node) (slab : Z) : option desc :=
  let huge_base := Z.land slab (u64 (Z.lnot (V8M_HUGE_PAGE_SIZE - 1))) in
  match list_find (fun x : desc => x.2.(base) = huge_base) nd.(n_partials) with
  | Some (_, x) => Some x
  | None => option_map snd (list_find (fun x : desc => x.2.(base) = huge_base) nd.(n_fulls))
  end.

(** The body of the release loop on the owning node. *)
Definition release_desc (s : src) (nd : v8m_numa_pool_node) (x : desc) (slab : Z) : src * v8m_numa_pool_node * bool :=
  let '(d, hs) := x in
  let was_full := v8m_huge_slab_is_full hs in
  let '(hs, released) := v8m_huge_slab_free hs slab in
  if negb released then (s, nd, false)
  else
    let nd := set_lists nd (write_desc d hs nd.(n_partials)) (write_desc d hs nd.(n_fulls)) in
    let nd := MkNode nd.(n_partials) nd.(n_fulls) nd.(n_numa_node) nd.(huge_pages_alive) nd.(huge_pages_allocated)
                nd.(huge_pages_released) nd.(slab_carve_calls) (u64 (nd.(slab_release_calls) + 1)) in
    let nd := if was_full then set_lists nd ((d, hs) :: nd.(n_partials)) (list_unlink nd.(n_fulls) d) else nd in
    if v8m_huge_slab_is_empty hs then
      let nd := set_lists nd (list_unlink nd.(n_partials) d) nd.(n_fulls) in
      let s := desc_free s d in
      let nd := MkNode nd.(n_partials) nd.(n_fulls) nd.(n_numa_node) (u64 (nd.(huge_pages_alive) - 1)) nd.(huge_pages_allocated)
                  (u64 (nd.(huge_pages_released) + 1)) nd.(slab_carve_calls) nd.(slab_release_calls) in
      (ps_free s hs.(base) V8M_HUGE_PAGE_SIZE, nd, true)
    else (s, nd, true).

Fixpoint release_from (idx : list Z) (s : src) (pool : v8m_numa_pool) (slab : Z) : src * v8m_numa_pool * bool :=
  match idx with
  | [] => (s, pool, false)
  | i :: idx =>
      match find_owning (node_at pool i) slab with
      | None => release_from idx s pool slab
      | Some x =>
          let '(s, nd, r) := release_desc s (node_at pool i) x slab in
          (s, set_node_at pool i nd, r)
      end
  end.
Definition v8m_numa_pool_release_slab (s : src) (pool : v8m_numa_pool) (slab : Z) : src * v8m_numa_pool * bool :=
  if slab =? NULL then (s, pool, false) else release_from (seqZ 0 V8M_NUMA_MAX_NODES) s pool slab.

Definition covers (addr : Z) (x : desc) : bool :=
  (x.2.(base) <=? addr) && (addr <? u64 (x.2.(base) + V8M_HUGE_PAGE_SIZE)).
Definition v8m_numa_pool_owns (pool : v8m_numa_pool) (ptr : Z) : bool :=
  if ptr =? NULL then false
  else existsb (fun nd => existsb (covers ptr) nd.(n_partials) || existsb (covers ptr) nd.(n_fulls)) pool.

End Pool.

(** ** Lists of descriptors *)

Lemma write_desc_notin d s l : d ∉ l.*1 -> write_desc d s l = l.
Proof.
  intros Hd. unfold write_desc. rewrite <- (list_fmap_id l) at 2. apply list_fmap_ext. intros i x Hx.
  destruct (Z.eqb_spec x.1 d) as [<-|]; [|done]. destruct Hd. apply list_elem_of_fmap_2. by eapply list_elem_of_lookup_2.
Qed.

Lemma write_desc_middle d s hs l1 l2 : d ∉ l1.*1 -> d ∉ l2.*1 -> write_desc d s (l1 ++ (d, hs) :: l2) = l1 ++ (d, s) :: l2.
Proof.
  intros H1 H2. unfold write_desc. rewrite fmap_app. cbn. rewrite Z.eqb_refl.
  by rewrite !(write_desc_notin d s) || (fold (write_desc d s l1); fold (write_desc d s l2); rewrite !write_desc_notin).
Qed.

Lemma list_unlink_middle d s l1 l2 : d ∉ l1.*1 -> list_unlink (l1 ++ (d, s) :: l2) d = l1 ++ l2.
Proof.
  induction l1 as [|x l1 IH]; cbn; [by rewrite Z.eqb_refl|]. rewrite not_elem_of_cons. intros [Hx Hl].
  destruct (Z.eqb_spec x.1 d) as [<-|]; [done|]. by rewrite IH.
Qed.

Lemma NoDup_fmap_elem {A B} (f : A -> B) (l : list A) x y :
  NoDup (f <$> l) -> x ∈ l -> y ∈ l -> f x = f y -> x = y.
Proof.
  induction l as [|z l IH]; cbn; [by intros _ ?%not_elem_of_nil|]. intros [Hz Hn]%NoDup_cons.
  intros [->|Hx]%elem_of_cons [->|Hy]%elem_of_cons Hf; [done| | |by apply IH].
  - destruct Hz. rewrite Hf. by apply list_elem_of_fmap_2.
  - destruct Hz. rewrite <- Hf. by apply list_elem_of_fmap_2.
Qed.

Definition node_descs (nd : v8m_numa_pool_node) : list desc := nd.(n_partials) ++ nd.(n_fulls).
Definition all_descs (pool : v8m_numa_pool) : list desc := concat (node_descs <$> pool).

(** The other nodes' descriptors are untouched by a write to node [i]. *)
Lemma all_descs_split pool i : 0 <= i < Z.of_nat (length pool) ->
  exists rest, all_descs pool ≡ₚ node_descs (node_at pool i) ++ rest /\
    forall nd, all_descs (set_node_at pool i nd) ≡ₚ node_descs nd ++ rest.
Proof.
  intros Hi. destruct (lookup_lt_is_Some_2 pool (Z.to_nat i) ltac:(lia)) as [x Hx].
  unfold node_at. rewrite Hx. cbn. pose proof (take_drop_middle pool (Z.to_nat i) x Hx) as Hs.
  exists (all_descs (take (Z.to_nat i) pool) ++ all_descs (drop (S (Z.to_nat i)) pool)). unfold all_descs. split.
  - rewrite <- Hs at 1. rewrite fmap_app, concat_app. cbn. rewrite !app_assoc. apply Permutation_app_tail, Permutation_app_comm.
  - intros nd. unfold set_node_at. rewrite insert_take_drop by lia.
    rewrite fmap_app, concat_app. cbn. rewrite !app_assoc. apply Permutation_app_tail, Permutation_app_comm.
Qed.

(** ** The invariant *)

Section Proofs.
Context `{PSL : PageSourceLaws}.

Definition drange (x : desc) : Z * Z := (x.2.(base), x.2.(base) + V8M_HUGE_PAGE_SIZE).
Definition dkey (x : desc) : Z * Z := (x.1, DESC_BYTES).
Definition whole (x : desc) : Prop := HugeSlab.inv x.2 /\ x.2.(slabs_per_huge) = 32.

(** The descriptors own their huge pages and mappings; [oth] and [od] are those of
    the rest of the program. *)
Record dinv (ds : list desc) (s : src) (oth od : list (Z * Z)) : Prop := {
  d_src : ps_inv s;
  d_regions : ps_regions s ≡ₚ (drange <$> ds) ++ oth;
  d_keys : ps_descs s ≡ₚ (dkey <$> ds) ++ od;
  d_nodup : NoDup ds.*1;
  d_whole : Forall whole ds
}.

(** Nothing carved is idle: every descriptor is in use, and full ones are on the
    full list. *)
Definition shape (nd : v8m_numa_pool_node) : Prop :=
  Forall (fun x : desc => v8m_huge_slab_is_full x.2 = false /\ v8m_huge_slab_is_empty x.2 = false) nd.(n_partials) /\
  Forall (fun x : desc => v8m_huge_slab_is_full x.2 = true) nd.(n_fulls).

Record pool_inv (pool : v8m_numa_pool) (s : src) (oth od : list (Z * Z)) : Prop := {
  pi_length : length pool = 64%nat;
  pi_shape : Forall shape pool;
  pi_descs : dinv (all_descs pool) s oth od
}.

(** The 64 KiB pages handed out. *)
Definition out (ds : list desc) (p : Z) : Prop :=
  exists x i, x ∈ ds /\ 0 <= i < 32 /\ carved x.2 i = true /\ p = slot_at x.2 i.
Definition carved_out (pool : v8m_numa_pool) (p : Z) : Prop := out (all_descs pool) p.

Lemma out_perm ds ds' p : ds ≡ₚ ds' -> out ds p <-> out ds' p.
Proof. intros Hp. unfold out. by setoid_rewrite Hp. Qed.

Lemma dinv_perm ds ds' s oth od : ds ≡ₚ ds' -> dinv ds s oth od -> dinv ds' s oth od.
Proof.
  intros Hp [A B C D E]. constructor.
  - done.
  - by rewrite <- Hp.
  - by rewrite <- Hp.
  - by rewrite <- Hp.
  - by rewrite <- Hp.
Qed.

Lemma dinv_apart ds s oth od : dinv ds s oth od -> all_apart ((drange <$> ds) ++ oth).
Proof. intros D. eapply all_apart_perm; [apply D|]. apply ps_apart, D. Qed.

(** Different descriptors have different huge pages. *)
Lemma dinv_base ds s oth od x y :
  dinv ds s oth od -> x ∈ ds -> y ∈ ds -> x = y \/ apart (drange x) (drange y).
Proof.
  intros D Hx Hy. destruct (dinv_apart _ _ _ _ D) as (Nd & Ap & _).
  apply NoDup_app in Nd as (Nd & _ & _). destruct (decide (drange x = drange y)) as [He|Hne].
  - left. by eapply NoDup_fmap_elem.
  - right. apply Ap; [apply elem_of_app; left; by apply list_elem_of_fmap_2..|done].
Qed.

Lemma slot_in_range x i : whole x -> 0 <= i < 32 ->
  x.2.(base) <= slot_at x.2 i /\ slot_at x.2 i + V8M_PAGE_SIZE <= x.2.(base) + V8M_HUGE_PAGE_SIZE.
Proof. intros [I Hs] Hi. destruct (slot_at_bounds x.2 i I ltac:(lia)) as (? & ? & _). lia. Qed.

Lemma slot_unique ds s oth od x y i j :
  dinv ds s oth od -> x ∈ ds -> y ∈ ds -> 0 <= i < 32 -> 0 <= j < 32 -> slot_at x.2 i = slot_at y.2 j -> x = y /\ i = j.
Proof.
  intros D Hx Hy Hi Hj He. pose proof (d_whole _ _ _ _ D) as Hw. rewrite Forall_forall in Hw.
  pose proof (slot_in_range x i (Hw x Hx) Hi). pose proof (slot_in_range y j (Hw y Hy) Hj).
  rewrite page_size_eq in *.
  destruct (dinv_base _ _ _ _ x y D Hx Hy) as [->|Ha].
  - split; [done|]. unfold slot_at in He. rewrite page_size_eq in He. lia.
  - unfold apart, drange in Ha. cbn in Ha. lia.
Qed.

(** Replacing one descriptor's bitmap. *)
Lemma dinv_update d hs hs' ds s oth od :
  hs'.(base) = hs.(base) -> whole (d, hs') -> dinv ((d, hs) :: ds) s oth od -> dinv ((d, hs') :: ds) s oth od.
Proof.
  intros Hb Hw [A B C D E]. apply Forall_cons in E as [_ E]. constructor; [done| |done|done|by constructor].
  cbn [fmap list_fmap] in B |- *. unfold drange at 1. cbn [snd]. rewrite Hb. exact B.
Qed.

(** ** Carving *)

Lemma init_whole b node : 0 < b -> (V8M_HUGE_PAGE_SIZE | b) -> b + V8M_HUGE_PAGE_SIZE <= 2 ^ 64 ->
  forall d, whole (d, v8m_huge_slab_init b node V8M_HUGE_SLABS_PER_HUGE) /\
    v8m_huge_slab_is_full (v8m_huge_slab_init b node V8M_HUGE_SLABS_PER_HUGE) = false /\
    (forall i, carved (v8m_huge_slab_init b node V8M_HUGE_SLABS_PER_HUGE) i = false).
Proof.
  intros H0 Hd He d. destruct (huge_init_inv b node V8M_HUGE_SLABS_PER_HUGE H0 Hd He ltac:(by vm_compute)) as [I _].
  split_and!; [by split|done|]. intros i. unfold carved. cbn. apply Z.bits_0.
Qed.

Lemma carved_nonempty x i : whole x -> 0 <= i < 32 -> carved x.2 i = true -> v8m_huge_slab_is_empty x.2 = false.
Proof.
  intros [I Hs] Hi Hc. destruct (v8m_huge_slab_is_empty x.2) eqn:E; [|done].
  apply (is_empty_iff x.2 I) with (i := i) in E; [congruence|lia].
Qed.

(** Taking one slab page from a descriptor with room. *)
Lemma carve_desc d hs ds s oth od :
  dinv ((d, hs) :: ds) s oth od -> v8m_huge_slab_is_full hs = false ->
  exists hs' p, v8m_huge_slab_alloc hs = (hs', p) /\ dinv ((d, hs') :: ds) s oth od /\ v8m_huge_slab_is_empty hs' = false /\
    page_base p /\ p <> NULL /\ ~ out ((d, hs) :: ds) p /\ (forall q, out ((d, hs') :: ds) q <-> q = p \/ out ((d, hs) :: ds) q).
Proof.
  intros D Hf. pose proof (d_whole _ _ _ _ D) as Hw. apply Forall_cons in Hw as [[I Hs] _]. cbn in I, Hs.
  destruct (huge_alloc_cases hs I) as [[Hf' _]|(_ & i & hs' & Ha & I' & Hb & Hs' & _ & Hi & Hci & _ & Hc')]; [congruence|].
  rewrite Hs in *. assert (Hw' : whole (d, hs')) by (split; [done|by cbn; rewrite Hs']).
  exists hs', (slot_at hs i). split; [done|]. split; [by eapply dinv_update|].
  assert (Hcc : carved hs' i = true) by (rewrite Hc' by lia; by rewrite Z.eqb_refl).
  split; [exact (carved_nonempty (d, hs') i Hw' Hi Hcc)|].
  destruct (slot_at_bounds hs i I ltac:(lia)) as (Hlo & Hhi & Hdv). pose proof I as [(Hb0 & Hb1 & Hb2) _ _].
  rewrite page_size_eq in *. split; [split_and!; [lia|rewrite page_size_eq; lia|by rewrite page_size_eq]|].
  split; [unfold NULL; lia|]. split.
  - intros (y & j & Hy & Hj & Hyc & He). destruct (slot_unique _ _ _ _ (d, hs) y i j D ltac:(left) Hy Hi Hj He) as [<- <-].
    cbn in Hyc. congruence.
  - assert (Hsl : forall j, slot_at hs' j = slot_at hs j) by (intros j; unfold slot_at; by rewrite Hb).
    intros q. split.
    + intros (y & j & [->|Hy]%elem_of_cons & Hj & Hyc & ->); [|right; exists y, j; split_and!; [by right|lia|lia|done|done]].
      cbn in Hyc |- *. rewrite Hsl. rewrite Hc' in Hyc by lia. destruct (Z.eqb_spec j i) as [->|]; [by left|right].
      exists (d, hs), j. split_and!; [by left|lia|lia|done|done].
    + intros [->|(y & j & [->|Hy]%elem_of_cons & Hj & Hyc & ->)].
      * exists (d, hs'), i. split_and!; [by left|lia|lia|done|cbn; by rewrite Hsl].
      * exists (d, hs'), j. split_and!; [by left|lia|lia| |cbn; by rewrite Hsl]. cbn in Hyc |- *. rewrite Hc' by lia.
        rewrite Hyc. apply orb_true_r.
      * exists y, j. split_and!; [by right|lia|lia|done|done].
Qed.

Lemma add_huge_page_spec nd ds s oth od :
  dinv ds s oth od ->
  let '(s', nd', r) := add_huge_page s nd in
  match r with
  | None => dinv ds s' oth od /\ nd' = nd
  | Some x => dinv (x :: ds) s' oth od /\ nd'.(n_partials) = x :: nd.(n_partials) /\ nd'.(n_fulls) = nd.(n_fulls) /\
      v8m_huge_slab_is_full x.2 = false /\ (forall p, out (x :: ds) p <-> out ds p)
  end.
Proof.
  intros D. pose proof D as [A B C Nd W]. unfold add_huge_page, desc_alloc.
  pose proof (ps_alloc_law s V8M_HUGE_PAGE_SIZE 21 A ltac:(vm_compute; done) ltac:(by exists 32) ltac:(lia)) as Ha.
    change (Z.min 21 21) with 21 in Ha.
  change (2 ^ 21) with V8M_HUGE_PAGE_SIZE in Ha. destruct (ps_alloc s _ _) as [s1 b]. destruct Ha as (A1 & Hd1 & Hc).
  destruct (Z.eqb_spec b NULL) as [->|Hne].
  { destruct Hc as [[_ Hr]|(? & _)]; [|unfold NULL in *; lia]. split; [|done]. constructor; [done|by rewrite Hr|by rewrite Hd1|done|done]. }
  destruct Hc as [[? _]|(Hb0 & Hb1 & Hbd & Hr)]; [done|].
  pose proof (ps_mmap_law s1 DESC_BYTES A1 ltac:(by vm_compute)) as Hm. destruct (ps_mmap s1 DESC_BYTES) as [s2 [d|]].
  - destruct Hm as (A2 & Hr2 & _ & Hd2 & Hnew).
    destruct (init_whole b nd.(n_numa_node) Hb0 Hbd ltac:(lia) d) as (Hw & Hnf & Hnc).
    assert (Hnd : d ∉ ds.*1).
    { intros (x & -> & Hx)%list_elem_of_fmap. apply Hnew. rewrite Hd1, C, fmap_app. apply elem_of_app. left.
      rewrite <- list_fmap_compose. by apply (list_elem_of_fmap_2 (fst ∘ dkey)). }
    split_and!; [|done|done|done|].
    + constructor; [done| | |by constructor|by constructor].
      * rewrite Hr2, Hr, B. done.
      * rewrite Hd2, Hd1, C. done.
    + intros p. unfold out. split.
      * intros (y & i & [->|Hy]%elem_of_cons & Hi & Hyc & ->); [cbn [snd] in Hyc; by rewrite Hnc in Hyc|]. by exists y, i.
      * intros (y & i & Hy & Hi & Hyc & ->). exists y, i. split_and!; [by right|lia|lia|done|done].
  - destruct Hm as (A2 & Hr2 & Hd2).
    destruct (ps_free_law s2 b V8M_HUGE_PAGE_SIZE A2 ltac:(rewrite Hr2, Hr; left)) as (A3 & Hd3 & Hr3).
    split; [|done]. constructor; [done| |by rewrite Hd3, Hd2, Hd1|done|done].
    rewrite <- B. apply (Permutation_cons_inv (a := (b, b + V8M_HUGE_PAGE_SIZE))). by rewrite Hr3, Hr2, Hr.
Qed.

(** The node's lists after the carve. *)
Lemma carve_node_shape nd d hs hs' rest fs :
  nd.(n_partials) = (d, hs) :: rest -> nd.(n_fulls) = fs -> d ∉ rest.*1 -> d ∉ fs.*1 ->
  Forall (fun x : desc => v8m_huge_slab_is_full x.2 = false /\ v8m_huge_slab_is_empty x.2 = false) rest ->
  Forall (fun x : desc => v8m_huge_slab_is_full x.2 = true) fs -> v8m_huge_slab_is_empty hs' = false ->
  let nd1 := set_lists nd (write_desc d hs' nd.(n_partials)) (write_desc d hs' nd.(n_fulls)) in
  let nd2 := MkNode nd1.(n_partials) nd1.(n_fulls) nd1.(n_numa_node) nd1.(huge_pages_alive) nd1.(huge_pages_allocated)
               nd1.(huge_pages_released) (u64 (nd1.(slab_carve_calls) + 1)) nd1.(slab_release_calls) in
  let nd3 := if v8m_huge_slab_is_full hs' then set_lists nd2 (list_unlink nd2.(n_partials) d) ((d, hs') :: nd2.(n_fulls)) else nd2 in
  shape nd3 /\ node_descs nd3 ≡ₚ (d, hs') :: rest ++ fs.
Proof.
  intros Hp Hfs H1 H2 Hr Hf He. cbn zeta. cbn [n_partials n_fulls set_lists]. rewrite Hp, Hfs.
  pose proof (write_desc_middle d hs' hs [] rest (not_elem_of_nil _) H1) as Hw. cbn [app] in Hw.
  rewrite Hw, (write_desc_notin d hs' fs H2). destruct (v8m_huge_slab_is_full hs') eqn:Ef.
  - unfold shape, node_descs. cbn. rewrite Z.eqb_refl. split; [split; [done|by constructor]|]. by rewrite Permutation_middle.
  - unfold shape, node_descs. cbn. split; [split; [by constructor|done]|done].
Qed.

Lemma set_node_inv pool i nd rest s oth od ds :
  pool_inv pool s oth od -> 0 <= i < 64 -> shape nd ->
  all_descs (set_node_at pool i nd) ≡ₚ node_descs nd ++ rest -> node_descs nd ++ rest ≡ₚ ds ->
  forall s', dinv ds s' oth od -> pool_inv (set_node_at pool i nd) s' oth od.
Proof.
  intros [L Sh _] Hi Hs Hd Hp s' D. constructor.
  - unfold set_node_at. by rewrite length_insert.
  - by apply Forall_insert.
  - eapply dinv_perm; [|exact D]. by rewrite Hd, Hp.
Qed.

Lemma node_at_shape pool s oth od i : pool_inv pool s oth od -> 0 <= i < 64 -> shape (node_at pool i).
Proof.
  intros [L Sh _] Hi. unfold node_at. destruct (lookup_lt_is_Some_2 pool (Z.to_nat i) ltac:(lia)) as [x Hx]. rewrite Hx. cbn.
  rewrite Forall_forall in Sh. apply Sh. by eapply list_elem_of_lookup_2.
Qed.

Lemma set_node_same (pool : v8m_numa_pool) i : 0 <= i < Z.of_nat (length pool) -> set_node_at pool i (node_at pool i) = pool.
Proof.
  intros Hi. unfold set_node_at, node_at. destruct (lookup_lt_is_Some_2 pool (Z.to_nat i) ltac:(lia)) as [x Hx].
  rewrite Hx. cbn. by apply list_insert_id.
Qed.

(** No room on a node: no huge page with a free slot, and no new one to be had. *)
Definition node_exhausted (s : src) (nd : v8m_numa_pool_node) : Prop := nd.(n_partials) = [] /\ (add_huge_page s nd).2 = None.

Lemma carve_ok pool s oth od node :
  pool_inv pool s oth od -> 0 <= node < 64 ->
  let '(s', pool', p) := v8m_numa_pool_carve_slab s pool node in
  pool_inv pool' s' oth od /\
  (p = NULL /\ (forall q, carved_out pool' q <-> carved_out pool q) /\ node_exhausted s (node_at pool node) \/
   p <> NULL /\ page_base p /\ ~ carved_out pool p /\ (forall q, carved_out pool' q <-> q = p \/ carved_out pool q)).
Proof.
  intros I Hn. pose proof I as [L Sh D]. unfold v8m_numa_pool_carve_slab, V8M_NUMA_MAX_NODES. destruct (Z.leb_spec 64 node); [lia|].
  destruct (all_descs_split pool node ltac:(lia)) as (rest & Hall & Hset).
  destruct (node_at_shape _ _ _ _ node I Hn) as [Sp Sf]. set (nd := node_at pool node) in *.
  pose proof (dinv_perm _ _ _ _ _ Hall D) as D0.
  assert (Hcar : forall q, carved_out pool q <-> out (node_descs nd ++ rest) q) by (intros q; by apply out_perm).
  assert (Hmain : forall s1 nd1 x rs, nd1.(n_partials) = x :: rs -> nd1.(n_fulls) = nd.(n_fulls) ->
    dinv (x :: (rs ++ nd.(n_fulls)) ++ rest) s1 oth od -> v8m_huge_slab_is_full x.2 = false ->
    Forall (fun x : desc => v8m_huge_slab_is_full x.2 = false /\ v8m_huge_slab_is_empty x.2 = false) rs ->
    (forall q, out (x :: (rs ++ nd.(n_fulls)) ++ rest) q <-> carved_out pool q) ->
    let '(s', pool', p) := (let '(d, slab) := x in
        let '(slab, carved) := v8m_huge_slab_alloc slab in
        let nd := set_lists nd1 (write_desc d slab nd1.(n_partials)) (write_desc d slab nd1.(n_fulls)) in
        if carved =? NULL then (s1, set_node_at pool node nd, NULL)
        else
          let nd := MkNode nd.(n_partials) nd.(n_fulls) nd.(n_numa_node) nd.(huge_pages_alive) nd.(huge_pages_allocated)
                      nd.(huge_pages_released) (u64 (nd.(slab_carve_calls) + 1)) nd.(slab_release_calls) in
          let nd := if v8m_huge_slab_is_full slab
                    then set_lists nd (list_unlink nd.(n_partials) d) ((d, slab) :: nd.(n_fulls)) else nd in
          (s1, set_node_at pool node nd, carved)) in
    pool_inv pool' s' oth od /\
    (p = NULL /\ (forall q, carved_out pool' q <-> carved_out pool q) /\ node_exhausted s nd \/
     p <> NULL /\ page_base p /\ ~ carved_out pool p /\ (forall q, carved_out pool' q <-> q = p \/ carved_out pool q))).
  { intros s1 nd1 [d hs] rs Hps Hfs D1 Hnf Hrs Hout. cbn in Hnf.
    destruct (carve_desc d hs _ s1 oth od D1 Hnf) as (hs' & p & -> & D2 & Hne & Hpb & Hp0 & Hfresh & Hq).
    pose proof (d_nodup _ _ _ _ D1) as Nd. cbn in Nd. apply NoDup_cons in Nd as [Nd _].
    rewrite !fmap_app, !not_elem_of_app in Nd. destruct Nd as [[Nr Nf] _].
    destruct (Z.eqb_spec p NULL); [done|].
    destruct (carve_node_shape nd1 d hs hs' rs _ Hps Hfs Nr Nf Hrs Sf Hne) as [S3 P3].
    match type of S3 with shape ?n => set (nd3 := n) in * end.
    assert (P4 : node_descs nd3 ++ rest ≡ₚ (d, hs') :: (rs ++ nd.(n_fulls)) ++ rest) by (by rewrite P3).
    split; [by eapply set_node_inv|]. right. split_and!; [done|done|by rewrite <- Hout|].
    intros q. transitivity (out (node_descs nd3 ++ rest) q); [apply out_perm, Hset|]. by rewrite (out_perm _ _ q P4), Hq, Hout. }
  unfold carve_from. destruct (n_partials nd) as [|x rs] eqn:Hps.
  - pose proof (add_huge_page_spec nd (node_descs nd ++ rest) s oth od D0) as Ha.
    destruct (add_huge_page s nd) as [[s1 nd1] [x|]] eqn:Hadd.
    + destruct Ha as (D1 & Hp1 & Hf1 & Hnf & Ho). rewrite Hps in Hp1. unfold node_descs in D1, Ho. rewrite Hps in D1, Ho. cbn [app] in D1, Ho.
      pose proof (Hmain s1 nd1 x [] Hp1 Hf1) as Hm. cbn [app] in Hm. apply Hm; [done|done|done|].
      intros q. rewrite Ho. rewrite Hcar. unfold node_descs. by rewrite Hps.
    + destruct Ha as [D1 ->]. assert (Hid : set_node_at pool node nd = pool) by (apply set_node_same; lia). rewrite Hid.
      split; [|left; split_and!; [done|done|split; [done|by rewrite Hadd]]]. constructor; [done|done|]. by eapply dinv_perm; [symmetry|].
  - apply Forall_cons in Sp as [[Hnf _] Hrs]. unfold node_descs in D0, Hcar. rewrite Hps in D0, Hcar.
    apply (Hmain s nd x rs); [done|done|exact D0|done|done|]. intros q. by rewrite Hcar.
Qed.

(** Node numbers are unsigned; a negative one reads as 0. *)
Lemma carve_negative s pool node : node < 0 -> v8m_numa_pool_carve_slab s pool node = v8m_numa_pool_carve_slab s pool 0.
Proof.
  intros Hn. unfold v8m_numa_pool_carve_slab, node_at, set_node_at, V8M_NUMA_MAX_NODES.
  destruct (Z.leb_spec 64 node); [lia|]. by replace (Z.to_nat node) with (Z.to_nat 0) by lia.
Qed.

Lemma carve_keeps pool s oth od node r :
  pool_inv pool s oth od -> 0 <= node < 64 -> v8m_numa_pool_carve_slab s pool node = r -> pool_inv r.1.2 r.1.1 oth od.
Proof.
  intros I Hn <-. pose proof (carve_ok pool s oth od node I Hn) as Hc.
  destruct (v8m_numa_pool_carve_slab s pool node) as [[s' pool'] p]. by destruct Hc.
Qed.

(** ** Releasing *)

Definition huge_base (p : Z) : Z := Z.land p (u64 (Z.lnot (V8M_HUGE_PAGE_SIZE - 1))).

Lemma huge_base_slot x i : whole x -> 0 <= i < 32 -> huge_base (slot_at x.2 i) = x.2.(base).
Proof.
  intros Hw Hi. pose proof (slot_in_range x i Hw Hi) as [Hlo Hhi]. destruct Hw as [[(Hb0 & [q Hq] & Hb2) _ _] _].
  unfold huge_base. change V8M_HUGE_PAGE_SIZE with (2 ^ 21) in *. rewrite page_size_eq in Hhi.
  rewrite land_mask_clear by (unfold is_u64; lia). unfold slot_at in *. rewrite page_size_eq in *.
  rewrite Hq, Z.add_comm, Z.mod_add, Z.mod_small by lia. lia.
Qed.

Lemma find_owning_some nd p x : find_owning nd p = Some x -> x ∈ node_descs nd /\ x.2.(base) = huge_base p.
Proof.
  unfold find_owning, node_descs, huge_base. destruct (list_find _ nd.(n_partials)) as [[k y]|] eqn:E1.
  - intros [= <-]. apply list_find_Some in E1 as (Hk & Hb & _). split; [|done]. apply elem_of_app. left. by eapply list_elem_of_lookup_2.
  - destruct (list_find _ nd.(n_fulls)) as [[k y]|] eqn:E2; [|done]. cbn. intros [= <-].
    apply list_find_Some in E2 as (Hk & Hb & _). split; [|done]. apply elem_of_app. right. by eapply list_elem_of_lookup_2.
Qed.

Lemma find_owning_none nd p x : find_owning nd p = None -> x ∈ node_descs nd -> x.2.(base) <> huge_base p.
Proof.
  unfold find_owning, node_descs, huge_base. destruct (list_find _ nd.(n_partials)) as [[k y]|] eqn:E1; [done|].
  destruct (list_find _ nd.(n_fulls)) as [[k y]|] eqn:E2; [done|]. intros _.
  apply list_find_None in E1, E2. rewrite Forall_forall in E1, E2. intros [Hx|Hx]%elem_of_app; auto.
Qed.

(** A descriptor splits the list it is on. *)
Lemma desc_split (d : Z) (hs : v8m_huge_slab) (l : list desc) : (d, hs) ∈ l -> NoDup l.*1 ->
  exists l1 l2, l = l1 ++ (d, hs) :: l2 /\ d ∉ l1.*1 /\ d ∉ l2.*1.
Proof.
  intros (l1 & l2 & ->)%list_elem_of_split Nd. exists l1, l2. split; [done|]. rewrite fmap_app in Nd. cbn in Nd.
  apply NoDup_app in Nd as (_ & H1 & H2). apply NoDup_cons in H2 as [H2 _]. split; [|done].
  intros Hd. apply (H1 d Hd). by left.
Qed.

(** The two lists after the in-place write and the move of a formerly full
    descriptor: it is on the partial list, the rest is as before. *)
Lemma release_lists nd d hs hs' :
  (d, hs) ∈ node_descs nd -> NoDup (node_descs nd).*1 -> shape nd ->
  exists p1 p2 fs,
    (let ps := write_desc d hs' nd.(n_partials) in let fl := write_desc d hs' nd.(n_fulls) in
     if v8m_huge_slab_is_full hs then ((d, hs') :: ps, list_unlink fl d) else (ps, fl)) = (p1 ++ (d, hs') :: p2, fs) /\
    d ∉ p1.*1 /\ d ∉ p2.*1 /\ node_descs nd ≡ₚ (d, hs) :: (p1 ++ p2) ++ fs /\
    Forall (fun x : desc => v8m_huge_slab_is_full x.2 = false /\ v8m_huge_slab_is_empty x.2 = false) (p1 ++ p2) /\
    Forall (fun x : desc => v8m_huge_slab_is_full x.2 = true) fs.
Proof.
  intros Hin Nd [Sp Sf]. unfold node_descs in *. rewrite fmap_app in Nd. apply NoDup_app in Nd as (N1 & Nx & N2).
  cbn zeta. apply elem_of_app in Hin as [Hin|Hin].
  - pose proof Sp as Sp'. rewrite Forall_forall in Sp'. destruct (Sp' _ Hin) as [Hfl _]. cbn in Hfl. rewrite Hfl.
    assert (Hnf : d ∉ (n_fulls nd).*1). { apply Nx. by apply (list_elem_of_fmap_2 fst _ (d, hs)). }
    destruct (desc_split d hs _ Hin N1) as (l1 & l2 & El & H1 & H2). exists l1, l2, nd.(n_fulls). rewrite El.
    rewrite write_desc_middle, write_desc_notin by done. split_and!; [done|done|done| | |done].
    + rewrite <- Permutation_middle. done.
    + rewrite El in Sp. apply Forall_app in Sp as [? Sp]. apply Forall_cons in Sp as [_ ?]. by apply Forall_app.
  - pose proof Sf as Sf'. rewrite Forall_forall in Sf'. pose proof (Sf' _ Hin) as Hfl. cbn in Hfl. rewrite Hfl.
    assert (Hnp : d ∉ (n_partials nd).*1).
    { intros Hd. apply (Nx d Hd). by apply (list_elem_of_fmap_2 fst _ (d, hs)). }
    destruct (desc_split d hs _ Hin N2) as (l1 & l2 & El & H1 & H2). exists [], nd.(n_partials), (l1 ++ l2). rewrite El.
    rewrite write_desc_middle, write_desc_notin, list_unlink_middle by done. split_and!; [done|by intros ?%not_elem_of_nil|done| |done|].
    + cbn. by rewrite <- !Permutation_middle.
    + rewrite El in Sf. apply Forall_app in Sf as [? Sf]. apply Forall_cons in Sf as [_ ?]. by apply Forall_app.
Qed.

(** Clearing one carved page of a descriptor. *)
Lemma release_bit d hs hs' ds s oth od i :
  dinv ((d, hs) :: ds) s oth od -> 0 <= i < 32 -> HugeSlab.inv hs' -> hs'.(base) = hs.(base) -> hs'.(slabs_per_huge) = hs.(slabs_per_huge) ->
  (forall j, 0 <= j -> carved hs' j = negb (j =? i) && carved hs j) ->
  dinv ((d, hs') :: ds) s oth od /\ v8m_huge_slab_is_full hs' = false /\
  (forall q, out ((d, hs') :: ds) q <-> out ((d, hs) :: ds) q /\ q <> slot_at hs i).
Proof.
  intros D Hi I' Hb Hs Hc. pose proof (d_whole _ _ _ _ D) as Hw. apply Forall_cons in Hw as [[I Hs0] _]. cbn in I, Hs0.
  assert (Hw' : whole (d, hs')) by (split; [done|cbn; lia]). split; [by eapply dinv_update|]. split.
  { destruct (v8m_huge_slab_is_full hs') eqn:E; [|done]. apply (is_full_iff hs' I') with (i := i) in E; [|lia].
    rewrite Hc, Z.eqb_refl in E by lia. done. }
  assert (Hsl : forall j, slot_at hs' j = slot_at hs j) by (intros j; unfold slot_at; by rewrite Hb).
  intros q. split.
  - intros (y & j & [->|Hy]%elem_of_cons & Hj & Hyc & ->); cbn [snd] in *.
    + rewrite Hc in Hyc by lia. apply andb_true_iff in Hyc as [Hji Hyc]. apply negb_true_iff, Z.eqb_neq in Hji.
      split; [exists (d, hs), j; split_and!; [by left|lia|lia|done|by rewrite <- Hsl]|]. rewrite Hsl. unfold slot_at.
      rewrite page_size_eq. lia.
    + split; [exists y, j; split_and!; [by right|lia|lia|done|done]|]. intros He.
      destruct (slot_unique _ _ _ _ y (d, hs) j i D ltac:(by right) ltac:(left) Hj Hi He) as [-> _].
      pose proof (d_nodup _ _ _ _ D) as Nd. cbn in Nd. apply NoDup_cons in Nd as [Nd _]. apply Nd.
      by apply (list_elem_of_fmap_2 fst _ (d, hs)).
  - intros [(y & j & [->|Hy]%elem_of_cons & Hj & Hyc & ->) Hne]; cbn [snd] in *.
    + exists (d, hs'), j. split_and!; [by left|lia|lia| |by cbn; rewrite Hsl]. cbn. rewrite Hc by lia.
      destruct (Z.eqb_spec j i) as [->|]; [done|]. done.
    + exists y, j. split_and!; [by right|lia|lia|done|done].
Qed.

(** Dropping an empty descriptor and its huge page. *)
Lemma drop_desc d hs ds s oth od :
  dinv ((d, hs) :: ds) s oth od -> v8m_huge_slab_is_empty hs = true ->
  dinv ds (ps_free (desc_free s d) hs.(base) V8M_HUGE_PAGE_SIZE) oth od /\ (forall q, out ds q <-> out ((d, hs) :: ds) q).
Proof.
  intros D He. pose proof D as [A B C Nd W]. cbn in B, C, Nd. apply NoDup_cons in Nd as [_ Nd]. apply Forall_cons in W as [[I Hs] W].
  cbn in I, Hs. unfold desc_free.
  destruct (ps_munmap_law s d DESC_BYTES A ltac:(rewrite C; left)) as (A1 & Hr1 & Hd1).
  set (s1 := ps_munmap s d DESC_BYTES) in *.
  destruct (ps_free_law s1 hs.(base) V8M_HUGE_PAGE_SIZE A1 ltac:(rewrite Hr1, B; left)) as (A2 & Hd2 & Hr2).
  split.
  - constructor; [done| | |done|done].
    + apply (Permutation_cons_inv (a := drange (d, hs))). etransitivity; [exact Hr2|]. by rewrite Hr1, B.
    + rewrite Hd2. apply (Permutation_cons_inv (a := dkey (d, hs))). etransitivity; [exact Hd1|]. by rewrite C.
  - intros q. unfold out. split.
    + intros (y & j & Hy & Hj & Hyc & ->). exists y, j. split_and!; [by right|lia|lia|done|done].
    + intros (y & j & [->|Hy]%elem_of_cons & Hj & Hyc & ->); [|by exists y, j].
      cbn [snd] in Hyc. rewrite (proj1 (is_empty_iff hs I) He j) in Hyc by lia. done.
Qed.

Lemma release_desc_spec nd x rest s oth od p :
  dinv (node_descs nd ++ rest) s oth od -> shape nd -> x ∈ node_descs nd -> 0 <= p < 2 ^ 64 ->
  let '(s', nd', r) := release_desc s nd x p in
  shape nd' /\ dinv (node_descs nd' ++ rest) s' oth od /\
  (forall q, out (node_descs nd' ++ rest) q <-> out (node_descs nd ++ rest) q /\ (r = true -> q <> p)) /\
  (r = true <-> exists i, 0 <= i < 32 /\ carved x.2 i = true /\ p = slot_at x.2 i).
Proof.
  intros D Sh Hx Hp. destruct x as [d hs]. unfold release_desc. pose proof (d_whole _ _ _ _ D) as Hw. rewrite Forall_forall in Hw.
  destruct (Hw (d, hs) ltac:(apply elem_of_app; by left)) as [I Hs]. cbn in I, Hs.
  destruct (huge_free_cases hs p I Hp) as [(i & hs' & -> & Hpi & Hi & Hci & I' & Hb & Hsl & _ & Hc)|[-> Hno]]; cbn [negb].
  2: { split_and!; [done|done| |].
       - intros q. split; [intros Hq; by split|by intros [? _]].
       - split; [done|]. intros (i & Hi & Hc & He). cbn in Hc, He. rewrite (Hno i) in Hc by (lia || done). done. }
  rewrite Hs in Hi. pose proof (d_nodup _ _ _ _ D) as Nd. rewrite fmap_app in Nd. apply NoDup_app in Nd as (Nd & _ & _).
  destruct (release_lists nd d hs hs' Hx Nd Sh) as (p1 & p2 & fs & El & Hd1 & Hd2 & Hperm & Fp & Ff).
  assert (Hiff : true = true <-> exists i, 0 <= i < 32 /\ carved hs i = true /\ p = slot_at hs i) by (split; [by exists i|done]).
  assert (D1 : dinv ((d, hs) :: ((p1 ++ p2) ++ fs) ++ rest) s oth od) by (eapply dinv_perm; [|exact D]; by rewrite Hperm).
  destruct (release_bit d hs hs' _ s oth od i D1 Hi I' Hb Hsl Hc) as (D2 & Hnf & Hout).
  assert (Ho0 : forall q, out (node_descs nd ++ rest) q <-> out ((d, hs) :: ((p1 ++ p2) ++ fs) ++ rest) q).
  { intros q. apply out_perm. by rewrite Hperm. }
  set (nd1 := if v8m_huge_slab_is_full hs then _ else _).
  assert (E1 : nd1.(n_partials) = p1 ++ (d, hs') :: p2 /\ nd1.(n_fulls) = fs).
  { unfold nd1. destruct (v8m_huge_slab_is_full hs); cbn in *; by injection El as -> ->. }
  destruct E1 as [Ep Ef]. destruct (v8m_huge_slab_is_empty hs') eqn:He.
  - cbn [n_partials n_fulls set_lists]. rewrite Ep, Ef, list_unlink_middle by done.
    destruct (drop_desc d hs' _ s oth od D2 He) as [D3 Ho3]. split_and!; [split; [done|done]|exact D3| |exact Hiff].
    intros q. unfold node_descs at 1. cbn [n_partials n_fulls]. rewrite Ho3, Hout, Ho0, Hpi. tauto.
  - assert (Hp4 : node_descs nd1 ++ rest ≡ₚ (d, hs') :: ((p1 ++ p2) ++ fs) ++ rest).
    { unfold node_descs. rewrite Ep, Ef. by rewrite <- Permutation_middle. }
    split_and!; [split; rewrite ?Ep, ?Ef; [|done]|by eapply dinv_perm; [symmetry|]| |exact Hiff].
    + apply Forall_app in Fp as [F1 F2]. apply Forall_app. split; [done|by constructor].
    + intros q. rewrite (out_perm _ _ q Hp4), Hout, Ho0, Hpi. tauto.
Qed.

Lemma release_from_cases idx s pool p :
  (release_from idx s pool p = (s, pool, false) /\ forall i, i ∈ idx -> find_owning (node_at pool i) p = None) \/
  (exists i x, i ∈ idx /\ find_owning (node_at pool i) p = Some x /\
     release_from idx s pool p =
       (let '(s', nd, r) := release_desc s (node_at pool i) x p in (s', set_node_at pool i nd, r))).
Proof.
  induction idx as [|i idx IH]; [left; split; [done|by intros ? ?%not_elem_of_nil]|]. cbn [release_from].
  destruct (find_owning (node_at pool i) p) as [x|] eqn:E.
  - right. exists i, x. split; [by left|]. by split.
  - destruct IH as [[-> Hn]|(j & x & Hj & Hf & ->)].
    + left. split; [done|]. intros j [->|Hj]%elem_of_cons; auto.
    + right. exists j, x. split; [by right|]. by split.
Qed.

Lemma all_descs_node pool x : x ∈ all_descs pool -> exists i, 0 <= i < Z.of_nat (length pool) /\ x ∈ node_descs (node_at pool i).
Proof.
  unfold all_descs. rewrite list_elem_of_In, in_concat. intros (l & Hl & Hx). rewrite <- list_elem_of_In in Hl. rewrite <- list_elem_of_In in Hx. apply list_elem_of_fmap in Hl as (nd & -> & Hnd). apply list_elem_of_lookup_1 in Hnd as [n Hn].
  exists (Z.of_nat n). pose proof (lookup_lt_Some _ _ _ Hn). split; [lia|]. unfold node_at. by rewrite Nat2Z.id, Hn.
Qed.

Lemma release_ok pool s oth od p :
  pool_inv pool s oth od -> 0 <= p < 2 ^ 64 ->
  let '(s', pool', r) := v8m_numa_pool_release_slab s pool p in
  pool_inv pool' s' oth od /\ (r = true <-> carved_out pool p) /\ (forall q, carved_out pool' q <-> carved_out pool q /\ q <> p).
Proof.
  intros I Hp. pose proof I as [L Sh D]. pose proof (d_whole _ _ _ _ D) as Hw. rewrite Forall_forall in Hw.
  assert (Hown : forall y i, y ∈ all_descs pool -> 0 <= i < 32 -> p = slot_at y.2 i -> y.2.(base) = huge_base p).
  { intros y i Hy Hi ->. symmetry. apply huge_base_slot; [by apply Hw|done]. }
  assert (Hno : ~ carved_out pool p -> forall q, carved_out pool q <-> carved_out pool q /\ q <> p).
  { intros Hn q. split; [intros Hq; split; [done|by intros ->]|by intros [? _]]. }
  unfold v8m_numa_pool_release_slab. destruct (Z.eqb_spec p NULL) as [->|Hne].
  { assert (Hn : ~ carved_out pool NULL).
    { intros (y & i & Hy & Hi & _ & He). destruct (slot_in_range y i (Hw y Hy) Hi) as [Hlo _]. destruct (Hw y Hy) as [[(? & _) _ _] _].
      unfold NULL in *. lia. }
    split_and!; [done|split; [done|done]|by apply Hno]. }
  destruct (release_from_cases (seqZ 0 V8M_NUMA_MAX_NODES) s pool p) as [[-> Hnone]|(i & x & Hi & Hx & ->)].
  - assert (Hn : ~ carved_out pool p).
    { intros (y & i & Hy & Hi & _ & He). destruct (all_descs_node pool y Hy) as (n & Hn & Hyn).
      eapply (find_owning_none _ p y); [apply (Hnone n)|exact Hyn|by eapply Hown]. apply elem_of_seqZ. unfold V8M_NUMA_MAX_NODES. lia. }
    split_and!; [done|split; [done|done]|by apply Hno].
  - apply elem_of_seqZ in Hi. unfold V8M_NUMA_MAX_NODES in Hi. apply find_owning_some in Hx as [Hx Hb].
    destruct (all_descs_split pool i ltac:(lia)) as (rest & Hall & Hset). pose proof (dinv_perm _ _ _ _ _ Hall D) as D0.
    pose proof (release_desc_spec (node_at pool i) x rest s oth od p D0 (node_at_shape _ _ _ _ i I ltac:(lia)) Hx Hp) as Hr.
    destruct (release_desc s (node_at pool i) x p) as [[s' nd'] r]. destruct Hr as (S' & D' & Ho & Hr).
    assert (Hxin : x ∈ all_descs pool) by (rewrite Hall; apply elem_of_app; by left).
    assert (Hiff : r = true <-> carved_out pool p).
    { rewrite Hr. split; [intros (j & Hj & Hc & He); by exists x, j|]. intros (y & j & Hy & Hj & Hc & He).
      pose proof (Hown y j Hy Hj He) as Hby. destruct (dinv_base _ _ _ _ x y D Hxin Hy) as [->|Ha]; [by exists j|].
      unfold apart, drange in Ha. cbn in Ha. rewrite Hb, Hby in Ha. change V8M_HUGE_PAGE_SIZE with (2 ^ 21) in Ha. lia. }
    split; [eapply set_node_inv; [done|lia|done|apply Hset|reflexivity|done]|]. split; [done|].
    intros q. unfold carved_out at 1. rewrite (out_perm _ _ q (Hset nd')), Ho. unfold carved_out. rewrite (out_perm _ _ q Hall).
    split; intros [Hq Hqp]; (split; [done|]); [|done]. intros ->. apply Hqp; [|done]. apply Hiff. unfold carved_out. by rewrite (out_perm _ _ p Hall).
Qed.

(** Carving keeps the pool's invariant and hands out a 64 KiB page that was not
    handed out before.  It fails only when the node has no huge page with a free
    slot and no new one can be had, and then changes nothing that is handed out. *)
Theorem v8m_numa_pool_carve_spec pool s oth od node :
  pool_inv pool s oth od -> 0 <= node < 64 ->
  let '(s', pool', p) := v8m_numa_pool_carve_slab s pool node in
  pool_inv pool' s' oth od /\
  (p = NULL /\ (forall q, carved_out pool' q <-> carved_out pool q) /\ node_exhausted s (node_at pool node) \/
   p <> NULL /\ page_base p /\ ~ carved_out pool p /\ (forall q, carved_out pool' q <-> q = p \/ carved_out pool q)).
Proof. apply carve_ok. Qed.

(** Releasing succeeds exactly on pages handed out, takes back exactly that
    page, and returns a huge page to the page heap with its last page; nothing of
    the rest of the program's memory changes hands. *)
Theorem v8m_numa_pool_release_spec pool s oth od p :
  pool_inv pool s oth od -> 0 <= p < 2 ^ 64 ->
  let '(s', pool', r) := v8m_numa_pool_release_slab s pool p in
  pool_inv pool' s' oth od /\ (r = true <-> carved_out pool p) /\ (forall q, carved_out pool' q <-> carved_out pool q /\ q <> p).
Proof. apply release_ok. Qed.

End Proofs.

(** ** A pool on the page heap of the example machine *)

Definition ex_src : @src (@heap_source Os.log_os) := MkSrc PageHeapSpec.ex_heap (fun _ => PageHeapSpec.ex_env) 0 [].
Definition ex_pool : v8m_numa_pool := fst (v8m_numa_pool_init (fun _ => 0)).

Lemma ex_src_inv : sinv ex_src.
Proof.
  constructor; cbn; [apply PageHeapSpec.ex_heap_hinv|constructor|by intros x a ?%not_elem_of_nil|by intros x ?%not_elem_of_nil|by intros x y a ?%not_elem_of_nil].
Qed.

#[local] Existing Instance Os.log_os_laws.

Lemma ex_pool_inv : pool_inv ex_pool ex_src [] [].
Proof.
  assert (Hp : ex_pool = (fun i => MkNode [] [] i 0 0 0 0 0) <$> seqZ 0 64) by (vm_compute; reflexivity).
  constructor; [by rewrite Hp| |].
  - rewrite Hp. apply Forall_fmap, Forall_forall. intros i _. split; constructor.
  - replace (all_descs ex_pool) with (@nil desc) by (vm_compute; reflexivity).
    constructor; [apply ex_src_inv|done|done|constructor|constructor].
Qed.

Lemma v8m_numa_pool_carve_spec_witness :
  snd (v8m_numa_pool_carve_slab ex_src ex_pool 1) = 2 ^ 30 + 2 ^ 21 /\
  let '(s', pool', p) := v8m_numa_pool_carve_slab ex_src ex_pool 1 in
  pool_inv pool' s' [] [] /\
  (p = NULL /\ (forall q, carved_out pool' q <-> carved_out ex_pool q) /\ node_exhausted ex_src (node_at ex_pool 1) \/
   p <> NULL /\ page_base p /\ ~ carved_out ex_pool p /\ (forall q, carved_out pool' q <-> q = p \/ carved_out ex_pool q)).
Proof.
  split; [vm_compute; reflexivity|].
  apply (v8m_numa_pool_carve_spec ex_pool ex_src [] [] 1 ex_pool_inv). lia.
Defined.

(** One page handed out on node 1. *)
Definition ex_carved := v8m_numa_pool_carve_slab ex_src ex_pool 1.
Lemma ex_carved_eq : v8m_numa_pool_carve_slab ex_src ex_pool 1 = ex_carved.
Proof. unfold ex_carved. reflexivity. Qed.

Lemma ex_carved_inv : pool_inv ex_carved.1.2 ex_carved.1.1 [] [].
Proof. exact (carve_keeps ex_pool ex_src [] [] 1 ex_carved ex_pool_inv ltac:(lia) ex_carved_eq). Qed.

Lemma v8m_numa_pool_release_spec_witness :
  (v8m_numa_pool_release_slab ex_carved.1.1 ex_carved.1.2 (2 ^ 30 + 2 ^ 21)).2 = true /\
  let '(s', pool', r) := v8m_numa_pool_release_slab ex_carved.1.1 ex_carved.1.2 (2 ^ 30 + 2 ^ 21) in
  pool_inv pool' s' [] [] /\ (r = true <-> carved_out ex_carved.1.2 (2 ^ 30 + 2 ^ 21)) /\
  (forall q, carved_out pool' q <-> carved_out ex_carved.1.2 q /\ q <> 2 ^ 30 + 2 ^ 21).
Proof.
  split; [vm_compute; reflexivity|].
  apply (v8m_numa_pool_release_spec ex_carved.1.2 ex_carved.1.1 [] [] (2 ^ 30 + 2 ^ 21) ex_carved_inv). lia.
Defined.

End NumaPool.
