(* ===== verification/SlabPage.v ===== *)
(** What a slab page promises to the slab pool.

    [Slab] names the operations the two kinds of slab page share; [SlabLaws] states
    them on the set of objects in use.  [tiny_slab] and [small_slab] are the two
    implementations ([SlabTiny], [SlabSmall]); the pool's dispatch on the size class
    ([src/v8m_slab_pool.c], [slab_*_dispatch]) picks one. *)

From S2P Require Import Prelude SizeClass Page SlabTiny SlabSmall.
Import SizeClass Page.

Module SlabPage.

Class Slab := {
  so_alloc : mem -> Z -> page_meta -> page_meta * Z;
  so_free : mem -> Z -> page_meta -> Z -> mem * page_meta * bool;
  so_full : page_meta -> bool;
  so_init : Z -> mem -> Z -> Z -> Z -> mem * page_meta;
  so_class : Z -> Prop
}.

(** The fields the operations leave alone. *)
Definition same_header (m m' : page_meta) : Prop :=
  m'.(magic) = m.(magic) /\ m'.(size_class) = m.(size_class) /\ m'.(object_size) = m.(object_size) /\
  m'.(capacity) = m.(capacity) /\ m'.(next) = m.(next) /\ m'.(arena_id) = m.(arena_id).

(** The data area of a page. *)
Definition in_page (base a : Z) : Prop := base + V8M_SLAB_HEADER_SIZE <= a < base + V8M_PAGE_SIZE.

(** [so_ok base mm m L]: [m] is the header of a well-formed page at [base], and [L]
    holds of the objects in use. *)
Class SlabLaws `{Slab} := {
  so_ok : Z -> mem -> page_meta -> (Z -> Prop) -> Prop;
  so_ext : forall base mm m L L', so_ok base mm m L -> (forall a, L a <-> L' a) -> so_ok base mm m L';
  so_inside : forall base mm m L a, page_base base -> so_ok base mm m L -> L a -> in_page base a /\ a + m.(object_size) <= base + V8M_PAGE_SIZE;
  so_grid : forall base mm m L, so_ok base mm m L -> exists off, (off = V8M_SLAB_HEADER_SIZE \/ off = m.(object_size)) /\
    forall a, L a -> exists s, a = base + off + s * m.(object_size);
  so_used : forall base mm m L, page_base base -> so_ok base mm m L ->
    0 <= m.(used_count) <= m.(capacity) /\ 1 < m.(capacity) < 2 ^ 32 /\ so_full m = (m.(used_count) =? m.(capacity)) /\
    (m.(used_count) = 0 <-> forall a, ~ L a);
  so_frame : forall base mm mm' m L, page_base base -> so_ok base mm m L ->
    (forall a, in_page base a -> (forall q, L q -> ~ q <= a < q + m.(object_size)) -> rd mm' a = rd mm a) -> so_ok base mm' m L;
  so_links : forall base mm m L v w, so_ok base mm m L -> so_ok base mm (set_arena_id (set_next m v) w) L;
  so_init_law : forall cpu mm base c owner, page_base base -> so_class c ->
    let '(mm', m) := so_init cpu mm base c owner in
    so_ok base mm' m (fun _ => False) /\ m.(size_class) = c /\ m.(object_size) = class_size c /\ m.(next) = NULL /\ m.(magic) = V8M_MAGIC /\
    (forall a, ~ in_page base a -> rd mm' a = rd mm a);
  so_alloc_law : forall base mm m L, page_base base -> so_ok base mm m L ->
    (so_full m = true /\ so_alloc mm base m = (m, NULL)) \/
    (so_full m = false /\ exists m' a, so_alloc mm base m = (m', a) /\ a <> NULL /\ ~ L a /\ same_header m m' /\
       m'.(used_count) = m.(used_count) + 1 /\ so_ok base mm m' (fun q => q = a \/ L q));
  so_free_law : forall base mm m L a, page_base base -> so_ok base mm m L -> L a ->
    exists mm' m', so_free mm base m a = (mm', m', m.(used_count) =? 1) /\ same_header m m' /\
      m'.(used_count) = m.(used_count) - 1 /\ so_ok base mm' m' (fun q => L q /\ q <> a) /\
      (forall b, b <> a -> rd mm' b = rd mm b)
}.

(** ** Tiny slabs *)

#[export] Instance tiny_slab : Slab := {|
  so_alloc _ base m := SlabTiny.v8m_slab_tiny_alloc base m;
  so_free mm base m obj := let '(m, e) := SlabTiny.v8m_slab_tiny_free base m obj in (mm, m, e);
  so_full := SlabTiny.v8m_slab_tiny_is_full;
  so_init cpu mm _ c owner := (mm, SlabTiny.v8m_slab_tiny_init v8m_class_to_size cpu c owner);
  so_class c := 0 <= c < V8M_SMALL_FIRST_CLASS
|}.

Definition tiny_slot (base : Z) (m : page_meta) (s : Z) : Z := base + V8M_SLAB_HEADER_SIZE + s * m.(object_size).
Definition tiny_ok (base : Z) (_ : mem) (m : page_meta) (L : Z -> Prop) : Prop :=
  SlabTiny.inv m /\ forall a, L a <-> exists s, 0 <= s < m.(capacity) /\ SlabTiny.live m s = true /\ a = tiny_slot base m s.

Lemma tiny_alloc_header base m : same_header m (SlabTiny.v8m_slab_tiny_alloc base m).1.
Proof.
  unfold SlabTiny.v8m_slab_tiny_alloc. destruct (SlabTiny.scan _ _); [done|]. by destruct (SlabTiny.scan _ _).
Qed.

Lemma tiny_free_header base m obj : same_header m (SlabTiny.v8m_slab_tiny_free base m obj).1.
Proof. unfold SlabTiny.v8m_slab_tiny_free. by destruct (_ <? _). Qed.

Lemma tiny_slot_inj base m s t : SlabTiny.inv m -> tiny_slot base m s = tiny_slot base m t -> s = t.
Proof. intros [Ho _ _ _ _ _ _] He. unfold tiny_slot in He. nia. Qed.

#[export] Instance tiny_laws : @SlabLaws tiny_slab.
Proof.
  refine (@Build_SlabLaws tiny_slab tiny_ok _ _ _ _ _ _ _ _ _).
  - intros base mm m L L' [I HL] He. split; [done|]. intros a. by rewrite <- He.
  - intros base mm m L a Hb [I HL] (s & Hs & _ & ->)%HL. destruct (SlabTiny.slot_addr_eq base m s Hb I Hs) as [_ Hfit].
    pose proof (SlabTiny.inv_object_size m I). unfold in_page, tiny_slot, V8M_SLAB_HEADER_SIZE in *. rewrite page_size_eq in *. nia.
  - intros base mm m L [I HL]. exists V8M_SLAB_HEADER_SIZE. split; [by left|]. intros a (s & _ & _ & ->)%HL. by exists s.
  - intros base mm m L Hb [I HL]. pose proof I as [Io Ic _ _ _ Iu _]. destruct (SlabTiny.capacity_bounds _ Io) as (Hc0 & Hc & _).
    assert (992 <= 63488 / m.(object_size)) by (apply Z.div_le_lower_bound; lia). rewrite <- Ic in Hc0, Hc. unfold SlabTiny.BITMAP_CAPACITY_BITS, SlabTiny.BITMAP_WORDS, SlabTiny.BITS_PER_WORD in Hc.
    pose proof (count_below_bounds (SlabTiny.live m) (Z.to_nat m.(capacity))) as Hcb. rewrite <- Iu in Hcb.
    split_and!; [lia|lia|lia|lia|done|]. split.
    + intros H0 a (s & Hs & Hl & ->)%HL. rewrite Iu in H0. rewrite (count_below_zero _ _ H0 s) in Hl by lia. done.
    + intros Hn. rewrite Iu. apply count_below_none. intros s Hs. destruct (SlabTiny.live m s) eqn:E; [|done].
      destruct (Hn (tiny_slot base m s)). apply HL. exists s. split; [lia|done].
  - done.
  - intros base mm m L v w [I HL]. split; [|exact HL]. by destruct I.
  - intros cpu mm base c owner Hb Hc. cbn. destruct (SlabTiny.init_inv cpu c owner Hc) as (I & Hl & Hu & Ho).
    change (0 <= c < 8) in Hc. split_and!; [|by apply u16_small; lia|done|done|done|done]. split; [done|]. intros a. split; [done|].
    intros (s & Hs & Hl' & _). rewrite Hl in Hl' by lia. done.
  - intros base mm m L Hb [I HL]. cbn.
    destruct (SlabTiny.alloc_cases base m Hb I) as [?|[Hf (s & m' & Hs & Hl & He & I' & Hl' & Hu & Ho & Hc)]]; [by left|right].
    split; [done|]. exists m', (tiny_slot base m s). split; [done|].
    pose proof (SlabTiny.inv_object_size m I). split; [unfold tiny_slot, NULL, V8M_SLAB_HEADER_SIZE; destruct Hb; nia|].
    split; [|split; [|split; [done|split; [done|]]]].
    + intros (t & Ht & Hlt & Heq)%HL. apply (tiny_slot_inj base m s t I) in Heq as ->. congruence.
    + pose proof (tiny_alloc_header base m) as Hh. by rewrite He in Hh.
    + intros a. unfold tiny_slot. rewrite Ho, Hc. rewrite HL. unfold tiny_slot. split.
      * intros [->|(t & Ht & Hlt & ->)]; [exists s|exists t]; (split; [lia|]); (split; [|done]); rewrite Hl' by lia;
          [by rewrite Z.eqb_refl|rewrite Hlt; apply orb_true_r].
      * intros (t & Ht & Hlt & ->). rewrite Hl' in Hlt by lia. destruct (Z.eqb_spec t s) as [->|]; [by left|right]. by exists t.
  - intros base mm m L a Hb [I HL] (s & Hs & Hls & ->)%HL. unfold so_free, tiny_slab.
    destruct (SlabTiny.free_cases base m s Hb I Hs Hls) as (m' & He & I' & Hl' & Hu & Ho & Hc). unfold tiny_slot in *. rewrite He.
    exists mm, m'. split; [done|]. split; [pose proof (tiny_free_header base m (base + V8M_SLAB_HEADER_SIZE + s * m.(object_size))) as Hh; by rewrite He in Hh|].
    split; [done|]. split; [|done]. split; [done|]. intros a. unfold tiny_slot. rewrite Ho, Hc, HL. unfold tiny_slot. split.
    + intros [(t & Ht & Hlt & ->) Hne]. exists t. split; [lia|]. split; [|done]. rewrite Hl' by lia.
      destruct (Z.eqb_spec t s) as [->|]; [done|done].
    + intros (t & Ht & Hlt & ->). rewrite Hl' in Hlt by lia. apply andb_true_iff in Hlt as [Hts Hlt].
      apply negb_true_iff, Z.eqb_neq in Hts. split; [by exists t|]. intros Heq. apply Hts. by apply (tiny_slot_inj base m).
Defined.
(** ** Small slabs *)

#[export] Instance small_slab : Slab := {|
  so_alloc mm _ m := SlabSmall.v8m_slab_small_alloc mm m;
  so_free mm _ m obj := SlabSmall.v8m_slab_small_free mm m obj;
  so_full := SlabSmall.v8m_slab_small_is_full;
  so_init cpu mm base c owner := SlabSmall.v8m_slab_small_init v8m_class_to_size cpu mm base c owner;
  so_class c := V8M_SMALL_FIRST_CLASS <= c < V8M_MEDIUM_FIRST_CLASS
|}.

Definition small_ok (base : Z) (mm : mem) (m : page_meta) (L : Z -> Prop) : Prop :=
  exists l, SlabSmall.rep base mm m l /\ forall a, L a <-> SlabSmall.is_slot base m a /\ a ∉ l.

Lemma chain_agree mm mm' h l : chain mm h l -> (forall a, a ∈ l -> rd mm' a = rd mm a) -> chain mm' h l.
Proof.
  revert h. induction l as [|a l IH]; intros h; cbn; [done|]. intros (-> & Ha & Hc) He. split_and!; [done|done|].
  rewrite (He a) by (by left). apply IH; [done|]. intros b Hb. apply He. by right.
Qed.

Lemma small_slots_elem base m a :
  m.(capacity) = SlabSmall.v8m_slab_small_capacity_for m.(object_size) -> 0 <= m.(capacity) ->
  a ∈ SlabSmall.slots base m.(object_size) <-> SlabSmall.is_slot base m a.
Proof.
  intros Hc H0. unfold SlabSmall.slots, SlabSmall.is_slot. rewrite list_elem_of_In, in_map_iff, <- Hc. split.
  - intros (i & <- & Hi%in_seq). exists (Z.of_nat i). split; [lia|done].
  - intros (i & Hi & ->). exists (Z.to_nat i). rewrite Z2Nat.id by lia. split; [done|]. apply in_seq. lia.
Qed.

Lemma link_slots_outside base sz n mm h a :
  page_base base -> SlabSmall.small_size sz -> Z.of_nat n <= SlabSmall.v8m_slab_small_capacity_for sz -> ~ in_page base a ->
  rd (SlabSmall.link_slots base sz n mm h).1 a = rd mm a.
Proof.
  intros Hb Hs Hn Ha. revert mm h Hn. induction n as [|n IH]; intros mm h Hn; [done|]. cbn [SlabSmall.link_slots].
  rewrite IH by lia. destruct (SlabSmall.small_slot_addr_eq base sz (Z.of_nat n) Hb Hs ltac:(lia)) as [-> Hf].
  pose proof (SlabSmall.data_offset_bounds sz Hs) as [Ho _]. apply rd_wr_ne. intros <-. apply Ha. destruct Hs as [Hs _].
  unfold in_page, V8M_SLAB_HEADER_SIZE. rewrite page_size_eq in *. nia.
Qed.

#[export] Instance small_laws : @SlabLaws small_slab.
Proof.
  refine (@Build_SlabLaws small_slab small_ok _ _ _ _ _ _ _ _ _).
  - intros base mm m L L' (l & R & HL) He. exists l. split; [done|]. intros a. by rewrite <- He.
  - intros base mm m L a Hb (l & R & HL) [Hs _]%HL. pose proof R as [Rs Rc _ _ _].
    destruct (SlabSmall.is_slot_inside base m a Hb Rs Rc Hs) as (H1 & H2 & _). destruct Rs as [Rs _]. unfold in_page. lia.
  - intros base mm m L (l & R & HL). exists (SlabSmall.v8m_slab_small_data_offset m.(object_size)). split.
    + unfold SlabSmall.v8m_slab_small_data_offset. destruct (_ <? _); [by right|by left].
    + intros a [(i & _ & ->) _]%HL. by exists i.
  - intros base mm m L Hb (l & R & HL). pose proof R as [Rs Rc Rch Rsl Ru]. pose proof (SlabSmall.rep_length _ _ _ _ R).
    destruct (SlabSmall.small_capacity_bounds _ Rs) as (_ & Hcap & _). split_and!; [lia|lia|lia|lia|done|]. split.
    + intros H0 a [Hs Hn]%HL. pose proof (SlabSmall.used_positive _ _ _ _ _ R Hs Hn). lia.
    + intros Hn. assert (Hsub : SlabSmall.slots base m.(object_size) ⊆+ l).
      { apply NoDup_submseteq.
        - unfold SlabSmall.slots. apply NoDup_fmap_2_strong; [|apply NoDup_seq]. intros i j _ _ He. destruct Rs as [Rs _]. nia.
        - intros a Ha. apply small_slots_elem in Ha; [|done|lia]. destruct (decide (a ∈ l)); [done|]. destruct (Hn a). by apply HL. }
      apply submseteq_length in Hsub. unfold SlabSmall.slots in Hsub. rewrite length_map, length_seq in Hsub. lia.
  - intros base mm mm' m L Hb (l & [Rs Rc Rch Rsl Ru] & HL) Hag. exists l. split; [|done]. constructor; [done|done| |done|done].
    apply (chain_agree mm); [done|]. intros a Ha. rewrite Forall_forall in Rsl. apply Hag.
    + destruct (SlabSmall.is_slot_inside base m a Hb Rs Rc (Rsl a Ha)) as (H1 & H2 & _). destruct Rs as [Rs _]. unfold in_page. lia.
    + intros q [(j & Hj & ->) Hn]%HL Hr. destruct (Rsl a Ha) as (i & Hi & ->). destruct Rs as [Rs _].
      assert (i = j) as -> by nia. done.
  - intros base mm m L v w (l & [Rs Rc Rch Rsl Ru] & HL). exists l. split; [by constructor|done].
  - intros cpu mm base c owner Hb Hc. pose proof (SlabSmall.init_rep cpu mm base c owner Hb Hc) as Hi.
    pose proof (SlabSmall.small_class_size c Hc) as Hs. destruct (SlabSmall.small_capacity_bounds _ Hs) as (_ & Hcap & _).
    unfold so_init, small_slab. assert (Hout : forall a, ~ in_page base a ->
      rd (SlabSmall.v8m_slab_small_init v8m_class_to_size cpu mm base c owner).1 a = rd mm a).
    { intros a Ha. unfold SlabSmall.v8m_slab_small_init. change (v8m_size_class_size v8m_class_to_size c) with (class_size c).
      rewrite (u16_small (class_size c)) by (destruct Hs; lia).
      pose proof (link_slots_outside base (class_size c) (Z.to_nat (SlabSmall.v8m_slab_small_capacity_for (class_size c))) mm NULL a Hb Hs ltac:(lia) Ha) as Hl.
      by destruct (SlabSmall.link_slots _ _ _ _ _) as [mm1 h1]. }
    assert (Hnx : next (SlabSmall.v8m_slab_small_init v8m_class_to_size cpu mm base c owner).2 = NULL).
    { unfold SlabSmall.v8m_slab_small_init. by destruct (SlabSmall.link_slots _ _ _ _ _). }
    assert (Hmg : magic (SlabSmall.v8m_slab_small_init v8m_class_to_size cpu mm base c owner).2 = V8M_MAGIC).
    { unfold SlabSmall.v8m_slab_small_init. by destruct (SlabSmall.link_slots _ _ _ _ _). }
    destruct (SlabSmall.v8m_slab_small_init v8m_class_to_size cpu mm base c owner) as [mm' m].
    destruct Hi as (R & Ho & Hsc & Hu & _). split_and!; [|done|done|done|done|done]. exists (SlabSmall.slots base (class_size c)). split; [done|].
    intros a. split; [done|]. intros [Hsl Hn]. apply Hn. rewrite <- Ho. pose proof (SlabSmall.rep_capacity _ _ _ _ R) as Rc.
    apply small_slots_elem; [done|rewrite Rc, Ho; lia|done].
  - intros base mm m L Hb (l & R & HL). pose proof (SlabSmall.small_alloc_cases base mm m l R) as Ha. unfold so_alloc, so_full, small_slab. destruct l as [|a l]; [by left|right].
    destruct Ha as (Hf & Ha & Hal & Hsl & m' & He & R' & Hu). split; [done|]. exists m', a. rewrite He.
    assert (Hh : same_header m m').
    { unfold SlabSmall.v8m_slab_small_alloc in He. destruct (_ =? _); injection He as <- _; done. }
    split_and!; [done|done| |exact Hh|done|].
    + intros [_ Hn]%HL. apply Hn. by left.
    + exists l. split; [done|]. destruct Hh as (_ & _ & Ho & Hc & _). intros b. unfold SlabSmall.is_slot. rewrite Ho, Hc. rewrite HL, not_elem_of_cons.
      unfold SlabSmall.is_slot. split.
      * intros [->|(H1 & _ & H2)]; [|by split]. split; [exact Hsl|done].
      * intros [H1 H2]. destruct (decide (b = a)) as [->|]; [by left|right]. by split.
  - intros base mm m L a Hb (l & R & HL) [Hsl Hn]%HL. pose proof (SlabSmall.small_free_cases base mm m l a Hb R Hsl Hn) as Hf. unfold so_free, small_slab.
    assert (Hh : same_header m (SlabSmall.v8m_slab_small_free mm m a).1.2) by done.
    assert (Hw : forall b, b <> a -> rd (SlabSmall.v8m_slab_small_free mm m a).1.1 b = rd mm b).
    { intros b Hne. apply rd_wr_ne. done. }
    destruct (SlabSmall.v8m_slab_small_free mm m a) as [[mm' m'] e]. destruct Hf as (R' & -> & Hu & _). cbn [fst snd] in Hh, Hw. exists mm', m'.
    split_and!; [done|exact Hh|done| |exact Hw]. exists (a :: l). split; [done|]. destruct Hh as (_ & _ & Ho & Hc & _).
    intros b. unfold SlabSmall.is_slot. rewrite Ho, Hc. rewrite HL, not_elem_of_cons. unfold SlabSmall.is_slot. tauto.
Defined.

(** ** Dispatch on the size class *)

Definition slab_of (c : Z) : Slab := if c <? V8M_SMALL_FIRST_CLASS then tiny_slab else small_slab.

Definition slab_alloc_dispatch (mm : mem) (base : Z) (m : page_meta) : page_meta * Z :=
  if m.(size_class) <? V8M_SMALL_FIRST_CLASS then SlabTiny.v8m_slab_tiny_alloc base m
  else SlabSmall.v8m_slab_small_alloc mm m.

Definition slab_free_dispatch (mm : mem) (base : Z) (m : page_meta) (obj : Z) : mem * page_meta * bool :=
  if m.(size_class) <? V8M_SMALL_FIRST_CLASS
  then let '(m, e) := SlabTiny.v8m_slab_tiny_free base m obj in (mm, m, e)
  else SlabSmall.v8m_slab_small_free mm m obj.

Definition slab_is_full_dispatch (m : page_meta) : bool :=
  if m.(size_class) <? V8M_SMALL_FIRST_CLASS then SlabTiny.v8m_slab_tiny_is_full m else SlabSmall.v8m_slab_small_is_full m.

(** The page header and the memory after formatting the page at [page]. *)
Definition slab_init_dispatch (cpu : Z) (mm : mem) (page size_class owner_thread : Z) : mem * page_meta :=
  if size_class <? V8M_SMALL_FIRST_CLASS then (mm, SlabTiny.v8m_slab_tiny_init v8m_class_to_size cpu size_class owner_thread)
  else SlabSmall.v8m_slab_small_init v8m_class_to_size cpu mm page size_class owner_thread.

#[export] Instance slab_of_laws c : @SlabLaws (slab_of c) :=
  match c <? V8M_SMALL_FIRST_CLASS as b return @SlabLaws (if b then tiny_slab else small_slab) with
  | true => tiny_laws
  | false => small_laws
  end.

(** A well-formed page of class [c]. *)
Definition slab_ok (c base : Z) (mm : mem) (m : page_meta) (L : Z -> Prop) : Prop :=
  0 <= c < V8M_MEDIUM_FIRST_CLASS /\ m.(size_class) = c /\ m.(object_size) = class_size c /\ m.(magic) = V8M_MAGIC /\ @so_ok _ (slab_of_laws c) base mm m L.

Section Dispatch.
Context (c base : Z) (mm : mem) (m : page_meta) (L : Z -> Prop).
Hypothesis Hb : page_base base.
Hypothesis Hok : slab_ok c base mm m L.

Lemma alloc_dispatch_eq : slab_alloc_dispatch mm base m = @so_alloc (slab_of c) mm base m.
Proof. destruct Hok as (_ & Hc & _). unfold slab_alloc_dispatch, slab_of. rewrite Hc. by destruct (c <? _). Qed.
Lemma free_dispatch_eq a : slab_free_dispatch mm base m a = @so_free (slab_of c) mm base m a.
Proof. destruct Hok as (_ & Hc & _). unfold slab_free_dispatch, slab_of. rewrite Hc. by destruct (c <? _). Qed.
Lemma full_dispatch_eq : slab_is_full_dispatch m = @so_full (slab_of c) m.
Proof. destruct Hok as (_ & Hc & _). unfold slab_is_full_dispatch, slab_of. rewrite Hc. by destruct (c <? _). Qed.

Lemma slab_ok_intro mm' m' L' : same_header m m' -> @so_ok _ (slab_of_laws c) base mm' m' L' -> slab_ok c base mm' m' L'.
Proof. intros (H1 & H2 & H3 & _) Ho. destruct Hok as (Hc & H4 & H5 & H6 & _). split_and!; [lia|lia|congruence|congruence|congruence|done]. Qed.

Lemma slab_inside a : L a -> in_page base a /\ a + m.(object_size) <= base + V8M_PAGE_SIZE.
Proof. intros Ha. destruct Hok as (_ & _ & _ & _ & Ho). by eapply (so_inside (SlabLaws := slab_of_laws c)). Qed.

(** Objects of a page do not overlap, and are aligned as their size is. *)
Lemma slab_spaced a b : L a -> L b -> a <> b -> a + m.(object_size) <= b \/ b + m.(object_size) <= a.
Proof.
  intros Ha Hb' Hne. destruct Hok as (Hc & _ & Hs & _ & Ho). destruct (so_grid (SlabLaws := slab_of_laws c) _ _ _ _ Ho) as (off & _ & Hg).
  destruct (Hg a Ha) as [s ->], (Hg b Hb') as [t ->]. destruct (Z.lt_trichotomy s t) as [?|[->|?]]; [left|done|right]; pose proof (class_size_pos c Hc); nia.
Qed.
Lemma slab_aligned a al : L a -> (al | m.(object_size)) -> (al | V8M_SLAB_HEADER_SIZE) -> (al | a).
Proof.
  intros Ha Hs Hh. destruct Hok as (_ & _ & _ & _ & Ho). destruct (so_grid (SlabLaws := slab_of_laws c) _ _ _ _ Ho) as (off & Hoff & Hg).
  destruct (Hg a Ha) as [s ->]. apply Z.divide_add_r; [apply Z.divide_add_r|by apply Z.divide_mul_r].
  - destruct Hb as (_ & _ & Hb'). etransitivity; [exact Hh|]. etransitivity; [|exact Hb']. by exists 32.
  - by destruct Hoff as [->| ->].
Qed.

Lemma slab_used :
  0 <= m.(used_count) <= m.(capacity) /\ 1 < m.(capacity) < 2 ^ 32 /\
  slab_is_full_dispatch m = (m.(used_count) =? m.(capacity)) /\ (m.(used_count) = 0 <-> forall a, ~ L a).
Proof. rewrite full_dispatch_eq. destruct Hok as (_ & _ & _ & _ & Ho). by eapply (so_used (SlabLaws := slab_of_laws c)). Qed.

(** Only words outside the objects in use matter. *)
Lemma slab_write mm' : (forall a, in_page base a -> (forall q, L q -> ~ q <= a < q + m.(object_size)) -> rd mm' a = rd mm a) -> slab_ok c base mm' m L.
Proof. intros Hag. apply slab_ok_intro; [done|]. destruct Hok as (_ & _ & _ & _ & Ho). by eapply (so_frame (SlabLaws := slab_of_laws c)). Qed.
Lemma slab_frame mm' : (forall a, in_page base a -> ~ L a -> rd mm' a = rd mm a) -> slab_ok c base mm' m L.
Proof.
  intros Hag. apply slab_write. intros a Ha Hq. apply Hag; [done|]. intros HL. apply (Hq a HL). destruct Hok as (Hc & _ & -> & _). pose proof (class_size_pos c Hc). lia.
Qed.

Lemma slab_ext L' : (forall a, L a <-> L' a) -> slab_ok c base mm m L'.
Proof. intros He. apply slab_ok_intro; [done|]. destruct Hok as (_ & _ & _ & _ & Ho). by eapply (so_ext (SlabLaws := slab_of_laws c)). Qed.

Lemma slab_links v w : slab_ok c base mm (set_arena_id (set_next m v) w) L.
Proof. destruct Hok as (H1 & H2 & H3 & H4 & Ho). split_and!; [lia|lia|done|done|done|]. by apply (so_links (SlabLaws := slab_of_laws c)). Qed.

Lemma slab_next v : slab_ok c base mm (set_next m v) L.
Proof.
  replace (set_next m v) with (set_arena_id (set_next m v) m.(arena_id)) by done. apply slab_links.
Qed.

Lemma slab_alloc_law :
  (slab_is_full_dispatch m = true /\ slab_alloc_dispatch mm base m = (m, NULL)) \/
  (slab_is_full_dispatch m = false /\ exists m' a, slab_alloc_dispatch mm base m = (m', a) /\ a <> NULL /\ ~ L a /\ same_header m m' /\
     m'.(used_count) = m.(used_count) + 1 /\ slab_ok c base mm m' (fun q => q = a \/ L q)).
Proof.
  rewrite full_dispatch_eq, alloc_dispatch_eq. destruct Hok as (_ & _ & _ & _ & Ho).
  destruct (so_alloc_law (SlabLaws := slab_of_laws c) base mm m L Hb Ho) as [?|(Hf & m' & a & He & Ha & HL & Hh & Hu & Ho')]; [by left|right].
  split; [done|]. exists m', a. split_and!; [done|done|done|done|done|]. by apply slab_ok_intro.
Qed.

Lemma slab_free_law a : L a ->
  exists mm' m', slab_free_dispatch mm base m a = (mm', m', m.(used_count) =? 1) /\ same_header m m' /\
    m'.(used_count) = m.(used_count) - 1 /\ slab_ok c base mm' m' (fun q => L q /\ q <> a) /\ (forall b, b <> a -> rd mm' b = rd mm b).
Proof.
  intros Ha. rewrite free_dispatch_eq. destruct Hok as (_ & _ & _ & _ & Ho).
  destruct (so_free_law (SlabLaws := slab_of_laws c) base mm m L a Hb Ho Ha) as (mm' & m' & He & Hh & Hu & Ho' & Hr).
  exists mm', m'. split_and!; [done|done|done| |done]. by apply slab_ok_intro.
Qed.

End Dispatch.

Lemma slab_init_law cpu mm base c owner :
  page_base base -> 0 <= c < V8M_MEDIUM_FIRST_CLASS ->
  let '(mm', m) := slab_init_dispatch cpu mm base c owner in
  slab_ok c base mm' m (fun _ => False) /\ m.(next) = NULL /\ (forall a, ~ in_page base a -> rd mm' a = rd mm a).
Proof.
  intros Hb Hc. unfold slab_init_dispatch, slab_ok, slab_of_laws, slab_of. destruct (Z.ltb_spec c V8M_SMALL_FIRST_CLASS).
  - pose proof (so_init_law (SlabLaws := tiny_laws) cpu mm base c owner Hb ltac:(split; lia)) as Hi. unfold so_init, tiny_slab in Hi.
    destruct Hi as (Ho & H1 & H2 & H3 & H4 & H5). destruct Hc. by split_and!.
  - pose proof (so_init_law (SlabLaws := small_laws) cpu mm base c owner Hb ltac:(split; lia)) as Hi. unfold so_init, small_slab in Hi.
    destruct (SlabSmall.v8m_slab_small_init v8m_class_to_size cpu mm base c owner) as [mm' m].
    destruct Hi as (Ho & H1 & H2 & H3 & H4 & H5). destruct Hc. by split_and!.
Qed.

End SlabPage.
