(* ===== verification/SlabPool.v ===== *)
(** The slab pool: [src/v8m_slab_pool.h] and [src/v8m_slab_pool.c].

    Per size class the pool has a current page and a list of partial pages linked
    through the page headers; full pages are on no list; emptied pages are parked
    in a small cache before they go back to their source.  The state holds the
    pool, the headers and the memory of its pages, the global pool of huge pages
    ([NumaPool]) and the page source.  The pool lock makes each operation a single
    step.  The list walks follow the links in the headers and carry fuel; [None]
    means it ran out, which the theorems exclude. *)

From S2P Require Import Prelude SizeClass Page HugeSlab Numa PageSource NumaPool SlabPage.
Import SizeClass Page PageSource NumaPool SlabPage.

Module SlabPool.

Definition V8M_SLAB_DRAINED_CAP : Z := 8.
Definition V8M_PARTIALS_SCAN_BUDGET : nat := 4.

Record v8m_slab_pool_class := MkClass { current : Z; partials : Z }.
Definition class0 : v8m_slab_pool_class := MkClass NULL NULL.

Section Pool.
Context `{PageSource}.

(** What [v8m_numa_current_cpu] returns when the source is in a given state. *)
Context (cpu_of : src -> Z).

(** [struct v8m_slab_pool] with the memory it works on.  [drained] is the part of
    the two arrays below [drained_count], page and idle ticks. *)
Record slab_pool := MkPool {
  classes : list v8m_slab_pool_class;
  use_numa_pool : bool;
  drained : list (Z * Z);
  pages : gmap Z page_meta;
  smem : mem;
  g_slab_numa_pool : v8m_numa_pool;
  g_slab_numa_pool_ready : bool;
  source : src
}.

Definition set_classes (st : slab_pool) v : slab_pool :=
  MkPool v st.(use_numa_pool) st.(drained) st.(pages) st.(smem) st.(g_slab_numa_pool) st.(g_slab_numa_pool_ready) st.(source).
Definition set_drained (st : slab_pool) v : slab_pool :=
  MkPool st.(classes) st.(use_numa_pool) v st.(pages) st.(smem) st.(g_slab_numa_pool) st.(g_slab_numa_pool_ready) st.(source).
Definition set_pages (st : slab_pool) v : slab_pool :=
  MkPool st.(classes) st.(use_numa_pool) st.(drained) v st.(smem) st.(g_slab_numa_pool) st.(g_slab_numa_pool_ready) st.(source).
Definition set_smem (st : slab_pool) v : slab_pool :=
  MkPool st.(classes) st.(use_numa_pool) st.(drained) st.(pages) v st.(g_slab_numa_pool) st.(g_slab_numa_pool_ready) st.(source).
Definition set_numa_src (st : slab_pool) np ready s : slab_pool :=
  MkPool st.(classes) st.(use_numa_pool) st.(drained) st.(pages) st.(smem) np ready s.

(** The header at a page address; a page never formatted reads as zero. *)
Definition meta (st : slab_pool) (page : Z) : page_meta := default zero_meta (st.(pages) !! page).
Definition set_meta (st : slab_pool) (page : Z) (m : page_meta) : slab_pool := set_pages st (<[page := m]> st.(pages)).

Definition class_at (st : slab_pool) (i : Z) : v8m_slab_pool_class := default class0 (st.(classes) !! Z.to_nat i).
Definition set_current (st : slab_pool) (i v : Z) : slab_pool :=
  set_classes st (<[Z.to_nat i := MkClass v (class_at st i).(partials)]> st.(classes)).
Definition set_partials (st : slab_pool) (i v : Z) : slab_pool :=
  set_classes st (<[Z.to_nat i := MkClass (class_at st i).(current) v]> st.(classes)).

(** The kernel drops the page's contents: its header and words read as zero. *)
Definition forget (st : slab_pool) (page : Z) : slab_pool :=
  set_smem (set_pages st (delete page st.(pages))) (clear_range st.(smem) page V8M_PAGE_SIZE).

Definition v8m_slab_pool_global_init (mutex_rc : Z -> Z) (st : slab_pool) : slab_pool * Z :=
  if st.(g_slab_numa_pool_ready) then (st, 0)
  else
    let '(np, rc) := v8m_numa_pool_init mutex_rc in
    if negb (rc =? 0) then (set_numa_src st np false st.(source), rc)
    else (set_numa_src st np true st.(source), 0).

Definition v8m_slab_pool_global_destroy (st : slab_pool) : slab_pool :=
  if negb st.(g_slab_numa_pool_ready) then st
  else
    let '(s, np) := v8m_numa_pool_destroy st.(source) st.(g_slab_numa_pool) in
    set_numa_src st np false s.

Definition v8m_slab_pool_set_use_numa_pool (st : slab_pool) (v : bool) : slab_pool :=
  MkPool st.(classes) v st.(drained) st.(pages) st.(smem) st.(g_slab_numa_pool) st.(g_slab_numa_pool_ready) st.(source).

(** ** Pages in and out *)

Definition release_slab_page_immediate (st : slab_pool) (page : Z) : slab_pool :=
  let heap_free (st : slab_pool) :=
    forget (set_numa_src st st.(g_slab_numa_pool) st.(g_slab_numa_pool_ready) (ps_free st.(source) page V8M_PAGE_SIZE)) page in
  if st.(use_numa_pool) && st.(g_slab_numa_pool_ready) then
    let '(s, np, released) := v8m_numa_pool_release_slab st.(source) st.(g_slab_numa_pool) page in
    let st := set_numa_src st np st.(g_slab_numa_pool_ready) s in
    if released : bool then forget st page else heap_free st
  else heap_free st.

Definition drained_pop (st : slab_pool) : slab_pool * Z :=
  match rev st.(drained) with
  | [] => (st, NULL)
  | (page, _) :: rest => (set_drained st (rev rest), page)
  end.

Definition drained_push (st : slab_pool) (page : Z) : slab_pool * bool :=
  if V8M_SLAB_DRAINED_CAP <=? Z.of_nat (length st.(drained)) then (st, false)
  else
    let st := forget (set_numa_src st st.(g_slab_numa_pool) st.(g_slab_numa_pool_ready) (ps_dont_need st.(source) page V8M_PAGE_SIZE)) page in
    (set_drained st (st.(drained) ++ [(page, 0)]), true).

Definition acquire_slab_page (st : slab_pool) : slab_pool * Z :=
  let '(st, page) := drained_pop st in
  if negb (page =? NULL) then (st, page)
  else
    let direct (st : slab_pool) :=
      let '(s, page) := ps_alloc st.(source) V8M_PAGE_SIZE V8M_PAGE_SIZE in
      (set_numa_src st st.(g_slab_numa_pool) st.(g_slab_numa_pool_ready) s, page) in
    if st.(use_numa_pool) && st.(g_slab_numa_pool_ready) then
      let '(s, node) := ps_node st.(source) in
      let node := if Numa.V8M_NUMA_MAX_NODES <=? node then 0 else node in
      let '(s, np, page) := v8m_numa_pool_carve_slab s st.(g_slab_numa_pool) node in
      let st := set_numa_src st np st.(g_slab_numa_pool_ready) s in
      if negb (page =? NULL) then (st, page) else direct st
    else direct st.

Definition release_slab_page (st : slab_pool) (page : Z) : slab_pool :=
  let '(st, parked) := drained_push st page in
  if parked : bool then st else release_slab_page_immediate st page.

(** ** Allocation *)

Definition try_current (st : slab_pool) (i : Z) : slab_pool * Z :=
  let page := (class_at st i).(current) in
  if page =? NULL then (st, NULL)
  else
    let '(m, obj) := slab_alloc_dispatch st.(smem) page (meta st page) in
    let st := set_meta st page m in
    (if obj =? NULL then set_current st i NULL else st, obj).

(** A link of the partial list: the class's head, or a page's [next] field. *)
Definition deref (st : slab_pool) (i : Z) (link : option Z) : Z :=
  match link with None => (class_at st i).(partials) | Some p => (meta st p).(next) end.
Definition assign (st : slab_pool) (i : Z) (link : option Z) (v : Z) : slab_pool :=
  match link with None => set_partials st i v | Some p => set_meta st p (set_next (meta st p) v) end.

(** The bounded scan for the fullest page, and the link that leads to it. *)
Fixpoint scan_partials (budget : nat) (st : slab_pool) (i : Z) (link best_link : option Z) (best_used : Z) : option Z :=
  match budget with
  | O => best_link
  | S budget =>
      let page := deref st i link in
      if page =? NULL then best_link
      else
        let used := (meta st page).(used_count) in
        if best_used <=? used then scan_partials budget st i (Some page) link used
        else scan_partials budget st i (Some page) best_link best_used
  end.

Fixpoint try_partials (fuel : nat) (st : slab_pool) (i : Z) : option (slab_pool * Z) :=
  match fuel with
  | O => None
  | S fuel =>
      if (class_at st i).(partials) =? NULL then Some (st, NULL)
      else
        let best := scan_partials V8M_PARTIALS_SCAN_BUDGET st i None None 0 in
        let page := deref st i best in
        let st := assign st i best (meta st page).(next) in
        let st := set_meta st page (set_next (meta st page) NULL) in
        let st := set_current st i page in
        let '(m, obj) := slab_alloc_dispatch st.(smem) page (meta st page) in
        let st := set_meta st page m in
        if negb (obj =? NULL) then Some (st, obj) else try_partials fuel (set_current st i NULL) i
  end.

Definition acquire_fresh_page (st : slab_pool) (size_class owner_thread arena_id : Z) : slab_pool * Z :=
  let '(st, page) := acquire_slab_page st in
  if page =? NULL then (st, NULL)
  else
    let '(mm, m) := slab_init_dispatch (cpu_of st.(source)) st.(smem) page size_class owner_thread in
    let st := set_smem (set_meta st page m) mm in
    let st := set_meta st page (set_arena_id (meta st page) arena_id) in
    let st := set_current st size_class page in
    let '(m, obj) := slab_alloc_dispatch st.(smem) page (meta st page) in
    (set_meta st page m, obj).

(** The three sources in turn, as both allocation entry points try them. *)
Definition alloc_step (fuel : nat) (st : slab_pool) (size_class owner_thread arena_id : Z) : option (slab_pool * Z) :=
  let '(st, obj) := try_current st size_class in
  if negb (obj =? NULL) then Some (st, obj)
  else
    match try_partials fuel st size_class with
    | None => None
    | Some (st, obj) => if negb (obj =? NULL) then Some (st, obj) else Some (acquire_fresh_page st size_class owner_thread arena_id)
    end.

Definition v8m_slab_pool_alloc_arena (fuel : nat) (st : slab_pool) (size_class owner_thread arena_id : Z) : option (slab_pool * Z) :=
  if V8M_MEDIUM_FIRST_CLASS <=? size_class then Some (st, NULL) else alloc_step fuel st size_class owner_thread arena_id.

Definition v8m_slab_pool_alloc (fuel : nat) (st : slab_pool) (size_class owner_thread : Z) : option (slab_pool * Z) :=
  v8m_slab_pool_alloc_arena fuel st size_class owner_thread 0.

(** The batch loop: at most [max] more objects; head, tail and count. *)
Fixpoint batch_loop (fuel : nat) (max : nat) (st : slab_pool) (size_class owner_thread arena_id head tail count : Z)
  : option (slab_pool * Z * Z * Z) :=
  match max with
  | O => Some (st, head, tail, count)
  | S max =>
      match alloc_step fuel st size_class owner_thread arena_id with
      | None => None
      | Some (st, obj) =>
          if obj =? NULL then Some (st, head, tail, count)
          else
            let st := set_smem st (wr st.(smem) obj head) in
            batch_loop fuel max st size_class owner_thread arena_id obj (if tail =? NULL then obj else tail) (count + 1)
      end
  end.

(** The state, [*out_head], [*out_tail] and the count. *)
Definition v8m_slab_pool_alloc_batch (fuel : nat) (st : slab_pool) (size_class owner_thread arena_id max : Z)
  : option (slab_pool * Z * Z * Z) :=
  if (V8M_MEDIUM_FIRST_CLASS <=? size_class) || (max =? 0) then Some (st, NULL, NULL, 0)
  else batch_loop fuel (Z.to_nat max) st size_class owner_thread arena_id NULL NULL 0.

(** ** Release *)

(** The walk of [unlink_from_class] over the links. *)
Fixpoint unlink_walk (fuel : nat) (st : slab_pool) (i : Z) (link : option Z) (page : Z) : option slab_pool :=
  match fuel with
  | O => None
  | S fuel =>
      let cur := deref st i link in
      if cur =? NULL then Some st
      else if cur =? page then
        let st := assign st i link (meta st page).(next) in
        Some (set_meta st page (set_next (meta st page) NULL))
      else unlink_walk fuel st i (Some cur) page
  end.

Definition unlink_from_class (fuel : nat) (st : slab_pool) (i page : Z) : option slab_pool :=
  if (class_at st i).(current) =? page then Some (set_current st i NULL) else unlink_walk fuel st i None page.

Definition v8m_slab_pool_free (fuel : nat) (st : slab_pool) (page obj : Z) : option (slab_pool * bool) :=
  let was_full := slab_is_full_dispatch (meta st page) in
  let '(mm, m, became_empty) := slab_free_dispatch st.(smem) page (meta st page) obj in
  let st := set_smem (set_meta st page m) mm in
  let size_class := (meta st page).(size_class) in
  if V8M_MEDIUM_FIRST_CLASS <=? size_class then Some (st, became_empty)
  else if became_empty : bool then
    match unlink_from_class fuel st size_class page with
    | None => None
    | Some st => Some (release_slab_page st page, true)
    end
  else if was_full && negb ((class_at st size_class).(current) =? page) then
    let st := set_meta st page (set_next (meta st page) (class_at st size_class).(partials)) in
    Some (set_partials st size_class page, false)
  else Some (st, false).

(** ** Housekeeping *)

(** [v8m_slab_pool_sweep_idle]: the entries kept, in order, and the count
    released. *)
Fixpoint sweep (entries : list (Z * Z)) (st : slab_pool) (max_idle_ticks : Z) (kept : list (Z * Z)) (released : Z)
  : slab_pool * list (Z * Z) * Z :=
  match entries with
  | [] => (st, kept, released)
  | (page, idle) :: entries =>
      let ticks := if idle <? UINT32_MAX then idle + 1 else idle in
      if max_idle_ticks <=? ticks then sweep entries (release_slab_page_immediate st page) max_idle_ticks kept (released + 1)
      else sweep entries st max_idle_ticks (kept ++ [(page, ticks)]) released
  end.
Definition v8m_slab_pool_sweep_idle (st : slab_pool) (max_idle_ticks : Z) : slab_pool * Z :=
  let '(st', kept, released) := sweep st.(drained) st max_idle_ticks [] 0 in (set_drained st' kept, released).

Definition v8m_slab_pool_purge_drained (st : slab_pool) : slab_pool * Z := v8m_slab_pool_sweep_idle st 0.
Definition v8m_slab_pool_drained_count (st : slab_pool) : Z := Z.of_nat (length st.(drained)).

Definition v8m_slab_pool_validate (st : slab_pool) : Z :=
  let count := Z.of_nat (length st.(drained)) in
  (if V8M_SLAB_DRAINED_CAP <? count then 1 else 0) +
  Z.of_nat (length (filter (fun x : Z * Z => x.1 = NULL) (take (Z.to_nat V8M_SLAB_DRAINED_CAP) st.(drained)))).

(** [pthread_mutex_init]'s result is [mutex_rc]. *)
Definition v8m_slab_pool_init (st : slab_pool) (mutex_rc : Z) : slab_pool * Z :=
  (MkPool (replicate (Z.to_nat V8M_MEDIUM_FIRST_CLASS) class0) false [] st.(pages) st.(smem)
     st.(g_slab_numa_pool) st.(g_slab_numa_pool_ready) st.(source), mutex_rc).

(** One class's page walk: pages, slots and slots in use. *)
Record v8m_slab_pool_class_stats := MkStats { pages_in_use : Z; slots_total : Z; slots_used : Z }.
Definition accumulate_page (m : page_meta) (out : v8m_slab_pool_class_stats) : v8m_slab_pool_class_stats :=
  MkStats (u64 (out.(pages_in_use) + 1)) (u64 (out.(slots_total) + m.(capacity))) (u64 (out.(slots_used) + m.(used_count))).

Fixpoint stats_walk (fuel : nat) (st : slab_pool) (page : Z) (out : v8m_slab_pool_class_stats) : option v8m_slab_pool_class_stats :=
  match fuel with
  | O => None
  | S fuel => if page =? NULL then Some out else stats_walk fuel st (meta st page).(next) (accumulate_page (meta st page) out)
  end.

Definition class_walk (fuel : nat) (st : slab_pool) (i : Z) (out : v8m_slab_pool_class_stats) : option v8m_slab_pool_class_stats :=
  let cls := class_at st i in
  let out := if negb (cls.(current) =? NULL) then accumulate_page (meta st cls.(current)) out else out in
  stats_walk fuel st cls.(partials) out.

Definition v8m_slab_pool_get_aggregate_stats (fuel : nat) (st : slab_pool) : option v8m_slab_pool_class_stats :=
  foldl (fun acc i => acc ≫= class_walk fuel st i) (Some (MkStats 0 0 0)) (seqZ 0 V8M_MEDIUM_FIRST_CLASS).

Definition v8m_slab_pool_get_class_stats (fuel : nat) (st : slab_pool) (out_capacity : Z) : option (list v8m_slab_pool_class_stats) :=
  let fill := if out_capacity <? V8M_MEDIUM_FIRST_CLASS then out_capacity else V8M_MEDIUM_FIRST_CLASS in
  mapM (fun i => class_walk fuel st i (MkStats 0 0 0)) (seqZ 0 fill).

(** [v8m_slab_pool_destroy]: every listed page, then the parked ones. *)
Fixpoint destroy_walk (fuel : nat) (st : slab_pool) (page : Z) : option slab_pool :=
  match fuel with
  | O => None
  | S fuel =>
      if page =? NULL then Some st
      else
        let next_page := (meta st page).(next) in
        destroy_walk fuel (release_slab_page_immediate st page) next_page
  end.
Definition destroy_class (fuel : nat) (st : slab_pool) (i : Z) : option slab_pool :=
  let cur := (class_at st i).(current) in
  let st := if negb (cur =? NULL) then set_current (release_slab_page_immediate st cur) i NULL else st in
  match destroy_walk fuel st (class_at st i).(partials) with
  | None => None
  | Some st => Some (set_partials st i NULL)
  end.
Definition v8m_slab_pool_destroy (fuel : nat) (st : slab_pool) : option slab_pool :=
  match foldl (fun acc i => acc ≫= fun st => destroy_class fuel st i) (Some st) (seqZ 0 V8M_MEDIUM_FIRST_CLASS) with
  | None => None
  | Some st => Some (set_drained (foldl (fun st x => release_slab_page_immediate st x.1) st st.(drained)) [])
  end.

End Pool.
End SlabPool.
