(* ===== verification/SlabPoolSpec.v ===== *)
(** What the slab pool promises ([SlabPool]): the pool invariant and the effect of
    allocation and release on the set of objects in use. *)

From S2P Require Import Prelude SizeClass Page HugeSlab Numa Os PageSource NumaPool SlabPage SlabPool.
Import SizeClass Page PageSource NumaPool SlabPage SlabPool.

Module SlabPoolSpec.

(** ** Pages and their objects *)

Lemma in_page_unique p p' q : page_base p -> page_base p' -> in_page p q -> in_page p' q -> p = p'.
Proof.
  intros Hp Hp' H1 H2. unfold in_page, V8M_SLAB_HEADER_SIZE in *.
  rewrite <- (ptr_to_meta_inside p q Hp) by lia. apply ptr_to_meta_inside; [done|lia].
Qed.

(** The objects in use: every page is well-formed for those inside it. *)
Record slabs (pg : gmap Z page_meta) (mm : mem) (Lv : Z -> Prop) : Prop := {
  sl_page : forall p m, pg !! p = Some m -> page_base p /\ 0 < m.(used_count) /\
    slab_ok m.(size_class) p mm m (fun q => Lv q /\ in_page p q);
  sl_live : forall q, Lv q -> exists p, is_Some (pg !! p) /\ in_page p q
}.

(** The links of the page headers. *)
Definition nexts (pg : gmap Z page_meta) : mem := next <$> pg.

Lemma nexts_insert pg p m : nexts (<[p := m]> pg) = wr (nexts pg) p m.(next).
Proof. unfold nexts, wr. by rewrite fmap_insert. Qed.

(** A class's lists: the current page is one of the class, and the partial list
    holds exactly the other pages with room. *)
Record class_ok (cls : v8m_slab_pool_class) (pg : gmap Z page_meta) (i : Z) : Prop := {
  co_current : cls.(current) = NULL \/ exists m, pg !! cls.(current) = Some m /\ m.(size_class) = i;
  co_partials : exists ps, chain (nexts pg) cls.(partials) ps /\
    forall p, p ∈ ps <-> exists m, pg !! p = Some m /\ m.(size_class) = i /\ p <> cls.(current) /\ m.(used_count) < m.(capacity)
}.

(** Changing a page of another class. *)
Lemma class_ok_insert cls pg i p m' :
  class_ok cls pg i -> m'.(size_class) <> i -> (forall m, pg !! p = Some m -> m.(size_class) <> i) ->
  class_ok cls (<[p := m']> pg) i.
Proof.
  intros [Hc (ps & Hch & Hm)] Hm' Hold. assert (Hp : p ∉ ps).
  { intros (m & Hl & Hs & _)%Hm. by apply (Hold m). }
  constructor.
  - destruct Hc as [?|(m & Hl & Hs)]; [by left|right]. exists m. split; [|done]. rewrite lookup_insert_ne; [done|].
    intros ->. by apply (Hold m).
  - exists ps. split; [rewrite nexts_insert; by apply chain_frame|]. intros q. rewrite Hm. destruct (decide (p = q)) as [->|Hne].
    + rewrite lookup_insert_eq. split; [intros (m & Hl & Hs & _); by destruct (Hold m)|intros (m & [= <-] & Hs & _); done].
    + by rewrite lookup_insert_ne.
Qed.

Lemma nexts_delete_chain pg p h ps : p ∉ ps -> chain (nexts pg) h ps -> chain (nexts (delete p pg)) h ps.
Proof.
  intros Hp Hc. apply (chain_agree (nexts pg)); [done|]. intros a Ha. unfold rd, nexts. rewrite !lookup_fmap, lookup_delete_ne; [done|]. by intros ->.
Qed.
Lemma class_ok_delete cls pg i p :
  class_ok cls pg i -> (forall m, pg !! p = Some m -> m.(size_class) <> i) -> class_ok cls (delete p pg) i.
Proof.
  intros [Hc (ps & Hch & Hm)] Hold. assert (Hp : p ∉ ps).
  { intros (m & Hl & Hs & _)%Hm. by apply (Hold m). }
  constructor.
  - destruct Hc as [?|(m & Hl & Hs)]; [by left|right]. exists m. split; [|done]. rewrite lookup_delete_ne; [done|].
    intros ->. by apply (Hold m).
  - exists ps. split; [by apply nexts_delete_chain|]. intros q. rewrite Hm. destruct (decide (p = q)) as [->|Hne].
    + rewrite lookup_delete_eq. split; [intros (m & Hl & Hs & _); by destruct (Hold m)|by intros (m & ? & _)].
    + by rewrite lookup_delete_ne.
Qed.

(** One page replaced or added, with the objects inside it. *)
Lemma slabs_put pg mm mm' Lv Lv' p m' :
  slabs pg mm Lv -> page_base p -> 0 < m'.(used_count) -> slab_ok m'.(size_class) p mm' m' (fun q => Lv' q /\ in_page p q) ->
  (forall q, ~ in_page p q -> Lv' q <-> Lv q) -> (forall a, ~ in_page p a -> rd mm' a = rd mm a) ->
  slabs (<[p := m']> pg) mm' Lv'.
Proof.
  intros [Sp Sl] Hb Hu Hok HL Hmm. constructor.
  - intros p' m Hp'. destruct (decide (p = p')) as [->|Hne].
    + rewrite lookup_insert_eq in Hp'. injection Hp' as <-. done.
    + rewrite lookup_insert_ne in Hp' by done. destruct (Sp p' m Hp') as (Hb' & Hu' & Ho'). split_and!; [done|done|].
      assert (Hsep : forall q, in_page p' q -> ~ in_page p q) by (intros q H1 H2; apply Hne; by eapply in_page_unique).
      apply (slab_ext _ _ _ _ (fun q => Lv q /\ in_page p' q)).
      * apply (slab_frame _ _ mm); [done|done|]. intros a Ha _. by apply Hmm, Hsep.
      * intros q. split; intros [H1 H2]; (split; [|done]); apply (HL q); auto.
  - intros q Hq. destruct (decide (p + V8M_SLAB_HEADER_SIZE <= q < p + V8M_PAGE_SIZE)) as [Hin|Hout].
    + exists p. rewrite lookup_insert_eq. by split; [eexists|].
    + apply (HL q Hout) in Hq. destruct (Sl q Hq) as (p' & Hp' & Hin). exists p'. split; [|done].
      destruct (decide (p = p')) as [->|]; [done|]. by rewrite lookup_insert_ne.
Qed.

Lemma slabs_delete pg mm mm' Lv Lv' p :
  slabs pg mm Lv -> page_base p -> (forall q, Lv' q <-> Lv q /\ ~ in_page p q) ->
  (forall a, ~ (p <= a < p + V8M_PAGE_SIZE) -> rd mm' a = rd mm a) -> slabs (delete p pg) mm' Lv'.
Proof.
  intros [Sp Sl] Hb HL Hmm. constructor.
  - intros p' m [Hne Hp']%lookup_delete_Some. destruct (Sp p' m Hp') as (Hb' & Hu' & Ho'). split_and!; [done|done|].
    assert (Hsep : forall q, in_page p' q -> ~ (p <= q < p + V8M_PAGE_SIZE)).
    { intros q H1 H2. apply Hne. rewrite <- (ptr_to_meta_inside p q Hb) by done. apply ptr_to_meta_inside; [done|].
      unfold in_page, V8M_SLAB_HEADER_SIZE in H1. lia. }
    assert (Hsep' : forall q, in_page p' q -> ~ in_page p q) by (intros q H1 H2; apply Hne; by eapply in_page_unique).
    apply (slab_ext _ _ _ _ (fun q => Lv q /\ in_page p' q)).
    + apply (slab_frame _ _ mm); [done|done|]. intros a Ha _. by apply Hmm, Hsep.
    + intros q. rewrite HL. specialize (Hsep' q). tauto.
  - intros q [Hq Hout]%HL. destruct (Sl q Hq) as (p' & Hp' & Hin). exists p'. split; [|done].
    rewrite lookup_delete_ne; [done|]. by intros ->.
Qed.

(** ** A class's lists *)

Definition nonnull (pg : gmap Z page_meta) : Prop := forall p m, pg !! p = Some m -> p <> NULL.

(** The current page's count changes. *)
Lemma class_ok_current cls pg i m' :
  class_ok cls pg i -> cls.(current) <> NULL -> m'.(size_class) = i -> class_ok cls (<[cls.(current) := m']> pg) i.
Proof.
  intros [Hc (ps & Hch & Hm)] Hn Hi. assert (Hp : cls.(current) ∉ ps) by (intros (m & _ & _ & ? & _)%Hm; done). constructor.
  - right. exists m'. by rewrite lookup_insert_eq.
  - exists ps. split; [rewrite nexts_insert; by apply chain_frame|]. intros q. rewrite Hm. destruct (decide (cls.(current) = q)) as [<-|Hne].
    + split; intros (m & _ & _ & ? & _); done.
    + by rewrite lookup_insert_ne.
Qed.

(** A full current page is dropped. *)
Lemma class_ok_drop cls pg i m :
  class_ok cls pg i -> pg !! cls.(current) = Some m -> m.(used_count) = m.(capacity) ->
  nonnull pg -> class_ok (MkClass NULL cls.(partials)) pg i.
Proof.
  intros [Hc (ps & Hch & Hm)] Hl Hfull Hnn. constructor; cbn; [by left|]. exists ps. split; [done|]. intros q. rewrite Hm. split.
  - intros (m1 & H1 & H2 & _ & H4). exists m1. split_and!; [done|done|by eapply Hnn|done].
  - intros (m1 & H1 & H2 & _ & H4). exists m1. split_and!; [done|done| |done]. intros ->. rewrite Hl in H1. injection H1 as <-. lia.
Qed.

(** A new page becomes current. *)
Lemma class_ok_install cls pg i p m' :
  class_ok cls pg i -> cls.(current) = NULL -> pg !! p = None -> m'.(size_class) = i -> nonnull pg ->
  class_ok (MkClass p cls.(partials)) (<[p := m']> pg) i.
Proof.
  intros [Hc (ps & Hch & Hm)] Hn Hnone Hi Hnn. assert (Hp : p ∉ ps) by (intros (m & Hl & _)%Hm; congruence). constructor; cbn.
  - right. exists m'. by rewrite lookup_insert_eq.
  - exists ps. split; [rewrite nexts_insert; by apply chain_frame|]. intros q. rewrite Hm, Hn. destruct (decide (p = q)) as [<-|Hne].
    + split; [intros (m & Hl & _); congruence|intros (m & _ & _ & ? & _); done].
    + rewrite lookup_insert_ne by done. split; intros (m & H1 & H2 & H3 & H4); exists m; split_and!; [done|done|done|done|done|done|by eapply Hnn|done].
Qed.
(** ** Walking and cutting the partial list *)

Section Lists.
Context `{PageSource}.

Lemma rd_nexts (st : slab_pool) p : rd (nexts st.(pages)) p = (meta st p).(next).
Proof. unfold rd, nexts, meta. rewrite lookup_fmap. by destruct (st.(pages) !! p). Qed.

(** The link behind a prefix of the list leads to the rest. *)
Lemma deref_last st i l1 l2 :
  chain (nexts st.(pages)) (class_at st i).(partials) (l1 ++ l2) -> deref st i (last l1) = default NULL (head l2).
Proof.
  destruct l1 as [|t l1 _] using rev_ind.
  - cbn. destruct l2; [done|]. by intros (-> & _).
  - rewrite last_snoc, <- app_assoc. cbn. rewrite <- rd_nexts. set (h := partials _). clearbody h. revert h.
    induction l1 as [|a l1 IH]; intros h; cbn; [|intros (_ & _ & Hc); by apply IH in Hc].
    intros (_ & _ & Hc). destruct l2; [done|]. by destruct Hc as (-> & _).
Qed.

(** The scan ends at a page of the list, the fullest of those it saw. *)
Lemma scan_spec budget st i ps l1 l2 b1 x b2 best :
  chain (nexts st.(pages)) (class_at st i).(partials) ps -> ps = l1 ++ l2 -> ps = b1 ++ x :: b2 -> best <= (meta st x).(used_count) ->
  exists c1 y c2, ps = c1 ++ y :: c2 /\ scan_partials budget st i (last l1) (last b1) best = last c1 /\
    best <= (meta st y).(used_count) /\ (forall p, p ∈ take budget l2 -> (meta st p).(used_count) <= (meta st y).(used_count)).
Proof.
  intros Hch. revert l1 l2 b1 x b2 best. induction budget as [|budget IH]; intros l1 l2 b1 x b2 best Hl Hb Hx; cbn [scan_partials take].
  { exists b1, x, b2. split_and!; [done|done|done|by intros ? ?%not_elem_of_nil]. }
  pose proof Hch as Hd. rewrite Hl in Hd. pose proof (deref_last st i l1 l2 Hd) as He.
  destruct l2 as [|p l2]; cbn in He; rewrite He.
  { cbn. exists b1, x, b2. split_and!; [done|done|done|by intros ? ?%not_elem_of_nil]. }
  destruct (Z.eqb_spec p NULL) as [->|Hn].
  { exfalso. clear -Hd. apply chain_suffix in Hd as [h (_ & ? & _)]. done. }
  assert (Hl' : ps = (l1 ++ [p]) ++ l2) by (by rewrite <- app_assoc).
  destruct (Z.leb_spec best (meta st p).(used_count)) as [Hle|Hgt].
  - destruct (IH (l1 ++ [p]) l2 l1 p l2 (meta st p).(used_count) Hl' Hl ltac:(lia)) as (c1 & y & c2 & Hc & Hs & Hy & Hall).
    rewrite last_snoc in Hs. exists c1, y, c2. split_and!; [done|done|lia|]. intros q [->|Hq]%elem_of_cons; [lia|auto].
  - destruct (IH (l1 ++ [p]) l2 b1 x b2 best Hl' Hb Hx) as (c1 & y & c2 & Hc & Hs & Hy & Hall).
    rewrite last_snoc in Hs. exists c1, y, c2. split_and!; [done|done|lia|]. intros q [->|Hq]%elem_of_cons; [lia|auto].
Qed.

(** Taking a page out of the list: both the pool's refill and its release do it. *)
Definition detach (st : slab_pool) (i : Z) (link : option Z) (page : Z) : slab_pool :=
  let st := assign st i link (meta st page).(next) in set_meta st page (set_next (meta st page) NULL).

Lemma chain_cut m h l1 t a l2 : chain m h (l1 ++ t :: a :: l2) -> chain (wr m t (rd m a)) h (l1 ++ t :: l2).
Proof.
  intros Hc. pose proof (chain_NoDup _ _ _ Hc) as Hnd. revert h Hc Hnd. induction l1 as [|b l1 IH]; intros h; cbn.
  - intros (-> & Ht & Ha & Hna & Hc) Hnd. rewrite rd_wr_eq. split_and!; [done|done|]. apply chain_frame; [|done].
    apply NoDup_cons in Hnd as [Hnt _]. rewrite not_elem_of_cons in Hnt. tauto.
  - intros (-> & Hb & Hc) [Hnb Hnd]%NoDup_cons. rewrite rd_wr_ne; [|intros <-; apply Hnb, elem_of_app; right; left].
    split_and!; [done|done|]. by apply IH.
Qed.

Lemma unlink_walk_spec fuel st i page l1 l2 :
  chain (nexts st.(pages)) (class_at st i).(partials) (l1 ++ l2) -> (length l2 < fuel)%nat ->
  (page ∉ l2 /\ unlink_walk fuel st i (last l1) page = Some st) \/
  (exists d1 d2, l2 = d1 ++ page :: d2 /\ unlink_walk fuel st i (last l1) page = Some (detach st i (last (l1 ++ d1)) page)).
Proof.
  revert fuel l1. induction l2 as [|p l2 IH]; intros fuel l1 Hch Hf; (destruct fuel as [|fuel]; [cbn in Hf; lia|]); cbn [unlink_walk];
    rewrite (deref_last _ _ _ _ Hch); cbn [head default from_option id].
  { left. split; [by apply not_elem_of_nil|done]. }
  destruct (Z.eqb_spec p NULL) as [->|Hn].
  { exfalso. apply chain_suffix in Hch as [h (_ & ? & _)]. done. }
  destruct (Z.eqb_spec p page) as [->|Hne].
  - right. exists [], l2. by rewrite app_nil_r.
  - assert (Hch' : chain (nexts st.(pages)) (class_at st i).(partials) ((l1 ++ [p]) ++ l2)) by (by rewrite <- app_assoc).
    destruct (IH fuel (l1 ++ [p]) Hch' ltac:(cbn in Hf; lia)) as [[Hnot He]|(d1 & d2 & -> & He)]; rewrite last_snoc in He; rewrite He.
    + left. split; [|done]. rewrite not_elem_of_cons. by split.
    + right. exists (p :: d1), d2. split; [done|]. by rewrite <- app_assoc.
Qed.

Lemma class_at_set st i cls j : length st.(classes) = 32%nat -> 0 <= i < 32 -> 0 <= j < 32 ->
  default class0 (<[Z.to_nat i := cls]> st.(classes) !! Z.to_nat j) = if decide (j = i) then cls else class_at st j.
Proof.
  intros Hl Hi Hj. destruct (decide (j = i)) as [->|Hne]; [by rewrite list_lookup_insert_eq by lia|].
  rewrite list_lookup_insert_ne by lia. done.
Qed.

(** Headers that differ in their links only. *)
Definition relinked (pg pg' : gmap Z page_meta) : Prop :=
  forall q, match pg !! q with None => pg' !! q = None | Some m => exists v, pg' !! q = Some (set_next m v) end.

Lemma relinked_insert pg pg' p m v : relinked pg pg' -> pg' !! p = Some m -> relinked pg (<[p := set_next m v]> pg').
Proof.
  intros Hr Hp q. specialize (Hr q). destruct (decide (p = q)) as [->|Hne].
  - rewrite lookup_insert_eq. destruct (pg !! q) as [m0|]; [|congruence]. destruct Hr as [w Hr]. rewrite Hp in Hr. injection Hr as ->. by exists v.
  - by rewrite lookup_insert_ne.
Qed.

Lemma relinked_refl pg : relinked pg pg.
Proof. intros q. destruct (pg !! q) as [m|] eqn:E; [|done]. exists m.(next). by destruct m. Qed.

Lemma relinked_some pg pg' q m' : relinked pg pg' -> pg' !! q = Some m' -> exists m, pg !! q = Some m /\ m' = set_next m m'.(next).
Proof.
  intros Hr Hq. specialize (Hr q). destruct (pg !! q) as [m|]; [|congruence]. destruct Hr as [v Hr]. rewrite Hq in Hr. injection Hr as ->.
  by exists m.
Qed.

Lemma relinked_slabs pg pg' mm Lv : relinked pg pg' -> slabs pg mm Lv -> slabs pg' mm Lv.
Proof.
  intros Hr [Sp Sl]. constructor.
  - intros p m' Hp. destruct (relinked_some _ _ _ _ Hr Hp) as (m & Hm & ->). destruct (Sp p m Hm) as (H1 & H2 & H3).
    split_and!; [done|done|]. by apply slab_next.
  - intros q Hq. destruct (Sl q Hq) as (p & [m Hm] & Hin). exists p. split; [|done]. specialize (Hr p). rewrite Hm in Hr.
    destruct Hr as [v Hr]. by eexists.
Qed.

(** Membership in a partial list does not look at the links. *)
Lemma relinked_member pg pg' i c page p : relinked pg pg' ->
  (exists m, pg !! p = Some m /\ m.(size_class) = i /\ p <> c /\ p <> page /\ m.(used_count) < m.(capacity)) <->
  (exists m, pg' !! p = Some m /\ m.(size_class) = i /\ p <> c /\ p <> page /\ m.(used_count) < m.(capacity)).
Proof.
  intros Hr. split.
  - intros (m & Hm & Hx). specialize (Hr p). rewrite Hm in Hr. destruct Hr as [v Hr]. by exists (set_next m v).
  - intros (m' & Hm' & Hx). destruct (relinked_some _ _ _ _ Hr Hm') as (m & Hm & He). exists m. rewrite He in Hx. by split.
Qed.

(** A class whose page [page] has been taken off the list and has no place yet. *)
Record class_minus (cls : v8m_slab_pool_class) (pg : gmap Z page_meta) (i page : Z) : Prop := {
  cm_current : cls.(current) = NULL \/ exists m, pg !! cls.(current) = Some m /\ m.(size_class) = i;
  cm_other : cls.(current) <> page;
  cm_partials : exists ps, chain (nexts pg) cls.(partials) ps /\ page ∉ ps /\
    forall p, p ∈ ps <-> exists m, pg !! p = Some m /\ m.(size_class) = i /\ p <> cls.(current) /\ p <> page /\ m.(used_count) < m.(capacity)
}.

Lemma minus_install cls pg i page m :
  class_minus cls pg i page -> cls.(current) = NULL -> pg !! page = Some m -> m.(size_class) = i -> nonnull pg ->
  class_ok (MkClass page cls.(partials)) pg i.
Proof.
  intros [Hc Ho (ps & Hch & Hn & Hm)] Hcur Hp Hi Hnn. constructor; cbn; [right; by exists m|]. exists ps. split; [done|].
  intros q. rewrite Hm, Hcur. split; intros (m1 & H1 & H2 & H3); exists m1; split_and!; try tauto. by eapply Hnn.
Qed.

Lemma minus_delete cls pg i page : class_minus cls pg i page -> class_ok cls (delete page pg) i.
Proof.
  intros [Hc Ho (ps & Hch & Hn & Hm)]. constructor.
  - destruct Hc as [?|(m & Hl & Hs)]; [by left|right]. exists m. by rewrite lookup_delete_ne.
  - exists ps. split; [by apply nexts_delete_chain|]. intros q. rewrite Hm. destruct (decide (page = q)) as [<-|Hne].
    + rewrite lookup_delete_eq. split; [by intros (m & _ & _ & _ & ? & _)|by intros (m & ? & _)].
    + rewrite lookup_delete_ne by done. split; intros (m & H1 & H2 & H3); exists m; split_and!; try tauto. congruence.
Qed.

Lemma current_delete cls pg i page : class_ok cls pg i -> cls.(current) = page -> nonnull pg -> class_ok (MkClass NULL cls.(partials)) (delete page pg) i.
Proof.
  intros [Hc (ps & Hch & Hm)] <- Hnn. constructor; cbn; [by left|]. exists ps.
  split; [apply nexts_delete_chain; [intros (m & _ & _ & ? & _)%Hm; done|done]|].
  intros q. rewrite Hm. destruct (decide (cls.(current) = q)) as [<-|Hne].
  - rewrite lookup_delete_eq. split; [by intros (m & _ & _ & ? & _)|by intros (m & ? & _)].
  - rewrite lookup_delete_ne by done. split; intros (m & H1 & H2 & H3 & H4); exists m; split_and!; try done. by eapply Hnn.
Qed.

Lemma meta_some st p m : st.(pages) !! p = Some m -> meta st p = m.
Proof. intros Hp. unfold meta. by rewrite Hp. Qed.

(** What [detach] leaves. *)
Lemma detach_spec st i l1 page l2 :
  length st.(classes) = 32%nat -> 0 <= i < 32 -> class_ok (class_at st i) st.(pages) i ->
  chain (nexts st.(pages)) (class_at st i).(partials) (l1 ++ page :: l2) ->
  let st' := detach st i (last l1) page in
  exists cl pg, st' = set_pages (set_classes st cl) pg /\ length cl = 32%nat /\
    (forall j, 0 <= j < 32 -> j <> i -> class_at st' j = class_at st j) /\ (class_at st' i).(current) = (class_at st i).(current) /\
    relinked st.(pages) pg /\ class_minus (class_at st' i) pg i page /\
    (forall j, j <> i -> forall cls, class_ok cls st.(pages) j -> class_ok cls pg j).
Proof.
  intros Hlen Hi Cok Hch st'. pose proof Cok as [Hcur (ps & Hch' & Hm)]. pose proof (chain_det _ _ _ _ Hch' Hch) as ->. clear Hch'.
  pose proof (chain_NoDup _ _ _ Hch) as Hnd. assert (Hpg : page ∈ l1 ++ page :: l2) by (apply elem_of_app; right; left).
  destruct (proj1 (Hm page) Hpg) as (mp & Hmp & Hmi & Hpc & Hmu). pose proof (meta_some _ _ _ Hmp) as Emp.
  assert (Hnotin : page ∉ l1 ++ l2).
  { rewrite <- Permutation_middle in Hnd. apply NoDup_cons in Hnd. tauto. }
  assert (Hmem : forall p, p ∈ l1 ++ l2 <-> exists m, st.(pages) !! p = Some m /\ m.(size_class) = i /\ p <> (class_at st i).(current) /\ p <> page /\ m.(used_count) < m.(capacity)).
  { intros p. split.
    - intros Hp. assert (Hp' : p ∈ l1 ++ page :: l2) by (rewrite elem_of_app, elem_of_cons; apply elem_of_app in Hp; tauto).
      destruct (proj1 (Hm p) Hp') as (m & ? & ? & ? & ?). exists m. split_and!; try done. by intros ->.
    - intros (m & H1 & H2 & H3 & H4 & H5). assert (Hp : p ∈ l1 ++ page :: l2) by (apply Hm; by exists m).
      rewrite elem_of_app, elem_of_cons in Hp. rewrite elem_of_app. tauto. }
  assert (Hframe : forall pg q m v, pg !! q = Some m -> m.(size_class) = i ->
    forall j, j <> i -> forall cls, class_ok cls pg j -> class_ok cls (<[q := set_next m v]> pg) j).
  { intros pg q m v Hq Hqi j Hj cls Hc. apply class_ok_insert; [done|cbn; lia|]. intros m0 Hm0. rewrite Hq in Hm0. injection Hm0 as <-. lia. }
  unfold st', detach. rewrite Emp. destruct l1 as [|t l1 _] using rev_ind.
  - cbn [last assign]. set (cls := MkClass (class_at st i).(current) mp.(next)).
    exists (<[Z.to_nat i := cls]> st.(classes)), (<[page := set_next mp NULL]> st.(pages)).
    assert (Em : meta (set_partials st i mp.(next)) page = mp) by exact Emp. rewrite Em.
    assert (Hcl : forall j, 0 <= j < 32 -> class_at (set_meta (set_partials st i mp.(next)) page (set_next mp NULL)) j =
                    if decide (j = i) then cls else class_at st j) by (intros j Hj; by apply class_at_set).
    split; [done|]. split; [by rewrite length_insert|]. split; [intros j Hj Hne; rewrite Hcl by done; by rewrite decide_False|].
    rewrite Hcl by done. rewrite decide_True by done. split; [done|].
    split; [by apply relinked_insert; [apply relinked_refl|]|]. split; [|intros j Hj cls' Hc; by apply Hframe].
    assert (Hre : relinked st.(pages) (<[page := set_next mp NULL]> st.(pages))) by (by apply relinked_insert; [apply relinked_refl|]).
    constructor; cbn.
    + destruct Hcur as [?|(m & Hl & Hs)]; [by left|right]. exists m. rewrite lookup_insert_ne by done. done.
    + done.
    + exists l2. split; [|split; [done|]].
      * rewrite nexts_insert. apply chain_frame; [done|]. cbn in Hch. destruct Hch as (_ & _ & Hc). by rewrite rd_nexts, Emp in Hc.
      * intros p. rewrite <- (relinked_member _ _ i _ page p Hre). apply Hmem.
  - rewrite last_snoc. cbn [assign]. rewrite <- app_assoc in Hch. cbn [app] in Hch.
    assert (Htin : t ∈ (l1 ++ [t]) ++ page :: l2) by (rewrite !elem_of_app; left; right; left).
    destruct (proj1 (Hm t) Htin) as (mt & Hmt & Hti & Htc & _). pose proof (meta_some _ _ _ Hmt) as Emt. rewrite Emt.
    assert (Hne : t <> page). { intros ->. apply Hnotin. rewrite !elem_of_app. left. right. left. }
    set (pg1 := <[t := set_next mt mp.(next)]> st.(pages)).
    assert (Hp1 : pg1 !! page = Some mp) by (unfold pg1; by rewrite lookup_insert_ne).
    assert (Em : meta (set_meta st t (set_next mt mp.(next))) page = mp) by (apply meta_some; exact Hp1). rewrite Em.
    exists st.(classes), (<[page := set_next mp NULL]> pg1).
    assert (Hr1 : relinked st.(pages) pg1) by (by apply relinked_insert; [apply relinked_refl|]).
    assert (Hre : relinked st.(pages) (<[page := set_next mp NULL]> pg1)) by (by apply relinked_insert).
    split; [by destruct st|]. split; [done|]. split; [done|]. split; [done|]. split; [done|]. split.
    + change (class_at (set_meta (set_meta st t (set_next mt mp.(next))) page (set_next mp NULL)) i) with (class_at st i). constructor.
      * destruct Hcur as [?|(m & Hl & Hs)]; [by left|right]. exists m. unfold pg1. rewrite !lookup_insert_ne by done. done.
      * done.
      * exists ((l1 ++ [t]) ++ l2). split; [|split; [done|]].
        { rewrite nexts_insert. apply chain_frame; [done|]. unfold pg1. rewrite nexts_insert. rewrite <- app_assoc. cbn [app].
          cbn [next set_next]. rewrite <- Emp, <- rd_nexts. by apply chain_cut. }
        intros p. rewrite <- (relinked_member _ _ i _ page p Hre). apply Hmem.
    + intros j Hj cls Hc. apply (Hframe pg1 page mp NULL Hp1 Hmi j Hj). by apply Hframe.
Qed.

End Lists.

Lemma filter_ne_perm (p : Z) l : NoDup l -> p ∈ l -> l ≡ₚ p :: filter (fun q => q <> p) l.
Proof.
  intros Nd Hp. apply NoDup_Permutation; [done| |].
  - constructor; [by rewrite list_elem_of_filter; intros [? _]|by apply NoDup_filter].
  - intros q. rewrite elem_of_cons, list_elem_of_filter. destruct (decide (q = p)) as [->|]; naive_solver.
Qed.

(** ** Ownership of the pages *)

Section Owner.
Context `{PSL : PageSourceLaws}.

(** The rest of the program: other page-heap regions, other private mappings, and
    the huge-page slabs that other pools hold.  The pool serves the arena [ar]. *)
Context (oth od : list (Z * Z)) (nother : Z -> Prop) (ar : Z).

Definition prange (p : Z) : Z * Z := (p, p + V8M_PAGE_SIZE).

(** The pool's pages come from the huge-page pool ([nl]) or from the page heap
    ([dl]). *)
Record sources (nl dl : list Z) (numa : bool) (np : v8m_numa_pool) (s : src) : Prop := {
  so_nodup : NoDup (nl ++ dl);
  so_base : forall p, p ∈ nl ++ dl -> page_base p;
  so_carved : forall q, carved_out np q <-> q ∈ nl \/ nother q;
  so_nother : forall q, q ∈ nl -> ~ nother q;
  so_numa : nl <> [] -> numa = true;
  so_pool : pool_inv np s ((prange <$> dl) ++ oth) od
}.

Lemma pool_inv_add np s s' O r : pool_inv np s O od -> ps_inv s' -> ps_descs s' = ps_descs s ->
  ps_regions s' ≡ₚ r :: ps_regions s -> pool_inv np s' (r :: O) od.
Proof.
  intros [L Sh [A B C D E]] A' Hd Hr. constructor; [done|done|]. constructor; [done| |by rewrite Hd|done|done].
  rewrite Hr, B. by rewrite Permutation_middle.
Qed.

Lemma pool_inv_remove np s s' O r : pool_inv np s (r :: O) od -> ps_inv s' -> ps_descs s' = ps_descs s ->
  r :: ps_regions s' ≡ₚ ps_regions s -> pool_inv np s' O od.
Proof.
  intros [L Sh [A B C D E]] A' Hd Hr. constructor; [done|done|]. constructor; [done| |by rewrite Hd|done|done].
  apply (Permutation_cons_inv (a := r)). rewrite Hr, B. by rewrite Permutation_middle.
Qed.

Lemma pool_inv_others np s O O' : O ≡ₚ O' -> pool_inv np s O od -> pool_inv np s O' od.
Proof. intros Ho [L Sh [A B C D E]]. constructor; [done|done|]. constructor; [done|by rewrite <- Ho|done|done|done]. Qed.

(** A carved page lies in a huge page, never in a region of its own. *)
Lemma carved_not_direct np s O p : pool_inv np s O od -> carved_out np p -> prange p ∉ O.
Proof.
  intros [L Sh D] (x & i & Hx & Hi & _ & ->) Hin. pose proof (dinv_apart _ _ _ _ D) as (Nd & Ap & _).
  pose proof (d_whole _ _ _ _ D) as Hw. rewrite Forall_forall in Hw. pose proof (slot_in_range x i (Hw x Hx) Hi) as [H1 H2].
  assert (Hxr : drange x ∈ drange <$> all_descs np) by (by apply list_elem_of_fmap_2).
  assert (Hne : drange x <> prange (HugeSlab.slot_at x.2 i)).
  { intros He. apply NoDup_app in Nd as (_ & Nd & _). apply (Nd (drange x) Hxr). by rewrite He. }
  specialize (Ap (drange x) (prange (HugeSlab.slot_at x.2 i)) ltac:(apply elem_of_app; by left) ltac:(apply elem_of_app; by right) Hne).
  unfold apart, drange, prange in Ap. cbn in Ap. rewrite page_size_eq in *. change HugeSlab.V8M_HUGE_PAGE_SIZE with (2 ^ 21) in *. lia.
Qed.

(** Giving one page back to where it came from. *)
Lemma release_immediate_spec nl dl st page :
  sources nl dl (st.(use_numa_pool) && st.(g_slab_numa_pool_ready)) st.(g_slab_numa_pool) st.(source) -> page ∈ nl ++ dl ->
  exists nl' dl' np s, release_slab_page_immediate st page = forget (set_numa_src st np st.(g_slab_numa_pool_ready) s) page /\
    sources nl' dl' (st.(use_numa_pool) && st.(g_slab_numa_pool_ready)) np s /\
    (forall p, p ∈ nl' ++ dl' <-> p ∈ nl ++ dl /\ p <> page).
Proof.
  intros S Hp. pose proof S as [Nd Bs Cv No Rd Po]. pose proof (Bs page Hp) as Hb.
  assert (Hp64 : 0 <= page < 2 ^ 64) by (destruct Hb as (? & ? & _); rewrite page_size_eq in *; lia).
  unfold release_slab_page_immediate. apply NoDup_app in Nd as (N1 & Nx & N2). apply elem_of_app in Hp as [Hp|Hp].
  - assert (Hne : nl <> []) by (intros ->; by apply not_elem_of_nil in Hp). rewrite (Rd Hne).
    pose proof (release_ok _ _ _ _ page Po Hp64) as Hr. destruct (v8m_numa_pool_release_slab _ _ _) as [[s np] r].
    destruct Hr as (Po' & Hr & Hq). assert (r = true) as -> by (apply Hr, Cv; by left).
    exists (filter (fun q => q <> page) nl), dl, np, s. split; [done|].
    assert (Hel : forall p, p ∈ filter (fun q => q <> page) nl ++ dl <-> p ∈ nl ++ dl /\ p <> page).
    { intros p. rewrite !elem_of_app, list_elem_of_filter. split; [|tauto]. intros [[? ?]|Hd]; [tauto|]. split; [by right|].
      intros ->. by apply (Nx page). }
    split; [|exact Hel]. constructor.
    + apply NoDup_app. split_and!; [by apply NoDup_filter| |done]. intros p [_ H1]%list_elem_of_filter. by apply Nx.
    + intros p H1. apply Bs, Hel, H1.
    + intros q. rewrite Hq, Cv, list_elem_of_filter. split; [tauto|]. intros [?|Hn]; [tauto|]. split; [by right|].
      intros ->. by apply (No page).
    + intros q [_ H1]%list_elem_of_filter. by apply No.
    + done.
    + done.
  - assert (Hnp : page ∉ nl) by (intros H1; by apply (Nx page)).
    set (dl' := filter (fun q => q <> page) dl). pose proof (filter_ne_perm page dl N2 Hp) as Hperm. fold dl' in Hperm.
    assert (Hdir : prange page ∈ (prange <$> dl) ++ oth) by (apply elem_of_app; left; by apply list_elem_of_fmap_2).
    assert (Hel : forall p, p ∈ nl ++ dl' <-> p ∈ nl ++ dl /\ p <> page).
    { intros p. unfold dl'. rewrite !elem_of_app, list_elem_of_filter. split; [|tauto]. intros [Hn|[? ?]]; [|tauto]. split; [by left|].
      by intros ->. }
    assert (Hfree : forall np s, pool_inv np s ((prange <$> dl) ++ oth) od -> (forall q, carved_out np q <-> q ∈ nl \/ nother q) ->
      sources nl dl' (st.(use_numa_pool) && st.(g_slab_numa_pool_ready)) np (ps_free s page V8M_PAGE_SIZE)).
    { intros np s Po1 Cv1. pose proof Po1 as [_ _ [A B _ _ _]].
      destruct (ps_free_law s page V8M_PAGE_SIZE A ltac:(rewrite B; apply elem_of_app; by right)) as (A1 & Hd1 & Hr1).
      constructor.
      - apply NoDup_app. split_and!; [done| |by apply NoDup_filter]. intros p H1 [_ H2]%list_elem_of_filter. by apply (Nx p).
      - intros p H1. apply Bs, Hel, H1.
      - done.
      - done.
      - done.
      - apply (pool_inv_remove _ s _ _ (prange page)); [|done|done|done]. eapply pool_inv_others; [|exact Po1].
        by rewrite Hperm. }
    destruct (use_numa_pool st && g_slab_numa_pool_ready st) eqn:Hnr.
    + pose proof (release_ok _ _ _ _ page Po Hp64) as Hr. destruct (v8m_numa_pool_release_slab _ _ _) as [[s np] r].
      destruct Hr as (Po' & Hr & Hq). assert (Hnc : ~ carved_out st.(g_slab_numa_pool) page).
      { intros Hc. by apply (carved_not_direct _ _ _ _ Po Hc). }
      assert (r = false) as -> by (destruct r; [by destruct Hnc; apply Hr|done]).
      exists nl, dl', np, (ps_free s page V8M_PAGE_SIZE). split; [done|]. split; [|exact Hel]. apply Hfree; [done|].
      intros q. rewrite Hq, <- Cv. split; [tauto|]. intros Hc. split; [done|]. by intros ->.
    + exists nl, dl', st.(g_slab_numa_pool), (ps_free st.(source) page V8M_PAGE_SIZE). split; [done|]. split; [|exact Hel]. by apply Hfree.
Qed.

(** The pages [U] in use and the parked ones are the pool's, each once. *)
Definition powner (U : Z -> Prop) (st : slab_pool) : Prop :=
  exists nl dl, sources nl dl (st.(use_numa_pool) && st.(g_slab_numa_pool_ready)) st.(g_slab_numa_pool) st.(source) /\
    NoDup st.(drained).*1 /\ (length st.(drained) <= 8)%nat /\
    (forall p, p ∈ nl ++ dl <-> U p \/ p ∈ st.(drained).*1) /\ (forall p, U p -> p ∉ st.(drained).*1).

Lemma powner_base U st p : powner U st -> U p -> page_base p.
Proof. intros (nl & dl & S & _ & _ & Hu & _) Hp. apply (so_base _ _ _ _ _ S), Hu. by left. Qed.

Lemma sources_carve nl dl np s np' s' p :
  sources nl dl true np s -> pool_inv np' s' ((prange <$> dl) ++ oth) od -> page_base p -> ~ carved_out np p ->
  (forall q, carved_out np' q <-> q = p \/ carved_out np q) -> sources (p :: nl) dl true np' s' /\ p ∉ nl ++ dl.
Proof.
  intros [Nd Bs Cv No _ Po] Po' Hb Hnc Hq. assert (Hnl : p ∉ nl) by (intros Hp; apply Hnc, Cv; by left).
  assert (Hdl : p ∉ dl).
  { intros Hp. apply (carved_not_direct _ _ _ p Po' ltac:(apply Hq; by left)). apply elem_of_app. left. by apply list_elem_of_fmap_2. }
  assert (Hn : p ∉ nl ++ dl) by (rewrite elem_of_app; tauto). split; [|done]. constructor.
  - by constructor.
  - intros q [->|H1]%elem_of_cons; [done|by apply Bs].
  - intros q. rewrite Hq, Cv, elem_of_cons. tauto.
  - intros q [->|H1]%elem_of_cons; [|by apply No]. intros Hx. apply Hnc, Cv. by right.
  - done.
  - done.
Qed.

Lemma sources_direct nl dl b np s s' p :
  sources nl dl b np s -> ps_inv s' -> ps_descs s' = ps_descs s -> 0 < p -> p + V8M_PAGE_SIZE < 2 ^ 64 -> (V8M_PAGE_SIZE | p) ->
  ps_regions s' ≡ₚ prange p :: ps_regions s -> sources nl (p :: dl) b np s' /\ p ∉ nl ++ dl.
Proof.
  intros [Nd Bs Cv No Rd Po] A Hd H0 H1 Hdv Hr. assert (Hb : page_base p) by (split_and!; [done|lia|done]).
  assert (Po' : pool_inv np s' ((prange <$> p :: dl) ++ oth) od) by (by eapply pool_inv_add).
  assert (Hnl : p ∉ nl).
  { intros Hp. apply (carved_not_direct _ _ _ p Po' ltac:(apply Cv; by left)). left. }
  assert (Hdl : p ∉ dl).
  { intros Hp. destruct Po' as [_ _ D]. destruct (dinv_apart _ _ _ _ D) as (Nr & _ & _). cbn in Nr.
    apply NoDup_app in Nr as (_ & _ & Nr). apply NoDup_cons in Nr as [Nr _]. apply Nr, elem_of_app. left. by apply list_elem_of_fmap_2. }
  split; [|rewrite elem_of_app; tauto]. constructor; [| |done|done|done|done].
  - rewrite <- Permutation_middle. constructor; [rewrite elem_of_app; tauto|done].
  - intros q Hq. rewrite <- Permutation_middle, elem_of_cons in Hq. destruct Hq as [->|Hq]; [done|by apply Bs].
Qed.

(** Only the parked pages, the huge-page pool and the source differ. *)
Definition same_pages (st st' : slab_pool) : Prop :=
  st'.(classes) = st.(classes) /\ st'.(pages) = st.(pages) /\ st'.(smem) = st.(smem) /\
  st'.(use_numa_pool) = st.(use_numa_pool) /\ st'.(g_slab_numa_pool_ready) = st.(g_slab_numa_pool_ready).

Lemma acquire_spec U st :
  powner U st ->
  let '(st', p) := acquire_slab_page st in
  same_pages st st' /\
  (p = NULL /\ powner U st' \/ p <> NULL /\ page_base p /\ ~ U p /\ powner (fun q => q = p \/ U q) st').
Proof.
  intros (nl & dl & S & Nd & Cap & Hu & Hd). pose proof S as [_ Bs _ _ _ Po]. unfold acquire_slab_page, drained_pop.
  destruct (rev (drained st)) as [|[page idle] rest] eqn:Hrev.
  2: { pose proof (f_equal (@rev _) Hrev) as Hdr. rewrite rev_involutive in Hdr. cbn in Hdr. rewrite Hdr in *.
       assert (Hin : page ∈ nl ++ dl). { apply Hu. right. rewrite fmap_app. apply elem_of_app. right. left. }
       pose proof (Bs page Hin) as Hb. assert (Hpn : page <> NULL) by (destruct Hb; unfold NULL; lia).
       destruct (Z.eqb_spec page NULL); [done|]. cbn [negb]. split; [done|]. right.
       rewrite fmap_app in Nd. cbn in Nd. apply NoDup_app in Nd as (N1 & Nx & _). rewrite length_app in Cap. cbn in Cap.
       split_and!; [done|done| |].
       - intros HU. apply (Hd page HU). rewrite fmap_app. apply elem_of_app. right. left.
       - exists nl, dl. cbn. split_and!; [done|done|lia| |].
         + intros p. rewrite Hu, fmap_app, elem_of_app. cbn. rewrite list_elem_of_singleton. tauto.
         + intros p [->|HU] Hp; [apply (Nx page Hp); left|]. apply (Hd p HU). rewrite fmap_app. apply elem_of_app. by left. }
  cbn [negb]. rewrite Z.eqb_refl. cbn [negb].
  assert (Hdirect : forall st1, same_pages st st1 -> st1.(drained) = st.(drained) ->
    sources nl dl (st.(use_numa_pool) && st.(g_slab_numa_pool_ready)) st1.(g_slab_numa_pool) st1.(source) ->
    let '(st', p) := (let '(s, page) := ps_alloc st1.(source) V8M_PAGE_SIZE V8M_PAGE_SIZE in
      (set_numa_src st1 st1.(g_slab_numa_pool) st1.(g_slab_numa_pool_ready) s, page)) in
    same_pages st st' /\ (p = NULL /\ powner U st' \/ p <> NULL /\ page_base p /\ ~ U p /\ powner (fun q => q = p \/ U q) st')).
  { intros st1 Hs1 Hdr S1. pose proof S1 as [_ _ _ _ _ [_ _ [A _ _ _ _]]]. pose proof Hs1 as (_ & _ & _ & Hun & Hrd).
    pose proof (ps_alloc_law st1.(source) V8M_PAGE_SIZE 16 A ltac:(rewrite page_size_eq; lia) ltac:(done) ltac:(lia)) as Ha.
    change (Z.min 16 21) with 16 in Ha.
    change (2 ^ 16) with V8M_PAGE_SIZE in Ha. destruct (ps_alloc _ _ _) as [s p]. destruct Ha as (A' & Hd' & Hc). split; [done|].
    destruct Hc as [[-> Hr]|(Hp0 & Hp1 & Hpd & Hr)].
    - left. split; [done|]. exists nl, dl. cbn. rewrite Hun, Hrd, Hdr. split_and!; [|done|done|done|done].
      destruct S1 as [H1 H2 H3 H4 H5 [L Sh [X1 X2 X3 X4 X5]]]. constructor; try done. constructor; [done|done|].
      constructor; [done|by rewrite Hr|by rewrite Hd'|done|done].
    - right. destruct (sources_direct _ _ _ _ _ s p S1 A' Hd' Hp0 Hp1 Hpd Hr) as [S2 Hnew].
      split_and!; [unfold NULL; lia|split_and!; [lia|lia|done]| |].
      + intros HU. apply Hnew, Hu. by left.
      + exists nl, (p :: dl). cbn. rewrite Hun, Hrd, Hdr. split_and!; [done|done|done| |].
        * intros q. rewrite <- Permutation_middle, elem_of_cons, Hu. tauto.
        * intros q [->|HU]; [|by apply Hd]. intros Hq. apply Hnew, Hu. by right. }
  destruct (use_numa_pool st && g_slab_numa_pool_ready st) eqn:Hnr; [|apply Hdirect; done].
  pose proof Po as [_ _ [A _ _ _ _]]. pose proof (ps_node_law st.(source) A) as Hn. destruct (ps_node st.(source)) as [s1 node].
  destruct Hn as (A1 & Hd1 & Hr1). assert (Po1 : pool_inv st.(g_slab_numa_pool) s1 ((prange <$> dl) ++ oth) od).
  { destruct Po as [L Sh [X1 X2 X3 X4 X5]]. constructor; [done|done|]. constructor; [done|by rewrite Hr1|by rewrite Hd1|done|done]. }
  assert (S1 : sources nl dl true st.(g_slab_numa_pool) s1) by (destruct S as [H1 H2 H3 H4 H5 H6]; by constructor).
  set (nd := if _ <=? node then 0 else node).
  assert (Hnd : exists k, 0 <= k < 64 /\ v8m_numa_pool_carve_slab s1 st.(g_slab_numa_pool) nd = v8m_numa_pool_carve_slab s1 st.(g_slab_numa_pool) k).
  { unfold nd, Numa.V8M_NUMA_MAX_NODES. destruct (Z.leb_spec 64 node); [by exists 0|].
    destruct (Z.lt_ge_cases node 0) as [Hneg|]; [exists 0|exists node]; (split; [lia|]); [by apply carve_negative|done]. }
  destruct Hnd as (k & Hk & ->). pose proof (carve_ok _ _ _ _ k Po1 Hk) as Hc.
  destruct (v8m_numa_pool_carve_slab s1 st.(g_slab_numa_pool) k) as [[s2 np] p]. destruct Hc as (Po2 & Hc).
  destruct (Z.eqb_spec p NULL) as [->|Hne]; cbn [negb].
  - apply Hdirect; [done|done|]. cbn. destruct Hc as [(_ & Hq & _)|(? & _)]; [|done].
    destruct S1 as [H1 H2 H3 H4 H5 H6]. constructor; [done|done| |done|done|done]. intros q. by rewrite Hq.
  - destruct Hc as [[? _]|(_ & Hb & Hfr & Hq)]; [done|].
    destruct (sources_carve _ _ _ _ np s2 p S1 Po2 Hb Hfr Hq) as [S2 Hnew]. split; [done|]. right. split_and!; [done|done| |].
    + intros HU. apply Hnew, Hu. by left.
    + exists (p :: nl), dl. cbn. rewrite Hnr. split_and!; [done|done|done| |].
      * intros q. cbn. rewrite elem_of_cons, Hu. tauto.
      * intros q [->|HU]; [|by apply Hd]. intros Hx. apply Hnew, Hu. by right.
Qed.

(** Giving up a page in use: it is parked, or goes back to its source. *)
Lemma release_page_spec U st page :
  powner U st -> U page ->
  exists dr np s, release_slab_page st page = set_drained (forget (set_numa_src st np st.(g_slab_numa_pool_ready) s) page) dr /\
    powner (fun q => U q /\ q <> page) (release_slab_page st page).
Proof.
  intros (nl & dl & S & Nd & Cap & Hu & Hd) HU. pose proof S as [N1 Bs Cv No Rd Po]. unfold release_slab_page, drained_push.
  unfold V8M_SLAB_DRAINED_CAP. destruct (Z.leb_spec 8 (Z.of_nat (length st.(drained)))) as [Hfull|Hroom].
  - destruct (release_immediate_spec nl dl st page S ltac:(apply Hu; by left)) as (nl' & dl' & np & s & He & S' & Hel).
    exists st.(drained), np, s. rewrite He. split; [done|]. exists nl', dl'. cbn. split_and!; [done|done|done| |].
    + intros p. rewrite Hel, Hu. split; [tauto|]. intros [?|Hp]; [tauto|]. split; [by right|]. intros ->. by apply (Hd page).
    + intros p [Hp _]. by apply Hd.
  - pose proof Po as [_ _ [A _ _ _ _]]. destruct (ps_dont_need_law st.(source) page V8M_PAGE_SIZE A) as (A1 & Hd1 & Hr1).
    eexists _, st.(g_slab_numa_pool), (ps_dont_need st.(source) page V8M_PAGE_SIZE). split; [reflexivity|].
    exists nl, dl. cbn. rewrite fmap_app. cbn. split_and!.
    + constructor; [done|done|done|done|done|]. destruct Po as [L Sh [X1 X2 X3 X4 X5]]. constructor; [done|done|].
      constructor; [done|by rewrite Hr1|by rewrite Hd1|done|done].
    + apply NoDup_app. split_and!; [done| |apply NoDup_singleton]. intros p Hp Hx%list_elem_of_singleton. subst p. by apply (Hd page).
    + rewrite length_app. cbn. lia.
    + intros p. rewrite Hu, elem_of_app, list_elem_of_singleton. split; [|naive_solver]. intros [Hp|Hp]; [|tauto].
      destruct (decide (p = page)); tauto.
    + intros p [Hp Hne]. rewrite elem_of_app, list_elem_of_singleton. intros [Hx|?]; [|done]. by apply (Hd p).
Qed.

Lemma powner_ext U U' st : (forall p, U p <-> U' p) -> powner U st -> powner U' st.
Proof.
  intros He (nl & dl & S & Nd & Cap & Hu & Hd). exists nl, dl. split_and!; [done|done|done| |].
  - intros p. by rewrite Hu, He.
  - intros p Hp. by apply Hd, He.
Qed.

(** ** The pool invariant *)

Record pool_ok (st : slab_pool) (Lv : Z -> Prop) : Prop := {
  po_len : length st.(classes) = 32%nat;
  po_slabs : slabs st.(pages) st.(smem) Lv;
  po_class : forall i, 0 <= i < 32 -> class_ok (class_at st i) st.(pages) i;
  po_arena : forall p m, st.(pages) !! p = Some m -> m.(arena_id) = ar;
  po_owner : powner (fun p => is_Some (st.(pages) !! p)) st
}.

Lemma po_nonnull st Lv : pool_ok st Lv -> nonnull st.(pages).
Proof.
  intros P p m Hp. destruct (sl_page _ _ _ (po_slabs _ _ P) p m Hp) as ((? & _) & _). unfold NULL. lia.
Qed.

Lemma arena_insert (pg : gmap Z page_meta) p m' :
  (forall q m, pg !! q = Some m -> m.(arena_id) = ar) -> m'.(arena_id) = ar -> forall q m, <[p := m']> pg !! q = Some m -> m.(arena_id) = ar.
Proof. intros Hall Hm' q m [[_ <-]|[_ Hq]]%lookup_insert_Some; [done|by eapply Hall]. Qed.
Lemma arena_relinked pg pg' :
  relinked pg pg' -> (forall q m, pg !! q = Some m -> m.(arena_id) = ar) -> forall q m, pg' !! q = Some m -> m.(arena_id) = ar.
Proof. intros Hr Hall q m Hq. destruct (relinked_some _ _ _ _ Hr Hq) as (m0 & H0 & ->). by apply (Hall q m0). Qed.

(** One class updated, the pages of the others untouched. *)
Lemma class_update st cls i pg :
  length st.(classes) = 32%nat -> 0 <= i < 32 -> class_ok cls pg i ->
  (forall j, 0 <= j < 32 -> j <> i -> class_ok (class_at st j) pg j) ->
  forall j, 0 <= j < 32 -> class_ok (default class0 (<[Z.to_nat i := cls]> st.(classes) !! Z.to_nat j)) pg j.
Proof.
  intros Hl Hi Hc Ho j Hj. rewrite class_at_set by done. destruct (decide (j = i)) as [->|]; [done|by apply Ho].
Qed.

Lemma others_insert st Lv i p m m' :
  pool_ok st Lv -> st.(pages) !! p = Some m -> m.(size_class) = i -> m'.(size_class) = i ->
  forall j, 0 <= j < 32 -> j <> i -> class_ok (class_at st j) (<[p := m']> st.(pages)) j.
Proof.
  intros P Hp Hi Hi' j Hj Hne. apply class_ok_insert; [by apply (po_class _ _ P)|lia|]. intros m0 Hm0. rewrite Hp in Hm0.
  injection Hm0 as <-. lia.
Qed.

(** Taking one object from the current page of a class. *)
Lemma alloc_current st Lv i m m' a :
  pool_ok st Lv -> 0 <= i < 32 -> st.(pages) !! (class_at st i).(current) = Some m -> m.(size_class) = i ->
  same_header m m' -> m'.(used_count) = m.(used_count) + 1 -> ~ (Lv a /\ in_page (class_at st i).(current) a) ->
  slab_ok i (class_at st i).(current) st.(smem) m' (fun q => q = a \/ Lv q /\ in_page (class_at st i).(current) q) ->
  pool_ok (set_meta st (class_at st i).(current) m') (fun q => q = a \/ Lv q) /\ ~ Lv a.
Proof.
  intros P Hi Hp Hmi (_ & Hs & _ & _ & _ & Har) Hu Hna Hok. set (p := (class_at st i).(current)) in *.
  destruct (sl_page _ _ _ (po_slabs _ _ P) p m Hp) as (Hb & Hu0 & _).
  destruct (slab_inside i p _ m' _ Hb Hok a ltac:(by left)) as [Hin _]. split; [|tauto].
  constructor.
  - apply (po_len _ _ P).
  - cbn. rewrite <- Hmi, <- Hs in Hok. apply (slabs_put _ st.(smem) _ Lv); [apply P|done|lia| | |done].
    + eapply slab_ext; [exact Hok|]. intros q. split; [|tauto]. intros [->|[? ?]]; tauto.
    + intros q Hq. split; [|tauto]. by intros [->|?].
  - intros j Hj. cbn. destruct (decide (j = i)) as [->|Hne].
    + apply class_ok_current; [by apply (po_class _ _ P)|exact (po_nonnull _ _ P _ _ Hp)|congruence].
    + eapply (others_insert st Lv i); [done|done|done|congruence|lia|done].
  - apply arena_insert; [apply P|]. rewrite Har. by apply (po_arena _ _ P p).
  - eapply powner_ext; [|exact (po_owner _ _ P)]. intros q. cbn. destruct (decide (p = q)) as [<-|Hne].
    + rewrite lookup_insert_eq, Hp. split; by eexists.
    + by rewrite lookup_insert_ne.
Qed.

(** ** Allocation *)

(** Pages in use stay, with their classes. *)
Definition classes_kept (pg pg' : gmap Z page_meta) : Prop :=
  forall p m, pg !! p = Some m -> exists m', pg' !! p = Some m' /\ m'.(size_class) = m.(size_class).
(** So do their words. *)
Definition kept (st st' : slab_pool) : Prop :=
  classes_kept st.(pages) st'.(pages) /\ forall p a, is_Some (st.(pages) !! p) -> in_page p a -> rd st'.(smem) a = rd st.(smem) a.

Lemma classes_refl pg : classes_kept pg pg.
Proof. intros p m Hp. by exists m. Qed.
Lemma classes_trans pg1 pg2 pg3 : classes_kept pg1 pg2 -> classes_kept pg2 pg3 -> classes_kept pg1 pg3.
Proof. intros H1 H2 p m Hp. destruct (H1 p m Hp) as (m' & Hp' & <-). by apply H2. Qed.
Lemma classes_insert pg p m' : (forall m, pg !! p = Some m -> m'.(size_class) = m.(size_class)) -> classes_kept pg (<[p := m']> pg).
Proof.
  intros Hm q m Hq. destruct (decide (p = q)) as [<-|Hne]; [exists m'; rewrite lookup_insert_eq; split; [done|by apply Hm]|].
  exists m. by rewrite lookup_insert_ne.
Qed.
Lemma classes_relinked pg pg' : relinked pg pg' -> classes_kept pg pg'.
Proof. intros Hr p m Hp. specialize (Hr p). rewrite Hp in Hr. destruct Hr as [v Hr]. by exists (set_next m v). Qed.
Lemma kept_from st st1 st' : st1.(pages) = st.(pages) -> st1.(smem) = st.(smem) -> kept st1 st' -> kept st st'.
Proof. unfold kept. by intros -> ->. Qed.
Lemma kept_trans st1 st2 st3 : kept st1 st2 -> kept st2 st3 -> kept st1 st3.
Proof.
  intros [C1 W1] [C2 W2]. split; [by eapply classes_trans|]. intros p a [m Hp] Ha. destruct (C1 p m Hp) as (m' & Hp' & _).
  rewrite (W2 p a); [apply (W1 p a); [by eexists|done]|by eexists|done].
Qed.

(** An object [a] of class [i] was handed out. *)
Definition served (st : slab_pool) (Lv : Z -> Prop) (i : Z) (st' : slab_pool) (a : Z) : Prop :=
  a <> NULL /\ ~ Lv a /\ pool_ok st' (fun q => q = a \/ Lv q) /\
  (exists p m, st'.(pages) !! p = Some m /\ m.(size_class) = i /\ in_page p a /\ a + class_size i <= p + V8M_PAGE_SIZE) /\ kept st st'.

Lemma set_meta_same st p m : st.(pages) !! p = Some m -> set_meta st p m = st.
Proof. intros Hp. unfold set_meta, set_pages. rewrite insert_id by done. by destruct st. Qed.

(** Allocating from the current page, once it is known to have room. *)
Lemma current_serves st Lv i m :
  pool_ok st Lv -> 0 <= i < 32 -> st.(pages) !! (class_at st i).(current) = Some m -> m.(size_class) = i ->
  slab_is_full_dispatch m = false ->
  exists m' a, slab_alloc_dispatch st.(smem) (class_at st i).(current) m = (m', a) /\
    served st Lv i (set_meta st (class_at st i).(current) m') a.
Proof.
  intros P Hi Hp Hmi Hnf. set (p := (class_at st i).(current)) in *.
  destruct (sl_page _ _ _ (po_slabs _ _ P) p m Hp) as (Hb & Hu & Hok). rewrite Hmi in Hok.
  destruct (slab_alloc_law i p st.(smem) m _ Hb Hok) as [[Hf _]|(_ & m' & a & He & Ha & HL & Hh & Hu' & Hok')]; [congruence|].
  exists m', a. split; [done|]. destruct (alloc_current st Lv i m m' a P Hi Hp Hmi Hh Hu' HL Hok') as [P' Hna].
  destruct (slab_inside i p _ m' _ Hb Hok' a ltac:(by left)) as [Hin Hsz]. pose proof Hok' as (_ & Hc' & Ho' & _).
  split; [done|]. split; [done|]. split; [done|]. split; [|split; [|by intros ? ? ? ?]].
  2: { apply classes_insert. intros m0 Hm0. rewrite Hp in Hm0. injection Hm0 as <-. apply Hh. }
  exists p, m'. cbn. rewrite lookup_insert_eq. split_and!; [done|done|done|]. by rewrite <- Ho'.
Qed.

Lemma try_current_spec st Lv i :
  pool_ok st Lv -> 0 <= i < 32 ->
  let '(st', a) := try_current st i in
  (a = NULL /\ pool_ok st' Lv /\ (class_at st' i).(current) = NULL /\ exists cl, st' = set_classes st cl) \/
  served st Lv i st' a.
Proof.
  intros P Hi. unfold try_current. pose proof (po_class _ _ P i Hi) as Cok. destruct (Z.eqb_spec (class_at st i).(current) NULL) as [He|Hne].
  { left. split_and!; [done|done|done|]. exists st.(classes). by destruct st. }
  destruct (co_current _ _ _ Cok) as [?|(m & Hp & Hmi)]; [done|]. rewrite (meta_some _ _ _ Hp).
  destruct (slab_is_full_dispatch m) eqn:Hf.
  - destruct (sl_page _ _ _ (po_slabs _ _ P) _ m Hp) as (Hb & Hu & Hok).
    destruct (slab_alloc_law _ _ _ m _ Hb Hok) as [[_ ->]|[? _]]; [|congruence].
    rewrite set_meta_same by done. rewrite Z.eqb_refl. left. split; [done|].
    destruct (slab_used _ _ _ m _ Hb Hok) as (_ & _ & Hfull & _). rewrite Hf in Hfull. symmetry in Hfull. apply Z.eqb_eq in Hfull.
    pose proof (class_ok_drop _ _ _ m Cok Hp Hfull (po_nonnull _ _ P)) as Cd. split_and!; [|by unfold class_at; cbn; rewrite class_at_set, decide_True by (done || apply P)|by eexists].
    constructor; cbn; [by rewrite length_insert; apply P|apply P| |apply P|apply P].
    intros j Hj. apply class_update; [apply P|done|done| |done]. intros k Hk _. by apply (po_class _ _ P).
  - destruct (current_serves st Lv i m P Hi Hp Hmi Hf) as (m' & a & -> & Hs). right.
    destruct (Z.eqb_spec a NULL); [by destruct Hs|]. done.
Qed.

(** Nothing left for class [i]: its pages are full, and no page can be had. *)
Definition exhausted (st : slab_pool) (i : Z) : Prop :=
  (forall p m, st.(pages) !! p = Some m -> m.(size_class) = i -> m.(used_count) = m.(capacity)) /\ (acquire_slab_page st).2 = NULL.

Lemma all_full st Lv i :
  pool_ok st Lv -> 0 <= i < 32 -> (class_at st i).(current) = NULL -> (class_at st i).(partials) = NULL ->
  forall p m, st.(pages) !! p = Some m -> m.(size_class) = i -> m.(used_count) = m.(capacity).
Proof.
  intros P Hi Hc Hpa p m Hp Hmi. destruct (co_partials _ _ _ (po_class _ _ P i Hi)) as (ps & Hch & Hm). rewrite Hpa in Hch.
  destruct ps as [|x ps]; [|by destruct Hch as (-> & ? & _)].
  destruct (sl_page _ _ _ (po_slabs _ _ P) p m Hp) as (Hb & _ & Hok). destruct (slab_used _ _ _ _ _ Hb Hok) as (Hle & _).
  destruct (decide (m.(used_count) < m.(capacity))) as [Hlt|]; [|lia]. exfalso. apply (not_elem_of_nil p), Hm. exists m.
  split_and!; [done|done|rewrite Hc; by eapply po_nonnull|done].
Qed.

(** Where a page comes from does not depend on the class lists. *)
Lemma acquire_classes st cl : (acquire_slab_page (set_classes st cl)).2 = (acquire_slab_page st).2.
Proof.
  unfold acquire_slab_page, drained_pop. cbn. destruct (rev st.(drained)) as [|[page idle] rest]; cbn.
  - destruct (use_numa_pool st && g_slab_numa_pool_ready st); cbn.
    + destruct (ps_node st.(source)) as [s node]. destruct (v8m_numa_pool_carve_slab _ _ _) as [[s' np] p].
      destruct (p =? NULL); cbn; [|done]. by destruct (ps_alloc _ _ _).
    + by destruct (ps_alloc _ _ _).
  - destruct (page =? NULL); cbn; [|done]. destruct (use_numa_pool st && g_slab_numa_pool_ready st); cbn.
    + destruct (ps_node st.(source)) as [s node]. destruct (v8m_numa_pool_carve_slab _ _ _) as [[s' np] p].
      destruct (p =? NULL); cbn; [|done]. by destruct (ps_alloc _ _ _).
    + by destruct (ps_alloc _ _ _).
Qed.

(** A page with room taken from the partial list becomes current. *)
Lemma take_partial st Lv i l1 page l2 :
  pool_ok st Lv -> 0 <= i < 32 -> (class_at st i).(current) = NULL ->
  chain (nexts st.(pages)) (class_at st i).(partials) (l1 ++ page :: l2) ->
  let st' := set_current (detach st i (last l1) page) i page in
  pool_ok st' Lv /\ (class_at st' i).(current) = page /\ st'.(smem) = st.(smem) /\ relinked st.(pages) st'.(pages) /\
  exists m, st'.(pages) !! page = Some m /\ m.(size_class) = i /\ slab_is_full_dispatch m = false.
Proof.
  intros P Hi Hcur Hch. pose proof (po_class _ _ P i Hi) as Cok.
  destruct (detach_spec st i l1 page l2 (po_len _ _ P) Hi Cok Hch) as (cl & pg & Est & Hlen & Hoth & Hc' & Hre & Hmin & Hfr).
  cbn zeta. set (std := detach st i (last l1) page) in *. clearbody std.
  assert (Hpg : page ∈ l1 ++ page :: l2) by (apply elem_of_app; right; left).
  destruct (co_partials _ _ _ Cok) as (ps & Hch' & Hm). pose proof (chain_det _ _ _ _ Hch' Hch) as ->.
  destruct (proj1 (Hm page) Hpg) as (m0 & Hm0 & Hi0 & _ & Hroom). pose proof (Hre page) as Hrp. rewrite Hm0 in Hrp. destruct Hrp as [v Hrp].
  assert (Hnn : nonnull pg).
  { intros q m Hq. destruct (relinked_some _ _ _ _ Hre Hq) as (mq & Hmq & _). by eapply (po_nonnull _ _ P). }
  assert (Ep : std.(pages) = pg) by (by rewrite Est). assert (Ec : std.(classes) = cl) by (by rewrite Est).
  assert (Em : std.(smem) = st.(smem)) by (by rewrite Est).
  pose proof (relinked_slabs _ _ _ _ Hre (po_slabs _ _ P)) as Hsl.
  assert (Hcls : forall j, 0 <= j < 32 -> class_at (set_current std i page) j = if decide (j = i) then MkClass page (class_at std i).(partials) else class_at std j).
  { intros j Hj. apply class_at_set; [by rewrite Ec|done|done]. }
  split_and!; [|by rewrite Hcls, decide_True|done|by cbn; rewrite Ep|].
  - constructor.
    + cbn. rewrite length_insert. by rewrite Ec.
    + cbn. by rewrite Ep, Em.
    + intros j Hj. rewrite Hcls by done. cbn. rewrite Ep. destruct (decide (j = i)) as [->|Hne].
      * eapply minus_install; [done|congruence|done|done|done].
      * rewrite Hoth by done. apply Hfr; [done|]. by apply (po_class _ _ P).
    + cbn. rewrite Ep. apply (arena_relinked _ _ Hre), P.
    + cbn. rewrite Ep. rewrite Est. eapply powner_ext; [|exact (po_owner _ _ P)]. intros q. cbn. specialize (Hre q).
      destruct (st.(pages) !! q) as [mq|]; [destruct Hre as [w ->]; split; by eexists|by rewrite Hre].
  - exists (set_next m0 v). cbn. rewrite Ep. split_and!; [done|done|].
    destruct (sl_page _ _ _ Hsl page _ Hrp) as (Hb & _ & Hok). destruct (slab_used _ _ _ _ _ Hb Hok) as (_ & _ & -> & _).
    apply Z.eqb_neq. cbn. lia.
Qed.

Lemma try_partials_spec fuel st Lv i :
  pool_ok st Lv -> 0 <= i < 32 -> (class_at st i).(current) = NULL -> (0 < fuel)%nat ->
  exists st' a, try_partials fuel st i = Some (st', a) /\
    (a = NULL /\ st' = st /\ (class_at st i).(partials) = NULL \/ served st Lv i st' a).
Proof.
  intros P Hi Hcur Hf. destruct fuel as [|fuel]; [lia|]. cbn [try_partials]. pose proof (po_class _ _ P i Hi) as Cok.
  destruct (Z.eqb_spec (class_at st i).(partials) NULL) as [He|Hne]; [exists st, NULL; split; [done|by left]|].
  destruct (co_partials _ _ _ Cok) as (ps & Hch & Hm). destruct (chain_not_null _ _ _ Hch Hne) as (ps' & Hps & _).
  set (x := (class_at st i).(partials)) in *.
  assert (Hused : 0 <= (meta st x).(used_count)).
  { assert (Hx : x ∈ ps) by (rewrite Hps; left). destruct (proj1 (Hm x) Hx) as (m & Hmx & _).
    rewrite (meta_some _ _ _ Hmx). destruct (sl_page _ _ _ (po_slabs _ _ P) x m Hmx) as (_ & ? & _). lia. }
  destruct (scan_spec V8M_PARTIALS_SCAN_BUDGET st i ps [] ps [] x ps' 0 Hch eq_refl Hps Hused) as (c1 & page & c2 & Hc & Hs & _ & _).
  cbn [last] in Hs. rewrite Hs. rewrite Hc in Hch. rewrite (deref_last _ _ _ _ Hch). cbn [head default from_option id].
  destruct (take_partial st Lv i c1 page c2 P Hi Hcur Hch) as (P' & Hc' & Hmm & Hre & m & Hp & Hmi & Hnf).
  fold (detach st i (last c1) page). set (st' := set_current (detach st i (last c1) page) i page) in *.
  rewrite <- Hc' in Hp at 1. destruct (current_serves st' Lv i m P' Hi Hp Hmi Hnf) as (m' & a & He & Hserve). rewrite Hc' in He, Hserve, Hp.
  rewrite (meta_some _ _ _ Hp), He. destruct Hserve as (Ha & Hna & Pf & Hpl & Hk). destruct (Z.eqb_spec a NULL); [done|]. cbn [negb].
  eexists _, a. split; [reflexivity|]. right. split; [done|]. split; [done|]. split; [done|]. split; [done|]. apply (kept_trans _ st'); [|exact Hk].
  split; [by apply classes_relinked|]. intros q b _ _. by rewrite Hmm.
Qed.

Lemma served_from st st1 Lv i st' a :
  st1.(pages) = st.(pages) -> st1.(smem) = st.(smem) -> served st1 Lv i st' a -> served st Lv i st' a.
Proof.
  intros Ep Em (H1 & H2 & H3 & H4 & Hk). split; [done|]. split; [done|]. split; [done|]. split; [done|]. by eapply kept_from.
Qed.

Section Alloc.
Context (cpu_of : src -> Z).

Lemma fresh_spec st Lv i owner :
  pool_ok st Lv -> 0 <= i < 32 -> (class_at st i).(current) = NULL ->
  let '(st', a) := acquire_fresh_page cpu_of st i owner ar in
  (a = NULL /\ pool_ok st' Lv /\ kept st st' /\ (acquire_slab_page st).2 = NULL) \/ served st Lv i st' a.
Proof.
  intros P Hi Hcur. unfold acquire_fresh_page. pose proof (acquire_spec _ st (po_owner _ _ P)) as Ha.
  destruct (acquire_slab_page st) as [st1 p]. destruct Ha as [(Ec & Ep & Em & _ & _) Ha].
  assert (Hca : forall j, class_at st1 j = class_at st j) by (intros j; unfold class_at; by rewrite Ec).
  destruct (Z.eqb_spec p NULL) as [->|Hne].
  { destruct Ha as [[_ Ho]|[? _]]; [|done]. left. split; [done|]. split; [|split; [split; [rewrite Ep; apply classes_refl|intros q b _ _; by rewrite Em]|done]].
    constructor; rewrite ?Ec, ?Ep, ?Em; try apply P; [|done]. intros j Hj. rewrite Hca. by apply (po_class _ _ P). }
  destruct Ha as [[? _]|(_ & Hb & Hnew & Ho)]; [done|].
  pose proof (slab_init_law (cpu_of st1.(source)) st1.(smem) p i owner Hb Hi) as Hinit.
  destruct (slab_init_dispatch _ _ _ _ _) as [mm m]. destruct Hinit as (Hok & Hnx & Hfr).
  set (m2 := set_arena_id m ar).
  assert (E2 : meta (set_smem (set_meta st1 p m) mm) p = m) by (apply meta_some; cbn; by rewrite lookup_insert_eq). rewrite E2. fold m2.
  set (st2 := set_current _ i p). assert (Ep2 : st2.(pages) = <[p := m2]> st.(pages)).
  { unfold st2. cbn. rewrite insert_insert_eq. by rewrite Ep. }
  rewrite (meta_some st2 p m2) by (rewrite Ep2; by rewrite lookup_insert_eq). change st2.(smem) with mm.
  assert (Hok2 : slab_ok i p mm m2 (fun _ => False)).
  { pose proof (slab_links i p mm m _ Hok m.(next) ar) as Hl. by destruct m. }
  destruct (slab_used _ _ _ _ _ Hb Hok2) as (_ & Hcap & Hfull & Hzero). assert (Hz : m2.(used_count) = 0) by (apply Hzero; tauto).
  destruct (slab_alloc_law i p mm m2 _ Hb Hok2) as [[Hf _]|(_ & m3 & a & -> & Hna & _ & Hh & Hu & Hok3)].
  { rewrite Hfull, Hz in Hf. apply Z.eqb_eq in Hf. lia. }
  right. assert (Hnone : st.(pages) !! p = None) by (destruct (st.(pages) !! p) as [m0|] eqn:E; [destruct Hnew; by eexists|done]).
  assert (Hnl : forall q, Lv q -> ~ in_page p q).
  { intros q Hq Hin. destruct (sl_live _ _ _ (po_slabs _ _ P) q Hq) as (p' & [m' Hp'] & Hin').
    destruct (sl_page _ _ _ (po_slabs _ _ P) p' m' Hp') as (Hb' & _). rewrite (in_page_unique p p' q Hb Hb' Hin Hin') in Hnone. congruence. }
  destruct (slab_inside i p mm m3 _ Hb Hok3 a ltac:(by left)) as [Hin Hsz]. pose proof Hok3 as (_ & Hc3 & Ho3 & _).
  assert (Ep3 : (set_meta st2 p m3).(pages) = <[p := m3]> st.(pages)) by (cbn; rewrite !insert_insert_eq; by rewrite Ep).
  assert (Hpg : forall q, is_Some (st.(pages) !! q) -> q <> p) by (intros q [x Hx] ->; congruence).
  assert (Hcl : forall j, 0 <= j < 32 -> class_at st2 j = if decide (j = i) then MkClass p (class_at st i).(partials) else class_at st j).
  { intros j Hj. transitivity (default class0 (<[Z.to_nat i := MkClass p (class_at st1 i).(partials)]> st1.(classes) !! Z.to_nat j)); [done|].
    rewrite class_at_set by (done || (rewrite Ec; apply P)). by rewrite !Hca. }
  split; [done|]. split; [intros Hx; by apply (Hnl a)|]. split; [|split; [|split]].
  - constructor.
    + cbn. by rewrite length_insert, Ec; apply P.
    + rewrite Ep3. change (smem (set_meta st2 p m3)) with mm. apply (slabs_put _ st.(smem) _ Lv); [apply P|done|lia| | |].
      * rewrite Hc3. eapply slab_ext; [exact Hok3|]. intros q. specialize (Hnl q). split; [|tauto]. intros [->|[]]. tauto.
      * intros q Hq. split; [|tauto]. by intros [->|?].
      * intros b Hbn. rewrite Hfr by done. by rewrite Em.
    + intros j Hj. rewrite Ep3. change (class_at (set_meta st2 p m3) j) with (class_at st2 j).
      rewrite Hcl by done. destruct (decide (j = i)) as [->|Hj'].
      * apply class_ok_install; [by apply (po_class _ _ P)|done|done|done|by eapply po_nonnull].
      * apply class_ok_insert; [by apply (po_class _ _ P)|lia|]. intros m0 Hm0. congruence.
    + rewrite Ep3. apply arena_insert; [apply P|]. by destruct Hh as (_ & _ & _ & _ & _ & ->).
    + rewrite Ep3. eapply powner_ext; [|exact Ho]. intros q. destruct (decide (p = q)) as [<-|Hq].
      * rewrite lookup_insert_eq. split; [by eexists|by left].
      * rewrite lookup_insert_ne by done. split; [|tauto]. intros [->|?]; done.
  - exists p, m3. rewrite Ep3, lookup_insert_eq. split_and!; [done|done|done|]. by rewrite <- Ho3.
  - rewrite Ep3. apply classes_insert. intros m0 Hm0. congruence.
  - intros q b Hq Hqb. change (smem (set_meta st2 p m3)) with mm. rewrite Hfr; [by rewrite Em|]. intros Hpb.
    destruct Hq as [mq Hq]. destruct (sl_page _ _ _ (po_slabs _ _ P) q mq Hq) as (Hbq & _). apply (Hpg q); [by eexists|].
    by eapply in_page_unique.
Qed.

Lemma alloc_step_spec fuel st Lv i owner :
  pool_ok st Lv -> 0 <= i < 32 -> (0 < fuel)%nat ->
  exists st' a, alloc_step cpu_of fuel st i owner ar = Some (st', a) /\
    ((a = NULL /\ pool_ok st' Lv /\ kept st st' /\ exhausted st i) \/ served st Lv i st' a).
Proof.
  intros P Hi Hf. unfold alloc_step. pose proof (try_current_spec st Lv i P Hi) as Hc. destruct (try_current st i) as [st1 a].
  destruct Hc as [(-> & P1 & Hc1 & cl & Est)|Hs].
  2: { destruct (Z.eqb_spec a NULL); [by destruct Hs|]. eexists _, a. split; [reflexivity|]. by right. }
  assert (Ep1 : st1.(pages) = st.(pages)) by (by rewrite Est). assert (Em1 : st1.(smem) = st.(smem)) by (by rewrite Est).
  rewrite Z.eqb_refl. cbn [negb]. destruct (try_partials_spec fuel st1 Lv i P1 Hi Hc1 Hf) as (st2 & a & -> & Ha).
  destruct Ha as [(-> & -> & Hp1)|Hs].
  2: { destruct (Z.eqb_spec a NULL); [by destruct Hs|]. eexists _, a. split; [reflexivity|]. right. by eapply served_from. }
  rewrite Z.eqb_refl. cbn [negb]. pose proof (fresh_spec st1 Lv i owner P1 Hi Hc1) as Hfr.
  destruct (acquire_fresh_page cpu_of st1 i owner ar) as [st3 a]. eexists _, a. split; [reflexivity|].
  destruct Hfr as [(-> & P3 & Hk & Hno)|Hs]; [left|right; by eapply served_from]. split; [done|]. split; [done|]. split.
  - by eapply kept_from.
  - split; [rewrite <- Ep1; by eapply all_full|]. rewrite Est, acquire_classes in Hno. exact Hno.
Qed.

End Alloc.

(** ** Release *)

(** A page whose standing in its class is unchanged. *)
Lemma class_ok_touch cls pg i p m m' :
  class_ok cls pg i -> pg !! p = Some m -> same_header m m' -> (m.(used_count) < m.(capacity) <-> m'.(used_count) < m'.(capacity)) ->
  class_ok cls (<[p := m']> pg) i.
Proof.
  intros [Hc (ps & Hch & Hm)] Hp (_ & Hs & _ & _ & Hn & _) Hiff. constructor.
  - destruct Hc as [?|(m1 & Hl & Hs1)]; [by left|right]. destruct (decide (p = cls.(current))) as [->|Hne].
    + exists m'. rewrite lookup_insert_eq. rewrite Hp in Hl. injection Hl as <-. split; [done|congruence].
    + exists m1. by rewrite lookup_insert_ne.
  - exists ps. split.
    + apply (chain_agree (nexts pg)); [done|]. intros a _. rewrite nexts_insert. destruct (decide (p = a)) as [<-|Hne]; [|by rewrite rd_wr_ne].
      rewrite rd_wr_eq. unfold rd, nexts. rewrite lookup_fmap, Hp. cbn. done.
    + intros q. rewrite Hm. destruct (decide (p = q)) as [<-|Hne]; [|by rewrite lookup_insert_ne]. rewrite lookup_insert_eq. split.
      * intros (m1 & H1 & H2 & H3 & H4). rewrite Hp in H1. injection H1 as <-. exists m'. split_and!; [done|congruence|done|tauto].
      * intros (m1 & [= <-] & H2 & H3 & H4). exists m. split_and!; [done|congruence|done|tauto].
Qed.

(** A formerly full page joins the partial list. *)
Lemma class_ok_push cls pg i p m m' :
  class_ok cls pg i -> pg !! p = Some m -> m.(size_class) = i -> m.(used_count) = m.(capacity) -> p <> cls.(current) -> p <> NULL ->
  m'.(size_class) = i -> m'.(used_count) < m'.(capacity) -> m'.(next) = cls.(partials) ->
  class_ok (MkClass cls.(current) p) (<[p := m']> pg) i.
Proof.
  intros [Hc (ps & Hch & Hm)] Hp Hi Hfull Hne Hnn Hi' Hroom Hnx. constructor; cbn.
  - destruct Hc as [?|(m1 & Hl & Hs1)]; [by left|right]. exists m1. by rewrite lookup_insert_ne.
  - assert (Hnot : p ∉ ps). { intros (m1 & H1 & _ & _ & H4)%Hm. rewrite Hp in H1. injection H1 as <-. lia. }
    exists (p :: ps). split; [rewrite nexts_insert, Hnx; by apply chain_push|].
    intros q. rewrite elem_of_cons, Hm. destruct (decide (p = q)) as [<-|Hq].
    + rewrite lookup_insert_eq. split; [intros _; by exists m'|by left].
    + rewrite lookup_insert_ne by done. split; [|tauto]. by intros [->|?].
Qed.

Lemma relinked_delete pg pg' p : relinked pg pg' -> relinked (delete p pg) (delete p pg').
Proof.
  intros Hr q. specialize (Hr q). destruct (decide (p = q)) as [<-|Hne]; [by rewrite !lookup_delete_eq|]. by rewrite !lookup_delete_ne.
Qed.

Lemma rd_forget st page a : ~ (page <= a < page + V8M_PAGE_SIZE) -> rd (forget st page).(smem) a = rd st.(smem) a.
Proof. apply rd_clear_out. Qed.

(** The list walk is bounded by the number of pages. *)
Lemma partials_length st i ps :
  chain (nexts st.(pages)) (class_at st i).(partials) ps -> (forall p, p ∈ ps -> is_Some (st.(pages) !! p)) -> (length ps <= size st.(pages))%nat.
Proof.
  intros Hch Hin. rewrite <- length_map_to_list. rewrite <- (length_fmap fst (map_to_list st.(pages))).
  apply submseteq_length, NoDup_submseteq; [by eapply chain_NoDup|]. intros p Hp. destruct (Hin p Hp) as [m Hm].
  apply list_elem_of_fmap. exists (p, m). split; [done|]. by apply elem_of_map_to_list.
Qed.

(** What is left when the last object of a page is freed: the page has no place on
    the lists of its class, the others are untouched. *)
Lemma unlink_spec fuel st i page m :
  length st.(classes) = 32%nat -> 0 <= i < 32 -> (size st.(pages) < fuel)%nat -> nonnull st.(pages) ->
  (forall j, 0 <= j < 32 -> class_ok (class_at st j) st.(pages) j) ->
  st.(pages) !! page = Some m -> m.(size_class) = i -> m.(used_count) < m.(capacity) ->
  exists cl pg, unlink_from_class fuel st i page = Some (set_pages (set_classes st cl) pg) /\ length cl = 32%nat /\
    relinked st.(pages) pg /\
    (forall j, 0 <= j < 32 -> class_ok (default class0 (cl !! Z.to_nat j)) (delete page pg) j).
Proof.
  intros Hl Hi Hf Hnn Cok Hp Hmi Hroom. unfold unlink_from_class.
  assert (Hoth : forall pg, relinked st.(pages) pg -> forall j, 0 <= j < 32 -> j <> i -> forall cls, class_ok cls pg j -> class_ok cls (delete page pg) j).
  { intros pg Hre j Hj Hne cls Hc. apply class_ok_delete; [done|]. intros m' Hm'. destruct (relinked_some _ _ _ _ Hre Hm') as (m0 & Hm0 & ->).
    rewrite Hp in Hm0. injection Hm0 as <-. cbn. lia. }
  destruct (Z.eqb_spec (class_at st i).(current) page) as [Hc|Hc].
  - exists (<[Z.to_nat i := MkClass NULL (class_at st i).(partials)]> st.(classes)), st.(pages).
    split; [done|]. split; [by rewrite length_insert|]. split; [apply relinked_refl|].
    intros j Hj. rewrite class_at_set by done. destruct (decide (j = i)) as [->|Hne].
    + apply current_delete; [by apply Cok|done|done].
    + apply Hoth; [apply relinked_refl|done|done|by apply Cok].
  - destruct (co_partials _ _ _ (Cok i Hi)) as (ps & Hch & Hm).
    assert (Hin : page ∈ ps) by (apply Hm; exists m; split_and!; [done|done|congruence|done]).
    assert (Hlen : (length ps <= size st.(pages))%nat).
    { eapply partials_length; [exact Hch|]. intros q (mq & Hq & _)%Hm. by eexists. }
    destruct (unlink_walk_spec fuel st i page [] ps Hch ltac:(lia)) as [[? _]|(d1 & d2 & Hps & He)]; [done|]. cbn [last app] in He. rewrite He.
    rewrite Hps in Hch. destruct (detach_spec st i d1 page d2 Hl Hi (Cok i Hi) Hch) as (cl & pg & Est & Hlc & Hcl & _ & Hre & Hmin & Hfr).
    rewrite Est in *. exists cl, pg. split; [done|]. split; [done|]. split; [done|]. intros j Hj.
    change (default class0 (cl !! Z.to_nat j)) with (class_at (set_pages (set_classes st cl) pg) j).
    destruct (decide (j = i)) as [->|Hne]; [by apply minus_delete|]. rewrite Hcl by done.
    apply Hoth; [done|done|done|]. apply Hfr; [done|by apply Cok].
Qed.

Lemma powner_same U st st' :
  st'.(use_numa_pool) = st.(use_numa_pool) -> st'.(drained) = st.(drained) -> st'.(g_slab_numa_pool) = st.(g_slab_numa_pool) ->
  st'.(g_slab_numa_pool_ready) = st.(g_slab_numa_pool_ready) -> st'.(source) = st.(source) -> powner U st -> powner U st'.
Proof. intros E1 E2 E3 E4 E5. unfold powner. by rewrite E1, E2, E3, E4, E5. Qed.

Lemma insert_some (pg : gmap Z page_meta) p m m' q : pg !! p = Some m -> is_Some (<[p := m']> pg !! q) <-> is_Some (pg !! q).
Proof.
  intros Hp. destruct (decide (p = q)) as [<-|Hne]; [|by rewrite lookup_insert_ne]. rewrite lookup_insert_eq, Hp. split; by eexists.
Qed.

(** The page of a freed object keeps other objects. *)
Lemma free_partial st Lv page m m' mm obj cls :
  pool_ok st Lv -> st.(pages) !! page = Some m -> m'.(size_class) = m.(size_class) -> m'.(arena_id) = m.(arena_id) -> 0 < m'.(used_count) -> Lv obj -> in_page page obj ->
  slab_ok m.(size_class) page mm m' (fun q => (Lv q /\ in_page page q) /\ q <> obj) ->
  (forall b, b <> obj -> rd mm b = rd st.(smem) b) -> 0 <= m.(size_class) < 32 ->
  class_ok cls (<[page := m']> st.(pages)) m.(size_class) ->
  pool_ok (set_classes (set_smem (set_meta st page m') mm) (<[Z.to_nat m.(size_class) := cls]> st.(classes))) (fun q => Lv q /\ q <> obj).
Proof.
  intros P Hp Hs Har Hu Hlo Hin Hok Hmm Hi Hcls.
  destruct (sl_page _ _ _ (po_slabs _ _ P) page m Hp) as (Hb & _). constructor.
  - cbn. rewrite length_insert. apply P.
  - cbn. apply (slabs_put _ st.(smem) _ Lv); [apply P|done|done| | |].
    + rewrite Hs. eapply slab_ext; [exact Hok|]. intros q. tauto.
    + intros q Hq. split; [tauto|]. intros H1. split; [done|]. by intros ->.
    + intros a Ha. apply Hmm. by intros ->.
  - intros j Hj. cbn. apply class_update; [apply P|done|done| |done].
    intros k Hk Hne. by apply (others_insert st Lv m.(size_class) page m m').
  - cbn. apply arena_insert; [apply P|]. rewrite Har. by apply (po_arena _ _ P page).
  - eapply powner_same; [..|eapply powner_ext; [|exact (po_owner _ _ P)]]; [done|done|done|done|done|].
    intros q. cbn. symmetry. by eapply insert_some.
Qed.

Lemma relinked_is_Some pg pg' q : relinked pg pg' -> is_Some (pg' !! q) <-> is_Some (pg !! q).
Proof.
  intros Hr. specialize (Hr q). destruct (pg !! q) as [m|]; [destruct Hr as [v ->]; split; by eexists|by rewrite Hr].
Qed.

(** The last object of a page goes: the page leaves the pool. *)
Lemma free_last fuel st Lv page m m' mm obj :
  pool_ok st Lv -> st.(pages) !! page = Some m -> same_header m m' -> m.(used_count) = 1 -> m'.(used_count) = 0 -> 1 < m.(capacity) ->
  0 <= m.(size_class) < 32 -> (forall q, Lv q -> in_page page q -> q = obj) -> in_page page obj ->
  (forall b, b <> obj -> rd mm b = rd st.(smem) b) -> (size st.(pages) < fuel)%nat ->
  exists st', (match unlink_from_class fuel (set_smem (set_meta st page m') mm) m'.(size_class) page with
               | None => None | Some st1 => Some (release_slab_page st1 page, true) end) = Some (st', true) /\
    pool_ok st' (fun q => Lv q /\ q <> obj) /\ st'.(pages) !! page = None /\ classes_kept st'.(pages) st.(pages) /\
    (forall a, ~ (page <= a < page + V8M_PAGE_SIZE) -> rd st'.(smem) a = rd st.(smem) a).
Proof.
  intros P Hp Hh Hu Hu' Hcap Hi Hlast Hin Hmm Hf. pose proof Hh as (_ & Hs & _ & Hc & _).
  destruct (sl_page _ _ _ (po_slabs _ _ P) page m Hp) as (Hb & _). set (st1 := set_smem (set_meta st page m') mm).
  assert (Ep1 : st1.(pages) = <[page := m']> st.(pages)) by done.
  assert (Hp1 : st1.(pages) !! page = Some m') by (rewrite Ep1; by rewrite lookup_insert_eq).
  assert (Hsz : size st1.(pages) = size st.(pages)) by (rewrite Ep1; by apply map_size_insert_Some; eexists).
  assert (Hnn : nonnull st1.(pages)).
  { intros q mq Hq. rewrite Ep1 in Hq. assert (Hx : is_Some (st.(pages) !! q)) by (eapply insert_some; [exact Hp|by eexists]).
    destruct Hx as [x Hx]. by eapply (po_nonnull _ _ P). }
  assert (Cok : forall j, 0 <= j < 32 -> class_ok (class_at st1 j) st1.(pages) j).
  { intros j Hj. rewrite Ep1. change (class_at st1 j) with (class_at st j).
    apply (class_ok_touch _ _ _ _ m m'); [by apply (po_class _ _ P)|done|done|lia]. }
  destruct (unlink_spec fuel st1 m'.(size_class) page m' (po_len _ _ P) ltac:(lia) ltac:(lia) Hnn Cok Hp1 eq_refl ltac:(lia))
    as (cl & pg & -> & Hlc & Hre & Hcls).
  set (st2 := set_pages (set_classes st1 cl) pg). assert (Hpow : powner (fun p => is_Some (st.(pages) !! p)) st2).
  { eapply powner_same; [..|exact (po_owner _ _ P)]; done. }
  destruct (release_page_spec _ st2 page Hpow ltac:(by eexists)) as (dr & np & s & He & Hpow').
  assert (Hdel : relinked (delete page st.(pages)) (delete page pg)).
  { pose proof (relinked_delete _ _ page Hre) as Hd. by rewrite Ep1, delete_insert_eq in Hd. }
  assert (Hrd : forall a, ~ (page <= a < page + V8M_PAGE_SIZE) -> rd (release_slab_page st2 page).(smem) a = rd st.(smem) a).
  { intros a Ha. rewrite He. etransitivity; [exact (rd_forget (set_numa_src st2 np st2.(g_slab_numa_pool_ready) s) page a Ha)|].
    apply Hmm. intros ->.
    unfold in_page, V8M_SLAB_HEADER_SIZE in Hin. lia. }
  eexists. split; [reflexivity|]. split; [|split; [by rewrite He; cbn; rewrite lookup_delete_eq|split; [|exact Hrd]]].
  2: { rewrite He. cbn [pages set_drained forget set_smem set_pages set_numa_src]. change (pages st2) with pg.
    intros q mq Hq. destruct (relinked_some _ _ _ _ Hdel Hq) as (m0 & [_ H0]%lookup_delete_Some & ->). by exists m0. }
  constructor.
  - by rewrite He.
  - rewrite He at 1. cbn [pages set_drained forget set_smem set_pages set_numa_src]. change (pages st2) with pg.
    eapply relinked_slabs; [exact Hdel|]. apply (slabs_delete _ st.(smem) _ Lv); [apply P|done| |done].
    intros q. split; intros [H1 H2]; (split; [done|]).
    + intros Hx. apply H2. by apply Hlast.
    + by intros ->.
  - intros j Hj. rewrite He. cbn. by apply Hcls.
  - rewrite He. cbn [pages set_drained forget set_smem set_pages set_numa_src]. change (pages st2) with pg. apply (arena_relinked _ _ Hdel).
    intros q mq [_ Hq]%lookup_delete_Some. by apply (po_arena _ _ P q).
  - eapply powner_ext; [|exact Hpow']. intros q. cbn. rewrite He. cbn [pages set_drained forget set_smem set_pages set_numa_src].
    change (pages st2) with pg. rewrite (relinked_is_Some _ _ q Hdel). destruct (decide (page = q)) as [<-|Hne].
    + rewrite lookup_delete_eq. split; [by intros [_ ?]|by intros [? ?]].
    + rewrite lookup_delete_ne by done. split; [by intros [? _]|done].
Qed.

Lemma insert_class_same st i : length st.(classes) = 32%nat -> 0 <= i < 32 -> <[Z.to_nat i := class_at st i]> st.(classes) = st.(classes).
Proof.
  intros Hl Hi. destruct (lookup_lt_is_Some_2 st.(classes) (Z.to_nat i) ltac:(lia)) as [x Hx]. unfold class_at. rewrite Hx. cbn.
  by apply list_insert_id.
Qed.

Lemma pool_free_ok fuel st Lv obj :
  pool_ok st Lv -> Lv obj -> (size st.(pages) < fuel)%nat ->
  exists st' emptied, v8m_slab_pool_free fuel st (v8m_ptr_to_meta obj) obj = Some (st', emptied) /\
    pool_ok st' (fun q => Lv q /\ q <> obj) /\ (emptied = true <-> st'.(pages) !! v8m_ptr_to_meta obj = None) /\ classes_kept st'.(pages) st.(pages) /\
    (forall a, a <> obj -> (emptied = true -> ~ (v8m_ptr_to_meta obj <= a < v8m_ptr_to_meta obj + V8M_PAGE_SIZE)) -> rd st'.(smem) a = rd st.(smem) a).
Proof.
  intros P Hl Hf. destruct (sl_live _ _ _ (po_slabs _ _ P) obj Hl) as (page & [m Hp] & Hin).
  destruct (sl_page _ _ _ (po_slabs _ _ P) page m Hp) as (Hb & Hu & Hok).
  assert (Hpage : v8m_ptr_to_meta obj = page).
  { apply ptr_to_meta_inside; [done|]. unfold in_page, V8M_SLAB_HEADER_SIZE in Hin. lia. }
  rewrite Hpage. unfold v8m_slab_pool_free. rewrite (meta_some _ _ _ Hp).
  destruct (slab_used _ _ _ _ _ Hb Hok) as (Hur & Hcap & Hfull & _).
  destruct (slab_free_law _ _ _ _ _ Hb Hok obj ltac:(by split)) as (mm & m' & -> & Hh & Hu' & Hok' & Hmm).
  pose proof Hh as (_ & Hs & _ & Hc & _ & Har). pose proof Hok as (Hi & _).
  change V8M_MEDIUM_FIRST_CLASS with 32 in *.
  set (st1 := set_smem (set_meta st page m') mm). assert (E1 : meta st1 page = m') by (apply meta_some; cbn; by rewrite lookup_insert_eq).
  rewrite E1, Hs. destruct (Z.leb_spec 32 m.(size_class)); [lia|]. rewrite Hfull.
  destruct (Z.eqb_spec m.(used_count) 1) as [H1|H1].
  - destruct (free_last fuel st Lv page m m' mm obj P Hp Hh H1 ltac:(lia) ltac:(lia) Hi) as (st' & He & P' & Hnone & Hck & Hrd); [|done|done|done|].
    { intros q Hq Hqin. destruct (slab_used _ _ _ _ _ Hb Hok') as (_ & _ & _ & Hz). destruct (decide (q = obj)); [done|].
      destruct (proj1 Hz ltac:(lia) q). tauto. }
    rewrite Hs in He. exists st', true. split; [done|]. split; [done|]. split; [done|]. split; [done|]. intros a _ Ha. apply Hrd, Ha. done.
  - assert (Hkeep : forall cls m2, m2.(size_class) = m.(size_class) -> m2.(arena_id) = m.(arena_id) -> m2.(used_count) = m'.(used_count) ->
      slab_ok m.(size_class) page mm m2 (fun q => (Lv q /\ in_page page q) /\ q <> obj) ->
      class_ok cls (<[page := m2]> st.(pages)) m.(size_class) ->
      let st' := set_classes (set_smem (set_meta st page m2) mm) (<[Z.to_nat m.(size_class) := cls]> st.(classes)) in
      pool_ok st' (fun q => Lv q /\ q <> obj) /\ (false = true <-> st'.(pages) !! page = None) /\ classes_kept st'.(pages) st.(pages) /\
      (forall a, a <> obj -> (false = true -> ~ (page <= a < page + V8M_PAGE_SIZE)) -> rd st'.(smem) a = rd st.(smem) a)).
    { intros cls m2 Hs2 Ha2 Hu2 Hok2 Hcls. split; [|split; [|split]].
      - by apply (free_partial st Lv page m m2 mm obj cls P Hp Hs2 Ha2 ltac:(lia)).
      - cbn. rewrite lookup_insert_eq. done.
      - cbn. intros q mq [[<- <-]|[_ Hq]]%lookup_insert_Some; [by exists m|by exists mq].
      - intros a Ha _. by apply Hmm. }
    pose proof (po_class _ _ P m.(size_class) Hi) as Cok. change (class_at st1 (size_class m)) with (class_at st (size_class m)).
    destruct (Z.eqb_spec m.(used_count) m.(capacity)) as [Hff|Hnf]; [destruct (Z.eqb_spec (class_at st m.(size_class)).(current) page) as [Hcu|Hcu]|]; cbn [andb negb].
    + exists st1, false. split; [done|]. pose proof (Hkeep (class_at st m.(size_class)) m' Hs Har eq_refl Hok') as Hk. cbn zeta in Hk.
      rewrite insert_class_same in Hk by (done || apply P). apply Hk. rewrite <- Hcu.
      apply class_ok_current; [done|rewrite Hcu; by eapply po_nonnull|done].
    + exists (set_partials (set_meta st1 page (set_next m' (class_at st m.(size_class)).(partials))) m.(size_class) page), false.
      split; [done|]. pose proof (Hkeep (MkClass (class_at st m.(size_class)).(current) page) (set_next m' (class_at st m.(size_class)).(partials)) Hs Har eq_refl
        (slab_next _ _ _ _ _ Hok' _)) as Hk.
      assert (Est : set_partials (set_meta st1 page (set_next m' (class_at st m.(size_class)).(partials))) m.(size_class) page =
        set_classes (set_smem (set_meta st page (set_next m' (class_at st m.(size_class)).(partials))) mm)
          (<[Z.to_nat m.(size_class) := MkClass (class_at st m.(size_class)).(current) page]> st.(classes))).
      { unfold set_partials, set_classes, set_meta, set_pages, st1, set_smem. cbn. by rewrite insert_insert_eq. }
      rewrite Est. apply Hk. eapply class_ok_push; [done|done|done|done|congruence|by eapply po_nonnull|done|cbn; lia|done].
    + exists st1, false. split; [done|]. pose proof (Hkeep (class_at st m.(size_class)) m' Hs Har eq_refl Hok') as Hk. cbn zeta in Hk.
      rewrite insert_class_same in Hk by (done || apply P). apply Hk. apply (class_ok_touch _ _ _ _ m m'); [done|done|done|lia].
Qed.

(** ** Batches *)

(** The owner of an object may write to it. *)
Lemma pool_write st Lv a v : pool_ok st Lv -> Lv a -> pool_ok (set_smem st (wr st.(smem) a v)) Lv.
Proof.
  intros P Ha. constructor; [apply P| |apply P|apply P|apply P]. destruct (po_slabs _ _ P) as [Sp Sl]. constructor; [|done]. cbn.
  intros p m Hp. destruct (Sp p m Hp) as (Hb & Hu & Hok). split_and!; [done|done|]. apply (slab_frame _ _ st.(smem)); [done|done|].
  intros b Hb' Hn. apply rd_wr_ne. intros <-. tauto.
Qed.

Lemma pool_ok_ext st L L' : (forall q, L q <-> L' q) -> pool_ok st L -> pool_ok st L'.
Proof.
  intros He P. constructor; [apply P| |apply P|apply P|apply P]. destruct (po_slabs _ _ P) as [Sp Sl]. constructor.
  - intros p m Hp. destruct (Sp p m Hp) as (Hb & Hu & Hok). split_and!; [done|done|]. eapply slab_ext; [exact Hok|].
    intros q. specialize (He q). tauto.
  - intros q Hq. by apply Sl, He.
Qed.

Section Claims.
Context (cpu_of : src -> Z).

(** The object lies in a page of the class. *)
Definition of_class (pg : gmap Z page_meta) (i a : Z) : Prop := exists p m, pg !! p = Some m /\ m.(size_class) = i /\ in_page p a.
Lemma of_class_kept pg pg' i a : classes_kept pg pg' -> of_class pg i a -> of_class pg' i a.
Proof. intros Hk (p & m & Hp & Hc & Hin). destruct (Hk p m Hp) as (m' & Hp' & He). exists p, m'. split_and!; [done|congruence|done]. Qed.

(** Pages, classes and words are kept, but for the objects [l]. *)
Definition kept_but (l : list Z) (st st' : slab_pool) : Prop :=
  classes_kept st.(pages) st'.(pages) /\ forall p a, is_Some (st.(pages) !! p) -> in_page p a -> a ∉ l -> rd st'.(smem) a = rd st.(smem) a.

Lemma batch_loop_spec fuel n st Lv i owner l head tail :
  pool_ok st (fun q => q ∈ l \/ Lv q) -> 0 <= i < 32 -> (0 < fuel)%nat -> (forall a, a ∈ l -> ~ Lv a /\ of_class st.(pages) i a) ->
  chain st.(smem) head l -> tail = default NULL (last l) ->
  exists st' l' head' tail' count', batch_loop cpu_of fuel n st i owner ar head tail (Z.of_nat (length l)) = Some (st', head', tail', count') /\
    pool_ok st' (fun q => q ∈ l' \/ Lv q) /\ chain st'.(smem) head' l' /\ tail' = default NULL (last l') /\
    count' = Z.of_nat (length l') /\ (length l' <= length l + n)%nat /\ (forall a, a ∈ l' -> ~ Lv a /\ of_class st'.(pages) i a) /\
    (l ⊆ l' /\ kept_but l' st st') /\
    (length l' = (length l + n)%nat \/ exists st0, exhausted st0 i /\ alloc_step cpu_of fuel st0 i owner ar = Some (st', NULL)).
Proof.
  revert st l head tail. induction n as [|n IH]; intros st l head tail P Hi Hf Hnl Hch Ht; cbn [batch_loop].
  { eexists st, l, head, tail, _. split; [reflexivity|]. split; [done|]. split; [done|]. split; [done|]. split; [done|]. split; [lia|].
    split; [done|]. split; [split; [done|by split; [apply classes_refl|]]|left; lia]. }
  destruct (alloc_step_spec cpu_of fuel st _ i owner P Hi Hf) as (st1 & a & Hst & Ha). rewrite Hst.
  assert (Hkc : kept st st1 -> chain st1.(smem) head l).
  { intros Hk. apply (chain_agree st.(smem)); [done|]. intros b Hb.
    destruct (sl_live _ _ _ (po_slabs _ _ P) b ltac:(by left)) as (p & Hp & Hin). by apply (proj2 Hk p). }
  destruct Ha as [(-> & P1 & Hk & Hx)|(Hna & Hnew & P1 & (pa & ma & Hpa & Hma & Hina & _) & Hk)].
  { rewrite Z.eqb_refl. eexists st1, l, head, tail, _. split; [reflexivity|]. split; [done|]. split; [by apply Hkc|]. split; [done|]. split; [done|]. split; [lia|].
    split; [intros a Ha; destruct (Hnl a Ha); split; [done|by eapply of_class_kept; [apply Hk|]]|].
    split; [split; [done|split; [apply Hk|intros p a Hp Ha _; by apply (proj2 Hk p)]]|right; by exists st]. }
  destruct (Z.eqb_spec a NULL); [done|]. assert (Hal : a ∉ l) by tauto.
  assert (Ht' : (if tail =? NULL then a else tail) = default NULL (last (a :: l))).
  { rewrite Ht. destruct l as [|b l]; [done|]. rewrite (last_cons a (b :: l)). destruct (last (b :: l)) as [x|] eqn:El.
    - change (default NULL (Some x)) with x. assert (x <> NULL) as Hx; [|rewrite (proj2 (Z.eqb_neq x NULL) Hx); reflexivity].
      apply last_Some in El as [l0 El]. rewrite El in Hch. apply chain_suffix in Hch as [h (_ & ? & _)]. done.
    - by apply last_None in El. }
  rewrite Ht'. replace (Z.of_nat (length l) + 1) with (Z.of_nat (length (a :: l))) by (cbn [length]; lia).
  destruct (IH (set_smem st1 (wr st1.(smem) a head)) (a :: l) a (default NULL (last (a :: l)))) as (st' & l' & h' & t' & c' & He & P' & Hc' & Htl & Hcnt & Hlen & Hnl' & [Hsub [Hck Hwk]] & Hend).
  - apply (pool_write _ _ a). 2: { left. by left. } eapply pool_ok_ext; [|exact P1]. intros q. rewrite elem_of_cons. tauto.
  - done.
  - done.
  - cbn. intros b [->|Hb]%elem_of_cons; [split; [tauto|by exists pa, ma]|]. destruct (Hnl b Hb). split; [done|by eapply of_class_kept; [apply Hk|]].
  - apply chain_push; [done|done|by apply Hkc].
  - done.
  - exists st', l', h', t', c'. cbn [length] in Hlen, Hend. split; [done|]. split; [done|]. split; [done|]. split; [done|]. split; [done|]. split; [lia|]. split; [done|].
    split; [|destruct Hend as [?|?]; [left; lia|by right]]. split; [intros x Hx; apply Hsub; by right|]. split; [by eapply classes_trans; [apply Hk|]|].
    intros p x Hp Hx Hn. destruct Hp as [mp Hp]. destruct (proj1 Hk p mp Hp) as (mp' & Hp' & _). rewrite (Hwk p x); [|by eexists|done|done]. cbn.
    rewrite rd_wr_ne; [apply (proj2 Hk p x); [by eexists|done]|]. intros ->. apply Hn, Hsub. left.
Qed.

(** The two parts of a result. *)
Definition state_of (st : slab_pool) (r : option (slab_pool * Z)) : slab_pool := match r with Some (st, _) => st | None => st end.
Definition object_of (r : option (slab_pool * Z)) : Z := match r with Some (_, a) => a | None => NULL end.

Lemma alloc_result fuel st Lv c owner d r :
  pool_ok st Lv -> 0 <= c < 32 -> (0 < fuel)%nat -> v8m_slab_pool_alloc_arena cpu_of fuel st c owner ar = r -> object_of r <> NULL ->
  pool_ok (state_of d r) (fun q => q = object_of r \/ Lv q).
Proof.
  intros P Hc Hf <- Hne. unfold v8m_slab_pool_alloc_arena in *. change V8M_MEDIUM_FIRST_CLASS with 32 in *.
  destruct (Z.leb_spec 32 c); [lia|]. destruct (alloc_step_spec cpu_of fuel st Lv c owner P Hc Hf) as (st' & a & He & Ha).
  rewrite He in *. destruct Ha as [(-> & _)|(_ & _ & P' & _)]; [done|exact P'].
Qed.

Lemma alloc_arena_ok fuel st Lv c owner :
  pool_ok st Lv -> 0 <= c -> (0 < fuel)%nat ->
  exists st' a, v8m_slab_pool_alloc_arena cpu_of fuel st c owner ar = Some (st', a) /\
    (V8M_MEDIUM_FIRST_CLASS <= c -> a = NULL) /\
    ((a = NULL /\ pool_ok st' Lv /\ kept st st' /\ (V8M_MEDIUM_FIRST_CLASS <= c \/ exhausted st c)) \/ served st Lv c st' a).
Proof.
  intros P Hc Hf. unfold v8m_slab_pool_alloc_arena. change V8M_MEDIUM_FIRST_CLASS with 32. destruct (Z.leb_spec 32 c).
  - exists st, NULL. split; [done|]. split; [done|]. left. split; [done|]. split; [done|]. split; [|by left]. split; [apply classes_refl|done].
  - destruct (alloc_step_spec cpu_of fuel st Lv c owner P ltac:(lia) Hf) as (st' & a & He & Ha). exists st', a.
    split; [done|]. split; [lia|]. destruct Ha as [(? & ? & ? & ?)|?]; [left|by right]. split; [done|]. split; [done|]. split; [done|by right].
Qed.

(** C13: [v8m_slab_pool_alloc_arena] always returns.  It keeps the pool invariant
    and the contents of all pages in use, and hands out an object of the class that
    was not in use, inside a page of the class; it returns [NULL] for a class it
    does not serve, or when every page of the class is full and no page can be had;
    it then changes no object. *)
Theorem v8m_slab_pool_alloc_arena_spec fuel st Lv c owner :
  pool_ok st Lv -> 0 <= c -> (0 < fuel)%nat ->
  exists st' a, v8m_slab_pool_alloc_arena cpu_of fuel st c owner ar = Some (st', a) /\
    (V8M_MEDIUM_FIRST_CLASS <= c -> a = NULL) /\
    ((a = NULL /\ pool_ok st' Lv /\ kept st st' /\ (V8M_MEDIUM_FIRST_CLASS <= c \/ exhausted st c)) \/ served st Lv c st' a).
Proof. apply alloc_arena_ok. Qed.

Lemma alloc_batch_ok fuel st Lv c owner max :
  pool_ok st Lv -> 0 <= c < V8M_MEDIUM_FIRST_CLASS -> 0 <= max -> (0 < fuel)%nat ->
  exists st' l head tail count, v8m_slab_pool_alloc_batch cpu_of fuel st c owner ar max = Some (st', head, tail, count) /\
    pool_ok st' (fun q => q ∈ l \/ Lv q) /\ (forall a, a ∈ l -> ~ Lv a /\ of_class st'.(pages) c a) /\ NoDup l /\ kept_but l st st' /\
    chain st'.(smem) head l /\ tail = default NULL (last l) /\ count = Z.of_nat (length l) /\ count <= max /\
    (count = max \/ exists st0, exhausted st0 c /\ alloc_step cpu_of fuel st0 c owner ar = Some (st', NULL)).
Proof.
  intros P Hc Hm Hf. unfold v8m_slab_pool_alloc_batch. change V8M_MEDIUM_FIRST_CLASS with 32 in *.
  destruct (Z.leb_spec 32 c); [lia|]. cbn [orb]. destruct (Z.eqb_spec max 0) as [->|Hne].
  { exists st, [], NULL, NULL, 0. split; [done|]. split; [by eapply pool_ok_ext; [|exact P]; intros q; rewrite elem_of_nil; tauto|].
    split; [by intros a ?%not_elem_of_nil|]. split; [constructor|]. split; [by split; [apply classes_refl|]|]. split_and!; [done|done|done|done|by left]. }
  destruct (batch_loop_spec fuel (Z.to_nat max) st Lv c owner [] NULL NULL) as (st' & l & h & t & n & He & P' & Hch & Ht & Hn & Hlen & Hnl & [_ Hkb] & Hend).
  - eapply pool_ok_ext; [|exact P]. intros q. rewrite elem_of_nil. tauto.
  - done.
  - done.
  - by intros a ?%not_elem_of_nil.
  - done.
  - done.
  - exists st', l, h, t, n. split; [done|]. cbn in Hlen, Hend. split; [done|]. split; [done|]. split; [by eapply chain_NoDup|]. split; [done|]. split_and!; [done|done|done|lia|]. destruct Hend as [?|?]; [left; lia|by right].
Qed.

(** A batch is a chain of at most [max] objects of the class, none of which was
    in use, all of which now are; head, tail and count describe it.  It falls short
    of [max] only when the last attempt found the class exhausted. *)
Theorem v8m_slab_pool_alloc_batch_spec fuel st Lv c owner max :
  pool_ok st Lv -> 0 <= c < V8M_MEDIUM_FIRST_CLASS -> 0 <= max -> (0 < fuel)%nat ->
  exists st' l head tail count, v8m_slab_pool_alloc_batch cpu_of fuel st c owner ar max = Some (st', head, tail, count) /\
    pool_ok st' (fun q => q ∈ l \/ Lv q) /\ (forall a, a ∈ l -> ~ Lv a /\ of_class st'.(pages) c a) /\ NoDup l /\ kept_but l st st' /\
    chain st'.(smem) head l /\ tail = default NULL (last l) /\ count = Z.of_nat (length l) /\ count <= max /\
    (count = max \/ exists st0, exhausted st0 c /\ alloc_step cpu_of fuel st0 c owner ar = Some (st', NULL)).
Proof. apply alloc_batch_ok. Qed.

End Claims.

(** C14: Freeing an object in use returns, keeps the pool invariant with exactly
    that object gone, and reports whether its page was given up, which happens when
    it was the page's last object.  No word changes but the object's first and, if
    the page is given up, the page's. *)
Theorem v8m_slab_pool_free_spec fuel st Lv obj :
  pool_ok st Lv -> Lv obj -> (size st.(pages) < fuel)%nat ->
  exists st' emptied, v8m_slab_pool_free fuel st (v8m_ptr_to_meta obj) obj = Some (st', emptied) /\
    pool_ok st' (fun q => Lv q /\ q <> obj) /\ (emptied = true <-> st'.(pages) !! v8m_ptr_to_meta obj = None) /\ classes_kept st'.(pages) st.(pages) /\
    (forall a, a <> obj -> (emptied = true -> ~ (v8m_ptr_to_meta obj <= a < v8m_ptr_to_meta obj + V8M_PAGE_SIZE)) -> rd st'.(smem) a = rd st.(smem) a).
Proof. apply pool_free_ok. Qed.

End Owner.

(** ** A pool on the example machine *)

#[local] Existing Instance Os.log_os_laws.

Definition ex_cpu (_ : @src (@heap_source Os.log_os)) : Z := 0.
Definition ex_slabs : @slab_pool (@heap_source Os.log_os) :=
  MkPool (replicate 32 class0) true [] ∅ ∅ ex_pool true ex_src.
Definition ex_none (q : Z) : Prop := False.

Lemma ex_no_page p m : ex_slabs.(pages) !! p = Some m -> False.
Proof. change (pages ex_slabs) with (∅ : gmap Z page_meta). by rewrite lookup_empty. Qed.

Lemma ex_slabs_ok : pool_ok [] [] ex_none 0 ex_slabs ex_none.
Proof.
  constructor.
  - done.
  - constructor; [by intros p m ?%ex_no_page|done].
  - intros i Hi. assert (Hcl : class_at ex_slabs i = class0).
    { unfold class_at, ex_slabs, classes. by rewrite lookup_replicate_2 by lia. }
    rewrite Hcl. constructor; [by left|]. exists []. split; [done|].
    intros p. split; [by intros ?%not_elem_of_nil|]. by intros (m & ?%ex_no_page & _).
  - by intros p m ?%ex_no_page.
  - exists [], []. cbn. split_and!; [|constructor|lia| |].
    + constructor; [constructor|by intros p ?%not_elem_of_nil| |by intros p ?%not_elem_of_nil|done|apply ex_pool_inv].
      intros q. split; [|intros [?%not_elem_of_nil|[]]; done]. intros (x & i & Hx & _).
      replace (all_descs ex_pool) with (@nil desc) in Hx by (vm_compute; reflexivity). by apply not_elem_of_nil in Hx.
    + intros p. split; [by intros ?%not_elem_of_nil|]. intros [[m Hm%ex_no_page]|?%not_elem_of_nil]; done.
    + by intros p [m Hm%ex_no_page].
Qed.

Lemma v8m_slab_pool_alloc_arena_spec_witness :
  exists st' a, v8m_slab_pool_alloc_arena ex_cpu 1 ex_slabs 2 7 0 = Some (st', a) /\
    (V8M_MEDIUM_FIRST_CLASS <= 2 -> a = NULL) /\
    ((a = NULL /\ pool_ok [] [] ex_none 0 st' ex_none /\ kept ex_slabs st' /\ (V8M_MEDIUM_FIRST_CLASS <= 2 \/ exhausted ex_slabs 2)) \/ served [] [] ex_none 0 ex_slabs ex_none 2 st' a).
Proof. apply (v8m_slab_pool_alloc_arena_spec [] [] ex_none 0 ex_cpu 1 ex_slabs ex_none 2 7 ex_slabs_ok); lia. Defined.

Lemma v8m_slab_pool_alloc_batch_spec_witness :
  exists st' l head tail count, v8m_slab_pool_alloc_batch ex_cpu 1 ex_slabs 31 7 0 20 = Some (st', head, tail, count) /\
    pool_ok [] [] ex_none 0 st' (fun q => q ∈ l \/ ex_none q) /\ (forall a, a ∈ l -> ~ ex_none a /\ of_class st'.(pages) 31 a) /\ NoDup l /\ kept_but l ex_slabs st' /\
    chain st'.(smem) head l /\ tail = default NULL (last l) /\ count = Z.of_nat (length l) /\ count <= 20 /\
    (count = 20 \/ exists st0, exhausted st0 31 /\ alloc_step ex_cpu 1 st0 31 7 0 = Some (st', NULL)).
Proof.
  apply (v8m_slab_pool_alloc_batch_spec [] [] ex_none 0 ex_cpu 1 ex_slabs ex_none 31 7 20 ex_slabs_ok); [vm_compute; split; [discriminate|reflexivity]|lia|lia].
Defined.

(** The batch above spans two pages of fifteen slots. *)
Example batch_two_pages :
  match v8m_slab_pool_alloc_batch ex_cpu 1 ex_slabs 31 7 0 20 with Some (st', _, _, count) => (count, size st'.(pages)) | None => (0, 0%nat) end = (20, 2%nat).
Proof. vm_compute. reflexivity. Qed.

(** One object of class 2 in use. *)
Definition ex_first := v8m_slab_pool_alloc_arena ex_cpu 1 ex_slabs 2 7 0.
Definition ex_used : slab_pool := state_of ex_slabs ex_first.
Definition ex_obj : Z := object_of ex_first.

Lemma ex_first_eq : v8m_slab_pool_alloc_arena ex_cpu 1 ex_slabs 2 7 0 = ex_first.
Proof. unfold ex_first. reflexivity. Qed.

Lemma ex_used_ok : pool_ok [] [] ex_none 0 ex_used (fun q => q = ex_obj \/ ex_none q).
Proof.
  unfold ex_used, ex_obj. assert (Ho : object_of ex_first <> NULL) by (vm_compute; discriminate).
  exact (alloc_result [] [] ex_none 0 ex_cpu 1 ex_slabs ex_none 2 7 ex_slabs ex_first ex_slabs_ok ltac:(lia) ltac:(lia) ex_first_eq Ho).
Qed.

Lemma v8m_slab_pool_free_spec_witness :
  exists st' emptied, v8m_slab_pool_free 2 ex_used (v8m_ptr_to_meta ex_obj) ex_obj = Some (st', emptied) /\
    pool_ok [] [] ex_none 0 st' (fun q => (q = ex_obj \/ ex_none q) /\ q <> ex_obj) /\
    (emptied = true <-> st'.(pages) !! v8m_ptr_to_meta ex_obj = None) /\ classes_kept st'.(pages) ex_used.(pages) /\
    (forall a, a <> ex_obj -> (emptied = true -> ~ (v8m_ptr_to_meta ex_obj <= a < v8m_ptr_to_meta ex_obj + V8M_PAGE_SIZE)) -> rd st'.(smem) a = rd ex_used.(smem) a).
Proof.
  assert (Hs : size ex_used.(pages) = 1%nat) by (vm_compute; reflexivity).
  apply (v8m_slab_pool_free_spec [] [] ex_none 0 2 ex_used (fun q => q = ex_obj \/ ex_none q) ex_obj ex_used_ok); [by left|rewrite Hs; lia].
Defined.

End SlabPoolSpec.
