(* ===== verification/BuddyPool.v ===== *)
(** The buddy pool: [src/v8m_buddy_pool.h] and [src/v8m_buddy_pool.c].

    Up to 256 arenas ([Buddy]) obtained from the page source.  The state holds the
    slots, the memory of the arenas and the source; the options are an argument.
    The pool lock makes each operation a single step.  An emptied arena is kept
    and its contents are given back to the kernel, after which its words read as
    zero. *)

From S2P Require Import Prelude Dll BuddyTree Buddy Config PageSource.
Import Buddy Config PageSource.

Module BuddyPool.

Definition V8M_BUDDY_POOL_MAX_ARENAS : Z := 256.

Record v8m_buddy_pool_arena := MkArena { buddy : v8m_buddy; in_use : bool; drained : bool; idle_ticks : Z }.

Definition buddy0 : v8m_buddy := MkBuddy NULL 0 (replicate 7 NULL) (replicate 7 0) (replicate 7 0).
Definition arena0 : v8m_buddy_pool_arena := MkArena buddy0 false false 0.

Section Pool.
Context `{PageSource}.

(** [struct v8m_buddy_pool] with the memory of its arenas. *)
Record buddy_pool := MkBPool { arenas : list v8m_buddy_pool_arena; bmem : mem; bsource : src }.

Definition slot_at (st : buddy_pool) (i : nat) : v8m_buddy_pool_arena := default arena0 (st.(arenas) !! i).
Definition set_slot (st : buddy_pool) (i : nat) (a : v8m_buddy_pool_arena) : buddy_pool :=
  MkBPool (<[i := a]> st.(arenas)) st.(bmem) st.(bsource).
Definition set_bmem (st : buddy_pool) (mm : mem) : buddy_pool := MkBPool st.(arenas) mm st.(bsource).
Definition set_bsource (st : buddy_pool) (s : src) : buddy_pool := MkBPool st.(arenas) st.(bmem) s.

(** Every loop runs over the slots in order. *)
Definition slots : list nat := seq 0 (Z.to_nat V8M_BUDDY_POOL_MAX_ARENAS).

(** The page heap takes back a slot's arena. *)
Definition free_arena (st : buddy_pool) (base : Z) : buddy_pool :=
  set_bmem (set_bsource st (ps_free st.(bsource) base V8M_BUDDY_MAX_BLOCK)) (clear_range st.(bmem) base V8M_BUDDY_MAX_BLOCK).

(** [pthread_mutex_init]'s result is [mutex_rc]. *)
Definition v8m_buddy_pool_init (st : buddy_pool) (mutex_rc : Z) : buddy_pool * Z :=
  (MkBPool ((fun a => MkArena a.(buddy) false false 0) <$> st.(arenas)) st.(bmem) st.(bsource), mutex_rc).

Fixpoint destroy_slots (idx : list nat) (st : buddy_pool) : buddy_pool :=
  match idx with
  | [] => st
  | i :: idx =>
      let slot := slot_at st i in
      if slot.(in_use) then
        let st := free_arena st slot.(buddy).(arena_base) in
        destroy_slots idx (set_slot st i (MkArena slot.(buddy) false slot.(drained) slot.(idle_ticks)))
      else destroy_slots idx st
  end.
Definition v8m_buddy_pool_destroy (st : buddy_pool) : buddy_pool := destroy_slots slots st.

(** The index of the slot found. *)
Definition owns_addr (addr : Z) (slot : v8m_buddy_pool_arena) : bool :=
  slot.(in_use) && ((slot.(buddy).(arena_base) <=? addr) && (addr <? u64 (slot.(buddy).(arena_base) + slot.(buddy).(arena_size)))).
Fixpoint find_owning_arena (idx : list nat) (st : buddy_pool) (ptr : Z) : option nat :=
  match idx with
  | [] => None
  | i :: idx => if owns_addr ptr (slot_at st i) then Some i else find_owning_arena idx st ptr
  end.

Fixpoint try_existing_arenas (idx : list nat) (st : buddy_pool) (size : Z) : buddy_pool * Z :=
  match idx with
  | [] => (st, NULL)
  | i :: idx =>
      let slot := slot_at st i in
      if negb slot.(in_use) then try_existing_arenas idx st size
      else
        let '(b, mm, obj) := v8m_buddy_alloc slot.(buddy) st.(bmem) size in
        let st := set_bmem st mm in
        if negb (obj =? NULL) then (set_slot st i (MkArena b true false 0), obj)
        else try_existing_arenas idx (set_slot st i (MkArena b true slot.(drained) slot.(idle_ticks))) size
  end.

Fixpoint acquire_fresh_arena (idx : list nat) (st : buddy_pool) (size : Z) : buddy_pool * Z :=
  match idx with
  | [] => (st, NULL)
  | i :: idx =>
      if (slot_at st i).(in_use) then acquire_fresh_arena idx st size
      else
        let '(s, arena) := ps_alloc st.(bsource) V8M_BUDDY_MAX_BLOCK V8M_BUDDY_MAX_BLOCK in
        let st := set_bsource st s in
        if arena =? NULL then (st, NULL)
        else
          let '(b, mm) := v8m_buddy_init st.(bmem) arena in
          let '(b, mm, obj) := v8m_buddy_alloc b mm size in
          let st := set_bmem st mm in
          if obj =? NULL then (set_slot (free_arena st arena) i (MkArena b false false 0), NULL)
          else (set_slot st i (MkArena b true false 0), obj)
  end.

(** The on-demand sweep over the arenas, and whether anything merged. *)
Fixpoint coalesce_arenas (idx : list nat) (st : buddy_pool) (any_merge : bool) : option (buddy_pool * bool) :=
  match idx with
  | [] => Some (st, any_merge)
  | i :: idx =>
      let slot := slot_at st i in
      if negb slot.(in_use) then coalesce_arenas idx st any_merge
      else
        match v8m_buddy_coalesce_all slot.(buddy) st.(bmem) with
        | None => None
        | Some (b, mm, merges) =>
            coalesce_arenas idx (set_slot (set_bmem st mm) i (MkArena b true slot.(drained) slot.(idle_ticks))) (any_merge || (0 <? merges))
        end
  end.

Definition v8m_buddy_pool_alloc (cfg : config) (st : buddy_pool) (size : Z) : option (buddy_pool * Z) :=
  if (size =? 0) || (V8M_BUDDY_MAX_BLOCK <? size) then Some (st, NULL)
  else
    let '(st, obj) := try_existing_arenas slots st size in
    let '(st, obj) := if obj =? NULL then acquire_fresh_arena slots st size else (st, obj) in
    if (obj =? NULL) && negb (v8m_config_get cfg V8M_OPT_DEFERRED_COALESCE =? 0) then
      match coalesce_arenas slots st false with
      | None => None
      | Some (st, any_merge) => Some (if any_merge : bool then try_existing_arenas slots st size else (st, obj))
      end
    else Some (st, obj).

Definition v8m_buddy_pool_free (cfg : config) (st : buddy_pool) (ptr : Z) : buddy_pool * bool :=
  if ptr =? NULL then (st, false)
  else
    match find_owning_arena slots st ptr with
    | None => (st, false)
    | Some i =>
        let slot := slot_at st i in
        let size := v8m_buddy_block_size slot.(buddy) ptr in
        if size =? 0 then (st, false)
        else
          let '(b, mm) := if negb (v8m_config_get cfg V8M_OPT_DEFERRED_COALESCE =? 0)
                          then v8m_buddy_free_no_coalesce slot.(buddy) st.(bmem) ptr size
                          else v8m_buddy_free slot.(buddy) st.(bmem) ptr size in
          let st := set_bmem st mm in
          if v8m_buddy_is_empty b then
            let st := set_slot st i (MkArena b slot.(in_use) true 0) in
            if v8m_config_get cfg V8M_OPT_DEBUG =? 0 then
              (set_bmem (set_bsource st (ps_dont_need st.(bsource) b.(arena_base) V8M_BUDDY_MAX_BLOCK))
                 (clear_range st.(bmem) b.(arena_base) V8M_BUDDY_MAX_BLOCK), true)
            else (st, true)
          else (set_slot st i (MkArena b slot.(in_use) slot.(drained) slot.(idle_ticks)), true)
    end.

Fixpoint sweep_slots (idx : list nat) (st : buddy_pool) (max_idle_ticks released : Z) : buddy_pool * Z :=
  match idx with
  | [] => (st, released)
  | i :: idx =>
      let slot := slot_at st i in
      if negb slot.(in_use) || negb slot.(drained) then sweep_slots idx st max_idle_ticks released
      else
        let ticks := if slot.(idle_ticks) <? UINT32_MAX then slot.(idle_ticks) + 1 else slot.(idle_ticks) in
        if max_idle_ticks <=? ticks then
          let st := free_arena st slot.(buddy).(arena_base) in
          sweep_slots idx (set_slot st i (MkArena slot.(buddy) false false 0)) max_idle_ticks (released + 1)
        else sweep_slots idx (set_slot st i (MkArena slot.(buddy) true true ticks)) max_idle_ticks released
  end.
Definition v8m_buddy_pool_sweep_idle (st : buddy_pool) (max_idle_ticks : Z) : buddy_pool * Z :=
  sweep_slots slots st max_idle_ticks 0.

Record v8m_buddy_pool_arena_stats := MkArenaStats { live : Z; st_drained : Z; total_in_use : Z }.
Definition v8m_buddy_pool_get_arena_stats (st : buddy_pool) : v8m_buddy_pool_arena_stats :=
  foldl (fun out i =>
           let slot := slot_at st i in
           if negb slot.(in_use) then out
           else if slot.(drained) then MkArenaStats out.(live) (u32 (out.(st_drained) + 1)) (u32 (out.(total_in_use) + 1))
           else MkArenaStats (u32 (out.(live) + 1)) out.(st_drained) (u32 (out.(total_in_use) + 1)))
    (MkArenaStats 0 0 0) slots.

Definition v8m_buddy_pool_validate (st : buddy_pool) : Z :=
  foldl (fun issues i =>
           let slot := slot_at st i in
           let issues := if slot.(drained) && negb slot.(in_use) then issues + 1 else issues in
           if slot.(in_use) && (slot.(buddy).(arena_base) =? NULL) then issues + 1 else issues)
    0 slots.

Definition v8m_buddy_pool_block_size (st : buddy_pool) (ptr : Z) : Z :=
  if ptr =? NULL then 0
  else match find_owning_arena slots st ptr with
       | Some i => v8m_buddy_block_size (slot_at st i).(buddy) ptr
       | None => 0
       end.

End Pool.
End BuddyPool.
