(* ===== verification/BuddyPoolSpec.v ===== *)
(** What the buddy pool promises ([BuddyPool]): the pool invariant and the effect
    of allocation, release and the idle sweep on the blocks in use. *)

From S2P Require Import Prelude Dll BuddyTree Buddy BuddyInv BuddySpec Config Os PageHeapSpec PageSource NumaPool BuddyPool.
Import Dll BuddyTree Buddy BuddyInv BuddySpec Config PageSource BuddyPool.

Module BuddyPoolSpec.

(** ** Arenas *)

(** In the immediate mode ([m]) arenas stay merged. *)
Definition arena_ok (m : bool) (b : v8m_buddy) (mm : mem) : Prop := if m then merged b mm else BuddyInv.inv b mm.

Lemma arena_inv m b mm : arena_ok m b mm -> BuddyInv.inv b mm.
Proof. destruct m; [apply merged_inv|done]. Qed.

Lemma arena_frame m b mm mm' : arena_ok m b mm -> (forall a, in_arena b a -> rd mm' a = rd mm a) -> arena_ok m b mm'.
Proof.
  destruct m; intros (fl & Hf) Ha.
  - destruct Hf as [HS Hc]. exists fl. split; [by eapply state_frame|done].
  - exists fl. by eapply state_frame.
Qed.

(** Allocation in an arena whose mode is kept. *)
Definition no_fit (b : v8m_buddy) (size : Z) : Prop := forall l, size_to_level size <= l <= TOP -> znth b.(free_lists) l = NULL.

Lemma alloc_in_arena m b mm size :
  arena_ok m b mm -> 0 < size <= V8M_BUDDY_MAX_BLOCK ->
  let t := size_to_level size in
  (no_fit b size /\ v8m_buddy_alloc b mm size = (b, mm, NULL)) \/
  exists b' mm' i, v8m_buddy_alloc b mm size = (b', mm', addr b t i) /\ valid t i /\ addr b t i <> NULL /\ arena_ok m b' mm' /\
    b'.(arena_base) = b.(arena_base) /\ quiet b mm mm' /\ ~ allocated b t i /\
    (forall l' i', allocated b' l' i' <-> allocated b l' i' \/ (l', i') = (t, i)).
Proof.
  intros Ho Hsz t.
  assert (Hfl : exists fl, state b mm fl None /\ (m = true -> coalesced fl)).
  { destruct m; destruct Ho as (fl & Hf); [destruct Hf as [? ?]|]; exists fl; by split. }
  destruct Hfl as (fl & HS & Hc). destruct (v8m_buddy_alloc_state b mm fl size HS Hsz) as (Ht & [Hn|Ha]); [by left|right].
  destruct Ha as (b' & mm' & fl' & i & _ & He & HS' & Hv & Hb & HA & HAl & Hq & Hc'). exists b', mm', i. fold t in Ht, He, Hv, HA, HAl.
  split_and!; [done|done| | |done|done|unfold allocated; intros [_ ?]; lia|].
  - apply addr_not_null; [exact (r_geometry _ _ _ (proj1 HS))|done].
  - destruct m; exists fl'; [split; auto|done].
  - intros l' i'. unfold allocated. split.
    + intros [Hv' Ha']. rewrite HAl in Ha' by done. unfold upd in Ha'.
      destruct (Z.eqb_spec l' t) as [->|], (Z.eqb_spec i' i) as [->|]; cbn [andb] in Ha'; auto.
    + intros [[Hv' Ha']|[= -> ->]]; (split; [done|]); rewrite HAl by done; unfold upd.
      * destruct (_ && _); [done|done].
      * by rewrite !Z.eqb_refl.
Qed.

Lemma empty_no_block m b mm l i : arena_ok m b mm -> v8m_buddy_is_empty b = true -> ~ allocated b l i.
Proof. intros Ho He. by apply (proj1 (is_empty_spec b mm (arena_inv _ _ _ Ho))). Qed.

Definition arange (b : v8m_buddy) : Z * Z := (b.(arena_base), b.(arena_base) + V8M_BUDDY_MAX_BLOCK).
Definition slot_range (a : v8m_buddy_pool_arena) : option (Z * Z) := if a.(in_use) then Some (arange a.(buddy)) else None.

(** The blocks in use. *)
Definition block (b : v8m_buddy) (p n : Z) : Prop := exists l i, allocated b l i /\ p = addr b l i /\ n = level_to_size l.

Section Owner.
Context `{PS : PageSource} `{PSL : !PageSourceLaws} (oth od : list (Z * Z)).

Definition in_pool (st : buddy_pool) (p n : Z) : Prop :=
  exists i a, st.(arenas) !! i = Some a /\ a.(in_use) = true /\ block a.(buddy) p n.

Record bpool_ok (m : bool) (st : buddy_pool) : Prop := {
  bo_len : length st.(arenas) = 256%nat;
  bo_arena : forall i a, st.(arenas) !! i = Some a -> a.(in_use) = true ->
    arena_ok m a.(buddy) st.(bmem) /\ (a.(drained) = true -> v8m_buddy_is_empty a.(buddy) = true);
  bo_idle : forall i a, st.(arenas) !! i = Some a -> a.(in_use) = false -> a.(drained) = false;
  bo_src : src_with od st.(bsource);
  bo_regions : ps_regions st.(bsource) ≡ₚ omap slot_range st.(arenas) ++ oth
}.

Lemma bo_geometry m st i a : bpool_ok m st -> st.(arenas) !! i = Some a -> a.(in_use) = true -> geometry a.(buddy).
Proof.
  intros P Hi Hu. destruct (bo_arena _ _ P i a Hi Hu) as [Ho _]. apply arena_inv in Ho as (fl & HS). apply (r_geometry _ _ _ (proj1 HS)).
Qed.

(** Two slots never share memory. *)
Lemma slots_apart m st i j a b :
  bpool_ok m st -> st.(arenas) !! i = Some a -> st.(arenas) !! j = Some b -> i <> j -> a.(in_use) = true -> b.(in_use) = true ->
  apart (arange a.(buddy)) (arange b.(buddy)).
Proof.
  intros P Hi Hj Hne Hu Hv. pose proof (ps_apart _ (proj1 (bo_src _ _ P))) as Ap. pose proof (all_apart_perm _ _ (bo_regions _ _ P) Ap) as Ap'.
  destruct (insert_perm st.(arenas) i a a Hi) as (l' & Hl & _).
  assert (Hb : b ∈ l').
  { assert (Hd : a :: l' ≡ₚ a :: delete i st.(arenas)) by (etransitivity; [symmetry; exact Hl|by apply delete_Permutation]).
    apply Permutation_cons_inv in Hd.
    rewrite Hd. apply list_elem_of_lookup. destruct (decide (j < i)%nat).
    - exists j. by rewrite list_lookup_delete_lt.
    - exists (pred j). rewrite list_lookup_delete_ge by lia. by replace (S (pred j)) with j by lia. }
  assert (Hp : omap slot_range st.(arenas) ++ oth ≡ₚ arange a.(buddy) :: (omap slot_range l' ++ oth)).
  { rewrite Hl. cbn. unfold slot_range at 1. by rewrite Hu. }
  pose proof (all_apart_perm _ _ Hp Ap') as (_ & Hap & _)%all_apart_cons. apply Hap. apply elem_of_app. left.
  apply list_elem_of_omap. exists b. split; [done|]. unfold slot_range. by rewrite Hv.
Qed.

(** An arena leaves the words of all other arenas alone. *)
Lemma other_arena m st i j a b x :
  bpool_ok m st -> st.(arenas) !! i = Some a -> st.(arenas) !! j = Some b -> i <> j -> a.(in_use) = true -> b.(in_use) = true ->
  in_arena b.(buddy) x -> ~ in_arena a.(buddy) x.
Proof.
  intros P Hi Hj Hne Hu Hv Hb Ha. pose proof (slots_apart m st i j a b P Hi Hj Hne Hu Hv) as Hap.
  unfold apart, arange, in_arena in *. change V8M_BUDDY_MAX_BLOCK with (2 ^ 18) in *. cbn in Hap. lia.
Qed.

(** One arena in use changes in place. *)
Lemma update_slot m st i a b mm dr ticks s :
  bpool_ok m st -> st.(arenas) !! i = Some a -> a.(in_use) = true -> b.(arena_base) = a.(buddy).(arena_base) ->
  arena_ok m b mm -> (dr = true -> v8m_buddy_is_empty b = true) -> (forall x, ~ in_arena a.(buddy) x -> rd mm x = rd st.(bmem) x) ->
  src_with od s -> ps_regions s = ps_regions st.(bsource) ->
  bpool_ok m (MkBPool (<[i := MkArena b true dr ticks]> st.(arenas)) mm s).
Proof.
  intros P Hi Hu Hb Ho Hd Hfr Hs Hr. pose proof P as [L A D S R]. constructor; cbn.
  - by rewrite length_insert.
  - intros j c Hj Hc. destruct (decide (i = j)) as [<-|Hne].
    + rewrite list_lookup_insert_eq in Hj by (by eapply lookup_lt_Some). by injection Hj as <-.
    + rewrite list_lookup_insert_ne in Hj by done. destruct (A j c Hj Hc) as [Hoc Hdc]. split; [|done].
      eapply arena_frame; [exact Hoc|]. intros x Hx. apply Hfr. by eapply (other_arena m st i j).
  - intros j c Hj Hc. destruct (decide (i = j)) as [<-|Hne].
    + rewrite list_lookup_insert_eq in Hj by (by eapply lookup_lt_Some). by injection Hj as <-.
    + rewrite list_lookup_insert_ne in Hj by done. by eapply D.
  - done.
  - rewrite Hr, R. destruct (insert_perm st.(arenas) i a (MkArena b true dr ticks) Hi) as (l' & Hl1 & Hl2). rewrite Hl2, Hl1. cbn.
    unfold slot_range at 1 3. cbn. rewrite Hu. unfold arange. by rewrite Hb.
Qed.

(** A slot gets a new arena. *)
Lemma add_slot m st i a b mm s :
  bpool_ok m st -> st.(arenas) !! i = Some a -> a.(in_use) = false -> arena_ok m b mm ->
  (forall x, ~ in_arena b x -> rd mm x = rd st.(bmem) x) ->
  src_with od s -> ps_regions s ≡ₚ arange b :: ps_regions st.(bsource) ->
  bpool_ok m (MkBPool (<[i := MkArena b true false 0]> st.(arenas)) mm s).
Proof.
  intros P Hi Hu Ho Hfr Hs Hr. pose proof P as [L A D S R].
  assert (Hreg : ps_regions s ≡ₚ arange b :: (omap slot_range st.(arenas) ++ oth)) by (by rewrite Hr, R).
  pose proof (all_apart_perm _ _ Hreg (ps_apart _ (proj1 Hs))) as (_ & Hap & _)%all_apart_cons. constructor; cbn.
  - by rewrite length_insert.
  - intros j c Hj Hc. destruct (decide (i = j)) as [<-|Hne].
    + rewrite list_lookup_insert_eq in Hj by (by eapply lookup_lt_Some). by injection Hj as <-.
    + rewrite list_lookup_insert_ne in Hj by done. destruct (A j c Hj Hc) as [Hoc Hdc]. split; [|done].
      eapply arena_frame; [exact Hoc|]. intros x Hx. apply Hfr. intros Hxb.
      assert (Hin : arange c.(buddy) ∈ omap slot_range st.(arenas) ++ oth).
      { apply elem_of_app. left. apply list_elem_of_omap. exists c. split; [by eapply list_elem_of_lookup_2|]. unfold slot_range. by rewrite Hc. }
      specialize (Hap _ Hin). unfold apart, arange, in_arena in *. change V8M_BUDDY_MAX_BLOCK with (2 ^ 18) in *. cbn in Hap. lia.
  - intros j c Hj Hc. destruct (decide (i = j)) as [<-|Hne].
    + rewrite list_lookup_insert_eq in Hj by (by eapply lookup_lt_Some). by injection Hj as <-.
    + rewrite list_lookup_insert_ne in Hj by done. by eapply D.
  - done.
  - rewrite Hreg. destruct (insert_perm st.(arenas) i a (MkArena b true false 0) Hi) as (l' & Hl1 & Hl2). rewrite Hl2, Hl1. cbn.
    unfold slot_range at 1 3. cbn. by rewrite Hu.
Qed.

(** A slot's arena goes back to the page heap. *)
Lemma drop_slot m st i a b :
  bpool_ok m st -> st.(arenas) !! i = Some a -> a.(in_use) = true ->
  bpool_ok m (set_slot (free_arena st a.(buddy).(arena_base)) i (MkArena b false false 0)).
Proof.
  intros P Hi Hu. pose proof P as [L A D S R].
  assert (Hin : arange a.(buddy) ∈ ps_regions st.(bsource)).
  { rewrite R. apply elem_of_app. left. apply list_elem_of_omap. exists a. split; [by eapply list_elem_of_lookup_2|]. unfold slot_range. by rewrite Hu. }
  destruct S as [S Sd]. destruct (ps_free_law _ _ _ S Hin) as (S' & Sd' & Hr). constructor; cbn.
  - by rewrite length_insert.
  - intros j c Hj Hc. destruct (decide (i = j)) as [<-|Hne].
    + rewrite list_lookup_insert_eq in Hj by (by eapply lookup_lt_Some). by injection Hj as <-.
    + rewrite list_lookup_insert_ne in Hj by done. destruct (A j c Hj Hc) as [Hoc Hdc]. split; [|done].
      eapply arena_frame; [exact Hoc|]. intros x Hx. apply rd_clear_out. by eapply (other_arena m st i j).
  - intros j c Hj Hc. destruct (decide (i = j)) as [<-|Hne].
    + rewrite list_lookup_insert_eq in Hj by (by eapply lookup_lt_Some). by injection Hj as <-.
    + rewrite list_lookup_insert_ne in Hj by done. by eapply D.
  - split; [done|congruence].
  - apply (Permutation_cons_inv (a := arange a.(buddy))). unfold arange at 1. rewrite Hr, R.
    destruct (insert_perm st.(arenas) i a (MkArena b false false 0) Hi) as (l' & Hl1 & Hl2). rewrite Hl2, Hl1. cbn.
    unfold slot_range at 1 3. cbn. by rewrite Hu.
Qed.

(** ** The blocks in use *)

Lemma block_span m st i a p n :
  bpool_ok m st -> st.(arenas) !! i = Some a -> a.(in_use) = true -> block a.(buddy) p n ->
  a.(buddy).(arena_base) <= p /\ 0 < n /\ p + n <= a.(buddy).(arena_base) + 2 ^ 18.
Proof.
  intros P Hi Hu (l & k & [[Hl Hk] _] & -> & ->). rewrite level_to_size_eq by done.
  pose proof (level_capacity l Hl). pose proof (pow_level_bounds l Hl). unfold addr. nia.
Qed.

Lemma in_pool_disjoint m st p n q k :
  bpool_ok m st -> in_pool st p n -> in_pool st q k -> (p, n) = (q, k) \/ p + n <= q \/ q + k <= p.
Proof.
  intros P (i & a & Hi & Hu & Hp) (j & b & Hj & Hv & Hq). destruct (decide (i = j)) as [->|Hne].
  - rewrite Hi in Hj. injection Hj as <-. destruct Hp as (l & x & Ha & -> & ->), Hq as (l' & x' & Ha' & -> & ->).
    destruct (decide ((l, x) = (l', x'))) as [[= -> ->]|Hd]; [by left|right]. destruct (bo_arena _ _ P j a Hi Hu) as [Ho _].
    pose proof Ha as [[Hl _] _]. pose proof Ha' as [[Hl' _] _]. rewrite (level_to_size_eq l), (level_to_size_eq l') by done.
    by eapply (allocated_disjoint a.(buddy) st.(bmem)); [by eapply arena_inv| |..].
  - right. pose proof (block_span _ _ _ _ _ _ P Hi Hu Hp). pose proof (block_span _ _ _ _ _ _ P Hj Hv Hq).
    pose proof (slots_apart _ _ _ _ _ _ P Hi Hj Hne Hu Hv) as Hap. unfold apart, arange in Hap. change V8M_BUDDY_MAX_BLOCK with (2 ^ 18) in Hap.
    cbn in Hap. lia.
Qed.

(** The words of the blocks in use. *)
Definition blocks_kept (st st' : buddy_pool) : Prop :=
  forall p n x, in_pool st p n -> in_pool st' p n -> p <= x < p + n -> rd st'.(bmem) x = rd st.(bmem) x.

(** A block for [size] bytes was handed out. *)
Definition bserved (m : bool) (st st' : buddy_pool) (obj size : Z) : Prop :=
  let n := level_to_size (size_to_level size) in
  obj <> NULL /\ bpool_ok m st' /\ size <= n /\ (n | obj) /\ blocks_kept st st' /\
  (forall p k, in_pool st' p k <-> in_pool st p k \/ (p, k) = (obj, n)) /\
  (forall p k, in_pool st p k -> obj + n <= p \/ p + k <= obj).

(** The blocks of the pool when slot [i] is replaced. *)
Lemma in_pool_insert st i a arenas' mm s p n :
  (i < length st.(arenas))%nat -> arenas' = <[i := a]> st.(arenas) ->
  in_pool (MkBPool arenas' mm s) p n <->
  (a.(in_use) = true /\ block a.(buddy) p n) \/ (exists j c, j <> i /\ st.(arenas) !! j = Some c /\ c.(in_use) = true /\ block c.(buddy) p n).
Proof.
  intros Hi ->. unfold in_pool. cbn. split.
  - intros (j & c & Hj & Hc & Hb). destruct (decide (i = j)) as [<-|Hne].
    + rewrite list_lookup_insert_eq in Hj by done. injection Hj as <-. by left.
    + rewrite list_lookup_insert_ne in Hj by done. right. by exists j, c.
  - intros [[Hu Hb]|(j & c & Hne & Hj & Hc & Hb)].
    + exists i, a. by rewrite list_lookup_insert_eq.
    + exists j, c. by rewrite list_lookup_insert_ne.
Qed.

Lemma fit_size size : 0 < size <= V8M_BUDDY_MAX_BLOCK -> size <= level_to_size (size_to_level size) /\ level_ok (size_to_level size).
Proof.
  intros Hsz. change V8M_BUDDY_MAX_BLOCK with (2 ^ 18) in Hsz. destruct (size_to_level_spec size ltac:(lia)) as (Hr & Hs & _).
  assert (Hlt : size_to_level size < 7).
  { destruct (Z.lt_ge_cases (size_to_level size) 7) as [|Hge]; [done|].
    apply (proj1 (size_to_level_large size ltac:(lia))) in Hge. change V8M_BUDDY_MAX_BLOCK with (2 ^ 18) in Hge. lia. }
  assert (level_ok (size_to_level size)) by (unfold level_ok, TOP; lia). split; [|done]. rewrite level_to_size_eq by done. lia.
Qed.

(** A block taken in slot [i], whose arena was [a] (in use) or is new. *)
Lemma slot_serves m st i b0 b mm s obj size k dr ticks :
  let t := size_to_level size in
  let st' := MkBPool (<[i := MkArena b true dr ticks]> st.(arenas)) mm s in
  0 < size <= V8M_BUDDY_MAX_BLOCK -> (i < length st.(arenas))%nat -> bpool_ok m st' -> geometry b0 -> b.(arena_base) = b0.(arena_base) -> valid t k -> obj = addr b0 t k -> obj <> NULL ->
  ~ allocated b0 t k -> (forall l' i', allocated b l' i' <-> allocated b0 l' i' \/ (l', i') = (t, k)) ->
  (forall p n, (exists a, st.(arenas) !! i = Some a /\ a.(in_use) = true /\ block a.(buddy) p n) <-> block b0 p n) ->
  (forall p n x, in_pool st p n -> p <= x < p + n -> rd mm x = rd st.(bmem) x) ->
  bserved m st st' obj size.
Proof.
  intros t st' Hsz Hi P' Hg Hb Hv -> Hn Hna HA Hold Hk. destruct (fit_size size Hsz) as [Hfit Hlv].
  assert (Hblk : forall p n, block b p n <-> block b0 p n \/ (p, n) = (addr b0 t k, level_to_size t)).
  { intros p n. unfold block, addr. rewrite Hb. split.
    - intros (l & x & [Ha|[= -> ->]]%HA & -> & ->); [left; by exists l, x|by right].
    - intros [(l & x & Ha & -> & ->)|[= -> ->]]; [exists l, x|exists t, k]; (split; [apply HA; auto|done]). }
  assert (Hin : forall p n, in_pool st' p n <-> in_pool st p n \/ (p, n) = (addr b0 t k, level_to_size t)).
  { intros p n. unfold st'. rewrite (in_pool_insert st i (MkArena b true dr ticks)) by done. cbn. rewrite Hblk, <- Hold. unfold in_pool. split.
    - intros [[_ [(a & Ha)|?]]|(j & c & _ & Hc)]; [left; by exists i, a|by right|left; by exists j, c].
    - intros [(j & c & Hj & Hc)|?]; [|by left; split; [|right]]. destruct (decide (j = i)) as [->|Hne]; [left; split; [done|left; by exists c]|].
      right. by exists j, c. }
  assert (Hfresh : forall p n, in_pool st p n -> (p, n) = (addr b0 t k, level_to_size t) -> False).
  { intros p n (j & c & Hj & Hc & Hbk) [= -> ->]. destruct (decide (j = i)) as [->|Hne].
    - destruct (proj1 (Hold (addr b0 t k) (level_to_size t)) ltac:(by exists c)) as (l & x & Ha & He & Hl). apply Hna.
      pose proof Ha as [[Hl' _] _]. rewrite !level_to_size_eq in Hl by done. assert (l = t) as ->.
      { apply Z.pow_inj_r in Hl; unfold level_ok in *; lia. }
      apply addr_inj in He; [by rewrite He|unfold level_ok in *; lia].
    - assert (Hs : st'.(arenas) !! i = Some (MkArena b true dr ticks)) by (cbn; by rewrite list_lookup_insert_eq).
      assert (Hs' : st'.(arenas) !! j = Some c) by (cbn; by rewrite list_lookup_insert_ne).
      assert (Hbn : block b (addr b0 t k) (level_to_size t)) by (apply Hblk; by right).
      pose proof (block_span _ _ _ _ _ _ P' Hs eq_refl Hbn). pose proof (block_span _ _ _ _ _ _ P' Hs' Hc Hbk).
      pose proof (slots_apart _ _ _ _ _ _ P' Hs Hs' ltac:(done) eq_refl Hc) as Hap. unfold apart, arange in Hap.
      change V8M_BUDDY_MAX_BLOCK with (2 ^ 18) in Hap. cbn in *. lia. }
  unfold bserved. fold t. split_and!; [done|done|done| | |exact Hin|].
  - rewrite level_to_size_eq by done. by apply addr_divide.
  - intros p n x H1 _ Hx. by apply (Hk p n).
  - intros p n H1. destruct (in_pool_disjoint m st' (addr b0 t k) (level_to_size t) p n P') as [He|?]; [apply Hin; by right|apply Hin; by left| |done].
    by destruct (Hfresh p n H1).
Qed.

(** ** Allocation *)

Lemma slot_at_some st i a : st.(arenas) !! i = Some a -> slot_at st i = a.
Proof. unfold slot_at. by intros ->. Qed.
Lemma slot_lookup m st i : bpool_ok m st -> (i < 256)%nat -> exists a, st.(arenas) !! i = Some a.
Proof. intros P Hi. apply lookup_lt_is_Some. by rewrite (bo_len _ _ P). Qed.
Lemma set_slot_same st i a : st.(arenas) !! i = Some a -> set_slot st i a = st.
Proof. intros Hi. unfold set_slot. rewrite list_insert_id by done. by destruct st. Qed.

(** A block in use lies off the limits of its own arena and outside the others. *)
Lemma pool_words m st i a mm :
  bpool_ok m st -> st.(arenas) !! i = Some a -> a.(in_use) = true -> quiet a.(buddy) st.(bmem) mm ->
  forall p n x, in_pool st p n -> p <= x < p + n -> rd mm x = rd st.(bmem) x.
Proof.
  intros P Hi Hu Hq p n x (j & c & Hj & Hc & Hb) Hx. apply Hq. destruct (decide (i = j)) as [<-|Hne].
  - rewrite Hi in Hj. injection Hj as <-. right. destruct Hb as (l & k & [Hv Ha] & -> & ->). exists l, k.
    rewrite level_to_size_eq in Hx by (by destruct Hv). done.
  - left. pose proof (block_span _ _ _ _ _ _ P Hj Hc Hb) as Hs. eapply (other_arena m st i j); try done. unfold in_arena. lia.
Qed.

Lemma try_existing_spec m size idx st :
  0 < size <= V8M_BUDDY_MAX_BLOCK -> (forall i, i ∈ idx -> (i < 256)%nat) -> bpool_ok m st ->
  let '(st', obj) := try_existing_arenas idx st size in
  (obj = NULL /\ st' = st /\ forall i a, i ∈ idx -> st.(arenas) !! i = Some a -> a.(in_use) = true -> no_fit a.(buddy) size) \/
  bserved m st st' obj size.
Proof.
  intros Hsz. induction idx as [|i idx IH]; intros Hidx P; cbn [try_existing_arenas].
  { left. split_and!; [done|done|]. by intros i a ?%not_elem_of_nil. }
  destruct (slot_lookup m st i P ltac:(apply Hidx; left)) as [a Ha]. rewrite (slot_at_some _ _ _ Ha).
  assert (Hidx' : forall j, j ∈ idx -> (j < 256)%nat) by (intros j Hj; apply Hidx; by right).
  destruct (a.(in_use)) eqn:Hu; cbn [negb].
  2: { specialize (IH Hidx' P). destruct (try_existing_arenas idx st size) as [st' obj]. destruct IH as [(-> & -> & Hn)|?]; [left|by right].
       split_and!; [done|done|]. intros j c [->|Hj]%elem_of_cons Hc Hcu; [|by eapply Hn]. congruence. }
  destruct (bo_arena _ _ P i a Ha Hu) as [Ho Hd].
  destruct (alloc_in_arena m a.(buddy) st.(bmem) size Ho Hsz) as [[Hno ->]|(b' & mm & k & -> & Hv & Hnn & Ho' & Hb' & Hq & Hna & HA)].
  - rewrite Z.eqb_refl. cbn [negb]. replace (set_bmem st (bmem st)) with st by (by destruct st).
    replace (MkArena (buddy a) true (drained a) (idle_ticks a)) with a by (destruct a; cbn in Hu; by subst).
    rewrite set_slot_same by done. specialize (IH Hidx' P). destruct (try_existing_arenas idx st size) as [st' obj].
    destruct IH as [(-> & -> & Hn)|?]; [left|by right]. split_and!; [done|done|].
    intros j c [->|Hj]%elem_of_cons Hc Hcu; [|by eapply Hn]. rewrite Ha in Hc. by injection Hc as <-.
  - destruct (Z.eqb_spec (addr (buddy a) (size_to_level size) k) NULL) as [?|Hnz]; [done|]. cbn [negb]. right.
    assert (Hil : (i < length st.(arenas))%nat) by (by eapply lookup_lt_Some).
    apply (slot_serves m st i a.(buddy) b' mm st.(bsource) _ size k false 0); try done.
    + eapply update_slot; try done; [|apply P]. intros x Hx. apply Hq. by left.
    + by eapply bo_geometry.
    + intros p n. split; [intros (c & Hc & _ & Hbk); rewrite Ha in Hc; by injection Hc as <-|by exists a].
    + by eapply pool_words.
Qed.

Lemma fresh_arena m st i a s b mm :
  bpool_ok m st -> st.(arenas) !! i = Some a -> a.(in_use) = false ->
  src_with od s -> ps_regions s ≡ₚ arange b :: ps_regions st.(bsource) -> quiet b st.(bmem) mm ->
  forall p n x, in_pool st p n -> p <= x < p + n -> ~ in_arena b x.
Proof.
  intros P Hi Hu Hs Hr Hq p n x (j & c & Hj & Hc & Hbk) Hx Hxb. pose proof (block_span _ _ _ _ _ _ P Hj Hc Hbk) as Hsp.
  assert (Hreg : ps_regions s ≡ₚ arange b :: (omap slot_range st.(arenas) ++ oth)) by (by rewrite Hr, (bo_regions _ _ P)).
  pose proof (all_apart_perm _ _ Hreg (ps_apart _ (proj1 Hs))) as (_ & Hap & _)%all_apart_cons.
  assert (Hin : arange c.(buddy) ∈ omap slot_range st.(arenas) ++ oth).
  { apply elem_of_app. left. apply list_elem_of_omap. exists c. split; [by eapply list_elem_of_lookup_2|]. unfold slot_range. by rewrite Hc. }
  specialize (Hap _ Hin). unfold apart, arange, in_arena in *. change V8M_BUDDY_MAX_BLOCK with (2 ^ 18) in *. cbn in Hap. lia.
Qed.

Lemma acquire_fresh_spec m size idx st :
  0 < size <= V8M_BUDDY_MAX_BLOCK -> (forall i, i ∈ idx -> (i < 256)%nat) -> bpool_ok m st ->
  let '(st', obj) := acquire_fresh_arena idx st size in
  (obj = NULL /\ bpool_ok m st' /\ st'.(arenas) = st.(arenas) /\ st'.(bmem) = st.(bmem) /\
   ((forall i a, i ∈ idx -> st.(arenas) !! i = Some a -> a.(in_use) = true) \/
    (ps_alloc st.(bsource) V8M_BUDDY_MAX_BLOCK V8M_BUDDY_MAX_BLOCK).2 = NULL)) \/
  bserved m st st' obj size.
Proof.
  intros Hsz. induction idx as [|i idx IH]; intros Hidx P; cbn [acquire_fresh_arena].
  { left. split_and!; try done. left. by intros i a ?%not_elem_of_nil. }
  destruct (slot_lookup m st i P ltac:(apply Hidx; left)) as [a Ha]. rewrite (slot_at_some _ _ _ Ha).
  destruct (a.(in_use)) eqn:Hu.
  { specialize (IH ltac:(intros j Hj; apply Hidx; by right) P). destruct (acquire_fresh_arena idx st size) as [st' obj].
    destruct IH as [(-> & P' & ? & ? & Hw)|?]; [left|by right]. split_and!; try done. destruct Hw as [Hw|?]; [left|by right].
    intros j c [->|Hj]%elem_of_cons Hc; [congruence|by eapply Hw]. }
  pose proof (ps_alloc_law st.(bsource) V8M_BUDDY_MAX_BLOCK 18 (proj1 (bo_src _ _ P)) ltac:(done) ltac:(by exists 4) ltac:(lia)) as Hal.
    change (Z.min 18 21) with 18 in Hal.
  change (2 ^ 18) with V8M_BUDDY_MAX_BLOCK in Hal. destruct (ps_alloc _ _ _) as [s p] eqn:Hpa. destruct Hal as (Hs & Hsd & Hc).
  rewrite (proj2 (bo_src _ _ P)) in Hsd. assert (Hso : src_with od s) by done. clear Hsd.
  destruct (Z.eqb_spec p NULL) as [->|Hpn].
  { left. destruct Hc as [[_ Hr]|[? _]]; [|unfold NULL in *; lia]. split_and!; [done| |done|done|by right].
    destruct P as [L A D S R]. constructor; try done. cbn. by rewrite Hr. }
  destruct Hc as [[? _]|(Hp0 & Hpb & Hpd & Hr)]; [done|]. cbn [set_bsource bmem].
  pose proof (v8m_buddy_init_merged st.(bmem) p Hp0 Hpd Hpb) as Hin. destruct (v8m_buddy_init (bmem st) p) as [b mm].
  destruct Hin as (Hm & Hb & Hno & Hq). assert (Ho : arena_ok m b mm) by (destruct m; [done|by apply merged_inv]).
  destruct (alloc_in_arena m b mm size Ho Hsz) as [[Hnf He]|(b' & mm' & k & -> & Hv & Hnn & Ho' & Hb' & Hq' & Hna & HA)].
  { exfalso. assert (Hemp : v8m_buddy_is_empty b = true) by (apply (is_empty_spec b mm); [by apply merged_inv|done]).
    destruct (empty_arena_whole b mm size Hm Hemp Hsz) as [_ (b1 & mm1 & k & He' & Hv)]. rewrite He in He'. injection He' as _ _ He'.
    destruct Hm as (fl & HS & _). by apply (addr_not_null b (size_to_level size) k (r_geometry _ _ _ (proj1 HS)) Hv). }
  destruct (Z.eqb_spec (addr b (size_to_level size) k) NULL) as [?|Hnz]; [done|]. right.
  assert (Hr' : ps_regions s ≡ₚ arange b' :: ps_regions st.(bsource)) by (unfold arange; by rewrite Hb', Hb).
  assert (Hqq : forall x, ~ in_arena b x -> rd mm' x = rd st.(bmem) x).
  { intros x Hx. rewrite (Hq' x), (Hq x); [done|by left|by left]. }
  assert (Hil : (i < length st.(arenas))%nat) by (by eapply lookup_lt_Some).
  apply (slot_serves m st i b b' mm' s _ size k false 0); try done.
  - apply (add_slot m st i a); try done. intros x Hx. apply Hqq. unfold in_arena in *. by rewrite <- Hb'.
  - destruct Hm as (fl & HS & _). exact (r_geometry _ _ _ (proj1 HS)).
  - intros q n. split; [intros (c & Hc & Hcu & _); congruence|]. intros (l & x & Hal & _). by destruct (Hno l x).
  - intros q n x Hq1 Hx. apply Hqq. assert (Hrb : ps_regions s ≡ₚ arange b :: ps_regions st.(bsource)) by (unfold arange; by rewrite Hb).
    by eapply (fresh_arena m st i a s b mm).
Qed.

(** ** The on-demand sweep *)

(** Nothing handed out changed. *)
Definition same_blocks (st st' : buddy_pool) : Prop :=
  (forall p n, in_pool st' p n <-> in_pool st p n) /\ blocks_kept st st'.

Lemma same_blocks_refl st : same_blocks st st.
Proof. by split; [|intros p n x _ _ _]. Qed.
Lemma same_blocks_trans st1 st2 st3 : same_blocks st1 st2 -> same_blocks st2 st3 -> same_blocks st1 st3.
Proof.
  intros [H1 K1] [H2 K2]. split; [intros p n; by rewrite H2|]. intros p n x Hp Hp' Hx.
  assert (Hp2 : in_pool st2 p n) by (by apply H1). by rewrite (K2 p n), (K1 p n).
Qed.

Lemma bserved_from m st st1 st' obj size : same_blocks st st1 -> bserved m st1 st' obj size -> bserved m st st' obj size.
Proof.
  intros [Hs Hk] (H1 & H2 & H3 & H4 & Hk' & Hin & Hd). split_and!; [done|done|done|done| | |].
  - intros p n x Hp Hp' Hx. assert (Hp1 : in_pool st1 p n) by (by apply Hs). by rewrite (Hk' p n), (Hk p n).
  - intros p k. by rewrite Hin, Hs.
  - intros p k Hp. by apply Hd, Hs.
Qed.

(** One arena rewritten with the same blocks. *)
Lemma rewrite_slot m st i a b mm dr ticks s :
  bpool_ok m st -> st.(arenas) !! i = Some a -> a.(in_use) = true -> b.(arena_base) = a.(buddy).(arena_base) ->
  b.(alloc_bitmap) = a.(buddy).(alloc_bitmap) -> quiet a.(buddy) st.(bmem) mm ->
  same_blocks st (MkBPool (<[i := MkArena b true dr ticks]> st.(arenas)) mm s).
Proof.
  intros P Hi Hu Hb Ha Hq. assert (Hil : (i < length st.(arenas))%nat) by (by eapply lookup_lt_Some). split.
  - intros p n. rewrite (in_pool_insert st i (MkArena b true dr ticks)) by done. cbn.
    assert (Hbk : block b p n <-> block a.(buddy) p n) by (unfold block, allocated, Al, addr; by rewrite Hb, Ha). rewrite Hbk. split.
    + intros [[_ ?]|(j & c & _ & Hc)]; [by exists i, a|by exists j, c].
    + intros (j & c & Hj & Hc). destruct (decide (j = i)) as [->|Hne]; [left|right; by exists j, c].
      rewrite Hi in Hj. by injection Hj as <-; destruct Hc.
  - intros p n x Hp _ Hx. by eapply pool_words.
Qed.

Lemma coalesce_arena m b mm :
  arena_ok m b mm ->
  exists b' mm' merges, v8m_buddy_coalesce_all b mm = Some (b', mm', merges) /\ arena_ok m b' mm' /\
    b'.(alloc_bitmap) = b.(alloc_bitmap) /\ b'.(arena_base) = b.(arena_base) /\ quiet b mm mm'.
Proof.
  intros Ho. destruct (arena_inv _ _ _ Ho) as (fl & HS). destruct (coalesce_all_swept b mm fl HS) as (b' & mm' & fl' & mg & He & [] & Hco & _).
  exists b', mm', mg. split_and!; try done. destruct m; exists fl'; [by split|done].
Qed.

Lemma coalesce_arenas_spec m idx st any :
  bpool_ok m st -> (forall i, i ∈ idx -> (i < 256)%nat) ->
  exists st' any', coalesce_arenas idx st any = Some (st', any') /\ bpool_ok m st' /\ same_blocks st st'.
Proof.
  revert st any. induction idx as [|i idx IH]; intros st any P Hidx; cbn [coalesce_arenas].
  { exists st, any. split_and!; [done|done|apply same_blocks_refl]. }
  assert (Hidx' : forall j, j ∈ idx -> (j < 256)%nat) by (intros j Hj; apply Hidx; by right).
  destruct (slot_lookup m st i P ltac:(apply Hidx; left)) as [a Ha]. rewrite (slot_at_some _ _ _ Ha).
  destruct (a.(in_use)) eqn:Hu; cbn [negb]; [|by apply IH]. destruct (bo_arena _ _ P i a Ha Hu) as [Ho Hd].
  destruct (coalesce_arena m _ _ Ho) as (b' & mm & mg & -> & Ho' & Hal & Hb & Hq).
  set (st1 := set_slot (set_bmem st mm) i (MkArena b' true (drained a) (idle_ticks a))).
  assert (P1 : bpool_ok m st1).
  { apply (update_slot m st i a b' mm a.(drained) a.(idle_ticks) st.(bsource) P Ha Hu Hb Ho'); [|intros x Hx; apply Hq; by left|apply P|done].
    intros Hdr. specialize (Hd Hdr). unfold v8m_buddy_is_empty in *. by rewrite Hal. }
  destruct (IH st1 (any || (0 <? mg)) P1 Hidx') as (st' & any' & -> & P' & Hs). exists st', any'. split_and!; [done|done|].
  eapply same_blocks_trans; [|exact Hs]. exact (rewrite_slot m st i a b' mm a.(drained) a.(idle_ticks) st.(bsource) P Ha Hu Hb Hal Hq).
Qed.

(** The pool cannot serve [size]: no arena has a block, and no arena can be had. *)
Definition bexhausted (st : buddy_pool) (size : Z) : Prop :=
  (forall i a, st.(arenas) !! i = Some a -> a.(in_use) = true -> no_fit a.(buddy) size) /\
  ((forall i a, st.(arenas) !! i = Some a -> a.(in_use) = true) \/
   (ps_alloc st.(bsource) V8M_BUDDY_MAX_BLOCK V8M_BUDDY_MAX_BLOCK).2 = NULL).

Lemma slots_in i : i ∈ slots <-> (i < 256)%nat.
Proof. unfold slots, V8M_BUDDY_POOL_MAX_ARENAS. rewrite elem_of_seq. lia. Qed.

Lemma bpool_alloc_ok m cfg st size :
  bpool_ok m st -> 0 <= size ->
  exists st' obj, v8m_buddy_pool_alloc cfg st size = Some (st', obj) /\
    ((obj = NULL /\ bpool_ok m st' /\ same_blocks st st' /\ (size = 0 \/ V8M_BUDDY_MAX_BLOCK < size \/ bexhausted st size)) \/
     bserved m st st' obj size).
Proof.
  intros P Hsz. unfold v8m_buddy_pool_alloc. destruct (Z.eqb_spec size 0) as [->|Hnz].
  { exists st, NULL. split; [done|left]. split_and!; [done|done|apply same_blocks_refl|by left]. }
  destruct (Z.ltb_spec V8M_BUDDY_MAX_BLOCK size) as [Hbig|Hle].
  { exists st, NULL. split; [done|left]. split_and!; [done|done|apply same_blocks_refl|by right; left]. }
  cbn [orb]. assert (Hs : 0 < size <= V8M_BUDDY_MAX_BLOCK) by lia.
  assert (Hidx : forall i, i ∈ slots -> (i < 256)%nat) by (intros i; by rewrite slots_in).
  pose proof (try_existing_spec m size slots st Hs Hidx P) as Ht. destruct (try_existing_arenas slots st size) as [st1 obj].
  destruct Ht as [(-> & -> & Hnf)|Hserve].
  2: { pose proof Hserve as (Hn & _). destruct (Z.eqb_spec obj NULL) as [?|_]; [done|].
       cbn zeta. destruct (Z.eqb_spec obj NULL); [done|]. cbn [andb]. exists st1, obj. split; [done|by right]. }
  rewrite Z.eqb_refl. pose proof (acquire_fresh_spec m size slots st Hs Hidx P) as Hf. destruct (acquire_fresh_arena slots st size) as [st1 obj].
  destruct Hf as [(-> & P1 & Ea & Em & Hw)|Hserve].
  2: { pose proof Hserve as (Hn & _). destruct (Z.eqb_spec obj NULL); [done|]. cbn [andb]. exists st1, obj. split; [done|by right]. }
  rewrite Z.eqb_refl. cbn [andb].
  assert (Hsame : same_blocks st st1).
  { split; [intros p n; unfold in_pool; by rewrite Ea|]. intros p n x _ _ _. by rewrite Em. }
  assert (Hex : bexhausted st size).
  { assert (Hin : forall i a, st.(arenas) !! i = Some a -> i ∈ slots).
    { intros i a Ha. apply slots_in. rewrite <- (bo_len _ _ P). by eapply lookup_lt_Some. }
    split; [intros i a Ha; by apply (Hnf i a (Hin i a Ha) Ha)|]. destruct Hw as [Hw|?]; [left|by right]. intros i a Ha. by apply (Hw i a (Hin i a Ha)). }
  destruct (negb _).
  2: { exists st1, NULL. split; [done|left]. split_and!; [done|done|done|by right; right]. }
  destruct (coalesce_arenas_spec m slots st1 false P1 Hidx) as (st2 & any & -> & P2 & Hs2).
  assert (Hsame2 : same_blocks st st2) by (by eapply same_blocks_trans). destruct any.
  2: { exists st2, NULL. split; [done|left]. split_and!; [done|done|done|by right; right]. }
  pose proof (try_existing_spec m size slots st2 Hs Hidx P2) as Ht. destruct (try_existing_arenas slots st2 size) as [st3 obj].
  exists st3, obj. split; [done|]. destruct Ht as [(-> & -> & _)|Hserve]; [left|right; by eapply bserved_from].
  split_and!; [done|done|done|by right; right].
Qed.

(** ** Release *)

(** Dropping the contents of a merged empty arena leaves it merged: its one free
    block has null links. *)
Lemma merged_cleared b mm :
  merged b mm -> v8m_buddy_is_empty b = true -> merged b (clear_range mm b.(arena_base) V8M_BUDDY_MAX_BLOCK).
Proof.
  intros Hm He. pose proof (proj1 (is_empty_spec b mm (merged_inv b mm Hm)) He) as Hno. destruct Hm as (fl & HS & Hco).
  destruct (coalesced_empty_whole _ _ _ (proj2 HS) (coalesced_Fl _ Hco)) as (_ & Htop & Hlow).
  { intros l i Hv. pose proof (t_A _ _ _ _ (proj2 HS) l i). destruct (Z.eq_dec (Al b l i) 1); [by destruct (Hno l i)|lia]. }
  exists fl. split; [|done]. destruct HS as [R T]. split; [|done]. pose proof R as []. constructor; try done. intros l Hl. specialize (r_dll0 l Hl).
  destruct (decide (l = TOP)) as [->|Hne].
  - assert (Hfl : fl TOP = [0]).
    { apply Permutation_singleton_r, NoDup_Permutation; [by apply (rep_NoDup _ _ _ _ R)|apply NoDup_singleton|]. intros i.
      rewrite list_elem_of_singleton. split; [intros Hi; apply valid_root; by apply r_valid0|intros ->; by apply Fl_in]. }
    rewrite Hfl in *. cbn in *. destruct r_dll0 as (-> & Hnn & _ & _). unfold node_prev, node_next.
    assert (Hin : forall x, 0 <= x < 16 -> rd (clear_range mm (arena_base b) V8M_BUDDY_MAX_BLOCK) (addr b TOP 0 + x) = 0).
    { intros x Hx. apply rd_clear_in. unfold addr. change V8M_BUDDY_MAX_BLOCK with (2 ^ 18). lia. }
    pose proof (Hin 0 ltac:(lia)) as H0. pose proof (Hin 8 ltac:(lia)) as H8. rewrite Z.add_0_r in H0.
    split_and!; [done|done|exact H8|exact H0].
  - assert (Hfl : fl l = []).
    { destruct (fl l) as [|i L] eqn:E; [done|]. assert (Hi : i ∈ fl l) by (rewrite E; left). pose proof (r_valid0 l i Hl Hi) as Hv.
      apply Fl_in in Hi. rewrite Hlow in Hi; [done|done|]. unfold level_ok, TOP in *. lia. }
    by rewrite Hfl in *.
Qed.

Lemma find_owning_spec m st ptr idx :
  bpool_ok m st -> (forall i, i ∈ idx -> (i < 256)%nat) ->
  match find_owning_arena idx st ptr with
  | Some i => exists a, st.(arenas) !! i = Some a /\ a.(in_use) = true /\ in_arena a.(buddy) ptr
  | None => forall i a, i ∈ idx -> st.(arenas) !! i = Some a -> a.(in_use) = true -> ~ in_arena a.(buddy) ptr
  end.
Proof.
  intros P. induction idx as [|i idx IH]; intros Hidx; cbn [find_owning_arena]; [by intros i a ?%not_elem_of_nil|].
  destruct (slot_lookup m st i P ltac:(apply Hidx; left)) as [a Ha]. rewrite (slot_at_some _ _ _ Ha).
  assert (Hspec : owns_addr ptr a = true <-> a.(in_use) = true /\ in_arena a.(buddy) ptr).
  { unfold owns_addr, in_arena. destruct (a.(in_use)) eqn:Hu; cbn [andb]; [|split; [done|by intros [? _]]].
    pose proof (bo_geometry _ _ _ _ P Ha Hu) as (Hg0 & _ & Hg1 & Hg2). rewrite Hg2, u64_small by (unfold is_u64; lia).
    rewrite andb_true_iff, Z.leb_le, Z.ltb_lt. tauto. }
  destruct (owns_addr ptr a); [exists a; by split; [|apply Hspec]|].
  specialize (IH ltac:(intros j Hj; apply Hidx; by right)). destruct (find_owning_arena idx st ptr) as [j|]; [done|].
  intros j c [->|Hj]%elem_of_cons Hc Hcu Hin; [|by eapply IH]. rewrite Ha in Hc. injection Hc as <-.
  by assert (false = true) by (by apply Hspec).
Qed.

(** The modes in which releasing keeps the arenas usable. *)
Definition mode_ok (m : bool) (cfg : config) : Prop :=
  if m then v8m_config_get cfg V8M_OPT_DEFERRED_COALESCE = 0 else v8m_config_get cfg V8M_OPT_DEBUG <> 0.

Lemma free_in_arena m cfg b mm l i :
  arena_ok m b mm -> allocated b l i -> mode_ok m cfg ->
  exists b' mm', (if negb (v8m_config_get cfg V8M_OPT_DEFERRED_COALESCE =? 0)
                  then v8m_buddy_free_no_coalesce b mm (addr b l i) (level_to_size l)
                  else v8m_buddy_free b mm (addr b l i) (level_to_size l)) = (b', mm') /\
    arena_ok m b' mm' /\ b'.(arena_base) = b.(arena_base) /\ quiet b' mm mm' /\
    (forall l' i', allocated b' l' i' <-> allocated b l' i' /\ (l', i') <> (l, i)).
Proof.
  intros Ho Hal Hmode. pose proof Hal as [[Hl _] _]. assert (Hsz : size_to_level (level_to_size l) = l) by (rewrite level_to_size_eq by done; by apply size_to_level_size).
  assert (Hfl : exists fl, state b mm fl None /\ (m = true -> coalesced fl)).
  { destruct m; destruct Ho as (fl & Hf); [destruct Hf as [? ?]|]; exists fl; by split. }
  destruct Hfl as (fl & HS & Hc). unfold mode_ok in Hmode. destruct (Z.eqb_spec (v8m_config_get cfg V8M_OPT_DEFERRED_COALESCE) 0) as [Hd|Hd]; cbn [negb].
  - destruct (v8m_buddy_free_state b mm fl l i _ HS Hal Hsz) as (b' & mm' & fl' & He & HS' & Hb & HA & Hq & Hco).
    exists b', mm'. split_and!; [done| |done|done|by apply allocated_upd0]. destruct m; exists fl'; [split; auto|done].
  - destruct m; [done|]. destruct (v8m_buddy_free_no_coalesce_state b mm fl l i _ HS Hal Hsz) as (b' & mm' & fl' & He & HS' & Hb & HA & Hq & _).
    exists b', mm'. split_and!; [done|by exists fl'|done|done|by apply allocated_upd0].
Qed.

(** The words of the other blocks after a block of slot [i] is gone. *)
Lemma freed_words m st i a b mm p n :
  bpool_ok m st -> st.(arenas) !! i = Some a -> a.(in_use) = true -> b.(arena_base) = a.(buddy).(arena_base) -> quiet b st.(bmem) mm ->
  (forall q k, block a.(buddy) q k -> (q, k) <> (p, n) -> block b q k) ->
  forall q k x, in_pool st q k -> (q, k) <> (p, n) -> q <= x < q + k -> rd mm x = rd st.(bmem) x.
Proof.
  intros P Hi Hu Hb Hq Hbk q k x (j & c & Hj & Hc & Hcb) Hne Hx. apply Hq. destruct (decide (i = j)) as [<-|Hij].
  - rewrite Hi in Hj. injection Hj as <-. right. destruct (Hbk q k Hcb Hne) as (l & y & [Hv Ha] & -> & ->). exists l, y.
    rewrite level_to_size_eq in Hx by (by destruct Hv). done.
  - left. pose proof (block_span _ _ _ _ _ _ P Hj Hc Hcb) as Hs. unfold in_arena. rewrite Hb. eapply (other_arena m st i j); try done. unfold in_arena. lia.
Qed.

(** The slot and the size of a block in use are found from its address. *)
Lemma locate_block m st i a l y :
  bpool_ok m st -> st.(arenas) !! i = Some a -> a.(in_use) = true -> allocated a.(buddy) l y ->
  let p := addr a.(buddy) l y in
  p <> NULL /\ find_owning_arena slots st p = Some i /\ v8m_buddy_block_size a.(buddy) p = level_to_size l /\ level_to_size l <> 0.
Proof.
  intros P Hi Hu Hal p. pose proof Hal as [[Hl _] _]. destruct (bo_arena _ _ P i a Hi Hu) as [Ho _].
  pose proof (bo_geometry _ _ _ _ P Hi Hu) as Hg.
  pose proof (block_span _ _ _ _ _ _ P Hi Hu (ex_intro _ l (ex_intro _ y (conj Hal (conj eq_refl eq_refl))))) as Hsp. fold p in Hsp.
  pose proof (level_to_size_eq l Hl) as Hls. split_and!; [apply addr_not_null; [done|by destruct Hal]| | |lia].
  - pose proof (find_owning_spec m st p slots P ltac:(intros j; by rewrite slots_in)) as Hf. destruct (find_owning_arena slots st p) as [j|].
    + destruct Hf as (c & Hj & Hcu & Hcin). f_equal. destruct (decide (j = i)) as [|Hne]; [done|]. exfalso.
      apply (other_arena m st j i c a p P Hj Hi Hne Hcu Hu); [|done]. unfold in_arena. lia.
    + destruct (Hf i a) as []; [|done|done|unfold in_arena; lia]. apply slots_in. rewrite <- (bo_len _ _ P). by eapply lookup_lt_Some.
  - destruct (block_size_cases a.(buddy) st.(bmem) p (arena_inv _ _ _ Ho) ltac:(destruct Hg; lia)) as [(l' & i' & Hal' & Hw & ->)|[Hno _]].
    + pose proof Hal' as [[Hl' _] _]. destruct (decide ((l, y) = (l', i'))) as [[= -> ->]|Hne]; [done|].
      destruct (allocated_disjoint _ _ l y l' i' (arena_inv _ _ _ Ho) Hal Hal' Hne); unfold p in *; lia.
    + destruct (Hno l y Hal). unfold p in *. lia.
Qed.

(** The blocks of an arena, and of the pool, after one is gone. *)
Lemma blocks_minus b b0 l y :
  b.(arena_base) = b0.(arena_base) -> allocated b0 l y -> (forall l' i', allocated b l' i' <-> allocated b0 l' i' /\ (l', i') <> (l, y)) ->
  forall q k, block b q k <-> block b0 q k /\ (q, k) <> (addr b0 l y, level_to_size l).
Proof.
  intros Hb [[Hl _] _] HA q k. unfold block, addr at 1. rewrite Hb. split.
  - intros (l' & i' & [Ha Hne]%HA & -> & ->). split; [by exists l', i'|]. intros [= He Hs]. apply Hne. pose proof Ha as [[Hl' _] _].
    rewrite !level_to_size_eq in Hs by done. apply Z.pow_inj_r in Hs; [|lia..]. assert (l' = l) as -> by lia.
    fold (addr b0 l i') (addr b0 l y) in He. apply addr_inj in He; [by rewrite He|lia].
  - intros [(l' & i' & Ha & -> & ->) Hne]. exists l', i'. split_and!; [|done|done]. apply HA. split; [done|]. by intros [= -> ->].
Qed.

Lemma in_pool_minus m st i a b dr ticks mm s p n :
  bpool_ok m st -> st.(arenas) !! i = Some a -> a.(in_use) = true -> block a.(buddy) p n ->
  (forall q k, block b q k <-> block a.(buddy) q k /\ (q, k) <> (p, n)) ->
  forall q k, in_pool (MkBPool (<[i := MkArena b true dr ticks]> st.(arenas)) mm s) q k <-> in_pool st q k /\ (q, k) <> (p, n).
Proof.
  intros P Hi Hu Hpb Hblk q k. rewrite (in_pool_insert st i (MkArena b true dr ticks)) by (done || by eapply lookup_lt_Some).
  pose proof (block_span _ _ _ _ _ _ P Hi Hu Hpb). cbn. rewrite Hblk. unfold in_pool. split.
  - intros [(_ & H1 & H2)|(j & c & Hne & Hj & Hc & Hcb)]; [split; [by exists i, a|done]|]. split; [by exists j, c|]. intros [= -> ->].
    pose proof (block_span _ _ _ _ _ _ P Hj Hc Hcb). pose proof (slots_apart _ _ _ _ _ _ P Hi Hj ltac:(done) Hu Hc) as Hap.
    unfold apart, arange in Hap. change V8M_BUDDY_MAX_BLOCK with (2 ^ 18) in Hap. cbn in Hap. lia.
  - intros [(j & c & Hj & Hc & Hcb) Hne]. destruct (decide (j = i)) as [->|Hji]; [left|right; by exists j, c].
    rewrite Hi in Hj. by injection Hj as <-.
Qed.

(** No block of the pool meets an arena without blocks. *)
Lemma empty_arena_words m st i a b q k x :
  bpool_ok m st -> st.(arenas) !! i = Some a -> a.(in_use) = true -> b.(arena_base) = a.(buddy).(arena_base) ->
  in_pool st q k -> ~ block a.(buddy) q k -> q <= x < q + k -> ~ in_arena b x.
Proof.
  intros P Hi Hu Hb (j & c & Hj & Hc & Hcb) Hnb Hx. unfold in_arena. rewrite Hb. destruct (decide (j = i)) as [->|Hji].
  - rewrite Hi in Hj. by injection Hj as <-.
  - pose proof (block_span _ _ _ _ _ _ P Hj Hc Hcb). apply (other_arena m st i j a c x P Hi Hj ltac:(done) Hu Hc). unfold in_arena. lia.
Qed.

Lemma bpool_free_ok m cfg st p n :
  bpool_ok m st -> in_pool st p n -> mode_ok m cfg ->
  exists st', v8m_buddy_pool_free cfg st p = (st', true) /\ bpool_ok m st' /\ blocks_kept st st' /\
    (forall q k, in_pool st' q k <-> in_pool st q k /\ (q, k) <> (p, n)).
Proof.
  intros P (i & a & Hi & Hu & l & y & Hal & -> & ->) Hmode. destruct (bo_arena _ _ P i a Hi Hu) as [Ho Hd].
  destruct (locate_block m st i a l y P Hi Hu Hal) as (Hpn & Hfind & Hbs & Hls). set (p := addr a.(buddy) l y) in *.
  unfold v8m_buddy_pool_free. destruct (Z.eqb_spec p NULL); [done|]. rewrite Hfind, (slot_at_some _ _ _ Hi), Hbs.
  destruct (Z.eqb_spec (level_to_size l) 0); [done|].
  destruct (free_in_arena m cfg _ _ l y Ho Hal Hmode) as (b & mm & He & Ho' & Hb & Hq & HA). fold p in He. rewrite He, Hu.
  pose proof (blocks_minus _ _ l y Hb Hal HA) as Hblk. fold p in Hblk.
  assert (Hpb : block a.(buddy) p (level_to_size l)) by (by exists l, y).
  pose proof (fun dr ticks mm s => in_pool_minus m st i a b dr ticks mm s p _ P Hi Hu Hpb Hblk) as Hin.
  assert (Hwords : forall q k x, in_pool st q k -> (q, k) <> (p, level_to_size l) -> q <= x < q + k -> rd mm x = rd st.(bmem) x).
  { eapply (freed_words m st i a b mm p _); try done. intros q k H1 H2. by apply Hblk. }
  assert (Hfr : forall x, ~ in_arena a.(buddy) x -> rd mm x = rd st.(bmem) x).
  { intros x Hx. apply Hq. left. unfold in_arena in *. by rewrite Hb. }
  destruct (v8m_buddy_is_empty b) eqn:Hemp.
  2: { eexists. split; [reflexivity|]. split_and!; [| |apply Hin].
       - apply (update_slot m st i a b mm); try done; [|apply P]. intros Hdr. by destruct (empty_no_block m _ _ l y Ho (Hd Hdr)).
       - intros q k x H1 [_ H2]%Hin Hx. by apply (Hwords q k). }
  destruct (Z.eqb_spec (v8m_config_get cfg V8M_OPT_DEBUG) 0) as [Hdb|Hdb].
  - unfold mode_ok in Hmode. destruct m; [|done]. eexists. split; [reflexivity|].
    destruct (ps_dont_need_law st.(bsource) b.(arena_base) V8M_BUDDY_MAX_BLOCK (proj1 (bo_src _ _ P))) as (Hs & Hsd & Hr).
    assert (Hso : src_with od (ps_dont_need st.(bsource) b.(arena_base) V8M_BUDDY_MAX_BLOCK)) by (split; [done|rewrite Hsd; apply P]). clear Hs Hsd. split_and!; [| |apply Hin].
    + apply (update_slot true st i a b); try done; [by apply merged_cleared|]. intros x Hx. cbn. rewrite rd_clear_out; [by apply Hfr|].
      unfold in_arena in Hx. rewrite Hb. done.
    + intros q k x H1 [_ H2]%Hin Hx. cbn in *. rewrite rd_clear_out; [by apply (Hwords q k)|].
      apply (empty_arena_words true st i a b q k x P Hi Hu Hb H1); [|done]. intros Hcb.
      destruct (proj2 (Hblk q k) (conj Hcb H2)) as (l' & i' & Ha' & _). by destruct (empty_no_block true b mm l' i' Ho' Hemp).
  - eexists. split; [reflexivity|]. split_and!; [| |apply Hin].
    + apply (update_slot m st i a b mm); try done. apply P.
    + intros q k x H1 [_ H2]%Hin Hx. by apply (Hwords q k).
Qed.

(** An address in no block is refused. *)
Lemma bpool_free_unknown m cfg st p :
  bpool_ok m st -> 0 <= p -> (forall q k, in_pool st q k -> ~ q <= p < q + k) -> v8m_buddy_pool_free cfg st p = (st, false).
Proof.
  intros P Hp Hno. unfold v8m_buddy_pool_free. destruct (Z.eqb_spec p NULL); [done|].
  pose proof (find_owning_spec m st p slots P ltac:(intros j; by rewrite slots_in)) as Hf. destruct (find_owning_arena slots st p) as [i|]; [|done].
  destruct Hf as (a & Hi & Hu & Hin). rewrite (slot_at_some _ _ _ Hi). destruct (bo_arena _ _ P i a Hi Hu) as [Ho _].
  destruct (block_size_cases a.(buddy) st.(bmem) p (arena_inv _ _ _ Ho) Hp) as [(l & y & Hal & Hw & _)|[_ ->]]; [|done].
  pose proof Hal as [[Hl _] _]. destruct (Hno (addr a.(buddy) l y) (level_to_size l)); [by exists i, a; split_and!; [..|exists l, y]|].
  by rewrite level_to_size_eq.
Qed.

(** The program writes into a block of its own. *)
Lemma bpool_write m st p n mm : bpool_ok m st -> in_pool st p n -> (forall x, ~ p <= x < p + n -> rd mm x = rd st.(bmem) x) -> bpool_ok m (set_bmem st mm).
Proof.
  intros P (i & a & Hi & Hu & Hb) Hm. pose proof P as [L A D S R]. constructor; [done| |done|done|done]. intros j c Hj Hc. cbn in Hj. destruct (A j c Hj Hc) as [Ho Hd]. split; [|done].
  pose proof (block_span _ _ _ _ _ _ P Hi Hu Hb) as Hsp. destruct (decide (i = j)) as [<-|Hne].
  - rewrite Hi in Hj. injection Hj as <-. destruct Hb as (l & y & [Hv Ha] & -> & ->). rewrite level_to_size_eq in Hm by (by destruct Hv).
    assert (Hq : forall x, ~ off_limits a.(buddy) x -> rd mm x = rd st.(bmem) x) by (intros x Hx; apply Hm; intros Hr; apply Hx; right; by exists l, y).
    unfold arena_ok in *. destruct m; destruct Ho as (fl & Ho); exists fl; [destruct Ho as [Ho Hco]; split; [|done]|]; by eapply state_write.
  - eapply arena_frame; [exact Ho|]. intros x Hx. apply Hm. intros Hr. apply (other_arena m st i j a c x P Hi Hj Hne Hu Hc Hx). unfold in_arena. lia.
Qed.

Lemma bpool_block_size m st p n : bpool_ok m st -> in_pool st p n -> p <> NULL /\ v8m_buddy_pool_block_size st p = n /\ n <> 0.
Proof.
  intros P (i & a & Hi & Hu & l & y & Hal & -> & ->). destruct (locate_block m st i a l y P Hi Hu Hal) as (Hn & Hf & Hs & H0).
  unfold v8m_buddy_pool_block_size. rewrite (proj2 (Z.eqb_neq _ _) Hn), Hf, (slot_at_some _ _ _ Hi). done.
Qed.

(** ** The idle sweep *)

Definition arenas_held (st : buddy_pool) : Z := Z.of_nat (length (omap slot_range st.(arenas))).

Definition parked (a : v8m_buddy_pool_arena) : Prop := a.(in_use) = true /\ a.(drained) = true.

Lemma held_insert st i a x mm s :
  st.(arenas) !! i = Some a ->
  arenas_held (MkBPool (<[i := x]> st.(arenas)) mm s) = arenas_held st - (if a.(in_use) then 1 else 0) + (if x.(in_use) then 1 else 0).
Proof.
  intros Hi. unfold arenas_held. cbn. destruct (insert_perm st.(arenas) i a x Hi) as (l' & Hl1 & Hl2). rewrite Hl2, Hl1.
  assert (Ho : forall c, Z.of_nat (length (omap slot_range (c :: l'))) = (if c.(in_use) then 1 else 0) + Z.of_nat (length (omap slot_range l'))).
  { intros c. cbn. unfold slot_range at 1. destruct (in_use c); cbn [length]; lia. }
  rewrite !Ho. lia.
Qed.

(** One slot of the sweep; [ticks] is its new age. *)
Lemma sweep_release m st i a :
  bpool_ok m st -> st.(arenas) !! i = Some a -> parked a ->
  let st1 := set_slot (free_arena st a.(buddy).(arena_base)) i (MkArena a.(buddy) false false 0) in
  bpool_ok m st1 /\ same_blocks st st1 /\ arenas_held st1 = arenas_held st - 1.
Proof.
  intros P Hi [Hu Hd] st1. destruct (bo_arena _ _ P i a Hi Hu) as [Ho He]. specialize (He Hd).
  assert (Hnb : forall q k, ~ block a.(buddy) q k) by (intros q k (l & y & Hal & _); by apply (empty_no_block m _ _ l y Ho He)).
  split_and!; [by apply drop_slot| |unfold st1, set_slot; rewrite (held_insert (free_arena st _) i a) by done; rewrite Hu; cbn; unfold arenas_held; cbn; lia]. split.
  - intros p n. unfold st1, set_slot. rewrite (in_pool_insert (free_arena st a.(buddy).(arena_base)) i (MkArena a.(buddy) false false 0)) by (done || by eapply lookup_lt_Some). cbn. split.
    + intros [[? _]|(j & c & _ & Hc)]; [done|by exists j, c].
    + intros (j & c & Hj & Hc & Hb). right. exists j, c. split_and!; try done. intros ->. rewrite Hi in Hj. injection Hj as <-. by apply (Hnb p n).
  - intros q k x Hq _ Hx. cbn. apply rd_clear_out. exact (empty_arena_words m st i a a.(buddy) q k x P Hi Hu eq_refl Hq (Hnb q k) Hx).
Qed.

Lemma sweep_tick m st i a ticks :
  bpool_ok m st -> st.(arenas) !! i = Some a -> parked a ->
  let st1 := set_slot st i (MkArena a.(buddy) true true ticks) in
  bpool_ok m st1 /\ same_blocks st st1 /\ arenas_held st1 = arenas_held st.
Proof.
  intros P Hi [Hu Hd] st1. destruct (bo_arena _ _ P i a Hi Hu) as [Ho He]. split_and!.
  - apply (update_slot m st i a); try done; auto; apply P.
  - apply (rewrite_slot m st i a); done || apply quiet_refl.
  - unfold st1, set_slot. rewrite (held_insert st i a) by done. rewrite Hu. cbn. lia.
Qed.

Lemma sweep_spec m max_idle idx st released :
  bpool_ok m st -> (forall i, i ∈ idx -> (i < 256)%nat) -> NoDup idx ->
  let '(st', released') := sweep_slots idx st max_idle released in
  bpool_ok m st' /\ same_blocks st st' /\ arenas_held st' + released' = arenas_held st + released /\
  (forall i, i ∉ idx -> st'.(arenas) !! i = st.(arenas) !! i) /\
  (forall i a, i ∈ idx -> st'.(arenas) !! i = Some a -> parked a -> a.(idle_ticks) < max_idle).
Proof.
  revert st released. induction idx as [|i idx IH]; intros st released P Hidx Hnd; cbn [sweep_slots].
  { split_and!; [done|apply same_blocks_refl|done|done|by intros i a ?%not_elem_of_nil]. }
  apply NoDup_cons in Hnd as [Hni Hnd]. assert (Hidx' : forall j, j ∈ idx -> (j < 256)%nat) by (intros j Hj; apply Hidx; by right).
  destruct (slot_lookup m st i P ltac:(apply Hidx; left)) as [a Ha]. rewrite (slot_at_some _ _ _ Ha).
  assert (Hstep : forall st1 rel, bpool_ok m st1 -> same_blocks st st1 -> arenas_held st1 + rel = arenas_held st + released ->
    (forall j, j <> i -> st1.(arenas) !! j = st.(arenas) !! j) -> (forall c, st1.(arenas) !! i = Some c -> parked c -> c.(idle_ticks) < max_idle) ->
    let '(st', released') := sweep_slots idx st1 max_idle rel in
    bpool_ok m st' /\ same_blocks st st' /\ arenas_held st' + released' = arenas_held st + released /\
    (forall j, j ∉ i :: idx -> st'.(arenas) !! j = st.(arenas) !! j) /\
    (forall j c, j ∈ i :: idx -> st'.(arenas) !! j = Some c -> parked c -> c.(idle_ticks) < max_idle)).
  { intros st1 rel P1 Hs1 Hh1 Ho1 Hi1. specialize (IH st1 rel P1 Hidx' Hnd). destruct (sweep_slots idx st1 max_idle rel) as [st' released'].
    destruct IH as (P' & Hs & Hh & Ho & Hi). split_and!; [done|by eapply same_blocks_trans|lia| |].
    - intros j [Hj1 Hj2]%not_elem_of_cons. rewrite Ho by done. by apply Ho1.
    - intros j c [->|Hj]%elem_of_cons Hc Hp; [|by eapply Hi]. rewrite Ho in Hc by done. by apply Hi1. }
  destruct (in_use a) eqn:Hu; [destruct (drained a) eqn:Hd|]; cbn [orb negb].
  2,3: apply (Hstep st released P (same_blocks_refl st)); [done|done|]; intros c Hc [H1 H2]; congruence.
  set (age := if idle_ticks a <? UINT32_MAX then idle_ticks a + 1 else idle_ticks a). destruct (Z.leb_spec max_idle age) as [Hle|Hgt].
  - destruct (sweep_release m st i a P Ha (conj Hu Hd)) as (P1 & Hs1 & Hh1). apply Hstep; [done|done|lia| |].
    + intros j Hj. cbn. by rewrite list_lookup_insert_ne.
    + intros c Hc. cbn in Hc. rewrite list_lookup_insert_eq in Hc by (by eapply lookup_lt_Some). injection Hc as <-. by intros [? _].
  - destruct (sweep_tick m st i a age P Ha (conj Hu Hd)) as (P1 & Hs1 & Hh1). apply Hstep; [exact P1|exact Hs1|lia| |].
    + intros j Hj. cbn. by rewrite list_lookup_insert_ne.
    + intros c Hc. cbn in Hc. rewrite list_lookup_insert_eq in Hc by (by eapply lookup_lt_Some). by injection Hc as <-.
Qed.

(** Only arenas younger than the limit stay parked, whatever the state. *)
Lemma sweep_else max_idle idx : forall st released i, i ∉ idx -> (sweep_slots idx st max_idle released).1.(arenas) !! i = st.(arenas) !! i.
Proof.
  induction idx as [|j idx IH]; intros st released i Hi; cbn [sweep_slots]; [done|]. apply not_elem_of_cons in Hi as [Hj Hi].
  destruct (_ || _); [by apply IH|]. cbn zeta. destruct (max_idle <=? _); rewrite IH by done; cbn; by rewrite list_lookup_insert_ne.
Qed.
Lemma sweep_young max_idle idx : forall st released i a, i ∈ idx -> (sweep_slots idx st max_idle released).1.(arenas) !! i = Some a -> parked a -> a.(idle_ticks) < max_idle.
Proof.
  induction idx as [|j idx IH]; intros st released i a Hi; [by apply not_elem_of_nil in Hi|]. destruct (decide (i ∈ idx)) as [Hin|Hni].
  { cbn [sweep_slots]. destruct (_ || _); [by apply IH|]. cbn zeta. destruct (max_idle <=? _); by apply IH. }
  apply elem_of_cons in Hi as [->|]; [|done]. cbn [sweep_slots]. cbn zeta. destruct (in_use (slot_at st j) && drained (slot_at st j)) eqn:Hp.
  - apply andb_true_iff in Hp as [-> ->]. cbn [negb orb]. set (age := if _ <? _ then _ else _). destruct (Z.leb_spec max_idle age) as [|Hlt]; rewrite sweep_else by done; cbn.
    + intros [(_ & <- & _)|[? _]]%list_lookup_insert_Some [Hu _]; done.
    + intros [(_ & <- & _)|[? _]]%list_lookup_insert_Some _; done.
  - rewrite <- negb_andb, Hp. cbn [negb]. rewrite sweep_else by done. intros Ha [Hu Hd]. by rewrite (slot_at_some _ _ _ Ha), Hu, Hd in Hp.
Qed.
Lemma sweep_idle_young st max_idle i a : length st.(arenas) = 256%nat ->
  (v8m_buddy_pool_sweep_idle st max_idle).1.(arenas) !! i = Some a -> parked a -> a.(idle_ticks) < max_idle.
Proof.
  unfold v8m_buddy_pool_sweep_idle. intros Hl Ha. assert (Hi : i ∈ slots -> parked a -> a.(idle_ticks) < max_idle) by (intros Hi; exact (sweep_young max_idle slots st 0 i a Hi Ha)).
  destruct (decide (i < 256)%nat) as [Hlt|Hge]; [apply Hi; by apply slots_in|]. assert (Hn : i ∉ slots) by (rewrite slots_in; done).
  rewrite (sweep_else max_idle slots st 0 i Hn) in Ha. apply lookup_lt_Some in Ha. rewrite Hl in Ha. lia.
Qed.

(** ** The claims *)

(** C22: [v8m_buddy_pool_alloc] always returns and keeps the pool invariant.  It
    hands out a block of the smallest fitting size that meets no other block, and
    leaves the words of all blocks in use alone.  It fails only for a size of 0, a
    size above 256 KiB, or when no arena has a fitting block and no arena can be
    had; it then changes no block. *)
Theorem v8m_buddy_pool_alloc_spec m cfg st size :
  bpool_ok m st -> 0 <= size ->
  exists st' obj, v8m_buddy_pool_alloc cfg st size = Some (st', obj) /\
    ((obj = NULL /\ bpool_ok m st' /\ same_blocks st st' /\ (size = 0 \/ V8M_BUDDY_MAX_BLOCK < size \/ bexhausted st size)) \/
     bserved m st st' obj size).
Proof. apply bpool_alloc_ok. Qed.

(** C23: [v8m_buddy_pool_free] of a block in use, with immediate coalescing or with
    the debug option on, removes exactly that block, keeps the pool invariant and
    the words of the other blocks; an address inside no block is refused with
    nothing changed. *)
Theorem v8m_buddy_pool_free_spec m cfg st p :
  bpool_ok m st -> mode_ok m cfg -> 0 <= p ->
  (forall n, in_pool st p n ->
     exists st', v8m_buddy_pool_free cfg st p = (st', true) /\ bpool_ok m st' /\ blocks_kept st st' /\
       (forall q k, in_pool st' q k <-> in_pool st q k /\ (q, k) <> (p, n))) /\
  ((forall q k, in_pool st q k -> ~ q <= p < q + k) -> v8m_buddy_pool_free cfg st p = (st, false)).
Proof.
  intros P Hm Hp. split; [intros n Hn; by apply bpool_free_ok|by apply (bpool_free_unknown m)].
Qed.

(** The idle sweep gives back only arenas without blocks: it keeps the pool
    invariant and every block, counts the arenas it gave back, and leaves parked
    only arenas younger than the limit. *)
Theorem v8m_buddy_pool_sweep_spec m st max_idle :
  bpool_ok m st ->
  let '(st', released) := v8m_buddy_pool_sweep_idle st max_idle in
  bpool_ok m st' /\ same_blocks st st' /\ arenas_held st' + released = arenas_held st /\
  (forall i a, st'.(arenas) !! i = Some a -> parked a -> a.(idle_ticks) < max_idle).
Proof.
  intros P. unfold v8m_buddy_pool_sweep_idle.
  pose proof (sweep_spec m max_idle slots st 0 P ltac:(intros i; by rewrite slots_in) ltac:(apply NoDup_seq)) as Hs.
  destruct (sweep_slots slots st max_idle 0) as [st' released]. destruct Hs as (P' & Hb & Hh & _ & Hi). split_and!; [done|done|lia|].
  intros i a Ha. apply (Hi i); [|done]. apply slots_in. rewrite <- (bo_len _ _ P'). by eapply lookup_lt_Some.
Qed.

(** The state and the block of a successful allocation. *)
Definition bstate_of (st : buddy_pool) (r : option (buddy_pool * Z)) : buddy_pool := match r with Some (st, _) => st | None => st end.
Definition bobj_of (r : option (buddy_pool * Z)) : Z := match r with Some (_, p) => p | None => NULL end.

Lemma bpool_alloc_result m cfg st size d r :
  bpool_ok m st -> 0 <= size -> v8m_buddy_pool_alloc cfg st size = r -> bobj_of r <> NULL ->
  bpool_ok m (bstate_of d r) /\ in_pool (bstate_of d r) (bobj_of r) (level_to_size (size_to_level size)).
Proof.
  intros P Hs <- Hn. destruct (bpool_alloc_ok m cfg st size P Hs) as (st' & obj & He & Hc). rewrite He in *. cbn in *.
  destruct Hc as [(-> & _)|(_ & P' & _ & _ & _ & Hin & _)]; [done|]. split; [done|]. apply Hin. by right.
Qed.

Lemma bpool_free_result m cfg st p n : bpool_ok m st -> in_pool st p n -> mode_ok m cfg -> bpool_ok m (v8m_buddy_pool_free cfg st p).1.
Proof. intros P Hin Hm. by destruct (bpool_free_ok m cfg st p n P Hin Hm) as (st' & -> & P' & _). Qed.

End Owner.

(** ** A pool on the example machine *)

#[local] Existing Instance Os.log_os_laws.

Definition ex_cfg : config := v8m_config_init (fun _ => None).
Definition ex_bpool : @buddy_pool (@heap_source Os.log_os) := MkBPool (replicate 256 arena0) ∅ NumaPool.ex_src.

Lemma ex_bpool_ok : bpool_ok [] [] true ex_bpool.
Proof.
  constructor.
  - done.
  - intros i a Ha%lookup_replicate. destruct Ha as [-> _]. done.
  - intros i a Ha%lookup_replicate. destruct Ha as [-> _]. done.
  - split; [apply NumaPool.ex_src_inv|done].
  - cbn. done.
Qed.

Lemma v8m_buddy_pool_alloc_spec_witness :
  bobj_of (v8m_buddy_pool_alloc ex_cfg ex_bpool 5000) = 2 ^ 30 /\
  exists st' obj, v8m_buddy_pool_alloc ex_cfg ex_bpool 5000 = Some (st', obj) /\
    ((obj = NULL /\ bpool_ok [] [] true st' /\ same_blocks ex_bpool st' /\ (5000 = 0 \/ V8M_BUDDY_MAX_BLOCK < 5000 \/ bexhausted ex_bpool 5000)) \/
     bserved [] [] true ex_bpool st' obj 5000).
Proof. split; [vm_compute; reflexivity|]. apply (v8m_buddy_pool_alloc_spec [] [] true ex_cfg ex_bpool 5000 ex_bpool_ok). lia. Defined.

(** One block of 8 KiB in use. *)
Definition ex_balloc := v8m_buddy_pool_alloc ex_cfg ex_bpool 5000.
Lemma ex_balloc_eq : v8m_buddy_pool_alloc ex_cfg ex_bpool 5000 = ex_balloc.
Proof. unfold ex_balloc. reflexivity. Qed.
Definition ex_bused : buddy_pool := bstate_of ex_bpool ex_balloc.

Lemma ex_bused_ok : bpool_ok [] [] true ex_bused /\ in_pool ex_bused (2 ^ 30) 8192.
Proof.
  assert (Ho : bobj_of ex_balloc = 2 ^ 30) by (vm_compute; reflexivity).
  assert (Hn : bobj_of ex_balloc <> NULL) by (rewrite Ho; done).
  pose proof (bpool_alloc_result [] [] true ex_cfg ex_bpool 5000 ex_bpool ex_balloc ex_bpool_ok ltac:(lia) ex_balloc_eq Hn) as Hr.
  rewrite Ho in Hr. exact Hr.
Qed.

Lemma v8m_buddy_pool_free_spec_witness :
  exists st', v8m_buddy_pool_free ex_cfg ex_bused (2 ^ 30) = (st', true) /\ bpool_ok [] [] true st' /\ blocks_kept ex_bused st' /\
    (forall q k, in_pool st' q k <-> in_pool ex_bused q k /\ (q, k) <> (2 ^ 30, 8192)).
Proof.
  destruct ex_bused_ok as [P Hin].
  apply (proj1 (v8m_buddy_pool_free_spec [] [] true ex_cfg ex_bused (2 ^ 30) P ltac:(vm_compute; reflexivity) ltac:(lia)) 8192 Hin).
Defined.

(** The block freed: its arena is parked, and a sweep with limit 1 gives it back. *)
Definition ex_bfreed : buddy_pool := (v8m_buddy_pool_free ex_cfg ex_bused (2 ^ 30)).1.
Lemma ex_bfreed_ok : bpool_ok [] [] true ex_bfreed.
Proof.
  destruct ex_bused_ok as [P Hin]. exact (bpool_free_result [] [] true ex_cfg ex_bused (2 ^ 30) 8192 P Hin ltac:(vm_compute; reflexivity)).
Qed.

Lemma v8m_buddy_pool_sweep_spec_witness :
  (v8m_buddy_pool_sweep_idle ex_bfreed 1).2 = 1 /\
  let '(st', released) := v8m_buddy_pool_sweep_idle ex_bfreed 1 in
  bpool_ok [] [] true st' /\ same_blocks ex_bfreed st' /\ arenas_held st' + released = arenas_held ex_bfreed /\
  (forall i a, st'.(arenas) !! i = Some a -> parked a -> a.(idle_ticks) < 1).
Proof. split; [vm_compute; reflexivity|]. apply (v8m_buddy_pool_sweep_spec [] [] true ex_bfreed 1 ex_bfreed_ok). Defined.

(** ** Deferred coalescing loses blocks

    With deferred coalescing on and the debug option off, freeing the last block
    of an arena drops the contents of the arena, and with them the links of the
    free lists: after two blocks of 128 KiB were freed, only one of them can be
    handed out again, and the next request takes a second arena. *)

Definition ex_deferred : config := (v8m_config_set ex_cfg V8M_OPT_DEFERRED_COALESCE 1).1.
Definition bseq_alloc (r : @buddy_pool (@heap_source Os.log_os) * list Z) (size : Z) : @buddy_pool (@heap_source Os.log_os) * list Z :=
  match v8m_buddy_pool_alloc ex_deferred r.1 size with Some (st, p) => (st, r.2 ++ [p]) | None => r end.
Definition ex_lossy : @buddy_pool (@heap_source Os.log_os) * list Z :=
  let r := bseq_alloc (bseq_alloc (ex_bpool, []) 131072) 131072 in
  let st := (v8m_buddy_pool_free ex_deferred r.1 (2 ^ 30)).1 in
  let st := (v8m_buddy_pool_free ex_deferred st (2 ^ 30 + 131072)).1 in
  bseq_alloc (bseq_alloc (st, []) 131072) 131072.

Lemma deferred_drain_loses_block :
  arenas_held ex_lossy.1 = 2 /\ ex_lossy.2 = [2 ^ 30 + 131072; 2 ^ 31].
Proof. vm_compute. done. Qed.

(** An address inside a block is accepted, against the interface's comment. *)
Lemma interior_free_accepted : (v8m_buddy_pool_free ex_cfg ex_bused (2 ^ 30 + 4096)).2 = true.
Proof. vm_compute. reflexivity. Qed.

End BuddyPoolSpec.
