(* ===== verification/Large.v ===== *)
(** Large and huge allocations: [src/v8m_large.h] and [src/v8m_large.c].

    One region of the page source per object, a header at its start, the object
    [header_offset] bytes further on.  Freed regions are kept in a cache of eight.
    With the debug option a guard page ends the region and a red zone of canary
    bytes follows the object.  The state holds the counters, the cache, the headers,
    the bytes of the objects, the guard pages and the source; the cache lock makes
    each access to the cache a single step.  [None] is the [abort()] of a damaged red
    zone. *)

From S2P Require Import Prelude SizeClass Page HugeSlab Config PageSource.
Import SizeClass Page Config PageSource.

Module Large.

Definition V8M_LARGE_REDZONE_BYTE : Z := 205.
Definition V8M_LARGE_REDZONE_MAX_BYTES : Z := 64.
Definition V8M_LARGE_HUGE_TAG : Z := UINT16_MAX.
Definition V8M_LARGE_HUGE_ALIGN : Z := HugeSlab.V8M_HUGE_PAGE_SIZE.
Definition V8M_LARGE_GIGANTIC_ALIGN : Z := 1024 * 1024 * 1024.
Definition V8M_LARGE_CACHE_CAP : Z := 8.

(** [struct v8m_large_page_meta]: the common header and the three fields after it. *)
Record v8m_large_page_meta := MkLarge {
  common : page_meta;
  mmap_size : Z;
  guard_bytes : Z;
  requested_size : Z
}.
Definition zero_large : v8m_large_page_meta := MkLarge zero_meta 0 0 0.

Record v8m_large_stats := MkLStats {
  large_alloc_count : Z; large_free_count : Z; large_bytes_in_use : Z;
  huge_alloc_count : Z; huge_free_count : Z; huge_bytes_in_use : Z
}.

Definition round_up_pow2 (value multiple : Z) : Z := round_up_mask value multiple.

Section Alloc.
Context `{PageSource}.

Record large := MkL {
  l_stats : v8m_large_stats;
  g_large_cache : list (Z * Z);
  l_metas : gmap Z v8m_large_page_meta;
  l_bytes : mem;
  l_guards : gmap Z Z;
  l_source : src
}.

Definition set_stats (st : large) v : large := MkL v st.(g_large_cache) st.(l_metas) st.(l_bytes) st.(l_guards) st.(l_source).
Definition set_cache (st : large) v : large := MkL st.(l_stats) v st.(l_metas) st.(l_bytes) st.(l_guards) st.(l_source).
Definition set_metas (st : large) v : large := MkL st.(l_stats) st.(g_large_cache) v st.(l_bytes) st.(l_guards) st.(l_source).
Definition set_bytes (st : large) v : large := MkL st.(l_stats) st.(g_large_cache) st.(l_metas) v st.(l_guards) st.(l_source).
Definition set_guards (st : large) v : large := MkL st.(l_stats) st.(g_large_cache) st.(l_metas) st.(l_bytes) v st.(l_source).
Definition set_lsource (st : large) v : large := MkL st.(l_stats) st.(g_large_cache) st.(l_metas) st.(l_bytes) st.(l_guards) v.

Definition lmeta (st : large) (region : Z) : v8m_large_page_meta := default zero_large (st.(l_metas) !! region).
Definition set_lmeta (st : large) (region : Z) (m : v8m_large_page_meta) : large := set_metas st (<[region := m]> st.(l_metas)).

(** [v8m_page_heap_free(region, bytes)]: header, bytes and guard are gone. *)
Definition heap_free (st : large) (region bytes : Z) : large :=
  MkL st.(l_stats) st.(g_large_cache) (delete region st.(l_metas)) (clear_range st.(l_bytes) region bytes)
    (delete region st.(l_guards)) (ps_free st.(l_source) region bytes).

(** ** The red zone *)

Definition large_redzone_span (m : v8m_large_page_meta) (header_offset : Z) : Z :=
  let accessible := u64 (u64 (m.(mmap_size) - header_offset) - m.(guard_bytes)) in
  if accessible <=? m.(requested_size) then 0
  else
    let tail := u64 (accessible - m.(requested_size)) in
    if V8M_LARGE_REDZONE_MAX_BYTES <? tail then V8M_LARGE_REDZONE_MAX_BYTES else tail.

Definition memset (bytes : mem) (p c n : Z) : mem := foldl (fun bs i => wr bs (p + i) c) bytes (seqZ 0 n).

Definition large_fill_redzone (bytes : mem) (user_ptr : Z) (m : v8m_large_page_meta) (header_offset : Z) : mem :=
  let span := large_redzone_span m header_offset in
  if span =? 0 then bytes else memset bytes (user_ptr + m.(requested_size)) V8M_LARGE_REDZONE_BYTE span.

(** Whether the check passes; the C code aborts when it does not. *)
Definition large_check_redzone (bytes : mem) (user_ptr : Z) (m : v8m_large_page_meta) (header_offset : Z) : bool :=
  forallb (fun i => rd bytes (user_ptr + m.(requested_size) + i) =? V8M_LARGE_REDZONE_BYTE)
    (seqZ 0 (large_redzone_span m header_offset)).

(** ** The cache *)

(** The last entry takes the place of the one removed. *)
Definition large_cache_take (st : large) (size : Z) : large * Z :=
  match list_find (fun e : Z * Z => e.2 = size) st.(g_large_cache) with
  | None => (st, NULL)
  | Some (i, e) =>
      let rest := take (length st.(g_large_cache) - 1) st.(g_large_cache) in
      (set_cache st (if (i <? length rest)%nat then <[i := default (0, 0) (last st.(g_large_cache))]> rest else rest), e.1)
  end.

Definition v8m_large_cache_drain (st : large) : large * Z :=
  let snapshot := st.(g_large_cache) in
  (foldl (fun st e => heap_free st e.1 e.2) (set_cache st []) snapshot, Z.of_nat (length snapshot)).

(** The evicted region and [*out_evicted_size]. *)
Definition large_cache_put (st : large) (region size : Z) : large * Z * Z :=
  let '(cache, evicted, evicted_size) :=
    if Z.of_nat (length st.(g_large_cache)) =? V8M_LARGE_CACHE_CAP then
      match st.(g_large_cache) with
      | e :: rest => (rest, e.1, e.2)
      | [] => ([], NULL, 0)
      end
    else (st.(g_large_cache), NULL, 0) in
  (set_cache st (cache ++ [(region, size)]), evicted, evicted_size).

(** ** Allocation *)

Definition add_large (s : v8m_large_stats) (n : Z) : v8m_large_stats :=
  MkLStats (u64 (s.(large_alloc_count) + 1)) s.(large_free_count) (u64 (s.(large_bytes_in_use) + n))
    s.(huge_alloc_count) s.(huge_free_count) s.(huge_bytes_in_use).
Definition add_huge (s : v8m_large_stats) (n : Z) : v8m_large_stats :=
  MkLStats s.(large_alloc_count) s.(large_free_count) s.(large_bytes_in_use)
    (u64 (s.(huge_alloc_count) + 1)) s.(huge_free_count) (u64 (s.(huge_bytes_in_use) + n)).
Definition sub_large (s : v8m_large_stats) (n : Z) : v8m_large_stats :=
  MkLStats s.(large_alloc_count) (u64 (s.(large_free_count) + 1)) (u64 (s.(large_bytes_in_use) - n))
    s.(huge_alloc_count) s.(huge_free_count) s.(huge_bytes_in_use).
Definition sub_huge (s : v8m_large_stats) (n : Z) : v8m_large_stats :=
  MkLStats s.(large_alloc_count) s.(large_free_count) s.(large_bytes_in_use)
    s.(huge_alloc_count) (u64 (s.(huge_free_count) + 1)) (u64 (s.(huge_bytes_in_use) - n)).

(** The header the allocation writes.  The fields after [next] are not part of this
    header and stay zero. *)
Definition new_large (cls owner_thread size guard requested : Z) : v8m_large_page_meta :=
  MkLarge (MkMeta V8M_MAGIC (if cls =? V8M_CLASS_HUGE then V8M_LARGE_HUGE_TAG else u16 cls) 0 1 1 owner_thread NULL NULL 0 0 0 [])
    size guard requested.

(** [mprotect_rc] is what [mprotect] returns for the guard page. *)
Definition large_alloc_with_offset (cfg : config) (mprotect_rc : Z) (st : large) (size header_offset pheap_alignment owner_thread : Z)
  : large * Z :=
  if u64 (u64 (SIZE_MAX - header_offset) - pheap_alignment) <? size then (st, NULL)
  else
    let total := u64 (header_offset + size) in
    let msize := round_up_pow2 total pheap_alignment in
    let guard_on := negb (v8m_config_get cfg V8M_OPT_DEBUG =? 0) in
    if guard_on && (SIZE_MAX - V8M_PAGE_SIZE <? msize) then (st, NULL)
    else
      let guard := if guard_on then V8M_PAGE_SIZE else 0 in
      let msize := if guard_on then u64 (msize + guard) else msize in
      let '(st, region) := if negb guard_on then large_cache_take st msize else (st, NULL) in
      let '(st, region) :=
        if region =? NULL then
          let '(s, region) := ps_alloc st.(l_source) msize pheap_alignment in (set_lsource st s, region)
        else (st, region) in
      if region =? NULL then (st, NULL)
      else if guard_on && negb (mprotect_rc =? 0) then (heap_free st region msize, NULL)
      else
        let st := if guard_on then set_guards st (<[region := region + msize - guard]> st.(l_guards)) else st in
        let cls := v8m_size_class size in
        let m := new_large cls owner_thread msize guard (if guard_on then size else 0) in
        let st := set_lmeta st region m in
        let st := if guard_on then set_bytes st (large_fill_redzone st.(l_bytes) (region + header_offset) m header_offset) else st in
        let st := set_stats st (if cls =? V8M_CLASS_HUGE then add_huge st.(l_stats) msize else add_large st.(l_stats) msize) in
        (st, region + header_offset).

Definition v8m_large_alloc (cfg : config) (mprotect_rc : Z) (st : large) (size owner_thread : Z) : large * Z :=
  if size =? 0 then (st, NULL)
  else
    let pheap_alignment :=
      if negb (v8m_config_get cfg V8M_OPT_HUGE_PAGES =? 0) then
        if V8M_LARGE_GIGANTIC_ALIGN <=? size then V8M_LARGE_GIGANTIC_ALIGN
        else if V8M_LARGE_MAX_SIZE <? size then V8M_LARGE_HUGE_ALIGN else V8M_PAGE_SIZE
      else V8M_PAGE_SIZE in
    large_alloc_with_offset cfg mprotect_rc st size V8M_SLAB_HEADER_SIZE pheap_alignment owner_thread.

Definition v8m_large_alloc_aligned (cfg : config) (mprotect_rc : Z) (st : large) (size alignment owner_thread : Z) : large * Z :=
  if size =? 0 then (st, NULL)
  else if (alignment =? 0) || (alignment <=? V8M_SLAB_HEADER_SIZE) then
    large_alloc_with_offset cfg mprotect_rc st size V8M_SLAB_HEADER_SIZE V8M_PAGE_SIZE owner_thread
  else if V8M_PAGE_SIZE <=? alignment then (st, NULL)
  else large_alloc_with_offset cfg mprotect_rc st size alignment V8M_PAGE_SIZE owner_thread.

(** ** Release *)

Definition v8m_large_free (st : large) (obj : Z) : option large :=
  if obj =? NULL then Some st
  else
    let region := v8m_ptr_to_meta obj in
    let m := lmeta st region in
    let was_huge := m.(common).(size_class) =? V8M_LARGE_HUGE_TAG in
    let header_offset := Z.land obj (V8M_PAGE_SIZE - 1) in
    if negb (m.(guard_bytes) =? 0) && negb (large_check_redzone st.(l_bytes) obj m header_offset) then None
    else
      let c := m.(common) in
      let c := MkMeta 0 c.(size_class) c.(object_size) c.(capacity) 0 c.(owner_thread) c.(free_list_head) c.(next)
                 c.(arena_id) c.(owner_cpu) c.(search_hint) c.(bitmap) in
      let st := set_lmeta st region (MkLarge c m.(mmap_size) m.(guard_bytes) m.(requested_size)) in
      let st := set_stats st (if was_huge then sub_huge st.(l_stats) m.(mmap_size) else sub_large st.(l_stats) m.(mmap_size)) in
      if m.(guard_bytes) =? 0 then
        let '(st, evicted, evicted_size) := large_cache_put st region m.(mmap_size) in
        Some (if negb (evicted =? NULL) then heap_free st evicted evicted_size else st)
      else Some (heap_free st region m.(mmap_size)).

Definition v8m_large_usable_size (st : large) (obj : Z) : Z :=
  if obj =? NULL then 0
  else
    let m := lmeta st (v8m_ptr_to_meta obj) in
    let header_offset := Z.land obj (V8M_PAGE_SIZE - 1) in
    u64 (u64 (m.(mmap_size) - header_offset) - m.(guard_bytes)).

Definition v8m_large_get_stats (st : large) : v8m_large_stats := st.(l_stats).

End Alloc.
End Large.
