(* ===== verification/LargeSpec.v ===== *)
(** What the large-object allocator promises ([Large]): its invariant, the effect of
    allocation and release on the objects in use, the byte accounting and the red
    zone. *)

From S2P Require Import Prelude SizeClass Page HugeSlab Config Os PageHeapSpec PageSource NumaPool Large.
Import SizeClass Page Config PageSource Large.

Module LargeSpec.

Definition is_huge (m : v8m_large_page_meta) : bool := m.(common).(size_class) =? V8M_LARGE_HUGE_TAG.
Definition crange (e : Z * Z) : Z * Z := (e.1, e.1 + e.2).

(** Removing an entry by moving the last one into its place. *)
Lemma swap_remove_perm {A} (l : list A) i e d :
  l !! i = Some e ->
  let rest := take (length l - 1) l in
  e :: (if (i <? length rest)%nat then <[i := default d (last l)]> rest else rest) ≡ₚ l.
Proof.
  intros Hi. destruct (last l) as [z|] eqn:Hl; [|by apply last_None in Hl as ->]. apply last_Some in Hl as [l0 ->].
  cbn zeta. rewrite length_app. cbn [length]. replace (length l0 + 1 - 1)%nat with (length l0) by lia. rewrite take_app_length. change (default d (Some z)) with z.
  destruct (Nat.ltb_spec i (length l0)).
  - rewrite lookup_app_l in Hi by done. destruct (insert_perm l0 i e z Hi) as (l' & H1 & H2).
    etransitivity; [apply perm_skip, H2|]. etransitivity; [apply perm_swap|].
    etransitivity; [apply perm_skip; symmetry; exact H1|apply Permutation_cons_append].
  - pose proof (lookup_lt_Some _ _ _ Hi) as Hlt. rewrite length_app in Hlt. cbn in Hlt. assert (i = length l0) as -> by lia.
    rewrite list_lookup_middle in Hi by done. injection Hi as <-. by rewrite <- Permutation_cons_append.
Qed.

(** Counters wrap at 64 bits. *)
Lemma u64_add_bytes n h : u64 (u64 h + n) = u64 (n + h).
Proof. unfold u64. rewrite Zplus_mod_idemp_l. f_equal. lia. Qed.
Lemma u64_sub_bytes n h : u64 (u64 (n + h) - n) = u64 h.
Proof. unfold u64. rewrite Zminus_mod_idemp_l. f_equal. lia. Qed.
Lemma u64_add_count a f n : u64 (a - f) = u64 n -> u64 (u64 (a + 1) - f) = u64 (1 + n).
Proof.
  unfold u64. intros He. rewrite Zminus_mod_idemp_l. replace (a + 1 - f) with (1 + (a - f)) by lia.
  by rewrite <- Zplus_mod_idemp_r, He, Zplus_mod_idemp_r.
Qed.
Lemma u64_sub_count a f n : u64 (a - f) = u64 (1 + n) -> u64 (a - u64 (f + 1)) = u64 n.
Proof.
  unfold u64. intros He. rewrite Zminus_mod_idemp_r. replace (a - (f + 1)) with ((a - f) - 1) by lia.
  rewrite <- Zminus_mod_idemp_l, He, Zminus_mod_idemp_l. f_equal. lia.
Qed.

Section Owner.
Context `{PS : PageSource} `{PSL : !PageSourceLaws} (od : list (Z * Z)).

Definition region_of (o : Z) : Z := v8m_ptr_to_meta o.
Definition ometa (st : large) (x : Z * Z) : v8m_large_page_meta := lmeta st (region_of x.1).
Definition orange (st : large) (x : Z * Z) : Z * Z := (region_of x.1, region_of x.1 + (ometa st x).(mmap_size)).

(** An object [x.1] of [x.2] bytes in use. *)
Record obj_ok (st : large) (x : Z * Z) : Prop := {
  oo_base : page_base (region_of x.1);
  oo_off : region_of x.1 + V8M_SLAB_HEADER_SIZE <= x.1 < region_of x.1 + V8M_PAGE_SIZE;
  oo_size : 0 < x.2 /\ x.1 + x.2 + (ometa st x).(guard_bytes) <= region_of x.1 + (ometa st x).(mmap_size);
  oo_guard : (ometa st x).(guard_bytes) = 0 \/ (ometa st x).(guard_bytes) = V8M_PAGE_SIZE /\ (ometa st x).(requested_size) = x.2;
  oo_live : (ometa st x).(common).(magic) = V8M_MAGIC /\
    ((ometa st x).(common).(size_class) = V8M_LARGE_HUGE_TAG \/ (ometa st x).(common).(size_class) = u16 (v8m_size_class x.2))
}.

(** The bytes and the number of the objects of one kind. *)
Definition held (st : large) (huge : bool) (Lv : list (Z * Z)) : Z :=
  foldr (fun x acc => (if Bool.eqb (is_huge (ometa st x)) huge then (ometa st x).(mmap_size) else 0) + acc) 0 Lv.
Definition number (st : large) (huge : bool) (Lv : list (Z * Z)) : Z :=
  foldr (fun x acc => (if Bool.eqb (is_huge (ometa st x)) huge then 1 else 0) + acc) 0 Lv.

Lemma held_cons st b x Lv : held st b (x :: Lv) = (if Bool.eqb (is_huge (ometa st x)) b then (ometa st x).(mmap_size) else 0) + held st b Lv.
Proof. done. Qed.
Lemma number_cons st b x Lv : number st b (x :: Lv) = (if Bool.eqb (is_huge (ometa st x)) b then 1 else 0) + number st b Lv.
Proof. done. Qed.

(** The counters of the two kinds. *)
Record accounted (st : large) (Lv : list (Z * Z)) : Prop := {
  ac_large : st.(l_stats).(large_bytes_in_use) = u64 (held st false Lv);
  ac_huge : st.(l_stats).(huge_bytes_in_use) = u64 (held st true Lv);
  ac_larges : u64 (st.(l_stats).(large_alloc_count) - st.(l_stats).(large_free_count)) = u64 (number st false Lv);
  ac_huges : u64 (st.(l_stats).(huge_alloc_count) - st.(l_stats).(huge_free_count)) = u64 (number st true Lv)
}.

(** The objects [Lv] are in use; [oth] are the other regions of the source. *)
Record large_ok (oth : list (Z * Z)) (st : large) (Lv : list (Z * Z)) : Prop := {
  lo_objs : forall x, x ∈ Lv -> obj_ok st x;
  lo_cache : forall e, e ∈ st.(g_large_cache) -> page_base e.1;
  lo_cap : (length st.(g_large_cache) <= 8)%nat;
  lo_src : src_with od st.(l_source);
  lo_regions : ps_regions st.(l_source) ≡ₚ (crange <$> st.(g_large_cache)) ++ (orange st <$> Lv) ++ oth;
  lo_stats : accounted st Lv
}.

(** The bytes of the objects in use. *)
Definition bytes_kept (st st' : large) (Lv : list (Z * Z)) : Prop :=
  forall x b, x ∈ Lv -> x.1 <= b < x.1 + x.2 -> rd st'.(l_bytes) b = rd st.(l_bytes) b.

(** A region outside the objects in use: apart from every one of them. *)
Lemma hand_apart oth st Lv r n x :
  large_ok ((r, r + n) :: oth) st Lv -> x ∈ Lv -> apart (orange st x) (r, r + n).
Proof.
  intros P Hx. pose proof (all_apart_perm _ _ (lo_regions _ _ _ P) (ps_apart _ (proj1 (lo_src _ _ _ P)))) as (Nd & Ap & _).
  assert (Hne : orange st x <> (r, r + n)).
  { intros He. rewrite app_assoc in Nd. apply NoDup_app in Nd as (_ & Nd & _). apply (Nd (orange st x)); [|rewrite He; left].
    apply elem_of_app. right. by apply list_elem_of_fmap_2. }
  apply Ap; [| |done]; apply elem_of_app; right; apply elem_of_app; [left; by apply list_elem_of_fmap_2|right; left].
Qed.

Lemma hand_region oth st Lv r n x :
  large_ok ((r, r + n) :: oth) st Lv -> x ∈ Lv -> 0 < n -> region_of x.1 <> r.
Proof.
  intros P Hx Hn He. pose proof (hand_apart _ _ _ _ _ _ P Hx) as Ha. destruct (lo_objs _ _ _ P x Hx) as [Hb Ho [H1 H2] Hg _].
  unfold apart, orange in Ha. cbn in Ha. destruct Hg as [Hg|[Hg _]]; rewrite Hg in H2; unfold V8M_SLAB_HEADER_SIZE in *; change V8M_PAGE_SIZE with 65536 in *; lia.
Qed.

Lemma mmap_bound oth st Lv x : large_ok oth st Lv -> x ∈ Lv -> 0 < (ometa st x).(mmap_size) < 2 ^ 64.
Proof.
  intros P Hx. pose proof (all_apart_perm _ _ (lo_regions _ _ _ P) (ps_apart _ (proj1 (lo_src _ _ _ P)))) as (_ & _ & Hr).
  specialize (Hr (orange st x) ltac:(apply elem_of_app; right; apply elem_of_app; left; by apply list_elem_of_fmap_2)). unfold orange in Hr. cbn in Hr. lia.
Qed.

(** Two objects in use never overlap. *)
Lemma objects_disjoint oth st Lv i j x y :
  large_ok oth st Lv -> Lv !! i = Some x -> Lv !! j = Some y -> i <> j -> x.1 + x.2 <= y.1 \/ y.1 + y.2 <= x.1.
Proof.
  intros P Hi Hj Hne. pose proof (all_apart_perm _ _ (lo_regions _ _ _ P) (ps_apart _ (proj1 (lo_src _ _ _ P)))) as (Nd & Ap & _).
  apply NoDup_app in Nd as (_ & _ & Nd). apply NoDup_app in Nd as (Nd & _ & _).
  assert (Hd : orange st x <> orange st y).
  { intros He. apply Hne. eapply (NoDup_lookup _ i j (orange st x) Nd); rewrite list_lookup_fmap; [by rewrite Hi|rewrite Hj; cbn; by rewrite He]. }
  assert (Hin : forall z, z ∈ Lv -> orange st z ∈ (crange <$> st.(g_large_cache)) ++ (orange st <$> Lv) ++ oth).
  { intros z Hz. apply elem_of_app. right. apply elem_of_app. left. by apply list_elem_of_fmap_2. }
  pose proof (list_elem_of_lookup_2 _ _ _ Hi) as Hx. pose proof (list_elem_of_lookup_2 _ _ _ Hj) as Hy.
  specialize (Ap _ _ (Hin x Hx) (Hin y Hy) Hd). unfold apart, orange in Ap. cbn in Ap.
  destruct (lo_objs _ _ _ P x Hx) as [_ ? [? ?] [Hg|[Hg _]] _], (lo_objs _ _ _ P y Hy) as [_ ? [? ?] [Hg'|[Hg' _]] _];
    rewrite ?Hg, ?Hg' in *; unfold V8M_SLAB_HEADER_SIZE in *; change V8M_PAGE_SIZE with 65536 in *; lia.
Qed.

Lemma sums_ext st st' Lv b :
  (forall x, x ∈ Lv -> ometa st' x = ometa st x) -> held st' b Lv = held st b Lv /\ number st' b Lv = number st b Lv.
Proof.
  intros Hm. unfold held, number. induction Lv as [|x Lv IH]; [done|]. cbn [foldr]. rewrite Hm by left.
  destruct IH as [-> ->]; [|done]. intros y Hy. apply Hm. by right.
Qed.

(** What the invariant reads of a state. *)
Lemma large_ok_ext oth0 oth st st' Lv :
  large_ok oth0 st Lv ->
  (forall x, x ∈ Lv -> ometa st' x = ometa st x) -> st'.(l_stats) = st.(l_stats) ->
  (forall e, e ∈ st'.(g_large_cache) -> page_base e.1) -> (length st'.(g_large_cache) <= 8)%nat -> src_with od st'.(l_source) ->
  ps_regions st'.(l_source) ≡ₚ (crange <$> st'.(g_large_cache)) ++ (orange st <$> Lv) ++ oth ->
  large_ok oth st' Lv.
Proof.
  intros P Hm Hs Hc Hl Hi Hr.
  assert (Ho : orange st' <$> Lv = orange st <$> Lv).
  { apply list_fmap_ext. intros i x Hx. unfold orange. by rewrite Hm by (by eapply list_elem_of_lookup_2). }
  pose proof (fun b => sums_ext st st' Lv b Hm) as Hh.
  pose proof P as [Oo _ _ _ _ [A1 A2 A3 A4]]. constructor; [|done|done|done|by rewrite Ho|].
  - intros x Hx. destruct (Oo x Hx) as [B1 B2 B3 B4 B5]. constructor; rewrite ?Hm by done; done.
  - constructor; rewrite Hs, ?(proj1 (Hh _)), ?(proj2 (Hh _)); done.
Qed.

(** ** Regions in hand *)

Lemma take_cached oth st Lv n :
  large_ok oth st Lv ->
  let '(st', r) := large_cache_take st n in
  (r = NULL /\ st' = st) \/
  (page_base r /\ large_ok ((r, r + n) :: oth) st' Lv /\ st'.(l_bytes) = st.(l_bytes) /\ st'.(l_metas) = st.(l_metas)).
Proof.
  intros P. unfold large_cache_take. destruct (list_find _ _) as [[i e]|] eqn:Hf; [|by left]. apply list_find_Some in Hf as (Hi & He & _).
  pose proof (swap_remove_perm st.(g_large_cache) i e (0, 0) Hi) as Hp. cbn zeta in Hp. set (cache' := if _ : bool then _ else _) in *.
  right. split; [apply (lo_cache _ _ _ P), (list_elem_of_lookup_2 _ _ _ Hi)|]. split; [|done]. apply (large_ok_ext oth _ st); try done; cbn.
  - intros x Hx. apply (lo_cache _ _ _ P). rewrite <- Hp. by right.
  - pose proof (lo_cap _ _ _ P) as Hc. rewrite <- Hp in Hc. cbn in Hc. lia.
  - apply P.
  - rewrite (lo_regions _ _ _ P), <- Hp. cbn. unfold crange at 1. rewrite He. rewrite !app_assoc. by rewrite <- Permutation_middle.
Qed.

Lemma alloc_region oth st Lv n k :
  large_ok oth st Lv -> 0 < n < 2 ^ 64 -> (V8M_PAGE_SIZE | n) -> 16 <= k < 64 ->
  let '(s, r) := ps_alloc st.(l_source) n (2 ^ k) in
  (r = NULL /\ large_ok oth (set_lsource st s) Lv) \/
  (page_base r /\ large_ok ((r, r + n) :: oth) (set_lsource st s) Lv).
Proof.
  intros P Hn Hd Hk. pose proof (ps_alloc_law st.(l_source) n k (proj1 (lo_src _ _ _ P)) Hn Hd Hk) as Ha. destruct (ps_alloc _ _ _) as [s r].
  destruct Ha as (Hs & Hsd & Ha). rewrite (proj2 (lo_src _ _ _ P)) in Hsd. assert (Hso : src_with od s) by done. clear Hsd. destruct Ha as [[-> Hr]|(Hr0 & Hrb & Hrd & Hr)]; [left|right]; (split; [done || idtac|]).
  - apply (large_ok_ext oth _ st); try done; cbn; [apply P|apply P|]. rewrite Hr. apply P.
  - assert (65536 <= n) by (destruct Hd as [z ->]; change V8M_PAGE_SIZE with 65536 in *; nia).
    split_and!; [done|change V8M_PAGE_SIZE with 65536; lia|]. eapply Z.divide_trans; [|exact Hrd]. exists (2 ^ (Z.min k 21 - 16)).
    change V8M_PAGE_SIZE with (2 ^ 16). rewrite <- Z.pow_add_r by lia. f_equal. lia.
  - apply (large_ok_ext oth _ st); try done; cbn; [apply P|apply P|]. rewrite Hr, (lo_regions _ _ _ P). rewrite !app_assoc. by rewrite <- Permutation_middle.
Qed.

(** The region in hand is given back. *)
Lemma free_region oth st Lv r n :
  large_ok ((r, r + n) :: oth) st Lv -> 0 < n ->
  large_ok oth (heap_free st r n) Lv /\ bytes_kept st (heap_free st r n) Lv.
Proof.
  intros P Hn. assert (Hin : (r, r + n) ∈ ps_regions st.(l_source)).
  { rewrite (lo_regions _ _ _ P). apply elem_of_app. right. apply elem_of_app. right. left. }
  destruct (ps_free_law _ _ _ (proj1 (lo_src _ _ _ P)) Hin) as (Hs & Hsd & Hr). rewrite (proj2 (lo_src _ _ _ P)) in Hsd. split.
  - apply (large_ok_ext ((r, r + n) :: oth) _ st); try done; cbn; [|apply P|apply P|].
    + intros x Hx. unfold ometa, lmeta. cbn. rewrite lookup_delete_ne; [done|]. intros He. by apply (hand_region _ _ _ _ _ _ P Hx Hn).
    + apply (Permutation_cons_inv (a := (r, r + n))). rewrite Hr, (lo_regions _ _ _ P). rewrite !app_assoc. by rewrite <- Permutation_middle.
  - intros x b Hx Hb. cbn. apply rd_clear_out. pose proof (hand_apart _ _ _ _ _ _ P Hx) as Ha. unfold apart, orange in Ha. cbn in Ha.
    destruct (lo_objs _ _ _ P x Hx) as [_ Ho [_ H2] [Hg|[Hg _]] _]; rewrite Hg in H2; unfold V8M_SLAB_HEADER_SIZE in *; change V8M_PAGE_SIZE with 65536 in *; lia.
Qed.

(** The region in hand becomes the region of a new object. *)
Lemma install oth st Lv r n x m st' :
  large_ok ((r, r + n) :: oth) st Lv -> 0 < n -> region_of x.1 = r -> m.(mmap_size) = n ->
  st'.(l_metas) = <[r := m]> st.(l_metas) -> st'.(g_large_cache) = st.(g_large_cache) -> st'.(l_source) = st.(l_source) ->
  obj_ok st' x -> accounted st' (x :: Lv) -> large_ok oth st' (x :: Lv).
Proof.
  intros P Hn Hx Hm Em Ec Es Ho Ha.
  assert (Hmeta : forall y, y ∈ Lv -> ometa st' y = ometa st y).
  { intros y Hy. unfold ometa, lmeta. rewrite Em, lookup_insert_ne; [done|]. intros He. by apply (hand_region _ _ _ _ _ _ P Hy Hn). }
  assert (Hxr : orange st' x = (r, r + n)) by (unfold orange, ometa, lmeta; rewrite Hx, Em, lookup_insert_eq; cbn; by rewrite Hm).
  assert (Hor : orange st' <$> Lv = orange st <$> Lv).
  { apply list_fmap_ext. intros i y Hy. unfold orange. by rewrite Hmeta by (by eapply list_elem_of_lookup_2). }
  constructor; rewrite ?Ec, ?Es; try apply P; try done.
  - intros y [->|Hy]%elem_of_cons; [done|]. destruct (lo_objs _ _ _ P y Hy) as [B1 B2 B3 B4 B5].
    constructor; rewrite ?Hmeta by done; done.
  - rewrite (lo_regions _ _ _ P). cbn. rewrite Hxr, Hor. apply Permutation_app_head. symmetry. apply Permutation_middle.
Qed.

(** An object is gone and its region is in hand. *)
Lemma other_region oth st Lv x y : large_ok oth st (x :: Lv) -> y ∈ Lv -> region_of y.1 <> region_of x.1.
Proof.
  intros P Hy He. pose proof (all_apart_perm _ _ (lo_regions _ _ _ P) (ps_apart _ (proj1 (lo_src _ _ _ P)))) as (Nd & _).
  apply NoDup_app in Nd as (_ & _ & Nd). apply NoDup_app in Nd as (Nd & _ & _). cbn in Nd. apply NoDup_cons in Nd as [Nd _]. apply Nd.
  apply list_elem_of_fmap. exists y. split; [|done]. unfold orange, ometa. by rewrite He.
Qed.

Lemma uninstall oth st Lv x st' m :
  large_ok oth st (x :: Lv) -> st'.(l_metas) = <[region_of x.1 := m]> st.(l_metas) -> st'.(g_large_cache) = st.(g_large_cache) ->
  st'.(l_source) = st.(l_source) -> accounted st' Lv ->
  large_ok ((region_of x.1, region_of x.1 + (ometa st x).(mmap_size)) :: oth) st' Lv.
Proof.
  intros P Em Ec Es Ha.
  assert (Hmeta : forall y, y ∈ Lv -> ometa st' y = ometa st y).
  { intros y Hy. unfold ometa, lmeta. rewrite Em, lookup_insert_ne; [done|]. intros He. by apply (other_region _ _ _ _ _ P Hy). }
  assert (Hor : orange st' <$> Lv = orange st <$> Lv).
  { apply list_fmap_ext. intros i y Hy. unfold orange. by rewrite Hmeta by (by eapply list_elem_of_lookup_2). }
  constructor; rewrite ?Ec, ?Es; try apply P; try done.
  - intros y Hy. destruct (lo_objs _ _ _ P y ltac:(by right)) as [B1 B2 B3 B4 B5]. constructor; rewrite ?Hmeta by done; done.
  - rewrite (lo_regions _ _ _ P), Hor. cbn. apply Permutation_app_head, Permutation_middle.
Qed.

(** The region in hand goes into the cache; what falls out is in hand. *)
Lemma put_region oth st Lv r n :
  large_ok ((r, r + n) :: oth) st Lv -> page_base r -> 0 < n ->
  let '(st', ev, evn) := large_cache_put st r n in
  st'.(l_bytes) = st.(l_bytes) /\
  ((ev = NULL /\ large_ok oth st' Lv) \/ (ev <> NULL /\ 0 < evn /\ large_ok ((ev, ev + evn) :: oth) st' Lv)).
Proof.
  intros P Hb Hn. unfold large_cache_put, V8M_LARGE_CACHE_CAP. pose proof (lo_cap _ _ _ P) as Hcap.
  assert (Hsame : forall c, ometa (set_cache st c) = ometa st) by done.
  destruct (Z.eqb_spec (Z.of_nat (length st.(g_large_cache))) 8) as [Hf|Hf].
  - destruct st.(g_large_cache) as [|e rest] eqn:Ec; [done|]. split; [done|]. right.
    pose proof (lo_cache _ _ _ P e ltac:(rewrite Ec; left)) as He. split; [destruct He; unfold NULL; lia|].
    assert (Hen : 0 < e.2).
    { pose proof (all_apart_perm _ _ (lo_regions _ _ _ P) (ps_apart _ (proj1 (lo_src _ _ _ P)))) as (_ & _ & Hr). rewrite Ec in Hr.
      specialize (Hr (crange e) ltac:(left)). unfold crange in Hr. cbn in Hr. lia. }
    split; [done|]. apply (large_ok_ext ((r, r + n) :: oth) _ st); try done; cbn.
    + intros x [Hx| ->%list_elem_of_singleton]%elem_of_app; [|done]. apply (lo_cache _ _ _ P). rewrite Ec. by right.
    + rewrite length_app. cbn in *. lia.
    + apply P.
    + rewrite (lo_regions _ _ _ P), Ec. cbn. rewrite fmap_app. cbn. fold (crange e). change (r, r + n) with (crange (r, n)).
      rewrite <- !app_assoc. cbn. rewrite <- !Permutation_middle. by rewrite perm_swap.
  - split; [done|]. left. split; [done|]. apply (large_ok_ext ((r, r + n) :: oth) _ st); try done; cbn.
    + intros x [Hx| ->%list_elem_of_singleton]%elem_of_app; [|done]. by apply (lo_cache _ _ _ P).
    + rewrite length_app. cbn. lia.
    + apply P.
    + rewrite (lo_regions _ _ _ P), fmap_app. cbn. change (r, r + n) with (crange (r, n)). rewrite <- app_assoc. cbn.
      apply Permutation_app_head. symmetry. apply Permutation_middle.
Qed.

(** ** The red zone *)

Lemma rd_memset bs p c n b : rd (memset bs p c n) b = if decide (p <= b < p + n) then c else rd bs b.
Proof.
  unfold memset. destruct (Z.le_gt_cases n 0) as [Hn|Hn].
  { rewrite seqZ_nil by done. cbn. destruct (decide _); [lia|done]. }
  rewrite <- (Z2Nat.id n) by lia. generalize (Z.to_nat n) as k. clear Hn. induction k as [|k IH].
  { cbn. destruct (decide _); [lia|done]. }
  rewrite seqZ_S, foldl_app, Z.add_0_l. cbn [foldl].
  destruct (decide (b = p + Z.of_nat k)) as [->|Hne].
  - rewrite rd_wr_eq, decide_True by lia. done.
  - rewrite rd_wr_ne by done. rewrite IH. destruct (decide (p <= b < p + Z.of_nat k)); [by rewrite decide_True by lia|by rewrite decide_False by lia].
Qed.

(** The bytes that follow an object in its red zone. *)
Definition in_zone (st : large) (x : Z * Z) (b : Z) : Prop :=
  x.1 + x.2 <= b < Z.min (x.1 + x.2 + V8M_LARGE_REDZONE_MAX_BYTES) (region_of x.1 + (ometa st x).(mmap_size) - (ometa st x).(guard_bytes)).
Definition zone_intact (st : large) (x : Z * Z) : Prop :=
  (ometa st x).(guard_bytes) <> 0 -> forall b, in_zone st x b -> rd st.(l_bytes) b = V8M_LARGE_REDZONE_BYTE.

Lemma low_bits r x : page_base r -> r <= x < r + V8M_PAGE_SIZE -> Z.land x (V8M_PAGE_SIZE - 1) = x - r.
Proof.
  intros (Hr & Hb & Hd) Hx. change (V8M_PAGE_SIZE - 1) with (Z.ones 16). rewrite Z.land_ones by lia. change V8M_PAGE_SIZE with (2 ^ 16) in *.
  destruct Hd as [z ->]. symmetry. apply (Z.mod_unique _ _ z); lia.
Qed.

Lemma redzone_span_spec st x :
  obj_ok st x -> (ometa st x).(guard_bytes) <> 0 -> (ometa st x).(mmap_size) < 2 ^ 64 ->
  large_redzone_span (ometa st x) (x.1 - region_of x.1) =
    Z.min V8M_LARGE_REDZONE_MAX_BYTES (region_of x.1 + (ometa st x).(mmap_size) - (ometa st x).(guard_bytes) - (x.1 + x.2)).
Proof.
  intros [Hb Ho [Hs Hf] [?|[Hg Hq]] _] Hn Hm; [done|]. unfold large_redzone_span. rewrite Hg, Hq in *.
  unfold V8M_SLAB_HEADER_SIZE, V8M_LARGE_REDZONE_MAX_BYTES in *. change V8M_PAGE_SIZE with 65536 in *.
  rewrite (u64_small (mmap_size (ometa st x) - _)) by (unfold is_u64; lia).
  set (acc := mmap_size (ometa st x) - (x.1 - region_of x.1) - 65536). rewrite (u64_small acc) by (unfold is_u64, acc; lia).
  destruct (Z.leb_spec acc x.2); [unfold acc in *; lia|]. rewrite (u64_small (acc - x.2)) by (unfold is_u64, acc in *; lia).
  destruct (Z.ltb_spec 64 (acc - x.2)); unfold acc in *; lia.
Qed.

Lemma check_redzone_spec st x :
  obj_ok st x -> (ometa st x).(guard_bytes) <> 0 -> (ometa st x).(mmap_size) < 2 ^ 64 ->
  large_check_redzone st.(l_bytes) x.1 (ometa st x) (Z.land x.1 (V8M_PAGE_SIZE - 1)) = true <-> zone_intact st x.
Proof.
  intros Hx Hn Hm. pose proof Hx as [Hb Ho _ [?|[Hg Hq]] _]; [done|].
  rewrite (low_bits (region_of x.1)) by (done || (unfold V8M_SLAB_HEADER_SIZE in *; lia)).
  unfold large_check_redzone. rewrite (redzone_span_spec st x Hx Hn Hm), forallb_forall, Hq. unfold zone_intact, in_zone. split.
  - intros Hall _ b Hz. specialize (Hall (b - (x.1 + x.2)) ltac:(apply list_elem_of_In, elem_of_seqZ; lia)). apply Z.eqb_eq in Hall.
    by replace (x.1 + x.2 + (b - (x.1 + x.2))) with b in Hall by lia.
  - intros Hz i Hi%list_elem_of_In%elem_of_seqZ. apply Z.eqb_eq, Hz; [done|lia].
Qed.

(** ** Allocation *)

(** The size of the region for [size] bytes at offset [off]. *)
Definition region_bytes (guard_on : bool) (size off align : Z) : Z :=
  round_up_pow2 (off + size) align + (if guard_on then V8M_PAGE_SIZE else 0).
Definition guarded (cfg : config) : bool := negb (v8m_config_get cfg V8M_OPT_DEBUG =? 0).

Definition large_fails (cfg : config) (rc : Z) (st : large) (size off align : Z) : Prop :=
  2 ^ 64 <= size + off + align + V8M_PAGE_SIZE \/ (guarded cfg = true /\ rc <> 0) \/
  (ps_alloc st.(l_source) (region_bytes (guarded cfg) size off align) align).2 = NULL.

(** An object of [size] bytes at offset [off] of its region was handed out. *)
Definition lserved (oth : list (Z * Z)) (g : bool) (st st' : large) (Lv : list (Z * Z)) (size off obj : Z) : Prop :=
  obj <> NULL /\ region_of obj = obj - off /\ large_ok oth st' ((obj, size) :: Lv) /\ bytes_kept st st' Lv /\
  zone_intact st' (obj, size) /\ ((ometa st' (obj, size)).(guard_bytes) <> 0 <-> g = true).

Lemma account_add st Lv st' x :
  accounted st Lv -> (forall y, y ∈ Lv -> ometa st' y = ometa st y) ->
  st'.(l_stats) = (if is_huge (ometa st' x) then add_huge st.(l_stats) (ometa st' x).(mmap_size) else add_large st.(l_stats) (ometa st' x).(mmap_size)) ->
  accounted st' (x :: Lv).
Proof.
  intros [A1 A2 A3 A4] Hm Hs. pose proof (fun b => sums_ext st st' Lv b Hm) as Hh.
  constructor; rewrite Hs, ?held_cons, ?number_cons, ?(proj1 (Hh _)), ?(proj2 (Hh _)); destruct (is_huge (ometa st' x)); cbn;
    rewrite ?A1, ?A2; by rewrite ?u64_add_bytes || by apply u64_add_count || done.
Qed.

Lemma account_sub st Lv st' x :
  accounted st (x :: Lv) -> (forall y, y ∈ Lv -> ometa st' y = ometa st y) ->
  st'.(l_stats) = (if is_huge (ometa st x) then sub_huge st.(l_stats) (ometa st x).(mmap_size) else sub_large st.(l_stats) (ometa st x).(mmap_size)) ->
  accounted st' Lv.
Proof.
  intros [A1 A2 A3 A4] Hm Hs. pose proof (fun b => sums_ext st st' Lv b Hm) as Hh.
  rewrite ?held_cons, ?number_cons in *.
  constructor; rewrite Hs, ?(proj1 (Hh _)), ?(proj2 (Hh _)); destruct (is_huge (ometa st x)); cbn in *;
    rewrite ?A1, ?A2; by rewrite ?u64_sub_bytes || by apply u64_sub_count || done.
Qed.

(** From the cache or the page heap. *)
Lemma obtain_region oth st Lv (on : bool) n k :
  large_ok oth st Lv -> 0 < n < 2 ^ 64 -> (V8M_PAGE_SIZE | n) -> 16 <= k < 64 ->
  let '(st1, r) := (let '(st, region) := if negb on then large_cache_take st n else (st, NULL) in
      if region =? NULL then let '(s, region) := ps_alloc st.(l_source) n (2 ^ k) in (set_lsource st s, region) else (st, region)) in
  st1.(l_bytes) = st.(l_bytes) /\ 
  ((r = NULL /\ large_ok oth st1 Lv /\ (ps_alloc st.(l_source) n (2 ^ k)).2 = NULL) \/
   (page_base r /\ large_ok ((r, r + n) :: oth) st1 Lv)).
Proof.
  intros P Hn Hd Hk.
  assert (Hfresh : let '(st1, r) := (let '(s, region) := ps_alloc st.(l_source) n (2 ^ k) in (set_lsource st s, region)) in
    st1.(l_bytes) = st.(l_bytes) /\ 
    ((r = NULL /\ large_ok oth st1 Lv /\ (ps_alloc st.(l_source) n (2 ^ k)).2 = NULL) \/ (page_base r /\ large_ok ((r, r + n) :: oth) st1 Lv))).
  { pose proof (alloc_region oth st Lv n k P Hn Hd Hk) as Ha. destruct (ps_alloc st.(l_source) n (2 ^ k)) as [s r]. split; [done|].
    destruct Ha as [[-> Ha]|[? ?]]; [left|by right]. by split_and!. }
  destruct on; cbn [negb]; [rewrite Z.eqb_refl; exact Hfresh|].
  pose proof (take_cached oth st Lv n P) as Ht. destruct (large_cache_take st n) as [st1 r].
  destruct Ht as [[-> ->]|(Hb & P1 & Hby & _)]; [rewrite Z.eqb_refl; exact Hfresh|].
  destruct (Z.eqb_spec r NULL) as [->|_]; [destruct Hb; unfold NULL in *; lia|]. split; [done|by right].
Qed.

Lemma class_tag size : 0 < size < 2 ^ 64 ->
  (if v8m_size_class size =? V8M_CLASS_HUGE then V8M_LARGE_HUGE_TAG else u16 (v8m_size_class size)) = V8M_LARGE_HUGE_TAG <->
  v8m_size_class size = V8M_CLASS_HUGE.
Proof.
  intros Hs. destruct (Z.eqb_spec (v8m_size_class size) V8M_CLASS_HUGE) as [?|Hne]; [done|]. split; [|done]. intros He. exfalso.
  destruct (Z.le_gt_cases size V8M_LARGE_MAX_SIZE) as [Hle|Hgt]; [|apply Hne, size_class_above; unfold SIZE_MAX; lia].
  pose proof (smallest_class_all size ltac:(lia)) as Hc. destruct (Z.eqb_spec size 0); [lia|]. destruct Hc as (Hc & _).
  unfold V8M_LARGE_LAST_CLASS in Hc. rewrite u16_small in He by lia. unfold V8M_LARGE_HUGE_TAG, UINT16_MAX in He. lia.
Qed.

(** The object written into the region in hand. *)
Lemma place_object oth (g : bool) st Lv r n off size owner :
  large_ok ((r, r + n) :: oth) st Lv -> page_base r -> 2048 <= off < 65536 -> 0 < size < 2 ^ 64 ->
  off + size + (if g then V8M_PAGE_SIZE else 0) <= n ->
  let m := new_large (v8m_size_class size) owner n (if g then V8M_PAGE_SIZE else 0) (if g then size else 0) in
  let st1 := if g then set_guards st (<[r := r + n - (if g then V8M_PAGE_SIZE else 0)]> st.(l_guards)) else st in
  let st2 := set_lmeta st1 r m in
  let st3 := if g then set_bytes st2 (large_fill_redzone st2.(l_bytes) (r + off) m off) else st2 in
  let st4 := set_stats st3 (if v8m_size_class size =? V8M_CLASS_HUGE then add_huge st3.(l_stats) n else add_large st3.(l_stats) n) in
  lserved oth g st st4 Lv size off (r + off).
Proof.
  intros P Hb Hoff Hsz Hfit m st1 st2 st3 st4. pose proof Hb as (Hr0 & Hrb & Hrd).
  assert (Hreg : region_of (r + off) = r) by (apply ptr_to_meta_inside; [done|change V8M_PAGE_SIZE with 65536; lia]).
  assert (Em : st4.(l_metas) = <[r := m]> st.(l_metas)) by (unfold st4, st3, st2, st1; by destruct g).
  assert (Ho : ometa st4 (r + off, size) = m) by (unfold ometa, lmeta; cbn [fst]; rewrite Hreg, Em, lookup_insert_eq; done).
  assert (Hn0 : 0 < n) by (change V8M_PAGE_SIZE with 65536 in *; destruct g; lia).
  assert (Hok : obj_ok st4 (r + off, size)).
  { constructor; rewrite ?Ho; cbn [fst snd]; rewrite ?Hreg; [done|unfold V8M_SLAB_HEADER_SIZE; change V8M_PAGE_SIZE with 65536; lia| | |split; [done|]].
    - cbn. lia.
    - cbn. destruct g; [right|left]; done.
    - cbn. destruct (_ =? _); [by left|by right]. }
  assert (Hmeta : forall y, y ∈ Lv -> ometa st4 y = ometa st y).
  { intros y Hy. unfold ometa, lmeta. rewrite Em, lookup_insert_ne; [done|]. intros He. by apply (hand_region _ _ _ _ _ _ P Hy Hn0). }
  assert (Pk : large_ok oth st4 ((r + off, size) :: Lv)).
  { apply (install oth st Lv r n (r + off, size) m st4 P Hn0 Hreg); [done|done|unfold st4, st3, st2, st1; by destruct g..|done|].
    apply (account_add st); [apply P|done|]. rewrite Ho. unfold is_huge. cbn [common new_large size_class m mmap_size].
    replace (l_stats st4) with (if v8m_size_class size =? V8M_CLASS_HUGE then add_huge st.(l_stats) n else add_large st.(l_stats) n)
      by (unfold st4, st3, st2, st1; by destruct g).
    pose proof (class_tag size Hsz) as Ht. destruct (Z.eqb_spec (v8m_size_class size) V8M_CLASS_HUGE) as [He|He]; [done|].
    destruct (Z.eqb_spec (u16 (v8m_size_class size)) V8M_LARGE_HUGE_TAG) as [Hx|_]; [by apply Ht in Hx|done]. }
  assert (Hby : forall b, rd st4.(l_bytes) b = if decide (g = true /\ in_zone st4 (r + off, size) b) then V8M_LARGE_REDZONE_BYTE else rd st.(l_bytes) b).
  { intros b. assert (Eb : st4.(l_bytes) = if g then large_fill_redzone st.(l_bytes) (r + off) m off else st.(l_bytes)) by (unfold st4, st3, st2, st1; by destruct g).
    rewrite Eb. clear Eb. destruct g.
    2: { by rewrite decide_False by (intros [? _]; done). }
    assert (Hgm : (ometa st4 (r + off, size)).(guard_bytes) <> 0) by (by rewrite Ho).
    pose proof (redzone_span_spec st4 (r + off, size) Hok Hgm ltac:(apply (mmap_bound _ _ _ _ Pk); left)) as Hsp. unfold in_zone. rewrite Ho in Hsp |- *.
    cbn [fst snd] in Hsp |- *. rewrite Hreg in Hsp |- *. replace (r + off - r) with off in Hsp by lia.
    unfold large_fill_redzone. rewrite Hsp. unfold V8M_LARGE_REDZONE_MAX_BYTES.
    change (requested_size m) with size. set (e := r + mmap_size m - guard_bytes m).
    destruct (Z.eqb_spec (Z.min 64 (e - (r + off + size))) 0) as [Hz|Hz]; [by rewrite decide_False by lia|].
    rewrite rd_memset. destruct (decide _), (decide _); done || lia. }
  unfold lserved. split_and!; [unfold NULL; lia|lia|done| | |].
  - intros y b Hy Hyb. rewrite Hby, decide_False; [done|]. intros [_ Hz]. pose proof (hand_apart _ _ _ _ _ _ P Hy) as Ha.
    unfold in_zone, apart, orange in *. rewrite Ho in Hz. cbn [fst snd mmap_size guard_bytes m new_large] in *. rewrite Hreg in Hz.
    destruct (lo_objs _ _ _ P y Hy) as [_ Hyo [_ H2] [Hgy|[Hgy _]] _]; rewrite Hgy in H2; unfold V8M_SLAB_HEADER_SIZE in *; change V8M_PAGE_SIZE with 65536 in *;
      destruct g; lia.
  - intros Hgz b Hz. rewrite Hby, decide_True; [done|]. split; [|done]. rewrite Ho in Hgz. unfold m in Hgz. cbn in Hgz. by destruct g.
  - rewrite Ho. unfold m. cbn. by destruct g.
Qed.

Lemma region_bytes_spec (g : bool) size off k :
  0 < size <= 2 ^ 64 - 1 - off - 2 ^ k -> 2048 <= off < 65536 -> 16 <= k < 64 ->
  g && (2 ^ 64 - 1 - 65536 <? round_up_pow2 (off + size) (2 ^ k)) = false ->
  let n := region_bytes g size off (2 ^ k) in
  (if g then u64 (round_up_pow2 (off + size) (2 ^ k) + (if g then 65536 else 0)) else round_up_pow2 (off + size) (2 ^ k)) = n /\
  (V8M_PAGE_SIZE | n) /\ off + size + (if g then V8M_PAGE_SIZE else 0) <= n < 2 ^ 64.
Proof.
  intros Hs Ho Hk Hg. unfold region_bytes, round_up_pow2 in *. change V8M_PAGE_SIZE with 65536 in *.
  destruct (round_up_mask_bounds (off + size) k ltac:(lia) ltac:(lia) ltac:(lia)) as [Hd Hb]. set (v := round_up_mask (off + size) (2 ^ k)) in *.
  assert (Hdv : (65536 | v)).
  { eapply Z.divide_trans; [|exact Hd]. exists (2 ^ (k - 16)). change 65536 with (2 ^ 16). rewrite <- Z.pow_add_r by lia. f_equal. lia. }
  destruct g; cbn [andb] in Hg.
  - apply Z.ltb_ge in Hg. rewrite u64_small by (unfold is_u64; lia). split_and!; [done| |lia|lia]. by apply Z.divide_add_r.
  - rewrite Z.add_0_r. split_and!; [done|done|lia|lia].
Qed.

Lemma with_offset_spec oth cfg rc st Lv size off k owner :
  large_ok oth st Lv -> 0 < size < 2 ^ 64 -> 2048 <= off < 65536 -> 16 <= k < 63 ->
  let '(st', obj) := large_alloc_with_offset cfg rc st size off (2 ^ k) owner in
  (obj = NULL /\ large_ok oth st' Lv /\ bytes_kept st st' Lv /\ large_fails cfg rc st size off (2 ^ k)) \/
  lserved oth (guarded cfg) st st' Lv size off obj.
Proof.
  intros P Hsz Hoff Hk. assert (H2k : 2 ^ 16 <= 2 ^ k <= 2 ^ 62) by (split; apply Z.pow_le_mono_r; lia).
  unfold large_alloc_with_offset, SIZE_MAX. rewrite (u64_small (2 ^ 64 - 1 - off)), u64_small by (unfold is_u64; lia).
  fold (guarded cfg). change V8M_PAGE_SIZE with 65536.
  destruct (Z.ltb_spec (2 ^ 64 - 1 - off - 2 ^ k) size) as [Hov|Hov].
  { left. split_and!; [done|done|by intros x b _ _|]. left. change V8M_PAGE_SIZE with 65536. lia. }
  rewrite (u64_small (off + size)) by (unfold is_u64; lia).
  destruct (round_up_mask_bounds (off + size) k ltac:(lia) ltac:(lia) ltac:(lia)) as [_ Hru].
  destruct (guarded cfg && (2 ^ 64 - 1 - 65536 <? round_up_pow2 (off + size) (2 ^ k))) eqn:Hgo.
  { left. split_and!; [done|done|by intros x b _ _|]. left. apply andb_true_iff in Hgo as [_ Hgo%Z.ltb_lt].
    unfold round_up_pow2 in Hgo. change V8M_PAGE_SIZE with 65536. lia. }
  destruct (region_bytes_spec (guarded cfg) size off k ltac:(lia) Hoff ltac:(lia) Hgo) as (-> & Hd & Hnb).
  set (n := region_bytes (guarded cfg) size off (2 ^ k)) in *.
  assert (Hn0 : 0 < n < 2 ^ 64) by (change V8M_PAGE_SIZE with 65536 in *; destruct (guarded cfg); lia).
  pose proof (obtain_region oth st Lv (guarded cfg) n k P Hn0 Hd ltac:(lia)) as Hob.
  destruct (if negb (guarded cfg) then large_cache_take st n else (st, NULL)) as [st0 r0].
  destruct (if r0 =? NULL then _ else (st0, r0)) as [st1 r]. destruct Hob as [Hby Hob].
  destruct (Z.eqb_spec r NULL) as [->|Hr].
  { left. destruct Hob as [(_ & P1 & Hf)|[[? _] _]]; [|unfold NULL in *; lia]. split_and!; [done|done|by intros x b _ _; rewrite Hby|by right; right]. }
  destruct Hob as [[? _]|[Hb P1]]; [done|]. destruct (guarded cfg && negb (rc =? 0)) eqn:Hrc.
  { left. destruct (free_region _ _ _ _ _ P1 ltac:(lia)) as [P2 Hk2]. apply andb_true_iff in Hrc as [Hg Hrc%negb_true_iff%Z.eqb_neq].
    split_and!; [done|done| |by right; left]. intros x b Hx Hxb. by rewrite (Hk2 x b Hx Hxb), Hby. }
  right. pose proof (place_object oth (guarded cfg) st1 Lv r n off size owner P1 Hb Hoff Hsz (proj1 Hnb)) as Hp. cbn zeta in Hp.
  change V8M_PAGE_SIZE with 65536 in Hp. destruct Hp as (H1 & H2 & H3 & H4 & H5 & H6). split_and!; [done|done|done| |done|done].
  intros x b Hx Hxb. rewrite (H4 x b Hx Hxb). by rewrite Hby.
Qed.

(** ** Release *)

Lemma large_meta_of st x : obj_ok st x -> lmeta st (v8m_ptr_to_meta x.1) = ometa st x /\ x.1 <> NULL.
Proof. intros [[Hb _] Ho _ _ _]. split; [done|]. unfold V8M_SLAB_HEADER_SIZE in Ho. unfold NULL. lia. Qed.

Lemma usable_spec oth st Lv x :
  large_ok oth st Lv -> x ∈ Lv ->
  v8m_large_usable_size st x.1 = region_of x.1 + (ometa st x).(mmap_size) - (ometa st x).(guard_bytes) - x.1 /\
  x.2 <= v8m_large_usable_size st x.1.
Proof.
  intros P Hx. pose proof (lo_objs _ _ _ P x Hx) as Hok. pose proof (mmap_bound _ _ _ _ P Hx) as Hm. destruct (large_meta_of st x Hok) as [Hl Hn].
  destruct Hok as [Hb Ho [Hs Hf] Hg _]. unfold v8m_large_usable_size. destruct (Z.eqb_spec x.1 NULL); [done|]. rewrite Hl.
  rewrite (low_bits (region_of x.1)) by (done || (unfold V8M_SLAB_HEADER_SIZE in *; lia)).
  assert (0 <= (ometa st x).(guard_bytes)) by (change V8M_PAGE_SIZE with 65536 in *; destruct Hg as [->|[-> _]]; lia).
  unfold V8M_SLAB_HEADER_SIZE in *. change V8M_PAGE_SIZE with 65536 in *.
  rewrite (u64_small (mmap_size (ometa st x) - _)) by (unfold is_u64; lia). rewrite u64_small by (unfold is_u64; lia). lia.
Qed.

Lemma large_free_ok oth st Lv x :
  large_ok oth st (x :: Lv) ->
  match v8m_large_free st x.1 with
  | Some st' => zone_intact st x /\ large_ok oth st' Lv /\ bytes_kept st st' Lv
  | None => (ometa st x).(guard_bytes) <> 0 /\ ~ zone_intact st x
  end.
Proof.
  intros P. assert (Hx : x ∈ x :: Lv) by left. pose proof (lo_objs _ _ _ P x Hx) as Hok. pose proof (mmap_bound _ _ _ _ P Hx) as Hm.
  destruct (large_meta_of st x Hok) as [Hl Hn]. unfold v8m_large_free. destruct (Z.eqb_spec x.1 NULL); [done|]. rewrite Hl. fold (region_of x.1).
  set (m := ometa st x) in *. fold (is_huge m).
  assert (Hz : negb (guard_bytes m =? 0) && negb (large_check_redzone st.(l_bytes) x.1 m (Z.land x.1 (V8M_PAGE_SIZE - 1))) = false <-> zone_intact st x).
  { destruct (Z.eqb_spec (guard_bytes m) 0) as [Hg|Hg]; cbn [negb andb]; [split; [intros _ Hc; by destruct Hc|done]|].
    rewrite negb_false_iff. apply check_redzone_spec; [done|done|apply Hm]. }
  destruct (_ && _) eqn:Hc.
  { split; [|intros Hi; by apply Hz in Hi]. intros Hg. rewrite Hg in Hc. done. }
  set (c := MkMeta _ _ _ _ _ _ _ _ _ _ _ _). set (m' := MkLarge c _ _ _).
  set (st1 := set_stats (set_lmeta st (region_of x.1) m') _).
  assert (Hmeta : forall y, y ∈ Lv -> ometa st1 y = ometa st y).
  { intros y Hy. unfold ometa, lmeta, st1. cbn. rewrite lookup_insert_ne; [done|]. intros He. by apply (other_region _ _ _ _ _ P Hy). }
  assert (P1 : large_ok ((region_of x.1, region_of x.1 + m.(mmap_size)) :: oth) st1 Lv).
  { apply (uninstall oth st Lv x st1 m' P); [done|done|done|]. by apply (account_sub st Lv st1 x); [apply P|..]. }
  destruct (Z.eqb_spec (guard_bytes m) 0) as [Hg|Hg].
  - pose proof (put_region oth st1 Lv _ _ P1 ltac:(apply Hok) ltac:(lia)) as Hp. destruct (large_cache_put st1 _ _) as [[st2 ev] evn].
    destruct Hp as [Hby [[-> P2]|(Hev & Hevn & P2)]].
    + rewrite Z.eqb_refl. cbn [negb]. split_and!; [by apply Hz|done|]. intros y b _ _. by rewrite Hby.
    + destruct (Z.eqb_spec ev NULL); [done|]. cbn [negb]. destruct (free_region _ _ _ _ _ P2 Hevn) as [P3 Hk]. split_and!; [by apply Hz|done|].
      intros y b Hy Hb. rewrite (Hk y b Hy Hb). by rewrite Hby.
  - destruct (free_region _ _ _ _ _ P1 ltac:(lia)) as [P3 Hk]. split_and!; [by apply Hz|done|]. intros y b Hy Hb. by rewrite (Hk y b Hy Hb).
Qed.

(** Emptying the cache returns every cached region. *)
Lemma drain_ok oth st Lv :
  large_ok oth st Lv ->
  let '(st', n) := v8m_large_cache_drain st in
  large_ok oth st' Lv /\ st'.(g_large_cache) = [] /\ n = Z.of_nat (length st.(g_large_cache)) /\ bytes_kept st st' Lv.
Proof.
  intros P. unfold v8m_large_cache_drain.
  assert (Hd : forall es st0, st0.(g_large_cache) = [] -> large_ok ((crange <$> es) ++ oth) st0 Lv -> (forall e, e ∈ es -> 0 < e.2) ->
    let st' := foldl (fun st e => heap_free st e.1 e.2) st0 es in
    large_ok oth st' Lv /\ st'.(g_large_cache) = [] /\ bytes_kept st0 st' Lv).
  { intros es. induction es as [|e es IH]; intros st0 Ec P0 Hpos; cbn [foldl].
    - split_and!; [done|done|by intros x b _ _].
    - cbn in P0. destruct (free_region _ st0 Lv _ _ P0 (Hpos e ltac:(left))) as [P1 Hk1].
      destruct (IH (heap_free st0 e.1 e.2) Ec P1 ltac:(intros x Hx; apply Hpos; by right)) as (P2 & Ec2 & Hk2). split_and!; [done|done|].
      intros x b Hx Hb. by rewrite (Hk2 x b Hx Hb), (Hk1 x b Hx Hb). }
  assert (Hpos : forall e, e ∈ st.(g_large_cache) -> 0 < e.2).
  { intros e He. pose proof (all_apart_perm _ _ (lo_regions _ _ _ P) (ps_apart _ (proj1 (lo_src _ _ _ P)))) as (_ & _ & Hr).
    specialize (Hr (crange e) ltac:(apply elem_of_app; left; by apply list_elem_of_fmap_2)). unfold crange in Hr. cbn in Hr. lia. }
  destruct (Hd st.(g_large_cache) (set_cache st [])) as (P' & Ec & Hk); [done| |done|by split_and!].
  apply (large_ok_ext oth _ st); try done; cbn; [by intros e ?%not_elem_of_nil|lia|apply P|].
  rewrite (lo_regions _ _ _ P). rewrite !app_assoc. apply Permutation_app_tail, Permutation_app_comm.
Qed.

(** ** The claims *)

(** The alignment [v8m_large_alloc] asks of the page heap. *)
Definition large_align (cfg : config) (size : Z) : Z :=
  if negb (v8m_config_get cfg V8M_OPT_HUGE_PAGES =? 0) then
    if V8M_LARGE_GIGANTIC_ALIGN <=? size then V8M_LARGE_GIGANTIC_ALIGN
    else if V8M_LARGE_MAX_SIZE <? size then V8M_LARGE_HUGE_ALIGN else V8M_PAGE_SIZE
  else V8M_PAGE_SIZE.

Lemma large_align_pow2 cfg size : exists k, 16 <= k < 63 /\ large_align cfg size = 2 ^ k.
Proof. unfold large_align. destruct (negb _); [destruct (_ <=? _); [by exists 30|destruct (_ <? _); [by exists 21|by exists 16]]|by exists 16]. Qed.

Lemma large_alloc_ok oth cfg rc st Lv size owner :
  large_ok oth st Lv -> 0 <= size < 2 ^ 64 ->
  let '(st', obj) := v8m_large_alloc cfg rc st size owner in
  (obj = NULL /\ large_ok oth st' Lv /\ bytes_kept st st' Lv /\
   (size = 0 \/ large_fails cfg rc st size V8M_SLAB_HEADER_SIZE (large_align cfg size))) \/
  (lserved oth (guarded cfg) st st' Lv size V8M_SLAB_HEADER_SIZE obj /\ size <= v8m_large_usable_size st' obj /\
   (forall y, y ∈ Lv -> obj + size <= y.1 \/ y.1 + y.2 <= obj)).
Proof.
  intros P Hs. unfold v8m_large_alloc. destruct (Z.eqb_spec size 0) as [->|Hn].
  { left. split_and!; [done|done|by intros x b _ _|by left]. }
  fold (large_align cfg size). destruct (large_align_pow2 cfg size) as (k & Hk & ->).
  pose proof (with_offset_spec oth cfg rc st Lv size V8M_SLAB_HEADER_SIZE k owner P ltac:(lia) ltac:(unfold V8M_SLAB_HEADER_SIZE; lia) Hk) as Hw.
  destruct (large_alloc_with_offset _ _ _ _ _ _ _) as [st' obj]. destruct Hw as [(? & ? & ? & ?)|Hw]; [left; split_and!; auto|right].
  pose proof Hw as (_ & _ & P' & _). split_and!; [exact Hw|exact (proj2 (usable_spec oth st' _ (obj, size) P' ltac:(left)))|].
  intros y [j Hj]%list_elem_of_lookup_1. exact (objects_disjoint oth st' _ 0 (S j) (obj, size) y P' eq_refl Hj ltac:(lia)).
Qed.

(** C19: [v8m_large_alloc] keeps the invariant and the bytes of all objects in use.
    It hands out a new object of [size] bytes, at offset 2048 of a region of its own,
    whose usable size is at least [size], apart from all others and whose red zone is filled when the debug
    option is on; the counters stay exact.  It fails only for a size of 0, a size too
    close to [2^64], a failed [mprotect] or a page heap without memory. *)
Theorem v8m_large_alloc_spec oth cfg rc st Lv size owner :
  large_ok oth st Lv -> 0 <= size < 2 ^ 64 ->
  let '(st', obj) := v8m_large_alloc cfg rc st size owner in
  (obj = NULL /\ large_ok oth st' Lv /\ bytes_kept st st' Lv /\
   (size = 0 \/ large_fails cfg rc st size V8M_SLAB_HEADER_SIZE (large_align cfg size))) \/
  (lserved oth (guarded cfg) st st' Lv size V8M_SLAB_HEADER_SIZE obj /\ size <= v8m_large_usable_size st' obj /\
   (forall y, y ∈ Lv -> obj + size <= y.1 \/ y.1 + y.2 <= obj)).
Proof. apply large_alloc_ok. Qed.

Lemma large_alloc_aligned_ok oth cfg rc st Lv size j owner :
  large_ok oth st Lv -> 0 <= size < 2 ^ 64 -> 0 <= j < 64 ->
  let '(st', obj) := v8m_large_alloc_aligned cfg rc st size (2 ^ j) owner in
  let off := Z.max V8M_SLAB_HEADER_SIZE (2 ^ j) in
  (obj = NULL /\ large_ok oth st' Lv /\ bytes_kept st st' Lv /\
   (size = 0 \/ V8M_PAGE_SIZE <= 2 ^ j \/ large_fails cfg rc st size off V8M_PAGE_SIZE)) \/
  (lserved oth (guarded cfg) st st' Lv size off obj /\ (2 ^ j | obj) /\ size <= v8m_large_usable_size st' obj).
Proof.
  intros P Hs Hj. unfold v8m_large_alloc_aligned. destruct (Z.eqb_spec size 0) as [->|Hn].
  { left. split_and!; [done|done|by intros x b _ _|by left]. }
  assert (Hj0 : 0 < 2 ^ j) by (apply Z.pow_pos_nonneg; lia). destruct (Z.eqb_spec (2 ^ j) 0); [lia|]. cbn [orb].
  assert (Hmain : forall off, 2048 <= off < 65536 -> (2 ^ j | off) -> j <= 16 ->
    let '(st', obj) := large_alloc_with_offset cfg rc st size off V8M_PAGE_SIZE owner in
    (obj = NULL /\ large_ok oth st' Lv /\ bytes_kept st st' Lv /\ (size = 0 \/ V8M_PAGE_SIZE <= 2 ^ j \/ large_fails cfg rc st size off V8M_PAGE_SIZE)) \/
    (lserved oth (guarded cfg) st st' Lv size off obj /\ (2 ^ j | obj) /\ size <= v8m_large_usable_size st' obj)).
  { intros off Ho Hjo Hj16. pose proof (with_offset_spec oth cfg rc st Lv size off 16 owner P ltac:(lia) Ho ltac:(lia)) as Hw.
    change (2 ^ 16) with V8M_PAGE_SIZE in Hw. destruct (large_alloc_with_offset _ _ _ _ _ _ _) as [st' obj].
    destruct Hw as [(? & ? & ? & ?)|Hw]; [left; split_and!; auto|right]. split; [done|]. destruct Hw as (_ & Hr & P' & _). split.
    - pose proof (lo_objs _ _ _ P' (obj, size) ltac:(left)) as [(_ & _ & Hd) _ _ _ _]. cbn [fst] in Hd. rewrite Hr in Hd.
      replace obj with ((obj - off) + off) by lia. apply Z.divide_add_r; [|done]. eapply Z.divide_trans; [|exact Hd].
      change V8M_PAGE_SIZE with (2 ^ 16). exists (2 ^ (16 - j)). rewrite <- Z.pow_add_r by lia. f_equal. lia.
    - exact (proj2 (usable_spec oth st' _ (obj, size) P' ltac:(left))). }
  unfold V8M_SLAB_HEADER_SIZE in *. destruct (Z.leb_spec (2 ^ j) 2048) as [Hle|Hgt].
  - rewrite Z.max_l by lia. assert (j <= 11) by (change 2048 with (2 ^ 11) in Hle; apply Z.pow_le_mono_r_iff in Hle; lia).
    apply Hmain; [lia| |lia]. exists (2 ^ (11 - j)). change 2048 with (2 ^ 11). rewrite <- Z.pow_add_r by lia. f_equal. lia.
  - rewrite Z.max_r by lia. destruct (Z.leb_spec V8M_PAGE_SIZE (2 ^ j)) as [Hbig|Hlt].
    { left. split_and!; [done|done|by intros x b _ _|by right; left]. }
    change V8M_PAGE_SIZE with (2 ^ 16) in Hlt. apply Hmain; [lia|done|]. apply Z.pow_lt_mono_r_iff in Hlt; lia.
Qed.

(** [v8m_large_alloc_aligned] serves every power-of-two alignment below 64 KiB:
    the object is aligned, and otherwise as [v8m_large_alloc]'s.  Alignments from
    64 KiB on are refused. *)
Theorem v8m_large_alloc_aligned_spec oth cfg rc st Lv size j owner :
  large_ok oth st Lv -> 0 <= size < 2 ^ 64 -> 0 <= j < 64 ->
  let '(st', obj) := v8m_large_alloc_aligned cfg rc st size (2 ^ j) owner in
  let off := Z.max V8M_SLAB_HEADER_SIZE (2 ^ j) in
  (obj = NULL /\ large_ok oth st' Lv /\ bytes_kept st st' Lv /\
   (size = 0 \/ V8M_PAGE_SIZE <= 2 ^ j \/ large_fails cfg rc st size off V8M_PAGE_SIZE)) \/
  (lserved oth (guarded cfg) st st' Lv size off obj /\ (2 ^ j | obj) /\ size <= v8m_large_usable_size st' obj).
Proof. apply large_alloc_aligned_ok. Qed.

(** C20: [v8m_large_free] of an object in use removes exactly that object, keeps the
    invariant (the region goes to the cache or back to the page heap, the counters
    stay exact) and the bytes of the other objects.  It aborts exactly when a byte
    of the object's red zone was overwritten. *)
Theorem v8m_large_free_spec oth st Lv x :
  large_ok oth st (x :: Lv) ->
  match v8m_large_free st x.1 with
  | Some st' => zone_intact st x /\ large_ok oth st' Lv /\ bytes_kept st st' Lv
  | None => (ometa st x).(guard_bytes) <> 0 /\ ~ zone_intact st x
  end.
Proof. apply large_free_ok. Qed.

Lemma large_alloc_result oth cfg rc st Lv size owner r :
  large_ok oth st Lv -> 0 < size < 2 ^ 64 -> v8m_large_alloc cfg rc st size owner = r -> r.2 <> NULL ->
  large_ok oth r.1 ((r.2, size) :: Lv).
Proof.
  intros P Hs <- Hn. unfold v8m_large_alloc in *. destruct (Z.eqb_spec size 0); [lia|]. fold (large_align cfg size) in *.
  destruct (large_align_pow2 cfg size) as (k & Hk & Ek). rewrite Ek in *.
  pose proof (with_offset_spec oth cfg rc st Lv size V8M_SLAB_HEADER_SIZE k owner P Hs ltac:(unfold V8M_SLAB_HEADER_SIZE; lia) Hk) as Hw.
  destruct (large_alloc_with_offset _ _ _ _ _ _ _) as [st' obj]. cbn [fst snd] in *. by destruct Hw as [[? _]|(_ & _ & ? & _)].
Qed.

(** The order of the objects does not matter. *)
Lemma sums_perm st b Lv Lv' : Lv ≡ₚ Lv' -> held st b Lv = held st b Lv' /\ number st b Lv = number st b Lv'.
Proof. induction 1 as [|x l l' _ [IH1 IH2]|x y l|l1 l2 l3 _ [IH1 IH2] _ [IH3 IH4]]; rewrite ?held_cons, ?number_cons in *; try done; split; lia. Qed.
Lemma large_ok_perm oth st Lv Lv' : Lv ≡ₚ Lv' -> large_ok oth st Lv -> large_ok oth st Lv'.
Proof.
  intros Hp [Oo Ca Cp Sr R [A1 A2 A3 A4]]. destruct (sums_perm st false _ _ Hp) as [E1 E2], (sums_perm st true _ _ Hp) as [E3 E4].
  constructor; [|done|done|done|by rewrite <- Hp|]; [intros x Hx; apply Oo; by rewrite Hp|]. constructor; congruence.
Qed.

End Owner.

(** ** Examples over the page heap *)

#[local] Existing Instance Os.log_os.
#[local] Existing Instance Os.log_os_laws.

Definition ex_lcfg : config := (v8m_config_set (v8m_config_init (fun _ => None)) V8M_OPT_DEBUG 1).1.
Definition ex_large : @large (@heap_source Os.log_os) := MkL (MkLStats 0 0 0 0 0 0) [] ∅ ∅ ∅ NumaPool.ex_src.

Lemma ex_large_ok : large_ok [] [] ex_large [].
Proof.
  constructor; cbn; [by intros x ?%not_elem_of_nil|by intros x ?%not_elem_of_nil|lia|split; [apply NumaPool.ex_src_inv|done]|done|by constructor].
Qed.

Lemma v8m_large_alloc_spec_witness :
  (v8m_large_alloc ex_lcfg 0 ex_large 300000 7).2 = 2 ^ 30 + 2048 /\
  let '(st', obj) := v8m_large_alloc ex_lcfg 0 ex_large 300000 7 in
  (obj = NULL /\ large_ok [] [] st' [] /\ bytes_kept ex_large st' [] /\
   (300000 = 0 \/ large_fails ex_lcfg 0 ex_large 300000 V8M_SLAB_HEADER_SIZE (large_align ex_lcfg 300000))) \/
  (lserved [] [] (guarded ex_lcfg) ex_large st' [] 300000 V8M_SLAB_HEADER_SIZE obj /\ 300000 <= v8m_large_usable_size st' obj /\
   (forall y, y ∈ [] -> obj + 300000 <= y.1 \/ y.1 + y.2 <= obj)).
Proof. split; [vm_compute; reflexivity|]. apply (v8m_large_alloc_spec [] [] ex_lcfg 0 ex_large [] 300000 7 ex_large_ok). lia. Defined.

Lemma v8m_large_alloc_aligned_spec_witness :
  (v8m_large_alloc_aligned ex_lcfg 0 ex_large 300000 (2 ^ 14) 7).2 = 2 ^ 30 + 2 ^ 14 /\
  let '(st', obj) := v8m_large_alloc_aligned ex_lcfg 0 ex_large 300000 (2 ^ 14) 7 in
  let off := Z.max V8M_SLAB_HEADER_SIZE (2 ^ 14) in
  (obj = NULL /\ large_ok [] [] st' [] /\ bytes_kept ex_large st' [] /\
   (300000 = 0 \/ V8M_PAGE_SIZE <= 2 ^ 14 \/ large_fails ex_lcfg 0 ex_large 300000 off V8M_PAGE_SIZE)) \/
  (lserved [] [] (guarded ex_lcfg) ex_large st' [] 300000 off obj /\ (2 ^ 14 | obj) /\ 300000 <= v8m_large_usable_size st' obj).
Proof. split; [vm_compute; reflexivity|]. apply (v8m_large_alloc_aligned_spec [] [] ex_lcfg 0 ex_large [] 300000 14 7 ex_large_ok); lia. Defined.

Definition ex_lalloc := v8m_large_alloc ex_lcfg 0 ex_large 300000 7.
Lemma ex_lalloc_eq : v8m_large_alloc ex_lcfg 0 ex_large 300000 7 = ex_lalloc.
Proof. unfold ex_lalloc. reflexivity. Qed.
Lemma ex_lalloc_obj : ex_lalloc.2 = 2 ^ 30 + 2048.
Proof. vm_compute. reflexivity. Qed.
Lemma ex_lused_ok : large_ok [] [] ex_lalloc.1 [(ex_lalloc.2, 300000)].
Proof.
  apply (large_alloc_result [] [] ex_lcfg 0 ex_large [] 300000 7 ex_lalloc ex_large_ok ltac:(lia) ex_lalloc_eq). rewrite ex_lalloc_obj. done.
Qed.

Lemma v8m_large_free_spec_witness :
  match v8m_large_free ex_lalloc.1 (ex_lalloc.2, 300000).1 with
  | Some st' => zone_intact ex_lalloc.1 (ex_lalloc.2, 300000) /\ large_ok [] [] st' [] /\ bytes_kept ex_lalloc.1 st' []
  | None => (ometa ex_lalloc.1 (ex_lalloc.2, 300000)).(guard_bytes) <> 0 /\ ~ zone_intact ex_lalloc.1 (ex_lalloc.2, 300000)
  end.
Proof. apply (v8m_large_free_spec [] [] ex_lalloc.1 [] (ex_lalloc.2, 300000) ex_lused_ok). Defined.

(** The byte after the object overwritten: the release aborts. *)
Definition is_aborted {A} (r : option A) : bool := match r with Some _ => false | None => true end.
Example ex_overflow_detected :
  is_aborted (v8m_large_free ex_lalloc.1 ex_lalloc.2) = false /\
  is_aborted (v8m_large_free (set_bytes ex_lalloc.1 (wr ex_lalloc.1.(l_bytes) (ex_lalloc.2 + 300000) 0)) ex_lalloc.2) = true.
Proof. split; vm_compute; reflexivity. Qed.

End LargeSpec.
