(* ===== verification/ThreadCache.v ===== *)
(** The per-thread cache: [src/v8m_thread_cache.h] and [src/v8m_thread_cache.c].

    A cache holds one bin per slab class, a stack of free objects linked through
    their first words, a few bins of buddy blocks, the counters of the periodic
    self-tuning, the sampled request histogram and the sampled lifetimes.  Only its
    thread touches it, apart from the remote-free queue ([RemoteFree]).

    A cache pointer that may be NULL is an [option]; the five per-class arrays are
    one list of records; memory holds the link words.  What a tick reads of the
    other components (options, NUMA node, load) is the argument [tick_env]. *)

From S2P Require Import Prelude SizeClass Page Config RemoteFree Buddy PageSource SlabPool BuddyPool.
Import SizeClass Page Config RemoteFree PageSource SlabPool.

Module ThreadCache.

Definition V8M_BIN_CAPACITY_MIN : Z := 16.
Definition V8M_BIN_CAPACITY_DEFAULT : Z := 64.
Definition V8M_BIN_CAPACITY_MAX : Z := 512.
Definition V8M_MEDIUM_TLC_FIRST_CLASS : Z := V8M_MEDIUM_FIRST_CLASS.
Definition V8M_MEDIUM_TLC_LAST_CLASS : Z := 37.
Definition V8M_TLC_GC_INTERVAL : Z := 1024.
Definition V8M_PREDICT_TABLE_SIZE : Z := 1024.
Definition V8M_PREDICT_NONE : Z := 0xFF.
Definition V8M_HISTOGRAM_SAMPLE_RATE : Z := 64.
Definition V8M_LIFETIME_SAMPLE_RATE : Z := 256.
Definition V8M_LIFETIME_RING_SIZE : Z := 64.
Definition V8M_LIFETIME_BUCKETS : Z := 32.
Definition V8M_TLC_MIGRATION_MAX_PAGES : nat := 256.

(** ** Data *)

(** One index of the five per-class arrays. *)
Record bin := MkBin {
  bin_heads : Z;
  bin_count : Z;
  bin_capacity : Z;
  alloc_count_per_class : Z;
  free_count_per_class : Z;
  ema_demand : Z
}.
Definition bin0 : bin := MkBin NULL 0 0 0 0 0.

Record medium_bin := MkMedium { medium_bin_heads : Z; medium_bin_count : Z }.
Definition medium0 : medium_bin := MkMedium NULL 0.

(** The request histogram, of a cache or of the process. *)
Record histogram := MkHist {
  request_count : list Z;
  request_bytes : list Z;
  huge_request_count : Z;
  huge_request_bytes : Z;
  histogram_tick : Z
}.
Definition hist0 : histogram := MkHist (replicate 41 0) (replicate 41 0) 0 0 0.

Record v8m_lifetime_bucket := MkBucket { bk_caller_pc : Z; sample_count : Z; ema_lifetime_ticks : Z }.
Record v8m_lifetime_ring_entry := MkEntry { re_ptr : Z; re_caller_pc : Z; alloc_tsc : Z }.
Definition bucket0 : v8m_lifetime_bucket := MkBucket 0 0 0.
Definition entry0 : v8m_lifetime_ring_entry := MkEntry NULL 0 0.

(** [struct v8m_lifetime_stats]: the six counters of a cache or of the process. *)
Record v8m_lifetime_stats := MkLStat {
  samples_recorded : Z;
  samples_completed : Z;
  samples_evicted : Z;
  ephemeral_count : Z;
  short_count : Z;
  long_count : Z
}.
Definition lstats0 : v8m_lifetime_stats := MkLStat 0 0 0 0 0 0.

Record v8m_thread_cache := MkCache {
  remote : Z;
  initialized : Z;
  bins : list bin;
  gc_countdown : Z;
  gc_generation : Z;
  last_numa_node : Z;
  numa_migration_calls : Z;
  predict_table : list Z;
  hist : histogram;
  local_alloc_count : Z;
  local_free_count : Z;
  registry_next : Z;
  lifetime_ring : list v8m_lifetime_ring_entry;
  lifetime_ring_pos : Z;
  lifetime_sample_tick : Z;
  lifetime_buckets : list v8m_lifetime_bucket;
  lifetime : v8m_lifetime_stats;
  mediums : list medium_bin
}.

(** What [v8m_thread_cache_get_or_create] writes into a new cache, once linked to
    [next] in the registry. *)
Definition new_cache (next : Z) : v8m_thread_cache :=
  MkCache v8m_mpsc_init 1 (replicate 32 (MkBin NULL 0 V8M_BIN_CAPACITY_DEFAULT 0 0 0)) V8M_TLC_GC_INTERVAL 0 UINT32_MAX 0
    (replicate 1024 V8M_PREDICT_NONE) hist0 0 0 next (replicate 64 entry0) 0 0 (replicate 32 bucket0) lstats0 (replicate 6 medium0).

Definition set_remote (c : v8m_thread_cache) v := MkCache v c.(initialized) c.(bins) c.(gc_countdown) c.(gc_generation) c.(last_numa_node)
  c.(numa_migration_calls) c.(predict_table) c.(hist) c.(local_alloc_count) c.(local_free_count) c.(registry_next) c.(lifetime_ring)
  c.(lifetime_ring_pos) c.(lifetime_sample_tick) c.(lifetime_buckets) c.(lifetime) c.(mediums).
Definition set_bins (c : v8m_thread_cache) v := MkCache c.(remote) c.(initialized) v c.(gc_countdown) c.(gc_generation) c.(last_numa_node)
  c.(numa_migration_calls) c.(predict_table) c.(hist) c.(local_alloc_count) c.(local_free_count) c.(registry_next) c.(lifetime_ring)
  c.(lifetime_ring_pos) c.(lifetime_sample_tick) c.(lifetime_buckets) c.(lifetime) c.(mediums).
Definition set_gc (c : v8m_thread_cache) countdown generation := MkCache c.(remote) c.(initialized) c.(bins) countdown generation c.(last_numa_node)
  c.(numa_migration_calls) c.(predict_table) c.(hist) c.(local_alloc_count) c.(local_free_count) c.(registry_next) c.(lifetime_ring)
  c.(lifetime_ring_pos) c.(lifetime_sample_tick) c.(lifetime_buckets) c.(lifetime) c.(mediums).
Definition set_node (c : v8m_thread_cache) node calls := MkCache c.(remote) c.(initialized) c.(bins) c.(gc_countdown) c.(gc_generation) node
  calls c.(predict_table) c.(hist) c.(local_alloc_count) c.(local_free_count) c.(registry_next) c.(lifetime_ring)
  c.(lifetime_ring_pos) c.(lifetime_sample_tick) c.(lifetime_buckets) c.(lifetime) c.(mediums).
Definition set_predict (c : v8m_thread_cache) v := MkCache c.(remote) c.(initialized) c.(bins) c.(gc_countdown) c.(gc_generation) c.(last_numa_node)
  c.(numa_migration_calls) v c.(hist) c.(local_alloc_count) c.(local_free_count) c.(registry_next) c.(lifetime_ring)
  c.(lifetime_ring_pos) c.(lifetime_sample_tick) c.(lifetime_buckets) c.(lifetime) c.(mediums).
Definition set_hist (c : v8m_thread_cache) v := MkCache c.(remote) c.(initialized) c.(bins) c.(gc_countdown) c.(gc_generation) c.(last_numa_node)
  c.(numa_migration_calls) c.(predict_table) v c.(local_alloc_count) c.(local_free_count) c.(registry_next) c.(lifetime_ring)
  c.(lifetime_ring_pos) c.(lifetime_sample_tick) c.(lifetime_buckets) c.(lifetime) c.(mediums).
Definition set_local (c : v8m_thread_cache) allocs frees := MkCache c.(remote) c.(initialized) c.(bins) c.(gc_countdown) c.(gc_generation) c.(last_numa_node)
  c.(numa_migration_calls) c.(predict_table) c.(hist) allocs frees c.(registry_next) c.(lifetime_ring)
  c.(lifetime_ring_pos) c.(lifetime_sample_tick) c.(lifetime_buckets) c.(lifetime) c.(mediums).
Definition set_registry_next (c : v8m_thread_cache) v := MkCache c.(remote) c.(initialized) c.(bins) c.(gc_countdown) c.(gc_generation) c.(last_numa_node)
  c.(numa_migration_calls) c.(predict_table) c.(hist) c.(local_alloc_count) c.(local_free_count) v c.(lifetime_ring)
  c.(lifetime_ring_pos) c.(lifetime_sample_tick) c.(lifetime_buckets) c.(lifetime) c.(mediums).
Definition set_ring (c : v8m_thread_cache) ring pos tick := MkCache c.(remote) c.(initialized) c.(bins) c.(gc_countdown) c.(gc_generation) c.(last_numa_node)
  c.(numa_migration_calls) c.(predict_table) c.(hist) c.(local_alloc_count) c.(local_free_count) c.(registry_next) ring
  pos tick c.(lifetime_buckets) c.(lifetime) c.(mediums).
Definition set_buckets (c : v8m_thread_cache) v := MkCache c.(remote) c.(initialized) c.(bins) c.(gc_countdown) c.(gc_generation) c.(last_numa_node)
  c.(numa_migration_calls) c.(predict_table) c.(hist) c.(local_alloc_count) c.(local_free_count) c.(registry_next) c.(lifetime_ring)
  c.(lifetime_ring_pos) c.(lifetime_sample_tick) v c.(lifetime) c.(mediums).
Definition set_lifetime (c : v8m_thread_cache) v := MkCache c.(remote) c.(initialized) c.(bins) c.(gc_countdown) c.(gc_generation) c.(last_numa_node)
  c.(numa_migration_calls) c.(predict_table) c.(hist) c.(local_alloc_count) c.(local_free_count) c.(registry_next) c.(lifetime_ring)
  c.(lifetime_ring_pos) c.(lifetime_sample_tick) c.(lifetime_buckets) v c.(mediums).
Definition set_mediums (c : v8m_thread_cache) v := MkCache c.(remote) c.(initialized) c.(bins) c.(gc_countdown) c.(gc_generation) c.(last_numa_node)
  c.(numa_migration_calls) c.(predict_table) c.(hist) c.(local_alloc_count) c.(local_free_count) c.(registry_next) c.(lifetime_ring)
  c.(lifetime_ring_pos) c.(lifetime_sample_tick) c.(lifetime_buckets) c.(lifetime) v.

Definition bin_at (c : v8m_thread_cache) (cls : Z) : bin := default bin0 (c.(bins) !! Z.to_nat cls).
Definition set_bin (c : v8m_thread_cache) (cls : Z) (b : bin) : v8m_thread_cache := set_bins c (<[Z.to_nat cls := b]> c.(bins)).
Definition medium_at (c : v8m_thread_cache) (idx : Z) : medium_bin := default medium0 (c.(mediums) !! Z.to_nat idx).
Definition set_medium (c : v8m_thread_cache) (idx : Z) (b : medium_bin) : v8m_thread_cache := set_mediums c (<[Z.to_nat idx := b]> c.(mediums)).

(** ** The self-tuning tick *)

(** The answers a tick gets: the current node, the number of nodes, whether the
    current node is suppressed, and the options.  [te_fuel] bounds the walk over a
    bin. *)
Record tick_env := MkTick { te_node : Z; te_node_count : Z; te_suppressed : bool; te_config : config; te_fuel : nat }.

(** The distinct pages of a bin, added to [pages] until the buffer is full. *)
Fixpoint collect_bin (fuel : nat) (mm : mem) (slot : Z) (pages : list Z) : list Z :=
  match fuel with
  | O => pages
  | S fuel =>
      if (slot =? NULL) || (V8M_TLC_MIGRATION_MAX_PAGES <=? length pages)%nat then pages
      else
        let page_base := Z.land slot V8M_PAGE_MASK in
        collect_bin fuel mm (rd mm slot) (if bool_decide (page_base ∈ pages) then pages else pages ++ [page_base])
  end.
Definition collect_pages (fuel : nat) (mm : mem) (bs : list bin) : list Z :=
  foldl (fun pages b => if (V8M_TLC_MIGRATION_MAX_PAGES <=? length pages)%nat then pages else collect_bin fuel mm b.(bin_heads) pages) [] bs.

(** The cache and the pages handed to [move_pages]. *)
Definition check_numa_migration (e : tick_env) (mm : mem) (c : v8m_thread_cache) : v8m_thread_cache * list Z :=
  let current_node := e.(te_node) in
  let last_node := c.(last_numa_node) in
  let c := set_node c current_node c.(numa_migration_calls) in
  if (last_node =? current_node) || (last_node =? UINT32_MAX) then (c, [])
  else if v8m_config_get e.(te_config) V8M_OPT_NUMA_AGGRESSIVE_MIGRATION =? 0 then (c, [])
  else if e.(te_node_count) <=? 1 then (c, [])
  else
    match collect_pages e.(te_fuel) mm c.(bins) with
    | [] => (c, [])
    | pages => (set_node c current_node (u64 (c.(numa_migration_calls) + 1)), pages)
    end.

(** The loop body of [v8m_thread_cache_gc_tick]. *)
Definition gc_class (node_overloaded : bool) (b : bin) : bin :=
  let allocs := b.(alloc_count_per_class) in
  let frees := b.(free_count_per_class) in
  let demand := if frees <? allocs then u16 (allocs - frees) else 0 in
  let ema := Z.shiftr (u32 (u32 (b.(ema_demand) * 3) + demand)) 2 in
  let ema := if UINT16_MAX <? ema then UINT16_MAX else ema in
  let new_cap := u32 (ema * 2) in
  let new_cap := if node_overloaded then Z.shiftr new_cap 1 else new_cap in
  let new_cap := if new_cap <? V8M_BIN_CAPACITY_MIN then V8M_BIN_CAPACITY_MIN else new_cap in
  let new_cap := if V8M_BIN_CAPACITY_MAX <? new_cap then V8M_BIN_CAPACITY_MAX else new_cap in
  MkBin b.(bin_heads) b.(bin_count) (u16 new_cap) 0 0 (u16 ema).

Definition v8m_thread_cache_gc_tick (e : tick_env) (mm : mem) (cache : option v8m_thread_cache) : option v8m_thread_cache :=
  match cache with
  | None => None
  | Some c =>
      let '(c, _) := check_numa_migration e mm c in
      let c := set_bins c (gc_class e.(te_suppressed) <$> c.(bins)) in
      Some (set_gc c V8M_TLC_GC_INTERVAL (u32 (c.(gc_generation) + 1)))
  end.

Definition tlc_tick_gc (e : tick_env) (mm : mem) (c : v8m_thread_cache) : v8m_thread_cache :=
  let c := set_gc c (u32 (c.(gc_countdown) - 1)) c.(gc_generation) in
  if c.(gc_countdown) =? 0 then default c (v8m_thread_cache_gc_tick e mm (Some c)) else c.

(** ** Bins *)

Definition v8m_thread_cache_alloc (e : tick_env) (mm : mem) (cache : option v8m_thread_cache) (cls : Z) : option v8m_thread_cache * Z :=
  match cache with
  | None => (None, NULL)
  | Some c =>
      if V8M_MEDIUM_FIRST_CLASS <=? cls then (cache, NULL)
      else
        let b := bin_at c cls in
        let head := b.(bin_heads) in
        if head =? NULL then (cache, NULL)
        else
          let next := rd mm head in
          let c := set_bin c cls (MkBin next (u16 (b.(bin_count) - 1)) b.(bin_capacity) (u16 (b.(alloc_count_per_class) + 1))
                     b.(free_count_per_class) b.(ema_demand)) in
          (Some (tlc_tick_gc e mm c), head)
  end.

(** The result says whether the bin is now over its capacity. *)
Definition v8m_thread_cache_free (e : tick_env) (mm : mem) (cache : option v8m_thread_cache) (cls obj : Z)
  : mem * option v8m_thread_cache * bool :=
  match cache with
  | None => (mm, None, false)
  | Some c =>
      if (V8M_MEDIUM_FIRST_CLASS <=? cls) || (obj =? NULL) then (mm, cache, false)
      else
        let b := bin_at c cls in
        let mm := wr mm obj b.(bin_heads) in
        let c := set_bin c cls (MkBin obj (u16 (b.(bin_count) + 1)) b.(bin_capacity) b.(alloc_count_per_class)
                   (u16 (b.(free_count_per_class) + 1)) b.(ema_demand)) in
        let c := tlc_tick_gc e mm c in
        (mm, Some c, (bin_at c cls).(bin_capacity) <=? (bin_at c cls).(bin_count))
  end.

(** The header's inline variants have the tick spelled out. *)
Definition v8m_thread_cache_alloc_inline (e : tick_env) (mm : mem) (cache : option v8m_thread_cache) (cls : Z)
  : option v8m_thread_cache * Z :=
  match cache with
  | None => (None, NULL)
  | Some c =>
      if V8M_MEDIUM_FIRST_CLASS <=? cls then (cache, NULL)
      else
        let b := bin_at c cls in
        let head := b.(bin_heads) in
        if head =? NULL then (cache, NULL)
        else
          let next := rd mm head in
          let c := set_bin c cls (MkBin next (u16 (b.(bin_count) - 1)) b.(bin_capacity) (u16 (b.(alloc_count_per_class) + 1))
                     b.(free_count_per_class) b.(ema_demand)) in
          let c := set_gc c (u32 (c.(gc_countdown) - 1)) c.(gc_generation) in
          (if c.(gc_countdown) =? 0 then v8m_thread_cache_gc_tick e mm (Some c) else Some c, head)
  end.
Definition v8m_thread_cache_free_inline (e : tick_env) (mm : mem) (cache : option v8m_thread_cache) (cls obj : Z)
  : mem * option v8m_thread_cache * bool :=
  match cache with
  | None => (mm, None, false)
  | Some c =>
      if (V8M_MEDIUM_FIRST_CLASS <=? cls) || (obj =? NULL) then (mm, cache, false)
      else
        let b := bin_at c cls in
        let mm := wr mm obj b.(bin_heads) in
        let c := set_bin c cls (MkBin obj (u16 (b.(bin_count) + 1)) b.(bin_capacity) b.(alloc_count_per_class)
                   (u16 (b.(free_count_per_class) + 1)) b.(ema_demand)) in
        let c := set_gc c (u32 (c.(gc_countdown) - 1)) c.(gc_generation) in
        let c := if c.(gc_countdown) =? 0 then default c (v8m_thread_cache_gc_tick e mm (Some c)) else c in
        (mm, Some c, (bin_at c cls).(bin_capacity) <=? (bin_at c cls).(bin_count))
  end.

(** The loop of [v8m_thread_cache_drain_chain], [while (got < count)]: [n] is
    [count - got]. *)
Fixpoint chain_loop (n : nat) (e : tick_env) (mm : mem) (cache : option v8m_thread_cache) (cls tail got : Z)
  : mem * option v8m_thread_cache * Z * Z :=
  match n with
  | O => (mm, cache, tail, got)
  | S n =>
      let '(cache, node) := v8m_thread_cache_alloc e mm cache cls in
      if node =? NULL then (mm, cache, tail, got)
      else chain_loop n e (wr mm tail node) cache cls node (got + 1)
  end.
(** Memory, cache, [*out_head], [*out_tail] and the count. *)
Definition v8m_thread_cache_drain_chain (e : tick_env) (mm : mem) (cache : option v8m_thread_cache) (cls count : Z)
  : mem * option v8m_thread_cache * Z * Z * Z :=
  match cache with
  | None => (mm, cache, NULL, NULL, 0)
  | Some _ =>
      if (V8M_MEDIUM_FIRST_CLASS <=? cls) || (count =? 0) then (mm, cache, NULL, NULL, 0)
      else
        let '(cache, first) := v8m_thread_cache_alloc e mm cache cls in
        if first =? NULL then (mm, cache, NULL, NULL, 0)
        else
          let '(mm, cache, tail, got) := chain_loop (Z.to_nat (count - 1)) e mm cache cls first 1 in
          (wr mm tail NULL, cache, first, tail, got)
  end.

Definition v8m_thread_cache_install_chain (mm : mem) (cache : option v8m_thread_cache) (cls head tail count : Z)
  : mem * option v8m_thread_cache :=
  match cache with
  | None => (mm, None)
  | Some c =>
      if (head =? NULL) || (tail =? NULL) || (V8M_MEDIUM_FIRST_CLASS <=? cls) || (count =? 0) then (mm, cache)
      else
        let b := bin_at c cls in
        (wr mm tail b.(bin_heads),
         Some (set_bin c cls (MkBin head (u16 (b.(bin_count) + count)) b.(bin_capacity) b.(alloc_count_per_class)
                 b.(free_count_per_class) b.(ema_demand))))
  end.

(** [meta_of] reads a page header. *)
Fixpoint remote_loop (fuel : nat) (e : tick_env) (meta_of : Z -> page_meta) (mm : mem) (cache : option v8m_thread_cache) (node count : Z)
  : option (mem * option v8m_thread_cache * Z) :=
  if node =? NULL then Some (mm, cache, count)
  else
    match fuel with
    | O => None
    | S fuel =>
        let next := rd mm node in
        let page := v8m_ptr_to_meta node in
        let m := meta_of page in
        let '(mm, cache) :=
          if negb (page =? NULL) && (v8m_page_meta_valid page m && (m.(size_class) <? V8M_MEDIUM_FIRST_CLASS)) then
            let '(mm, cache, _) := v8m_thread_cache_free e mm cache m.(size_class) node in (mm, cache)
          else (mm, cache) in
        remote_loop fuel e meta_of mm cache next (count + 1)
    end.
Definition v8m_thread_cache_drain_remote (fuel : nat) (e : tick_env) (meta_of : Z -> page_meta) (mm : mem) (cache : option v8m_thread_cache)
  : option (mem * option v8m_thread_cache * Z) :=
  match cache with
  | None => Some (mm, None, 0)
  | Some c =>
      let '(head, node) := v8m_mpsc_drain c.(remote) in
      remote_loop fuel e meta_of mm (Some (set_remote c head)) node 0
  end.

(** ** Buddy blocks *)

Definition k_medium_bin_caps : list Z := [4; 4; 2; 2; 1; 1].

Definition v8m_thread_cache_medium_alloc (mm : mem) (cache : option v8m_thread_cache) (cls : Z) : option v8m_thread_cache * Z :=
  match cache with
  | None => (None, NULL)
  | Some c =>
      if (cls <? V8M_MEDIUM_TLC_FIRST_CLASS) || (V8M_MEDIUM_TLC_LAST_CLASS <? cls) then (cache, NULL)
      else
        let idx := cls - V8M_MEDIUM_TLC_FIRST_CLASS in
        let b := medium_at c idx in
        let head := b.(medium_bin_heads) in
        if head =? NULL then (cache, NULL)
        else (Some (set_medium c idx (MkMedium (rd mm head) (u8 (b.(medium_bin_count) - 1)))), head)
  end.

(** [true] when the caller must free the block itself. *)
Definition v8m_thread_cache_medium_free (mm : mem) (cache : option v8m_thread_cache) (cls obj : Z)
  : mem * option v8m_thread_cache * bool :=
  match cache with
  | None => (mm, None, true)
  | Some c =>
      if obj =? NULL then (mm, cache, true)
      else if (cls <? V8M_MEDIUM_TLC_FIRST_CLASS) || (V8M_MEDIUM_TLC_LAST_CLASS <? cls) then (mm, cache, true)
      else
        let idx := cls - V8M_MEDIUM_TLC_FIRST_CLASS in
        let b := medium_at c idx in
        if znth k_medium_bin_caps idx <=? b.(medium_bin_count) then (mm, cache, true)
        else (wr mm obj b.(medium_bin_heads), Some (set_medium c idx (MkMedium obj (u8 (b.(medium_bin_count) + 1)))), false)
  end.

(** ** The predictor *)

Definition predict_index (caller_pc : Z) : Z := Z.land (Z.shiftr caller_pc 4) (V8M_PREDICT_TABLE_SIZE - 1).
(** The class whose bin is prefetched. *)
Definition v8m_thread_cache_predict_prefetch (cache : option v8m_thread_cache) (caller_pc : Z) : option Z :=
  match cache with
  | None => None
  | Some c =>
      let predicted := znth c.(predict_table) (predict_index caller_pc) in
      if V8M_MEDIUM_FIRST_CLASS <=? predicted then None else Some predicted
  end.
Definition v8m_thread_cache_predict_update (cache : option v8m_thread_cache) (caller_pc cls : Z) : option v8m_thread_cache :=
  match cache with
  | None => None
  | Some c =>
      if V8M_MEDIUM_FIRST_CLASS <=? cls then cache
      else Some (set_predict c (zupd c.(predict_table) (predict_index caller_pc) (u8 cls)))
  end.

(** ** Returning objects to the pools *)

Section Pools.
Context `{PageSource}.

Fixpoint flush_loop (n fuel : nat) (c : v8m_thread_cache) (pool : slab_pool) (cls freed : Z) : option (v8m_thread_cache * slab_pool * Z) :=
  match n with
  | O => Some (c, pool, freed)
  | S n =>
      let b := bin_at c cls in
      let obj := b.(bin_heads) in
      if obj =? NULL then Some (c, pool, freed)
      else
        let next := rd pool.(smem) obj in
        let c := set_bin c cls (MkBin next (u16 (b.(bin_count) - 1)) b.(bin_capacity) b.(alloc_count_per_class)
                   b.(free_count_per_class) b.(ema_demand)) in
        match v8m_slab_pool_free fuel pool (v8m_ptr_to_meta obj) obj with
        | None => None
        | Some (pool, _) => flush_loop n fuel c pool cls (freed + 1)
        end
  end.
Definition v8m_thread_cache_flush_half (fuel : nat) (cache : option v8m_thread_cache) (pool : slab_pool) (cls : Z)
  : option (option v8m_thread_cache * slab_pool * Z) :=
  match cache with
  | None => Some (None, pool, 0)
  | Some c =>
      if V8M_MEDIUM_FIRST_CLASS <=? cls then Some (cache, pool, 0)
      else
        let flush_count := u16 (u32 ((bin_at c cls).(bin_count) + 1) / 2) in
        match flush_loop (Z.to_nat flush_count) fuel c pool cls 0 with
        | None => None
        | Some (c, pool, freed) => Some (Some c, pool, freed)
        end
  end.

(** The inner loop of [v8m_thread_cache_drain_all]; it runs at most [rounds] times. *)
Fixpoint drain_class (rounds fuel : nat) (c : v8m_thread_cache) (pool : slab_pool) (cls total : Z)
  : option (v8m_thread_cache * slab_pool * Z) :=
  if (bin_at c cls).(bin_heads) =? NULL then Some (c, pool, total)
  else
    match rounds with
    | O => None
    | S rounds =>
        match v8m_thread_cache_flush_half fuel (Some c) pool cls with
        | Some (Some c, pool, freed) => drain_class rounds fuel c pool cls (u64 (total + freed))
        | _ => None
        end
    end.
Fixpoint drain_classes (rounds fuel : nat) (cs : list Z) (c : v8m_thread_cache) (pool : slab_pool) (total : Z)
  : option (v8m_thread_cache * slab_pool * Z) :=
  match cs with
  | [] => Some (c, pool, total)
  | cls :: cs =>
      match drain_class rounds fuel c pool cls total with
      | None => None
      | Some (c, pool, total) => drain_classes rounds fuel cs c pool total
      end
  end.
Definition v8m_thread_cache_drain_all (rounds fuel : nat) (cache : option v8m_thread_cache) (pool : slab_pool)
  : option (option v8m_thread_cache * slab_pool * Z) :=
  match cache with
  | None => Some (None, pool, 0)
  | Some c =>
      match drain_classes rounds fuel (seqZ 0 V8M_MEDIUM_FIRST_CLASS) c pool 0 with
      | None => None
      | Some (c, pool, total) => Some (Some c, pool, total)
      end
  end.

(** The inner loop of [v8m_thread_cache_drain_medium]. *)
Fixpoint medium_loop (fuel : nat) (cfg : config) (pool : BuddyPool.buddy_pool) (head total : Z) : option (BuddyPool.buddy_pool * Z) :=
  if head =? NULL then Some (pool, total)
  else
    match fuel with
    | O => None
    | S fuel =>
        let next := rd pool.(BuddyPool.bmem) head in
        let '(pool, _) := BuddyPool.v8m_buddy_pool_free cfg pool head in
        medium_loop fuel cfg pool next (u64 (total + 1))
    end.
Fixpoint medium_bins (fuel : nat) (cfg : config) (idxs : list Z) (c : v8m_thread_cache) (pool : BuddyPool.buddy_pool) (total : Z)
  : option (v8m_thread_cache * BuddyPool.buddy_pool * Z) :=
  match idxs with
  | [] => Some (c, pool, total)
  | idx :: idxs =>
      match medium_loop fuel cfg pool (medium_at c idx).(medium_bin_heads) total with
      | None => None
      | Some (pool, total) => medium_bins fuel cfg idxs (set_medium c idx medium0) pool total
      end
  end.
Definition v8m_thread_cache_drain_medium (fuel : nat) (cfg : config) (cache : option v8m_thread_cache) (pool : BuddyPool.buddy_pool)
  : option (option v8m_thread_cache * BuddyPool.buddy_pool * Z) :=
  match cache with
  | None => Some (None, pool, 0)
  | Some c =>
      match medium_bins fuel cfg (seqZ 0 6) c pool 0 with
      | None => None
      | Some (c, pool, total) => Some (Some c, pool, total)
      end
  end.

End Pools.

End ThreadCache.
