(* ===== verification/ThreadRegistry.v ===== *)
(** The process-wide side of the thread cache: [src/v8m_thread_cache.c], and the
    allocation counters of [src/v8m_dispatch.c].

    Every live cache is on the registry, a list linked through [registry_next]; the
    totals of exited threads are folded into process-wide counters.  [reg] holds
    the cache structures by address and the globals, [tls] the thread-local
    variables of one thread.  The registry lock makes each walk of the list a single
    step: [registry_unlink], the insertion of a new cache, a snapshot.  A leaving
    thread folds its counters into the totals ([registry_fold]) after it has released
    the lock, so a snapshot between the two steps of [registry_unregister_and_fold]
    counts them nowhere. *)

From S2P Require Import Prelude SizeClass Config RemoteFree ThreadCache.
Import SizeClass Config ThreadCache.

Module ThreadRegistry.

Record reg := MkReg {
  g_registry_head : Z;
  caches : gmap Z v8m_thread_cache;
  g_hist : histogram;
  g_lifetime : v8m_lifetime_stats;
  g_lifetime_short_threshold_ticks : Z;
  g_lifetime_long_threshold_ticks : Z;
  g_dispatch_alloc_count : Z;
  g_dispatch_free_count : Z;
  g_destructor_calls : Z;
  g_key_initialized : bool
}.
Definition set_head (g : reg) v := MkReg v g.(caches) g.(g_hist) g.(g_lifetime) g.(g_lifetime_short_threshold_ticks)
  g.(g_lifetime_long_threshold_ticks) g.(g_dispatch_alloc_count) g.(g_dispatch_free_count) g.(g_destructor_calls) g.(g_key_initialized).
Definition set_caches (g : reg) v := MkReg g.(g_registry_head) v g.(g_hist) g.(g_lifetime) g.(g_lifetime_short_threshold_ticks)
  g.(g_lifetime_long_threshold_ticks) g.(g_dispatch_alloc_count) g.(g_dispatch_free_count) g.(g_destructor_calls) g.(g_key_initialized).
Definition set_g_hist (g : reg) v := MkReg g.(g_registry_head) g.(caches) v g.(g_lifetime) g.(g_lifetime_short_threshold_ticks)
  g.(g_lifetime_long_threshold_ticks) g.(g_dispatch_alloc_count) g.(g_dispatch_free_count) g.(g_destructor_calls) g.(g_key_initialized).
Definition set_g_lifetime (g : reg) v := MkReg g.(g_registry_head) g.(caches) g.(g_hist) v g.(g_lifetime_short_threshold_ticks)
  g.(g_lifetime_long_threshold_ticks) g.(g_dispatch_alloc_count) g.(g_dispatch_free_count) g.(g_destructor_calls) g.(g_key_initialized).
Definition set_thresholds (g : reg) short long := MkReg g.(g_registry_head) g.(caches) g.(g_hist) g.(g_lifetime) short
  long g.(g_dispatch_alloc_count) g.(g_dispatch_free_count) g.(g_destructor_calls) g.(g_key_initialized).
Definition set_counts (g : reg) allocs frees := MkReg g.(g_registry_head) g.(caches) g.(g_hist) g.(g_lifetime) g.(g_lifetime_short_threshold_ticks)
  g.(g_lifetime_long_threshold_ticks) allocs frees g.(g_destructor_calls) g.(g_key_initialized).
Definition set_module (g : reg) calls ready := MkReg g.(g_registry_head) g.(caches) g.(g_hist) g.(g_lifetime) g.(g_lifetime_short_threshold_ticks)
  g.(g_lifetime_long_threshold_ticks) g.(g_dispatch_alloc_count) g.(g_dispatch_free_count) calls ready.

(** [t_specific] is the value [pthread_setspecific] stored for the destructor. *)
Record tls := MkTls { t_cache : Z; t_in_create : bool; t_in_destructor : bool; t_specific : Z }.

Definition cache_at (g : reg) (a : Z) : v8m_thread_cache := default (new_cache NULL) (g.(caches) !! a).
Lemma cache_at_some g a c : g.(caches) !! a = Some c -> cache_at g a = c.
Proof. intros Ha. unfold cache_at. by rewrite Ha. Qed.
Definition set_cache (g : reg) (a : Z) (c : v8m_thread_cache) : reg := set_caches g (<[a := c]> g.(caches)).

(** ** Counters of the dispatcher *)

Definition v8m_dispatch_fold_alloc_free (g : reg) (allocs frees : Z) : reg :=
  let g := if allocs =? 0 then g else set_counts g (u64 (g.(g_dispatch_alloc_count) + allocs)) g.(g_dispatch_free_count) in
  if frees =? 0 then g else set_counts g g.(g_dispatch_alloc_count) (u64 (g.(g_dispatch_free_count) + frees)).

(** The calling thread's cache, when it can be used. *)
Definition usable (g : reg) (a : Z) : bool := negb (a =? NULL) && negb ((cache_at g a).(initialized) =? 0).

Definition v8m_dispatch_record_alloc (g : reg) (t : tls) : reg :=
  if usable g t.(t_cache) then
    let c := cache_at g t.(t_cache) in set_cache g t.(t_cache) (set_local c (u64 (c.(local_alloc_count) + 1)) c.(local_free_count))
  else set_counts g (u64 (g.(g_dispatch_alloc_count) + 1)) g.(g_dispatch_free_count).
Definition v8m_dispatch_record_free_cache (g : reg) (cache : Z) : reg :=
  if usable g cache then
    let c := cache_at g cache in set_cache g cache (set_local c c.(local_alloc_count) (u64 (c.(local_free_count) + 1)))
  else set_counts g g.(g_dispatch_alloc_count) (u64 (g.(g_dispatch_free_count) + 1)).
Definition v8m_dispatch_record_free (g : reg) (t : tls) : reg := v8m_dispatch_record_free_cache g t.(t_cache).

(** ** The registry *)

(** A link: the head variable, or a cache's [registry_next]. *)
Definition link_get (g : reg) (link : option Z) : Z :=
  match link with None => g.(g_registry_head) | Some a => (cache_at g a).(registry_next) end.
Definition link_set (g : reg) (link : option Z) (v : Z) : reg :=
  match link with None => set_head g v | Some a => set_cache g a (set_registry_next (cache_at g a) v) end.
Fixpoint find_link (fuel : nat) (g : reg) (link : option Z) (cache : Z) : option (option Z) :=
  let a := link_get g link in
  if (a =? NULL) || (a =? cache) then Some link
  else match fuel with O => None | S fuel => find_link fuel g (Some a) cache end.

(** One counter folded into the process-wide one. *)
Definition fold_counter (gl c : Z) : Z := if c =? 0 then gl else u64 (gl + c).
Definition fold_hist (gl c : histogram) : histogram :=
  MkHist (zip_with fold_counter gl.(request_count) c.(request_count)) (zip_with fold_counter gl.(request_bytes) c.(request_bytes))
    (fold_counter gl.(huge_request_count) c.(huge_request_count)) (fold_counter gl.(huge_request_bytes) c.(huge_request_bytes)) gl.(histogram_tick).
Definition fold_lifetime (gl c : v8m_lifetime_stats) : v8m_lifetime_stats :=
  MkLStat (fold_counter gl.(samples_recorded) c.(samples_recorded)) (fold_counter gl.(samples_completed) c.(samples_completed))
    (fold_counter gl.(samples_evicted) c.(samples_evicted)) (fold_counter gl.(ephemeral_count) c.(ephemeral_count))
    (fold_counter gl.(short_count) c.(short_count)) (fold_counter gl.(long_count) c.(long_count)).

(** The part that holds the registry lock, and the part after it. *)
Definition registry_unlink (fuel : nat) (g : reg) (cache : Z) : option reg :=
  match find_link fuel g None cache with
  | None => None
  | Some link =>
      Some (if link_get g link =? cache then
              let g := link_set g link (cache_at g cache).(registry_next) in
              set_cache g cache (set_registry_next (cache_at g cache) NULL)
            else g)
  end.
Definition registry_fold (g : reg) (cache : Z) : reg :=
  let c := cache_at g cache in
  let g := set_g_hist g (fold_hist g.(g_hist) c.(hist)) in
  let g := v8m_dispatch_fold_alloc_free g c.(local_alloc_count) c.(local_free_count) in
  set_g_lifetime g (fold_lifetime g.(g_lifetime) c.(lifetime)).
Definition registry_unregister_and_fold (fuel : nat) (g : reg) (cache : Z) : option reg :=
  if cache =? NULL then Some g
  else match registry_unlink fuel g cache with None => None | Some g => Some (registry_fold g cache) end.

(** [free(cache)] ends the structure. *)
Definition free_cache (g : reg) (cache : Z) : reg := set_caches g (delete cache g.(caches)).

(** The drain hook, when one is set, works on the cache structure. *)
Definition run_hook (hook : option (v8m_thread_cache -> v8m_thread_cache)) (g : reg) (cache : Z) : reg :=
  match hook with None => g | Some f => set_cache g cache (f (cache_at g cache)) end.

Definition destroy_cache (fuel : nat) (hook : option (v8m_thread_cache -> v8m_thread_cache)) (g : reg) (t : tls) (cache : Z) : option (reg * tls) :=
  if cache =? NULL then Some (g, t)
  else
    match registry_unregister_and_fold fuel (run_hook hook g cache) cache with
    | None => None
    | Some g =>
        let g := free_cache g cache in
        Some (set_module g (u64 (g.(g_destructor_calls) + 1)) g.(g_key_initialized), MkTls NULL t.(t_in_create) true t.(t_specific))
    end.
Definition v8m_thread_cache_release_local (fuel : nat) (hook : option (v8m_thread_cache -> v8m_thread_cache)) (g : reg) (t : tls) : option (reg * tls) :=
  if t.(t_cache) =? NULL then Some (g, t)
  else
    match registry_unregister_and_fold fuel (run_hook hook g t.(t_cache)) t.(t_cache) with
    | None => None
    | Some g => Some (free_cache g t.(t_cache), MkTls NULL t.(t_in_create) t.(t_in_destructor) t.(t_specific))
    end.

Definition v8m_thread_cache_peek (t : tls) : Z := t.(t_cache).

(** [fresh] is what [aligned_alloc] returns. *)
Definition v8m_thread_cache_get_or_create (g : reg) (t : tls) (fresh : Z) : reg * tls * Z :=
  if negb (t.(t_cache) =? NULL) then (g, t, t.(t_cache))
  else if t.(t_in_create) || t.(t_in_destructor) then (g, t, NULL)
  else if fresh =? NULL then (g, t, NULL)
  else
    let t := MkTls fresh t.(t_in_create) t.(t_in_destructor) (if g.(g_key_initialized) then fresh else t.(t_specific)) in
    (set_head (set_cache g fresh (new_cache g.(g_registry_head))) fresh, t, fresh).

(** [key_rc] is the result of [pthread_key_create]. *)
Definition v8m_thread_cache_module_init (g : reg) (t : tls) (key_rc : Z) : reg * tls * Z :=
  if g.(g_key_initialized) then (g, t, 0)
  else if negb (key_rc =? 0) then (g, t, key_rc)
  else (set_module g g.(g_destructor_calls) true,
        MkTls t.(t_cache) t.(t_in_create) t.(t_in_destructor) (if t.(t_cache) =? NULL then t.(t_specific) else t.(t_cache)), 0).
Definition v8m_thread_cache_module_shutdown (fuel : nat) (g : reg) (t : tls) : option (reg * tls) :=
  if negb g.(g_key_initialized) then Some (g, t)
  else
    let cache := t.(t_cache) in
    let t := MkTls NULL t.(t_in_create) t.(t_in_destructor) t.(t_specific) in
    match (if cache =? NULL then Some g
           else match registry_unregister_and_fold fuel g cache with None => None | Some g => Some (free_cache g cache) end) with
    | None => None
    | Some g => Some (set_module g g.(g_destructor_calls) false, t)
    end.
Definition v8m_thread_cache_destructor_calls (g : reg) : Z := g.(g_destructor_calls).

(** ** The request histogram *)

Definition count_request (h : histogram) (cls size : Z) : histogram :=
  if cls <? V8M_NUM_SIZE_CLASSES then
    MkHist (zupd h.(request_count) cls (u64 (znth h.(request_count) cls + 1)))
      (zupd h.(request_bytes) cls (u64 (znth h.(request_bytes) cls + size))) h.(huge_request_count) h.(huge_request_bytes) h.(histogram_tick)
  else MkHist h.(request_count) h.(request_bytes) (u64 (h.(huge_request_count) + 1)) (u64 (h.(huge_request_bytes) + size)) h.(histogram_tick).
Definition sample_request (h : histogram) (cls size : Z) : histogram :=
  let tick := u64 (h.(histogram_tick) + 1) in
  let h := MkHist h.(request_count) h.(request_bytes) h.(huge_request_count) h.(huge_request_bytes) tick in
  if negb (Z.land tick (V8M_HISTOGRAM_SAMPLE_RATE - 1) =? 0) then h else count_request h cls size.
Definition v8m_thread_cache_record_alloc (g : reg) (t : tls) (cls request_size : Z) : reg :=
  if usable g t.(t_cache) then
    let c := cache_at g t.(t_cache) in set_cache g t.(t_cache) (set_hist c (sample_request c.(hist) cls request_size))
  else set_g_hist g (sample_request g.(g_hist) cls request_size).

(** The walk over the registry, from a cache address on. *)
Fixpoint registry_walk {A} (fuel : nat) (g : reg) (f : A -> v8m_thread_cache -> A) (a : Z) (out : A) : option A :=
  if a =? NULL then Some out
  else match fuel with O => None | S fuel => registry_walk fuel g f (cache_at g a).(registry_next) (f out (cache_at g a)) end.

Definition add64 (x y : Z) : Z := u64 (x + y).
(** The tick is not part of the snapshot. *)
Definition add_hist (out c : histogram) : histogram :=
  MkHist (zip_with add64 out.(request_count) c.(request_count)) (zip_with add64 out.(request_bytes) c.(request_bytes))
    (add64 out.(huge_request_count) c.(huge_request_count)) (add64 out.(huge_request_bytes) c.(huge_request_bytes)) 0.
Definition v8m_thread_cache_aggregate_histogram (fuel : nat) (g : reg) : option histogram :=
  let gl := g.(g_hist) in
  registry_walk fuel g (fun out c => add_hist out c.(hist)) g.(g_registry_head)
    (MkHist gl.(request_count) gl.(request_bytes) gl.(huge_request_count) gl.(huge_request_bytes) 0).

(** [*out_allocs] and [*out_frees] before and after. *)
Definition v8m_thread_cache_aggregate_alloc_free (fuel : nat) (g : reg) (out_allocs out_frees : Z) : option (Z * Z) :=
  match registry_walk fuel g (fun out c => (add64 out.1 c.(local_alloc_count), add64 out.2 c.(local_free_count))) g.(g_registry_head) (0, 0) with
  | None => None
  | Some (allocs, frees) => Some (add64 out_allocs allocs, add64 out_frees frees)
  end.
Definition v8m_dispatch_total_alloc_count (fuel : nat) (g : reg) : option Z :=
  match v8m_thread_cache_aggregate_alloc_free fuel g 0 0 with None => None | Some (allocs, _) => Some (add64 allocs g.(g_dispatch_alloc_count)) end.
Definition v8m_dispatch_total_free_count (fuel : nat) (g : reg) : option Z :=
  match v8m_thread_cache_aggregate_alloc_free fuel g 0 0 with None => None | Some (_, frees) => Some (add64 frees g.(g_dispatch_free_count)) end.

Fixpoint reset_walk (fuel : nat) (g : reg) (a : Z) : option reg :=
  if a =? NULL then Some g
  else match fuel with O => None | S fuel => reset_walk fuel (set_cache g a (set_local (cache_at g a) 0 0)) (cache_at g a).(registry_next) end.
Definition v8m_thread_cache_reset_alloc_free_counts (fuel : nat) (g : reg) : option reg := reset_walk fuel g g.(g_registry_head).
Definition v8m_dispatch_reset_alloc_free_counts (fuel : nat) (g : reg) : option reg :=
  v8m_thread_cache_reset_alloc_free_counts fuel (set_counts g 0 0).

End ThreadRegistry.
