(* ===== verification/Lifetime.v ===== *)
(** The lifetime sampler of the thread cache: [src/v8m_thread_cache.c].

    One allocation in 256 is remembered with its call site and time stamp in a ring
    of 64 entries; when it is freed, its lifetime updates the running average of the
    call site in a table of 32 buckets with linear probing.  The clock reading [tsc]
    and the clock frequency [mhz] are arguments. *)

From S2P Require Import Prelude SizeClass Config ThreadCache ThreadRegistry.
Import Config ThreadCache ThreadRegistry.

Module Lifetime.

Inductive v8m_lifetime_class := V8M_LIFETIME_EPHEMERAL | V8M_LIFETIME_SHORT | V8M_LIFETIME_LONG | V8M_LIFETIME_UNKNOWN.

#[export] Instance lifetime_class_eq_dec : EqDecision v8m_lifetime_class.
Proof. solve_decision. Defined.

Definition ensure_lifetime_thresholds (g : reg) (mhz : Z) : reg :=
  if negb (g.(g_lifetime_long_threshold_ticks) =? 0) then g
  else
    let mhz := if mhz =? 0 then 1000 else mhz in
    set_thresholds g (u64 (mhz * 100)) (u64 (u64 (mhz * 100) * 1000)).

(** The slots in probing order. *)
Definition normal_pc (caller_pc : Z) : Z := if caller_pc =? 0 then 1 else caller_pc.
Definition start_slot (caller_pc : Z) : Z := Z.land (Z.shiftr caller_pc 4) (V8M_LIFETIME_BUCKETS - 1).
Definition probe (caller_pc : Z) : list nat :=
  (fun step => Z.to_nat (Z.land (start_slot caller_pc + step) (V8M_LIFETIME_BUCKETS - 1))) <$> seqZ 0 V8M_LIFETIME_BUCKETS.

Definition bucket_at (bs : list v8m_lifetime_bucket) (i : nat) : v8m_lifetime_bucket := default bucket0 (bs !! i).

(** The bucket's index, and the table after a free bucket was claimed. *)
Fixpoint find_bucket (idxs : list nat) (bs : list v8m_lifetime_bucket) (pc : Z) : option (nat * list v8m_lifetime_bucket) :=
  match idxs with
  | [] => None
  | i :: idxs =>
      let b := bucket_at bs i in
      if b.(bk_caller_pc) =? pc then Some (i, bs)
      else if b.(bk_caller_pc) =? 0 then Some (i, <[i := MkBucket pc b.(sample_count) b.(ema_lifetime_ticks)]> bs)
      else find_bucket idxs bs pc
  end.
Definition lifetime_bucket_for (bs : list v8m_lifetime_bucket) (caller_pc : Z) : option (nat * list v8m_lifetime_bucket) :=
  let pc := normal_pc caller_pc in find_bucket (probe pc) bs pc.

Definition classify_and_count (g : reg) (s : v8m_lifetime_stats) (ticks : Z) : v8m_lifetime_stats :=
  if ticks <? g.(g_lifetime_short_threshold_ticks) then
    MkLStat s.(samples_recorded) s.(samples_completed) s.(samples_evicted) (u64 (s.(ephemeral_count) + 1)) s.(short_count) s.(long_count)
  else if ticks <? g.(g_lifetime_long_threshold_ticks) then
    MkLStat s.(samples_recorded) s.(samples_completed) s.(samples_evicted) s.(ephemeral_count) (u64 (s.(short_count) + 1)) s.(long_count)
  else MkLStat s.(samples_recorded) s.(samples_completed) s.(samples_evicted) s.(ephemeral_count) s.(short_count) (u64 (s.(long_count) + 1)).

Definition add_recorded (s : v8m_lifetime_stats) : v8m_lifetime_stats :=
  MkLStat (u64 (s.(samples_recorded) + 1)) s.(samples_completed) s.(samples_evicted) s.(ephemeral_count) s.(short_count) s.(long_count).
Definition add_completed (s : v8m_lifetime_stats) : v8m_lifetime_stats :=
  MkLStat s.(samples_recorded) (u64 (s.(samples_completed) + 1)) s.(samples_evicted) s.(ephemeral_count) s.(short_count) s.(long_count).
Definition add_evicted (s : v8m_lifetime_stats) : v8m_lifetime_stats :=
  MkLStat s.(samples_recorded) s.(samples_completed) (u64 (s.(samples_evicted) + 1)) s.(ephemeral_count) s.(short_count) s.(long_count).

Definition entry_at (ring : list v8m_lifetime_ring_entry) (i : Z) : v8m_lifetime_ring_entry := default entry0 (ring !! Z.to_nat i).

(** The part after the guards, on the thread's cache. *)
Definition record_sample (c : v8m_thread_cache) (tsc ptr caller_pc : Z) : v8m_thread_cache :=
  let c := set_ring c c.(lifetime_ring) c.(lifetime_ring_pos) (u64 (c.(lifetime_sample_tick) + 1)) in
  if negb (Z.land c.(lifetime_sample_tick) (V8M_LIFETIME_SAMPLE_RATE - 1) =? 0) then c
  else if tsc =? 0 then c
  else
    let pos := c.(lifetime_ring_pos) in
    let c := if negb ((entry_at c.(lifetime_ring) pos).(re_ptr) =? NULL) then set_lifetime c (add_evicted c.(lifetime)) else c in
    let c := set_ring c (<[Z.to_nat pos := MkEntry ptr caller_pc tsc]> c.(lifetime_ring)) (Z.land (pos + 1) (V8M_LIFETIME_RING_SIZE - 1))
               c.(lifetime_sample_tick) in
    set_lifetime c (add_recorded c.(lifetime)).
Definition v8m_thread_cache_lifetime_record_alloc (cfg : config) (g : reg) (t : tls) (tsc ptr caller_pc : Z) : reg :=
  if ptr =? NULL then g
  else if v8m_config_get cfg V8M_OPT_LIFETIME_TRACKING =? 0 then g
  else if negb (usable g t.(t_cache)) then g
  else set_cache g t.(t_cache) (record_sample (cache_at g t.(t_cache)) tsc ptr caller_pc).

(** The running average of a bucket. *)
Definition update_ema (b : v8m_lifetime_bucket) (ticks : Z) : v8m_lifetime_bucket :=
  let prev := b.(ema_lifetime_ticks) in
  MkBucket b.(bk_caller_pc) (u64 (b.(sample_count) + 1)) (if prev =? 0 then ticks else u64 (u64 (prev * 3) + ticks) / 4).

Definition v8m_thread_cache_lifetime_record_free (cfg : config) (mhz : Z) (g : reg) (t : tls) (tsc ptr : Z) : reg :=
  if ptr =? NULL then g
  else if v8m_config_get cfg V8M_OPT_LIFETIME_TRACKING =? 0 then g
  else if negb (usable g t.(t_cache)) then g
  else
    let c := cache_at g t.(t_cache) in
    match list_find (fun e => e.(re_ptr) = ptr) c.(lifetime_ring) with
    | None => g
    | Some (i, e) =>
        let c := set_ring c (<[i := entry0]> c.(lifetime_ring)) c.(lifetime_ring_pos) c.(lifetime_sample_tick) in
        if (tsc =? 0) || (e.(alloc_tsc) =? 0) || (tsc <? e.(alloc_tsc)) then
          set_cache g t.(t_cache) (set_lifetime c (add_completed c.(lifetime)))
        else
          let ticks := u64 (tsc - e.(alloc_tsc)) in
          let c := match lifetime_bucket_for c.(lifetime_buckets) e.(re_caller_pc) with
                   | None => c
                   | Some (j, bs) => set_buckets c (<[j := update_ema (bucket_at bs j) ticks]> bs)
                   end in
          let g := ensure_lifetime_thresholds g mhz in
          set_cache g t.(t_cache) (set_lifetime c (add_completed (classify_and_count g c.(lifetime) ticks)))
    end.

Fixpoint classify_probe (idxs : list nat) (bs : list v8m_lifetime_bucket) (pc : Z) : option v8m_lifetime_bucket :=
  match idxs with
  | [] => None
  | i :: idxs =>
      let b := bucket_at bs i in
      if b.(bk_caller_pc) =? 0 then None
      else if negb (b.(bk_caller_pc) =? pc) then classify_probe idxs bs pc
      else if b.(sample_count) =? 0 then None else Some b
  end.
Definition v8m_thread_cache_lifetime_classify (mhz : Z) (g : reg) (t : tls) (caller_pc : Z) : reg * v8m_lifetime_class :=
  if negb (usable g t.(t_cache)) then (g, V8M_LIFETIME_UNKNOWN)
  else
    let pc := normal_pc caller_pc in
    match classify_probe (probe pc) (cache_at g t.(t_cache)).(lifetime_buckets) pc with
    | None => (g, V8M_LIFETIME_UNKNOWN)
    | Some b =>
        let g := ensure_lifetime_thresholds g mhz in
        let ema := b.(ema_lifetime_ticks) in
        (g, if ema <? g.(g_lifetime_short_threshold_ticks) then V8M_LIFETIME_EPHEMERAL
            else if ema <? g.(g_lifetime_long_threshold_ticks) then V8M_LIFETIME_SHORT else V8M_LIFETIME_LONG)
    end.

Definition add_lifetime (out c : v8m_lifetime_stats) : v8m_lifetime_stats :=
  MkLStat (add64 out.(samples_recorded) c.(samples_recorded)) (add64 out.(samples_completed) c.(samples_completed))
    (add64 out.(samples_evicted) c.(samples_evicted)) (add64 out.(ephemeral_count) c.(ephemeral_count))
    (add64 out.(short_count) c.(short_count)) (add64 out.(long_count) c.(long_count)).
Definition v8m_thread_cache_aggregate_lifetime (fuel : nat) (g : reg) : option v8m_lifetime_stats :=
  registry_walk fuel g (fun out c => add_lifetime out c.(lifetime)) g.(g_registry_head) g.(g_lifetime).

(** ** The ring accounts for every sample *)

(** The entries in use. *)
Definition pending (ring : list v8m_lifetime_ring_entry) : Z :=
  Z.of_nat (length (filter (fun e => e.(re_ptr) <> NULL) ring)).
Record ring_ok (c : v8m_thread_cache) : Prop := {
  ri_len : length c.(lifetime_ring) = 64%nat;
  ri_pos : 0 <= c.(lifetime_ring_pos) < 64;
  ri_sum : c.(lifetime).(samples_recorded) = u64 (c.(lifetime).(samples_completed) + c.(lifetime).(samples_evicted) + pending c.(lifetime_ring))
}.

Lemma pending_insert ring i e e0 :
  ring !! i = Some e0 ->
  pending (<[i := e]> ring) = pending ring - (if decide (e0.(re_ptr) = NULL) then 0 else 1) + (if decide (e.(re_ptr) = NULL) then 0 else 1).
Proof.
  intros Hi. pose proof (lookup_lt_Some _ _ _ Hi) as Hlt. rewrite insert_take_drop by done.
  rewrite <- (take_drop_middle ring i e0 Hi) at 3. unfold pending. rewrite !filter_app, !filter_cons, !length_app.
  repeat destruct (decide _); cbn [length]; naive_solver lia.
Qed.

(** Sums modulo [2^64]. *)
Lemma u64_plus_l x y : u64 (u64 x + y) = u64 (x + y).
Proof. unfold u64. by rewrite Zplus_mod_idemp_l. Qed.
Lemma u64_plus_r x y : u64 (x + u64 y) = u64 (x + y).
Proof. unfold u64. by rewrite Zplus_mod_idemp_r. Qed.

Lemma u64_plus_m x y z : u64 (x + u64 y + z) = u64 (x + y + z).
Proof. rewrite <- u64_plus_l, u64_plus_r. apply u64_plus_l. Qed.

Lemma record_sample_ok c tsc ptr pc : ptr <> NULL -> ring_ok c -> ring_ok (record_sample c tsc ptr pc).
Proof.
  intros Hp [Hl Hpos Hs]. unfold record_sample. cbn [set_ring lifetime_sample_tick].
  destruct (negb _); [by constructor|]. destruct (tsc =? 0); [by constructor|].
  cbn [set_ring lifetime_ring_pos lifetime_ring]. destruct (lookup_lt_is_Some_2 c.(lifetime_ring) (Z.to_nat c.(lifetime_ring_pos)) ltac:(lia)) as [e0 He0].
  pose proof (pending_insert _ _ (MkEntry ptr pc tsc) e0 He0) as Hi. cbn [re_ptr] in Hi. rewrite (decide_False _ _ Hp) in Hi.
  unfold entry_at. rewrite He0. change (default entry0 (Some e0)) with e0.
  assert (Hland : 0 <= Z.land (c.(lifetime_ring_pos) + 1) (V8M_LIFETIME_RING_SIZE - 1) < 64).
  { change (V8M_LIFETIME_RING_SIZE - 1) with (Z.ones 6). rewrite Z.land_ones by lia. apply Z.mod_pos_bound. done. }
  destruct (Z.eqb_spec e0.(re_ptr) NULL) as [He|He]; cbn [negb]; (constructor; [cbn; by rewrite length_insert|exact Hland|]);
    cbn [set_ring set_lifetime lifetime lifetime_ring add_recorded add_evicted samples_recorded samples_completed samples_evicted]; rewrite Hi, Hs, u64_plus_l.
  - rewrite decide_True by done. f_equal. lia.
  - rewrite decide_False by done. rewrite u64_plus_m. f_equal. lia.
Qed.

Lemma record_free_ok cfg mhz g t tsc ptr :
  (forall a c, g.(caches) !! a = Some c -> ring_ok c) -> is_Some (g.(caches) !! t.(t_cache)) ->
  forall a c, (v8m_thread_cache_lifetime_record_free cfg mhz g t tsc ptr).(caches) !! a = Some c -> ring_ok c.
Proof.
  intros Hall [c0 Hc0] a c. unfold v8m_thread_cache_lifetime_record_free.
  destruct (Z.eqb_spec ptr NULL) as [|Hp]; [apply Hall|]. destruct (_ =? 0); [apply Hall|]. destruct (negb _); [apply Hall|].
  rewrite (cache_at_some g _ _ Hc0). destruct (Hall _ _ Hc0) as [Hl Hpos Hs].
  destruct (list_find _ _) as [[i e]|] eqn:Hf; [|apply Hall]. apply list_find_Some in Hf as (Hi & He & _).
  pose proof (pending_insert _ _ entry0 e Hi) as Hpi. rewrite (decide_False (P := re_ptr e = NULL)), decide_True in Hpi by (done || congruence).
  assert (Hput : forall g' c', g'.(caches) = <[t.(t_cache) := c']> g.(caches) -> ring_ok c' -> g'.(caches) !! a = Some c -> ring_ok c).
  { intros g' c' -> Hc'. destruct (decide (a = t.(t_cache))) as [->|Hne]; [rewrite lookup_insert_eq; by intros [= <-]|].
    rewrite lookup_insert_ne by done. apply Hall. }
  assert (Hsum : forall s', s'.(samples_recorded) = c0.(lifetime).(samples_recorded) -> s'.(samples_completed) = u64 (c0.(lifetime).(samples_completed) + 1) ->
    s'.(samples_evicted) = c0.(lifetime).(samples_evicted) -> forall c', c'.(lifetime_ring) = <[i := entry0]> c0.(lifetime_ring) ->
    c'.(lifetime_ring_pos) = c0.(lifetime_ring_pos) -> c'.(lifetime) = s' -> ring_ok c').
  { intros s' E1 E2 E3 c' Er Ep Es. constructor; [by rewrite Er, length_insert|by rewrite Ep|].
    rewrite Er, Es, E1, E2, E3, Hpi, Hs. rewrite <- (Z.add_assoc (u64 _)), u64_plus_l. f_equal. lia. }
  destruct (_ || _).
  { apply Hput with (c' := set_lifetime (set_ring c0 (<[i := entry0]> c0.(lifetime_ring)) c0.(lifetime_ring_pos) c0.(lifetime_sample_tick)) (add_completed c0.(lifetime))); [done|].
    by apply (Hsum (add_completed c0.(lifetime))). }
  set (c1 := match lifetime_bucket_for _ _ with Some _ => _ | None => _ end). set (g1 := ensure_lifetime_thresholds g mhz).
  assert (Hg1 : g1.(caches) = g.(caches)) by (unfold g1, ensure_lifetime_thresholds; by destruct (negb _)).
  assert (Hc1 : c1.(lifetime_ring) = <[i := entry0]> c0.(lifetime_ring) /\ c1.(lifetime_ring_pos) = c0.(lifetime_ring_pos) /\ c1.(lifetime) = c0.(lifetime))
    by (unfold c1; destruct (lifetime_bucket_for _ _) as [[j bs]|]; done).
  destruct Hc1 as (E1 & E2 & E3).
  apply Hput with (c' := set_lifetime c1 (add_completed (classify_and_count g1 c1.(lifetime) (u64 (tsc - e.(alloc_tsc)))))); [cbn; by rewrite Hg1|].
  eapply Hsum; [..|exact E1|exact E2|reflexivity]; rewrite E3; unfold classify_and_count; by repeat destruct (_ <? _).
Qed.

(** Every recorded sample is accounted for: over any sequence of recorded
    allocations and frees, the samples recorded are those completed, those evicted
    and those still in the ring, for the cache of every thread. *)
Theorem v8m_lifetime_samples_conserved cfg mhz g t tsc ptr pc :
  (forall a c, g.(caches) !! a = Some c -> ring_ok c) -> is_Some (g.(caches) !! t.(t_cache)) ->
  (forall a c, (v8m_thread_cache_lifetime_record_alloc cfg g t tsc ptr pc).(caches) !! a = Some c -> ring_ok c) /\
  (forall a c, (v8m_thread_cache_lifetime_record_free cfg mhz g t tsc ptr).(caches) !! a = Some c -> ring_ok c) /\
  (forall fresh a c, (v8m_thread_cache_get_or_create g t fresh).1.1.(caches) !! a = Some c -> ring_ok c).
Proof.
  intros Hall Ht. split_and!; [|by apply record_free_ok|].
  - intros a c. unfold v8m_thread_cache_lifetime_record_alloc. destruct (Z.eqb_spec ptr NULL) as [|Hp]; [apply Hall|].
    destruct (_ =? 0); [apply Hall|]. destruct (negb _); [apply Hall|]. cbn. destruct (decide (a = t.(t_cache))) as [->|Hne].
    + rewrite lookup_insert_eq. intros [= <-]. apply record_sample_ok; [done|]. destruct Ht as [c0 Hc0]. rewrite (cache_at_some _ _ _ Hc0). by eapply Hall.
    + rewrite lookup_insert_ne by done. apply Hall.
  - intros fresh a c. unfold v8m_thread_cache_get_or_create. destruct (negb _); [apply Hall|]. destruct (_ || _); [apply Hall|]. destruct (_ =? _); [apply Hall|].
    cbn. destruct (decide (a = fresh)) as [->|Hne]; [rewrite lookup_insert_eq; intros [= <-]; by constructor|]. rewrite lookup_insert_ne by done. apply Hall.
Qed.

(** ** What a completed sample does to the classification *)

Definition class_of (g : reg) (ema : Z) : v8m_lifetime_class :=
  if ema <? g.(g_lifetime_short_threshold_ticks) then V8M_LIFETIME_EPHEMERAL
  else if ema <? g.(g_lifetime_long_threshold_ticks) then V8M_LIFETIME_SHORT else V8M_LIFETIME_LONG.

Lemma find_bucket_slot idxs bs pc j bs' :
  find_bucket idxs bs pc = Some (j, bs') ->
  j ∈ idxs /\ ((bucket_at bs j).(bk_caller_pc) = pc \/ (bucket_at bs j).(bk_caller_pc) = 0) /\
  (forall i, i <> j -> bucket_at bs' i = bucket_at bs i) /\ length bs' = length bs /\
  ((j < length bs)%nat -> (bucket_at bs' j).(bk_caller_pc) = pc).
Proof.
  induction idxs as [|i idxs IH]; cbn; [done|]. destruct (Z.eqb_spec (bucket_at bs i).(bk_caller_pc) pc) as [He|He].
  { intros [= <- <-]. split_and!; [by left|by left|done|done|done]. }
  destruct (Z.eqb_spec (bucket_at bs i).(bk_caller_pc) 0) as [Hz|Hz].
  { intros [= <- <-]. split_and!; [by left|by right| |by rewrite length_insert|].
    - intros k Hk. unfold bucket_at. by rewrite list_lookup_insert_ne.
    - intros Hlt. unfold bucket_at at 1. by rewrite list_lookup_insert_eq. }
  intros (H1 & H2)%IH. split; [by right|done].
Qed.

(** The read-only probe finds the bucket the updating one used. *)
Lemma find_then_classify idxs bs pc j bs' b :
  find_bucket idxs bs pc = Some (j, bs') -> pc <> 0 -> b.(bk_caller_pc) = pc -> b.(sample_count) <> 0 -> (j < length bs)%nat ->
  classify_probe idxs (<[j := b]> bs') pc = Some b.
Proof.
  intros Hf Hpc Hb Hs Hlt. pose proof (find_bucket_slot _ _ _ _ _ Hf) as (_ & Hj & Hsame & Hlen & _).
  assert (Hat : bucket_at (<[j := b]> bs') j = b) by (unfold bucket_at; by rewrite list_lookup_insert_eq by lia).
  assert (Hhit : forall rest, classify_probe (j :: rest) (<[j := b]> bs') pc = Some b).
  { intros rest. cbn. rewrite Hat, Hb. destruct (Z.eqb_spec pc 0); [done|]. rewrite Z.eqb_refl. cbn. by destruct (Z.eqb_spec b.(sample_count) 0). }
  revert Hf. induction idxs as [|i idxs IH]; [done|]. cbn [find_bucket].
  destruct (Z.eqb_spec (bucket_at bs i).(bk_caller_pc) pc) as [He|He]; [by intros [= -> _]|].
  destruct (Z.eqb_spec (bucket_at bs i).(bk_caller_pc) 0) as [Hz|Hz]; [by intros [= -> _]|]. intros Hf.
  assert (Hne : i <> j) by (intros ->; destruct Hj; done). cbn [classify_probe].
  assert (Hi : bucket_at (<[j := b]> bs') i = bucket_at bs i) by (rewrite <- (Hsame i Hne); unfold bucket_at; by rewrite list_lookup_insert_ne).
  rewrite Hi.
  destruct (Z.eqb_spec (bucket_at bs i).(bk_caller_pc) 0); [done|]. destruct (Z.eqb_spec (bucket_at bs i).(bk_caller_pc) pc); [done|]. by apply IH.
Qed.

Lemma probe_bound pc i : i ∈ probe pc -> (i < 32)%nat.
Proof.
  unfold probe. intros (step & -> & _)%list_elem_of_fmap. change (V8M_LIFETIME_BUCKETS - 1) with (Z.ones 5). rewrite Z.land_ones by lia.
  pose proof (Z.mod_pos_bound (start_slot pc + step) (2 ^ 5)). lia.
Qed.

Lemma ensure_nonzero g mhz : 0 <= mhz < 2 ^ 32 -> (ensure_lifetime_thresholds g mhz).(g_lifetime_long_threshold_ticks) <> 0.
Proof.
  intros Hm. unfold ensure_lifetime_thresholds. destruct (Z.eqb_spec g.(g_lifetime_long_threshold_ticks) 0) as [He|He]; cbn; [|done].
  set (m := if mhz =? 0 then 1000 else mhz). assert (0 < m < 2 ^ 32) by (unfold m; destruct (Z.eqb_spec mhz 0); lia).
  rewrite (u64_small (m * 100)), u64_small by (unfold is_u64; lia). lia.
Qed.
Lemma ensure_done g mhz : g.(g_lifetime_long_threshold_ticks) <> 0 -> ensure_lifetime_thresholds g mhz = g.
Proof. intros Hg. unfold ensure_lifetime_thresholds. by destruct (Z.eqb_spec g.(g_lifetime_long_threshold_ticks) 0). Qed.

(** A completed sample decides how its call site is classified: when the freed
    object is in the ring with a valid time stamp and a bucket is available, the
    classification that follows compares the updated running average with the two
    thresholds. *)
Theorem v8m_lifetime_classify_after_free cfg mhz mhz' g t tsc ptr c i e j bs :
  g.(caches) !! t.(t_cache) = Some c -> usable g t.(t_cache) = true -> v8m_config_get cfg V8M_OPT_LIFETIME_TRACKING <> 0 -> ptr <> NULL ->
  0 <= mhz < 2 ^ 32 -> length c.(lifetime_buckets) = 32%nat ->
  list_find (fun e => e.(re_ptr) = ptr) c.(lifetime_ring) = Some (i, e) -> 0 < e.(alloc_tsc) <= tsc ->
  lifetime_bucket_for c.(lifetime_buckets) e.(re_caller_pc) = Some (j, bs) ->
  let b := update_ema (bucket_at bs j) (u64 (tsc - e.(alloc_tsc))) in
  b.(sample_count) <> 0 ->
  let g' := v8m_thread_cache_lifetime_record_free cfg mhz g t tsc ptr in
  v8m_thread_cache_lifetime_classify mhz' g' t e.(re_caller_pc) = (g', class_of g' b.(ema_lifetime_ticks)).
Proof.
  intros Hc Hu Hcfg Hp Hm Hlen Hf Hts Hb b Hcnt. unfold v8m_thread_cache_lifetime_record_free.
  destruct (Z.eqb_spec ptr NULL); [done|]. destruct (Z.eqb_spec (v8m_config_get cfg V8M_OPT_LIFETIME_TRACKING) 0); [done|].
  rewrite Hu. cbn [negb]. rewrite (cache_at_some _ _ _ Hc), Hf.
  destruct (Z.eqb_spec tsc 0); [lia|]. destruct (Z.eqb_spec e.(alloc_tsc) 0); [lia|]. destruct (Z.ltb_spec tsc e.(alloc_tsc)); [lia|]. cbn [orb set_ring lifetime_buckets].
  rewrite Hb. fold b. unfold lifetime_bucket_for in Hb. set (pc := normal_pc e.(re_caller_pc)) in *.
  pose proof (find_bucket_slot _ _ _ _ _ Hb) as (Hin & _ & _ & _ & Hpc). pose proof (probe_bound _ _ Hin) as Hlt.
  set (g1 := ensure_lifetime_thresholds g mhz). set (c1 := set_lifetime _ _).
  assert (Hg1 : g1.(caches) = g.(caches)) by (unfold g1, ensure_lifetime_thresholds; by destruct (negb _)).
  assert (Hc1 : (set_cache g1 t.(t_cache) c1).(caches) !! t.(t_cache) = Some c1) by (cbn; by rewrite Hg1, lookup_insert_eq).
  assert (Hu1 : usable (set_cache g1 t.(t_cache) c1) t.(t_cache) = true).
  { unfold usable in *. rewrite (cache_at_some _ _ _ Hc1). by rewrite (cache_at_some _ _ _ Hc) in Hu. }
  unfold v8m_thread_cache_lifetime_classify. rewrite Hu1. cbn [negb]. rewrite (cache_at_some _ _ _ Hc1).
  assert (Hpc0 : pc <> 0) by (unfold pc, normal_pc; destruct (Z.eqb_spec e.(re_caller_pc) 0); done).
  fold pc. change (lifetime_buckets c1) with (<[j := b]> bs).
  rewrite (find_then_classify _ c.(lifetime_buckets) _ j bs b Hb Hpc0 (Hpc ltac:(rewrite Hlen; exact Hlt)) Hcnt ltac:(rewrite Hlen; exact Hlt)).
  rewrite (ensure_done (set_cache g1 t.(t_cache) c1)) by (apply ensure_nonzero; done). done.
Qed.

(** ** Examples *)

Definition ex_track : config := (v8m_config_set (v8m_config_init (fun _ => None)) V8M_OPT_LIFETIME_TRACKING 1).1.
Definition ex_cache : v8m_thread_cache := set_ring (new_cache NULL) (replicate 64 entry0) 0 255.
Definition ex_reg : reg := MkReg 4096 {[4096 := ex_cache]} hist0 lstats0 0 0 0 0 0 true.
Definition ex_tls : tls := MkTls 4096 false false 4096.
Definition ex_sampled : reg := v8m_thread_cache_lifetime_record_alloc ex_track ex_reg ex_tls 1000 65536 0x400.

Lemma v8m_lifetime_samples_conserved_witness :
  (cache_at ex_sampled 4096).(lifetime).(samples_recorded) = 1 /\
  (forall a c, ex_sampled.(caches) !! a = Some c -> ring_ok c) /\
  (forall a c, (v8m_thread_cache_lifetime_record_free ex_track 1000 ex_reg ex_tls 1000 65536).(caches) !! a = Some c -> ring_ok c) /\
  (forall fresh a c, (v8m_thread_cache_get_or_create ex_reg ex_tls fresh).1.1.(caches) !! a = Some c -> ring_ok c).
Proof.
  split; [vm_compute; reflexivity|]. apply (v8m_lifetime_samples_conserved ex_track 1000 ex_reg ex_tls 1000 65536 0x400); [|by eexists].
  intros a c Ha. change (caches ex_reg) with ({[4096 := ex_cache]} : gmap Z v8m_thread_cache) in Ha.
  apply lookup_singleton_Some in Ha as [<- <-]. by constructor.
Defined.

Definition ex_sampled_cache : v8m_thread_cache := record_sample ex_cache 1000 65536 0x400.

Definition ex_entry : v8m_lifetime_ring_entry := MkEntry 65536 0x400 1000.
Definition ex_table : list v8m_lifetime_bucket := <[0%nat := MkBucket 0x400 0 0]> (replicate 32 bucket0).

Lemma v8m_lifetime_classify_after_free_witness :
  let b := update_ema (bucket_at ex_table 0) (u64 (51000 - ex_entry.(alloc_tsc))) in
  let g' := v8m_thread_cache_lifetime_record_free ex_track 1000 ex_sampled ex_tls 51000 65536 in
  v8m_thread_cache_lifetime_classify 1000 g' ex_tls ex_entry.(re_caller_pc) = (g', class_of g' b.(ema_lifetime_ticks)) /\
  class_of g' b.(ema_lifetime_ticks) = V8M_LIFETIME_EPHEMERAL.
Proof.
  split; [|vm_compute; reflexivity].
  apply (v8m_lifetime_classify_after_free ex_track 1000 1000 ex_sampled ex_tls 51000 65536 ex_sampled_cache 0 ex_entry 0 ex_table);
    vm_compute; done.
Defined.

End Lifetime.
