(* ===== verification/ThreadRegistrySpec.v ===== *)
(** What the registry of thread caches promises ([ThreadRegistry], [Lifetime]): its
    list is well-formed, and the statistics do not change when a thread leaves. *)

From S2P Require Import Prelude SizeClass Config ThreadCache ThreadRegistry Lifetime.
Import ThreadCache ThreadRegistry Lifetime.

Module ThreadRegistrySpec.

(** The links of the registry. *)
Definition links (g : reg) : mem := registry_next <$> g.(caches).

Lemma rd_links g a c : g.(caches) !! a = Some c -> rd (links g) a = c.(registry_next).
Proof. intros Ha. unfold rd, links. by rewrite lookup_fmap, Ha. Qed.
Lemma rd_links_at g a : is_Some (g.(caches) !! a) -> rd (links g) a = (cache_at g a).(registry_next).
Proof. intros [c Hc]. by rewrite (rd_links _ _ _ Hc), (cache_at_some _ _ _ Hc). Qed.

Record ranged (s : v8m_lifetime_stats) : Prop := {
  rg_recorded : is_u64 s.(samples_recorded); rg_completed : is_u64 s.(samples_completed); rg_evicted : is_u64 s.(samples_evicted);
  rg_ephemeral : is_u64 s.(ephemeral_count); rg_short : is_u64 s.(short_count); rg_long : is_u64 s.(long_count)
}.

(** The caches [l] are registered, in this order; the process-wide counters are in
    their range. *)
Record reg_ok (g : reg) (l : list Z) : Prop := {
  ro_chain : chain (links g) g.(g_registry_head) l;
  ro_caches : forall a, a ∈ l -> is_Some (g.(caches) !! a);
  ro_counts : Forall is_u64 g.(g_hist).(request_count);
  ro_bytes : Forall is_u64 g.(g_hist).(request_bytes);
  ro_huge : is_u64 g.(g_hist).(huge_request_count) /\ is_u64 g.(g_hist).(huge_request_bytes);
  ro_lifetime : ranged g.(g_lifetime)
}.

(** ** Walks *)

Lemma walk_spec {A} fuel g (f : A -> v8m_thread_cache -> A) l h out :
  chain (links g) h l -> (forall a, a ∈ l -> is_Some (g.(caches) !! a)) -> (length l < fuel)%nat ->
  registry_walk fuel g f h out = Some (foldl (fun out a => f out (cache_at g a)) out l).
Proof.
  revert fuel h out. induction l as [|a l IH]; intros fuel h out Hc Hs Hf; destruct fuel as [|fuel]; cbn in Hf; [lia| |lia|]; cbn.
  - cbn in Hc. subst. done.
  - destruct Hc as (-> & Ha & Hc). destruct (Z.eqb_spec a NULL); [done|]. rewrite <- rd_links_at by (apply Hs; left).
    apply IH; [done| |lia]. intros b Hb. apply Hs. by right.
Qed.

Lemma foldl_pull {A B} (f : A -> B -> A) o l1 c l2 :
  (forall o a b, f (f o a) b = f (f o b) a) -> foldl f o (l1 ++ c :: l2) = foldl f (f o c) (l1 ++ l2).
Proof.
  intros Hf. rewrite !foldl_app. cbn. f_equal. revert o. induction l1 as [|b l1 IH]; intros o; cbn; [done|]. by rewrite IH, Hf.
Qed.

Lemma foldl_same {A B} (f g : A -> B -> A) o l : (forall o a, a ∈ l -> f o a = g o a) -> foldl f o l = foldl g o l.
Proof.
  revert o. induction l as [|a l IH]; intros o Hf; cbn; [done|]. rewrite Hf by left. apply IH. intros o' b Hb. apply Hf. by right.
Qed.

(** ** Sums modulo [2^64] *)

Lemma add64_swap o a b : add64 (add64 o a) b = add64 (add64 o b) a.
Proof. unfold add64. rewrite !u64_plus_l. f_equal. lia. Qed.
Lemma zip_swap o a b : zip_with add64 (zip_with add64 o a) b = zip_with add64 (zip_with add64 o b) a.
Proof. revert a b. induction o as [|x o IH]; intros [|y a] [|z b]; cbn; try done. by rewrite add64_swap, IH. Qed.
Lemma add_hist_swap o a b : add_hist (add_hist o a) b = add_hist (add_hist o b) a.
Proof. unfold add_hist. cbn. f_equal; apply zip_swap || apply add64_swap. Qed.
Lemma add_lifetime_swap o a b : add_lifetime (add_lifetime o a) b = add_lifetime (add_lifetime o b) a.
Proof. unfold add_lifetime. cbn. f_equal; apply add64_swap. Qed.

Lemma fold_counter_add gl c : is_u64 gl -> fold_counter gl c = add64 gl c.
Proof. intros Hg. unfold fold_counter, add64. destruct (Z.eqb_spec c 0) as [->|]; [|done]. by rewrite Z.add_0_r, u64_small. Qed.
Lemma fold_counter_mod gl c s : u64 (fold_counter gl c + s) = u64 (gl + c + s).
Proof. unfold fold_counter. destruct (Z.eqb_spec c 0) as [->|]; [by rewrite Z.add_0_r|apply u64_plus_l]. Qed.
Lemma fold_counter_range gl c : is_u64 gl -> is_u64 (fold_counter gl c).
Proof. intros Hg. rewrite fold_counter_add by done. apply u64_range. Qed.
Lemma zip_fold gl c : Forall is_u64 gl -> zip_with fold_counter gl c = zip_with add64 gl c.
Proof. intros Hg. revert c. induction Hg as [|x gl Hx Hg IH]; intros [|y c]; cbn; try done. by rewrite fold_counter_add, IH. Qed.
Lemma zip_fold_range gl c : Forall is_u64 gl -> Forall is_u64 (zip_with fold_counter gl c).
Proof. intros Hg. revert c. induction Hg as [|x gl Hx Hg IH]; intros [|y c]; cbn; constructor; [by apply fold_counter_range|done]. Qed.

Definition snapshot (h : histogram) : histogram := MkHist h.(request_count) h.(request_bytes) h.(huge_request_count) h.(huge_request_bytes) 0.

Lemma fold_hist_add g l c : reg_ok g l -> snapshot (fold_hist g.(g_hist) c) = add_hist (snapshot g.(g_hist)) c.
Proof.
  intros [_ _ H1 H2 [H3 H4] _]. unfold snapshot, fold_hist, add_hist. cbn. by rewrite !zip_fold, !fold_counter_add.
Qed.
Lemma fold_lifetime_add g l c : reg_ok g l -> fold_lifetime g.(g_lifetime) c = add_lifetime g.(g_lifetime) c.
Proof. intros [_ _ _ _ _ [? ? ? ? ? ?]]. unfold fold_lifetime, add_lifetime. by rewrite !fold_counter_add. Qed.

(** ** Leaving the registry *)

(** The link that leads to a cache. *)
Definition last_link (l : list Z) (start : option Z) : option Z := match last l with None => start | Some a => Some a end.

Lemma find_link_spec fuel g l1 cache l2 link :
  chain (links g) (link_get g link) (l1 ++ cache :: l2) -> (forall a, a ∈ l1 ++ cache :: l2 -> is_Some (g.(caches) !! a)) -> cache ∉ l1 ->
  (length l1 < fuel)%nat -> find_link fuel g link cache = Some (last_link l1 link).
Proof.
  revert fuel link. induction l1 as [|a l1 IH]; intros fuel link Hc Hs Hn Hf; (destruct fuel as [|fuel]; cbn in Hf; [lia|]).
  - cbn in Hc |- *. destruct Hc as (-> & Ha & _). rewrite Z.eqb_refl. by rewrite orb_true_r.
  - destruct Hc as (Ea & Ha & Hc). cbn [find_link]. rewrite Ea. destruct (Z.eqb_spec a NULL); [done|].
    apply not_elem_of_cons in Hn as [Hne Hn]. destruct (Z.eqb_spec a cache); [done|]. cbn [orb].
    rewrite IH; [| |intros b Hb; apply Hs; by right|done|lia].
    + unfold last_link. rewrite last_cons. by destruct (last l1).
    + cbn [link_get]. by rewrite <- rd_links_at by (apply Hs; left).
Qed.

(** A node taken out of a chain. *)
Lemma chain_unlink m h l1 z c l2 :
  chain m h (l1 ++ z :: c :: l2) -> chain (wr m z (rd m c)) h (l1 ++ z :: l2).
Proof.
  intros Hc. pose proof (chain_NoDup _ _ _ Hc) as Nd. revert h Hc. induction l1 as [|a l1 IH]; intros h; cbn.
  - cbn in Nd. apply NoDup_cons in Nd as [Hz Nd]. intros (-> & Hz0 & _ & Hc0 & Hc). split_and!; [done|done|]. rewrite rd_wr_eq.
    apply chain_frame; [|done]. intros Hx. apply Hz. by right.
  - cbn in Nd. apply NoDup_cons in Nd as [Ha Nd]. intros (-> & Ha0 & Hc). split_and!; [done|done|].
    rewrite rd_wr_ne; [by apply IH|]. intros ->. apply Ha, elem_of_app. right. left.
Qed.

(** The caches as statistics see them. *)
Definition same_stats (c c' : v8m_thread_cache) : Prop :=
  c'.(hist) = c.(hist) /\ c'.(lifetime) = c.(lifetime) /\ c'.(local_alloc_count) = c.(local_alloc_count) /\ c'.(local_free_count) = c.(local_free_count).

Lemma links_set g a c : links (set_cache g a c) = wr (links g) a c.(registry_next).
Proof. unfold links, wr. cbn. by rewrite fmap_insert. Qed.

Lemma set_next_stats g a v b : same_stats (cache_at g b) (cache_at (set_cache g a (set_registry_next (cache_at g a) v)) b).
Proof.
  unfold cache_at at 2. cbn. destruct (decide (b = a)) as [->|Hne]; [by rewrite lookup_insert_eq|]. by rewrite lookup_insert_ne.
Qed.
Lemma set_next_store g a v b : is_Some (g.(caches) !! a) ->
  is_Some ((set_cache g a (set_registry_next (cache_at g a) v)).(caches) !! b) <-> is_Some (g.(caches) !! b).
Proof. intros Ha. cbn. destruct (decide (b = a)) as [->|Hne]; [by rewrite lookup_insert_eq|]. by rewrite lookup_insert_ne. Qed.

(** The state with one link moved past the cache. *)
Lemma link_set_spec g l1 cache l2 :
  reg_ok g (l1 ++ cache :: l2) ->
  let g1 := link_set g (last_link l1 None) (cache_at g cache).(registry_next) in
  reg_ok g1 (l1 ++ l2) /\ (forall a, same_stats (cache_at g a) (cache_at g1 a)) /\ (forall a, is_Some (g1.(caches) !! a) <-> is_Some (g.(caches) !! a)) /\
  link_get g (last_link l1 None) = cache.
Proof.
  intros [Hc Hs R1 R2 R3 R4]. assert (Hcc : is_Some (g.(caches) !! cache)) by (apply Hs, elem_of_app; right; left).
  rewrite <- rd_links_at by done. unfold last_link. destruct (last l1) as [z|] eqn:Hl; cbn zeta.
  - apply last_Some in Hl as [l0 ->]. rewrite <- app_assoc in Hc, Hs. cbn in Hc, Hs.
    assert (Hz : is_Some (g.(caches) !! z)) by (apply Hs, elem_of_app; right; left).
    split_and!; [|apply set_next_stats|intros a; by apply set_next_store|].
    + cbn [link_set]. constructor; cbn [set_cache set_caches g_hist g_lifetime g_registry_head]; try done.
      * rewrite links_set. cbn. rewrite <- app_assoc. by apply chain_unlink.
      * intros a Ha. apply set_next_store; [done|]. apply Hs. rewrite <- app_assoc in Ha. set_solver.
    + cbn. rewrite <- rd_links_at by done. clear -Hc. revert Hc. generalize g.(g_registry_head). induction l0 as [|b l0 IH]; intros h; cbn.
      * by intros (_ & _ & ? & _).
      * intros (_ & _ & Hc). by eapply IH.
  - apply last_None in Hl as ->. cbn in Hc, Hs |- *. destruct Hc as (He & H0 & Hc). split_and!; [|by intros a|done|done].
    constructor; cbn; try done. intros a Ha. apply Hs. by right.
Qed.

(** The registry after the cache was unlinked. *)
Lemma registry_unlink_spec g l1 cache l2 :
  reg_ok g (l1 ++ cache :: l2) ->
  let g1 := link_set g (last_link l1 None) (cache_at g cache).(registry_next) in
  let g' := set_cache g1 cache (set_registry_next (cache_at g1 cache) NULL) in
  reg_ok g' (l1 ++ l2) /\ (forall a, same_stats (cache_at g a) (cache_at g' a)) /\
  (forall a, is_Some (g'.(caches) !! a) <-> is_Some (g.(caches) !! a)).
Proof.
  intros P g1 g'. destruct (link_set_spec g l1 cache l2 P) as ([Hc Hs R1 R2 R3 R4] & Hst & Hin & _). fold g1 in Hc, Hs, R1, R2, R3, R4, Hst, Hin.
  assert (Hcc : is_Some (g1.(caches) !! cache)) by (apply Hin, (ro_caches _ _ P), elem_of_app; right; left).
  assert (Hn : cache ∉ l1 ++ l2).
  { pose proof (chain_NoDup _ _ _ (ro_chain _ _ P)) as Nd. rewrite NoDup_app, NoDup_cons in Nd. set_solver. }
  split_and!.
  - constructor; cbn [g' set_cache set_caches g_hist g_lifetime g_registry_head]; try done.
    + unfold g'. rewrite links_set. by apply chain_frame.
    + intros a Ha. apply set_next_store; [done|by apply Hs].
  - intros a. destruct (Hst a) as (E1 & E2 & E3 & E4). destruct (set_next_stats g1 cache NULL a) as (F1 & F2 & F3 & F4).
    unfold g'. split_and!; congruence.
  - intros a. rewrite <- Hin. by apply set_next_store.
Qed.

(** ** The totals *)

Definition sum_of (f : v8m_thread_cache -> Z) (g : reg) (l : list Z) : Z := foldr (fun a acc => f (cache_at g a) + acc) 0 l.

Lemma sum_of_split f g l1 c l2 : sum_of f g (l1 ++ c :: l2) = f (cache_at g c) + sum_of f g (l1 ++ l2).
Proof. unfold sum_of. induction l1 as [|a l1 IH]; cbn; [done|]. rewrite IH. lia. Qed.
Lemma sum_of_same f g g' l : (forall a, f (cache_at g' a) = f (cache_at g a)) -> sum_of f g' l = sum_of f g l.
Proof. intros Hf. unfold sum_of. induction l as [|a l IH]; cbn; [done|]. by rewrite Hf, IH. Qed.

Lemma pair_walk g l x y :
  is_u64 x -> is_u64 y ->
  foldl (fun out a => (add64 out.1 (cache_at g a).(local_alloc_count), add64 out.2 (cache_at g a).(local_free_count))) (x, y) l =
  (u64 (x + sum_of local_alloc_count g l), u64 (y + sum_of local_free_count g l)).
Proof.
  revert x y. induction l as [|a l IH]; intros x y Hx Hy; cbn.
  - by rewrite !Z.add_0_r, !u64_small.
  - rewrite IH by apply u64_range. unfold add64. rewrite !u64_plus_l. unfold sum_of. f_equal; f_equal; lia.
Qed.

Lemma totals_spec fuel g l :
  reg_ok g l -> (length l < fuel)%nat ->
  v8m_dispatch_total_alloc_count fuel g = Some (u64 (g.(g_dispatch_alloc_count) + sum_of local_alloc_count g l)) /\
  v8m_dispatch_total_free_count fuel g = Some (u64 (g.(g_dispatch_free_count) + sum_of local_free_count g l)).
Proof.
  intros [Hc Hs _ _ _ _] Hf. unfold v8m_dispatch_total_alloc_count, v8m_dispatch_total_free_count, v8m_thread_cache_aggregate_alloc_free.
  rewrite (walk_spec fuel g (fun (out : Z * Z) c => (add64 out.1 c.(local_alloc_count), add64 out.2 c.(local_free_count))) l _ (0, 0) Hc Hs Hf), pair_walk by (unfold is_u64; lia).
  unfold add64. rewrite !Z.add_0_l. split; f_equal; rewrite u64_plus_l, u64_plus_l; f_equal; lia.
Qed.

(** A walk over the registry without the cache, from a value that counts it. *)
Lemma walk_moves {A} fuel g g' (f : A -> v8m_thread_cache -> A) l1 cache l2 o :
  reg_ok g (l1 ++ cache :: l2) -> reg_ok g' (l1 ++ l2) -> (length (l1 ++ cache :: l2) < fuel)%nat ->
  (forall o a b, f (f o a) b = f (f o b) a) -> (forall o a, f o (cache_at g' a) = f o (cache_at g a)) ->
  registry_walk fuel g' f g'.(g_registry_head) (f o (cache_at g cache)) = registry_walk fuel g f g.(g_registry_head) o.
Proof.
  intros [Hc Hs _ _ _ _] [Hc' Hs' _ _ _ _] Hf Hsw Hsame. rewrite (walk_spec _ g f _ _ _ Hc Hs Hf).
  rewrite length_app in Hf. cbn in Hf. rewrite (walk_spec _ g' f _ _ _ Hc' Hs') by (rewrite length_app; lia). f_equal.
  rewrite foldl_pull by (intros; apply Hsw). apply foldl_same. intros o' a _. apply Hsame.
Qed.

(** The globals after the counters were folded. *)
Record folded (g g' : reg) (c : v8m_thread_cache) : Prop := {
  fd_hist : g'.(g_hist) = fold_hist g.(g_hist) c.(hist);
  fd_lifetime : g'.(g_lifetime) = fold_lifetime g.(g_lifetime) c.(lifetime);
  fd_allocs : g'.(g_dispatch_alloc_count) = fold_counter g.(g_dispatch_alloc_count) c.(local_alloc_count);
  fd_frees : g'.(g_dispatch_free_count) = fold_counter g.(g_dispatch_free_count) c.(local_free_count)
}.

Lemma registry_unregister_spec fuel g l1 cache l2 :
  reg_ok g (l1 ++ cache :: l2) -> (length l1 < fuel)%nat ->
  exists g', registry_unregister_and_fold fuel g cache = Some g' /\ reg_ok g' (l1 ++ l2) /\
    (forall a, same_stats (cache_at g a) (cache_at g' a)) /\ folded g g' (cache_at g cache).
Proof.
  intros P Hf. pose proof P as [Hc Hs R1 R2 R3 R4]. pose proof (chain_NoDup _ _ _ Hc) as Nd. apply NoDup_app in Nd as (_ & Hd & _).
  assert (Hn1 : cache ∉ l1) by (intros Hx; apply (Hd _ Hx); left).
  unfold registry_unregister_and_fold, registry_unlink, registry_fold. destruct (Z.eqb_spec cache NULL) as [->|_].
  { exfalso. destruct (chain_suffix _ _ _ _ Hc) as (h' & _ & ? & _). done. }
  rewrite (find_link_spec fuel g l1 cache l2 None Hc Hs Hn1) by lia.
  destruct (link_set_spec g l1 cache l2 P) as (_ & _ & _ & ->). rewrite Z.eqb_refl.
  destruct (registry_unlink_spec g l1 cache l2 P) as ([Q1 Q2 _ _ _ _] & Hst & _). cbn zeta.
  set (g1 := set_cache (link_set _ _ _) _ _) in *. set (c := cache_at g1 cache).
  assert (Eg : g1.(g_hist) = g.(g_hist) /\ g1.(g_lifetime) = g.(g_lifetime) /\ g1.(g_dispatch_alloc_count) = g.(g_dispatch_alloc_count) /\ g1.(g_dispatch_free_count) = g.(g_dispatch_free_count))
    by (unfold g1; by destruct (last_link l1 None)). destruct Eg as (Eh & El & Ea & Ef).
  assert (Hfd : forall g', g'.(g_hist) = fold_hist g1.(g_hist) c.(hist) -> g'.(g_lifetime) = fold_lifetime g1.(g_lifetime) c.(lifetime) ->
    g'.(g_dispatch_alloc_count) = fold_counter g1.(g_dispatch_alloc_count) c.(local_alloc_count) ->
    g'.(g_dispatch_free_count) = fold_counter g1.(g_dispatch_free_count) c.(local_free_count) -> g'.(caches) = g1.(caches) -> g'.(g_registry_head) = g1.(g_registry_head) ->
    reg_ok g' (l1 ++ l2) /\ (forall a, same_stats (cache_at g a) (cache_at g' a)) /\ folded g g' (cache_at g cache)).
  { intros g' F1 F2 F3 F4 F5 F6. destruct (Hst cache) as (S1 & S2 & S3 & S4). fold c in S1, S2, S3, S4.
    rewrite Eh, S1 in F1. rewrite El, S2 in F2. rewrite Ea, S3 in F3. rewrite Ef, S4 in F4. split_and!; [|by unfold cache_at; rewrite F5|by constructor].
    constructor; [unfold links; by rewrite F5, F6|by rewrite F5|rewrite F1; by apply zip_fold_range..| |].
    - rewrite F1. destruct R3. split; by apply fold_counter_range.
    - rewrite F2. destruct R4. constructor; by apply fold_counter_range. }
  eexists. split; [reflexivity|]. apply Hfd; unfold v8m_dispatch_fold_alloc_free, fold_counter;
    destruct (local_alloc_count c =? 0), (local_free_count c =? 0); done.
Qed.

(** C40: A thread that has left does not change the statistics.  Unlinking its cache
    from the registry and folding its counters, once both are done, always returns; the other caches stay
    registered, and the request histogram, the lifetime statistics and the two
    allocation totals read the same as before. *)
Theorem registry_fold_conserves fuel g l cache :
  reg_ok g l -> cache ∈ l -> (length l < fuel)%nat ->
  exists g' l', registry_unregister_and_fold fuel g cache = Some g' /\ reg_ok g' l' /\ cache :: l' ≡ₚ l /\
    v8m_thread_cache_aggregate_histogram fuel g' = v8m_thread_cache_aggregate_histogram fuel g /\
    v8m_thread_cache_aggregate_lifetime fuel g' = v8m_thread_cache_aggregate_lifetime fuel g /\
    v8m_dispatch_total_alloc_count fuel g' = v8m_dispatch_total_alloc_count fuel g /\
    v8m_dispatch_total_free_count fuel g' = v8m_dispatch_total_free_count fuel g.
Proof.
  intros P (l1 & l2 & ->)%list_elem_of_split Hf. pose proof Hf as Hf'. rewrite length_app in Hf'. cbn in Hf'.
  destruct (registry_unregister_spec fuel g l1 cache l2 P ltac:(lia)) as (g' & He & P' & Hst & [F1 F2 F3 F4]).
  exists g', (l1 ++ l2). split_and!; [done|done|apply Permutation_middle| | | |].
  - unfold v8m_thread_cache_aggregate_histogram. fold (snapshot g.(g_hist)) (snapshot g'.(g_hist)).
    rewrite <- (walk_moves fuel g g' (fun out c => add_hist out c.(hist)) l1 cache l2 (snapshot g.(g_hist)) P P' Hf).
    + rewrite <- (fold_hist_add g _ _ P), <- F1. done.
    + intros o a b. apply add_hist_swap.
    + intros o a. by destruct (Hst a) as (-> & _).
  - unfold v8m_thread_cache_aggregate_lifetime.
    rewrite <- (walk_moves fuel g g' (fun out c => add_lifetime out c.(lifetime)) l1 cache l2 g.(g_lifetime) P P' Hf).
    + rewrite <- (fold_lifetime_add g _ _ P), <- F2. done.
    + intros o a b. apply add_lifetime_swap.
    + intros o a. by destruct (Hst a) as (_ & -> & _).
  - rewrite (proj1 (totals_spec fuel g _ P Hf)), (proj1 (totals_spec fuel g' _ P' ltac:(rewrite length_app; lia))). f_equal.
    rewrite sum_of_split, F3, (sum_of_same _ g g') by (intros a; by destruct (Hst a) as (_ & _ & -> & _)).
    rewrite fold_counter_mod. f_equal. lia.
  - rewrite (proj2 (totals_spec fuel g _ P Hf)), (proj2 (totals_spec fuel g' _ P' ltac:(rewrite length_app; lia))). f_equal.
    rewrite sum_of_split, F4, (sum_of_same _ g g') by (intros a; by destruct (Hst a) as (_ & _ & _ & ->)).
    rewrite fold_counter_mod. f_equal. lia.
Qed.

(** ** Example: two threads, one leaves *)

Definition ex_regs : reg :=
  MkReg 8192 {[4096 := set_local (new_cache NULL) 7 3; 8192 := set_local (new_cache 4096) 5 5]} hist0 lstats0 0 0 100 50 0 true.

Lemma is_u64_0 : is_u64 0.
Proof. unfold is_u64. lia. Qed.
Lemma ex_regs_ok : reg_ok ex_regs [8192; 4096].
Proof.
  constructor; [vm_compute; split_and!; done| |by apply Forall_replicate, is_u64_0|by apply Forall_replicate, is_u64_0|split; apply is_u64_0|constructor; apply is_u64_0].
  intros a [->|[->|?%not_elem_of_nil]%elem_of_cons]%elem_of_cons; [by eexists|by eexists|done].
Qed.

Lemma registry_fold_conserves_witness :
  v8m_dispatch_total_alloc_count 3 ex_regs = Some 112 /\
  exists g' l', registry_unregister_and_fold 3 ex_regs 4096 = Some g' /\ reg_ok g' l' /\ 4096 :: l' ≡ₚ [8192; 4096] /\
    v8m_thread_cache_aggregate_histogram 3 g' = v8m_thread_cache_aggregate_histogram 3 ex_regs /\
    v8m_thread_cache_aggregate_lifetime 3 g' = v8m_thread_cache_aggregate_lifetime 3 ex_regs /\
    v8m_dispatch_total_alloc_count 3 g' = v8m_dispatch_total_alloc_count 3 ex_regs /\
    v8m_dispatch_total_free_count 3 g' = v8m_dispatch_total_free_count 3 ex_regs.
Proof.
  split; [vm_compute; reflexivity|]. apply (registry_fold_conserves 3 ex_regs [8192; 4096] 4096 ex_regs_ok); [by right; left|cbn; lia].
Defined.

(** Between the two steps of a leaving thread a snapshot misses its counts: 7 of 112
    allocations here. *)
Definition total_after (f : reg -> reg) (r : option reg) : option Z := match r with Some g => v8m_dispatch_total_alloc_count 3 (f g) | None => None end.
Lemma snapshot_misses_leaving :
  total_after (fun g => g) (registry_unlink 3 ex_regs 4096) = Some 105 /\ total_after (fun g => registry_fold g 4096) (registry_unlink 3 ex_regs 4096) = Some 112.
Proof. vm_compute. done. Qed.

End ThreadRegistrySpec.
