(* ===== verification/ThreadCacheSpec.v ===== *)
(** What the thread cache promises ([ThreadCache]): every bin is a stack of free
    objects whose length is its counter, ticks only tune the capacities, and
    draining returns every object to its pool. *)

From S2P Require Import Prelude SizeClass Page Config Numa Os PageSource NumaPool SlabPage SlabPool SlabPoolSpec ThreadCache.
Import SizeClass Page Config PageSource SlabPool ThreadCache.

Module ThreadCacheSpec.

(** The objects of the bins, by class. *)
Definition held := Z -> list Z.
Definition put_held (Q : held) (cls : Z) (l : list Z) : held := fun i => if i =? cls then l else Q i.

Lemma put_held_eq Q cls l : put_held Q cls l cls = l.
Proof. unfold put_held. by rewrite Z.eqb_refl. Qed.
Lemma put_held_ne Q cls l i : i <> cls -> put_held Q cls l i = Q i.
Proof. intros Hi. unfold put_held. by destruct (Z.eqb_spec i cls). Qed.

Lemma put_held_same Q cls l i : put_held (put_held Q cls l) cls (Q cls) i = Q i.
Proof. unfold put_held. by destruct (Z.eqb_spec i cls); subst. Qed.

Definition slab_class (cls : Z) : Prop := 0 <= cls < V8M_MEDIUM_FIRST_CLASS.

Record bins_ok (mm : mem) (c : v8m_thread_cache) (Q : held) : Prop := {
  bo_len : length c.(bins) = 32%nat;
  bo_chain : forall cls, slab_class cls -> chain mm (bin_at c cls).(bin_heads) (Q cls);
  bo_count : forall cls, slab_class cls -> (bin_at c cls).(bin_count) = Z.of_nat (length (Q cls)) /\ Z.of_nat (length (Q cls)) < 2 ^ 16;
  bo_apart : forall i j a, slab_class i -> slab_class j -> i <> j -> a ∈ Q i -> a ∉ Q j
}.

(** ** Access to the bins *)

Lemma bin_at_set c cls b i :
  length c.(bins) = 32%nat -> slab_class cls -> slab_class i -> bin_at (set_bin c cls b) i = if i =? cls then b else bin_at c i.
Proof.
  unfold slab_class. change V8M_MEDIUM_FIRST_CLASS with 32. intros Hl Hc Hi. unfold bin_at. cbn. destruct (Z.eqb_spec i cls) as [->|Hne].
  - by rewrite list_lookup_insert_eq by lia.
  - by rewrite list_lookup_insert_ne by lia.
Qed.

(** What the invariant reads of a cache. *)
Definition same_bins (c c' : v8m_thread_cache) : Prop :=
  length c'.(bins) = length c.(bins) /\
  forall cls, (bin_at c' cls).(bin_heads) = (bin_at c cls).(bin_heads) /\ (bin_at c' cls).(bin_count) = (bin_at c cls).(bin_count).

Lemma bins_ok_same mm c c' Q : same_bins c c' -> bins_ok mm c Q -> bins_ok mm c' Q.
Proof.
  intros [Hl Hb] [B1 B2 B3 B4]. constructor; [by rewrite Hl| | |done].
  - intros cls Hc. destruct (Hb cls) as [-> _]. by apply B2.
  - intros cls Hc. destruct (Hb cls) as [_ ->]. by apply B3.
Qed.

Lemma bins_ok_ext mm c Q Q' : (forall i, slab_class i -> Q' i = Q i) -> bins_ok mm c Q -> bins_ok mm c Q'.
Proof.
  intros He [B1 B2 B3 B4]. constructor; [done| | |].
  - intros i Hi. rewrite He by done. by apply B2.
  - intros i Hi. rewrite He by done. by apply B3.
  - intros i j a Hi Hj. rewrite !He by done. by apply B4.
Qed.

(** One bin replaced. *)
Lemma bins_ok_put mm mm' c c' Q cls b l :
  bins_ok mm c Q -> slab_class cls -> same_bins (set_bin c cls b) c' -> chain mm' b.(bin_heads) l ->
  b.(bin_count) = Z.of_nat (length l) -> Z.of_nat (length l) < 2 ^ 16 ->
  (forall i, slab_class i -> i <> cls -> chain mm' (bin_at c i).(bin_heads) (Q i)) ->
  (forall i a, slab_class i -> i <> cls -> a ∈ l -> a ∉ Q i) -> bins_ok mm' c' (put_held Q cls l).
Proof.
  intros [B1 B2 B3 B4] Hc Hs Hch Hn Hlt Hm Ha. apply (bins_ok_same _ (set_bin c cls b)); [done|]. constructor.
  - cbn. by rewrite length_insert.
  - intros i Hi. rewrite bin_at_set by done. destruct (Z.eqb_spec i cls) as [->|Hne]; [by rewrite put_held_eq|rewrite put_held_ne by done; by apply Hm].
  - intros i Hi. rewrite bin_at_set by done. destruct (Z.eqb_spec i cls) as [->|Hne]; [by rewrite put_held_eq|rewrite put_held_ne by done; by apply B3].
  - intros i j a Hi Hj Hij. destruct (decide (i = cls)) as [->|Hic], (decide (j = cls)) as [->|Hjc]; rewrite ?put_held_eq, ?put_held_ne by done.
    + done.
    + intros Hx. by apply Ha.
    + intros Hx Hy. by apply (Ha i a).
    + by apply B4.
Qed.

(** ** Ticks *)

Lemma gc_class_bin o b : (gc_class o b).(bin_heads) = b.(bin_heads) /\ (gc_class o b).(bin_count) = b.(bin_count).
Proof. done. Qed.

Lemma check_migration_bins e mm c : (check_numa_migration e mm c).1.(bins) = c.(bins).
Proof.
  unfold check_numa_migration. destruct (_ || _); [done|]. destruct (_ =? 0); [done|]. destruct (_ <=? _); [done|]. by destruct (collect_pages _ _ _).
Qed.

Lemma gc_tick_same e mm c : exists c', v8m_thread_cache_gc_tick e mm (Some c) = Some c' /\ same_bins c c' /\
  c'.(bins) = gc_class e.(te_suppressed) <$> c.(bins).
Proof.
  unfold v8m_thread_cache_gc_tick. pose proof (check_migration_bins e mm c) as Hb. destruct (check_numa_migration e mm c) as [c1 pages]. cbn in Hb.
  eexists. split; [done|]. split; [|cbn; by rewrite Hb]. split; [cbn; by rewrite length_fmap, Hb|]. intros cls. unfold bin_at. cbn. rewrite list_lookup_fmap, Hb.
  by destruct (c.(bins) !! Z.to_nat cls).
Qed.

Lemma same_bins_refl c : same_bins c c.
Proof. done. Qed.

Lemma tick_same e mm c : same_bins c (tlc_tick_gc e mm c).
Proof.
  unfold tlc_tick_gc. set (c1 := set_gc c _ _). destruct (_ =? 0); [|done]. by destruct (gc_tick_same e mm c1) as (c' & -> & Hs & _).
Qed.

(** ** The stacks *)

Lemma alloc_nil e mm c Q cls : bins_ok mm c Q -> slab_class cls -> Q cls = [] -> v8m_thread_cache_alloc e mm (Some c) cls = (Some c, NULL).
Proof.
  intros B Hc Hq. unfold v8m_thread_cache_alloc. destruct (Z.leb_spec V8M_MEDIUM_FIRST_CLASS cls); [unfold slab_class in Hc; lia|].
  pose proof (bo_chain _ _ _ B cls Hc) as Hch. rewrite Hq in Hch. cbn in Hch. by rewrite Hch, Z.eqb_refl.
Qed.

Lemma alloc_cons e mm c Q cls a l : bins_ok mm c Q -> slab_class cls -> Q cls = a :: l ->
  exists c', v8m_thread_cache_alloc e mm (Some c) cls = (Some c', a) /\ a <> NULL /\ bins_ok mm c' (put_held Q cls l).
Proof.
  intros B Hc Hq. unfold v8m_thread_cache_alloc. destruct (Z.leb_spec V8M_MEDIUM_FIRST_CLASS cls); [unfold slab_class in Hc; lia|].
  pose proof (bo_chain _ _ _ B cls Hc) as Hch. pose proof (bo_count _ _ _ B cls Hc) as [Hn Hlt]. rewrite Hq in Hch, Hn, Hlt. cbn [length] in Hn, Hlt.
  destruct (chain_pop _ _ _ _ Hch) as (-> & Ha & Hal & Hl). destruct (Z.eqb_spec a NULL); [done|]. eexists. split; [done|]. split; [done|].
  eapply (bins_ok_put mm mm c); [done|done|apply tick_same|exact Hl| |lia| |].
  - cbn. rewrite Hn. rewrite u16_small by lia. lia.
  - intros i Hi _. by apply (bo_chain _ _ _ B).
  - intros i x Hi Hne Hx Hxi. refine (bo_apart _ _ _ B i cls x Hi Hc Hne Hxi _). rewrite Hq. by right.
Qed.

Lemma free_push e mm c Q cls a : bins_ok mm c Q -> slab_class cls -> a <> NULL -> (forall i, slab_class i -> a ∉ Q i) ->
  Z.of_nat (length (Q cls)) < 2 ^ 16 - 1 ->
  exists c' o, v8m_thread_cache_free e mm (Some c) cls a = (wr mm a (bin_at c cls).(bin_heads), Some c', o) /\
    bins_ok (wr mm a (bin_at c cls).(bin_heads)) c' (put_held Q cls (a :: Q cls)) /\
    (o = true <-> (bin_at c' cls).(bin_capacity) <= Z.of_nat (S (length (Q cls)))).
Proof.
  intros B Hc Ha Hf Hlt. unfold v8m_thread_cache_free. destruct (Z.leb_spec V8M_MEDIUM_FIRST_CLASS cls); [unfold slab_class in Hc; lia|].
  destruct (Z.eqb_spec a NULL); [done|]. cbn [orb]. pose proof (bo_count _ _ _ B cls Hc) as [Hn _]. eexists _, _. split; [done|].
  set (mm' := wr mm a _). set (c' := tlc_tick_gc _ _ _).
  assert (B' : bins_ok mm' c' (put_held Q cls (a :: Q cls))).
  { eapply (bins_ok_put mm mm' c); [done|done|apply tick_same|..].
    - cbn. apply chain_push; [done|by apply Hf|by apply (bo_chain _ _ _ B)].
    - cbn [bin_count length]. rewrite Hn, u16_small by lia. lia.
    - cbn [length]. lia.
    - intros i Hi _. apply chain_frame; [by apply Hf|by apply (bo_chain _ _ _ B)].
    - intros i x Hi Hne [->|Hx]%elem_of_cons; [by apply Hf|]. intros Hxi. by apply (bo_apart _ _ _ B i cls x). }
  split; [done|]. pose proof (bo_count _ _ _ B' cls Hc) as [-> _]. rewrite put_held_eq, Z.leb_le. done.
Qed.

(** ** Chains in and out of a bin *)

(** What the ticks leave alone: the remote queue and the bins of buddy blocks; a bin
    holds at most 512 objects by its capacity. *)
Definition caps_ok (c : v8m_thread_cache) : Prop := forall cls, (bin_at c cls).(bin_capacity) <= V8M_BIN_CAPACITY_MAX.
Definition steady (c c' : v8m_thread_cache) : Prop := c'.(remote) = c.(remote) /\ c'.(mediums) = c.(mediums) /\ (caps_ok c -> caps_ok c').

Lemma steady_refl c : steady c c.
Proof. done. Qed.
Lemma steady_trans c1 c2 c3 : steady c1 c2 -> steady c2 c3 -> steady c1 c3.
Proof. intros (R1 & M1 & C1) (R2 & M2 & C2). split_and!; [congruence|congruence|auto]. Qed.

Lemma steady_bin c cls b : b.(bin_capacity) = (bin_at c cls).(bin_capacity) -> steady c (set_bin c cls b).
Proof.
  intros Hb. split_and!; [done|done|]. intros Hc i. unfold bin_at. cbn. destruct (decide (Z.to_nat cls = Z.to_nat i)) as [He|Hne].
  - destruct (decide (Z.to_nat i < length c.(bins))%nat).
    + rewrite He, list_lookup_insert_eq by done. cbn. rewrite Hb. apply Hc.
    + rewrite list_insert_ge by lia. apply Hc.
  - rewrite list_lookup_insert_ne by done. apply Hc.
Qed.

Lemma gc_class_cap o b : (gc_class o b).(bin_capacity) <= V8M_BIN_CAPACITY_MAX.
Proof.
  unfold gc_class. cbn [bin_capacity]. set (x := if o then _ else _). set (y := if x <? _ then _ else x). unfold V8M_BIN_CAPACITY_MAX.
  assert (Hy : 0 <= y). { unfold y. destruct (Z.ltb_spec x V8M_BIN_CAPACITY_MIN); unfold V8M_BIN_CAPACITY_MIN in *; lia. }
  destruct (Z.ltb_spec 512 y); rewrite u16_small by lia; lia.
Qed.

Lemma tick_steady e mm c : steady c (tlc_tick_gc e mm c).
Proof.
  unfold tlc_tick_gc. set (c1 := set_gc c _ _). destruct (_ =? 0); [|done]. unfold v8m_thread_cache_gc_tick.
  assert (Hm : (check_numa_migration e mm c1).1.(remote) = c.(remote) /\ (check_numa_migration e mm c1).1.(mediums) = c.(mediums)).
  { unfold check_numa_migration. destruct (_ || _); [done|]. destruct (_ =? 0); [done|]. destruct (_ <=? _); [done|]. by destruct (collect_pages _ _ _). }
  destruct (check_numa_migration e mm c1) as [c2 ps]. destruct Hm as [H1 H2]. split_and!; [done|done|]. intros _ i. unfold bin_at. cbn. rewrite list_lookup_fmap.
  destruct (c2.(bins) !! Z.to_nat i); cbn; [apply gc_class_cap|unfold V8M_BIN_CAPACITY_MAX; lia].
Qed.

Lemma tick_bin_steady e mm c cls b : b.(bin_capacity) = (bin_at c cls).(bin_capacity) -> steady c (tlc_tick_gc e mm (set_bin c cls b)).
Proof. intros Hb. exact (steady_trans _ _ _ (steady_bin c cls b Hb) (tick_steady e mm _)). Qed.

Lemma alloc_steady e mm c cls c' a : v8m_thread_cache_alloc e mm (Some c) cls = (Some c', a) -> steady c c'.
Proof.
  unfold v8m_thread_cache_alloc. destruct (_ <=? cls); [by intros [= <- _]|]. destruct (_ =? NULL); [by intros [= <- _]|]. intros [= <- _]. by apply tick_bin_steady.
Qed.
Lemma free_steady e mm c cls obj mm' c' o : v8m_thread_cache_free e mm (Some c) cls obj = (mm', Some c', o) -> steady c c'.
Proof.
  unfold v8m_thread_cache_free. destruct (_ || _); [by intros [= _ <- _]|]. intros [= _ <- _]. by apply tick_bin_steady.
Qed.

(** A chain installed in a bin goes on top of its objects. *)
Lemma install_spec mm c Q cls l head tail : bins_ok mm c Q -> slab_class cls -> l <> [] -> chain mm head l -> tail = default NULL (last l) ->
  (forall i x, slab_class i -> x ∈ l -> x ∉ Q i) -> Z.of_nat (length l + length (Q cls)) < 2 ^ 16 ->
  exists c', v8m_thread_cache_install_chain mm (Some c) cls head tail (Z.of_nat (length l)) = (wr mm tail (bin_at c cls).(bin_heads), Some c') /\
    bins_ok (wr mm tail (bin_at c cls).(bin_heads)) c' (put_held Q cls (l ++ Q cls)) /\ steady c c' /\ tail ∈ l.
Proof.
  intros B Hc Hl Hch Ht Ha Hlt. destruct (exists_last Hl) as (l1 & t & ->). rewrite last_snoc in Ht. change (default NULL (Some t)) with t in Ht. subst tail.
  assert (Htl : t ∈ l1 ++ [t]) by (apply elem_of_app; right; left). pose proof (chain_null mm (l1 ++ [t])) as Hnull.
  assert (Ht0 : t <> NULL) by (apply chain_suffix in Hch as (h & _ & ? & _); done).
  assert (Hh : head <> NULL) by (intros ->; apply chain_null in Hch; by destruct l1).
  unfold v8m_thread_cache_install_chain. rewrite (proj2 (Z.eqb_neq head NULL)), (proj2 (Z.eqb_neq t NULL)) by done.
  destruct (Z.leb_spec V8M_MEDIUM_FIRST_CLASS cls); [unfold slab_class in Hc; lia|]. rewrite length_app in *. cbn [length] in *.
  destruct (Z.eqb_spec (Z.of_nat (length l1 + 1)) 0); [lia|]. cbn [orb]. pose proof (bo_count _ _ _ B cls Hc) as [Hn _].
  eexists. split; [reflexivity|]. split; [|split; [by apply steady_bin|done]]. eapply (bins_ok_put mm); [done|done|apply same_bins_refl|..]; cbn [bin_heads bin_count].
  - rewrite <- app_assoc. cbn. apply chain_splice; [done|by apply (bo_chain _ _ _ B)|]. intros x Hx. by apply Ha.
  - rewrite Hn, u16_small by lia. rewrite !length_app. cbn. lia.
  - rewrite !length_app. cbn. lia.
  - intros i Hi _. apply chain_frame; [by apply Ha|by apply (bo_chain _ _ _ B)].
  - intros i x Hi Hne [Hx|Hx]%elem_of_app; [by apply Ha|]. intros Hy. by apply (bo_apart _ _ _ B i cls x).
Qed.

(** The objects come out of a bin already linked. *)
Lemma chain_loop_spec n e mm c Q cls tail got : bins_ok mm c Q -> slab_class cls -> rd mm tail = (bin_at c cls).(bin_heads) ->
  let taken := take n (Q cls) in
  exists mm' c', chain_loop n e mm (Some c) cls tail got = (mm', Some c', default tail (last taken), got + Z.of_nat (length taken)) /\
    bins_ok mm' c' (put_held Q cls (drop n (Q cls))) /\ steady c c' /\ (forall a, rd mm' a = rd mm a).
Proof.
  revert mm c Q tail got. induction n as [|n IH]; intros mm c Q tail got B Hc Ht; cbn [chain_loop take drop].
  { exists mm, c. rewrite Z.add_0_r. split_and!; [done| |done|done]. eapply bins_ok_ext; [|exact B].
    intros i _. unfold put_held. by destruct (Z.eqb_spec i cls) as [->|]. }
  destruct (Q cls) as [|a l] eqn:Hq.
  - rewrite (alloc_nil e mm c Q cls B Hc Hq). cbn. exists mm, c. rewrite Z.add_0_r. split_and!; [done| |done|done]. eapply bins_ok_ext; [|exact B].
    intros i _. unfold put_held. destruct (Z.eqb_spec i cls) as [->|]; [by rewrite Hq|done].
  - destruct (alloc_cons e mm c Q cls a l B Hc Hq) as (c1 & He & Ha & B1). rewrite He. destruct (Z.eqb_spec a NULL); [done|].
    pose proof (bo_chain _ _ _ B cls Hc) as Hch. rewrite Hq in Hch. destruct (chain_pop _ _ _ _ Hch) as (Hh & _ & _ & _).
    assert (Hsame : forall x, rd (wr mm tail a) x = rd mm x). { intros x. destruct (decide (x = tail)) as [->|]; [rewrite rd_wr_eq; congruence|by rewrite rd_wr_ne]. }
    assert (Hb1 : rd mm a = (bin_at c1 cls).(bin_heads)).
    { pose proof (bo_chain _ _ _ B1 cls Hc) as H1. rewrite put_held_eq in H1. destruct Hch as (_ & _ & H2). destruct l as [|b l].
      - cbn in H1, H2. congruence.
      - destruct (chain_pop _ _ _ _ H1) as (-> & _). by destruct (chain_pop _ _ _ _ H2) as (-> & _). }
    assert (B2 : bins_ok (wr mm tail a) c1 (put_held Q cls l)).
    { destruct B1 as [X1 X2 X3 X4]. constructor; [done| |done|done]. intros i Hi. apply (SlabPage.chain_agree mm); [by apply X2|]. intros; apply Hsame. }
    destruct (IH (wr mm tail a) c1 (put_held Q cls l) a (got + 1) B2 Hc ltac:(by rewrite Hsame)) as (mm' & c' & He' & B' & Hst & Hmm).
    rewrite put_held_eq in He', B'. exists mm', c'. split; [|split; [|split]].
    + rewrite He'. f_equal; [|cbn [take length]; lia]. f_equal. cbn [take]. rewrite last_cons. by destruct (last (take n l)).
    + eapply bins_ok_ext; [|exact B']. intros i _. unfold put_held. by destruct (Z.eqb_spec i cls).
    + eapply steady_trans; [by eapply alloc_steady|done].
    + intros x. by rewrite Hmm.
Qed.

(** Cutting a chain behind one of its nodes. *)
Lemma chain_prefix m h l1 t l2 : chain m h (l1 ++ t :: l2) -> chain (wr m t NULL) h (l1 ++ [t]).
Proof.
  intros Hc. pose proof (chain_NoDup _ _ _ Hc) as Nd. revert h Hc Nd. induction l1 as [|a l1 IH]; intros h; cbn.
  - intros (-> & Ht & _) _. rewrite rd_wr_eq. done.
  - intros (-> & Ha & Hc) [Hn Nd]%NoDup_cons. rewrite rd_wr_ne; [|intros ->; apply Hn, elem_of_app; right; left]. split_and!; [done|done|by apply IH].
Qed.

(** [v8m_thread_cache_drain_chain] takes the top objects of a bin, as a chain. *)
Lemma drain_chain_spec e mm c Q cls n : bins_ok mm c Q -> slab_class cls -> 0 < n ->
  let taken := take (Z.to_nat n) (Q cls) in
  exists mm' c' h t, v8m_thread_cache_drain_chain e mm (Some c) cls n = (mm', Some c', h, t, Z.of_nat (length taken)) /\
    bins_ok mm' c' (put_held Q cls (drop (Z.to_nat n) (Q cls))) /\ steady c c' /\ chain mm' h taken /\ t = default NULL (last taken) /\
    (forall a, a ∉ taken -> rd mm' a = rd mm a).
Proof.
  intros B Hc Hn taken. assert (Htk : taken = take (Z.to_nat n) (Q cls)) by done. clearbody taken. unfold v8m_thread_cache_drain_chain. destruct (Z.leb_spec V8M_MEDIUM_FIRST_CLASS cls); [unfold slab_class in Hc; lia|].
  destruct (Z.eqb_spec n 0); [lia|]. cbn [orb]. destruct (Q cls) as [|a l] eqn:Hq.
  { rewrite (alloc_nil e mm c Q cls B Hc Hq). cbn. exists mm, c, NULL, NULL. rewrite take_nil in Htk. subst taken. split_and!; try done. eapply bins_ok_ext; [|exact B].
    intros i _. unfold put_held. destruct (Z.eqb_spec i cls) as [->|]; [by rewrite drop_nil|done]. }
  destruct (alloc_cons e mm c Q cls a l B Hc Hq) as (c1 & He & Ha & B1). rewrite He. destruct (Z.eqb_spec a NULL); [done|].
  pose proof (bo_chain _ _ _ B cls Hc) as Hch. rewrite Hq in Hch.
  assert (Hb1 : rd mm a = (bin_at c1 cls).(bin_heads)).
  { pose proof (bo_chain _ _ _ B1 cls Hc) as H1. rewrite put_held_eq in H1. destruct Hch as (_ & _ & H2). destruct l as [|b l].
    - cbn in H1, H2. congruence.
    - destruct (chain_pop _ _ _ _ H1) as (-> & _). by destruct (chain_pop _ _ _ _ H2) as (-> & _). }
  destruct (chain_loop_spec (Z.to_nat (n - 1)) e mm c1 _ cls a 1 B1 Hc Hb1) as (mm' & c' & -> & B' & Hst & Hmm). rewrite put_held_eq in *.
  replace (Z.to_nat n) with (S (Z.to_nat (n - 1))) in * by lia. set (k := Z.to_nat (n - 1)) in *. cbn [drop] in *. cbn [take] in Htk.
  set (t := default a (last (take k l))) in *.
  assert (Hlast : exists l1, taken = l1 ++ [t]).
  { assert (Hne : taken <> []) by (by rewrite Htk). destruct (exists_last Hne) as (l1 & x & Hx). exists l1. rewrite Hx. do 2 f_equal. unfold t.
    assert (Hl : last taken = Some x) by (by rewrite Hx, last_snoc). rewrite Htk, last_cons in Hl. destruct (last (take k l)); cbn; congruence. }
  destruct Hlast as (l1 & Hl1). assert (Hsp : a :: l = l1 ++ t :: drop k l).
  { transitivity (taken ++ drop k l); [rewrite Htk; cbn; by rewrite take_drop|rewrite Hl1, <- app_assoc; done]. }
  assert (Hch' : chain mm' a (a :: l)). { apply (SlabPage.chain_agree mm); [|intros; apply Hmm]. by destruct (chain_pop _ _ _ _ Hch) as (<- & _). }
  exists (wr mm' t NULL), c', a, t. split; [f_equal; rewrite Htk; cbn [length]; lia|]. split; [|split; [|split; [|split]]].
  - assert (Ht : forall i, slab_class i -> t ∉ put_held Q cls (drop k l) i).
    { intros i Hi. unfold put_held. destruct (Z.eqb_spec i cls) as [->|Hne].
      - pose proof (chain_NoDup _ _ _ Hch) as Nd. rewrite Hsp in Nd. apply NoDup_app in Nd as (_ & _ & Nd). by apply NoDup_cons in Nd as [? _].
      - intros Hti. apply (bo_apart _ _ _ B i cls t Hi Hc Hne Hti). rewrite Hq, Hsp. apply elem_of_app. right. left. }
    apply (bins_ok_ext _ _ (put_held (put_held Q cls l) cls (drop k l))); [intros i _; unfold put_held; by destruct (Z.eqb_spec i cls)|].
    destruct B' as [X1 X2 X3 X4]. constructor; [done| |done|done]. intros i Hi. apply chain_frame; [|by apply X2].
    specialize (Ht i Hi). unfold put_held in *. by destruct (Z.eqb_spec i cls).
  - eapply steady_trans; [by eapply alloc_steady|done].
  - rewrite Hl1. apply (chain_prefix _ _ _ _ (drop k l)). by rewrite <- Hsp.
  - by rewrite Hl1, last_snoc.
  - intros x Hx. rewrite rd_wr_ne; [apply Hmm|]. intros ->. apply Hx. rewrite Hl1. apply elem_of_app. right. left.
Qed.

(** A bin is a stack.  On bins in the invariant, allocation fails exactly on an
    empty bin and otherwise pops the object freed last; freeing an object that is in
    no bin pushes it and reports whether the bin has reached its capacity.  The
    counter stays the length of the stack, whatever the periodic tick does. *)
Theorem v8m_thread_cache_bin_stack e mm c Q cls obj :
  bins_ok mm c Q -> slab_class cls -> obj <> NULL -> (forall i, slab_class i -> obj ∉ Q i) -> Z.of_nat (length (Q cls)) < 2 ^ 16 - 1 ->
  match Q cls with
  | [] => v8m_thread_cache_alloc e mm (Some c) cls = (Some c, NULL)
  | a :: l => exists c', v8m_thread_cache_alloc e mm (Some c) cls = (Some c', a) /\ a <> NULL /\ bins_ok mm c' (put_held Q cls l)
  end /\
  exists mm' c' o, v8m_thread_cache_free e mm (Some c) cls obj = (mm', Some c', o) /\ bins_ok mm' c' (put_held Q cls (obj :: Q cls)) /\
    (o = true <-> (bin_at c' cls).(bin_capacity) <= Z.of_nat (S (length (Q cls)))) /\
    exists c'', v8m_thread_cache_alloc e mm' (Some c') cls = (Some c'', obj) /\ bins_ok mm' c'' Q.
Proof.
  intros B Hc Ho Hf Hlt. split.
  - destruct (Q cls) as [|a l] eqn:Hq; [by eapply alloc_nil|by eapply alloc_cons].
  - destruct (free_push e mm c Q cls obj B Hc Ho Hf Hlt) as (c' & o & He & B' & Hov). eexists _, c', o. split; [exact He|]. split; [done|]. split; [done|].
    destruct (alloc_cons e _ c' _ cls obj (Q cls) B' Hc (put_held_eq _ _ _)) as (c'' & He' & _ & B''). exists c''. split; [done|].
    eapply bins_ok_ext; [|exact B'']. intros i _. by rewrite put_held_same.
Qed.

(** The header's inline copies are the functions. *)
Lemma inline_same e mm cache cls obj :
  v8m_thread_cache_alloc_inline e mm cache cls = v8m_thread_cache_alloc e mm cache cls /\
  v8m_thread_cache_free_inline e mm cache cls obj = v8m_thread_cache_free e mm cache cls obj.
Proof.
  destruct cache as [c|]; [|done]. split; [|done]. unfold v8m_thread_cache_alloc_inline, v8m_thread_cache_alloc, tlc_tick_gc.
  destruct (_ <=? _); [done|]. destruct (_ =? _); [done|]. destruct (gc_countdown _ =? 0); [|done].
  set (c1 := set_gc _ _ _). by destruct (gc_tick_same e mm c1) as (c' & -> & _).
Qed.

(** ** Self-tuning *)

Record bin_range (b : bin) : Prop := {
  br_allocs : 0 <= b.(alloc_count_per_class) <= UINT16_MAX;
  br_frees : 0 <= b.(free_count_per_class) <= UINT16_MAX;
  br_ema : 0 <= b.(ema_demand) <= UINT16_MAX
}.

Definition demand_of (b : bin) : Z := Z.max 0 (b.(alloc_count_per_class) - b.(free_count_per_class)).

Lemma gc_class_spec o b : bin_range b ->
  let b' := gc_class o b in
  b'.(ema_demand) = (3 * b.(ema_demand) + demand_of b) / 4 /\
  b'.(bin_capacity) = Z.max 16 (Z.min 512 (if o then b'.(ema_demand) else 2 * b'.(ema_demand))) /\
  b'.(alloc_count_per_class) = 0 /\ b'.(free_count_per_class) = 0.
Proof.
  intros [Ha Hf He]. unfold UINT16_MAX in *. cbn zeta. unfold gc_class, demand_of. cbn [ema_demand bin_capacity alloc_count_per_class free_count_per_class].
  set (d := if _ <? _ then u16 _ else 0).
  assert (Hd : d = Z.max 0 (b.(alloc_count_per_class) - b.(free_count_per_class))).
  { unfold d. destruct (Z.ltb_spec b.(free_count_per_class) b.(alloc_count_per_class)); [rewrite u16_small by lia; lia|lia]. }
  rewrite <- Hd. assert (0 <= d <= 65535) by lia.
  rewrite (u32_small (ema_demand b * 3)), (u32_small (_ + d)) by (unfold is_u32; lia). rewrite Z.shiftr_div_pow2 by lia. change (2 ^ 2) with 4.
  replace (ema_demand b * 3 + d) with (3 * ema_demand b + d) by lia. set (e := (3 * ema_demand b + d) / 4).
  assert (0 <= e <= 65535) by (unfold e; split; [apply Z.div_pos; lia|apply Z.div_le_upper_bound; lia]).
  unfold UINT16_MAX. change (2 ^ 16 - 1) with 65535. destruct (Z.ltb_spec 65535 e); [lia|].
  rewrite (u16_small e) by lia. split; [done|]. split; [|done].
  rewrite (u32_small (e * 2)) by (unfold is_u32; lia). rewrite Z.shiftr_div_pow2 by lia. change (2 ^ 1) with 2. rewrite Z.div_mul by lia.
  unfold V8M_BIN_CAPACITY_MIN, V8M_BIN_CAPACITY_MAX. destruct o.
  - destruct (Z.ltb_spec e 16); [cbn; rewrite u16_small by lia; lia|]. destruct (Z.ltb_spec 512 e); rewrite u16_small by lia; lia.
  - destruct (Z.ltb_spec (e * 2) 16); [cbn; rewrite u16_small by lia; lia|]. destruct (Z.ltb_spec 512 (e * 2)); rewrite u16_small by lia; lia.
Qed.

(** The periodic tick leaves the stacks and their counters alone.  For every
    class the running demand becomes the weighted mean of the old value and the
    period's net demand, so it stays between them; the capacity is twice that
    (once, on an overloaded node) clamped to 16 .. 512; the period's counters are
    cleared and the countdown restarted. *)
Theorem v8m_thread_cache_gc_bounds e mm c :
  (forall b, b ∈ c.(bins) -> bin_range b) ->
  exists c', v8m_thread_cache_gc_tick e mm (Some c) = Some c' /\ same_bins c c' /\ c'.(gc_countdown) = V8M_TLC_GC_INTERVAL /\
    forall i b, c.(bins) !! i = Some b -> exists b', c'.(bins) !! i = Some b' /\ bin_range b' /\
      b'.(ema_demand) = (3 * b.(ema_demand) + demand_of b) / 4 /\
      Z.min b.(ema_demand) (demand_of b) <= b'.(ema_demand) <= Z.max b.(ema_demand) (demand_of b) /\
      b'.(bin_capacity) = Z.max 16 (Z.min 512 (if e.(te_suppressed) then b'.(ema_demand) else 2 * b'.(ema_demand))) /\
      b'.(alloc_count_per_class) = 0 /\ b'.(free_count_per_class) = 0.
Proof.
  intros Hr. destruct (gc_tick_same e mm c) as (c' & He & Hs & Hb). exists c'. split_and!; [done|done| |].
  { unfold v8m_thread_cache_gc_tick in He. destruct (check_numa_migration e mm c) as [c1 ?]. by injection He as <-. }
  intros i b Hi. pose proof (Hr b ltac:(by eapply list_elem_of_lookup_2)) as Hbr. destruct (gc_class_spec e.(te_suppressed) b Hbr) as (G1 & G2 & G3 & G4).
  exists (gc_class e.(te_suppressed) b). destruct Hbr as [R1 R2 R3]. unfold UINT16_MAX in *. assert (0 <= demand_of b <= 65535) by (unfold demand_of; lia).
  assert (Hm : Z.min b.(ema_demand) (demand_of b) <= (3 * b.(ema_demand) + demand_of b) / 4 <= Z.max b.(ema_demand) (demand_of b)).
  { split; [apply Z.div_le_lower_bound; lia|]. apply Z.div_le_upper_bound; lia. }
  split_and!; [by rewrite Hb, list_lookup_fmap, Hi|constructor; unfold UINT16_MAX; rewrite ?G1, ?G3, ?G4; lia|done|rewrite G1; lia|rewrite G1; lia|done|done|done].
Qed.

(** ** Returning objects to the slab pool *)

Section Drain.
Context `{PSL : PageSourceLaws} (oth od : list (Z * Z)) (nother : Z -> Prop) (ar : Z).
Notation pool_ok := (SlabPoolSpec.pool_ok oth od nother ar).

(** The bins hold objects of the pool: in use for the pool, free for the program. *)
Record tlc_ok (st : slab_pool) (c : v8m_thread_cache) (Q : held) (Lv : Z -> Prop) : Prop := {
  to_pool : pool_ok st Lv;
  to_bins : bins_ok st.(smem) c Q;
  to_live : forall cls a, slab_class cls -> a ∈ Q cls -> Lv a
}.

Lemma pages_shrink st st' Lv Lv' : pool_ok st Lv -> pool_ok st' Lv' -> (forall q, Lv' q -> Lv q) ->
  (size st'.(pages) <= size st.(pages))%nat.
Proof.
  intros P P' Hsub. apply (dom_subseteq_size (D := gset Z)). intros p [m Hp]%elem_of_dom. apply elem_of_dom.
  destruct (st.(pages) !! p) as [m0|] eqn:E; [done|]. exfalso.
  destruct (SlabPoolSpec.sl_page _ _ _ (SlabPoolSpec.po_slabs _ _ _ _ _ _ P') p m Hp) as (Hb & Hu & Hok).
  destruct (SlabPage.slab_used _ _ _ _ _ Hb Hok) as (_ & _ & _ & Hz). assert (m.(used_count) = 0); [|lia]. apply Hz. intros a [Ha Hin].
  destruct (SlabPoolSpec.sl_live _ _ _ (SlabPoolSpec.po_slabs _ _ _ _ _ _ P) a (Hsub a Ha)) as (p0 & [m1 Hp0] & Hin0).
  destruct (SlabPoolSpec.sl_page _ _ _ (SlabPoolSpec.po_slabs _ _ _ _ _ _ P) p0 m1 Hp0) as (Hb0 & _).
  rewrite (SlabPoolSpec.in_page_unique _ _ _ Hb Hb0 Hin Hin0) in E. congruence.
Qed.

(** Words of the objects still in use are not disturbed by a release. *)
Lemma free_keeps fuel st Lv obj : pool_ok st Lv -> Lv obj -> (size st.(pages) < fuel)%nat ->
  exists st' emptied, v8m_slab_pool_free fuel st (v8m_ptr_to_meta obj) obj = Some (st', emptied) /\
    pool_ok st' (fun q => Lv q /\ q <> obj) /\ (size st'.(pages) <= size st.(pages))%nat /\
    SlabPoolSpec.classes_kept st'.(pages) st.(pages) /\ (forall a, Lv a -> a <> obj -> rd st'.(smem) a = rd st.(smem) a) /\
    (forall q a, Lv q -> q <> obj -> a <> obj -> v8m_ptr_to_meta q <= a < v8m_ptr_to_meta q + V8M_PAGE_SIZE -> rd st'.(smem) a = rd st.(smem) a).
Proof.
  intros P Ho Hf. destruct (SlabPoolSpec.pool_free_ok oth od nother ar fuel st Lv obj P Ho Hf) as (st' & b & He & P' & Hem & Hck & Hk).
  exists st', b.
  assert (Hall : forall q a, Lv q -> q <> obj -> a <> obj -> v8m_ptr_to_meta q <= a < v8m_ptr_to_meta q + V8M_PAGE_SIZE -> rd st'.(smem) a = rd st.(smem) a).
  { intros q a Hq Hne Ha Hpa. apply Hk; [done|]. intros Hb Hin. apply Hem in Hb.
    destruct (SlabPoolSpec.sl_live _ _ _ (SlabPoolSpec.po_slabs _ _ _ _ _ _ P') q (conj Hq Hne)) as (p & [m Hp] & Hpin).
    destruct (SlabPoolSpec.sl_page _ _ _ (SlabPoolSpec.po_slabs _ _ _ _ _ _ P') p m Hp) as (Hpb & _).
    destruct (SlabPoolSpec.sl_live _ _ _ (SlabPoolSpec.po_slabs _ _ _ _ _ _ P) obj Ho) as (p0 & [m0 Hp0] & Hpin0).
    destruct (SlabPoolSpec.sl_page _ _ _ (SlabPoolSpec.po_slabs _ _ _ _ _ _ P) p0 m0 Hp0) as (Hpb0 & _).
    unfold SlabPage.in_page, V8M_SLAB_HEADER_SIZE in *. rewrite (ptr_to_meta_inside p0 obj Hpb0) in Hin, Hb by lia. rewrite (ptr_to_meta_inside p q Hpb) in Hpa by lia.
    assert (p0 = p); [|congruence]. rewrite <- (ptr_to_meta_inside p0 a Hpb0) by lia. apply ptr_to_meta_inside; [done|lia]. }
  split_and!; [done|done|apply (pages_shrink st st' Lv _ P P'); tauto|done| |done]. intros a Ha Hne. apply (Hall a a Ha Hne Hne).
  destruct (SlabPoolSpec.sl_live _ _ _ (SlabPoolSpec.po_slabs _ _ _ _ _ _ P) a Ha) as (p & [m Hp] & Hpin).
  destruct (SlabPoolSpec.sl_page _ _ _ (SlabPoolSpec.po_slabs _ _ _ _ _ _ P) p m Hp) as (Hpb & _).
  unfold SlabPage.in_page, V8M_SLAB_HEADER_SIZE in *. rewrite (ptr_to_meta_inside p a Hpb) by lia. lia.
Qed.

(** One object popped and released. *)
Lemma flush_one fuel st c Q Lv cls a l b :
  tlc_ok st c Q Lv -> slab_class cls -> Q cls = a :: l -> (size st.(pages) < fuel)%nat ->
  b.(bin_heads) = rd st.(smem) a -> b.(bin_count) = u16 ((bin_at c cls).(bin_count) - 1) ->
  exists st' e, v8m_slab_pool_free fuel st (v8m_ptr_to_meta a) a = Some (st', e) /\ (size st'.(pages) <= size st.(pages))%nat /\
    tlc_ok st' (set_bin c cls b) (put_held Q cls l) (fun q => Lv q /\ q <> a).
Proof.
  intros [P B Hl] Hc Hq Hf Hh Hn. assert (Ha : Lv a) by (apply (Hl cls); [done|rewrite Hq; left]).
  destruct (free_keeps fuel st Lv a P Ha Hf) as (st' & e & He & P' & Hsz & _ & Hk & _). exists st', e. split; [done|]. split; [done|].
  pose proof (bo_chain _ _ _ B cls Hc) as Hch. pose proof (bo_count _ _ _ B cls Hc) as [Hcn Hlt]. rewrite Hq in Hch, Hcn, Hlt. cbn [length] in Hcn, Hlt.
  destruct (chain_pop _ _ _ _ Hch) as (_ & Ha0 & Hal & Hrest).
  assert (Hother : forall i x, slab_class i -> i <> cls -> x ∈ Q i -> x <> a).
  { intros i x Hi Hne Hx ->. refine (bo_apart _ _ _ B i cls a Hi Hc Hne Hx _). rewrite Hq. left. }
  constructor; [done| |].
  - eapply (bins_ok_put st.(smem)); [done|done|apply same_bins_refl| | |lia| |].
    + rewrite Hh. apply (SlabPage.chain_agree st.(smem)); [done|]. intros x Hx. apply Hk; [apply (Hl cls); [done|rewrite Hq; by right]|by intros ->].
    + rewrite Hn, Hcn. rewrite u16_small by lia. lia.
    + intros i Hi Hne. apply (SlabPage.chain_agree st.(smem)); [by apply (bo_chain _ _ _ B)|]. intros x Hx. apply Hk; [by apply (Hl i)|by eapply Hother].
    + intros i x Hi Hne Hx Hxi. refine (bo_apart _ _ _ B i cls x Hi Hc Hne Hxi _). rewrite Hq. by right.
  - intros i x Hi. destruct (decide (i = cls)) as [->|Hne]; rewrite ?put_held_eq, ?put_held_ne by done.
    + intros Hx. split; [apply (Hl cls); [done|rewrite Hq; by right]|by intros ->].
    + intros Hx. split; [by apply (Hl i)|by eapply Hother].
Qed.

Definition without (Lv : Z -> Prop) (l : list Z) : Z -> Prop := fun q => Lv q /\ q ∉ l.

Lemma tlc_ok_ext st c Q Q' Lv Lv' : tlc_ok st c Q Lv -> (forall i, slab_class i -> Q' i = Q i) -> (forall q, Lv q <-> Lv' q) -> tlc_ok st c Q' Lv'.
Proof.
  intros [P B Hl] HQ HL. constructor.
  - by eapply SlabPoolSpec.pool_ok_ext.
  - destruct B as [B1 B2 B3 B4]. constructor; [done| | |].
    + intros i Hi. rewrite HQ by done. by apply B2.
    + intros i Hi. rewrite HQ by done. by apply B3.
    + intros i j a Hi Hj. rewrite !HQ by done. by apply B4.
  - intros i a Hi. rewrite HQ by done. intros Ha. by apply HL, (Hl i).
Qed.

(** The objects of the bin that [n] rounds of the loop release. *)
Lemma flush_loop_spec n fuel st c Q Lv cls freed :
  tlc_ok st c Q Lv -> slab_class cls -> (size st.(pages) < fuel)%nat ->
  exists st' c', flush_loop n fuel c st cls freed = Some (c', st', freed + Z.of_nat (length (take n (Q cls)))) /\ (size st'.(pages) <= size st.(pages))%nat /\
    tlc_ok st' c' (put_held Q cls (drop n (Q cls))) (without Lv (take n (Q cls))).
Proof.
  revert st c Q Lv freed. induction n as [|n IH]; intros st c Q Lv freed T Hc Hf; cbn [flush_loop].
  { exists st, c. split; [by rewrite Z.add_0_r|]. split; [done|]. eapply tlc_ok_ext; [exact T| |].
    - intros i _. unfold put_held. cbn. by destruct (Z.eqb_spec i cls); subst.
    - intros q. unfold without. cbn. split; [intros ?; split; [done|apply not_elem_of_nil]|tauto]. }
  pose proof (bo_chain _ _ _ (to_bins _ _ _ _ T) cls Hc) as Hch. destruct (Q cls) as [|a l] eqn:Hq.
  { cbn in Hch. rewrite Hch, Z.eqb_refl. exists st, c. split; [by rewrite Z.add_0_r|]. split; [done|]. eapply tlc_ok_ext; [exact T| |].
    - intros i _. unfold put_held. cbn. by destruct (Z.eqb_spec i cls); subst.
    - intros q. unfold without. cbn. split; [intros ?; split; [done|apply not_elem_of_nil]|tauto]. }
  destruct (chain_pop _ _ _ _ Hch) as (Hh & Ha & Hal & _). rewrite Hh. destruct (Z.eqb_spec a NULL); [done|].
  set (b := MkBin _ _ _ _ _ _). destruct (flush_one fuel st c Q Lv cls a l b T Hc Hq Hf eq_refl eq_refl) as (st1 & e & -> & Hsz & T1).
  destruct (IH st1 (set_bin c cls b) (put_held Q cls l) _ (freed + 1) T1 Hc ltac:(lia)) as (st' & c' & He & Hsz' & T'). rewrite put_held_eq in He, T'.
  exists st', c'. split; [rewrite He; cbn [take length]; by rewrite Nat2Z.inj_succ, <- Z.add_assoc, Z.add_1_l|]. split; [lia|]. eapply tlc_ok_ext; [exact T'| |].
  - intros i _. unfold put_held. cbn [drop]. by destruct (Z.eqb_spec i cls).
  - intros q. unfold without. cbn [take]. rewrite not_elem_of_cons. tauto.
Qed.

Lemma flush_half_spec fuel st c Q Lv cls :
  tlc_ok st c Q Lv -> slab_class cls -> (size st.(pages) < fuel)%nat ->
  let n := ((length (Q cls) + 1) / 2)%nat in
  exists st' c', v8m_thread_cache_flush_half fuel (Some c) st cls = Some (Some c', st', Z.of_nat n) /\ (size st'.(pages) <= size st.(pages))%nat /\
    tlc_ok st' c' (put_held Q cls (drop n (Q cls))) (without Lv (take n (Q cls))).
Proof.
  intros T Hc Hf n. unfold v8m_thread_cache_flush_half. destruct (Z.leb_spec V8M_MEDIUM_FIRST_CLASS cls); [unfold slab_class in Hc; lia|].
  pose proof (bo_count _ _ _ (to_bins _ _ _ _ T) cls Hc) as [-> Hlt].
  assert (Hn : u16 (u32 (Z.of_nat (length (Q cls)) + 1) / 2) = Z.of_nat n).
  { rewrite u32_small by (unfold is_u32; lia). unfold n. rewrite Nat2Z.inj_div, Nat2Z.inj_add. apply u16_small.
    split; [apply Z.div_pos; lia|apply Z.div_lt_upper_bound; lia]. }
  rewrite Hn, Nat2Z.id. destruct (flush_loop_spec n fuel st c Q Lv cls 0 T Hc Hf) as (st' & c' & -> & Hsz & T'). exists st', c'. split; [|done].
  rewrite Z.add_0_l, length_take. rewrite Nat.min_l; [done|]. unfold n. destruct (length (Q cls)) as [|k]; [done|]. apply Nat.div_le_upper_bound; lia.
Qed.

Lemma drain_class_spec rounds fuel st c Q Lv cls total :
  tlc_ok st c Q Lv -> slab_class cls -> (size st.(pages) < fuel)%nat -> Z.of_nat (length (Q cls)) < 2 ^ Z.of_nat rounds ->
  0 <= total -> total + Z.of_nat (length (Q cls)) < 2 ^ 64 ->
  exists st' c', drain_class rounds fuel c st cls total = Some (c', st', total + Z.of_nat (length (Q cls))) /\ (size st'.(pages) <= size st.(pages))%nat /\
    tlc_ok st' c' (put_held Q cls []) (without Lv (Q cls)).
Proof.
  revert st c Q Lv total. induction rounds as [|rounds IH]; intros st c Q Lv total T Hc Hf Hr Ht Ht'.
  all: pose proof (bo_chain _ _ _ (to_bins _ _ _ _ T) cls Hc) as Hch.
  all: assert (Hnil : Q cls = [] -> exists st' c', Some (c, st, total) = Some (c', st', total + Z.of_nat (length (Q cls))) /\ (size st'.(pages) <= size st.(pages))%nat /\
    tlc_ok st' c' (put_held Q cls []) (without Lv (Q cls))).
  1, 3: intros Hq; rewrite Hq; exists st, c; split; [by rewrite Z.add_0_r|split; [done|]]; (eapply tlc_ok_ext; [exact T|..]);
    [intros i _; unfold put_held; by destruct (Z.eqb_spec i cls); subst
    |intros q; unfold without; split; [intros ?; split; [done|apply not_elem_of_nil]|tauto]].
  - destruct (Q cls) as [|a l] eqn:Hq; [|cbn [length] in Hr; lia]. cbn in Hch. cbn [drain_class]. rewrite Hch, Z.eqb_refl. by apply Hnil.
  - cbn [drain_class]. destruct (Q cls) as [|a l] eqn:Hq; [cbn in Hch; rewrite Hch, Z.eqb_refl; by apply Hnil|]. rewrite <- Hq in *.
    destruct (Z.eqb_spec (bin_at c cls).(bin_heads) NULL) as [He|_]; [rewrite Hq in Hch; destruct Hch as (? & ? & _); congruence|].
    destruct (flush_half_spec fuel st c Q Lv cls T Hc Hf) as (st1 & c1 & -> & Hsz & T1). set (n := ((length (Q cls) + 1) / 2)%nat) in *.
    assert (Hn : (n <= length (Q cls))%nat /\ (2 * (length (Q cls) - n) <= length (Q cls))%nat).
    { unfold n. pose proof (Nat.div_mod (length (Q cls) + 1) 2 ltac:(lia)). pose proof (Nat.mod_upper_bound (length (Q cls) + 1) 2 ltac:(lia)). lia. }
    rewrite u64_small by (unfold is_u64; lia).
    destruct (IH st1 c1 _ _ (total + Z.of_nat n) T1 Hc ltac:(lia)) as (st' & c' & He & Hsz' & T').
    + rewrite put_held_eq, length_drop. rewrite Nat2Z.inj_succ, Z.pow_succ_r in Hr by lia. lia.
    + lia.
    + rewrite put_held_eq, length_drop. lia.
    + rewrite put_held_eq, length_drop in *. exists st', c'. split; [rewrite He; do 2 f_equal; lia|]. split; [lia|]. eapply tlc_ok_ext; [exact T'| |].
      * intros i _. unfold put_held. by destruct (Z.eqb_spec i cls).
      * intros q. unfold without. rewrite <- (take_drop n (Q cls)) at 3. rewrite not_elem_of_app. tauto.
Qed.

(** The objects of several bins. *)
Definition all_held (Q : held) (cs : list Z) : list Z := cs ≫= Q.
Definition emptied (Q : held) (cs : list Z) : held := fun i => if bool_decide (i ∈ cs) then [] else Q i.

Lemma drain_classes_spec rounds fuel cs st c Q Lv total :
  tlc_ok st c Q Lv -> NoDup cs -> (forall i, i ∈ cs -> slab_class i) -> (size st.(pages) < fuel)%nat -> (16 <= rounds)%nat ->
  0 <= total -> total + Z.of_nat (length (all_held Q cs)) < 2 ^ 64 ->
  exists st' c', drain_classes rounds fuel cs c st total = Some (c', st', total + Z.of_nat (length (all_held Q cs))) /\
    tlc_ok st' c' (emptied Q cs) (without Lv (all_held Q cs)).
Proof.
  revert st c Q Lv total. induction cs as [|cls cs IH]; intros st c Q Lv total T Nd Hcs Hf Hr Ht Ht'; cbn [drain_classes].
  { exists st, c. split; [by rewrite Z.add_0_r|]. eapply tlc_ok_ext; [exact T|done|]. intros q. unfold without. cbn.
    split; [intros ?; split; [done|apply not_elem_of_nil]|tauto]. }
  apply NoDup_cons in Nd as [Hn Nd]. pose proof (Hcs cls ltac:(left)) as Hc.
  pose proof (bo_count _ _ _ (to_bins _ _ _ _ T) cls Hc) as [_ Hlt]. unfold all_held in Ht'. cbn in Ht'. rewrite length_app in Ht'.
  assert (Hpow : 2 ^ 16 <= 2 ^ Z.of_nat rounds) by (apply Z.pow_le_mono_r; lia).
  destruct (drain_class_spec rounds fuel st c Q Lv cls total T Hc Hf ltac:(lia) Ht ltac:(lia)) as (st1 & c1 & -> & Hsz & T1).
  assert (Hsame : all_held (put_held Q cls []) cs = all_held Q cs).
  { unfold all_held. clear -Hn. induction cs as [|i cs IH]; [done|]. apply not_elem_of_cons in Hn as [Hne Hn]. cbn.
    rewrite put_held_ne by congruence. by rewrite IH. }
  destruct (IH st1 c1 _ _ (total + Z.of_nat (length (Q cls))) T1 Nd ltac:(intros i Hi; apply Hcs; by right) ltac:(lia) Hr ltac:(lia)) as (st' & c' & He & T').
  { rewrite Hsame. unfold all_held. lia. }
  exists st', c'. rewrite Hsame in He, T'. split.
  - rewrite He. do 2 f_equal. unfold all_held. cbn. rewrite length_app. lia.
  - eapply tlc_ok_ext; [exact T'| |].
    + intros i _. unfold emptied, put_held. repeat case_bool_decide; try done; destruct (Z.eqb_spec i cls); subst; set_solver.
    + intros q. unfold without, all_held. cbn. rewrite not_elem_of_app. tauto.
Qed.

(** C39: Draining a cache always ends and empties it.  Sixteen rounds per bin are
    enough, since every round releases at least half of a bin and counters have 16
    bits.  Exactly the objects of the bins are given back to the slab pool, whose
    invariant holds, and the result counts them. *)
Theorem v8m_thread_cache_drain_all_spec fuel st c Q Lv :
  tlc_ok st c Q Lv -> (size st.(pages) < fuel)%nat ->
  let objs := all_held Q (seqZ 0 V8M_MEDIUM_FIRST_CLASS) in
  exists st' c', v8m_thread_cache_drain_all 16 fuel (Some c) st = Some (Some c', st', Z.of_nat (length objs)) /\
    tlc_ok st' c' (fun _ => []) (without Lv objs) /\ (forall cls, slab_class cls -> (bin_at c' cls).(bin_heads) = NULL /\ (bin_at c' cls).(bin_count) = 0).
Proof.
  intros T Hf objs. unfold v8m_thread_cache_drain_all.
  assert (Hcs : forall i, i ∈ seqZ 0 V8M_MEDIUM_FIRST_CLASS <-> slab_class i) by (intros i; rewrite elem_of_seqZ; unfold slab_class; lia).
  assert (Hlen : Z.of_nat (length objs) < 2 ^ 64).
  { assert (Hb : forall cs, (forall i, i ∈ cs -> slab_class i) -> Z.of_nat (length (all_held Q cs)) <= Z.of_nat (length cs) * 65536).
    { induction cs as [|i cs IH]; intros Hi; [done|]. change (all_held Q (i :: cs)) with (Q i ++ all_held Q cs). rewrite length_app. cbn [length].
      pose proof (bo_count _ _ _ (to_bins _ _ _ _ T) i (Hi i ltac:(left))) as [_ H0]. specialize (IH ltac:(intros j Hj; apply Hi; by right)). lia. }
    specialize (Hb (seqZ 0 V8M_MEDIUM_FIRST_CLASS) ltac:(intros i Hi; by apply Hcs)). fold objs in Hb. rewrite length_seqZ in Hb.
    change (Z.to_nat V8M_MEDIUM_FIRST_CLASS) with 32%nat in Hb. lia. }
  destruct (drain_classes_spec 16 fuel (seqZ 0 V8M_MEDIUM_FIRST_CLASS) st c Q Lv 0 T) as (st' & c' & He & T'); [apply NoDup_seqZ|apply Hcs|done|done|done|fold objs; lia|].
  rewrite He. exists st', c'. split; [by rewrite Z.add_0_l|].
  assert (T2 : tlc_ok st' c' (fun _ => []) (without Lv objs)).
  { eapply tlc_ok_ext; [exact T'| |done]. intros i Hi. unfold emptied. by rewrite bool_decide_true by (by apply Hcs). }
  split; [done|]. intros cls Hc. split; [exact (bo_chain _ _ _ (to_bins _ _ _ _ T2) cls Hc)|exact (proj1 (bo_count _ _ _ (to_bins _ _ _ _ T2) cls Hc))].
Qed.

(** ** Cache and pool together *)

(** A live object goes into the cache: the pool does not notice. *)
Lemma tlc_free e st c Q Lv cls a :
  tlc_ok st c Q Lv -> slab_class cls -> a <> NULL -> Lv a -> (forall i, slab_class i -> a ∉ Q i) -> Z.of_nat (length (Q cls)) < 2 ^ 16 - 1 ->
  exists c' o, v8m_thread_cache_free e st.(smem) (Some c) cls a = (wr st.(smem) a (bin_at c cls).(bin_heads), Some c', o) /\
    tlc_ok (set_smem st (wr st.(smem) a (bin_at c cls).(bin_heads))) c' (put_held Q cls (a :: Q cls)) Lv /\
    (o = true <-> (bin_at c' cls).(bin_capacity) <= Z.of_nat (S (length (Q cls)))).
Proof.
  intros [P B Hl] Hc Ha0 Ha Hf Hlt. destruct (free_push e st.(smem) c Q cls a B Hc Ha0 Hf Hlt) as (c' & o & He & B' & Ho).
  exists c', o. split; [done|]. split; [|done]. constructor; [by apply SlabPoolSpec.pool_write|done|].
  intros i x Hi. destruct (decide (i = cls)) as [->|Hne]; rewrite ?put_held_eq, ?put_held_ne by done; [|by apply Hl].
  intros [->|Hx]%elem_of_cons; [done|by apply (Hl cls)].
Qed.

End Drain.

(** ** Examples *)

#[local] Existing Instance Os.log_os_laws.

Definition ex_tick : tick_env := MkTick 0 1 false (v8m_config_init (fun _ => None)) 16.
Definition ex_empty : v8m_thread_cache := new_cache NULL.
Definition no_held : held := fun _ => [].

Lemma ex_empty_ok mm : bins_ok mm ex_empty no_held.
Proof.
  assert (Hb : forall cls, slab_class cls -> bin_at ex_empty cls = MkBin NULL 0 64 0 0 0).
  { unfold slab_class. change V8M_MEDIUM_FIRST_CLASS with 32. intros cls Hc. unfold bin_at. cbn [ex_empty new_cache bins]. by rewrite lookup_replicate_2 by lia. }
  constructor; [done|intros cls Hc; by rewrite Hb|intros cls Hc; by rewrite Hb|by intros i j a _ _ _ ?%not_elem_of_nil].
Qed.

Lemma v8m_thread_cache_bin_stack_witness :
  v8m_thread_cache_alloc ex_tick ∅ (Some ex_empty) 3 = (Some ex_empty, NULL) /\
  exists mm' c' o, v8m_thread_cache_free ex_tick ∅ (Some ex_empty) 3 67584 = (mm', Some c', o) /\ bins_ok mm' c' (put_held no_held 3 [67584]) /\
    (o = true <-> (bin_at c' 3).(bin_capacity) <= 1) /\
    exists c'', v8m_thread_cache_alloc ex_tick mm' (Some c') 3 = (Some c'', 67584) /\ bins_ok mm' c'' no_held.
Proof.
  apply (v8m_thread_cache_bin_stack ex_tick ∅ ex_empty no_held 3 67584 (ex_empty_ok ∅)); [vm_compute; split; congruence|done|by intros i _ ?%not_elem_of_nil|done].
Defined.

Lemma v8m_thread_cache_gc_bounds_witness :
  exists c', v8m_thread_cache_gc_tick ex_tick ∅ (Some ex_empty) = Some c' /\ same_bins ex_empty c' /\ c'.(gc_countdown) = V8M_TLC_GC_INTERVAL /\
    forall i b, ex_empty.(bins) !! i = Some b -> exists b', c'.(bins) !! i = Some b' /\ bin_range b' /\
      b'.(ema_demand) = (3 * b.(ema_demand) + demand_of b) / 4 /\
      Z.min b.(ema_demand) (demand_of b) <= b'.(ema_demand) <= Z.max b.(ema_demand) (demand_of b) /\
      b'.(bin_capacity) = Z.max 16 (Z.min 512 (if ex_tick.(te_suppressed) then b'.(ema_demand) else 2 * b'.(ema_demand))) /\
      b'.(alloc_count_per_class) = 0 /\ b'.(free_count_per_class) = 0.
Proof.
  apply (v8m_thread_cache_gc_bounds ex_tick ∅ ex_empty). cbn [ex_empty new_cache bins]. intros b Hb.
  apply elem_of_replicate in Hb as [-> _]. constructor; unfold UINT16_MAX; cbn; lia.
Defined.

(** An object in use moves into the cache, which is then drained. *)
Definition ex_obj_live (q : Z) : Prop := q = SlabPoolSpec.ex_obj \/ SlabPoolSpec.ex_none q.
Lemma ex_tlc_ok : tlc_ok [] [] SlabPoolSpec.ex_none 0 SlabPoolSpec.ex_used ex_empty no_held ex_obj_live.
Proof. constructor; [exact SlabPoolSpec.ex_used_ok|apply ex_empty_ok|by intros cls a _ ?%not_elem_of_nil]. Qed.

Definition ex_cached := v8m_thread_cache_free ex_tick SlabPoolSpec.ex_used.(smem) (Some ex_empty) 2 SlabPoolSpec.ex_obj.
Definition ex_cached_pool : slab_pool := set_smem SlabPoolSpec.ex_used ex_cached.1.1.
Definition ex_cached_tlc : v8m_thread_cache := default ex_empty ex_cached.1.2.
Definition ex_held : held := put_held no_held 2 [SlabPoolSpec.ex_obj].
Lemma ex_cached_eq : v8m_thread_cache_free ex_tick SlabPoolSpec.ex_used.(smem) (Some ex_empty) 2 SlabPoolSpec.ex_obj = ex_cached.
Proof. unfold ex_cached. reflexivity. Qed.

Lemma free_result oth od nother ar `{PSL : PageSourceLaws} e st c Q Lv cls a r :
  tlc_ok oth od nother ar st c Q Lv -> slab_class cls -> a <> NULL -> Lv a -> (forall i, slab_class i -> a ∉ Q i) -> Z.of_nat (length (Q cls)) < 2 ^ 16 - 1 ->
  v8m_thread_cache_free e st.(smem) (Some c) cls a = r ->
  tlc_ok oth od nother ar (set_smem st r.1.1) (default c r.1.2) (put_held Q cls (a :: Q cls)) Lv.
Proof. intros T H1 H2 H3 H4 H5 <-. by destruct (tlc_free oth od nother ar e st c Q Lv cls a T H1 H2 H3 H4 H5) as (c' & o & -> & ? & _). Qed.

Lemma ex_cached_ok : tlc_ok [] [] SlabPoolSpec.ex_none 0 ex_cached_pool ex_cached_tlc ex_held ex_obj_live.
Proof.
  refine (free_result [] [] SlabPoolSpec.ex_none 0 ex_tick SlabPoolSpec.ex_used ex_empty no_held ex_obj_live 2 SlabPoolSpec.ex_obj ex_cached ex_tlc_ok _ _ _ _ _ ex_cached_eq).
  - vm_compute. split; congruence.
  - vm_compute. discriminate.
  - by left.
  - by intros i _ ?%not_elem_of_nil.
  - done.
Qed.

Lemma v8m_thread_cache_drain_all_spec_witness :
  let objs := all_held ex_held (seqZ 0 V8M_MEDIUM_FIRST_CLASS) in
  objs = [SlabPoolSpec.ex_obj] /\
  exists st' c', v8m_thread_cache_drain_all 16 2 (Some ex_cached_tlc) ex_cached_pool = Some (Some c', st', Z.of_nat (length objs)) /\
    tlc_ok [] [] SlabPoolSpec.ex_none 0 st' c' (fun _ => []) (without ex_obj_live objs) /\
    (forall cls, slab_class cls -> (bin_at c' cls).(bin_heads) = NULL /\ (bin_at c' cls).(bin_count) = 0).
Proof.
  split; [reflexivity|]. assert (Hs : size ex_cached_pool.(pages) = 1%nat) by (vm_compute; reflexivity).
  apply (v8m_thread_cache_drain_all_spec [] [] SlabPoolSpec.ex_none 0 2 ex_cached_pool ex_cached_tlc ex_held ex_obj_live ex_cached_ok). rewrite Hs. lia.
Defined.

End ThreadCacheSpec.
