(* ===== verification/Dispatch.v ===== *)
(** Routing of requests: [src/v8m_dispatch.h] and [src/v8m_dispatch.c].

    The dispatcher owns four slab pools (one default, three for lifetime classes)
    and the buddy pool; large objects, the per-CPU caches, the refill controller and
    the thread caches are process-wide.  All pools work on one page heap: the state
    keeps it once, [d_src], and lends it to the pool that runs.  Only the default
    pool uses the huge-page pool.

    A call takes its environment [denv]: options, clock, CPU, what a tick of the
    thread cache reads, the results of [mprotect] and of the [aligned_alloc] that
    creates a thread cache.  The class table is the baseline one: this layer, its
    pools and the public functions are modelled for a process that installs no other
    ([SizeClass] has the installation).  [None] is a loop that ran out of fuel or the abort of a
    damaged red zone. *)

From S2P Require Import Prelude SizeClass Page Config Refill CoreCache Buddy PageSource SlabPool BuddyPool Large ThreadCache ThreadRegistry Lifetime.
Import SizeClass Page Config PageSource.

Module Dispatch.

Definition V8M_DISPATCH_L2_BATCH : Z := 32.
Definition V8M_ARENA_DEFAULT : Z := 0.
Definition V8M_ARENA_EPHEMERAL : Z := 1.
Definition V8M_ARENA_SHORT : Z := 2.
Definition V8M_ARENA_LONG : Z := 3.
Definition V8M_ARENA_COUNT : Z := 4.
Definition V8M_MALLOC_NATURAL_ALIGN : Z := 16.
Definition V8M_DISPATCH_BUDDY_IDLE_TICKS : Z := 4.
Definition V8M_DISPATCH_SLAB_IDLE_TICKS : Z := 4.

Record denv := MkEnv {
  de_config : config;
  de_tick : ThreadCache.tick_env;
  de_cpu : Z;
  de_now : Z;
  de_mhz : Z;
  de_fresh : Z;
  de_mprotect : Z;
  de_soft_limit : bool;
  de_fuel : nat
}.

Section Dispatch.
Context `{PageSource} (cpu_of : src -> Z).

(** The page heap's own housekeeping: the rebalance and the huge-page sweep. *)
Context (housekeep : src -> src).

Record v8m_dispatch := MkDispatch {
  d_slab : SlabPool.slab_pool;
  d_slab_lifetime : list SlabPool.slab_pool;
  d_buddy : BuddyPool.buddy_pool;
  d_use_tlc : bool;
  d_large : Large.large;
  d_cores : CoreCache.core_caches;
  g_l2_refill : Refill.v8m_refill_controller;
  d_reg : ThreadRegistry.reg;
  d_tls : ThreadRegistry.tls;
  t_dispatch_caller_pc : Z;
  d_src : src
}.

Definition set_slab d v := MkDispatch v d.(d_slab_lifetime) d.(d_buddy) d.(d_use_tlc) d.(d_large) d.(d_cores) d.(g_l2_refill) d.(d_reg) d.(d_tls) d.(t_dispatch_caller_pc) d.(d_src).
Definition set_slab_lifetime d v := MkDispatch d.(d_slab) v d.(d_buddy) d.(d_use_tlc) d.(d_large) d.(d_cores) d.(g_l2_refill) d.(d_reg) d.(d_tls) d.(t_dispatch_caller_pc) d.(d_src).
Definition set_buddy d v := MkDispatch d.(d_slab) d.(d_slab_lifetime) v d.(d_use_tlc) d.(d_large) d.(d_cores) d.(g_l2_refill) d.(d_reg) d.(d_tls) d.(t_dispatch_caller_pc) d.(d_src).
Definition set_use_tlc d v := MkDispatch d.(d_slab) d.(d_slab_lifetime) d.(d_buddy) v d.(d_large) d.(d_cores) d.(g_l2_refill) d.(d_reg) d.(d_tls) d.(t_dispatch_caller_pc) d.(d_src).
Definition set_large d v := MkDispatch d.(d_slab) d.(d_slab_lifetime) d.(d_buddy) d.(d_use_tlc) v d.(d_cores) d.(g_l2_refill) d.(d_reg) d.(d_tls) d.(t_dispatch_caller_pc) d.(d_src).
Definition set_cores d v := MkDispatch d.(d_slab) d.(d_slab_lifetime) d.(d_buddy) d.(d_use_tlc) d.(d_large) v d.(g_l2_refill) d.(d_reg) d.(d_tls) d.(t_dispatch_caller_pc) d.(d_src).
Definition set_refill d v := MkDispatch d.(d_slab) d.(d_slab_lifetime) d.(d_buddy) d.(d_use_tlc) d.(d_large) d.(d_cores) v d.(d_reg) d.(d_tls) d.(t_dispatch_caller_pc) d.(d_src).
Definition set_reg d v t := MkDispatch d.(d_slab) d.(d_slab_lifetime) d.(d_buddy) d.(d_use_tlc) d.(d_large) d.(d_cores) d.(g_l2_refill) v t d.(t_dispatch_caller_pc) d.(d_src).
Definition v8m_dispatch_set_caller_pc d v := MkDispatch d.(d_slab) d.(d_slab_lifetime) d.(d_buddy) d.(d_use_tlc) d.(d_large) d.(d_cores) d.(g_l2_refill) d.(d_reg) d.(d_tls) v d.(d_src).
Definition set_src d v := MkDispatch d.(d_slab) d.(d_slab_lifetime) d.(d_buddy) d.(d_use_tlc) d.(d_large) d.(d_cores) d.(g_l2_refill) d.(d_reg) d.(d_tls) d.(t_dispatch_caller_pc) v.

(** ** Lending the page heap *)

Definition lend_slab (s : src) (st : SlabPool.slab_pool) : SlabPool.slab_pool :=
  SlabPool.set_numa_src st st.(SlabPool.g_slab_numa_pool) st.(SlabPool.g_slab_numa_pool_ready) s.

Definition slab_pool_for_arena (d : v8m_dispatch) (arena_id : Z) : SlabPool.slab_pool :=
  if (arena_id =? V8M_ARENA_DEFAULT) || (V8M_ARENA_COUNT <=? arena_id) then d.(d_slab)
  else default d.(d_slab) (d.(d_slab_lifetime) !! Z.to_nat (arena_id - 1)).
Definition set_pool (d : v8m_dispatch) (arena_id : Z) (st : SlabPool.slab_pool) : v8m_dispatch :=
  if (arena_id =? V8M_ARENA_DEFAULT) || (V8M_ARENA_COUNT <=? arena_id) then set_slab d st
  else set_slab_lifetime d (<[Z.to_nat (arena_id - 1) := st]> d.(d_slab_lifetime)).

Definition run_slab {A} (d : v8m_dispatch) (arena_id : Z) (f : SlabPool.slab_pool -> option (SlabPool.slab_pool * A)) : option (v8m_dispatch * A) :=
  match f (lend_slab d.(d_src) (slab_pool_for_arena d arena_id)) with
  | None => None
  | Some (st, a) => Some (set_src (set_pool d arena_id st) st.(SlabPool.source), a)
  end.
Definition run_buddy {A} (d : v8m_dispatch) (f : BuddyPool.buddy_pool -> option (BuddyPool.buddy_pool * A)) : option (v8m_dispatch * A) :=
  match f (BuddyPool.set_bsource d.(d_buddy) d.(d_src)) with
  | None => None
  | Some (st, a) => Some (set_src (set_buddy d st) st.(BuddyPool.bsource), a)
  end.
Definition run_large {A} (d : v8m_dispatch) (f : Large.large -> option (Large.large * A)) : option (v8m_dispatch * A) :=
  match f (Large.set_lsource d.(d_large) d.(d_src)) with
  | None => None
  | Some (st, a) => Some (set_src (set_large d st) st.(Large.l_source), a)
  end.

(** The words of the default pool's objects. *)
Definition words (d : v8m_dispatch) : mem := d.(d_slab).(SlabPool.smem).
Definition set_words (d : v8m_dispatch) (mm : mem) : v8m_dispatch := set_slab d (SlabPool.set_smem d.(d_slab) mm).

(** The calling thread's cache. *)
Definition cur_cache (d : v8m_dispatch) : option ThreadCache.v8m_thread_cache :=
  let a := d.(d_tls).(ThreadRegistry.t_cache) in if a =? NULL then None else Some (ThreadRegistry.cache_at d.(d_reg) a).
Definition set_cur (d : v8m_dispatch) (cache : option ThreadCache.v8m_thread_cache) : v8m_dispatch :=
  match cache with
  | None => d
  | Some c => set_reg d (ThreadRegistry.set_cache d.(d_reg) d.(d_tls).(ThreadRegistry.t_cache) c) d.(d_tls)
  end.
Definition get_or_create (e : denv) (d : v8m_dispatch) : v8m_dispatch * bool :=
  let '(g, t, a) := ThreadRegistry.v8m_thread_cache_get_or_create d.(d_reg) d.(d_tls) e.(de_fresh) in (set_reg d g t, negb (a =? NULL)).

(** The header a page address leads to: the words found there when the page lies in
    a buddy arena (they may be the contents of a block), the header of a slab page,
    or that of a large object. *)
Definition slab_meta (d : v8m_dispatch) (page : Z) : option page_meta :=
  foldr (fun st acc => match st.(SlabPool.pages) !! page with Some m => Some m | None => acc end) None (d.(d_slab) :: d.(d_slab_lifetime)).
Definition word_meta (mm : mem) (page : Z) : page_meta :=
  MkMeta (rd mm page) (u16 (rd mm (page + 8))) (u16 (Z.shiftr (rd mm (page + 8)) 16)) (u32 (Z.shiftr (rd mm (page + 8)) 32)) (u32 (rd mm (page + 16)))
    (rd mm (page + 24)) (rd mm (page + 32)) (rd mm (page + 40)) (u8 (rd mm (page + 48))) (u32 (Z.shiftr (rd mm (page + 48)) 32)) 0 [].
Definition in_buddy_arena (d : v8m_dispatch) (page : Z) : bool :=
  existsb (fun a => a.(BuddyPool.in_use) && (a.(BuddyPool.buddy).(Buddy.arena_base) <=? page) && (page <? a.(BuddyPool.buddy).(Buddy.arena_base) + Buddy.V8M_BUDDY_MAX_BLOCK))
    d.(d_buddy).(BuddyPool.arenas).
Definition meta_of (d : v8m_dispatch) (page : Z) : page_meta :=
  if in_buddy_arena d page then word_meta d.(d_buddy).(BuddyPool.bmem) page
  else
    match slab_meta d page with
    | Some m => m
    | None =>
        match d.(d_large).(Large.l_metas) !! page with
        | Some m => m.(Large.common)
        | None => word_meta ∅ page
        end
    end.

(** ** Allocation *)

Definition arena_for_caller (e : denv) (d : v8m_dispatch) (caller_pc : Z) : v8m_dispatch * Z :=
  if negb d.(d_use_tlc) || (v8m_config_get e.(de_config) V8M_OPT_LIFETIME_TRACKING =? 0) || (caller_pc =? NULL) then (d, V8M_ARENA_DEFAULT)
  else
    let '(g, cls) := Lifetime.v8m_thread_cache_lifetime_classify e.(de_mhz) d.(d_reg) d.(d_tls) caller_pc in
    (set_reg d g d.(d_tls),
     match cls with
     | Lifetime.V8M_LIFETIME_EPHEMERAL => V8M_ARENA_EPHEMERAL
     | Lifetime.V8M_LIFETIME_SHORT => V8M_ARENA_SHORT
     | Lifetime.V8M_LIFETIME_LONG => V8M_ARENA_LONG
     | Lifetime.V8M_LIFETIME_UNKNOWN => V8M_ARENA_DEFAULT
     end).

Definition tlc_alloc (e : denv) (d : v8m_dispatch) (cls : Z) : v8m_dispatch * Z :=
  let '(c, obj) := ThreadCache.v8m_thread_cache_alloc e.(de_tick) (words d) (cur_cache d) cls in (set_cur d c, obj).

Definition compute_batch (e : denv) (d : v8m_dispatch) (cls : Z) : v8m_dispatch * Z :=
  let '(r, n) := Refill.v8m_refill_controller_compute_batch d.(g_l2_refill) e.(de_now) e.(de_mhz) cls 1 in (set_refill d r, n).

(** A chain of objects for an empty bin: from this CPU's cache, another CPU's, or
    the slab pool.  Count, head and tail. *)
Definition refill_chain (e : denv) (d : v8m_dispatch) (cls batch : Z) : option (v8m_dispatch * (Z * Z * Z)) :=
  let '(g, mm, got, head, tail) := CoreCache.v8m_core_cache_pop_batch d.(d_cores) (words d) (CoreCache.v8m_core_cache_for_current_cpu e.(de_cpu)) cls batch in
  let d := set_cores (set_words d mm) g in
  if negb (got =? 0) then Some (d, (got, head, tail))
  else
    let '(g, mm, got, head, tail) := CoreCache.v8m_core_cache_steal_batch d.(d_cores) (words d) cls e.(de_cpu) batch in
    let d := set_cores (set_words d mm) g in
    if negb (got =? 0) then Some (d, (got, head, tail))
    else
      run_slab d V8M_ARENA_DEFAULT (fun st =>
        match SlabPool.v8m_slab_pool_alloc_batch cpu_of e.(de_fuel) st cls 0 V8M_ARENA_DEFAULT batch with
        | None => None
        | Some (st, head, tail, got) => Some (st, (got, head, tail))
        end).

Definition try_tlc_fast_paths (e : denv) (d : v8m_dispatch) (cls : Z) : option (v8m_dispatch * Z) :=
  let '(d, created) := get_or_create e d in
  if negb created then Some (d, NULL)
  else
    let '(d, cached) := tlc_alloc e d cls in
    if negb (cached =? NULL) then Some (d, cached)
    else
      match ThreadCache.v8m_thread_cache_drain_remote e.(de_fuel) e.(de_tick) (meta_of d) (words d) (cur_cache d) with
      | None => None
      | Some (mm, c, n) =>
          let d := set_cur (set_words d mm) c in
          let '(d, cached) := if 0 <? n then tlc_alloc e d cls else (d, NULL) in
          if negb (cached =? NULL) then Some (d, cached)
          else
            let '(d, batch) := compute_batch e d cls in
            match refill_chain e d cls batch with
            | None => None
            | Some (d, (got, head, tail)) =>
                if got =? 0 then Some (d, NULL)
                else
                  let '(mm, c) := ThreadCache.v8m_thread_cache_install_chain (words d) (cur_cache d) cls head tail got in
                  Some (tlc_alloc e (set_cur (set_words d mm) c) cls)
            end
      end.

Definition record (d : v8m_dispatch) (cls size : Z) : v8m_dispatch :=
  set_reg d (ThreadRegistry.v8m_thread_cache_record_alloc d.(d_reg) d.(d_tls) cls size) d.(d_tls).

Definition slab_alloc (e : denv) (d : v8m_dispatch) (arena_id cls : Z) : option (v8m_dispatch * Z) :=
  run_slab d arena_id (fun st => SlabPool.v8m_slab_pool_alloc_arena cpu_of e.(de_fuel) st cls 0 arena_id).
Definition buddy_alloc (e : denv) (d : v8m_dispatch) (size : Z) : option (v8m_dispatch * Z) :=
  run_buddy d (fun st => BuddyPool.v8m_buddy_pool_alloc e.(de_config) st size).

Definition v8m_dispatch_alloc (e : denv) (d : v8m_dispatch) (size : Z) : option (v8m_dispatch * Z) :=
  let size := size + (if size =? 0 then 1 else 0) in
  let cls := v8m_size_class size in
  let d := record d cls size in
  if cls <? V8M_MEDIUM_FIRST_CLASS then
    let '(d, arena_id) := arena_for_caller e d d.(t_dispatch_caller_pc) in
    if arena_id =? V8M_ARENA_DEFAULT then
      if d.(d_use_tlc) then
        match try_tlc_fast_paths e d cls with
        | None => None
        | Some (d, served) => if negb (served =? NULL) then Some (d, served) else slab_alloc e d V8M_ARENA_DEFAULT cls
        end
      else slab_alloc e d V8M_ARENA_DEFAULT cls
    else slab_alloc e d arena_id cls
  else if size <=? Buddy.V8M_BUDDY_MAX_BLOCK then
    if d.(d_use_tlc) then
      let '(d, created) := get_or_create e d in
      if created then
        let '(c, cached) := ThreadCache.v8m_thread_cache_medium_alloc d.(d_buddy).(BuddyPool.bmem) (cur_cache d) cls in
        let d := set_cur d c in
        if negb (cached =? NULL) then Some (d, cached) else buddy_alloc e d size
      else buddy_alloc e d size
    else buddy_alloc e d size
  else run_large d (fun st => Some (Large.v8m_large_alloc e.(de_config) e.(de_mprotect) st size 0)).

(** The smallest class from [cls] on whose objects are aligned. *)
Fixpoint aligned_class (n : nat) (cls alignment : Z) : option Z :=
  match n with
  | O => None
  | S n =>
      if cls <? V8M_MEDIUM_FIRST_CLASS then
        if Z.land (class_size cls) (alignment - 1) =? 0 then Some cls else aligned_class n (cls + 1) alignment
      else None
  end.

Definition v8m_dispatch_alloc_aligned (e : denv) (d : v8m_dispatch) (size alignment : Z) : option (v8m_dispatch * Z) :=
  let size := size + (if size =? 0 then 1 else 0) in
  if alignment <=? V8M_MALLOC_NATURAL_ALIGN then v8m_dispatch_alloc e d size
  else
    let d := record d (v8m_size_class size) size in
    if Buddy.V8M_BUDDY_MAX_BLOCK <? alignment then Some (d, NULL)
    else
      let effective := if alignment <? size then size else alignment in
      let slab := if (alignment <=? V8M_SLAB_HEADER_SIZE) && (effective <=? V8M_SMALL_MAX_SIZE)
                  then aligned_class 32 (v8m_size_class effective) alignment else None in
      match slab with
      | Some cls => slab_alloc e d V8M_ARENA_DEFAULT cls
      | None =>
          if effective <=? Buddy.V8M_BUDDY_MAX_BLOCK then buddy_alloc e d effective
          else run_large d (fun st => Some (Large.v8m_large_alloc_aligned e.(de_config) e.(de_mprotect) st size alignment 0))
      end.
(** ** Release *)

(** The chain is returned to the slab pool, object by object. *)
Fixpoint return_chain (n : nat) (e : denv) (d : v8m_dispatch) (node : Z) : option v8m_dispatch :=
  if node =? NULL then Some d
  else
    match n with
    | O => None
    | S n =>
        let next := rd (words d) node in
        let page := v8m_ptr_to_meta node in
        match (if v8m_page_meta_valid page (meta_of d page) then run_slab d V8M_ARENA_DEFAULT (fun st => SlabPool.v8m_slab_pool_free e.(de_fuel) st page node)
               else Some (d, false)) with
        | None => None
        | Some (d, _) => return_chain n e d next
        end
    end.

Definition slab_overflow_to_l2_or_slab (e : denv) (d : v8m_dispatch) (cls : Z) : option v8m_dispatch :=
  let '(d, batch) := compute_batch e d cls in
  let '(mm, c, head, tail, drained) := ThreadCache.v8m_thread_cache_drain_chain e.(de_tick) (words d) (cur_cache d) cls batch in
  let d := set_cur (set_words d mm) c in
  if drained =? 0 then
    match run_slab d V8M_ARENA_DEFAULT (fun st =>
            match ThreadCache.v8m_thread_cache_flush_half e.(de_fuel) (cur_cache d) st cls with None => None | Some (c, st, _) => Some (st, c) end) with
    | None => None
    | Some (d, c) => Some (set_cur d c)
    end
  else
    let page := v8m_ptr_to_meta head in
    let m := meta_of d page in
    let l2 := if v8m_page_meta_valid page m && negb (m.(owner_cpu) =? UINT32_MAX) then CoreCache.v8m_core_cache_for_cpu m.(owner_cpu) else None in
    let l2 := match l2 with None => CoreCache.v8m_core_cache_for_current_cpu e.(de_cpu) | Some _ => l2 end in
    match l2 with
    | Some _ =>
        let '(g, mm, _) := CoreCache.v8m_core_cache_push_batch d.(d_cores) (words d) e.(de_cpu) l2 cls head tail in
        Some (set_cores (set_words d mm) g)
    | None => return_chain (Z.to_nat drained) e d head
    end.

(** The block goes to the thread cache when its bin has room. *)
Definition medium_free (e : denv) (d : v8m_dispatch) (ptr : Z) : v8m_dispatch * bool :=
  if d.(d_use_tlc) && negb e.(de_soft_limit) then
    let '(d, created) := get_or_create e d in
    if created then
      let blk := BuddyPool.v8m_buddy_pool_block_size d.(d_buddy) ptr in
      if blk =? 0 then (d, true)
      else
        let cls := v8m_size_class blk in
        if (ThreadCache.V8M_MEDIUM_TLC_FIRST_CLASS <=? cls) && (cls <=? ThreadCache.V8M_MEDIUM_TLC_LAST_CLASS) then
          let '(mm, c, full) := ThreadCache.v8m_thread_cache_medium_free d.(d_buddy).(BuddyPool.bmem) (cur_cache d) cls ptr in
          (set_cur (set_buddy d (BuddyPool.set_bmem d.(d_buddy) mm)) c, full)
        else (d, true)
    else (d, true)
  else (d, true).

(** The second component is a pointer handed on to the C library's [free]. *)
Definition v8m_dispatch_free (e : denv) (d : v8m_dispatch) (ptr : Z) : option (v8m_dispatch * option Z) :=
  if ptr =? NULL then Some (d, None)
  else if negb (ps_owns d.(d_src) ptr) then Some (d, Some ptr)
  else
    let page := v8m_ptr_to_meta ptr in
    let m := meta_of d page in
    if v8m_page_meta_valid page m then
      if m.(size_class) <? V8M_MEDIUM_FIRST_CLASS then
        let '(d, cached) := if d.(d_use_tlc) && (m.(arena_id) =? V8M_ARENA_DEFAULT) then get_or_create e d else (d, false) in
        if cached then
          let '(mm, c, overflowed) := ThreadCache.v8m_thread_cache_free e.(de_tick) (words d) (cur_cache d) m.(size_class) ptr in
          let d := set_cur (set_words d mm) c in
          if overflowed then
            match slab_overflow_to_l2_or_slab e d m.(size_class) with None => None | Some d => Some (d, None) end
          else Some (d, None)
        else
          match run_slab d m.(arena_id) (fun st => SlabPool.v8m_slab_pool_free e.(de_fuel) st page ptr) with
          | None => None
          | Some (d, _) => Some (d, None)
          end
      else
        match run_large d (fun st => match Large.v8m_large_free st ptr with None => None | Some st => Some (st, tt) end) with
        | None => None
        | Some (d, _) => Some (d, None)
        end
    else
      let '(d, full) := medium_free e d ptr in
      if full then
        match run_buddy d (fun st => Some (BuddyPool.v8m_buddy_pool_free e.(de_config) st ptr)) with
        | None => None
        | Some (d, _) => Some (d, None)
        end
      else Some (d, None).

Definition v8m_dispatch_usable_size (d : v8m_dispatch) (ptr : Z) : Z :=
  if ptr =? NULL then 0
  else
    let page := v8m_ptr_to_meta ptr in
    let m := meta_of d page in
    if v8m_page_meta_valid page m then
      if m.(size_class) <? V8M_MEDIUM_FIRST_CLASS then m.(object_size) else Large.v8m_large_usable_size d.(d_large) ptr
    else BuddyPool.v8m_buddy_pool_block_size d.(d_buddy) ptr.

(** ** Setting up, tearing down, housekeeping *)

Definition on_slab (d : v8m_dispatch) (arena_id : Z) (f : SlabPool.slab_pool -> SlabPool.slab_pool * Z) : v8m_dispatch * Z :=
  let '(st, n) := f (lend_slab d.(d_src) (slab_pool_for_arena d arena_id)) in (set_src (set_pool d arena_id st) st.(SlabPool.source), n).
Definition on_buddy (d : v8m_dispatch) (f : BuddyPool.buddy_pool -> BuddyPool.buddy_pool * Z) : v8m_dispatch * Z :=
  let '(st, n) := f (BuddyPool.set_bsource d.(d_buddy) d.(d_src)) in (set_src (set_buddy d st) st.(BuddyPool.bsource), n).

(** Returns the sum over the four slab pools. *)
Definition on_slabs (d : v8m_dispatch) (f : SlabPool.slab_pool -> SlabPool.slab_pool * Z) (total : Z) : v8m_dispatch * Z :=
  foldl (fun r a => let '(d, n) := on_slab r.1 a f in (d, u64 (r.2 + n))) (d, total) [V8M_ARENA_DEFAULT; V8M_ARENA_EPHEMERAL; V8M_ARENA_SHORT; V8M_ARENA_LONG].

Definition v8m_dispatch_bg_tick (d : v8m_dispatch) : v8m_dispatch * Z :=
  let '(d, released) := on_buddy d (fun st => BuddyPool.v8m_buddy_pool_sweep_idle st V8M_DISPATCH_BUDDY_IDLE_TICKS) in
  let '(d, released) := on_slabs d (fun st => SlabPool.v8m_slab_pool_sweep_idle st V8M_DISPATCH_SLAB_IDLE_TICKS) released in
  (set_src d (housekeep d.(d_src)), released).

Definition v8m_dispatch_purge_drained (d : v8m_dispatch) : v8m_dispatch * Z :=
  let '(d, released) := on_buddy d (fun st => BuddyPool.v8m_buddy_pool_sweep_idle st 0) in
  let '(d, released) := on_slabs d SlabPool.v8m_slab_pool_purge_drained released in
  let '(st, n) := Large.v8m_large_cache_drain (Large.set_lsource d.(d_large) d.(d_src)) in
  (set_src (set_large d st) st.(Large.l_source), u64 (released + n)).

(** The inner loop over a batch, then the loop over the batches of a class. *)
Fixpoint return_batch (n : nat) (e : denv) (d : v8m_dispatch) (node total : Z) : option (v8m_dispatch * Z) :=
  match n with
  | O => Some (d, total)
  | S n =>
      let next := rd (words d) node in
      match run_slab d V8M_ARENA_DEFAULT (fun st => SlabPool.v8m_slab_pool_free e.(de_fuel) st (v8m_ptr_to_meta node) node) with
      | None => None
      | Some (d, _) => return_batch n e d next (u64 (total + 1))
      end
  end.
Fixpoint drain_l2_class (fuel : nat) (e : denv) (d : v8m_dispatch) (cache : option Z) (cls total : Z) : option (v8m_dispatch * Z) :=
  let '(g, mm, got, head, _) := CoreCache.v8m_core_cache_pop_batch d.(d_cores) (words d) cache cls V8M_DISPATCH_L2_BATCH in
  let d := set_cores (set_words d mm) g in
  if got =? 0 then Some (d, total)
  else
    match fuel with
    | O => None
    | S fuel =>
        match return_batch (Z.to_nat got) e d head total with
        | None => None
        | Some (d, total) => drain_l2_class fuel e d cache cls total
        end
    end.
Fixpoint drain_l2_classes (fuel : nat) (cs : list Z) (e : denv) (d : v8m_dispatch) (cache : option Z) (total : Z) : option (v8m_dispatch * Z) :=
  match cs with
  | [] => Some (d, total)
  | cls :: cs =>
      match drain_l2_class fuel e d cache cls total with
      | None => None
      | Some (d, total) => drain_l2_classes fuel cs e d cache total
      end
  end.
Definition v8m_dispatch_drain_local_l2 (fuel : nat) (e : denv) (d : v8m_dispatch) : option (v8m_dispatch * Z) :=
  match CoreCache.v8m_core_cache_for_current_cpu e.(de_cpu) with
  | None => Some (d, 0)
  | Some cpu => drain_l2_classes fuel (seqZ 0 V8M_MEDIUM_FIRST_CLASS) e d (Some cpu) 0
  end.

Definition v8m_dispatch_set_use_tlc (d : v8m_dispatch) (enabled : bool) : v8m_dispatch := set_use_tlc d enabled.

(** [rc] is the result of the [i]-th [pthread_mutex_init]: the default pool, the
    lifetime pools, the buddy pool. *)
Fixpoint destroy_pools (fuel : nat) (d : v8m_dispatch) (arenas : list Z) : option v8m_dispatch :=
  match arenas with
  | [] => Some d
  | a :: arenas =>
      match run_slab d a (fun st => match SlabPool.v8m_slab_pool_destroy fuel st with None => None | Some st => Some (st, tt) end) with
      | None => None
      | Some (d, _) => destroy_pools fuel d arenas
      end
  end.
Fixpoint init_lifetime (fuel : nat) (rc : nat -> Z) (arenas done : list Z) (d : v8m_dispatch) : option (v8m_dispatch * Z) :=
  match arenas with
  | [] => Some (d, 0)
  | a :: arenas =>
      let '(d, ret) := on_slab d a (fun st => SlabPool.v8m_slab_pool_init st (rc (Z.to_nat a))) in
      if negb (ret =? 0) then
        match destroy_pools fuel d (done ++ [V8M_ARENA_DEFAULT]) with None => None | Some d => Some (d, ret) end
      else init_lifetime fuel rc arenas (done ++ [a]) d
  end.
Definition lifetime_arenas : list Z := [V8M_ARENA_EPHEMERAL; V8M_ARENA_SHORT; V8M_ARENA_LONG].
Definition v8m_dispatch_init (fuel : nat) (rc : nat -> Z) (d : v8m_dispatch) : option (v8m_dispatch * Z) :=
  let '(d, ret) := on_slab d V8M_ARENA_DEFAULT (fun st => SlabPool.v8m_slab_pool_init st (rc 0%nat)) in
  if negb (ret =? 0) then Some (d, ret)
  else
    match init_lifetime fuel rc lifetime_arenas [] d with
    | None => None
    | Some (d, ret) =>
        if negb (ret =? 0) then Some (d, ret)
        else
          let '(d, ret) := on_buddy d (fun st => BuddyPool.v8m_buddy_pool_init st (rc 4%nat)) in
          if negb (ret =? 0) then
            match destroy_pools fuel d (lifetime_arenas ++ [V8M_ARENA_DEFAULT]) with None => None | Some d => Some (d, ret) end
          else Some (set_refill (set_use_tlc d false) (Refill.v8m_refill_controller_init d.(g_l2_refill).(Refill.ticks_cached)), 0)
    end.

Definition v8m_dispatch_destroy (fuel : nat) (d : v8m_dispatch) : option v8m_dispatch :=
  let '(d, _) := on_buddy d (fun st => (BuddyPool.v8m_buddy_pool_destroy st, 0)) in
  destroy_pools fuel d (lifetime_arenas ++ [V8M_ARENA_DEFAULT]).

End Dispatch.
End Dispatch.
