(* ===== verification/DispatchInv.v ===== *)
(** The pools of the dispatcher share one page heap ([Dispatch]).

    [world] splits the page heap's regions among the four slab pools, the buddy pool
    and the large objects.  What one of them proved for its own regions, with the
    rest of the program as a frame, then holds for the dispatcher: [run_slab_ok],
    [run_buddy_ok] and [run_large_ok] run a pool's operation in the world. *)

From S2P Require Import Prelude SizeClass Page HugeSlab Config Buddy BuddyTree BuddyInv PageSource NumaPool SlabPage SlabPool SlabPoolSpec BuddyPool BuddyPoolSpec Large LargeSpec ThreadCache ThreadRegistry Lifetime Dispatch.
Import SizeClass Page PageSource NumaPool Dispatch.

Module DispatchInv.

Definition nobody (q : Z) : Prop := False.
Definition arena (a : Z) : Prop := 0 <= a < V8M_ARENA_COUNT.

(** ** Shares of the page heap *)

(** The shares of the four slab pools, and those of all but one. *)
Definition all_own (O : Z -> list (Z * Z)) : list (Z * Z) := [0; 1; 2; 3] ≫= O.
Definition rest_own (O : Z -> list (Z * Z)) (a : Z) : list (Z * Z) := filter (fun b => b <> a) [0; 1; 2; 3] ≫= O.
Definition put {A} (f : Z -> A) (a : Z) (v : A) : Z -> A := fun b => if b =? a then v else f b.

Lemma put_eq {A} (f : Z -> A) a v : put f a v a = v.
Proof. unfold put. by rewrite Z.eqb_refl. Qed.
Lemma put_ne {A} (f : Z -> A) a b v : b <> a -> put f a v b = f b.
Proof. unfold put. intros. by rewrite (proj2 (Z.eqb_neq b a)). Qed.

Lemma arena_elem a : arena a <-> a ∈ [0; 1; 2; 3].
Proof. unfold arena, V8M_ARENA_COUNT. rewrite !elem_of_cons, elem_of_nil. lia. Qed.

Lemma all_own_split O a : arena a -> all_own O ≡ₚ O a ++ rest_own O a.
Proof.
  intros Ha%arena_elem. unfold all_own, rest_own. rewrite (SlabPoolSpec.filter_ne_perm a [0; 1; 2; 3]) at 1; [done| |done].
  repeat constructor; rewrite ?elem_of_cons, elem_of_nil; lia.
Qed.
Lemma all_own_put O a v : arena a -> all_own (put O a v) ≡ₚ v ++ rest_own O a.
Proof.
  intros Ha. rewrite (all_own_split _ a Ha), put_eq. apply Permutation_app_head. unfold rest_own. rewrite (Forall_bind_ext (put O a v) O); [done|]. apply Forall_forall.
  intros b [Hb _]%list_elem_of_filter. by apply put_ne.
Qed.

#[local] Arguments all_own : simpl never.
#[local] Arguments rest_own : simpl never.

Lemma own_elem O a r : arena a -> r ∈ O a -> r ∈ all_own O.
Proof. intros Ha Hr. rewrite (all_own_split O a Ha). apply elem_of_app. by left. Qed.

(** Where a block lives. *)
Inductive owner := InSlab (a : Z) | InBuddy | InLarge.
#[export] Instance owner_eq_dec : EqDecision owner.
Proof. solve_decision. Defined.
Definition owner_ok (w : owner) : Prop := match w with InSlab a => arena a | _ => True end.

Section World.
Context `{PSL : PageSourceLaws}.

(** ** What each pool owns *)

(** Pages lie inside the share. *)
Definition pages_within (own : list (Z * Z)) (st : SlabPool.slab_pool) : Prop :=
  forall p, is_Some (st.(SlabPool.pages) !! p) -> page_base p /\ exists r, r ∈ own /\ r.1 <= p /\ p + V8M_PAGE_SIZE <= r.2.

(** With the share [own] of the regions and [owd] of the private mappings, the pool
    works whatever the rest of the page heap does. *)
Definition slab_has (a : Z) (own owd : list (Z * Z)) (st : SlabPool.slab_pool) (Lv : Z -> Prop) : Prop :=
  pages_within own st /\
  forall s oth od, ps_inv s -> ps_regions s ≡ₚ own ++ oth -> ps_descs s ≡ₚ owd ++ od -> SlabPoolSpec.pool_ok oth od nobody a (lend_slab s st) Lv.

Lemma slab_share a oth od st Lv :
  SlabPoolSpec.pool_ok oth od nobody a st Lv ->
  exists own owd, slab_has a own owd st Lv /\ ps_regions st.(SlabPool.source) ≡ₚ own ++ oth /\ ps_descs st.(SlabPool.source) ≡ₚ owd ++ od.
Proof.
  intros [L S C A (nl & dl & [Nd Hb Cv No Nu [Pl Ps [Di Dr Dk Dn Dw]]] & Nr & Lr & Hu & Hd)].
  set (ds := all_descs st.(SlabPool.g_slab_numa_pool)) in *.
  exists ((drange <$> ds) ++ (SlabPoolSpec.prange <$> dl)), (dkey <$> ds). split_and!; [split|rewrite Dr; by rewrite app_assoc|done].
  - intros p Hp. assert (Hpl : p ∈ nl ++ dl) by (apply Hu; by left). split; [by apply Hb|]. apply elem_of_app in Hpl as [Hn|Hdl].
    + destruct (proj2 (Cv p) ltac:(by left)) as (x & i & Hx & Hi & _ & ->). exists (drange x). rewrite Forall_forall in Dw. destruct (slot_in_range x i (Dw x Hx) Hi) as [H1 H2].
      split; [apply elem_of_app; left; by apply list_elem_of_fmap_2|]. unfold drange. cbn. done.
    + exists (SlabPoolSpec.prange p). split; [apply elem_of_app; right; by apply list_elem_of_fmap_2|]. cbn. lia.
  - intros s oth' od' Is Hr Hk. constructor; [done|done|done|done|]. exists nl, dl. split_and!; [|done|done|done|done].
    constructor; [done|done|done|done|done|]. constructor; [done|done|]. constructor; [done|by rewrite Hr, <- app_assoc|done|done|done].
Qed.

Definition bown (st : BuddyPool.buddy_pool) : list (Z * Z) := omap BuddyPoolSpec.slot_range st.(BuddyPool.arenas).
Definition buddy_has (m : bool) (st : BuddyPool.buddy_pool) : Prop :=
  forall s oth, ps_inv s -> ps_regions s ≡ₚ bown st ++ oth -> BuddyPoolSpec.bpool_ok oth (ps_descs s) m (BuddyPool.set_bsource st s).

Lemma buddy_frame oth od m st : BuddyPoolSpec.bpool_ok oth od m st -> buddy_has m st.
Proof. intros [L A D S R] s oth' Is Hr. by constructor. Qed.

Definition lown (st : Large.large) (LL : list (Z * Z)) : list (Z * Z) := (LargeSpec.crange <$> st.(Large.g_large_cache)) ++ (LargeSpec.orange st <$> LL).
Definition large_has (st : Large.large) (LL : list (Z * Z)) : Prop :=
  forall s oth, ps_inv s -> ps_regions s ≡ₚ lown st LL ++ oth -> LargeSpec.large_ok (ps_descs s) oth (Large.set_lsource st s) LL.

Lemma large_frame oth od st LL : LargeSpec.large_ok od oth st LL -> large_has st LL.
Proof.
  intros [Oo Ca Cp S R [A1 A2 A3 A4]] s oth' Is Hr. constructor; [|done|done|done| |by constructor].
  - intros x Hx. destruct (Oo x Hx). by constructor.
  - rewrite Hr. unfold lown. by rewrite <- app_assoc.
Qed.

(** ** The world

    [ext] and [extd] are regions and mappings of the rest of the program; [m] is the
    coalescing mode of the buddy pool.  [SL a] are the objects in use of the slab
    pool of arena [a], [LL] the large objects. *)

Context (ext extd : list (Z * Z)) (m : bool).

Record world_at (O D : Z -> list (Z * Z)) (d : v8m_dispatch) (SL : Z -> Z -> Prop) (LL : list (Z * Z)) : Prop := {
  w_len : length d.(d_slab_lifetime) = 3%nat;
  w_src : ps_inv d.(d_src);
  w_regions : ps_regions d.(d_src) ≡ₚ all_own O ++ bown d.(d_buddy) ++ lown d.(d_large) LL ++ ext;
  w_descs : ps_descs d.(d_src) ≡ₚ all_own D ++ extd;
  w_slab : forall a, arena a -> slab_has a (O a) (D a) (slab_pool_for_arena d a) (SL a);
  w_buddy : buddy_has m d.(d_buddy);
  w_large : large_has d.(d_large) LL;
  w_sizes : forall x, x ∈ LL -> Buddy.V8M_BUDDY_MAX_BLOCK < x.2
}.
Definition world (d : v8m_dispatch) (SL : Z -> Z -> Prop) (LL : list (Z * Z)) : Prop := exists O D, world_at O D d SL LL.

Lemma pool_set d a b st : length d.(d_slab_lifetime) = 3%nat -> arena a -> arena b ->
  slab_pool_for_arena (set_pool d a st) b = if b =? a then st else slab_pool_for_arena d b.
Proof.
  intros Hl Ha Hb. unfold arena in *. unfold slab_pool_for_arena, set_pool, V8M_ARENA_DEFAULT, V8M_ARENA_COUNT in *.
  rewrite (proj2 (Z.leb_gt 4 a)), (proj2 (Z.leb_gt 4 b)), !orb_false_r by lia.
  destruct (Z.eqb_spec a 0) as [->|Ha0].
  { destruct (Z.eqb_spec b 0) as [->|Hb0]; [done|]. cbn. destruct (lookup_lt_is_Some_2 d.(d_slab_lifetime) (Z.to_nat (b - 1)) ltac:(lia)) as [x Hx]. by rewrite Hx. }
  destruct (Z.eqb_spec b 0) as [->|Hb0]; cbn [d_slab set_slab_lifetime d_slab_lifetime].
  - by rewrite (proj2 (Z.eqb_neq 0 a)) by lia.
  - destruct (Z.eqb_spec b a) as [->|Hne]; [by rewrite list_lookup_insert_eq by lia|by rewrite list_lookup_insert_ne by lia].
Qed.

Lemma set_pool_same d a st : (set_pool d a st).(d_buddy) = d.(d_buddy) /\ (set_pool d a st).(d_large) = d.(d_large) /\
  (set_pool d a st).(d_use_tlc) = d.(d_use_tlc) /\ (set_pool d a st).(d_cores) = d.(d_cores) /\ (set_pool d a st).(d_reg) = d.(d_reg) /\
  (set_pool d a st).(d_tls) = d.(d_tls) /\ length (set_pool d a st).(d_slab_lifetime) = length d.(d_slab_lifetime).
Proof. unfold set_pool. destruct (_ || _); cbn; by rewrite ?length_insert. Qed.

(** The rest of the page heap, as a pool sees it. *)
Definition slab_others (O : Z -> list (Z * Z)) (d : v8m_dispatch) (LL : list (Z * Z)) (a : Z) : list (Z * Z) :=
  rest_own O a ++ bown d.(d_buddy) ++ lown d.(d_large) LL ++ ext.

Lemma world_slab O D d SL LL a : world_at O D d SL LL -> arena a ->
  SlabPoolSpec.pool_ok (slab_others O d LL a) (rest_own D a ++ extd) nobody a (lend_slab d.(d_src) (slab_pool_for_arena d a)) (SL a).
Proof.
  intros W Ha. apply (w_slab _ _ _ _ _ W a Ha).
  - apply W.
  - rewrite (w_regions _ _ _ _ _ W), (all_own_split O a Ha). by rewrite <- app_assoc.
  - rewrite (w_descs _ _ _ _ _ W), (all_own_split D a Ha). by rewrite <- app_assoc.
Qed.

(** A slab pool's operation in the world. *)
Lemma run_slab_ok {A} d SL LL a (f : SlabPool.slab_pool -> option (SlabPool.slab_pool * A)) (R : SlabPool.slab_pool -> A -> (Z -> Prop) -> Prop) :
  world d SL LL -> arena a ->
  (forall oth od, let st := lend_slab d.(d_src) (slab_pool_for_arena d a) in SlabPoolSpec.pool_ok oth od nobody a st (SL a) ->
     exists st' r Lv, f st = Some (st', r) /\ SlabPoolSpec.pool_ok oth od nobody a st' Lv /\ R st' r Lv) ->
  exists st' r Lv, run_slab d a f = Some (set_src (set_pool d a st') st'.(SlabPool.source), r) /\
    world (set_src (set_pool d a st') st'.(SlabPool.source)) (put SL a Lv) LL /\ R st' r Lv.
Proof.
  intros (O & D & W) Ha Hf. destruct (Hf _ _ (world_slab _ _ _ _ _ _ W Ha)) as (st' & r & Lv & He & P & HR). exists st', r, Lv. unfold run_slab. rewrite He.
  split; [done|]. split; [|done]. destruct (slab_share _ _ _ _ _ P) as (own & owd & Hh & Hr & Hd).
  destruct (set_pool_same d a st') as (Eb & El & _ & _ & _ & _ & Ell). exists (put O a own), (put D a owd).
  pose proof (SlabPoolSpec.po_owner _ _ _ _ _ _ P) as (nl & dl & So & _). pose proof (NumaPool.d_src _ _ _ _ (pi_descs _ _ _ _ (SlabPoolSpec.so_pool _ _ _ _ _ _ _ _ So))) as Is.
  constructor; cbn.
  - rewrite Ell. apply W.
  - exact Is.
  - rewrite Eb, El, (all_own_put O a own Ha), Hr. unfold slab_others. by rewrite <- !app_assoc.
  - rewrite (all_own_put D a owd Ha), Hd. by rewrite <- !app_assoc.
  - intros b Hb. change (slab_pool_for_arena (set_src (set_pool d a st') (SlabPool.source st')) b) with (slab_pool_for_arena (set_pool d a st') b).
    rewrite (pool_set d a b st' (w_len _ _ _ _ _ W) Ha Hb). unfold put. destruct (Z.eqb_spec b a) as [->|Hne]; [done|by apply W].
  - rewrite Eb. apply W.
  - rewrite El. apply W.
  - apply W.
Qed.

(** A buddy operation. *)
Lemma world_buddy O D d SL LL : world_at O D d SL LL ->
  BuddyPoolSpec.bpool_ok (all_own O ++ lown d.(d_large) LL ++ ext) (ps_descs d.(d_src)) m (BuddyPool.set_bsource d.(d_buddy) d.(d_src)).
Proof.
  intros W. apply (w_buddy _ _ _ _ _ W); [apply W|]. rewrite (w_regions _ _ _ _ _ W). rewrite !app_assoc. do 2 apply Permutation_app_tail. apply Permutation_app_comm.
Qed.

Lemma run_buddy_ok {A} d SL LL (f : BuddyPool.buddy_pool -> option (BuddyPool.buddy_pool * A)) (R : BuddyPool.buddy_pool -> A -> Prop) :
  world d SL LL ->
  (forall oth od, let st := BuddyPool.set_bsource d.(d_buddy) d.(d_src) in BuddyPoolSpec.bpool_ok oth od m st ->
     exists st' r, f st = Some (st', r) /\ BuddyPoolSpec.bpool_ok oth od m st' /\ R st' r) ->
  exists st' r, run_buddy d f = Some (set_src (set_buddy d st') st'.(BuddyPool.bsource), r) /\
    world (set_src (set_buddy d st') st'.(BuddyPool.bsource)) SL LL /\ R st' r.
Proof.
  intros (O & D & W) Hf. destruct (Hf _ _ (world_buddy _ _ _ _ _ W)) as (st' & r & He & P & HR). exists st', r. unfold run_buddy. rewrite He.
  split; [done|]. split; [|done]. exists O, D. pose proof P as [_ _ _ [Is Hd] Hr]. constructor; cbn; try apply W.
  - exact Is.
  - rewrite Hr. unfold bown. rewrite !app_assoc. do 2 apply Permutation_app_tail. apply Permutation_app_comm.
  - rewrite Hd. apply W.
  - by eapply buddy_frame.
Qed.

(** A large-object operation. *)
Lemma world_large O D d SL LL : world_at O D d SL LL ->
  LargeSpec.large_ok (ps_descs d.(d_src)) (all_own O ++ bown d.(d_buddy) ++ ext) (Large.set_lsource d.(d_large) d.(d_src)) LL.
Proof.
  intros W. apply (w_large _ _ _ _ _ W); [apply W|]. rewrite (w_regions _ _ _ _ _ W). rewrite !app_assoc. apply Permutation_app_tail.
  rewrite <- !app_assoc. rewrite (app_assoc (all_own O)). apply Permutation_app_comm.
Qed.

Lemma run_large_ok {A} d SL LL (f : Large.large -> option (Large.large * A)) (LL' : A -> list (Z * Z)) (R : Large.large -> A -> Prop) st' r :
  world d SL LL -> f (Large.set_lsource d.(d_large) d.(d_src)) = Some (st', r) ->
  (forall oth od, LargeSpec.large_ok od oth (Large.set_lsource d.(d_large) d.(d_src)) LL -> LargeSpec.large_ok od oth st' (LL' r) /\ R st' r) ->
  (forall x, x ∈ LL' r -> x ∈ LL \/ Buddy.V8M_BUDDY_MAX_BLOCK < x.2) ->
  run_large d f = Some (set_src (set_large d st') st'.(Large.l_source), r) /\
    world (set_src (set_large d st') st'.(Large.l_source)) SL (LL' r) /\ R st' r.
Proof.
  intros (O & D & W) He Hf Hsz. destruct (Hf _ _ (world_large _ _ _ _ _ W)) as (P & HR). unfold run_large. rewrite He.
  split; [done|]. split; [|done]. exists O, D. pose proof P as [_ _ _ [Is Hd] Hr _]. constructor; cbn; try apply W.
  - exact Is.
  - rewrite Hr. unfold lown. rewrite !app_assoc. apply Permutation_app_tail. rewrite <- !app_assoc. rewrite (app_assoc (all_own O)).
    rewrite (app_assoc (_ <$> _) (_ <$> _)). rewrite Permutation_app_comm. by rewrite <- !app_assoc.
  - rewrite Hd. apply W.
  - by eapply large_frame.
  - intros x Hx. destruct (Hsz x Hx); [by apply (w_sizes _ _ _ _ _ W)|done].
Qed.

(** ** Blocks in use *)

Definition share (O : Z -> list (Z * Z)) (d : v8m_dispatch) (LL : list (Z * Z)) (w : owner) : list (Z * Z) :=
  match w with InSlab a => O a | InBuddy => bown d.(d_buddy) | InLarge => lown d.(d_large) LL end.

(** The block [p] of [n] bytes is in use for its pool. *)
Definition block_at (d : v8m_dispatch) (SL : Z -> Z -> Prop) (LL : list (Z * Z)) (w : owner) (p n : Z) : Prop :=
  match w with
  | InSlab a => arena a /\ SL a p /\ exists mt, (slab_pool_for_arena d a).(SlabPool.pages) !! v8m_ptr_to_meta p = Some mt /\ n = mt.(object_size)
  | InBuddy => BuddyPoolSpec.in_pool d.(d_buddy) p n
  | InLarge => (p, n) ∈ LL
  end.

Lemma share_split O D d SL LL w : world_at O D d SL LL -> owner_ok w ->
  exists rest, ps_regions d.(d_src) ≡ₚ share O d LL w ++ rest /\ forall w', w' <> w -> owner_ok w' -> forall r, r ∈ share O d LL w' -> r ∈ rest.
Proof.
  intros W Hw. destruct w as [a| |]; cbn in Hw.
  - exists (slab_others O d LL a). split.
    + rewrite (w_regions _ _ _ _ _ W), (all_own_split O a Hw). unfold slab_others. by rewrite <- app_assoc.
    + unfold slab_others. intros [b| |] Hne Hb r Hr; cbn in *; rewrite !elem_of_app; [left|tauto|tauto].
      apply list_elem_of_bind. exists b. split; [done|]. apply list_elem_of_filter. split; [congruence|by apply arena_elem].
  - exists (all_own O ++ lown d.(d_large) LL ++ ext). split.
    + rewrite (w_regions _ _ _ _ _ W). cbn. rewrite !app_assoc. do 2 apply Permutation_app_tail. apply Permutation_app_comm.
    + intros [b| |] Hne Hb r Hr; cbn in *; rewrite !elem_of_app; [left; by eapply own_elem|done|tauto].
  - exists (all_own O ++ bown d.(d_buddy) ++ ext). split.
    + rewrite (w_regions _ _ _ _ _ W). cbn. rewrite !app_assoc. apply Permutation_app_tail. rewrite <- !app_assoc. rewrite (app_assoc (all_own O)). apply Permutation_app_comm.
    + intros [b| |] Hne Hb r Hr; cbn in *; rewrite !elem_of_app; [left; by eapply own_elem|tauto|done].
Qed.

Lemma share_apart O D d SL LL w w' r r' : world_at O D d SL LL -> owner_ok w -> owner_ok w' -> w' <> w ->
  r ∈ share O d LL w -> r' ∈ share O d LL w' -> apart r r'.
Proof.
  intros W Hw Hw' Hne Hr Hr'. destruct (share_split _ _ _ _ _ w W Hw) as (rest & Hp & Hin). specialize (Hin w' Hne Hw' r' Hr').
  destruct (all_apart_perm _ _ Hp (ps_apart _ (w_src _ _ _ _ _ W))) as (Nd & Ap & _). apply NoDup_app in Nd as (_ & Nd & _).
  apply Ap; [apply elem_of_app; by left|apply elem_of_app; by right|]. intros ->. by apply (Nd r').
Qed.

Lemma share_sound O D d SL LL w r : world_at O D d SL LL -> owner_ok w -> r ∈ share O d LL w -> r ∈ ps_regions d.(d_src) /\ 0 < r.1 < r.2 /\ r.2 < 2 ^ 64.
Proof.
  intros W Hw Hr. destruct (share_split _ _ _ _ _ w W Hw) as (rest & Hp & _). assert (Hin : r ∈ ps_regions d.(d_src)) by (rewrite Hp; apply elem_of_app; by left).
  split; [done|]. destruct (ps_apart _ (w_src _ _ _ _ _ W)) as (_ & _ & Hs). by apply Hs.
Qed.

Lemma ptr_page p : 0 <= p < 2 ^ 64 -> v8m_ptr_to_meta p <= p /\ p < v8m_ptr_to_meta p + V8M_PAGE_SIZE /\ (V8M_PAGE_SIZE | v8m_ptr_to_meta p).
Proof.
  intros Hp. rewrite v8m_ptr_to_meta_eq by (unfold is_u64; lia). change V8M_PAGE_SIZE with 65536. pose proof (Z.mod_pos_bound p 65536 ltac:(lia)).
  split_and!; [lia|lia|]. exists (p / 65536). pose proof (Z.div_mod p 65536). lia.
Qed.

(** An object of a slab pool, its page and its header. *)
Lemma slab_object O D d SL LL a p : world_at O D d SL LL -> arena a -> SL a p ->
  let st := slab_pool_for_arena d a in let page := v8m_ptr_to_meta p in
  exists mt, st.(SlabPool.pages) !! page = Some mt /\ page_base page /\ SlabPage.in_page page p /\ p + mt.(object_size) <= page + V8M_PAGE_SIZE /\
    mt.(magic) = V8M_MAGIC /\ mt.(arena_id) = a /\ 0 <= mt.(size_class) < V8M_MEDIUM_FIRST_CLASS /\ mt.(object_size) = class_size mt.(size_class) /\
    SlabPage.slab_ok mt.(size_class) page st.(SlabPool.smem) mt (fun q => SL a q /\ SlabPage.in_page page q).
Proof.
  intros W Ha Hp st page. pose proof (world_slab _ _ _ _ _ a W Ha) as P. destruct (SlabPoolSpec.sl_live _ _ _ (SlabPoolSpec.po_slabs _ _ _ _ _ _ P) p Hp) as (pg & [mt Hm] & Hin).
  destruct (SlabPoolSpec.sl_page _ _ _ (SlabPoolSpec.po_slabs _ _ _ _ _ _ P) pg mt Hm) as (Hb & Hu & Hok).
  assert (Hpg : page = pg) by (apply ptr_to_meta_inside; [done|unfold SlabPage.in_page, V8M_SLAB_HEADER_SIZE in Hin; lia]). rewrite Hpg.
  destruct (SlabPage.slab_inside _ _ _ _ _ Hb Hok p ltac:(done)) as [_ Hfit]. pose proof (SlabPoolSpec.po_arena _ _ _ _ _ _ P pg mt Hm) as Har.
  pose proof Hok as ([Hc1 Hc2] & _ & Hs & Hmg & _). exists mt. by split_and!.
Qed.

Lemma buddy_block O D d SL LL p n : world_at O D d SL LL -> BuddyPoolSpec.in_pool d.(d_buddy) p n ->
  exists r, r ∈ bown d.(d_buddy) /\ (V8M_PAGE_SIZE | r.1) /\ r.1 <= p /\ 0 < n /\ p + n <= r.2.
Proof.
  intros W (i & ar & Hi & Hu & Hb). pose proof (world_buddy _ _ _ _ _ W) as P. pose proof (BuddyPoolSpec.block_span _ _ _ _ _ _ _ _ P Hi Hu Hb) as (H1 & H2 & H3).
  pose proof (BuddyPoolSpec.bo_geometry _ _ _ _ _ _ P Hi Hu) as (_ & Hd & _). exists (BuddyPoolSpec.arange ar.(BuddyPool.buddy)). split_and!; [| |done|done|done].
  - apply list_elem_of_omap. exists ar. split; [by eapply list_elem_of_lookup_2|]. unfold BuddyPoolSpec.slot_range. by rewrite Hu.
  - etransitivity; [|exact Hd]. by exists 4.
Qed.

Lemma block_range O D d SL LL w p n : world_at O D d SL LL -> block_at d SL LL w p n ->
  owner_ok w /\ exists r, r ∈ share O d LL w /\ r.1 <= v8m_ptr_to_meta p /\ v8m_ptr_to_meta p <= p /\ 0 < n /\ p + n <= r.2.
Proof.
  intros W Hb. destruct w as [a| |]; cbn in *.
  - destruct Hb as (Ha & Hp & mt & Hm & ->). split; [done|]. destruct (slab_object _ _ _ _ _ a p W Ha Hp) as (mt' & Hm' & Hb & Hin & Hfit & _ & _ & Hc & Hs & _).
    rewrite Hm in Hm'. injection Hm' as <-. destruct (proj1 (w_slab _ _ _ _ _ W a Ha) _ ltac:(by eexists)) as (_ & r & Hr & H1 & H2).
    exists r. pose proof (class_size_pos _ Hc). unfold SlabPage.in_page, V8M_SLAB_HEADER_SIZE in Hin. split_and!; [done|lia|lia|lia|lia].
  - split; [done|]. destruct (buddy_block _ _ _ _ _ _ _ W Hb) as (r & Hr & Hd & H1 & H2 & H3).
    destruct (share_sound _ _ _ _ _ InBuddy r W I Hr) as (_ & Hr1 & Hr2). exists r. destruct (ptr_page p ltac:(lia)) as (H4 & H5 & H6). split_and!; [done| |done|done|done].
    destruct Hd as [x Hx], H6 as [y Hy]. rewrite Hx, Hy in *. change V8M_PAGE_SIZE with 65536 in *. nia.
  - split; [done|]. pose proof (world_large _ _ _ _ _ W) as P. destruct (LargeSpec.lo_objs _ _ _ _ P _ Hb) as [H1 H2 [H3 H4] H5 _]. cbn in *.
    exists (LargeSpec.orange d.(d_large) (p, n)). split; [apply elem_of_app; right; by apply list_elem_of_fmap_2|]. unfold LargeSpec.orange, LargeSpec.region_of, V8M_SLAB_HEADER_SIZE in *. cbn.
    change (LargeSpec.ometa (Large.set_lsource (d_large d) (d_src d)) (p, n)) with (LargeSpec.ometa (d_large d) (p, n)) in *.
    change V8M_PAGE_SIZE with 65536 in *. split_and!; [lia|lia|lia|]. destruct H5 as [H5|[H5 _]]; lia.
Qed.

Lemma slab_disjoint O D d SL LL a p n q k : world_at O D d SL LL ->
  block_at d SL LL (InSlab a) p n -> block_at d SL LL (InSlab a) q k -> p <> q -> p + n <= q \/ q + k <= p.
Proof.
  intros W (Ha & Hp & mt & Hm & ->) (_ & Hq & mt' & Hm' & ->) Hne.
  destruct (slab_object _ _ _ _ _ a p W Ha Hp) as (m1 & H1 & Hb1 & Hi1 & Hf1 & _ & _ & _ & _ & Hok). rewrite Hm in H1. injection H1 as <-.
  destruct (slab_object _ _ _ _ _ a q W Ha Hq) as (m2 & H2 & Hb2 & Hi2 & Hf2 & _). rewrite Hm' in H2. injection H2 as <-.
  destruct (decide (v8m_ptr_to_meta p = v8m_ptr_to_meta q)) as [He|Hd].
  - rewrite <- He in *. rewrite Hm in Hm'. injection Hm' as <-. eapply (SlabPage.slab_spaced _ _ _ _ _ Hok); [done|done|done].
  - assert (Hpg : v8m_ptr_to_meta p + V8M_PAGE_SIZE <= v8m_ptr_to_meta q \/ v8m_ptr_to_meta q + V8M_PAGE_SIZE <= v8m_ptr_to_meta p).
    { destruct Hb1 as (_ & _ & [x Hx]), Hb2 as (_ & _ & [y Hy]). rewrite Hx, Hy in *. change V8M_PAGE_SIZE with 65536 in *. nia. }
    unfold SlabPage.in_page, V8M_SLAB_HEADER_SIZE in *. lia.
Qed.

(** Two blocks never overlap, and an address is the start of at most one block. *)
Lemma blocks_disjoint O D d SL LL w p n w' q k : world_at O D d SL LL ->
  block_at d SL LL w p n -> block_at d SL LL w' q k -> p <> q -> p + n <= q \/ q + k <= p.
Proof.
  intros W Hp Hq Hne. destruct (decide (w' = w)) as [->|Hw].
  - destruct w as [a| |].
    + by eapply slab_disjoint.
    + destruct (BuddyPoolSpec.in_pool_disjoint _ _ _ _ _ _ _ _ (world_buddy _ _ _ _ _ W) Hp Hq) as [[= -> ->]|?]; done.
    + pose proof Hp as [i Hi]%list_elem_of_lookup_1. pose proof Hq as [j Hj]%list_elem_of_lookup_1.
      apply (LargeSpec.objects_disjoint _ _ _ _ i j _ _ (world_large _ _ _ _ _ W) Hi Hj). intros ->. rewrite Hi in Hj. injection Hj as ->. done.
  - destruct (block_range _ _ _ _ _ _ _ _ W Hp) as (Ow & r & Hr & H1 & H2 & H3 & H4), (block_range _ _ _ _ _ _ _ _ W Hq) as (Ow' & r' & Hr' & H1' & H2' & H3' & H4').
    pose proof (share_apart _ _ _ _ _ _ _ _ _ W Ow Ow' Hw Hr Hr') as Hap. unfold apart in Hap. lia.
Qed.

Lemma block_unique O D d SL LL w p n w' k : world_at O D d SL LL ->
  block_at d SL LL w p n -> block_at d SL LL w' p k -> w = w' /\ n = k.
Proof.
  intros W Hp Hq. destruct (block_range _ _ _ _ _ _ _ _ W Hp) as (Ow & r & Hr & H1 & H2 & H3 & H4).
  destruct (block_range _ _ _ _ _ _ _ _ W Hq) as (Ow' & r' & Hr' & H1' & H2' & H3' & H4'). destruct (decide (w' = w)) as [->|Hw].
  - split; [done|]. destruct w as [a| |].
    + destruct Hp as (_ & _ & mt & Hm & ->), Hq as (_ & _ & mt' & Hm' & ->). congruence.
    + destruct (BuddyPoolSpec.in_pool_disjoint _ _ _ _ _ _ _ _ (world_buddy _ _ _ _ _ W) Hp Hq) as [[= ->]|?]; [done|lia].
    + pose proof Hp as [i Hi]%list_elem_of_lookup_1. pose proof Hq as [j Hj]%list_elem_of_lookup_1.
      destruct (decide (i = j)) as [->|Hne]; [congruence|]. pose proof (LargeSpec.objects_disjoint _ _ _ _ i j _ _ (world_large _ _ _ _ _ W) Hi Hj Hne) as Hd. cbn in Hd. lia.
  - pose proof (share_apart _ _ _ _ _ _ _ _ _ W Ow Ow' Hw Hr Hr') as Hap. unfold apart in Hap. lia.
Qed.

(** ** Headers *)

Lemma in_arena_spec d page : in_buddy_arena d page = true <-> exists r, r ∈ bown d.(d_buddy) /\ r.1 <= page < r.2.
Proof.
  unfold in_buddy_arena. rewrite existsb_exists. split.
  - intros (ar & Hin%list_elem_of_In & [[Hu H1]%andb_true_iff H2]%andb_true_iff). exists (BuddyPoolSpec.arange ar.(BuddyPool.buddy)).
    split; [|cbn; lia]. apply list_elem_of_omap. exists ar. split; [done|]. unfold BuddyPoolSpec.slot_range. by rewrite Hu.
  - intros (r & (ar & Hin & Hr)%list_elem_of_omap & Hp). exists ar. split; [by apply list_elem_of_In|]. unfold BuddyPoolSpec.slot_range in Hr.
    destruct (BuddyPool.in_use ar); [|done]. injection Hr as <-. cbn in *. rewrite !andb_true_iff, Z.leb_le, Z.ltb_lt. done.
Qed.

Lemma not_in_arena O D d SL LL w p n : world_at O D d SL LL -> block_at d SL LL w p n -> w <> InBuddy -> in_buddy_arena d (v8m_ptr_to_meta p) = false.
Proof.
  intros W Hb Hw. apply not_true_is_false. intros (r & Hr & Hp)%in_arena_spec. destruct (block_range _ _ _ _ _ _ _ _ W Hb) as (Ow & r' & Hr' & H1 & H2 & H3 & H4).
  pose proof (share_apart _ _ _ _ _ w InBuddy r' r W Ow I (not_eq_sym Hw) Hr' Hr) as Hap. unfold apart in Hap. lia.
Qed.

Lemma pools_eq d x y z : d.(d_slab_lifetime) = [x; y; z] ->
  slab_pool_for_arena d 0 = d.(d_slab) /\ slab_pool_for_arena d 1 = x /\ slab_pool_for_arena d 2 = y /\ slab_pool_for_arena d 3 = z.
Proof. intros E. unfold slab_pool_for_arena. by rewrite E. Qed.

Lemma slab_meta_none d page : length d.(d_slab_lifetime) = 3%nat -> (forall a, arena a -> (slab_pool_for_arena d a).(SlabPool.pages) !! page = None) -> slab_meta d page = None.
Proof.
  intros Hl Hn. unfold slab_meta. destruct (d_slab_lifetime d) as [|x [|y [|z [|]]]] eqn:E; try done. cbn.
  pose proof (Hn 0 ltac:(by compute)) as H0. pose proof (Hn 1 ltac:(by compute)) as H1. pose proof (Hn 2 ltac:(by compute)) as H2. pose proof (Hn 3 ltac:(by compute)) as H3.
  destruct (pools_eq d x y z E) as (E0 & E1 & E2 & E3). rewrite E0 in H0. rewrite E1 in H1. rewrite E2 in H2. rewrite E3 in H3. by rewrite H0, H1, H2, H3.
Qed.

Lemma slab_meta_some d page a mt : length d.(d_slab_lifetime) = 3%nat -> arena a -> (slab_pool_for_arena d a).(SlabPool.pages) !! page = Some mt ->
  (forall b, arena b -> b <> a -> (slab_pool_for_arena d b).(SlabPool.pages) !! page = None) -> slab_meta d page = Some mt.
Proof.
  intros Hl Ha Hm Hn. unfold slab_meta. destruct (d_slab_lifetime d) as [|x [|y [|z [|]]]] eqn:E; try done. cbn.
  pose proof (Hn 0 ltac:(by compute)) as H0. pose proof (Hn 1 ltac:(by compute)) as H1. pose proof (Hn 2 ltac:(by compute)) as H2. pose proof (Hn 3 ltac:(by compute)) as H3.
  destruct (pools_eq d x y z E) as (E0 & E1 & E2 & E3). rewrite E0 in H0. rewrite E1 in H1. rewrite E2 in H2. rewrite E3 in H3.
  assert (Hc : a = 0 \/ a = 1 \/ a = 2 \/ a = 3) by (unfold arena, V8M_ARENA_COUNT in Ha; lia).
  destruct Hc as [->|[->|[->| ->]]]; rewrite ?E0, ?E1, ?E2, ?E3 in Hm; rewrite ?H0, ?H1, ?H2, ?H3, Hm by done; done.
Qed.

(** The header the dispatcher finds for a block of each kind. *)
Lemma slab_pages_meta O D d SL LL a p mt : world_at O D d SL LL -> arena a ->
  (slab_pool_for_arena d a).(SlabPool.pages) !! v8m_ptr_to_meta p = Some mt -> slab_meta d (v8m_ptr_to_meta p) = Some mt.
Proof.
  intros W Ha Hm. apply (slab_meta_some d _ a mt); [apply W|done|done|].
  intros b Hb' Hne. destruct ((slab_pool_for_arena d b).(SlabPool.pages) !! _) as [m'|] eqn:E; [|done]. exfalso. destruct (proj1 (w_slab _ _ _ _ _ W b Hb') _ (mk_is_Some _ _ E)) as (_ & r' & Hr' & H1 & H2).
  destruct (proj1 (w_slab _ _ _ _ _ W a Ha) (v8m_ptr_to_meta p) ltac:(by eexists)) as (_ & r & Hr & H3 & H4).
  pose proof (share_apart _ _ _ _ _ (InSlab a) (InSlab b) r r' W Ha Hb' ltac:(congruence) Hr Hr') as Hap. unfold apart in Hap. change V8M_PAGE_SIZE with 65536 in *. lia.
Qed.

Lemma meta_slab O D d SL LL a p : world_at O D d SL LL -> arena a -> SL a p ->
  (slab_pool_for_arena d a).(SlabPool.pages) !! v8m_ptr_to_meta p = Some (meta_of d (v8m_ptr_to_meta p)).
Proof.
  intros W Ha Hp. destruct (slab_object _ _ _ _ _ a p W Ha Hp) as (mt & Hm & Hb & Hin & _). rewrite Hm. f_equal.
  assert (Hblk : block_at d SL LL (InSlab a) p mt.(object_size)) by (split_and!; [done|done|by exists mt]).
  unfold meta_of. rewrite (not_in_arena _ _ _ _ _ _ _ _ W Hblk) by done. by rewrite (slab_pages_meta _ _ _ _ _ a p mt W Ha Hm).
Qed.

Lemma slab_meta_large O D d SL LL p n : world_at O D d SL LL -> (p, n) ∈ LL -> slab_meta d (v8m_ptr_to_meta p) = None.
Proof.
  intros W Hp. assert (Hblk : block_at d SL LL InLarge p n) by done. destruct (block_range _ _ _ _ _ _ _ _ W Hblk) as (_ & r & Hr & H1 & H2 & H3 & H4).
  apply slab_meta_none; [apply W|]. intros a Ha. destruct (_ !! _) as [m'|] eqn:E; [|done]. exfalso. destruct (proj1 (w_slab _ _ _ _ _ W a Ha) _ (mk_is_Some _ _ E)) as (_ & r' & Hr' & H1' & H2').
  pose proof (share_apart _ _ _ _ _ InLarge (InSlab a) r r' W I Ha ltac:(done) Hr Hr') as Hap. unfold apart in Hap. change V8M_PAGE_SIZE with 65536 in *. lia.
Qed.

Lemma meta_large O D d SL LL p n : world_at O D d SL LL -> (p, n) ∈ LL ->
  let mt := meta_of d (v8m_ptr_to_meta p) in mt.(magic) = V8M_MAGIC /\ V8M_MEDIUM_FIRST_CLASS <= mt.(size_class) /\ 0 < v8m_ptr_to_meta p.
Proof.
  intros W Hp. assert (Hblk : block_at d SL LL InLarge p n) by done. destruct (block_range _ _ _ _ _ _ _ _ W Hblk) as (_ & r & Hr & H1 & H2 & H3 & H4).
  destruct (LargeSpec.lo_objs _ _ _ _ (world_large _ _ _ _ _ W) _ Hp) as [Hb _ _ _ [Hm Hc]]. cbn in Hb, Hm, Hc.
  unfold meta_of. rewrite (not_in_arena _ _ _ _ _ _ _ _ W Hblk) by done. rewrite (slab_meta_large _ _ _ _ _ p n W Hp).
  unfold LargeSpec.ometa, LargeSpec.region_of, Large.lmeta in *. cbn in *. destruct (d.(d_large).(Large.l_metas) !! v8m_ptr_to_meta p) as [mt|]; [|done].
  cbn in *. split_and!; [done| |apply Hb]. change V8M_MEDIUM_FIRST_CLASS with 32. destruct Hc as [-> | ->]; [done|].
  pose proof (w_sizes _ _ _ _ _ W _ Hp) as Hsz. destruct (share_sound _ _ _ _ _ InLarge r W I Hr) as (_ & Hr1 & Hr2). cbn in Hsz.
  destruct (Z.le_gt_cases n V8M_LARGE_MAX_SIZE) as [Hl|Hl]; [|by rewrite size_class_above by (unfold SIZE_MAX; lia)].
  pose proof (size_class_not_slab n ltac:(unfold V8M_SMALL_MAX_SIZE, SIZE_MAX; change Buddy.V8M_BUDDY_MAX_BLOCK with 262144 in Hsz; lia)) as Hs.
  pose proof (smallest_class_all n ltac:(lia)) as (Hs' & _). unfold V8M_MEDIUM_FIRST_CLASS, V8M_LARGE_LAST_CLASS in *. rewrite u16_small; lia.
Qed.

Lemma meta_buddy O D d SL LL p n : world_at O D d SL LL -> BuddyPoolSpec.in_pool d.(d_buddy) p n ->
  meta_of d (v8m_ptr_to_meta p) = word_meta d.(d_buddy).(BuddyPool.bmem) (v8m_ptr_to_meta p).
Proof.
  intros W Hp. destruct (block_range _ _ _ _ _ InBuddy p n W Hp) as (_ & r & Hr & H1 & H2 & H3 & H4).
  unfold meta_of. rewrite (proj2 (in_arena_spec d _)); [done|]. exists r. split; [done|lia].
Qed.

End World.
End DispatchInv.
