(* ===== verification/DispatchCache.v ===== *)
(** The caches in front of the default slab pool ([Dispatch]): the calling thread's
    bins and the per-CPU stacks hold objects that are in use for the pool and free
    for the program.

    [caches] says where every held object is.  The lemmas move objects between a
    bin, a stack and the hands of the dispatcher, one per cache operation of
    [v8m_dispatch_alloc] and [v8m_dispatch_free]. *)

From S2P Require Import Prelude SizeClass Page Config RemoteFree CoreCache PageSource SlabPage SlabPool SlabPoolSpec BuddyPool Large ThreadCache ThreadCacheSpec ThreadRegistry Lifetime Dispatch DispatchInv.
Import SizeClass Page PageSource Dispatch DispatchInv.

Module DispatchCache.

Inductive place := Bin (cls : Z) | Stack (cpu cls : Z) | Hand (cls : Z).
#[export] Instance place_eq_dec : EqDecision place.
Proof. solve_decision. Defined.

Definition place_class (w : place) : Z := match w with Bin cls | Stack _ cls | Hand cls => cls end.
Definition place_ok (w : place) : Prop := ThreadCacheSpec.slab_class (place_class w).

(** The objects at a place, and the place of an object. *)
Definition store := place -> list Z.
Definition putp (K : store) (w : place) (l : list Z) : store := fun w' => if decide (w' = w) then l else K w'.
Definition relocate (loc : Z -> option place) (mv : list Z) (w : option place) : Z -> option place := fun x => if decide (x ∈ mv) then w else loc x.

Lemma putp_eq K w l : putp K w l w = l.
Proof. unfold putp. by rewrite decide_True. Qed.
Lemma putp_ne K w l w' : w' <> w -> putp K w l w' = K w'.
Proof. intros. unfold putp. by rewrite decide_False. Qed.

Section Caches.
Context `{PSL : PageSourceLaws}.

Definition pages_of (d : v8m_dispatch) : gmap Z page_meta := d.(d_slab).(SlabPool.pages).

Definition bins_held (d : v8m_dispatch) (K : store) : Prop :=
  match cur_cache d with
  | None => forall cls, ThreadCacheSpec.slab_class cls -> K (Bin cls) = []
  | Some c => ThreadCacheSpec.bins_ok (words d) c (fun cls => K (Bin cls)) /\ ThreadCacheSpec.caps_ok c /\ c.(ThreadCache.remote) = RemoteFree.v8m_mpsc_init
  end.

Record caches (d : v8m_dispatch) (K : store) (loc : Z -> option place) (SL0 : Z -> Prop) : Prop := {
  ca_bins : bins_held d K;
  ca_stacks : forall cpu cls, ThreadCacheSpec.slab_class cls -> CoreCache.holds d.(d_cores) (words d) cpu cls (K (Stack cpu cls));
  ca_short : forall cls, ThreadCacheSpec.slab_class cls -> (length (K (Bin cls)) <= 513)%nat;
  ca_nodup : forall w, place_ok w -> NoDup (K w);
  ca_loc : forall w x, place_ok w -> x ∈ K w <-> loc x = Some w;
  ca_held : forall x w, loc x = Some w -> place_ok w /\ SL0 x /\ SlabPoolSpec.of_class (pages_of d) (place_class w) x
}.

(** ** Steps that touch the caches only *)

(** Words change at the objects [mv] only. *)
Record cache_step (mv : list Z) (d d' : v8m_dispatch) : Prop := {
  cs_slab : exists mm, d'.(d_slab) = SlabPool.set_smem d.(d_slab) mm /\ forall a, a ∉ mv -> rd mm a = rd (words d) a;
  cs_lifetime : d'.(d_slab_lifetime) = d.(d_slab_lifetime);
  cs_buddy : d'.(d_buddy) = d.(d_buddy);
  cs_large : d'.(d_large) = d.(d_large);
  cs_src : d'.(d_src) = d.(d_src);
  cs_tlc : d'.(d_use_tlc) = d.(d_use_tlc);
  cs_mediums : option_map ThreadCache.mediums (cur_cache d') = option_map ThreadCache.mediums (cur_cache d)
}.

Lemma cs_words mv d d' a : cache_step mv d d' -> a ∉ mv -> rd (words d') a = rd (words d) a.
Proof. intros [(mm & E & Hm) _ _ _ _ _ _] Ha. unfold words at 1. rewrite E. by apply Hm. Qed.
Lemma cs_pages mv d d' : cache_step mv d d' -> pages_of d' = pages_of d.
Proof. intros [(mm & E & _) _ _ _ _ _ _]. unfold pages_of. by rewrite E. Qed.

Lemma cache_step_refl d : cache_step [] d d.
Proof. constructor; try done. exists (words d). split; [|done]. unfold words. by destruct (d_slab d). Qed.
Lemma cache_step_mono mv mv' d d' : (forall x, x ∈ mv -> x ∈ mv') -> cache_step mv d d' -> cache_step mv' d d'.
Proof. intros Hs [(mm & E & Hm) ? ? ? ? ? ?]. constructor; try done. exists mm. split; [done|]. intros a Ha. apply Hm. auto. Qed.
Lemma cache_step_trans mv d1 d2 d3 : cache_step mv d1 d2 -> cache_step mv d2 d3 -> cache_step mv d1 d3.
Proof.
  intros [(m1 & E1 & H1) A1 A2 A3 A4 A5 A6] [(m2 & E2 & H2) B1 B2 B3 B4 B5 B6]. constructor; try congruence.
  exists m2. split; [rewrite E2, E1; done|]. intros a Ha. rewrite H2 by done. unfold words. rewrite E1. by apply H1.
Qed.

(** ** Moving objects *)

Lemma caches_move d d' K K' loc SL0 mv w :
  caches d K loc SL0 -> cache_step mv d d' ->
  match w with
  | Some w => place_ok w /\ forall x, x ∈ mv -> SL0 x /\ SlabPoolSpec.of_class (pages_of d) (place_class w) x
  | None => True
  end ->
  (forall w' x, place_ok w' -> x ∈ K' w' <-> relocate loc mv w x = Some w') -> (forall w', place_ok w' -> NoDup (K' w')) ->
  (forall cls, ThreadCacheSpec.slab_class cls -> (length (K' (Bin cls)) <= 513)%nat) -> bins_held d' K' ->
  (forall cpu cls, ThreadCacheSpec.slab_class cls -> CoreCache.holds d'.(d_cores) (words d') cpu cls (K' (Stack cpu cls))) ->
  caches d' K' (relocate loc mv w) SL0.
Proof.
  intros C S Hw Hl Hn Hs Hb Hst. constructor; try done. rewrite (cs_pages _ _ _ S). intros x w' Hx. unfold relocate in Hx.
  destruct (decide (x ∈ mv)) as [Hin|_]; [|by apply (ca_held _ _ _ _ C)]. subst w. destruct Hw as [Hw Hx]. by destruct (Hx x Hin).
Qed.

(** A stack without objects of [mv], whose word is unchanged. *)
Lemma stack_frame d d' K loc SL0 mv cpu cls :
  caches d K loc SL0 -> cache_step mv d d' -> ThreadCacheSpec.slab_class cls -> (forall x, x ∈ mv -> loc x <> Some (Stack cpu cls)) ->
  CoreCache.stack_word d'.(d_cores) cpu cls = CoreCache.stack_word d.(d_cores) cpu cls ->
  CoreCache.holds d'.(d_cores) (words d') cpu cls (K (Stack cpu cls)).
Proof.
  intros C S Hc Hn Hw. destruct (ca_stacks _ _ _ _ C cpu cls Hc) as [Hch Hp]. split; [|done]. rewrite Hw. apply (SlabPage.chain_agree (words d)); [done|].
  intros x Hx. apply (cs_words _ _ _ _ S). intros Hin. apply (Hn x Hin). by apply (ca_loc _ _ _ _ C).
Qed.

(** Bins without objects of [mv]. *)
Definition same_cache (c c' : ThreadCache.v8m_thread_cache) : Prop := c'.(ThreadCache.bins) = c.(ThreadCache.bins) /\ c'.(ThreadCache.remote) = c.(ThreadCache.remote).
Definition same_cur (d d' : v8m_dispatch) : Prop :=
  match cur_cache d, cur_cache d' with None, None => True | Some c, Some c' => same_cache c c' | _, _ => False end.

Lemma same_cur_refl d : same_cur d d.
Proof. unfold same_cur. by destruct (cur_cache d). Qed.

Lemma bins_frame d d' K loc SL0 mv :
  caches d K loc SL0 -> cache_step mv d d' -> same_cur d d' -> (forall x cls, x ∈ mv -> loc x <> Some (Bin cls)) -> bins_held d' K.
Proof.
  intros C S Hs Hn. pose proof (ca_bins _ _ _ _ C) as B. unfold bins_held, same_cur in *. destruct (cur_cache d) as [c|], (cur_cache d') as [c'|]; try done.
  destruct Hs as [Eb Er], B as (B & Hcap & Hr). split_and!; [|unfold ThreadCacheSpec.caps_ok, ThreadCache.bin_at; rewrite Eb; exact Hcap|congruence].
  destruct B as [B1 B2 B3 B4]. constructor; unfold ThreadCache.bin_at in *; rewrite ?Eb; try done. intros cls Hc. apply (SlabPage.chain_agree (words d)); [by apply B2|].
  intros x Hx. apply (cs_words _ _ _ _ S). intros Hin. apply (Hn x cls Hin). by apply (ca_loc _ _ _ _ C).
Qed.

Lemma bins_held_ext d K K' : (forall i, ThreadCacheSpec.slab_class i -> K' (Bin i) = K (Bin i)) -> bins_held d K -> bins_held d K'.
Proof.
  intros He. unfold bins_held. destruct (cur_cache d) as [c|].
  - intros (B & ? & ?). split_and!; [|done|done]. by eapply ThreadCacheSpec.bins_ok_ext; [|exact B].
  - intros Hk cls Hc. rewrite He by done. by apply Hk.
Qed.

(** Nothing moves. *)
Lemma caches_same d d' K loc SL0 : caches d K loc SL0 -> cache_step [] d d' -> same_cur d d' -> d'.(d_cores) = d.(d_cores) -> caches d' K loc SL0.
Proof.
  intros C S Hs Hg. constructor; try apply C.
  - eapply bins_frame; [done|done|done|]. by intros x cls ?%not_elem_of_nil.
  - intros cpu cls Hc. eapply stack_frame; [done|done|done|by intros x ?%not_elem_of_nil|by rewrite Hg].
  - rewrite (cs_pages _ _ _ S). apply C.
Qed.

(** ** The calling thread's cache *)

Lemma cur_set d c0 c : cur_cache d = Some c0 -> cur_cache (set_cur d (Some c)) = Some c.
Proof.
  unfold cur_cache. cbn. destruct (_ =? NULL); [done|]. intros _. f_equal. apply ThreadRegistry.cache_at_some. cbn. by rewrite lookup_insert_eq.
Qed.

Lemma cur_words d mm : cur_cache (set_words d mm) = cur_cache d.
Proof. done. Qed.

(** The step of an operation that replaces the cache and some words. *)
Lemma set_cur_step d mv mm c0 c :
  cur_cache d = Some c0 -> (forall a, a ∉ mv -> rd mm a = rd (words d) a) -> ThreadCacheSpec.steady c0 c -> cache_step mv d (set_cur (set_words d mm) (Some c)).
Proof.
  intros Hc Hm (_ & Hmed & _). constructor; try done; [by exists mm|]. rewrite (cur_set (set_words d mm) c0 c Hc), Hc. cbn. by rewrite Hmed.
Qed.

Lemma bins_cur d d' K c : cur_cache d' = Some c -> ThreadCacheSpec.bins_ok (words d') c (fun cls => K (Bin cls)) ->
  forall c0 loc SL0 K0, caches d K0 loc SL0 -> cur_cache d = Some c0 -> ThreadCacheSpec.steady c0 c -> bins_held d' K.
Proof.
  intros Hc B c0 loc SL0 K0 C Hc0 (Hr & _ & Hcap). unfold bins_held. rewrite Hc. pose proof (ca_bins _ _ _ _ C) as B0. unfold bins_held in B0. rewrite Hc0 in B0.
  destruct B0 as (_ & Hcap0 & Hr0). split_and!; [done|auto|congruence].
Qed.

Lemma bins_put_ext K cls l : forall i, ThreadCacheSpec.slab_class i -> putp K (Bin cls) l (Bin i) = ThreadCacheSpec.put_held (fun c => K (Bin c)) cls l i.
Proof. intros i _. unfold putp, ThreadCacheSpec.put_held. destruct (Z.eqb_spec i cls) as [->|Hne]; [by rewrite decide_True|rewrite decide_False by congruence; done]. Qed.

(** Membership and freedom from duplicates when objects leave a place, arrive at
    one, or go from one to another. *)
Lemma loc_out d K loc SL0 w mv l : caches d K loc SL0 -> place_ok w -> K w = mv ++ l ->
  (forall w' x, place_ok w' -> x ∈ putp K w l w' <-> relocate loc mv None x = Some w') /\ (forall w', place_ok w' -> NoDup (putp K w l w')).
Proof.
  intros C Hw E. pose proof (ca_nodup _ _ _ _ C w Hw) as Nd. rewrite E in Nd. apply NoDup_app in Nd as (_ & Hd & Nd).
  assert (Hmv : forall x, x ∈ mv -> loc x = Some w) by (intros x Hx; apply (ca_loc _ _ _ _ C w x Hw); rewrite E; apply elem_of_app; by left).
  split; intros w'; unfold putp; destruct (decide (w' = w)) as [->|Hne].
  - intros x _. unfold relocate. destruct (decide (x ∈ mv)) as [Hx|Hx]; [split; [intros Hl; by destruct (Hd x Hx)|done]|].
    rewrite <- (ca_loc _ _ _ _ C w x Hw), E, elem_of_app. tauto.
  - intros x Hw'. unfold relocate. rewrite (ca_loc _ _ _ _ C w' x Hw'). destruct (decide (x ∈ mv)) as [Hx|Hx]; [|done]. rewrite (Hmv x Hx). split; congruence.
  - done.
  - by apply (ca_nodup _ _ _ _ C).
Qed.

Lemma loc_in d K loc SL0 w mv : caches d K loc SL0 -> place_ok w -> NoDup mv -> (forall x, x ∈ mv -> loc x = None) ->
  (forall w' x, place_ok w' -> x ∈ putp K w (mv ++ K w) w' <-> relocate loc mv (Some w) x = Some w') /\ (forall w', place_ok w' -> NoDup (putp K w (mv ++ K w) w')).
Proof.
  intros C Hw Nd Hmv. split; intros w'; unfold putp; destruct (decide (w' = w)) as [->|Hne].
  - intros x _. unfold relocate. rewrite elem_of_app. destruct (decide (x ∈ mv)); [tauto|]. rewrite (ca_loc _ _ _ _ C w x Hw). tauto.
  - intros x Hw'. unfold relocate. rewrite (ca_loc _ _ _ _ C w' x Hw'). destruct (decide (x ∈ mv)) as [Hx|Hx]; [|done]. rewrite (Hmv x Hx). split; congruence.
  - intros _. apply NoDup_app. split_and!; [done| |by apply (ca_nodup _ _ _ _ C)]. intros x Hx Hk. apply (ca_loc _ _ _ _ C w x Hw) in Hk. rewrite (Hmv x Hx) in Hk. done.
  - by apply (ca_nodup _ _ _ _ C).
Qed.

Lemma loc_move d K loc SL0 w1 w2 mv l : caches d K loc SL0 -> place_ok w1 -> place_ok w2 -> w1 <> w2 -> K w1 = mv ++ l ->
  let K' := putp (putp K w1 l) w2 (mv ++ K w2) in
  (forall w' x, place_ok w' -> x ∈ K' w' <-> relocate loc mv (Some w2) x = Some w') /\ (forall w', place_ok w' -> NoDup (K' w')).
Proof.
  intros C H1 H2 Hne E K'. pose proof (ca_nodup _ _ _ _ C w1 H1) as Nd. rewrite E in Nd. apply NoDup_app in Nd as (Ndm & Hd & Ndl).
  assert (Hmv : forall x, x ∈ mv -> loc x = Some w1) by (intros x Hx; apply (ca_loc _ _ _ _ C w1 x H1); rewrite E; apply elem_of_app; by left).
  split; intros w'; unfold K', putp; (destruct (decide (w' = w2)) as [->|Hn2]; [|destruct (decide (w' = w1)) as [->|Hn1]]).
  - intros x _. unfold relocate. rewrite elem_of_app. destruct (decide (x ∈ mv)); [tauto|]. rewrite (ca_loc _ _ _ _ C w2 x H2). tauto.
  - intros x _. unfold relocate. destruct (decide (x ∈ mv)) as [Hx|Hx]; [split; [intros Hl; by destruct (Hd x Hx)|congruence]|].
    rewrite <- (ca_loc _ _ _ _ C w1 x H1), E, elem_of_app. tauto.
  - intros x Hw'. unfold relocate. rewrite (ca_loc _ _ _ _ C w' x Hw'). destruct (decide (x ∈ mv)) as [Hx|Hx]; [|done]. rewrite (Hmv x Hx). split; congruence.
  - intros _. apply NoDup_app. split_and!; [done| |by apply (ca_nodup _ _ _ _ C)]. intros x Hx Hk. apply (ca_loc _ _ _ _ C w2 x H2) in Hk. rewrite (Hmv x Hx) in Hk. congruence.
  - done.
  - by apply (ca_nodup _ _ _ _ C).
Qed.

(** ** The operations *)

Lemma set_words_id d : set_words d (words d) = d.
Proof. unfold set_words, words. destruct d as [sl]. cbn. by destruct sl. Qed.
Lemma short_put K w l : (forall cls, ThreadCacheSpec.slab_class cls -> (length (K (Bin cls)) <= 513)%nat) -> (length l <= 513)%nat ->
  forall cls, ThreadCacheSpec.slab_class cls -> (length (putp K w l (Bin cls)) <= 513)%nat.
Proof. intros Hk Hl cls Hc. unfold putp. destruct (decide _); auto. Qed.

Lemma bins_of d K loc SL0 c : caches d K loc SL0 -> cur_cache d = Some c -> ThreadCacheSpec.bins_ok (words d) c (fun cls => K (Bin cls)).
Proof. intros C Hc. pose proof (ca_bins _ _ _ _ C) as B. unfold bins_held in B. rewrite Hc in B. apply B. Qed.

(** An empty bin. *)
Lemma tlc_alloc_none e d K loc SL0 c cls : caches d K loc SL0 -> cur_cache d = Some c -> ThreadCacheSpec.slab_class cls -> K (Bin cls) = [] ->
  exists d', tlc_alloc e d cls = (d', NULL) /\ cache_step [] d d' /\ caches d' K loc SL0 /\ cur_cache d' = Some c.
Proof.
  intros C Hc Hs Hk. pose proof (bins_of _ _ _ _ _ C Hc) as B. unfold tlc_alloc. rewrite Hc, (ThreadCacheSpec.alloc_nil _ _ _ _ _ B Hs Hk).
  exists (set_cur d (Some c)). split; [done|]. pose proof (set_cur_step d [] (words d) c c Hc ltac:(done) ltac:(done)) as S. rewrite set_words_id in S.
  split; [done|]. split; [|by eapply cur_set]. apply (caches_same d); [done|done| |done]. unfold same_cur. by rewrite Hc, (cur_set _ _ _ Hc).
Qed.

(** The top object leaves its bin. *)
Lemma tlc_alloc_some e d K loc SL0 c cls a l : caches d K loc SL0 -> cur_cache d = Some c -> ThreadCacheSpec.slab_class cls -> K (Bin cls) = a :: l ->
  exists d' c', tlc_alloc e d cls = (d', a) /\ a <> NULL /\ cache_step [] d d' /\ caches d' (putp K (Bin cls) l) (relocate loc [a] None) SL0 /\ cur_cache d' = Some c'.
Proof.
  intros C Hc Hs Hk. pose proof (bins_of _ _ _ _ _ C Hc) as B. unfold tlc_alloc. rewrite Hc.
  destruct (ThreadCacheSpec.alloc_cons e.(de_tick) (words d) c _ cls a l B Hs Hk) as (c' & He & Ha & B'). rewrite He. pose proof (ThreadCacheSpec.alloc_steady _ _ _ _ _ _ He) as St.
  exists (set_cur d (Some c')), c'. pose proof (set_cur_step d [] (words d) c c' Hc ltac:(done) St) as S. rewrite set_words_id in S.
  pose proof (cur_set d c c' Hc) as Hc'. split; [done|]. split; [done|]. split; [done|]. split; [|done].
  destruct (loc_out d K loc SL0 (Bin cls) [a] l C Hs Hk) as [HL HN].
  assert (Hmv : forall x w, x ∈ [a] -> loc x = Some w -> w = Bin cls).
  { intros x w ->%list_elem_of_singleton Hx. assert (loc a = Some (Bin cls)) by (apply (ca_loc _ _ _ _ C (Bin cls) a Hs); rewrite Hk; left). congruence. }
  apply (caches_move d _ K _ loc SL0 [a] None); [done|by eapply cache_step_mono; [|exact S]; set_solver|done|done|done| | |].
  - apply short_put; [apply C|]. pose proof (ca_short _ _ _ _ C cls Hs) as Hl. rewrite Hk in Hl. cbn in Hl. lia.
  - eapply (bins_cur d); [exact Hc'| |exact C|exact Hc|exact St]. eapply ThreadCacheSpec.bins_ok_ext; [|exact B']. apply bins_put_ext.
  - intros cpu i Hi. rewrite putp_ne by done. eapply stack_frame; [exact C|exact S|done|by intros x ?%not_elem_of_nil|done].
Qed.

(** No bin holds more than its largest capacity.  A release may exceed it by one,
    until the overflow is passed on. *)
Definition tight (K : store) : Prop := forall cls, ThreadCacheSpec.slab_class cls -> (length (K (Bin cls)) <= 512)%nat.

(** A released object goes on top of its bin. *)
Lemma tlc_free_spec e d K loc SL0 c cls x : caches d K loc SL0 -> tight K -> cur_cache d = Some c -> ThreadCacheSpec.slab_class cls ->
  x <> NULL -> loc x = None -> SL0 x -> SlabPoolSpec.of_class (pages_of d) cls x ->
  exists mm c' o, ThreadCache.v8m_thread_cache_free e.(de_tick) (words d) (cur_cache d) cls x = (mm, Some c', o) /\
    let d' := set_cur (set_words d mm) (Some c') in let K' := putp K (Bin cls) (x :: K (Bin cls)) in
    cache_step [x] d d' /\ caches d' K' (relocate loc [x] (Some (Bin cls))) SL0 /\ cur_cache d' = Some c' /\ (o = false -> tight K').
Proof.
  intros C Ht Hc Hs Hx Hl HS Hcl. pose proof (bins_of _ _ _ _ _ C Hc) as B. rewrite Hc.
  assert (Hnot : forall i, ThreadCacheSpec.slab_class i -> x ∉ K (Bin i)). { intros i Hi Hk. apply (ca_loc _ _ _ _ C (Bin i) x Hi) in Hk. congruence. }
  destruct (ThreadCacheSpec.free_push e.(de_tick) (words d) c _ cls x B Hs Hx Hnot ltac:(specialize (Ht cls Hs); lia)) as (c' & o & He & B' & Ho).
  exists (wr (words d) x (ThreadCache.bin_at c cls).(ThreadCache.bin_heads)), c', o. rewrite He. split; [done|]. cbn zeta. set (mm := wr _ _ _) in *.
  pose proof (ThreadCacheSpec.free_steady _ _ _ _ _ _ _ _ He) as St.
  assert (S : cache_step [x] d (set_cur (set_words d mm) (Some c'))).
  { apply (set_cur_step d [x] mm c c' Hc); [|done]. intros a Ha. apply rd_wr_ne. intros ->. apply Ha. left. }
  pose proof (cur_set (set_words d mm) c c' Hc) as Hc'. split; [done|]. split; [|split; [done|]].
  - destruct (loc_in d K loc SL0 (Bin cls) [x] C Hs ltac:(apply NoDup_singleton) ltac:(by intros y ->%list_elem_of_singleton)) as [HL HN].
    apply (caches_move d _ K _ loc SL0 [x] (Some (Bin cls))); [done|done|split; [done|by intros y ->%list_elem_of_singleton]|done|done| | |].
    + apply short_put; [apply C|]. specialize (Ht cls Hs). cbn. lia.
    + eapply (bins_cur d); [exact Hc'| |exact C|exact Hc|exact St]. eapply ThreadCacheSpec.bins_ok_ext; [|exact B']. apply bins_put_ext.
    + intros cpu i Hi. rewrite putp_ne by done. eapply stack_frame; [exact C|exact S|done| |done]. intros y ->%list_elem_of_singleton. congruence.
  - intros Hf i Hi. unfold putp. destruct (decide (Bin i = Bin cls)) as [[= ->]|]; [|by apply Ht]. pose proof (ca_bins _ _ _ _ C) as Bh. unfold bins_held in Bh. rewrite Hc in Bh.
    pose proof (proj2 (proj2 St) (proj1 (proj2 Bh)) cls) as Hcap. unfold ThreadCache.V8M_BIN_CAPACITY_MAX in Hcap.
    destruct (Z.le_gt_cases (ThreadCache.bin_at c' cls).(ThreadCache.bin_capacity) (Z.of_nat (Datatypes.S (length (K (Bin cls)))))) as [Hle|]; [apply Ho in Hle; congruence|cbn; lia].
Qed.

(** A batch leaves a stack: in hand, linked. *)
Lemma pop_batch_spec d K loc SL0 cpu cls n : caches d K loc SL0 -> ThreadCacheSpec.slab_class cls -> 0 <= n -> K (Hand cls) = [] ->
  let taken := take (Z.to_nat n) (K (Stack cpu cls)) in
  exists g mm h t, CoreCache.v8m_core_cache_pop_batch d.(d_cores) (words d) (Some cpu) cls n = (g, mm, Z.of_nat (length taken), h, t) /\
    let d' := set_cores (set_words d mm) g in let K' := putp (putp K (Stack cpu cls) (drop (Z.to_nat n) (K (Stack cpu cls)))) (Hand cls) taken in
    cache_step taken d d' /\ caches d' K' (relocate loc taken (Some (Hand cls))) SL0 /\ chain (words d') h taken /\ t = default NULL (last taken) /\
    cur_cache d' = cur_cache d.
Proof.
  intros C Hs Hn Hh taken.
  destruct (CoreCache.pop_batch_holds d.(d_cores) (words d) cpu cls (K (Stack cpu cls)) n (ca_stacks _ _ _ _ C cpu cls Hs)
    ltac:(unfold ThreadCacheSpec.slab_class, V8M_MEDIUM_FIRST_CLASS, V8M_NUM_SIZE_CLASSES in *; lia) Hn) as (g & mm & h & t & He & Hho & Hch & Ht & Hm & Hw).
  fold taken in He, Hch, Ht, Hm. exists g, mm, h, t. split; [done|]. cbn zeta. set (d' := set_cores (set_words d mm) g).
  assert (S : cache_step taken d d') by (constructor; try done; by exists mm). split; [done|]. split; [|done].
  assert (E : K (Stack cpu cls) = taken ++ drop (Z.to_nat n) (K (Stack cpu cls))) by (unfold taken; by rewrite take_drop).
  destruct (loc_move d K loc SL0 (Stack cpu cls) (Hand cls) taken _ C Hs Hs ltac:(done) E) as [HL HN]. rewrite Hh, app_nil_r in HL, HN.
  assert (Hmv : forall x, x ∈ taken -> loc x = Some (Stack cpu cls)).
  { intros x Hx. apply (ca_loc _ _ _ _ C (Stack cpu cls) x Hs). rewrite E. apply elem_of_app. by left. }
  apply (caches_move d _ K _ loc SL0 taken (Some (Hand cls))); [done|done| |done|done| | |].
  - split; [done|]. intros x Hx. by destruct (ca_held _ _ _ _ C x _ (Hmv x Hx)) as (_ & ? & ?).
  - intros i Hi. rewrite !putp_ne by done. by apply (ca_short _ _ _ _ C).
  - apply (bins_held_ext _ K); [intros i _; by rewrite !putp_ne by done|]. apply (bins_frame d d' K loc SL0 taken C S (same_cur_refl _)).
    intros x i Hx. rewrite (Hmv x Hx). congruence.
  - intros cpu' i Hi. rewrite putp_ne by done. unfold putp. destruct (decide (Stack cpu' i = Stack cpu cls)) as [[= -> ->]|Hne]; [done|].
    eapply stack_frame; [exact C|exact S|done| |]; [intros x Hx; rewrite (Hmv x Hx); congruence|]. apply Hw. congruence.
Qed.

(** Stealing pops from another CPU's stack, or does nothing. *)
Lemma steal_cases g mm cls exclude n :
  CoreCache.v8m_core_cache_steal_batch g mm cls exclude n = (g, mm, 0, NULL, NULL) \/
  exists cpu, CoreCache.v8m_core_cache_steal_batch g mm cls exclude n = CoreCache.v8m_core_cache_pop_batch g mm (Some cpu) cls n.
Proof.
  unfold CoreCache.v8m_core_cache_steal_batch. destruct (_ || _); [by left|]. destruct (_ || _); [by left|]. right. by eexists.
Qed.

Lemma hand_of d K loc SL0 cls x : caches d K loc SL0 -> ThreadCacheSpec.slab_class cls -> x ∈ K (Hand cls) -> loc x = Some (Hand cls).
Proof. intros C Hs Hx. by apply (ca_loc _ _ _ _ C (Hand cls) x Hs). Qed.

(** The objects in hand fill an empty bin. *)
Lemma install_chain_spec d K loc SL0 c cls l h t : caches d K loc SL0 -> cur_cache d = Some c -> ThreadCacheSpec.slab_class cls ->
  K (Bin cls) = [] -> K (Hand cls) = l -> l <> [] -> (length l <= 512)%nat -> chain (words d) h l -> t = default NULL (last l) ->
  exists mm c', ThreadCache.v8m_thread_cache_install_chain (words d) (cur_cache d) cls h t (Z.of_nat (length l)) = (mm, Some c') /\
    let d' := set_cur (set_words d mm) (Some c') in let K' := putp (putp K (Hand cls) []) (Bin cls) l in
    cache_step l d d' /\ caches d' K' (relocate loc l (Some (Bin cls))) SL0 /\ cur_cache d' = Some c'.
Proof.
  intros C Hc Hs Hb Hh Hne Hlen Hch Ht. pose proof (bins_of _ _ _ _ _ C Hc) as B. rewrite Hc.
  assert (Hmv : forall x, x ∈ l -> loc x = Some (Hand cls)) by (intros x Hx; eapply hand_of; [done|done|by rewrite Hh]).
  destruct (ThreadCacheSpec.install_spec (words d) c _ cls l h t B Hs Hne Hch Ht) as (c' & He & B' & St & Htl).
  { intros i x Hi Hx Hk. apply (ca_loc _ _ _ _ C (Bin i) x Hi) in Hk. rewrite (Hmv x Hx) in Hk. congruence. }
  { rewrite Hb. cbn. lia. }
  exists (wr (words d) t (ThreadCache.bin_at c cls).(ThreadCache.bin_heads)), c'. split; [exact He|]. cbn zeta. set (mm := wr _ _ _) in *. rewrite Hb, app_nil_r in B'.
  assert (S : cache_step l d (set_cur (set_words d mm) (Some c'))).
  { apply (set_cur_step d l mm c c' Hc); [|done]. intros a Ha. apply rd_wr_ne. by intros ->. }
  pose proof (cur_set (set_words d mm) c c' Hc) as Hc'. split; [done|]. split; [|done].
  destruct (loc_move d K loc SL0 (Hand cls) (Bin cls) l [] C Hs Hs ltac:(done) ltac:(by rewrite app_nil_r)) as [HL HN]. rewrite Hb, app_nil_r in HL, HN.
  apply (caches_move d _ K _ loc SL0 l (Some (Bin cls))); [done|done| |done|done| | |].
  - split; [done|]. intros x Hx. by destruct (ca_held _ _ _ _ C x _ (Hmv x Hx)) as (_ & ? & ?).
  - apply short_put; [|lia]. intros i Hi. rewrite putp_ne by done. by apply (ca_short _ _ _ _ C).
  - eapply (bins_cur d); [exact Hc'| |exact C|exact Hc|exact St]. eapply ThreadCacheSpec.bins_ok_ext; [|exact B']. intros i Hi.
    rewrite (bins_put_ext (putp K (Hand cls) []) cls l i Hi). unfold ThreadCacheSpec.put_held. destruct (i =? cls); [done|]. by rewrite putp_ne by done.
  - intros cpu i Hi. rewrite !putp_ne by done. eapply stack_frame; [exact C|exact S|done| |done]. intros x Hx. rewrite (Hmv x Hx). congruence.
Qed.

(** The top of a bin comes into the hands. *)
Lemma drain_chain_spec' e d K loc SL0 c cls n : caches d K loc SL0 -> cur_cache d = Some c -> ThreadCacheSpec.slab_class cls -> 0 < n -> K (Hand cls) = [] ->
  let taken := take (Z.to_nat n) (K (Bin cls)) in
  exists mm c' h t, ThreadCache.v8m_thread_cache_drain_chain e.(de_tick) (words d) (cur_cache d) cls n = (mm, Some c', h, t, Z.of_nat (length taken)) /\
    let d' := set_cur (set_words d mm) (Some c') in let K' := putp (putp K (Bin cls) (drop (Z.to_nat n) (K (Bin cls)))) (Hand cls) taken in
    cache_step taken d d' /\ caches d' K' (relocate loc taken (Some (Hand cls))) SL0 /\ cur_cache d' = Some c' /\
    chain (words d') h taken /\ t = default NULL (last taken).
Proof.
  intros C Hc Hs Hn Hh taken. pose proof (bins_of _ _ _ _ _ C Hc) as B. rewrite Hc.
  destruct (ThreadCacheSpec.drain_chain_spec e.(de_tick) (words d) c _ cls n B Hs Hn) as (mm & c' & h & t & He & B' & St & Hch & Ht & Hm). fold taken in He, Hch, Ht, Hm.
  exists mm, c', h, t. split; [done|]. cbn zeta.
  assert (S : cache_step taken d (set_cur (set_words d mm) (Some c'))) by (by apply (set_cur_step d taken mm c c' Hc)).
  pose proof (cur_set (set_words d mm) c c' Hc) as Hc'. split; [done|]. split; [|done].
  assert (E : K (Bin cls) = taken ++ drop (Z.to_nat n) (K (Bin cls))) by (unfold taken; by rewrite take_drop).
  assert (Hmv : forall x, x ∈ taken -> loc x = Some (Bin cls)). { intros x Hx. apply (ca_loc _ _ _ _ C (Bin cls) x Hs). rewrite E. apply elem_of_app. by left. }
  destruct (loc_move d K loc SL0 (Bin cls) (Hand cls) taken _ C Hs Hs ltac:(done) E) as [HL HN]. rewrite Hh, app_nil_r in HL, HN.
  apply (caches_move d _ K _ loc SL0 taken (Some (Hand cls))); [done|done| |done|done| | |].
  - split; [done|]. intros x Hx. by destruct (ca_held _ _ _ _ C x _ (Hmv x Hx)) as (_ & ? & ?).
  - intros i Hi. rewrite putp_ne by done. revert i Hi. apply short_put; [apply C|]. rewrite length_drop. pose proof (ca_short _ _ _ _ C cls Hs). lia.
  - apply (bins_held_ext _ (putp K (Bin cls) (drop (Z.to_nat n) (K (Bin cls))))); [intros i _; by rewrite (putp_ne _ (Hand cls)) by done|].
    eapply (bins_cur d); [exact Hc'| |exact C|exact Hc|exact St]. eapply ThreadCacheSpec.bins_ok_ext; [|exact B']. apply bins_put_ext.
  - intros cpu i Hi. rewrite !putp_ne by done. eapply stack_frame; [exact C|exact S|done| |done]. intros x Hx. rewrite (Hmv x Hx). congruence.
Qed.

(** The objects in hand go on a stack. *)
Lemma push_batch_spec d K loc SL0 cur cpu cls l h t : caches d K loc SL0 -> ThreadCacheSpec.slab_class cls ->
  K (Hand cls) = l -> l <> [] -> chain (words d) h l -> t = default NULL (last l) -> Forall CoreCache.is_ptr l ->
  exists g mm, CoreCache.v8m_core_cache_push_batch d.(d_cores) (words d) cur (Some cpu) cls h t = (g, mm, true) /\
    let d' := set_cores (set_words d mm) g in let K' := putp (putp K (Hand cls) []) (Stack cpu cls) (l ++ K (Stack cpu cls)) in
    cache_step l d d' /\ caches d' K' (relocate loc l (Some (Stack cpu cls))) SL0 /\ cur_cache d' = cur_cache d.
Proof.
  intros C Hs Hh Hne Hch Ht Hp. assert (Hmv : forall x, x ∈ l -> loc x = Some (Hand cls)) by (intros x Hx; eapply hand_of; [done|done|by rewrite Hh]).
  destruct (exists_last Hne) as (l1 & x & ->). rewrite last_snoc in Ht. change (default NULL (Some x)) with x in Ht. subst t.
  destruct (CoreCache.push_batch_holds d.(d_cores) (words d) cur cpu cls (K (Stack cpu cls)) h l1 x (ca_stacks _ _ _ _ C cpu cls Hs)) as (g & mm & He & Hho & Hm & Hw).
  { unfold ThreadCacheSpec.slab_class, V8M_MEDIUM_FIRST_CLASS, V8M_NUM_SIZE_CLASSES in *. lia. }
  { by apply (ThreadCacheSpec.chain_prefix _ _ l1 x []). }
  { done. }
  { intros y Hy Hk. apply (ca_loc _ _ _ _ C (Stack cpu cls) y Hs) in Hk. rewrite (Hmv y Hy) in Hk. congruence. }
  exists g, mm. split; [done|]. cbn zeta. set (d' := set_cores (set_words d mm) g).
  assert (S : cache_step (l1 ++ [x]) d d').
  { constructor; try done. exists mm. split; [done|]. intros a Ha. apply Hm. intros ->. apply Ha, elem_of_app. right. left. }
  split; [done|]. split; [|done].
  destruct (loc_move d K loc SL0 (Hand cls) (Stack cpu cls) (l1 ++ [x]) [] C Hs Hs ltac:(done) ltac:(by rewrite app_nil_r)) as [HL HN].
  apply (caches_move d _ K _ loc SL0 (l1 ++ [x]) (Some (Stack cpu cls))); [done|done| |done|done| | |].
  - split; [done|]. intros y Hy. by destruct (ca_held _ _ _ _ C y _ (Hmv y Hy)) as (_ & ? & ?).
  - intros i Hi. rewrite !putp_ne by done. by apply (ca_short _ _ _ _ C).
  - apply (bins_held_ext _ K); [intros i _; by rewrite !putp_ne by done|]. apply (bins_frame d d' K loc SL0 _ C S (same_cur_refl _)).
    intros y i Hy. rewrite (Hmv y Hy). congruence.
  - intros cpu' i Hi. unfold putp at 1. destruct (decide (Stack cpu' i = Stack cpu cls)) as [[= -> ->]|Hn].
    + rewrite <- app_assoc. exact Hho.
    + rewrite putp_ne by done. eapply stack_frame; [exact C|exact S|done| |]; [intros y Hy; rewrite (Hmv y Hy); congruence|]. apply Hw. congruence.
Qed.

(** Writing into objects in use keeps the world. *)
Section World.
Context (ext extd : list (Z * Z)) (m : bool).

Lemma pool_words_ok oth od a st Lv mm :
  SlabPoolSpec.pool_ok oth od nobody a st Lv -> (forall x, ~ Lv x -> rd mm x = rd st.(SlabPool.smem) x) ->
  SlabPoolSpec.pool_ok oth od nobody a (SlabPool.set_smem st mm) Lv.
Proof.
  intros P Hm. constructor; [apply P| |apply P|apply P|apply P]. destruct (SlabPoolSpec.po_slabs _ _ _ _ _ _ P) as [Sp Sl]. constructor; [|done]. cbn.
  intros p mt Hp. destruct (Sp p mt Hp) as (Hb & Hu & Hok). split_and!; [done|done|]. apply (SlabPage.slab_frame _ _ st.(SlabPool.smem)); [done|done|].
  intros x Hx Hn. apply Hm. tauto.
Qed.

Lemma step_pool mv d d' a : cache_step mv d d' -> arena a -> length d.(d_slab_lifetime) = 3%nat ->
  exists mm, slab_pool_for_arena d' a = SlabPool.set_smem (slab_pool_for_arena d a) mm /\
    (forall x, (a = 0 -> x ∉ mv) -> rd mm x = rd (slab_pool_for_arena d a).(SlabPool.smem) x).
Proof.
  intros [(mm & E & Hm) El _ _ _ _ _] Ha Hl. unfold slab_pool_for_arena. unfold arena, V8M_ARENA_DEFAULT, V8M_ARENA_COUNT in *. destruct (Z.eqb_spec a 0) as [->|Hne].
  - exists mm. cbn. split; [done|]. intros x Hx. apply Hm. auto.
  - destruct (Z.leb_spec 4 a); [lia|]. cbn. rewrite El. destruct (lookup_lt_is_Some_2 d.(d_slab_lifetime) (Z.to_nat (a - 1)) ltac:(lia)) as [st Hst].
    rewrite Hst. exists st.(SlabPool.smem). split; [by destruct st|done].
Qed.

Lemma step_world mv d d' SL LL : cache_step mv d d' -> (forall x, x ∈ mv -> SL 0 x) -> world ext extd m d SL LL -> world ext extd m d' SL LL.
Proof.
  intros S Hmv (O & D & W). exists O, D. pose proof S as [_ El Eb Elg Es _ _]. constructor; rewrite ?El, ?Eb, ?Elg, ?Es; try apply W.
  intros a Ha. destruct (step_pool _ _ _ _ S Ha (w_len _ _ _ _ _ _ _ _ W)) as (mm & -> & Hm). destruct (w_slab _ _ _ _ _ _ _ _ W a Ha) as [Hp Hh]. split; [done|].
  intros s oth od Is Hr Hd. change (lend_slab s (SlabPool.set_smem (slab_pool_for_arena d a) mm)) with (SlabPool.set_smem (lend_slab s (slab_pool_for_arena d a)) mm).
  apply pool_words_ok; [by apply Hh|]. intros x Hx. cbn. apply Hm. intros -> Hin. by apply Hx, Hmv.
Qed.

(** Blocks are not affected. *)
Lemma step_block mv d d' SL LL w p n : cache_step mv d d' -> length d.(d_slab_lifetime) = 3%nat -> block_at d' SL LL w p n <-> block_at d SL LL w p n.
Proof.
  intros S Hl. pose proof S as [_ El Eb Elg Es _ _]. destruct w as [a| |]; cbn; [|by rewrite Eb|done].
  split; intros (Ha & Hx & mt & Hm & Hn); (split; [done|]); (split; [done|]); exists mt; (split; [|done]);
    destruct (step_pool _ _ _ _ S Ha Hl) as (mm & E & _); [rewrite E in Hm|rewrite E]; exact Hm.
Qed.

End World.
End Caches.
End DispatchCache.
