(* ===== verification/DispatchStep.v ===== *)
(** One step of the dispatcher and the blocks of the program ([Dispatch]).

    [keep] says that a step leaves blocks and their contents alone.  [front] is the
    state the steps of an allocation or a release go through: the pools ([world]),
    the caches in front of the default slab pool ([caches]) and the objects of the
    program. *)

From S2P Require Import Prelude SizeClass Page Config RemoteFree Buddy CoreCache Refill PageSource SlabPage SlabPool SlabPoolSpec BuddyPool BuddyPoolSpec Large LargeSpec ThreadCache ThreadCacheSpec ThreadRegistry Lifetime Dispatch DispatchInv DispatchCache.
Import SizeClass Page PageSource Dispatch DispatchInv DispatchCache.

Module DispatchStep.

Section Step.
Context `{PSL : PageSourceLaws} (ext extd : list (Z * Z)) (m : bool).
Notation world := (world ext extd m).
Notation world_at := (world_at ext extd m).

(** ** Blocks and contents *)

(** The memory a block of each kind lives in. *)
Definition mem_of (d : v8m_dispatch) (w : owner) : mem :=
  match w with
  | InSlab a => (slab_pool_for_arena d a).(SlabPool.smem)
  | InBuddy => d.(d_buddy).(BuddyPool.bmem)
  | InLarge => d.(d_large).(Large.l_bytes)
  end.

(** The blocks in [U] stay, with their contents. *)
Definition keep (U : owner -> Z -> Prop) (d : v8m_dispatch) (SL : Z -> Z -> Prop) (LL : list (Z * Z)) (d' : v8m_dispatch) (SL' : Z -> Z -> Prop) (LL' : list (Z * Z)) : Prop :=
  forall w q, U w q -> (forall k, block_at d SL LL w q k <-> block_at d' SL' LL' w q k) /\
    (forall k b, block_at d SL LL w q k -> q <= b < q + k -> rd (mem_of d' w) b = rd (mem_of d w) b).

Lemma keep_refl U d SL LL : keep U d SL LL d SL LL.
Proof. by intros w q _. Qed.
Lemma keep_trans U d1 S1 L1 d2 S2 L2 d3 S3 L3 : keep U d1 S1 L1 d2 S2 L2 -> keep U d2 S2 L2 d3 S3 L3 -> keep U d1 S1 L1 d3 S3 L3.
Proof.
  intros H1 H2 w q Hu. destruct (H1 w q Hu) as [A1 A2], (H2 w q Hu) as [B1 B2]. split.
  - intros k. by rewrite A1, B1.
  - intros k b Hk Hb. rewrite (B2 k b); [by apply (A2 k)|by apply A1|done].
Qed.

(** The program's objects of the default slab pool, and everything of the others. *)
Definition protect (Usr : Z -> Prop) (w : owner) (q : Z) : Prop := w = InSlab 0 -> Usr q.

(** A slab block in terms of its page's class. *)
Lemma block_slab d SL LL a q k : world d SL LL ->
  block_at d SL LL (InSlab a) q k <-> arena a /\ SL a q /\ exists c, SlabPoolSpec.of_class (slab_pool_for_arena d a).(SlabPool.pages) c q /\ k = class_size c.
Proof.
  intros (O & D & W). cbn. split; intros (Ha & Hq & Hx); (split; [done|]); (split; [done|]);
    destruct (slab_object _ _ _ _ _ _ _ _ a q W Ha Hq) as (mt & Hm & Hb & Hin & _ & _ & _ & Hc & Hs & _).
  - destruct Hx as (mt' & Hm' & ->). rewrite Hm in Hm'. injection Hm' as <-. exists mt.(size_class). split; [by exists (v8m_ptr_to_meta q), mt|done].
  - destruct Hx as (c & (p & mt' & Hp & Hc' & Hin') & ->). exists mt. split; [done|].
    pose proof (proj1 (proj1 (w_slab _ _ _ _ _ _ _ _ W a Ha) p (mk_is_Some _ _ Hp))) as Hb'.
    assert (p = v8m_ptr_to_meta q) as -> by (by eapply SlabPoolSpec.in_page_unique). rewrite Hm in Hp. injection Hp as <-. by rewrite Hs, Hc'.
Qed.

Lemma class_unique oth od no a st Lv q c c' : SlabPoolSpec.pool_ok oth od no a st Lv ->
  SlabPoolSpec.of_class st.(SlabPool.pages) c q -> SlabPoolSpec.of_class st.(SlabPool.pages) c' q -> c = c'.
Proof.
  intros P (p & mt & Hp & <- & Hin) (p' & mt' & Hp' & <- & Hin'). destruct (SlabPoolSpec.sl_page _ _ _ (SlabPoolSpec.po_slabs _ _ _ _ _ _ P) p mt Hp) as (Hb & _).
  destruct (SlabPoolSpec.sl_page _ _ _ (SlabPoolSpec.po_slabs _ _ _ _ _ _ P) p' mt' Hp') as (Hb' & _).
  rewrite (SlabPoolSpec.in_page_unique _ _ _ Hb Hb' Hin Hin') in Hp. congruence.
Qed.

(** ** Steps of the caches *)

Lemma keep_cache Usr mv d d' SL LL : world d SL LL -> cache_step mv d d' -> (forall x, x ∈ mv -> SL 0 x /\ ~ Usr x) ->
  keep (protect Usr) d SL LL d' SL LL.
Proof.
  intros W S Hmv. pose proof W as (O & D & Wa). pose proof (w_len _ _ _ _ _ _ _ _ Wa) as Hl. intros w q Hu. split.
  { intros k. symmetry. by eapply step_block. }
  intros k b Hk Hb. destruct w as [a| |]; cbn.
  - destruct (block_range _ _ _ _ _ _ _ _ _ _ _ Wa Hk) as (Ha & _). destruct (step_pool _ _ _ _ S Ha Hl) as (mm & -> & Hm). cbn. apply Hm. intros -> Hx.
    destruct (Hmv b Hx) as [Hs Hn]. assert (Hne : b <> q). { intros ->. apply Hn, Hu. done. }
    assert (exists n, block_at d SL LL (InSlab 0) b n) as [n Hbn].
    { destruct (slab_object _ _ _ _ _ _ _ _ 0 b Wa ltac:(by compute) Hs) as (mt & Hmt & _). exists mt.(object_size). split; [by compute|]. split; [done|by exists mt]. }
    destruct (block_range _ _ _ _ _ _ _ _ _ _ _ Wa Hbn) as (_ & r & _ & _ & _ & H0 & _).
    destruct (blocks_disjoint _ _ _ _ _ _ _ _ _ _ _ _ _ _ Wa Hk Hbn ltac:(congruence)); lia.
  - by rewrite (cs_buddy _ _ _ S).
  - by rewrite (cs_large _ _ _ S).
Qed.

(** ** Steps of a pool *)

Lemma same_cur_eq d d' : cur_cache d' = cur_cache d -> same_cur d d'.
Proof. unfold same_cur. intros ->. by destruct (cur_cache d). Qed.

(** The caches when only the slab pools and the page heap changed. *)
Lemma caches_frame d d' K loc SL0 SL0' :
  caches d K loc SL0 -> same_cur d d' -> d'.(d_cores) = d.(d_cores) ->
  (forall x w, loc x = Some w -> rd (words d') x = rd (words d) x) -> (forall x w, loc x = Some w -> SL0 x -> SL0' x) ->
  (forall x w c, loc x = Some w -> SL0 x -> SlabPoolSpec.of_class (pages_of d) c x -> SlabPoolSpec.of_class (pages_of d') c x) -> caches d' K loc SL0'.
Proof.
  intros C Hc Hg Hw Hs Hp. constructor; try apply C.
  - pose proof (ca_bins _ _ _ _ C) as B. unfold bins_held, same_cur in *. destruct (cur_cache d) as [c|], (cur_cache d') as [c'|]; try done.
    destruct Hc as [Eb Er], B as (B & Hcap & Hr). split_and!; [|unfold ThreadCacheSpec.caps_ok, ThreadCache.bin_at; rewrite Eb; exact Hcap|congruence].
    destruct B as [B1 B2 B3 B4]. constructor; unfold ThreadCache.bin_at in *; rewrite ?Eb; try done. intros cls Hcl. apply (SlabPage.chain_agree (words d)); [by apply B2|]. intros x Hx. apply (Hw x (Bin cls)).
    by apply (ca_loc _ _ _ _ C).
  - intros cpu cls Hcl. rewrite Hg. destruct (ca_stacks _ _ _ _ C cpu cls Hcl) as [H1 H2]. split; [|done]. apply (SlabPage.chain_agree (words d)); [done|].
    intros x Hx. apply (Hw x (Stack cpu cls)). by apply (ca_loc _ _ _ _ C).
  - intros x w Hx. destruct (ca_held _ _ _ _ C x w Hx) as (H1 & H2 & H3). split_and!; [done|by apply (Hs x w)|by apply (Hp x w)].
Qed.

(** A slab pool's step keeps the blocks of all pools but the objects it names. *)
Lemma keep_slab U d SL LL a st' Lv' : world d SL LL -> arena a -> let d' := set_src (set_pool d a st') st'.(SlabPool.source) in world d' (put SL a Lv') LL ->
  (forall q, U (InSlab a) q -> SL a q <-> Lv' q) ->
  (forall q c, U (InSlab a) q -> SL a q -> SlabPoolSpec.of_class (slab_pool_for_arena d a).(SlabPool.pages) c q -> SlabPoolSpec.of_class st'.(SlabPool.pages) c q) ->
  (forall q k b, U (InSlab a) q -> block_at d SL LL (InSlab a) q k -> q <= b < q + k -> rd st'.(SlabPool.smem) b = rd (slab_pool_for_arena d a).(SlabPool.smem) b) ->
  keep U d SL LL d' (put SL a Lv') LL.
Proof.
  intros W Ha d' W' HL Hc Hm. destruct (set_pool_same d a st') as (Eb & El & _). pose proof W as (O & D & Wa). pose proof W' as (O' & D' & Wa').
  assert (Ep : forall b, arena b -> slab_pool_for_arena d' b = if b =? a then st' else slab_pool_for_arena d b).
  { intros b Hb. exact (pool_set d a b st' (w_len _ _ _ _ _ _ _ _ Wa) Ha Hb). }
  intros w q Hu. destruct w as [b| |]; [|cbn; by rewrite Eb|cbn; by rewrite El]. split.
  - intros k. rewrite (block_slab d SL LL b q k W), (block_slab d' _ LL b q k W'). split; intros (Hb & Hq & Hx); (split; [done|]); rewrite (Ep b Hb) in *; unfold put in *;
      destruct (Z.eqb_spec b a) as [->|Hne]; try done.
    + split; [by apply HL|]. destruct Hx as (c & Hx & ->). exists c. split; [by apply Hc|done].
    + split; [by apply HL|]. assert (Hq' : SL a q) by (by apply HL). destruct Hx as (c & Hx & ->).
      assert (exists k, block_at d SL LL (InSlab a) q k) as [k Hk].
      { destruct (slab_object _ _ _ _ _ _ _ _ a q Wa Ha Hq') as (mt & Hmt & _). exists mt.(object_size). split; [done|]. split; [done|by exists mt]. }
      apply (block_slab d SL LL a q k W) in Hk as (_ & _ & c' & Hc' & ->). exists c'. split; [done|]. f_equal.
      pose proof (world_slab _ _ _ _ _ _ _ _ a Wa' Ha) as P. rewrite (Ep a Ha), Z.eqb_refl in P. eapply (class_unique _ _ _ _ _ _ q); [exact P|exact Hx|by apply Hc].
  - intros k x Hk Hx. cbn. rewrite (Ep b (proj1 Hk)). destruct (Z.eqb_spec b a) as [->|Hne]; [by eapply Hm|done].
Qed.

Lemma keep_buddy U d SL LL st' s :
  (forall q k, U InBuddy q -> BuddyPoolSpec.in_pool d.(d_buddy) q k <-> BuddyPoolSpec.in_pool st' q k) ->
  (forall q k b, U InBuddy q -> BuddyPoolSpec.in_pool d.(d_buddy) q k -> q <= b < q + k -> rd st'.(BuddyPool.bmem) b = rd d.(d_buddy).(BuddyPool.bmem) b) ->
  keep U d SL LL (set_src (set_buddy d st') s) SL LL.
Proof. intros Hp Hm w q Hu. destruct w as [a| |]; cbn; [done| |done]. split; [intros k; by apply Hp|intros k b; by apply Hm]. Qed.

Lemma keep_large U d SL LL LL' st' s :
  (forall q k, U InLarge q -> (q, k) ∈ LL <-> (q, k) ∈ LL') ->
  (forall q k b, U InLarge q -> (q, k) ∈ LL -> q <= b < q + k -> rd st'.(Large.l_bytes) b = rd d.(d_large).(Large.l_bytes) b) ->
  keep U d SL LL (set_src (set_large d st') s) SL LL'.
Proof. intros Hp Hm w q Hu. destruct w as [a| |]; cbn; [done|done|]. split; [intros k; by apply Hp|intros k b; by apply Hm]. Qed.

(** ** Buddy blocks in the thread cache *)

Definition medium_index (i : Z) : Prop := 0 <= i < 6.

(** [KM i] are the blocks of class [32 + i] in the calling thread's cache. *)
Record mids (d : v8m_dispatch) (KM : Z -> list Z) : Prop := {
  mi_bins : match cur_cache d with
    | None => forall i, medium_index i -> KM i = []
    | Some c => length c.(ThreadCache.mediums) = 6%nat /\ forall i, medium_index i ->
        chain d.(d_buddy).(BuddyPool.bmem) (ThreadCache.medium_at c i).(ThreadCache.medium_bin_heads) (KM i) /\
        (ThreadCache.medium_at c i).(ThreadCache.medium_bin_count) = Z.of_nat (length (KM i)) /\ (length (KM i) <= 4)%nat
    end;
  mi_out : forall i, ~ medium_index i -> KM i = [];
  mi_held : forall i x, x ∈ KM i -> BuddyPoolSpec.in_pool d.(d_buddy) x (class_size (V8M_MEDIUM_FIRST_CLASS + i));
  mi_apart : forall i j x, i <> j -> x ∈ KM i -> x ∉ KM j
}.

(** ** Fronts *)

(** The block is the program's, not held by a cache. *)
Definition mine (loc : Z -> option place) (KM : Z -> list Z) (w : owner) (p : Z) : Prop :=
  (w = InSlab 0 -> loc p = None) /\ (w = InBuddy -> forall i, p ∉ KM i).

(** The blocks of the program are [B]. *)
Record front (K : store) (loc : Z -> option place) (KM : Z -> list Z) (d : v8m_dispatch) (SL : Z -> Z -> Prop) (LL : list (Z * Z)) (B : owner -> Z -> Z -> Prop) : Prop := {
  fr_world : world d SL LL;
  fr_caches : caches d K loc (SL 0);
  fr_mids : mids d KM;
  fr_blocks : forall w p n, B w p n <-> block_at d SL LL w p n /\ mine loc KM w p
}.

(** Their contents. *)
Definition contents (B : owner -> Z -> Z -> Prop) (d d' : v8m_dispatch) : Prop :=
  forall w q k b, B w q k -> q <= b < q + k -> rd (mem_of d' w) b = rd (mem_of d w) b.
Lemma contents_refl B d : contents B d d.
Proof. by intros w q k b. Qed.
Lemma contents_trans B d1 d2 d3 : contents B d1 d2 -> contents B d2 d3 -> contents B d1 d3.
Proof. intros H1 H2 w q k b Hq Hb. rewrite (H2 w q k b Hq Hb). by apply (H1 w q k b). Qed.

Lemma mids_same d d' KM : mids d KM -> d'.(d_buddy) = d.(d_buddy) ->
  option_map ThreadCache.mediums (cur_cache d') = option_map ThreadCache.mediums (cur_cache d) -> mids d' KM.
Proof.
  intros [Hb Ho Hh Ha] Eb Ec. constructor; rewrite ?Eb; try done. destruct (cur_cache d) as [c|], (cur_cache d') as [c'|]; try done. cbn in Ec. injection Ec as Ec.
  unfold ThreadCache.medium_at in *. by rewrite Ec.
Qed.

(** Objects move between the caches. *)
Lemma front_cache K K' loc KM d d' SL LL B mv w :
  front K loc KM d SL LL B -> cache_step mv d d' -> (forall x, x ∈ mv -> is_Some (loc x)) -> caches d' K' (relocate loc mv (Some w)) (SL 0) ->
  front K' (relocate loc mv (Some w)) KM d' SL LL B /\ contents B d d'.
Proof.
  intros [W C M Hb] S Hmv C'. pose proof W as (O & D & Wa). pose proof (w_len _ _ _ _ _ _ _ _ Wa) as Hl.
  assert (Hk : forall x, x ∈ mv -> SL 0 x) by (intros x Hx; destruct (Hmv x Hx) as [w' Hw]; by destruct (ca_held _ _ _ _ C x w' Hw) as (_ & ? & _)).
  split.
  - constructor; [by eapply step_world|done|eapply mids_same; [done|apply S|apply S]|]. intros w' p n. rewrite Hb, (step_block _ _ _ SL LL w' p n S Hl).
    unfold mine, relocate. destruct (decide (p ∈ mv)) as [Hx|]; [|done]. destruct (Hmv p Hx) as [x Hx']. rewrite Hx'. split; intros [H1 [H2 H3]]; (split; [done|split; [|done]]); intros E; specialize (H2 E); congruence.
  - intros w' q k b Hq Hr. apply Hb in Hq as [Hq [Hm _]]. assert (Hn : forall x, x ∈ mv -> SL 0 x /\ loc x <> None).
    { intros x Hx. split; [by apply Hk|]. destruct (Hmv x Hx) as [y ->]. done. }
    by apply (proj2 (keep_cache (fun x => loc x = None) mv d d' SL LL W S Hn w' q Hm) k).
Qed.

(** Nothing moves and no word changes. *)
Lemma front_same K loc KM d d' SL LL B : front K loc KM d SL LL B -> cache_step [] d d' -> caches d' K loc (SL 0) -> front K loc KM d' SL LL B /\ contents B d d'.
Proof.
  intros F S C'. pose proof F as [W C M Hb]. pose proof W as (O & D & Wa). pose proof (w_len _ _ _ _ _ _ _ _ Wa) as Hl. split.
  - constructor; [eapply step_world; [exact S|by intros x ?%not_elem_of_nil|done]|done|eapply mids_same; [done|apply S|apply S]|].
    intros w' p n. by rewrite Hb, (step_block _ _ _ SL LL w' p n S Hl).
  - intros w' q k b Hq Hr. apply Hb in Hq as [Hq [Hm _]]. assert (Hn : forall x, x ∈ [] -> SL 0 x /\ loc x <> None) by (by intros x ?%not_elem_of_nil).
    by apply (proj2 (keep_cache (fun x => loc x = None) [] d d' SL LL W S Hn w' q Hm) k).
Qed.

(** An object leaves the caches: it is the program's. *)
Definition add_block (B : owner -> Z -> Z -> Prop) (w : owner) (p n : Z) : owner -> Z -> Z -> Prop := fun w' q k => B w' q k \/ (w', q, k) = (w, p, n).
Definition del_block (B : owner -> Z -> Z -> Prop) (w : owner) (p : Z) : owner -> Z -> Z -> Prop := fun w' q k => B w' q k /\ (w', q) <> (w, p).

(** The block is in use and the program's. *)
Definition own (d : v8m_dispatch) (SL : Z -> Z -> Prop) (LL : list (Z * Z)) (loc : Z -> option place) (KM : Z -> list Z) (w : owner) (p n : Z) : Prop :=
  block_at d SL LL w p n /\ mine loc KM w p.

Lemma front_add K loc KM d SL LL B K' loc' KM' d' SL' LL' w0 p n :
  front K loc KM d SL LL B -> world d' SL' LL' -> caches d' K' loc' (SL' 0) -> mids d' KM' ->
  (forall k, ~ B w0 p k) -> own d' SL' LL' loc' KM' w0 p n ->
  (forall w q k, (w, q) <> (w0, p) -> own d SL LL loc KM w q k <-> own d' SL' LL' loc' KM' w q k) ->
  front K' loc' KM' d' SL' LL' (add_block B w0 p n).
Proof.
  intros [_ _ _ Hb] W C M Hn Ho He. constructor; [done|done|done|]. intros w q k. fold (own d' SL' LL' loc' KM' w q k). unfold add_block.
  destruct (decide ((w, q) = (w0, p))) as [[= -> ->]|Hne].
  - split; [intros [Hy|[= ->]]; [by destruct (Hn k)|done]|]. intros Hk. right. destruct W as (O & D & Wa). by destruct (block_unique _ _ _ _ _ _ _ _ _ _ _ _ _ Wa (proj1 Hk) (proj1 Ho)) as [_ ->].
  - rewrite <- (He w q k Hne), Hb. split; [intros [Hy|[= -> -> ->]]; done|by left].
Qed.

Lemma front_del K loc KM d SL LL B K' loc' KM' d' SL' LL' w0 p :
  front K loc KM d SL LL B -> world d' SL' LL' -> caches d' K' loc' (SL' 0) -> mids d' KM' ->
  (forall k, ~ own d' SL' LL' loc' KM' w0 p k) ->
  (forall w q k, (w, q) <> (w0, p) -> own d SL LL loc KM w q k <-> own d' SL' LL' loc' KM' w q k) ->
  front K' loc' KM' d' SL' LL' (del_block B w0 p).
Proof.
  intros [_ _ _ Hb] W C M Hn He. constructor; [done|done|done|]. intros w q k. fold (own d' SL' LL' loc' KM' w q k). unfold del_block.
  destruct (decide ((w, q) = (w0, p))) as [[= -> ->]|Hne]; [split; [by intros [_ ?]|intros Hk; by destruct (Hn k)]|].
  rewrite <- (He w q k Hne), Hb. split; [by intros [? _]|done].
Qed.

Lemma front_eq K loc KM d SL LL B K' loc' KM' d' SL' LL' :
  front K loc KM d SL LL B -> world d' SL' LL' -> caches d' K' loc' (SL' 0) -> mids d' KM' ->
  (forall w q k, own d SL LL loc KM w q k <-> own d' SL' LL' loc' KM' w q k) -> front K' loc' KM' d' SL' LL' B.
Proof. intros [_ _ _ Hb] W C M He. constructor; [done|done|done|]. intros w q k. by rewrite Hb, (He w q k). Qed.

(** An object in use of class [c] is a block of that class's size. *)
Lemma slab_block d SL LL a q c : world d SL LL -> arena a -> SL a q -> SlabPoolSpec.of_class (slab_pool_for_arena d a).(SlabPool.pages) c q ->
  block_at d SL LL (InSlab a) q (class_size c).
Proof. intros W Ha Hq Hc. apply (block_slab d SL LL a q _ W). split; [done|]. split; [done|by exists c]. Qed.

Lemma pages_of_pool d : pages_of d = (slab_pool_for_arena d 0).(SlabPool.pages).
Proof. done. Qed.

Lemma tlc_alloc_front e K loc KM d SL LL B c cls a l :
  front K loc KM d SL LL B -> cur_cache d = Some c -> ThreadCacheSpec.slab_class cls -> K (Bin cls) = a :: l ->
  exists d' c', tlc_alloc e d cls = (d', a) /\ a <> NULL /\
    front (putp K (Bin cls) l) (relocate loc [a] None) KM d' SL LL (add_block B (InSlab 0) a (class_size cls)) /\
    contents B d d' /\ cur_cache d' = Some c' /\ d'.(d_use_tlc) = d.(d_use_tlc) /\ (forall k, ~ B (InSlab 0) a k).
Proof.
  intros F Hc Hs Hk. pose proof F as [W C M Hb]. destruct (tlc_alloc_some e d K loc (SL 0) c cls a l C Hc Hs Hk) as (d' & c' & He & Ha & S & C' & Hc').
  exists d', c'. pose proof W as (O & D & Wa). pose proof (w_len _ _ _ _ _ _ _ _ Wa) as Hl.
  assert (Hloc : loc a = Some (Bin cls)) by (apply (ca_loc _ _ _ _ C (Bin cls) a Hs); rewrite Hk; left).
  destruct (ca_held _ _ _ _ C a _ Hloc) as (_ & Hsa & Hca). assert (Hnb : forall k, ~ B (InSlab 0) a k).
  { intros k Hbk. apply Hb in Hbk as [_ [Hm _]]. specialize (Hm eq_refl). congruence. }
  split; [done|]. split; [done|]. split; [|split; [|split; [done|split; [apply S|done]]]].
  - assert (W' : world d' SL LL) by (eapply step_world; [exact S|by intros x ?%not_elem_of_nil|done]).
    apply (front_add K loc KM d SL LL B); [done|done|done|eapply mids_same; [done|apply S|apply S]|done| |].
    + split; [|split; [intros _; unfold relocate; rewrite decide_True; [done|left]|done]]. apply (step_block _ _ _ SL LL _ _ _ S Hl). apply slab_block; [done|by compute|done|exact Hca].
    + intros w q k Hne. unfold own. rewrite (step_block _ _ _ SL LL w q k S Hl). unfold mine, relocate. destruct (decide (q ∈ [a])) as [->%list_elem_of_singleton|]; [|done].
      split; intros [H1 [H2 H3]]; (split; [done|split; [|done]]); intros ->; done.
  - intros w q k b Hq Hr. apply Hb in Hq as [Hq [Hm _]]. assert (Hn : forall x, x ∈ [] -> SL 0 x /\ loc x <> None) by (by intros x ?%not_elem_of_nil).
    by apply (proj2 (keep_cache (fun x => loc x = None) [] d d' SL LL W S Hn w q Hm) k).
Qed.

(** ** The registry *)

Lemma world_ext d d' SL LL : d'.(d_slab) = d.(d_slab) -> d'.(d_slab_lifetime) = d.(d_slab_lifetime) -> d'.(d_buddy) = d.(d_buddy) -> d'.(d_large) = d.(d_large) -> d'.(d_src) = d.(d_src) ->
  world d SL LL -> world d' SL LL /\ (forall w p n, block_at d' SL LL w p n <-> block_at d SL LL w p n) /\ (forall w, mem_of d' w = mem_of d w).
Proof.
  intros E1 E2 E3 E4 E5 (O & D & W). assert (Ep : forall a, slab_pool_for_arena d' a = slab_pool_for_arena d a) by (intros a; unfold slab_pool_for_arena; by rewrite E1, E2).
  split_and!.
  - exists O, D. constructor; rewrite ?E1, ?E2, ?E3, ?E4, ?E5; try apply W. intros a Ha. rewrite Ep. by apply W.
  - intros [a| |] p n; cbn; by rewrite ?Ep, ?E3.
  - intros [a| |]; cbn; by rewrite ?Ep, ?E3, ?E4.
Qed.

Lemma new_cache_bins mm h : ThreadCacheSpec.bins_ok mm (ThreadCache.new_cache h) (fun _ => []) /\ ThreadCacheSpec.caps_ok (ThreadCache.new_cache h).
Proof.
  assert (Hb : forall cls, ThreadCacheSpec.slab_class cls -> ThreadCache.bin_at (ThreadCache.new_cache h) cls = ThreadCache.MkBin NULL 0 ThreadCache.V8M_BIN_CAPACITY_DEFAULT 0 0 0).
  { intros cls Hc. unfold ThreadCacheSpec.slab_class, V8M_MEDIUM_FIRST_CLASS in Hc. unfold ThreadCache.bin_at, ThreadCache.new_cache, ThreadCache.bins. rewrite lookup_replicate_2 by lia. done. }
  split; [constructor|].
  - done.
  - intros cls Hc. by rewrite (Hb cls Hc).
  - intros cls Hc. by rewrite (Hb cls Hc).
  - by intros i j a _ _ _ ?%not_elem_of_nil.
  - intros cls. unfold ThreadCache.bin_at, ThreadCache.new_cache, ThreadCache.bins. destruct (decide (Z.to_nat cls < 32)%nat).
    + rewrite lookup_replicate_2 by done. cbn. unfold ThreadCache.V8M_BIN_CAPACITY_DEFAULT, ThreadCache.V8M_BIN_CAPACITY_MAX. lia.
    + rewrite lookup_ge_None_2 by (rewrite length_replicate; lia). cbn. unfold ThreadCache.V8M_BIN_CAPACITY_MAX. lia.
Qed.

Lemma get_or_create_front e K loc KM d SL LL B : front K loc KM d SL LL B ->
  let '(d', ok) := get_or_create e d in
  front K loc KM d' SL LL B /\ contents B d d' /\ d'.(d_use_tlc) = d.(d_use_tlc) /\ (ok = true -> exists c, cur_cache d' = Some c).
Proof.
  intros F. pose proof F as [W C M Hb]. unfold get_or_create, ThreadRegistry.v8m_thread_cache_get_or_create.
  assert (Hid : set_reg d d.(d_reg) d.(d_tls) = d) by (by destruct d).
  destruct (Z.eqb_spec d.(d_tls).(ThreadRegistry.t_cache) NULL) as [Ht|Ht]; cbn [negb].
  2: { rewrite Hid. split_and!; [done|apply contents_refl|done|]. intros _. unfold cur_cache. rewrite (proj2 (Z.eqb_neq _ _) Ht). by eexists. }
  destruct (_ || _); [rewrite Hid; by split_and!; [|apply contents_refl| |]|]. destruct (Z.eqb_spec e.(de_fresh) NULL) as [Hf|Hf]; [rewrite Hid; by split_and!; [|apply contents_refl| |]|].
  set (g := ThreadRegistry.set_head _ _). set (t := ThreadRegistry.MkTls _ _ _ _). set (d' := set_reg d g t).
  assert (Hn : cur_cache d = None) by (unfold cur_cache; by rewrite Ht, Z.eqb_refl).
  assert (Hc : cur_cache d' = Some (ThreadCache.new_cache d.(d_reg).(ThreadRegistry.g_registry_head))).
  { unfold cur_cache, d', t. cbn. rewrite (proj2 (Z.eqb_neq _ _) Hf). f_equal. apply ThreadRegistry.cache_at_some. cbn. by rewrite lookup_insert_eq. }
  destruct (world_ext d d' SL LL eq_refl eq_refl eq_refl eq_refl eq_refl W) as (W' & Hbl & Hm).
  pose proof (ca_bins _ _ _ _ C) as Cb. unfold bins_held in Cb. rewrite Hn in Cb. pose proof (mi_bins _ _ M) as Mb. rewrite Hn in Mb.
  split_and!; [|by intros w q k b _ _; rewrite Hm|done|intros _; by eexists].
  apply (front_eq K loc KM d SL LL B); [done|done| | |].
  - constructor; try apply C. unfold bins_held. rewrite Hc. destruct (new_cache_bins (words d') d.(d_reg).(ThreadRegistry.g_registry_head)) as [H1 H2].
    split_and!; [|done|done]. eapply ThreadCacheSpec.bins_ok_ext; [|exact H1]. intros i Hi. by apply Cb.
  - constructor; try apply M. rewrite Hc. split; [done|]. intros i Hi. rewrite (Mb i Hi). unfold medium_index in Hi. unfold ThreadCache.medium_at, ThreadCache.new_cache, ThreadCache.mediums.
    rewrite lookup_replicate_2 by lia. cbn. split_and!; [done|done|lia].
  - intros w q k. unfold own. by rewrite Hbl.
Qed.

(** Requests are only counted. *)
Lemma record_front K loc KM d SL LL B cls size : front K loc KM d SL LL B -> front K loc KM (record d cls size) SL LL B /\ contents B d (record d cls size).
Proof.
  intros F. set (d' := record d cls size).
  assert (Hc : option_map ThreadCache.mediums (cur_cache d') = option_map ThreadCache.mediums (cur_cache d) /\ same_cur d d').
  { unfold same_cur, d', record, cur_cache, ThreadRegistry.v8m_thread_cache_record_alloc, ThreadRegistry.usable. cbn.
    destruct (Z.eqb_spec d.(d_tls).(ThreadRegistry.t_cache) NULL) as [|Hn]; cbn; [done|]. destruct (negb (_ =? 0)); [|done].
    rewrite (ThreadRegistry.cache_at_some _ _ (ThreadCache.set_hist (ThreadRegistry.cache_at (d_reg d) (ThreadRegistry.t_cache (d_tls d)))
      (ThreadRegistry.sample_request (ThreadCache.hist (ThreadRegistry.cache_at (d_reg d) (ThreadRegistry.t_cache (d_tls d)))) cls size))); [done|]. cbn. by rewrite lookup_insert_eq. }
  destruct Hc as [Hc Hs]. assert (S : cache_step [] d d').
  { constructor; try done. exists (words d). split; [|done]. unfold words. cbn. by destruct (d_slab d). }
  apply (front_same K loc KM d); [done|done|]. eapply caches_same; [apply F|done|done|done].
Qed.

(** ** New objects of a slab pool *)

Lemma zero_arena : arena 0.
Proof. by compute. Qed.

Lemma set_pool_slab d a st : a <> 0 -> arena a -> (set_pool d a st).(d_slab) = d.(d_slab).
Proof.
  unfold arena, set_pool, V8M_ARENA_DEFAULT, V8M_ARENA_COUNT. intros Hne Ha. rewrite (proj2 (Z.eqb_neq a 0)), (proj2 (Z.leb_gt 4 a)) by lia. done.
Qed.

(** The objects [l] are new in the pool of arena [a]. *)
Definition grown (d : v8m_dispatch) (SL : Z -> Z -> Prop) (a cls : Z) (l : list Z) (st' : SlabPool.slab_pool) (Lv : Z -> Prop) : Prop :=
  (forall q, Lv q <-> q ∈ l \/ SL a q) /\ (forall x, x ∈ l -> ~ SL a x /\ SlabPoolSpec.of_class st'.(SlabPool.pages) cls x) /\
  SlabPoolSpec.kept_but l (lend_slab d.(d_src) (slab_pool_for_arena d a)) st'.

Lemma slab_grows K loc KM d SL LL B a cls l st' Lv :
  front K loc KM d SL LL B -> arena a -> grown d SL a cls l st' Lv -> let d' := set_src (set_pool d a st') st'.(SlabPool.source) in world d' (put SL a Lv) LL ->
  caches d' K loc (put SL a Lv 0) /\ mids d' KM /\ keep (fun w q => w = InSlab a -> q ∉ l) d SL LL d' (put SL a Lv) LL /\ (forall x, x ∈ l -> a = 0 -> loc x = None).
Proof.
  intros [W C M Hb] Ha (HLv & Hl & Hck & Hwk) d' W'. destruct (set_pool_same d a st') as (Eb & El & Et & Ec & Er & Ets & _).
  assert (Hcur : cur_cache d' = cur_cache d) by (unfold cur_cache, d'; cbn; by rewrite Er, Ets).
  assert (Hlo : forall x, x ∈ l -> a = 0 -> loc x = None).
  { intros x Hx ->. destruct (loc x) as [w|] eqn:E; [|done]. destruct (ca_held _ _ _ _ C x w E) as (_ & Hsx & _). by destruct (Hl x Hx). }
  split_and!; [| | |done].
  - apply (caches_frame d d' K loc (SL 0)); [done|by apply same_cur_eq|done| | |].
    + intros x w Hx. destruct (decide (a = 0)) as [->|Hne]; [|unfold words, d'; cbn; by rewrite set_pool_slab].
      destruct (ca_held _ _ _ _ C x w Hx) as (_ & Hsx & _). destruct W as (O & D & Wa). destruct (slab_object _ _ _ _ _ _ _ _ 0 x Wa zero_arena Hsx) as (mt & Hm & _ & Hin & _).
      apply (Hwk (v8m_ptr_to_meta x) x); [by eexists|done|]. intros Hin'. by destruct (Hl x Hin').
    + intros x w _ Hx. unfold put. destruct (Z.eqb_spec 0 a) as [<-|]; [|done]. rewrite HLv. by right.
    + intros x w c _ _ Hc. destruct (decide (a = 0)) as [->|Hne]; [by eapply SlabPoolSpec.of_class_kept|]. unfold pages_of, d'. cbn. by rewrite set_pool_slab.
  - eapply mids_same; [done|done|by rewrite Hcur].
  - apply keep_slab; [done|done|done| | |].
    + intros q Hq. rewrite HLv. specialize (Hq eq_refl). tauto.
    + intros q c _ _ Hc. by eapply SlabPoolSpec.of_class_kept.
    + intros q k b Hq Hbq Hr. pose proof W as (O & D & Wa). pose proof W' as (O' & D' & Wa'). pose proof Hbq as (_ & Hsq & mt & Hmt & Hk).
      destruct (slab_object _ _ _ _ _ _ _ _ a q Wa Ha Hsq) as (mt' & Hm & _ & Hin & Hfit & _). rewrite Hmt in Hm. injection Hm as <-.
      apply (Hwk (v8m_ptr_to_meta q) b); [by eexists|unfold SlabPage.in_page in *; lia|]. intros Hbl.
      assert (Hpool : slab_pool_for_arena d' a = st') by (unfold d'; rewrite (pool_set d a a st' (w_len _ _ _ _ _ _ _ _ Wa) Ha Ha : slab_pool_for_arena (set_src _ _) a = _); by rewrite Z.eqb_refl).
      assert (Hq' : block_at d' (put SL a Lv) LL (InSlab a) q k).
      { apply (block_slab _ _ _ _ _ _ W'). split; [done|]. split; [rewrite put_eq, HLv; by right|]. rewrite Hpool.
        apply (block_slab _ _ _ _ _ _ W) in Hbq as (_ & _ & c & Hc & ->). exists c. split; [by eapply SlabPoolSpec.of_class_kept|done]. }
      assert (Hb' : block_at d' (put SL a Lv) LL (InSlab a) b (class_size cls)).
      { apply slab_block; [done|done|rewrite put_eq, HLv; by left|]. rewrite Hpool. by destruct (Hl b Hbl). }
      assert (Hne : q <> b). { intros ->. by destruct (Hl b Hbl). }
      destruct (block_range _ _ _ _ _ _ _ _ _ _ _ Wa' Hb') as (_ & r & _ & _ & _ & H0 & _).
      destruct (blocks_disjoint _ _ _ _ _ _ _ _ _ _ _ _ _ _ Wa' Hq' Hb' Hne); lia.
Qed.

Lemma grown_contents d SL LL a cls l st' Lv d' SL' LL' loc KM (B : owner -> Z -> Z -> Prop) :
  (forall w p n, B w p n <-> block_at d SL LL w p n /\ mine loc KM w p) -> grown d SL a cls l st' Lv ->
  keep (fun w q => w = InSlab a -> q ∉ l) d SL LL d' SL' LL' -> contents B d d'.
Proof.
  intros Hb (_ & Hl & _) Kp w q k b Hq Hr. apply Hb in Hq as [Hq _].
  apply (proj2 (Kp w q ltac:(intros ->; intros Hx; destruct Hq as (_ & Hsq & _); by destruct (Hl q Hx))) k); done.
Qed.

Section Alloc.
Context (cpu_of : src -> Z).

(** New objects come into the hands. *)
Lemma slab_batch_front e K loc KM d SL LL B cls n :
  front K loc KM d SL LL B -> ThreadCacheSpec.slab_class cls -> 0 <= n -> (0 < e.(de_fuel))%nat -> K (Hand cls) = [] ->
  exists d' l h t SL', run_slab d V8M_ARENA_DEFAULT (fun st =>
      match SlabPool.v8m_slab_pool_alloc_batch cpu_of e.(de_fuel) st cls 0 V8M_ARENA_DEFAULT n with None => None | Some (st, head, tail, got) => Some (st, (got, head, tail)) end)
      = Some (d', (Z.of_nat (length l), h, t)) /\
    front (putp K (Hand cls) l) (relocate loc l (Some (Hand cls))) KM d' SL' LL B /\ contents B d d' /\ chain (words d') h l /\ t = default NULL (last l) /\
    Z.of_nat (length l) <= n /\ cur_cache d' = cur_cache d.
Proof.
  intros F Hs Hn Hf Hh. pose proof F as [W C M Hb].
  edestruct (run_slab_ok ext extd m d SL LL 0 (fun st =>
      match SlabPool.v8m_slab_pool_alloc_batch cpu_of e.(de_fuel) st cls 0 V8M_ARENA_DEFAULT n with None => None | Some (st, head, tail, got) => Some (st, (got, head, tail)) end)
    (fun st' r Lv => exists l, grown d SL 0 cls l st' Lv /\ NoDup l /\ chain st'.(SlabPool.smem) r.1.2 l /\ r.2 = default NULL (last l) /\ r.1.1 = Z.of_nat (length l) /\ r.1.1 <= n) W zero_arena)
    as (st' & [[got h] t] & Lv & He & W' & l & Hgr & Nd & Hch & Ht & Hg & Hgn).
  { intros oth od st P. destruct (SlabPoolSpec.alloc_batch_ok oth od nobody 0 cpu_of e.(de_fuel) st (SL 0) cls 0 n P Hs Hn Hf)
      as (st' & l & h & t & got & He & P' & Hl & Nd & Hk & Hch & Ht & Hg & Hgn & _).
    exists st', (got, h, t), (fun q => q ∈ l \/ SL 0 q). change V8M_ARENA_DEFAULT with 0. rewrite He. split; [done|]. split; [done|]. exists l. by split_and!. }
  cbn [fst snd] in *. subst got. eexists _, l, h, t, (put SL 0 Lv). split; [exact He|]. set (d' := set_src _ _) in *.
  destruct (slab_grows _ _ _ _ _ _ _ _ _ _ _ _ F zero_arena Hgr W') as (C1 & M1 & Kp & Hlo0). fold d' in C1, M1, Kp.
  assert (Hlo : forall x, x ∈ l -> loc x = None) by auto. pose proof Hgr as (HLv & Hl & _).
  destruct (loc_in d' K loc _ (Hand cls) l C1 Hs Nd Hlo) as [HL HN]. rewrite Hh, app_nil_r in HL, HN.
  assert (C' : caches d' (putp K (Hand cls) l) (relocate loc l (Some (Hand cls))) (put SL 0 Lv 0)).
  { apply (caches_move d' d' K _ loc _ l (Some (Hand cls))); [done|by eapply cache_step_mono; [|apply cache_step_refl]; set_solver| |done|done| | |].
    - split; [done|]. intros x Hx. rewrite put_eq, HLv. split; [by left|]. by destruct (Hl x Hx).
    - intros i Hi. rewrite putp_ne by done. by apply (ca_short _ _ _ _ C1).
    - apply (bins_held_ext _ K); [intros i _; by rewrite putp_ne by done|apply C1].
    - intros cpu i Hi. rewrite putp_ne by done. by apply (ca_stacks _ _ _ _ C1). }
  split; [|split; [by eapply grown_contents|by split_and!]].
  apply (front_eq K loc KM d SL LL B); [done|done|done|done|]. intros w q k. unfold own, mine, relocate.
  destruct (decide (w = InSlab 0)) as [->|Hw].
  + destruct (decide (q ∈ l)) as [Hq|Hq].
    * split; [intros [(_ & Hsq & _) _]; by destruct (Hl q Hq)|intros [_ [Hx _]]; by specialize (Hx eq_refl)].
    * by rewrite (proj1 (Kp (InSlab 0) q (fun _ => Hq)) k).
  + rewrite (proj1 (Kp w q (fun E => False_ind _ (Hw E))) k). split; intros [H1 [H2 H3]]; (split; [done|split; [done|done]]).
Qed.

(** One new object for the program. *)
Lemma slab_alloc_front e K loc KM d SL LL B a cls :
  front K loc KM d SL LL B -> arena a -> ThreadCacheSpec.slab_class cls -> (0 < e.(de_fuel))%nat ->
  exists d' p SL', slab_alloc cpu_of e d a cls = Some (d', p) /\ contents B d d' /\
    ((p = NULL /\ front K loc KM d' SL' LL B) \/
     (p <> NULL /\ (forall k, ~ B (InSlab a) p k) /\ front K loc KM d' SL' LL (add_block B (InSlab a) p (class_size cls)))).
Proof.
  intros F Ha Hs Hf. pose proof F as [W C M Hb].
  edestruct (run_slab_ok ext extd m d SL LL a (fun st => SlabPool.v8m_slab_pool_alloc_arena cpu_of e.(de_fuel) st cls 0 a)
    (fun st' p Lv => grown d SL a cls (if p =? NULL then [] else [p]) st' Lv) W Ha) as (st' & p & Lv & He & W' & Hgr).
  { intros oth od st P. destruct (SlabPoolSpec.alloc_arena_ok oth od nobody a cpu_of e.(de_fuel) st (SL a) cls 0 P ltac:(apply Hs) Hf) as (st' & p & He & _ & Hr). exists st', p.
    destruct Hr as [(-> & P' & [Hk1 Hk2] & _)|(Hp & Hn & P' & (pg & mt & Hm & Hcl & Hin & _) & [Hk1 Hk2])].
    - exists (SL a). split; [done|]. split; [done|]. split; [intros q; cbn; rewrite elem_of_nil; tauto|]. split; [by intros x ?%not_elem_of_nil|]. split; [done|]. intros; by eapply Hk2.
    - exists (fun q => q = p \/ SL a q). split; [done|]. split; [done|]. rewrite (proj2 (Z.eqb_neq _ _) Hp). split; [intros q; by rewrite list_elem_of_singleton|].
      split; [intros x ->%list_elem_of_singleton; split; [done|by exists pg, mt]|]. split; [done|]. intros; by eapply Hk2. }
  eexists _, p, (put SL a Lv). split; [exact He|]. set (d' := set_src _ _) in *. destruct (slab_grows _ _ _ _ _ _ _ _ _ _ _ _ F Ha Hgr W') as (C1 & M1 & Kp & Hlo). fold d' in C1, M1, Kp.
  split; [by eapply grown_contents|]. pose proof Hgr as (HLv & Hl & _). destruct (Z.eqb_spec p NULL) as [->|Hp].
  - left. split; [done|]. apply (front_eq K loc KM d SL LL B); [done|done|done|done|]. intros w q k. unfold own. by rewrite (proj1 (Kp w q ltac:(by intros _ ?%not_elem_of_nil)) k).
  - right. destruct (Hl p ltac:(left)) as [Hnew Hcl]. split; [done|]. split; [intros k Hk; apply Hb in Hk as [(_ & ? & _) _]; done|].
    apply (front_add K loc KM d SL LL B); [done|done|done|done| | |].
    + intros k Hk. apply Hb in Hk as [(_ & ? & _) _]. done.
    + split; [|split; [intros [= ->]; apply Hlo; [left|done]|done]]. apply slab_block; [done|done|rewrite put_eq, HLv; left; left|].
      pose proof W as (O & D & Wa). change (slab_pool_for_arena d' a) with (slab_pool_for_arena (set_pool d a st') a). by rewrite (pool_set d a a st' (w_len _ _ _ _ _ _ _ _ Wa) Ha Ha), Z.eqb_refl.
    + intros w q k Hne. unfold own. rewrite (proj1 (Kp w q ltac:(intros -> ->%list_elem_of_singleton; done)) k). done.
Qed.

End Alloc.

End Step.
End DispatchStep.
