(* ===== verification/DispatchAlloc.v ===== *)
(** Allocation through the dispatcher ([Dispatch]): every path of
    [v8m_dispatch_alloc] and [v8m_dispatch_alloc_aligned].

    [dispatch_ok d B] is the invariant: the pools, the caches in front of them and
    the blocks [B] of the program.  [gives] is what an allocation promises. *)

From S2P Require Import Prelude SizeClass Page Config RemoteFree Buddy BuddyTree CoreCache Refill PageSource SlabPage SlabPool SlabPoolSpec BuddyInv BuddyPool BuddyPoolSpec Large LargeSpec ThreadCache ThreadCacheSpec ThreadRegistry Lifetime Dispatch DispatchInv DispatchCache DispatchStep.
Import SizeClass Page PageSource Dispatch DispatchInv DispatchCache DispatchStep.

Module DispatchAlloc.

Section Alloc.
Context `{PSL : PageSourceLaws} (ext extd : list (Z * Z)) (m : bool) (cpu_of : src -> Z).
Notation front := (front ext extd m).

(** ** The invariant *)

(** Between calls nothing is in the dispatcher's hands. *)
Definition hands (K : store) : Prop := forall cls, ThreadCacheSpec.slab_class cls -> K (Hand cls) = [].

Definition dispatch_ok (d : v8m_dispatch) (B : owner -> Z -> Z -> Prop) : Prop :=
  exists K loc KM SL LL, front K loc KM d SL LL B /\ tight K /\ hands K.

(** The [n] bytes at [p] overlap no block. *)
Definition free_of (B : owner -> Z -> Z -> Prop) (p n : Z) : Prop := forall w q k, B w q k -> p + n <= q \/ q + k <= p.

(** The blocks of the program keep their contents; the result is [NULL], or a new
    block of at least [size] bytes, at a multiple of [al], that overlaps none of
    them. *)
Definition gives (d : v8m_dispatch) (B : owner -> Z -> Z -> Prop) (size al : Z) (r : option (v8m_dispatch * Z)) : Prop :=
  exists d' p, r = Some (d', p) /\ contents B d d' /\
    ((p = NULL /\ dispatch_ok d' B) \/ (p <> NULL /\ exists w n, size <= n /\ (al | p) /\ free_of B p n /\ dispatch_ok d' (add_block B w p n))).

Lemma gives_after d d1 B size al r : contents B d d1 -> gives d1 B size al r -> gives d B size al r.
Proof. intros H1 (d' & p & -> & H2 & Hp). exists d', p. split; [done|]. split; [by eapply contents_trans|done]. Qed.

Lemma gives_null d d' B size al : contents B d d' -> dispatch_ok d' B -> gives d B size al (Some (d', NULL)).
Proof. intros Hc Ho. exists d', NULL. split; [done|]. split; [done|]. by left. Qed.

Lemma blocks_apart d B w p n w' q k : dispatch_ok d B -> B w p n -> B w' q k -> (p <> q -> p + n <= q \/ q + k <= p) /\ (p = q -> w = w' /\ n = k).
Proof.
  intros (K & loc & KM & SL & LL & [(O & D & W) _ _ Hb] & _) [Hp _]%Hb [Hq _]%Hb. split.
  - by eapply blocks_disjoint.
  - intros <-. by eapply block_unique.
Qed.

Lemma gives_block d d' B size al w p n : p <> NULL -> size <= n -> (forall k, ~ B w p k) -> (al | p) -> contents B d d' -> dispatch_ok d' (add_block B w p n) ->
  gives d B size al (Some (d', p)).
Proof.
  intros Hp Hn Hf Hal Hc Ho. exists d', p. split; [done|]. split; [done|]. right. split; [done|]. exists w, n. split_and!; [done|done| |done].
  intros w' q k Hq. destruct (blocks_apart d' (add_block B w p n) w p n w' q k Ho ltac:(by right) ltac:(by left)) as [H1 H2].
  apply H1. intros <-. destruct (H2 eq_refl) as [<- _]. by apply (Hf k).
Qed.

(** Alignment of slab objects and buddy blocks. *)
Lemma slab_block_aligned d B a p n al : dispatch_ok d B -> B (InSlab a) p n -> (al | n) -> (al | V8M_SLAB_HEADER_SIZE) -> (al | p).
Proof.
  intros (K & loc & KM & SL & LL & [(O & D & W) _ _ Hb] & _) [(Ha & Hp & mt & Hm & ->) _]%Hb Hn Hh.
  destruct (slab_object _ _ _ _ _ _ _ _ a p W Ha Hp) as (mt' & Hm' & Hbs & Hin & _ & _ & _ & _ & _ & Hok). rewrite Hm in Hm'. injection Hm' as <-.
  by apply (SlabPage.slab_aligned _ _ _ _ _ Hbs Hok p al).
Qed.

(** The sizes of buddy blocks are the powers of two from 4 KiB to 256 KiB. *)
Lemma buddy_block_shape d B p n : dispatch_ok d B -> B InBuddy p n -> (n | p) /\ exists l, 0 <= l <= 6 /\ n = 2 ^ (12 + l).
Proof.
  intros (K & loc & KM & SL & LL & [(O & D & W) _ _ Hb] & _) [(i & ar & Hi & Hu & l & y & Hal & -> & ->) _]%Hb.
  pose proof (BuddyPoolSpec.bo_geometry _ _ _ _ _ _ (world_buddy _ _ _ _ _ _ _ _ W) Hi Hu) as Hg. pose proof Hal as [[Hl _] _].
  change BuddyTree.TOP with 6 in Hl. rewrite BuddyInv.level_to_size_eq by (change BuddyTree.TOP with 6; lia). split; [by apply BuddyInv.addr_divide|by exists l].
Qed.
Lemma pow2_16 l : 0 <= l -> (16 | 2 ^ (12 + l)).
Proof. intros Hl. exists (2 ^ (8 + l)). change 16 with (2 ^ 4). rewrite <- Z.pow_add_r by lia. f_equal. lia. Qed.
Lemma block_size_16 size : 0 < size <= Buddy.V8M_BUDDY_MAX_BLOCK -> (16 | Buddy.level_to_size (Buddy.size_to_level size)).
Proof.
  intros Hs. destruct (BuddyPoolSpec.fit_size size Hs) as [_ Hl]. rewrite BuddyInv.level_to_size_eq by exact Hl. apply pow2_16. apply Hl.
Qed.

(** What a request of [size] bytes is aligned to, whichever pool serves it: 16, but 8
    when it is served by a slab class whose size is no multiple of 16. *)
Definition natural_align (size : Z) : Z := if (size <=? V8M_SMALL_MAX_SIZE) && negb (class_size (v8m_size_class size) mod 16 =? 0) then 8 else 16.

Lemma table_check (f : Z -> bool) lo hi : forallb f (seqZ lo (hi - lo)) = true -> forall c, lo <= c < hi -> f c = true.
Proof. rewrite forallb_forall. intros Hall c Hc. apply Hall, list_elem_of_In, elem_of_seqZ. lia. Qed.
Lemma class_size_8 c : 0 <= c < V8M_MEDIUM_FIRST_CLASS -> (8 | class_size c).
Proof. intros Hc. apply Z.mod_divide; [done|]. apply Z.eqb_eq. by apply (table_check (fun c => class_size c mod 8 =? 0) 0 V8M_MEDIUM_FIRST_CLASS). Qed.
Lemma class_size_mod16 c : 7 <= c < 38 -> class_size c mod 16 = 0.
Proof. intros Hc. apply Z.eqb_eq. by apply (table_check (fun c => class_size c mod 16 =? 0) 7 38). Qed.
Lemma natural_16 size : (natural_align size | 16) /\ (8 | natural_align size).
Proof. unfold natural_align. destruct (_ && _); split; [by exists 2|by exists 1|by exists 1|by exists 2]. Qed.
Lemma natural_class size : 0 < size <= V8M_SMALL_MAX_SIZE -> (natural_align size | class_size (v8m_size_class size)).
Proof.
  intros Hs. destruct (size_class_slab size Hs) as [Hc _]. unfold natural_align. rewrite (proj2 (Z.leb_le _ _)) by lia. cbn [andb].
  destruct (Z.eqb_spec (class_size (v8m_size_class size) mod 16) 0); [by apply Z.mod_divide|by apply class_size_8].
Qed.

(** The requests whose class is no multiple of 16: those of the classes 8, 24, 40 and
    56. *)
Lemma natural_align_8 size : 0 < size < 2 ^ 64 ->
  natural_align size = if (size <=? 8) || ((16 <? size) && (size <=? 24)) || ((32 <? size) && (size <=? 40)) || ((48 <? size) && (size <=? 56)) then 8 else 16.
Proof.
  intros Hs. destruct (Z.le_gt_cases size 64) as [Hle|Hgt].
  - apply Z.eqb_eq. by apply (table_check (fun size => natural_align size =? if (size <=? 8) || ((16 <? size) && (size <=? 24)) || ((32 <? size) && (size <=? 40)) || ((48 <? size) && (size <=? 56)) then 8 else 16) 1 65); [|lia].
  - rewrite (proj2 (Z.leb_gt size 8)), (proj2 (Z.leb_gt size 24)), (proj2 (Z.leb_gt size 40)), (proj2 (Z.leb_gt size 56)), !andb_false_r by lia. cbn [orb].
    unfold natural_align. destruct (Z.leb_spec size V8M_SMALL_MAX_SIZE) as [Hsm|]; [|done]. destruct (size_class_slab size ltac:(lia)) as [Hc Hle]. change V8M_MEDIUM_FIRST_CLASS with 32 in Hc.
    rewrite class_size_mod16; [done|]. destruct (Z.le_gt_cases 7 (v8m_size_class size)) as [H7|H7]; [lia|].
    pose proof (table_check (fun c => class_size c <=? 64) 0 7 eq_refl (v8m_size_class size) ltac:(lia)) as H64. cbn beta in H64. lia.
Qed.

(** ** Quiet steps: counters, settings, the registry's books *)

Record quiet (d d' : v8m_dispatch) : Prop := {
  qu_slab : d'.(d_slab) = d.(d_slab);
  qu_lifetime : d'.(d_slab_lifetime) = d.(d_slab_lifetime);
  qu_buddy : d'.(d_buddy) = d.(d_buddy);
  qu_large : d'.(d_large) = d.(d_large);
  qu_cores : d'.(d_cores) = d.(d_cores);
  qu_tlc : d'.(d_use_tlc) = d.(d_use_tlc);
  qu_src : d'.(d_src) = d.(d_src);
  qu_cur : same_cur d d';
  qu_mediums : option_map ThreadCache.mediums (cur_cache d') = option_map ThreadCache.mediums (cur_cache d)
}.

Lemma quiet_step d d' : quiet d d' -> cache_step [] d d'.
Proof. intros [E1 ? ? ? ? ? ? ? ?]. constructor; try done. exists (words d). split; [|done]. rewrite E1. unfold words. by destruct (d_slab d). Qed.

Lemma front_quiet K loc KM d d' SL LL B : front K loc KM d SL LL B -> quiet d d' -> front K loc KM d' SL LL B /\ contents B d d'.
Proof.
  intros F Q. pose proof (quiet_step _ _ Q) as S. apply front_same; [done|done|]. eapply caches_same; [apply F|done|apply Q|apply Q].
Qed.

Lemma ok_quiet d d' B : dispatch_ok d B -> quiet d d' -> dispatch_ok d' B /\ contents B d d'.
Proof.
  intros (K & loc & KM & SL & LL & F & Ht & Hh) Q. destruct (front_quiet _ _ _ _ _ _ _ _ F Q). split; [|done]. by exists K, loc, KM, SL, LL.
Qed.

Lemma quiet_cur d d' : d'.(d_slab) = d.(d_slab) -> d'.(d_slab_lifetime) = d.(d_slab_lifetime) -> d'.(d_buddy) = d.(d_buddy) -> d'.(d_large) = d.(d_large) ->
  d'.(d_cores) = d.(d_cores) -> d'.(d_use_tlc) = d.(d_use_tlc) -> d'.(d_src) = d.(d_src) -> cur_cache d' = cur_cache d -> quiet d d'.
Proof. intros. constructor; try done; [|congruence]. unfold same_cur. replace (cur_cache d') with (cur_cache d) by done. by destruct (cur_cache d). Qed.

Lemma record_ok d B cls size : dispatch_ok d B -> dispatch_ok (record d cls size) B /\ contents B d (record d cls size).
Proof. intros (K & loc & KM & SL & LL & F & Ht & Hh). destruct (record_front _ _ _ _ _ _ _ _ _ _ cls size F). split; [|done]. by exists K, loc, KM, SL, LL. Qed.

Lemma compute_batch_quiet e d cls : let '(d', n) := compute_batch e d cls in quiet d d' /\ cur_cache d' = cur_cache d /\ 8 <= n <= 64.
Proof.
  unfold compute_batch. destruct (Refill.v8m_refill_controller_compute_batch _ _ _ _ _) as [r n] eqn:E. split; [by apply quiet_cur|]. split; [done|].
  unfold Refill.v8m_refill_controller_compute_batch, Refill.V8M_REFILL_BATCH_MIN, Refill.V8M_REFILL_BATCH_MAX in E.
  destruct (_ <=? cls); [injection E as <- <-; lia|]. destruct (if 0 <? _ then _ else _) as [c0 b0]. injection E as <- <-.
  destruct (Z.ltb_spec b0 8); [cbn; lia|]. destruct (Z.ltb_spec 64 b0); lia.
Qed.

Lemma arena_for_caller_quiet e d pc : let '(d', a) := arena_for_caller e d pc in quiet d d' /\ arena a.
Proof.
  unfold arena_for_caller. destruct (_ || _); [split; [by apply quiet_cur|by compute]|].
  destruct (Lifetime.v8m_thread_cache_lifetime_classify _ _ _ _) as [g cls] eqn:E. split; [|by destruct cls; compute]. apply quiet_cur; try done.
  unfold cur_cache. cbn. destruct (_ =? NULL); [done|]. f_equal. unfold ThreadRegistry.cache_at. f_equal.
  assert (Hg : g.(ThreadRegistry.caches) = d.(d_reg).(ThreadRegistry.caches)); [|by rewrite Hg].
  unfold Lifetime.v8m_thread_cache_lifetime_classify in E. destruct (negb _); [by injection E as <- <-|].
  destruct (Lifetime.classify_probe _ _ _); [|by injection E as <- <-]. injection E as <- <-. unfold Lifetime.ensure_lifetime_thresholds. by destruct (negb _).
Qed.

(** ** Refilling an empty bin *)

(** The objects [l] of class [cls] came into the hands; the bins are as before. *)
Definition handed (cls : Z) (l : list Z) (K K' : store) : Prop :=
  K' (Hand cls) = l /\ (forall i, K' (Bin i) = K (Bin i)) /\ (forall i, i <> cls -> K' (Hand i) = K (Hand i)).

(** What a source of objects does. *)
Definition fetched (K : store) (KM : Z -> list Z) (d d' : v8m_dispatch) (LL : list (Z * Z)) (B : owner -> Z -> Z -> Prop) (cls n : Z) (l : list Z) (h t : Z) : Prop :=
  (exists K' loc' SL', front K' loc' KM d' SL' LL B /\ handed cls l K K') /\ contents B d d' /\ chain (words d') h l /\ t = default NULL (last l) /\
  Z.of_nat (length l) <= n /\ cur_cache d' = cur_cache d.

Lemma handed_nil cls K : K (Hand cls) = [] -> handed cls [] K K.
Proof. by intros. Qed.

Lemma fetched_nil K loc KM d SL LL B cls n : front K loc KM d SL LL B -> 0 <= n -> K (Hand cls) = [] -> fetched K KM d d LL B cls n [] NULL NULL.
Proof. intros F Hn Hh. split; [exists K, loc, SL; split; [done|by apply handed_nil]|]. by split_and!; [apply contents_refl|..]. Qed.

Lemma pop_fetches K loc KM d SL LL B cache cls n :
  front K loc KM d SL LL B -> ThreadCacheSpec.slab_class cls -> 0 <= n -> K (Hand cls) = [] ->
  exists g mm l h t, CoreCache.v8m_core_cache_pop_batch d.(d_cores) (words d) cache cls n = (g, mm, Z.of_nat (length l), h, t) /\
    fetched K KM d (set_cores (set_words d mm) g) LL B cls n l h t.
Proof.
  intros F Hs Hn Hh. destruct cache as [cpu|].
  - destruct (pop_batch_spec d K loc (SL 0) cpu cls n (fr_caches _ _ _ _ _ _ _ _ _ _ F) Hs Hn Hh) as (g & mm & h & t & He & S & C' & Hch & Ht & Hc).
    set (taken := take _ _) in *. exists g, mm, taken, h, t. split; [done|].
    assert (Hin : forall x, x ∈ taken -> is_Some (loc x)).
    { intros x Hx. exists (Stack cpu cls). apply (ca_loc _ _ _ _ (fr_caches _ _ _ _ _ _ _ _ _ _ F) (Stack cpu cls) x Hs).
      by apply elem_of_take in Hx as (i & Hi%list_elem_of_lookup_2 & _). }
    destruct (front_cache _ _ _ K _ loc KM d _ SL LL B taken (Hand cls) F S Hin C') as [F' Hct].
    split; [|split_and!; [done|done|done| |done]].
    + eexists _, _, _. split; [exact F'|]. split; [by rewrite putp_eq|]. split; intros i; [by rewrite !putp_ne by done|]. intros Hi. by rewrite !putp_ne by congruence.
    + unfold taken. rewrite length_take. lia.
  - eexists _, _, [], NULL, NULL. split; [done|]. rewrite set_words_id. replace (set_cores d d.(d_cores)) with d by (by destruct d). by eapply fetched_nil.
Qed.

Lemma steal_fetches K loc KM d SL LL B cls exclude n :
  front K loc KM d SL LL B -> ThreadCacheSpec.slab_class cls -> 0 <= n -> K (Hand cls) = [] ->
  exists g mm l h t, CoreCache.v8m_core_cache_steal_batch d.(d_cores) (words d) cls exclude n = (g, mm, Z.of_nat (length l), h, t) /\
    fetched K KM d (set_cores (set_words d mm) g) LL B cls n l h t.
Proof.
  intros F Hs Hn Hh. destruct (steal_cases d.(d_cores) (words d) cls exclude n) as [->|[cpu ->]]; [|by eapply pop_fetches].
  eexists _, _, [], NULL, NULL. split; [done|]. rewrite set_words_id. replace (set_cores d d.(d_cores)) with d by (by destruct d). by eapply fetched_nil.
Qed.

Lemma fetched_from K K1 KM d d1 d' LL B cls n l h t : handed cls [] K K1 -> contents B d d1 -> cur_cache d1 = cur_cache d ->
  fetched K1 KM d1 d' LL B cls n l h t -> fetched K KM d d' LL B cls n l h t.
Proof.
  intros (Hh & Hb & Ho) Hc Hcur ((K2 & loc2 & SL2 & F2 & Hh2 & Hb2 & Ho2) & Hc2 & H3 & H4 & H5 & H6).
  split; [|split_and!; [by eapply contents_trans|done|done|done|congruence]]. exists K2, loc2, SL2. split; [done|]. split; [done|]. split; [intros i; by rewrite Hb2|].
  intros i Hi. rewrite Ho2 by done. by apply Ho.
Qed.

Lemma refill_chain_fetches e K loc KM d SL LL B cls n :
  front K loc KM d SL LL B -> ThreadCacheSpec.slab_class cls -> 0 <= n -> (0 < e.(de_fuel))%nat -> K (Hand cls) = [] ->
  exists d' l h t, refill_chain cpu_of e d cls n = Some (d', (Z.of_nat (length l), h, t)) /\ fetched K KM d d' LL B cls n l h t.
Proof.
  intros F Hs Hn Hf Hh. unfold refill_chain.
  destruct (pop_fetches K loc KM d SL LL B (CoreCache.v8m_core_cache_for_current_cpu e.(de_cpu)) cls n F Hs Hn Hh) as (g & mm & l & h & t & -> & Hfe).
  set (d1 := set_cores (set_words d mm) g) in *. destruct l as [|x l]; [|by eexists _, (x :: l), h, t]. cbn [length Z.of_nat Z.eqb negb].
  destruct Hfe as ((K1 & loc1 & SL1 & F1 & Hd1) & Hc1 & _ & _ & _ & Hcur1).
  destruct (steal_fetches K1 loc1 KM d1 SL1 LL B cls e.(de_cpu) n F1 Hs Hn (proj1 Hd1)) as (g2 & mm2 & l & h2 & t2 & -> & Hfe2).
  set (d2 := set_cores (set_words d1 mm2) g2) in *.
  destruct l as [|x l]; [|eexists _, (x :: l), h2, t2; split; [done|by eapply fetched_from]]. cbn [length Z.of_nat Z.eqb negb].
  apply (fetched_from K K1 KM d d1) in Hfe2; [|done..]. destruct Hfe2 as ((K2 & loc2 & SL2 & F2 & Hd2) & Hc2 & _ & _ & _ & Hcur2).
  destruct (slab_batch_front _ _ _ cpu_of e K2 loc2 KM d2 SL2 LL B cls n F2 Hs Hn Hf (proj1 Hd2)) as (d3 & l & h3 & t3 & SL3 & He & F3 & Hc3 & Hch & Ht & Hl & Hcur3).
  exists d3, l, h3, t3. split; [done|]. apply (fetched_from K K2 KM d d2); [done|done|done|]. split; [|by split_and!].
  eexists _, _, _. split; [exact F3|]. split; [by rewrite putp_eq|]. split; intros i; [by rewrite putp_ne by done|]. intros Hi. by rewrite putp_ne by congruence.
Qed.


(** ** The thread cache's fast paths *)

Lemma slab_hand_other cls (K K' : store) : handed cls [] K K' -> hands K -> hands K'.
Proof. intros (H1 & _ & H3) Hh i Hi. destruct (decide (i = cls)) as [->|Hne]; [done|]. rewrite H3 by done. by apply Hh. Qed.

Lemma tlc_alloc_gives e K loc KM d SL LL B c cls a l al : (al | class_size cls) -> (al | V8M_SLAB_HEADER_SIZE) ->
  front K loc KM d SL LL B -> tight K -> hands K -> cur_cache d = Some c -> ThreadCacheSpec.slab_class cls -> K (Bin cls) = a :: l ->
  gives d B (class_size cls) al (Some (tlc_alloc e d cls)) /\ (tlc_alloc e d cls).2 = a /\ a <> NULL.
Proof.
  intros Hal1 Hal2 F Ht Hh Hc Hs Hk. destruct (tlc_alloc_front _ _ _ e K loc KM d SL LL B c cls a l F Hc Hs Hk) as (d' & c' & -> & Ha & F' & Hct & _ & _ & Hn).
  split; [|done]. assert (Ho : dispatch_ok d' (add_block B (InSlab 0) a (class_size cls))).
  { eexists _, _, _, _, _. split; [exact F'|]. split.
    - intros i Hi. unfold putp. destruct (decide _); [|by apply Ht]. specialize (Ht cls Hs). rewrite Hk in Ht. cbn in Ht. lia.
    - intros i Hi. rewrite putp_ne by done. by apply Hh. }
  eapply gives_block; [done|done|exact Hn| |done|done]. eapply slab_block_aligned; [exact Ho|by right|done|done].
Qed.

Lemma drain_remote_quiet e d K loc SL0 c : caches d K loc SL0 -> cur_cache d = Some c ->
  exists c', ThreadCache.v8m_thread_cache_drain_remote e.(de_fuel) e.(de_tick) (meta_of d) (words d) (cur_cache d) = Some (words d, Some c', 0) /\
    let d' := set_cur (set_words d (words d)) (Some c') in quiet d d' /\ cur_cache d' = Some c'.
Proof.
  intros C Hc. pose proof (ca_bins _ _ _ _ C) as Bh. unfold bins_held in Bh. rewrite Hc in *. destruct Bh as (_ & _ & Hr).
  exists (ThreadCache.set_remote c NULL). split; [unfold ThreadCache.v8m_thread_cache_drain_remote, RemoteFree.v8m_mpsc_drain; rewrite Hr; by destruct (de_fuel e)|].
  cbn zeta. rewrite set_words_id. pose proof (cur_set d c (ThreadCache.set_remote c NULL) Hc) as Hc'. split; [|done].
  constructor; try done; [|by rewrite Hc', Hc]. unfold same_cur. rewrite Hc, Hc'. by split.
Qed.

Lemma install_gives e K loc KM d SL LL B c cls l h t al : (al | class_size cls) -> (al | V8M_SLAB_HEADER_SIZE) ->
  front K loc KM d SL LL B -> tight K -> (forall i, ThreadCacheSpec.slab_class i -> i <> cls -> K (Hand i) = []) -> cur_cache d = Some c -> ThreadCacheSpec.slab_class cls ->
  K (Bin cls) = [] -> K (Hand cls) = l -> l <> [] -> (length l <= 512)%nat -> chain (words d) h l -> t = default NULL (last l) ->
  exists mm c', ThreadCache.v8m_thread_cache_install_chain (words d) (cur_cache d) cls h t (Z.of_nat (length l)) = (mm, c') /\
    gives d B (class_size cls) al (Some (tlc_alloc e (set_cur (set_words d mm) c') cls)).
Proof.
  intros Hal1 Hal2 F Ht Hh Hc Hs Hb Hl Hne Hlen Hch Htl. pose proof (fr_caches _ _ _ _ _ _ _ _ _ _ F) as C.
  destruct (install_chain_spec d K loc (SL 0) c cls l h t C Hc Hs Hb Hl Hne Hlen Hch Htl) as (mm & c' & He & S & C' & Hc'). exists mm, (Some c'). split; [done|].
  assert (Hin : forall x, x ∈ l -> is_Some (loc x)) by (intros x Hx; eexists; eapply hand_of; [exact C|exact Hs|by rewrite Hl]).
  destruct (front_cache _ _ _ K _ loc KM d _ SL LL B l (Bin cls) F S Hin C') as [F' Hct]. eapply gives_after; [exact Hct|].
  destruct l as [|a l]; [done|]. eapply tlc_alloc_gives; [done|done|exact F'| | |exact Hc'|exact Hs|by rewrite putp_eq].
  - intros i Hi. unfold putp. destruct (decide _); [done|]. rewrite decide_False by done. by apply Ht.
  - intros i Hi. rewrite putp_ne by done. unfold putp. destruct (decide _); [done|]. apply Hh; [done|congruence].
Qed.

Lemma try_tlc_gives e d B cls al : (al | class_size cls) -> (al | V8M_SLAB_HEADER_SIZE) -> dispatch_ok d B -> ThreadCacheSpec.slab_class cls -> (0 < e.(de_fuel))%nat ->
  gives d B (class_size cls) al (try_tlc_fast_paths cpu_of e d cls).
Proof.
  intros Hal1 Hal2 (K & loc & KM & SL & LL & F & Ht & Hh) Hs Hf. unfold try_tlc_fast_paths.
  pose proof (get_or_create_front _ _ _ e K loc KM d SL LL B F) as Hg. destruct (get_or_create e d) as [d1 ok]. destruct Hg as (F1 & Hc1 & _ & Hok).
  eapply gives_after; [exact Hc1|]. destruct ok; cbn [negb]; [|apply gives_null; [apply contents_refl|by exists K, loc, KM, SL, LL]]. destruct (Hok eq_refl) as [c Hc]. clear Hok Hc1 F d.
  destruct (K (Bin cls)) as [|a l] eqn:Hk.
  2: { destruct (tlc_alloc_gives e K loc KM d1 SL LL B c cls a l al Hal1 Hal2 F1 Ht Hh Hc Hs Hk) as (Hg & E & Ha). destruct (tlc_alloc e d1 cls) as [d2 a']. cbn in E. subst a'.
       by rewrite (proj2 (Z.eqb_neq _ _) Ha). }
  destruct (tlc_alloc_none e d1 K loc (SL 0) c cls (fr_caches _ _ _ _ _ _ _ _ _ _ F1) Hc Hs Hk) as (d2 & -> & S2 & C2 & Hc2). cbn [Z.eqb NULL negb].
  destruct (front_same _ _ _ K loc KM d1 d2 SL LL B F1 S2 C2) as [F2 Hct2]. eapply gives_after; [exact Hct2|].
  destruct (drain_remote_quiet e d2 K loc (SL 0) c C2 Hc2) as (c3 & -> & Q3 & Hc3). set (d3 := set_cur _ _) in *. cbn [Z.ltb Z.compare].
  destruct (front_quiet K loc KM d2 d3 SL LL B F2 Q3) as [F3 Hct3]. eapply gives_after; [exact Hct3|]. rewrite Z.eqb_refl. cbn [negb].
  pose proof (compute_batch_quiet e d3 cls) as Hb. destruct (compute_batch e d3 cls) as [d4 n]. destruct Hb as (Q4 & Hc4 & Hn).
  destruct (front_quiet K loc KM d3 d4 SL LL B F3 Q4) as [F4 Hct4]. eapply gives_after; [exact Hct4|].
  destruct (refill_chain_fetches e K loc KM d4 SL LL B cls n F4 Hs ltac:(lia) Hf (Hh cls Hs)) as (d5 & l & h & t & -> & (K5 & loc5 & SL5 & F5 & Hd5) & Hct5 & Hch & Htl & Hl & Hc5).
  eapply gives_after; [exact Hct5|]. assert (Ht5 : tight K5) by (intros i Hi; rewrite (proj1 (proj2 Hd5)); by apply Ht).
  destruct (Z.eqb_spec (Z.of_nat (length l)) 0) as [H0|H0].
  - apply gives_null; [apply contents_refl|]. destruct l; [|done]. eexists _, _, _, _, _. split; [exact F5|]. split; [done|]. by eapply slab_hand_other.
  - edestruct (install_gives e K5 loc5 KM d5 SL5 LL B c3 cls l h t al Hal1 Hal2 F5 Ht5) as (mm & c' & He & Hg); [|congruence|done|by rewrite (proj1 (proj2 Hd5))|apply Hd5|by destruct l|lia|done|done|].
    + intros i Hi Hne. rewrite (proj2 (proj2 Hd5)) by done. by apply Hh.
    + by rewrite He.
Qed.

(** ** Slab objects without the cache *)

Lemma slab_alloc_gives e d B a cls al : dispatch_ok d B -> arena a -> ThreadCacheSpec.slab_class cls -> (0 < e.(de_fuel))%nat ->
  (al | class_size cls) -> (al | V8M_SLAB_HEADER_SIZE) -> gives d B (class_size cls) al (slab_alloc cpu_of e d a cls).
Proof.
  intros (K & loc & KM & SL & LL & F & Ht & Hh) Ha Hs Hf Hal1 Hal2.
  destruct (slab_alloc_front _ _ _ cpu_of e K loc KM d SL LL B a cls F Ha Hs Hf) as (d' & p & SL' & -> & Hc & [[-> F']|(Hp & Hn & F')]).
  - apply gives_null; [done|]. by exists K, loc, KM, SL', LL.
  - assert (Ho : dispatch_ok d' (add_block B (InSlab a) p (class_size cls))) by (by exists K, loc, KM, SL', LL).
    eapply gives_block; [done|done|exact Hn| |done|exact Ho]. eapply slab_block_aligned; [exact Ho|by right|done|done].
Qed.

(** ** Buddy blocks *)

Lemma caches_other d d' K loc SL0 : caches d K loc SL0 -> same_cur d d' -> d'.(d_slab) = d.(d_slab) -> d'.(d_cores) = d.(d_cores) -> caches d' K loc SL0.
Proof. intros C Hs Ed Hg. apply (caches_frame d d' K loc SL0); [done|done|done| | |]; intros; unfold words, pages_of in *; by rewrite ?Ed. Qed.

Lemma mids_frame d d' KM : mids d KM -> cur_cache d' = cur_cache d ->
  (forall i x, x ∈ KM i -> BuddyPoolSpec.in_pool d'.(d_buddy) x (class_size (V8M_MEDIUM_FIRST_CLASS + i)) /\
     rd d'.(d_buddy).(BuddyPool.bmem) x = rd d.(d_buddy).(BuddyPool.bmem) x) -> mids d' KM.
Proof.
  intros [Hb Ho Hh Ha] Hc Hx. constructor; [|done|by intros i x Hi; apply Hx|done]. rewrite Hc. destruct (cur_cache d) as [c|]; [|done].
  destruct Hb as [Hl Hb]. split; [done|]. intros i Hi. destruct (Hb i Hi) as (H1 & H2). split; [|done]. apply (SlabPage.chain_agree d.(d_buddy).(BuddyPool.bmem)); [done|].
  intros x Hk. by apply (Hx i).
Qed.

Lemma buddy_alloc_front e K loc KM d SL LL B size :
  front K loc KM d SL LL B -> 0 < size <= Buddy.V8M_BUDDY_MAX_BLOCK -> let n := Buddy.level_to_size (Buddy.size_to_level size) in
  exists d' p, buddy_alloc e d size = Some (d', p) /\ contents B d d' /\
    ((p = NULL /\ front K loc KM d' SL LL B) \/
     (p <> NULL /\ size <= n /\ (n | p) /\ (forall k, ~ B InBuddy p k) /\ front K loc KM d' SL LL (add_block B InBuddy p n))).
Proof.
  intros F Hs n. pose proof F as [W C M Hb].
  edestruct (run_buddy_ok ext extd m d SL LL (fun st => BuddyPool.v8m_buddy_pool_alloc e.(de_config) st size)
    (fun st' p => (p = NULL /\ BuddyPoolSpec.same_blocks d.(d_buddy) st') \/
       (p <> NULL /\ size <= n /\ (n | p) /\ BuddyPoolSpec.blocks_kept d.(d_buddy) st' /\
        (forall q k, BuddyPoolSpec.in_pool st' q k <-> BuddyPoolSpec.in_pool d.(d_buddy) q k \/ (q, k) = (p, n)) /\
        (forall q k, BuddyPoolSpec.in_pool d.(d_buddy) q k -> p + n <= q \/ q + k <= p))) W) as (st' & p & He & W' & Hr).
  { intros oth od st P. destruct (BuddyPoolSpec.bpool_alloc_ok oth od m e.(de_config) st size P ltac:(lia)) as (st' & p & He & Hr). exists st', p.
    split; [done|]. destruct Hr as [(-> & P' & Hsb & _)|(H1 & P' & H2 & H3 & H4 & H5 & H6)]; (split; [done|]); [left; by split|right; by split_and!]. }
  eexists _, p. split; [exact He|]. set (d' := set_src _ _) in *.
  assert (C' : caches d' K loc (SL 0)) by (apply (caches_other d); [done|apply same_cur_eq|..]; done).
  assert (Hin : (forall q k, BuddyPoolSpec.in_pool d.(d_buddy) q k -> BuddyPoolSpec.in_pool st' q k) /\ BuddyPoolSpec.blocks_kept d.(d_buddy) st').
  { destruct Hr as [(_ & Hsb & Hk)|(_ & _ & _ & Hk & Hi & _)]; (split; [|done]); intros q k Hq; [by apply Hsb|]. apply Hi. by left. }
  destruct Hin as [Hin Hk].
  assert (Hct : contents B d d').
  { intros w q k b Hq Hbq. apply Hb in Hq as [Hq _]. destruct w as [a| |]; cbn; [done| |done]. apply (Hk q k); [done|by apply Hin|done]. }
  assert (M' : mids d' KM).
  { apply (mids_frame d); [done|done|]. intros i x Hx. pose proof (mi_held _ _ M i x Hx) as Hp. split; [by apply Hin|]. eapply Hk; [exact Hp|by apply Hin|].
    destruct W as (O & D & Wa). destruct (buddy_block _ _ _ _ _ _ _ _ _ _ Wa Hp) as (r & _ & _ & _ & H0 & _). lia. }
  split; [done|]. destruct Hr as [[-> [Hsb _]]|(H1 & H2 & H3 & _ & H5 & H6)].
  - left. split; [done|]. apply (front_eq ext extd m K loc KM d SL LL B); [done..|]. intros w q k. unfold own. destruct w as [a| |]; cbn; [done| |done]. by rewrite Hsb.
  - right. assert (Hn : 0 < n) by lia.
    assert (Hfr : forall q k, BuddyPoolSpec.in_pool d.(d_buddy) q k -> q <> p).
    { intros q k Hq ->. destruct W as (O & D & Wa). destruct (buddy_block _ _ _ _ _ _ _ _ _ _ Wa Hq) as (r & _ & _ & _ & H0 & _). destruct (H6 p k Hq); lia. }
    assert (Hnb : forall k, ~ B InBuddy p k) by (intros k [Hq _]%Hb; by apply (Hfr p k)). split_and!; [done|done|done|done|].
    apply (front_add ext extd m K loc KM d SL LL B); [done|done|done|done|done| |].
    + split; [apply H5; by right|]. split; [done|]. intros _ i Hi. by apply (Hfr p _ (mi_held _ _ M i p Hi)).
    + intros w q k Hne. unfold own. destruct w as [a| |]; cbn; [done| |done]. rewrite H5. split; [intros [? ?]; split; [by left|done]|].
      intros [[?|[= -> ->]] ?]; [by split|done].
Qed.

Lemma buddy_alloc_gives e d B size : dispatch_ok d B -> 0 < size <= Buddy.V8M_BUDDY_MAX_BLOCK -> gives d B size (Buddy.level_to_size (Buddy.size_to_level size)) (buddy_alloc e d size).
Proof.
  intros (K & loc & KM & SL & LL & F & Ht & Hh) Hs.
  destruct (buddy_alloc_front e K loc KM d SL LL B size F Hs) as (d' & p & -> & Hc & [[-> F']|(Hp & Hle & Hal & Hn & F')]).
  - apply gives_null; [done|]. by exists K, loc, KM, SL, LL.
  - eapply gives_block; [done|exact Hle|exact Hn|exact Hal|done|]. by exists K, loc, KM, SL, LL.
Qed.

(** ** Cached buddy blocks *)

Lemma medium_set c i b j : length c.(ThreadCache.mediums) = 6%nat -> medium_index i -> medium_index j ->
  ThreadCache.medium_at (ThreadCache.set_medium c i b) j = if j =? i then b else ThreadCache.medium_at c j.
Proof.
  unfold medium_index, ThreadCache.medium_at, ThreadCache.set_medium. cbn. intros Hl Hi Hj. destruct (Z.eqb_spec j i) as [->|Hne].
  - by rewrite list_lookup_insert_eq by lia.
  - by rewrite list_lookup_insert_ne by lia.
Qed.

(** A bin of buddy blocks changes. *)
Lemma mids_update d d' KM c i b l : mids d KM -> cur_cache d = Some c -> medium_index i -> cur_cache d' = Some (ThreadCache.set_medium c i b) ->
  (forall j x, j <> i -> x ∈ KM j -> rd d'.(d_buddy).(BuddyPool.bmem) x = rd d.(d_buddy).(BuddyPool.bmem) x) ->
  (forall x n, BuddyPoolSpec.in_pool d.(d_buddy) x n -> BuddyPoolSpec.in_pool d'.(d_buddy) x n) ->
  chain d'.(d_buddy).(BuddyPool.bmem) b.(ThreadCache.medium_bin_heads) l -> b.(ThreadCache.medium_bin_count) = Z.of_nat (length l) -> (length l <= 4)%nat ->
  (forall x, x ∈ l -> BuddyPoolSpec.in_pool d.(d_buddy) x (class_size (V8M_MEDIUM_FIRST_CLASS + i)) /\ forall j, j <> i -> x ∉ KM j) ->
  mids d' (put KM i l).
Proof.
  intros [Hb Ho Hh Ha] Hc Hi Hc' Hw Hp Hch Hn Hl Hx. rewrite Hc in Hb. destruct Hb as [H6 Hb]. constructor.
  - rewrite Hc'. split; [cbn; by rewrite length_insert|]. intros j Hj. rewrite (medium_set c i b j H6 Hi Hj). unfold put. destruct (Z.eqb_spec j i) as [->|Hne]; [done|].
    destruct (Hb j Hj) as (B1 & B2 & B3). split_and!; [|done|done]. apply (SlabPage.chain_agree d.(d_buddy).(BuddyPool.bmem)); [done|]. intros x Hxj. by apply (Hw j).
  - intros j Hj. rewrite put_ne; [by apply Ho|]. by intros ->.
  - intros j x. unfold put. destruct (Z.eqb_spec j i) as [->|Hne]; intros Hxj; apply Hp; [by apply Hx|by apply Hh].
  - intros j k x Hne. unfold put. destruct (Z.eqb_spec j i) as [->|Hji], (Z.eqb_spec k i) as [->|Hki]; try done; intros Hxj.
    + by apply Hx.
    + intros Hxl. by apply (proj2 (Hx x Hxl) j Hji).
    + by apply (Ha j k x).
Qed.

Lemma medium_alloc_front K loc KM d SL LL B c cls :
  front K loc KM d SL LL B -> cur_cache d = Some c -> 32 <= cls <= 37 ->
  exists c' p, ThreadCache.v8m_thread_cache_medium_alloc d.(d_buddy).(BuddyPool.bmem) (cur_cache d) cls = (Some c', p) /\
    let d' := set_cur d (Some c') in contents B d d' /\
    ((p = NULL /\ front K loc KM d' SL LL B) \/
     (p <> NULL /\ (forall k, ~ B InBuddy p k) /\ exists KM', front K loc KM' d' SL LL (add_block B InBuddy p (class_size cls)))).
Proof.
  intros F Hc Hcls. pose proof F as [W C M Hb]. assert (Hi : medium_index (cls - 32)) by (unfold medium_index; lia).
  pose proof (mi_bins _ _ M) as Mb. rewrite Hc in Mb. destruct Mb as [H6 Mb]. destruct (Mb _ Hi) as (Hch & Hct & Hlen).
  unfold ThreadCache.v8m_thread_cache_medium_alloc. rewrite Hc. unfold ThreadCache.V8M_MEDIUM_TLC_FIRST_CLASS, ThreadCache.V8M_MEDIUM_TLC_LAST_CLASS.
  change V8M_MEDIUM_FIRST_CLASS with 32 in *. rewrite (proj2 (Z.ltb_ge cls 32)), (proj2 (Z.ltb_ge 37 cls)) by lia. cbn [orb].
  assert (Hext : forall c', let d' := set_cur d (Some c') in world ext extd m d' SL LL /\ (forall w p n, block_at d' SL LL w p n <-> block_at d SL LL w p n) /\ (forall w, mem_of d' w = mem_of d w)).
  { intros c'. by apply world_ext. }
  destruct (KM (cls - 32)) as [|x l] eqn:Hk.
  - apply chain_nil in Hch. rewrite Hch, Z.eqb_refl. exists c, NULL. split; [done|]. cbn zeta. pose proof (cur_set d c c Hc) as Hc'.
    destruct (front_quiet K loc KM d (set_cur d (Some c)) SL LL B F) as [F' Hco]; [apply quiet_cur; try done; by rewrite Hc', Hc|]. split; [done|]. by left.
  - destruct Hch as (-> & Hx & Hch). rewrite (proj2 (Z.eqb_neq _ _) Hx). eexists _, x. split; [done|]. cbn zeta.
    set (c' := ThreadCache.set_medium c (cls - 32) _). pose proof (cur_set d c c' Hc) as Hc'. destruct (Hext c') as (W' & Hbl & Hm). set (d' := set_cur d (Some c')) in *.
    assert (Hxk : x ∈ KM (cls - 32)) by (rewrite Hk; left). assert (Hnd : NoDup (x :: l)).
    { apply (chain_NoDup (d.(d_buddy).(BuddyPool.bmem)) x). by split_and!. }
    assert (Hsub : forall j y, y ∈ put KM (cls - 32) l j -> y ∈ KM j). { intros j y. unfold put. destruct (Z.eqb_spec j (cls - 32)) as [->|]; [|done]. rewrite Hk. by right. }
    assert (M' : mids d' (put KM (cls - 32) l)).
    { apply (mids_update d d' KM c (cls - 32) _ l M Hc Hi Hc'); [done|done|exact Hch| |cbn in Hlen; lia|].
      - cbn [ThreadCache.medium_bin_count]. rewrite Hct. cbn [length] in *. rewrite u8_small; lia.
      - intros y Hy. assert (y ∈ KM (cls - 32)) by (rewrite Hk; by right). split; [by apply (mi_held _ _ M)|]. intros j Hj. by apply (mi_apart _ _ M (cls - 32)). }
    assert (Hnb : forall k, ~ B InBuddy x k). { intros k [_ [_ Hq]]%Hb. by apply (Hq eq_refl (cls - 32)). }
    split; [intros w q k b _ _; by rewrite Hm|]. right. split; [done|]. split; [done|]. exists (put KM (cls - 32) l).
    apply (front_add ext extd m K loc KM d SL LL B); [done|done| |done|done| |].
    + apply (caches_other d); [done| |done|done]. unfold same_cur. by rewrite Hc, Hc'.
    + split; [apply Hbl; cbn; replace cls with (V8M_MEDIUM_FIRST_CLASS + (cls - 32)) by (change V8M_MEDIUM_FIRST_CLASS with 32; lia); by apply (mi_held _ _ M)|].
      split; [done|]. intros _ j. unfold put. destruct (Z.eqb_spec j (cls - 32)) as [->|Hj]; [by apply NoDup_cons in Hnd as [? _]|]. by apply (mi_apart _ _ M (cls - 32)).
    + intros w q k Hne. unfold own. rewrite Hbl. split; intros [H1 [H2 H3]]; (split; [done|]); (split; [done|]); intros -> j Hj.
      * by apply (H3 eq_refl j), Hsub.
      * apply (H3 eq_refl j). unfold put. destruct (Z.eqb_spec j (cls - 32)) as [->|]; [|done]. rewrite Hk in Hj. apply elem_of_cons in Hj as [->|?]; done.
Qed.

(** ** Large objects *)

Lemma large_alloc_front K loc KM d SL LL B f size al :
  front K loc KM d SL LL B -> Buddy.V8M_BUDDY_MAX_BLOCK < size ->
  (forall oth od st, LargeSpec.large_ok od oth st LL -> let '(st', p) := f st in
     (p = NULL /\ LargeSpec.large_ok od oth st' LL /\ LargeSpec.bytes_kept st st' LL) \/
     (p <> NULL /\ LargeSpec.large_ok od oth st' ((p, size) :: LL) /\ LargeSpec.bytes_kept st st' LL /\ (al | p))) ->
  exists d' p LL', run_large d (fun st => Some (f st)) = Some (d', p) /\ contents B d d' /\
    ((p = NULL /\ front K loc KM d' SL LL' B) \/ (p <> NULL /\ (forall k, ~ B InLarge p k) /\ (al | p) /\ front K loc KM d' SL LL' (add_block B InLarge p size))).
Proof.
  intros F Hs Hf. pose proof F as [W C M Hb]. destruct (f (Large.set_lsource d.(d_large) d.(d_src))) as [st' p] eqn:E.
  set (LL' := fun r : Z => if r =? NULL then LL else (r, size) :: LL).
  destruct (run_large_ok ext extd m d SL LL (fun st => Some (f st)) LL'
    (fun st' p => LargeSpec.bytes_kept d.(d_large) st' LL /\ (p <> NULL -> (al | p) /\ forall k, (p, k) ∉ LL)) st' p W) as (He & W' & Hk & Hn).
  { by rewrite E. }
  { intros oth od P. specialize (Hf oth od _ P). rewrite E in Hf. unfold LL'. destruct Hf as [(-> & P' & Hk)|(Hp & P' & Hk & Hal)]; [split; [exact P'|]; split; [exact Hk|done]|].
    rewrite (proj2 (Z.eqb_neq _ _) Hp). split; [done|]. split; [done|]. intros _. split; [done|]. intros k Hk'. pose proof Hk' as [j Hj]%list_elem_of_lookup_1.
    destruct (LargeSpec.lo_objs _ _ _ _ P _ Hk') as [_ _ [H0 _] _ _]. cbn in H0. change Buddy.V8M_BUDDY_MAX_BLOCK with 262144 in Hs.
    pose proof (LargeSpec.objects_disjoint _ _ _ _ 0 (S j) (p, size) (p, k) P' eq_refl Hj ltac:(lia)) as Hd. cbn in Hd. lia. }
  { unfold LL'. intros x. destruct (p =? NULL); [by left|]. intros [->|?]%elem_of_cons; [by right|by left]. }
  eexists _, p, (LL' p). split; [exact He|]. set (d' := set_src _ _) in *.
  assert (C' : caches d' K loc (SL 0)) by (apply (caches_other d); [done|apply same_cur_eq|..]; done).
  assert (M' : mids d' KM) by (by eapply mids_same).
  split. { intros w q k b Hq Hbq. apply Hb in Hq as [Hq _]. destruct w as [a| |]; cbn; [done|done|]. by apply (Hk (q, k) b). }
  unfold LL' in *. destruct (Z.eqb_spec p NULL) as [->|Hp].
  - left. split; [done|]. by apply (front_eq ext extd m K loc KM d SL LL B).
  - right. destruct (Hn Hp) as [Hal Hnew]. assert (Hnb : forall k, ~ B InLarge p k) by (intros k [Hq _]%Hb; by apply (Hnew k)). split; [done|]. split; [done|]. split; [done|].
    apply (front_add ext extd m K loc KM d SL LL B); [done|done|done|done|done|by split; [left|]|].
    intros w q k Hne. unfold own. destruct w as [a| |]; cbn; [done|done|]. rewrite elem_of_cons. split; [intros [? ?]; split; [by right|done]|].
    intros [[[= -> ->]|?] ?]; [done|by split].
Qed.

(** ** Requests *)

Lemma large_alloc_gives e d B size : dispatch_ok d B -> Buddy.V8M_BUDDY_MAX_BLOCK < size < 2 ^ 64 ->
  gives d B size 16 (run_large d (fun st => Some (Large.v8m_large_alloc e.(de_config) e.(de_mprotect) st size 0))).
Proof.
  intros (K & loc & KM & SL & LL & F & Ht & Hh) Hs. change Buddy.V8M_BUDDY_MAX_BLOCK with 262144 in Hs.
  destruct (large_alloc_front K loc KM d SL LL B (fun st => Large.v8m_large_alloc e.(de_config) e.(de_mprotect) st size 0) size 2048 F ltac:(change Buddy.V8M_BUDDY_MAX_BLOCK with 262144; lia))
    as (d' & p & LL' & -> & Hc & [[-> F']|(Hp & Hn & Ha & F')]).
  - intros oth od st P. pose proof (LargeSpec.large_alloc_ok od oth e.(de_config) e.(de_mprotect) st LL size 0 P ltac:(lia)) as Hl.
    destruct (Large.v8m_large_alloc _ _ _ _ _) as [st' p]. destruct Hl as [(-> & P' & Hk & _)|((Hp & Hr & P' & Hk & _) & _)]; [by left|right].
    split_and!; [done|done|done|]. pose proof (LargeSpec.lo_objs _ _ _ _ P' (p, size) ltac:(left)) as [(_ & _ & Hd) _ _ _ _]. cbn [fst] in Hd. rewrite Hr in Hd.
    replace p with ((p - 2048) + 2048) by lia. apply Z.divide_add_r; [|done]. etransitivity; [|exact Hd]. by exists 32.
  - apply gives_null; [done|]. by exists K, loc, KM, SL, LL'.
  - eapply gives_block; [done|done|exact Hn| |done|]; [etransitivity; [|exact Ha]; by exists 128|]. by exists K, loc, KM, SL, LL'.
Qed.

Lemma gives_weaken d B size size' al al' r : size' <= size -> (al' | al) -> gives d B size al r -> gives d B size' al' r.
Proof.
  intros Hs Ha (d' & p & -> & Hc & Hr). exists d', p. split; [done|]. split; [done|]. destruct Hr as [?|(Hp & w & n & Hn & Hal & Hr)]; [by left|right].
  split; [done|]. exists w, n. split; [lia|]. split; [by etransitivity|done].
Qed.

Lemma medium_class size : V8M_SMALL_MAX_SIZE < size <= Buddy.V8M_BUDDY_MAX_BLOCK -> 32 <= v8m_size_class size <= 37 /\ size <= class_size (v8m_size_class size).
Proof.
  unfold V8M_SMALL_MAX_SIZE. change Buddy.V8M_BUDDY_MAX_BLOCK with 262144. intros Hs. pose proof (smallest_class_all size ltac:(unfold V8M_LARGE_MAX_SIZE; lia)) as Hc.
  destruct (Z.eqb_spec size 0); [lia|]. destruct Hc as (Hc & Hle & Hm). split; [|done].
  pose proof (size_class_not_slab size ltac:(unfold V8M_SMALL_MAX_SIZE, SIZE_MAX; lia)) as Hn. change V8M_MEDIUM_FIRST_CLASS with 32 in Hn. split; [lia|].
  destruct (Z.le_gt_cases (v8m_size_class size) 37) as [|Hgt]; [done|]. specialize (Hm 37 ltac:(lia)). change (class_size 37) with 262144 in Hm. lia.
Qed.

Lemma medium_request_gives e d B size : dispatch_ok d B -> V8M_SMALL_MAX_SIZE < size <= Buddy.V8M_BUDDY_MAX_BLOCK ->
  gives d B size 16 (
    if d.(d_use_tlc) then
      let '(d, created) := get_or_create e d in
      if created then
        let '(c, cached) := ThreadCache.v8m_thread_cache_medium_alloc d.(d_buddy).(BuddyPool.bmem) (cur_cache d) (v8m_size_class size) in
        let d := set_cur d c in
        if negb (cached =? NULL) then Some (d, cached) else buddy_alloc e d size
      else buddy_alloc e d size
    else buddy_alloc e d size).
Proof.
  intros Ho Hs. assert (Hba : forall d, dispatch_ok d B -> gives d B size 16 (buddy_alloc e d size)).
  { intros d0 H0. eapply gives_weaken; [reflexivity| |apply (buddy_alloc_gives e d0 B size H0); unfold V8M_SMALL_MAX_SIZE in Hs; lia]. apply block_size_16. unfold V8M_SMALL_MAX_SIZE in Hs; lia. }
  destruct (d_use_tlc d); [|by apply Hba]. pose proof Ho as (K & loc & KM & SL & LL & F & Ht & Hh).
  pose proof (get_or_create_front _ _ _ e K loc KM d SL LL B F) as Hg. destruct (get_or_create e d) as [d1 ok]. destruct Hg as (F1 & Hc1 & _ & Hok).
  eapply gives_after; [exact Hc1|]. destruct ok; [|by apply Hba; exists K, loc, KM, SL, LL]. destruct (Hok eq_refl) as [c Hc]. destruct (medium_class size Hs) as [Hcl Hle].
  destruct (medium_alloc_front K loc KM d1 SL LL B c _ F1 Hc Hcl) as (c' & p & -> & Hct & [[-> F2]|(Hp & Hn & KM' & F2)]).
  - rewrite Z.eqb_refl. cbn [negb]. eapply gives_after; [exact Hct|]. apply Hba. by exists K, loc, KM, SL, LL.
  - rewrite (proj2 (Z.eqb_neq _ _) Hp). cbn [negb]. assert (Ho2 : dispatch_ok (set_cur d1 (Some c')) (add_block B InBuddy p (class_size (v8m_size_class size)))) by (by exists K, loc, KM', SL, LL).
    eapply gives_block; [done|exact Hle|exact Hn| |done|done]. destruct (buddy_block_shape _ _ _ _ Ho2 ltac:(by right)) as [Hd _]. etransitivity; [|exact Hd].
    apply Z.mod_divide; [done|]. apply class_size_mod16. lia.
Qed.

Lemma dispatch_alloc_natural e d B size : dispatch_ok d B -> 0 <= size < 2 ^ 64 -> (0 < e.(de_fuel))%nat ->
  gives d B size (natural_align (Z.max size 1)) (v8m_dispatch_alloc cpu_of e d size).
Proof.
  intros Ho Hs Hf. unfold v8m_dispatch_alloc. set (sz := size + _). assert (Hsz : size <= sz /\ 0 < sz < 2 ^ 64 /\ Z.max size 1 = sz) by (unfold sz; destruct (Z.eqb_spec size 0); lia).
  destruct Hsz as (Hle & Hsz & ->). apply (gives_weaken _ _ sz _ (natural_align sz)); [lia|done|]. destruct (natural_16 sz) as [Hn16 _]. clearbody sz. clear Hs Hle. destruct (record_ok d B (v8m_size_class sz) sz Ho) as [Ho1 Hc1]. eapply gives_after; [exact Hc1|].
  set (d1 := record _ _ _) in *. clearbody d1. destruct (Z.ltb_spec (v8m_size_class sz) V8M_MEDIUM_FIRST_CLASS) as [Hcl|Hcl].
  - assert (Hsm : sz <= V8M_SMALL_MAX_SIZE).
    { destruct (Z.le_gt_cases sz V8M_SMALL_MAX_SIZE); [done|]. pose proof (size_class_not_slab sz ltac:(unfold SIZE_MAX; lia)). lia. }
    destruct (size_class_slab sz ltac:(lia)) as [Hs Hle]. pose proof (natural_class sz ltac:(lia)) as H8.
    assert (Hhd : (natural_align sz | V8M_SLAB_HEADER_SIZE)) by (etransitivity; [exact Hn16|by exists 128]).
    assert (Hsl : forall d a, dispatch_ok d B -> arena a -> gives d B sz (natural_align sz) (slab_alloc cpu_of e d a (v8m_size_class sz))).
    { intros d0 a H0 Ha. eapply gives_weaken; [exact Hle|reflexivity|]. by apply slab_alloc_gives. }
    pose proof (arena_for_caller_quiet e d1 d1.(t_dispatch_caller_pc)) as Hq. destruct (arena_for_caller _ _ _) as [d2 a]. destruct Hq as [Q Ha].
    destruct (ok_quiet d1 d2 B Ho1 Q) as [Ho2 Hc2]. eapply gives_after; [exact Hc2|]. destruct (a =? V8M_ARENA_DEFAULT); [|by apply Hsl].
    destruct (d_use_tlc d2); [|by apply Hsl]. destruct (try_tlc_gives e d2 B _ _ H8 Hhd Ho2 Hs Hf) as (d3 & p & -> & Hc3 & Hr).
    destruct (Z.eqb_spec p NULL) as [->|Hp]; cbn [negb].
    + destruct Hr as [[_ Ho3]|[? _]]; [|done]. eapply gives_after; [exact Hc3|]. by apply Hsl.
    + eapply gives_weaken; [exact Hle|reflexivity|]. by exists d3, p.
  - assert (Hsm : V8M_SMALL_MAX_SIZE < sz). { destruct (Z.le_gt_cases sz V8M_SMALL_MAX_SIZE); [|done]. pose proof (size_class_slab sz ltac:(lia)). lia. }
    apply (gives_weaken _ _ sz _ 16); [done|done|]. destruct (Z.leb_spec sz Buddy.V8M_BUDDY_MAX_BLOCK) as [Hb|Hb]; [|apply large_alloc_gives; [done|lia]]. by apply medium_request_gives.
Qed.
Lemma dispatch_alloc_gives e d B size : dispatch_ok d B -> 0 <= size < 2 ^ 64 -> (0 < e.(de_fuel))%nat -> gives d B size 8 (v8m_dispatch_alloc cpu_of e d size).
Proof. intros Ho Hs Hf. eapply gives_weaken; [reflexivity|apply natural_16|by apply dispatch_alloc_natural]. Qed.

(** ** Aligned requests *)

Lemma aligned_class_spec n cls al c : 0 <= cls -> 0 < al -> aligned_class n cls al = Some c ->
  cls <= c < V8M_MEDIUM_FIRST_CLASS /\ Z.land (class_size c) (al - 1) = 0.
Proof.
  revert cls. induction n as [|n IH]; intros cls Hc Ha; cbn; [done|]. destruct (Z.ltb_spec cls V8M_MEDIUM_FIRST_CLASS) as [Hl|]; [|done].
  destruct (Z.eqb_spec (Z.land (class_size cls) (al - 1)) 0) as [E|].
  - intros [= <-]. split; [lia|done].
  - intros H'. destruct (IH (cls + 1) ltac:(lia) Ha H') as [H1 H2]. split; [lia|done].
Qed.

Lemma pow2_divides_mask j x : 0 <= j -> Z.land x (2 ^ j - 1) = 0 -> (2 ^ j | x).
Proof. intros Hj Hx. replace (2 ^ j - 1) with (Z.ones j) in Hx by (rewrite Z.ones_equiv; lia). rewrite Z.land_ones in Hx by done. apply Z.mod_divide; [|done]. pose proof (Z.pow_pos_nonneg 2 j). lia. Qed.

Lemma pow2_divides_pow2 i j : 0 <= i -> 2 ^ i <= 2 ^ j -> (2 ^ i | 2 ^ j).
Proof.
  intros Hi Hle. assert (i <= j). { destruct (Z.le_gt_cases 0 j); [by apply (Z.pow_le_mono_r_iff 2)|]. rewrite (Z.pow_neg_r 2 j) in Hle by done. pose proof (Z.pow_pos_nonneg 2 i). lia. }
  exists (2 ^ (j - i)). rewrite <- Z.pow_add_r by lia. f_equal. lia.
Qed.

(** The alignment that is granted: the one asked for, but for 16, which is left to
    the size class. *)
Definition granted (al size : Z) : Z := if al =? V8M_MALLOC_NATURAL_ALIGN then natural_align (Z.max size 1) else al.

Lemma granted_eq al size : 0 <= size < 2 ^ 64 ->
  granted al size = if (al =? 16) && ((size <=? 8) || ((16 <? size) && (size <=? 24)) || ((32 <? size) && (size <=? 40)) || ((48 <? size) && (size <=? 56))) then 8 else al.
Proof.
  intros Hs. unfold granted. change V8M_MALLOC_NATURAL_ALIGN with 16. destruct (Z.eqb_spec al 16) as [->|]; [|done]. cbn [andb]. rewrite natural_align_8 by lia.
  destruct (Z.eq_dec size 0) as [->|]; [done|]. by rewrite Z.max_l by lia.
Qed.

Lemma aligned_gives e d B size j : dispatch_ok d B -> 0 <= size < 2 ^ 64 -> 0 <= j < 64 -> (0 < e.(de_fuel))%nat ->
  gives d B size (granted (2 ^ j) size) (v8m_dispatch_alloc_aligned cpu_of e d size (2 ^ j)).
Proof.
  intros Ho Hs Hj Hf. unfold v8m_dispatch_alloc_aligned, granted. set (sz := size + _). assert (Hsz : size <= sz /\ 0 < sz < 2 ^ 64) by (unfold sz; destruct (Z.eqb_spec size 0); lia).
  set (al := 2 ^ j) in *. assert (Hal : 0 < al) by (apply Z.pow_pos_nonneg; lia).
  destruct (Z.leb_spec al V8M_MALLOC_NATURAL_ALIGN) as [Hn|Hn].
  { assert (Emax : Z.max sz 1 = Z.max size 1) by (unfold sz; destruct (Z.eqb_spec size 0); lia).
    apply (gives_weaken _ _ sz _ (natural_align (Z.max sz 1))); [lia| |by apply dispatch_alloc_natural; [|lia|]]. rewrite Emax.
    destruct (Z.eqb_spec al V8M_MALLOC_NATURAL_ALIGN) as [|Hne]; [done|]. etransitivity; [|apply natural_16]. apply (pow2_divides_pow2 j 3); [lia|]. fold al.
    destruct (Z.le_gt_cases j 3) as [Hj3|Hj3]; [by apply Z.pow_le_mono_r|]. change V8M_MALLOC_NATURAL_ALIGN with (2 ^ 4) in *. exfalso. assert (2 ^ 4 <= al) by (apply Z.pow_le_mono_r; lia). lia. }
  rewrite (proj2 (Z.eqb_neq al V8M_MALLOC_NATURAL_ALIGN)) by lia.
  apply (gives_weaken _ _ sz _ al); [lia|done|]. destruct (record_ok d B (v8m_size_class sz) sz Ho) as [Ho1 Hc1]. eapply gives_after; [exact Hc1|].
  set (d1 := record _ _ _) in *. clearbody d1 sz. clear Hs Hc1. destruct (Z.ltb_spec Buddy.V8M_BUDDY_MAX_BLOCK al) as [Hbig|Hsm]; [apply gives_null; [apply contents_refl|done]|].
  cbn zeta. set (eff := if al <? sz then sz else al). assert (Heff : sz <= eff /\ al <= eff /\ (eff = sz \/ eff = al)) by (unfold eff; destruct (Z.ltb_spec al sz); lia).
  clearbody eff. change Buddy.V8M_BUDDY_MAX_BLOCK with 262144 in *. destruct (if (_ && _)%bool then _ else None) as [cls|] eqn:Hsl.
  - destruct ((al <=? V8M_SLAB_HEADER_SIZE) && (eff <=? V8M_SMALL_MAX_SIZE)) eqn:Hc; [|done]. apply andb_true_iff in Hc as [H1%Z.leb_le H2%Z.leb_le].
    destruct (size_class_slab eff ltac:(lia)) as [Hcl Hle]. destruct (aligned_class_spec 32 (v8m_size_class eff) al cls ltac:(lia) Hal Hsl) as [Hcls Hmask].
    eapply gives_weaken; [|reflexivity|apply (slab_alloc_gives e d1 B V8M_ARENA_DEFAULT cls al Ho1 ltac:(by compute) ltac:(split; lia) Hf)].
    + destruct (decide (cls = v8m_size_class eff)) as [->|Hne]; [lia|]. pose proof (class_size_mono (v8m_size_class eff) cls ltac:(lia) ltac:(change V8M_MEDIUM_FIRST_CLASS with 32 in *; lia)). lia.
    + apply pow2_divides_mask; [lia|done].
    + apply (pow2_divides_pow2 j 11); [lia|exact H1].
  - clear Hsl. destruct (Z.leb_spec eff 262144) as [Hle|Hgt].
    + assert (He : 0 < eff <= 262144) by lia. eapply gives_weaken; [apply Heff| |exact (buddy_alloc_gives e d1 B eff Ho1 He)].
      destruct (BuddyPoolSpec.fit_size eff He) as [Hfit Hl]. rewrite BuddyInv.level_to_size_eq in * by exact Hl. apply pow2_divides_pow2; [lia|]. fold al. lia.
    + assert (eff = sz) as -> by lia. destruct Ho1 as (K & loc & KM & SL & LL & F & Ht & Hh).
      destruct (large_alloc_front K loc KM d1 SL LL B (fun st => Large.v8m_large_alloc_aligned e.(de_config) e.(de_mprotect) st sz al 0) sz al F Hgt)
        as (d' & p & LL' & -> & Hc & [[-> F']|(Hp & Hnb & Ha & F')]).
      * intros oth od st P. pose proof (LargeSpec.large_alloc_aligned_ok od oth e.(de_config) e.(de_mprotect) st LL sz j 0 P ltac:(lia) Hj) as Hl. fold al in Hl.
        destruct (Large.v8m_large_alloc_aligned _ _ _ _ _ _) as [st' p]. destruct Hl as [(-> & P' & Hk & _)|((Hp & _ & P' & Hk & _) & Hd & _)]; [by left|by right].
      * apply gives_null; [done|]. by exists K, loc, KM, SL, LL'.
      * eapply gives_block; [done|done|exact Hnb|exact Ha|done|]. by exists K, loc, KM, SL, LL'.
Qed.

End Alloc.
End DispatchAlloc.
