(* ===== verification/DispatchFree.v ===== *)
(** Release through the dispatcher ([Dispatch]): every path of
    [v8m_dispatch_free] for a block of the program. *)

From S2P Require Import Prelude SizeClass Page Config RemoteFree Buddy BuddyTree BuddyInv CoreCache Refill PageSource SlabPage SlabPool SlabPoolSpec BuddyPool BuddyPoolSpec Large LargeSpec ThreadCache ThreadCacheSpec ThreadRegistry Lifetime Dispatch DispatchInv DispatchCache DispatchStep DispatchAlloc.
Import SizeClass Page PageSource Dispatch DispatchInv DispatchCache DispatchStep DispatchAlloc.

Module DispatchFree.

Section Free.
Context `{PSL : PageSourceLaws} (ext extd : list (Z * Z)) (m : bool).
Notation front := (front ext extd m).
Notation dispatch_ok := (dispatch_ok ext extd m).

(** The block is gone; the others keep their contents. *)
Definition releases (d : v8m_dispatch) (B : owner -> Z -> Z -> Prop) (w : owner) (p : Z) (d' : v8m_dispatch) : Prop :=
  dispatch_ok d' (del_block B w p) /\ contents (del_block B w p) d d'.

Lemma contents_sub (B B' : owner -> Z -> Z -> Prop) d d' : (forall w q k, B' w q k -> B w q k) -> contents B d d' -> contents B' d d'.
Proof. intros Hs Hc w q k b Hq. apply (Hc w q k b). by apply Hs. Qed.
Lemma del_sub B w p w' q k : del_block B w p w' q k -> B w' q k.
Proof. by intros [? _]. Qed.

Lemma front_iff K loc KM d SL LL B B' : (forall w q k, B w q k <-> B' w q k) -> front K loc KM d SL LL B -> front K loc KM d SL LL B'.
Proof. intros He [W C M Hb]. constructor; try done. intros w p n. by rewrite <- He. Qed.

(** ** Objects of a slab pool *)

(** [n] iterations are enough for the lists of pages. *)
Definition roomy (d : v8m_dispatch) (fuel : nat) : Prop := forall a, arena a -> (size (slab_pool_for_arena d a).(SlabPool.pages) < fuel)%nat.

Lemma slab_free_front fuel K loc KM d SL LL B a p n :
  front K loc KM d SL LL B -> B (InSlab a) p n -> roomy d fuel ->
  exists d' em SL', run_slab d a (fun st => SlabPool.v8m_slab_pool_free fuel st (v8m_ptr_to_meta p) p) = Some (d', em) /\
    front K loc KM d' SL' LL (del_block B (InSlab a) p) /\ contents (del_block B (InSlab a) p) d d' /\ cur_cache d' = cur_cache d /\ roomy d' fuel /\
    (forall x w, loc x = Some w -> rd (words d') x = rd (words d) x).
Proof.
  intros F Hp Hf. pose proof F as [W C M Hb]. apply Hb in Hp as [Hp [Hpl Hpm]]. pose proof Hp as (Ha & Hsp & _).
  edestruct (run_slab_ok ext extd m d SL LL a (fun st => SlabPool.v8m_slab_pool_free fuel st (v8m_ptr_to_meta p) p)
    (fun st' _ Lv => (forall q, Lv q <-> SL a q /\ q <> p) /\ (size st'.(SlabPool.pages) <= size (slab_pool_for_arena d a).(SlabPool.pages))%nat /\
       SlabPoolSpec.classes_kept st'.(SlabPool.pages) (slab_pool_for_arena d a).(SlabPool.pages) /\
       (forall q b, SL a q -> q <> p -> b <> p -> v8m_ptr_to_meta q <= b < v8m_ptr_to_meta q + V8M_PAGE_SIZE ->
          rd st'.(SlabPool.smem) b = rd (slab_pool_for_arena d a).(SlabPool.smem) b)) W Ha) as (st' & em & Lv & He & W' & HLv & Hsz & Hck & Hw).
  { intros oth od st P. destruct (ThreadCacheSpec.free_keeps oth od nobody a fuel st (SL a) p P Hsp ltac:(exact (Hf a Ha))) as (st' & em & He & P' & Hsz & Hck & _ & Hw).
    exists st', em, (fun q => SL a q /\ q <> p). by split_and!. }
  eexists _, em, (put SL a Lv). split; [exact He|]. set (d' := set_src _ _) in *. pose proof W as (O & D & Wa). pose proof W' as (O' & D' & Wa').
  destruct (set_pool_same d a st') as (Eb & El & Et & Ec & Er & Ets & _).
  assert (Hcur : cur_cache d' = cur_cache d) by (unfold cur_cache, d'; cbn; by rewrite Er, Ets).
  assert (Ep : forall b, arena b -> slab_pool_for_arena d' b = if b =? a then st' else slab_pool_for_arena d b) by (intros b Hb'; exact (pool_set d a b st' (w_len _ _ _ _ _ _ _ _ Wa) Ha Hb')).
  assert (Hclass : forall q c, SL a q -> q <> p -> SlabPoolSpec.of_class (slab_pool_for_arena d a).(SlabPool.pages) c q -> SlabPoolSpec.of_class st'.(SlabPool.pages) c q).
  { intros q c Hq Hne Hc. destruct (slab_object _ _ _ _ _ _ _ _ a q Wa' Ha ltac:(rewrite put_eq; by apply HLv)) as (mt & Hm & _ & Hin & _). rewrite (Ep a Ha), Z.eqb_refl in Hm.
    destruct (Hck _ _ Hm) as (mt0 & Hm0 & Hs0). assert (Hc0 : SlabPoolSpec.of_class (slab_pool_for_arena d a).(SlabPool.pages) mt.(size_class) q) by (by exists (v8m_ptr_to_meta q), mt0).
    rewrite (class_unique _ _ _ _ _ _ q c mt.(size_class) (world_slab _ _ _ _ _ _ _ _ a Wa Ha) Hc Hc0). by exists (v8m_ptr_to_meta q), mt. }
  assert (Hbyte : forall q k b, block_at d SL LL (InSlab a) q k -> q <> p -> q <= b < q + k -> rd st'.(SlabPool.smem) b = rd (slab_pool_for_arena d a).(SlabPool.smem) b).
  { intros q k b Hq Hne Hr. pose proof Hq as (_ & Hsq & mt & Hmt & Hk). destruct (slab_object _ _ _ _ _ _ _ _ a q Wa Ha Hsq) as (mt' & Hm & _ & Hin & Hfit & _).
    rewrite Hmt in Hm. injection Hm as <-. apply (Hw q b Hsq Hne); [|unfold SlabPage.in_page, V8M_SLAB_HEADER_SIZE in *; lia].
    intros ->. destruct (block_range _ _ _ _ _ _ _ _ _ _ _ Wa Hp) as (_ & r & _ & _ & _ & H0 & _). destruct (blocks_disjoint _ _ _ _ _ _ _ _ _ _ _ _ _ _ Wa Hq Hp Hne); lia. }
  assert (Kp : keep (fun w q => w = InSlab a -> q <> p) d SL LL d' (put SL a Lv) LL).
  { apply (keep_slab ext extd m); [done|done|done| | |]; intros q.
    - intros Hq. rewrite HLv. specialize (Hq eq_refl). tauto.
    - intros c Hq Hsq. by apply Hclass; [|apply Hq].
    - intros k b Hq Hk. by apply (Hbyte q k b Hk), Hq. }
  assert (Hwords : forall x w, loc x = Some w -> rd (words d') x = rd (words d) x).
  { intros x w Hx. destruct (decide (a = 0)) as [->|Hne]; [|unfold words, d'; cbn; by rewrite set_pool_slab]. destruct (ca_held _ _ _ _ C x w Hx) as (_ & Hsx & _).
    assert (x <> p) by (intros ->; rewrite Hpl in Hx; done). destruct (slab_object _ _ _ _ _ _ _ _ 0 x Wa zero_arena Hsx) as (mt & _ & _ & Hin & _).
    apply (Hw x x Hsx); [done|done|]. unfold SlabPage.in_page, V8M_SLAB_HEADER_SIZE in Hin. lia. }
  split; [|split_and!; [|done| |done]].
  - apply (front_del ext extd m K loc KM d SL LL B); [done|done| | | |].
    + apply (caches_frame d d' K loc (SL 0)); [done|by apply same_cur_eq|done|done| |].
      * intros x w Hx Hsx. unfold put. destruct (Z.eqb_spec 0 a) as [<-|]; [|done]. apply HLv. split; [done|]. intros ->. rewrite Hpl in Hx; done.
      * intros x w c Hx Hsx Hc. destruct (decide (a = 0)) as [->|Hne]; [|unfold pages_of, d'; cbn; by rewrite set_pool_slab]. apply Hclass; [done| |done]. intros ->. rewrite Hpl in Hx; done.
    + eapply mids_same; [done|done|by rewrite Hcur].
    + intros k [(_ & Hx & _) _]. rewrite put_eq in Hx. by apply HLv in Hx as [_ ?].
    + intros w q k Hne. unfold own. rewrite (proj1 (Kp w q ltac:(congruence)) k). done.
  - intros w q k b [Hq Hne] Hr. apply Hb in Hq as [Hq _]. apply (proj2 (Kp w q ltac:(congruence)) k); done.
  - intros b Hb'. rewrite (Ep b Hb'). destruct (Z.eqb_spec b a) as [->|]; [|by apply Hf]. specialize (Hf a Ha). lia.
Qed.

(** What the dispatcher reads in the header of a slab object. *)
Lemma slab_header K loc KM d SL LL B a p : front K loc KM d SL LL B -> arena a -> SL a p ->
  let page := v8m_ptr_to_meta p in let mt := meta_of d page in
  v8m_page_meta_valid page mt = true /\ mt.(arena_id) = a /\ ThreadCacheSpec.slab_class mt.(size_class) /\
  SlabPoolSpec.of_class (slab_pool_for_arena d a).(SlabPool.pages) mt.(size_class) p /\ mt.(object_size) = class_size mt.(size_class).
Proof.
  intros [(O & D & Wa) _ _ _] Ha Hp page mt. pose proof (meta_slab _ _ _ _ _ _ _ _ a p Wa Ha Hp) as Hm. fold page mt in Hm.
  destruct (slab_object _ _ _ _ _ _ _ _ a p Wa Ha Hp) as (mt' & Hm' & (Hb & _) & Hin & _ & Hmg & Har & Hc & Hs & _). fold page in Hm', Hb, Hin. rewrite Hm in Hm'. injection Hm' as <-.
  unfold v8m_page_meta_valid. rewrite Hmg, Z.eqb_refl. unfold NULL. rewrite (proj2 (Z.eqb_neq page 0)) by lia. split_and!; [done|done|done| |done]. by exists page, mt.
Qed.

(** An object in hand becomes the program's: only the books change. *)
Lemma hand_out K loc KM d SL LL B cls x l : front K loc KM d SL LL B -> ThreadCacheSpec.slab_class cls -> K (Hand cls) = x :: l ->
  front (putp K (Hand cls) l) (relocate loc [x] None) KM d SL LL (add_block B (InSlab 0) x (class_size cls)) /\ (forall k, ~ B (InSlab 0) x k) /\
  loc x = Some (Hand cls) /\ (forall y, y ∈ l -> relocate loc [x] None y = Some (Hand cls)).
Proof.
  intros F Hs Hk. pose proof F as [W C M Hb]. assert (Hloc : loc x = Some (Hand cls)) by (apply (ca_loc _ _ _ _ C (Hand cls) x Hs); rewrite Hk; left).
  destruct (ca_held _ _ _ _ C x _ Hloc) as (_ & Hsx & Hcx). destruct (loc_out d K loc (SL 0) (Hand cls) [x] l C Hs Hk) as [HL HN].
  assert (Hnb : forall k, ~ B (InSlab 0) x k). { intros k [_ [Hm _]]%Hb. specialize (Hm eq_refl). congruence. }
  split_and!; [|done|done|].
  - apply (front_add ext extd m K loc KM d SL LL B); [done|done| |done|done| |].
    + apply (caches_move d d K _ loc _ [x] None); [done|eapply cache_step_mono; [|apply cache_step_refl]; set_solver|done|done|done| | |].
      * intros i Hi. rewrite putp_ne by done. by apply (ca_short _ _ _ _ C).
      * apply (bins_held_ext _ K); [intros i _; by rewrite putp_ne by done|apply C].
      * intros cpu i Hi. rewrite putp_ne by done. by apply (ca_stacks _ _ _ _ C).
    + split; [|split; [intros _; unfold relocate; rewrite decide_True; [done|left]|done]]. apply (slab_block ext extd m); [done|apply zero_arena|done|exact Hcx].
    + intros w q k Hne. unfold own, mine, relocate. destruct (decide (q ∈ [x])) as [->%list_elem_of_singleton|]; [|done].
      split; intros [H1 [H2 H3]]; (split; [done|split; [|done]]); intros ->; done.
  - intros y Hy. apply HL; [exact Hs|]. by rewrite putp_eq.
Qed.

Lemma add_del B w p n w' q k : (forall j, ~ B w p j) -> del_block (add_block B w p n) w p w' q k <-> B w' q k.
Proof.
  intros Hn. unfold del_block, add_block. split; [intros [[?|[= -> -> ->]] ?]; done|]. intros Hq. split; [by left|]. intros [= -> ->]. by apply (Hn k).
Qed.

Lemma return_chain_front e KM LL B cls l : forall K loc d SL h,
  front K loc KM d SL LL B -> ThreadCacheSpec.slab_class cls -> K (Hand cls) = l -> chain (words d) h l -> roomy d e.(de_fuel) ->
  exists d' K' loc' SL', return_chain (length l) e d h = Some d' /\ front K' loc' KM d' SL' LL B /\ contents B d d' /\ handed cls [] K K'.
Proof.
  induction l as [|x l IH]; intros K loc d SL h F Hs Hk Hch Hr.
  { apply chain_nil in Hch as ->. exists d, K, loc, SL. by split_and!; [| |apply contents_refl|]. }
  destruct Hch as (-> & Hx & Hch). cbn. rewrite (proj2 (Z.eqb_neq _ _) Hx). destruct (hand_out K loc KM d SL LL B cls x l F Hs Hk) as (F1 & Hnb & Hloc & Hrest).
  destruct (ca_held _ _ _ _ (fr_caches _ _ _ _ _ _ _ _ _ _ F) x _ Hloc) as (_ & Hsx & _).
  destruct (slab_header _ _ _ _ _ _ _ 0 x F zero_arena Hsx) as (-> & _). change V8M_ARENA_DEFAULT with 0.
  destruct (slab_free_front e.(de_fuel) _ _ _ _ _ _ _ 0 x (class_size cls) F1 ltac:(by right) Hr) as (d1 & em & SL1 & -> & F2 & Hc1 & _ & Hr1 & Hw).
  assert (F3 : front (putp K (Hand cls) l) (relocate loc [x] None) KM d1 SL1 LL B) by (eapply front_iff; [|exact F2]; intros w q k; by apply add_del).
  destruct (IH (putp K (Hand cls) l) _ d1 SL1 (rd (words d) x) F3 Hs ltac:(by rewrite putp_eq)) as (d' & K' & loc' & SL' & He & F' & Hc' & H1 & H2 & H3).
  { apply (SlabPage.chain_agree (words d)); [done|]. intros y Hy. apply (Hw y (Hand cls)). by apply Hrest. }
  { done. }
  exists d', K', loc', SL'. split; [done|]. split; [done|]. split.
  - eapply contents_trans; [|exact Hc']. eapply contents_sub; [|exact Hc1]. intros w q k Hq. by apply add_del.
  - split; [done|]. split; intros i; [by rewrite H2, putp_ne by done|]. intros Hi. rewrite H3 by done. by rewrite putp_ne by congruence.
Qed.

(** Objects of the page heap have addresses of 47 bits. *)
Lemma held_ptr K loc KM d SL LL B x w : front K loc KM d SL LL B -> loc x = Some w -> CoreCache.is_ptr x.
Proof.
  intros [(O & D & Wa) C _ _] Hx. destruct (ca_held _ _ _ _ C x w Hx) as (_ & Hsx & _).
  destruct (slab_object _ _ _ _ _ _ _ _ 0 x Wa zero_arena Hsx) as (mt & Hm & _). assert (Hblk : block_at d SL LL (InSlab 0) x mt.(object_size)) by (split; [apply zero_arena|]; split; [done|by exists mt]).
  destruct (block_range _ _ _ _ _ _ _ _ _ _ _ Wa Hblk) as (Ow & r & Hr & H1 & H2 & H3 & H4). destruct (share_sound _ _ _ _ _ _ _ _ _ _ Wa Ow Hr) as (Hin & H5 & _).
  pose proof (ps_low _ r (w_src _ _ _ _ _ _ _ _ Wa) Hin). unfold CoreCache.is_ptr. lia.
Qed.

(** ** The full bin *)

Lemma push_front K loc KM d SL LL B cur cpu cls l h t : front K loc KM d SL LL B -> ThreadCacheSpec.slab_class cls ->
  K (Hand cls) = l -> l <> [] -> chain (words d) h l -> t = default NULL (last l) ->
  exists g mm K' loc', CoreCache.v8m_core_cache_push_batch d.(d_cores) (words d) cur (Some cpu) cls h t = (g, mm, true) /\
    let d' := set_cores (set_words d mm) g in front K' loc' KM d' SL LL B /\ contents B d d' /\ handed cls [] K K'.
Proof.
  intros F Hs Hk Hne Hch Ht. pose proof (fr_caches _ _ _ _ _ _ _ _ _ _ F) as C.
  assert (Hin : forall x, x ∈ l -> loc x = Some (Hand cls)) by (intros x Hx; eapply hand_of; [exact C|exact Hs|by rewrite Hk]).
  destruct (push_batch_spec d K loc (SL 0) cur cpu cls l h t C Hs Hk Hne Hch Ht) as (g & mm & He & S & C' & _).
  { apply Forall_forall. intros x Hx. by eapply held_ptr; [exact F|apply Hin]. }
  destruct (front_cache _ _ _ K _ loc KM d _ SL LL B l (Stack cpu cls) F S ltac:(intros x Hx; eexists; by apply Hin) C') as [F' Hc].
  eexists g, mm, _, _. split; [done|]. split; [exact F'|]. split; [done|]. split; [rewrite putp_ne by done; by rewrite putp_eq|].
  split; intros i; [by rewrite !putp_ne by done|]. intros Hi. by rewrite !putp_ne by congruence.
Qed.

Lemma overflow_ok e K loc KM d SL LL B c cls : front K loc KM d SL LL B -> hands K -> cur_cache d = Some c -> ThreadCacheSpec.slab_class cls ->
  K (Bin cls) <> [] -> (forall i, ThreadCacheSpec.slab_class i -> i <> cls -> (length (K (Bin i)) <= 512)%nat) -> roomy d e.(de_fuel) ->
  exists d', slab_overflow_to_l2_or_slab e d cls = Some d' /\ dispatch_ok d' B /\ contents B d d'.
Proof.
  intros F Hh Hc Hs Hne Hti Hr. unfold slab_overflow_to_l2_or_slab.
  pose proof (compute_batch_quiet e d cls) as Hb. destruct (compute_batch e d cls) as [d1 n]. destruct Hb as (Q & Hc1 & Hn).
  destruct (front_quiet ext extd m K loc KM d d1 SL LL B F Q) as [F1 Hct1]. pose proof (fr_caches _ _ _ _ _ _ _ _ _ _ F1) as C1.
  destruct (drain_chain_spec' e d1 K loc (SL 0) c cls n C1 ltac:(by rewrite Hc1) Hs ltac:(lia) (Hh cls Hs)) as (mm & c2 & h & t & -> & S2 & C2 & Hc2 & Hch & Htl).
  set (taken := take (Z.to_nat n) (K (Bin cls))) in *. set (d2 := set_cur (set_words d1 mm) (Some c2)) in *.
  assert (Htk : taken <> []). { unfold taken. destruct (K (Bin cls)); [done|]. destruct (Z.to_nat n) eqn:E; [lia|done]. }
  assert (Hin : forall x, x ∈ taken -> is_Some (loc x)).
  { intros x Hx. exists (Bin cls). apply (ca_loc _ _ _ _ C1 (Bin cls) x Hs). by apply elem_of_take in Hx as (i & Hi%list_elem_of_lookup_2 & _). }
  destruct (front_cache _ _ _ K _ loc KM d1 d2 SL LL B taken (Hand cls) F1 S2 Hin C2) as [F2 Hct2].
  set (K2 := putp (putp K (Bin cls) _) (Hand cls) taken) in *.
  assert (Ht2 : tight K2).
  { intros i Hi. unfold K2. rewrite putp_ne by done. unfold putp. destruct (decide (Bin i = Bin cls)) as [[= ->]|Hd]; [|apply Hti; [done|congruence]].
    rewrite length_drop. pose proof (ca_short _ _ _ _ C1 cls Hs). lia. }
  assert (Hdone : forall d' K' loc' SL', front K' loc' KM d' SL' LL B -> handed cls [] K2 K' -> contents B d2 d' -> dispatch_ok d' B /\ contents B d d').
  { intros d' K' loc' SL' F' (H1 & H2 & H3) Hct'. split.
    - exists K', loc', KM, SL', LL. split; [done|]. split; intros i Hi; [rewrite H2; by apply Ht2|]. destruct (decide (i = cls)) as [->|Hd]; [done|]. rewrite H3 by done.
      unfold K2. rewrite !putp_ne by congruence. by apply Hh.
    - eapply contents_trans; [exact Hct1|]. by eapply contents_trans. }
  rewrite (proj2 (Z.eqb_neq (Z.of_nat (length taken)) 0)) by (destruct taken; [done|cbn; lia]). clear Hct1 Hct2.
  assert (Hk2 : K2 (Hand cls) = taken) by (unfold K2; by rewrite putp_eq).
  destruct (match (if _ && _ then _ else None) with None => _ | Some _ => _ end) as [cpu|] eqn:El2.
  - destruct (push_front _ _ _ _ _ _ _ e.(de_cpu) cpu cls taken h t F2 Hs Hk2 Htk Hch Htl) as (g & mm' & K' & loc' & -> & F3 & Hct3 & Hd3). eexists. split; [done|]. by eapply Hdone.
  - destruct (return_chain_front e KM LL B cls taken K2 _ d2 SL h F2 Hs Hk2 Hch) as (d' & K' & loc' & SL' & He & F3 & Hct3 & Hd3).
    { destruct Q as [E1 E2 _ _ _ _ _ _ _]. intros a Ha. destruct (step_pool _ _ _ _ S2 Ha) as (mm' & -> & _).
      { rewrite E2. destruct (fr_world _ _ _ _ _ _ _ _ _ _ F) as (O & D & Wa). apply Wa. }
      cbn. specialize (Hr a Ha). unfold slab_pool_for_arena in *. by rewrite E1, E2. }
    rewrite Nat2Z.id, He. eexists. split; [done|]. by eapply Hdone.
Qed.

Lemma get_or_create_pools e d : (get_or_create e d).1.(d_slab) = d.(d_slab) /\ (get_or_create e d).1.(d_slab_lifetime) = d.(d_slab_lifetime).
Proof. unfold get_or_create. by destruct (ThreadRegistry.v8m_thread_cache_get_or_create _ _ _) as [[g t] a]. Qed.

(** ** Slab objects *)

Lemma tlc_free_front e K loc KM d SL LL B c cls p n : front K loc KM d SL LL B -> tight K -> cur_cache d = Some c -> ThreadCacheSpec.slab_class cls ->
  B (InSlab 0) p n -> SlabPoolSpec.of_class (pages_of d) cls p ->
  exists mm c' o, ThreadCache.v8m_thread_cache_free e.(de_tick) (words d) (cur_cache d) cls p = (mm, Some c', o) /\
    let d' := set_cur (set_words d mm) (Some c') in let K' := putp K (Bin cls) (p :: K (Bin cls)) in
    front K' (relocate loc [p] (Some (Bin cls))) KM d' SL LL (del_block B (InSlab 0) p) /\ contents (del_block B (InSlab 0) p) d d' /\
    cur_cache d' = Some c' /\ (o = false -> tight K') /\ (forall fuel, roomy d fuel -> roomy d' fuel).
Proof.
  intros F Ht Hc Hs Hp Hcl. pose proof F as [W C M Hb]. apply Hb in Hp as [Hp [Hpl _]]. specialize (Hpl eq_refl). pose proof Hp as (_ & Hsp & _). pose proof W as (O & D & Wa).
  destruct (block_range _ _ _ _ _ _ _ _ _ _ _ Wa Hp) as (Ow & r & Hr & H1 & H2 & _). destruct (share_sound _ _ _ _ _ _ _ _ _ _ Wa Ow Hr) as (_ & H3 & _).
  destruct (tlc_free_spec e d K loc (SL 0) c cls p C Ht Hc Hs ltac:(unfold NULL; lia) Hpl Hsp Hcl) as (mm & c' & o & He & S & C' & Hc' & Ho).
  exists mm, c', o. split; [done|]. cbn zeta. set (d' := set_cur _ _) in *. pose proof (w_len _ _ _ _ _ _ _ _ Wa) as Hl.
  assert (Hmv : forall x, x ∈ [p] -> SL 0 x) by (by intros x ->%list_elem_of_singleton). split; [|split; [|split_and!; [done|done|]]].
  - apply (front_del ext extd m K loc KM d SL LL B); [done|by eapply step_world|done|eapply mids_same; [done|apply S|apply S]| |].
    + intros k [_ [Hx _]]. specialize (Hx eq_refl). unfold relocate in Hx. rewrite decide_True in Hx; [done|left].
    + intros w q k Hne. unfold own. rewrite (step_block _ _ _ SL LL w q k S Hl). unfold mine, relocate. destruct (decide (q ∈ [p])) as [->%list_elem_of_singleton|]; [|done].
      split; intros [H4 [H5 H6]]; (split; [done|split; [|done]]); intros ->; done.
  - intros w q k b [Hq Hne] Hbr. apply Hb in Hq as [Hq _]. assert (Hn : forall x, x ∈ [p] -> SL 0 x /\ ~ x <> p) by (intros x ->%list_elem_of_singleton; by split; [|intros ?]).
    apply (proj2 (keep_cache ext extd m (fun x => x <> p) [p] d d' SL LL W S Hn w q ltac:(intros ->; congruence)) k); done.
  - intros fuel Hro a Ha. destruct (step_pool _ _ _ _ S Ha Hl) as (mm' & -> & _). by apply Hro.
Qed.

Lemma slab_release e K loc KM d SL LL B a p n : front K loc KM d SL LL B -> tight K -> hands K -> B (InSlab a) p n -> roomy d e.(de_fuel) ->
  let mt := meta_of d (v8m_ptr_to_meta p) in
  exists d', (let '(d, cached) := if d.(d_use_tlc) && (mt.(arena_id) =? V8M_ARENA_DEFAULT) then get_or_create e d else (d, false) in
    if cached then
      let '(mm, c, overflowed) := ThreadCache.v8m_thread_cache_free e.(de_tick) (words d) (cur_cache d) mt.(size_class) p in
      let d := set_cur (set_words d mm) c in
      if overflowed then match slab_overflow_to_l2_or_slab e d mt.(size_class) with None => None | Some d => Some (d, None) end
      else Some (d, None)
    else
      match run_slab d mt.(arena_id) (fun st => SlabPool.v8m_slab_pool_free e.(de_fuel) st (v8m_ptr_to_meta p) p) with
      | None => None
      | Some (d, _) => Some (d, None)
      end) = Some (d', @None Z) /\ releases d B (InSlab a) p d'.
Proof.
  intros F Ht Hh Hp Hr mt. pose proof (proj1 (fr_blocks _ _ _ _ _ _ _ _ _ _ F _ _ _) Hp) as [(Ha & Hsp & _) _].
  destruct (slab_header _ _ _ _ _ _ _ a p F Ha Hsp) as (_ & Har & Hs & Hcl & _). fold mt in Har, Hs, Hcl. rewrite Har.
  assert (Hdirect : forall d1, front K loc KM d1 SL LL B -> contents B d d1 -> roomy d1 e.(de_fuel) -> exists d',
    match run_slab d1 a (fun st => SlabPool.v8m_slab_pool_free e.(de_fuel) st (v8m_ptr_to_meta p) p) with None => None | Some (d, _) => Some (d, @None Z) end = Some (d', None) /\ releases d B (InSlab a) p d').
  { intros d1 F1 Hc1 Hr1. destruct (slab_free_front e.(de_fuel) K loc KM d1 SL LL B a p n F1 Hp Hr1) as (d' & em & SL' & -> & F' & Hc & _). exists d'. split; [done|]. split.
    - by exists K, loc, KM, SL', LL.
    - eapply contents_trans; [|exact Hc]. eapply contents_sub; [|exact Hc1]. apply del_sub. }
  destruct (d_use_tlc d && (a =? V8M_ARENA_DEFAULT)) eqn:Huse; [|apply Hdirect; [done|apply contents_refl|done]].
  apply andb_true_iff in Huse as [_ ->%Z.eqb_eq]. change V8M_ARENA_DEFAULT with 0 in *.
  pose proof (get_or_create_front _ _ _ e K loc KM d SL LL B F) as Hg. pose proof (get_or_create_pools e d) as (Ep1 & Ep2). destruct (get_or_create e d) as [d1 ok].
  destruct Hg as (F1 & Hc1 & _ & Hok). cbn [fst] in Ep1, Ep2. assert (Epool : forall b, slab_pool_for_arena d1 b = slab_pool_for_arena d b) by (intros b; unfold slab_pool_for_arena; by rewrite Ep1, Ep2).
  assert (Hr1 : roomy d1 e.(de_fuel)) by (intros b Hb; rewrite Epool; by apply Hr). destruct ok; [|by apply Hdirect]. destruct (Hok eq_refl) as [c Hc].
  destruct (tlc_free_front e K loc KM d1 SL LL B c mt.(size_class) p n F1 Ht Hc Hs Hp) as (mm & c' & o & -> & F2 & Hc2 & Hcc & Ho & Hro).
  { rewrite pages_of_pool, Epool. exact Hcl. }
  cbn beta iota zeta in *. set (K2 := putp K (Bin _) _) in *. set (d2 := set_cur (set_words d1 mm) (Some c')) in *. assert (Hh2 : hands K2) by (intros i Hi; unfold K2; rewrite putp_ne by done; by apply Hh).
  assert (Hct : contents (del_block B (InSlab 0) p) d d2) by (eapply contents_trans; [eapply contents_sub; [apply del_sub|exact Hc1]|done]).
  destruct o; [|exists d2; split; [done|]; split; [|done]; eexists _, _, _, _, _; split; [exact F2|]; split; [by apply Ho|done]].
  destruct (overflow_ok e K2 _ KM d2 SL LL _ c' mt.(size_class) F2 Hh2 Hcc Hs) as (d' & -> & Ho' & Hc').
  - unfold K2. by rewrite putp_eq.
  - intros i Hi Hne. unfold K2. rewrite putp_ne by congruence. by apply Ht.
  - by apply Hro.
  - exists d'. split; [done|]. split; [done|]. by eapply contents_trans.
Qed.

(** ** Buddy blocks *)

Lemma world_write d SL LL p n mm : world ext extd m d SL LL -> BuddyPoolSpec.in_pool d.(d_buddy) p n ->
  (forall x, ~ p <= x < p + n -> rd mm x = rd d.(d_buddy).(BuddyPool.bmem) x) -> world ext extd m (set_buddy d (BuddyPool.set_bmem d.(d_buddy) mm)) SL LL.
Proof.
  intros (O & D & W) Hp Hm. exists O, D. constructor; try apply W. intros s oth Is Hr.
  exact (BuddyPoolSpec.bpool_write _ _ m (BuddyPool.set_bsource d.(d_buddy) s) p n mm (w_buddy _ _ _ _ _ _ _ _ W s oth Is Hr) Hp Hm).
Qed.

Lemma buddy_class n l : 0 <= l <= 6 -> n = 2 ^ (12 + l) -> ThreadCache.V8M_MEDIUM_TLC_FIRST_CLASS <= v8m_size_class n -> 32 <= v8m_size_class n <= 37 /\ class_size (v8m_size_class n) = n.
Proof.
  intros Hl ->. assert (Hc : l = 0 \/ l = 1 \/ l = 2 \/ l = 3 \/ l = 4 \/ l = 5 \/ l = 6) by lia. destruct Hc as [->|[->|[->|[->|[->|[->| ->]]]]]]; by vm_compute.
Qed.

(** The block goes into its bin. *)
Lemma medium_push K loc KM d SL LL B c cls p : front K loc KM d SL LL B -> cur_cache d = Some c -> 32 <= cls <= 37 -> B InBuddy p (class_size cls) -> p <> NULL ->
  let bin := ThreadCache.medium_at c (cls - 32) in bin.(ThreadCache.medium_bin_count) < znth ThreadCache.k_medium_bin_caps (cls - 32) ->
  let mm := wr d.(d_buddy).(BuddyPool.bmem) p bin.(ThreadCache.medium_bin_heads) in
  let c' := ThreadCache.set_medium c (cls - 32) (ThreadCache.MkMedium p (u8 (bin.(ThreadCache.medium_bin_count) + 1))) in
  let d' := set_cur (set_buddy d (BuddyPool.set_bmem d.(d_buddy) mm)) (Some c') in
  (exists KM', front K loc KM' d' SL LL (del_block B InBuddy p)) /\ contents (del_block B InBuddy p) d d'.
Proof.
  intros F Hc Hcls Hp Hpn bin Hcap mm c' d'. pose proof F as [W C M Hb]. apply Hb in Hp as [Hp [_ Hpm]]. specialize (Hpm eq_refl).
  assert (Hi : medium_index (cls - 32)) by (unfold medium_index; lia). pose proof (mi_bins _ _ M) as Mb. rewrite Hc in Mb. destruct Mb as [H6 Mb].
  destruct (Mb _ Hi) as (Hch & Hct & Hlen). fold bin in Hch, Hct. pose proof W as (O & D & Wa). destruct (buddy_block _ _ _ _ _ _ _ _ _ _ Wa Hp) as (r & _ & _ & _ & H0 & _).
  assert (Hmm : forall x, x <> p -> rd mm x = rd d.(d_buddy).(BuddyPool.bmem) x) by (intros x Hx; apply rd_wr_ne; congruence).
  assert (W1 : world ext extd m (set_buddy d (BuddyPool.set_bmem d.(d_buddy) mm)) SL LL) by (apply (world_write d SL LL p (class_size cls)); [done|done|]; intros x Hx; apply Hmm; lia).
  destruct (world_ext ext extd m (set_buddy d (BuddyPool.set_bmem d.(d_buddy) mm)) d' SL LL) as (W' & Hbl & _); [done..|].
  assert (Hbl' : forall w q k, block_at d' SL LL w q k <-> block_at d SL LL w q k) by (intros w q k; by rewrite Hbl; destruct w).
  pose proof (cur_set (set_buddy d (BuddyPool.set_bmem d.(d_buddy) mm)) c c' Hc : cur_cache d' = Some c') as Hc'.
  assert (Hl4 : (length (KM (cls - 32)%Z) < 4)%nat).
  { assert (znth ThreadCache.k_medium_bin_caps (cls - 32) <= 4); [|lia]. assert (Hx : cls = 32 \/ cls = 33 \/ cls = 34 \/ cls = 35 \/ cls = 36 \/ cls = 37) by lia.
    destruct Hx as [->|[->|[->|[->|[->| ->]]]]]; by vm_compute. }
  assert (M' : mids d' (put KM (cls - 32) (p :: KM (cls - 32)))).
  { apply (mids_update d d' KM c (cls - 32) _ _ M Hc Hi Hc'); [| |by apply chain_push| |cbn; lia|].
    - intros j x _ Hx. apply Hmm. intros ->. by apply (Hpm j).
    - by intros x k Hk.
    - cbn [ThreadCache.medium_bin_count]. rewrite Hct. cbn [length]. rewrite u8_small; lia.
    - intros x [->|Hx]%elem_of_cons; (split; [|intros j Hj]); [by replace (V8M_MEDIUM_FIRST_CLASS + (cls - 32)) with cls by (change V8M_MEDIUM_FIRST_CLASS with 32; lia)|by apply Hpm|by apply (mi_held _ _ M)|by apply (mi_apart _ _ M (cls - 32))]. }
  split.
  - eexists. apply (front_del ext extd m K loc KM d SL LL B); [done|done| |exact M'| |].
    + apply (caches_other d); [done| |done|done]. unfold same_cur. by rewrite Hc, Hc'.
    + intros k [_ [_ Hx]]. apply (Hx eq_refl (cls - 32)). rewrite put_eq. left.
    + intros w q k Hne. unfold own. rewrite Hbl'. split; intros [H1 [H2 H3]]; (split; [done|]); (split; [done|]); intros -> j Hj; apply (H3 eq_refl j);
        (destruct (decide (j = cls - 32)) as [Ej|Ej]; [rewrite Ej, put_eq in *|rewrite put_ne in * by done; done]); [apply elem_of_cons in Hj as [->|?]; done|by right].
  - intros w q k b [Hq Hne] Hr. apply Hb in Hq as [Hq _]. destruct w as [a| |]; cbn; [done| |done]. apply Hmm. intros ->.
    destruct (blocks_disjoint _ _ _ _ _ _ _ _ InBuddy p (class_size cls) InBuddy q k Wa Hp Hq); [congruence|lia|lia].
Qed.

Lemma medium_free_front e K loc KM d SL LL B p n : front K loc KM d SL LL B -> tight K -> hands K -> B InBuddy p n ->
  let '(d', full) := medium_free e d p in
  if full then (exists KM', front K loc KM' d' SL LL B) /\ contents B d d' else releases d B InBuddy p d'.
Proof.
  intros F Ht Hh Hp. unfold medium_free. destruct (d_use_tlc d && negb (de_soft_limit e)); [|by split; [exists KM|apply contents_refl]].
  pose proof (get_or_create_front _ _ _ e K loc KM d SL LL B F) as Hg. destruct (get_or_create e d) as [d1 ok]. destruct Hg as (F1 & Hc1 & _ & Hok).
  destruct ok; [|by split; [exists KM|]]. destruct (Hok eq_refl) as [c Hc]. pose proof (proj1 (fr_blocks _ _ _ _ _ _ _ _ _ _ F1 _ _ _) Hp) as [Hin _].
  pose proof (fr_world _ _ _ _ _ _ _ _ _ _ F1) as (O & D & Wa). destruct (BuddyPoolSpec.bpool_block_size _ _ _ _ _ _ (world_buddy _ _ _ _ _ _ _ _ Wa) Hin) as (Hpn & Hbs & Hn0).
  change (BuddyPool.v8m_buddy_pool_block_size d1.(d_buddy) p = n) in Hbs. rewrite Hbs, (proj2 (Z.eqb_neq _ _) Hn0).
  destruct (_ && _) eqn:Hcl; [|by split; [exists KM|]]. apply andb_true_iff in Hcl as [Hcl%Z.leb_le _].
  assert (Ho1 : dispatch_ok d1 B) by (by exists K, loc, KM, SL, LL). destruct (buddy_block_shape _ _ _ d1 B p n Ho1 Hp) as (_ & l & Hl & Hln).
  destruct (buddy_class n l Hl Hln Hcl) as [Hr Hsz]. set (cls := v8m_size_class n) in *. unfold ThreadCache.v8m_thread_cache_medium_free. rewrite Hc, (proj2 (Z.eqb_neq _ _) Hpn).
  unfold ThreadCache.V8M_MEDIUM_TLC_FIRST_CLASS, ThreadCache.V8M_MEDIUM_TLC_LAST_CLASS. change V8M_MEDIUM_FIRST_CLASS with 32. rewrite (proj2 (Z.ltb_ge cls 32)), (proj2 (Z.ltb_ge 37 cls)) by lia. cbn [orb].
  destruct (Z.leb_spec (znth ThreadCache.k_medium_bin_caps (cls - 32)) (ThreadCache.medium_at c (cls - 32)).(ThreadCache.medium_bin_count)) as [Hfull|Hroom].
  - set (d2 := set_cur _ _). destruct (front_quiet ext extd m K loc KM d1 d2 SL LL B F1) as [F2 Hc2].
    { pose proof (cur_set (set_buddy d1 (BuddyPool.set_bmem d1.(d_buddy) d1.(d_buddy).(BuddyPool.bmem))) c c Hc : cur_cache d2 = Some c) as E. apply quiet_cur; try done; [cbn; by destruct (d_buddy d1)|by rewrite E, Hc]. }
    split; [by exists KM|by eapply contents_trans].
  - rewrite <- Hsz in Hp. destruct (medium_push K loc KM d1 SL LL B c cls p F1 Hc Hr Hp Hpn Hroom) as [[KM' F2] Hc2]. split.
    + by exists K, loc, KM', SL, LL.
    + eapply contents_trans; [|exact Hc2]. eapply contents_sub; [apply del_sub|done].
Qed.

Lemma buddy_free_front e K loc KM d SL LL B p n : front K loc KM d SL LL B -> B InBuddy p n -> BuddyPoolSpec.mode_ok m e.(de_config) ->
  exists d' r, run_buddy d (fun st => Some (BuddyPool.v8m_buddy_pool_free e.(de_config) st p)) = Some (d', r) /\
    front K loc KM d' SL LL (del_block B InBuddy p) /\ contents (del_block B InBuddy p) d d'.
Proof.
  intros F Hp Hmode. pose proof F as [W C M Hb]. apply Hb in Hp as [Hp [_ Hpm]]. specialize (Hpm eq_refl). cbn in Hp. pose proof W as (O & D & Wa).
  edestruct (run_buddy_ok ext extd m d SL LL (fun st => Some (BuddyPool.v8m_buddy_pool_free e.(de_config) st p))
    (fun st' _ => BuddyPoolSpec.blocks_kept d.(d_buddy) st' /\ (forall q k, BuddyPoolSpec.in_pool st' q k <-> BuddyPoolSpec.in_pool d.(d_buddy) q k /\ (q, k) <> (p, n))) W) as (st' & r & He & W' & Hk & Hi).
  { intros oth od st P. destruct (BuddyPoolSpec.bpool_free_ok oth od m e.(de_config) st p n P Hp Hmode) as (st' & He & P' & Hk & Hi). exists st', true. by rewrite He. }
  eexists _, r. split; [exact He|]. set (d' := set_src _ _) in *.
  assert (Huniq : forall k, BuddyPoolSpec.in_pool d.(d_buddy) p k -> k = n).
  { intros k Hk'. by destruct (block_unique _ _ _ _ _ _ _ _ InBuddy p k InBuddy n Wa Hk' Hp). }
  split.
  - apply (front_del ext extd m K loc KM d SL LL B); [done|done|apply (caches_other d); [done|apply same_cur_eq|..]; done| | |].
    + apply (mids_frame d); [done|done|]. intros i x Hx. pose proof (mi_held _ _ M i x Hx) as Hxp. assert (Hxn : x <> p) by (intros ->; by apply (Hpm i)).
      assert (Hx' : BuddyPoolSpec.in_pool st' x (class_size (V8M_MEDIUM_FIRST_CLASS + i))) by (apply Hi; split; [done|congruence]). split; [done|].
      eapply Hk; [exact Hxp|exact Hx'|]. destruct (buddy_block _ _ _ _ _ _ _ _ _ _ Wa Hxp) as (r' & _ & _ & _ & H0 & _). lia.
    + intros k [Hx _]. apply Hi in Hx as [Hx Hne]. by rewrite (Huniq k Hx) in Hne.
    + intros w q k Hne. unfold own. destruct w as [a| |]; cbn; [done| |done]. rewrite Hi. split; [intros [? ?]; split; [split; [done|congruence]|done]|]. by intros [[? _] ?].
  - intros w q k b [Hq Hne] Hr. apply Hb in Hq as [Hq _]. destruct w as [a| |]; cbn; [done| |done]. apply (Hk q k); [done| |done]. apply Hi. split; [done|congruence].
Qed.

(** ** Large objects *)

Lemma large_free_front K loc KM d SL LL B p n : front K loc KM d SL LL B -> B InLarge p n ->
  match run_large d (fun st => match Large.v8m_large_free st p with None => None | Some st => Some (st, tt) end) with
  | Some (d', _) => (exists LL', front K loc KM d' SL LL' (del_block B InLarge p)) /\ contents (del_block B InLarge p) d d' /\ LargeSpec.zone_intact d.(d_large) (p, n)
  | None => ~ LargeSpec.zone_intact d.(d_large) (p, n)
  end.
Proof.
  intros F Hp. pose proof F as [W C M Hb]. apply Hb in Hp as [Hp _]. cbn in Hp. pose proof W as (O & D & Wa).
  destruct (elem_of_Permutation LL (p, n)) as [[LL' HLL] _]; [done|]. set (st := Large.set_lsource d.(d_large) d.(d_src)).
  pose proof (fun oth od P => LargeSpec.large_free_ok od oth st LL' (p, n) (LargeSpec.large_ok_perm od oth st LL _ HLL P)) as Hfree. cbn [fst] in Hfree.
  destruct (Large.v8m_large_free st p) as [st'|] eqn:E.
  2: { unfold run_large. fold st. rewrite E. by destruct (Hfree _ _ (world_large _ _ _ _ _ _ _ _ Wa)) as [_ ?]. }
  destruct (run_large_ok ext extd m d SL LL (fun st => match Large.v8m_large_free st p with None => None | Some st => Some (st, tt) end) (fun _ => LL')
    (fun st' _ => LargeSpec.bytes_kept d.(d_large) st' LL' /\ LargeSpec.zone_intact d.(d_large) (p, n)) st' tt W) as (-> & W' & Hk & Hz).
  { fold st. by rewrite E. }
  { intros oth od P. destruct (Hfree oth od P) as (Hz & P' & Hk). by split_and!. }
  { intros x Hx. left. rewrite HLL. by right. }
  set (d' := set_src _ _) in *.
  assert (Hnew : forall k, (p, k) ∉ LL').
  { intros k Hk'. pose proof Hk' as [j Hj]%list_elem_of_lookup_1. pose proof (world_large _ _ _ _ _ _ _ _ Wa) as P. destruct (LargeSpec.lo_objs _ _ _ _ P _ Hp) as [_ _ [H0 _] _ _]. cbn in H0.
    assert (Hk2 : (p, k) ∈ LL) by (rewrite HLL; by right). destruct (LargeSpec.lo_objs _ _ _ _ P _ Hk2) as [_ _ [H0' _] _ _]. cbn in H0'.
    pose proof (LargeSpec.objects_disjoint _ _ _ _ 0 (S j) (p, n) (p, k) (LargeSpec.large_ok_perm _ _ _ _ _ HLL P) eq_refl Hj ltac:(lia)) as Hd. cbn in Hd. lia. }
  assert (Hiff : forall q k, q <> p -> (q, k) ∈ LL <-> (q, k) ∈ LL') by (intros q k Hne; rewrite HLL, elem_of_cons; split; [intros [[= -> ->]|?]; done|by right]).
  split_and!; [|intros w q k b [Hq Hne] Hr; apply Hb in Hq as [Hq _]; destruct w as [a| |]; cbn; [done|done|]; apply (Hk (q, k) b); [apply Hiff; [congruence|done]|done]|done].
  exists LL'. apply (front_del ext extd m K loc KM d SL LL B); [done|done|apply (caches_other d); [done|apply same_cur_eq|..]; done|by eapply mids_same| |].
  - intros k [Hx _]. by apply (Hnew k).
  - intros w q k Hne. unfold own. destruct w as [a| |]; cbn; [done|done|]. rewrite Hiff by congruence. done.
Qed.

(** ** Every release *)

Lemma block_owned d B w p n : dispatch_ok d B -> B w p n -> p <> NULL /\ ps_owns d.(d_src) p = true.
Proof.
  intros (K & loc & KM & SL & LL & F & _) Hp. pose proof F as [(O & D & Wa) _ _ Hb]. apply Hb in Hp as [Hp _].
  destruct (block_range _ _ _ _ _ _ _ _ _ _ _ Wa Hp) as (Ow & r & Hr & H1 & H2 & H3 & H4). destruct (share_sound _ _ _ _ _ _ _ _ _ _ Wa Ow Hr) as (Hin & H5 & _).
  split; [unfold NULL; lia|]. apply (ps_owns_law _ p (w_src _ _ _ _ _ _ _ _ Wa)); [lia|]. exists r. split; [done|lia].
Qed.

Lemma dispatch_free_ok e d B w p n : dispatch_ok d B -> B w p n -> roomy d e.(de_fuel) -> BuddyPoolSpec.mode_ok m e.(de_config) ->
  (w = InBuddy -> rd d.(d_buddy).(BuddyPool.bmem) (v8m_ptr_to_meta p) <> V8M_MAGIC) ->
  match v8m_dispatch_free e d p with
  | Some (d', r) => r = None /\ releases d B w p d'
  | None => w = InLarge /\ ~ LargeSpec.zone_intact d.(d_large) (p, n)
  end.
Proof.
  intros Ho Hp Hr Hmode Hforge. destruct (block_owned d B w p n Ho Hp) as [Hpn Hown]. destruct Ho as (K & loc & KM & SL & LL & F & Ht & Hh).
  unfold v8m_dispatch_free. rewrite (proj2 (Z.eqb_neq _ _) Hpn), Hown. cbn [negb]. pose proof (proj1 (fr_blocks _ _ _ _ _ _ _ _ _ _ F _ _ _) Hp) as [Hblk _].
  pose proof (fr_world _ _ _ _ _ _ _ _ _ _ F) as (O & D & Wa). destruct w as [a| |].
  - pose proof Hblk as (Ha & Hsp & _). destruct (slab_header _ _ _ _ _ _ _ a p F Ha Hsp) as (-> & _ & [_ Hs] & _). rewrite (proj2 (Z.ltb_lt _ _) Hs).
    destruct (slab_release e K loc KM d SL LL B a p n F Ht Hh Hp Hr) as (d' & He & Hd). cbv zeta in He |- *. rewrite He. done.
  - cbn in Hblk. rewrite (meta_buddy _ _ _ _ _ _ _ _ p n Wa Hblk). unfold v8m_page_meta_valid at 1. cbn [magic word_meta].
    rewrite (proj2 (Z.eqb_neq _ _) (Hforge eq_refl)), andb_false_r. pose proof (medium_free_front e K loc KM d SL LL B p n F Ht Hh Hp) as Hmf.
    destruct (medium_free e d p) as [d1 full]. destruct full; [|done]. destruct Hmf as [[KM1 F1] Hc1].
    destruct (buddy_free_front e K loc KM1 d1 SL LL B p n F1 Hp Hmode) as (d' & r & -> & F' & Hc'). split; [done|]. split.
    + by exists K, loc, KM1, SL, LL.
    + eapply contents_trans; [|exact Hc']. eapply contents_sub; [apply del_sub|done].
  - cbn in Hblk. destruct (meta_large _ _ _ _ _ _ _ _ p n Wa Hblk) as (Hmg & Hsc & Hpg). unfold v8m_page_meta_valid. unfold NULL. rewrite Hmg, Z.eqb_refl, (proj2 (Z.eqb_neq _ 0)) by lia.
    cbn [negb andb]. rewrite (proj2 (Z.ltb_ge _ _) Hsc). pose proof (large_free_front K loc KM d SL LL B p n F Hp) as Hlf.
    destruct (run_large d _) as [[d' u]|]; [|done]. destruct Hlf as ((LL' & F') & Hc & _). split; [done|]. split; [|done]. by exists K, loc, KM, SL, LL'.
Qed.

End Free.
End DispatchFree.
