(* ===== verification/DispatchSpec.v ===== *)
(** What the dispatcher promises ([Dispatch]): start-up, allocation, release,
    usable sizes, the program's own stores, and whole programs. *)

From S2P Require Import Prelude SizeClass Page Config RemoteFree Buddy BuddyTree BuddyInv CoreCache Refill Os PageHeapSpec PageSource NumaPool SlabPage SlabPool SlabPoolSpec BuddyPool BuddyPoolSpec Large LargeSpec ThreadCache ThreadCacheSpec ThreadRegistry Lifetime Dispatch DispatchInv DispatchCache DispatchStep DispatchAlloc DispatchFree.
Import SizeClass Page PageSource Dispatch DispatchInv DispatchCache DispatchStep DispatchAlloc DispatchFree.

Module DispatchSpec.

Definition no_blocks (w : owner) (p n : Z) : Prop := False.

Section Spec.
Context `{PSL : PageSourceLaws} (ext extd : list (Z * Z)) (m : bool) (cpu_of : src -> Z).
Notation front := (front ext extd m).
Notation dispatch_ok := (dispatch_ok ext extd m).

(** ** Start-up *)

(** The zeroed statics of the process, over the page heap [s]. *)
Definition boot_pool (s : src) : SlabPool.slab_pool := SlabPool.MkPool [] false [] ∅ ∅ (replicate 64 NumaPool.node0) false s.
Definition boot (s : src) : v8m_dispatch :=
  MkDispatch (boot_pool s) [boot_pool s; boot_pool s; boot_pool s] (BuddyPool.MkBPool (replicate 256 BuddyPool.arena0) ∅ s) false
    (Large.MkL (Large.MkLStats 0 0 0 0 0 0) [] ∅ ∅ ∅ s) (CoreCache.MkCores ∅ (replicate 41 CoreCache.V8M_STEAL_NO_DONOR) 0) (Refill.v8m_refill_controller_init 0)
    (ThreadRegistry.MkReg NULL ∅ ThreadCache.hist0 ThreadCache.lstats0 0 0 0 0 0 false) (ThreadRegistry.MkTls NULL false false NULL) NULL s.

(** A huge-page pool that holds no huge page. *)
Definition idle_numa (np : NumaPool.v8m_numa_pool) : Prop :=
  length np = 64%nat /\ Forall (fun nd => nd.(NumaPool.n_partials) = [] /\ nd.(NumaPool.n_fulls) = []) np /\ NumaPool.all_descs np = [].
Lemma idle_numa0 : idle_numa (replicate 64 NumaPool.node0).
Proof. split; [done|]. split; [by apply Forall_replicate|by vm_compute]. Qed.

(** A slab pool without pages. *)
Lemma empty_pool_ok oth od a st s : ps_inv s -> ps_regions s ≡ₚ oth -> ps_descs s ≡ₚ od ->
  st.(SlabPool.pages) = ∅ -> st.(SlabPool.classes) = replicate 32 SlabPool.class0 -> st.(SlabPool.drained) = [] -> idle_numa st.(SlabPool.g_slab_numa_pool) ->
  SlabPoolSpec.pool_ok oth od nobody a (lend_slab s st) (fun _ => False).
Proof.
  intros Is Hr Hd Ep Ec Edr (Nl & Ne & Nd). assert (Hno : forall p mt, (lend_slab s st).(SlabPool.pages) !! p = Some mt -> False) by (intros p mt; cbn; by rewrite Ep, lookup_empty).
  constructor.
  - cbn. by rewrite Ec.
  - constructor; [by intros p mt ?%Hno|done].
  - intros i Hi. assert (Hcl : SlabPool.class_at (lend_slab s st) i = SlabPool.class0) by (unfold SlabPool.class_at, lend_slab; cbn; rewrite Ec; by rewrite lookup_replicate_2 by lia).
    rewrite Hcl. constructor; [by left|]. exists []. split; [done|]. intros p. split; [by intros ?%not_elem_of_nil|]. by intros (mt & ?%Hno & _).
  - by intros p mt ?%Hno.
  - exists [], []. cbn. rewrite Edr. split_and!; [|constructor|cbn; lia| |].
    + constructor; [constructor|by intros p ?%not_elem_of_nil| |by intros p ?%not_elem_of_nil|done|].
      * intros q. split; [|intros [?%not_elem_of_nil|[]]; done]. intros (x & i & Hx & _). rewrite Nd in Hx. by apply not_elem_of_nil in Hx.
      * constructor; [done|eapply Forall_impl; [exact Ne|]; intros nd [E1 E2]; split; rewrite ?E1, ?E2; constructor|]. rewrite Nd. constructor; [done|done|done|constructor|constructor].
    + intros p. split; [by intros ?%not_elem_of_nil|]. intros [[mt Hm%Hno]|?%not_elem_of_nil]; done.
    + by intros p [mt Hm%Hno].
Qed.

Lemma boot_world d s : d.(d_src) = s -> ps_inv s -> ps_regions s ≡ₚ ext -> ps_descs s ≡ₚ extd ->
  length d.(d_slab_lifetime) = 3%nat ->
  (forall a, arena a -> let st := slab_pool_for_arena d a in st.(SlabPool.pages) = ∅ /\ st.(SlabPool.classes) = replicate 32 SlabPool.class0 /\
     st.(SlabPool.drained) = [] /\ idle_numa st.(SlabPool.g_slab_numa_pool)) ->
  d.(d_buddy).(BuddyPool.arenas) = replicate 256 BuddyPool.arena0 -> d.(d_large) = Large.MkL (Large.MkLStats 0 0 0 0 0 0) [] ∅ ∅ ∅ s ->
  world ext extd m d (fun _ _ => False) [].
Proof.
  intros Es Is Hr Hd Hl Hp Ha Hlg. exists (fun _ => []), (fun _ => []). constructor; rewrite ?Es; try done.
  - unfold bown, lown. rewrite Ha, Hlg. cbn. done.
  - intros a Hax. destruct (Hp a Hax) as (H1 & H2 & H3 & H4). split; [intros p [mt Hm]; by rewrite H1, lookup_empty in Hm|].
    intros s' oth od Is' Hr' Hd'. by apply empty_pool_ok.
  - intros s' oth Is' Hr'. unfold bown in Hr'. rewrite Ha in Hr'. constructor; cbn; rewrite ?Ha; try done; by intros i a [-> _]%lookup_replicate.
  - intros s' oth Is' Hr'. unfold lown in Hr'. rewrite Hlg in *. constructor; cbn; [by intros x ?%not_elem_of_nil|by intros x ?%not_elem_of_nil|lia|by split|done|by constructor].
  - by intros x ?%not_elem_of_nil.
Qed.

Lemma boot_front d : world ext extd m d (fun _ _ => False) [] -> d.(d_buddy).(BuddyPool.arenas) = replicate 256 BuddyPool.arena0 ->
  cur_cache d = None -> d.(d_cores).(CoreCache.g_caches) = ∅ -> dispatch_ok d no_blocks.
Proof.
  intros W Ha Hc Hg. exists (fun _ => []), (fun _ => None), (fun _ => []), (fun _ _ => False), []. split; [|split; [intros i Hi; cbn; lia|done]].
  constructor; [done| | |].
  - constructor; try done.
    + unfold bins_held. by rewrite Hc.
    + intros cpu cls _. unfold CoreCache.holds, CoreCache.stack_word. rewrite Hg, lookup_empty. by split; [cbn|].
    + intros cls _. cbn. lia.
    + intros w _. constructor.
    + intros w x _. split; [by intros ?%not_elem_of_nil|done].
  - constructor; [by rewrite Hc|done|by intros i x ?%not_elem_of_nil|by intros i j x _ ?%not_elem_of_nil].
  - intros w p n. split; [done|]. intros [Hb _]. destruct w as [a| |]; cbn in Hb; [by destruct Hb as (_ & [] & _)| |by apply not_elem_of_nil in Hb].
    destruct Hb as (i & ar & Hi & Hu & _). rewrite Ha in Hi. apply lookup_replicate in Hi as [-> _]. done.
Qed.

(** The state after [v8m_dispatch_init]. *)
Definition ready_pool (s : src) : SlabPool.slab_pool :=
  SlabPool.MkPool (replicate 32 SlabPool.class0) false [] ∅ ∅ (replicate 64 NumaPool.node0) false s.
Definition booted (s : src) : v8m_dispatch :=
  MkDispatch (ready_pool s) [ready_pool s; ready_pool s; ready_pool s] (BuddyPool.MkBPool (replicate 256 BuddyPool.arena0) ∅ s) false
    (Large.MkL (Large.MkLStats 0 0 0 0 0 0) [] ∅ ∅ ∅ s) (CoreCache.MkCores ∅ (replicate 41 CoreCache.V8M_STEAL_NO_DONOR) 0) (Refill.v8m_refill_controller_init 0)
    (ThreadRegistry.MkReg NULL ∅ ThreadCache.hist0 ThreadCache.lstats0 0 0 0 0 0 false) (ThreadRegistry.MkTls NULL false false NULL) NULL s.

Lemma boot_init fuel s : v8m_dispatch_init fuel (fun _ => 0) (boot s) = Some (booted s, 0).
Proof. reflexivity. Qed.

Lemma booted_ok s : ps_inv s -> ps_regions s ≡ₚ ext -> ps_descs s ≡ₚ extd -> dispatch_ok (booted s) no_blocks.
Proof.
  intros Is Hr Hd. apply boot_front; [|reflexivity|reflexivity|reflexivity]. apply (boot_world (booted s) s); [reflexivity|exact Is|exact Hr|exact Hd|reflexivity| |reflexivity|reflexivity].
  intros a Ha. unfold arena, V8M_ARENA_COUNT in Ha. assert (Hc : a = 0 \/ a = 1 \/ a = 2 \/ a = 3) by lia. destruct Hc as [->|[->|[->| ->]]]; (split; [reflexivity|split; [reflexivity|split; [reflexivity|apply idle_numa0]]]).
Qed.

(** ** Usable sizes *)

Lemma usable_ok d B w p n : dispatch_ok d B -> B w p n -> (w = InBuddy -> rd d.(d_buddy).(BuddyPool.bmem) (v8m_ptr_to_meta p) <> V8M_MAGIC) ->
  n <= v8m_dispatch_usable_size d p /\ (w <> InLarge -> v8m_dispatch_usable_size d p = n).
Proof.
  intros Ho Hp Hforge. destruct (block_owned _ _ _ d B w p n Ho Hp) as [Hpn _]. destruct Ho as (K & loc & KM & SL & LL & F & Ht & Hh).
  unfold v8m_dispatch_usable_size. rewrite (proj2 (Z.eqb_neq _ _) Hpn). pose proof (proj1 (fr_blocks _ _ _ _ _ _ _ _ _ _ F _ _ _) Hp) as [Hblk _].
  pose proof (fr_world _ _ _ _ _ _ _ _ _ _ F) as (O & D & Wa). destruct w as [a| |].
  - pose proof Hblk as (Ha & Hsp & mt & Hm & ->). destruct (slab_header _ _ _ _ _ _ _ _ _ _ a p F Ha Hsp) as (-> & _ & [_ Hs] & _). rewrite (proj2 (Z.ltb_lt _ _) Hs).
    rewrite (meta_slab _ _ _ _ _ _ _ _ a p Wa Ha Hsp) in Hm. injection Hm as <-. done.
  - cbn in Hblk. rewrite (meta_buddy _ _ _ _ _ _ _ _ p n Wa Hblk). unfold v8m_page_meta_valid. cbn [magic word_meta]. rewrite (proj2 (Z.eqb_neq _ _) (Hforge eq_refl)), andb_false_r.
    destruct (BuddyPoolSpec.bpool_block_size _ _ _ _ _ _ (world_buddy _ _ _ _ _ _ _ _ Wa) Hblk) as (_ & Hbs & _). change (BuddyPool.v8m_buddy_pool_block_size d.(d_buddy) p = n) in Hbs.
    rewrite Hbs. done.
  - cbn in Hblk. destruct (meta_large _ _ _ _ _ _ _ _ p n Wa Hblk) as (Hmg & Hsc & Hpg). unfold v8m_page_meta_valid, NULL. rewrite Hmg, Z.eqb_refl, (proj2 (Z.eqb_neq _ 0)) by lia.
    cbn [negb andb]. rewrite (proj2 (Z.ltb_ge _ _) Hsc). split; [|done].
    exact (proj2 (LargeSpec.usable_spec _ _ _ _ (p, n) (world_large _ _ _ _ _ _ _ _ Wa) Hblk)).
Qed.

(** ** Stores of the program *)

Definition store (d : v8m_dispatch) (w : owner) (b v : Z) : v8m_dispatch :=
  match w with
  | InSlab a => set_pool d a (SlabPool.set_smem (slab_pool_for_arena d a) (wr (slab_pool_for_arena d a).(SlabPool.smem) b v))
  | InBuddy => set_buddy d (BuddyPool.set_bmem d.(d_buddy) (wr d.(d_buddy).(BuddyPool.bmem) b v))
  | InLarge => set_large d (Large.set_bytes d.(d_large) (wr d.(d_large).(Large.l_bytes) b v))
  end.

Lemma slab_store_ok oth od a st Lv q mt b v : SlabPoolSpec.pool_ok oth od nobody a st Lv -> Lv q -> st.(SlabPool.pages) !! v8m_ptr_to_meta q = Some mt ->
  q <= b < q + mt.(object_size) -> SlabPoolSpec.pool_ok oth od nobody a (SlabPool.set_smem st (wr st.(SlabPool.smem) b v)) Lv.
Proof.
  intros P Hq Hm Hb. constructor; [apply P| |apply P|apply P|apply P]. pose proof (SlabPoolSpec.po_slabs _ _ _ _ _ _ P) as Sok. destruct Sok as [Sp Sl]. constructor; [|done]. cbn.
  intros p mt' Hp. destruct (Sp p mt' Hp) as (Hbs & Hu & Hok). split_and!; [done|done|]. apply (SlabPage.slab_write _ _ st.(SlabPool.smem)); [done|done|].
  intros x Hx Hn. destruct (decide (x = b)) as [->|Hne]; [|by apply rd_wr_ne]. exfalso. destruct (Sp _ _ Hm) as (Hbs' & _ & Hok').
  destruct (Sl q Hq) as (p' & Hp' & Hin'). assert (Hqp : v8m_ptr_to_meta q = p') by (destruct Hp' as [m' Hm']; destruct (Sp _ _ Hm') as (Hb2 & _); apply ptr_to_meta_inside; [done|unfold SlabPage.in_page, V8M_SLAB_HEADER_SIZE in Hin'; lia]).
  subst p'. set (p' := v8m_ptr_to_meta q) in *. destruct (SlabPage.slab_inside _ _ _ _ _ Hbs' Hok' q ltac:(done)) as [_ Hfit].
  assert (p' = p). { assert (Hbp : SlabPage.in_page p' b) by (unfold SlabPage.in_page in *; lia). by eapply SlabPoolSpec.in_page_unique. }
  subst p. rewrite Hm in Hp. injection Hp as <-. by apply (Hn q).
Qed.

Lemma store_world d SL LL w p n b v : world ext extd m d SL LL -> block_at d SL LL w p n -> p <= b < p + n ->
  world ext extd m (store d w b v) SL LL /\ (forall w' q k, block_at (store d w b v) SL LL w' q k <-> block_at d SL LL w' q k) /\
  (forall w' x, owner_ok w' -> (w', x) <> (w, b) -> rd (mem_of (store d w b v) w') x = rd (mem_of d w') x) /\ rd (mem_of (store d w b v) w) b = v.
Proof.
  intros (O & D & W) Hp Hb. destruct w as [a| |].
  - pose proof Hp as (Ha & Hsp & mt & Hm & ->). pose proof (w_len _ _ _ _ _ _ _ _ W) as Hl. cbn [store]. set (st' := SlabPool.set_smem _ _).
    destruct (set_pool_same d a st') as (Eb & El & _ & _ & _ & _ & Ell). assert (Ep : forall b, arena b -> slab_pool_for_arena (set_pool d a st') b = if b =? a then st' else slab_pool_for_arena d b) by (intros; by apply pool_set).
    assert (Epg : forall b, arena b -> (slab_pool_for_arena (set_pool d a st') b).(SlabPool.pages) = (slab_pool_for_arena d b).(SlabPool.pages)).
    { intros c Hc. rewrite (Ep c Hc). by destruct (Z.eqb_spec c a) as [->|]. }
    assert (Es : d_src (set_pool d a st') = d_src d) by (unfold set_pool; by destruct (_ || _)).
    split_and!.
    + exists O, D. constructor; rewrite ?Eb, ?El, ?Ell, ?Es; try apply W. intros c Hc. rewrite (Ep c Hc). destruct (Z.eqb_spec c a) as [->|]; [|by apply W].
      destruct (w_slab _ _ _ _ _ _ _ _ W a Ha) as [Hpw Hh]. split; [done|]. intros s oth od Is Hr Hd.
      exact (slab_store_ok oth od a (lend_slab s (slab_pool_for_arena d a)) (SL a) p mt b v (Hh s oth od Is Hr Hd) Hsp Hm Hb).
    + intros [c| |] q k; cbn; rewrite ?Eb; [|done|done]. split; intros (Hc & Hq & mt' & Hm' & Hk); (split; [done|]); (split; [done|]); exists mt'; rewrite (Epg c Hc) in *; done.
    + intros [c| |] x Hc Hne; cbn; rewrite ?Eb, ?El; [|done|done]. cbn in Hc. rewrite (Ep c Hc). destruct (Z.eqb_spec c a) as [->|]; [|done]. cbn. apply rd_wr_ne. congruence.
    + cbn. rewrite (Ep a Ha), Z.eqb_refl. cbn. apply rd_wr_eq.
  - cbn in Hp. split_and!; [| |intros [c| |] x _ Hne; cbn; [done|apply rd_wr_ne; congruence|done]|cbn; apply rd_wr_eq].
    + apply (world_write _ _ _ d SL LL p n); [by exists O, D|done|]. intros x Hx. apply rd_wr_ne. intros ->. lia.
    + by intros [c| |] q k.
  - split_and!; [| |intros [c| |] x _ Hne; cbn; [done|done|apply rd_wr_ne; congruence]|cbn; apply rd_wr_eq].
    + exists O, D. constructor; try apply W. intros s oth Is Hr. destruct (w_large _ _ _ _ _ _ _ _ W s oth Is Hr) as [H1 H2 H3 H4 H5 [A1 A2 A3 A4]]. constructor; try done.
      intros x Hx. by destruct (H1 x Hx).
    + by intros [c| |] q k.
Qed.

Lemma store_ok d B w p n b v : dispatch_ok d B -> B w p n -> p <= b < p + n ->
  dispatch_ok (store d w b v) B /\ contents (del_block B w p) d (store d w b v) /\ rd (mem_of (store d w b v) w) b = v.
Proof.
  intros (K & loc & KM & SL & LL & F & Ht & Hh) Hp Hb. pose proof F as [W C M Hbl]. pose proof (proj1 (Hbl _ _ _) Hp) as [Hblk Hmine].
  destruct (store_world d SL LL w p n b v W Hblk Hb) as (W' & Hbl' & Hmem & Hv). pose proof W as (O & D & Wa). set (d' := store d w b v) in *.
  assert (Hreg : cur_cache d' = cur_cache d /\ d'.(d_cores) = d.(d_cores)).
  { destruct w as [a| |]; try done. unfold d'. cbn [store]. destruct (set_pool_same d a (SlabPool.set_smem (slab_pool_for_arena d a) (wr (slab_pool_for_arena d a).(SlabPool.smem) b v))) as (_ & _ & _ & Ec & Er & Et & _).
    unfold cur_cache. by rewrite Er, Et, Ec. }
  destruct Hreg as [Hcur Hcor].
  assert (Hother : forall w' q k x, block_at d SL LL w' q k -> (w', q) <> (w, p) -> q <= x < q + k -> rd (mem_of d' w') x = rd (mem_of d w') x).
  { intros w' q k x Hq Hne Hx. destruct (block_range _ _ _ _ _ _ _ _ _ _ _ Wa Hq) as (Ow & _). apply Hmem; [done|]. intros [= -> ->].
    destruct (blocks_disjoint _ _ _ _ _ _ _ _ _ _ _ _ _ _ Wa Hq Hblk); [congruence|lia|lia]. }
  split_and!; [|intros w' q k x [Hq Hne] Hx; apply Hbl in Hq as [Hq _]; by apply (Hother w' q k)|done].
  exists K, loc, KM, SL, LL. split; [|done]. apply (front_eq ext extd m K loc KM d SL LL B); [done|done| | |intros w' q k; unfold own; by rewrite Hbl'].
  - apply (caches_frame d d' K loc (SL 0)); [done|by apply same_cur_eq|done| |done|].
    + intros x w' Hx. destruct (ca_held _ _ _ _ C x w' Hx) as (_ & Hsx & _). destruct (slab_object _ _ _ _ _ _ _ _ 0 x Wa zero_arena Hsx) as (mt & Hm & _).
      assert (Hxb : block_at d SL LL (InSlab 0) x mt.(object_size)) by (split; [apply zero_arena|]; split; [done|by exists mt]).
      destruct (block_range _ _ _ _ _ _ _ _ _ _ _ Wa Hxb) as (_ & r & _ & _ & _ & H0 & _).
      apply (Hother (InSlab 0) x mt.(object_size)); [done| |lia]. intros [= <- <-]. destruct Hmine as [Hmine _]. rewrite Hmine in Hx; done.
    + intros x w' c _ _ Hc. unfold pages_of in *. replace (SlabPool.pages (d_slab d')) with (SlabPool.pages (d_slab d)); [done|]. unfold d'.
      destruct w as [a| |]; try done. cbn [store]. unfold set_pool. destruct ((a =? V8M_ARENA_DEFAULT) || (V8M_ARENA_COUNT <=? a)) eqn:E; [|done]. unfold slab_pool_for_arena. by rewrite E.
  - apply (mids_frame d); [done|done|]. intros i x Hx. pose proof (mi_held _ _ M i x Hx) as Hxp. destruct (buddy_block _ _ _ _ _ _ _ _ _ _ Wa Hxp) as (r & _ & _ & _ & H0 & _). split.
    + by apply (Hbl' InBuddy x).
    + apply (Hother InBuddy x _ x Hxp); [|lia]. intros [= <- <-]. by apply (proj2 Hmine eq_refl i).
Qed.


Lemma use_tlc_ok d B b : dispatch_ok d B -> dispatch_ok (v8m_dispatch_set_use_tlc d b) B /\ contents B d (v8m_dispatch_set_use_tlc d b).
Proof.
  intros (K & loc & KM & SL & LL & F & Ht & Hh). pose proof F as [W C M Hb]. set (d' := v8m_dispatch_set_use_tlc d b).
  destruct (world_ext ext extd m d d' SL LL eq_refl eq_refl eq_refl eq_refl eq_refl W) as (W' & Hbl & Hm). split; [|intros w q k x _ _; by rewrite Hm].
  exists K, loc, KM, SL, LL. split; [|done]. apply (front_eq ext extd m K loc KM d SL LL B); [done|done| | |intros w q k; unfold own; by rewrite Hbl].
  - apply (caches_other d); [done|by apply same_cur_eq|done|done].
  - by eapply mids_same.
Qed.

(** ** Whole programs

    A program holds blocks, each with the values it stored there.  It asks for
    blocks, stores into them and releases them. *)

(** The pool of an address, as the dispatcher finds it. *)
Definition owner_of (d : v8m_dispatch) (p : Z) : owner :=
  let page := v8m_ptr_to_meta p in
  if in_buddy_arena d page then InBuddy else match slab_meta d page with Some mt => InSlab mt.(arena_id) | None => InLarge end.

Lemma owner_of_block d B w p n : dispatch_ok d B -> B w p n -> owner_of d p = w.
Proof.
  intros (K & loc & KM & SL & LL & F & _) Hp. pose proof (proj1 (fr_blocks _ _ _ _ _ _ _ _ _ _ F _ _ _) Hp) as [Hblk _].
  pose proof (fr_world _ _ _ _ _ _ _ _ _ _ F) as (O & D & Wa). unfold owner_of. destruct w as [a| |].
  - rewrite (not_in_arena _ _ _ _ _ _ _ _ _ _ _ Wa Hblk) by done. pose proof Hblk as (Ha & Hsp & _).
    destruct (slab_object _ _ _ _ _ _ _ _ a p Wa Ha Hsp) as (mt & Hm & _ & _ & _ & _ & Har & _). rewrite (slab_pages_meta _ _ _ _ _ _ _ _ a p mt Wa Ha Hm). by rewrite Har.
  - destruct (block_range _ _ _ _ _ _ _ _ _ _ _ Wa Hblk) as (_ & r & Hr & H1 & H2 & H3 & H4). rewrite (proj2 (in_arena_spec d _)); [done|]. exists r. split; [done|lia].
  - rewrite (not_in_arena _ _ _ _ _ _ _ _ _ _ _ Wa Hblk) by done. by rewrite (slab_meta_large _ _ _ _ _ _ _ _ p n Wa Hblk).
Qed.

Record ublock := MkBlock { ub_ptr : Z; ub_size : Z; ub_data : gmap Z Z }.
Definition load (d : v8m_dispatch) (p off : Z) : Z := rd (mem_of d (owner_of d p)) (p + off).

Inductive op :=
  | OAlloc (e : denv) (size : Z)
  | OAligned (e : denv) (size log_al : Z)
  | OFree (e : denv) (i : nat)
  | OStore (i : nat) (off v : Z)
  | OCache (enabled : bool).

Definition received (size : Z) (U : list ublock) (r : option (v8m_dispatch * Z)) : option (v8m_dispatch * list ublock) :=
  match r with
  | None => None
  | Some (d, p) => Some (d, if p =? NULL then U else MkBlock p size ∅ :: U)
  end.

(** One call of the program; [None] when a call does not return to it. *)
Definition exec (o : op) (d : v8m_dispatch) (U : list ublock) : option (v8m_dispatch * list ublock) :=
  match o with
  | OAlloc e size => received size U (v8m_dispatch_alloc cpu_of e d size)
  | OAligned e size log_al => received size U (v8m_dispatch_alloc_aligned cpu_of e d size (2 ^ log_al))
  | OFree e i =>
      match U !! i with
      | None => Some (d, U)
      | Some u =>
          match v8m_dispatch_free e d u.(ub_ptr) with
          | Some (d, None) => Some (d, delete i U)
          | _ => None
          end
      end
  | OStore i off v =>
      match U !! i with
      | None => Some (d, U)
      | Some u => Some (store d (owner_of d u.(ub_ptr)) (u.(ub_ptr) + off) v, <[i := MkBlock u.(ub_ptr) u.(ub_size) (<[off := v]> u.(ub_data))]> U)
      end
  | OCache enabled => Some (v8m_dispatch_set_use_tlc d enabled, U)
  end.

(** What the program must respect: it stores inside its blocks, puts no page header
    of the allocator at a 64 KiB boundary and leaves red zones alone.  The fuel
    covers the lists of pages, and the coalescing option keeps its value. *)
Definition legal (o : op) (d : v8m_dispatch) (U : list ublock) : Prop :=
  match o with
  | OAlloc e size => 0 <= size < 2 ^ 64 /\ (0 < e.(de_fuel))%nat
  | OAligned e size log_al => 0 <= size < 2 ^ 64 /\ 0 <= log_al < 64 /\ (0 < e.(de_fuel))%nat
  | OFree e i => roomy d e.(de_fuel) /\ BuddyPoolSpec.mode_ok m e.(de_config) /\ forall u, U !! i = Some u ->
      rd d.(d_buddy).(BuddyPool.bmem) (v8m_ptr_to_meta u.(ub_ptr)) <> V8M_MAGIC /\ forall n, LargeSpec.zone_intact d.(d_large) (u.(ub_ptr), n)
  | OStore i off v => forall u, U !! i = Some u -> 0 <= off < u.(ub_size)
  | OCache _ => True
  end.

Inductive runs : list op -> v8m_dispatch -> list ublock -> Prop :=
  | runs_init fuel s d : ps_inv s -> ps_regions s ≡ₚ ext -> ps_descs s ≡ₚ extd -> v8m_dispatch_init fuel (fun _ => 0) (boot s) = Some (d, 0) -> runs [] d []
  | runs_step o os d U d' U' : runs os d U -> legal o d U -> exec o d U = Some (d', U') -> runs (os ++ [o]) d' U'.

(** The blocks of the program, as the allocator knows them. *)
Record view (d : v8m_dispatch) (U : list ublock) (B : owner -> Z -> Z -> Prop) : Prop := {
  vw_ok : dispatch_ok d B;
  vw_nodup : NoDup (ub_ptr <$> U);
  vw_block : forall u, u ∈ U -> exists w n, B w u.(ub_ptr) n /\ u.(ub_size) <= n;
  vw_data : forall u off v, u ∈ U -> u.(ub_data) !! off = Some v -> 0 <= off < u.(ub_size) /\ load d u.(ub_ptr) off = v
}.

Lemma block_positive d B w p n : dispatch_ok d B -> B w p n -> 0 < n.
Proof.
  intros (K & loc & KM & SL & LL & F & _) Hp. pose proof (proj1 (fr_blocks _ _ _ _ _ _ _ _ _ _ F _ _ _) Hp) as [Hblk _].
  pose proof (fr_world _ _ _ _ _ _ _ _ _ _ F) as (O & D & Wa). by destruct (block_range _ _ _ _ _ _ _ _ _ _ _ Wa Hblk) as (_ & r & _ & _ & _ & H0 & _).
Qed.

Lemma delete_ptr (U : list ublock) i u x : U !! i = Some u -> NoDup (ub_ptr <$> U) -> x ∈ delete i U -> x ∈ U /\ x.(ub_ptr) <> u.(ub_ptr).
Proof.
  intros Hi Nd Hx. split; [by apply (list_subseteq_delete i U)|]. intros He. rewrite <- (take_drop_middle U i u Hi), fmap_app, fmap_cons in Nd.
  rewrite delete_take_drop in Hx. apply NoDup_app in Nd as (_ & Hd & [Hn _]%NoDup_cons). apply elem_of_app in Hx as [Hx|Hx].
  - apply (Hd x.(ub_ptr)); [by apply list_elem_of_fmap_2|]. rewrite He. left.
  - apply Hn. rewrite <- He. by apply list_elem_of_fmap_2.
Qed.

Lemma load_kept d d' B B' w p n off : dispatch_ok d B -> dispatch_ok d' B' -> B w p n -> B' w p n -> contents B d d' \/ contents B' d d' -> 0 <= off < n -> load d' p off = load d p off.
Proof.
  intros H1 H2 Hb Hb' Hc Ho. unfold load. rewrite (owner_of_block d B w p n H1 Hb), (owner_of_block d' B' w p n H2 Hb').
  destruct Hc as [Hc|Hc]; apply (Hc w p n); done || lia.
Qed.

(** The other blocks of the program when its blocks or their memory change. *)
Lemma view_others d d' U U' B B' : view d U B -> dispatch_ok d' B' -> (forall u, u ∈ U' -> u ∈ U) -> NoDup (ub_ptr <$> U') ->
  (forall u w n, u ∈ U' -> B w u.(ub_ptr) n -> B' w u.(ub_ptr) n) -> contents B d d' \/ contents B' d d' -> view d' U' B'.
Proof.
  intros [V1 V2 V3 V4] Ho Hs Hn Hb Hc. constructor; [done|done| |].
  - intros u Hu. destruct (V3 u (Hs u Hu)) as (w & n & H1 & H2). exists w, n. split; [by apply Hb|done].
  - intros u off v Hu Hd. destruct (V4 u off v (Hs u Hu) Hd) as [H1 H2]. split; [done|]. destruct (V3 u (Hs u Hu)) as (w & n & H3 & H4).
    rewrite <- H2. eapply (load_kept d d' B B' w _ n); [done|done|done|by apply Hb|done|lia].
Qed.

Lemma view_received d U B size al r : view d U B -> gives ext extd m d B size al r -> exists d' U' B', received size U r = Some (d', U') /\ view d' U' B'.
Proof.
  intros V (d' & p & -> & Hc & Hr). cbn. pose proof V as [V1 V2 V3 V4]. destruct Hr as [[-> Ho]|(Hp & w & n & Hsz & _ & Hfree & Ho)].
  - eexists d', U, B. split; [done|]. eapply view_others; [done|done|done|done|done|by left].
  - rewrite (proj2 (Z.eqb_neq _ _) Hp). eexists d', _, _. split; [done|].
    assert (V' : view d' U (add_block B w p n)) by (eapply view_others; [done|done|done|done|by left|by left]). destruct V' as [W1 W2 W3 W4].
    assert (Hnew : forall u, u ∈ U -> u.(ub_ptr) <> p).
    { intros u Hu He. destruct (V3 u Hu) as (w' & k & Hk & _). rewrite He in Hk. pose proof (block_positive d B w' _ k V1 Hk).
      pose proof (block_positive d' _ w p n Ho ltac:(by right)). destruct (Hfree w' p k Hk); lia. }
    constructor; [done| | |].
    + cbn. apply NoDup_cons. split; [|done]. intros (u & He & Hu)%list_elem_of_fmap. by apply (Hnew u).
    + intros u [->|Hu]%elem_of_cons; [|by apply W3]. exists w, n. split; [by right|done].
    + intros u off v [->|Hu]%elem_of_cons; [cbn; by rewrite lookup_empty|by apply W4].
Qed.

(** A block given back. *)
Lemma view_released d U B i u w d' : view d U B -> U !! i = Some u -> releases ext extd m d B w u.(ub_ptr) d' -> view d' (delete i U) (del_block B w u.(ub_ptr)).
Proof.
  intros V Hi [Ho Hc]. pose proof V as [V1 V2 V3 V4].
  assert (Hnd : NoDup (ub_ptr <$> delete i U)) by (rewrite list_fmap_delete; by eapply sublist_NoDup; [|apply sublist_delete]).
  eapply view_others; [done|exact Ho|intros x Hx; by apply (delete_ptr U i u x Hi V2 Hx)|done| |by right].
  intros x w' k Hx Hk. split; [done|]. destruct (delete_ptr U i u x Hi V2 Hx) as [_ Hne]. congruence.
Qed.

Lemma view_store d U B i u off v : view d U B -> U !! i = Some u -> 0 <= off < u.(ub_size) ->
  view (store d (owner_of d u.(ub_ptr)) (u.(ub_ptr) + off) v) (<[i := MkBlock u.(ub_ptr) u.(ub_size) (<[off := v]> u.(ub_data))]> U) B.
Proof.
  intros V Hi Ho. pose proof V as [V1 V2 V3 V4]. assert (Hu : u ∈ U) by (by eapply list_elem_of_lookup_2). destruct (V3 u Hu) as (w & n & Hb & Hn).
  rewrite (owner_of_block d B w _ n V1 Hb). destruct (store_ok d B w u.(ub_ptr) n (u.(ub_ptr) + off) v V1 Hb ltac:(lia)) as (Ok' & Hc & Hv). set (d' := store _ _ _ _) in *.
  assert (Hptr : ub_ptr <$> <[i := MkBlock u.(ub_ptr) u.(ub_size) (<[off := v]> u.(ub_data))]> U = ub_ptr <$> U).
  { rewrite list_fmap_insert. cbn. apply list_insert_id. by rewrite list_lookup_fmap, Hi. }
  assert (Hin : forall x, x ∈ <[i := MkBlock u.(ub_ptr) u.(ub_size) (<[off := v]> u.(ub_data))]> U -> x = MkBlock u.(ub_ptr) u.(ub_size) (<[off := v]> u.(ub_data)) \/ x ∈ U /\ x.(ub_ptr) <> u.(ub_ptr)).
  { intros x [j Hj]%list_elem_of_lookup_1. destruct (decide (i = j)) as [<-|Hne]; [rewrite list_lookup_insert_eq in Hj by (by eapply lookup_lt_Some); left; by injection Hj as <-|].
    rewrite list_lookup_insert_ne in Hj by done. right. split; [by eapply list_elem_of_lookup_2|]. intros He. apply Hne. eapply (NoDup_lookup (ub_ptr <$> U)); [done| |]; rewrite list_lookup_fmap; [by rewrite Hi|by rewrite Hj; cbn; rewrite He]. }
  constructor; [done|by rewrite Hptr| |].
  - intros x [->|[Hx _]]%Hin; [by exists w, n|by apply V3].
  - intros x o y [->|[Hx Hne]]%Hin.
    + cbn. destruct (decide (o = off)) as [->|Hoff].
      * rewrite lookup_insert_eq. intros [= <-]. split; [done|]. unfold load. by rewrite (owner_of_block d' B w _ n Ok' Hb).
      * rewrite lookup_insert_ne by done. intros Hy. destruct (V4 u o y Hu Hy) as [H1 H2]. split; [done|]. rewrite <- H2. unfold load.
        rewrite (owner_of_block d' B w _ n Ok' Hb), (owner_of_block d B w _ n V1 Hb). destruct V1 as (K & loc & KM & SL & LL & [W _ _ Hbl] & _). apply Hbl in Hb as [Hblk _].
        destruct (store_world d SL LL w u.(ub_ptr) n (u.(ub_ptr) + off) v W Hblk ltac:(lia)) as (_ & _ & Hm & _). destruct W as (O & D & Wa).
        apply Hm; [by destruct (block_range _ _ _ _ _ _ _ _ _ _ _ Wa Hblk)|]. intros [= He]. lia.
    + intros Hy. destruct (V4 x o y Hx Hy) as [H1 H2]. split; [done|]. rewrite <- H2. destruct (V3 x Hx) as (w' & k & Hb' & Hk). unfold load.
      rewrite (owner_of_block d' B w' _ k Ok' Hb'), (owner_of_block d B w' _ k V1 Hb'). apply (Hc w' x.(ub_ptr) k); [split; [done|congruence]|lia].
Qed.

Lemma exec_view o d U B : view d U B -> legal o d U -> exists d' U' B', exec o d U = Some (d', U') /\ view d' U' B'.
Proof.
  intros V Hl. pose proof V as [V1 V2 V3 V4]. destruct o as [e size|e size j|e i|i off v|b]; cbn in Hl |- *.
  - destruct Hl as [Hs Hf]. eapply view_received; [done|]. by apply dispatch_alloc_gives.
  - destruct Hl as (Hs & Hj & Hf). eapply view_received; [done|]. by apply aligned_gives.
  - destruct Hl as (Hr & Hmode & Hu). destruct (U !! i) as [u|] eqn:Hi; [|by exists d, U, B]. destruct (Hu u eq_refl) as [Hforge Hz].
    assert (Hin : u ∈ U) by (by eapply list_elem_of_lookup_2). destruct (V3 u Hin) as (w & n & Hb & Hn).
    pose proof (dispatch_free_ok ext extd m e d B w u.(ub_ptr) n V1 Hb Hr Hmode (fun _ => Hforge)) as Hf.
    destruct (v8m_dispatch_free e d u.(ub_ptr)) as [[d' r]|]; [|destruct Hf as [_ Hf]; by destruct (Hf (Hz n))]. destruct Hf as (-> & Hrel). eexists d', _, _. split; [done|]. by eapply view_released.
  - destruct (U !! i) as [u|] eqn:Hi; [|by exists d, U, B]. eexists _, _, B. split; [done|]. apply view_store; [done|done|by apply Hl].
  - destruct (use_tlc_ok d B b V1) as [Ho Hc]. eexists _, U, B. split; [done|]. eapply view_others; [done|done|done|done|done|by left].
Qed.

(** [v8m_dispatch_init], run on the zeroed statics over any well-formed page
    heap, succeeds and establishes the dispatcher's invariant, with no block handed
    out: the four slab pools, the buddy pool, the large objects and the caches share
    the page heap. *)
Theorem v8m_dispatch_init_spec fuel s : ps_inv s -> ps_regions s ≡ₚ ext -> ps_descs s ≡ₚ extd ->
  exists d, v8m_dispatch_init fuel (fun _ => 0) (boot s) = Some (d, 0) /\ dispatch_ok d no_blocks /\ d.(d_use_tlc) = false.
Proof. intros Is Hr Hd. exists (booted s). split; [apply boot_init|]. split; [by apply booted_ok|reflexivity]. Qed.

(** C11: [v8m_dispatch_alloc] always returns, for every size, whichever pool and
    cache serves it (the calling thread's bins, the per-CPU stacks, a steal, a batch
    of the slab pool, a lifetime pool, a cached or a new buddy block, a large
    object).  It keeps the invariant and the contents of every block of the program,
    and hands out [NULL] or a new block of at least [size] bytes, 8-byte aligned,
    that overlaps no block of the program. *)
Theorem v8m_dispatch_alloc_spec e d B size :
  dispatch_ok d B -> 0 <= size < 2 ^ 64 -> (0 < e.(de_fuel))%nat ->
  exists d' p, v8m_dispatch_alloc cpu_of e d size = Some (d', p) /\ contents B d d' /\
    ((p = NULL /\ dispatch_ok d' B) \/
     (p <> NULL /\ exists w n, size <= n /\ (8 | p) /\ free_of B p n /\ dispatch_ok d' (add_block B w p n))).
Proof. apply dispatch_alloc_gives. Qed.

(** [v8m_dispatch_alloc_aligned] promises the same, and the power-of-two
    alignment asked for: slab classes whose size is a multiple of it, buddy blocks,
    large objects. An alignment of 16 is [granted] as 8 when the class of the request
    is one of 8, 24, 40 and 56 bytes. *)
Theorem v8m_dispatch_alloc_aligned_spec e d B size j :
  dispatch_ok d B -> 0 <= size < 2 ^ 64 -> 0 <= j < 64 -> (0 < e.(de_fuel))%nat ->
  exists d' p, v8m_dispatch_alloc_aligned cpu_of e d size (2 ^ j) = Some (d', p) /\ contents B d d' /\
    ((p = NULL /\ dispatch_ok d' B) \/
     (p <> NULL /\ exists w n, size <= n /\ (granted (2 ^ j) size | p) /\ free_of B p n /\ dispatch_ok d' (add_block B w p n))).
Proof. apply aligned_gives. Qed.

(** C12: [v8m_dispatch_free] of a block of the program takes back exactly that
    block, through whichever cache or pool, never passes it to the C library, keeps
    the invariant and the contents of all other blocks.  It does not return exactly
    when a large object's red zone was overwritten.  The word at the 64 KiB page
    base of a buddy block must not be the page magic. *)
Theorem v8m_dispatch_free_spec e d B w p n :
  dispatch_ok d B -> B w p n -> roomy d e.(de_fuel) -> BuddyPoolSpec.mode_ok m e.(de_config) ->
  (w = InBuddy -> rd d.(d_buddy).(BuddyPool.bmem) (v8m_ptr_to_meta p) <> V8M_MAGIC) ->
  match v8m_dispatch_free e d p with
  | Some (d', r) => r = None /\ dispatch_ok d' (del_block B w p) /\ contents (del_block B w p) d d'
  | None => w = InLarge /\ ~ LargeSpec.zone_intact d.(d_large) (p, n)
  end.
Proof. apply dispatch_free_ok. Qed.

(** [v8m_dispatch_usable_size] of a block of the program is its size for slab
    objects and buddy blocks, and at least the requested size for large objects. *)
Theorem v8m_dispatch_usable_size_spec d B w p n :
  dispatch_ok d B -> B w p n -> (w = InBuddy -> rd d.(d_buddy).(BuddyPool.bmem) (v8m_ptr_to_meta p) <> V8M_MAGIC) ->
  n <= v8m_dispatch_usable_size d p /\ (w <> InLarge -> v8m_dispatch_usable_size d p = n).
Proof. apply usable_ok. Qed.

Lemma runs_view os d U : runs os d U -> exists B, view d U B.
Proof.
  induction 1 as [fuel s d Is Hr Hd He|o os d U d' U' _ (B & V) Hl He].
  - rewrite boot_init in He. injection He as <-. exists no_blocks. constructor; [by apply booted_ok|constructor|by intros u ?%not_elem_of_nil|by intros u off v ?%not_elem_of_nil].
  - destruct (exec_view o d U B V Hl) as (d2 & U2 & B2 & He2 & V2). rewrite He in He2. injection He2 as <- <-. by exists B2.
Qed.

Lemma runs_next os d U o : runs os d U -> legal o d U -> exists d' U', runs (os ++ [o]) d' U'.
Proof. intros Hr Hl. destruct (runs_view os d U Hr) as (B & V). destruct (exec_view o d U B V Hl) as (d' & U' & _ & He & _). exists d', U'. by eapply runs_step. Qed.

Lemma runs_alloc os d e size : runs os d [] -> 0 <= size < 2 ^ 64 -> (0 < e.(de_fuel))%nat ->
  exists d' U', runs (os ++ [OAlloc e size]) d' U' /\ forall u, U' !! 0%nat = Some u -> u.(ub_size) = size.
Proof.
  intros Hr Hs Hf. destruct (runs_view os d [] Hr) as (B & V). destruct (exec_view (OAlloc e size) d [] B V (conj Hs Hf)) as (d' & U' & _ & He & _).
  exists d', U'. split; [eapply runs_step; [exact Hr|by split|exact He]|]. cbn in He. destruct (v8m_dispatch_alloc _ _ _ _) as [[d2 p]|]; [|done]. injection He as <- <-.
  intros u. destruct (p =? NULL); [done|]. by intros [= <-].
Qed.

(** Whole programs: after any sequence of allocations, aligned allocations,
    releases and stores since start-up that respects the rules of [legal], the
    blocks the program holds do not overlap, each reads back the last value stored
    at every offset, and every next legal call returns. *)
Theorem dispatch_runs_safe os d U : runs os d U ->
  (forall i j u v, U !! i = Some u -> U !! j = Some v -> i <> j -> u.(ub_ptr) + u.(ub_size) <= v.(ub_ptr) \/ v.(ub_ptr) + v.(ub_size) <= u.(ub_ptr)) /\
  (forall u off v, u ∈ U -> u.(ub_data) !! off = Some v -> load d u.(ub_ptr) off = v) /\
  (forall o, legal o d U -> exists d' U', exec o d U = Some (d', U')).
Proof.
  intros (B & V)%runs_view. pose proof V as [V1 V2 V3 V4]. split_and!.
  - intros i j u v Hi Hj Hne. destruct (V3 u ltac:(by eapply list_elem_of_lookup_2)) as (w & n & Hb & Hn), (V3 v ltac:(by eapply list_elem_of_lookup_2)) as (w' & k & Hb' & Hk).
    assert (Hp : u.(ub_ptr) <> v.(ub_ptr)). { intros He. apply Hne. eapply (NoDup_lookup (ub_ptr <$> U)); [done| |]; rewrite list_lookup_fmap; [by rewrite Hi|by rewrite Hj; cbn; rewrite He]. }
    destruct (blocks_apart _ _ _ d B w _ n w' _ k V1 Hb Hb') as [Hd _]. destruct (Hd Hp); lia.
  - intros u off v Hu Hv. by apply V4.
  - intros o Hl. destruct (exec_view o d U B V Hl) as (d' & U' & _ & He & _). by exists d', U'.
Qed.

End Spec.

(** ** The example machine *)

#[local] Existing Instance Os.log_os_laws.

Notation ex_dispatch := (@v8m_dispatch (@heap_source Os.log_os)).
Definition ex_denv : denv := MkEnv BuddyPoolSpec.ex_cfg (ThreadCache.MkTick 0 1 false BuddyPoolSpec.ex_cfg 16) 0 1000 1000 (2 ^ 20) 0 false 16.
Definition ex_d0 : ex_dispatch := v8m_dispatch_set_use_tlc (booted NumaPool.ex_src) true.

Lemma ex_booted_ok : dispatch_ok [] [] true (booted NumaPool.ex_src) no_blocks.
Proof. apply booted_ok; [apply NumaPool.ex_src_inv|reflexivity|reflexivity]. Qed.
Lemma ex_d0_ok : dispatch_ok [] [] true ex_d0 no_blocks.
Proof. apply use_tlc_ok, ex_booted_ok. Qed.

Lemma v8m_dispatch_init_spec_witness :
  exists d, v8m_dispatch_init 1 (fun _ => 0) (boot NumaPool.ex_src) = Some (d, 0) /\ dispatch_ok [] [] true d no_blocks /\ d.(d_use_tlc) = false.
Proof. apply (v8m_dispatch_init_spec [] [] true 1 NumaPool.ex_src); [apply NumaPool.ex_src_inv|reflexivity|reflexivity]. Defined.

Definition ex_res (r : option (ex_dispatch * Z)) : ex_dispatch * Z := default (ex_d0, NULL) r.
Definition ex_alloc : option (ex_dispatch * Z) := v8m_dispatch_alloc SlabPoolSpec.ex_cpu ex_denv ex_d0 100.
Definition ex_medium : option (ex_dispatch * Z) := v8m_dispatch_alloc SlabPoolSpec.ex_cpu ex_denv ex_d0 5000.

Lemma v8m_dispatch_alloc_spec_witness :
  (ex_res ex_alloc).2 = 2 ^ 30 + 2832 /\
  exists d' p, v8m_dispatch_alloc SlabPoolSpec.ex_cpu ex_denv ex_d0 100 = Some (d', p) /\ contents no_blocks ex_d0 d' /\
    ((p = NULL /\ dispatch_ok [] [] true d' no_blocks) \/
     (p <> NULL /\ exists w n, 100 <= n /\ (8 | p) /\ free_of no_blocks p n /\ dispatch_ok [] [] true d' (add_block no_blocks w p n))).
Proof. split; [vm_compute; reflexivity|]. apply (v8m_dispatch_alloc_spec [] [] true SlabPoolSpec.ex_cpu ex_denv ex_d0 no_blocks 100 ex_d0_ok); [lia|unfold ex_denv; cbn; lia]. Defined.

Lemma v8m_dispatch_alloc_aligned_spec_witness :
  (ex_res (v8m_dispatch_alloc_aligned SlabPoolSpec.ex_cpu ex_denv ex_d0 100 (2 ^ 10))).2 = 2 ^ 30 + 2048 /\
  exists d' p, v8m_dispatch_alloc_aligned SlabPoolSpec.ex_cpu ex_denv ex_d0 100 (2 ^ 10) = Some (d', p) /\ contents no_blocks ex_d0 d' /\
    ((p = NULL /\ dispatch_ok [] [] true d' no_blocks) \/
     (p <> NULL /\ exists w n, 100 <= n /\ (granted (2 ^ 10) 100 | p) /\ free_of no_blocks p n /\ dispatch_ok [] [] true d' (add_block no_blocks w p n))).
Proof.
  split; [vm_compute; reflexivity|]. apply (v8m_dispatch_alloc_aligned_spec [] [] true SlabPoolSpec.ex_cpu ex_denv ex_d0 no_blocks 100 10 ex_d0_ok); [lia|lia|unfold ex_denv; cbn; lia].
Defined.

(** One buddy block of 8 KiB in use. *)
Definition ex_d1 : ex_dispatch := (ex_res ex_medium).1.
Definition ex_p1 : Z := (ex_res ex_medium).2.
Lemma ex_p1_eq : ex_p1 = 2 ^ 30.
Proof. vm_compute. reflexivity. Qed.
Lemma ex_medium_eq : v8m_dispatch_alloc SlabPoolSpec.ex_cpu ex_denv ex_d0 5000 = ex_medium.
Proof. reflexivity. Qed.

Lemma ex_d1_ok : exists w n, 5000 <= n /\ dispatch_ok [] [] true ex_d1 (add_block no_blocks w ex_p1 n).
Proof.
  destruct (dispatch_alloc_gives [] [] true SlabPoolSpec.ex_cpu ex_denv ex_d0 no_blocks 5000 ex_d0_ok ltac:(lia) ltac:(unfold ex_denv; cbn; lia)) as (d' & p & He & _ & Hr).
  rewrite ex_medium_eq in He. assert (Hp : ex_p1 = p) by (unfold ex_p1; by rewrite He). assert (Hd : ex_d1 = d') by (unfold ex_d1; by rewrite He).
  pose proof ex_p1_eq as H1. rewrite Hp in H1 |- *. rewrite Hd. clear Hp Hd He. destruct Hr as [[E _]|(_ & w & n & Hn & _ & _ & Ho)]; [unfold NULL in E; lia|by exists w, n].
Qed.
Lemma ex_roomy : roomy ex_d1 ex_denv.(de_fuel).
Proof.
  intros a Ha. assert (Hc : a = 0 \/ a = 1 \/ a = 2 \/ a = 3) by (unfold arena, V8M_ARENA_COUNT in Ha; lia). destruct Hc as [->|[->|[->| ->]]]; vm_compute; lia.
Qed.
Lemma ex_plain : rd ex_d1.(d_buddy).(BuddyPool.bmem) (v8m_ptr_to_meta ex_p1) <> V8M_MAGIC.
Proof. vm_compute. discriminate. Qed.
Lemma ex_mode : BuddyPoolSpec.mode_ok true ex_denv.(de_config).
Proof. vm_compute. reflexivity. Qed.

Lemma v8m_dispatch_free_spec_witness : exists w n,
  match v8m_dispatch_free ex_denv ex_d1 ex_p1 with
  | Some (d', r) => r = None /\ dispatch_ok [] [] true d' (del_block (add_block no_blocks w ex_p1 n) w ex_p1) /\ contents (del_block (add_block no_blocks w ex_p1 n) w ex_p1) ex_d1 d'
  | None => w = InLarge /\ ~ LargeSpec.zone_intact ex_d1.(d_large) (ex_p1, n)
  end.
Proof.
  destruct ex_d1_ok as (w & n & _ & Ho). exists w, n. exact (v8m_dispatch_free_spec [] [] true ex_denv ex_d1 _ w ex_p1 n Ho (or_intror eq_refl) ex_roomy ex_mode (fun _ => ex_plain)).
Defined.

Lemma v8m_dispatch_usable_size_spec_witness : exists w n, 5000 <= n /\
  n <= v8m_dispatch_usable_size ex_d1 ex_p1 /\ (w <> InLarge -> v8m_dispatch_usable_size ex_d1 ex_p1 = n).
Proof.
  destruct ex_d1_ok as (w & n & Hn & Ho). exists w, n. split; [exact Hn|].
  exact (v8m_dispatch_usable_size_spec [] [] true ex_d1 _ w ex_p1 n Ho (or_intror eq_refl) (fun _ => ex_plain)).
Defined.

(** A program that asks for 100 bytes and stores a value there. *)
Definition ex_ops : list op := [OAlloc ex_denv 100; OStore 0 16 77].

Lemma ex_runs : exists d U, runs [] [] true SlabPoolSpec.ex_cpu ex_ops d U.
Proof.
  assert (H0 : runs [] [] true SlabPoolSpec.ex_cpu [] (booted NumaPool.ex_src) []) by (eapply (runs_init [] [] true SlabPoolSpec.ex_cpu 1 NumaPool.ex_src); [apply NumaPool.ex_src_inv|reflexivity|reflexivity|apply boot_init]).
  destruct (runs_alloc [] [] true SlabPoolSpec.ex_cpu [] _ ex_denv 100 H0) as (d1 & U1 & H1 & Hs); [lia|unfold ex_denv; cbn; lia|].
  destruct (runs_next [] [] true SlabPoolSpec.ex_cpu _ _ _ (OStore 0 16 77) H1) as (d2 & U2 & H2); [intros u Hu; rewrite (Hs u Hu); lia|]. by exists d2, U2.
Qed.

Lemma dispatch_runs_safe_witness : exists d U, runs [] [] true SlabPoolSpec.ex_cpu ex_ops d U /\
  (forall i j u v, U !! i = Some u -> U !! j = Some v -> i <> j -> u.(ub_ptr) + u.(ub_size) <= v.(ub_ptr) \/ v.(ub_ptr) + v.(ub_size) <= u.(ub_ptr)) /\
  (forall u off v, u ∈ U -> u.(ub_data) !! off = Some v -> load d u.(ub_ptr) off = v) /\
  (forall o, legal true o d U -> exists d' U', exec SlabPoolSpec.ex_cpu o d U = Some (d', U')).
Proof. destruct ex_runs as (d & U & Hr). exists d, U. split; [exact Hr|]. exact (dispatch_runs_safe [] [] true SlabPoolSpec.ex_cpu ex_ops d U Hr). Defined.

End DispatchSpec.
