(* ===== verification/DispatchKeep.v ===== *)
(** Housekeeping of the dispatcher ([Dispatch]): the idle sweeps and the forced
    release of cached memory give back pages, arenas and regions nobody uses.  No
    block of the program is touched. *)

From S2P Require Import Prelude SizeClass Page Config RemoteFree Buddy BuddyTree BuddyInv CoreCache PageSource NumaPool SlabPage SlabPool SlabPoolSpec BuddyPool BuddyPoolSpec Large LargeSpec ThreadCache ThreadCacheSpec ThreadRegistry Lifetime Dispatch DispatchInv DispatchCache DispatchStep DispatchAlloc DispatchFree.
Import SizeClass Page PageSource Dispatch DispatchInv DispatchCache DispatchStep DispatchAlloc DispatchFree.

Module DispatchKeep.

(** ** Parked slab pages *)

Section Sweep.
Context `{PSL : PageSourceLaws} (oth od : list (Z * Z)).
Import SlabPool SlabPoolSpec.

(** The parked pages left after [kept], and the words that stay. *)
Record swept (U : Z -> Prop) (gone : list Z) (st st' : slab_pool) (kept : list (Z * Z)) : Prop := {
  sw_classes : st'.(classes) = st.(classes);
  sw_pages : st'.(pages) = st.(pages);
  sw_numa : st'.(use_numa_pool) = st.(use_numa_pool) /\ st'.(g_slab_numa_pool_ready) = st.(g_slab_numa_pool_ready);
  sw_owner : exists nl dl, sources oth od nobody nl dl (st.(use_numa_pool) && st.(g_slab_numa_pool_ready)) st'.(g_slab_numa_pool) st'.(source) /\
    (forall p, p ∈ nl ++ dl <-> U p \/ p ∈ kept.*1);
  sw_words : forall a, (forall p, p ∈ gone -> ~ p <= a < p + V8M_PAGE_SIZE) -> rd st'.(smem) a = rd st.(smem) a
}.

Lemma sweep_ok U max entries : forall st kept released nl dl,
  sources oth od nobody nl dl (st.(use_numa_pool) && st.(g_slab_numa_pool_ready)) st.(g_slab_numa_pool) st.(source) ->
  NoDup (kept.*1 ++ entries.*1) -> (forall p, p ∈ nl ++ dl <-> U p \/ p ∈ kept.*1 ++ entries.*1) ->
  (forall p, p ∈ entries.*1 -> ~ U p /\ st.(pages) !! p = None) ->
  let '(st', kept', _) := sweep entries st max kept released in
  swept U entries.*1 st st' kept' /\ NoDup kept'.*1 /\ (forall p, p ∈ kept'.*1 -> p ∈ kept.*1 ++ entries.*1) /\ (length kept' <= length kept + length entries)%nat.
Proof.
  induction entries as [|[page idle] entries IH]; intros st kept released nl dl S Nd Hu Hn; cbn [sweep].
  - rewrite app_nil_r in *. split_and!; [|done|done|cbn; lia]. constructor; [done|done|done|by exists nl, dl|done].
  - cbn in Nd. cbn [fmap list_fmap fst] in *. set (ticks := if _ <? _ then _ else _).
    assert (Hp : page ∈ kept.*1 ++ page :: entries.*1) by (apply elem_of_app; right; left). destruct (Hn page ltac:(left)) as [Hpu Hpn].
    destruct (max <=? ticks).
    + destruct (release_immediate_spec oth od nobody nl dl st page S ltac:(apply Hu; by right)) as (nl' & dl' & np & s & He & S' & Hel). rewrite He.
      set (st1 := forget _ page).
      assert (Epg : st1.(pages) = st.(pages)) by (cbn; by apply delete_id).
      rewrite <- Permutation_middle in Nd. apply NoDup_cons in Nd as [Nx Nd].
      specialize (IH st1 kept (released + 1) nl' dl' S' Nd). destruct (sweep entries st1 max kept (released + 1)) as [[st' kept'] rel'].
      destruct IH as ([W1 W2 W3 W4 W5] & Nk & Hk & Hlen).
      * intros p. rewrite Hel, Hu, elem_of_app, elem_of_cons. rewrite elem_of_app in Nx |- *. split; [tauto|]. intros [HU|Hin]; [split; [tauto|congruence]|].
        split; [tauto|]. intros ->. tauto.
      * intros p Hin. destruct (Hn p ltac:(by right)). by rewrite Epg.
      * split_and!; [|done| |cbn; lia].
        -- constructor; [done|by rewrite W2|done|done|]. intros a Ha. rewrite W5 by (intros p Hin; apply Ha; by right).
           apply (rd_forget (set_numa_src st np st.(g_slab_numa_pool_ready) s) page a). apply Ha. left.
        -- intros p Hin%Hk. rewrite elem_of_app, elem_of_cons. rewrite elem_of_app in Hin. tauto.
    + assert (Hmid : (kept ++ [(page, ticks)]).*1 ++ entries.*1 = kept.*1 ++ page :: entries.*1) by (rewrite fmap_app, <- app_assoc; done).
      specialize (IH st (kept ++ [(page, ticks)]) released nl dl S). rewrite Hmid in IH. specialize (IH Nd Hu ltac:(intros p Hin; apply Hn; by right)).
      destruct (sweep entries st max (kept ++ [(page, ticks)]) released) as [[st' kept'] rel']. destruct IH as ([W1 W2 W3 W4 W5] & Nk & Hk & Hlen).
      split_and!; [|done|done|rewrite length_app in Hlen; cbn in *; lia]. constructor; [done|done|done|done|].
      intros a Ha. apply W5. intros p Hin. apply Ha. by right.
Qed.

(** Only entries younger than the limit stay parked. *)
Lemma swept_pages_young max entries : forall st kept released e,
  e ∈ (sweep entries st max kept released).1.2 -> e ∈ kept \/ e.2 < max.
Proof.
  induction entries as [|[page idle] entries IH]; intros st kept released e; cbn [sweep]; [by left|]. cbn zeta.
  set (ticks := if _ <? _ then _ else _). destruct (Z.leb_spec max ticks) as [|Hlt]; [by apply IH|]. intros [Hk|]%IH; [|by right].
  apply elem_of_app in Hk as [|Hk]; [by left|]. apply list_elem_of_singleton in Hk as ->. by right.
Qed.
Lemma parked_pages_young st max e : e ∈ (v8m_slab_pool_sweep_idle st max).1.(drained) -> e.2 < max.
Proof.
  unfold v8m_slab_pool_sweep_idle. pose proof (swept_pages_young max st.(drained) st [] 0 e) as Hs. destruct (sweep _ _ _ _ _) as [[st' kept] rel]. cbn in *.
  intros [?%not_elem_of_nil|]%Hs; done.
Qed.

(** The sweep of one pool: the objects in use and their words stay. *)
Lemma sweep_idle_ok ar st Lv max : pool_ok oth od nobody ar st Lv ->
  let '(st', _) := v8m_slab_pool_sweep_idle st max in
  pool_ok oth od nobody ar st' Lv /\ st'.(pages) = st.(pages) /\ (forall p a, is_Some (st.(pages) !! p) -> SlabPage.in_page p a -> rd st'.(smem) a = rd st.(smem) a).
Proof.
  intros [L Sl C A (nl & dl & S & Nd & Len & Hu & Hd)]. unfold v8m_slab_pool_sweep_idle.
  pose proof (sweep_ok (fun p => is_Some (st.(pages) !! p)) max st.(drained) st [] 0 nl dl S Nd Hu) as Hs.
  destruct (sweep st.(drained) st max [] 0) as [[st' kept'] rel]. destruct Hs as ([W1 W2 [W3 W3'] (nl' & dl' & S' & Hu') W5] & Nk & Hk & Hlen).
  { intros p Hp. split; [intros Hs; by apply (Hd p)|]. destruct (st.(pages) !! p) as [x|] eqn:E; [|done]. by destruct (Hd p (mk_is_Some _ _ E)). }
  assert (Hw : forall p a, is_Some (st.(pages) !! p) -> SlabPage.in_page p a -> rd st'.(smem) a = rd st.(smem) a).
  { intros p a Hp Ha. apply W5. intros q Hq Hqa. assert (Hbp : page_base p) by (apply (so_base _ _ _ _ _ _ _ _ S), Hu; by left).
    assert (Hbq : page_base q) by (apply (so_base _ _ _ _ _ _ _ _ S), Hu; by right).
    assert (p = q) as -> by (unfold SlabPage.in_page, V8M_SLAB_HEADER_SIZE in Ha; rewrite <- (ptr_to_meta_inside p a Hbp) by lia; by apply ptr_to_meta_inside). by apply (Hd q). }
  split_and!; [|done|done]. constructor.
  - cbn. by rewrite W1.
  - destruct Sl as [S1 S2]. constructor; cbn; rewrite W2; [|done]. intros p mt Hp. destruct (S1 p mt Hp) as (Hb & Hc & Hok). split; [done|]. split; [done|].
    apply (SlabPage.slab_write _ _ st.(smem)); [done|done|]. intros a Ha _. apply (Hw p a); [by eexists|done].
  - intros i Hi. unfold class_at. cbn. rewrite W1, W2. by apply C.
  - cbn. rewrite W2. done.
  - exists nl', dl'. cbn. rewrite W2, W3, W3'. split_and!; [done|done|cbn in Hlen; lia|done|]. intros p Hp Hin. apply (Hd p Hp). by apply Hk.
Qed.

End Sweep.

(** ** The dispatcher *)

Section Keep.
Context `{PSL : PageSourceLaws} (ext extd : list (Z * Z)) (m : bool).
Notation front := (front ext extd m).
Notation dispatch_ok := (dispatch_ok ext extd m).
Notation world := (world ext extd m).

(** A step that moves nothing and touches no block; the pages in use stay. *)
Definition same_slabs (d d' : v8m_dispatch) : Prop := forall a, arena a -> (slab_pool_for_arena d' a).(SlabPool.pages) = (slab_pool_for_arena d a).(SlabPool.pages).
Definition still (d d' : v8m_dispatch) : Prop := forall K loc KM SL LL B, front K loc KM d SL LL B ->
  exists SL', front K loc KM d' SL' LL B /\ contents B d d' /\ same_slabs d d'.

Lemma still_refl d : still d d.
Proof. intros K loc KM SL LL B F. exists SL. split; [done|]. split; [apply contents_refl|by intros a _]. Qed.
Lemma still_trans d1 d2 d3 : still d1 d2 -> still d2 d3 -> still d1 d3.
Proof.
  intros H1 H2 K loc KM SL LL B F. destruct (H1 _ _ _ _ _ _ F) as (S1 & F1 & C1 & P1), (H2 _ _ _ _ _ _ F1) as (S2 & F2 & C2 & P2).
  exists S2. split; [done|]. split; [by eapply contents_trans|]. intros a Ha. rewrite P2, P1; done.
Qed.
Lemma still_ok d d' B : still d d' -> dispatch_ok d B -> dispatch_ok d' B /\ contents B d d' /\ same_slabs d d'.
Proof. intros St (K & loc & KM & SL & LL & F & Ht & Hh). destruct (St _ _ _ _ _ _ F) as (SL' & F' & Hc & Hp). split_and!; [by exists K, loc, KM, SL', LL|done|done]. Qed.
Lemma same_slabs_roomy d d' fuel : same_slabs d d' -> roomy d fuel -> roomy d' fuel.
Proof. intros P Hr a Ha. rewrite P by done. by apply Hr. Qed.

(** A slab pool's own housekeeping. *)
Definition pool_still (f : SlabPool.slab_pool -> SlabPool.slab_pool * Z) : Prop := forall oth od a st Lv, SlabPoolSpec.pool_ok oth od nobody a st Lv ->
  let '(st', _) := f st in SlabPoolSpec.pool_ok oth od nobody a st' Lv /\ st'.(SlabPool.pages) = st.(SlabPool.pages) /\
    (forall p x, is_Some (st.(SlabPool.pages) !! p) -> SlabPage.in_page p x -> rd st'.(SlabPool.smem) x = rd st.(SlabPool.smem) x).

Lemma sweep_still max : pool_still (fun st => SlabPool.v8m_slab_pool_sweep_idle st max).
Proof. intros oth od a st Lv. apply sweep_idle_ok. Qed.

Lemma put_same (SL : Z -> Z -> Prop) a b q : put SL a (SL a) b q <-> SL b q.
Proof. unfold put. by destruct (Z.eqb_spec b a) as [->|]. Qed.

Lemma on_slab_run d a f : run_slab d a (fun st => Some (f st)) = Some (on_slab d a f).
Proof. unfold run_slab, on_slab. by destruct (f _). Qed.

Lemma on_slab_still d a f : arena a -> pool_still f -> still d (on_slab d a f).1.
Proof.
  intros Ha Hf K loc KM SL LL B F. pose proof F as [W C M Hb]. pose proof W as (O & D & Wa). pose proof (w_len _ _ _ _ _ _ _ _ Wa) as Hl.
  edestruct (run_slab_ok ext extd m d SL LL a (fun st => Some (f st))
    (fun st' _ Lv => Lv = SL a /\ st'.(SlabPool.pages) = (slab_pool_for_arena d a).(SlabPool.pages) /\
       (forall p x, is_Some ((slab_pool_for_arena d a).(SlabPool.pages) !! p) -> SlabPage.in_page p x -> rd st'.(SlabPool.smem) x = rd (slab_pool_for_arena d a).(SlabPool.smem) x))
    W Ha) as (st' & n & Lv & He & W' & -> & Hp & Hw).
  { intros oth od st P. specialize (Hf oth od a st (SL a) P). destruct (f st) as [st' n]. destruct Hf as (P' & Hp & Hw). by exists st', n, (SL a). }
  assert (Hd : (on_slab d a f).1 = set_src (set_pool d a st') st'.(SlabPool.source)).
  { rewrite on_slab_run in He. by injection He as ->. }
  rewrite Hd. set (d' := set_src _ _) in *. destruct (set_pool_same d a st') as (Eb & El & _ & Eg & Er & Et & _).
  assert (Hcur : cur_cache d' = cur_cache d) by (unfold d', cur_cache; cbn; by rewrite Er, Et).
  assert (Ep : forall b, arena b -> slab_pool_for_arena d' b = if b =? a then st' else slab_pool_for_arena d b) by (intros b Hb'; exact (pool_set d a b st' Hl Ha Hb')).
  assert (Sp : same_slabs d d'). { intros b Hb'. rewrite (Ep b Hb'). by destruct (Z.eqb_spec b a) as [->|]. }
  assert (Kp : keep (fun _ _ => True) d SL LL d' (put SL a (SL a)) LL).
  { apply (keep_slab ext extd m); [done|done|done|done|intros q c _ _ Hc; by rewrite Hp|]. intros q k b _ (_ & Hq & mt & Hmt & ->) Hbk.
    apply (Hw (v8m_ptr_to_meta q)); [by eexists|]. destruct (slab_object _ _ _ _ _ _ _ _ a q Wa Ha Hq) as (mt' & Hmt' & _ & Hin & Hfit & _).
    rewrite Hmt in Hmt'. injection Hmt' as <-. unfold SlabPage.in_page in *. lia. }
  assert (Hct : contents B d d'). { intros w q k b Hq Hbq. apply Hb in Hq as [Hq _]. by apply (proj2 (Kp w q I) k). }
  exists (put SL a (SL a)). split_and!; [|done|done]. apply (front_eq ext extd m K loc KM d SL LL B); [done|done| | |].
  - apply (caches_frame d d' K loc (SL 0)); [done|by apply same_cur_eq|exact Eg| | |].
    + intros x w Hx. destruct (ca_held _ _ _ _ C x w Hx) as (_ & Hsx & _). destruct (slab_object _ _ _ _ _ _ _ _ 0 x Wa zero_arena Hsx) as (mt & Hm & _).
      assert (Hxb : block_at d SL LL (InSlab 0) x mt.(object_size)) by (split; [apply zero_arena|]; split; [done|by exists mt]).
      destruct (block_range _ _ _ _ _ _ _ _ _ _ _ Wa Hxb) as (_ & r & _ & _ & _ & H0 & _). apply (proj2 (Kp (InSlab 0) x I) mt.(object_size) x Hxb). lia.
    + intros x w _ Hx. by apply put_same.
    + intros x w c _ _ Hc. rewrite !pages_of_pool in *. by rewrite (Sp 0 zero_arena).
  - eapply mids_same; [exact M|exact Eb|by rewrite Hcur].
  - intros w q k. unfold own. by rewrite (proj1 (Kp w q I) k).
Qed.

Lemma on_slabs_still d f total : pool_still f -> still d (on_slabs d f total).1.
Proof.
  intros Hf. unfold on_slabs. assert (Hgo : forall l r, Forall arena l -> still d r.1 -> still d (foldl (fun r a => let '(d, n) := on_slab r.1 a f in (d, u64 (r.2 + n))) r l).1).
  { intros l. induction l as [|a l IH]; intros r Hl Hr; cbn [foldl]; [done|]. apply Forall_cons in Hl as [Ha Hl]. apply IH; [done|].
    pose proof (on_slab_still r.1 a f Ha Hf) as Hs. destruct (on_slab r.1 a f) as [d1 n]. by eapply still_trans. }
  apply Hgo; [|apply still_refl]. repeat constructor; by compute.
Qed.

Lemma on_buddy_run d f : run_buddy d (fun st => Some (f st)) = Some (on_buddy d f).
Proof. unfold run_buddy, on_buddy. by destruct (f _). Qed.

Lemma sweep_buddy_ok oth od st max : BuddyPoolSpec.bpool_ok oth od m st ->
  BuddyPoolSpec.bpool_ok oth od m (BuddyPool.v8m_buddy_pool_sweep_idle st max).1 /\ BuddyPoolSpec.same_blocks st (BuddyPool.v8m_buddy_pool_sweep_idle st max).1.
Proof.
  intros P. unfold BuddyPool.v8m_buddy_pool_sweep_idle. pose proof (BuddyPoolSpec.sweep_spec oth od m max BuddyPool.slots st 0 P ltac:(intros i; by rewrite BuddyPoolSpec.slots_in) ltac:(apply NoDup_seq)) as Hs.
  destruct (BuddyPool.sweep_slots _ _ _ _) as [st' n]. by destruct Hs as (P' & Hs & _).
Qed.
#[local] Opaque BuddyPool.v8m_buddy_pool_sweep_idle.

Lemma sweep_buddy_still d max : still d (on_buddy d (fun st => BuddyPool.v8m_buddy_pool_sweep_idle st max)).1.
Proof.
  intros K loc KM SL LL B F. pose proof F as [W C M Hb]. pose proof W as (O & D & Wa).
  edestruct (run_buddy_ok ext extd m d SL LL (fun st => Some (BuddyPool.v8m_buddy_pool_sweep_idle st max)) (fun st' _ => BuddyPoolSpec.same_blocks d.(d_buddy) st') W) as (st' & n & He & W' & Hsb & Hk).
  { intros oth od st P. destruct (sweep_buddy_ok oth od st max P) as [P' Hs]. destruct (BuddyPool.v8m_buddy_pool_sweep_idle st max) as [st' n]. by exists st', n. }
  assert (Hd : (on_buddy d (fun st => BuddyPool.v8m_buddy_pool_sweep_idle st max)).1 = set_src (set_buddy d st') st'.(BuddyPool.bsource)) by (rewrite on_buddy_run in He; by injection He as ->).
  rewrite Hd. set (d' := set_src _ _) in *. exists SL.
  assert (Hin : forall q k, BuddyPoolSpec.in_pool d.(d_buddy) q k -> BuddyPoolSpec.in_pool st' q k) by (intros q k Hq; by apply Hsb).
  split_and!; [|intros w q k b Hq Hbq; apply Hb in Hq as [Hq _]; destruct w as [a| |]; cbn; [done| |done]; apply (Hk q k); [done|by apply Hin|done]|by intros a _].
  apply (front_eq ext extd m K loc KM d SL LL B); [done|done|apply (caches_other d); [done|by apply same_cur_eq|done|done]| |].
  - apply (mids_frame d); [done|done|]. intros i x Hx. pose proof (mi_held _ _ M i x Hx) as Hp. split; [by apply Hin|]. eapply Hk; [exact Hp|by apply Hin|].
    destruct (buddy_block _ _ _ _ _ _ _ _ _ _ Wa Hp) as (r & _ & _ & _ & H0 & _). lia.
  - intros w q k. unfold own. destruct w as [a| |]; cbn; [done| |done]. by rewrite Hsb.
Qed.

Lemma drain_empty st : (Large.v8m_large_cache_drain st).1.(Large.g_large_cache) = [].
Proof.
  unfold Large.v8m_large_cache_drain. cbn [fst]. assert (Hgo : forall l s, (foldl (fun st e => Large.heap_free st e.1 e.2) s l).(Large.g_large_cache) = s.(Large.g_large_cache)).
  { intros l. induction l as [|e l IH]; intros s; [done|]. cbn [foldl]. by rewrite IH. }
  by rewrite Hgo.
Qed.
Lemma drain_large_still d : let '(st, _) := Large.v8m_large_cache_drain (Large.set_lsource d.(d_large) d.(d_src)) in still d (set_src (set_large d st) st.(Large.l_source)).
Proof.
  destruct (Large.v8m_large_cache_drain _) as [st' n] eqn:E. intros K loc KM SL LL B F. pose proof F as [W C M Hb].
  destruct (run_large_ok ext extd m d SL LL (fun st => Some (Large.v8m_large_cache_drain st)) (fun _ => LL) (fun st' _ => LargeSpec.bytes_kept d.(d_large) st' LL) st' n W) as (He & W' & Hk).
  { by rewrite E. }
  { intros oth od P. pose proof (LargeSpec.drain_ok _ _ _ _ P) as Hdr. rewrite E in Hdr. by destruct Hdr as (P' & _ & _ & Hk). }
  { intros x Hx. by left. }
  exists SL. split_and!; [|intros w q k b Hq Hbq; apply Hb in Hq as [Hq _]; destruct w as [a| |]; cbn; [done|done|by apply (Hk (q, k) b)]|by intros a _].
  apply (front_eq ext extd m K loc KM d SL LL B); [done|done|apply (caches_other d); [done|by apply same_cur_eq|done|done]|by eapply mids_same|by intros [a| |] q k].
Qed.

(** Everything parked is given back at once. *)
Lemma purge_drained_still d : still d (v8m_dispatch_purge_drained d).1.
Proof.
  unfold v8m_dispatch_purge_drained. pose proof (sweep_buddy_still d 0) as H1. destruct (on_buddy _ _) as [d1 n1].
  pose proof (on_slabs_still d1 SlabPool.v8m_slab_pool_purge_drained n1 (sweep_still 0)) as H2. destruct (on_slabs _ _ _) as [d2 n2].
  pose proof (drain_large_still d2) as H3. destruct (Large.v8m_large_cache_drain _) as [st n]. cbn [fst] in *. eapply still_trans; [exact H1|by eapply still_trans].
Qed.

(** Nothing parked is left: no slab page, no arena (their ages are unsigned), no
    cached region. *)
Definition nothing_parked (d : v8m_dispatch) : Prop :=
  (forall a page age, arena a -> (page, age) ∈ (slab_pool_for_arena d a).(SlabPool.drained) -> ~ 0 <= age) /\
  (forall i b, d.(d_buddy).(BuddyPool.arenas) !! i = Some b -> BuddyPoolSpec.parked b -> ~ 0 <= b.(BuddyPool.idle_ticks)) /\
  d.(d_large).(Large.g_large_cache) = [].

Lemma on_slabs_pools d f total : length d.(d_slab_lifetime) = 3%nat ->
  let d' := (on_slabs d f total).1 in d'.(d_buddy) = d.(d_buddy) /\ d'.(d_large) = d.(d_large) /\
  forall a, arena a -> exists st, slab_pool_for_arena d' a = (f st).1.
Proof.
  intros Hl. unfold on_slabs. assert (Hgo : forall l r, Forall arena l -> length r.1.(d_slab_lifetime) = 3%nat -> forall seen,
    (forall a, arena a -> a ∈ seen -> exists st, slab_pool_for_arena r.1 a = (f st).1) ->
    let d' := (foldl (fun r a => let '(d, n) := on_slab r.1 a f in (d, u64 (r.2 + n))) r l).1 in
    d'.(d_buddy) = r.1.(d_buddy) /\ d'.(d_large) = r.1.(d_large) /\ forall a, arena a -> a ∈ seen ++ l -> exists st, slab_pool_for_arena d' a = (f st).1).
  { intros l. induction l as [|x l IH]; intros r Hal Hr seen Hd; cbn [foldl]; [by rewrite app_nil_r|]. apply Forall_cons in Hal as [Hx Hal].
    unfold on_slab at 2 4 6. destruct (f (lend_slab _ _)) as [st n] eqn:Ef. destruct (set_pool_same r.1 x st) as (Eb & El & _ & _ & _ & _ & _).
    set (d1 := set_src (set_pool r.1 x st) st.(SlabPool.source)). assert (H1 : length d1.(d_slab_lifetime) = 3%nat).
    { unfold d1, set_pool. cbn. repeat case_match; cbn; by rewrite ?length_insert. }
    destruct (IH (d1, u64 (r.2 + n)) Hal H1 (seen ++ [x])) as (Eb' & El' & Ha').
    { intros a Ha Hin. unfold d1. cbn [fst]. pose proof (pool_set r.1 x a st Hr Hx Ha) as Ep. destruct (Z.eqb_spec a x) as [->|Hne].
      - eexists. rewrite Ef. exact Ep.
      - apply elem_of_app in Hin as [Hin|Hin%list_elem_of_singleton]; [|done]. destruct (Hd a Ha Hin) as [s0 Hs0]. exists s0. rewrite <- Hs0. exact Ep. }
    cbn [fst] in *. split; [by rewrite Eb'|]. split; [by rewrite El'|]. by rewrite <- app_assoc in Ha'. }
  destruct (Hgo [V8M_ARENA_DEFAULT; V8M_ARENA_EPHEMERAL; V8M_ARENA_SHORT; V8M_ARENA_LONG] (d, total) ltac:(repeat constructor; by compute) Hl []) as (Eb & El & Ha); [by intros a _ ?%not_elem_of_nil|].
  split; [done|]. split; [done|]. intros a Hx. apply Ha; [done|]. assert (Hc : a = 0 \/ a = 1 \/ a = 2 \/ a = 3) by (unfold arena, V8M_ARENA_COUNT in Hx; lia).
  cbn. destruct Hc as [->|[->|[->| ->]]]; repeat (first [left|right]).
Qed.

Lemma purge_empties d B : dispatch_ok d B -> nothing_parked (v8m_dispatch_purge_drained d).1.
Proof.
  intros Ho. pose proof (still_ok _ _ B (sweep_buddy_still d 0) Ho) as (Ho1 & _). pose proof Ho as (K & loc & KM & SL & LL & [(O & D & W) _ _ _] & _).
  destruct Ho1 as (K1 & loc1 & KM1 & SL1 & LL1 & [(O1 & D1 & W1) _ _ _] & _). unfold v8m_dispatch_purge_drained.
  assert (Hb : forall i b, (on_buddy d (fun st => BuddyPool.v8m_buddy_pool_sweep_idle st 0)).1.(d_buddy).(BuddyPool.arenas) !! i = Some b -> BuddyPoolSpec.parked b -> ~ 0 <= b.(BuddyPool.idle_ticks)).
  { intros i b Hi Hp. unfold on_buddy in *. pose proof (BuddyPoolSpec.sweep_idle_young (BuddyPool.set_bsource d.(d_buddy) d.(d_src)) 0) as Hy.
    destruct (BuddyPool.v8m_buddy_pool_sweep_idle _ 0) as [st n]. cbn in *. pose proof (Hy i b (BuddyPoolSpec.bo_len _ _ _ _ (world_buddy _ _ _ _ _ _ _ _ W)) Hi Hp). lia. }
  pose proof (w_len _ _ _ _ _ _ _ _ W1) as Hl. destruct (on_buddy d _) as [d1 n1]. cbn [fst] in *.
  pose proof (on_slabs_pools d1 SlabPool.v8m_slab_pool_purge_drained n1 Hl) as (Eb & El & Hs). destruct (on_slabs d1 _ n1) as [d2 n2]. cbn [fst] in *.
  pose proof (drain_empty (Large.set_lsource d2.(d_large) d2.(d_src))) as Hd. destruct (Large.v8m_large_cache_drain _) as [st n]. cbn [fst] in *.
  split_and!; [|cbn; by rewrite Eb|done]. intros a page age Ha Hin. destruct (Hs a Ha) as [s Es]. change (slab_pool_for_arena (set_src (set_large d2 st) st.(Large.l_source)) a) with (slab_pool_for_arena d2 a) in Hin.
  rewrite Es in Hin. pose proof (parked_pages_young s 0 (page, age) Hin) as Hy. cbn in Hy. lia.
Qed.

(** The periodic sweeps; [housekeep] leaves the regions of the page heap alone. *)
Lemma bg_tick_still housekeep d :
  (forall s, ps_inv s -> ps_inv (housekeep s) /\ ps_regions (housekeep s) ≡ₚ ps_regions s /\ ps_descs (housekeep s) ≡ₚ ps_descs s) ->
  still d (v8m_dispatch_bg_tick housekeep d).1.
Proof.
  intros Hh. unfold v8m_dispatch_bg_tick. pose proof (sweep_buddy_still d V8M_DISPATCH_BUDDY_IDLE_TICKS) as H1. destruct (on_buddy _ _) as [d1 n1].
  pose proof (on_slabs_still d1 _ n1 (sweep_still V8M_DISPATCH_SLAB_IDLE_TICKS)) as H2. destruct (on_slabs _ _ _) as [d2 n2]. cbn [fst] in *.
  eapply still_trans; [exact H1|]. eapply still_trans; [exact H2|]. intros K loc KM SL LL B F. pose proof F as [W C M Hb]. pose proof W as (O & D & Wa).
  destruct (Hh _ (w_src _ _ _ _ _ _ _ _ Wa)) as (A & Hr & Hd). exists SL. split_and!; [|by intros [a| |] q k b|by intros a _].
  apply (front_eq ext extd m K loc KM d2 SL LL B); [done| |apply (caches_other d2); [done|by apply same_cur_eq|done|done]|by eapply mids_same|by intros [a| |] q k].
  exists O, D. constructor; cbn; try apply Wa; [done|rewrite Hr; apply Wa|rewrite Hd; apply Wa].
Qed.

End Keep.
End DispatchKeep.
