(* ===== verification/Pprof.v ===== *)
(** The heap profile ([src/v8m_pprof.c], [src/v8m_pprof.h]).

    The encoder writes protobuf fields into a buffer of 64 KiB, inner messages first
    into small scratch buffers; the result goes to a file descriptor as it is or
    wrapped in gzip with stored blocks.  A buffer is word memory indexed from 0, an
    offset of [SIZE_MAX] is the overflow result.  The kernel's [write] is a
    parameter. *)

From Stdlib Require Import Ascii String.
From stdpp Require Import pretty.
From S2P Require Import Prelude SizeClass ThreadCache.

Module Pprof.

Definition V8M_PUBLIC_NUM_SIZE_CLASSES : Z := 41.
Definition V8M_PPROF_BUF_BYTES : Z := 64 * 1024.
Definition EINTR : Z := 4.
Definition EINVAL : Z := 22.
Definition EOVERFLOW : Z := 75.

(** The characters of a C string literal. *)
Definition codes (s : string) : list Z := (fun c => Z.of_nat (nat_of_ascii c)) <$> list_ascii_of_string s.

(** ** Wire helpers *)

(** A buffer and an offset; the rest of a function runs when there was room. *)
Definition checked (r : mem * Z) (f : mem -> Z -> mem * Z) : mem * Z := let '(buf, off) := r in if off =? SIZE_MAX then (buf, off) else f buf off.
#[local] Notation "'do' buf , off <- r ; f" := (checked r (fun buf off => f)) (at level 200, buf name, off name, r at level 100, f at level 200).

(** Ten rounds of 7 bits are enough for 64; running out counts as an overflow. *)
Definition varint_fuel : nat := 10.
Fixpoint write_varint (fuel : nat) (buf : mem) (cap off value : Z) : mem * Z :=
  match fuel with
  | O => (buf, SIZE_MAX)
  | S fuel =>
      if 0x80 <=? value then
        if cap <=? off then (buf, SIZE_MAX)
        else write_varint fuel (wr buf off (Z.lor (Z.land value 0x7F) 0x80)) cap (off + 1) (Z.shiftr value 7)
      else if cap <=? off then (buf, SIZE_MAX)
      else (wr buf off (Z.land value 0x7F), off + 1)
  end.
Definition pb_write_varint (buf : mem) (cap off value : Z) : mem * Z := write_varint varint_fuel buf cap off value.

Definition pb_write_tag (buf : mem) (cap off field wire : Z) : mem * Z := pb_write_varint buf cap off (Z.lor (Z.shiftl field 3) wire).

Definition pb_write_uint64_field (buf : mem) (cap off field value : Z) : mem * Z :=
  do buf, off <- pb_write_tag buf cap off field 0; pb_write_varint buf cap off value.
Definition pb_write_int64_field (buf : mem) (cap off field value : Z) : mem * Z := pb_write_uint64_field buf cap off field (u64 value).

(** [memcpy] into a buffer. *)
Fixpoint put (buf : mem) (off : Z) (data : list Z) : mem :=
  match data with [] => buf | b :: data => put (wr buf off b) (off + 1) data end.
(** The first [n] bytes of a buffer. *)
Definition prefix_of (buf : mem) (n : Z) : list Z := rd buf <$> seqZ 0 n.

Definition pb_write_bytes_field (buf : mem) (cap off field : Z) (data : list Z) : mem * Z :=
  let len := Z.of_nat (length data) in
  do buf, off <- pb_write_tag buf cap off field 2;
  do buf, off <- pb_write_varint buf cap off len;
  if cap <? u64 (off + len) then (buf, SIZE_MAX) else (put buf off data, u64 (off + len)).
Definition pb_write_string_field (buf : mem) (cap off field : Z) (str : list Z) : mem * Z := pb_write_bytes_field buf cap off field str.

(** ** Submessages *)

(** A submessage built in a scratch buffer of [size] bytes, then copied out. *)
Definition emit_value_type (out : mem) (cap off outer_field type_idx unit_idx : Z) : mem * Z :=
  let '(inner, n) :=
    (do inner, n <- pb_write_int64_field ∅ 32 0 1 type_idx;
     pb_write_int64_field inner 32 n 2 unit_idx) in
  if n =? SIZE_MAX then (out, n) else pb_write_bytes_field out cap off outer_field (prefix_of inner n).

Definition emit_function (out : mem) (cap off func_id name_idx : Z) : mem * Z :=
  let '(inner, n) :=
    (do inner, n <- pb_write_uint64_field ∅ 32 0 1 func_id;
     do inner, n <- pb_write_int64_field inner 32 n 2 name_idx;
     pb_write_int64_field inner 32 n 3 name_idx) in
  if n =? SIZE_MAX then (out, n) else pb_write_bytes_field out cap off 5 (prefix_of inner n).

Definition emit_location (out : mem) (cap off loc_id function_id : Z) : mem * Z :=
  let '(line_buf, line_off) := pb_write_uint64_field ∅ 16 0 1 function_id in
  if line_off =? SIZE_MAX then (out, line_off)
  else
    let '(inner, n) :=
      (do inner, n <- pb_write_uint64_field ∅ 64 0 1 loc_id;
       pb_write_bytes_field inner 64 n 4 (prefix_of line_buf line_off)) in
    if n =? SIZE_MAX then (out, n) else pb_write_bytes_field out cap off 4 (prefix_of inner n).

Definition emit_sample (out : mem) (cap off location_id alloc_count alloc_bytes : Z) : mem * Z :=
  let '(locs, loc_off) := pb_write_varint ∅ 16 0 location_id in
  if loc_off =? SIZE_MAX then (out, loc_off)
  else
    let '(vals, val_off) := (do vals, n <- pb_write_varint ∅ 32 0 alloc_count; pb_write_varint vals 32 n alloc_bytes) in
    if val_off =? SIZE_MAX then (out, val_off)
    else
      let '(inner, n) :=
        (do inner, n <- pb_write_bytes_field ∅ 64 0 1 (prefix_of locs loc_off);
         pb_write_bytes_field inner 64 n 2 (prefix_of vals val_off)) in
      if n =? SIZE_MAX then (out, n) else pb_write_bytes_field out cap off 2 (prefix_of inner n).

(** ** The sections of the profile *)

Definition V8M_PPROF_STR_EMPTY : Z := 0.
Definition V8M_PPROF_STR_ALLOC_OBJECTS : Z := 1.
Definition V8M_PPROF_STR_COUNT : Z := 2.
Definition V8M_PPROF_STR_ALLOC_SPACE : Z := 3.
Definition V8M_PPROF_STR_BYTES : Z := 4.
Definition V8M_PPROF_STR_FIRST_CLASS : Z := 5.

(** The characters written and [NULL] bytes of a name that does not fit: none. *)
Definition format_class_name (cap cls : Z) : list Z :=
  let prefix := codes "size_class_" in
  if cap <? Z.of_nat (length prefix) + 4 then []
  else
    prefix ++ (if 100 <=? cls then [u8 (48 + cls / 100)] else []) ++ (if 10 <=? cls then [u8 (48 + (cls / 10) mod 10)] else []) ++ [u8 (48 + cls mod 10)].

Definition emit_sample_types (buf : mem) (cap off : Z) : mem * Z :=
  do buf, off <- emit_value_type buf cap off 1 V8M_PPROF_STR_ALLOC_OBJECTS V8M_PPROF_STR_COUNT;
  emit_value_type buf cap off 1 V8M_PPROF_STR_ALLOC_SPACE V8M_PPROF_STR_BYTES.

(** A loop over the classes that stops at an overflow. *)
Fixpoint emit_each (emit : mem -> Z -> Z -> mem * Z) (cs : list Z) (buf : mem) (off : Z) : mem * Z :=
  match cs with
  | [] => (buf, off)
  | cls :: cs => do buf, off <- emit buf off cls; emit_each emit cs buf off
  end.
Definition all_classes : list Z := seqZ 0 V8M_PUBLIC_NUM_SIZE_CLASSES.
(** ... and one over the classes that had requests, then the huge row. *)
Definition emit_alive (emit : mem -> Z -> Z -> mem * Z) (alive : Z -> bool) (huge_alive : bool) (buf : mem) (off : Z) : mem * Z :=
  do buf, off <- emit_each (fun buf off cls => if negb (alive cls) then (buf, off) else emit buf off cls) all_classes buf off;
  if huge_alive then emit buf off V8M_PUBLIC_NUM_SIZE_CLASSES else (buf, off).

(** The counts of a row: a class, or the huge requests. *)
Definition row_count (hist : ThreadCache.histogram) (row : Z) : Z :=
  if row <? V8M_PUBLIC_NUM_SIZE_CLASSES then znth hist.(ThreadCache.request_count) row else hist.(ThreadCache.huge_request_count).
Definition row_bytes (hist : ThreadCache.histogram) (row : Z) : Z :=
  if row <? V8M_PUBLIC_NUM_SIZE_CLASSES then znth hist.(ThreadCache.request_bytes) row else hist.(ThreadCache.huge_request_bytes).

Definition emit_samples (buf : mem) (cap off : Z) (hist : ThreadCache.histogram) (alive : Z -> bool) (huge_alive : bool) : mem * Z :=
  emit_alive (fun buf off row => emit_sample buf cap off (row + 1) (row_count hist row) (row_bytes hist row)) alive huge_alive buf off.
Definition emit_locations (buf : mem) (cap off : Z) (alive : Z -> bool) (huge_alive : bool) : mem * Z :=
  emit_alive (fun buf off row => emit_location buf cap off (row + 1) (row + 1)) alive huge_alive buf off.
Definition emit_functions (buf : mem) (cap off : Z) (alive : Z -> bool) (huge_alive : bool) : mem * Z :=
  emit_alive (fun buf off row => emit_function buf cap off (row + 1) (V8M_PPROF_STR_FIRST_CLASS + row)) alive huge_alive buf off.

Definition fixed_strings : list (list Z) := [codes ""; codes "alloc_objects"; codes "count"; codes "alloc_space"; codes "bytes"].
Fixpoint emit_strings (strs : list (list Z)) (cap : Z) (buf : mem) (off : Z) : mem * Z :=
  match strs with
  | [] => (buf, off)
  | s :: strs => do buf, off <- pb_write_string_field buf cap off 6 s; emit_strings strs cap buf off
  end.
Definition emit_string_table (buf : mem) (cap off : Z) : mem * Z :=
  do buf, off <- emit_strings fixed_strings cap buf off;
  do buf, off <- emit_each (fun buf off cls => pb_write_bytes_field buf cap off 6 (format_class_name 16 cls)) all_classes buf off;
  pb_write_string_field buf cap off 6 (codes "huge").

(** [hist] is the snapshot of [v8m_get_size_class_histogram]. *)
Definition encode_heap_profile (hist : ThreadCache.histogram) : mem * Z :=
  let alive cls := 0 <? znth hist.(ThreadCache.request_count) cls in
  let huge_alive := 0 <? hist.(ThreadCache.huge_request_count) in
  let cap := V8M_PPROF_BUF_BYTES in
  do buf, off <- emit_sample_types ∅ cap 0;
  do buf, off <- emit_samples buf cap off hist alive huge_alive;
  do buf, off <- emit_locations buf cap off alive huge_alive;
  do buf, off <- emit_functions buf cap off alive huge_alive;
  emit_string_table buf cap off.

(** ** Output *)

(** [pprof_crc32]: bit at a time. *)
Definition crc_bit (crc : Z) : Z := Z.lxor (Z.shiftr crc 1) (if Z.land crc 1 =? 0 then 0 else 0xEDB88320).
Definition crc_byte (crc b : Z) : Z := Nat.iter 8 crc_bit (Z.lxor crc b).
Definition pprof_crc32 (data : list Z) : Z := Z.lxor (foldl crc_byte 0xFFFFFFFF data) 0xFFFFFFFF.

Definition V8M_GZIP_MAX_STORED_BLOCK : Z := 65535.
Definition gzip_header : list Z := [0x1F; 0x8B; 0x08; 0x00; 0x00; 0x00; 0x00; 0x00; 0x00; 0x03].
Definition block_header (is_final : bool) (block_len : Z) : list Z :=
  let nlen := Z.lxor (u16 block_len) 0xFFFF in
  [if is_final then 0x01 else 0x00; Z.land block_len 0xFF; Z.land (Z.shiftr block_len 8) 0xFF; Z.land nlen 0xFF; Z.land (Z.shiftr nlen 8) 0xFF].
Definition little32 (x : Z) : list Z := [Z.land x 0xFF; Z.land (Z.shiftr x 8) 0xFF; Z.land (Z.shiftr x 16) 0xFF; Z.land (Z.shiftr x 24) 0xFF].

(** What [open] and [close] return, and the [errno] they leave. *)
Record file_env := MkFile { fe_open : Z; fe_open_errno : Z; fe_close : Z; fe_close_errno : Z }.

(** A descriptor: the bytes that reached it, how many [write] calls were made, and
    [errno]. *)
Record io := MkIo { io_out : list Z; io_tick : nat; io_errno : Z }.
Definition set_errno (s : io) (e : Z) : io := MkIo s.(io_out) s.(io_tick) e.

Section Output.

(** The result of the [n]-th [write] of so many bytes, and its [errno] when it is
    negative. *)
Context (write : nat -> Z -> Z * Z).

(** [None] when the fuel, one unit per [write], runs out. *)
Fixpoint stream_to_fd (fuel : nat) (s : io) (buf : list Z) : option (io * Z) :=
  match buf with
  | [] => Some (s, 0)
  | _ =>
      match fuel with
      | O => None
      | S fuel =>
          let '(got, err) := write s.(io_tick) (Z.of_nat (length buf)) in
          let errno := if got <? 0 then err else s.(io_errno) in
          if 0 <? got then stream_to_fd fuel (MkIo (s.(io_out) ++ take (Z.to_nat got) buf) (S s.(io_tick)) errno) (drop (Z.to_nat got) buf)
          else if (got <? 0) && (errno =? EINTR) then stream_to_fd fuel (MkIo s.(io_out) (S s.(io_tick)) errno) buf
          else Some (MkIo s.(io_out) (S s.(io_tick)) errno, -1)
      end
  end.

(** The next step when the write before it succeeded. *)
Definition after (r : option (io * Z)) (f : io -> option (io * Z)) : option (io * Z) :=
  match r with None => None | Some (s, rc) => if negb (rc =? 0) then Some (s, -1) else f s end.

(** The blocks of the stream; [n] is at least their number. *)
Fixpoint stream_blocks (n fuel : nat) (s : io) (buf : list Z) : option (io * Z) :=
  match buf with
  | [] => Some (s, 0)
  | _ =>
      match n with
      | O => None
      | S n =>
          let remain := Z.of_nat (length buf) in
          let is_final := remain <=? V8M_GZIP_MAX_STORED_BLOCK in
          let block_len := if is_final then remain else V8M_GZIP_MAX_STORED_BLOCK in
          after (stream_to_fd fuel s (block_header is_final block_len)) (fun s =>
          after (stream_to_fd fuel s (take (Z.to_nat block_len) buf)) (fun s =>
          stream_blocks n fuel s (drop (Z.to_nat block_len) buf)))
      end
  end.

Definition stream_gzip_to_fd (fuel : nat) (s : io) (buf : list Z) : option (io * Z) :=
  after (stream_to_fd fuel s gzip_header) (fun s =>
  after (match buf with [] => stream_to_fd fuel s [0x01; 0x00; 0x00; 0xFF; 0xFF] | _ => Some (s, 0) end) (fun s =>
  after (stream_blocks (S (length buf)) fuel s buf) (fun s =>
  let crc := pprof_crc32 buf in
  let isize := u32 (Z.of_nat (length buf)) in
  stream_to_fd fuel s (little32 crc ++ little32 isize)))).

Definition dump_with (stream : io -> list Z -> option (io * Z)) (s : io) (hist : ThreadCache.histogram) : option (io * Z) :=
  let '(buf, off) := encode_heap_profile hist in
  if off =? SIZE_MAX then Some (set_errno s EOVERFLOW, -1)
  else
    match stream s (prefix_of buf off) with
    | None => None
    | Some (s, rc) => Some (s, if negb (rc =? 0) then -1 else off)
    end.
Definition v8m_pprof_dump_heap (fuel : nat) (s : io) (hist : ThreadCache.histogram) : option (io * Z) := dump_with (stream_to_fd fuel) s hist.
Definition v8m_pprof_dump_heap_gz (fuel : nat) (s : io) (hist : ThreadCache.histogram) : option (io * Z) := dump_with (stream_gzip_to_fd fuel) s hist.

Definition path_ends_with_gz (path : list Z) : bool :=
  let len := length path in
  if (len <? 3)%nat then false else bool_decide (drop (len - 3) path = codes ".gz").

(** [path] is [None] for [NULL]; opening truncates the file. *)
Definition v8m_pprof_dump_heap_to_path (fuel : nat) (e : file_env) (errno : Z) (path : option (list Z)) (hist : ThreadCache.histogram) : option (io * Z) :=
  match path with
  | None => Some (MkIo [] 0 EINVAL, -1)
  | Some path =>
      if e.(fe_open) <? 0 then Some (MkIo [] 0 e.(fe_open_errno), -1)
      else
        let s := MkIo [] 0 errno in
        match (if path_ends_with_gz path then v8m_pprof_dump_heap_gz fuel s hist else v8m_pprof_dump_heap fuel s hist) with
        | None => None
        | Some (s, got) =>
            let saved := s.(io_errno) in
            let failed := negb (e.(fe_close) =? 0) in
            let s := if failed then set_errno s e.(fe_close_errno) else s in
            if failed && (0 <=? got) then Some (s, -1)
            else if got <? 0 then Some (set_errno s saved, -1)
            else Some (s, 0)
        end
  end.

End Output.

(** ** The wire format, as a reference

    A message is a list of numbered fields; [message] is its encoding and
    [parse_fields] reads any message back. *)

Inductive payload := PVarint (v : Z) | PBytes (bs : list Z).
Notation field := (Z * payload)%type.

Fixpoint varint (n : nat) (v : Z) : list Z :=
  match n with O => [] | S n => if 128 <=? v then v mod 128 + 128 :: varint n (v / 128) else [v] end.
Definition field_bytes (f : field) : list Z :=
  match f.2 with
  | PVarint v => varint 10 (f.1 * 8) ++ varint 10 v
  | PBytes bs => varint 10 (f.1 * 8 + 2) ++ varint 10 (Z.of_nat (length bs)) ++ bs
  end.
Definition message (fs : list field) : list Z := fs ≫= field_bytes.

Fixpoint get_varint (l : list Z) : option (Z * list Z) :=
  match l with
  | [] => None
  | b :: l => if b <? 128 then Some (b, l) else match get_varint l with None => None | Some (v, l) => Some (128 * v + (b - 128), l) end
  end.
Fixpoint parse_fields (fuel : nat) (l : list Z) : option (list field) :=
  match l with
  | [] => Some []
  | _ =>
      match fuel with
      | O => None
      | S fuel =>
          '(tag, l) ← get_varint l;
          '(n, l) ← get_varint l;
          if tag mod 8 =? 0 then fs ← parse_fields fuel l; Some ((tag / 8, PVarint n) :: fs)
          else if tag mod 8 =? 2 then
            if Z.of_nat (length l) <? n then None
            else fs ← parse_fields fuel (drop (Z.to_nat n) l); Some ((tag / 8, PBytes (take (Z.to_nat n) l)) :: fs)
          else None
      end
  end.
Definition parse (l : list Z) : option (list field) := parse_fields (length l) l.
Fixpoint parse_packed (fuel : nat) (l : list Z) : option (list Z) :=
  match l with
  | [] => Some []
  | _ => match fuel with O => None | S fuel => '(v, l) ← get_varint l; vs ← parse_packed fuel l; Some (v :: vs) end
  end.

(** A scalar field is the last one written, or 0; a repeated one is all of them. *)
Definition scalar (n : Z) (fs : list field) : Z := foldl (fun acc f => match f.2 with PVarint v => if f.1 =? n then v else acc | _ => acc end) 0 fs.
Definition repeated (n : Z) (fs : list field) : list (list Z) := omap (fun f => match f.2 with PBytes bs => if f.1 =? n then Some bs else None | _ => None end) fs.

(** The messages of [profile.proto], as far as they are used. *)
Record profile := MkProfile {
  p_sample_types : list (Z * Z);
  p_samples : list (list Z * list Z);
  p_locations : list (Z * list Z);
  p_functions : list (Z * Z);
  p_strings : list (list Z)
}.
Definition read_value_type (b : list Z) : option (Z * Z) := m ← parse b; Some (scalar 1 m, scalar 2 m).
Definition read_sample (b : list Z) : option (list Z * list Z) :=
  m ← parse b;
  locs ← parse_packed (length b) (concat (repeated 1 m));
  vals ← parse_packed (length b) (concat (repeated 2 m));
  Some (locs, vals).
Definition read_location (b : list Z) : option (Z * list Z) :=
  m ← parse b; lines ← mapM (fun l => scalar 1 <$> parse l) (repeated 4 m); Some (scalar 1 m, lines).
Definition read_function (b : list Z) : option (Z * Z) := m ← parse b; Some (scalar 1 m, scalar 2 m).
Definition read_profile (b : list Z) : option profile :=
  m ← parse b;
  types ← mapM read_value_type (repeated 1 m);
  samples ← mapM read_sample (repeated 2 m);
  locations ← mapM read_location (repeated 4 m);
  functions ← mapM read_function (repeated 5 m);
  Some (MkProfile types samples locations functions (repeated 6 m)).

(** What a reader shows: the names of the values, and a row for each sample. *)
Fixpoint assoc {A} (k : Z) (l : list (Z * A)) : option A := match l with [] => None | (j, v) :: l => if j =? k then Some v else assoc k l end.
Definition string_at (p : profile) (i : Z) : option (list Z) := if i <? 0 then None else p.(p_strings) !! Z.to_nat i.
Definition value_names (p : profile) : option (list (list Z * list Z)) :=
  mapM (fun t => ty ← string_at p t.1; unit ← string_at p t.2; Some (ty, unit)) p.(p_sample_types).
Definition frame_name (p : profile) (loc : Z) : option (list Z) :=
  lines ← assoc loc p.(p_locations); f ← head lines; name ← assoc f p.(p_functions); string_at p name.
Definition report (p : profile) : option (list (list (list Z) * list Z)) :=
  mapM (fun s => names ← mapM (frame_name p) s.1; Some (names, s.2)) p.(p_samples).

(** ** The reference parser inverts the encoding *)

Lemma varint_shift k v : 0 <= v < 2 ^ (7 * Z.of_nat (S k)) -> 0 <= v / 128 < 2 ^ (7 * Z.of_nat k).
Proof.
  replace (7 * Z.of_nat (S k)) with (7 * Z.of_nat k + 7) by lia. rewrite Z.pow_add_r by lia. intros Hv. split; [apply Z.div_pos; lia|apply Z.div_lt_upper_bound; lia].
Qed.

Lemma varint_get n v r : (0 < n)%nat -> 0 <= v < 2 ^ (7 * Z.of_nat n) -> get_varint (varint n v ++ r) = Some (v, r).
Proof.
  revert v. induction n as [|n IH]; intros v Hn Hv; [lia|]. cbn [varint]. destruct (Z.leb_spec 128 v) as [Hb|Hb]; cbn [app get_varint].
  - pose proof (varint_shift n v Hv) as Hs. pose proof (Z.mod_pos_bound v 128). rewrite (proj2 (Z.ltb_ge _ _)) by lia.
    assert (0 < n)%nat by (destruct n; [cbn in Hs; pose proof (Z.div_mod v 128); lia|lia]). rewrite IH by done. f_equal. f_equal. pose proof (Z.div_mod v 128). lia.
  - by rewrite (proj2 (Z.ltb_lt _ _)) by lia.
Qed.

Lemma varint_length n v k : (0 < k <= n)%nat -> 0 <= v < 2 ^ (7 * Z.of_nat k) -> (0 < length (varint n v) <= k)%nat.
Proof.
  revert v n. induction k as [|k IH]; intros v n Hk Hv; [lia|]. destruct n as [|n]; [lia|]. cbn [varint]. destruct (Z.leb_spec 128 v) as [Hb|Hb]; cbn [length]; [|lia].
  pose proof (varint_shift k v Hv) as Hs. destruct (decide (k = 0%nat)) as [->|Hk0]; [cbn in Hs; pose proof (Z.div_mod v 128); lia|].
  specialize (IH (v / 128) n ltac:(lia) Hs). lia.
Qed.

Lemma varint64_length v : is_u64 v -> (0 < length (varint 10 v) <= 10)%nat.
Proof. intros Hv. apply varint_length; [lia|]. unfold is_u64 in Hv. change (7 * Z.of_nat 10) with 70. lia. Qed.

Definition field_ok (f : field) : Prop :=
  0 < f.1 < 16 /\ match f.2 with PVarint v => is_u64 v | PBytes bs => is_u64 (Z.of_nat (length bs)) end.

Lemma get_varint64 v r : is_u64 v -> get_varint (varint 10 v ++ r) = Some (v, r).
Proof. intros Hv. apply varint_get; [lia|]. unfold is_u64 in Hv. change (7 * Z.of_nat 10) with 70. lia. Qed.

Lemma field_bytes_length f : field_ok f -> (2 <= length (field_bytes f))%nat.
Proof.
  intros [Hf Hp]. unfold field_bytes. destruct f as [n [v|bs]]; cbn [fst snd] in *; rewrite !length_app.
  - pose proof (varint64_length (n * 8) ltac:(unfold is_u64; lia)). pose proof (varint64_length v Hp). lia.
  - pose proof (varint64_length (n * 8 + 2) ltac:(unfold is_u64; lia)). pose proof (varint64_length _ Hp). lia.
Qed.

Lemma parse_fields_message fs fuel : Forall field_ok fs -> (length (message fs) <= fuel)%nat -> parse_fields fuel (message fs) = Some fs.
Proof.
  intros Hok. revert fuel. induction Hok as [|f fs Hf Hfs IH]; intros fuel Hl; [by destruct fuel|].
  pose proof (field_bytes_length f Hf) as H2. cbn [message mbind list_bind] in Hl |- *. fold (message fs) in *. rewrite length_app in Hl.
  destruct fuel as [|fuel]; [lia|]. specialize (IH fuel ltac:(lia)). destruct Hf as [Hn Hp]. destruct f as [n pl]. cbn in Hn, Hp.
  assert (Hne : field_bytes (n, pl) ++ message fs <> []) by (intros He; apply (f_equal length) in He; rewrite length_app in He; cbn in He; lia).
  remember (field_bytes (n, pl) ++ message fs) as l eqn:El. destruct l as [|b l]; [done|]. cbn [parse_fields]. rewrite El. clear Hne El b l Hl H2.
  destruct pl as [v|bs]; unfold field_bytes; cbn [fst snd]; rewrite <- !app_assoc, get_varint64 by (unfold is_u64; lia); cbn [mbind option_bind]; rewrite get_varint64 by done; cbn [mbind option_bind].
  - replace ((n * 8) mod 8) with 0 by (by rewrite Z.mod_mul). rewrite Z.eqb_refl, IH. cbn. by rewrite Z.div_mul.
  - replace ((n * 8 + 2) mod 8) with 2 by (rewrite Z.add_comm, Z.mod_add by lia; done). cbn [Z.eqb Pos.eqb]. rewrite length_app, (proj2 (Z.ltb_ge _ _)) by lia.
    rewrite Nat2Z.id, drop_app_length, take_app_length, IH. cbn. rewrite Z.div_add_l by lia. change (2 / 8) with 0. by rewrite Z.add_0_r.
Qed.
Lemma parse_message fs : Forall field_ok fs -> parse (message fs) = Some fs.
Proof. intros H. by apply parse_fields_message. Qed.

Lemma parse_packed_varints vs fuel : Forall is_u64 vs -> (length (vs ≫= varint 10) <= fuel)%nat -> parse_packed fuel (vs ≫= varint 10) = Some vs.
Proof.
  intros Hv. revert fuel. induction Hv as [|v vs Hv Hvs IH]; intros fuel Hl; [by destruct fuel|]. rewrite bind_cons in Hl |- *. rewrite length_app in Hl.
  pose proof (varint64_length v Hv). destruct fuel as [|fuel]; [lia|]. specialize (IH fuel ltac:(lia)).
  remember (varint 10 v ++ (vs ≫= varint 10)) as l eqn:El. destruct l as [|b l]; [apply (f_equal length) in El; rewrite length_app in El; change (length []) with 0%nat in El; lia|].
  cbn [parse_packed]. rewrite El, get_varint64 by done. cbn [mbind option_bind]. by rewrite IH.
Qed.

(** ** The encoder writes the encoding

    [emits w cap bs]: wherever [bs] fits, [w] appends exactly [bs]. *)

Definition emits (w : mem -> Z -> mem * Z) (cap : Z) (bs : list Z) : Prop :=
  forall buf off, 0 <= off -> off + Z.of_nat (length bs) <= cap -> w buf off = (put buf off bs, off + Z.of_nat (length bs)).

Lemma put_app buf off a b : put buf off (a ++ b) = put (put buf off a) (off + Z.of_nat (length a)) b.
Proof.
  revert buf off. induction a as [|x a IH]; intros buf off; cbn [app put length]; [by rewrite Z.add_0_r|]. rewrite IH. f_equal. lia.
Qed.
Lemma put_before buf off data x : x < off -> rd (put buf off data) x = rd buf x.
Proof.
  revert buf off. induction data as [|b data IH]; intros buf off Hx; cbn [put]; [done|]. rewrite IH by lia. apply rd_wr_ne. lia.
Qed.
Lemma put_prefix buf off data : rd (put buf off data) <$> seqZ off (Z.of_nat (length data)) = data.
Proof.
  revert buf off. induction data as [|b data IH]; intros buf off; cbn [put length]; [done|]. rewrite seqZ_cons by lia. cbn [fmap list_fmap]. f_equal.
  - rewrite put_before by lia. apply rd_wr_eq.
  - replace (Z.pred (Z.of_nat (S (length data)))) with (Z.of_nat (length data)) by lia. rewrite <- Z.add_1_r. apply IH.
Qed.
Lemma prefix_put buf data : prefix_of (put buf 0 data) (Z.of_nat (length data)) = data.
Proof. apply put_prefix. Qed.

(** Numbers with disjoint bits. *)
Lemma lor_add a b k : 0 <= k -> 0 <= a < 2 ^ k -> Z.lor a (Z.shiftl b k) = a + Z.shiftl b k.
Proof.
  intros Hk Ha. assert (Hd : Z.land a (Z.shiftl b k) = 0).
  { apply Z.bits_inj'. intros i Hi. rewrite Z.land_spec, Z.bits_0. destruct (Z.lt_ge_cases i k).
    - by rewrite Z.shiftl_spec_low, andb_false_r by lia.
    - by rewrite (testbit_high a k i) by lia. }
  rewrite Z.add_nocarry_lxor, Z.lxor_lor by done. done.
Qed.

Lemma varint_byte v : 0 <= v -> Z.lor (Z.land v 0x7F) 0x80 = v mod 128 + 128 /\ Z.land v 0x7F = v mod 128 /\ Z.shiftr v 7 = v / 128.
Proof.
  intros Hv. assert (Hm : Z.land v 0x7F = v mod 128) by apply (land_mask_low v 7 ltac:(lia)). split_and!; [|done|by rewrite Z.shiftr_div_pow2].
  rewrite Hm. apply (lor_add _ 1 7); [lia|]. apply Z.mod_pos_bound. lia.
Qed.

Section Emit.
Context (cap : Z) (Hcap : 0 <= cap < 2 ^ 32).

Lemma emits_seq w1 w2 a b : emits w1 cap a -> emits w2 cap b -> emits (fun buf off => checked (w1 buf off) w2) cap (a ++ b).
Proof.
  intros H1 H2 buf off Ho Hf. rewrite length_app in Hf |- *. rewrite (H1 buf off) by lia. unfold checked. rewrite (proj2 (Z.eqb_neq _ _)) by (unfold SIZE_MAX; lia).
  rewrite H2 by lia. rewrite put_app. f_equal. lia.
Qed.

Lemma emits_varint n v : 0 <= v < 2 ^ (7 * Z.of_nat n) -> (0 < n)%nat -> emits (fun buf off => write_varint n buf cap off v) cap (varint n v).
Proof.
  revert v. induction n as [|n IH]; intros v Hv Hn buf off Ho Hf; [lia|]. cbn [write_varint varint] in *. destruct (varint_byte v ltac:(lia)) as (-> & -> & ->).
  destruct (Z.leb_spec 128 v) as [Hb|Hb]; cbn [length put] in Hf |- *.
  - pose proof (varint_shift n v Hv) as Hs. assert (0 < n)%nat by (destruct n; [cbn in Hs; pose proof (Z.div_mod v 128); lia|lia]).
    rewrite (proj2 (Z.leb_gt _ _)) by lia. rewrite (IH (v / 128) Hs) by lia. f_equal. lia.
  - rewrite (proj2 (Z.leb_gt _ _)) by lia. rewrite Z.mod_small by lia. done.
Qed.
Lemma emits_varint64 v : is_u64 v -> emits (fun buf off => pb_write_varint buf cap off v) cap (varint 10 v).
Proof. intros Hv. apply emits_varint; [|unfold varint_fuel; lia]. unfold is_u64 in Hv. change (7 * Z.of_nat varint_fuel) with 70. lia. Qed.

Lemma emits_tag n wire : 0 < n < 16 -> 0 <= wire < 8 -> emits (fun buf off => pb_write_tag buf cap off n wire) cap (varint 10 (n * 8 + wire)).
Proof.
  intros Hn Hw. unfold pb_write_tag. replace (Z.lor (Z.shiftl n 3) wire) with (n * 8 + wire); [apply emits_varint64; unfold is_u64; lia|].
  rewrite Z.lor_comm, (lor_add wire n 3), Z.shiftl_mul_pow2 by lia. lia.
Qed.

Lemma emits_uint64 n v : 0 < n < 16 -> is_u64 v -> emits (fun buf off => pb_write_uint64_field buf cap off n v) cap (field_bytes (n, PVarint v)).
Proof. intros Hn Hv. unfold pb_write_uint64_field, field_bytes. cbn [fst snd]. replace (n * 8) with (n * 8 + 0) by lia. apply emits_seq; [apply emits_tag; lia|by apply emits_varint64]. Qed.
Lemma emits_int64 n v : 0 < n < 16 -> is_u64 v -> emits (fun buf off => pb_write_int64_field buf cap off n v) cap (field_bytes (n, PVarint v)).
Proof. intros Hn Hv. unfold pb_write_int64_field. rewrite u64_small by done. by apply emits_uint64. Qed.

Lemma emits_bytes n bs : 0 < n < 16 -> emits (fun buf off => pb_write_bytes_field buf cap off n bs) cap (field_bytes (n, PBytes bs)).
Proof.
  intros Hn buf off Ho Hf. pose proof Hf as Hl. unfold field_bytes in Hl. cbn [fst snd] in Hl. rewrite !length_app in Hl.
  apply (emits_seq (fun buf off => pb_write_tag buf cap off n 2) _ _ (varint 10 (Z.of_nat (length bs)) ++ bs)); [by apply emits_tag| |done|done].
  apply emits_seq; [apply emits_varint64; unfold is_u64; lia|]. intros buf' off' Ho' Hf'. rewrite u64_small by (unfold is_u64; lia). cbv zeta. by rewrite (proj2 (Z.ltb_ge _ _)) by lia.
Qed.

Lemma emits_nil : emits (fun buf off => (buf, off)) cap [].
Proof. intros buf off _ _. cbn. by rewrite Z.add_0_r. Qed.

Lemma emits_each (emit : mem -> Z -> Z -> mem * Z) enc cs : (forall c, c ∈ cs -> emits (fun buf off => emit buf off c) cap (enc c)) -> emits (emit_each emit cs) cap (cs ≫= enc).
Proof.
  induction cs as [|c cs IH]; intros H; [apply emits_nil|]. rewrite bind_cons. cbn [emit_each].
  apply (emits_seq (fun buf off => emit buf off c)); [apply H; left|apply IH; intros x Hx; apply H; by right].
Qed.

Lemma emits_strings strs : emits (emit_strings strs cap) cap (strs ≫= fun s => field_bytes (6, PBytes s)).
Proof.
  induction strs as [|s strs IH]; [apply emits_nil|]. rewrite bind_cons. cbn [emit_strings]. apply (emits_seq (fun buf off => pb_write_string_field buf cap off 6 s)); [by apply emits_bytes|done].
Qed.

(** A submessage goes through a scratch buffer that holds it. *)
Lemma emits_scratch w room bs n : 0 < n < 16 -> emits w room bs -> Z.of_nat (length bs) <= room < 2 ^ 32 ->
  emits (fun out off => let '(inner, k) := w ∅ 0 in if k =? SIZE_MAX then (out, k) else pb_write_bytes_field out cap off n (prefix_of inner k)) cap (field_bytes (n, PBytes bs)).
Proof.
  intros Hn Hw Hr buf off Ho Hf. rewrite Hw by lia. rewrite Z.add_0_l, (proj2 (Z.eqb_neq _ _)) by (unfold SIZE_MAX; lia). rewrite prefix_put. by apply emits_bytes.
Qed.

Lemma emits_alive emit enc alive huge_alive :
  (forall row, row ∈ all_classes \/ row = V8M_PUBLIC_NUM_SIZE_CLASSES -> emits (fun buf off => emit buf off row) cap (enc row)) ->
  emits (emit_alive emit alive huge_alive) cap ((filter (fun c => alive c = true) all_classes ++ (if huge_alive then [V8M_PUBLIC_NUM_SIZE_CLASSES] else [])) ≫= enc).
Proof.
  intros H. rewrite bind_app. unfold emit_alive.
  refine (emits_seq (emit_each (fun buf off cls => if negb (alive cls) then (buf, off) else emit buf off cls) all_classes) _ _ _ _ _).
  - assert (Heq : forall cs, filter (fun c => alive c = true) cs ≫= enc = cs ≫= fun c => if alive c then enc c else []).
    { induction cs as [|c cs IH]; [done|]. rewrite filter_cons, bind_cons. case_decide as Ha; [by rewrite Ha, bind_cons, IH|]. rewrite IH. by destruct (alive c). }
    rewrite Heq. apply emits_each. intros c Hc. destruct (alive c); cbn [negb]; [apply H; by left|apply emits_nil].
  - destruct huge_alive; [|apply emits_nil]. rewrite bind_cons. cbn [mbind list_bind]. rewrite app_nil_r. apply H. by right.
Qed.

End Emit.

Lemma message_cons f fs : message (f :: fs) = field_bytes f ++ message fs.
Proof. done. Qed.
Lemma message_one f : message [f] = field_bytes f.
Proof. unfold message. rewrite bind_cons. apply app_nil_r. Qed.
Lemma message_app fs gs : message (fs ++ gs) = message fs ++ message gs.
Proof. apply bind_app. Qed.

Lemma field_bytes_small n v : 0 < n < 16 -> 0 <= v < 128 -> (length (field_bytes (n, PVarint v)) <= 2)%nat.
Proof.
  intros Hn Hv. unfold field_bytes. cbn [fst snd]. rewrite length_app. pose proof (varint_length 10 (n * 8) 1 ltac:(lia) ltac:(cbn; lia)). pose proof (varint_length 10 v 1 ltac:(lia) ltac:(cbn; lia)). lia.
Qed.
Lemma field_bytes_block n bs : 0 < n < 15 -> (length bs < 128)%nat -> (length (field_bytes (n, PBytes bs)) <= 2 + length bs)%nat.
Proof.
  intros Hn Hv. unfold field_bytes. cbn [fst snd]. rewrite !length_app. pose proof (varint_length 10 (n * 8 + 2) 1 ltac:(lia) ltac:(cbn; lia)).
  pose proof (varint_length 10 (Z.of_nat (length bs)) 1 ltac:(lia) ltac:(cbn; lia)). lia.
Qed.

(** ** The messages of the profile *)

Definition value_type_fields (t u : Z) : list field := [(1, PVarint t); (2, PVarint u)].
Definition function_fields (id name : Z) : list field := [(1, PVarint id); (2, PVarint name); (3, PVarint name)].
Definition line_fields (f : Z) : list field := [(1, PVarint f)].
Definition location_fields (id f : Z) : list field := [(1, PVarint id); (4, PBytes (message (line_fields f)))].
Definition sample_fields (loc count bytes : Z) : list field := [(1, PBytes (varint 10 loc)); (2, PBytes (varint 10 count ++ varint 10 bytes))].

Definition small (x : Z) : Prop := 0 <= x < 128.
Lemma small_u64 x : small x -> is_u64 x.
Proof. unfold small, is_u64. lia. Qed.

Lemma value_type_length t u : small t -> small u -> (length (message (value_type_fields t u)) <= 4)%nat.
Proof.
  intros Ht Hu. unfold value_type_fields. rewrite message_cons, message_one, length_app. pose proof (field_bytes_small 1 t ltac:(lia) Ht). pose proof (field_bytes_small 2 u ltac:(lia) Hu). lia.
Qed.
Lemma function_length id name : small id -> small name -> (length (message (function_fields id name)) <= 6)%nat.
Proof.
  intros Ht Hu. unfold function_fields. rewrite 2!message_cons, message_one, !length_app.
  pose proof (field_bytes_small 1 id ltac:(lia) Ht). pose proof (field_bytes_small 2 name ltac:(lia) Hu). pose proof (field_bytes_small 3 name ltac:(lia) Hu). lia.
Qed.
Lemma line_length f : small f -> (length (message (line_fields f)) <= 2)%nat.
Proof. intros Hf. unfold line_fields. rewrite message_one. apply field_bytes_small; [lia|done]. Qed.
Lemma location_length id f : small id -> small f -> (length (message (location_fields id f)) <= 6)%nat.
Proof.
  intros Hi Hf. unfold location_fields. rewrite message_cons, message_one, length_app. pose proof (line_length f Hf).
  pose proof (field_bytes_small 1 id ltac:(lia) Hi). pose proof (field_bytes_block 4 (message (line_fields f)) ltac:(lia) ltac:(lia)). lia.
Qed.
Lemma sample_length l c b : small l -> is_u64 c -> is_u64 b -> (length (message (sample_fields l c b)) <= 25)%nat.
Proof.
  intros Hl Hc Hb. unfold sample_fields. rewrite message_cons, message_one, length_app. pose proof (varint_length 10 l 1 ltac:(lia) ltac:(unfold small in Hl; cbn; lia)).
  pose proof (varint64_length c Hc). pose proof (varint64_length b Hb). pose proof (field_bytes_block 1 (varint 10 l) ltac:(lia) ltac:(lia)).
  pose proof (field_bytes_block 2 (varint 10 c ++ varint 10 b) ltac:(lia) ltac:(rewrite length_app; lia)) as Hv. rewrite length_app in Hv. lia.
Qed.

Section Messages.
Context (cap : Z) (Hcap : 0 <= cap < 2 ^ 32).

Lemma emits_value_type n t u : 0 < n < 16 -> small t -> small u ->
  emits (fun buf off => emit_value_type buf cap off n t u) cap (field_bytes (n, PBytes (message (value_type_fields t u)))).
Proof.
  intros Hn Ht Hu. pose proof (value_type_length t u Ht Hu).
  refine (emits_scratch cap Hcap (fun i k => checked (pb_write_int64_field i 32 k 1 t) (fun i k => pb_write_int64_field i 32 k 2 u)) 32 _ n Hn _ _); [|lia].
  unfold value_type_fields. rewrite message_cons, message_one. apply (emits_seq 32 ltac:(lia) (fun i k => pb_write_int64_field i 32 k 1 t)); apply emits_int64; try lia; by apply small_u64.
Qed.
Lemma emits_function id name : small id -> small name ->
  emits (fun buf off => emit_function buf cap off id name) cap (field_bytes (5, PBytes (message (function_fields id name)))).
Proof.
  intros Ht Hu. pose proof (function_length id name Ht Hu).
  refine (emits_scratch cap Hcap (fun i k => checked (pb_write_uint64_field i 32 k 1 id) (fun i k => checked (pb_write_int64_field i 32 k 2 name) (fun i k => pb_write_int64_field i 32 k 3 name))) 32 _ 5 _ _ _); [lia| |lia].
  unfold function_fields. rewrite 2!message_cons, message_one. apply (emits_seq 32 ltac:(lia) (fun i k => pb_write_uint64_field i 32 k 1 id)); [apply emits_uint64; try lia; by apply small_u64|].
  apply (emits_seq 32 ltac:(lia) (fun i k => pb_write_int64_field i 32 k 2 name)); apply emits_int64; try lia; by apply small_u64.
Qed.
Lemma emits_location id f : small id -> small f ->
  emits (fun buf off => emit_location buf cap off id f) cap (field_bytes (4, PBytes (message (location_fields id f)))).
Proof.
  intros Hi Hf. pose proof (location_length id f Hi Hf). pose proof (line_length f Hf). intros buf off Ho Hfit. unfold emit_location.
  rewrite (emits_uint64 16 ltac:(lia) 1 f ltac:(lia) (small_u64 f Hf) ∅ 0 ltac:(lia)) by (rewrite <- message_one; fold (line_fields f); lia). rewrite <- message_one. fold (line_fields f).
  rewrite Z.add_0_l, (proj2 (Z.eqb_neq _ _)) by (unfold SIZE_MAX; lia). rewrite prefix_put.
  refine (emits_scratch cap Hcap (fun i k => checked (pb_write_uint64_field i 64 k 1 id) (fun i k => pb_write_bytes_field i 64 k 4 (message (line_fields f)))) 64 _ 4 _ _ _ buf off Ho Hfit); [lia| |lia].
  unfold location_fields. rewrite message_cons, message_one. apply (emits_seq 64 ltac:(lia) (fun i k => pb_write_uint64_field i 64 k 1 id)); [apply emits_uint64; try lia; by apply small_u64|apply emits_bytes; lia].
Qed.
Lemma emits_sample l c b : small l -> is_u64 c -> is_u64 b ->
  emits (fun buf off => emit_sample buf cap off l c b) cap (field_bytes (2, PBytes (message (sample_fields l c b)))).
Proof.
  intros Hl Hc Hb. pose proof (sample_length l c b Hl Hc Hb). pose proof (varint64_length l (small_u64 l Hl)). pose proof (varint64_length c Hc). pose proof (varint64_length b Hb).
  intros buf off Ho Hfit. unfold emit_sample. rewrite (emits_varint64 16 l (small_u64 l Hl) ∅ 0) by lia.
  rewrite Z.add_0_l, (proj2 (Z.eqb_neq _ _)) by (unfold SIZE_MAX; lia). rewrite prefix_put.
  rewrite (emits_seq 32 ltac:(lia) (fun v k => pb_write_varint v 32 k c) (fun v k => pb_write_varint v 32 k b) _ _ (emits_varint64 32 c Hc) (emits_varint64 32 b Hb) ∅ 0) by (rewrite ?length_app; lia).
  rewrite Z.add_0_l, (proj2 (Z.eqb_neq _ _)) by (unfold SIZE_MAX; rewrite length_app; lia). rewrite prefix_put.
  refine (emits_scratch cap Hcap (fun i k => checked (pb_write_bytes_field i 64 k 1 (varint 10 l)) (fun i k => pb_write_bytes_field i 64 k 2 (varint 10 c ++ varint 10 b))) 64 _ 2 _ _ _ buf off Ho Hfit); [lia| |lia].
  unfold sample_fields. rewrite message_cons, message_one. apply (emits_seq 64 ltac:(lia) (fun i k => pb_write_bytes_field i 64 k 1 (varint 10 l))); apply emits_bytes; lia.
Qed.

End Messages.

(** ** The whole profile *)

(** The rows of a histogram: its classes with requests, and the huge row. *)
Definition rows (hist : ThreadCache.histogram) : list Z :=
  filter (fun c => (0 <? znth hist.(ThreadCache.request_count) c) = true) all_classes ++
  (if 0 <? hist.(ThreadCache.huge_request_count) then [V8M_PUBLIC_NUM_SIZE_CLASSES] else []).
Definition row_name (row : Z) : list Z := if row <? V8M_PUBLIC_NUM_SIZE_CLASSES then codes ("size_class_" +:+ pretty row) else codes "huge".

Definition type_fields : list field :=
  [(1, PBytes (message (value_type_fields V8M_PPROF_STR_ALLOC_OBJECTS V8M_PPROF_STR_COUNT)));
   (1, PBytes (message (value_type_fields V8M_PPROF_STR_ALLOC_SPACE V8M_PPROF_STR_BYTES)))].
Definition row_sample (hist : ThreadCache.histogram) (row : Z) : list Z := message (sample_fields (row + 1) (row_count hist row) (row_bytes hist row)).
Definition row_location (row : Z) : list Z := message (location_fields (row + 1) (row + 1)).
Definition row_function (row : Z) : list Z := message (function_fields (row + 1) (V8M_PPROF_STR_FIRST_CLASS + row)).
Definition strings : list (list Z) := fixed_strings ++ (format_class_name 16 <$> all_classes) ++ [codes "huge"].
Definition numbered (n : Z) (l : list (list Z)) : list field := (fun b => (n, PBytes b)) <$> l.
Definition profile_fields (hist : ThreadCache.histogram) : list field :=
  type_fields ++ numbered 2 (row_sample hist <$> rows hist) ++ numbered 4 (row_location <$> rows hist) ++ numbered 5 (row_function <$> rows hist) ++ numbered 6 strings.

(** A histogram of 64-bit counters. *)
Record hist_ok (hist : ThreadCache.histogram) : Prop := {
  ho_count : Forall is_u64 hist.(ThreadCache.request_count);
  ho_bytes : Forall is_u64 hist.(ThreadCache.request_bytes);
  ho_huge : is_u64 hist.(ThreadCache.huge_request_count) /\ is_u64 hist.(ThreadCache.huge_request_bytes)
}.

Lemma message_numbered {A} n (g : A -> list Z) l : message (numbered n (g <$> l)) = l ≫= fun x => field_bytes (n, PBytes (g x)).
Proof. induction l as [|x l IH]; [done|]. cbn [fmap list_fmap numbered] in *. rewrite message_cons, bind_cons. f_equal. exact IH. Qed.

Lemma rows_range hist row : row ∈ rows hist -> 0 <= row <= V8M_PUBLIC_NUM_SIZE_CLASSES.
Proof.
  unfold rows, all_classes, V8M_PUBLIC_NUM_SIZE_CLASSES. rewrite elem_of_app. intros [[_ H%elem_of_seqZ]%list_elem_of_filter|H]; [lia|].
  destruct (0 <? _); [apply list_elem_of_singleton in H; lia|by apply not_elem_of_nil in H].
Qed.
Lemma rows_length hist : (length (rows hist) <= 42)%nat.
Proof.
  unfold rows. rewrite length_app. pose proof (length_filter (fun c => (0 <? znth hist.(ThreadCache.request_count) c) = true) all_classes) as Hf.
  change (length all_classes) with 41%nat in Hf. destruct (0 <? ThreadCache.huge_request_count hist); cbn [length]; lia.
Qed.
Lemma row_counters hist row : hist_ok hist -> is_u64 (row_count hist row) /\ is_u64 (row_bytes hist row).
Proof.
  intros [Hc Hb [H1 H2]]. unfold row_count, row_bytes. assert (is_u64 0) by (unfold is_u64; lia). destruct (row <? _); [|done]. split; by apply znth_Forall.
Qed.

Lemma bind_length {A} (g : A -> list Z) l k : (forall x, x ∈ l -> (length (g x) <= k)%nat) -> (length (l ≫= g) <= length l * k)%nat.
Proof.
  induction l as [|x l IH]; intros H; [done|]. rewrite bind_cons, length_app. cbn [length]. pose proof (H x ltac:(left)). specialize (IH ltac:(intros y Hy; apply H; by right)). lia.
Qed.

Lemma strings_message_length : length (message (numbered 6 strings)) = 655%nat.
Proof. vm_compute. reflexivity. Qed.
Lemma types_message_length : length (message type_fields) = 12%nat.
Proof. vm_compute. reflexivity. Qed.

Lemma row_small hist row : row ∈ rows hist -> small (row + 1) /\ small (V8M_PPROF_STR_FIRST_CLASS + row).
Proof. intros H%rows_range. unfold small, V8M_PUBLIC_NUM_SIZE_CLASSES, V8M_PPROF_STR_FIRST_CLASS in *. lia. Qed.

(** The profile fits in the buffer with room to spare. *)
Lemma profile_length hist : hist_ok hist -> (length (message (profile_fields hist)) <= 2473)%nat.
Proof.
  intros Ho. unfold profile_fields. rewrite !message_app, !length_app, !message_numbered, strings_message_length, types_message_length. pose proof (rows_length hist) as Hr.
  pose proof (bind_length (fun r => field_bytes (2, PBytes (row_sample hist r))) (rows hist) 27) as H2. pose proof (bind_length (fun r => field_bytes (4, PBytes (row_location r))) (rows hist) 8) as H4.
  pose proof (bind_length (fun r => field_bytes (5, PBytes (row_function r))) (rows hist) 8) as H5.
  assert (forall r, r ∈ rows hist -> (length (field_bytes (2%Z, PBytes (row_sample hist r))) <= 27)%nat /\ (length (field_bytes (4%Z, PBytes (row_location r))) <= 8)%nat /\ (length (field_bytes (5%Z, PBytes (row_function r))) <= 8)%nat) as Hall.
  { intros r [Hs1 Hs2]%row_small. destruct (row_counters hist r Ho) as [Hc Hb]. pose proof (sample_length (r + 1) _ _ Hs1 Hc Hb). pose proof (location_length (r + 1) (r + 1) Hs1 Hs1). pose proof (function_length (r + 1) _ Hs1 Hs2).
    unfold row_sample, row_location, row_function. pose proof (field_bytes_block 2 (message (sample_fields (r + 1) (row_count hist r) (row_bytes hist r))) ltac:(lia) ltac:(lia)).
    pose proof (field_bytes_block 4 (message (location_fields (r + 1) (r + 1))) ltac:(lia) ltac:(lia)).
    pose proof (field_bytes_block 5 (message (function_fields (r + 1) (V8M_PPROF_STR_FIRST_CLASS + r))) ltac:(lia) ltac:(lia)). lia. }
  specialize (H2 (fun x Hx => proj1 (Hall x Hx))). specialize (H4 (fun x Hx => proj1 (proj2 (Hall x Hx)))). specialize (H5 (fun x Hx => proj2 (proj2 (Hall x Hx)))). lia.
Qed.

Lemma encode_profile hist : hist_ok hist ->
  encode_heap_profile hist = (put ∅ 0 (message (profile_fields hist)), Z.of_nat (length (message (profile_fields hist)))).
Proof.
  intros Ho. pose proof (profile_length hist Ho) as Hlen. assert (Hcap : 0 <= V8M_PPROF_BUF_BYTES < 2 ^ 32) by (unfold V8M_PPROF_BUF_BYTES; lia). set (cap := V8M_PPROF_BUF_BYTES) in *.
  set (alive := fun cls => 0 <? znth hist.(ThreadCache.request_count) cls). set (huge := 0 <? hist.(ThreadCache.huge_request_count)).
  assert (Hrow : forall row, row ∈ all_classes \/ row = V8M_PUBLIC_NUM_SIZE_CLASSES -> small (row + 1) /\ small (V8M_PPROF_STR_FIRST_CLASS + row)).
  { intros row [Hr%elem_of_seqZ| ->]; unfold small, V8M_PUBLIC_NUM_SIZE_CLASSES, V8M_PPROF_STR_FIRST_CLASS in *; lia. }
  assert (He : emits (fun buf off => checked (emit_sample_types buf cap off) (fun buf off => checked (emit_samples buf cap off hist alive huge) (fun buf off =>
            checked (emit_locations buf cap off alive huge) (fun buf off => checked (emit_functions buf cap off alive huge) (fun buf off => emit_string_table buf cap off))))) cap (message (profile_fields hist))).
  { unfold profile_fields. rewrite !message_app, !message_numbered. apply emits_seq; [done| |apply emits_seq; [done| |apply emits_seq; [done| |apply emits_seq; [done| |]]]].
    - unfold type_fields. rewrite message_cons, message_one. apply (emits_seq cap Hcap (fun buf off => emit_value_type buf cap off 1 V8M_PPROF_STR_ALLOC_OBJECTS V8M_PPROF_STR_COUNT)); apply (emits_value_type cap Hcap 1); done.
    - apply emits_alive; [done|]. intros row Hr. destruct (row_counters hist row Ho). apply emits_sample; [done|by apply Hrow|done|done].
    - apply emits_alive; [done|]. intros row Hr. destruct (Hrow row Hr). by apply emits_location.
    - apply emits_alive; [done|]. intros row Hr. destruct (Hrow row Hr). by apply emits_function.
    - unfold strings, numbered. rewrite !fmap_app, !message_app. apply (emits_seq cap Hcap (emit_strings fixed_strings cap)).
      + pose proof (emits_strings cap Hcap fixed_strings) as Hs. by rewrite <- (message_numbered 6 id), list_fmap_id in Hs.
      + apply (emits_seq cap Hcap (emit_each (fun buf off cls => pb_write_bytes_field buf cap off 6 (format_class_name 16 cls)) all_classes)).
        * fold (numbered 6 (format_class_name 16 <$> all_classes)). rewrite message_numbered. apply emits_each; [done|]. intros c _. apply emits_bytes; lia.
        * cbn [fmap list_fmap]. rewrite message_one. apply emits_bytes; lia. }
  apply (He ∅ 0); [lia|]. unfold cap, V8M_PPROF_BUF_BYTES. lia.
Qed.

(** ** Reading it back *)

Lemma repeated_app n a b : repeated n (a ++ b) = repeated n a ++ repeated n b.
Proof. apply omap_app. Qed.
Lemma repeated_numbered n k l : repeated n (numbered k l) = if k =? n then l else [].
Proof. unfold repeated, numbered. destruct (k =? n) eqn:E; induction l as [|x l IH]; [done| |done|]; cbn in IH |- *; rewrite E; [by f_equal|done]. Qed.

Lemma mapM_read {A B C} (f : B -> option C) (g : A -> B) (h : A -> C) l : (forall x, x ∈ l -> f (g x) = Some (h x)) -> mapM f (g <$> l) = Some (h <$> l).
Proof.
  induction l as [|x l IH]; intros H; [done|]. cbn [fmap list_fmap mapM]. rewrite (H x ltac:(left)). cbn. by rewrite IH by (intros y Hy; apply H; by right).
Qed.
Lemma assoc_row {A} (g : Z -> A) l row : row ∈ l -> assoc (row + 1) ((fun r => (r + 1, g r)) <$> l) = Some (g row).
Proof.
  induction l as [|x l IH]; intros H; [by apply not_elem_of_nil in H|]. cbn. destruct (Z.eqb_spec (x + 1) (row + 1)) as [He|Hne]; [by replace x with row by lia|].
  apply IH. apply elem_of_cons in H as [->|H]; [lia|done].
Qed.

Ltac fields_ok :=
  lazymatch goal with |- Forall _ (?f _ _ _) => unfold f | |- Forall _ (?f _ _) => unfold f | |- Forall _ (?f _) => unfold f end;
  repeat match goal with |- Forall _ (_ :: _) => apply Forall_cons_2 | |- Forall _ [] => apply Forall_nil_2 end;
  (split; cbn [fst snd]; [lia|first [done|by apply small_u64|unfold is_u64; rewrite ?length_app; lia]]).

Lemma read_value_type_ok t u : small t -> small u -> read_value_type (message (value_type_fields t u)) = Some (t, u).
Proof.
  intros Ht%small_u64 Hu%small_u64. unfold read_value_type. rewrite parse_message by fields_ok. done.
Qed.
Lemma read_function_ok id name : small id -> small name -> read_function (message (function_fields id name)) = Some (id, name).
Proof.
  intros Ht%small_u64 Hu%small_u64. unfold read_function. rewrite parse_message by fields_ok. done.
Qed.
Lemma read_location_ok id f : small id -> small f -> read_location (message (location_fields id f)) = Some (id, [f]).
Proof.
  intros Hi Hf. pose proof (line_length f Hf). unfold read_location.
  rewrite parse_message by fields_ok. cbn [mbind option_bind].
  change (repeated 4 (location_fields id f)) with [message (line_fields f)]. cbn [mapM]. rewrite parse_message by fields_ok. done.
Qed.
Lemma read_sample_ok l c b : small l -> is_u64 c -> is_u64 b -> read_sample (message (sample_fields l c b)) = Some ([l], [c; b]).
Proof.
  intros Hl%small_u64 Hc Hb. pose proof (varint64_length l Hl). pose proof (varint64_length c Hc). pose proof (varint64_length b Hb). unfold read_sample.
  assert (Hlen : (length (varint 10 l) <= length (message (sample_fields l c b)) /\ length (varint 10 c ++ varint 10 b) <= length (message (sample_fields l c b)))%nat).
  { unfold sample_fields. rewrite message_cons, message_one. unfold field_bytes. cbn [fst snd]. rewrite !length_app. lia. }
  rewrite parse_message by fields_ok. cbn [mbind option_bind].
  change (concat (repeated 1 (sample_fields l c b))) with (varint 10 l ++ []). change (concat (repeated 2 (sample_fields l c b))) with ((varint 10 c ++ varint 10 b) ++ []).
  rewrite app_nil_r. rewrite app_nil_r in *. replace (varint 10 l) with ([l] ≫= varint 10) in * by (rewrite bind_cons; apply app_nil_r).
  replace (varint 10 c ++ varint 10 b) with ([c; b] ≫= varint 10) in * by (rewrite 2!bind_cons; f_equal; apply app_nil_r).
  rewrite parse_packed_varints by first [by repeat apply Forall_cons_2|lia]. cbn [mbind option_bind]. rewrite parse_packed_varints by first [by repeat apply Forall_cons_2|lia]. done.
Qed.

(** The profile a reader gets. *)
Definition profile_of (hist : ThreadCache.histogram) : profile :=
  MkProfile [(1, 2); (3, 4)] ((fun r => ([r + 1], [row_count hist r; row_bytes hist r])) <$> rows hist)
    ((fun r => (r + 1, [r + 1])) <$> rows hist) ((fun r => (r + 1, V8M_PPROF_STR_FIRST_CLASS + r)) <$> rows hist) strings.

Lemma profile_fields_ok hist : hist_ok hist -> Forall field_ok (profile_fields hist).
Proof.
  intros Ho. pose proof (profile_length hist Ho) as Hl. assert (Hany : forall f, f ∈ profile_fields hist -> exists n bs, f = (n, PBytes bs) /\ 0 < n < 16).
  { intros f. unfold profile_fields, type_fields, numbered. rewrite !elem_of_app. intros [H|[H|[H|[H|H]]]].
    - apply elem_of_cons in H as [->|H%list_elem_of_singleton]; [|subst]; by do 2 eexists.
    - apply list_elem_of_fmap in H as (x & -> & _). by do 2 eexists.
    - apply list_elem_of_fmap in H as (x & -> & _). by do 2 eexists.
    - apply list_elem_of_fmap in H as (x & -> & _). by do 2 eexists.
    - apply list_elem_of_fmap in H as (x & -> & _). by do 2 eexists. }
  apply Forall_forall. intros f Hf. destruct (Hany f Hf) as (n & bs & -> & Hn). split; [done|]. cbn.
  assert (Hle : (length bs <= length (message (profile_fields hist)))%nat); [|unfold is_u64; lia].
  apply list_elem_of_split in Hf as (a & b & ->). rewrite message_app, message_cons, !length_app. unfold field_bytes. cbn [fst snd]. rewrite !length_app. lia.
Qed.

Lemma read_profile_ok hist : hist_ok hist -> read_profile (message (profile_fields hist)) = Some (profile_of hist).
Proof.
  intros Ho. unfold read_profile. rewrite parse_message by by apply profile_fields_ok. cbn [mbind option_bind]. unfold profile_fields. rewrite !repeated_app, !repeated_numbered. cbn [Z.eqb Pos.eqb app].
  rewrite !app_nil_r. change (repeated 1 type_fields) with [message (value_type_fields 1 2); message (value_type_fields 3 4)]. change (repeated 2 type_fields) with (@nil (list Z)).
  change (repeated 4 type_fields) with (@nil (list Z)). change (repeated 5 type_fields) with (@nil (list Z)). change (repeated 6 type_fields) with (@nil (list Z)). cbn [app].
  cbn [mapM]. rewrite !read_value_type_ok by (unfold small; lia). cbn [mbind option_bind mret option_ret].
  rewrite (mapM_read _ _ (fun r => ([r + 1], [row_count hist r; row_bytes hist r]))) by (intros r [Hr _]%row_small; destruct (row_counters hist r Ho); by apply read_sample_ok). cbn [mbind option_bind].
  rewrite (mapM_read _ _ (fun r => (r + 1, [r + 1]))) by (intros r [Hr _]%row_small; by apply read_location_ok). cbn [mbind option_bind].
  rewrite (mapM_read _ _ (fun r => (r + 1, V8M_PPROF_STR_FIRST_CLASS + r))) by (intros r [Hr Hs]%row_small; by apply read_function_ok). done.
Qed.

Lemma string_names : Forall (fun row => strings !! Z.to_nat (V8M_PPROF_STR_FIRST_CLASS + row) = Some (row_name row)) (seqZ 0 42).
Proof.
  assert (H : forallb (fun row => bool_decide (strings !! Z.to_nat (V8M_PPROF_STR_FIRST_CLASS + row) = Some (row_name row))) (seqZ 0 42) = true) by (vm_compute; reflexivity).
  apply Forall_forall. intros row Hr. rewrite forallb_forall in H. apply (bool_decide_unpack _). apply Is_true_true. apply H. by apply list_elem_of_In.
Qed.

Lemma report_ok hist : hist_ok hist -> report (profile_of hist) = Some ((fun r => ([row_name r], [row_count hist r; row_bytes hist r])) <$> rows hist).
Proof.
  intros Ho. unfold report, profile_of. cbn [p_samples]. apply mapM_read. intros row Hr. cbn [fst snd mapM]. unfold frame_name. cbn [p_locations p_functions].
  rewrite (assoc_row (fun r => [r + 1])) by done. cbn [mbind option_bind head]. rewrite (assoc_row (fun r => V8M_PPROF_STR_FIRST_CLASS + r)) by done. cbn [mbind option_bind]. unfold string_at. cbn [p_strings].
  pose proof (rows_range hist row Hr) as Hrange. unfold V8M_PUBLIC_NUM_SIZE_CLASSES in Hrange. rewrite (proj2 (Z.ltb_ge _ _)) by (unfold V8M_PPROF_STR_FIRST_CLASS; lia).
  pose proof string_names as Hn. rewrite Forall_forall in Hn. rewrite (Hn row) by (apply elem_of_seqZ; lia). done.
Qed.

(** ** Reading the gzip stream, after RFC 1952 *)

(** The table-driven checksum of the RFC.  Its polynomial has these exponents below
    32; the bits of a byte are taken least significant first, so the exponent [e] is
    bit [31 - e]. *)
Definition rfc_poly : Z := foldl (fun p e => Z.setbit p (31 - e)) 0 [26; 23; 22; 16; 12; 11; 10; 8; 7; 5; 4; 2; 1; 0].
Definition rfc_step (c : Z) : Z := if Z.odd c then Z.lxor rfc_poly (c / 2) else c / 2.
Definition crc_table (n : Z) : Z := Nat.iter 8 rfc_step n.
Definition rfc_update (c b : Z) : Z := Z.lxor (crc_table (Z.land (Z.lxor c b) 0xFF)) (Z.shiftr c 8).
Definition rfc_crc (data : list Z) : Z := Z.lxor (foldl rfc_update 0xFFFFFFFF data) 0xFFFFFFFF.

Definition byte (b : Z) : Prop := 0 <= b < 256.

Lemma crc_bit_lxor x y : crc_bit (Z.lxor x y) = Z.lxor (crc_bit x) (crc_bit y).
Proof.
  unfold crc_bit. rewrite Z.shiftr_lxor.
  assert (Hb : forall z, (Z.land z 1 =? 0) = negb (Z.testbit z 0)) by (intros z; change 1 with (2 ^ 1 - 1); rewrite land_mask_low, <- Z.bit0_mod by lia; by destruct (Z.testbit z 0)).
  rewrite !Hb, Z.lxor_spec. apply Z.bits_inj'. intros i Hi. rewrite !Z.lxor_spec.
  destruct (Z.testbit x 0), (Z.testbit y 0); cbn [xorb negb]; rewrite ?Z.bits_0; destruct (Z.testbit (Z.shiftr x 1) i), (Z.testbit (Z.shiftr y 1) i), (Z.testbit 0xEDB88320 i); done.
Qed.
Lemma crc_bits_lxor n x y : Nat.iter n crc_bit (Z.lxor x y) = Z.lxor (Nat.iter n crc_bit x) (Nat.iter n crc_bit y).
Proof. induction n as [|n IH]; [done|]. by rewrite !Nat.iter_succ, IH, crc_bit_lxor. Qed.
Lemma crc_bits_shift n x : Nat.iter n crc_bit (Z.shiftl x (Z.of_nat n)) = x.
Proof.
  revert x. induction n as [|n IH]; intros x; [apply Z.shiftl_0_r|]. rewrite Nat.iter_succ_r.
  replace (crc_bit (Z.shiftl x (Z.of_nat (S n)))) with (Z.shiftl x (Z.of_nat n)); [apply IH|]. unfold crc_bit. replace (Z.of_nat (S n)) with (Z.of_nat n + 1) by lia.
  rewrite <- Z.shiftl_shiftl by lia. set (y := Z.shiftl x (Z.of_nat n)). rewrite Z.shiftr_shiftl_l by lia. change (1 - 1) with 0. rewrite Z.shiftl_0_r.
  replace (Z.land (Z.shiftl y 1) 1) with 0; [cbn; by rewrite Z.lxor_0_r|]. change 1 with (2 ^ 1 - 1) at 2. rewrite land_mask_low by lia. rewrite Z.shiftl_mul_pow2 by lia. symmetry. apply Z.mod_mul. lia.
Qed.

Lemma rfc_step_eq c : rfc_step c = crc_bit c.
Proof.
  unfold rfc_step, crc_bit. change rfc_poly with 0xEDB88320. rewrite Z.shiftr_div_pow2 by lia. change 1 with (2 ^ 1 - 1) at 2. rewrite land_mask_low by lia.
  change (2 ^ 1) with 2. rewrite Zmod_odd. destruct (Z.odd c); cbn [Z.eqb]; [apply Z.lxor_comm|by rewrite Z.lxor_0_r].
Qed.
Lemma rfc_steps_eq n c : Nat.iter n rfc_step c = Nat.iter n crc_bit c.
Proof. induction n as [|n IH]; [done|]. by rewrite !Nat.iter_succ, IH, rfc_step_eq. Qed.

Lemma crc_byte_rfc c b : byte b -> crc_byte c b = rfc_update c b.
Proof.
  intros Hb. unfold crc_byte, rfc_update, crc_table. rewrite rfc_steps_eq. set (x := Z.lxor c b).
  assert (Hs : Z.shiftr c 8 = Z.shiftr x 8) by (unfold x; rewrite Z.shiftr_lxor, (Z.shiftr_div_pow2 b), (Z.div_small b) by (unfold byte in Hb; lia); by rewrite Z.lxor_0_r).
  rewrite Hs. replace x with (Z.lxor (Z.land x 0xFF) (Z.shiftl (Z.shiftr x 8) 8)) at 1.
  - rewrite crc_bits_lxor. f_equal. apply (crc_bits_shift 8).
  - apply Z.bits_inj'. intros i Hi. rewrite Z.lxor_spec, Z.land_spec. change 0xFF with (Z.ones 8). destruct (Z.lt_ge_cases i 8).
    + rewrite Z.ones_spec_low, Z.shiftl_spec_low by lia. by rewrite andb_true_r, xorb_false_r.
    + rewrite Z.ones_spec_high, Z.shiftl_spec, Z.shiftr_spec by lia. rewrite andb_false_r. cbn [xorb]. f_equal. lia.
Qed.

(** Stored blocks only: the data and what follows the last block. *)
Fixpoint inflate_stored (fuel : nat) (l : list Z) : option (list Z * list Z) :=
  match fuel, l with
  | S fuel, final :: l0 :: l1 :: n0 :: n1 :: l =>
      let len := l0 + 256 * l1 in
      if negb (n0 + 256 * n1 =? 65535 - len) || (Z.of_nat (length l) <? len) then None
      else if final =? 1 then Some (take (Z.to_nat len) l, drop (Z.to_nat len) l)
      else if final =? 0 then '(d, r) ← inflate_stored fuel (drop (Z.to_nat len) l); Some (take (Z.to_nat len) l ++ d, r)
      else None
  | _, _ => None
  end.
Definition from_little (l : list Z) : Z := foldr (fun b acc => b + 256 * acc) 0 l.
(** Magic, deflate, no flags; then blocks, checksum and length, and nothing else. *)
Definition gunzip (l : list Z) : option (list Z) :=
  if bool_decide (take 4 l = [0x1F; 0x8B; 0x08; 0x00]) && (10 <=? length l)%nat then
    '(d, r) ← inflate_stored (length l) (drop 10 l);
    if (length r =? 8)%nat && (from_little (take 4 r) =? rfc_crc d) && (from_little (drop 4 r) =? Z.of_nat (length d) mod 2 ^ 32) then Some d else None
  else None.

Lemma little32_read x : 0 <= x < 2 ^ 32 -> from_little (little32 x) = x.
Proof.
  intros Hx. unfold little32, from_little. cbn [foldr]. rewrite !Z.shiftr_div_pow2 by lia. change 0xFF with (2 ^ 8 - 1). rewrite !land_mask_low by lia.
  change (2 ^ 8) with 256. change (2 ^ 16) with (256 * 256). change (2 ^ 24) with (256 * 256 * 256). rewrite <- !Z.div_div by lia.
  pose proof (Z.div_mod x 256). pose proof (Z.div_mod (x / 256) 256). pose proof (Z.div_mod (x / 256 / 256) 256). pose proof (Z.div_small (x / 256 / 256 / 256) 256).
  rewrite (Z.mod_small (x / 256 / 256 / 256)); [lia|]. split; [repeat apply Z.div_pos; lia|]. repeat apply Z.div_lt_upper_bound; lia.
Qed.

(** ** Delivery *)

(** A call that returns delivered a part of [bs]: all of it when it returns 0. *)
Definition delivers (s : io) (bs : list Z) (r : option (io * Z)) : Prop :=
  match r with
  | None => True
  | Some (s', rc) => exists sent rest, bs = sent ++ rest /\ s'.(io_out) = s.(io_out) ++ sent /\ (rc = 0 /\ rest = [] \/ rc = -1)
  end.
Definition completes (s : io) (bs : list Z) (r : option (io * Z)) : Prop := exists s', r = Some (s', 0) /\ s'.(io_out) = s.(io_out) ++ bs.

Lemma delivers_nil s rc : rc = 0 \/ rc = -1 -> delivers s [] (Some (s, rc)).
Proof. intros Hrc. exists [], []. rewrite !app_nil_r. split; [done|]. split; [done|]. destruct Hrc as [-> | ->]; [by left|by right]. Qed.

(** Two outputs in a row. *)
Lemma delivers_after s a b r f : delivers s a r -> (forall s', s'.(io_out) = s.(io_out) ++ a -> delivers s' b (f s')) -> delivers s (a ++ b) (after r f).
Proof.
  intros Hr Hf. destruct r as [[s1 rc]|]; [|done]. destruct Hr as (x & y & -> & Hx & Hrc). unfold after. destruct Hrc as [[-> ->]| ->]; cbn [negb Z.eqb].
  - rewrite app_nil_r in Hf |- *. specialize (Hf s1 Hx). destruct (f s1) as [[s2 rc2]|]; [|done]. destruct Hf as (u & v & -> & Hu & H2). exists (x ++ u), v. rewrite Hu, Hx, <- !app_assoc. by split.
  - exists x, (y ++ b). rewrite <- app_assoc. split; [done|]. split; [done|by right].
Qed.
Lemma completes_after s a b r f : completes s a r -> (forall s', s'.(io_out) = s.(io_out) ++ a -> completes s' b (f s')) -> completes s (a ++ b) (after r f).
Proof. intros (s1 & -> & H1) Hf. cbn. destruct (Hf s1 H1) as (s2 & -> & H2). exists s2. split; [done|]. by rewrite H2, H1, app_assoc. Qed.

(** The gzip stream of [bs], as bytes. *)
Fixpoint gzip_blocks (n : nat) (bs : list Z) : list Z :=
  match bs with
  | [] => []
  | _ =>
      match n with
      | O => []
      | S n =>
          let remain := Z.of_nat (length bs) in
          let is_final := remain <=? V8M_GZIP_MAX_STORED_BLOCK in
          let block_len := if is_final then remain else V8M_GZIP_MAX_STORED_BLOCK in
          block_header is_final block_len ++ take (Z.to_nat block_len) bs ++ gzip_blocks n (drop (Z.to_nat block_len) bs)
      end
  end.
Definition gzip (bs : list Z) : list Z :=
  gzip_header ++ (match bs with [] => [0x01; 0x00; 0x00; 0xFF; 0xFF] | _ => [] end) ++ gzip_blocks (S (length bs)) bs ++
  little32 (pprof_crc32 bs) ++ little32 (u32 (Z.of_nat (length bs))).

Section Delivery.
Context (write : nat -> Z -> Z * Z).

(** [write] takes at most what it was given. *)
Definition write_bounded : Prop := forall n len, 0 < len -> (write n len).1 <= len.

Lemma stream_delivers fuel s bs : write_bounded -> delivers s bs (stream_to_fd write fuel s bs).
Proof.
  intros Hw. revert s bs. induction fuel as [|fuel IH]; intros s bs; destruct bs as [|b bs]; cbn [stream_to_fd]; try (by apply delivers_nil; left); try done.
  pose proof (Hw s.(io_tick) (Z.of_nat (length (b :: bs))) ltac:(cbn [length]; lia)) as Hb. destruct (write _ _) as [got err]. cbn [fst] in Hb. remember (b :: bs) as l eqn:El. clear El.
  destruct (Z.ltb_spec 0 got) as [Hg|Hg]; [|destruct ((got <? 0) && _)].
  - match goal with |- context [stream_to_fd _ _ ?s1 ?l1] => specialize (IH s1 l1); destruct (stream_to_fd _ _ s1 l1) as [[s' rc]|]; [|done] end.
    destruct IH as (x & y & Hxy & Hx & Hrc). cbn [io_out] in Hx. exists (take (Z.to_nat got) l ++ x), y. rewrite Hx, <- !app_assoc, <- Hxy, take_drop. by split.
  - match goal with |- context [stream_to_fd _ _ ?s1 ?l1] => specialize (IH s1 l1); by destruct (stream_to_fd _ _ s1 l1) as [[s' rc]|] end.
  - exists [], l. cbn. rewrite app_nil_r. split; [done|]. split; [done|by right].
Qed.

Lemma blocks_deliver n fuel s bs : write_bounded -> (length bs < n)%nat -> delivers s (gzip_blocks n bs) (stream_blocks write n fuel s bs).
Proof.
  intros Hw. revert s bs. induction n as [|n IH]; intros s bs Hn; [lia|]. destruct bs as [|b bs]; cbn [stream_blocks gzip_blocks]; [by apply delivers_nil; left|].
  apply delivers_after; [by apply stream_delivers|]. intros s1 H1. apply delivers_after; [by apply stream_delivers|]. intros s2 H2. apply IH. rewrite length_drop.
  remember (b :: bs) as l eqn:El. assert (0 < length l)%nat by (subst l; cbn [length]; lia). unfold V8M_GZIP_MAX_STORED_BLOCK. destruct (Z.leb_spec (Z.of_nat (length l)) 65535); lia.
Qed.

Lemma gzip_delivers fuel s bs : write_bounded -> delivers s (gzip bs) (stream_gzip_to_fd write fuel s bs).
Proof.
  intros Hw. unfold stream_gzip_to_fd, gzip. apply delivers_after; [by apply stream_delivers|]. intros s1 _. apply delivers_after.
  { destruct bs; [by apply stream_delivers|]. by apply delivers_nil; left. }
  intros s2 _. apply delivers_after; [apply blocks_deliver; [done|lia]|]. intros s3 _. by apply stream_delivers.
Qed.

(** A descriptor that makes progress: every [write] takes something or was
    interrupted, and at most [K] are interrupted. *)
Definition interrupts (intr : nat -> bool) (n m : nat) : nat := length (filter (fun i => intr i = true) (seq n m)).
Record write_ok (K : nat) : Prop := {
  wo_intr : exists intr, (forall n m, (interrupts intr n m <= K)%nat) /\
    forall n len, 0 < len -> if intr n : bool then write n len = (-1, EINTR) else 0 < (write n len).1 <= len
}.

Lemma stream_completes K fuel s bs : write_ok K -> (length bs + K <= fuel)%nat -> completes s bs (stream_to_fd write fuel s bs).
Proof.
  intros [(intr & HK & Hw)] Hf. pose proof (HK s.(io_tick) fuel) as Hi. assert (Hf' : (length bs + interrupts intr s.(io_tick) fuel <= fuel)%nat) by lia. clear Hf Hi HK.
  revert s bs Hf'. induction fuel as [|fuel IH]; intros s bs Hf; destruct bs as [|b bs]; cbn [stream_to_fd]; try (by exists s; rewrite app_nil_r); [cbn [length] in Hf; lia|].
  specialize (Hw s.(io_tick) (Z.of_nat (length (b :: bs))) ltac:(cbn [length]; lia)). remember (b :: bs) as l eqn:El.
  assert (Hstep : interrupts intr s.(io_tick) (S fuel) = ((if intr s.(io_tick) then 1 else 0) + interrupts intr (S s.(io_tick)) fuel)%nat).
  { unfold interrupts. cbn [seq]. rewrite filter_cons. case_decide as Hd; [by rewrite Hd|by destruct (intr s.(io_tick))]. }
  rewrite Hstep in Hf. destruct (intr s.(io_tick)).
  - rewrite Hw. cbn [Z.ltb Z.compare andb]. rewrite Z.eqb_refl. apply (IH (MkIo s.(io_out) (S s.(io_tick)) EINTR)). cbn [io_tick]. lia.
  - destruct (write _ _) as [got err]. cbn [fst] in Hw. rewrite (proj2 (Z.ltb_lt _ _)) by lia.
    match goal with |- context [stream_to_fd _ _ ?s1 ?l1] => destruct (IH s1 l1) as (s' & -> & Hs); [cbn [io_tick]; rewrite length_drop; lia|] end.
    exists s'. split; [done|]. rewrite Hs. cbn [io_out]. by rewrite <- app_assoc, take_drop.
Qed.

Lemma blocks_complete K n fuel s bs : write_ok K -> (length bs < n)%nat -> (length bs + 10 + K <= fuel)%nat -> completes s (gzip_blocks n bs) (stream_blocks write n fuel s bs).
Proof.
  intros Hw. revert s bs. induction n as [|n IH]; intros s bs Hn Hf; [lia|]. destruct bs as [|b bs]; cbn [stream_blocks gzip_blocks]; [by exists s; rewrite app_nil_r|].
  remember (b :: bs) as l eqn:El. assert (0 < length l)%nat by (subst l; cbn [length]; lia).
  apply completes_after; [apply (stream_completes K); [done|cbn [length block_header]; lia]|]. intros s1 H1.
  apply completes_after; [apply (stream_completes K); [done|rewrite length_take; lia]|]. intros s2 H2. apply IH; rewrite length_drop; [|lia].
  unfold V8M_GZIP_MAX_STORED_BLOCK. destruct (Z.leb_spec (Z.of_nat (length l)) 65535); lia.
Qed.

Lemma gzip_completes K fuel s bs : write_ok K -> (length bs + 10 + K <= fuel)%nat -> completes s (gzip bs) (stream_gzip_to_fd write fuel s bs).
Proof.
  intros Hw Hf. unfold stream_gzip_to_fd, gzip. apply completes_after; [apply (stream_completes K); [done|cbn [length gzip_header]; lia]|]. intros s1 _. apply completes_after.
  { destruct bs; [apply (stream_completes K); [done|cbn [length]; lia]|]. by exists s1; rewrite app_nil_r. }
  intros s2 _. apply completes_after; [apply (blocks_complete K); [done|lia|lia]|]. intros s3 _. apply (stream_completes K); [done|]. cbn [length app little32]. lia.
Qed.

End Delivery.

(** ** The gzip stream reads back *)

Lemma block_header_read is_final n : 0 <= n <= V8M_GZIP_MAX_STORED_BLOCK ->
  exists l0 l1 n0 n1, block_header is_final n = [if is_final then 1 else 0; l0; l1; n0; n1] /\ l0 + 256 * l1 = n /\ n0 + 256 * n1 = 65535 - n.
Proof.
  unfold V8M_GZIP_MAX_STORED_BLOCK. intros Hn. assert (Hsum : forall x, 0 <= x < 65536 -> Z.land x 0xFF + 256 * Z.land (Z.shiftr x 8) 0xFF = x).
  { intros x Hx. rewrite Z.shiftr_div_pow2 by lia. change 0xFF with (2 ^ 8 - 1). rewrite !land_mask_low by lia. change (2 ^ 8) with 256.
    rewrite (Z.mod_small (x / 256)) by (split; [apply Z.div_pos; lia|apply Z.div_lt_upper_bound; lia]). pose proof (Z.div_mod x 256). lia. }
  assert (Hx : Z.lxor (u16 n) 0xFFFF = 65535 - n).
  { rewrite u16_small by lia. assert (Hadd : Z.lxor n 0xFFFF + n = 65535); [|lia]. rewrite Z.add_nocarry_lxor.
    - rewrite Z.lxor_assoc, (Z.lxor_comm 65535), <- Z.lxor_assoc, Z.lxor_nilpotent. apply Z.lxor_0_l.
    - apply Z.bits_inj'. intros i Hi. rewrite Z.land_spec, Z.lxor_spec, Z.bits_0. change 65535 with (Z.ones 16). destruct (Z.lt_ge_cases i 16).
      + rewrite Z.ones_spec_low by lia. by destruct (Z.testbit n i).
      + by rewrite (testbit_high n 16 i), andb_false_r by lia. }
  unfold block_header. rewrite Hx. do 4 eexists. split; [reflexivity|]. split; [apply Hsum; lia|apply Hsum; lia].
Qed.

Lemma inflate_block fuel is_final n rest data : 0 <= n <= V8M_GZIP_MAX_STORED_BLOCK -> Z.of_nat (length data) = n ->
  inflate_stored (S fuel) (block_header is_final n ++ data ++ rest) =
    if is_final : bool then Some (data, rest) else '(d, r) ← inflate_stored fuel rest; Some (data ++ d, r).
Proof.
  intros Hn Hl. destruct (block_header_read is_final n Hn) as (l0 & l1 & n0 & n1 & -> & H0 & H1). cbn [app inflate_stored]. rewrite H0, H1, Z.eqb_refl, (proj2 (Z.ltb_ge _ _)) by (rewrite length_app; lia).
  cbn [negb orb]. rewrite <- Hl, Nat2Z.id, take_app_length, drop_app_length. by destruct is_final.
Qed.

Lemma inflate_blocks n fuel bs rest : (0 < length bs < n)%nat -> (length bs <= fuel)%nat -> inflate_stored fuel (gzip_blocks n bs ++ rest) = Some (bs, rest).
Proof.
  revert fuel bs. induction n as [|n IH]; intros fuel bs Hn Hf; [lia|]. destruct bs as [|b bs]; [cbn [length] in Hn; lia|]. cbn [gzip_blocks]. remember (b :: bs) as l eqn:El. clear El b bs.
  destruct fuel as [|fuel]; [lia|]. rewrite <- !app_assoc. unfold V8M_GZIP_MAX_STORED_BLOCK. destruct (Z.leb_spec (Z.of_nat (length l)) 65535) as [Hs|Hs].
  - rewrite inflate_block by (rewrite ?length_take; unfold V8M_GZIP_MAX_STORED_BLOCK; lia). rewrite Nat2Z.id, take_ge, drop_ge by lia. by destruct n.
  - rewrite inflate_block by (rewrite ?length_take; unfold V8M_GZIP_MAX_STORED_BLOCK; lia). rewrite IH by (rewrite length_drop; lia). cbn. by rewrite take_drop.
Qed.

Lemma gzip_blocks_length n bs : (length bs < n)%nat -> (length bs <= length (gzip_blocks n bs))%nat.
Proof.
  revert bs. induction n as [|n IH]; intros bs Hn; [lia|]. destruct bs as [|b bs]; [cbn; lia|]. cbn [gzip_blocks]. remember (b :: bs) as l eqn:El. assert (0 < length l)%nat by (subst l; cbn [length]; lia). clear El.
  rewrite !length_app, length_take. set (k := if _ : bool then _ else _). assert (1 <= k <= Z.of_nat (length l)) by (unfold k, V8M_GZIP_MAX_STORED_BLOCK; destruct (Z.leb_spec (Z.of_nat (length l)) 65535); lia).
  specialize (IH (drop (Z.to_nat k) l)). rewrite length_drop in IH. lia.
Qed.

Lemma rfc_crc_eq bs : Forall byte bs -> pprof_crc32 bs = rfc_crc bs.
Proof.
  intros Hb. unfold pprof_crc32, rfc_crc. f_equal. generalize 0xFFFFFFFF. induction Hb as [|b bs Hb Hbs IH]; intros c; [done|]. cbn [foldl]. by rewrite crc_byte_rfc.
Qed.

Lemma lxor_range a b k : 0 <= k -> 0 <= a < 2 ^ k -> 0 <= b < 2 ^ k -> 0 <= Z.lxor a b < 2 ^ k.
Proof.
  intros Hk Ha Hb. assert (Hm : Z.lxor a b = Z.lxor a b mod 2 ^ k); [|rewrite Hm; apply Z.mod_pos_bound; lia].
  apply Z.bits_inj'. intros i Hi. destruct (Z.lt_ge_cases i k); [by rewrite Z.mod_pow2_bits_low by lia|].
  by rewrite Z.mod_pow2_bits_high, Z.lxor_spec, (testbit_high a k i), (testbit_high b k i) by lia.
Qed.
Lemma crc_bit_range x : 0 <= x < 2 ^ 32 -> 0 <= crc_bit x < 2 ^ 32.
Proof.
  intros Hx. unfold crc_bit. apply lxor_range; [lia| |destruct (_ =? _); lia]. rewrite Z.shiftr_div_pow2 by lia. split; [apply Z.div_pos; lia|apply Z.div_lt_upper_bound; lia].
Qed.
Lemma crc_range bs : Forall byte bs -> 0 <= pprof_crc32 bs < 2 ^ 32.
Proof.
  intros Hb. unfold pprof_crc32. apply lxor_range; [lia| |lia]. assert (Hc : 0 <= 0xFFFFFFFF < 2 ^ 32) by lia. revert Hc. generalize 0xFFFFFFFF.
  induction Hb as [|b bs Hb Hbs IH]; intros c Hc; [done|]. cbn [foldl]. apply IH. unfold crc_byte.
  assert (Hx : 0 <= Z.lxor c b < 2 ^ 32) by (apply lxor_range; [lia|done|unfold byte in Hb; lia]). revert Hx. generalize (Z.lxor c b). intros x Hx.
  assert (Hn : forall n, 0 <= Nat.iter n crc_bit x < 2 ^ 32); [|apply Hn]. intros n. induction n as [|n IHn]; [done|]. rewrite Nat.iter_succ. by apply crc_bit_range.
Qed.

Lemma gunzip_gzip bs : Forall byte bs -> gunzip (gzip bs) = Some bs.
Proof.
  intros Hb. unfold gunzip, gzip. set (tail := little32 _ ++ little32 _). set (body := (match bs with [] => _ | _ => _ end) ++ gzip_blocks (S (length bs)) bs ++ tail).
  assert (Hlen : (10 <=? length (gzip_header ++ body))%nat = true) by (apply Nat.leb_le; rewrite length_app; cbn [length gzip_header]; lia).
  rewrite Hlen, andb_true_r. cbn [gzip_header app take]. rewrite bool_decide_true by done. cbn [drop].
  assert (Hi : forall k, inflate_stored (10 + length body + k)%nat body = Some (bs, tail)).
  { intros k. unfold body. destruct bs as [|b bs]; [reflexivity|]. cbn [app]. apply inflate_blocks; [cbn [length]; lia|].
    pose proof (gzip_blocks_length (S (length (b :: bs))) (b :: bs) ltac:(lia)). rewrite length_app. lia. }
  specialize (Hi 0%nat). rewrite Nat.add_0_r in Hi. cbn [Nat.add length] in Hi |- *. rewrite drop_0, Hi. cbn [mbind option_bind].
  change (length tail =? 8)%nat with true. change (take 4 tail) with (little32 (pprof_crc32 bs)). change (drop 4 tail) with (little32 (u32 (Z.of_nat (length bs)))).
  rewrite !little32_read by (apply u32_range || by apply crc_range). rewrite rfc_crc_eq, Z.eqb_refl by done. unfold u32. by rewrite Z.eqb_refl.
Qed.

(** ** What the dumps deliver *)

(** The encoded profile of a histogram. *)
Definition profile_bytes (hist : ThreadCache.histogram) : list Z := message (profile_fields hist).

(** What a reader of [b] sees: the meaning of the two values, and a named row with
    the counters of every class that had requests. *)
Definition shows (hist : ThreadCache.histogram) (b : list Z) : Prop :=
  exists p, read_profile b = Some p /\
    value_names p = Some [(codes "alloc_objects", codes "count"); (codes "alloc_space", codes "bytes")] /\
    report p = Some ((fun r => ([row_name r], [row_count hist r; row_bytes hist r])) <$> rows hist).

Lemma profile_shows hist : hist_ok hist -> shows hist (profile_bytes hist).
Proof. intros Ho. exists (profile_of hist). split; [by apply read_profile_ok|]. split; [vm_compute; reflexivity|by apply report_ok]. Qed.

Lemma dump_eq hist stream s : hist_ok hist ->
  dump_with stream s hist = match stream s (profile_bytes hist) with None => None | Some (s, rc) => Some (s, if negb (rc =? 0) then -1 else Z.of_nat (length (profile_bytes hist))) end.
Proof.
  intros Ho. unfold dump_with. rewrite encode_profile by done. pose proof (profile_length hist Ho). rewrite (proj2 (Z.eqb_neq _ _)) by (unfold SIZE_MAX; lia). by rewrite prefix_put.
Qed.

Lemma varint_bytes n v : 0 <= v -> Forall byte (varint n v).
Proof.
  revert v. induction n as [|n IH]; intros v Hv; [constructor|]. cbn [varint]. pose proof (Z.mod_pos_bound v 128). destruct (Z.leb_spec 128 v).
  - constructor; [unfold byte; lia|]. apply IH. apply Z.div_pos; lia.
  - constructor; [unfold byte; lia|constructor].
Qed.
Definition payload_bytes (f : field) : Prop := 0 <= f.1 /\ match f.2 with PVarint v => 0 <= v | PBytes bs => Forall byte bs end.
Lemma message_bytes fs : Forall payload_bytes fs -> Forall byte (message fs).
Proof.
  induction 1 as [|[n pl] fs [Hn Hp] Hfs IH]; [constructor|]. rewrite message_cons. apply Forall_app_2; [|done]. cbn in Hn, Hp. unfold field_bytes. cbn [fst snd].
  destruct pl as [v|bs]; repeat apply Forall_app_2; try (apply varint_bytes; lia); done.
Qed.

Lemma profile_bytes_byte hist : hist_ok hist -> Forall byte (profile_bytes hist).
Proof.
  intros Ho. apply message_bytes. unfold profile_fields. repeat apply Forall_app_2.
  - repeat apply Forall_cons_2; [..|apply Forall_nil_2]; (split; [cbn; lia|]); cbn [fst snd]; apply message_bytes; repeat apply Forall_cons_2; try apply Forall_nil_2; split; cbn [fst snd]; first [lia|done].
  - apply Forall_fmap, Forall_fmap, Forall_forall. intros r Hr. split; cbn [fst snd]; [lia|]. unfold row_sample, row_location, row_function. apply message_bytes. pose proof (rows_range hist r Hr). destruct (row_counters hist r Ho) as [[Hc _] [Hb _]].
    repeat apply Forall_cons_2; try apply Forall_nil_2; split; cbn [fst snd]; try lia; [apply varint_bytes; lia|apply Forall_app_2; by apply varint_bytes].
  - apply Forall_fmap, Forall_fmap, Forall_forall. intros r Hr. split; cbn [fst snd]; [lia|]. unfold row_sample, row_location, row_function. apply message_bytes. pose proof (rows_range hist r Hr).
    repeat apply Forall_cons_2; try apply Forall_nil_2; split; cbn [fst snd]; try lia. apply message_bytes. repeat apply Forall_cons_2; try apply Forall_nil_2. split; cbn [fst snd]; lia.
  - apply Forall_fmap, Forall_fmap, Forall_forall. intros r Hr. split; cbn [fst snd]; [lia|]. unfold row_sample, row_location, row_function. apply message_bytes. pose proof (rows_range hist r Hr). unfold V8M_PPROF_STR_FIRST_CLASS.
    repeat apply Forall_cons_2; try apply Forall_nil_2; split; cbn [fst snd]; lia.
  - apply Forall_fmap, Forall_forall. intros b Hb. split; cbn [fst snd]; [lia|]. assert (Hs : forallb (forallb (fun b => (0 <=? b) && (b <? 256))) strings = true) by (vm_compute; reflexivity).
    rewrite forallb_forall in Hs. specialize (Hs b ltac:(by apply list_elem_of_In)). rewrite forallb_forall in Hs. apply Forall_forall. intros x Hx%list_elem_of_In%Hs. unfold byte. lia.
Qed.

(** The bytes a path asks for. *)
Definition path_bytes (path : list Z) (hist : ThreadCache.histogram) : list Z := if path_ends_with_gz path then gzip (profile_bytes hist) else profile_bytes hist.

Lemma path_dump write fuel path s hist : hist_ok hist -> write_bounded write ->
  exists r, (if path_ends_with_gz path then v8m_pprof_dump_heap_gz write fuel s hist else v8m_pprof_dump_heap write fuel s hist) =
    match r with None => None | Some (s, rc) => Some (s, if negb (rc =? 0) then -1 else Z.of_nat (length (profile_bytes hist))) end /\ delivers s (path_bytes path hist) r.
Proof.
  intros Ho Hw. unfold path_bytes, v8m_pprof_dump_heap_gz, v8m_pprof_dump_heap. rewrite !dump_eq by done.
  destruct (path_ends_with_gz path); eexists; (split; [reflexivity|]); [by apply gzip_delivers|by apply stream_delivers].
Qed.

(** C33: The heap profile is readable: on a descriptor that makes progress,
    [v8m_pprof_dump_heap] never runs out of buffer, ends, returns the number of
    bytes, and delivers a message that a protobuf reader decodes to one named row
    with its two counters for every class that had requests. *)
Theorem v8m_pprof_dump_heap_readable write K fuel s hist :
  hist_ok hist -> write_ok write K -> (4096 + K <= fuel)%nat ->
  exists s' b, v8m_pprof_dump_heap write fuel s hist = Some (s', Z.of_nat (length b)) /\ s'.(io_out) = s.(io_out) ++ b /\ shows hist b /\
    Z.of_nat (length b) < V8M_PPROF_BUF_BYTES / 16.
Proof.
  intros Ho Hw Hf. pose proof (profile_length hist Ho) as Hl. unfold V8M_PPROF_BUF_BYTES in *. unfold v8m_pprof_dump_heap. rewrite dump_eq by done.
  destruct (stream_completes write K fuel s (profile_bytes hist) Hw ltac:(unfold profile_bytes; lia)) as (s' & -> & Hs). exists s', (profile_bytes hist). cbn [negb Z.eqb].
  split; [done|]. split; [done|]. split; [by apply profile_shows|]. change (64 * 1024 / 16) with 4096. unfold profile_bytes. lia.
Qed.

(** C32: [v8m_pprof_dump_heap_gz] delivers a gzip stream that an RFC 1952 reader
    (magic, stored blocks with their complemented lengths, checksum, size) unpacks to
    the same profile. *)
Theorem v8m_pprof_dump_heap_gz_readable write K fuel s hist :
  hist_ok hist -> write_ok write K -> (4096 + K <= fuel)%nat ->
  exists s' z b, v8m_pprof_dump_heap_gz write fuel s hist = Some (s', Z.of_nat (length b)) /\ s'.(io_out) = s.(io_out) ++ z /\ gunzip z = Some b /\ shows hist b.
Proof.
  intros Ho Hw Hf. pose proof (profile_length hist Ho) as Hl. unfold V8M_PPROF_BUF_BYTES in *. unfold v8m_pprof_dump_heap_gz. rewrite dump_eq by done.
  destruct (gzip_completes write K fuel s (profile_bytes hist) Hw ltac:(unfold profile_bytes; lia)) as (s' & -> & Hs). exists s', (gzip (profile_bytes hist)), (profile_bytes hist). cbn [negb Z.eqb].
  split; [done|]. split; [done|]. split; [by apply gunzip_gzip, profile_bytes_byte|by apply profile_shows].
Qed.

(** [pprof_crc32], bit at a time, computes the table-driven checksum of RFC
    1952. *)
Theorem pprof_crc32_rfc bs : Forall byte bs -> pprof_crc32 bs = rfc_crc bs.
Proof. apply rfc_crc_eq. Qed.

(** Whatever the kernel answers, [v8m_pprof_dump_heap_to_path] returns 0
    exactly when it could open the path, the whole stream (gzip for a path in
    [.gz], the plain profile otherwise) reached the file and closing succeeded;
    otherwise it returns -1 and the file holds a prefix of that stream. *)
Theorem v8m_pprof_dump_heap_to_path_spec write fuel e errno path hist s rc :
  hist_ok hist -> write_bounded write ->
  v8m_pprof_dump_heap_to_path write fuel e errno (Some path) hist = Some (s, rc) ->
  exists rest, path_bytes path hist = s.(io_out) ++ rest /\
    (rc = 0 /\ rest = [] /\ 0 <= e.(fe_open) /\ e.(fe_close) = 0 \/ rc = -1).
Proof.
  intros Ho Hw. unfold v8m_pprof_dump_heap_to_path. destruct (Z.ltb_spec e.(fe_open) 0) as [Hop|Hop]; [intros [= <- <-]; eexists; split; [done|by right]|].
  destruct (path_dump write fuel path (MkIo [] 0 errno) hist Ho Hw) as (r & -> & Hd). destruct r as [[s1 rc1]|]; [|done]. destruct Hd as (sent & rest & -> & Hs & Hrc). cbn in Hs.
  intros He. exists rest. destruct Hrc as [[-> ->]| ->]; cbn [negb Z.eqb Z.ltb Z.leb Z.compare] in He.
  - rewrite (proj2 (Z.ltb_ge _ _)), (proj2 (Z.leb_le _ _)), andb_true_r in He by lia. destruct (Z.eqb_spec e.(fe_close) 0); cbn [negb] in He; injection He as <- <-; cbn [io_out set_errno]; rewrite Hs; [split; [done|by left]|split; [done|by right]].
  - rewrite andb_false_r in He. injection He as <- <-. split; [|by right]. by destruct (negb _); cbn [io_out set_errno]; rewrite Hs.
Qed.

(** ** Examples *)

(** A class-12 and a huge row; a kernel that is interrupted once and takes at most
    1000 bytes at a time. *)
Definition ex_hist : ThreadCache.histogram := ThreadCache.MkHist (zupd (replicate 41 0) 12 300) (zupd (replicate 41 0) 12 70000) 2 (2 ^ 40) 0.
Definition ex_write (n : nat) (len : Z) : Z * Z := if (n =? 1)%nat then (-1, EINTR) else (Z.min len 1000, 0).

Lemma ex_hist_ok : hist_ok ex_hist.
Proof. constructor; [| |by vm_compute]; apply Forall_forall; intros x Hx; unfold ex_hist in Hx; cbn in Hx; repeat (apply elem_of_cons in Hx as [->|Hx]; [by vm_compute|]); by apply not_elem_of_nil in Hx. Qed.
Lemma ex_write_ok : write_ok ex_write 1.
Proof.
  constructor. exists (fun n => (n =? 1)%nat). split.
  - intros n m. unfold interrupts. induction m as [|m IH] in n |- *; [cbn; lia|]. cbn [seq]. rewrite filter_cons. case_decide as Hd; [|apply IH]. apply Nat.eqb_eq in Hd as ->. cbn [length].
    assert (Hn : forall k, (1 < k)%nat -> filter (fun i => (i =? 1)%nat = true) (seq k m) = []); [|by rewrite Hn by lia]. clear IH. induction m as [|m IH]; intros k Hk; [done|].
    cbn [seq]. rewrite filter_cons_False by (rewrite Nat.eqb_eq; lia). apply IH. lia.
  - intros n len Hl. unfold ex_write. destruct (n =? 1)%nat; [done|]. cbn. lia.
Qed.

Lemma v8m_pprof_dump_heap_readable_witness :
  (exists s', v8m_pprof_dump_heap ex_write 5000 (MkIo [] 0 0) ex_hist = Some (s', 725)) /\
  exists s' b, v8m_pprof_dump_heap ex_write 5000 (MkIo [] 0 0) ex_hist = Some (s', Z.of_nat (length b)) /\ s'.(io_out) = [] ++ b /\ shows ex_hist b /\ Z.of_nat (length b) < V8M_PPROF_BUF_BYTES / 16.
Proof. split; [eexists; vm_compute; reflexivity|]. apply (v8m_pprof_dump_heap_readable ex_write 1 5000 (MkIo [] 0 0) ex_hist ex_hist_ok ex_write_ok). lia. Defined.

Lemma v8m_pprof_dump_heap_gz_readable_witness :
  exists s' z b, v8m_pprof_dump_heap_gz ex_write 5000 (MkIo [] 0 0) ex_hist = Some (s', Z.of_nat (length b)) /\ s'.(io_out) = [] ++ z /\ gunzip z = Some b /\ shows ex_hist b.
Proof. apply (v8m_pprof_dump_heap_gz_readable ex_write 1 5000 (MkIo [] 0 0) ex_hist ex_hist_ok ex_write_ok). lia. Defined.

Lemma pprof_crc32_rfc_witness : pprof_crc32 (codes "123456789") = 0xCBF43926 /\ pprof_crc32 (codes "123456789") = rfc_crc (codes "123456789").
Proof. split; [vm_compute; reflexivity|]. apply (pprof_crc32_rfc (codes "123456789")). repeat constructor; discriminate. Defined.

(** A kernel that takes at most 1000 bytes at a time, and a path in [.gz]. *)
Definition ex_short (n : nat) (len : Z) : Z * Z := (Z.min len 1000, 0).
Definition ex_file : file_env := MkFile 3 0 0 0.
Definition ex_dumped : io := (default (MkIo [] 0 0, -1) (v8m_pprof_dump_heap_to_path ex_short 5000 ex_file 0 (Some (codes "heap.pb.gz")) ex_hist)).1.

Lemma v8m_pprof_dump_heap_to_path_spec_witness :
  exists rest, path_bytes (codes "heap.pb.gz") ex_hist = ex_dumped.(io_out) ++ rest /\ (0 = 0 /\ rest = [] /\ 0 <= ex_file.(fe_open) /\ ex_file.(fe_close) = 0 \/ 0 = -1).
Proof.
  apply (v8m_pprof_dump_heap_to_path_spec ex_short 5000 ex_file 0 (codes "heap.pb.gz") ex_hist ex_dumped 0 ex_hist_ok); [intros n len Hl; cbn; lia|vm_compute; reflexivity].
Defined.

End Pprof.
