(* ===== verification/BgPurge.v ===== *)
(** The background purge thread ([src/v8m_bg_purge.c], [src/v8m_bg_purge.h]).

    The scan pass is a function of what it samples; the life of the thread is a
    transition system of two threads, the one that calls [v8m_bg_purge_init] and
    [v8m_bg_purge_shutdown] and the worker, with the mutex, the condition variable
    and the two atomic flags.  The theorems: the worker is spawned once, no wakeup is
    lost, a shutdown always gets to its end without waiting for the sleep interval,
    and the VMA warning fires exactly when the threshold is crossed. *)

From S2P Require Import Prelude Config.
Import Config.

Module BgPurge.

(** ** The scan pass *)

Record module := MkModule { g_running : bool; g_should_stop : bool; g_tick_hook : Z; g_vma_warning_active : bool }.
Definition module0 : module := MkModule false false 0 false.

(** What a pass samples: the options, [v8m_count_vmas] and the page heap's counters. *)
Record scan_env := MkScan { se_config : config; se_vma : Z; se_regions : Z; se_mapped : Z; se_unmapped : Z }.

Inductive output :=
  | Hook (hook : Z)
  | VmaWarning (vma threshold : Z)
  | StatsLine (live_regions vma bytes_mapped bytes_unmapped : Z).

Definition set_warning (g : module) (b : bool) : module := MkModule g.(g_running) g.(g_should_stop) g.(g_tick_hook) b.

Definition run_scan_pass (e : scan_env) (g : module) : module * list output :=
  let hook := if g.(g_tick_hook) =? 0 then [] else [Hook g.(g_tick_hook)] in
  let threshold := v8m_config_get e.(se_config) V8M_OPT_VMA_WARN_THRESHOLD in
  let '(g, warning) :=
    if (0 <? threshold) && (u64 threshold <=? e.(se_vma)) then
      if negb g.(g_vma_warning_active) then (set_warning g true, [VmaWarning e.(se_vma) threshold]) else (g, [])
    else (set_warning g false, []) in
  let stats := if v8m_config_get e.(se_config) V8M_OPT_VERBOSE =? 0 then [] else [StatsLine e.(se_regions) e.(se_vma) e.(se_mapped) e.(se_unmapped)] in
  (g, hook ++ warning ++ stats).

Definition v8m_bg_purge_run_once (e : scan_env) (g : module) : module * list output := run_scan_pass e g.
Definition v8m_bg_purge_set_tick_hook (g : module) (hook : Z) : module := MkModule g.(g_running) g.(g_should_stop) hook g.(g_vma_warning_active).
Definition v8m_bg_purge_running (g : module) : bool := g.(g_running).

(** The deadline of the sleep, in seconds. *)
Definition tick_deadline (now interval_seconds : Z) : Z := now + (if interval_seconds <=? 0 then 1 else interval_seconds).

(** ** The two threads *)

(** Where the worker is: reading the options, taking the lock for the wait, testing
    the stop flag with the lock held, asleep, woken and taking the lock back (by a
    signal or for no reason, or at the deadline), reading the stop flag for the
    result, scanning, gone. *)
Inductive worker_pc :=
  | WTop | WLock (deadline : Z) | WTest (deadline : Z) | WAsleep (deadline : Z)
  | WWoken (deadline : Z) | WTimedOut | WResult | WScan | WExited.

(** Where the other thread is: outside, about to create the thread, with the
    thread created; in the shutdown, with the lock not yet taken, about to set the
    flag, to signal, to unlock, to join, and joined. *)
Inductive main_pc := MIdle | MCreate | MCreated | MLock | MStop | MSignal | MUnlock | MJoin | MJoined.

Inductive holder := ByMain | ByWorker.

Record sys := MkSys { s_mod : module; s_lock : option holder; s_main : main_pc; s_worker : option worker_pc }.
Definition sys0 : sys := MkSys module0 None MIdle None.

Definition set_running (g : module) (b : bool) : module := MkModule b g.(g_should_stop) g.(g_tick_hook) g.(g_vma_warning_active).
Definition set_should_stop (g : module) (b : bool) : module := MkModule g.(g_running) b g.(g_tick_hook) g.(g_vma_warning_active).

(** A call of the API from outside. *)
Inductive call := CInit | CShutdown | CSetHook (hook : Z) | CRunOnce (e : scan_env) | CForkChild.

(** The first action of a call, up to its first visible point: [v8m_bg_purge_init]
    and [v8m_bg_purge_shutdown] read [g_running] and return at once or go on; the
    child of a fork (prefork takes the lock) has no worker. *)
Definition call_step (c : call) (s : sys) : option sys :=
  match s.(s_main) with
  | MIdle =>
      match c with
      | CInit =>
          if g_running s.(s_mod) then Some s else Some (MkSys (set_should_stop s.(s_mod) false) s.(s_lock) MCreate s.(s_worker))
      | CShutdown => if negb (g_running s.(s_mod)) then Some s else Some (MkSys s.(s_mod) s.(s_lock) MLock s.(s_worker))
      | CSetHook hook => Some (MkSys (v8m_bg_purge_set_tick_hook s.(s_mod) hook) s.(s_lock) MIdle s.(s_worker))
      | CRunOnce e => Some (MkSys (v8m_bg_purge_run_once e s.(s_mod)).1 s.(s_lock) MIdle s.(s_worker))
      | CForkChild => match s.(s_lock) with None => Some (MkSys (set_running s.(s_mod) false) None MIdle None) | Some _ => None end
      end
  | _ => None
  end.

(** The further actions of [v8m_bg_purge_init] and [v8m_bg_purge_shutdown]; [rc] is
    the result of [pthread_create]. *)
Definition main_step (rc : Z) (s : sys) : option sys :=
  match s.(s_main) with
  | MIdle => None
  | MCreate => if negb (rc =? 0) then Some (MkSys s.(s_mod) s.(s_lock) MIdle s.(s_worker)) else Some (MkSys s.(s_mod) s.(s_lock) MCreated (Some WTop))
  | MCreated => Some (MkSys (set_running s.(s_mod) true) s.(s_lock) MIdle s.(s_worker))
  | MLock => match s.(s_lock) with None => Some (MkSys s.(s_mod) (Some ByMain) MStop s.(s_worker)) | Some _ => None end
  | MStop => Some (MkSys (set_should_stop s.(s_mod) true) s.(s_lock) MSignal s.(s_worker))
  | MSignal => Some (MkSys s.(s_mod) s.(s_lock) MUnlock (match s.(s_worker) with Some (WAsleep d) => Some (WWoken d) | w => w end))
  | MUnlock => Some (MkSys s.(s_mod) None MJoin s.(s_worker))
  | MJoin => match s.(s_worker) with Some WExited => Some (MkSys s.(s_mod) s.(s_lock) MJoined None) | _ => None end
  | MJoined => Some (MkSys (set_running s.(s_mod) false) s.(s_lock) MIdle s.(s_worker))
  end.

(** One action of the worker.  [timeout] tells a sleep that ends by itself whether
    it ends at its deadline or spuriously. *)
Record worker_env := MkWorker { we_now : Z; we_timeout : bool; we_scan : scan_env }.
Definition worker_step (e : worker_env) (s : sys) : option sys :=
  let go lock w := Some (MkSys s.(s_mod) lock s.(s_main) (Some w)) in
  match s.(s_worker) with
  | None | Some WExited => None
  | Some WTop => go s.(s_lock) (WLock (tick_deadline e.(we_now) (v8m_config_get e.(we_scan).(se_config) V8M_OPT_PURGE_INTERVAL)))
  | Some (WLock d) => match s.(s_lock) with None => go (Some ByWorker) (WTest d) | Some _ => None end
  | Some (WTest d) => if g_should_stop s.(s_mod) then go s.(s_lock) WResult else go None (WAsleep d)
  | Some (WAsleep d) => go s.(s_lock) (if e.(we_timeout) then WTimedOut else WWoken d)
  | Some (WWoken d) => match s.(s_lock) with None => go (Some ByWorker) (WTest d) | Some _ => None end
  | Some WTimedOut => match s.(s_lock) with None => go (Some ByWorker) WResult | Some _ => None end
  | Some WResult => go None (if g_should_stop s.(s_mod) then WExited else WScan)
  | Some WScan => Some (MkSys (run_scan_pass e.(we_scan) s.(s_mod)).1 s.(s_lock) s.(s_main) (Some WTop))
  end.

Inductive step : sys -> sys -> Prop :=
  | step_call c s s' : call_step c s = Some s' -> step s s'
  | step_main rc s s' : main_step rc s = Some s' -> step s s'
  | step_worker e s s' : worker_step e s = Some s' -> step s s'.

Inductive reachable : sys -> Prop :=
  | reach_init : reachable sys0
  | reach_step s s' : reachable s -> step s s' -> reachable s'.

(** ** The invariant *)

Definition holds_worker (w : option worker_pc) : bool := match w with Some (WTest _) | Some WResult => true | _ => false end.
Definition holds_main (m : main_pc) : bool := match m with MStop | MSignal | MUnlock => true | _ => false end.
(** The shutdown has set the flag and has not seen the worker's end. *)
Definition stopping (m : main_pc) : bool := match m with MSignal | MUnlock | MJoin => true | _ => false end.
(** What the flag [g_running] must say. *)
Definition says_running (m : main_pc) (w : option worker_pc) : bool :=
  match m with MCreate | MCreated => false | MJoined => true | _ => match w with None => false | Some _ => true end end.
Definition worker_expected (m : main_pc) (w : option worker_pc) : bool :=
  match m, w with
  | MCreate, None | MJoined, None | MIdle, _ => true
  | MCreate, Some _ | MJoined, Some _ => false
  | _, Some _ => true
  | _, None => false
  end.

Record inv (s : sys) : Prop := {
  i_lock : s.(s_lock) = if holds_main s.(s_main) then Some ByMain else if holds_worker s.(s_worker) then Some ByWorker else None;
  i_excl : holds_main s.(s_main) = true -> holds_worker s.(s_worker) = false;
  i_running : g_running s.(s_mod) = says_running s.(s_main) s.(s_worker);
  i_expected : worker_expected s.(s_main) s.(s_worker) = true;
  i_stop : forall w, s.(s_worker) = Some w -> g_should_stop s.(s_mod) = stopping s.(s_main);
  i_awake : forall d, s.(s_worker) = Some (WAsleep d) -> g_should_stop s.(s_mod) = false \/ s.(s_main) = MSignal;
  i_create : s.(s_main) = MCreate -> g_should_stop s.(s_mod) = false;
  i_exited : s.(s_worker) = Some WExited -> stopping s.(s_main) = true
}.

Lemma scan_flags e g : g_running (run_scan_pass e g).1 = g_running g /\ g_should_stop (run_scan_pass e g).1 = g_should_stop g.
Proof. unfold run_scan_pass. by repeat case_match; simplify_eq. Qed.

(** The flags decide the invariant: the hook and the warning play no part. *)
Lemma inv_flags g g' l m w : inv (MkSys g l m w) -> g_running g' = g_running g -> g_should_stop g' = g_should_stop g -> inv (MkSys g' l m w).
Proof. intros [I1 I2 I3 I4 I5 I6 I7 I8] Hr Hs. constructor; cbn in *; rewrite ?Hr, ?Hs; done. Qed.

(** Solves the invariant of a state whose program counters are known. *)
Ltac bg_inv :=
  constructor; cbn in *; intros; simplify_eq;
  repeat match goal with
  | H : true = true -> _ |- _ => specialize (H eq_refl)
  | H : forall d, Some (WAsleep ?x) = Some (WAsleep d) -> _ |- _ => destruct (H x eq_refl); clear H
  | H : forall w, Some ?x = Some w -> _ |- _ => specialize (H x eq_refl)
  end; try done; try congruence; try (by eauto); try (by left; eauto).

Lemma inv_call c s s' : inv s -> call_step c s = Some s' -> inv s'.
Proof.
  intros I He. pose proof I as [I1 I2 I3 I4 I5 I6 I7 I8]. destruct s as [g l m w]. destruct m; try done. unfold call_step in He. cbn in He, I1, I2, I3, I4, I5, I6, I7, I8. destruct c as [| |hook|e|].
  - destruct (g_running g) eqn:E; injection He as <-; [done|]. destruct w as [w|]; [done|]. bg_inv.
  - destruct (g_running g) eqn:E; cbn in He; injection He as <-; [|done]. destruct w as [w|]; [|done]. bg_inv.
  - injection He as <-. by apply (inv_flags g).
  - injection He as <-. by apply (inv_flags g); [|apply scan_flags|apply scan_flags].
  - destruct l; [done|]. injection He as <-. bg_inv.
Qed.

Lemma inv_main rc s s' : inv s -> main_step rc s = Some s' -> inv s'.
Proof.
  intros [I1 I2 I3 I4 I5 I6 I7 I8] He. destruct s as [g l m w]. destruct m; unfold main_step in He; cbn in *; try done; (destruct w as [w|]; try done).
  - destruct (negb (rc =? 0)); injection He as <-; bg_inv.
  - injection He as <-. bg_inv.
  - destruct l; [done|]. injection He as <-. destruct w; bg_inv.
  - injection He as <-. destruct w; bg_inv.
  - injection He as <-. destruct w; bg_inv.
  - injection He as <-. destruct w; bg_inv.
  - destruct w; try done. injection He as <-. bg_inv.
  - injection He as <-. bg_inv.
Qed.

Lemma inv_worker e s s' : inv s -> worker_step e s = Some s' -> inv s'.
Proof.
  intros [I1 I2 I3 I4 I5 I6 I7 I8] He. destruct s as [g l m w]. destruct w as [w|]; [|done]. unfold worker_step in He. destruct w; cbn in *; try done.
  - injection He as <-. destruct m; bg_inv.
  - destruct l; [done|]. injection He as <-. destruct m; bg_inv.
  - destruct (g_should_stop g) eqn:E; injection He as <-; destruct m; bg_inv.
  - injection He as <-. destruct e.(we_timeout), m; bg_inv.
  - destruct l; [done|]. injection He as <-. destruct m; bg_inv.
  - destruct l; [done|]. injection He as <-. destruct m; bg_inv.
  - injection He as <-. destruct (g_should_stop g) eqn:E; destruct m; bg_inv.
  - injection He as <-. destruct (scan_flags e.(we_scan) g) as [Hr Hs]. apply (inv_flags g); [|done|done]. destruct m; bg_inv.
Qed.

Lemma reachable_inv s : reachable s -> inv s.
Proof.
  induction 1 as [|s s' _ I St]; [by constructor|]. destruct St as [c s s' He|rc s s' He|e s s' He]; [by eapply inv_call|by eapply inv_main|by eapply inv_worker].
Qed.

(** ** Shutting down *)

Definition asleep (s : sys) : Prop := exists d, s.(s_worker) = Some (WAsleep d).
Definition shut_down (s : sys) : Prop := s.(s_main) = MIdle /\ g_running s.(s_mod) = false /\ s.(s_worker) = None.

(** On every run, whatever the scheduler does, [P] holds at some point. *)
Inductive inevitably (P : sys -> Prop) : sys -> Prop :=
  | inev_now s : P s -> inevitably P s
  | inev_later s : (exists s', step s s') -> (forall s', step s s' -> inevitably P s') -> inevitably P s.

(** How many steps are left at most. *)
Definition main_rank (m : main_pc) : nat := match m with MSignal => 4 | MUnlock => 3 | MJoin => 2 | MJoined => 1 | _ => 0 end.
Definition worker_rank (w : option worker_pc) : nat :=
  match w with
  | None | Some WExited => 0
  | Some WResult => 1 | Some (WTest _) => 2 | Some WTimedOut | Some (WWoken _) => 3
  | Some (WAsleep _) => 5 | Some (WLock _) => 6 | Some WTop => 7 | Some WScan => 8
  end.
Definition rank (s : sys) : nat := main_rank s.(s_main) + worker_rank s.(s_worker).
Definition ending (m : main_pc) : bool := match m with MJoined => true | _ => stopping m end.

Lemma ending_step s s' : inv s -> ending s.(s_main) = true -> step s s' -> (ending s'.(s_main) = true \/ shut_down s') /\ (rank s' < rank s)%nat.
Proof.
  intros [I1 I2 I3 I4 I5 I6 I7 I8] He St. destruct St as [c s s' Hs|rc s s' Hs|e s s' Hs]; destruct s as [g l m w]; unfold rank, shut_down; cbn in *.
  - unfold call_step in Hs. by destruct m.
  - unfold main_step in Hs. destruct m; try done; cbn in Hs.
    + injection Hs as <-. cbn. split; [by left|]. destruct w as [w|]; [|cbn; lia]. destruct w; cbn; lia.
    + injection Hs as <-. cbn. split; [by left|lia].
    + destruct w as [w|]; [|done]. destruct w; try done. injection Hs as <-. cbn. split; [by left|lia].
    + injection Hs as <-. cbn. destruct w as [w|]; [done|]. split; [by right|lia].
  - unfold worker_step in Hs. destruct w as [w|]; [|done]. assert (Hst : m <> MJoined /\ g_should_stop g = true).
    { split; [by intros ->|]. rewrite (I5 w eq_refl). by destruct m. }
    destruct Hst as [Hm Hst]. destruct w; cbn in Hs; rewrite ?Hst in Hs; try done; try (destruct l; [done|]); injection Hs as <-; cbn [s_main s_worker worker_rank];
      (split; [by left|]); try lia. destruct e.(we_timeout); cbn; lia.
Qed.

Lemma ending_progress s : inv s -> ending s.(s_main) = true -> exists s', step s s'.
Proof.
  intros [I1 I2 I3 I4 I5 I6 I7 I8] He. destruct s as [g l m w]. cbn in *.
  assert (Hm : (exists s', main_step 0 (MkSys g l m w) = Some s') \/ (exists s', worker_step (MkWorker 0 false (MkScan (MkConfig [] 0) 0 0 0 0)) (MkSys g l m w) = Some s')).
  { destruct m; try done; try (by left; eexists). destruct w as [w|]; [|done]. destruct w; cbn in I1; subst l; first [by left; eexists|right; unfold worker_step; cbn; first [by eexists|destruct (g_should_stop g); by eexists]]. }
  destruct Hm as [[s' Hs]|[s' Hs]]; exists s'; [by eapply step_main|by eapply step_worker].
Qed.

Lemma ending_inevitable s : inv s -> ending s.(s_main) = true -> inevitably shut_down s.
Proof.
  remember (rank s) as n eqn:En. revert s En. induction (lt_wf n) as [n _ IH]. intros s -> I He. apply inev_later; [by apply ending_progress|].
  intros s' St. destruct (ending_step s s' I He St) as [[He'|Hd] Hr]; [|by apply inev_now]. apply (IH (rank s') Hr s'); [done| |done].
  destruct St as [c s s' Hs|rc s s' Hs|e s s' Hs]; [by eapply inv_call|by eapply inv_main|by eapply inv_worker].
Qed.

(** ** The warning *)

Definition above (e : scan_env) : bool :=
  let threshold := v8m_config_get e.(se_config) V8M_OPT_VMA_WARN_THRESHOLD in (0 <? threshold) && (threshold <=? e.(se_vma)).
Fixpoint passes (es : list scan_env) (g : module) : list (list output) :=
  match es with [] => [] | e :: es => let '(g, outs) := run_scan_pass e g in outs :: passes es g end.
Definition warns (outs : list output) : bool := existsb (fun o => match o with VmaWarning _ _ => true | _ => false end) outs.
(** Whether the count was above the threshold at the pass before the [i]-th. *)
Definition above_before (es : list scan_env) (g : module) (i : nat) : bool :=
  match i with O => g.(g_vma_warning_active) | S j => match es !! j with Some e => above e | None => false end end.

Lemma pass_warns e g : is_u64 e.(se_vma) -> -2 ^ 63 <= v8m_config_get e.(se_config) V8M_OPT_VMA_WARN_THRESHOLD < 2 ^ 63 ->
  warns (run_scan_pass e g).2 = above e && negb g.(g_vma_warning_active) /\ (run_scan_pass e g).1.(g_vma_warning_active) = above e.
Proof.
  intros Hv Ht. unfold run_scan_pass, above. set (t := v8m_config_get _ _) in *. destruct (Z.ltb_spec 0 t) as [Hp|Hp]; cbn [andb].
  - rewrite u64_small by (unfold is_u64; lia). destruct (t <=? se_vma e); [destruct (g_vma_warning_active g) eqn:E|]; cbn [negb andb]; rewrite ?E; unfold warns;
      destruct (g_tick_hook g =? 0), (v8m_config_get (se_config e) V8M_OPT_VERBOSE =? 0); done.
  - unfold warns. destruct (g_tick_hook g =? 0), (v8m_config_get (se_config e) V8M_OPT_VERBOSE =? 0); done.
Qed.

(** The VMA warning has hysteresis: over any sequence of passes it is printed
    exactly at the passes that find the count at or above the threshold when the
    pass before did not. *)
Theorem v8m_bg_purge_warns_at_crossings es g i e outs :
  Forall (fun e => is_u64 e.(se_vma) /\ -2 ^ 63 <= v8m_config_get e.(se_config) V8M_OPT_VMA_WARN_THRESHOLD < 2 ^ 63) es ->
  es !! i = Some e -> passes es g !! i = Some outs -> warns outs = above e && negb (above_before es g i).
Proof.
  intros Hf. revert g i. induction Hf as [|e0 es [Hv Ht] Hf IH]; intros g i He Ho; [done|]. cbn [passes] in Ho. destruct (pass_warns e0 g Hv Ht) as [Hw Ha].
  destruct (run_scan_pass e0 g) as [g1 o1]. cbn [fst snd] in Hw, Ha. destruct i as [|i]; cbn in He, Ho; [by injection He as <-; injection Ho as <-|].
  rewrite (IH g1 i He Ho). f_equal. f_equal. destruct i as [|i]; [done|]. done.
Qed.

(** C35: In every reachable state the lock has at most one holder, [g_running] tells
    whether there is a worker, a new worker is only created when there is none, a
    join waits for one that exists, and no wakeup is lost: the worker is never asleep
    with the stop flag set, except between setting it and signalling. *)
Theorem v8m_bg_purge_safe s : reachable s ->
  (holds_main s.(s_main) = true -> holds_worker s.(s_worker) = false) /\
  (s.(s_main) = MIdle -> (g_running s.(s_mod) = true <-> s.(s_worker) <> None)) /\
  (s.(s_main) = MCreate -> s.(s_worker) = None) /\
  (s.(s_main) = MJoin -> s.(s_worker) <> None) /\
  (asleep s -> g_should_stop s.(s_mod) = true -> s.(s_main) = MSignal).
Proof.
  intros [I1 I2 I3 I4 I5 I6 I7 I8]%reachable_inv. destruct s as [g l m w]. cbn in *. split_and!.
  - done.
  - intros ->. rewrite I3. by destruct w.
  - intros ->. by destruct w.
  - intros ->. by destruct w.
  - intros [d Hw] Hs. cbn in Hw. destruct (I6 d Hw); [congruence|done].
Qed.

(** C34: Once [v8m_bg_purge_shutdown] has set the stop flag, every run of the two
    threads, whatever the scheduler and the timer do, takes it to its end in at most
    12 steps: the worker has ended and is joined, and [g_running] is false.  No step
    of it waits for the sleep interval. *)
Theorem v8m_bg_purge_shutdown_ends s : reachable s -> stopping s.(s_main) = true ->
  inevitably shut_down s /\ (rank s <= 12)%nat /\ (s.(s_main) <> MSignal -> ~ asleep s).
Proof.
  intros R Hs. pose proof (reachable_inv s R) as I. split; [by apply ending_inevitable; [|destruct (s_main s)]|]. split.
  - unfold rank. destruct I as [_ _ _ _ I5 I6 _ _]. destruct (s_main s); try done; destruct (s_worker s) as [[]|]; cbn; lia.
  - intros Hm [d Hw]. destruct (i_awake s I d Hw) as [Hf|]; [|done]. rewrite (i_stop s I _ Hw) in Hf. congruence.
Qed.

(** ** Examples *)

(** A start, a first sleep, and a shutdown up to its signal. *)
Definition ex_scan (vma : Z) : scan_env := MkScan (v8m_config_init (fun _ => None)) vma 0 0 0.
Definition ex_worker : worker_env := MkWorker 100 true (ex_scan 10).
Definition ex_signal : sys := MkSys (MkModule true true 0 false) (Some ByMain) MSignal (Some (WAsleep 110)).

Inductive act := ACall (c : call) | AMain | AWorker.
Definition do_act (r : option sys) (a : act) : option sys :=
  s ← r; match a with ACall c => call_step c s | AMain => main_step 0 s | AWorker => worker_step ex_worker s end.

Lemma acts_stuck acts : foldl do_act None acts = None.
Proof. by induction acts. Qed.
Lemma acts_reachable acts s s' : reachable s -> foldl do_act (Some s) acts = Some s' -> reachable s'.
Proof.
  revert s. induction acts as [|a acts IH]; intros s R He; [by injection He as <-|]. cbn [foldl] in He. destruct (do_act (Some s) a) as [s1|] eqn:E; [|by rewrite acts_stuck in He].
  apply (IH s1); [|done]. eapply reach_step; [exact R|]. destruct a; cbn in E; [by eapply step_call|by eapply step_main|by eapply step_worker].
Qed.

Lemma ex_signal_reachable : reachable ex_signal.
Proof. apply (acts_reachable [ACall CInit; AMain; AMain; AWorker; AWorker; AWorker; ACall CShutdown; AMain; AMain] sys0); [apply reach_init|reflexivity]. Qed.

Lemma v8m_bg_purge_safe_witness :
  asleep ex_signal /\ (asleep ex_signal -> g_should_stop ex_signal.(s_mod) = true -> ex_signal.(s_main) = MSignal).
Proof. split; [by exists 110|]. apply (v8m_bg_purge_safe ex_signal ex_signal_reachable). Defined.

Lemma v8m_bg_purge_shutdown_ends_witness : inevitably shut_down ex_signal /\ (rank ex_signal <= 12)%nat /\ (ex_signal.(s_main) <> MSignal -> ~ asleep ex_signal).
Proof. apply (v8m_bg_purge_shutdown_ends ex_signal ex_signal_reachable). reflexivity. Defined.

(** The default threshold of 1024 crossed twice. *)
Definition ex_passes : list scan_env := ex_scan <$> [10; 2000; 3000; 10; 1024].
Lemma v8m_bg_purge_warns_at_crossings_witness :
  warns <$> passes ex_passes module0 = [false; true; false; false; true] /\
  warns [VmaWarning 1024 1024] = above (ex_scan 1024) && negb (above_before ex_passes module0 4).
Proof.
  split; [vm_compute; reflexivity|]. apply (v8m_bg_purge_warns_at_crossings ex_passes module0 4); [|reflexivity|vm_compute; reflexivity].
  unfold ex_passes. repeat constructor; vm_compute; done.
Defined.

End BgPurge.
