(* ===== verification/Api.v ===== *)
(** The public entry points: [src/v8m_api.c].

    [api] is the file's globals with the modules they drive: the lifecycle state,
    the dispatcher, the options, the two static bump buffers with the contents of
    the bootstrap one, the soft limit and the out-of-memory handler, the ring of
    freed pointers and [errno].  A call takes the readings it makes, [call_env].
    The handler is the program's: [call_handler] runs the one installed.

    [None] is a call that does not return: an abort (bootstrap buffer spent, double
    release found, red zone damaged), or a loop out of fuel. *)

From S2P Require Import Prelude SizeClass Page Bump Config Os RegionMap PageHeap PageSource SlabPool BuddyPool Large ThreadCache ThreadRegistry Lifetime Dispatch DispatchSpec.
Import SizeClass Page Config PageSource Dispatch DispatchSpec.

Module Api.

Definition V8M_INIT_NONE : Z := 0.
Definition V8M_INIT_RUNNING : Z := 1.
Definition V8M_INIT_READY : Z := 2.
Definition V8M_INIT_TORN_DOWN : Z := 3.
Definition V8M_DOUBLE_FREE_RING_SIZE : Z := 4096.
Definition EAGAIN : Z := 11.
Definition ENOMEM : Z := 12.
Definition EINVAL : Z := 22.

(** What the API reads of the page heap beside the calls of the pools: the
    ownership test without a lock, the counters and the reports; and the two sweeps
    that end [v8m_dispatch_bg_tick]. *)
Class PageHeapView `{PageSource} := {
  pv_owns_fast : src -> RegionMap.owns_cache -> Z -> RegionMap.owns_cache * Z;
  pv_stats : src -> PageHeap.stats;
  pv_live_regions : src -> Z;
  pv_validate : src -> Z;
  pv_reset_peak : src -> src;
  pv_cpu_of : src -> Z;
  pv_housekeep : src -> src;
  pv_numa_balance : src -> PageHeap.numa_balance
}.
#[export] Instance heap_view `{Os.OSLaws} : PageHeapView (H := heap_source) := {|
  pv_owns_fast s c p := RegionMap.v8m_page_heap_owns_fast s.(hs_heap).(PageHeap.h_map) c p;
  pv_stats s := s.(hs_heap).(PageHeap.h_stats);
  pv_live_regions s := RegionMap.v8m_page_heap_live_region_count s.(hs_heap).(PageHeap.h_map);
  pv_validate s := RegionMap.v8m_page_heap_validate s.(hs_heap).(PageHeap.h_map);
  pv_reset_peak s := MkSrc (PageHeap.v8m_page_heap_reset_peak s.(hs_heap)) s.(hs_tape) s.(hs_tick) s.(hs_descs);
  pv_cpu_of s := (hs_env s).(PageHeap.e_cpu);
  pv_housekeep s := hs_next s (PageHeap.v8m_page_heap_thp_age_sweep (PageHeap.v8m_page_heap_numa_rebalance s.(hs_heap)).1 (hs_env s)).1;
  pv_numa_balance s := PageHeap.v8m_page_heap_get_numa_balance s.(hs_heap)
|}.

(** The readings of one call.  [ce_retry] serves the second attempt after the
    handler ran. *)
Record call_env := MkCall { ce_denv : denv; ce_retry : denv; ce_tsc : Z; ce_mhz : Z; ce_caller_pc : Z }.

Section Api.
Context `{PageHeapView}.

Record api := MkApi {
  g_init_state : Z;
  g_dispatch : v8m_dispatch;
  v8m_config : config;
  v8m_bootstrap_bump : Bump.v8m_bump;
  bootstrap_mem : mem;
  v8m_signal_safe_bump : Bump.v8m_bump;
  t_owns : RegionMap.owns_cache;
  g_soft_limit : Z;
  g_oom_handler : Z;
  t_oom_in_handler : bool;
  g_double_free_ring : list Z;
  g_double_free_ring_idx : Z;
  errno : Z
}.
Definition set_init_state st v := MkApi v st.(g_dispatch) st.(v8m_config) st.(v8m_bootstrap_bump) st.(bootstrap_mem) st.(v8m_signal_safe_bump) st.(t_owns) st.(g_soft_limit) st.(g_oom_handler) st.(t_oom_in_handler) st.(g_double_free_ring) st.(g_double_free_ring_idx) st.(errno).
Definition set_dispatch st v := MkApi st.(g_init_state) v st.(v8m_config) st.(v8m_bootstrap_bump) st.(bootstrap_mem) st.(v8m_signal_safe_bump) st.(t_owns) st.(g_soft_limit) st.(g_oom_handler) st.(t_oom_in_handler) st.(g_double_free_ring) st.(g_double_free_ring_idx) st.(errno).
Definition set_config st v := MkApi st.(g_init_state) st.(g_dispatch) v st.(v8m_bootstrap_bump) st.(bootstrap_mem) st.(v8m_signal_safe_bump) st.(t_owns) st.(g_soft_limit) st.(g_oom_handler) st.(t_oom_in_handler) st.(g_double_free_ring) st.(g_double_free_ring_idx) st.(errno).
Definition set_bootstrap st b m := MkApi st.(g_init_state) st.(g_dispatch) st.(v8m_config) b m st.(v8m_signal_safe_bump) st.(t_owns) st.(g_soft_limit) st.(g_oom_handler) st.(t_oom_in_handler) st.(g_double_free_ring) st.(g_double_free_ring_idx) st.(errno).
Definition set_signal_safe st v := MkApi st.(g_init_state) st.(g_dispatch) st.(v8m_config) st.(v8m_bootstrap_bump) st.(bootstrap_mem) v st.(t_owns) st.(g_soft_limit) st.(g_oom_handler) st.(t_oom_in_handler) st.(g_double_free_ring) st.(g_double_free_ring_idx) st.(errno).
Definition set_owns st v := MkApi st.(g_init_state) st.(g_dispatch) st.(v8m_config) st.(v8m_bootstrap_bump) st.(bootstrap_mem) st.(v8m_signal_safe_bump) v st.(g_soft_limit) st.(g_oom_handler) st.(t_oom_in_handler) st.(g_double_free_ring) st.(g_double_free_ring_idx) st.(errno).
Definition set_limits st limit handler := MkApi st.(g_init_state) st.(g_dispatch) st.(v8m_config) st.(v8m_bootstrap_bump) st.(bootstrap_mem) st.(v8m_signal_safe_bump) st.(t_owns) limit handler st.(t_oom_in_handler) st.(g_double_free_ring) st.(g_double_free_ring_idx) st.(errno).
Definition set_in_handler st v := MkApi st.(g_init_state) st.(g_dispatch) st.(v8m_config) st.(v8m_bootstrap_bump) st.(bootstrap_mem) st.(v8m_signal_safe_bump) st.(t_owns) st.(g_soft_limit) st.(g_oom_handler) v st.(g_double_free_ring) st.(g_double_free_ring_idx) st.(errno).
Definition set_ring st ring idx := MkApi st.(g_init_state) st.(g_dispatch) st.(v8m_config) st.(v8m_bootstrap_bump) st.(bootstrap_mem) st.(v8m_signal_safe_bump) st.(t_owns) st.(g_soft_limit) st.(g_oom_handler) st.(t_oom_in_handler) ring idx st.(errno).
Definition set_errno st v := MkApi st.(g_init_state) st.(g_dispatch) st.(v8m_config) st.(v8m_bootstrap_bump) st.(bootstrap_mem) st.(v8m_signal_safe_bump) st.(t_owns) st.(g_soft_limit) st.(g_oom_handler) st.(t_oom_in_handler) st.(g_double_free_ring) st.(g_double_free_ring_idx) v.

Context (call_handler : Z -> Z -> api -> api * Z).

Definition dispatch_ready (st : api) : bool := st.(g_init_state) =? V8M_INIT_READY.
Definition v8m_api_dispatch_ready (st : api) : bool := dispatch_ready st.
Definition v8m_api_soft_limit_active (st : api) : bool := negb (st.(g_soft_limit) =? 0).

(** The dispatcher reads the same options and the same limit. *)
Definition env_of (st : api) (e : denv) : denv :=
  MkEnv st.(v8m_config) (ThreadCache.MkTick e.(de_tick).(ThreadCache.te_node) e.(de_tick).(ThreadCache.te_node_count) e.(de_tick).(ThreadCache.te_suppressed) st.(v8m_config) e.(de_tick).(ThreadCache.te_fuel))
    e.(de_cpu) e.(de_now) e.(de_mhz) e.(de_fresh) e.(de_mprotect) (v8m_api_soft_limit_active st) e.(de_fuel).

Definition debug_on (st : api) : bool := negb (v8m_config_get st.(v8m_config) V8M_OPT_DEBUG =? 0).

(** ** The program's memory *)

(** The cell at [off] of the block at [p]. *)
Definition peek (st : api) (p off : Z) : Z :=
  if Bump.v8m_ptr_is_bootstrap st.(v8m_bootstrap_bump) p then rd st.(bootstrap_mem) (p + off) else load st.(g_dispatch) p off.
Definition poke (st : api) (p off v : Z) : api :=
  if Bump.v8m_ptr_is_bootstrap st.(v8m_bootstrap_bump) p then set_bootstrap st st.(v8m_bootstrap_bump) (wr st.(bootstrap_mem) (p + off) v)
  else set_dispatch st (store st.(g_dispatch) (owner_of st.(g_dispatch) p) (p + off) v).

Definition memset (st : api) (p v n : Z) : api := foldl (fun st off => poke st p off v) st (seqZ 0 n).
Definition memcpy (st : api) (dst source n : Z) : api := foldl (fun st off => poke st dst off (peek st source off)) st (seqZ 0 n).

(** ** Limits *)

Definition bytes_live (st : api) : Z :=
  let s := pv_stats st.(g_dispatch).(d_src) in u64 (s PageHeap.v8m_bytes_mapped - s PageHeap.v8m_bytes_unmapped).

Definition over_soft_limit (st : api) (size : Z) : api * bool :=
  let limit := st.(g_soft_limit) in
  if limit =? 0 then (st, false)
  else if u64 (bytes_live st + size) <=? limit then (st, false)
  else
    let st := set_dispatch st (v8m_dispatch_purge_drained st.(g_dispatch)).1 in
    (st, limit <? u64 (bytes_live st + size)).

Definition oom_handler_says_retry (st : api) (size : Z) : api * bool :=
  if st.(t_oom_in_handler) then (st, false)
  else
    let handler := st.(g_oom_handler) in
    if handler =? NULL then (st, false)
    else let '(st, retry) := call_handler handler size (set_in_handler st true) in (set_in_handler st false, negb (retry =? 0)).

Definition pre_alloc_soft_limit_gate (st : api) (size : Z) : api * bool :=
  let '(st, over) := over_soft_limit st size in
  if negb over then (st, true)
  else
    let '(st, retry) := oom_handler_says_retry st size in
    let '(st, ok) := if retry then let '(st, over) := over_soft_limit st size in (st, negb over) else (st, false) in
    if ok : bool then (st, true) else (set_errno st ENOMEM, false).

(** ** The ring of freed pointers *)

Definition debug_clear_double_free_record (st : api) (ptr : Z) : api :=
  if ptr =? NULL then st
  else
    match list_find (fun x => x = ptr) st.(g_double_free_ring) with
    | None => st
    | Some (i, _) => set_ring st (<[i := NULL]> st.(g_double_free_ring)) st.(g_double_free_ring_idx)
    end.

(** [None] is the abort. *)
Definition debug_check_double_free (st : api) (ptr : Z) : option api :=
  if bool_decide (ptr ∈ st.(g_double_free_ring)) then None
  else
    let slot := st.(g_double_free_ring_idx) mod V8M_DOUBLE_FREE_RING_SIZE in
    Some (set_ring st (<[Z.to_nat slot := ptr]> st.(g_double_free_ring)) (u64 (st.(g_double_free_ring_idx) + 1))).

(** ** Allocation *)

Definition on_reg (st : api) (f : ThreadRegistry.reg -> ThreadRegistry.reg) : api :=
  set_dispatch st (set_reg st.(g_dispatch) (f st.(g_dispatch).(d_reg)) st.(g_dispatch).(d_tls)).

Definition post_alloc_record (e : call_env) (st : api) (ptr caller_pc size : Z) : api :=
  let st := if debug_on st then debug_clear_double_free_record st ptr else st in
  let st := on_reg st (fun g => ThreadRegistry.v8m_dispatch_record_alloc g st.(g_dispatch).(d_tls)) in
  let st := set_dispatch st (set_cur st.(g_dispatch) (ThreadCache.v8m_thread_cache_predict_update (cur_cache st.(g_dispatch)) caller_pc (v8m_size_class size))) in
  on_reg st (fun g => Lifetime.v8m_thread_cache_lifetime_record_alloc st.(v8m_config) g st.(g_dispatch).(d_tls) e.(ce_tsc) ptr caller_pc).

Definition set_caller_pc (st : api) (pc : Z) : api := set_dispatch st (v8m_dispatch_set_caller_pc st.(g_dispatch) pc).

(** One attempt of the dispatcher. *)
Definition attempt (alloc : denv -> v8m_dispatch -> option (v8m_dispatch * Z)) (e : denv) (st : api) : option (api * Z) :=
  match alloc (env_of st e) st.(g_dispatch) with None => None | Some (d, ptr) => Some (set_dispatch st d, ptr) end.

(** The common body of [do_malloc_pc] and [do_aligned_alloc_pc] past the gate. *)
Definition alloc_with_retry (alloc : denv -> v8m_dispatch -> option (v8m_dispatch * Z)) (e : call_env) (st : api) (size : Z) : option (api * Z) :=
  match attempt alloc e.(ce_denv) (set_caller_pc st e.(ce_caller_pc)) with
  | None => None
  | Some (st, ptr) =>
      let '(st, retry) := if ptr =? NULL then oom_handler_says_retry st size else (st, false) in
      match (if retry : bool then attempt alloc e.(ce_retry) st else Some (st, ptr)) with
      | None => None
      | Some (st, ptr) => Some (set_caller_pc st NULL, ptr)
      end
  end.

Definition bootstrap_alloc (st : api) (size : Z) : option (api * Z) :=
  match Bump.v8m_bootstrap_alloc st.(v8m_bootstrap_bump) size with
  | (Some b, Bump.Returned ptr) => Some (set_bootstrap st b st.(bootstrap_mem), ptr)
  | _ => None
  end.

Definition do_malloc_pc (e : call_env) (st : api) (size : Z) : option (api * Z) :=
  if negb (dispatch_ready st) then bootstrap_alloc st (if 0 <? size then size else 1)
  else
    let '(st, ok) := pre_alloc_soft_limit_gate st size in
    if negb ok then Some (st, NULL)
    else
      match alloc_with_retry (fun de d => v8m_dispatch_alloc pv_cpu_of de d size) e st size with
      | None => None
      | Some (st, ptr) =>
          if ptr =? NULL then Some (set_errno st ENOMEM, ptr) else Some (post_alloc_record e st ptr e.(ce_caller_pc) size, ptr)
      end.

Definition do_aligned_alloc_pc (e : call_env) (st : api) (alignment size : Z) : option (api * Z) :=
  let '(st, ok) := pre_alloc_soft_limit_gate st size in
  if negb ok then Some (st, NULL)
  else
    match alloc_with_retry (fun de d => v8m_dispatch_alloc_aligned pv_cpu_of de d size alignment) e st size with
    | None => None
    | Some (st, ptr) => if ptr =? NULL then Some (st, NULL) else Some (post_alloc_record e st ptr e.(ce_caller_pc) size, ptr)
    end.

Definition v8m_malloc (e : call_env) (st : api) (size : Z) : option (api * Z) :=
  let cache := cur_cache st.(g_dispatch) in
  if bool_decide (cache <> None) && (size <=? V8M_SMALL_MAX_SIZE) && v8m_config_fast_path_ok st.(v8m_config) then
    let cls := v8m_size_class size in
    let '(c, cached) := ThreadCache.v8m_thread_cache_alloc_inline (env_of st e.(ce_denv)).(de_tick) (words st.(g_dispatch)) cache cls in
    let st := set_dispatch st (set_cur st.(g_dispatch) c) in
    if negb (cached =? NULL) then Some (st, cached) else do_malloc_pc e st size
  else do_malloc_pc e st size.

(** ** Release *)

Definition v8m_free_slow (e : call_env) (st : api) (ptr : Z) : option api :=
  if ptr =? NULL then Some st
  else if Bump.v8m_ptr_is_bootstrap st.(v8m_bootstrap_bump) ptr then Some st
  else if Bump.v8m_ptr_is_signal_safe st.(v8m_signal_safe_bump) ptr then Some st
  else if negb (dispatch_ready st) then Some st
  else
    match (if debug_on st && ps_owns st.(g_dispatch).(d_src) ptr then debug_check_double_free st ptr else Some st) with
    | None => None
    | Some st =>
        let st := on_reg st (fun g => Lifetime.v8m_thread_cache_lifetime_record_free st.(v8m_config) e.(ce_mhz) g st.(g_dispatch).(d_tls) e.(ce_tsc) ptr) in
        match v8m_dispatch_free (env_of st e.(ce_denv)) st.(g_dispatch) ptr with
        | None => None
        | Some (d, _) => Some (set_dispatch st d)
        end
    end.

Definition v8m_free (e : call_env) (st : api) (ptr : Z) : option api :=
  if ptr =? NULL then v8m_free_slow e st ptr
  else
    let cache := cur_cache st.(g_dispatch) in
    let st := on_reg st (fun g => ThreadRegistry.v8m_dispatch_record_free_cache g st.(g_dispatch).(d_tls).(ThreadRegistry.t_cache)) in
    let '(oc, owned) := pv_owns_fast st.(g_dispatch).(d_src) st.(t_owns) ptr in
    let st := set_owns st oc in
    let page := v8m_ptr_to_meta ptr in
    let mt := meta_of st.(g_dispatch) page in
    match cur_cache st.(g_dispatch) with
    | Some c =>
        if (owned =? 1) && v8m_config_fast_path_ok st.(v8m_config) && v8m_page_meta_valid page mt &&
           (mt.(size_class) <? V8M_MEDIUM_FIRST_CLASS) && (mt.(arena_id) =? V8M_ARENA_DEFAULT) &&
           ((ThreadCache.bin_at c mt.(size_class)).(ThreadCache.bin_count) + 1 <? (ThreadCache.bin_at c mt.(size_class)).(ThreadCache.bin_capacity))
        then
          let '(mm, c, _) := ThreadCache.v8m_thread_cache_free_inline (env_of st e.(ce_denv)).(de_tick) (words st.(g_dispatch)) (Some c) mt.(size_class) ptr in
          Some (set_dispatch st (set_cur (set_words st.(g_dispatch) mm) c))
        else v8m_free_slow e st ptr
    | None => v8m_free_slow e st ptr
    end.

(** ** The rest of the malloc family *)

(** [__builtin_mul_overflow]: [None] is the overflow. *)
Definition mul_size (nmemb size : Z) : option Z := if SIZE_MAX <? nmemb * size then None else Some (nmemb * size).

Definition v8m_calloc (e : call_env) (st : api) (nmemb size : Z) : option (api * Z) :=
  match mul_size nmemb size with
  | None => Some (set_errno st ENOMEM, NULL)
  | Some total =>
      match do_malloc_pc e st total with
      | None => None
      | Some (st, ptr) => Some (if negb (ptr =? NULL) && (0 <? total) then memset st ptr 0 total else st, ptr)
      end
  end.

Definition v8m_malloc_usable_size (st : api) (ptr : Z) : Z :=
  if ptr =? NULL then 0
  else if Bump.v8m_ptr_is_bootstrap st.(v8m_bootstrap_bump) ptr then 0
  else if negb (dispatch_ready st) then 0
  else v8m_dispatch_usable_size st.(g_dispatch) ptr.

(** [ef] are the readings of the release inside. *)
Definition v8m_realloc (e ef : call_env) (st : api) (ptr size : Z) : option (api * Z) :=
  if ptr =? NULL then do_malloc_pc e st size
  else if size =? 0 then match v8m_free ef st ptr with None => None | Some st => Some (st, NULL) end
  else
    let is_bootstrap := Bump.v8m_ptr_is_bootstrap st.(v8m_bootstrap_bump) ptr in
    let old_usable := if is_bootstrap then Bump.v8m_bootstrap_remaining st.(v8m_bootstrap_bump) ptr else v8m_malloc_usable_size st ptr in
    if negb is_bootstrap && (size <=? old_usable) then Some (st, ptr)
    else
      match do_malloc_pc e st size with
      | None => None
      | Some (st, new_ptr) =>
          if new_ptr =? NULL then Some (st, NULL)
          else
            let copy := if old_usable <? size then old_usable else size in
            let st := if 0 <? copy then memcpy st new_ptr ptr copy else st in
            match v8m_free ef st ptr with None => None | Some st => Some (st, new_ptr) end
      end.

Definition v8m_reallocarray (e ef : call_env) (st : api) (ptr nmemb size : Z) : option (api * Z) :=
  match mul_size nmemb size with
  | None => Some (set_errno st ENOMEM, NULL)
  | Some total => v8m_realloc e ef st ptr total
  end.

(** ** Aligned allocation *)

Definition is_pow2 (value : Z) : bool := negb (value =? 0) && (Z.land value (value - 1) =? 0).

Definition v8m_aligned_alloc (e : call_env) (st : api) (alignment size : Z) : option (api * Z) :=
  if negb (is_pow2 alignment) then Some (set_errno st EINVAL, NULL)
  else if negb (dispatch_ready st) then
    if alignment <=? 16 then bootstrap_alloc st (if 0 <? size then size else 1) else Some (set_errno st ENOMEM, NULL)
  else
    match do_aligned_alloc_pc e st alignment size with
    | None => None
    | Some (st, ptr) => Some (if ptr =? NULL then set_errno st ENOMEM else st, ptr)
    end.

(** The pointer stored in [memptr], if any, and the error number.  [memptr] is
    [false] for [NULL]. *)
Definition v8m_posix_memalign (e : call_env) (st : api) (memptr : bool) (alignment size : Z) : option (api * option Z * Z) :=
  if negb memptr then Some (st, None, EINVAL)
  else if negb (is_pow2 alignment) || negb (alignment mod 8 =? 0) then Some (st, None, EINVAL)
  else if negb (dispatch_ready st) then
    if alignment <=? 16 then
      match bootstrap_alloc st (if 0 <? size then size else 1) with
      | None => None
      | Some (st, ptr) => if ptr =? NULL then Some (st, None, ENOMEM) else Some (st, Some ptr, 0)
      end
    else Some (st, None, ENOMEM)
  else
    match do_aligned_alloc_pc e st alignment size with
    | None => None
    | Some (st, ptr) => if ptr =? NULL then Some (st, None, ENOMEM) else Some (st, Some ptr, 0)
    end.

Definition v8m_memalign (e : call_env) (st : api) (alignment size : Z) : option (api * Z) := v8m_aligned_alloc e st alignment size.

(** [sysconf(_SC_PAGESIZE)] returned [page]. *)
Definition v8m_valloc (e : call_env) (st : api) (page size : Z) : option (api * Z) :=
  let page := if page <=? 0 then 4096 else page in v8m_aligned_alloc e st page size.
Definition v8m_pvalloc (e : call_env) (st : api) (page size : Z) : option (api * Z) :=
  let page := if 0 <? page then page else 4096 in
  let size := if size =? 0 then page else size in
  if SIZE_MAX - (page - 1) <? size then Some (set_errno st ENOMEM, NULL)
  else v8m_aligned_alloc e st page (Z.land (u64 (u64 (size + page) - 1)) (u64 (Z.lnot (page - 1)))).

End Api.
End Api.
