(* ===== verification/ApiInv.v ===== *)
(** The invariant of the public entry points ([Api]), and its parts: the soft limit,
    the out-of-memory handler, the bootstrap buffer and the bookkeeping around an
    allocation. *)

From S2P Require Import Prelude SizeClass Page Bump Config RemoteFree RegionMap PageHeap PageSource NumaPool SlabPage SlabPool SlabPoolSpec BuddyPool BuddyPoolSpec Large LargeSpec ThreadCache ThreadCacheSpec ThreadRegistry Lifetime Dispatch DispatchInv DispatchCache DispatchStep DispatchAlloc DispatchFree DispatchSpec DispatchKeep Api.
Import SizeClass Page Config PageSource Dispatch DispatchInv DispatchCache DispatchStep DispatchAlloc DispatchFree DispatchSpec DispatchKeep Api.

Module ApiInv.

Section Inv.
Context `{PSL : PageSourceLaws} {PV : PageHeapView}.

(** [image] is the mapping of the program's own data, where the two static buffers
    lie; the page heap's regions never meet it. *)
Context (ext extd : list (Z * Z)) (m : bool) (image : Z * Z).
Notation dispatch_ok := (dispatch_ok ext extd m).

Record static_ok (b : Bump.v8m_bump) (size : Z) : Prop := {
  so_wf : Bump.wf b 4;
  so_size : b.(Bump.size) = size;
  so_image : image.1 <= b.(Bump.buffer) /\ b.(Bump.buffer) + size <= image.1 + image.2
}.

(** The blocks of the program are [B] from the dispatcher and [L] from the bootstrap
    buffer. *)
Record api_ok (st : api) (B : owner -> Z -> Z -> Prop) (L : list (Z * Z)) : Prop := {
  ao_dispatch : dispatch_ok st.(g_dispatch) B;
  ao_image : image ∈ extd;
  ao_bootstrap : static_ok st.(v8m_bootstrap_bump) Bump.V8M_BOOTSTRAP_SIZE /\ st.(v8m_bootstrap_bump).(Bump.offset) <= Bump.V8M_BOOTSTRAP_SIZE;
  ao_blocks : forall x, x ∈ L -> st.(v8m_bootstrap_bump).(Bump.buffer) <= x.1 /\ 0 < x.2 /\
    x.1 + x.2 <= st.(v8m_bootstrap_bump).(Bump.buffer) + st.(v8m_bootstrap_bump).(Bump.offset);
  ao_apart : forall i j x y, L !! i = Some x -> L !! j = Some y -> i <> j -> x.1 + x.2 <= y.1 \/ y.1 + y.2 <= x.1;
  ao_signal : static_ok st.(v8m_signal_safe_bump) Bump.V8M_SIGNAL_SAFE_SIZE;
  ao_mode : BuddyPoolSpec.mode_ok m st.(v8m_config);
  ao_ring : Z.of_nat (length st.(g_double_free_ring)) = V8M_DOUBLE_FREE_RING_SIZE
}.

(** What an entry point leaves alone: of the blocks [B] the handler may have released
    some, those of [B'] are untouched. *)
Record later (st : api) (B : owner -> Z -> Z -> Prop) (st' : api) (B' : owner -> Z -> Z -> Prop) : Prop := {
  la_blocks : forall w p n, B' w p n -> B w p n;
  la_contents : contents B' st.(g_dispatch) st'.(g_dispatch);
  la_bootstrap : st'.(v8m_bootstrap_bump) = st.(v8m_bootstrap_bump) /\ st'.(bootstrap_mem) = st.(bootstrap_mem);
  la_signal : st'.(v8m_signal_safe_bump) = st.(v8m_signal_safe_bump);
  la_config : st'.(v8m_config) = st.(v8m_config);
  la_state : st'.(g_init_state) = st.(g_init_state) /\ st'.(t_oom_in_handler) = st.(t_oom_in_handler)
}.

Lemma later_refl st B : later st B st B.
Proof. by constructor. Qed.
Lemma later_trans st B st1 B1 st2 B2 : later st B st1 B1 -> later st1 B1 st2 B2 -> later st B st2 B2.
Proof.
  intros [H1 H2 [H3 H3'] H4 H5 [H6 H6']] [K1 K2 [K3 K3'] K4 K5 [K6 K6']]. constructor; [by auto| |split; congruence|congruence|congruence|split; congruence].
  eapply contents_trans; [|exact K2]. eapply contents_sub; [|exact H2]. done.
Qed.

(** ** Blocks and the static buffers *)

Lemma blocks_outside d B w p n : dispatch_ok d B -> B w p n -> image ∈ extd -> 0 < p /\ (image.1 + image.2 <= p \/ p + n <= image.1).
Proof.
  intros (K & loc & KM & SL & LL & F & _) Hp Hi. pose proof (proj1 (fr_blocks _ _ _ _ _ _ _ _ _ _ F _ _ _) Hp) as [Hblk _].
  pose proof (fr_world _ _ _ _ _ _ _ _ _ _ F) as (O & D & Wa). destruct (block_range _ _ _ _ _ _ _ _ _ _ _ Wa Hblk) as (Ow & r & Hr & H1 & H2 & H3 & H4).
  destruct (share_sound _ _ _ _ _ _ _ _ _ _ Wa Ow Hr) as (Hrs & H5 & H6). split; [lia|].
  destruct (ps_desc_apart _ image r (w_src _ _ _ _ _ _ _ _ Wa) ltac:(rewrite (w_descs _ _ _ _ _ _ _ _ Wa); apply elem_of_app; by right) Hrs); lia.
Qed.

Lemma bump_owns b size p : static_ok b size -> Bump.v8m_bump_owns (Some b) p = true <-> b.(Bump.buffer) <= p < b.(Bump.buffer) + size.
Proof.
  intros [[_ _ H0 Hs He _ _ _] Hz _]. unfold Bump.v8m_bump_owns. rewrite (proj2 (Z.eqb_neq _ NULL)) by (unfold NULL; lia). rewrite u64_small by (unfold is_u64; lia).
  rewrite Hz in *. rewrite andb_true_iff, Z.leb_le, Z.ltb_lt. done.
Qed.
Lemma bump_remaining b size p : static_ok b size -> b.(Bump.buffer) <= p < b.(Bump.buffer) + size ->
  Bump.v8m_bump_remaining (Some b) p = b.(Bump.buffer) + size - p.
Proof.
  intros S Hr. unfold Bump.v8m_bump_remaining. rewrite (proj2 (bump_owns b size p S) Hr). cbn [negb]. destruct S as [[_ _ H0 Hs He _ _ _] Hz _].
  rewrite Hz in *. rewrite (u64_small (_ + size)) by (unfold is_u64; lia). rewrite u64_small by (unfold is_u64; lia). done.
Qed.

Lemma image_covers b size q : static_ok b size -> b.(Bump.buffer) <= q < b.(Bump.buffer) + size -> image.1 <= q < image.1 + image.2.
Proof. intros [_ _ [H1 H2]] Hq. lia. Qed.

(** A block of the dispatcher is in neither buffer. *)
Lemma block_not_static st B L w p n : api_ok st B L -> B w p n ->
  p <> NULL /\ Bump.v8m_ptr_is_bootstrap st.(v8m_bootstrap_bump) p = false /\ Bump.v8m_ptr_is_signal_safe st.(v8m_signal_safe_bump) p = false.
Proof.
  intros Ok Hp. pose proof Ok as [Hd Hi [Sb _] _ _ Ss _ _]. destruct (blocks_outside _ _ _ _ _ Hd Hp Hi) as [H0 H1]. pose proof (block_positive _ _ _ _ _ _ _ _ Hd Hp) as Hn.
  split; [unfold NULL; lia|]. split; apply not_true_is_false; intros Ho.
  - pose proof (image_covers _ _ _ Sb (proj1 (bump_owns _ _ p Sb) Ho)). lia.
  - pose proof (image_covers _ _ _ Ss (proj1 (bump_owns _ _ p Ss) Ho)). lia.
Qed.

(** ** Changing one part of the state *)

Lemma ok_dispatch st B L d B' : api_ok st B L -> dispatch_ok d B' -> api_ok (set_dispatch st d) B' L.
Proof. intros [] Hd. by constructor. Qed.
Lemma later_dispatch st B d B' : (forall w p n, B' w p n -> B w p n) -> contents B' st.(g_dispatch) d -> later st B (set_dispatch st d) B'.
Proof. intros Hs Hc. by constructor. Qed.
Lemma ok_errno st B L v : api_ok st B L -> api_ok (set_errno st v) B L.
Proof. intros []. by constructor. Qed.
Lemma later_errno st B st' B' v : later st B st' B' -> later st B (set_errno st' v) B'.
Proof. intros []. by constructor. Qed.
Lemma ok_ring st B L ring idx : api_ok st B L -> length ring = length st.(g_double_free_ring) -> api_ok (set_ring st ring idx) B L.
Proof. intros [] Hl. constructor; try done. cbn. by rewrite Hl. Qed.
Lemma later_ring st B ring idx : later st B (set_ring st ring idx) B.
Proof. by constructor. Qed.
Lemma ok_owns st B L c : api_ok st B L -> api_ok (set_owns st c) B L.
Proof. intros []. by constructor. Qed.

Lemma quiet_ok st B L d : api_ok st B L -> quiet st.(g_dispatch) d -> api_ok (set_dispatch st d) B L /\ later st B (set_dispatch st d) B.
Proof.
  intros Ok Q. destruct (ok_quiet ext extd m _ _ B (ao_dispatch _ _ _ Ok) Q) as [Hd Hc]. split; [by eapply ok_dispatch|by apply later_dispatch].
Qed.

Lemma api_quiet_refl d : quiet d d.
Proof. constructor; try done. apply same_cur_refl. Qed.
Lemma api_quiet_trans d1 d2 d3 : quiet d1 d2 -> quiet d2 d3 -> quiet d1 d3.
Proof.
  intros [A1 A2 A3 A4 A5 A6 A7 A8 A9] [B1 B2 B3 B4 B5 B6 B7 B8 B9]. constructor; try congruence. unfold same_cur in *.
  destruct (cur_cache d1) as [c1|], (cur_cache d2) as [c2|], (cur_cache d3) as [c3|]; try done. destruct A8, B8. split; congruence.
Qed.

(** The cache record of the calling thread changes outside its bins. *)
Definition same_stacks (c c' : ThreadCache.v8m_thread_cache) : Prop := same_cache c c' /\ c'.(ThreadCache.mediums) = c.(ThreadCache.mediums).
Lemma reg_quiet d g t : t.(ThreadRegistry.t_cache) = d.(d_tls).(ThreadRegistry.t_cache) ->
  (d.(d_tls).(ThreadRegistry.t_cache) <> NULL -> same_stacks (ThreadRegistry.cache_at d.(d_reg) d.(d_tls).(ThreadRegistry.t_cache)) (ThreadRegistry.cache_at g d.(d_tls).(ThreadRegistry.t_cache))) ->
  quiet d (set_reg d g t).
Proof.
  intros Ht Hs. unfold NULL in *. constructor; try done; unfold same_cur, cur_cache; cbn; rewrite Ht; destruct (Z.eqb_spec d.(d_tls).(ThreadRegistry.t_cache) NULL) as [|Hn]; try done; destruct (Hs Hn) as [H1 H2]; [done|].
  cbn. by rewrite H2.
Qed.

Lemma set_cache_at g a c : ThreadRegistry.cache_at (ThreadRegistry.set_cache g a c) a = c.
Proof. apply ThreadRegistry.cache_at_some. cbn. by rewrite lookup_insert_eq. Qed.
Lemma same_stacks_refl c : same_stacks c c.
Proof. by split. Qed.

Lemma count_alloc_quiet d : quiet d (set_reg d (ThreadRegistry.v8m_dispatch_record_alloc d.(d_reg) d.(d_tls)) d.(d_tls)).
Proof.
  apply reg_quiet; [done|]. intros Hn. unfold ThreadRegistry.v8m_dispatch_record_alloc. destruct (ThreadRegistry.usable _ _); [|apply same_stacks_refl].
  rewrite set_cache_at. by split.
Qed.
Lemma count_free_quiet d : quiet d (set_reg d (ThreadRegistry.v8m_dispatch_record_free_cache d.(d_reg) d.(d_tls).(ThreadRegistry.t_cache)) d.(d_tls)).
Proof.
  apply reg_quiet; [done|]. intros Hn. unfold ThreadRegistry.v8m_dispatch_record_free_cache. destruct (ThreadRegistry.usable _ _); [|apply same_stacks_refl].
  rewrite set_cache_at. by split.
Qed.
Lemma predict_quiet d pc cls : quiet d (set_cur d (ThreadCache.v8m_thread_cache_predict_update (cur_cache d) pc cls)).
Proof.
  unfold set_cur, cur_cache. destruct (Z.eqb_spec d.(d_tls).(ThreadRegistry.t_cache) NULL) as [|Hn]; [apply api_quiet_refl|]. cbn.
  destruct (_ <=? cls); (apply reg_quiet; [done|]; intros _; rewrite set_cache_at; by split).
Qed.
Lemma lifetime_alloc_quiet d cfg tsc ptr pc : quiet d (set_reg d (Lifetime.v8m_thread_cache_lifetime_record_alloc cfg d.(d_reg) d.(d_tls) tsc ptr pc) d.(d_tls)).
Proof.
  apply reg_quiet; [done|]. intros Hn. unfold Lifetime.v8m_thread_cache_lifetime_record_alloc. destruct (_ =? NULL); [apply same_stacks_refl|].
  destruct (_ =? 0); [apply same_stacks_refl|]. destruct (negb _); [apply same_stacks_refl|]. rewrite set_cache_at. unfold Lifetime.record_sample.
  destruct (negb _); [by split|]. destruct (tsc =? 0); [by split|]. by destruct (negb _).
Qed.
Lemma lifetime_free_quiet d cfg mhz tsc ptr : quiet d (set_reg d (Lifetime.v8m_thread_cache_lifetime_record_free cfg mhz d.(d_reg) d.(d_tls) tsc ptr) d.(d_tls)).
Proof.
  apply reg_quiet; [done|]. intros Hn. unfold Lifetime.v8m_thread_cache_lifetime_record_free. destruct (_ =? NULL); [apply same_stacks_refl|].
  destruct (_ =? 0); [apply same_stacks_refl|]. destruct (negb _); [apply same_stacks_refl|]. destruct (list_find _ _) as [[i en]|]; [|apply same_stacks_refl].
  destruct (_ || _); [rewrite set_cache_at; by split|]. rewrite set_cache_at. by destruct (Lifetime.lifetime_bucket_for _ _) as [[j bs]|].
Qed.

End Inv.
End ApiInv.
