(* ===== verification/ApiAlloc.v ===== *)
(** Allocation through the public entry points ([Api]): the soft limit, the
    out-of-memory handler, the bootstrap buffer, and every function that hands out a
    block. *)

From S2P Require Import Prelude SizeClass Page Bump Config RemoteFree RegionMap PageHeap PageSource NumaPool SlabPage SlabPool SlabPoolSpec BuddyPool BuddyPoolSpec Large LargeSpec ThreadCache ThreadCacheSpec ThreadRegistry Lifetime Dispatch DispatchInv DispatchCache DispatchStep DispatchAlloc DispatchFree DispatchSpec DispatchKeep Api ApiInv.
Import SizeClass Page Config PageSource Dispatch DispatchInv DispatchCache DispatchStep DispatchAlloc DispatchFree DispatchSpec DispatchKeep Api ApiInv.

Module ApiAlloc.

Section Alloc.
Context `{PSL : PageSourceLaws} {PV : PageHeapView}.
Context (ext extd : list (Z * Z)) (m : bool) (image : Z * Z).
Notation dispatch_ok := (dispatch_ok ext extd m).
Notation api_ok := (api_ok ext extd m image).

(** What the program's handler must respect: it may release blocks of the program,
    but for those it spares, and set limits; blocks it asks for it gives back before
    it returns. *)
Context (call_handler : Z -> Z -> api -> api * Z).
Definition handler_spares (spared : owner -> Z -> Z -> Prop) : Prop := forall handler size st B L, api_ok st B L ->
  let st' := (call_handler handler size st).1 in
  exists B', api_ok st' B' L /\ later st B st' B' /\ (forall w p n, spared w p n -> B w p n -> B' w p n).
Definition spares_none : owner -> Z -> Z -> Prop := fun _ _ _ => False.
Definition handler_law : Prop := handler_spares spares_none.
Context (spared : owner -> Z -> Z -> Prop) (Hhandler : handler_spares spared).

(** The blocks [B'] left of [B]: those the handler spares, and all of them when none
    is installed. *)
Definition left_over (st : api) (B : owner -> Z -> Z -> Prop) (st' : api) (B' : owner -> Z -> Z -> Prop) : Prop :=
  (forall w p n, spared w p n -> B w p n -> B' w p n) /\
  (st.(g_oom_handler) = NULL -> (forall w p n, B w p n -> B' w p n) /\ st'.(g_oom_handler) = NULL).
Lemma left_same st B st' : st'.(g_oom_handler) = st.(g_oom_handler) -> left_over st B st' B.
Proof. intros He. split; [done|]. intros Hn. split; [done|congruence]. Qed.
Lemma left_trans st B st1 B1 st2 B2 : left_over st B st1 B1 -> left_over st1 B1 st2 B2 -> left_over st B st2 B2.
Proof. intros [S1 H1] [S2 H2]. split; [by auto|]. intros Hn. destruct (H1 Hn) as [A1 N1], (H2 N1) as [A2 N2]. split; [by auto|done]. Qed.

(** ** The soft limit *)

Lemma over_soft_limit_ok st B L size : api_ok st B L ->
  let '(st', over) := over_soft_limit st size in
  api_ok st' B L /\ later st B st' B /\ st'.(g_oom_handler) = st.(g_oom_handler) /\ st'.(g_soft_limit) = st.(g_soft_limit) /\ st'.(errno) = st.(errno) /\
  (over = false -> st.(g_soft_limit) <> 0 -> u64 (bytes_live st' + size) <= st.(g_soft_limit)) /\
  (over = true -> st.(g_soft_limit) <> 0 /\ st.(g_soft_limit) < u64 (bytes_live st' + size)).
Proof.
  intros Ok. unfold over_soft_limit. destruct (Z.eqb_spec st.(g_soft_limit) 0) as [H0|H0]; [split_and!; try done; apply later_refl|].
  destruct (Z.leb_spec (u64 (bytes_live st + size)) st.(g_soft_limit)) as [Hle|Hgt]; [split_and!; try done; apply later_refl|].
  destruct (still_ok ext extd m _ _ B (purge_drained_still ext extd m st.(g_dispatch)) (ao_dispatch _ _ _ _ _ _ _ Ok)) as (Hd & Hc & _).
  split; [by eapply ok_dispatch|]. split; [by apply later_dispatch|]. split_and!; [done|done|done| |].
  - intros Hf _. by apply Z.ltb_ge in Hf.
  - intros Ht. split; [done|]. by apply Z.ltb_lt in Ht.
Qed.

(** The limit is kept, [2 ^ 64] apart; and what is left once the parked memory went
    back to the page heap. *)
Definition within_limit (st : api) (size : Z) : bool := (st.(g_soft_limit) =? 0) || (u64 (bytes_live st + size) <=? st.(g_soft_limit)).
Definition purged (st : api) : api := set_dispatch st (v8m_dispatch_purge_drained st.(g_dispatch)).1.

Lemma over_soft_limit_eq st size : over_soft_limit st size = if within_limit st size then (st, false) else (purged st, negb (within_limit (purged st) size)).
Proof.
  unfold over_soft_limit, within_limit. change (g_soft_limit (purged st)) with st.(g_soft_limit). destruct (Z.eqb_spec st.(g_soft_limit) 0) as [E|E]; cbn [orb]; [done|].
  destruct (u64 (bytes_live st + size) <=? st.(g_soft_limit)); [done|]. f_equal. apply Z.ltb_antisym.
Qed.

(** The gate when no handler is installed. *)
Lemma gate_eq st size : st.(g_oom_handler) = NULL ->
  pre_alloc_soft_limit_gate call_handler st size =
    if within_limit st size then (st, true) else if within_limit (purged st) size then (purged st, true) else (set_errno (purged st) ENOMEM, false).
Proof.
  intros Hh. unfold pre_alloc_soft_limit_gate. rewrite over_soft_limit_eq. destruct (within_limit st size); [done|]. destruct (within_limit (purged st) size); [done|]. cbn [negb].
  assert (Hn : oom_handler_says_retry call_handler (purged st) size = (purged st, false)); [|by rewrite Hn].
  unfold oom_handler_says_retry. change (g_oom_handler (purged st)) with st.(g_oom_handler). rewrite Hh. by destruct (t_oom_in_handler _).
Qed.

(** What passes is within the limit, the handler notwithstanding. *)
Lemma gate_within st size : let '(st', ok) := pre_alloc_soft_limit_gate call_handler st size in ok = true -> within_limit st' size = true.
Proof.
  unfold pre_alloc_soft_limit_gate. rewrite over_soft_limit_eq. destruct (within_limit st size) eqn:E0; [by cbn; intros _|]. destruct (within_limit (purged st) size) eqn:E1; [by cbn; intros _|]. cbn [negb].
  destruct (oom_handler_says_retry call_handler (purged st) size) as [st1 [|]]; [|cbn; discriminate]. rewrite over_soft_limit_eq.
  destruct (within_limit st1 size) eqn:E2; [by cbn; intros _|]. destruct (within_limit (purged st1) size) eqn:E3; [by cbn; intros _|cbn; discriminate].
Qed.

Lemma says_retry_ok st B L size : api_ok st B L ->
  let '(st', _) := oom_handler_says_retry call_handler st size in exists B', api_ok st' B' L /\ later st B st' B' /\ left_over st B st' B'.
Proof.
  intros Ok. unfold oom_handler_says_retry. destruct (t_oom_in_handler st) eqn:Hin; [exists B; split; [done|]; split; [apply later_refl|by apply left_same]|].
  destruct (Z.eqb_spec st.(g_oom_handler) NULL) as [H0|H0]; [exists B; split; [done|]; split; [apply later_refl|by apply left_same]|].
  assert (Ok1 : api_ok (set_in_handler st true) B L) by (destruct Ok; by constructor).
  destruct (Hhandler st.(g_oom_handler) size _ B L Ok1) as (B' & Ok' & La & Hsp). destruct (call_handler _ _ _) as [st' retry]. cbn [fst] in *.
  exists B'. split; [destruct Ok'; by constructor|]. split; [|by split]. destruct La as [L1 L2 [L3 L3'] L4 L5 [L6 L6']]. by constructor; cbn.
Qed.

Lemma gate_ok st B L size : api_ok st B L ->
  let '(st', ok) := pre_alloc_soft_limit_gate call_handler st size in
  exists B', api_ok st' B' L /\ later st B st' B' /\ left_over st B st' B' /\ (ok = false -> st'.(errno) = ENOMEM).
Proof.
  intros Ok. unfold pre_alloc_soft_limit_gate. pose proof (over_soft_limit_ok st B L size Ok) as Ho. destruct (over_soft_limit st size) as [st1 over]. destruct Ho as (Ok1 & La1 & Hh & _).
  destruct over; cbn [negb]; [|exists B; split_and!; [done|done|by apply left_same|done]].
  pose proof (says_retry_ok st1 B L size Ok1) as Hr. destruct (oom_handler_says_retry call_handler st1 size) as [st2 retry]. destruct Hr as (B2 & Ok2 & La2 & Lo).
  assert (La : later st B st2 B2) by (by eapply later_trans). assert (Lo' : left_over st B st2 B2) by (eapply left_trans; [by apply left_same|done]).
  destruct retry.
  - pose proof (over_soft_limit_ok st2 B2 L size Ok2) as Ho. destruct (over_soft_limit st2 size) as [st3 over]. destruct Ho as (Ok3 & La3 & Hh3 & _).
    assert (La' : later st B st3 B2) by (by eapply later_trans). assert (Lo3 : left_over st B st3 B2) by (eapply left_trans; [exact Lo'|by apply left_same]).
    destruct over; cbn [negb]; exists B2; [split; [by apply ok_errno|]; split; [by apply later_errno|done]|by split_and!].
  - exists B2. split; [by apply ok_errno|]. split; [by apply later_errno|done].
Qed.

(** ** A block from the dispatcher *)

Definition obtains (st : api) (B : owner -> Z -> Z -> Prop) (L : list (Z * Z)) (size al : Z) (r : option (api * Z)) : Prop :=
  exists st' p B1, r = Some (st', p) /\ later st B st' B1 /\ left_over st B st' B1 /\
    ((p = NULL /\ api_ok st' B1 L) \/ (p <> NULL /\ exists w n, size <= n /\ (al | p) /\ free_of B1 p n /\ api_ok st' (add_block B1 w p n) L)).

Lemma attempt_ok alloc e st B L size al : api_ok st B L ->
  (forall d, dispatch_ok d B -> gives ext extd m d B size al (alloc (env_of st e) d)) ->
  exists st' p, attempt alloc e st = Some (st', p) /\ later st B st' B /\ st'.(g_oom_handler) = st.(g_oom_handler) /\
    ((p = NULL /\ api_ok st' B L) \/ (p <> NULL /\ exists w n, size <= n /\ (al | p) /\ free_of B p n /\ api_ok st' (add_block B w p n) L)).
Proof.
  intros Ok Hg. destruct (Hg _ (ao_dispatch _ _ _ _ _ _ _ Ok)) as (d & p & He & Hc & Hr). unfold attempt. rewrite He. exists (set_dispatch st d), p.
  split; [done|]. split; [by apply later_dispatch|]. split; [done|]. destruct Hr as [[-> Hd]|(Hp & w & n & H1 & H2 & H3 & Hd)]; [left|right].
  - split; [done|]. by eapply ok_dispatch.
  - split; [done|]. exists w, n. split_and!; [done|done|done|]. by eapply ok_dispatch.
Qed.

Lemma caller_pc_ok st B L pc : api_ok st B L -> api_ok (set_caller_pc st pc) B L /\ later st B (set_caller_pc st pc) B.
Proof. intros Ok. by apply quiet_ok; [|apply quiet_cur]. Qed.

Lemma later_pc st B st' B' pc : later st B st' B' -> later st B (set_caller_pc st' pc) B'.
Proof. intros [L1 L2 L3 L4 L5 L6]. constructor; try done. Qed.

Lemma retry_ok alloc e st B L size al : api_ok st B L ->
  (forall st1 de d B1, st1.(v8m_config) = st.(v8m_config) -> de = e.(ce_denv) \/ de = e.(ce_retry) -> dispatch_ok d B1 -> gives ext extd m d B1 size al (alloc (env_of st1 de) d)) ->
  obtains st B L size al (alloc_with_retry call_handler alloc e st size).
Proof.
  intros Ok Hg. unfold alloc_with_retry. destruct (caller_pc_ok st B L e.(ce_caller_pc) Ok) as [Ok0 La0].
  assert (Hfin : forall st2 B2 p, later st B st2 B2 -> left_over st B st2 B2 ->
    ((p = NULL /\ api_ok st2 B2 L) \/ (p <> NULL /\ exists w n, size <= n /\ (al | p) /\ free_of B2 p n /\ api_ok st2 (add_block B2 w p n) L)) ->
    obtains st B L size al (Some (set_caller_pc st2 NULL, p))).
  { intros st2 B2 p La Lo Hr. exists (set_caller_pc st2 NULL), p, B2. split; [done|]. split; [by apply later_pc|]. split; [done|].
    destruct Hr as [[-> Ok2]|(Hp & w & n & H1 & H2 & H3 & Ok2)]; [left; split; [done|]; by apply caller_pc_ok|right]. split; [done|]. exists w, n. split_and!; [done|done|done|]. by apply caller_pc_ok. }
  destruct (attempt_ok alloc e.(ce_denv) _ B L size al Ok0) as (st1 & p & -> & La1 & Hh & Hr); [intros d Hd; apply Hg; [done|by left|done]|].
  assert (La : later st B st1 B) by (by eapply later_trans). destruct (Z.eqb_spec p NULL) as [->|Hp].
  2: { apply (Hfin st1 B p); [done|by apply left_same|done]. }
  destruct Hr as [[_ Ok1]|[? _]]; [|done]. pose proof (says_retry_ok st1 B L size Ok1) as Hs.
  destruct (oom_handler_says_retry call_handler st1 size) as [st2 retry]. destruct Hs as (B2 & Ok2 & La2 & Lo2).
  assert (La' : later st B st2 B2) by (by eapply later_trans). assert (Lo' : left_over st B st2 B2) by (eapply left_trans; [by apply left_same|done]).
  destruct retry; [|apply (Hfin st2 B2 NULL); [done|done|by left]].
  destruct (attempt_ok alloc e.(ce_retry) st2 B2 L size al Ok2) as (st3 & p & -> & La3 & Hh3 & Hr3); [intros d Hd; apply Hg; [apply La'|by right|done]|].
  apply (Hfin st3 B2 p); [by eapply later_trans|eapply left_trans; [exact Lo'|by apply left_same]|done].
Qed.

(** The bookkeeping after an allocation. *)
Lemma clear_record_ok st B L p : api_ok st B L -> api_ok (debug_clear_double_free_record st p) B L /\ later st B (debug_clear_double_free_record st p) B.
Proof.
  intros Ok. unfold debug_clear_double_free_record. destruct (p =? NULL); [split; [done|apply later_refl]|]. destruct (list_find _ _) as [[i x]|]; [|split; [done|apply later_refl]].
  split; [apply ok_ring; [done|by rewrite length_insert]|apply later_ring].
Qed.

Lemma post_record_ok e st B L p pc size : api_ok st B L ->
  api_ok (post_alloc_record e st p pc size) B L /\ later st B (post_alloc_record e st p pc size) B.
Proof.
  intros Ok. unfold post_alloc_record. set (st1 := if debug_on st then _ else st).
  assert (H1 : api_ok st1 B L /\ later st B st1 B) by (unfold st1; destruct (debug_on st); [by apply clear_record_ok|split; [done|apply later_refl]]).
  destruct H1 as [Ok1 La1]. cbn zeta. set (st2 := on_reg st1 _). destruct (quiet_ok ext extd m image st1 B L _ Ok1 (count_alloc_quiet st1.(g_dispatch))) as [Ok2 La2]. fold (on_reg st1 (fun g => ThreadRegistry.v8m_dispatch_record_alloc g st1.(g_dispatch).(d_tls))) in Ok2, La2. fold st2 in Ok2, La2.
  destruct (quiet_ok ext extd m image st2 B L _ Ok2 (predict_quiet st2.(g_dispatch) pc (v8m_size_class size))) as [Ok3 La3]. set (st3 := set_dispatch st2 _) in *.
  destruct (quiet_ok ext extd m image st3 B L _ Ok3 (lifetime_alloc_quiet st3.(g_dispatch) st3.(v8m_config) e.(ce_tsc) p pc)) as [Ok4 La4].
  split; [exact Ok4|]. eapply later_trans; [exact La1|]. eapply later_trans; [exact La2|]. eapply later_trans; [exact La3|exact La4].
Qed.

Lemma obtains_after st B st1 B1 L size al r : later st B st1 B1 -> left_over st B st1 B1 -> obtains st1 B1 L size al r -> obtains st B L size al r.
Proof.
  intros La Lo (st' & p & B2 & He & La2 & Lo2 & Hr). exists st', p, B2. split; [done|]. split; [by eapply later_trans|]. split; [by eapply left_trans|done].
Qed.

(** ** The bootstrap buffer *)

(** The buffer holds [size] more bytes, rounded up to 16. *)
Definition boot_room (st : api) (size : Z) : Prop :=
  size <= Bump.V8M_BOOTSTRAP_SIZE /\ st.(v8m_bootstrap_bump).(Bump.offset) + round_up_mask size 16 <= Bump.V8M_BOOTSTRAP_SIZE.

Lemma bootstrap_ok st B L size : api_ok st B L -> 0 < size < 2 ^ 64 ->
  match bootstrap_alloc st size with
  | Some (st', p) => boot_room st size /\ p <> NULL /\ (16 | p) /\ Bump.v8m_ptr_is_bootstrap st'.(v8m_bootstrap_bump) p = true /\ api_ok st' B ((p, size) :: L) /\
      st'.(g_dispatch) = st.(g_dispatch) /\ st'.(bootstrap_mem) = st.(bootstrap_mem) /\ st'.(g_init_state) = st.(g_init_state)
  | None => ~ boot_room st size
  end.
Proof.
  intros Ok Hs. pose proof Ok as [O1 O2 [Sb Ho] O4 O5 O6 O7 O8]. pose proof Sb as [W Hz Hi]. set (b := st.(v8m_bootstrap_bump)) in *. unfold bootstrap_alloc, Bump.v8m_bootstrap_alloc. fold b.
  assert (Hslot : 0 < size <= Bump.V8M_BOOTSTRAP_SIZE -> Bump.slot_size b size = round_up_mask size 16 /\ size <= round_up_mask size 16).
  { intros H0. destruct (Bump.slot_size_bounds b 4 size W ltac:(rewrite Hz; lia)) as (_ & H1 & H2). unfold Bump.slot_size in *. rewrite (Bump.wf_align _ _ W) in *. change (2 ^ 4) with 16 in *.
    destruct (round_up_mask_bounds size 4) as [_ Hb]; [lia|change Bump.V8M_BOOTSTRAP_SIZE with 262144 in *; lia..|]. change (2 ^ 4) with 16 in Hb. rewrite (proj2 (Z.eqb_neq _ 0)) in * by lia. lia. }
  unfold boot_room. fold b. destruct (Bump.bump_alloc_cases b 4 size W ltac:(lia)) as [(H1 & He)|[(H1 & H2 & He)|(H1 & H2 & He)]]; [change Bump.V8M_BOOTSTRAP_SIZE with 262144 in *; lia|..]; rewrite He, Hz in *; cbn [Z.eqb NULL].
  - cbn. lia.
  - cbn. destruct Hslot as [E _]; [lia|]. lia.
  - destruct Hslot as [E Hle]; [lia|]. destruct W as [Wk Wa Wb Ws We Wba W0 Woa]. rewrite (proj2 (Z.eqb_neq _ NULL)) by (unfold NULL; lia).
    assert (S' : static_ok image (Bump.set_offset b (b.(Bump.offset) + Bump.slot_size b size)) Bump.V8M_BOOTSTRAP_SIZE).
    { constructor; [|done|done]. apply Bump.wf_advance; [by constructor|]. rewrite Hz. lia. }
    split_and!; [done|lia|unfold NULL; lia|by apply Z.divide_add_r| | |done|done|done].
    + apply (bump_owns image _ _ _ S'). cbn. lia.
    + constructor; cbn; [done|done|split; [done|lia]| | |done|done|done].
      * intros x [->|Hx]%elem_of_cons; [cbn; lia|]. specialize (O4 x Hx). lia.
      * assert (Hnew : forall i x, L !! i = Some x -> x.1 + x.2 <= b.(Bump.buffer) + b.(Bump.offset)) by (intros i x Hx; apply list_elem_of_lookup_2 in Hx; specialize (O4 x Hx); lia).
        intros [|i] [|j] x y Hx Hy Hne; cbn in *; [done| | |by eapply O5; eauto].
        -- injection Hx as <-. right. cbn. by eapply Hnew.
        -- injection Hy as <-. left. cbn. by eapply Hnew.
Qed.

(** ** [v8m_malloc] *)

Definition fueled (e : call_env) : Prop := (0 < e.(ce_denv).(de_fuel))%nat /\ (0 < e.(ce_retry).(de_fuel))%nat.
Definition says_enomem (r : option (api * Z)) : Prop := forall st', r = Some (st', NULL) -> st'.(errno) = ENOMEM.

Lemma obtains_null st B L size al st' B' : later st B st' B' -> left_over st B st' B' -> api_ok st' B' L -> obtains st B L size al (Some (st', NULL)).
Proof. intros La Lo Ok. exists st', NULL, B'. split_and!; [done|done|done|by left]. Qed.

Lemma obtains_record e st B L size al r pc : obtains st B L size al r ->
  match r with
  | Some (st', p) => obtains st B L size al (Some (if p =? NULL then set_errno st' ENOMEM else post_alloc_record e st' p pc size, p))
  | None => False
  end.
Proof.
  intros (st' & p & B1 & -> & La & Lo & Hr). destruct (Z.eqb_spec p NULL) as [->|Hp].
  - destruct Hr as [[_ Ok]|[? _]]; [|done]. eapply obtains_null; [by apply later_errno|exact Lo|by apply ok_errno].
  - destruct Hr as [[? _]|(_ & w & n & H1 & H2 & H3 & Ok)]; [done|]. destruct (post_record_ok e st' _ L p pc size Ok) as [Ok' La'].
    exists (post_alloc_record e st' p pc size), p, B1. split; [done|]. assert (La2 : later st' B1 (post_alloc_record e st' p pc size) B1).
    { destruct La' as [_ Hc ? ? ? ?]. constructor; try done. eapply contents_sub; [|exact Hc]. intros w' q k Hq. by left. }
    split; [by eapply later_trans|]. split; [|right; split; [done|]; exists w, n; by split_and!].
    destruct Lo as [Lsp Lo]. split; [exact Lsp|]. intros Hn. destruct (Lo Hn) as [H4 H5]. split; [done|]. rewrite <- H5. unfold post_alloc_record, debug_clear_double_free_record.
    destruct (debug_on st'); cbn; [|done]. destruct (p =? NULL); cbn; [done|]. by destruct (list_find _ _) as [[i x]|].
Qed.

Lemma do_malloc_ok e st B L size : api_ok st B L -> dispatch_ready st = true -> 0 <= size < 2 ^ 64 -> fueled e ->
  obtains st B L size 8 (do_malloc_pc call_handler e st size) /\ says_enomem (do_malloc_pc call_handler e st size).
Proof.
  intros Ok Hr Hs [Hf1 Hf2]. unfold do_malloc_pc. rewrite Hr. cbn [negb]. pose proof (gate_ok st B L size Ok) as Hg.
  destruct (pre_alloc_soft_limit_gate call_handler st size) as [st1 ok]. destruct Hg as (B1 & Ok1 & La1 & Lo1 & He).
  destruct ok; cbn [negb]; [|split; [by eapply obtains_null|intros st' [= <-]; by apply He]].
  assert (Ho : obtains st1 B1 L size 8 (alloc_with_retry call_handler (fun de d => v8m_dispatch_alloc pv_cpu_of de d size) e st1 size)).
  { apply retry_ok; [done|]. intros st2 de d B2 _ Hde Hd. apply dispatch_alloc_gives; [done|done|]. by destruct Hde as [->| ->]. }
  pose proof (obtains_record e _ _ _ _ _ _ e.(ce_caller_pc) Ho) as Hrec. destruct (alloc_with_retry _ _ _ _ _) as [[st2 p]|]; [|done]. split.
  - eapply obtains_after; [exact La1|exact Lo1|]. by destruct (Z.eqb_spec p NULL) as [->|].
  - intros st'. destruct (Z.eqb_spec p NULL) as [->|Hp]; intros [= <-]; done.
Qed.

End Alloc.
End ApiAlloc.
