(* ===== verification/ApiServe.v ===== *)
(** Allocation through the public entry points ([Api]), function by function: the
    inline path of [v8m_malloc], and the aligned family. *)

From S2P Require Import Prelude SizeClass Page Bump Config RemoteFree RegionMap Anchor PageHeap PageSource NumaPool SlabPage SlabPool SlabPoolSpec BuddyPool BuddyPoolSpec Large LargeSpec ThreadCache ThreadCacheSpec ThreadRegistry Lifetime Dispatch DispatchInv DispatchCache DispatchStep DispatchAlloc DispatchFree DispatchSpec DispatchKeep Api ApiInv ApiAlloc.
Import SizeClass Page Config PageSource Dispatch DispatchInv DispatchCache DispatchStep DispatchAlloc DispatchFree DispatchSpec DispatchKeep Api ApiInv ApiAlloc.

Module ApiServe.

(** Powers of two in a 64-bit word. *)
Lemma is_pow2_spec v : 0 <= v < 2 ^ 64 -> is_pow2 v = true <-> exists j, 0 <= j < 64 /\ v = 2 ^ j.
Proof.
  intros Hv. unfold is_pow2. rewrite andb_true_iff, negb_true_iff, Z.eqb_neq, Z.eqb_eq. split.
  - intros [H0 H1]. destruct (Anchor.pow2_test v ltac:(lia) H1) as (j & Hj & ->). exists j. split; [|done]. split; [done|]. apply (Z.pow_lt_mono_r_iff 2); lia.
  - intros (j & Hj & ->). pose proof (Z.pow_pos_nonneg 2 j). split; [lia|]. rewrite land_mask_low by lia. apply Z.mod_same. lia.
Qed.

Section Serve.
Context `{PSL : PageSourceLaws} {PV : PageHeapView}.
Context (ext extd : list (Z * Z)) (m : bool) (image : Z * Z).
Notation dispatch_ok := (dispatch_ok ext extd m).
Notation api_ok := (api_ok ext extd m image).
Context (call_handler : Z -> Z -> api -> api * Z) (spared : owner -> Z -> Z -> Prop) (Hhandler : handler_spares ext extd m image call_handler spared).
Notation obtains := (obtains ext extd m image spared).

(** A block obtained serves a smaller request, and a weaker alignment. *)
Lemma obtains_weaken st B L size al size' al' r : size' <= size -> (al' | al) -> obtains st B L size al r -> obtains st B L size' al' r.
Proof.
  intros Hs Ha (st' & p & B1 & He & La & Lo & Hr). exists st', p, B1. split; [done|]. split; [done|]. split; [done|].
  destruct Hr as [Hr|(Hp & w & n & H1 & H2 & H3)]; [by left|right]. split; [done|]. exists w, n. split; [lia|]. split; [by eapply Z.divide_trans|done].
Qed.

(** ** [v8m_malloc] *)

(** The inline pop gives the top of the bin, or leaves the caches as they were. *)
Lemma inline_alloc_ok e d B c cls : dispatch_ok d B -> cur_cache d = Some c -> ThreadCacheSpec.slab_class cls ->
  let '(d', a) := tlc_alloc e d cls in contents B d d' /\
    ((a = NULL /\ dispatch_ok d' B) \/ (a <> NULL /\ exists w n, class_size cls <= n /\ (8 | a) /\ free_of B a n /\ dispatch_ok d' (add_block B w a n))).
Proof.
  intros (K & loc & KM & SL & LL & F & Ht & Hh) Hc Hs. destruct (K (Bin cls)) as [|a l] eqn:Hk.
  - destruct (tlc_alloc_none e d K loc (SL 0) c cls (fr_caches _ _ _ _ _ _ _ _ _ _ F) Hc Hs Hk) as (d' & -> & S & C & _).
    destruct (front_same _ _ _ K loc KM d d' SL LL B F S C) as [F' Hct]. split; [done|]. left. split; [done|]. by exists K, loc, KM, SL, LL.
  - destruct (tlc_alloc_gives ext extd m e K loc KM d SL LL B c cls a l 8 (class_size_8 cls Hs) ltac:(by exists 256) F Ht Hh Hc Hs Hk) as ((d' & p & He & Hct & Hr) & _ & _). injection He as ->. by split.
Qed.

Lemma malloc_ok e st B L size : api_ok st B L -> dispatch_ready st = true -> 0 <= size < 2 ^ 64 -> fueled e ->
  obtains st B L size 8 (v8m_malloc call_handler e st size) /\ says_enomem (v8m_malloc call_handler e st size).
Proof.
  intros Ok Hr Hs Hf. unfold v8m_malloc. destruct (bool_decide _ && _ && _) eqn:Hfast; [|by eapply do_malloc_ok].
  apply andb_true_iff in Hfast as [[Hc%bool_decide_eq_true Hsz%Z.leb_le]%andb_true_iff _]. destruct (cur_cache st.(g_dispatch)) as [c|] eqn:Hcur; [|done].
  set (cls := v8m_size_class size) in *. rewrite (proj1 (ThreadCacheSpec.inline_same _ _ _ cls 0)), <- Hcur.
  assert (Hcls : ThreadCacheSpec.slab_class cls /\ size <= class_size cls).
  { destruct (Z.eq_dec size 0) as [->|H0]; [split; [split|]; by vm_compute|]. apply size_class_slab; lia. }
  pose proof (inline_alloc_ok (env_of st e.(ce_denv)) _ B c cls (ao_dispatch _ _ _ _ _ _ _ Ok) Hcur (proj1 Hcls)) as Hi. unfold tlc_alloc in Hi.
  destruct (ThreadCache.v8m_thread_cache_alloc _ _ _ _) as [c' a]. destruct Hi as [Hct Ha]. set (st' := set_dispatch st _).
  assert (La : later st B st' B) by (by apply later_dispatch). destruct (Z.eqb_spec a NULL) as [->|Hn]; cbn [negb].
  - destruct Ha as [[_ Hd]|[? _]]; [|done]. assert (Ok' : api_ok st' B L) by (by eapply ok_dispatch).
    destruct (do_malloc_ok ext extd m image call_handler spared Hhandler e st' B L size Ok' Hr Hs Hf) as [Ho He]. split; [|done].
    eapply obtains_after; [exact La|by apply left_same|exact Ho].
  - destruct Ha as [[? _]|(_ & w & n & H1 & H2 & H3 & Hd)]; [done|]. split; [|intros st2 [= _ ?]; done]. exists st', a, B. split; [done|]. split; [done|]. split; [by apply left_same|].
    right. split; [done|]. exists w, n. split; [lia|]. split_and!; [done|done|]. by eapply ok_dispatch.
Qed.

(** ** Aligned requests *)

Lemma do_aligned_ok e st B L j size : api_ok st B L -> 0 <= size < 2 ^ 64 -> 0 <= j < 64 -> fueled e ->
  obtains st B L size (granted (2 ^ j) size) (do_aligned_alloc_pc call_handler e st (2 ^ j) size).
Proof.
  intros Ok Hs Hj [Hf1 Hf2]. unfold do_aligned_alloc_pc. pose proof (gate_ok ext extd m image call_handler spared Hhandler st B L size Ok) as Hg.
  destruct (pre_alloc_soft_limit_gate call_handler st size) as [st1 ok]. destruct Hg as (B1 & Ok1 & La1 & Lo1 & He).
  destruct ok; cbn [negb]; [|by eapply obtains_null].
  assert (Ho : obtains st1 B1 L size (granted (2 ^ j) size) (alloc_with_retry call_handler (fun de d => v8m_dispatch_alloc_aligned pv_cpu_of de d size (2 ^ j)) e st1 size)).
  { apply retry_ok; [done|done|]. intros st2 de d B2 _ Hde Hd. apply aligned_gives; [done|done|done|]. by destruct Hde as [->| ->]. }
  pose proof (obtains_record ext extd m image spared e _ _ _ _ _ _ e.(ce_caller_pc) Ho) as Hrec. destruct (alloc_with_retry _ _ _ _ _) as [[st2 p]|] eqn:Hal; [|done].
  eapply obtains_after; [exact La1|exact Lo1|]. destruct (Z.eqb_spec p NULL) as [->|]; [exact Ho|exact Hrec].
Qed.

Lemma aligned_alloc_ok e st B L alignment size : api_ok st B L -> dispatch_ready st = true -> 0 <= size < 2 ^ 64 -> 0 <= alignment < 2 ^ 64 -> fueled e ->
  match is_pow2 alignment with
  | true => obtains st B L size (granted alignment size) (v8m_aligned_alloc call_handler e st alignment size) /\ says_enomem (v8m_aligned_alloc call_handler e st alignment size)
  | false => v8m_aligned_alloc call_handler e st alignment size = Some (set_errno st EINVAL, NULL)
  end.
Proof.
  intros Ok Hr Hs Ha Hf. unfold v8m_aligned_alloc. destruct (is_pow2 alignment) eqn:Hp; [|done]. cbn [negb]. rewrite Hr. cbn [negb].
  apply is_pow2_spec in Hp as (j & Hj & ->); [|done]. pose proof (do_aligned_ok e st B L j size Ok Hs Hj Hf) as (st' & p & B1 & -> & La & Lo & Hp).
  destruct (Z.eqb_spec p NULL) as [->|Hn].
  - split; [|by intros st2 [= <-]]. destruct Hp as [[_ Ok']|[? _]]; [|done]. eapply obtains_null; [by apply later_errno|exact Lo|by apply ok_errno].
  - split; [by exists st', p, B1|]. by intros st2 [= _ ?].
Qed.

Lemma posix_memalign_ok e st B L memptr alignment size : api_ok st B L -> dispatch_ready st = true -> 0 <= size < 2 ^ 64 -> 0 <= alignment < 2 ^ 64 -> fueled e ->
  match memptr && is_pow2 alignment && (alignment mod 8 =? 0) with
  | true => exists st' p rc, v8m_posix_memalign call_handler e st memptr alignment size = Some (st', p, rc) /\
      obtains st B L size (granted alignment size) (Some (st', default NULL p)) /\ ((p = None /\ rc = ENOMEM) \/ (is_Some p /\ p <> Some NULL /\ rc = 0))
  | false => v8m_posix_memalign call_handler e st memptr alignment size = Some (st, None, EINVAL)
  end.
Proof.
  intros Ok Hr Hs Ha Hf. unfold v8m_posix_memalign. destruct memptr; cbn [negb andb]; [|done]. destruct (is_pow2 alignment) eqn:Hp; cbn [negb orb andb]; [|done]. destruct (alignment mod 8 =? 0); cbn [negb]; [|done].
  rewrite Hr. cbn [negb]. apply is_pow2_spec in Hp as (j & Hj & ->); [|done]. pose proof (do_aligned_ok e st B L j size Ok Hs Hj Hf) as Ho. pose proof Ho as (st' & p & B1 & He & _).
  rewrite He in *. destruct (Z.eqb_spec p NULL) as [->|Hn].
  - exists st', None, ENOMEM. split_and!; [done|done|by left].
  - exists st', (Some p), 0. split_and!; [done|done|]. right. split_and!; [by eexists|congruence|done].
Qed.

(** The system's pages are [2^k] bytes. *)
Lemma valloc_ok e st B L k size : api_ok st B L -> dispatch_ready st = true -> 0 <= size < 2 ^ 64 -> 4 < k < 63 -> fueled e ->
  obtains st B L size (2 ^ k) (v8m_valloc call_handler e st (2 ^ k) size) /\ says_enomem (v8m_valloc call_handler e st (2 ^ k) size).
Proof.
  intros Ok Hr Hs Hk Hf. unfold v8m_valloc. pose proof (Z.pow_lt_mono_r 2 4 k ltac:(lia) ltac:(lia) ltac:(lia)) as H16. pose proof (Z.pow_lt_mono_r 2 k 64 ltac:(lia) ltac:(lia) ltac:(lia)).
  rewrite (proj2 (Z.leb_gt _ _)) by lia. pose proof (aligned_alloc_ok e st B L (2 ^ k) size Ok Hr Hs ltac:(lia) Hf) as Hal.
  rewrite (proj2 (is_pow2_spec (2 ^ k) ltac:(lia))) in Hal by (exists k; split; [lia|done]). unfold granted in Hal. change V8M_MALLOC_NATURAL_ALIGN with (2 ^ 4) in Hal. rewrite (proj2 (Z.eqb_neq (2 ^ k) (2 ^ 4))) in Hal by lia. exact Hal.
Qed.

(** The least whole number of pages of [page] bytes, at least one, that covers
    [size]. *)
Definition whole_pages (page size want : Z) : Prop :=
  (page | want) /\ 0 < want /\ size <= want /\ forall k, (page | k) -> 0 < k -> size <= k -> want <= k.

Lemma whole_pages_up page size : 0 < page -> 0 <= size -> whole_pages page size (page * ((Z.max size 1 + page - 1) / page)).
Proof.
  intros Hp Hs. set (s := Z.max size 1). pose proof (Z.div_mod (s + page - 1) page ltac:(lia)) as Hd. pose proof (Z.mod_pos_bound (s + page - 1) page Hp) as Hm.
  set (q := (s + page - 1) / page) in *. split; [by exists q; lia|]. split_and!; [lia|lia|]. intros k [j ->] H0 Hk. rewrite (Z.mul_comm j). apply Z.mul_le_mono_nonneg_l; [lia|].
  assert (s <= j * page) by lia. apply Z.lt_succ_r. apply (Z.mul_lt_mono_pos_r page); [done|]. unfold Z.succ. lia.
Qed.

(** The rounding of [v8m_pvalloc]. *)
Lemma pvalloc_rounds e st k size : 0 <= size < 2 ^ 64 -> 4 < k < 63 ->
  let want := 2 ^ k * ((Z.max size 1 + 2 ^ k - 1) / 2 ^ k) in
  v8m_pvalloc call_handler e st (2 ^ k) size = if want <? 2 ^ 64 then v8m_aligned_alloc call_handler e st (2 ^ k) want else Some (set_errno st ENOMEM, NULL).
Proof.
  intros Hs Hk. pose proof (Z.pow_lt_mono_r 2 4 k ltac:(lia) ltac:(lia) ltac:(lia)) as H16. pose proof (Z.pow_lt_mono_r 2 k 63 ltac:(lia) ltac:(lia) ltac:(lia)) as H63.
  cbn zeta. unfold v8m_pvalloc. rewrite (proj2 (Z.ltb_lt 0 (2 ^ k))) by lia. set (sz := if size =? 0 then 2 ^ k else size).
  assert (Hsz : 0 < sz < 2 ^ 64 /\ (sz + 2 ^ k - 1) / 2 ^ k = (Z.max size 1 + 2 ^ k - 1) / 2 ^ k).
  { unfold sz. destruct (Z.eqb_spec size 0) as [->|]; [|rewrite Z.max_l by lia; split; [lia|done]]. split; [lia|]. rewrite Z.max_r by lia.
    transitivity 1; [symmetry; apply (Z.div_unique _ _ 1 (2 ^ k - 1)); lia|apply (Z.div_unique _ _ 1 0); lia]. }
  destruct Hsz as [Hsz <-]. clearbody sz. unfold SIZE_MAX in *. set (q := (sz + 2 ^ k - 1) / 2 ^ k) in *.
  assert (Hq : sz <= 2 ^ k * q < sz + 2 ^ k) by (pose proof (Z.div_mod (sz + 2 ^ k - 1) (2 ^ k) ltac:(lia)); pose proof (Z.mod_pos_bound (sz + 2 ^ k - 1) (2 ^ k) ltac:(lia)); unfold q; lia).
  assert (Hdiv : 2 ^ 64 = 2 ^ k * 2 ^ (64 - k)) by (rewrite <- Z.pow_add_r by lia; f_equal; lia). destruct (Z.ltb_spec (2 ^ k * q) (2 ^ 64)) as [Hw|Hw].
  - assert (Hle : sz + 2 ^ k <= 2 ^ 64).
    { assert (q + 1 <= 2 ^ (64 - k)) by nia. assert (2 ^ k * q + 2 ^ k <= 2 ^ 64) by nia. unfold q in *. pose proof (Z.div_mod (sz + 2 ^ k - 1) (2 ^ k) ltac:(lia)). lia. }
    destruct (Z.ltb_spec (2 ^ 64 - 1 - (2 ^ k - 1)) sz) as [|_]; [lia|].
    set (rounded := Z.land _ _). assert (E : rounded = 2 ^ k * q); [|by rewrite E].
    unfold rounded, q. rewrite land_mask_clear; [|lia|apply u64_range]. unfold u64. rewrite Zminus_mod_idemp_l.
    replace (sz + 2 ^ k - 1) with (sz + (2 ^ k - 1)) by lia. rewrite Z.mod_small by lia. pose proof (Z.div_mod (sz + (2 ^ k - 1)) (2 ^ k) ltac:(lia)). lia.
  - destruct (Z.ltb_spec (2 ^ 64 - 1 - (2 ^ k - 1)) sz) as [|Hle]; [done|]. exfalso. lia.
Qed.

Lemma pvalloc_ok e st B L k size : api_ok st B L -> dispatch_ready st = true -> 0 <= size < 2 ^ 64 -> 4 < k < 63 -> fueled e ->
  exists want, whole_pages (2 ^ k) size want /\
  if want <? 2 ^ 64 then
    v8m_pvalloc call_handler e st (2 ^ k) size = v8m_aligned_alloc call_handler e st (2 ^ k) want /\
    obtains st B L want (2 ^ k) (v8m_pvalloc call_handler e st (2 ^ k) size) /\ says_enomem (v8m_pvalloc call_handler e st (2 ^ k) size)
  else v8m_pvalloc call_handler e st (2 ^ k) size = Some (set_errno st ENOMEM, NULL).
Proof.
  intros Ok Hr Hs Hk Hf. pose proof (Z.pow_lt_mono_r 2 4 k ltac:(lia) ltac:(lia) ltac:(lia)) as H16. pose proof (Z.pow_lt_mono_r 2 k 63 ltac:(lia) ltac:(lia) ltac:(lia)).
  pose proof (whole_pages_up (2 ^ k) size ltac:(lia) ltac:(lia)) as Hw. eexists. split; [exact Hw|]. rewrite (pvalloc_rounds e st k size Hs Hk). destruct Hw as (_ & Hpos & _).
  destruct (Z.ltb_spec (2 ^ k * ((Z.max size 1 + 2 ^ k - 1) / 2 ^ k)) (2 ^ 64)) as [Hlt|]; [|done]. split; [done|].
  set (want := 2 ^ k * _) in *. pose proof (aligned_alloc_ok e st B L (2 ^ k) want Ok Hr ltac:(lia) ltac:(lia) Hf) as Hal.
  rewrite (proj2 (is_pow2_spec (2 ^ k) ltac:(lia))) in Hal by (exists k; split; [lia|done]). unfold granted in Hal. change V8M_MALLOC_NATURAL_ALIGN with (2 ^ 4) in Hal. rewrite (proj2 (Z.eqb_neq (2 ^ k) (2 ^ 4))) in Hal by lia. exact Hal.
Qed.

End Serve.
End ApiServe.
