(* ===== verification/ApiFree.v ===== *)
(** Release through the public entry points ([Api]): the inline path of [v8m_free],
    its slow path and the invariant after both. *)

From S2P Require Import Prelude SizeClass Page Bump Config RemoteFree RegionMap PageHeap PageSource NumaPool SlabPage SlabPool SlabPoolSpec BuddyPool BuddyPoolSpec Large LargeSpec ThreadCache ThreadCacheSpec ThreadRegistry Lifetime Dispatch DispatchInv DispatchCache DispatchStep DispatchAlloc DispatchFree DispatchSpec DispatchKeep Api ApiInv ApiAlloc ApiServe.
Import SizeClass Page Config PageSource Dispatch DispatchInv DispatchCache DispatchStep DispatchAlloc DispatchFree DispatchSpec DispatchKeep Api ApiInv ApiAlloc ApiServe.

Module ApiFree.

Section Free.
Context `{PSL : PageSourceLaws} {PV : PageHeapView}.
Context (ext extd : list (Z * Z)) (m : bool) (image : Z * Z).
Notation dispatch_ok := (dispatch_ok ext extd m).
Notation api_ok := (api_ok ext extd m image).

(** What a release of the block at [p] needs of the state: fuel for the lists of
    pages, and no page header forged below a buddy block. *)
Definition free_safe (e : call_env) (st : api) (w : owner) (p : Z) : Prop :=
  roomy st.(g_dispatch) e.(ce_denv).(de_fuel) /\ (w = InBuddy -> rd st.(g_dispatch).(d_buddy).(BuddyPool.bmem) (v8m_ptr_to_meta p) <> V8M_MAGIC).

Lemma quiet_safe e st d w p : quiet st.(g_dispatch) d -> free_safe e st w p -> free_safe e (set_dispatch st d) w p.
Proof.
  intros Q [Hr Hm]. split; [|cbn; by rewrite (qu_buddy _ _ Q)]. intros a Ha. specialize (Hr a Ha). unfold slab_pool_for_arena in *. cbn. by rewrite (qu_slab _ _ Q), (qu_lifetime _ _ Q).
Qed.

(** Some fuel is enough. *)
Lemma roomy_exists d : exists N, forall fuel, (N <= fuel)%nat -> roomy d fuel.
Proof.
  exists (1 + foldr Nat.max 0 ((fun a => size (slab_pool_for_arena d a).(SlabPool.pages)) <$> [0; 1; 2; 3]%Z))%nat. intros fuel Hf a Ha.
  apply arena_elem in Ha. assert (size (slab_pool_for_arena d a).(SlabPool.pages) <= foldr Nat.max 0 ((fun a => size (slab_pool_for_arena d a).(SlabPool.pages)) <$> [0; 1; 2; 3]%Z))%nat; [|lia].
  clear Hf. induction Ha; cbn in *; lia.
Qed.

(** ** The slow path *)

Lemma free_slow_ok e st B L w p n : api_ok st B L -> dispatch_ready st = true -> B w p n -> free_safe e st w p ->
  match v8m_free_slow e st p with
  | Some st' => api_ok st' (del_block B w p) L /\ later st B st' (del_block B w p)
  | None => (debug_on st = true /\ p ∈ st.(g_double_free_ring)) \/ (w = InLarge /\ ~ LargeSpec.zone_intact st.(g_dispatch).(d_large) (p, n))
  end.
Proof.
  intros Ok Hr Hp Hs. destruct (block_not_static ext extd m image st B L w p n Ok Hp) as (Hn & Hb & Hg). unfold v8m_free_slow.
  rewrite (proj2 (Z.eqb_neq _ _) Hn), Hb, Hg, Hr. cbn [negb].
  assert (Hring : match (if debug_on st && ps_owns st.(g_dispatch).(d_src) p then debug_check_double_free st p else Some st) with
    | Some st1 => api_ok st1 B L /\ later st B st1 B /\ free_safe e st1 w p /\ st1.(g_dispatch) = st.(g_dispatch)
    | None => debug_on st = true /\ p ∈ st.(g_double_free_ring) end).
  { destruct (debug_on st && _) eqn:Hd; [|split; [done|]; split; [apply later_refl|by split]]. apply andb_true_iff in Hd as [Hd _].
    unfold debug_check_double_free. destruct (bool_decide_reflect (p ∈ g_double_free_ring st)); [done|]. split; [apply ok_ring; [done|by rewrite length_insert]|].
    split; [apply later_ring|]. by split. }
  destruct (if debug_on st && _ then _ else _) as [st1|]; [|by left]. destruct Hring as (Ok1 & La1 & Hs1 & Ed). clear Ok.
  pose proof (lifetime_free_quiet st1.(g_dispatch) st1.(v8m_config) e.(ce_mhz) e.(ce_tsc) p) as Q. destruct (quiet_ok ext extd m image st1 B L _ Ok1 Q) as [Ok2 La2].
  pose proof (quiet_safe e st1 _ w p Q Hs1) as Hs2. fold (on_reg st1 (fun g => Lifetime.v8m_thread_cache_lifetime_record_free st1.(v8m_config) e.(ce_mhz) g st1.(g_dispatch).(d_tls) e.(ce_tsc) p)) in Ok2, La2, Hs2.
  assert (El : (g_dispatch (on_reg st1 (fun g => Lifetime.v8m_thread_cache_lifetime_record_free st1.(v8m_config) e.(ce_mhz) g st1.(g_dispatch).(d_tls) e.(ce_tsc) p))).(d_large) = st.(g_dispatch).(d_large)) by (cbn; by rewrite Ed).
  cbn zeta. set (st2 := on_reg st1 _) in *. clearbody st2. destruct Hs2 as [Hr2 Hm2].
  pose proof (dispatch_free_ok ext extd m (env_of st2 e.(ce_denv)) st2.(g_dispatch) B w p n (ao_dispatch _ _ _ _ _ _ _ Ok2) Hp Hr2 (ao_mode _ _ _ _ _ _ _ Ok2) Hm2) as Hf.
  destruct (v8m_dispatch_free _ _ _) as [[d r]|]; [|right; by rewrite <- El]. destruct Hf as (_ & Hd & Hc). split; [by eapply ok_dispatch|].
  assert (Hdel : forall w' q k, del_block B w p w' q k -> B w' q k) by (intros w' q k [? _]; done).
  eapply later_trans; [exact La1|]. eapply later_trans; [exact La2|]. by apply later_dispatch.
Qed.

(** ** The inline push *)

Lemma inline_free_ok e d B c cls p n : dispatch_ok d B -> cur_cache d = Some c -> ThreadCacheSpec.slab_class cls -> B (InSlab 0) p n ->
  SlabPoolSpec.of_class (pages_of d) cls p -> (ThreadCache.bin_at c cls).(ThreadCache.bin_count) + 1 < (ThreadCache.bin_at c cls).(ThreadCache.bin_capacity) ->
  let '(mm, c', _) := ThreadCache.v8m_thread_cache_free e.(de_tick) (words d) (cur_cache d) cls p in
  releases ext extd m d B (InSlab 0) p (set_cur (set_words d mm) c').
Proof.
  intros (K & loc & KM & SL & LL & F & Ht & Hh) Hc Hs Hp Hcl Hroom.
  destruct (tlc_free_front ext extd m e K loc KM d SL LL B c cls p n F Ht Hc Hs Hp Hcl) as (mm & c' & o & -> & F' & Hct & _ & _ & _). split; [|exact Hct].
  eexists _, _, _, _, _. split; [exact F'|]. pose proof (ca_bins _ _ _ _ (fr_caches _ _ _ _ _ _ _ _ _ _ F)) as Bh. unfold bins_held in Bh. rewrite Hc in Bh. destruct Bh as (Hb & Hcap & _). split.
  - intros i Hi. unfold putp. destruct (decide _) as [[= ->]|]; [|by apply Ht]. pose proof (proj1 (ThreadCacheSpec.bo_count _ _ _ Hb cls Hs)) as Hn. specialize (Hcap cls).
    unfold ThreadCache.V8M_BIN_CAPACITY_MAX in Hcap. cbn. lia.
  - intros i Hi. rewrite putp_ne by done. by apply Hh.
Qed.

Lemma api_free_ok e st B L w p n : api_ok st B L -> dispatch_ready st = true -> B w p n -> free_safe e st w p ->
  match v8m_free e st p with
  | Some st' => api_ok st' (del_block B w p) L /\ later st B st' (del_block B w p)
  | None => (debug_on st = true /\ p ∈ st.(g_double_free_ring)) \/ (w = InLarge /\ ~ LargeSpec.zone_intact st.(g_dispatch).(d_large) (p, n))
  end.
Proof.
  intros Ok Hr Hp Hs. destruct (block_not_static ext extd m image st B L w p n Ok Hp) as (Hn & _ & _). unfold v8m_free. rewrite (proj2 (Z.eqb_neq _ _) Hn). cbn zeta.
  pose proof (count_free_quiet st.(g_dispatch)) as Q. destruct (quiet_ok ext extd m image st B L _ Ok Q) as [Ok1 La1]. pose proof (quiet_safe e st _ w p Q Hs) as Hs1.
  fold (on_reg st (fun g => ThreadRegistry.v8m_dispatch_record_free_cache g st.(g_dispatch).(d_tls).(ThreadRegistry.t_cache))) in Ok1, La1, Hs1.
  assert (Hk1 : debug_on (on_reg st (fun g => ThreadRegistry.v8m_dispatch_record_free_cache g st.(g_dispatch).(d_tls).(ThreadRegistry.t_cache))) = debug_on st) by done.
  assert (El : (g_dispatch (on_reg st (fun g => ThreadRegistry.v8m_dispatch_record_free_cache g st.(g_dispatch).(d_tls).(ThreadRegistry.t_cache)))).(d_large) = st.(g_dispatch).(d_large)) by done.
  assert (Er : g_double_free_ring (on_reg st (fun g => ThreadRegistry.v8m_dispatch_record_free_cache g st.(g_dispatch).(d_tls).(ThreadRegistry.t_cache))) = st.(g_double_free_ring)) by done.
  assert (Es : dispatch_ready (on_reg st (fun g => ThreadRegistry.v8m_dispatch_record_free_cache g st.(g_dispatch).(d_tls).(ThreadRegistry.t_cache))) = true) by done.
  set (st1 := on_reg st _) in *. clearbody st1. destruct (pv_owns_fast _ _ _) as [oc owned].
  assert (Ok2 : api_ok (set_owns st1 oc) B L) by (by apply ok_owns). assert (La2 : later st B (set_owns st1 oc) B) by (destruct La1; by constructor).
  assert (Hs2 : free_safe e (set_owns st1 oc) w p) by done. rewrite <- Hk1, <- El, <- Er. change (debug_on st1) with (debug_on (set_owns st1 oc)). change (d_large (g_dispatch st1)) with (d_large (g_dispatch (set_owns st1 oc))).
  change (g_double_free_ring st1) with (g_double_free_ring (set_owns st1 oc)). change (dispatch_ready st1) with (dispatch_ready (set_owns st1 oc)) in Es.
  clear Hk1 El Er La1 Ok1 Hs1. set (st2 := set_owns st1 oc) in *. clearbody st2.
  assert (Hslow : match v8m_free_slow e st2 p with
    | Some st' => api_ok st' (del_block B w p) L /\ later st B st' (del_block B w p)
    | None => (debug_on st2 = true /\ p ∈ st2.(g_double_free_ring)) \/ (w = InLarge /\ ~ LargeSpec.zone_intact st2.(g_dispatch).(d_large) (p, n)) end).
  { pose proof (free_slow_ok e st2 B L w p n Ok2 Es Hp Hs2) as Hf. destruct (v8m_free_slow e st2 p); [|done]. destruct Hf as [H1 H2]. split; [done|]. by eapply later_trans. }
  destruct (cur_cache (g_dispatch st2)) as [c|] eqn:Hc; [|exact Hslow]. destruct (_ && _) eqn:Hfast; [|exact Hslow]. clear Hslow.
  apply andb_true_iff in Hfast as [[[[[_ _]%andb_true_iff Hv]%andb_true_iff Hcls%Z.ltb_lt]%andb_true_iff Har%Z.eqb_eq]%andb_true_iff Hroom%Z.ltb_lt].
  pose proof (ao_dispatch _ _ _ _ _ _ _ Ok2) as Hd. pose proof Hd as (K & loc & KM & SL & LL & F & _). pose proof (proj1 (fr_blocks _ _ _ _ _ _ _ _ _ _ F _ _ _) Hp) as [Hblk _].
  pose proof (fr_world _ _ _ _ _ _ _ _ _ _ F) as (O & D & Wa). destruct w as [a| |].
  - pose proof Hblk as (Ha & Hsp & _). destruct (slab_header _ _ _ _ _ _ _ _ _ _ a p F Ha Hsp) as (_ & Ha' & Hsc & Hcl & _). rewrite Har in Ha'. subst a. rewrite <- pages_of_pool in Hcl.
    rewrite (proj2 (ThreadCacheSpec.inline_same _ _ _ _ _)), <- Hc.
    pose proof (inline_free_ok (env_of st2 e.(ce_denv)) _ B c _ p n Hd Hc Hsc Hp Hcl Hroom) as Hf. destruct (ThreadCache.v8m_thread_cache_free _ _ _ _ _) as [[mm c'] o].
    destruct Hf as [Hd' Hct]. split; [by eapply ok_dispatch|]. eapply later_trans; [exact La2|]. apply later_dispatch; [by intros w' q k [? _]|done].
  - exfalso. cbn in Hblk. rewrite (meta_buddy _ _ _ _ _ _ _ _ p n Wa Hblk) in Hv. unfold v8m_page_meta_valid in Hv. cbn [magic word_meta] in Hv.
    by rewrite (proj2 (Z.eqb_neq _ _) (proj2 Hs2 eq_refl)), andb_false_r in Hv.
  - exfalso. cbn in Hblk. destruct (meta_large _ _ _ _ _ _ _ _ p n Wa Hblk) as (_ & Hsc & _). lia.
Qed.

End Free.
End ApiFree.
