(* ===== verification/ApiData.v ===== *)
(** The functions of the public entry points that store into the program's blocks
    ([Api]): [v8m_calloc] and [v8m_realloc]. *)

From S2P Require Import Prelude SizeClass Page Bump Config RemoteFree RegionMap PageHeap PageSource NumaPool SlabPage SlabPool SlabPoolSpec BuddyPool BuddyPoolSpec Large LargeSpec ThreadCache ThreadCacheSpec ThreadRegistry Lifetime Dispatch DispatchInv DispatchCache DispatchStep DispatchAlloc DispatchFree DispatchSpec DispatchKeep Api ApiInv ApiAlloc ApiServe ApiFree.
Import SizeClass Page Config PageSource Dispatch DispatchInv DispatchCache DispatchStep DispatchAlloc DispatchFree DispatchSpec DispatchKeep Api ApiInv ApiAlloc ApiServe ApiFree.

Module ApiData.

Section Data.
Context `{PSL : PageSourceLaws} {PV : PageHeapView}.
Context (ext extd : list (Z * Z)) (m : bool) (image : Z * Z).
Notation dispatch_ok := (dispatch_ok ext extd m).
Notation api_ok := (api_ok ext extd m image).
Context (call_handler : Z -> Z -> api -> api * Z) (spared : owner -> Z -> Z -> Prop) (Hhandler : handler_spares ext extd m image call_handler spared).
Notation obtains := (obtains ext extd m image spared).

(** The cells [0 .. n - 1] of the block at [p] read the same. *)
Definition same_data (st st' : api) (p n : Z) : Prop := forall off, 0 <= off < n -> peek st' p off = peek st p off.

Lemma peek_block st B L w p n off : api_ok st B L -> B w p n -> peek st p off = rd (mem_of st.(g_dispatch) w) (p + off).
Proof.
  intros Ok Hp. destruct (block_not_static ext extd m image st B L w p n Ok Hp) as (_ & Hb & _). unfold peek, load. rewrite Hb.
  by rewrite (owner_of_block ext extd m _ B w p n (ao_dispatch _ _ _ _ _ _ _ Ok) Hp).
Qed.

Lemma later_data st B1 L st' B2 L' B B' w p n : api_ok st B1 L -> api_ok st' B2 L' -> later st B st' B' -> B1 w p n -> B2 w p n -> B' w p n -> same_data st st' p n.
Proof.
  intros Ok Ok' La H1 H2 Hp off Ho. rewrite (peek_block st B1 L w p n off Ok H1), (peek_block st' B2 L' w p n off Ok' H2).
  apply (la_contents _ _ _ _ La w p n); [done|lia].
Qed.

(** A store of the program changes that cell only. *)
Lemma store_else d SL LL w p n b v : world ext extd m d SL LL -> block_at d SL LL w p n -> p <= b < p + n ->
  forall x, x <> b -> rd (mem_of (store d w b v) w) x = rd (mem_of d w) x.
Proof.
  intros W Hp Hb x Hx. destruct (store_world ext extd m d SL LL w p n b v W Hp Hb) as (_ & _ & Hm & _). apply Hm; [|congruence].
  destruct W as (O & D & Wa). by destruct (block_range _ _ _ _ _ _ _ _ _ _ _ Wa Hp).
Qed.

Lemma store_pages d w b v : length d.(d_slab_lifetime) = 3%nat -> owner_ok w -> same_slabs d (store d w b v).
Proof.
  intros Hl Hw c Hc. destruct w as [a| |]; try done. cbn [store].
  rewrite pool_set by done. by destruct (Z.eqb_spec c a) as [->|].
Qed.

Lemma poke_ok st B L w p n off v : api_ok st B L -> B w p n -> 0 <= off < n ->
  let st' := poke st p off v in
  api_ok st' B L /\ later st B st' (del_block B w p) /\ peek st' p off = v /\ (forall x, 0 <= x < n -> x <> off -> peek st' p x = peek st p x) /\
  same_slabs st.(g_dispatch) st'.(g_dispatch) /\ st' = set_dispatch st st'.(g_dispatch).
Proof.
  intros Ok Hp Ho. pose proof (ao_dispatch _ _ _ _ _ _ _ Ok) as Hd. destruct (block_not_static ext extd m image st B L w p n Ok Hp) as (_ & Hb & _).
  assert (He : poke st p off v = set_dispatch st (store st.(g_dispatch) w (p + off) v)) by (unfold poke; rewrite Hb; by rewrite (owner_of_block ext extd m _ B w p n Hd Hp)).
  cbn zeta. rewrite He. clear He. destruct (store_ok ext extd m _ B w p n (p + off) v Hd Hp ltac:(lia)) as (Hd' & Hc & Hv). pose proof Hd as (K & loc & KM & SL & LL & F & _).
  pose proof (proj1 (fr_blocks _ _ _ _ _ _ _ _ _ _ F _ _ _) Hp) as [Hblk _]. pose proof (fr_world _ _ _ _ _ _ _ _ _ _ F) as W.
  assert (Ok' : api_ok (set_dispatch st (store st.(g_dispatch) w (p + off) v)) B L) by (by eapply ok_dispatch). split; [done|].
  split; [apply later_dispatch; [by intros w' q k [? _]|done]|]. rewrite (peek_block _ B L w p n off Ok' Hp). split; [done|]. split_and!; [| |done].
  - intros x Hx Hne. rewrite (peek_block _ B L w p n x Ok' Hp), (peek_block _ B L w p n x Ok Hp). apply (store_else _ SL LL w p n); [done|done|lia|lia].
  - destruct W as (O & D & Wa). destruct (block_range _ _ _ _ _ _ _ _ _ _ _ Wa Hblk) as (Ow & _). apply store_pages; [apply (w_len _ _ _ _ _ _ _ _ Wa)|done].
Qed.

Lemma later_self st B w p : later st B st (del_block B w p).
Proof. constructor; try done. by intros w' q k [? _]. Qed.

(** A loop that stores [f] at the [k] cells of the block from [from] on.  Up to
    [lim], [f] reads what the loop leaves alone. *)
Lemma fill_ok (f : api -> Z -> Z) (val : Z -> Z) lim B L w p n k from st : api_ok st B L -> B w p n -> 0 <= from -> 0 <= k -> from + k <= n ->
  (forall st' x, api_ok st' B L -> later st B st' (del_block B w p) -> from <= x < from + k -> x < lim -> f st' x = val x) ->
  let st' := foldl (fun s off => poke s p off (f s off)) st (seqZ from k) in
  api_ok st' B L /\ later st B st' (del_block B w p) /\ (forall x, from <= x < from + k -> x < lim -> peek st' p x = val x) /\
  (forall x, 0 <= x < from -> peek st' p x = peek st p x) /\ same_slabs st.(g_dispatch) st'.(g_dispatch) /\ st' = set_dispatch st st'.(g_dispatch).
Proof.
  intros Ok Hp Hf Hk. rewrite <- (Z2Nat.id k Hk). generalize (Z.to_nat k) as j. clear Hk k. intros j. revert from st Ok Hf.
  induction j as [|j IH]; intros from st Ok Hf Hn Hval.
  - cbn. split; [done|]. split; [apply later_self|]. split_and!; [lia|done|by intros a _|by destruct st].
  - rewrite seqZ_cons by lia. cbn [foldl]. replace (Z.pred (Z.of_nat (S j))) with (Z.of_nat j) by lia. set (v := f st from).
    destruct (poke_ok st B L w p n from v Ok Hp ltac:(lia)) as (Ok1 & La1 & Hv & Hx & Hs & He). set (st1 := poke st p from v) in *.
    assert (Hdd : forall st2, later st1 B st2 (del_block B w p) -> later st B st2 (del_block B w p)).
    { intros st2 [H1 H2 H3 H4 H5 H6]. destruct La1 as [K1 K2 K3 K4 K5 K6]. constructor; [done| |destruct H3, K3; split; congruence|congruence|congruence|destruct H6, K6; split; congruence].
      by eapply contents_trans. }
    destruct (IH (from + 1) st1 Ok1 ltac:(lia) ltac:(lia)) as (Ok2 & La2 & Hv2 & Hb2 & Hs2 & He2).
    { intros st' x Ok' La' Hr. apply Hval; [done|by apply Hdd|lia]. }
    replace (Z.succ from) with (from + 1) by lia. set (st2 := foldl _ st1 _) in *. split; [done|]. split; [by apply Hdd|]. split_and!.
    + intros x Hr Hl. destruct (decide (x = from)) as [->|Hne]; [|apply Hv2; lia]. rewrite Hb2 by lia. rewrite Hv. unfold v. apply Hval; [done|apply later_self|lia|done].
    + intros x Hr. rewrite Hb2 by lia. apply Hx; lia.
    + intros a Ha. rewrite Hs2 by done. by apply Hs.
    + rewrite He2, He. done.
Qed.

Lemma memset_ok st B L w p n v k : api_ok st B L -> B w p n -> 0 <= k <= n ->
  let st' := memset st p v k in
  api_ok st' B L /\ later st B st' (del_block B w p) /\ (forall off, 0 <= off < k -> peek st' p off = v) /\ st' = set_dispatch st st'.(g_dispatch).
Proof.
  intros Ok Hp Hk. destruct (fill_ok (fun _ _ => v) (fun _ => v) k B L w p n k 0 st Ok Hp ltac:(lia) ltac:(lia) ltac:(lia) ltac:(done)) as (Ok' & La & Hv & _ & _ & He).
  split; [done|]. split; [done|]. split; [|done]. intros off Ho. apply Hv; lia.
Qed.

(** The first [lim] cells of the source read the same until the copy ends. *)
Lemma memcpy_ok st B L w dst n source k lim : api_ok st B L -> B w dst n -> 0 <= k <= n ->
  (forall st' x, api_ok st' B L -> later st B st' (del_block B w dst) -> 0 <= x < lim -> peek st' source x = peek st source x) ->
  let st' := memcpy st dst source k in
  api_ok st' B L /\ later st B st' (del_block B w dst) /\ (forall off, 0 <= off < k -> off < lim -> peek st' dst off = peek st source off) /\
  st' = set_dispatch st st'.(g_dispatch).
Proof.
  intros Ok Hp Hk Hsrc. destruct (fill_ok (fun s off => peek s source off) (fun off => peek st source off) lim B L w dst n k 0 st Ok Hp ltac:(lia) ltac:(lia) ltac:(lia)) as (Ok' & La & Hv & _ & _ & He).
  - intros st' x Ok' La' Hx Hl. apply Hsrc; [done|done|lia].
  - split; [done|]. split; [done|]. split; [|done]. intros off Ho Hl. apply Hv; lia.
Qed.

(** Blocks beside the one being stored into. *)
Lemma later_sub st B st' B' B0 : later st B st' B' -> (forall w q k, B0 w q k -> B' w q k) -> later st B0 st' B0.
Proof. intros [H1 H2 H3 H4 H5 H6] Hs. constructor; try done. by eapply contents_sub. Qed.

Lemma fresh_ne d B w p n w' q k : dispatch_ok d (add_block B w p n) -> free_of B p n -> B w' q k -> (w', q) <> (w, p).
Proof.
  intros Hd Hf Hq [= -> ->]. pose proof (block_positive ext extd m d _ w p n Hd ltac:(by right)). pose proof (block_positive ext extd m d _ w p k Hd ltac:(by left)).
  destruct (Hf w p k Hq); lia.
Qed.

Lemma later_fresh st B L w p n st' : api_ok st (add_block B w p n) L -> free_of B p n -> later st (add_block B w p n) st' (del_block (add_block B w p n) w p) -> later st B st' B.
Proof.
  intros Ok Hf La. eapply later_sub; [exact La|]. intros w' q k Hq. split; [by left|]. eapply fresh_ne; [exact (ao_dispatch _ _ _ _ _ _ _ Ok)|done|done].
Qed.

(** ** [v8m_calloc] *)

Lemma calloc_ok e st B L nmemb size : api_ok st B L -> dispatch_ready st = true -> 0 <= nmemb < 2 ^ 64 -> 0 <= size < 2 ^ 64 -> fueled e ->
  if SIZE_MAX <? nmemb * size then v8m_calloc call_handler e st nmemb size = Some (set_errno st ENOMEM, NULL)
  else obtains st B L (nmemb * size) 8 (v8m_calloc call_handler e st nmemb size) /\ says_enomem (v8m_calloc call_handler e st nmemb size) /\
    forall st' p, v8m_calloc call_handler e st nmemb size = Some (st', p) -> p <> NULL -> forall off, 0 <= off < nmemb * size -> peek st' p off = 0.
Proof.
  intros Ok Hr Hn Hs Hf. unfold v8m_calloc, mul_size. destruct (Z.ltb_spec SIZE_MAX (nmemb * size)) as [|Hle]; [done|]. unfold SIZE_MAX in Hle.
  assert (Ht : 0 <= nmemb * size < 2 ^ 64) by nia. set (total := nmemb * size) in *. clearbody total.
  destruct (do_malloc_ok ext extd m image call_handler spared Hhandler e st B L total Ok Hr Ht Hf) as [(st1 & p & B1 & He & La & Lo & Hp) Hen]. rewrite He.
  destruct Hp as [[-> Ok1]|(Hp & w & n & Hsz & Hal & Hfr & Ok1)].
  - rewrite Z.eqb_refl. cbn [negb andb]. split; [by eapply obtains_null|]. split; [by rewrite He in Hen|]. by intros st' p [= <- <-] ?.
  - rewrite (proj2 (Z.eqb_neq _ _) Hp). cbn [negb andb]. set (st2 := if 0 <? total then memset st1 p 0 total else st1).
    assert (H2 : api_ok st2 (add_block B1 w p n) L /\ later st1 B1 st2 B1 /\ (forall off, 0 <= off < total -> peek st2 p off = 0) /\ st2.(g_oom_handler) = st1.(g_oom_handler)).
    { unfold st2. destruct (Z.ltb_spec 0 total) as [H0|]; [|split; [done|]; split; [apply later_refl|]; split; [lia|done]].
      destruct (memset_ok st1 _ L w p n 0 total Ok1 ltac:(by right) ltac:(lia)) as (Ok2 & La2 & Hz & He2). split; [done|]. split; [by eapply later_fresh|]. split; [done|]. by rewrite He2. }
    destruct H2 as (Ok2 & La2 & Hz & Hh). split; [|split; [by intros st' [= _ ?]|]].
    + exists st2, p, B1. split; [done|]. split; [by eapply later_trans|]. split; [eapply left_trans; [exact Lo|by apply left_same]|].
      right. split; [done|]. by exists w, n.
    + intros st' q [= <- <-] _. done.
Qed.

(** ** [v8m_realloc] *)

(** What the two functions answer of a block of the program. *)
Lemma usable_api_ok st B L w p n : api_ok st B L -> dispatch_ready st = true -> B w p n ->
  (w = InBuddy -> rd st.(g_dispatch).(d_buddy).(BuddyPool.bmem) (v8m_ptr_to_meta p) <> V8M_MAGIC) ->
  n <= v8m_malloc_usable_size st p /\ (w <> InLarge -> v8m_malloc_usable_size st p = n).
Proof.
  intros Ok Hr Hp Hm. destruct (block_not_static ext extd m image st B L w p n Ok Hp) as (Hn & Hb & _). unfold v8m_malloc_usable_size.
  rewrite (proj2 (Z.eqb_neq _ _) Hn), Hb, Hr. cbn [negb]. exact (usable_ok ext extd m _ B w p n (ao_dispatch _ _ _ _ _ _ _ Ok) Hp Hm).
Qed.

(** The state in which [v8m_realloc], having copied, releases the old block, and
    the new one. *)
Definition before_release (e : call_env) (st : api) (ptr size : Z) : option (api * Z) :=
  let old_usable := v8m_malloc_usable_size st ptr in
  match do_malloc_pc call_handler e st size with
  | None => None
  | Some (st, new_ptr) =>
      let copy := if old_usable <? size then old_usable else size in
      if new_ptr =? NULL then None else Some (if 0 <? copy then memcpy st new_ptr ptr copy else st, new_ptr)
  end.

(** What the release of the block [w, p, n] comes to: the block is gone and all else
    is kept, or the call aborts on a pointer on record or an overwritten red zone. *)
Definition release_outcome (st : api) (B : owner -> Z -> Z -> Prop) (L : list (Z * Z)) (w : owner) (p n : Z) (r : option api) : Prop :=
  match r with
  | Some st' => api_ok st' (del_block B w p) L /\ later st B st' (del_block B w p)
  | None => (debug_on st = true /\ p ∈ st.(g_double_free_ring)) \/ (w = InLarge /\ ~ LargeSpec.zone_intact st.(g_dispatch).(d_large) (p, n))
  end.

(** The outcome of a request to move the block [w, p, n] to one of [size] bytes.
    [B'] are the blocks the handler left. *)
Inductive moves (e ef : call_env) (st : api) (B : owner -> Z -> Z -> Prop) (L : list (Z * Z)) (w : owner) (p n size : Z) : option (api * Z) -> Prop :=
  | moves_fails st1 B' : do_malloc_pc call_handler e st size = Some (st1, NULL) -> api_ok st1 B' L -> later st B st1 B' -> left_over spared st B st1 B' -> B' w p n ->
      st1.(errno) = ENOMEM -> moves e ef st B L w p n size (Some (st1, NULL))
  | moves_to st2 B' w' q n' : q <> NULL -> size <= n' -> (8 | q) -> free_of B' q n' -> api_ok st2 (add_block B' w' q n') L -> later st B st2 B' -> left_over spared st B st2 B' -> B' w p n ->
      (forall off, 0 <= off < Z.min n size -> peek st2 q off = peek st p off) ->
      dispatch_ready st2 = true -> before_release e st p size = Some (st2, q) ->
      (free_safe ef st2 w p -> release_outcome st2 (add_block B' w' q n') L w p n (v8m_free ef st2 p)) ->
      moves e ef st B L w p n size (match v8m_free ef st2 p with None => None | Some st3 => Some (st3, q) end).

(** No handler of the program takes the block [w, p, n] away. *)
Definition stays (st : api) (w : owner) (p n : Z) : Prop := st.(g_oom_handler) = NULL \/ spared w p n.
Lemma stays_left st B st' B' w p n : stays st w p n -> left_over spared st B st' B' -> B w p n -> B' w p n.
Proof. intros [Hn|Hs] [L1 L2] Hp; [by apply (L2 Hn)|by apply L1]. Qed.

Lemma realloc_moves e ef st B L w p n size : api_ok st B L -> dispatch_ready st = true -> stays st w p n -> B w p n -> 0 < size < 2 ^ 64 -> fueled e ->
  (w = InBuddy -> rd st.(g_dispatch).(d_buddy).(BuddyPool.bmem) (v8m_ptr_to_meta p) <> V8M_MAGIC) ->
  if size <=? v8m_malloc_usable_size st p then v8m_realloc call_handler e ef st p size = Some (st, p)
  else moves e ef st B L w p n size (v8m_realloc call_handler e ef st p size).
Proof.
  intros Ok Hr Hst Hp Hs Hf Hm. destruct (block_not_static ext extd m image st B L w p n Ok Hp) as (Hn & Hb & _).
  destruct (usable_api_ok st B L w p n Ok Hr Hp Hm) as [Hus _]. unfold v8m_realloc. rewrite (proj2 (Z.eqb_neq _ _) Hn), (proj2 (Z.eqb_neq size 0)), Hb by lia. cbn [negb andb].
  destruct (Z.leb_spec size (v8m_malloc_usable_size st p)) as [|Hgt]; [done|]. rewrite (proj2 (Z.ltb_lt _ _) Hgt). set (old := v8m_malloc_usable_size st p) in *.
  destruct (do_malloc_ok ext extd m image call_handler spared Hhandler e st B L size Ok Hr ltac:(lia) Hf) as [(st1 & q & B1 & Edm & La & Lo & Hq) Hen]. rewrite Edm in Hen |- *.
  assert (Hbr : forall st3 q3, q3 <> NULL -> do_malloc_pc call_handler e st size = Some (st3, q3) -> before_release e st p size = Some (if 0 <? old then memcpy st3 q3 p old else st3, q3)).
  { intros st3 q3 H3 E3. unfold before_release. rewrite E3, (proj2 (Z.eqb_neq _ _) H3). fold old. by rewrite (proj2 (Z.ltb_lt _ _) Hgt). }
  clearbody old. pose proof (stays_left _ _ _ _ _ _ _ Hst Lo Hp) as Hp1.
  assert (Hrd : dispatch_ready st1 = true) by (unfold dispatch_ready; by rewrite (proj1 (la_state _ _ _ _ La))).
  destruct Hq as [[-> Ok1]|(Hqn & w' & n' & Hsz & Hal & Hfr & Ok1)]; [by apply (moves_fails e ef st B L w p n size st1 B1); [..|by apply Hen]|].
  rewrite (proj2 (Z.eqb_neq _ _) Hqn). assert (Hold : add_block B1 w' q n' w p n) by (by left). set (st2 := if 0 <? old then memcpy st1 q p old else st1).
  assert (H2 : api_ok st2 (add_block B1 w' q n') L /\ later st1 B1 st2 B1 /\ (forall off, 0 <= off < Z.min n size -> peek st2 q off = peek st1 p off) /\ st2 = set_dispatch st1 st2.(g_dispatch)).
  { unfold st2. destruct (Z.ltb_spec 0 old) as [H0|]; [|split; [done|]; split; [apply later_refl|]; split; [lia|by destruct st1]].
    destruct (memcpy_ok st1 (add_block B1 w' q n') L w' q n' p old n Ok1 ltac:(by right) ltac:(lia)) as (Ok2 & La2 & Hz & He2).
    - intros st' x Ok' La2 Hx. apply (later_data st1 (add_block B1 w' q n') L st' (add_block B1 w' q n') L B1 B1 w p n Ok1 Ok'); [by eapply later_fresh|done..].
    - split; [done|]. split; [by eapply later_fresh|]. split; [|done]. intros off Ho. apply Hz; lia. }
  destruct H2 as (Ok2 & La2 & Hdata & He2). assert (Hr2 : dispatch_ready st2 = true) by (by rewrite He2).
  apply (moves_to e ef st B L w p n size st2 B1 w' q n'); [done|done|done|done|done|by eapply later_trans| |done| |done|by apply Hbr|].
  - eapply left_trans; [exact Lo|apply left_same; by rewrite He2].
  - intros off Ho. rewrite Hdata by done. apply (later_data st B L st1 (add_block B1 w' q n') L B B1 w p n Ok Ok1); [done..|lia].
  - intros Hsafe. apply (api_free_ok ext extd m image ef st2 _ L w p n Ok2 Hr2 Hold Hsafe).
Qed.

(** Every branch: no block, no size, a size that fits, a move. *)
Lemma realloc_ok e ef st B L size : api_ok st B L -> dispatch_ready st = true -> 0 <= size < 2 ^ 64 -> fueled e ->
  (obtains st B L size 8 (v8m_realloc call_handler e ef st NULL size) /\ says_enomem (v8m_realloc call_handler e ef st NULL size)) /\
  forall w p n, B w p n ->
    if size =? 0 then
      v8m_realloc call_handler e ef st p size = option_map (fun st' => (st', NULL)) (v8m_free ef st p) /\
      (free_safe ef st w p -> release_outcome st B L w p n (v8m_free ef st p))
    else
      stays st w p n -> (w = InBuddy -> rd st.(g_dispatch).(d_buddy).(BuddyPool.bmem) (v8m_ptr_to_meta p) <> V8M_MAGIC) ->
      if size <=? v8m_malloc_usable_size st p then v8m_realloc call_handler e ef st p size = Some (st, p)
      else moves e ef st B L w p n size (v8m_realloc call_handler e ef st p size).
Proof.
  intros Ok Hr Hs Hf. split; [by apply (do_malloc_ok ext extd m image call_handler spared Hhandler)|]. intros w p n Hp.
  destruct (Z.eqb_spec size 0) as [->|H0]; [|intros Hst Hm; by apply realloc_moves; [..|lia|done|done]].
  destruct (block_not_static ext extd m image st B L w p n Ok Hp) as (Hn & _). unfold v8m_realloc. rewrite (proj2 (Z.eqb_neq _ _) Hn). cbn [Z.eqb].
  split; [by destruct (v8m_free ef st p)|]. intros Hsafe. by apply (api_free_ok ext extd m image ef st B L w p n).
Qed.

End Data.
End ApiData.
