(* ===== verification/ApiRing.v ===== *)
(** The ring of freed pointers of [src/v8m_api.c] ([Api]), over a history of
    releases and allocations.  A pointer is on record exactly when it was released,
    not handed out again since, and fewer than 4096 releases followed. *)

From S2P Require Import Prelude PageSource Api.
Import Api.

Module ApiRing.

(** What the debug mode tells the ring. *)
Inductive ring_event := Released (p : Z) | HandedOut (p : Z).
#[export] Instance ring_event_eq_dec : EqDecision ring_event.
Proof. solve_decision. Defined.

Section Ring.
Context `{PV : PageHeapView}.

Definition ring_step (st : api) (ev : ring_event) : option api :=
  match ev with Released p => debug_check_double_free st p | HandedOut p => Some (debug_clear_double_free_record st p) end.
Definition ring_run (st : api) (evs : list ring_event) : option api := foldl (fun r ev => r ≫= fun st => ring_step st ev) (Some st) evs.

Definition released (ev : ring_event) : bool := match ev with Released _ => true | HandedOut _ => false end.
Definition releases (evs : list ring_event) : Z := Z.of_nat (length (filter (fun ev => released ev = true) evs)).
Definition real (ev : ring_event) : Prop := match ev with Released p => p <> NULL | HandedOut _ => True end.

(** [p] was released after [pre]; what followed left it on record. *)
Definition record_of (p : Z) (pre post evs : list ring_event) : Prop := evs = pre ++ Released p :: post /\ HandedOut p ∉ post /\ releases post < V8M_DOUBLE_FREE_RING_SIZE.

Record ring_ok (st : api) (evs : list ring_event) : Prop := {
  ri_len : Z.of_nat (length st.(g_double_free_ring)) = V8M_DOUBLE_FREE_RING_SIZE;
  ri_idx : st.(g_double_free_ring_idx) = u64 (releases evs);
  ri_once : forall i j p, p <> NULL -> st.(g_double_free_ring) !! i = Some p -> st.(g_double_free_ring) !! j = Some p -> i = j;
  ri_slot : forall i p, p <> NULL -> st.(g_double_free_ring) !! i = Some p <->
    exists pre post, record_of p pre post evs /\ releases pre mod V8M_DOUBLE_FREE_RING_SIZE = Z.of_nat i
}.

Lemma releases_app a b : releases (a ++ b) = releases a + releases b.
Proof. unfold releases. rewrite filter_app, length_app. lia. Qed.
Lemma releases_nonneg a : 0 <= releases a.
Proof. unfold releases. lia. Qed.
Lemma releases_one p : releases [Released p] = 1 /\ releases [HandedOut p] = 0.
Proof. done. Qed.

Lemma snoc_split {A} (x y : A) pre post l : l ++ [x] = pre ++ y :: post -> (post = [] /\ y = x /\ pre = l) \/ exists post', post = post' ++ [x] /\ l = pre ++ y :: post'.
Proof.
  destruct post as [|z post' _] using rev_ind.
  - intros [-> [= ->]]%app_inj_tail. left. done.
  - intros He. right. exists post'. rewrite app_comm_cons, app_assoc in He. apply app_inj_tail in He as [-> ->]. done.
Qed.

Lemma record_snoc p pre post evs ev : record_of p pre post (evs ++ [ev]) <->
  (post = [] /\ ev = Released p /\ pre = evs) \/
  exists post', post = post' ++ [ev] /\ record_of p pre post' evs /\ ev <> HandedOut p /\ releases post' + releases [ev] < V8M_DOUBLE_FREE_RING_SIZE.
Proof.
  unfold record_of. split.
  - intros (He & Hn & Hr). apply snoc_split in He as [(-> & <- & ->)|(post' & -> & ->)]; [by left|]. right. exists post'. rewrite releases_app in Hr.
    rewrite not_elem_of_app, list_elem_of_singleton in Hn. destruct Hn as [Hn1 Hn2]. pose proof (releases_nonneg [ev]). split_and!; [done|done|done|lia|congruence|done].
  - intros [(-> & -> & ->)|(post' & -> & (-> & Hn & Hr) & Hne & Hlt)].
    + split; [done|]. split; [by intros ?%not_elem_of_nil|done].
    + rewrite releases_app. split; [by rewrite <- app_assoc|]. split; [|done]. rewrite not_elem_of_app, list_elem_of_singleton. split; [done|congruence].
Qed.

Lemma check_ok st evs p st' : ring_ok st evs -> p <> NULL -> debug_check_double_free st p = Some st' -> ring_ok st' (evs ++ [Released p]).
Proof.
  intros [Hl Hi Ho Hs] Hp. unfold debug_check_double_free. destruct (bool_decide_reflect (p ∈ g_double_free_ring st)) as [|Hnin]; [done|]. intros [= <-].
  assert (Hslot : (st.(g_double_free_ring_idx) mod V8M_DOUBLE_FREE_RING_SIZE) = releases evs mod V8M_DOUBLE_FREE_RING_SIZE).
  { rewrite Hi. unfold u64, V8M_DOUBLE_FREE_RING_SIZE. change (2 ^ 64) with (4096 * 2 ^ 52). rewrite Z.rem_mul_r by lia. rewrite Z.mul_comm, Z.mod_add by lia. by apply Z.mod_mod. }
  rewrite Hslot. set (slot := releases evs mod V8M_DOUBLE_FREE_RING_SIZE) in *. assert (Hr : 0 <= slot < V8M_DOUBLE_FREE_RING_SIZE) by (by apply Z.mod_pos_bound).
  assert (Hin : (Z.to_nat slot < length st.(g_double_free_ring))%nat) by lia.
  constructor; cbn [g_double_free_ring g_double_free_ring_idx set_ring].
  - by rewrite length_insert.
  - rewrite Hi, releases_app, (proj1 (releases_one p)). unfold u64. by rewrite Zplus_mod_idemp_l.
  - intros i j q Hq Hqi Hqj. apply list_lookup_insert_Some in Hqi as [(<- & <- & _)|[Hni Hqi]]; apply list_lookup_insert_Some in Hqj as [(<- & Heq & _)|[Hnj Hqj]]; [done| | |by eapply Ho].
    + exfalso. apply Hnin. by eapply list_elem_of_lookup_2.
    + exfalso. apply Hnin. rewrite Heq. by eapply list_elem_of_lookup_2.
  - intros i q Hq. setoid_rewrite record_snoc. rewrite list_lookup_insert_Some. split.
    + intros [(<- & <- & _)|[Hne Hqi]].
      * exists evs, []. split; [by left|]. rewrite Z2Nat.id by lia. done.
      * apply Hs in Hqi as (pre & post & Hrec & Hm); [|done]. exists pre, (post ++ [Released p]). split; [|done]. right. exists post. split_and!; [done|done|done|].
        destruct Hrec as (He & _ & Hlt). rewrite (proj1 (releases_one p)). destruct (Z.eq_dec (releases post) (V8M_DOUBLE_FREE_RING_SIZE - 1)) as [Heq|]; [|lia]. exfalso. apply Hne. unfold slot.
        rewrite He, releases_app. change (Released q :: post) with ([Released q] ++ post). rewrite releases_app, (proj1 (releases_one q)), Heq.
        replace (releases pre + (1 + (V8M_DOUBLE_FREE_RING_SIZE - 1))) with (releases pre + 1 * V8M_DOUBLE_FREE_RING_SIZE) by lia. rewrite Z.mod_add by done. lia.
    + intros (pre & post & [(-> & [= ->] & ->)|(post' & -> & Hrec & _ & Hlt)] & Hm); [left; split_and!; [lia|done|lia]|]. right. rewrite (proj1 (releases_one p)) in Hlt.
      split; [|apply Hs; [done|by exists pre, post']]. intros Heq. pose proof (releases_nonneg post') as H0. destruct Hrec as (He & _ & _).
      assert (Hc : slot = releases pre mod V8M_DOUBLE_FREE_RING_SIZE) by lia. unfold slot in Hc. rewrite He, releases_app in Hc.
      change (Released q :: post') with ([Released q] ++ post') in Hc. rewrite releases_app, (proj1 (releases_one q)) in Hc. unfold V8M_DOUBLE_FREE_RING_SIZE in *.
      pose proof (Z.div_mod (releases pre) 4096). pose proof (Z.div_mod (releases pre + (1 + releases post')) 4096). lia.
Qed.

Lemma clear_ok st evs p : ring_ok st evs -> ring_ok (debug_clear_double_free_record st p) (evs ++ [HandedOut p]).
Proof.
  intros [Hl Hi Ho Hs]. set (st' := debug_clear_double_free_record st p).
  assert (Hst : Z.of_nat (length st'.(g_double_free_ring)) = V8M_DOUBLE_FREE_RING_SIZE /\ st'.(g_double_free_ring_idx) = st.(g_double_free_ring_idx) /\
    forall i q, q <> NULL -> st'.(g_double_free_ring) !! i = Some q <-> st.(g_double_free_ring) !! i = Some q /\ q <> p).
  { unfold st', debug_clear_double_free_record. destruct (Z.eqb_spec p NULL) as [->|Hn]; [split_and!; [done|done|naive_solver]|].
    destruct (list_find _ _) as [[k x]|] eqn:Hf.
    - apply list_find_Some in Hf as (Hk & -> & _). cbn. split_and!; [by rewrite length_insert|done|]. intros i q Hq. rewrite list_lookup_insert_Some. split.
      + intros [(_ & Hx & _)|[Hne Hqi]]; [done|]. split; [done|]. intros ->. apply Hne. by eapply Ho.
      + intros [Hqi Hqp]. right. split; [|done]. intros <-. congruence.
    - split_and!; [done|done|]. intros i q Hq. split; [|by intros [? _]]. intros Hqi. split; [done|]. intros ->. apply list_find_None in Hf.
      rewrite Forall_forall in Hf. apply (Hf p); [by eapply list_elem_of_lookup_2|done]. }
  clearbody st'. destruct Hst as (H1 & H2 & H3). constructor; [done| | |].
  - rewrite H2, Hi, releases_app, (proj2 (releases_one p)). f_equal. lia.
  - intros i j q Hq Hqi Hqj. apply H3 in Hqi as [Hqi _]; [|done]. apply H3 in Hqj as [Hqj _]; [|done]. by eapply Ho.
  - intros i q Hq. rewrite H3, Hs by done. setoid_rewrite record_snoc. split.
    + intros [(pre & post & Hrec & Hm) Hqp]. exists pre, (post ++ [HandedOut p]). split; [|done]. right. exists post. rewrite (proj2 (releases_one p)).
      destruct Hrec as (He & Hn & Hr). split; [done|]; split; [by repeat split|]; split; [intros [= ->]; done|lia].
    + intros (pre & post & [(_ & [=] & _)|(post' & -> & Hrec & Hne & _)] & Hm). split; [by exists pre, post'|]. congruence.
Qed.

Lemma ring_run_ok st evs st' : ring_ok st [] -> Forall real evs -> ring_run st evs = Some st' -> ring_ok st' evs.
Proof.
  intros H0. revert st'. induction evs as [|ev evs IH] using rev_ind; intros st' Hf; [by intros [= <-]|].
  apply Forall_app in Hf as [Hf [Hev _]%Forall_cons]. unfold ring_run. rewrite foldl_app. cbn [foldl]. fold (ring_run st evs). destruct (ring_run st evs) as [st1|]; [|done].
  cbn. specialize (IH st1 Hf eq_refl). destruct ev as [p|p]; cbn.
  - by apply check_ok.
  - intros [= <-]. by apply clear_ok.
Qed.

(** The ring before any release. *)
Definition ring_fresh (st : api) : Prop := st.(g_double_free_ring) = replicate (Z.to_nat V8M_DOUBLE_FREE_RING_SIZE) NULL /\ st.(g_double_free_ring_idx) = 0.

Lemma fresh_ok st : ring_fresh st -> ring_ok st [].
Proof.
  intros [Hr Hi]. constructor; rewrite ?Hr, ?Hi; [by rewrite length_replicate|done| |].
  - by intros i j p Hp [-> _]%lookup_replicate.
  - intros i p Hp. split; [by intros [-> _]%lookup_replicate|]. intros (pre & post & (He & _) & _). by destruct pre.
Qed.

Lemma reported_iff st evs st' p : ring_fresh st -> Forall real evs -> ring_run st evs = Some st' -> p <> NULL ->
  p ∈ st'.(g_double_free_ring) <-> exists pre post, record_of p pre post evs.
Proof.
  intros Hf Hr He Hp. pose proof (ring_run_ok st evs st' (fresh_ok st Hf) Hr He) as R. split.
  - intros (i & Hi)%list_elem_of_lookup. apply (ri_slot _ _ R i p Hp) in Hi as (pre & post & Hrec & _). by exists pre, post.
  - intros (pre & post & Hrec). eapply list_elem_of_lookup_2. apply (ri_slot _ _ R (Z.to_nat (releases pre mod V8M_DOUBLE_FREE_RING_SIZE)) p Hp). exists pre, post. split; [done|].
    rewrite Z2Nat.id; [done|]. by apply Z.mod_pos_bound.
Qed.

End Ring.
End ApiRing.
