(* ===== verification/ApiControl.v ===== *)
(** The rest of the public entry points, on the state of [Api]: options, limits and
    the handler, purging, threads, pointer queries and the reports of
    [src/v8m_api.c], [src/v8m_api_diag.c] and [src/v8m_api_libc_compat.c].

    A function that stores a report through a pointer returns it; [None] for the
    pointer is [NULL].  Reports printed as text are the numbers printed. *)

From Stdlib Require Import String.
From S2P Require Import Prelude SizeClass Page Bump Config RegionMap PageHeap PageSource SlabPool BuddyPool Large ThreadCache ThreadRegistry Lifetime Dispatch BgPurge Api.
Import SizeClass Page Config PageSource Dispatch Api.

Module ApiControl.

Definition V8M_PUBLIC_NUM_SIZE_CLASSES : Z := 41.

(** [struct v8m_live_stats]. *)
Record v8m_live_stats := MkLive { lv_bytes_mapped : Z; lv_bytes_unmapped : Z; lv_mmap_calls : Z; lv_munmap_calls : Z; lv_advise_calls : Z; lv_live_regions : Z; lv_live_bytes : Z }.

(** [struct v8m_stats]. *)
Record v8m_stats := MkStats {
  total_allocated : Z; total_freed : Z; current_usage : Z; peak_usage : Z; total_alloc_count : Z; total_free_count : Z;
  mmap_count : Z; munmap_count : Z; mmap_bytes : Z; huge_page_count : Z; numa_local_allocs : Z; numa_remote_allocs : Z;
  live_regions : Z; advise_calls : Z; mmap_calls : Z; munmap_calls : Z; bytes_mapped : Z; bytes_unmapped : Z; live_bytes : Z
}.

(** [struct v8m_slab_class_breakdown]. *)
Record v8m_slab_class_breakdown := MkRow { pages_in_use : Z; slots_total : Z; slots_used : Z; utilization_pct : Z }.
Definition zero_row : v8m_slab_class_breakdown := MkRow 0 0 0 0.

(** [struct v8m_frag_metrics]. *)
Record v8m_frag_metrics := MkFrag {
  fm_live_regions : Z; fm_live_bytes : Z; bytes_per_region : Z; region_map_capacity : Z; region_map_used_pct : Z; large_live_count : Z; huge_live_count : Z;
  vma_count : Z; slab_pages_in_use : Z; slab_slots_total : Z; slab_slots_used : Z; slab_utilization_pct : Z
}.

(** [struct v8m_ptr_info] and its [backend]. *)
Inductive ptr_backend := V8M_PTR_FOREIGN | V8M_PTR_BOOTSTRAP | V8M_PTR_SLAB | V8M_PTR_BUDDY | V8M_PTR_LARGE.
Record v8m_ptr_info_t := MkInfo { backend : ptr_backend; usable_size : Z; info_class : Z }.

(** The fields of [struct mallinfo] and [struct mallinfo2] that are set. *)
Record mallinfo_t := MkInfo2 { hblks : Z; hblkhd : Z; mi_arena : Z; uordblks : Z }.

(** A conversion to [int]. *)
Definition to_int (x : Z) : Z := let y := u32 x in if y <? 2 ^ 31 then y else y - 2 ^ 32.

Section Control.
Context `{PageHeapView}.

(** ** Options and limits *)

Definition v8m_set_option (st : api) (opt value : Z) : api * Z :=
  if negb (dispatch_ready st) then (set_errno st EAGAIN, -1)
  else if (opt <? 0) || (V8M_OPT_COUNT <=? opt) then (set_errno st EINVAL, -1)
  else
    let '(c, rc) := v8m_config_set st.(v8m_config) opt value in
    let st := set_config st c in
    if negb (rc =? 0) then (set_errno st EINVAL, -1) else (st, 0).

(** The value stored through [out], [false] for [NULL]. *)
Definition v8m_get_option (st : api) (opt : Z) (out : bool) : api * option Z * Z :=
  if negb out then (set_errno st EINVAL, None, -1)
  else if (opt <? 0) || (V8M_OPT_COUNT <=? opt) then (set_errno st EINVAL, None, -1)
  else if negb (dispatch_ready st) then (set_errno st EAGAIN, None, -1)
  else (st, Some (v8m_config_get st.(v8m_config) opt), 0).

Definition v8m_set_oom_handler (st : api) (handler : Z) : api * Z := (set_limits st st.(g_soft_limit) handler, st.(g_oom_handler)).
Definition v8m_set_soft_limit (st : api) (bytes : Z) : api * Z :=
  if negb (dispatch_ready st) then (set_errno st EAGAIN, -1) else (set_limits st bytes st.(g_oom_handler), 0).
Definition v8m_get_soft_limit (st : api) : Z := st.(g_soft_limit).

Definition g_option_names : list string :=
  ["verbose"; "purge_interval"; "thread_cache_max"; "huge_pages"; "numa_aware"; "debug"; "profile"; "compact_threshold"; "vma_warn_threshold";
   "numa_aggressive_migration"; "deferred_coalesce"; "lifetime_tracking"]%string.
Definition v8m_option_name (option_id : Z) : option string :=
  if (option_id <? 0) || (V8M_OPT_COUNT <=? option_id) then None else g_option_names !! Z.to_nat option_id.

(** ** Purging and threads *)

(** [v8m_thread_cache_drain_all] and [v8m_thread_cache_drain_medium] on the calling
    thread's cache. *)
Definition drain_bins (fuel : nat) (d : v8m_dispatch) : option v8m_dispatch :=
  match run_slab d V8M_ARENA_DEFAULT (fun st =>
          match ThreadCache.v8m_thread_cache_drain_all 16 fuel (cur_cache d) st with None => None | Some (c, st, _) => Some (st, c) end) with
  | None => None
  | Some (d, c) => Some (set_cur d c)
  end.
Definition drain_mediums (fuel : nat) (cfg : config) (d : v8m_dispatch) : option v8m_dispatch :=
  match run_buddy d (fun st =>
          match ThreadCache.v8m_thread_cache_drain_medium fuel cfg (cur_cache d) st with None => None | Some (c, st, _) => Some (st, c) end) with
  | None => None
  | Some (d, c) => Some (set_cur d c)
  end.

(** [e] gives the CPU and the fuel of the walks. *)
Definition v8m_api_drain_thread_cache (e : denv) (st : api) : option api :=
  if negb (dispatch_ready st) then Some st
  else
    match drain_bins e.(de_fuel) st.(g_dispatch) with
    | None => None
    | Some d => match drain_mediums e.(de_fuel) st.(v8m_config) d with None => None | Some d => Some (set_dispatch st d) end
    end.

Definition drain_l2 (e : denv) (st : api) : option api :=
  match v8m_dispatch_drain_local_l2 e.(de_fuel) (env_of st e) st.(g_dispatch) with None => None | Some (d, _) => Some (set_dispatch st d) end.

Definition v8m_purge_thread (e : denv) (st : api) : option api :=
  if negb (dispatch_ready st) then Some st
  else
    match (if bool_decide (cur_cache st.(g_dispatch) <> None) then v8m_api_drain_thread_cache e st else Some st) with
    | None => None
    | Some st => drain_l2 e st
    end.

Definition v8m_api_bg_tick (st : api) : api :=
  if negb (dispatch_ready st) then st else set_dispatch st (v8m_dispatch_bg_tick pv_housekeep st.(g_dispatch)).1.

(** [g] is the background purge's state; the pass runs its tick hook,
    [v8m_api_bg_tick], first. *)
Definition v8m_purge (e : denv) (vmas : Z) (g : BgPurge.module) (st : api) : option (api * BgPurge.module * list BgPurge.output) :=
  match (if dispatch_ready st then
           match v8m_purge_thread e st with
           | None => None
           | Some st => Some (set_dispatch st (v8m_dispatch_purge_drained st.(g_dispatch)).1)
           end
         else Some st) with
  | None => None
  | Some st =>
      let st := if g.(BgPurge.g_tick_hook) =? 0 then st else v8m_api_bg_tick st in
      let s := pv_stats st.(g_dispatch).(d_src) in
      let '(g, out) := BgPurge.v8m_bg_purge_run_once
        (BgPurge.MkScan st.(v8m_config) vmas (pv_live_regions st.(g_dispatch).(d_src)) (s PageHeap.v8m_bytes_mapped) (s PageHeap.v8m_bytes_unmapped)) g in
      Some (st, g, out)
  end.

Definition v8m_init_thread (e : denv) (st : api) : api * Z :=
  if negb (dispatch_ready st) then (set_errno st EAGAIN, -1)
  else let '(d, ok) := get_or_create e st.(g_dispatch) in
    let st := set_dispatch st d in if ok : bool then (st, 0) else (set_errno st ENOMEM, -1).

(** The cache is drained twice: here, and by the hook of
    [v8m_thread_cache_release_local]. *)
Definition v8m_release_thread (e : denv) (st : api) : option (api * Z) :=
  if negb (dispatch_ready st) then Some (set_errno st EAGAIN, -1)
  else
    match (if bool_decide (cur_cache st.(g_dispatch) <> None) then drain_bins e.(de_fuel) st.(g_dispatch) else Some st.(g_dispatch)) with
    | None => None
    | Some d =>
        match drain_l2 e (set_dispatch st d) with
        | None => None
        | Some st =>
            match (if bool_decide (cur_cache st.(g_dispatch) <> None) then v8m_api_drain_thread_cache e st else Some st) with
            | None => None
            | Some st =>
                match ThreadRegistry.v8m_thread_cache_release_local e.(de_fuel) None st.(g_dispatch).(d_reg) st.(g_dispatch).(d_tls) with
                | None => None
                | Some (g, t) => Some (set_dispatch st (set_reg st.(g_dispatch) g t), 0)
                end
            end
        end
    end.

(** ** Pointers *)

Definition v8m_ptr_info (st : api) (ptr : Z) : api * v8m_ptr_info_t * Z :=
  let foreign := MkInfo V8M_PTR_FOREIGN 0 (-1) in
  if ptr =? NULL then (set_errno st EINVAL, foreign, -1)
  else if Bump.v8m_ptr_is_bootstrap st.(v8m_bootstrap_bump) ptr then
    (st, MkInfo V8M_PTR_BOOTSTRAP (Bump.v8m_bootstrap_remaining st.(v8m_bootstrap_bump) ptr) (-1), 0)
  else if negb (dispatch_ready st) || negb (ps_owns st.(g_dispatch).(d_src) ptr) then (set_errno st EINVAL, foreign, -1)
  else
    let page := v8m_ptr_to_meta ptr in
    let mt := meta_of st.(g_dispatch) page in
    if v8m_page_meta_valid page mt then
      if mt.(size_class) <? V8M_MEDIUM_FIRST_CLASS then (st, MkInfo V8M_PTR_SLAB mt.(object_size) mt.(size_class), 0)
      else (st, MkInfo V8M_PTR_LARGE (Large.v8m_large_usable_size st.(g_dispatch).(d_large) ptr) (-1), 0)
    else
      let bytes := BuddyPool.v8m_buddy_pool_block_size st.(g_dispatch).(d_buddy) ptr in
      if (0 <? bytes) && (Z.land ptr (bytes - 1) =? 0) then (st, MkInfo V8M_PTR_BUDDY bytes (-1), 0) else (set_errno st EINVAL, foreign, -1).
Definition v8m_is_valid_ptr (st : api) (ptr : Z) : bool := let '(_, _, rc) := v8m_ptr_info st ptr in rc =? 0.

Definition v8m_validate_internal_state (st : api) : Z :=
  if negb (dispatch_ready st) then 0
  else
    let d := st.(g_dispatch) in
    foldl (fun total pool => total + SlabPool.v8m_slab_pool_validate pool)
      (pv_validate d.(d_src) + BuddyPool.v8m_buddy_pool_validate d.(d_buddy) + SlabPool.v8m_slab_pool_validate d.(d_slab)) d.(d_slab_lifetime).

(** ** Reports *)

Definition zero_stats : PageHeap.stats := fun _ => 0.
Definition zero_large : Large.v8m_large_stats := Large.MkLStats 0 0 0 0 0 0.
Definition heap_stats (st : api) : PageHeap.stats := if dispatch_ready st then pv_stats st.(g_dispatch).(d_src) else zero_stats.
Definition large_stats (st : api) : Large.v8m_large_stats := if dispatch_ready st then Large.v8m_large_get_stats st.(g_dispatch).(d_large) else zero_large.
Definition region_count (st : api) : Z := if dispatch_ready st then pv_live_regions st.(g_dispatch).(d_src) else 0.
(** [(a > b) ? a - b : 0]. *)
Definition above_zero (a b : Z) : Z := if b <? a then a - b else 0.

Definition v8m_collect_live_stats (st : api) : v8m_live_stats :=
  let s := heap_stats st in
  MkLive (s PageHeap.v8m_bytes_mapped) (s PageHeap.v8m_bytes_unmapped) (s PageHeap.v8m_mmap_calls) (s PageHeap.v8m_munmap_calls) (s PageHeap.v8m_advise_calls)
    (region_count st) (u64 (s PageHeap.v8m_bytes_mapped - s PageHeap.v8m_bytes_unmapped)).

(** [fuel] bounds the walk of the registry. *)
Definition v8m_get_stats (fuel : nat) (st : api) : option v8m_stats :=
  let s := heap_stats st in
  let large := large_stats st in
  let live := above_zero (s PageHeap.v8m_bytes_mapped) (s PageHeap.v8m_bytes_unmapped) in
  match ThreadRegistry.v8m_dispatch_total_alloc_count fuel st.(g_dispatch).(d_reg), ThreadRegistry.v8m_dispatch_total_free_count fuel st.(g_dispatch).(d_reg) with
  | Some allocs, Some frees =>
      Some (MkStats (s PageHeap.v8m_bytes_mapped) (s PageHeap.v8m_bytes_unmapped) live (s PageHeap.v8m_peak_live_bytes) allocs frees
        (s PageHeap.v8m_mmap_calls) (s PageHeap.v8m_munmap_calls) (s PageHeap.v8m_bytes_mapped)
        (above_zero large.(Large.huge_alloc_count) large.(Large.huge_free_count))
        (above_zero (s PageHeap.v8m_mbind_calls) (s PageHeap.v8m_mbind_failures)) (s PageHeap.v8m_mbind_failures) (region_count st)
        (s PageHeap.v8m_advise_calls) (s PageHeap.v8m_mmap_calls) (s PageHeap.v8m_munmap_calls) (s PageHeap.v8m_bytes_mapped) (s PageHeap.v8m_bytes_unmapped) live)
  | _, _ => None
  end.

Definition v8m_reset_stats (fuel : nat) (st : api) : option api :=
  if negb (dispatch_ready st) then Some st
  else
    let d := st.(g_dispatch) in
    let d := set_src d (pv_reset_peak d.(d_src)) in
    match ThreadRegistry.v8m_dispatch_reset_alloc_free_counts fuel d.(d_reg) with
    | None => None
    | Some g => Some (set_dispatch st (set_reg d g d.(d_tls)))
    end.

Definition v8m_get_huge_stats (st : api) : Large.v8m_large_stats := large_stats st.
(** Five counters that are not kept yet. *)
Definition v8m_get_thread_stats : list Z := [0; 0; 0; 0; 0].
Definition v8m_get_size_class_histogram (fuel : nat) (st : api) : option ThreadCache.histogram :=
  if negb (dispatch_ready st) then Some ThreadCache.hist0 else ThreadRegistry.v8m_thread_cache_aggregate_histogram fuel st.(g_dispatch).(d_reg).
Definition v8m_get_lifetime_stats (fuel : nat) (st : api) : option ThreadCache.v8m_lifetime_stats :=
  if negb (dispatch_ready st) then Some ThreadCache.lstats0 else Lifetime.v8m_thread_cache_aggregate_lifetime fuel st.(g_dispatch).(d_reg).

(** [None] stands for the zeroed report. *)
Definition v8m_get_numa_balance (st : api) : option PageHeap.numa_balance := if negb (dispatch_ready st) then None else Some (pv_numa_balance st.(g_dispatch).(d_src)).

Definition api_pool_for_lifetime (d : v8m_dispatch) (lifetime : Lifetime.v8m_lifetime_class) : SlabPool.slab_pool :=
  match lifetime with
  | Lifetime.V8M_LIFETIME_EPHEMERAL => slab_pool_for_arena d V8M_ARENA_EPHEMERAL
  | Lifetime.V8M_LIFETIME_SHORT => slab_pool_for_arena d V8M_ARENA_SHORT
  | Lifetime.V8M_LIFETIME_LONG => slab_pool_for_arena d V8M_ARENA_LONG
  | Lifetime.V8M_LIFETIME_UNKNOWN => d.(d_slab)
  end.
Definition api_fill_slab_breakdown (fuel : nat) (pool : SlabPool.slab_pool) : option (list v8m_slab_class_breakdown) :=
  match SlabPool.v8m_slab_pool_get_class_stats fuel pool V8M_MEDIUM_FIRST_CLASS with
  | None => None
  | Some raw =>
      Some (((fun r => MkRow r.(SlabPool.pages_in_use) r.(SlabPool.slots_total) r.(SlabPool.slots_used)
                (if r.(SlabPool.slots_total) =? 0 then 0 else u32 (u64 (r.(SlabPool.slots_used) * 100) / r.(SlabPool.slots_total)))) <$> raw) ++
            replicate (Z.to_nat (V8M_PUBLIC_NUM_SIZE_CLASSES - V8M_MEDIUM_FIRST_CLASS)) zero_row)
  end.
Definition v8m_get_slab_class_breakdown_lifetime (fuel : nat) (st : api) (lifetime : Lifetime.v8m_lifetime_class) : option (list v8m_slab_class_breakdown) :=
  if negb (dispatch_ready st) then Some (replicate (Z.to_nat V8M_PUBLIC_NUM_SIZE_CLASSES) zero_row)
  else api_fill_slab_breakdown fuel (api_pool_for_lifetime st.(g_dispatch) lifetime).
Definition v8m_get_slab_class_breakdown (fuel : nat) (st : api) : option (list v8m_slab_class_breakdown) :=
  if negb (dispatch_ready st) then Some (replicate (Z.to_nat V8M_PUBLIC_NUM_SIZE_CLASSES) zero_row) else api_fill_slab_breakdown fuel st.(g_dispatch).(d_slab).

(** [vmas] is what [v8m_count_vmas] returned. *)
Definition v8m_get_frag_metrics (fuel : nat) (st : api) (vmas : Z) : option v8m_frag_metrics :=
  let live := if dispatch_ready st then v8m_collect_live_stats st else MkLive 0 0 0 0 0 0 0 in
  let large := large_stats st in
  match (if dispatch_ready st then SlabPool.v8m_slab_pool_get_aggregate_stats fuel st.(g_dispatch).(d_slab) else Some (SlabPool.MkStats 0 0 0)) with
  | None => None
  | Some slab =>
      Some (MkFrag live.(lv_live_regions) live.(lv_live_bytes) (if live.(lv_live_regions) =? 0 then 0 else live.(lv_live_bytes) / live.(lv_live_regions))
        4096 (u64 (live.(lv_live_regions) * 100) / 4096)
        (u64 (large.(Large.large_alloc_count) - large.(Large.large_free_count))) (u64 (large.(Large.huge_alloc_count) - large.(Large.huge_free_count)))
        vmas slab.(SlabPool.pages_in_use) slab.(SlabPool.slots_total) slab.(SlabPool.slots_used)
        (if slab.(SlabPool.slots_total) =? 0 then 0 else u64 (slab.(SlabPool.slots_used) * 100) / slab.(SlabPool.slots_total)))
  end.

(** ** The C library's reports *)

Definition mallinfo2 (st : api) : mallinfo_t :=
  let live := v8m_collect_live_stats st in MkInfo2 live.(lv_live_regions) live.(lv_live_bytes) live.(lv_live_bytes) live.(lv_live_bytes).
Definition mallinfo (st : api) : mallinfo_t :=
  let live := v8m_collect_live_stats st in
  MkInfo2 (to_int live.(lv_live_regions)) (to_int live.(lv_live_bytes)) (to_int live.(lv_live_bytes)) (to_int live.(lv_live_bytes)).
(** The numbers of the document, in its order. *)
Definition malloc_info (st : api) (stream : bool) (vmas : Z) : api * list Z * Z :=
  if negb stream then (set_errno st EINVAL, [], -1)
  else
    let live := v8m_collect_live_stats st in let s := heap_stats st in let l := large_stats st in
    (st, [live.(lv_live_regions); live.(lv_live_bytes); live.(lv_live_bytes); live.(lv_bytes_mapped);
          l.(Large.large_alloc_count); l.(Large.large_free_count); l.(Large.large_bytes_in_use); l.(Large.huge_alloc_count); l.(Large.huge_free_count); l.(Large.huge_bytes_in_use);
          s PageHeap.v8m_hugetlb_alloc_calls; s PageHeap.v8m_hugetlb_alloc_failures; s PageHeap.v8m_gigantic_alloc_calls; s PageHeap.v8m_gigantic_alloc_failures;
          s PageHeap.v8m_hugepage_advise_calls; s PageHeap.v8m_mbind_calls; s PageHeap.v8m_mbind_failures; vmas], 0).
Definition mallopt (param value : Z) : Z := 1.
Definition malloc_trim (pad : Z) : Z := 0.
Definition malloc_stats (st : api) : list Z :=
  let live := v8m_collect_live_stats st in
  [live.(lv_mmap_calls); live.(lv_munmap_calls); live.(lv_advise_calls); live.(lv_bytes_mapped); live.(lv_bytes_unmapped); live.(lv_live_regions); live.(lv_live_bytes)].

(** ** Diagnostics *)

Definition v8m_install_size_class_table (active : list Z) (new_table : option (list Z)) (errno : Z) : list Z * Z * Z :=
  match new_table with
  | Some t => if znth t 0 <? 8 then (active, EINVAL, -1) else ((v8m_size_class_install_table active new_table).1, errno, 0)
  | None => ((v8m_size_class_install_table active new_table).1, errno, 0)
  end.
Definition v8m_size_class_to_bytes (active : list Z) (cls : Z) : Z :=
  if (cls <? 0) || (V8M_NUM_SIZE_CLASSES <=? u32 cls) then 0 else v8m_size_class_size active (u32 cls).
Definition v8m_estimate_lifetime (mhz : Z) (st : api) (caller_pc : Z) : api * Lifetime.v8m_lifetime_class :=
  if negb (v8m_api_dispatch_ready st) then (st, Lifetime.V8M_LIFETIME_UNKNOWN)
  else
    let '(g, c) := Lifetime.v8m_thread_cache_lifetime_classify mhz st.(g_dispatch).(d_reg) st.(g_dispatch).(d_tls) caller_pc in
    (set_dispatch st (set_reg st.(g_dispatch) g st.(g_dispatch).(d_tls)), c).

End Control.

(** [v8m_count_vmas]: [reads] are what the successive calls of [read] deliver;
    [opened] is the result of [open]. *)
Fixpoint count_reads (reads : list (option (list Z))) (lines : Z) : Z :=
  match reads with
  | [] | None :: _ | Some [] :: _ => lines
  | Some buf :: reads => count_reads reads (u64 (lines + Z.of_nat (length (filter (fun c => c = 10) buf))))
  end.
Definition v8m_count_vmas (opened : Z) (reads : list (option (list Z))) : Z := if opened <? 0 then 0 else count_reads reads 0.

End ApiControl.
