(* ===== verification/ApiHeap.v ===== *)
(** The page heap keeps the promises the public entry points rely on ([Api]): the
    sweeps of the background tick and the reset of the peak leave regions and
    private mappings alone. *)

From S2P Require Import Prelude Os RegionMap Numa Refill PageHeap PageHeapSpec PageSource Api.
Import PageHeapSpec PageSource Api.

Module ApiHeap.

Class PageHeapViewLaws `{PSL : PageSourceLaws} {PV : PageHeapView} := {
  pv_housekeep_law : forall s, ps_inv s -> ps_inv (pv_housekeep s) /\ ps_regions (pv_housekeep s) ≡ₚ ps_regions s /\ ps_descs (pv_housekeep s) ≡ₚ ps_descs s;
  pv_reset_peak_law : forall s, ps_inv s -> ps_inv (pv_reset_peak s) /\ ps_regions (pv_reset_peak s) ≡ₚ ps_regions s /\ ps_descs (pv_reset_peak s) ≡ₚ ps_descs s
}.

Section Heap.
Context `{OSL : Os.OSLaws}.

Lemma age_sweep_framed idx h threshold now n : framed h (PageHeap.age_sweep idx h threshold now n).1.
Proof.
  revert h n. induction idx as [|i idx IH]; intros h n; [apply framed_pre|]. cbn. destruct (_ || _ || _); [apply IH|]. eapply framed_pre; [|apply IH].
  eapply framed_pre; [|apply framed_thp]. eapply framed_pre; [apply (framed_update h i (fun r => RegionMap.set_promoted r 0)); by intros e|].
  apply framed_os. intros a. apply Os.madvise_law.
Qed.
Lemma thp_age_sweep_framed h e : framed h (PageHeap.v8m_page_heap_thp_age_sweep h e).1.
Proof. unfold PageHeap.v8m_page_heap_thp_age_sweep. destruct (Refill.v8m_thp_cold_threshold_ticks _ _) as [t th]. eapply framed_pre; [apply framed_thp|apply age_sweep_framed]. Qed.
Lemma rebalance_framed h : framed h (PageHeap.v8m_page_heap_numa_rebalance h).1.
Proof.
  unfold PageHeap.v8m_page_heap_numa_rebalance. destruct (_ <=? 1); [apply framed_pre|]. destruct (PageHeap.suppress_loop _ _ _ _) as [flags fl]. cbn [fst].
  assert (F : framed h (PageHeap.set_suppressed h flags)) by (by apply framed_intro). destruct (PageHeap.imbalanced _); [|done]. destruct (_ && _); [|done].
  eapply framed_pre; [exact F|]. apply migrate_framed.
Qed.

Lemma framed_source s h : framed s.(hs_heap) h -> sinv s -> sinv (hs_next s h) /\ ranges h ≡ₚ ranges s.(hs_heap).
Proof.
  intros F I. split; [|by rewrite (framed_ranges _ _ F)]. apply hs_next_inv; [done|eapply framed_hinv; [exact F|apply I]|]. intros a. by apply framed_foreign.
Qed.

#[export] Instance heap_view_laws : PageHeapViewLaws (PSL := heap_source_laws) (PV := heap_view).
Proof.
  constructor; intros s I.
  - destruct (framed_source s (PageHeap.v8m_page_heap_thp_age_sweep (PageHeap.v8m_page_heap_numa_rebalance s.(hs_heap)).1 (hs_env s)).1) as [Hi Hr]; [|done|by split].
    eapply framed_pre; [apply rebalance_framed|apply thp_age_sweep_framed].
  - destruct (framed_source s (PageHeap.v8m_page_heap_reset_peak s.(hs_heap)) (framed_stats _ _) I) as [Hi Hr]. split; [|by split].
    destruct Hi as [A1 A2 A3 A4 A5]. by constructor.
Qed.

End Heap.
End ApiHeap.
