(* ===== verification/ApiBoot.v ===== *)
(** Start-up and shutdown of the public entry points: [v8m_constructor] and
    [v8m_destructor] of [src/v8m_api.c], as far as they concern the allocator's
    state.  The lines they print, and the hooks and the thread of the background
    purge ([BgPurge]), are not part of it.

    [v8m_numa_init] has filled the node tables before ([Numa]): the page heap is
    given as it leaves it. *)

From Stdlib Require Import String.
From S2P Require Import Prelude SizeClass Page Bump Config Refill CoreCache RegionMap Numa PageHeap PageSource NumaPool SlabPool SlabPoolSpec BuddyPool BuddyPoolSpec Large LargeSpec ThreadCache ThreadRegistry Lifetime Dispatch DispatchInv DispatchCache DispatchStep DispatchAlloc DispatchFree DispatchSpec DispatchKeep Api ApiInv ApiAlloc ApiRing.
Import SizeClass Page Config PageSource Dispatch DispatchInv DispatchCache DispatchStep DispatchAlloc DispatchFree DispatchSpec DispatchKeep Api ApiInv ApiAlloc ApiRing.

Module ApiBoot.

(** What the constructor meets: the environment, and the results of
    [pthread_mutex_init], [pthread_atfork] and [pthread_key_create]. *)
Record boot_env := MkBoot { be_getenv : string -> option (list Z); be_fuel : nat; be_mutex_rc : nat -> Z; be_numa_rc : Z -> Z; be_atfork_rc : Z; be_key_rc : Z }.

Section Boot.
Context `{PSL : PageSourceLaws} {PV : PageHeapView}.

(** [None] is the abort. *)
Definition v8m_constructor (e : boot_env) (st : api) : option api :=
  let st := set_init_state st V8M_INIT_RUNNING in
  let st := set_config st (v8m_config_init e.(be_getenv)) in
  match v8m_dispatch_init e.(be_fuel) e.(be_mutex_rc) st.(g_dispatch) with
  | None => None
  | Some (d, ret) =>
      if negb (ret =? 0) then None
      else
        let d := v8m_dispatch_set_use_tlc d true in
        let '(pool, rc) := SlabPool.v8m_slab_pool_global_init e.(be_numa_rc) d.(d_slab) in
        let d := set_slab d (if rc =? 0 then SlabPool.v8m_slab_pool_set_use_numa_pool pool true else pool) in
        if negb (e.(be_atfork_rc) =? 0) then None
        else
          let st := set_init_state (set_dispatch st d) V8M_INIT_READY in
          let '(g, t, _) := ThreadRegistry.v8m_thread_cache_module_init d.(d_reg) d.(d_tls) e.(be_key_rc) in
          Some (set_dispatch st (set_reg d g t))
  end.

(** [fuel] bounds the walk of the registry. *)
Definition v8m_destructor (fuel : nat) (st : api) : option api :=
  let d := st.(g_dispatch) in
  match ThreadRegistry.v8m_thread_cache_module_shutdown fuel d.(d_reg) d.(d_tls) with
  | None => None
  | Some (g, t) => Some (set_init_state (set_dispatch st (set_reg d g t)) V8M_INIT_TORN_DOWN)
  end.

(** The zeroed statics of the process, its bootstrap buffer partly used. *)
Definition zeroed (s : src) (boot_bump signal_bump : Bump.v8m_bump) (bytes : mem) : api :=
  MkApi V8M_INIT_NONE (boot s) (MkConfig (replicate 12 0) 0) boot_bump bytes signal_bump RegionMap.owns_cache0
    0 NULL false (replicate (Z.to_nat V8M_DOUBLE_FREE_RING_SIZE) NULL) 0 0.

Context (ext extd : list (Z * Z)) (image : Z * Z).

(** The state between start-up and the first call of the program. *)
Definition started (st : api) : Prop :=
  dispatch_ready st = true /\ st.(g_oom_handler) = NULL /\ st.(g_soft_limit) = 0 /\ st.(t_oom_in_handler) = false /\
  ring_fresh st /\ coherent st.(v8m_config) /\ cur_cache st.(g_dispatch) = None /\ st.(g_dispatch).(d_use_tlc) = true.

Lemma init_nodes_idle rc idx np : idle_numa np -> (forall i, i ∈ idx -> 0 <= i < 64) -> idle_numa (NumaPool.init_nodes rc idx np).1.
Proof.
  revert np. induction idx as [|i idx IH]; intros np Hn Hi; [done|]. cbn. destruct (negb _); [done|]. apply IH; [|intros j Hj; apply Hi; by right].
  pose proof (Hi i ltac:(left)) as Hir. destruct Hn as (Hl & He & Hd).
  assert (Hat : NumaPool.n_partials (NumaPool.node_at np i) = [] /\ NumaPool.n_fulls (NumaPool.node_at np i) = []).
  { unfold NumaPool.node_at. destruct (np !! Z.to_nat i) as [nd|] eqn:Hnd; [|done]. rewrite Forall_lookup in He. by apply (He _ _ Hnd). }
  destruct Hat as [H1 H2]. unfold NumaPool.set_node_at. split; [by rewrite length_insert|].
  assert (He' : Forall (fun nd => nd.(NumaPool.n_partials) = [] /\ nd.(NumaPool.n_fulls) = []) (<[Z.to_nat i:=NumaPool.MkNode (NumaPool.n_partials (NumaPool.node_at np i)) (NumaPool.n_fulls (NumaPool.node_at np i)) i (NumaPool.huge_pages_alive (NumaPool.node_at np i)) (NumaPool.huge_pages_allocated (NumaPool.node_at np i)) (NumaPool.huge_pages_released (NumaPool.node_at np i)) (NumaPool.slab_carve_calls (NumaPool.node_at np i)) (NumaPool.slab_release_calls (NumaPool.node_at np i))]> np)) by (by apply Forall_insert).
  split; [exact He'|]. clear -He'. set (l := <[_:=_]> np) in *. clearbody l. unfold NumaPool.all_descs. induction He' as [|nd l [E1 E2] _ IH]; [done|]. cbn. unfold NumaPool.node_descs at 1. rewrite E1, E2. exact IH.
Qed.

(** A slab pool without pages. *)
Definition empty_pool (sp : SlabPool.slab_pool) : Prop :=
  idle_numa sp.(SlabPool.g_slab_numa_pool) /\ sp.(SlabPool.pages) = ∅ /\ sp.(SlabPool.classes) = replicate 32 SlabPool.class0 /\ sp.(SlabPool.drained) = [].

Lemma numa_init_idle rc : idle_numa (NumaPool.v8m_numa_pool_init rc).1.
Proof.
  apply (init_nodes_idle rc (seqZ 0 Numa.V8M_NUMA_MAX_NODES) (replicate 64 NumaPool.node0) idle_numa0).
  intros i Hi. apply elem_of_seqZ in Hi. unfold Numa.V8M_NUMA_MAX_NODES in Hi. lia.
Qed.

Lemma global_init_empty rc st : empty_pool st -> empty_pool (SlabPool.v8m_slab_pool_global_init rc st).1.
Proof.
  intros (H1 & H2 & H3 & H4). unfold SlabPool.v8m_slab_pool_global_init. destruct (SlabPool.g_slab_numa_pool_ready st); [by split|].
  pose proof (numa_init_idle rc) as Hn. destruct (NumaPool.v8m_numa_pool_init rc) as [np r]. destruct (negb _); by split.
Qed.
Lemma ready_empty s : empty_pool (ready_pool s).
Proof. split; [apply idle_numa0|]. by split. Qed.

(** Static buffers inside the image, with the blocks handed out before start-up. *)
Definition statics_ok (boot_bump signal_bump : Bump.v8m_bump) (L : list (Z * Z)) : Prop :=
  static_ok image boot_bump Bump.V8M_BOOTSTRAP_SIZE /\ boot_bump.(Bump.offset) <= Bump.V8M_BOOTSTRAP_SIZE /\ static_ok image signal_bump Bump.V8M_SIGNAL_SAFE_SIZE /\
  (forall x, x ∈ L -> boot_bump.(Bump.buffer) <= x.1 /\ 0 < x.2 /\ x.1 + x.2 <= boot_bump.(Bump.buffer) + boot_bump.(Bump.offset)) /\
  (forall i j x y, L !! i = Some x -> L !! j = Some y -> i <> j -> x.1 + x.2 <= y.1 \/ y.1 + y.2 <= x.1).

Lemma init_boot fuel rc s : (forall n, rc n = 0) -> v8m_dispatch_init fuel rc (boot s) = Some (booted s, 0).
Proof.
  intros Hm. rewrite <- (boot_init fuel s). generalize (boot s). intros d. unfold v8m_dispatch_init.
  assert (Hl : forall arenas done d, init_lifetime fuel rc arenas done d = init_lifetime fuel (fun _ => 0) arenas done d).
  { intros arenas. induction arenas as [|a l IH]; intros dn d0; [done|]. cbn [init_lifetime]. rewrite Hm. destruct (on_slab _ _ _) as [d1 r]. destruct (negb _); [done|]. apply IH. }
  rewrite Hm. destruct (on_slab _ _ _) as [d1 r]. destruct (negb _); [done|]. rewrite Hl. destruct (init_lifetime _ _ _ _ _) as [[d2 r2]|]; [|done]. by rewrite Hm.
Qed.

Lemma booted_slab s : d_slab (v8m_dispatch_set_use_tlc (booted s) true) = ready_pool s.
Proof. reflexivity. Qed.
Lemma booted_tls s : (booted s).(d_tls).(ThreadRegistry.t_cache) = NULL.
Proof. reflexivity. Qed.

Lemma zeroed_ring : Z.of_nat (length (replicate (Z.to_nat V8M_DOUBLE_FREE_RING_SIZE) NULL)) = V8M_DOUBLE_FREE_RING_SIZE.
Proof. rewrite length_replicate. by apply Z2Nat.id. Qed.

Definition constructed (s : src) (sp : SlabPool.slab_pool) (g : ThreadRegistry.reg) (t : ThreadRegistry.tls) : v8m_dispatch :=
  set_reg (set_slab (v8m_dispatch_set_use_tlc (booted s) true) sp) g t.

Lemma constructed_dispatch s sp g t m : ps_inv s -> ps_regions s ≡ₚ ext -> ps_descs s ≡ₚ extd -> empty_pool sp -> t.(ThreadRegistry.t_cache) = NULL ->
  dispatch_ok ext extd m (constructed s sp g t) no_blocks.
Proof.
  intros Is Hr Hd (H1 & H2 & H3 & H4) Hreg. apply boot_front; [|reflexivity|unfold cur_cache; cbn; by rewrite Hreg|reflexivity].
  apply (boot_world ext extd m (constructed s sp g t) s); [reflexivity|done|done|done|reflexivity| |reflexivity|reflexivity].
  intros a Har. assert (Hc : a = 0 \/ a = 1 \/ a = 2 \/ a = 3) by (unfold arena, V8M_ARENA_COUNT in Har; lia).
  destruct Hc as [->|[->|[->| ->]]]; [exact (conj H2 (conj H3 (conj H4 H1)))|..]; (split; [reflexivity|split; [reflexivity|split; [reflexivity|apply idle_numa0]]]).
Qed.

(** The dispatcher the constructor leaves, from the one [v8m_dispatch_init] makes. *)
Definition wired (e : boot_env) (d : v8m_dispatch) : v8m_dispatch :=
  let d := v8m_dispatch_set_use_tlc d true in
  let '(pool, rc) := SlabPool.v8m_slab_pool_global_init e.(be_numa_rc) d.(d_slab) in
  let d := set_slab d (if rc =? 0 then SlabPool.v8m_slab_pool_set_use_numa_pool pool true else pool) in
  let '(g, t, _) := ThreadRegistry.v8m_thread_cache_module_init d.(d_reg) d.(d_tls) e.(be_key_rc) in set_reg d g t.

Lemma constructor_eq e st d : v8m_dispatch_init e.(be_fuel) e.(be_mutex_rc) st.(g_dispatch) = Some (d, 0) -> e.(be_atfork_rc) = 0 ->
  v8m_constructor e st = Some (set_dispatch (set_init_state (set_config st (v8m_config_init e.(be_getenv))) V8M_INIT_READY) (wired e d)).
Proof.
  intros Hd Ha. unfold v8m_constructor, wired. cbn [g_dispatch set_init_state set_config]. rewrite Hd. cbn [Z.eqb negb]. destruct (SlabPool.v8m_slab_pool_global_init _ _) as [pool rc].
  rewrite Ha. cbn [Z.eqb negb]. destruct (ThreadRegistry.v8m_thread_cache_module_init _ _ _) as [[g t] r]. done.
Qed.

Lemma wired_ok e s m : ps_inv s -> ps_regions s ≡ₚ ext -> ps_descs s ≡ₚ extd ->
  dispatch_ok ext extd m (wired e (booted s)) no_blocks /\ cur_cache (wired e (booted s)) = None /\ (wired e (booted s)).(d_use_tlc) = true.
Proof.
  intros Is Hr Hd. unfold wired. rewrite booted_slab. pose proof (global_init_empty e.(be_numa_rc) (ready_pool s) (ready_empty s)) as Hp.
  pose proof (fun sp g t => constructed_dispatch s sp g t m Is Hr Hd) as Hc. unfold constructed in Hc. pose proof (booted_tls s) as Et.
  generalize dependent (booted s). intros b Hc Et. destruct (SlabPool.v8m_slab_pool_global_init _ _) as [pool rc]. cbn [fst] in Hp.
  assert (Hsp : empty_pool (if rc =? 0 then SlabPool.v8m_slab_pool_set_use_numa_pool pool true else pool)) by (destruct (rc =? 0); [exact Hp|done]).
  set (sp := if rc =? 0 then _ else _) in *. clearbody sp.
  assert (Hreg : let '(g, t, _) := ThreadRegistry.v8m_thread_cache_module_init b.(d_reg) b.(d_tls) e.(be_key_rc) in t.(ThreadRegistry.t_cache) = NULL).
  { unfold ThreadRegistry.v8m_thread_cache_module_init. destruct (ThreadRegistry.g_key_initialized _); [done|]. by destruct (negb _). }
  cbn [set_slab v8m_dispatch_set_use_tlc set_use_tlc d_reg d_tls]. destruct (ThreadRegistry.v8m_thread_cache_module_init _ _ _) as [[g t] r].
  split; [exact (Hc sp g t Hsp Hreg)|]. split; [|done]. unfold cur_cache. cbn [set_reg d_tls]. by rewrite Hreg.
Qed.

Lemma constructor_ok e s bb sb bytes L m : ps_inv s -> ps_regions s ≡ₚ ext -> ps_descs s ≡ₚ extd -> image ∈ extd -> statics_ok bb sb L ->
  (forall n, e.(be_mutex_rc) n = 0) -> e.(be_atfork_rc) = 0 -> BuddyPoolSpec.mode_ok m (v8m_config_init e.(be_getenv)) ->
  exists st, v8m_constructor e (zeroed s bb sb bytes) = Some st /\ started st /\ api_ok ext extd m image st no_blocks L /\
    st.(v8m_bootstrap_bump) = bb /\ st.(bootstrap_mem) = bytes.
Proof.
  intros Is Hr Hd Hi (S1 & S2 & S3 & S4 & S5) Hm Ha Hmode. rewrite (constructor_eq e (zeroed s bb sb bytes) (booted s) (init_boot _ _ s Hm) Ha). eexists. split; [reflexivity|].
  destruct (wired_ok e s m Is Hr Hd) as (H1 & H2 & H3). generalize dependent (wired e (booted s)). intros d H1 H2 H3. split; [|split; [|done]].
  - split; [done|]. split; [done|]. split; [done|]. split; [done|]. split; [by split|]. split; [apply init_coherent|]. by split.
  - constructor; [exact H1|exact Hi|by split|exact S4|exact S5|exact S3|exact Hmode|exact zeroed_ring].
Qed.

End Boot.
End ApiBoot.
