(* ===== verification/ApiProgram.v ===== *)
(** Whole programs over the public entry points ([Api]), from the first call after
    start-up: the blocks a program holds, what it stored there, and the rules it
    must respect. *)

From S2P Require Import Prelude SizeClass Page Bump Config RegionMap PageHeap PageSource NumaPool SlabPool SlabPoolSpec BuddyPool BuddyPoolSpec Large LargeSpec ThreadCache ThreadRegistry Lifetime Dispatch DispatchInv DispatchCache DispatchStep DispatchAlloc DispatchFree DispatchSpec DispatchKeep Api ApiInv ApiAlloc ApiServe ApiFree ApiData ApiRing ApiControl ApiBoot.
Import SizeClass Page Config PageSource Dispatch DispatchInv DispatchCache DispatchStep DispatchAlloc DispatchFree DispatchSpec DispatchKeep Api ApiInv ApiAlloc ApiServe ApiFree ApiData ApiRing ApiControl ApiBoot.

Module ApiProgram.

(** A call, with the readings it makes. *)
Inductive call :=
  | CMalloc (e : call_env) (size : Z)
  | CCalloc (e : call_env) (nmemb size : Z)
  | CAligned (e : call_env) (log_al size : Z)
  | CRealloc (e ef : call_env) (i : nat) (size : Z)
  | CFree (e : call_env) (i : nat)
  | CStore (i : nat) (off v : Z)
  | CSoftLimit (bytes : Z)
  | COption (opt value : Z).

Definition zeros (n : Z) : gmap Z Z := list_to_map ((fun off => (off, 0)) <$> seqZ 0 n).
Definition prefix_data (data : gmap Z Z) (n : Z) : gmap Z Z := filter (fun x => x.1 < n) data.

Section Program.
Context `{PSL : PageSourceLaws} {PV : PageHeapView}.
Context (ext extd : list (Z * Z)) (m : bool) (image : Z * Z).
Notation api_ok := (api_ok ext extd m image).
Context (call_handler : Z -> Z -> api -> api * Z) (Hhandler : handler_law ext extd m image call_handler).

Definition gets (size : Z) (data : gmap Z Z) (U : list ublock) (r : option (api * Z)) : option (api * list ublock) :=
  match r with
  | None => None
  | Some (st, p) => Some (st, if p =? NULL then U else MkBlock p size data :: U)
  end.

(** [None] when the call does not return.  A block that [v8m_realloc] moves, or
    leaves in place, keeps its values up to the new size. *)
Definition perform (c : call) (st : api) (U : list ublock) : option (api * list ublock) :=
  match c with
  | CMalloc e size => gets size ∅ U (v8m_malloc call_handler e st size)
  | CCalloc e nmemb size => gets (nmemb * size) (zeros (nmemb * size)) U (v8m_calloc call_handler e st nmemb size)
  | CAligned e log_al size => gets size ∅ U (v8m_aligned_alloc call_handler e st (2 ^ log_al) size)
  | CRealloc e ef i size =>
      match U !! i with
      | None => Some (st, U)
      | Some u =>
          match v8m_realloc call_handler e ef st u.(ub_ptr) size with
          | None => None
          | Some (st, q) => Some (st, if q =? NULL then U else MkBlock q size (prefix_data u.(ub_data) size) :: delete i U)
          end
      end
  | CFree e i =>
      match U !! i with
      | None => Some (st, U)
      | Some u => match v8m_free e st u.(ub_ptr) with None => None | Some st => Some (st, delete i U) end
      end
  | CStore i off v =>
      match U !! i with
      | None => Some (st, U)
      | Some u => Some (poke st u.(ub_ptr) off v, <[i := MkBlock u.(ub_ptr) u.(ub_size) (<[off := v]> u.(ub_data))]> U)
      end
  | CSoftLimit bytes => Some ((v8m_set_soft_limit st bytes).1, U)
  | COption opt value => Some ((v8m_set_option st opt value).1, U)
  end.

(** The release of the block at [p] can be carried out in [st]. *)
Definition releasable (e : call_env) (st : api) (p : Z) : Prop :=
  free_safe e st (owner_of st.(g_dispatch) p) p /\ forall n, LargeSpec.zone_intact st.(g_dispatch).(d_large) (p, n).

(** The rules: stores stay inside the blocks, a released block is one the program
    holds, with its red zone intact and no page header forged.  A large object is
    not grown in place.  The coalescing mode stays as it is at start-up; the debug
    mode, off then, may be turned on for good once a slab page was set up, which
    latched the use-after-free detector off. *)
Definition allowed (c : call) (st : api) (U : list ublock) : Prop :=
  match c with
  | CMalloc e size => 0 <= size < 2 ^ 64 /\ fueled e
  | CCalloc e nmemb size => 0 <= nmemb < 2 ^ 64 /\ 0 <= size < 2 ^ 64 /\ nmemb * size <= SIZE_MAX /\ fueled e
  | CAligned e log_al size => 0 <= log_al < 64 /\ 0 <= size < 2 ^ 64 /\ fueled e
  | CRealloc e ef i size => 0 < size < 2 ^ 64 /\ fueled e /\ forall u, U !! i = Some u ->
      (owner_of st.(g_dispatch) u.(ub_ptr) = InLarge -> u.(ub_size) < size -> v8m_malloc_usable_size st u.(ub_ptr) < size) /\
      rd st.(g_dispatch).(d_buddy).(BuddyPool.bmem) (v8m_ptr_to_meta u.(ub_ptr)) <> V8M_MAGIC /\
      forall st2 q, before_release call_handler e st u.(ub_ptr) size = Some (st2, q) -> releasable ef st2 u.(ub_ptr)
  | CFree e i => forall u, U !! i = Some u -> releasable e st u.(ub_ptr)
  | CStore i off v => forall u, U !! i = Some u -> 0 <= off < u.(ub_size)
  | CSoftLimit bytes => 0 <= bytes
  | COption opt value => opt <> V8M_OPT_DEFERRED_COALESCE /\ (opt = V8M_OPT_DEBUG -> value <> 0 /\ st.(g_dispatch).(d_slab).(SlabPool.pages) <> ∅)
  end.

(** ** The ring of freed pointers *)

(** Each pointer is on record once. *)
Definition once (ring : list Z) : Prop := forall i j p, p <> NULL -> ring !! i = Some p -> ring !! j = Some p -> i = j.
(** What no call here changes, and what happens to the ring when [p] is handed out. *)
Definition kept_apart (st st' : api) : Prop := st'.(v8m_config) = st.(v8m_config) /\ st'.(g_oom_handler) = st.(g_oom_handler) /\ st'.(g_init_state) = st.(g_init_state).
Definition ring_same (st st' : api) : Prop := kept_apart st st' /\ st'.(g_double_free_ring) = st.(g_double_free_ring).
Definition ring_after (st : api) (p : Z) (st' : api) : Prop :=
  kept_apart st st' /\ if debug_on st && negb (p =? NULL) then st'.(g_double_free_ring) = (debug_clear_double_free_record st p).(g_double_free_ring) else st'.(g_double_free_ring) = st.(g_double_free_ring).

Lemma ring_same_trans st1 st2 st3 : ring_same st1 st2 -> ring_same st2 st3 -> ring_same st1 st3.
Proof. intros [[A1 [A2 A3]] A4] [[B1 [B2 B3]] B4]. split; [split_and!; congruence|congruence]. Qed.

Lemma clear_ring_eq st st' p : st'.(g_double_free_ring) = st.(g_double_free_ring) -> (debug_clear_double_free_record st' p).(g_double_free_ring) = (debug_clear_double_free_record st p).(g_double_free_ring).
Proof. intros He. unfold debug_clear_double_free_record. rewrite He. destruct (p =? NULL); [done|]. by destruct (list_find _ _) as [[i x]|]. Qed.

Lemma debug_config st st' : st'.(v8m_config) = st.(v8m_config) -> debug_on st' = debug_on st.
Proof. intros He. unfold debug_on. by rewrite He. Qed.

Lemma ring_after_trans st1 st2 p st3 : ring_same st1 st2 -> ring_after st2 p st3 -> ring_after st1 p st3.
Proof.
  intros [[A1 [A2 A3]] A4] [[B1 [B2 B3]] B4]. split; [split_and!; congruence|]. rewrite (debug_config _ _ A1) in B4. destruct (_ && _); [|congruence]. rewrite B4. by apply clear_ring_eq.
Qed.
Lemma ring_after_same st1 st2 p st3 : ring_after st1 p st2 -> ring_same st2 st3 -> ring_after st1 p st3.
Proof. intros [[A1 [A2 A3]] A4] [[B1 [B2 B3]] B4]. split; [split_and!; congruence|]. destruct (_ && _); congruence. Qed.

Lemma over_ring st size : ring_same st (over_soft_limit st size).1.
Proof. unfold over_soft_limit. destruct (_ =? _); [done|]. by destruct (_ <=? _). Qed.
Lemma handler_ring st size : st.(g_oom_handler) = NULL -> (oom_handler_says_retry call_handler st size) = (st, false).
Proof. intros He. unfold oom_handler_says_retry. rewrite He. by destruct (t_oom_in_handler st). Qed.
Lemma gate_ring st size : st.(g_oom_handler) = NULL -> ring_same st (pre_alloc_soft_limit_gate call_handler st size).1.
Proof.
  intros He. unfold pre_alloc_soft_limit_gate. pose proof (over_ring st size) as Ho. destruct (over_soft_limit st size) as [st1 over]. cbn [fst] in Ho. destruct over; cbn [negb]; [|done].
  rewrite handler_ring; [|destruct Ho as [[_ [Hh _]] _]; congruence]. destruct Ho as [[A1 [A2 A3]] A4]. by split.
Qed.

Lemma retry_ring alloc e st size st' p : st.(g_oom_handler) = NULL -> alloc_with_retry call_handler alloc e st size = Some (st', p) -> ring_same st st'.
Proof.
  intros He. unfold alloc_with_retry, attempt. destruct (alloc _ _) as [[d q]|]; [|done]. destruct (q =? NULL).
  - rewrite handler_ring by done. by intros [= <- _].
  - by intros [= <- _].
Qed.

Lemma post_ring e st p pc size : p <> NULL -> ring_after st p (post_alloc_record e st p pc size).
Proof.
  intros Hp. unfold ring_after, kept_apart, post_alloc_record. rewrite (proj2 (Z.eqb_neq _ _) Hp), andb_true_r. destruct (debug_on st); [|done].
  unfold debug_clear_double_free_record. rewrite (proj2 (Z.eqb_neq _ _) Hp). by destruct (list_find _ _) as [[i x]|].
Qed.

Lemma do_malloc_ring e st size st' p : st.(g_oom_handler) = NULL -> dispatch_ready st = true -> do_malloc_pc call_handler e st size = Some (st', p) -> ring_after st p st'.
Proof.
  intros He Hr. unfold do_malloc_pc. rewrite Hr. cbn [negb]. pose proof (gate_ring st size He) as Hg. destruct (pre_alloc_soft_limit_gate call_handler st size) as [st1 ok]. cbn [fst] in Hg.
  assert (Hnull : forall st2, ring_same st st2 -> ring_after st NULL (set_errno st2 ENOMEM)) by (intros st2 [[A1 [A2 A3]] A4]; split; [done|]; by rewrite andb_false_r).
  destruct ok; cbn [negb]; [|intros [= <- <-]; destruct Hg as [Ha Hb]; split; [done|]; by rewrite andb_false_r].
  destruct (alloc_with_retry _ _ _ _ _) as [[st2 q]|] eqn:Ea; [|done]. apply retry_ring in Ea; [|destruct Hg as [[_ [Hh _]] _]; congruence].
  pose proof (ring_same_trans _ _ _ Hg Ea) as Hs. destruct (Z.eqb_spec q NULL) as [->|Hq]; intros [= <- <-]; [by apply Hnull|]. eapply ring_after_trans; [exact Hs|by apply post_ring].
Qed.

Lemma malloc_ring e st size st' p : st.(g_oom_handler) = NULL -> dispatch_ready st = true -> coherent st.(v8m_config) -> v8m_malloc call_handler e st size = Some (st', p) -> ring_after st p st'.
Proof.
  intros He Hr Hc. unfold v8m_malloc. destruct (bool_decide _ && _ && _) eqn:Hf; [|by apply do_malloc_ring]. apply andb_true_iff in Hf as [_ Hf].
  apply (co_flag _ Hc) in Hf as [Hd _]. destruct (ThreadCache.v8m_thread_cache_alloc_inline _ _ _ _) as [c a]. destruct (negb _).
  - intros [= <- <-]. split; [done|]. unfold debug_on. rewrite Hd. done.
  - intros Hm. eapply ring_after_trans; [|eapply do_malloc_ring; [| |exact Hm]; done]. done.
Qed.

Lemma aligned_ring e st al size st' p : st.(g_oom_handler) = NULL -> dispatch_ready st = true -> v8m_aligned_alloc call_handler e st al size = Some (st', p) -> ring_after st p st'.
Proof.
  intros He Hr. unfold v8m_aligned_alloc. destruct (negb (is_pow2 al)); [intros [= <- <-]; split; [done|]; by rewrite andb_false_r|]. rewrite Hr. cbn [negb]. unfold do_aligned_alloc_pc.
  pose proof (gate_ring st size He) as Hg. destruct (pre_alloc_soft_limit_gate call_handler st size) as [st1 ok]. cbn [fst] in Hg.
  assert (Hnull : forall st2, ring_same st st2 -> ring_after st NULL (set_errno st2 ENOMEM)) by (intros st2 [[A1 [A2 A3]] A4]; split; [done|]; by rewrite andb_false_r).
  destruct ok; cbn [negb]; [|rewrite Z.eqb_refl; intros [= <- <-]; by apply Hnull].
  destruct (alloc_with_retry _ _ _ _ _) as [[st2 q]|] eqn:Ea; [|done]. apply retry_ring in Ea; [|destruct Hg as [[_ [Hh _]] _]; congruence].
  pose proof (ring_same_trans _ _ _ Hg Ea) as Hs. destruct (Z.eqb_spec q NULL) as [->|Hq].
  - rewrite Z.eqb_refl. intros [= <- <-]. by apply Hnull.
  - rewrite (proj2 (Z.eqb_neq _ _) Hq). intros [= <- <-]. eapply ring_after_trans; [exact Hs|by apply post_ring].
Qed.

(** A release puts the pointer on record in debug mode. *)
Definition ring_freed (st : api) (p : Z) (st' : api) : Prop :=
  kept_apart st st' /\ (debug_on st = true -> p ∉ st.(g_double_free_ring) /\ exists i, st'.(g_double_free_ring) = <[i := p]> st.(g_double_free_ring)) /\
  (debug_on st = false -> st'.(g_double_free_ring) = st.(g_double_free_ring)).

Lemma free_ring e st B L w p n st' : api_ok st B L -> B w p n -> dispatch_ready st = true -> coherent st.(v8m_config) -> v8m_free e st p = Some st' -> ring_freed st p st'.
Proof.
  intros Ok Hp Hr Hc. destruct (block_not_static ext extd m image st B L w p n Ok Hp) as (Hn & Hb & Hg). destruct (block_owned _ _ _ _ _ _ _ _ (ao_dispatch _ _ _ _ _ _ _ Ok) Hp) as [_ Hown].
  unfold v8m_free. rewrite (proj2 (Z.eqb_neq _ _) Hn). cbn zeta. set (st1 := on_reg st _). change (d_src (g_dispatch st1)) with (d_src (g_dispatch st)). destruct (pv_owns_fast _ _ _) as [oc owned].
  set (st2 := set_owns st1 oc).
  assert (Hslow : v8m_free_slow e st2 p = Some st' -> ring_freed st p st').
  { unfold v8m_free_slow. rewrite (proj2 (Z.eqb_neq _ _) Hn). change (v8m_bootstrap_bump st2) with (v8m_bootstrap_bump st). change (v8m_signal_safe_bump st2) with (v8m_signal_safe_bump st).
    rewrite Hb, Hg. change (dispatch_ready st2) with (dispatch_ready st). rewrite Hr. cbn [negb]. change (debug_on st2) with (debug_on st). change (d_src (g_dispatch st2)) with (d_src (g_dispatch st)). rewrite Hown, andb_true_r.
    unfold ring_freed. destruct (debug_on st).
    - unfold debug_check_double_free. change (g_double_free_ring st2) with (g_double_free_ring st). destruct (bool_decide_reflect (p ∈ g_double_free_ring st)) as [|Hnin]; [done|]. cbn zeta.
      destruct (v8m_dispatch_free _ _ _) as [[d r]|]; [|done]. intros [= <-]. split; [done|]. split; [|done]. intros _. split; [done|]. by eexists.
    - destruct (v8m_dispatch_free _ _ _) as [[d r]|]; [|done]. intros [= <-]. split; [done|]. by split. }
  destruct (cur_cache (g_dispatch st2)) as [c|]; [|exact Hslow]. destruct (_ && _) eqn:Hfast; [|exact Hslow]. clear Hslow.
  apply andb_true_iff in Hfast as [[[[[_ Hf]%andb_true_iff _]%andb_true_iff _]%andb_true_iff _]%andb_true_iff _]. apply (co_flag _ Hc) in Hf as [Hd _].
  destruct (ThreadCache.v8m_thread_cache_free_inline _ _ _ _ _) as [[mm c'] o]. intros [= <-]. split; [done|]. split; [unfold debug_on; by rewrite Hd|done].
Qed.

(** ** The invariant *)

(** Each pointer is on record once, no block the program holds is on record, and
    without the debug mode nothing is. *)
Record clean (st : api) (U : list ublock) : Prop := {
  cl_once : once st.(g_double_free_ring);
  cl_blocks : forall u, u ∈ U -> u.(ub_ptr) ∉ st.(g_double_free_ring);
  cl_off : debug_on st = false -> forall p, p ∈ st.(g_double_free_ring) -> p = NULL
}.

Record holds (st : api) (U : list ublock) (B : owner -> Z -> Z -> Prop) : Prop := {
  ho_ok : api_ok st B [];
  ho_view : view ext extd m st.(g_dispatch) U B;
  ho_ready : dispatch_ready st = true;
  ho_handler : st.(g_oom_handler) = NULL;
  ho_config : coherent st.(v8m_config);
  ho_clean : clean st U
}.

Lemma clear_ring st p : once st.(g_double_free_ring) -> p <> NULL ->
  once (debug_clear_double_free_record st p).(g_double_free_ring) /\ p ∉ (debug_clear_double_free_record st p).(g_double_free_ring) /\
  forall x, x <> NULL -> x ∈ (debug_clear_double_free_record st p).(g_double_free_ring) -> x ∈ st.(g_double_free_ring).
Proof.
  intros Ho Hp. unfold debug_clear_double_free_record. rewrite (proj2 (Z.eqb_neq _ _) Hp). destruct (list_find _ _) as [[i x]|] eqn:Hf.
  - apply list_find_Some in Hf as (Hi & -> & _). cbn. split_and!.
    + intros a b q Hq Ha Hb. apply list_lookup_insert_Some in Ha as [(_ & Hx & _)|[_ Ha]]; [done|]. apply list_lookup_insert_Some in Hb as [(_ & Hx & _)|[_ Hb]]; [done|]. by eapply Ho.
    + intros (j & Hj)%list_elem_of_lookup. apply list_lookup_insert_Some in Hj as [(_ & Hx & _)|[Hne Hj]]; [done|]. apply Hne. by eapply Ho.
    + intros y Hy (j & Hj)%list_elem_of_lookup. apply list_lookup_insert_Some in Hj as [(_ & Hx & _)|[_ Hj]]; [done|]. by eapply list_elem_of_lookup_2.
  - split_and!; [done| |done]. intros Hin. apply list_find_None in Hf. rewrite Forall_forall in Hf. by apply (Hf p Hin).
Qed.

Lemma clean_after st U p st' n data : clean st U -> (forall u, u ∈ U -> u.(ub_ptr) <> NULL) -> ring_after st p st' -> clean st' (if p =? NULL then U else MkBlock p n data :: U).
Proof.
  intros [Ho Hn Hz] Hu [[Ec _] Hr]. pose proof (debug_config _ _ Ec) as Ed. destruct (debug_on st) eqn:Hd; cbn [andb] in Hr.
  - destruct (Z.eqb_spec p NULL) as [->|Hp]; cbn [negb] in Hr; [constructor; rewrite ?Hr, ?Ed; done|]. destruct (clear_ring st p Ho Hp) as (H1 & H2 & H3). rewrite <- Hr in H1, H2, H3. constructor; [done| |by rewrite Ed].
    intros u [->|Hin]%elem_of_cons; [done|]. intros Hx. apply (Hn u Hin). by apply H3; [apply Hu|].
  - constructor; rewrite ?Hr; [done| |by intros _; apply Hz]. destruct (Z.eqb_spec p NULL) as [->|Hp]; [done|]. intros u [->|Hin]%elem_of_cons; [|by apply Hn]. cbn. intros Hx. apply Hp. by apply Hz.
Qed.

Lemma clean_freed st U p st' : clean st U -> ring_freed st p st' -> p <> NULL -> (forall u, u ∈ U -> u.(ub_ptr) <> p) -> clean st' U.
Proof.
  intros [Ho Hn Hz] [[Ec _] [Hr Hoff]] Hp Hu. pose proof (debug_config _ _ Ec) as Ed. destruct (debug_on st) eqn:Hd.
  2: { constructor; rewrite ?(Hoff eq_refl); [done|done|by intros _; apply Hz]. }
  destruct (Hr eq_refl) as (Hnin & i & Ei). constructor; rewrite ?Ei, ?Ed; [| |done].
  - intros a b q Hq Ha Hb. apply list_lookup_insert_Some in Ha as [(<- & <- & _)|[_ Ha]]; apply list_lookup_insert_Some in Hb as [(<- & Heq & _)|[_ Hb]]; [done| | |by eapply Ho].
    + exfalso. apply Hnin. by eapply list_elem_of_lookup_2.
    + exfalso. apply Hnin. rewrite Heq. by eapply list_elem_of_lookup_2.
  - intros u Hin (j & Hj)%list_elem_of_lookup. apply list_lookup_insert_Some in Hj as [(_ & Hx & _)|[_ Hj]]; [by apply (Hu u)|]. apply (Hn u Hin). by eapply list_elem_of_lookup_2.
Qed.

Lemma clean_sub st U U' : clean st U -> (forall u, u ∈ U' -> exists v, v ∈ U /\ u.(ub_ptr) = v.(ub_ptr)) -> clean st U'.
Proof. intros [Ho Hn Hz] Hs. constructor; [done| |done]. intros u Hu. destruct (Hs u Hu) as (v & Hv & ->). by apply Hn. Qed.

Lemma clean_same st st' U : clean st U -> ring_same st st' -> clean st' U.
Proof. intros [Ho Hn Hz] [[Ec _] Hr]. constructor; rewrite ?Hr; [done|done|]. by rewrite (debug_config _ _ Ec). Qed.

(** ** Every call keeps it *)

Lemma dispatch_iff d B B' : (forall w p n, B w p n <-> B' w p n) -> dispatch_ok ext extd m d B -> dispatch_ok ext extd m d B'.
Proof. intros He (K & loc & KM & SL & LL & F & Hth). exists K, loc, KM, SL, LL. split; [|done]. by eapply front_iff. Qed.
Lemma ok_blocks st B L B' : api_ok st B L -> dispatch_ok ext extd m st.(g_dispatch) B' -> api_ok st B' L.
Proof. intros [] Hd. by constructor. Qed.

Lemma holds_ptr st U B u : holds st U B -> u ∈ U -> u.(ub_ptr) <> NULL.
Proof. intros [Ok V _ _ _ _] Hu. destruct (vw_block _ _ _ _ _ _ V u Hu) as (w & n & Hb & _). by destruct (block_owned _ _ _ _ _ _ _ _ (ao_dispatch _ _ _ _ _ _ _ Ok) Hb). Qed.

Lemma kept_fields st st' : kept_apart st st' -> dispatch_ready st = true -> st.(g_oom_handler) = NULL -> coherent st.(v8m_config) ->
  dispatch_ready st' = true /\ st'.(g_oom_handler) = NULL /\ coherent st'.(v8m_config).
Proof. intros (A1 & A2 & A3) Hr Hh Hc. unfold dispatch_ready. rewrite A1, A2, A3. done. Qed.

Lemma holds_obtains st U B size al st' p : holds st U B -> obtains ext extd m image spares_none st B [] size al (Some (st', p)) -> ring_after st p st' ->
  exists B', holds st' (if p =? NULL then U else MkBlock p size ∅ :: U) B'.
Proof.
  intros Ho (st2 & q & B1 & [= <- <-] & La & Lo & Hp) Hra. pose proof Ho as [Ok V Hr Hh Hc Hcl]. destruct (proj2 Lo Hh) as [Hall _].
  assert (Hiff : forall w q k, B1 w q k <-> B w q k) by (intros; split; [apply (la_blocks _ _ _ _ La)|apply Hall]).
  assert (Hg : gives ext extd m st.(g_dispatch) B size al (Some (st'.(g_dispatch), p))).
  { exists st'.(g_dispatch), p. split; [done|]. split; [eapply contents_sub; [|exact (la_contents _ _ _ _ La)]; intros; by apply Hiff|].
    destruct Hp as [[-> Ok1]|(Hp & w & n & H1 & H2 & H3 & Ok1)]; [left; split; [done|]|right; split; [done|]; exists w, n; split; [done|]; split; [done|]; split].
    - eapply dispatch_iff; [exact Hiff|apply Ok1].
    - intros w0 q0 k0 H0. apply (H3 w0). by apply Hiff.
    - eapply dispatch_iff; [|apply (ao_dispatch _ _ _ _ _ _ _ Ok1)]. intros. unfold add_block. by rewrite Hiff. }
  destruct (view_received ext extd m _ U B size al _ V Hg) as (d2 & U2 & B2 & [= <- <-] & V2). destruct (kept_fields st st' (proj1 Hra) Hr Hh Hc) as (Hr' & Hh' & Hc').
  exists B2. constructor; [|exact V2|done|done|done|].
  - assert (Hany : exists B3, api_ok st' B3 []) by (destruct Hp as [[_ ?]|(_ & w & n & _ & _ & _ & ?)]; by eexists). destruct Hany as (B3 & Ok3). eapply ok_blocks; [exact Ok3|apply V2].
  - eapply clean_after; [exact Hcl|intros u Hu; by eapply holds_ptr|done].
Qed.

(** The values of the newest block, when they are known. *)
Lemma holds_data st p n data U B : holds st (MkBlock p n ∅ :: U) B -> (forall off v, data !! off = Some v -> 0 <= off < n /\ peek st p off = v) -> holds st (MkBlock p n data :: U) B.
Proof.
  intros [Ok [V1 V2 V3 V4] Hr Hh Hc Hcl] Hd. destruct (V3 (MkBlock p n ∅) ltac:(left)) as (w & k & Hb & Hk). cbn in Hb, Hk. constructor; [done| |done|done|done|].
  - constructor; [done|done| |].
    + intros u [->|Hu]%elem_of_cons; [by exists w, k|apply V3; by right].
    + intros u off v [->|Hu]%elem_of_cons; [|apply V4; by right]. cbn. intros Hv. destruct (Hd off v Hv) as [H1 <-]. split; [done|].
      destruct (block_not_static ext extd m image st B [] w p k Ok Hb) as (_ & Hbs & _). unfold peek. by rewrite Hbs.
  - eapply clean_sub; [exact Hcl|]. intros u [->|Hu]%elem_of_cons; [by exists (MkBlock p n ∅); split; [left|]|exists u; split; [by right|done]].
Qed.

Lemma zeros_spec n off v : zeros n !! off = Some v -> 0 <= off < n /\ v = 0.
Proof.
  intros Hv. apply elem_of_list_to_map_2 in Hv. apply list_elem_of_fmap in Hv as (x & [= -> ->] & Hx). apply elem_of_seqZ in Hx. split; [lia|done].
Qed.
Lemma prefix_spec data n off v : prefix_data data n !! off = Some v -> data !! off = Some v /\ off < n.
Proof. unfold prefix_data. rewrite map_lookup_filter_Some. cbn. tauto. Qed.

Lemma poke_ring st p off v : ring_same st (poke st p off v).
Proof. unfold poke. by destruct (Bump.v8m_ptr_is_bootstrap _ _). Qed.
Lemma fill_ring f p l st : ring_same st (foldl (fun s off => poke s p off (f s off)) st l).
Proof. revert st. induction l as [|off l IH]; intros st; [done|]. cbn. eapply ring_same_trans; [apply poke_ring|apply IH]. Qed.

Lemma calloc_ring e st nmemb size st' p : st.(g_oom_handler) = NULL -> dispatch_ready st = true -> nmemb * size <= SIZE_MAX -> v8m_calloc call_handler e st nmemb size = Some (st', p) -> ring_after st p st'.
Proof.
  intros He Hr Hm. unfold v8m_calloc, mul_size. rewrite (proj2 (Z.ltb_ge _ _)) by lia. destruct (do_malloc_pc _ _ _ _) as [[st1 q]|] eqn:Ed; [|done]. apply do_malloc_ring in Ed; [|done|done].
  intros [= <- <-]. destruct (_ && _); [|done]. eapply ring_after_same; [exact Ed|]. apply (fill_ring (fun _ _ => 0)).
Qed.

Lemma before_ring e st p size st2 q : st.(g_oom_handler) = NULL -> dispatch_ready st = true -> before_release call_handler e st p size = Some (st2, q) -> ring_after st q st2.
Proof.
  intros He Hr. unfold before_release. destruct (do_malloc_pc _ _ _ _) as [[st1 q1]|] eqn:Ed; [|done]. apply do_malloc_ring in Ed; [|done|done]. destruct (q1 =? NULL); [done|].
  intros [= <- <-]. destruct (0 <? _); [|done]. eapply ring_after_same; [exact Ed|]. apply (fill_ring (fun s off => peek s p off)).
Qed.

Lemma free_holds e st U B i u : holds st U B -> U !! i = Some u -> releasable e st u.(ub_ptr) -> exists st' B', v8m_free e st u.(ub_ptr) = Some st' /\ holds st' (delete i U) B'.
Proof.
  intros Ho Hi [Hs Hz]. pose proof Ho as [Ok V Hr Hh Hc Hcl]. assert (Hin : u ∈ U) by (by eapply list_elem_of_lookup_2). destruct (vw_block _ _ _ _ _ _ V u Hin) as (w & n & Hb & Hn).
  rewrite (owner_of_block ext extd m _ B w _ n (ao_dispatch _ _ _ _ _ _ _ Ok) Hb) in Hs. pose proof (api_free_ok ext extd m image e st B [] w _ n Ok Hr Hb Hs) as Hf.
  destruct (v8m_free e st u.(ub_ptr)) as [st'|] eqn:Ef.
  2: { destruct Hf as [[Hd Hx]|[_ Hx]]; [|by destruct (Hx (Hz n))]. by destruct (cl_blocks _ _ Hcl u Hin). }
  destruct Hf as [Ok' La]. pose proof (free_ring e st B [] w _ n st' Ok Hb Hr Hc Ef) as Hra. destruct (kept_fields st st' (proj1 Hra) Hr Hh Hc) as (Hr' & Hh' & Hc').
  eexists st', _. split; [done|]. constructor; [exact Ok'| |done|done|done|].
  - eapply (view_released ext extd m); [done|done|]. split; [apply Ok'|apply La].
  - eapply clean_freed; [|exact Hra|by eapply holds_ptr|].
    + eapply clean_sub; [exact Hcl|]. intros x Hx. exists x. split; [|done]. by apply (delete_ptr U i u x Hi (vw_nodup _ _ _ _ _ _ V) Hx).
    + intros x Hx. by apply (delete_ptr U i u x Hi (vw_nodup _ _ _ _ _ _ V) Hx).
Qed.

(** A block that stays in place under a new size. *)
Lemma resize_holds st U B i u w n size : holds st U B -> U !! i = Some u -> B w u.(ub_ptr) n -> size <= n -> holds st (MkBlock u.(ub_ptr) size (prefix_data u.(ub_data) size) :: delete i U) B.
Proof.
  intros [Ok [V1 V2 V3 V4] Hr Hh Hc Hcl] Hi Hb Hn. assert (Hin : u ∈ U) by (by eapply list_elem_of_lookup_2). pose proof (delete_ptr U i u) as Hdel. constructor; [done| |done|done|done|].
  - constructor; [done| | |].
    + cbn. apply NoDup_cons. split; [|rewrite list_fmap_delete; by eapply sublist_NoDup; [|apply sublist_delete]]. intros (x & He & Hx)%list_elem_of_fmap. by destruct (Hdel x Hi V2 Hx).
    + intros x [->|Hx]%elem_of_cons; [by exists w, n|]. apply V3. by apply (Hdel x Hi V2 Hx).
    + intros x off v [->|Hx]%elem_of_cons; cbn.
      * intros [Hv Hlt]%prefix_spec. destruct (V4 u off v Hin Hv) as [H1 H2]. split; [lia|done].
      * apply V4. by apply (Hdel x Hi V2 Hx).
  - eapply clean_sub; [exact Hcl|]. intros x [->|Hx]%elem_of_cons; [by exists u|]. exists x. split; [|done]. by apply (Hdel x Hi V2 Hx).
Qed.

Lemma realloc_holds e ef st U B i u size : holds st U B -> U !! i = Some u -> allowed (CRealloc e ef i size) st U ->
  exists st' U' B', perform (CRealloc e ef i size) st U = Some (st', U') /\ holds st' U' B'.
Proof.
  intros Ho Hi (Hs & Hf & Hu). destruct (Hu u Hi) as (Hl & Hm & Hrel). cbn [perform]. rewrite Hi. pose proof Ho as [Ok V Hr Hh Hc Hcl]. assert (Hin : u ∈ U) by (by eapply list_elem_of_lookup_2).
  destruct (vw_block _ _ _ _ _ _ V u Hin) as (w & n & Hb & Hn). rewrite (owner_of_block ext extd m _ B w _ n (ao_dispatch _ _ _ _ _ _ _ Ok) Hb) in Hl.
  pose proof (realloc_moves ext extd m image call_handler spares_none Hhandler e ef st B [] w _ n size Ok Hr (or_introl Hh) Hb Hs Hf (fun _ => Hm)) as Hre.
  destruct (Z.leb_spec size (v8m_malloc_usable_size st u.(ub_ptr))) as [Hle|Hgt].
  - rewrite Hre, (proj2 (Z.eqb_neq _ _) (holds_ptr st U B u Ho Hin)). eexists st, _, B. split; [done|]. apply (resize_holds st U B i u w n); [done|done|done|].
    destruct (usable_api_ok ext extd m image st B [] w _ n Ok Hr Hb (fun _ => Hm)) as [_ Hus]. destruct (decide (w = InLarge)) as [->|Hw]; [|rewrite Hus in Hle; done].
    destruct (Z.le_gt_cases size u.(ub_size)) as [|Hlt]; [lia|]. specialize (Hl eq_refl Hlt). lia.
  - destruct Hre as [st1 B1 Ed Ok1 La1 Lo1 _ _|st2 B1 w' q n' Hq Hsz Hal Hfr Ok2 La2 Lo2 _ Hdata Hr2 Hbr _].
    + apply do_malloc_ring in Ed; [|done|done]. destruct (holds_obtains st U B 0 8 st1 NULL Ho) as (B2 & Ho2); [|done|].
      { exists st1, NULL, B1. split_and!; [done|done|done|by left]. }
      rewrite Z.eqb_refl in *. by exists st1, U, B2.
    + pose proof (before_ring e st u.(ub_ptr) size st2 q Hh Hr Hbr) as Hra.
      destruct (holds_obtains st U B size 8 st2 q Ho) as (B2 & Ho2); [|done|].
      { exists st2, q, B1. split_and!; [done|done|done|]. right. split; [done|]. by exists w', n'. }
      rewrite (proj2 (Z.eqb_neq _ _) Hq) in Ho2.
      assert (Ho3 : holds st2 (MkBlock q size (prefix_data u.(ub_data) size) :: U) B2).
      { apply holds_data; [done|]. intros off v [Hv Hlt]%prefix_spec. destruct (vw_data _ _ _ _ _ _ V u off v Hin Hv) as [H1 H2]. split; [lia|]. rewrite Hdata by lia.
        destruct (block_not_static ext extd m image st B [] w _ n Ok Hb) as (_ & Hbs & _). unfold peek. by rewrite Hbs. }
      destruct (free_holds ef st2 _ B2 (S i) u Ho3 Hi (Hrel st2 q Hbr)) as (st3 & B3 & Hfr3 & Ho4).
      rewrite Hfr3. rewrite (proj2 (Z.eqb_neq _ _) Hq). by eexists st3, _, B3.
Qed.

Lemma store_holds st U B i u off v : holds st U B -> U !! i = Some u -> 0 <= off < u.(ub_size) ->
  holds (poke st u.(ub_ptr) off v) (<[i := MkBlock u.(ub_ptr) u.(ub_size) (<[off := v]> u.(ub_data))]> U) B.
Proof.
  intros [Ok V Hr Hh Hc Hcl] Hi Ho. assert (Hin : u ∈ U) by (by eapply list_elem_of_lookup_2). destruct (vw_block _ _ _ _ _ _ V u Hin) as (w & n & Hb & Hn).
  destruct (block_not_static ext extd m image st B [] w _ n Ok Hb) as (_ & Hbs & _). pose proof (view_store ext extd m _ U B i u off v V Hi Ho) as V'.
  destruct (poke_ok ext extd m image st B [] w _ n off v Ok Hb ltac:(lia)) as (Ok' & _). unfold poke in *. rewrite Hbs in *.
  constructor; [exact Ok'|exact V'|done|done|done|]. eapply (clean_sub _ U); [by apply (clean_same st)|]. intros x (j & Hj)%list_elem_of_lookup.
  apply list_lookup_insert_Some in Hj as [(_ & <- & _)|[_ Hj]]; [by exists u|]. exists x. split; [by eapply list_elem_of_lookup_2|done].
Qed.

Lemma limit_holds st U B bytes : holds st U B -> holds (v8m_set_soft_limit st bytes).1 U B.
Proof. intros [[] V Hr Hh Hc Hcl]. unfold v8m_set_soft_limit. rewrite Hr. cbn [negb fst]. constructor; [by constructor|done..|by apply (clean_same st)]. Qed.

Lemma config_same c opt value opt' : coherent c -> 0 <= opt < V8M_OPT_COUNT -> 0 <= opt' < V8M_OPT_COUNT -> opt <> opt' ->
  coherent (v8m_config_set c opt value).1 /\ v8m_config_get (v8m_config_set c opt value).1 opt' = v8m_config_get c opt'.
Proof.
  intros Hc Ho Ho' Hne. pose proof (set_coherent c opt value Hc ltac:(unfold V8M_OPT_COUNT in *; lia)) as Hs. destruct (v8m_config_set c opt value) as [c' rc]. cbn [fst].
  destruct Hs as (Hs & Hg & _). split; [done|]. destruct (Hg ltac:(lia)) as [_ ->]; [|done]. by rewrite (proj2 (Z.eqb_neq opt' opt)).
Qed.

Lemma option_holds st U B opt value : holds st U B -> opt <> V8M_OPT_DEFERRED_COALESCE -> (opt = V8M_OPT_DEBUG -> value <> 0) -> holds (v8m_set_option st opt value).1 U B.
Proof.
  intros Ho Hf Hv. pose proof Ho as [Ok V Hr Hh Hc Hcl]. unfold v8m_set_option. rewrite Hr. cbn [negb].
  assert (Herr : forall v, holds (set_errno st v) U B) by (intros v; constructor; [by apply ok_errno|done..|by apply (clean_same st)]).
  destruct ((opt <? 0) || (V8M_OPT_COUNT <=? opt)) eqn:E; [apply Herr|]. apply orb_false_iff in E as [E1%Z.ltb_ge E2%Z.leb_gt].
  destruct (config_same st.(v8m_config) opt value V8M_OPT_DEFERRED_COALESCE Hc ltac:(lia) ltac:(done) Hf) as [Hc' G2].
  assert (G1 : v8m_config_get (v8m_config_set st.(v8m_config) opt value).1 V8M_OPT_DEBUG = v8m_config_get st.(v8m_config) V8M_OPT_DEBUG \/ v8m_config_get (v8m_config_set st.(v8m_config) opt value).1 V8M_OPT_DEBUG <> 0).
  { destruct (decide (opt = V8M_OPT_DEBUG)) as [->|Hd]; [right|left; by apply config_same; [|lia|..]].
    pose proof (set_coherent st.(v8m_config) V8M_OPT_DEBUG value Hc ltac:(done)) as Hs. destruct (v8m_config_set _ _ _) as [c' rc]. destruct Hs as (_ & Hg & _).
    destruct (Hg ltac:(done)) as [_ Hg']. cbn [fst]. rewrite Hg' by done. by apply Hv. }
  destruct (v8m_config_set _ _ _) as [c rc]. cbn [fst] in *.
  assert (Hst : holds (set_config st c) U B).
  { constructor; [|done|done|done|done|].
    - destruct Ok. constructor; try done. cbn. unfold BuddyPoolSpec.mode_ok in *. rewrite G2. destruct m; [done|]. by destruct G1 as [->|].
    - destruct Hcl as [C1 C2 C3]. constructor; [done|done|]. unfold debug_on in *. cbn. intros Hd%negb_false_iff%Z.eqb_eq. apply C3. destruct G1 as [<-|]; [|done]. by rewrite Hd. }
  destruct (negb _); [|done]. destruct Hst as [K1 K2 K3 K4 K5 [K6 K7 K8]]. constructor; [by apply ok_errno|done..].
Qed.

Lemma gets_some size data U st p : gets size data U (Some (st, p)) = Some (st, if p =? NULL then U else MkBlock p size data :: U).
Proof. done. Qed.

(** Every call that respects the rules returns, and keeps the invariant. *)
Lemma perform_holds c st U B : holds st U B -> allowed c st U -> exists st' U' B', perform c st U = Some (st', U') /\ holds st' U' B'.
Proof.
  intros Ho Ha. pose proof Ho as [Ok V Hr Hh Hc Hcl]. destruct c as [e size|e nmemb size|e j size|e ef i size|e i|i off v|bytes|opt value]; cbn [perform].
  - destruct Ha as [Hs Hf]. destruct (malloc_ok ext extd m image call_handler spares_none Hhandler e st B [] size Ok Hr Hs Hf) as [Hob _].
    destruct (v8m_malloc call_handler e st size) as [[st' p]|] eqn:Em; [|by destruct Hob as (? & ? & ? & ? & _)].
    destruct (holds_obtains st U B size 8 st' p Ho Hob (malloc_ring e st size st' p Hh Hr Hc Em)) as (B' & Ho'). by exists st', (if p =? NULL then U else MkBlock p size ∅ :: U), B'.
  - destruct Ha as (Hn & Hs & Hm & Hf). pose proof (calloc_ok ext extd m image call_handler spares_none Hhandler e st B [] nmemb size Ok Hr Hn Hs Hf) as Hca.
    rewrite (proj2 (Z.ltb_ge SIZE_MAX _) Hm) in Hca. destruct Hca as (Hob & _ & Hz). destruct (v8m_calloc call_handler e st nmemb size) as [[st' p]|] eqn:Em; [|by destruct Hob as (? & ? & ? & ? & _)].
    destruct (holds_obtains st U B (nmemb * size) 8 st' p Ho Hob (calloc_ring e st nmemb size st' p Hh Hr Hm Em)) as (B' & Ho').
    exists st', (if p =? NULL then U else MkBlock p (nmemb * size) (zeros (nmemb * size)) :: U), B'. split; [done|]. destruct (Z.eqb_spec p NULL) as [|Hp]; [done|].
    apply holds_data; [done|]. intros off v [H0 ->]%zeros_spec. split; [done|]. by apply (Hz st' p).
  - destruct Ha as (Hj & Hs & Hf). pose proof (Z.pow_pos_nonneg 2 j ltac:(lia) ltac:(lia)). pose proof (Z.pow_lt_mono_r 2 j 64 ltac:(lia) ltac:(lia) ltac:(lia)).
    pose proof (aligned_alloc_ok ext extd m image call_handler spares_none Hhandler e st B [] (2 ^ j) size Ok Hr Hs ltac:(lia) Hf) as Hal.
    rewrite (proj2 (is_pow2_spec (2 ^ j) ltac:(lia))) in Hal by (by exists j). destruct Hal as [Hob _].
    destruct (v8m_aligned_alloc call_handler e st (2 ^ j) size) as [[st' p]|] eqn:Em; [|by destruct Hob as (? & ? & ? & ? & _)].
    destruct (holds_obtains st U B size _ st' p Ho Hob (aligned_ring e st _ size st' p Hh Hr Em)) as (B' & Ho'). by exists st', (if p =? NULL then U else MkBlock p size ∅ :: U), B'.
  - destruct (U !! i) as [u|] eqn:Hi; [|by exists st, U, B]. pose proof (realloc_holds e ef st U B i u size Ho Hi Ha) as Hre. cbn [perform] in Hre. by rewrite Hi in Hre.
  - destruct (U !! i) as [u|] eqn:Hi; [|by exists st, U, B]. destruct (free_holds e st U B i u Ho Hi (Ha u Hi)) as (st' & B' & -> & Ho'). by exists st', (delete i U), B'.
  - destruct (U !! i) as [u|] eqn:Hi; [|by exists st, U, B]. eexists _, _, B. split; [done|]. by apply store_holds; [| |apply Ha].
  - eexists _, U, B. split; [done|]. by apply limit_holds.
  - eexists _, U, B. split; [done|]. destruct Ha as [Hd Hv]. apply option_holds; [done|done|]. intros He. by apply Hv.
Qed.

(** ** Runs *)

Inductive executes : list call -> api -> list ublock -> Prop :=
  | exec_start e s bb sb bytes st : ps_inv s -> ps_regions s ≡ₚ ext -> ps_descs s ≡ₚ extd -> image ∈ extd -> statics_ok image bb sb [] ->
      (forall n, e.(be_mutex_rc) n = 0) -> e.(be_atfork_rc) = 0 -> BuddyPoolSpec.mode_ok m (v8m_config_init e.(be_getenv)) ->
      v8m_config_get (v8m_config_init e.(be_getenv)) V8M_OPT_DEBUG = 0 -> v8m_constructor e (zeroed s bb sb bytes) = Some st -> executes [] st []
  | exec_step c cs st U st' U' : executes cs st U -> allowed c st U -> perform c st U = Some (st', U') -> executes (cs ++ [c]) st' U'.

Lemma started_holds st : started st -> api_ok st no_blocks [] -> holds st [] no_blocks.
Proof.
  intros (H1 & H2 & _ & _ & [H3 _] & H4 & _) Ok. constructor; [done| |done|done|done|].
  - constructor; [apply Ok|constructor|by intros u ?%not_elem_of_nil|by intros u off v ?%not_elem_of_nil].
  - constructor; rewrite ?H3; [by intros i j p Hp [-> _]%lookup_replicate|by intros u ?%not_elem_of_nil|]. by intros _ p [-> _]%elem_of_replicate.
Qed.

Lemma executes_holds cs st U : executes cs st U -> exists B, holds st U B.
Proof.
  induction 1 as [e s bb sb bytes st Is Hr Hd Hi Hs Hm Ha Hmo _ He|c cs st U st' U' _ (B & Ho) Ha He].
  - destruct (constructor_ok ext extd image e s bb sb bytes [] m Is Hr Hd Hi Hs Hm Ha Hmo) as (st2 & He2 & Hst & Ok & _). rewrite He in He2. injection He2 as <-.
    exists no_blocks. by apply started_holds.
  - destruct (perform_holds c st U B Ho Ha) as (st2 & U2 & B2 & He2 & Ho2). rewrite He in He2. injection He2 as <- <-. by exists B2.
Qed.

Lemma holds_apart st U B i j u v : holds st U B -> U !! i = Some u -> U !! j = Some v -> i <> j -> u.(ub_ptr) + u.(ub_size) <= v.(ub_ptr) \/ v.(ub_ptr) + v.(ub_size) <= u.(ub_ptr).
Proof.
  intros [_ [V1 V2 V3 V4] _ _ _ _] Hi Hj Hne. destruct (V3 u ltac:(by eapply list_elem_of_lookup_2)) as (w & n & Hb & Hn), (V3 v ltac:(by eapply list_elem_of_lookup_2)) as (w' & k & Hb' & Hk).
  assert (Hp : u.(ub_ptr) <> v.(ub_ptr)). { intros He. apply Hne. eapply (NoDup_lookup (ub_ptr <$> U)); [done| |]; rewrite list_lookup_fmap; [by rewrite Hi|by rewrite Hj; cbn; rewrite He]. }
  destruct (blocks_apart _ _ _ _ B w _ n w' _ k V1 Hb Hb') as [Hd _]. destruct (Hd Hp); lia.
Qed.

Lemma holds_reads st U B u off v : holds st U B -> u ∈ U -> u.(ub_data) !! off = Some v -> peek st u.(ub_ptr) off = v.
Proof.
  intros [Ok [V1 V2 V3 V4] _ _ _ _] Hu Hv. destruct (V3 u Hu) as (w & n & Hb & _). destruct (block_not_static ext extd m image st B [] w _ n Ok Hb) as (_ & Hbs & _).
  unfold peek. rewrite Hbs. by apply V4.
Qed.

End Program.
End ApiProgram.
