(* ===== verification/ApiSpec.v ===== *)
(** What the public entry points promise ([Api]): start-up, every function that
    hands out or takes back a block, the ring of freed pointers, and whole
    programs.  The witnesses run a machine of two nodes whose program image is one
    mapping of 1 MiB. *)

From Stdlib Require Import String.
From S2P Require Import Prelude SizeClass Page Bump Config Os RegionMap PageHeap PageHeapSpec PageSource NumaPool SlabPool SlabPoolSpec BuddyPool BuddyPoolSpec Large LargeSpec ThreadCache ThreadRegistry Lifetime Dispatch DispatchInv DispatchCache DispatchStep DispatchAlloc DispatchFree DispatchSpec DispatchKeep Api ApiInv ApiAlloc ApiServe ApiFree ApiData ApiRing ApiControl ApiBoot ApiProgram.
Import SizeClass Page Config PageSource Dispatch DispatchInv DispatchCache DispatchStep DispatchAlloc DispatchFree DispatchSpec DispatchKeep Api ApiInv ApiAlloc ApiServe ApiFree ApiData ApiRing ApiControl ApiBoot ApiProgram.

Module ApiSpec.

Section Spec.
Context `{PSL : PageSourceLaws} {PV : PageHeapView}.
Context (ext extd : list (Z * Z)) (m : bool) (image : Z * Z).
Notation api_ok := (api_ok ext extd m image).
Context (call_handler : Z -> Z -> api -> api * Z).
Notation obtains := (obtains ext extd m image spares_none).

(** C1: Whole programs over the public functions: after any sequence of calls since
    start-up that respects the rules of [allowed] ([malloc], [calloc],
    [aligned_alloc], [realloc], [free], stores, the soft limit and the options, the
    debug mode among them), the blocks the program holds do not overlap, each reads
    back the last value stored at every offset (zero after [calloc], the old
    contents after [realloc]), none is on record as released, and every next call
    that respects the rules returns: no release is taken for a double one. *)
Theorem api_programs_safe cs st U : handler_law ext extd m image call_handler -> executes ext extd m image call_handler cs st U ->
  (forall i j u v, U !! i = Some u -> U !! j = Some v -> i <> j -> u.(ub_ptr) + u.(ub_size) <= v.(ub_ptr) \/ v.(ub_ptr) + v.(ub_size) <= u.(ub_ptr)) /\
  (forall u off v, u ∈ U -> u.(ub_data) !! off = Some v -> peek st u.(ub_ptr) off = v) /\
  (forall u, u ∈ U -> u.(ub_ptr) ∉ st.(g_double_free_ring)) /\
  (forall c, allowed call_handler c st U -> exists st' U', perform call_handler c st U = Some (st', U')).
Proof.
  intros Hh He. destruct (executes_holds ext extd m image call_handler Hh cs st U He) as (B & Ho). split_and!.
  - intros i j u v. by apply (holds_apart ext extd m image st U B).
  - intros u off v. by apply (holds_reads ext extd m image st U B).
  - apply (cl_blocks _ _ (ho_clean _ _ _ _ _ _ _ Ho)).
  - intros c Ha. destruct (perform_holds ext extd m image call_handler Hh c st U B Ho Ha) as (st' & U' & _ & Hp & _). by exists st', U'.
Qed.

(** C2: [v8m_malloc]: it returns either [NULL], with [errno] set to [ENOMEM], or a
    block of at least the requested size, aligned to 8 bytes, apart from every
    block of the program, whose contents it leaves alone. *)
Theorem v8m_malloc_spec e st B L size : handler_law ext extd m image call_handler -> api_ok st B L -> dispatch_ready st = true -> 0 <= size < 2 ^ 64 -> fueled e ->
  obtains st B L size 8 (v8m_malloc call_handler e st size) /\ says_enomem (v8m_malloc call_handler e st size).
Proof. intros Hh. by apply malloc_ok. Qed.

(** C3: [v8m_free] of a block of the program returns with that block released and
    every other block untouched; the call aborts only in debug mode for a pointer
    on record, or for a large object whose red zone was overwritten. *)
Theorem v8m_free_spec e st B L w p n : api_ok st B L -> dispatch_ready st = true -> B w p n -> free_safe e st w p ->
  match v8m_free e st p with
  | Some st' => api_ok st' (del_block B w p) L /\ later st B st' (del_block B w p)
  | None => (debug_on st = true /\ p ∈ st.(g_double_free_ring)) \/ (w = InLarge /\ ~ LargeSpec.zone_intact st.(g_dispatch).(d_large) (p, n))
  end.
Proof. apply api_free_ok. Qed.

(** C4: [v8m_realloc] of a ready allocator, branch by branch.  Without a block it
    allocates as [v8m_malloc]'s common path does.  A size of 0 releases the block, as
    [v8m_free] does, and returns [NULL].  Otherwise a size within the usable one
    leaves the block in place; a larger one fails with [ENOMEM] and the block
    untouched, or gives a block of the new size, apart from the program's, that
    starts with the old contents, and releases the old one (or aborts as [v8m_free]
    does).  The block is one of the dispatcher's, not of the bootstrap buffer.  For
    the sizes above 0 the out-of-memory handler, if there is one, must not release
    the block being resized ([stays]), and the word at the 64 KiB page base of a
    buddy block must not be the page magic; [free_safe] asks the same of a release. *)
Theorem v8m_realloc_spec e ef st B L size (spared : owner -> Z -> Z -> Prop) : handler_spares ext extd m image call_handler spared ->
  api_ok st B L -> dispatch_ready st = true -> 0 <= size < 2 ^ 64 -> fueled e ->
  (ApiAlloc.obtains ext extd m image spared st B L size 8 (v8m_realloc call_handler e ef st NULL size) /\ says_enomem (v8m_realloc call_handler e ef st NULL size)) /\
  forall w p n, B w p n ->
    if size =? 0 then
      v8m_realloc call_handler e ef st p size = option_map (fun st' => (st', NULL)) (v8m_free ef st p) /\
      (free_safe ef st w p -> release_outcome ext extd m image st B L w p n (v8m_free ef st p))
    else
      stays spared st w p n -> (w = InBuddy -> rd st.(g_dispatch).(d_buddy).(BuddyPool.bmem) (v8m_ptr_to_meta p) <> V8M_MAGIC) ->
      if size <=? v8m_malloc_usable_size st p then v8m_realloc call_handler e ef st p size = Some (st, p)
      else moves ext extd m image call_handler spared e ef st B L w p n size (v8m_realloc call_handler e ef st p size).
Proof. intros Hh. by apply realloc_ok. Qed.

(** C5: [v8m_calloc]: a product beyond [SIZE_MAX] fails with [ENOMEM] and changes
    nothing else; any other request is served as [v8m_malloc]'s, with every byte
    zero. *)
Theorem v8m_calloc_spec e st B L nmemb size : handler_law ext extd m image call_handler ->
  api_ok st B L -> dispatch_ready st = true -> 0 <= nmemb < 2 ^ 64 -> 0 <= size < 2 ^ 64 -> fueled e ->
  if SIZE_MAX <? nmemb * size then v8m_calloc call_handler e st nmemb size = Some (set_errno st ENOMEM, NULL)
  else obtains st B L (nmemb * size) 8 (v8m_calloc call_handler e st nmemb size) /\ says_enomem (v8m_calloc call_handler e st nmemb size) /\
    forall st' p, v8m_calloc call_handler e st nmemb size = Some (st', p) -> p <> NULL -> forall off, 0 <= off < nmemb * size -> peek st' p off = 0.
Proof. intros Hh. by apply calloc_ok. Qed.

(** C6: [v8m_posix_memalign] of a ready allocator: no place to store the pointer, an
    alignment that is not a power of two, or not a multiple of 8, is refused with
    [EINVAL] and nothing changes; any other request stores a block through the pointer
    and returns 0, or stores nothing and returns [ENOMEM].  The block has the
    alignment asked for, with one exception, which breaks the function's contract:
    for an alignment of 16 and a size of at most 8, of 17 to 24, of 33 to 40 or of 49
    to 56 bytes it is aligned to 8 only. *)
Theorem v8m_posix_memalign_spec e st B L memptr alignment size : handler_law ext extd m image call_handler ->
  api_ok st B L -> dispatch_ready st = true -> 0 <= size < 2 ^ 64 -> 0 <= alignment < 2 ^ 64 -> fueled e ->
  let short := (size <=? 8) || ((16 <? size) && (size <=? 24)) || ((32 <? size) && (size <=? 40)) || ((48 <? size) && (size <=? 56)) in
  match memptr && is_pow2 alignment && (alignment mod 8 =? 0) with
  | true => exists st' p rc, v8m_posix_memalign call_handler e st memptr alignment size = Some (st', p, rc) /\
      obtains st B L size (if (alignment =? 16) && short then 8 else alignment) (Some (st', default NULL p)) /\ ((p = None /\ rc = ENOMEM) \/ (is_Some p /\ p <> Some NULL /\ rc = 0))
  | false => v8m_posix_memalign call_handler e st memptr alignment size = Some (st, None, EINVAL)
  end.
Proof. intros Hh Ok Hr Hs Ha Hf. cbv zeta. rewrite <- granted_eq by done. by apply posix_memalign_ok. Qed.

(** C7: [v8m_pvalloc] of a ready allocator on a system with pages of [2^k] bytes: it
    asks [v8m_aligned_alloc] for exactly the least whole number of pages, at least
    one, that covers the request, on a page boundary, and returns a block of at least
    that size or [NULL] with [ENOMEM]; a request whose rounding passes 64 bits fails
    with [ENOMEM] and changes nothing else. *)
Theorem v8m_pvalloc_spec e st B L k size : handler_law ext extd m image call_handler ->
  api_ok st B L -> dispatch_ready st = true -> 0 <= size < 2 ^ 64 -> 4 < k < 63 -> fueled e ->
  exists want, whole_pages (2 ^ k) size want /\
  if want <? 2 ^ 64 then
    v8m_pvalloc call_handler e st (2 ^ k) size = v8m_aligned_alloc call_handler e st (2 ^ k) want /\
    obtains st B L want (2 ^ k) (v8m_pvalloc call_handler e st (2 ^ k) size) /\ says_enomem (v8m_pvalloc call_handler e st (2 ^ k) size)
  else v8m_pvalloc call_handler e st (2 ^ k) size = Some (set_errno st ENOMEM, NULL).
Proof. intros Hh. by apply pvalloc_ok. Qed.

(** C8: The double-free detector, over any history of releases and allocations in
    debug mode: it aborts the release of a pointer exactly when that pointer was
    released before, has not been handed out since, and fewer than 4096 releases
    followed. *)
Theorem double_free_detected st evs st' p : ring_fresh st -> Forall real evs -> ring_run st evs = Some st' -> p <> NULL ->
  debug_check_double_free st' p = None <-> exists pre post, record_of p pre post evs.
Proof.
  intros Hf Hr He Hp. rewrite <- (reported_iff st evs st' p Hf Hr He Hp). unfold debug_check_double_free.
  by destruct (bool_decide_reflect (p ∈ st'.(g_double_free_ring))).
Qed.

(** C9: [v8m_constructor] over the zeroed statics of the process makes the allocator
    ready, with no block handed out beside those of the bootstrap buffer. *)
Theorem v8m_constructor_spec e s bb sb bytes L : ps_inv s -> ps_regions s ≡ₚ ext -> ps_descs s ≡ₚ extd -> image ∈ extd -> statics_ok image bb sb L ->
  (forall n, e.(be_mutex_rc) n = 0) -> e.(be_atfork_rc) = 0 -> BuddyPoolSpec.mode_ok m (v8m_config_init e.(be_getenv)) ->
  exists st, v8m_constructor e (zeroed s bb sb bytes) = Some st /\ started st /\ api_ok st no_blocks L /\
    st.(v8m_bootstrap_bump) = bb /\ st.(bootstrap_mem) = bytes.
Proof. apply constructor_ok. Qed.

(** C10: The soft limit.  A request is within the limit when none is set, or when the
    live bytes and the request, summed modulo [2^64] as the code sums them, do not
    exceed it.  A request that passes the gate is within the limit in the state the
    gate leaves (so that it is truly below it unless the sum wraps); one turned away
    leaves [ENOMEM]; no block of the program is touched.  With no handler installed
    the gate lets a request within the limit pass and changes nothing; for another it
    gives back everything parked, the drained pages and arenas and the cached
    regions, and turns the request away only if it is over the limit even then, with
    nothing parked left. *)
Theorem soft_limit_gate st B L size : handler_law ext extd m image call_handler -> api_ok st B L ->
  let '(st', ok) := pre_alloc_soft_limit_gate call_handler st size in
  (exists B', api_ok st' B' L /\ later st B st' B') /\
  (if ok : bool then within_limit st' size = true else st'.(errno) = ENOMEM) /\
  (st.(g_oom_handler) = NULL ->
     (st', ok) = (if within_limit st size then (st, true) else if within_limit (purged st) size then (purged st, true) else (set_errno (purged st) ENOMEM, false)) /\
     (within_limit st size = false -> nothing_parked st'.(g_dispatch))).
Proof.
  intros Hh Ok. pose proof (gate_ok ext extd m image call_handler spares_none Hh st B L size Ok) as Hg. pose proof (gate_within call_handler st size) as Hw. pose proof (gate_eq call_handler st size) as He.
  pose proof (purge_empties ext extd m _ B (ao_dispatch _ _ _ _ _ _ _ Ok)) as Hp. destruct (pre_alloc_soft_limit_gate call_handler st size) as [st' ok].
  destruct Hg as (B' & Ok' & La & _ & Hen). split; [by exists B'|]. split; [destruct ok; [by apply Hw|by apply Hen]|]. intros Hn. specialize (He Hn). split; [done|].
  intros Hf. rewrite Hf in He. by destruct (within_limit (purged st) size); injection He as -> ->.
Qed.

End Spec.

(** ** The example machine *)

#[local] Existing Instance Os.log_os_laws.

Definition ex_image : Z * Z := (2 ^ 30, 2 ^ 20).
Definition ex_world : @src (@heap_source Os.log_os) := (ps_mmap NumaPool.ex_src (2 ^ 20)).1.
Lemma ex_world_eq : ps_mmap NumaPool.ex_src (2 ^ 20) = (ex_world, Some (2 ^ 30)).
Proof.
  assert (Hs : (ps_mmap NumaPool.ex_src (2 ^ 20)).2 = Some (2 ^ 30)) by (vm_compute; reflexivity).
  rewrite <- Hs. apply surjective_pairing.
Qed.
Lemma ex_world_ok : ps_inv ex_world /\ ps_regions ex_world ≡ₚ [] /\ ps_descs ex_world ≡ₚ [ex_image].
Proof.
  pose proof (ps_mmap_law NumaPool.ex_src (2 ^ 20) NumaPool.ex_src_inv ltac:(lia)) as H. rewrite ex_world_eq in H. destruct H as (H1 & H2 & _ & H3 & _).
  split; [exact H1|]. rewrite H2, H3. split; reflexivity.
Qed.

Definition ex_bb : Bump.v8m_bump := Bump.v8m_bootstrap_bump (2 ^ 30).
Definition ex_sb : Bump.v8m_bump := Bump.v8m_signal_safe_bump (2 ^ 30 + 2 ^ 19).
Definition ex_boot : boot_env := MkBoot (fun _ => None) 1 (fun _ => 0) (fun _ => 0) 0 0.
Definition ex_cenv : call_env := MkCall ex_denv ex_denv 0 1000 0.
Definition no_handler {A : Type} (handler size : Z) (st : A) : A * Z := (st, 0).

Lemma no_handler_spares ext extd m image spared : handler_spares (PSL := heap_source_laws (OSL := Os.log_os_laws)) ext extd m image no_handler spared.
Proof. intros handler size st B L Ok. exists B. split; [exact Ok|]. split; [apply later_refl|done]. Qed.
Lemma no_handler_law ext extd m image : handler_law (PSL := heap_source_laws (OSL := Os.log_os_laws)) ext extd m image no_handler.
Proof. apply no_handler_spares. Qed.

Lemma ex_statics : statics_ok ex_image ex_bb ex_sb [].
Proof.
  split; [|split; [vm_compute; discriminate|split]].
  - constructor; [|reflexivity|vm_compute; split; discriminate]. apply Bump.wf_bootstrap; [done|done|by exists (2 ^ 26)].
  - constructor; [|reflexivity|vm_compute; split; discriminate]. constructor; cbn; unfold Bump.V8M_SIGNAL_SAFE_SIZE, Bump.V8M_SIGNAL_SAFE_ALIGN; try lia; [by exists (2 ^ 26 + 2 ^ 15)|by exists 0].
  - split; [by intros x ?%not_elem_of_nil|done].
Qed.
Lemma ex_boot_mode : BuddyPoolSpec.mode_ok true (v8m_config_init ex_boot.(be_getenv)).
Proof. vm_compute. reflexivity. Qed.

(** The state after start-up. *)
Definition ex_none : api := zeroed ex_world ex_bb ex_sb ∅.
Definition ex_start : api := default ex_none (v8m_constructor ex_boot ex_none).

Lemma ex_start_ok : v8m_constructor ex_boot ex_none = Some ex_start /\ started ex_start /\ api_ok [] [ex_image] true ex_image ex_start no_blocks [].
Proof.
  destruct ex_world_ok as (H1 & H2 & H3).
  destruct (constructor_ok [] [ex_image] ex_image ex_boot ex_world ex_bb ex_sb ∅ [] true H1 H2 H3 ltac:(left) ex_statics (fun _ => eq_refl) eq_refl ex_boot_mode) as (st & He & Hst & Ok & _).
  unfold ex_start, ex_none. rewrite He. cbn [default]. split; [reflexivity|]. split; [exact Hst|exact Ok].
Qed.

Lemma v8m_constructor_spec_witness :
  exists st, v8m_constructor ex_boot ex_none = Some st /\ started st /\ api_ok [] [ex_image] true ex_image st no_blocks [] /\
    st.(v8m_bootstrap_bump) = ex_bb /\ st.(bootstrap_mem) = ∅.
Proof.
  exact (v8m_constructor_spec [] [ex_image] true ex_image ex_boot ex_world ex_bb ex_sb ∅ [] (proj1 ex_world_ok) (proj1 (proj2 ex_world_ok)) (proj2 (proj2 ex_world_ok))
    (list_elem_of_here _ _) ex_statics (fun _ => eq_refl) eq_refl ex_boot_mode).
Defined.

Lemma ex_ready : dispatch_ready ex_start = true.
Proof. apply ex_start_ok. Qed.
Lemma ex_no_handler : ex_start.(g_oom_handler) = NULL.
Proof. apply ex_start_ok. Qed.
Lemma ex_fueled : fueled ex_cenv.
Proof. split; unfold ex_cenv, ex_denv; cbn; lia. Qed.
Notation ex_api_ok := (ApiInv.api_ok [] [ex_image] true ex_image).
Lemma ex_ok : ex_api_ok ex_start no_blocks [].
Proof. apply ex_start_ok. Qed.
Notation ex_obtains := (ApiAlloc.obtains [] [ex_image] true ex_image spares_none).
Notation ex_law := (no_handler_law [] [ex_image] true ex_image).

Lemma v8m_malloc_spec_witness :
  (snd <$> v8m_malloc no_handler ex_cenv ex_start 100) = Some 2149583632 /\
  ex_obtains ex_start no_blocks [] 100 8 (v8m_malloc no_handler ex_cenv ex_start 100) /\ says_enomem (v8m_malloc no_handler ex_cenv ex_start 100).
Proof.
  split; [vm_compute; reflexivity|]. apply (v8m_malloc_spec [] [ex_image] true ex_image no_handler ex_cenv ex_start no_blocks [] 100 ex_law ex_ok ex_ready); [lia|apply ex_fueled].
Defined.

(** A buddy block in use. *)
Definition ex_medium : option (api * Z) := v8m_malloc no_handler ex_cenv ex_start 5000.
Definition ex_used : api := (default (ex_start, NULL) ex_medium).1.
Definition ex_p : Z := (default (ex_start, NULL) ex_medium).2.
Lemma ex_p_some : match ex_medium with Some (_, p) => p <> NULL | None => False end.
Proof. vm_compute. discriminate. Qed.
Lemma obtained_block st B L size al r x : ApiAlloc.obtains [] [ex_image] true ex_image spares_none st B L size al r -> match r with Some (_, p) => p <> NULL | None => False end ->
  exists B1 w n, size <= n /\ ex_api_ok (default x r).1 (add_block B1 w (default x r).2 n) L.
Proof. intros (st' & p & B1 & -> & _ & _ & Hp) Hs. destruct Hp as [[-> _]|(_ & w & n & Hn & _ & _ & Ok)]; [done|]. by exists B1, w, n. Qed.
Lemma ex_api_used_ok : exists B w n, 5000 <= n /\ ex_api_ok ex_used (add_block B w ex_p n) [].
Proof.
  apply (obtained_block ex_start no_blocks [] 5000 8 ex_medium (ex_start, NULL)); [|apply ex_p_some].
  exact (proj1 (malloc_ok [] [ex_image] true ex_image no_handler spares_none ex_law ex_cenv ex_start no_blocks [] 5000 ex_ok ex_ready ltac:(lia) ex_fueled)).
Qed.
Lemma ex_used_ready : dispatch_ready ex_used = true.
Proof. vm_compute. reflexivity. Qed.
Lemma ex_used_handler : ex_used.(g_oom_handler) = NULL.
Proof. vm_compute. reflexivity. Qed.
Lemma ex_used_plain : rd ex_used.(g_dispatch).(d_buddy).(BuddyPool.bmem) (v8m_ptr_to_meta ex_p) <> V8M_MAGIC.
Proof. vm_compute. discriminate. Qed.
Lemma ex_used_roomy : roomy ex_used.(g_dispatch) ex_cenv.(ce_denv).(de_fuel).
Proof.
  intros a Ha. assert (Hc : a = 0 \/ a = 1 \/ a = 2 \/ a = 3) by (unfold arena, V8M_ARENA_COUNT in Ha; lia). destruct Hc as [->|[->|[->| ->]]]; vm_compute; lia.
Qed.

Lemma v8m_free_spec_witness : exists B w n, 5000 <= n /\
  match v8m_free ex_cenv ex_used ex_p with
  | Some st' => ex_api_ok st' (del_block (add_block B w ex_p n) w ex_p) [] /\ later ex_used (add_block B w ex_p n) st' (del_block (add_block B w ex_p n) w ex_p)
  | None => (debug_on ex_used = true /\ ex_p ∈ ex_used.(g_double_free_ring)) \/ (w = InLarge /\ ~ LargeSpec.zone_intact ex_used.(g_dispatch).(d_large) (ex_p, n))
  end.
Proof.
  destruct ex_api_used_ok as (B & w & n & Hn & Ok). exists B, w, n. split; [exact Hn|].
  pose proof (v8m_free_spec [] [ex_image] true ex_image ex_cenv ex_used (add_block B w ex_p n) [] w ex_p n Ok ex_used_ready (or_intror eq_refl) (conj ex_used_roomy (fun _ => ex_used_plain))) as H.
  exact H.
Defined.

Lemma ex_size_20000 : 0 <= 20000 < 2 ^ 64.
Proof. lia. Qed.
Lemma ex_size_0 : 0 <= 0 < 2 ^ 64.
Proof. lia. Qed.
(** Nothing is spared: no handler runs. *)
Lemma v8m_realloc_spec_witness : exists B w n, 5000 <= n /\
  (if 20000 <=? v8m_malloc_usable_size ex_used ex_p then v8m_realloc no_handler ex_cenv ex_cenv ex_used ex_p 20000 = Some (ex_used, ex_p)
   else moves [] [ex_image] true ex_image no_handler spares_none ex_cenv ex_cenv ex_used (add_block B w ex_p n) [] w ex_p n 20000 (v8m_realloc no_handler ex_cenv ex_cenv ex_used ex_p 20000)) /\
  release_outcome [] [ex_image] true ex_image ex_used (add_block B w ex_p n) [] w ex_p n (v8m_free ex_cenv ex_used ex_p).
Proof.
  destruct ex_api_used_ok as (B & w & n & Hn & Ok). exists B, w, n. split; [exact Hn|].
  pose proof (v8m_realloc_spec [] [ex_image] true ex_image no_handler ex_cenv ex_cenv ex_used (add_block B w ex_p n) [] 20000 spares_none ex_law Ok ex_used_ready
    ex_size_20000 ex_fueled) as [_ H].
  pose proof (v8m_realloc_spec [] [ex_image] true ex_image no_handler ex_cenv ex_cenv ex_used (add_block B w ex_p n) [] 0 spares_none ex_law Ok ex_used_ready
    ex_size_0 ex_fueled) as [_ H0].
  split; [exact (H w ex_p n (or_intror eq_refl) (or_introl ex_used_handler) (fun _ => ex_used_plain))|].
  exact (proj2 (H0 w ex_p n (or_intror eq_refl)) (conj ex_used_roomy (fun _ => ex_used_plain))).
Defined.

Lemma v8m_calloc_spec_witness :
  (snd <$> v8m_calloc no_handler ex_cenv ex_start 3 40) = Some 2149583744 /\
  if SIZE_MAX <? 3 * 40 then v8m_calloc no_handler ex_cenv ex_start 3 40 = Some (set_errno ex_start ENOMEM, NULL)
  else ex_obtains ex_start no_blocks [] (3 * 40) 8 (v8m_calloc no_handler ex_cenv ex_start 3 40) /\ says_enomem (v8m_calloc no_handler ex_cenv ex_start 3 40) /\
    forall st' p, v8m_calloc no_handler ex_cenv ex_start 3 40 = Some (st', p) -> p <> NULL -> forall off, 0 <= off < 3 * 40 -> peek st' p off = 0.
Proof.
  split; [vm_compute; reflexivity|]. apply (v8m_calloc_spec [] [ex_image] true ex_image no_handler ex_cenv ex_start no_blocks [] 3 40 ex_law ex_ok ex_ready); [lia|lia|apply ex_fueled].
Defined.

Lemma v8m_posix_memalign_spec_witness :
  (snd <$> v8m_posix_memalign no_handler ex_cenv ex_start true 64 100) = Some 0 /\
  match true && is_pow2 64 && (64 mod 8 =? 0) with
  | true => exists st' p rc, v8m_posix_memalign no_handler ex_cenv ex_start true 64 100 = Some (st', p, rc) /\
      ex_obtains ex_start no_blocks [] 100 64 (Some (st', default NULL p)) /\ ((p = None /\ rc = ENOMEM) \/ (is_Some p /\ p <> Some NULL /\ rc = 0))
  | false => v8m_posix_memalign no_handler ex_cenv ex_start true 64 100 = Some (ex_start, None, EINVAL)
  end.
Proof.
  split; [vm_compute; reflexivity|]. apply (v8m_posix_memalign_spec [] [ex_image] true ex_image no_handler ex_cenv ex_start no_blocks [] true 64 100 ex_law ex_ok ex_ready); [lia|lia|apply ex_fueled].
Defined.

Lemma v8m_pvalloc_spec_witness : exists want, whole_pages (2 ^ 12) 5000 want /\
  if want <? 2 ^ 64 then
    v8m_pvalloc no_handler ex_cenv ex_start (2 ^ 12) 5000 = v8m_aligned_alloc no_handler ex_cenv ex_start (2 ^ 12) want /\
    ex_obtains ex_start no_blocks [] want (2 ^ 12) (v8m_pvalloc no_handler ex_cenv ex_start (2 ^ 12) 5000) /\ says_enomem (v8m_pvalloc no_handler ex_cenv ex_start (2 ^ 12) 5000)
  else v8m_pvalloc no_handler ex_cenv ex_start (2 ^ 12) 5000 = Some (set_errno ex_start ENOMEM, NULL).
Proof.
  apply (v8m_pvalloc_spec [] [ex_image] true ex_image no_handler ex_cenv ex_start no_blocks [] 12 5000 ex_law ex_ok ex_ready); [lia|lia|apply ex_fueled].
Defined.

Definition ex_events : list ring_event := [Released 4096; HandedOut 4096; Released 8192].
Lemma ex_ring : ring_fresh ex_start.
Proof. apply ex_start_ok. Qed.
Lemma ex_ring_returns : match ring_run ex_start ex_events with Some _ => True | None => False end.
Proof. vm_compute. exact I. Qed.
Lemma ex_ring_run : exists st', ring_run ex_start ex_events = Some st'.
Proof. pose proof ex_ring_returns as H. destruct (ring_run ex_start ex_events) as [st'|]; [by exists st'|done]. Qed.
Lemma double_free_detected_witness : exists st', ring_run ex_start ex_events = Some st' /\
  (debug_check_double_free st' 8192 = None <-> exists pre post, record_of 8192 pre post ex_events) /\ record_of 8192 [Released 4096; HandedOut 4096] [] ex_events.
Proof.
  destruct ex_ring_run as (st' & He). exists st'. split; [exact He|]. split.
  - apply (double_free_detected ex_start ex_events st' 8192 ex_ring); [by repeat constructor|exact He|done].
  - split; [reflexivity|]. split; [by intros ?%not_elem_of_nil|reflexivity].
Defined.

(** A limit of one byte. *)
Definition ex_limited : api := set_limits ex_start 1 NULL.
Lemma limited_ok st B L a h : ex_api_ok st B L -> ex_api_ok (set_limits st a h) B L.
Proof. intros []. by constructor. Qed.
Lemma ex_limited_ok : ex_api_ok ex_limited no_blocks [].
Proof. apply limited_ok, ex_ok. Qed.
Lemma soft_limit_gate_witness :
  (pre_alloc_soft_limit_gate no_handler ex_limited 100).2 = false /\
  let '(st', ok) := pre_alloc_soft_limit_gate no_handler ex_limited 100 in
  (exists B', ex_api_ok st' B' [] /\ later ex_limited no_blocks st' B') /\
  (if ok : bool then within_limit st' 100 = true else st'.(errno) = ENOMEM) /\
  (ex_limited.(g_oom_handler) = NULL ->
     (st', ok) = (if within_limit ex_limited 100 then (ex_limited, true) else if within_limit (purged ex_limited) 100 then (purged ex_limited, true) else (set_errno (purged ex_limited) ENOMEM, false)) /\
     (within_limit ex_limited 100 = false -> nothing_parked st'.(g_dispatch))).
Proof. split; [vm_compute; reflexivity|]. pose proof (soft_limit_gate [] [ex_image] true ex_image no_handler ex_limited no_blocks [] 100 ex_law ex_limited_ok) as H. exact H. Defined.

(** A program: a block of 100 bytes, the debug mode turned on, a store, a zeroed
    block, a release. *)
Definition ex_c1 : call := CMalloc ex_cenv 100.
Definition ex_cd : call := COption V8M_OPT_DEBUG 1.
Definition ex_c2 : call := CStore 0 16 77.
Definition ex_c3 : call := CCalloc ex_cenv 3 40.
Definition ex_c4 : call := CFree ex_cenv 1.
Notation ex_executes := (executes [] [ex_image] true ex_image no_handler).
Definition ex_next (c : call) (x : api * list ublock) : api * list ublock := default x (perform no_handler c x.1 x.2).
Definition ex_x1 : api * list ublock := ex_next ex_c1 (ex_start, []).
Definition ex_xd : api * list ublock := ex_next ex_cd ex_x1.
Definition ex_x2 : api * list ublock := ex_next ex_c2 ex_xd.
Definition ex_x3 : api * list ublock := ex_next ex_c3 ex_x2.
Definition ex_x4 : api * list ublock := ex_next ex_c4 ex_x3.

Lemma ex_run0 : ex_executes [] ex_start [].
Proof.
  destruct ex_world_ok as (H1 & H2 & H3).
  exact (exec_start [] [ex_image] true ex_image no_handler ex_boot ex_world ex_bb ex_sb ∅ _ H1 H2 H3 (list_elem_of_here _ _) ex_statics (fun _ => eq_refl) eq_refl ex_boot_mode eq_refl (proj1 ex_start_ok)).
Qed.
Lemma ex_run_next cs x c : ex_executes cs x.1 x.2 -> allowed no_handler c x.1 x.2 -> ex_executes (cs ++ [c]) (ex_next c x).1 (ex_next c x).2.
Proof.
  intros He Ha. destruct (executes_holds [] [ex_image] true ex_image no_handler ex_law cs _ _ He) as (B & Ho).
  destruct (perform_holds [] [ex_image] true ex_image no_handler ex_law c _ _ B Ho Ha) as (st' & U' & B' & Hp & _). unfold ex_next. rewrite Hp. cbn. by eapply exec_step.
Qed.
Lemma ex_run1 : ex_executes [ex_c1] ex_x1.1 ex_x1.2.
Proof. apply (ex_run_next [] (ex_start, []) ex_c1 ex_run0). split; [lia|apply ex_fueled]. Qed.
Lemma ex_pages : size ex_x1.1.(g_dispatch).(d_slab).(SlabPool.pages) <> 0%nat.
Proof. vm_compute. discriminate. Qed.
Lemma ex_rund : ex_executes [ex_c1; ex_cd] ex_xd.1 ex_xd.2.
Proof.
  apply (ex_run_next [ex_c1] ex_x1 ex_cd ex_run1). split; [discriminate|]. intros _. split; [discriminate|]. apply map_size_non_empty_iff, ex_pages.
Qed.
Lemma ex_size2 : ub_size <$> ex_xd.2 !! 0%nat = Some 100.
Proof. vm_compute. reflexivity. Qed.
Lemma ex_run2 : ex_executes [ex_c1; ex_cd; ex_c2] ex_x2.1 ex_x2.2.
Proof.
  apply (ex_run_next [ex_c1; ex_cd] ex_xd ex_c2 ex_rund). intros u Hu. pose proof ex_size2 as Hs. rewrite Hu in Hs. injection Hs as ->. lia.
Qed.
Lemma ex_run3 : ex_executes [ex_c1; ex_cd; ex_c2; ex_c3] ex_x3.1 ex_x3.2.
Proof. apply (ex_run_next [ex_c1; ex_cd; ex_c2] ex_x2 ex_c3 ex_run2). split; [lia|]. split; [lia|]. split; [unfold SIZE_MAX; lia|apply ex_fueled]. Qed.
Lemma ex_roomy3 : roomy ex_x3.1.(g_dispatch) ex_cenv.(ce_denv).(de_fuel).
Proof.
  intros a Ha. assert (Hc : a = 0 \/ a = 1 \/ a = 2 \/ a = 3) by (unfold arena, V8M_ARENA_COUNT in Ha; lia). destruct Hc as [->|[->|[->| ->]]]; vm_compute; lia.
Qed.
Lemma ex_free3 : match ex_x3.2 !! 1%nat with
  | Some u => rd ex_x3.1.(g_dispatch).(d_buddy).(BuddyPool.bmem) (v8m_ptr_to_meta u.(ub_ptr)) <> V8M_MAGIC /\ (LargeSpec.ometa ex_x3.1.(g_dispatch).(d_large) (u.(ub_ptr), 0)).(Large.guard_bytes) = 0
  | None => False end.
Proof. vm_compute. split; [discriminate|reflexivity]. Qed.
Lemma no_zone `{PageSource} (st : Large.large) p : (LargeSpec.ometa st (p, 0)).(Large.guard_bytes) = 0 -> forall n, LargeSpec.zone_intact st (p, n).
Proof. intros Hg n Hn. by destruct (Hn Hg). Qed.
Lemma ex_run4 : ex_executes [ex_c1; ex_cd; ex_c2; ex_c3; ex_c4] ex_x4.1 ex_x4.2.
Proof.
  apply (ex_run_next [ex_c1; ex_cd; ex_c2; ex_c3] ex_x3 ex_c4 ex_run3). intros u Hu. pose proof ex_free3 as Hf. rewrite Hu in Hf. destruct Hf as [Hm Hg]. split.
  - split; [exact ex_roomy3|intros _; exact Hm].
  - exact (no_zone _ _ Hg).
Qed.

Lemma api_programs_safe_witness : ex_executes [ex_c1; ex_cd; ex_c2; ex_c3; ex_c4] ex_x4.1 ex_x4.2 /\ length ex_x4.2 = 1%nat /\ debug_on ex_x4.1 = true /\
  (forall i j u v, ex_x4.2 !! i = Some u -> ex_x4.2 !! j = Some v -> i <> j -> u.(ub_ptr) + u.(ub_size) <= v.(ub_ptr) \/ v.(ub_ptr) + v.(ub_size) <= u.(ub_ptr)) /\
  (forall u off v, u ∈ ex_x4.2 -> u.(ub_data) !! off = Some v -> peek ex_x4.1 u.(ub_ptr) off = v) /\
  (forall u, u ∈ ex_x4.2 -> u.(ub_ptr) ∉ ex_x4.1.(g_double_free_ring)) /\
  (forall c, allowed no_handler c ex_x4.1 ex_x4.2 -> exists st' U', perform no_handler c ex_x4.1 ex_x4.2 = Some (st', U')).
Proof.
  split; [exact ex_run4|]. split; [vm_compute; reflexivity|]. split; [vm_compute; reflexivity|].
  pose proof (api_programs_safe [] [ex_image] true ex_image no_handler _ _ _ ex_law ex_run4) as H. exact H.
Defined.

End ApiSpec.
