(* ===== verification/Interpose.v ===== *)
(** The symbols under which programs reach the allocator: the C library's names and
    glibc's internal ones in [src/v8m_api_libc_compat.c], the C++ operators of
    [src/v8m_api_cxx.c], and the way back to the C library of
    [src/v8m_libc_fallback.c].

    Each symbol is the call it forwards to ([Api]); a program that mixes the three
    families is one of [ApiProgram].  The throwing operators are libstdc++'s, which
    call [malloc]. *)

From S2P Require Import Prelude PageSource Dispatch DispatchSpec Api ApiInv ApiAlloc ApiProgram.
Import PageSource Dispatch DispatchSpec Api ApiInv ApiAlloc ApiProgram.

Module Interpose.

Section Symbols.
Context `{PageHeapView}.
Context (call_handler : Z -> Z -> api -> api * Z).

(** ** The C library's names *)

Definition malloc (e : call_env) (st : api) (size : Z) : option (api * Z) := v8m_malloc call_handler e st size.
Definition free (e : call_env) (st : api) (ptr : Z) : option api := v8m_free e st ptr.
Definition calloc (e : call_env) (st : api) (nmemb size : Z) : option (api * Z) := v8m_calloc call_handler e st nmemb size.
Definition realloc (e ef : call_env) (st : api) (ptr size : Z) : option (api * Z) := v8m_realloc call_handler e ef st ptr size.
Definition reallocarray (e ef : call_env) (st : api) (ptr nmemb size : Z) : option (api * Z) := v8m_reallocarray call_handler e ef st ptr nmemb size.
Definition malloc_usable_size (st : api) (ptr : Z) : Z := v8m_malloc_usable_size st ptr.
Definition aligned_alloc (e : call_env) (st : api) (alignment size : Z) : option (api * Z) := v8m_aligned_alloc call_handler e st alignment size.
Definition posix_memalign (e : call_env) (st : api) (memptr : bool) (alignment size : Z) : option (api * option Z * Z) := v8m_posix_memalign call_handler e st memptr alignment size.
Definition memalign (e : call_env) (st : api) (alignment size : Z) : option (api * Z) := v8m_memalign call_handler e st alignment size.
Definition valloc (e : call_env) (st : api) (page size : Z) : option (api * Z) := v8m_valloc call_handler e st page size.
Definition pvalloc (e : call_env) (st : api) (page size : Z) : option (api * Z) := v8m_pvalloc call_handler e st page size.

Definition __libc_malloc (e : call_env) (st : api) (size : Z) : option (api * Z) := v8m_malloc call_handler e st size.
Definition __libc_free (e : call_env) (st : api) (ptr : Z) : option api := v8m_free e st ptr.
Definition __libc_calloc (e : call_env) (st : api) (nmemb size : Z) : option (api * Z) := v8m_calloc call_handler e st nmemb size.
Definition __libc_realloc (e ef : call_env) (st : api) (ptr size : Z) : option (api * Z) := v8m_realloc call_handler e ef st ptr size.
Definition __libc_memalign (e : call_env) (st : api) (alignment size : Z) : option (api * Z) := v8m_memalign call_handler e st alignment size.
Definition __libc_valloc (e : call_env) (st : api) (page size : Z) : option (api * Z) := v8m_valloc call_handler e st page size.
Definition __libc_pvalloc (e : call_env) (st : api) (page size : Z) : option (api * Z) := v8m_pvalloc call_handler e st page size.

(** ** The C++ operators *)

Definition _ZnwmRKSt9nothrow_t (e : call_env) (st : api) (size nothrow : Z) : option (api * Z) := v8m_malloc call_handler e st size.
Definition _ZnamRKSt9nothrow_t (e : call_env) (st : api) (size nothrow : Z) : option (api * Z) := v8m_malloc call_handler e st size.
Definition _ZnwmSt11align_val_tRKSt9nothrow_t (e : call_env) (st : api) (size alignment nothrow : Z) : option (api * Z) := v8m_aligned_alloc call_handler e st alignment size.
Definition _ZnamSt11align_val_tRKSt9nothrow_t (e : call_env) (st : api) (size alignment nothrow : Z) : option (api * Z) := v8m_aligned_alloc call_handler e st alignment size.
Definition _ZdlPv (e : call_env) (st : api) (ptr : Z) : option api := v8m_free e st ptr.
Definition _ZdaPv (e : call_env) (st : api) (ptr : Z) : option api := v8m_free e st ptr.
Definition _ZdlPvm (e : call_env) (st : api) (ptr size : Z) : option api := v8m_free e st ptr.
Definition _ZdaPvm (e : call_env) (st : api) (ptr size : Z) : option api := v8m_free e st ptr.
Definition _ZdlPvSt11align_val_t (e : call_env) (st : api) (ptr alignment : Z) : option api := v8m_free e st ptr.
Definition _ZdaPvSt11align_val_t (e : call_env) (st : api) (ptr alignment : Z) : option api := v8m_free e st ptr.
Definition _ZdlPvmSt11align_val_t (e : call_env) (st : api) (ptr size alignment : Z) : option api := v8m_free e st ptr.
Definition _ZdaPvmSt11align_val_t (e : call_env) (st : api) (ptr size alignment : Z) : option api := v8m_free e st ptr.
Definition _ZdlPvRKSt9nothrow_t (e : call_env) (st : api) (ptr nothrow : Z) : option api := v8m_free e st ptr.
Definition _ZdaPvRKSt9nothrow_t (e : call_env) (st : api) (ptr nothrow : Z) : option api := v8m_free e st ptr.
Definition _ZdlPvSt11align_val_tRKSt9nothrow_t (e : call_env) (st : api) (ptr alignment nothrow : Z) : option api := v8m_free e st ptr.
Definition _ZdaPvSt11align_val_tRKSt9nothrow_t (e : call_env) (st : api) (ptr alignment nothrow : Z) : option api := v8m_free e st ptr.

(** ** Programs over the symbols *)

(** Where a block comes from, where it goes, and what is called by no other name. *)
Inductive new_symbol := New_malloc | New_libc | New_nothrow | New_array_nothrow.
Inductive aligned_symbol := Aligned_alloc | Memalign | Memalign_libc | New_aligned | New_array_aligned.
Inductive delete_symbol :=
| Free | Free_libc | Delete | Delete_array | Delete_sized (size : Z) | Delete_array_sized (size : Z)
| Delete_aligned (alignment : Z) | Delete_array_aligned (alignment : Z) | Delete_sized_aligned (size alignment : Z) | Delete_array_sized_aligned (size alignment : Z)
| Delete_nothrow | Delete_array_nothrow | Delete_aligned_nothrow (alignment : Z) | Delete_array_aligned_nothrow (alignment : Z).

Definition call_new (s : new_symbol) (e : call_env) (st : api) (size nothrow : Z) : option (api * Z) :=
  match s with
  | New_malloc => malloc e st size
  | New_libc => __libc_malloc e st size
  | New_nothrow => _ZnwmRKSt9nothrow_t e st size nothrow
  | New_array_nothrow => _ZnamRKSt9nothrow_t e st size nothrow
  end.
Definition call_aligned (s : aligned_symbol) (e : call_env) (st : api) (size alignment nothrow : Z) : option (api * Z) :=
  match s with
  | Aligned_alloc => aligned_alloc e st alignment size
  | Memalign => memalign e st alignment size
  | Memalign_libc => __libc_memalign e st alignment size
  | New_aligned => _ZnwmSt11align_val_tRKSt9nothrow_t e st size alignment nothrow
  | New_array_aligned => _ZnamSt11align_val_tRKSt9nothrow_t e st size alignment nothrow
  end.
Definition call_delete (s : delete_symbol) (e : call_env) (st : api) (ptr nothrow : Z) : option api :=
  match s with
  | Free => free e st ptr
  | Free_libc => __libc_free e st ptr
  | Delete => _ZdlPv e st ptr
  | Delete_array => _ZdaPv e st ptr
  | Delete_sized size => _ZdlPvm e st ptr size
  | Delete_array_sized size => _ZdaPvm e st ptr size
  | Delete_aligned alignment => _ZdlPvSt11align_val_t e st ptr alignment
  | Delete_array_aligned alignment => _ZdaPvSt11align_val_t e st ptr alignment
  | Delete_sized_aligned size alignment => _ZdlPvmSt11align_val_t e st ptr size alignment
  | Delete_array_sized_aligned size alignment => _ZdaPvmSt11align_val_t e st ptr size alignment
  | Delete_nothrow => _ZdlPvRKSt9nothrow_t e st ptr nothrow
  | Delete_array_nothrow => _ZdaPvRKSt9nothrow_t e st ptr nothrow
  | Delete_aligned_nothrow alignment => _ZdlPvSt11align_val_tRKSt9nothrow_t e st ptr alignment nothrow
  | Delete_array_aligned_nothrow alignment => _ZdaPvSt11align_val_tRKSt9nothrow_t e st ptr alignment nothrow
  end.

Inductive linked_call :=
| LNew (s : new_symbol) (e : call_env) (size : Z)
| LCalloc (libc : bool) (e : call_env) (nmemb size : Z)
| LAligned (s : aligned_symbol) (e : call_env) (log_al size : Z)
| LRealloc (libc : bool) (e ef : call_env) (i : nat) (size : Z)
| LDelete (s : delete_symbol) (e : call_env) (i : nat)
| LOwn (c : call).

(** [nothrow] is the address of the tag object, which no operator reads. *)
Definition perform_linked (nothrow : Z) (c : linked_call) (st : api) (U : list ublock) : option (api * list ublock) :=
  match c with
  | LNew s e size => gets size ∅ U (call_new s e st size nothrow)
  | LCalloc libc e nmemb size => gets (nmemb * size) (zeros (nmemb * size)) U ((if libc then __libc_calloc else calloc) e st nmemb size)
  | LAligned s e log_al size => gets size ∅ U (call_aligned s e st size (2 ^ log_al) nothrow)
  | LRealloc libc e ef i size =>
      match U !! i with
      | None => Some (st, U)
      | Some u =>
          match (if libc then __libc_realloc else realloc) e ef st u.(ub_ptr) size with
          | None => None
          | Some (st, q) => Some (st, if q =? NULL then U else MkBlock q size (prefix_data u.(ub_data) size) :: delete i U)
          end
      end
  | LDelete s e i =>
      match U !! i with
      | None => Some (st, U)
      | Some u => match call_delete s e st u.(ub_ptr) nothrow with None => None | Some st => Some (st, delete i U) end
      end
  | LOwn c => perform call_handler c st U
  end.

(** The call of [ApiProgram] a linked call amounts to. *)
Definition as_call (c : linked_call) : call :=
  match c with
  | LNew _ e size => CMalloc e size
  | LCalloc _ e nmemb size => CCalloc e nmemb size
  | LAligned _ e log_al size => CAligned e log_al size
  | LRealloc _ e ef i size => CRealloc e ef i size
  | LDelete _ e i => CFree e i
  | LOwn c => c
  end.

Lemma linked_performs nothrow c st U : perform_linked nothrow c st U = perform call_handler (as_call c) st U.
Proof. by destruct c as [[]| []|[]| []|[]|]. Qed.

End Symbols.

(** ** The C library behind it *)

(** The looked-up functions; [None] is NULL.  [L] is the C library's own state. *)
Record libc_fallback (L : Type) := MkFallback {
  g_libc_free : option (Z -> L -> L);
  g_libc_malloc : option (Z -> L -> L * Z);
  g_libc_calloc : option (Z -> Z -> L -> L * Z);
  g_libc_realloc : option (Z -> Z -> L -> L * Z);
  g_initialized : bool
}.
Arguments MkFallback {L}.
Arguments g_libc_free {L}.
Arguments g_libc_malloc {L}.
Arguments g_libc_calloc {L}.
Arguments g_libc_realloc {L}.
Arguments g_initialized {L}.

Section Fallback.
Context {L : Type}.
Implicit Types (f : libc_fallback L) (l : L).

(** [found] is what the four [dlsym] look-ups give. *)
Definition v8m_libc_fallback_init (found : libc_fallback L) (f : libc_fallback L) : libc_fallback L :=
  if f.(g_initialized) then f else MkFallback found.(g_libc_free) found.(g_libc_malloc) found.(g_libc_calloc) found.(g_libc_realloc) true.
Definition v8m_libc_fallback_ready (f : libc_fallback L) : bool := match f.(g_libc_free) with Some _ => true | None => false end.
Definition v8m_libc_free (f : libc_fallback L) (ptr : Z) (l : L) : L := match f.(g_libc_free) with Some func => func ptr l | None => l end.
Definition v8m_libc_malloc (f : libc_fallback L) (size : Z) (l : L) : L * Z := match f.(g_libc_malloc) with Some func => func size l | None => (l, NULL) end.

(** The look-up happens once; before it, or when a name is not found, a release is
    dropped and a request fails. *)
Lemma fallback_spec found found' f l ptr :
  v8m_libc_fallback_init found' (v8m_libc_fallback_init found f) = v8m_libc_fallback_init found f /\
  (v8m_libc_fallback_ready f = false -> v8m_libc_free f ptr l = l).
Proof. unfold v8m_libc_fallback_init, v8m_libc_fallback_ready, v8m_libc_free. split; [by destruct (g_initialized f) eqn:E; rewrite ?E|by destruct (g_libc_free f)]. Qed.

End Fallback.

(** ** Mixed programs *)

Section Programs.
Context `{PSL : PageSourceLaws} {PV : PageHeapView}.
Context (ext extd : list (Z * Z)) (m : bool) (image : Z * Z).
Context (call_handler : Z -> Z -> api -> api * Z).

Inductive linked_run : list linked_call -> api -> list ublock -> Prop :=
| linked_start st U : executes ext extd m image call_handler [] st U -> linked_run [] st U
| linked_step nothrow c cs st U st' U' : linked_run cs st U -> allowed call_handler (as_call c) st U -> perform_linked call_handler nothrow c st U = Some (st', U') -> linked_run (cs ++ [c]) st' U'.

Lemma linked_executes cs st U : linked_run cs st U -> executes ext extd m image call_handler (as_call <$> cs) st U.
Proof.
  induction 1 as [st U He|nothrow c cs st U st' U' _ IH Ha Hp]; [done|]. rewrite fmap_app. rewrite linked_performs in Hp. by eapply exec_step.
Qed.

(** A program that allocates under any of these names and releases under any other
    (an object of [operator new] with [free], one of [aligned_alloc] with a sized
    [operator delete]) keeps its blocks apart and reads back what it stored. *)
Theorem linked_programs_safe cs st U : handler_law ext extd m image call_handler -> linked_run cs st U ->
  (forall i j u v, U !! i = Some u -> U !! j = Some v -> i <> j -> u.(ub_ptr) + u.(ub_size) <= v.(ub_ptr) \/ v.(ub_ptr) + v.(ub_size) <= u.(ub_ptr)) /\
  (forall u off v, u ∈ U -> u.(ub_data) !! off = Some v -> peek st u.(ub_ptr) off = v).
Proof.
  intros Hh Hr. destruct (executes_holds ext extd m image call_handler Hh _ _ _ (linked_executes _ _ _ Hr)) as (B & Ho). split.
  - intros i j u v. by apply (holds_apart ext extd m image st U B).
  - intros u off v. by apply (holds_reads ext extd m image st U B).
Qed.

End Programs.

End Interpose.
