(* ===== verification/ApiCases.v ===== *)
(** Concrete runs of the public entry points ([Api]) on the example machine of
    [ApiSpec] that part from what the code's own comments promise: the red zone
    counted as usable, the ring of freed pointers across changes of the debug mode,
    [v8m_realloc] of a block of the signal-safe buffer, a soft limit passed by a sum
    that wraps, and alignments of 16 and of more than 256 KiB. *)

From S2P Require Import Prelude SizeClass Page Bump Config Os PageHeap PageSource NumaPool SlabPool BuddyPool Large LargeSpec Dispatch DispatchSpec Api ApiControl ApiBoot ApiProgram ApiSpec.
Import SizeClass Page Config PageSource Dispatch DispatchSpec Api ApiControl ApiBoot ApiProgram ApiSpec.

Module ApiCases.

#[local] Existing Instance Os.log_os_laws.

Definition ex_debug : api := (v8m_set_option ex_start V8M_OPT_DEBUG 1).1.
Definition ex_big : option (api * Z) := v8m_malloc no_handler ex_cenv ex_debug 3000000.
Definition returns {A} (r : option A) : bool := match r with Some _ => true | None => false end.

(** The usable size of a large object counts its red zone: in debug mode a store
    inside the size [v8m_malloc_usable_size] reports, past the size asked for, makes
    [v8m_free] abort. *)
Definition zone_run : option (bool * bool * bool) :=
  match ex_big with
  | Some (st, p) => Some (3000000 <? v8m_malloc_usable_size st p, returns (v8m_free ex_cenv st p), returns (v8m_free ex_cenv (poke st p 3000000 0) p))
  | None => None
  end.
Lemma redzone_counts_as_usable : zone_run = Some (true, true, false).
Proof. vm_compute. reflexivity. Qed.

(** [v8m_realloc] grows the object in place over its red zone, and the release of
    the object it returns aborts once the program has filled what it asked for. *)
Definition grow_run : option (bool * bool) :=
  match ex_big with
  | Some (st, p) =>
      match v8m_realloc no_handler ex_cenv ex_cenv st p 3000100 with
      | Some (st, q) => Some (p =? q, returns (v8m_free ex_cenv (poke st q 3000050 0) q))
      | None => None
      end
  | None => None
  end.
Lemma grown_in_place_aborts : grow_run = Some (true, false).
Proof. vm_compute. reflexivity. Qed.

(** A pointer released with the debug mode on stays on record while it is off, also
    when it is handed out again; with the mode back on its first release aborts. *)
Definition toggle_run : option (bool * bool) :=
  match v8m_malloc no_handler ex_cenv ex_debug 5000 with
  | None => None
  | Some (st, p) =>
      match v8m_free ex_cenv st p with
      | None => None
      | Some st =>
          match v8m_malloc no_handler ex_cenv (v8m_set_option st V8M_OPT_DEBUG 0).1 5000 with
          | None => None
          | Some (st, q) => Some (p =? q, returns (v8m_free ex_cenv (v8m_set_option st V8M_OPT_DEBUG 1).1 q))
          end
      end
  end.
Lemma debug_toggle_aborts : toggle_run = Some (true, false).
Proof. vm_compute. reflexivity. Qed.

(** [v8m_realloc] takes the size of a block of the signal-safe buffer for 0, so it
    copies nothing of it to the block it returns. *)
Definition ex_signal : Z := 2 ^ 30 + 2 ^ 19.
Lemma signal_safe_realloc_empty :
  Bump.v8m_ptr_is_signal_safe ex_start.(v8m_signal_safe_bump) ex_signal = true /\ Bump.v8m_signal_safe_remaining ex_start.(v8m_signal_safe_bump) ex_signal = 65536 /\
  v8m_malloc_usable_size ex_start ex_signal = 0 /\ returns (v8m_realloc no_handler ex_cenv ex_cenv ex_start ex_signal 64) = true.
Proof. vm_compute. repeat split. Qed.

(** The gate adds request and live bytes modulo [2^64]: above the limit already, it
    turns a request of two pages away and lets one of almost [2^64] bytes pass (which
    the page heap then refuses). *)
Definition wrap_run : option (bool * bool) :=
  match v8m_malloc no_handler ex_cenv ex_start 3000000 with
  | Some (st, _) =>
      let st := (v8m_set_soft_limit st 4096).1 in
      Some ((over_soft_limit st 8192).2, (over_soft_limit st (2 ^ 64 - bytes_live st)).2)
  | None => None
  end.
Lemma soft_limit_wraps : wrap_run = Some (true, false).
Proof. vm_compute. reflexivity. Qed.

(** Of two blocks of 24 bytes asked for at an alignment of 16, one is not aligned to
    16: both are slots of the same page of the class of 24 bytes. *)
Definition ex_16 := v8m_posix_memalign no_handler ex_cenv ex_start true 16 24.
Definition align16_run :=
  match ex_16 with
  | Some (st, p, _) => match v8m_posix_memalign no_handler ex_cenv st true 16 24 with Some (_, q, _) => Some (p, q) | None => None end
  | None => None
  end.
Lemma posix_memalign_16_misaligned : align16_run = Some (Some (2 ^ 31 + 2099368), Some (2 ^ 31 + 2099344)) /\ (2 ^ 31 + 2099368) mod 16 = 8.
Proof. split; vm_compute; reflexivity. Qed.

(** An alignment beyond the largest one supported fails with [ENOMEM]. *)
Lemma oversized_alignment_enomem :
  ((fun r => (r.1.(errno), r.2)) <$> v8m_aligned_alloc no_handler ex_cenv ex_start (2 ^ 19) 100) = Some (ENOMEM, NULL).
Proof. vm_compute. reflexivity. Qed.

End ApiCases.
